(* ===== verification/_CoqProject ===== *)
-Q . S2P
Prelude.v
Update.v
RString.v
Utf8.v
Float.v
GeJu.v
Path.v
Json.v
Permission.v
Links.v
Tool.v
Scheduler.v
HumanPlate.v
Mind.v
Principles.v
Breaker.v
Provider.v
SessionBus.v
Completion.v
Patch.v
Files.v
DiskOutput.v
Background.v
Calendar.v
Cron.v
ToolParse.v
Hooks.v
Context.v
Compaction.v
Loop.v
Dispatch.v
Batch.v
Early.v
Turn.v
Stream.v
Subagent.v
Delegate.v
Seeds.v
Zuowang.v
Signal.v
Vasana.v
Spirits.v
Wire.v
Composer.v
Cards.v
Markup.v
Tui.v
Config.v
Gateway.v
Rin.v
Diff.v
Skills.v
Evolution.v
Lsp.v
Search.v
Graph.v
Tasks.v
Prompt.v
Sessions.v
PostLoop.v
Run.v
