(* ===== verification/Prelude.v ===== *)
(** * Jia: a verification library for the agent runtime

    Jia (src/kernel/src) runs a language model as an agent: a turn loop streams
    the model, parses the tool calls out of its answer, passes every call
    through a series of gates, executes the calls that pass in conflict-free
    batches, and keeps the history, the memory and the context window in shape.
    A daemon serves agents to a terminal interface (src/tui/src).  This library
    models the deterministic core of both as executable Rocq definitions and
    proves what each part promises.

    ** Parts and files

    Foundations.  [Prelude] (this file): results and their monad, machine
    integers, list searches, tactics.  [Update]: assignment to a field of a
    record.  [RString]: Rust's [str] over bytes, with the characters of UTF-8.
    [Utf8]: decoding and validating bytes.  [Float]: IEEE 754 arithmetic on
    [SpecFloat] in the widths the code uses.  [Path]: [std::path] components and
    joins.  [Json]: serde_json values and the accessors the code uses.

    Deciding about a call.  [GeJu]: the pattern engine (geju/, stems/,
    palaces/mod.rs).  [Principles]: the learned Layer 4 (principles/mod.rs and
    its table).  [Permission]: paths, commands, deny rules and the verifier's
    allowlist (palaces/qian_permission).  [Links]: a tree with symbolic links,
    on which the standard library's answers are computed and the check of paths
    is shown to confine, and where it does not.  [Tool]: the tool interface and
    registry.  [HumanPlate]: the eight gates and [prepare]
    (plates/ren_human/mod.rs).  [Hooks]: hooks of the kernel and of the user;
    [Spirits]: the hooks that watch a session and report (plates/shen_spirit).
    [Dispatch]: the serial gate [gate_one_tool] and the early dispatcher
    (plates/tian_heaven/loop_dispatch.rs), composed from all of these.

    Running calls.  [Scheduler]: access declarations, conflicts and batches
    (tool_scheduler.rs).  [Batch]: the concurrency window of a batch as a step
    relation over the joins of its tasks, the outcomes at the barrier and the
    bookkeeping of an outcome (loop.rs, phases 3 and 4).  [Early]: what starts
    while an answer still streams.  [Stream]: the request of a turn with its
    retries.  [Turn]: the tool phase, from the early slots and the late gate to
    the entries of the history.  [Loop]: the loop's own guards, the steering
    checkpoints and the end of a turn (loop.rs).  [Run]: [Agent::run] itself,
    turn after turn, over all of these.  [Prompt]: the system prompt
    (tian_heaven/mod.rs, loop_prompt.rs).  [PostLoop]: what an agent does when
    its loop has ended (loop_post.rs).  [SessionBus]: what sessions share with
    the outside.  [ToolParse]: tool calls in the text of an answer
    (stems/tool_parse.rs).

    Memory and context.  [Mind]: working memory, self-model and turn certainty.
    [Context]: the sliding window and the budget of tool outputs
    (palaces/xun_context/mod.rs).  [Compaction]: history entries, preserved user
    messages, the degradation chain of the summarizer and the compaction step.
    [Completion]: the checklist of test results.  [Seeds]: the table of seeds with
    its tiers and budgets (vijnana/alaya, gen_store/seeds.rs); over it [Signal]
    (what the user's messages tell), [Vasana] (co-activation, consolidation and
    distillation), [Zuowang] (forgetting) and [Graph] (the triples between seeds,
    gen_store/graph.rs, and the tool over them).  [Sessions]: the tables of
    sessions, workspaces and the self-model (gen_store/).

    The model's answer.  [Provider]: the readers of the three streaming protocols
    (palaces/zhong_core): from the bytes of the network to text, tool calls, usage
    and errors.  [Breaker]: circuit breaker, failover and backoff.  [Config]: the
    configuration file with its defaults (palaces/kun_config).

    Tools and services.  [Patch], [Files]: reading, editing, writing and
    reverting files.  [Search]: grep, glob and the scratchpad.  [Lsp]: the client
    of language servers (exec/lsp.rs).  [Calendar], [Cron]: expressions, job
    store, runner, tool and gateway handler.  [DiskOutput]: output files of tasks
    and saved tool results.  [Background]: the store of background tasks with its
    snapshots, and the report of a finished task to its session.  [Tasks]: the
    task list (exec/task.rs).  [Subagent]: the permits, the consumer of incoming
    messages and the run of a sub-agent (spawn.rs, subagent_batch.rs).
    [Delegate]: the delegate and send_message tools.  [Skills]: skill files, their
    registry and tool (palaces/li_skill); [Evolution]: their revision by the
    model, with [Diff] for its record.

    Daemon and terminal.  [Gateway]: keys, rates, running sessions and replies
    (palaces/dui_gateway).  [Rin]: the terminal's socket (dui_gateway/rin.rs) over
    the same state.  [Wire]: the messages between them, written and read.
    [Composer], [Cards], [Markup], [Tui]: the input line, the lines and cards,
    markdown and wrapping, and the state of the interface (src/tui/src).

    ** How code becomes definitions

    A method of the code is a function from the old state to the result and the
    new state; a struct is a record with the code's fields, an enum an inductive
    type with its variants.  Errors are values of [result]; a panic, where the
    code can panic, is [None].  Strings are byte strings; lengths and offsets are
    bytes where Rust's are.  Integers whose width matters are [Z] with their
    wrapping or saturating operations written out.  What the code obtains from
    elsewhere is an argument: the operating system and the file system, the
    clock, serde_json, YAML, shell_words, glob, regex, the tokenizer, Unicode
    case, the width of characters, the order of hash maps and of rows SQLite
    leaves open, the answers of users, of hooks and of the language model.
    Classes ([FileSystem], [LruCache], [Tokenizer], [SkillFs], [Yaml]) state what
    is relied on, with instances on which the witnesses compute.

    Concurrency appears where the code has it: the joins of a batch and of the
    early dispatcher, the operations on the task store and on the permits come in
    any order, as lists or as step relations, and the theorems quantify over all
    of them.  A lock that is held for a whole method makes the method one step;
    the buffered writer of task output, which writes after it has let its lock go,
    is modelled for one caller at a time.

    ** Fuel

    [HumanPlate.prepare] bounds the mutual recursion of the guarded and the
    sandboxed path; two units suffice ([prepare_fuel_enough]).  The scanners of
    [ToolParse] take the length of the text; more changes nothing
    ([parse_fuel_enough]).  The readers of [Rin] and [Lsp] take one more than the
    bytes that are there, as does the search for the last heading in [Prompt]: a
    pass that does not consume a byte ends them.  The way back through the table
    of [Diff] takes the sum of its two positions.  The expansion of [Graph] takes
    two more than the rows ([expand_ends]).  [Run.run] takes one more than the
    turns left ([run_ends]).  A lookup in [Links] follows at most forty links, as
    Linux does.  Other recursion is structural.

    ** What the theorems show

    Safety of the gates: a cleared call satisfied every rule that applies to it,
    a deny rule is absolute, learned principles only tighten, early dispatch never
    asks, accepted paths lead where they seem to but for links that are not
    resolved.  Functional behaviour: paths and commands accepted, edits and
    reverts, listings, cron schedules, failover, compaction, bookkeeping, diffs,
    and every outcome of a sub-agent.  Invariants: the window of a batch, the
    approval memory, the job store, early dispatch, the skill registry, the
    interface of the terminal, the task store.  Equivalences with reference
    definitions: batch planning, the conflict matrix, the calendar, the repeat
    guard, file patterns, the search of the graph, the editing of the input line.
    Termination: the run of an agent, [prepare], every schedule of a batch, a
    connection, idle runs.  Conservation: what a user pushes during a run, what a
    task store reports.  Round trips, bounds and error paths: the protocol of the
    terminal, the call parser, the settings of a revised skill, the token budgets,
    the summarizer.  Examples record behaviour that departs from the code's own
    documentation.

    ** Not modelled

    The wording of prompts, tool descriptions and JSON schemas; the request
    bodies of providers; the text of SQL statements, whose effect on the tables is
    written out; the routing of HTTP requests; drawing on the screen; processes,
    the operating system's sandboxes, MCP servers, WASM plugins, the browser and
    computer use; message channels and the command line; the assembly of the earth
    plate, which wires what is modelled elsewhere; the hooks that only log.
    Wall-clock timing appears only where the code compares instants.
*)

From stdpp Require Export base option list gmap strings pretty.
From Stdlib Require Export ZArith Lia Bool.
From Stdlib Require Import Ascii Sorted.

(** ** Rust's [Result] *)

Inductive result (E T : Type) : Type :=
| Ok (t : T)
| Err (e : E).
Arguments Ok {E T} t.
Arguments Err {E T} e.

#[export] Instance result_ret {E} : MRet (result E) := fun T => Ok.
#[export] Instance result_bind {E} : MBind (result E) := fun T U k r =>
  match r with
  | Ok t => k t
  | Err e => Err e
  end.
#[export] Instance result_fmap {E} : FMap (result E) := fun T U f r =>
  match r with
  | Ok t => Ok (f t)
  | Err e => Err e
  end.

Definition is_ok {E T} (r : result E T) : bool :=
  match r with Ok _ => true | Err _ => false end.

Definition ok {E T} (r : result E T) : option T :=
  match r with Ok t => Some t | Err _ => None end.

Definition map_err {E F T} (f : E -> F) (r : result E T) : result F T :=
  match r with Ok t => Ok t | Err e => Err (f e) end.

Definition ok_or {E T} (o : option T) (e : E) : result E T :=
  match o with Some t => Ok t | None => Err e end.

Lemma bind_Ok {E T U} (r : result E T) (k : T -> result E U) u :
  (r ≫= k) = Ok u <-> exists t, r = Ok t /\ k t = Ok u.
Proof.
  destruct r as [t|e]; cbn.
  - split; [eauto|]. by intros (t' & [= ->] & ?).
  - split; [done|]. by intros (t' & ? & _).
Qed.

Lemma ok_Some {E T} (r : result E T) t : ok r = Some t <-> r = Ok t.
Proof. destruct r; cbn; naive_solver. Qed.

Lemma ok_or_Ok {E T} (o : option T) (e : E) t : ok_or o e = Ok t -> o = Some t.
Proof. destruct o; cbn; congruence. Qed.

(** ** Tactics of the development *)

(** Case analysis on the innermost match of the goal or of a hypothesis,
    keeping the equation. *)
Ltac split_match :=
  match goal with
  | |- context [match ?x with _ => _ end] =>
      lazymatch x with context [match _ with _ => _ end] => fail | _ => destruct x eqn:? end
  | H : context [match ?x with _ => _ end] |- _ =>
      lazymatch x with context [match _ with _ => _ end] => fail | _ => destruct x eqn:? end
  end.

(** Turn boolean tests that decide propositions into those propositions. *)
Ltac bool_to_prop :=
  repeat match goal with
  | H : _ && _ = true |- _ => apply andb_true_iff in H as [? ?]
  | H : _ || _ = false |- _ => apply orb_false_iff in H as [? ?]
  | H : negb _ = true |- _ => apply negb_true_iff in H
  | H : negb _ = false |- _ => apply negb_false_iff in H
  | H : bool_decide _ = true |- _ => apply bool_decide_eq_true in H
  | H : bool_decide _ = false |- _ => apply bool_decide_eq_false in H
  | H : (_ =? _)%Z = true |- _ => apply Z.eqb_eq in H
  | H : (_ =? _)%Z = false |- _ => apply Z.eqb_neq in H
  | H : (_ <? _)%Z = true |- _ => apply Z.ltb_lt in H
  | H : (_ <? _)%Z = false |- _ => apply Z.ltb_ge in H
  | H : (_ <=? _)%Z = true |- _ => apply Z.leb_le in H
  | H : (_ <=? _)%Z = false |- _ => apply Z.leb_gt in H
  | H : (_ =? _)%nat = true |- _ => apply Nat.eqb_eq in H
  | H : (_ =? _)%nat = false |- _ => apply Nat.eqb_neq in H
  | H : (_ <? _)%nat = true |- _ => apply Nat.ltb_lt in H
  | H : (_ <? _)%nat = false |- _ => apply Nat.ltb_ge in H
  | H : (_ <=? _)%nat = true |- _ => apply Nat.leb_le in H
  | H : (_ <=? _)%nat = false |- _ => apply Nat.leb_gt in H
  end.

(** The standard way to close a case of a handler: split the guards, turn
    them into propositions and finish with congruence or arithmetic. *)
Ltac crush := repeat (split_match; simplify_eq/=); bool_to_prop; try done; try lia.

(** ** Machine integers *)

Definition u8_max : Z := 2 ^ 8 - 1.
Definition u32_max : Z := 2 ^ 32 - 1.
Definition u64_max : Z := 2 ^ 64 - 1.

Definition wrap_u64 (z : Z) : Z := z mod 2 ^ 64.

Definition saturating_sub (a b : Z) : Z := Z.max 0 (a - b).
Definition saturating_add_u64 (a b : Z) : Z := Z.min u64_max (a + b).

(** ** Lists *)

(** [Iterator::position]: the index of the first element that satisfies [p]. *)
Fixpoint position {A} (p : A -> bool) (l : list A) : option nat :=
  match l with
  | [] => None
  | x :: l' => if p x then Some 0 else S <$> position p l'
  end.

Lemma position_Some {A} (p : A -> bool) l i :
  position p l = Some i <->
  exists l1 x l2, l = l1 ++ x :: l2 /\ length l1 = i /\ p x = true /\ Forall (fun y => p y = false) l1.
Proof.
  revert i. induction l as [|y l IH]; intros i; cbn.
  - split; [done|]. intros (l1 & x & l2 & He & _). by destruct l1.
  - destruct (p y) eqn:Hp.
    + split.
      * intros [= <-]. by exists [], y, l.
      * intros (l1 & x & l2 & He & Hlen & _ & Hall).
        destruct l1 as [|z l1']; simplify_eq/=; [done|].
        apply Forall_cons in Hall as [? _]. congruence.
    + rewrite fmap_Some. split.
      * intros (j & Hj & ->). apply IH in Hj as (l1 & x & l2 & -> & <- & Hx & Hall).
        exists (y :: l1), x, l2. auto.
      * intros (l1 & x & l2 & He & Hlen & Hx & Hall).
        destruct l1 as [|z l1']; simplify_eq/=; [congruence|].
        apply Forall_cons in Hall as [_ Hall].
        exists (length l1'). split; [|done]. apply IH. by exists l1', x, l2.
Qed.

Lemma position_None {A} (p : A -> bool) l :
  position p l = None <-> Forall (fun y => p y = false) l.
Proof.
  induction l as [|y l IH]; cbn; [by split|].
  destruct (p y) eqn:Hp; rewrite Forall_cons.
  - split; [done|]. intros [? _]. congruence.
  - rewrite fmap_None, IH. tauto.
Qed.

Lemma find_None_forall {A} (f : A -> bool) l : List.find f l = None <-> forall x, x ∈ l -> f x = false.
Proof.
  split.
  - intros H x Hx. apply (List.find_none f l H). by apply list_elem_of_In.
  - intros H. destruct (List.find f l) as [x|] eqn:Hf; [|done].
    apply List.find_some in Hf as [Hin Hx]. apply list_elem_of_In in Hin. by rewrite H in Hx.
Qed.

Lemma not_existsb {A} (f : A -> bool) l : existsb f l = false <-> forall x, x ∈ l -> f x = false.
Proof.
  induction l as [|y l IH]; cbn; [set_solver|].
  rewrite orb_false_iff, IH. set_solver.
Qed.

(** Boolean filters. *)

Lemma filter_twice {A} (p q : A -> bool) l : List.filter p (List.filter q l) = List.filter (fun x => q x && p x) l.
Proof. induction l as [|x l IH]; [done|]. cbn. destruct (q x); cbn; [|done]. destruct (p x); by rewrite IH. Qed.

Lemma elem_of_Lfilter {A} (p : A -> bool) l x : x ∈ List.filter p l <-> x ∈ l /\ p x = true.
Proof. rewrite !list_elem_of_In. apply filter_In. Qed.

Lemma filter_all {A} (p : A -> bool) l : (forall x, x ∈ l -> p x = true) -> List.filter p l = l.
Proof. induction l as [|x l IH]; intros Hp; [done|]. cbn. rewrite Hp by set_solver. f_equal. apply IH. set_solver. Qed.

Lemma filter_length_mono {A} (p q : A -> bool) l : (forall x, p x = true -> q x = true) ->
  length (List.filter p l) <= length (List.filter q l).
Proof.
  intros H. induction l as [|x l IH]; [done|]. cbn. destruct (p x) eqn:E; [rewrite (H x E); cbn; lia|].
  destruct (q x); cbn; lia.
Qed.

Lemma omap_ext_in {A B} (f g : A -> option B) (l : list A) : (forall x, x ∈ l -> f x = g x) -> omap f l = omap g l.
Proof.
  intros H. induction l as [|x l IH]; [done|]. cbn. rewrite (H x) by set_solver. rewrite IH by set_solver. done.
Qed.

Lemma omap_filter_map {A B} (p : A -> bool) (g : A -> B) (l : list A) :
  map g (List.filter p l) = omap (fun x => if p x then Some (g x) else None) l.
Proof. induction l as [|x l IH]; [done|]. cbn. destruct (p x); cbn; by rewrite IH. Qed.

#[export] Instance Lfilter_Permutation {A} (p : A -> bool) : Proper ((≡ₚ) ==> (≡ₚ)) (List.filter p).
Proof.
  induction 1 as [|x l l' _ IH|x y l|l1 l2 l3 _ IH1 _ IH2]; cbn; [done| | |by etransitivity].
  - destruct (p x); [by constructor|done].
  - destruct (p x), (p y); try done. constructor.
Qed.

(** [slice::sort_by] and [sort_by_key]: stable sorting. *)

Section StableSort.
Context {A : Type} (R : relation A) `{forall x y, Decision (R x y)}.

Fixpoint insert_by (x : A) (l : list A) : list A :=
  match l with
  | [] => [x]
  | y :: l' => if decide (R x y) then x :: l else y :: insert_by x l'
  end.

Definition stable_sort (l : list A) : list A := foldr insert_by [] l.

Lemma insert_by_Permutation x l : insert_by x l ≡ₚ x :: l.
Proof. induction l as [|y l IH]; cbn; [done|]. destruct (decide (R x y)); [done|]. by rewrite IH, Permutation_swap. Qed.

Lemma stable_sort_Permutation l : stable_sort l ≡ₚ l.
Proof. induction l as [|x l IH]; cbn; [done|]. by rewrite insert_by_Permutation, IH. Qed.

Lemma insert_by_HdRel y x l : R y x -> HdRel R y l -> HdRel R y (insert_by x l).
Proof. intros Hx Hl. destruct l as [|z l]; cbn; [by constructor|]. inversion Hl; subst. destruct (decide (R x z)); by constructor. Qed.

Lemma Sorted_stable_sort `{!Total R} l : Sorted R (stable_sort l).
Proof.
  induction l as [|x l IH]; [constructor|]. change (stable_sort (x :: l)) with (insert_by x (stable_sort l)).
  induction IH as [|y k Hs IH Hd]; cbn; [by repeat constructor|].
  destruct (decide (R x y)) as [?|Hn]; [by repeat constructor|]. constructor; [done|].
  apply insert_by_HdRel; [|done]. by destruct (total R x y).
Qed.

Lemma StronglySorted_stable_sort `{!Transitive R, !Total R} l : StronglySorted R (stable_sort l).
Proof. apply Sorted_StronglySorted; [intros ???; by etransitivity|]. apply Sorted_stable_sort. Qed.

(** Elements the order does not tell apart stay in their order. *)
Lemma stable_sort_stable (p : A -> bool) l : (forall x y, p x = true -> p y = true -> R x y) ->
  List.filter p (stable_sort l) = List.filter p l.
Proof.
  intros Hp. assert (Hi : forall x k, List.filter p (insert_by x k) = List.filter p (x :: k)).
  { intros x k. induction k as [|y k IH]; [done|]. cbn [insert_by]. destruct (decide (R x y)) as [?|Hn]; [done|].
    cbn [List.filter] in *. rewrite IH. destruct (p x) eqn:Ex, (p y) eqn:Ey; try done. exfalso. apply Hn. by apply Hp. }
  induction l as [|x l IH]; [done|]. unfold stable_sort in *. cbn [foldr]. rewrite Hi. cbn. by rewrite IH.
Qed.
End StableSort.
