(* ===== verification/Update.v ===== *)
(** * Updating one field of a record

    A [Setter] of a projection rewrites that field and keeps the others.  It is
    derived from the record's eta expansion, and [a <| f := x |>] assigns. *)

From S2P Require Import Prelude.

Class Setter {R T : Type} (proj : R -> T) : Type := update : (T -> T) -> R -> R.
Arguments update {R T} proj {_} _ _.

(** [eta] is [fun r => Build (p1 r) ... (pn r)]. *)
Ltac derive_setter eta :=
  match goal with
  | |- Setter ?proj =>
      let e := eval unfold eta in eta in
      match eval pattern proj in e with
      | ?g _ => let body := eval cbv beta in (fun f => g (fun r => f (proj r))) in exact body
      end
  end.

Declare Scope update_scope.
Notation "a <| f := x |>" := (update f (fun _ => x) a) (at level 12, left associativity, f at next level) : update_scope.
Notation "a <| f ::= g |>" := (update f g a) (at level 12, left associativity, f at next level) : update_scope.
