(* ===== verification/RString.v ===== *)
(** * Rust's [str], as UTF-8 bytes

    A Rust [String] is a Stdlib [string] whose characters are the bytes of its
    UTF-8 encoding, so lengths and offsets are byte lengths and byte offsets, as
    in Rust.  [chars] groups the bytes into characters; the predicates on
    characters ([char::is_whitespace], [is_ascii_digit], ...) read one group. *)

From S2P Require Export Prelude.
From Stdlib Require Import Ascii.
From Stdlib Require String.
Local Open Scope string_scope.
#[local] Arguments String.append !_ _ : simpl nomatch.

(** ** Offsets *)

Abbreviation len := String.length.

Fixpoint take_str (n : nat) (s : string) : string :=
  match n, s with
  | S n', String c s' => String c (take_str n' s')
  | _, _ => ""
  end.

Fixpoint drop_str (n : nat) (s : string) : string :=
  match n, s with
  | S n', String _ s' => drop_str n' s'
  | _, _ => s
  end.

(** [&s[a..b]]. *)
Definition slice (a b : nat) (s : string) : string := take_str (b - a) (drop_str a s).

Fixpoint prefixb (p s : string) : bool :=
  match p, s with
  | "", _ => true
  | String a p', String b s' => Ascii.eqb a b && prefixb p' s'
  | _, _ => false
  end.

(** [str::find] of a string: the byte offset of the leftmost occurrence. *)
Fixpoint find_str (pat s : string) : option nat :=
  if prefixb pat s then Some 0
  else match s with
       | "" => None
       | String _ s' => S <$> find_str pat s'
       end.

(** [str::rfind] of a string. *)
Fixpoint rfind_str (pat s : string) : option nat :=
  match s with
  | "" => if prefixb pat s then Some 0 else None
  | String _ s' =>
      match rfind_str pat s' with
      | Some i => Some (S i)
      | None => if prefixb pat s then Some 0 else None
      end
  end.

Definition contains_str (s pat : string) : bool := bool_decide (is_Some (find_str pat s)).
Definition starts_with (s p : string) : bool := prefixb p s.
Definition ends_with (s p : string) : bool :=
  (len p <=? len s)%nat && String.eqb (drop_str (len s - len p) s) p.
Definition strip_prefix_str (s p : string) : option string :=
  if prefixb p s then Some (drop_str (len p) s) else None.
Definition strip_suffix_str (s p : string) : option string :=
  if ends_with s p then Some (take_str (len s - len p) s) else None.
Definition is_empty_str (s : string) : bool := String.eqb s "".

(** [matches!(s, "a" | "b" | ...)]. *)
Definition one_of (s : string) (l : list string) : bool := existsb (String.eqb s) l.

(** [str::match_indices] with a nonempty pattern: the non-overlapping
    occurrences, from the left.  [skip] counts the bytes of the last match still
    to pass over. *)
Fixpoint match_indices_from (pat s : string) (pos skip : nat) : list nat :=
  match s with
  | "" => []
  | String _ s' =>
      match skip with
      | S k => match_indices_from pat s' (S pos) k
      | O =>
          if prefixb pat s then pos :: match_indices_from pat s' (S pos) (len pat - 1)
          else match_indices_from pat s' (S pos) 0
      end
  end.

(** [str::replace] with a nonempty pattern. *)
Fixpoint replace_from (pat new s : string) (skip : nat) : string :=
  match s with
  | "" => ""
  | String c s' =>
      match skip with
      | S k => replace_from pat new s' k
      | O =>
          if prefixb pat s then new +:+ replace_from pat new s' (len pat - 1)
          else String c (replace_from pat new s' 0)
      end
  end.
Definition replace_str (s pat new : string) : string := replace_from pat new s 0.

(** [str::split] on one ASCII character: always at least one piece. *)
Fixpoint split_char (c : ascii) (s : string) : list string :=
  match s with
  | "" => [""]
  | String d s' =>
      if Ascii.eqb c d then "" :: split_char c s'
      else match split_char c s' with
           | p :: ps => String d p :: ps
           | [] => [String d ""]
           end
  end.

Definition newline : ascii := "010"%char.

(** A line break and a double quote, as strings. *)
Definition nl : string := String newline "".
Definition dq : string := String (ascii_of_nat 34) "".
Definition cr : ascii := "013"%char.

(** [str::split_inclusive] on one ASCII character: the pieces keep it, and an
    empty rest yields no piece. *)
Fixpoint split_inclusive (c : ascii) (s : string) : list string :=
  match s with
  | "" => []
  | String d s' =>
      if Ascii.eqb c d then String d "" :: split_inclusive c s'
      else match split_inclusive c s' with
           | p :: ps => String d p :: ps
           | [] => [String d ""]
           end
  end.

(** [str::lines]: the pieces that end at a newline, without it and without the
    carriage return before it; a last piece without a newline is kept as it is. *)
Definition strip_eol (l : string) : string :=
  match strip_suffix_str l (String newline "") with
  | None => l
  | Some l' => default l' (strip_suffix_str l' (String cr ""))
  end.
Definition lines (s : string) : list string := strip_eol <$> split_inclusive newline s.

Fixpoint str_join (sep : string) (l : list string) : string :=
  match l with
  | [] => ""
  | [x] => x
  | x :: l' => x +:+ sep +:+ str_join sep l'
  end.

Definition concat_str (l : list string) : string := foldr String.append "" l.

(** ** Characters *)

Definition byte_val (c : ascii) : nat := nat_of_ascii c.

Definition is_cont_byte (c : ascii) : bool := (128 <=? byte_val c)%nat && (byte_val c <? 192)%nat.

Definition starts_with_cont (s : string) : bool :=
  match s with String b _ => is_cont_byte b | "" => false end.

(** The characters, each as its UTF-8 bytes: a byte is followed in its group by
    the continuation bytes after it. *)
Fixpoint chars (s : string) : list string :=
  match s with
  | "" => []
  | String b s' =>
      match chars s' with
      | c :: cs => if starts_with_cont c then String b c :: cs else String b "" :: c :: cs
      | [] => [String b ""]
      end
  end.

(** The byte offsets of the characters, then the length. *)
Fixpoint char_offsets (pos : nat) (cs : list string) : list nat :=
  match cs with
  | [] => [pos]
  | c :: cs' => pos :: char_offsets (pos + len c) cs'
  end.

(** [str::match_indices]: an empty pattern matches at every character boundary. *)
Definition match_indices (pat s : string) : list nat :=
  if is_empty_str pat then char_offsets 0 (chars s) else match_indices_from pat s 0 0.

Definition of_chars (cs : list string) : string := concat_str cs.

Definition ascii_in (lo hi : nat) (c : ascii) : bool := (lo <=? byte_val c)%nat && (byte_val c <=? hi)%nat.
Definition is_ascii_digit (c : ascii) : bool := ascii_in 48 57 c.
Definition is_ascii_lower (c : ascii) : bool := ascii_in 97 122 c.
Definition is_ascii_upper (c : ascii) : bool := ascii_in 65 90 c.
Definition is_ascii_alphabetic (c : ascii) : bool := is_ascii_lower c || is_ascii_upper c.
Definition is_ascii_alphanumeric (c : ascii) : bool := is_ascii_alphabetic c || is_ascii_digit c.

Definition char_all (p : ascii -> bool) (s : string) : bool := forallb p (String.list_ascii_of_string s).
Definition char_any (p : ascii -> bool) (s : string) : bool := existsb p (String.list_ascii_of_string s).

Definition to_lower_ascii (c : ascii) : ascii :=
  if is_ascii_upper c then ascii_of_nat (byte_val c + 32) else c.
Fixpoint to_ascii_lowercase (s : string) : string :=
  match s with
  | "" => ""
  | String c s' => String (to_lower_ascii c) (to_ascii_lowercase s')
  end.

(** [char::is_whitespace] on the UTF-8 bytes of one character (the Unicode
    [White_Space] property). *)
Definition is_whitespace (c : string) : bool :=
  match map byte_val (String.list_ascii_of_string c) with
  | [b] => ((9 <=? b) && (b <=? 13) || (b =? 32))%nat
  | [a; b] => ((a =? 194) && ((b =? 133) || (b =? 160)))%nat
  | [a; b; c] =>
      ((a =? 225) && (b =? 154) && (c =? 128) ||
       (a =? 226) && (b =? 128) && ((128 <=? c) && (c <=? 138) || (c =? 168) || (c =? 169) || (c =? 175)) ||
       (a =? 226) && (b =? 129) && (c =? 159) ||
       (a =? 227) && (b =? 128) && (c =? 128))%nat
  | _ => false
  end.

Fixpoint drop_while {A} (p : A -> bool) (l : list A) : list A :=
  match l with
  | [] => []
  | x :: l' => if p x then drop_while p l' else l
  end.

Definition trim_start (s : string) : string := of_chars (drop_while is_whitespace (chars s)).
Definition trim_end (s : string) : string :=
  of_chars (reverse (drop_while is_whitespace (reverse (chars s)))).
Definition trim (s : string) : string := trim_end (trim_start s).

(** [str::split] on a character predicate. *)
Fixpoint split_chars_by (p : string -> bool) (cs : list string) : list (list string) :=
  match cs with
  | [] => [[]]
  | c :: cs' =>
      if p c then [] :: split_chars_by p cs'
      else match split_chars_by p cs' with
           | g :: gs => (c :: g) :: gs
           | [] => [[c]]
           end
  end.
Definition split_by (p : string -> bool) (s : string) : list string :=
  of_chars <$> split_chars_by p (chars s).
Definition split_whitespace (s : string) : list string :=
  filter (fun w => w <> "") (split_by is_whitespace s).

(** ** Numbers *)

Fixpoint digits_val (s : string) (acc : Z) : option Z :=
  match s with
  | "" => Some acc
  | String c s' =>
      if is_ascii_digit c then digits_val s' (acc * 10 + Z.of_nat (byte_val c - 48))%Z else None
  end.

(** [str::parse] of an unsigned integer of maximum [hi]: an optional plus sign
    and at least one digit. *)
Definition parse_unsigned (hi : Z) (s : string) : option Z :=
  let body := default s (strip_prefix_str s "+") in
  if is_empty_str body then None
  else n ← digits_val body 0; if (n <=? hi)%Z then Some n else None.

(** [str::parse] of a signed integer between [lo] and [hi]. *)
Definition parse_signed (lo hi : Z) (s : string) : option Z :=
  match strip_prefix_str s "-" with
  | Some body =>
      if is_empty_str body then None
      else n ← digits_val body 0; if (lo <=? - n)%Z then Some (- n)%Z else None
  | None => parse_unsigned hi s
  end.

Definition i32_min : Z := - 2 ^ 31.
Definition i32_max : Z := 2 ^ 31 - 1.

(** ** Lemmas *)

Lemma app_len a b : len (a +:+ b) = (len a + len b)%nat.
Proof. induction a as [|c a IH]; cbn; [done|]. by rewrite IH. Qed.

Lemma app_nil_r_str (a : string) : a +:+ "" = a.
Proof. induction a as [|c a IH]; cbn; [done|]. by rewrite IH. Qed.

Lemma app_assoc_str (a b c : string) : (a +:+ b) +:+ c = a +:+ b +:+ c.
Proof. induction a as [|x a IH]; cbn; [done|]. by rewrite IH. Qed.

Lemma take_drop_str n s : take_str n s +:+ drop_str n s = s.
Proof. revert s. induction n as [|n IH]; intros [|c s]; cbn; try done. by rewrite IH. Qed.

Lemma take_app_str a b : take_str (len a) (a +:+ b) = a.
Proof. induction a as [|c a IH]; cbn; [by destruct b|]. by rewrite IH. Qed.

Lemma drop_app_str a b : drop_str (len a) (a +:+ b) = b.
Proof. induction a as [|c a IH]; cbn; [by destruct b|]. done. Qed.

Lemma len_take_str n s : len (take_str n s) = Nat.min n (len s).
Proof. revert s. induction n as [|n IH]; intros [|c s]; cbn; try done. by rewrite IH. Qed.

Lemma len_drop_str n s : len (drop_str n s) = (len s - n)%nat.
Proof. revert s. induction n as [|n IH]; intros [|c s]; cbn; try done. Qed.

Lemma prefixb_spec p s : prefixb p s = true <-> exists r, s = p +:+ r.
Proof.
  revert s. induction p as [|a p IH]; intros s; cbn.
  - split; [by exists s|done].
  - destruct s as [|b s].
    + split; [done|]. by intros [r ?].
    + rewrite andb_true_iff, Ascii.eqb_eq, IH. split.
      * intros [-> [r ->]]. by exists r.
      * intros [r [= -> ->]]. eauto.
Qed.

Lemma prefixb_app p r : prefixb p (p +:+ r) = true.
Proof. apply prefixb_spec. by exists r. Qed.

(** The result of [find_str] splits the string at the leftmost occurrence. *)
Lemma find_str_Some pat s i :
  find_str pat s = Some i ->
  exists a b, s = a +:+ pat +:+ b /\ len a = i /\ forall j, (j < i)%nat -> prefixb pat (drop_str j s) = false.
Proof.
  revert i. induction s as [|c s IH]; intros i; cbn.
  - destruct (prefixb pat "") eqn:Hp; [|done]. intros [= <-].
    apply prefixb_spec in Hp as [r Hr]. exists "", r. split; [exact Hr|]. split; [done|intros ? ?; exfalso; lia].
  - destruct (prefixb pat (String c s)) eqn:Hp.
    + intros [= <-]. apply prefixb_spec in Hp as [r Hr]. exists "", r. rewrite Hr. split; [done|]. split; [done|intros ? ?; exfalso; lia].
    + destruct (find_str pat s) as [j|] eqn:Hf; cbn; [|done]. intros [= <-].
      destruct (IH j eq_refl) as (a & b & -> & <- & Hmin).
      exists (String c a), b. split; [done|]. split; [done|].
      intros [|k] Hk; cbn; [done|]. apply Hmin. lia.
Qed.

Lemma find_str_None pat s : find_str pat s = None <-> forall a b, s <> a +:+ pat +:+ b.
Proof.
  induction s as [|c s IH]; cbn.
  - destruct (prefixb pat "") eqn:Hp.
    + apply prefixb_spec in Hp as [r Hr]. split; [done|]. intros H. by destruct (H "" r).
    + split; [|done]. intros _ a b He. destruct a; [|done].
      assert (prefixb pat "" = true) by (apply prefixb_spec; by exists b). congruence.
  - destruct (prefixb pat (String c s)) eqn:Hp.
    + apply prefixb_spec in Hp as [r Hr]. split; [done|]. intros H. by destruct (H "" r).
    + rewrite fmap_None, IH. split.
      * intros H [|x a] b He.
        -- assert (prefixb pat (String c s) = true) by (apply prefixb_spec; by exists b). congruence.
        -- injection He as -> He. by destruct (H a b).
      * intros H a b ->. by destruct (H (String c a) b).
Qed.

Lemma contains_str_spec s pat : contains_str s pat = true <-> exists a b, s = a +:+ pat +:+ b.
Proof.
  unfold contains_str. rewrite bool_decide_eq_true. split.
  - intros [i Hi]. apply find_str_Some in Hi as (a & b & ? & _). eauto.
  - intros (a & b & ->). destruct (find_str pat _) eqn:Hf; [by eexists|].
    exfalso. by apply (proj1 (find_str_None _ _) Hf a b).
Qed.

Lemma concat_chars s : of_chars (chars s) = s.
Proof.
  unfold of_chars. induction s as [|b s IH]; [done|]. cbn.
  destruct (chars s) as [|c cs]; [cbn in *; congruence|].
  destruct (starts_with_cont c); cbn in *; by rewrite <- IH.
Qed.

Lemma match_indices_skip pat s pos skip :
  match_indices_from pat s pos skip = match_indices_from pat (drop_str skip s) (pos + skip) 0.
Proof.
  revert pos skip. induction s as [|c s IH]; intros pos [|k]; cbn; rewrite ?Nat.add_0_r; try done.
  rewrite IH. f_equal; lia.
Qed.

(** The first match is the leftmost occurrence and the others are those of the
    text after it. *)
Lemma match_indices_find pat s pos : pat <> ""%string ->
  match_indices_from pat s pos 0 =
  match find_str pat s with
  | None => []
  | Some i => (pos + i)%nat :: match_indices_from pat (drop_str (i + len pat) s) (pos + i + len pat) 0
  end.
Proof.
  intros Hne. revert pos. induction s as [|c s IH]; intros pos; cbn [match_indices_from find_str].
  - by destruct pat.
  - destruct (prefixb pat (String c s)) eqn:Hp.
    + rewrite Nat.add_0_r. f_equal. rewrite match_indices_skip.
      destruct pat as [|d pat]; [done|]. cbn [String.length Nat.add drop_str].
      rewrite Nat.sub_succ, Nat.sub_0_r. f_equal; cbn; lia.
    + rewrite IH. destruct (find_str pat s) as [i|]; cbn; [|done]. f_equal; [lia|]. f_equal; lia.
Qed.

Lemma replace_skip pat new s skip : replace_from pat new s skip = replace_from pat new (drop_str skip s) 0.
Proof. revert skip. induction s as [|c s IH]; intros [|k]; cbn; try done. Qed.

Lemma concat_str_app (l1 l2 : list string) : concat_str (l1 ++ l2)%list = concat_str l1 +:+ concat_str l2.
Proof. unfold concat_str. induction l1 as [|x l1 IH]; cbn; [done|]. by rewrite IH, app_assoc_str. Qed.

Lemma app_inj_str (a b c d : string) : len a = len c -> a +:+ b = c +:+ d -> a = c /\ b = d.
Proof.
  intros Hl He. split.
  - rewrite <- (take_app_str a b), He, Hl. apply take_app_str.
  - rewrite <- (drop_app_str a b), He, Hl. apply drop_app_str.
Qed.

(** A run of characters of a text is the characters of its own text. *)
Lemma chars_split s (cs1 cs2 : list string) : chars s = (cs1 ++ cs2)%list ->
  chars (of_chars cs1) = cs1 /\ chars (of_chars cs2) = cs2.
Proof.
  revert cs1 cs2. induction s as [|b s IH]; intros cs1 cs2.
  - intros [-> ->]%eq_sym%app_nil. done.
  - destruct cs1 as [|x cs1].
    { cbn [app]. intros <-. by rewrite concat_chars. }
    cbn [chars]. destruct (chars s) as [|c cs] eqn:Hs.
    { intros [= <- [-> ->]%eq_sym%app_nil]. done. }
    destruct (starts_with_cont c) eqn:Hc; intros [= <- He].
    + destruct (IH (c :: cs1) cs2) as [H1 H2]; [by rewrite He|]. split; [|done].
      unfold of_chars in *. cbn [concat_str foldr] in *. cbn [String.append chars]. fold (concat_str cs1) in *.
      by rewrite H1, Hc.
    + destruct (IH cs1 cs2 He) as [H1 H2]. split; [|done].
      unfold of_chars in *. cbn [concat_str foldr String.append chars]. fold (concat_str cs1).
      rewrite H1. destruct cs1 as [|y cs1]; [done|]. injection He as -> _. by rewrite Hc.
Qed.

Lemma split_char_ne c s : split_char c s <> [].
Proof. destruct s as [|d s]; cbn; [done|]. destruct (Ascii.eqb c d); [done|]. by destruct (split_char c s). Qed.

Lemma join_cons sep x l : l <> [] -> str_join sep (x :: l) = x +:+ sep +:+ str_join sep l.
Proof. by destruct l. Qed.

(** Splitting and joining on the same character is the identity. *)
Lemma join_split_char c s : str_join (String c "") (split_char c s) = s.
Proof.
  induction s as [|d s IH]; cbn; [done|].
  pose proof (split_char_ne c s) as Hne.
  destruct (Ascii.eqb_spec c d) as [->|Hcd].
  - rewrite join_cons by done. cbn. by rewrite IH.
  - destruct (split_char c s) as [|p ps]; [done|].
    destruct ps as [|q ps]; cbn in *; by rewrite <- IH.
Qed.

Lemma one_of_spec s l : one_of s l = true <-> s ∈ l.
Proof.
  unfold one_of. rewrite existsb_exists. split.
  - by intros (x & Hx%list_elem_of_In & ->%String.eqb_eq).
  - intros H%list_elem_of_In. exists s. by rewrite String.eqb_refl.
Qed.

Lemma one_of_false s l : one_of s l = false <-> s ∉ l.
Proof. rewrite <- one_of_spec. by destruct (one_of s l). Qed.

Lemma drop_str_app n a b : (n <= len a)%nat -> drop_str n (a +:+ b) = drop_str n a +:+ b.
Proof. revert a. induction n as [|n IH]; intros [|c a] H; cbn in *; try done; try lia. apply IH. lia. Qed.

Lemma take_str_app n a b : (n <= len a)%nat -> take_str n (a +:+ b) = take_str n a.
Proof. revert a. induction n as [|n IH]; intros [|c a] H; cbn in *; try done; try lia. by rewrite IH by lia. Qed.

Lemma drop_str_app_plus a b n : drop_str (len a + n) (a +:+ b) = drop_str n b.
Proof. induction a as [|c a IH]; cbn; [done|apply IH]. Qed.

Lemma drop_all_str s : drop_str (len s) s = "".
Proof. rewrite <- (app_nil_r_str s) at 2. apply drop_app_str. Qed.

Lemma ends_with_app a b : ends_with (a +:+ b) b = true.
Proof.
  unfold ends_with. rewrite app_len.
  replace (len a + len b - len b)%nat with (len a) by lia.
  rewrite drop_app_str, String.eqb_refl, andb_true_r. apply Nat.leb_le. lia.
Qed.

Lemma ends_with_spec s l : ends_with s l = true <-> exists a, s = a +:+ l.
Proof.
  split; [|intros (a & ->); apply ends_with_app].
  unfold ends_with. intros H. apply andb_true_iff in H as [Hl He]. exists (take_str (len s - len l) s).
  apply String.eqb_eq in He. rewrite <- He at 2. by rewrite take_drop_str.
Qed.

Lemma strip_suffix_app a b : strip_suffix_str (a +:+ b) b = Some a.
Proof.
  unfold strip_suffix_str. rewrite ends_with_app, app_len.
  replace (len a + len b - len b)%nat with (len a) by lia. by rewrite take_app_str.
Qed.

(** [rfind] looks past anything in front of its result. *)
Lemma rfind_str_app pat a b i : rfind_str pat b = Some i -> rfind_str pat (a +:+ b) = Some (len a + i)%nat.
Proof. intros H. induction a as [|c a IH]; cbn; [done|]. by rewrite IH. Qed.

Lemma rfind_str_None pat s : rfind_str pat s = None <-> find_str pat s = None.
Proof.
  induction s as [|c s IH]; cbn; [by destruct (prefixb pat "")|].
  destruct (prefixb pat (String c s)); destruct (rfind_str pat s); destruct (find_str pat s); naive_solver.
Qed.

Lemma rfind_str_cons pat c s :
  rfind_str pat (String c s) =
  match rfind_str pat s with
  | Some i => Some (S i)
  | None => if prefixb pat (String c s) then Some 0 else None
  end.
Proof. done. Qed.

(** ** Absent characters *)

Definition has_char (c : ascii) (s : string) : bool := char_any (Ascii.eqb c) s.

Lemma has_char_cons c d s : has_char c (String d s) = Ascii.eqb c d || has_char c s.
Proof. done. Qed.
#[global] Arguments has_char : simpl never.

Lemma has_char_app c a b : has_char c (a +:+ b) = has_char c a || has_char c b.
Proof. induction a as [|d a IH]; cbn; [done|]. rewrite !has_char_cons, IH. by rewrite orb_assoc. Qed.

(** A pattern does not occur where its first character does not. *)
Lemma find_str_head_absent c pat s : has_char c s = false -> find_str (String c pat) s = None.
Proof.
  induction s as [|d s IH]; [done|]. rewrite has_char_cons, orb_false_iff. intros [Hcd Hs].
  cbn [find_str prefixb]. rewrite Hcd, (IH Hs). done.
Qed.

(** A character is found where it first stands. *)
Lemma find_str_char c a b : has_char c a = false -> find_str (String c "") (a +:+ String c b) = Some (len a).
Proof.
  induction a as [|d a IH]; [cbn; by rewrite Ascii.eqb_refl|]. rewrite has_char_cons, orb_false_iff.
  intros [Hcd Ha]. change (String d a +:+ String c b) with (String d (a +:+ String c b)).
  cbn [find_str prefixb]. rewrite Hcd, (IH Ha). done.
Qed.

(** ** Decimal numbers *)

Lemma pretty_char_digit (d : N) :
  (d < 10)%N -> is_ascii_digit (pretty_N_char d) = true /\ Z.of_nat (byte_val (pretty_N_char d) - 48) = Z.of_N d.
Proof.
  intros H.
  assert (Hall : Forall (fun d => is_ascii_digit (pretty_N_char d) = true /\
    Z.of_nat (byte_val (pretty_N_char d) - 48) = Z.of_N d) (N.of_nat <$> seq 0 10)) by by repeat constructor.
  rewrite Forall_forall in Hall. apply Hall. apply list_elem_of_fmap. exists (N.to_nat d).
  split; [by rewrite N2Nat.id|]. apply elem_of_seq. lia.
Qed.

Lemma digits_val_go x s : digits_val (pretty_N_go x s) 0 = digits_val s (Z.of_N x).
Proof.
  revert s. induction x as [x IH] using (well_founded_ind N.lt_wf_0). intros s.
  destruct (decide (0 < x)%N) as [Hpos|Hz].
  - rewrite pretty_N_go_step by done. rewrite IH by (apply N.div_lt; lia). cbn [digits_val].
    destruct (pretty_char_digit (x mod 10)) as [-> ->]; [by apply N.mod_lt|]. f_equal.
    rewrite N2Z.inj_div, N2Z.inj_mod. change (Z.of_N 10) with 10%Z.
    pose proof (Z.div_mod (Z.of_N x) 10). lia.
  - assert (x = 0)%N as -> by lia. by rewrite pretty_N_go_0.
Qed.

Lemma digits_val_pretty (n : N) : digits_val (pretty n) 0 = Some (Z.of_N n).
Proof.
  unfold pretty, pretty_N. case_decide; [by subst|]. by rewrite digits_val_go.
Qed.

(** Characters a printed integer consists of. *)
Definition number_char (c : ascii) : bool := is_ascii_digit c || Ascii.eqb c "-".

Lemma pretty_go_chars x s : char_all number_char s = true -> char_all number_char (pretty_N_go x s) = true.
Proof.
  revert s. induction x as [x IH] using (well_founded_ind N.lt_wf_0). intros s Hs.
  destruct (decide (0 < x)%N) as [Hpos|Hz].
  - rewrite pretty_N_go_step by done. apply IH; [apply N.div_lt; lia|].
    change (number_char (pretty_N_char (x mod 10)) && char_all number_char s = true).
    rewrite Hs. unfold number_char. by destruct (pretty_char_digit (x mod 10)) as [-> _]; [apply N.mod_lt|].
  - assert (x = 0)%N as -> by lia. by rewrite pretty_N_go_0.
Qed.

Lemma pretty_N_chars (n : N) : char_all number_char (pretty n) = true.
Proof. unfold pretty, pretty_N. case_decide; [done|]. by apply pretty_go_chars. Qed.

Lemma pretty_Z_chars (z : Z) : char_all number_char (pretty z) = true.
Proof. destruct z; [done|apply (pretty_N_chars (Npos p))|]. apply (pretty_N_chars (Npos p)). Qed.

Lemma pretty_N_ne (n : N) : pretty n <> ""%string.
Proof. intros H. pose proof (digits_val_pretty n) as Hd. destruct n; [done|]. by rewrite H in Hd. Qed.

Lemma number_not_has c s : char_all number_char s = true -> number_char c = false -> has_char c s = false.
Proof.
  induction s as [|d s IH]; intros Hs Hc; [done|]. cbn in Hs. apply andb_true_iff in Hs as [Hd Hs].
  rewrite has_char_cons, IH by done. rewrite orb_false_r. apply Ascii.eqb_neq. congruence.
Qed.

(** ** Trimming ASCII text *)

Definition is_graph (c : ascii) : bool := ascii_in 33 126 c.

Lemma graph_not_cont c : is_graph c = true -> is_cont_byte c = false.
Proof.
  unfold is_graph, ascii_in, is_cont_byte. intros H. bool_to_prop.
  apply andb_false_iff. left. apply Nat.leb_gt. lia.
Qed.

Lemma graph_not_whitespace c : is_graph c = true -> is_whitespace (String c "") = false.
Proof.
  unfold is_graph, ascii_in, is_whitespace. cbn [String.list_ascii_of_string map]. intros H. bool_to_prop.
  apply orb_false_iff. split; [apply andb_false_iff; right; apply Nat.leb_gt; lia|apply Nat.eqb_neq; lia].
Qed.

Lemma number_graph c : number_char c = true -> is_graph c = true.
Proof.
  unfold number_char, is_graph, is_ascii_digit, ascii_in. intros H. apply orb_true_iff in H as [H|H].
  - bool_to_prop. apply andb_true_iff. split; apply Nat.leb_le; lia.
  - by apply Ascii.eqb_eq in H as ->.
Qed.

Lemma chars_head b s : exists r cs, chars (String b s) = String b r :: cs.
Proof. cbn. destruct (chars s) as [|c cs]; [eauto|]. destruct (starts_with_cont c); eauto. Qed.

Lemma chars_graph s : char_all is_graph s = true -> chars s = map (fun c => String c "") (String.list_ascii_of_string s).
Proof.
  induction s as [|c s IH]; [done|]. intros H. cbn in H. apply andb_true_iff in H as [Hc Hs].
  cbn [chars String.list_ascii_of_string map]. rewrite <- IH by done.
  destruct s as [|d s]; [done|]. destruct (chars_head d s) as (r & cs & ->).
  cbn [starts_with_cont]. cbn in Hs. apply andb_true_iff in Hs as [Hd _]. by rewrite graph_not_cont.
Qed.

Lemma drop_while_none {A} (p : A -> bool) l : (forall x, head l = Some x -> p x = false) -> drop_while p l = l.
Proof. destruct l as [|x l]; [done|]. intros H. cbn. by rewrite H. Qed.

Lemma drop_while_split {A} (p : A -> bool) l : exists g, l = (g ++ drop_while p l)%list /\ Forall (fun x => p x = true) g.
Proof.
  induction l as [|x l (g & IH & Hg)]; [by exists []|]. cbn. destruct (p x) eqn:E; [|by exists []].
  exists (x :: g). cbn. split; [by f_equal|]. by constructor.
Qed.

Lemma graph_chars_not_ws s c : char_all is_graph s = true -> c ∈ chars s -> is_whitespace c = false.
Proof.
  intros Hs Hc. rewrite chars_graph in Hc by done. apply list_elem_of_fmap in Hc as (d & -> & Hd).
  apply graph_not_whitespace. unfold char_all in Hs. rewrite forallb_forall in Hs. apply Hs. by apply list_elem_of_In.
Qed.

Lemma trim_end_graph s : char_all is_graph s = true -> trim_end s = s.
Proof.
  intros Hs. unfold trim_end. rewrite drop_while_none; [by rewrite reverse_involutive, concat_chars|].
  intros c Hc. apply (graph_chars_not_ws s); [done|]. apply elem_of_reverse. by apply head_Some_elem_of.
Qed.

Lemma trim_start_graph s : char_all is_graph s = true -> trim_start s = s.
Proof.
  intros Hs. unfold trim_start. rewrite drop_while_none; [apply concat_chars|].
  intros c Hc. apply (graph_chars_not_ws s); [done|]. by apply head_Some_elem_of.
Qed.

Lemma trim_graph s : char_all is_graph s = true -> trim s = s.
Proof. intros Hs. unfold trim. by rewrite trim_start_graph, trim_end_graph. Qed.

Lemma trim_space_graph s : char_all is_graph s = true -> trim (String " " s) = s.
Proof.
  intros Hs. unfold trim. assert (Hst : trim_start (String " " s) = s).
  { unfold trim_start. cbn [chars]. destruct s as [|d s]; [done|].
    destruct (chars_head d s) as (r & cs & Hch). pose proof Hs as Hs'. cbn in Hs'.
    apply andb_true_iff in Hs' as [Hd _].
    rewrite Hch. cbn [starts_with_cont]. rewrite graph_not_cont by done. rewrite <- Hch.
    cbn [drop_while]. change (is_whitespace " ") with true. cbv iota.
    by apply trim_start_graph. }
  by rewrite Hst, trim_end_graph.
Qed.

Lemma number_all_graph s : char_all number_char s = true -> char_all is_graph s = true.
Proof.
  unfold char_all. rewrite !forallb_forall. intros H c Hc. by apply number_graph, H.
Qed.

Lemma digits_no_sign (n : N) c : number_char c = true -> is_ascii_digit c = false ->
  prefixb (String c "") (pretty n) = false.
Proof.
  intros _ Hc. destruct (pretty n) as [|d s] eqn:Hp; [done|]. cbn.
  pose proof (digits_val_pretty n) as Hd. rewrite Hp in Hd. cbn in Hd.
  destruct (is_ascii_digit d) eqn:Hdig; [|done]. rewrite andb_true_r. apply Ascii.eqb_neq. congruence.
Qed.

Lemma pretty_N_no_plus (n : N) : prefixb "+" (pretty n) = false.
Proof.
  destruct (pretty n) as [|d s] eqn:Hp; [done|]. cbn [prefixb].
  pose proof (digits_val_pretty n) as Hd. rewrite Hp in Hd. cbn in Hd.
  destruct (is_ascii_digit d) eqn:Hdig; [|done]. rewrite andb_true_r. apply Ascii.eqb_neq.
  intros <-. done.
Qed.

(** Printing and parsing back. *)
Lemma digits_val_nonneg s acc n : (0 <= acc)%Z -> digits_val s acc = Some n -> (0 <= n)%Z.
Proof.
  revert acc. induction s as [|c s IH]; intros acc Ha; cbn; [by intros [= <-]|]. destruct (is_ascii_digit c); [|done]. apply IH. lia.
Qed.

Lemma parse_unsigned_nonneg hi s n : parse_unsigned hi s = Some n -> (0 <= n <= hi)%Z.
Proof.
  unfold parse_unsigned. destruct (is_empty_str _); [done|]. destruct (digits_val _ 0) as [m|] eqn:E; [|done]. cbn.
  destruct (Z.leb_spec m hi); [|done]. intros [= <-]. split; [|done]. by apply digits_val_nonneg in E.
Qed.

Lemma strip_prefix_some s p t : strip_prefix_str s p = Some t <-> s = p +:+ t.
Proof.
  unfold strip_prefix_str. split.
  - destruct (prefixb p s) eqn:E; [|done]. apply prefixb_spec in E as [r ->]. rewrite drop_app_str. by intros [= ->].
  - intros ->. by rewrite prefixb_app, drop_app_str.
Qed.

Lemma parse_unsigned_pretty hi (n : N) : (Z.of_N n <= hi)%Z -> parse_unsigned hi (pretty n) = Some (Z.of_N n).
Proof.
  intros H. unfold parse_unsigned, strip_prefix_str. rewrite pretty_N_no_plus. cbn [default].
  unfold is_empty_str. rewrite (proj2 (String.eqb_neq _ _) (pretty_N_ne n)), digits_val_pretty.
  cbn [mbind option_bind]. by rewrite (proj2 (Z.leb_le _ _)).
Qed.

Lemma parse_signed_pretty lo hi (z : Z) :
  (lo <= z <= hi)%Z -> parse_signed lo hi (pretty z) = Some z.
Proof.
  intros H. unfold parse_signed. destruct z as [|p|p].
  - change (pretty 0%Z) with (pretty 0%N). unfold strip_prefix_str.
    rewrite digits_no_sign by done. rewrite parse_unsigned_pretty; [done|lia].
  - change (pretty (Z.pos p)) with (pretty (N.pos p)). unfold strip_prefix_str.
    rewrite digits_no_sign by done. rewrite parse_unsigned_pretty; [done|lia].
  - change (pretty (Z.neg p)) with ("-" +:+ pretty (N.pos p)). unfold strip_prefix_str.
    rewrite prefixb_app. change (drop_str (len "-") ("-" +:+ pretty (N.pos p))) with (pretty (N.pos p)).
    unfold is_empty_str. rewrite (proj2 (String.eqb_neq _ _) (pretty_N_ne (N.pos p))), digits_val_pretty.
    cbn [mbind option_bind]. change (- Z.of_N (N.pos p))%Z with (Z.neg p).
    by rewrite (proj2 (Z.leb_le lo (Z.neg p))) by lia.
Qed.
