(* ===== verification/Utf8.v ===== *)
(** * Decoding bytes as UTF-8

    [String::from_utf8_lossy] of the standard library, with which the tools turn
    the bytes of a file or of a process into text, and the well-formedness
    [str::from_utf8] checks. *)

From S2P Require Export Prelude RString.
From Stdlib Require Import Ascii.
From Stdlib Require String.
Local Open Scope string_scope.
#[local] Arguments String.append !_ _ : simpl nomatch.

(** ** Definitions *)

Definition between (lo hi : nat) (c : ascii) : bool := (lo <=? byte_val c)%nat && (byte_val c <=? hi)%nat.

(** The second bytes allowed after the first byte of a character of three or
    four bytes: no overlong form, no surrogate, nothing above U+10FFFF. *)
Definition second3 (b c : ascii) : bool :=
  if between 224 224 b then between 160 191 c
  else if between 237 237 b then between 128 159 c
  else between 128 191 c.
Definition second4 (b c : ascii) : bool :=
  if between 240 240 b then between 144 191 c
  else if between 244 244 b then between 128 143 c
  else between 128 191 c.

(** What has to follow a first byte; [None] for a byte that starts nothing. *)
Definition expected (b : ascii) : option (list (ascii -> bool)) :=
  if between 0 127 b then Some []
  else if between 194 223 b then Some [is_cont_byte]
  else if between 224 239 b then Some [second3 b; is_cont_byte]
  else if between 240 244 b then Some [second4 b; is_cont_byte; is_cont_byte]
  else None.

Fixpoint follow (tests : list (ascii -> bool)) (r : string) (n : nat) : bool * nat :=
  match tests with
  | [] => (true, n)
  | p :: ps =>
      match r with
      | String c r' => if p c then follow ps r' (S n) else (false, n)
      | "" => (false, n)
      end
  end.

(** The first chunk of a nonempty text: whether it is a character, and its bytes.
    A chunk that is none is the longest start of one, or a single byte. *)
Definition next_chunk (s : string) : bool * nat :=
  match s with
  | "" => (true, 0)
  | String b r =>
      match expected b with
      | Some tests => follow tests r 1
      | None => (false, 1)
      end
  end.

(** U+FFFD. *)
Definition replacement_char : string :=
  String (ascii_of_nat 239) (String (ascii_of_nat 191) (String (ascii_of_nat 189) "")).

(** [skip] counts the bytes of the chunk in hand, copied when [keep]. *)
Fixpoint lossy_from (s : string) (keep : bool) (skip : nat) : string :=
  match s with
  | "" => ""
  | String b r =>
      match skip with
      | S k => if keep then String b (lossy_from r keep k) else lossy_from r keep k
      | O =>
          let '(good, n) := next_chunk s in
          if good then String b (lossy_from r true (n - 1))
          else replacement_char +:+ lossy_from r false (n - 1)
      end
  end.
Definition from_utf8_lossy (s : string) : string := lossy_from s true 0.

Fixpoint utf8_from (s : string) (skip : nat) : bool :=
  match s with
  | "" => (skip =? 0)%nat
  | String b r =>
      match skip with
      | S k => utf8_from r k
      | O => let '(good, n) := next_chunk s in good && utf8_from r (n - 1)
      end
  end.
(** [str::from_utf8] succeeds. *)
Definition is_utf8 (s : string) : bool := utf8_from s 0.

Definition is_ascii_str (s : string) : bool := char_all (between 0 127) s.
#[global] Arguments between : simpl never.

(** ** Chunks *)

Lemma drop_beyond_str n s : (len s <= n)%nat -> drop_str n s = "".
Proof. revert n. induction s as [|c s IH]; intros [|n] H; cbn in *; try done; [lia|]. apply IH. lia. Qed.

Lemma drop_drop_str n m s : drop_str (n + m) s = drop_str n (drop_str m s).
Proof.
  revert s. induction m as [|m IH]; intros s; [by rewrite Nat.add_0_r|].
  rewrite Nat.add_succ_r. destruct s as [|c s]; [by destruct n|]. cbn. apply IH.
Qed.

Lemma follow_range tests r n : (n <= snd (follow tests r n) <= n + len r)%nat.
Proof.
  revert r n. induction tests as [|p ps IH]; intros [|c r] n; cbn; try lia.
  destruct (p c); cbn; [|lia]. specialize (IH r (S n)). lia.
Qed.

Lemma next_chunk_range b r : (1 <= snd (next_chunk (String b r)) <= len (String b r))%nat.
Proof.
  cbn. destruct (expected b) as [ts|]; cbn; [|lia]. pose proof (follow_range ts r 1). lia.
Qed.

Lemma next_chunk_len s : (snd (next_chunk s) <= len s)%nat.
Proof. destruct s as [|b r]; [done|]. apply next_chunk_range. Qed.

(** A character is recognized whatever follows it. *)
Lemma follow_app tests r n b : fst (follow tests r n) = true -> follow tests (r +:+ b) n = follow tests r n.
Proof.
  revert r n. induction tests as [|p ps IH]; intros [|c r] n; cbn; try done.
  destruct (p c); [|done]. apply IH.
Qed.

Lemma next_chunk_app a b : a <> "" -> fst (next_chunk a) = true -> next_chunk (a +:+ b) = next_chunk a.
Proof.
  destruct a as [|c r]; [done|]. intros _. cbn. destruct (expected c); [|done]. apply follow_app.
Qed.

Lemma follow_take tests r n :
  fst (follow tests r n) = true -> follow tests (take_str (snd (follow tests r n) - n) r) n = follow tests r n.
Proof.
  revert r n. induction tests as [|p ps IH]; intros [|c r] n; cbn [follow fst snd take_str]; try done.
  destruct (p c) eqn:Hp; [|done]. intros H. pose proof (follow_range ps r (S n)) as Hr.
  replace (snd (follow ps r (S n)) - n)%nat with (S (snd (follow ps r (S n)) - S n)) by lia.
  cbn [take_str]. rewrite Hp. by apply IH.
Qed.

(** ** Unfolding by chunks *)

Lemma lossy_skip s keep k : (k <= len s)%nat ->
  lossy_from s keep k = (if keep then take_str k s else "") +:+ from_utf8_lossy (drop_str k s).
Proof.
  revert k. induction s as [|b s IH]; intros k Hk; cbn in Hk.
  - assert (k = 0)%nat as -> by lia. by destruct keep.
  - destruct k as [|k]; [by destruct keep|]. cbn [lossy_from take_str drop_str].
    destruct keep; rewrite IH by lia; done.
Qed.

Lemma lossy_unfold s : s <> "" ->
  from_utf8_lossy s =
  (if fst (next_chunk s) then take_str (snd (next_chunk s)) s else replacement_char)
    +:+ from_utf8_lossy (drop_str (snd (next_chunk s)) s).
Proof.
  intros Hne. destruct s as [|b r]; [done|]. pose proof (next_chunk_range b r) as Hl. unfold from_utf8_lossy at 1. cbn [lossy_from].
  destruct (next_chunk (String b r)) as [good n]. cbn [fst snd] in *. cbn [String.length] in Hl.
  destruct n as [|n]; [lia|]. cbn [drop_str take_str Nat.sub]. rewrite Nat.sub_0_r.
  destruct good; rewrite lossy_skip by lia; done.
Qed.

Lemma utf8_skip s k : utf8_from s k = (k <=? len s)%nat && is_utf8 (drop_str k s).
Proof.
  revert k. induction s as [|b s IH]; intros [|k]; cbn [utf8_from drop_str]; done.
Qed.

Lemma utf8_unfold s : s <> "" ->
  is_utf8 s = fst (next_chunk s) && is_utf8 (drop_str (snd (next_chunk s)) s).
Proof.
  intros Hne. destruct s as [|b r]; [done|]. pose proof (next_chunk_range b r) as Hl. unfold is_utf8 at 1. cbn [utf8_from].
  destruct (next_chunk (String b r)) as [good n]. cbn [fst snd] in *. cbn [String.length] in Hl.
  destruct n as [|n]; [lia|]. cbn [drop_str Nat.sub]. rewrite Nat.sub_0_r, utf8_skip.
  rewrite (proj2 (Nat.leb_le _ _)); [done|lia].
Qed.

(** Induction by chunks. *)
Lemma chunk_ind (P : string -> Prop) :
  P "" -> (forall s, s <> "" -> P (drop_str (snd (next_chunk s)) s) -> P s) -> forall s, P s.
Proof.
  intros H0 Hs s. remember (len s) as n eqn:Hn. revert s Hn.
  induction n as [n IH] using lt_wf_ind. intros s ->.
  destruct s as [|b r]; [done|]. apply Hs; [done|]. eapply IH; [|done].
  pose proof (next_chunk_range b r). rewrite len_drop_str. cbn [String.length] in *. lia.
Qed.

(** ** Well-formed text *)

Lemma is_utf8_app a b : is_utf8 a = true -> is_utf8 b = true -> is_utf8 (a +:+ b) = true.
Proof.
  intros Ha Hb. induction a as [|a Hne IH] using chunk_ind; [done|].
  rewrite utf8_unfold in Ha by done. apply andb_true_iff in Ha as [Hg Ha].
  rewrite utf8_unfold, next_chunk_app, Hg by (done || by destruct a).
  rewrite drop_str_app by apply next_chunk_len. by apply IH.
Qed.

Lemma ascii_utf8 s : is_ascii_str s = true -> is_utf8 s = true.
Proof.
  induction s as [|b s IH]; [done|]. intros H. apply andb_true_iff in H as [Hb Hs].
  unfold is_utf8. cbn [utf8_from next_chunk]. unfold expected. rewrite Hb. by apply IH.
Qed.

Lemma ascii_take n s : is_ascii_str s = true -> is_ascii_str (take_str n s) = true.
Proof.
  revert n. induction s as [|b s IH]; intros [|n] H; [done..|]. apply andb_true_iff in H as [Hb Hs].
  apply andb_true_iff. split; [done|]. by apply IH.
Qed.

Lemma ascii_drop n s : is_ascii_str s = true -> is_ascii_str (drop_str n s) = true.
Proof.
  revert n. induction s as [|b s IH]; intros [|n] H; [done..|]. apply andb_true_iff in H as [Hb Hs].
  by apply IH.
Qed.

Lemma ascii_app a b : is_ascii_str (a +:+ b) = is_ascii_str a && is_ascii_str b.
Proof.
  induction a as [|c a IH]; [done|]. unfold is_ascii_str, char_all in *. cbn. by rewrite IH, andb_assoc.
Qed.

(** Decoding changes nothing of well-formed text, and its result always is. *)
Lemma lossy_utf8 s : is_utf8 s = true -> from_utf8_lossy s = s.
Proof.
  induction s as [|s Hne IH] using chunk_ind; [done|]. rewrite utf8_unfold by done.
  intros [Hg Hs]%andb_true_iff. rewrite lossy_unfold, Hg, IH by done. apply take_drop_str.
Qed.

Lemma take_chunk_utf8 s : s <> "" -> fst (next_chunk s) = true -> is_utf8 (take_str (snd (next_chunk s)) s) = true.
Proof.
  destruct s as [|b r]; [done|]. intros _ Hg. pose proof (next_chunk_range b r) as Hr.
  assert (Hch : next_chunk (take_str (snd (next_chunk (String b r))) (String b r)) = next_chunk (String b r)).
  { cbn in Hg |- *. destruct (expected b) as [ts|] eqn:He; [|done]. cbn [snd].
    pose proof (follow_range ts r 1). destruct (snd (follow ts r 1)) as [|n] eqn:Hn; [lia|].
    cbn [take_str next_chunk]. rewrite He. replace n with (snd (follow ts r 1) - 1)%nat by lia. by apply follow_take. }
  rewrite utf8_unfold, Hch, Hg.
  - rewrite drop_beyond_str; [done|]. rewrite len_take_str. lia.
  - destruct (snd (next_chunk (String b r))); [lia|done].
Qed.

Lemma from_utf8_lossy_utf8 s : is_utf8 (from_utf8_lossy s) = true.
Proof.
  induction s as [|s Hne IH] using chunk_ind; [done|]. rewrite lossy_unfold by done.
  apply is_utf8_app; [|done]. destruct (fst (next_chunk s)) eqn:Hg; [|done]. by apply take_chunk_utf8.
Qed.

(** ** Characters of well-formed text *)

Lemma not_cont_start b : is_Some (expected b) -> is_cont_byte b = false.
Proof.
  unfold expected, between, is_cont_byte. intros [ts H].
  destruct (128 <=? byte_val b)%nat eqn:H1; [|done]. destruct (byte_val b <? 192)%nat eqn:H2; [|done].
  apply Nat.leb_le in H1. apply Nat.ltb_lt in H2.
  repeat match type of H with context [(?x <=? ?y)%nat] => destruct (Nat.leb_spec x y); try lia end;
    cbn in H; congruence.
Qed.

Lemma utf8_not_cont s : is_utf8 s = true -> starts_with_cont s = false.
Proof.
  destruct s as [|b r]; [done|]. rewrite utf8_unfold by done. intros [Hg _]%andb_true_iff.
  cbn in Hg. destruct (expected b) eqn:He; [|done]. apply not_cont_start. by rewrite He.
Qed.

(** A group of continuation bytes belongs to the character before it. *)
Lemma chars_group b w s : char_all is_cont_byte w = true -> starts_with_cont s = false ->
  chars (String b (w +:+ s)) = String b w :: chars s.
Proof.
  revert b. induction w as [|c w IH]; intros b Hw Hs.
  - cbn. destruct s as [|d s]; [done|]. destruct (chars_head d s) as (r & cs & ->).
    cbn [starts_with_cont] in *. by rewrite Hs.
  - apply andb_true_iff in Hw as [Hc Hw]. change (String c w +:+ s) with (String c (w +:+ s)).
    change (chars (String b (String c (w +:+ s)))) with
      (match chars (String c (w +:+ s)) with
       | c0 :: cs => if starts_with_cont c0 then String b c0 :: cs else String b "" :: c0 :: cs
       | [] => [String b ""]
       end).
    rewrite (IH c Hw Hs). cbn [starts_with_cont]. by rewrite Hc.
Qed.

Lemma between_cont lo hi c : (128 <= lo)%nat -> (hi <= 191)%nat -> between lo hi c = true -> is_cont_byte c = true.
Proof.
  unfold between, is_cont_byte. intros Hlo Hhi [H1 H2]%andb_true_iff. apply Nat.leb_le in H1, H2.
  apply andb_true_iff. rewrite Nat.leb_le, Nat.ltb_lt. lia.
Qed.

Lemma second_cont b c : second3 b c = true \/ second4 b c = true -> is_cont_byte c = true.
Proof.
  unfold second3, second4. intros H. destruct H as [H|H]; repeat case_match; (eapply between_cont; [| |exact H]; lia).
Qed.

(** The bytes of a character after its first are continuation bytes, and at most
    three. *)
Lemma expected_cont b ts : expected b = Some ts ->
  (length ts <= 3)%nat /\ Forall (fun p : ascii -> bool => forall c, p c = true -> is_cont_byte c = true) ts.
Proof.
  pose proof (fun c H => second_cont b c (or_introl H)) as H3.
  pose proof (fun c H => second_cont b c (or_intror H)) as H4.
  unfold expected. generalize (between 0 127 b), (between 194 223 b), (between 224 239 b), (between 240 244 b).
  intros [] [] [] [] [= <-]; (split; [cbn; lia|auto]).
Qed.

Lemma follow_cont ts r n : Forall (fun p : ascii -> bool => forall c, p c = true -> is_cont_byte c = true) ts ->
  fst (follow ts r n) = true ->
  snd (follow ts r n) = (n + length ts)%nat /\ char_all is_cont_byte (take_str (length ts) r) = true.
Proof.
  intros Hall. revert r n. induction Hall as [|p ps Hp _ IH]; intros [|c r] n; cbn [follow fst snd take_str length]; try done.
  destruct (p c) eqn:Hc; [|done]. intros [H1 H2]%IH. split; [lia|]. apply andb_true_iff. auto.
Qed.

(** The first character of a well-formed text is its first chunk. *)
Lemma chars_chunk s : s <> "" -> is_utf8 s = true ->
  chars s = take_str (snd (next_chunk s)) s :: chars (drop_str (snd (next_chunk s)) s) /\ (snd (next_chunk s) <= 4)%nat.
Proof.
  destruct s as [|b r]; [done|]. intros _. rewrite utf8_unfold by done. intros [Hg Hs]%andb_true_iff.
  cbn [next_chunk] in *. destruct (expected b) as [ts|] eqn:He; [|done].
  destruct (expected_cont b ts He) as [Hl Hall].
  destruct (follow_cont ts r 1 Hall Hg) as [Hn Hc]. rewrite Hn in *. cbn [Nat.add take_str drop_str] in *.
  split; [|lia]. rewrite <- (take_drop_str (length ts) r) at 1. apply chars_group; [done|]. by apply utf8_not_cont.
Qed.

Lemma utf8_char_len s : is_utf8 s = true -> Forall (fun c => (len c <= 4)%nat) (chars s).
Proof.
  induction s as [|s Hne IH] using chunk_ind; [constructor|]. intros Hs.
  destruct (chars_chunk s Hne Hs) as [-> Hl]. rewrite utf8_unfold in Hs by done.
  apply andb_true_iff in Hs as [_ Hs]. constructor; [|by apply IH]. rewrite len_take_str. lia.
Qed.
