(* ===== verification/Float.v ===== *)
(** * Rust's binary32 and binary64 arithmetic

    The kernel's confidence, strength and entropy values are [f32] (a few
    thresholds are [f64]).  They are modelled with the executable IEEE-754
    specification of the Standard Library ([SpecFloat]: correctly rounded,
    round-to-nearest-even, with signed zeros, infinities and NaN), which is what
    Rust's [+ - * /] and comparisons are defined to be. *)

From S2P Require Export Prelude.
From Stdlib Require Export SpecFloat.

#[export] Instance spec_float_eq_dec : EqDecision spec_float.
Proof. solve_decision. Defined.

(** ** Operations shared by the two formats *)

Section Format.
Context (prec emax : Z).

Definition of_Z (z : Z) : spec_float := binary_normalize prec emax z 0 false.
Definition fadd (x y : spec_float) := SFadd prec emax x y.
Definition fsub (x y : spec_float) := SFsub prec emax x y.
Definition fmul (x y : spec_float) := SFmul prec emax x y.
Definition fdiv (x y : spec_float) := SFdiv prec emax x y.

(** A decimal literal [num / den]: both are exactly representable for the
    literals of the source, so the correctly rounded quotient is the nearest
    float, which is how rustc reads the literal. *)
Definition lit (num den : Z) : spec_float := fdiv (of_Z num) (of_Z den).
End Format.

(** Comparisons do not depend on the format. *)
Definition fltb (x y : spec_float) : bool := SFltb x y.
Definition fleb (x y : spec_float) : bool := SFleb x y.
Definition fgtb (x y : spec_float) : bool := SFltb y x.
Definition fgeb (x y : spec_float) : bool := SFleb y x.

Definition is_nan (x : spec_float) : bool :=
  match x with S754_nan => true | _ => false end.

(** [f32::max] and [f32::min]: a NaN operand is ignored. *)
Definition fmax (x y : spec_float) : spec_float :=
  if is_nan x then y else if is_nan y then x else if fltb x y then y else x.
Definition fmin (x y : spec_float) : spec_float :=
  if is_nan x then y else if is_nan y then x else if fltb y x then y else x.

(** [f32::clamp]: a NaN receiver is returned unchanged. *)
Definition fclamp (x lo hi : spec_float) : spec_float :=
  let x := if fltb x lo then lo else x in
  if fltb hi x then hi else x.

(** A cast [as u64] or [as usize]: truncation, saturating, NaN to zero. *)
Definition trunc_to (hi : Z) (x : spec_float) : Z :=
  match x with
  | S754_nan | S754_zero _ => 0
  | S754_infinity s => if s then 0 else hi
  | S754_finite s m e =>
      if s then 0
      else Z.min hi (if (0 <=? e)%Z then Z.pos m * 2 ^ e else Z.pos m / 2 ^ (- e))
  end.

Module F32.
Definition prec : Z := 24.
Definition emax : Z := 128.
Definition of_Z := of_Z prec emax.
Definition add := fadd prec emax.
Definition sub := fsub prec emax.
Definition mul := fmul prec emax.
Definition div := fdiv prec emax.
Definition lit := lit prec emax.
End F32.

Module F64.
Definition prec : Z := 53.
Definition emax : Z := 1024.
Definition of_Z := of_Z prec emax.
Definition add := fadd prec emax.
Definition sub := fsub prec emax.
Definition mul := fmul prec emax.
Definition div := fdiv prec emax.
Definition lit := lit prec emax.
End F64.

(** ** The order on non-NaN values *)

Lemma SFcompare_antisym x y :
  SFcompare y x = CompOpp <$> SFcompare x y.
Proof.
  destruct x as [[]|[]| |[] m1 e1], y as [[]|[]| |[] m2 e2]; cbn; try done.
  all: rewrite (Z.compare_antisym e1 e2).
  all: change (Pos.compare_cont Eq) with Pos.compare; rewrite (Pos.compare_antisym m1 m2).
  all: by destruct (e1 ?= e2)%Z, (m1 ?= m2)%positive.
Qed.

Lemma SFcompare_refl x : is_nan x = false -> SFcompare x x = Some Eq.
Proof.
  destruct x as [[]|[]| |[] m e]; cbn; try done.
  all: intros _; rewrite Z.compare_refl.
  all: change (Pos.compare_cont Eq) with Pos.compare; by rewrite Pos.compare_refl.
Qed.

Lemma SFcompare_total x y :
  is_nan x = false -> is_nan y = false -> is_Some (SFcompare x y).
Proof. destruct x as [[]|[]| |[] m1 e1], y as [[]|[]| |[] m2 e2]; cbn; eauto; done. Qed.

Lemma fltb_fleb_dual x y :
  is_nan x = false -> is_nan y = false -> fltb x y = negb (fleb y x).
Proof.
  intros Hx Hy. destruct (SFcompare_total x y Hx Hy) as [c Hc].
  unfold fltb, fleb, SFltb, SFleb. rewrite (SFcompare_antisym x y), Hc. by destruct c.
Qed.

(** A value cannot be below [a] and at or above it: the two tests the
    dissolution pipeline uses to separate its bands exclude each other. *)
Lemma fltb_fgeb_excl x a : fltb x a = true -> fgeb x a = false.
Proof.
  unfold fltb, fgeb, SFltb, SFleb. rewrite (SFcompare_antisym x a).
  by destruct (SFcompare x a) as [[]|].
Qed.

Lemma fleb_refl x : is_nan x = false -> fleb x x = true.
Proof. intros H. unfold fleb, SFleb. by rewrite SFcompare_refl. Qed.

Lemma fltb_fleb x y : fltb x y = true -> fleb x y = true.
Proof. unfold fltb, fleb, SFltb, SFleb. by destruct (SFcompare x y) as [[]|]. Qed.

(** [x.min(c)] never exceeds the bound and [x.max(c)] never falls below it. *)
Lemma fmin_le x c : is_nan c = false -> fleb (fmin x c) c = true.
Proof.
  intros Hc. unfold fmin. destruct (is_nan x) eqn:Hx; [by apply fleb_refl|].
  rewrite Hc. destruct (fltb c x) eqn:Hlt; [by apply fleb_refl|].
  rewrite (fltb_fleb_dual c x Hc Hx) in Hlt. by apply negb_false_iff in Hlt.
Qed.

Lemma fmax_ge x c : is_nan c = false -> fleb c (fmax x c) = true.
Proof.
  intros Hc. unfold fmax. destruct (is_nan x) eqn:Hx; [by apply fleb_refl|].
  rewrite Hc. destruct (fltb x c) eqn:Hlt; [by apply fleb_refl|].
  rewrite (fltb_fleb_dual x c Hx Hc) in Hlt. by apply negb_false_iff in Hlt.
Qed.

Lemma fmax_nan x c : is_nan c = false -> is_nan (fmax x c) = false.
Proof. intros Hc. unfold fmax. by destruct (is_nan x) eqn:?, (fltb x c); rewrite ?Hc. Qed.

Lemma fmin_nan x c : is_nan c = false -> is_nan (fmin x c) = false.
Proof. intros Hc. unfold fmin. by destruct (is_nan x) eqn:?, (fltb c x); rewrite ?Hc. Qed.

Example lit_one_tenth : F32.lit 1 10 = S754_finite false 13421773 (-27).
Proof. reflexivity. Qed.

(** ** Formatting

    [{:.2}]: the exact binary value rounded to two decimals, half to even. *)

Definition round_half_even (num den : Z) : Z :=
  let q := (num / den)%Z in
  let r := (num mod den)%Z in
  match (2 * r ?= den)%Z with
  | Lt => q
  | Gt => q + 1
  | Eq => if Z.even q then q else q + 1
  end%Z.

Definition two_digits (n : Z) : string :=
  if (n <? 10)%Z then "0" +:+ pretty n else pretty n.

Definition fmt2 (x : spec_float) : string :=
  let sign (s : bool) (body : string) := if s then "-" +:+ body else body in
  match x with
  | S754_nan => "NaN"
  | S754_infinity s => sign s "inf"
  | S754_zero s => sign s "0.00"
  | S754_finite s m e =>
      let h :=
        if (0 <=? e)%Z then (Z.pos m * 2 ^ e * 100)%Z
        else round_half_even (Z.pos m * 100) (2 ^ (- e)) in
      sign s (pretty (h / 100)%Z +:+ "." +:+ two_digits (h mod 100))
  end.

Example fmt2_examples :
  fmt2 (F32.lit 1 3) = "0.33" /\ fmt2 (F32.lit 5 8) = "0.62" /\ fmt2 (F32.of_Z 12) = "12.00" /\
  fmt2 (F32.lit (-1) 8) = "-0.12".
Proof. repeat split. Qed.
