(* ===== verification/GeJu.v ===== *)
(** * Stems, palaces and GeJu

    The shared vocabulary of the kernel (src/kernel/src/stems/stem.rs,
    src/kernel/src/stems/intent.rs, src/kernel/src/palaces/mod.rs) and the GeJu
    policy engine (src/kernel/src/geju/evaluate.rs, src/kernel/src/geju/patterns.rs):
    the two pattern tables and the three-layer [evaluate]. *)

From S2P Require Export Prelude.

(** ** Data *)

Inductive Stem := Jia | Yi | Bing | Ding | Wu | Ji | Geng | Xin | Ren | Gui.

Inductive CeremoniesIntent :=
| IntentWu | IntentJi | IntentGeng | IntentXin | IntentRen | IntentGui.

Inductive Palace := Kan | Kun | Zhen | Xun | Zhong | Qian | Dui | Gen | Li.

Inductive ExecutionMode := Direct | Guarded | Sandbox | Denied.

Inductive ApprovalGate :=
| Permission (rule : string)
| UserConfirmation (reason : string)
| SandboxIsolation
| CodeReview.

Record GeJuResult := {
  name : string;
  execution_mode : ExecutionMode;
  requires_audit : bool;
  max_retries : Z;
  approval_chain : list ApprovalGate;
  layer : Z
}.

#[export] Instance Stem_eq_dec : EqDecision Stem.
Proof. solve_decision. Defined.
#[export] Instance CeremoniesIntent_eq_dec : EqDecision CeremoniesIntent.
Proof. solve_decision. Defined.
#[export] Instance Palace_eq_dec : EqDecision Palace.
Proof. solve_decision. Defined.
#[export] Instance ExecutionMode_eq_dec : EqDecision ExecutionMode.
Proof. solve_decision. Defined.
#[export] Instance ApprovalGate_eq_dec : EqDecision ApprovalGate.
Proof. solve_decision. Defined.
#[export] Instance GeJuResult_eq_dec : EqDecision GeJuResult.
Proof. solve_decision. Defined.

Definition ALL : list Stem := [Jia; Yi; Bing; Ding; Wu; Ji; Geng; Xin; Ren; Gui].

Lemma elem_of_ALL (s : Stem) : s ∈ ALL.
Proof. destruct s; unfold ALL; set_solver. Qed.

Definition CEREMONY_STEMS : list Stem := [Wu; Ji; Geng; Xin; Ren; Gui].

Definition as_ceremony (s : Stem) : option Stem :=
  match s with
  | Wu | Ji | Geng | Xin | Ren | Gui => Some s
  | Jia | Yi | Bing | Ding => None
  end.

(** [Palace::stem]: the earth-plate stem of a palace. *)
Definition stem (p : Palace) : Stem :=
  match p with
  | Kan => Bing
  | Kun => Yi
  | Zhen => Wu
  | Xun => Ji
  | Zhong => Geng
  | Qian => Xin
  | Dui => Ren
  | Gen => Gui
  | Li => Ding
  end.

(** ** Comparison of results *)

Definition mode_level (m : ExecutionMode) : Z :=
  match m with
  | Direct => 0
  | Guarded => 1
  | Sandbox => 2
  | Denied => 3
  end.

Definition safety_level (r : GeJuResult) : Z := mode_level (execution_mode r).

Definition is_stricter_than (a b : GeJuResult) : bool :=
  if (safety_level b <? safety_level a)%Z then true
  else if (safety_level a =? safety_level b)%Z then
    if requires_audit a && negb (requires_audit b) then true
    else if (length (approval_chain b) <? length (approval_chain a))%nat then true
    else false
  else false.

(** ** The pattern tables

    A row is [(name, mode, requires_audit, max_retries, approval_chain)]; the
    tables leave [layer] at 0 for the caller to set. *)

Definition row_result (row : string * ExecutionMode * bool * Z * list ApprovalGate) : GeJuResult :=
  let '(n, m, a, r, c) := row in
  {| name := n; execution_mode := m; requires_audit := a; max_retries := r;
     approval_chain := c; layer := 0 |}.

Definition named_pattern (heaven earth : Stem) : option GeJuResult :=
  let row :=
    match heaven, earth with
    | Bing, Wu => Some ("飞鸟跌穴", Direct, false, 0%Z, [])
    | Wu, Bing => Some ("青龙返首", Direct, false, 0%Z, [])
    | Yi, Wu => Some ("乙加戊（奇克六仪）", Direct, false, 0%Z, [])
    | Ding, Bing => Some ("星随月转", Direct, false, 0%Z, [])
    | Geng, Bing => Some ("太白入荧", Sandbox, true, 3%Z, [SandboxIsolation])
    | Bing, Geng => Some ("荧入太白", Guarded, true, 1%Z, [Permission "exec_in_transform"])
    | Xin, Ding => Some ("狱神得奇", Direct, false, 0%Z, [])
    | Ren, Geng => Some ("壬加庚", Denied, true, 0%Z, [Permission "comm_in_exec"])
    | Ding, Gui => Some ("朱雀投江", Sandbox, true, 2%Z, [SandboxIsolation])
    | Gui, Ding => Some ("腾蛇夭矫", Guarded, true, 2%Z, [UserConfirmation "存储操作涉及钩子域"])
    | Ji, Bing => Some ("太阴入庙", Direct, true, 0%Z, [])
    | Ding, Ji => Some ("六合逢春", Direct, false, 0%Z, [])
    | Wu, Ji => Some ("勾陈得位", Direct, false, 0%Z, [])
    | Wu, Wu => Some ("戊加戊（伏吟·读）", Direct, false, 0%Z, [])
    | Ji, Ji => Some ("己加己（伏吟·写）", Direct, false, 0%Z, [])
    | Geng, Geng => Some ("庚加庚（伏吟·执行）", Guarded, false, 3%Z, [])
    | Xin, Xin => Some ("辛加辛（伏吟·转换）", Direct, false, 0%Z, [])
    | Ren, Ren => Some ("壬加壬（伏吟·通信）", Direct, false, 0%Z, [])
    | Gui, Gui => Some ("癸加癸（伏吟·藏）", Direct, false, 0%Z, [])
    | _, _ => None
    end
  in row_result <$> row.

Definition marvels_semantic (heaven earth : Stem) : option GeJuResult :=
  let row :=
    match heaven, earth with
    | Yi, Yi => Some ("乙奇自临", Direct, false, 0%Z, [])
    | Yi, Ding => Some ("奇入兑宫", Direct, false, 0%Z, [])
    | Yi, Geng => Some ("技能入刑", Guarded, true, 1%Z, [Permission "skill_in_exec"])
    | Yi, _ => Some ("技能注入", Direct, false, 0%Z, [])
    | Bing, Bing => Some ("丙奇自明", Direct, false, 0%Z, [])
    | Bing, Xin => Some ("火入金宫", Direct, false, 0%Z, [])
    | Bing, Gui => Some ("火入水宫", Guarded, true, 1%Z, [])
    | Bing, _ => Some ("上下文压缩", Direct, false, 0%Z, [])
    | Ding, Ding => Some ("丁奇自星", Guarded, true, 2%Z, [UserConfirmation "钩子自触发确认"])
    | Ding, Geng => Some ("星入金宫", Sandbox, true, 2%Z, [SandboxIsolation])
    | Ding, _ => Some ("钩子触发", Guarded, false, 1%Z, [])
    | _, _ => None
    end
  in row_result <$> row.

Definition capability_semantic (heaven earth : Stem) : option GeJuResult :=
  match marvels_semantic heaven earth with
  | Some result => Some result
  | None =>
    heaven ← as_ceremony heaven;
    Some (row_result
      match heaven, earth with
      | Wu, _ => ("戊加X（读取）", Direct, false, 0%Z, [])
      | Ji, Ji => ("己加己（写入本位）", Direct, false, 0%Z, [])
      | Ji, Geng => ("己加庚（写入执行域）", Guarded, false, 1%Z, [Permission "write_in_exec"])
      | Ji, Ren => ("己加壬（写入通信域）", Guarded, true, 1%Z, [Permission "write_in_comm"])
      | Ji, Bing => ("己加丙（写入存储域）", Guarded, true, 1%Z, [])
      | Ji, _ => ("己加X（写入）", Guarded, false, 1%Z, [])
      | Geng, Geng => ("庚加庚（执行本位）", Direct, false, 0%Z, [])
      | Geng, Ji => ("庚加己（执行写入域）", Sandbox, true, 3%Z, [SandboxIsolation])
      | Geng, Wu => ("庚加戊（执行读取域）", Guarded, false, 1%Z, [])
      | Geng, Gui => ("庚加癸（执行存储域）", Guarded, true, 2%Z, [])
      | Geng, _ => ("庚加X（执行）", Guarded, false, 1%Z, [])
      | Xin, Xin => ("辛加辛（转换本位）", Direct, false, 0%Z, [])
      | Xin, Wu => ("辛加戊（转换读取）", Direct, false, 0%Z, [])
      | Xin, _ => ("辛加X（转换）", Direct, false, 0%Z, [])
      | Ren, Ren => ("壬加壬（通信本位）", Direct, false, 0%Z, [])
      | Ren, Ji => ("壬加己（通信写入）", Guarded, true, 1%Z,
                    [Permission "external_write"; UserConfirmation "外部通信写入确认"])
      | Ren, _ => ("壬加X（通信）", Direct, false, 0%Z, [])
      | Gui, Gui => ("癸加癸（存储本位）", Direct, false, 0%Z, [])
      | Gui, Wu => ("癸加戊（存储读取）", Direct, false, 0%Z, [])
      | Gui, _ => ("癸加X（存储）", Guarded, false, 1%Z, [])
      | _, _ => ("未分类语义", Guarded, false, 1%Z, [])
      end)
  end.

(** ** Evaluation *)

Record GeJu := { heaven_stem : Stem; earth_stem : Stem }.

(** The enum discriminant of a stem, as [self.heaven_stem as u8] gives it. *)
Definition stem_u8 (s : Stem) : N :=
  match s with
  | Jia => 0 | Yi => 1 | Bing => 2 | Ding => 3 | Wu => 4
  | Ji => 5 | Geng => 6 | Xin => 7 | Ren => 8 | Gui => 9
  end.

Definition geju_key (g : GeJu) : string :=
  pretty (stem_u8 (heaven_stem g)) +:+ "+" +:+ pretty (stem_u8 (earth_stem g)).

Definition set_layer (l : Z) (r : GeJuResult) : GeJuResult :=
  {| name := name r; execution_mode := execution_mode r; requires_audit := requires_audit r;
     max_retries := max_retries r; approval_chain := approval_chain r; layer := l |}.

Definition evaluate (g : GeJu) : GeJuResult :=
  match named_pattern (heaven_stem g) (earth_stem g) with
  | Some result => set_layer 1 result
  | None =>
    match capability_semantic (heaven_stem g) (earth_stem g) with
    | Some result => set_layer 2 result
    | None =>
      {| name := "默认安全底线";
         execution_mode := Guarded;
         requires_audit := bool_decide (heaven_stem g = Geng);
         max_retries := 1;
         approval_chain :=
           if decide (heaven_stem g = Geng)
           then [UserConfirmation "exec operation requires confirmation"] else [];
         layer := 3 |}
    end
  end.

(** ** Properties *)

(** [C27] Layering and safety floor of the GeJu engine, for every pair of
    stems: the layer of the result tells which table decided (1 exactly when
    the named patterns have a row, 3 exactly for the hidden stem Jia); the only
    denied combination is Ren over Geng; an execution intent (Geng) is never
    dispatched directly; a direct result carries no approval gate; and a
    sandboxed result is audited and carries the isolation gate. *)
Theorem evaluate_safety (g : GeJu) :
  (layer (evaluate g) = 1%Z <-> is_Some (named_pattern (heaven_stem g) (earth_stem g))) /\
  (layer (evaluate g) = 3%Z <-> heaven_stem g = Jia) /\
  (1 <= layer (evaluate g) <= 3)%Z /\
  (execution_mode (evaluate g) = Denied <-> heaven_stem g = Ren /\ earth_stem g = Geng) /\
  (heaven_stem g = Geng -> execution_mode (evaluate g) <> Direct) /\
  (execution_mode (evaluate g) = Direct -> approval_chain (evaluate g) = []) /\
  (execution_mode (evaluate g) = Sandbox ->
     requires_audit (evaluate g) = true /\ approval_chain (evaluate g) = [SandboxIsolation]) /\
  (0 <= max_retries (evaluate g) <= 3)%Z.
Proof.
  destruct g as [h e]. destruct h, e; cbn;
    repeat split; first [done | lia | by eexists | by intros [? ?] | by intros [_ ?] | idtac].
Qed.

(** Every key with the combination it stands for. *)
Definition key_table : list (string * (Stem * Stem)) :=
  h ← ALL; e ← ALL; [(geju_key {| heaven_stem := h; earth_stem := e |}, (h, e))].

Lemma key_table_NoDup : NoDup (key_table.*1).
Proof. apply (bool_decide_unpack _). by vm_compute. Qed.

Lemma key_table_complete h e :
  (geju_key {| heaven_stem := h; earth_stem := e |}, (h, e)) ∈ key_table.
Proof.
  unfold key_table. apply list_elem_of_bind. exists h. split; [|apply elem_of_ALL].
  apply list_elem_of_bind. exists e. split; [|apply elem_of_ALL]. by apply list_elem_of_singleton.
Qed.

(** The GeJu key is injective on stems: two combinations share a key only when
    they are the same combination. *)
Lemma geju_key_inj g1 g2 : geju_key g1 = geju_key g2 -> g1 = g2.
Proof.
  destruct g1 as [h1 e1], g2 as [h2 e2]. intros Hk.
  pose proof (key_table_complete h1 e1) as H1. pose proof (key_table_complete h2 e2) as H2.
  rewrite Hk in H1.
  apply (elem_of_list_to_map_1 (M := gmap string)) in H1, H2; try apply key_table_NoDup.
  congruence.
Qed.

(** The capability table has a row that evaluation never reaches: the exec
    intent over its own palace is declared direct there, but the named pattern
    of the same pair decides first and guards it. *)
Example geng_geng_row_is_shadowed :
  (execution_mode <$> capability_semantic Geng Geng) = Some Direct /\
  execution_mode (evaluate {| heaven_stem := Geng; earth_stem := Geng |}) = Guarded.
Proof. done. Qed.

(** [is_stricter_than] is not asymmetric: at equal levels an audited result
    and a result with a longer chain are each stricter than the other. *)
Example is_stricter_than_not_asymmetric :
  exists a b, is_stricter_than a b = true /\ is_stricter_than b a = true.
Proof.
  exists {| name := "a"; execution_mode := Guarded; requires_audit := true; max_retries := 1;
            approval_chain := []; layer := 1 |},
         {| name := "b"; execution_mode := Guarded; requires_audit := false; max_retries := 1;
            approval_chain := [CodeReview]; layer := 1 |}.
  done.
Qed.
