(* ===== verification/Path.v ===== *)
(** * std::path

    [Path] is the string it was made from; the functions below are the Unix
    methods of the standard library the kernel uses.  Component-wise
    comparisons ([starts_with], equality) go through [components]. *)

From S2P Require Export Prelude RString.
From Stdlib Require Import Ascii.

Inductive Component := RootDir | CurDir | ParentDir | Normal (s : string).

#[export] Instance Component_eq_dec : EqDecision Component.
Proof. solve_decision. Defined.

Definition slash : ascii := "/"%char.

Definition is_absolute (p : string) : bool := starts_with p "/".
Definition is_relative (p : string) : bool := negb (is_absolute p).

(** A relative path that starts with the component [.] keeps it. *)
Definition include_cur_dir (p : string) : bool := String.eqb p "." || starts_with p "./".

(** The segments after the root or the leading dot. *)
Definition body_segments (p : string) : list string :=
  if is_absolute p || include_cur_dir p then split_char slash (drop_str 1 p) else split_char slash p.

Definition skipped_segment (s : string) : bool := String.eqb s "" || String.eqb s ".".

Definition segment_component (s : string) : Component :=
  if String.eqb s ".." then ParentDir else Normal s.

(** [Path::components]. *)
Definition components (p : string) : list Component :=
  (if is_absolute p then [RootDir] else if include_cur_dir p then [CurDir] else []) ++
  map segment_component (List.filter (fun s => negb (skipped_segment s)) (body_segments p)).

(** [Path::file_name]: the last component when it is a normal one. *)
Definition file_name (p : string) : option string :=
  match last (components p) with Some (Normal s) => Some s | _ => None end.

(** [Path::str_join]. *)
Definition path_join (base p : string) : string :=
  if is_absolute p then p
  else if String.eqb base "" || ends_with base "/" then base +:+ p
  else base +:+ "/" +:+ p.

(** [Components::as_path] trims the segments that are no component. *)
Definition trim_right_segments (segs : list string) : list string :=
  reverse (drop_while skipped_segment (reverse segs)).

(** [Path::parent]. *)
Definition parent (p : string) : option string :=
  let front := if is_absolute p then "/" else if include_cur_dir p then "." else "" in
  match reverse (trim_right_segments (body_segments p)) with
  | _ :: rest => Some (front +:+ str_join "/" (trim_right_segments (reverse rest)))
  | [] => if negb (is_absolute p) && include_cur_dir p then Some "" else None
  end.

Fixpoint is_prefix {A} `{EqDecision A} (l1 l2 : list A) : bool :=
  match l1, l2 with
  | [], _ => true
  | x :: l1', y :: l2' => bool_decide (x = y) && is_prefix l1' l2'
  | _, _ => false
  end.

(** [Path::starts_with]: whole components only. *)
Definition path_starts_with (p base : string) : bool := is_prefix (components base) (components p).

Lemma is_prefix_spec {A} `{EqDecision A} (l1 l2 : list A) : is_prefix l1 l2 = true <-> l1 `prefix_of` l2.
Proof.
  revert l2. induction l1 as [|x l1 IH]; intros [|y l2]; cbn.
  - split; [intros; apply prefix_nil|done].
  - split; [intros; apply prefix_nil|done].
  - split; [done|]. intros [k Hk]. done.
  - rewrite andb_true_iff, bool_decide_eq_true, IH. split.
    + intros [-> H]. by apply prefix_cons.
    + intros [k [= -> ->]]. split; [done|]. by exists k.
Qed.

Example path_examples :
  components "/a//b/./c/../d/" = [RootDir; Normal "a"; Normal "b"; Normal "c"; ParentDir; Normal "d"] /\
  components "./x" = [CurDir; Normal "x"] /\
  file_name "a/.env/" = Some ".env" /\ file_name "a/.." = None /\
  parent "/a/b//c/" = Some "/a/b" /\ parent "x" = Some "" /\ parent "/" = None /\
  path_starts_with "/home/user2" "/home/user" = false.
Proof. repeat split. Qed.

#[local] Arguments String.append !_ _ : simpl nomatch.

(** ** Clean paths

    A clean absolute path is the root followed by segments that are neither
    empty nor [.] nor contain a slash; [render] is its string. *)

Definition no_slash (s : string) : Prop := split_char slash s = [s].
Definition clean_segment (s : string) : Prop := no_slash s /\ s <> ""%string /\ s <> "."%string.

Definition render (segs : list string) : string := "/" +:+ str_join "/" segs.

Lemma split_char_app_nosep c a b :
  split_char c a = [a] -> split_char c (a +:+ String c b) = a :: split_char c b.
Proof.
  induction a as [|d a IH]; intros Ha; cbn in *.
  - by rewrite Ascii.eqb_refl.
  - destruct (Ascii.eqb c d) eqn:Hcd; [by destruct (split_char c a) eqn:Hs; [destruct (split_char_ne c a)|]|].
    destruct (split_char c a) as [|p ps] eqn:Hs; [by destruct (split_char_ne c a)|].
    injection Ha as -> ->. rewrite IH by done. done.
Qed.

(** Joining on the separator is undone by splitting. *)
Lemma split_char_join c segs :
  segs <> [] -> Forall (fun s => split_char c s = [s]) segs ->
  split_char c (str_join (String c "") segs) = segs.
Proof.
  induction segs as [|s segs IH]; intros Hne Hall; [done|].
  apply Forall_cons in Hall as [Hs Hall].
  destruct segs as [|s' segs]; [exact Hs|].
  change (str_join (String c "") (s :: s' :: segs)) with (s +:+ String c "" +:+ str_join (String c "") (s' :: segs)).
  change (String c "" +:+ ?x) with (String c x).
  rewrite split_char_app_nosep by done. by rewrite IH.
Qed.

Lemma split_char_pieces c s : Forall (fun p => split_char c p = [p]) (split_char c s).
Proof.
  induction s as [|d s IH]; cbn; [by repeat constructor|].
  destruct (Ascii.eqb c d) eqn:Hcd; [by constructor|].
  destruct (split_char c s) as [|p ps]; [by repeat constructor; cbn; rewrite Hcd|].
  apply Forall_cons in IH as [Hp Hps]. constructor; [|done]. cbn. by rewrite Hcd, Hp.
Qed.

Lemma skipped_clean s : clean_segment s -> skipped_segment s = false.
Proof.
  intros (_ & H1 & H2). unfold skipped_segment.
  by rewrite (proj2 (String.eqb_neq _ _) H1), (proj2 (String.eqb_neq _ _) H2).
Qed.

Lemma filter_clean segs :
  Forall clean_segment segs -> List.filter (fun s => negb (skipped_segment s)) segs = segs.
Proof.
  induction segs as [|s segs IH]; [done|]. intros [Hs Hall]%Forall_cons. cbn.
  by rewrite skipped_clean, IH.
Qed.

Lemma body_segments_render segs :
  segs <> [] -> Forall clean_segment segs -> body_segments (render segs) = segs.
Proof.
  intros Hne Hall. unfold body_segments, render. cbn.
  apply split_char_join; [done|]. eapply Forall_impl; [exact Hall|]. by intros s [? _].
Qed.

Lemma components_render segs :
  Forall clean_segment segs -> components (render segs) = RootDir :: map segment_component segs.
Proof.
  intros Hall. destruct segs as [|s segs]; [done|].
  unfold components. rewrite body_segments_render by done. by rewrite filter_clean.
Qed.

Lemma trim_right_clean segs : Forall clean_segment segs -> trim_right_segments segs = segs.
Proof.
  intros Hall. unfold trim_right_segments.
  destruct (reverse segs) as [|s r] eqn:Hr; cbn [drop_while].
  - by rewrite <- (reverse_involutive segs), Hr.
  - assert (Hs : clean_segment s).
    { rewrite Forall_forall in Hall. apply Hall. rewrite <- elem_of_reverse, Hr. set_solver. }
    rewrite skipped_clean by done. by rewrite <- Hr, reverse_involutive.
Qed.

Lemma parent_render_snoc segs s :
  Forall clean_segment (segs ++ [s]) -> parent (render (segs ++ [s])) = Some (render segs).
Proof.
  intros Hall. unfold parent. rewrite body_segments_render; [|by destruct segs|done].
  rewrite trim_right_clean by done. rewrite reverse_app.
  change (reverse [s] ++ reverse segs) with (s :: reverse segs).
  cbv iota beta. rewrite reverse_involutive, trim_right_clean; [done|].
  by apply Forall_app in Hall as [? _].
Qed.

Lemma parent_render_nil : parent (render []) = None.
Proof. done. Qed.

Lemma ends_with_slash_snoc a s :
  no_slash s -> s <> ""%string -> ends_with (a +:+ s) "/" = false.
Proof.
  intros Hs Hne. destruct (ends_with (a +:+ s) "/") eqn:He; [|done]. exfalso.
  unfold ends_with in He. apply andb_true_iff in He as [_ He%String.eqb_eq].
  rewrite app_len in He. destruct (len s) as [|n] eqn:Hlen; [by destruct s|].
  replace (len a + S n - len "/")%nat with (len a + n)%nat in He by (cbn; lia).
  rewrite drop_str_app_plus in He.
  pose proof (take_drop_str n s) as Htd. rewrite He in Htd. unfold no_slash in Hs.
  rewrite <- Htd in Hs.
  assert (Hgen : forall t, split_char slash (t +:+ "/") <> [t +:+ "/"%string]).
  { clear. induction t as [|c t IH]; cbn [split_char String.append]; [done|]. destruct (Ascii.eqb slash c); [by intros [=]|].
    destruct (split_char slash (t +:+ "/")) as [|p ps] eqn:Hsp; [by destruct (split_char_ne slash (t +:+ "/"))|].
    intros [= -> ->]. by apply IH. }
  by apply (Hgen (take_str n s)).
Qed.

Lemma join_snoc sep segs s : segs <> [] -> str_join sep (segs ++ [s]) = str_join sep segs +:+ sep +:+ s.
Proof.
  induction segs as [|x segs IH]; [done|]. intros _. destruct segs as [|y segs]; [done|].
  change ((x :: y :: segs) ++ [s]) with (x :: (y :: segs) ++ [s]).
  rewrite (join_cons sep x) by (by destruct segs). rewrite IH by done.
  rewrite (join_cons sep x) by done. by rewrite !app_assoc_str.
Qed.

Lemma clean_relative s : clean_segment s -> is_absolute s = false.
Proof.
  intros (Hns & Hne & _). destruct s as [|c s]; [done|]. unfold is_absolute, starts_with. cbn [prefixb].
  change "/"%char with slash. destruct (Ascii.eqb_spec slash c) as [<-|]; [|done].
  unfold no_slash in Hns. cbn [split_char] in Hns. rewrite Ascii.eqb_refl in Hns. injection Hns. done.
Qed.

(** A file name is one clean segment. *)
Lemma file_name_clean p s : file_name p = Some s -> clean_segment s.
Proof.
  unfold file_name. destruct (last (components p)) as [[| | |x]|] eqn:Hl; [done..| |done]. intros [= ->].
  apply last_Some_elem_of in Hl. unfold components in Hl. apply elem_of_app in Hl as [Hl|Hl].
  { destruct (is_absolute p); [set_solver|]. destruct (include_cur_dir p); set_solver. }
  apply list_elem_of_In, List.in_map_iff in Hl as (y & Hy & [Hin Hk]%List.filter_In).
  unfold segment_component in Hy. destruct (String.eqb y ".."); [done|]. injection Hy as ->.
  apply negb_true_iff, orb_false_iff in Hk as [H1%String.eqb_neq H2%String.eqb_neq]. split; [|done].
  assert (Hall : Forall no_slash (body_segments p)).
  { unfold body_segments. destruct (_ || _); apply split_char_pieces. }
  rewrite Forall_forall in Hall. by apply Hall, list_elem_of_In.
Qed.

Lemma path_join_clean base s : clean_segment s ->
  path_join base s = (if String.eqb base "" || ends_with base "/" then base else base +:+ "/") +:+ s.
Proof.
  intros Hs. unfold path_join. rewrite (clean_relative s Hs). destruct (_ || _); [done|]. by rewrite app_assoc_str.
Qed.

(** Pushing a clean segment on a clean path appends it. *)
Lemma path_join_render segs s :
  Forall clean_segment segs -> clean_segment s -> path_join (render segs) s = render (segs ++ [s]).
Proof.
  intros Hall Hs. pose proof Hs as (Hns & Hne & _). unfold path_join.
  rewrite (clean_relative s Hs). destruct segs as [|y segs' _] using rev_ind; [done|].
  assert (Hy : clean_segment y) by (apply Forall_app in Hall as [_ [? _]%Forall_cons]; done).
  assert (Hend : ends_with (render (segs' ++ [y])) "/" = false).
  { destruct Hy as (Hny & Hyne & _). unfold render. destruct segs' as [|z segs'].
    - by apply ends_with_slash_snoc.
    - rewrite join_snoc by done. rewrite <- !app_assoc_str. by apply ends_with_slash_snoc. }
  rewrite Hend. change (String.eqb (render (segs' ++ [y])) "") with false. cbn [orb].
  unfold render. rewrite (join_snoc _ (segs' ++ [y]) s) by (by destruct segs').
  by rewrite !app_assoc_str.
Qed.
