(* ===== verification/Json.v ===== *)
(** * serde_json values

    [serde_json::Value] as the kernel builds and reads it.  Objects are
    association lists in key order (the crate is built without
    [preserve_order], so its map is a [BTreeMap]); the decoder and the printer
    of serde_json are third-party code and stay parameters where they are
    used. *)

From S2P Require Export Prelude RString Float.

Inductive Number :=
| PosInt (n : Z)
| NegInt (n : Z)
| FloatNum (x : spec_float).

#[warnings="-register-all"]
Inductive Value :=
| Null
| Bool (b : bool)
| Num (n : Number)
| Str (s : string)
| Arr (l : list Value)
| Obj (m : list (string * Value)).

Fixpoint assoc {A} (k : string) (m : list (string * A)) : option A :=
  match m with
  | [] => None
  | (k', v) :: m' => if String.eqb k k' then Some v else assoc k m'
  end.

(** [Value::get] of a string key. *)
Definition get (v : Value) (k : string) : option Value :=
  match v with Obj m => assoc k m | _ => None end.

(** [value\[key\]] on a shared reference: [Null] when absent. *)
Definition index (v : Value) (k : string) : Value := default Null (get v k).

Definition as_str (v : Value) : option string :=
  match v with Str s => Some s | _ => None end.
Definition as_bool (v : Value) : option bool :=
  match v with Bool b => Some b | _ => None end.
Definition as_u64 (v : Value) : option Z :=
  match v with Num (PosInt n) => Some n | _ => None end.
Definition as_f64 (v : Value) : option spec_float :=
  match v with
  | Num (PosInt n) | Num (NegInt n) => Some (F64.of_Z n)
  | Num (FloatNum x) => Some x
  | _ => None
  end.
Definition as_array (v : Value) : option (list Value) :=
  match v with Arr l => Some l | _ => None end.
Definition is_null (v : Value) : bool :=
  match v with Null => true | _ => false end.
Definition is_object (v : Value) : bool :=
  match v with Obj _ => true | _ => false end.

(** [BTreeMap::insert]: in key order, replacing the value of a present key. *)
Fixpoint obj_insert {A} (k : string) (v : A) (m : list (string * A)) : list (string * A) :=
  match m with
  | [] => [(k, v)]
  | (k', v') :: m' =>
      match String.compare k k' with
      | Lt => (k, v) :: m
      | Eq => (k, v) :: m'
      | Gt => (k', v') :: obj_insert k v m'
      end
  end.

Fixpoint obj_remove {A} (k : string) (m : list (string * A)) : list (string * A) :=
  match m with
  | [] => []
  | (k', v') :: m' => if String.eqb k k' then m' else (k', v') :: obj_remove k m'
  end.

Lemma compare_refl s : String.compare s s = Eq.
Proof. induction s as [|c s IH]; cbn; [done|]. unfold Ascii.compare. by rewrite N.compare_refl. Qed.

Lemma assoc_insert {A} k (v : A) m : assoc k (obj_insert k v m) = Some v.
Proof.
  induction m as [|[k' v'] m IH]; cbn; [by rewrite String.eqb_refl|].
  destruct (String.compare k k') eqn:Hc; cbn; rewrite ?String.eqb_refl; [done|done|].
  destruct (String.eqb_spec k k') as [->|]; [|done].
  by rewrite compare_refl in Hc.
Qed.

Lemma assoc_insert_ne {A} k k2 (v : A) m : k <> k2 -> assoc k (obj_insert k2 v m) = assoc k m.
Proof.
  intros Hne. induction m as [|[k' v'] m IH]; cbn.
  - by apply String.eqb_neq in Hne as ->.
  - destruct (String.compare k2 k') eqn:Hc; cbn.
    + apply String.compare_eq_iff in Hc as ->. by apply String.eqb_neq in Hne as ->.
    + by rewrite (proj2 (String.eqb_neq _ _) Hne).
    + by rewrite IH.
Qed.
