(* ===== verification/Permission.v ===== *)
(** * The permission matrix

    src/kernel/src/palaces/qian_permission: the path sandbox and the shell
    command policy (mod.rs), the explicit policy chain (policy.rs) and the
    allowlist of the verifier sub-agent (verifier.rs).

    Not in the repository and therefore parameters: [shell_words::split]
    ([shell_split]), [glob::Pattern] ([glob]), serde_json's printer
    ([to_string]); the file system ([exists_path], [canonicalize]) and the
    command backends are the environment.  [to_lowercase] is the Unicode
    lower-casing of the standard library. *)

From S2P Require Export Prelude RString Path Json.
From Stdlib Require Import Ascii.

(** ** Shell quoting

    The three scanners of the module share one reading of quotes: a backslash
    escapes the next character outside single quotes, single quotes are literal
    inside double quotes and conversely. *)

Record Quoting := { in_single : bool; in_double : bool; escaped : bool }.

Definition unquoted : Quoting := {| in_single := false; in_double := false; escaped := false |}.

Definition backslash : ascii := "\"%char.
Definition squote : ascii := "'"%char.
Definition dquote : ascii := "034"%char.

Definition advance (q : Quoting) (c : ascii) : Quoting :=
  if escaped q then {| in_single := in_single q; in_double := in_double q; escaped := false |}
  else if Ascii.eqb c backslash && negb (in_single q) then
    {| in_single := in_single q; in_double := in_double q; escaped := true |}
  else if Ascii.eqb c squote && negb (in_double q) then
    {| in_single := negb (in_single q); in_double := in_double q; escaped := false |}
  else if Ascii.eqb c dquote && negb (in_single q) then
    {| in_single := in_single q; in_double := negb (in_double q); escaped := false |}
  else q.

(** Whether the next character is live: neither escaped nor quoted. *)
Definition live (q : Quoting) : bool := negb (escaped q) && negb (in_single q) && negb (in_double q).

Definition ampersand : ascii := "&"%char.
Definition pipe : ascii := "|"%char.

Definition separator_char (c : ascii) : bool :=
  Ascii.eqb c ";" || Ascii.eqb c pipe || Ascii.eqb c "$" || Ascii.eqb c "`".

(** [disallowed_metachar].  Every character it tests is ASCII, so it reads
    bytes. *)
Fixpoint disallowed_metachar_from (q : Quoting) (cmd : string) : option ascii :=
  match cmd with
  | "" => None
  | String c rest =>
      if live q && separator_char c then Some c
      else if live q && Ascii.eqb c ampersand then
        match rest with
        | String c2 rest2 =>
            if Ascii.eqb c2 ampersand then disallowed_metachar_from q rest2 else Some c
        | "" => Some c
        end
      else disallowed_metachar_from (advance q c) rest
  end.
Definition disallowed_metachar (cmd : string) : option ascii := disallowed_metachar_from unquoted cmd.

Definition char_str (c : ascii) : string := String c "".

Definition metachar_error (c : ascii) : string :=
  "command contains disallowed metacharacter '" +:+ char_str c +:+ "'. Command separators (;, |, $, `) and background execution (&) are not allowed; use && to chain commands or run them separately".

(** [str::split("&&")]. *)
Fixpoint split_ampersands (s : string) : list string :=
  match s with
  | "" => [""]
  | String c s1 =>
      match s1 with
      | String d s2 =>
          if Ascii.eqb c ampersand && Ascii.eqb d ampersand then "" :: split_ampersands s2
          else match split_ampersands s1 with
               | p :: ps => String c p :: ps
               | [] => [String c ""]
               end
      | "" => [String c ""]
      end
  end.

(** ** The matrix *)

Inductive PathOp := Read | Write.

Inductive SandboxMode := Required | BestEffort | Disabled.

Record SandboxConfig := {
  workspace_root : string;
  allowed_paths : list string;
  blocked_prefixes : list string
}.

Record ShellPolicy := { allowlist : list string; blocklist : list string }.

(** [execution_sandbox] is whether a backend is attached. *)
Record PermissionMatrix := {
  sandbox : SandboxConfig;
  shell_policy : ShellPolicy;
  deny_rules : list string;
  confirmation_timeout : Z;
  sandbox_mode : SandboxMode;
  backup_dir : string;
  execution_sandbox : bool
}.

Inductive ChainVerdict :=
| Pass
| Deny (policy reason : string)
| Ask (policy reason : string).

(** The security section of the configuration, the fields the matrix reads. *)
Record SecuritySection := {
  sec_workspace_root : option string;
  sec_allowed_paths : list string;
  sec_blocked_path_prefixes : list string;
  sec_command_allowlist : list string;
  sec_command_blocklist : list string;
  sec_deny_rules : list string;
  sec_confirmation_timeout_secs : Z;
  sec_sandbox_mode : SandboxMode
}.

Section Matrix.
Context (exists_path : string -> bool) (canonicalize : string -> result string string).
Context (shell_split : string -> result string (list string)).
Context (glob : string -> option (string -> bool)).
Context (to_lowercase : string -> string) (to_string : Value -> string).

Definition from_config (security : SecuritySection) (default_root backup_dir : string) : PermissionMatrix :=
  let workspace_root := default default_root (sec_workspace_root security) in
  let workspace_root := default workspace_root (ok (canonicalize workspace_root)) in
  {| sandbox :=
       {| workspace_root := workspace_root;
          allowed_paths := omap (fun p => ok (canonicalize p)) (sec_allowed_paths security);
          blocked_prefixes := sec_blocked_path_prefixes security |};
     shell_policy :=
       {| allowlist := sec_command_allowlist security; blocklist := sec_command_blocklist security |};
     deny_rules := sec_deny_rules security;
     confirmation_timeout := sec_confirmation_timeout_secs security;
     sandbox_mode := sec_sandbox_mode security;
     backup_dir := backup_dir;
     execution_sandbox := false |}.

(** *** Paths *)

Definition resolve (m : PermissionMatrix) (raw : string) : string :=
  if is_relative raw then path_join (workspace_root (sandbox m)) raw else raw.

(** The canonical path: a write to a new file canonicalizes its parent. *)
Definition canonical_path (m : PermissionMatrix) (raw : string) (op : PathOp) : result string string :=
  let resolved := resolve m raw in
  match op, exists_path resolved with
  | Write, false =>
      let parent := default resolved (parent resolved) in
      match canonicalize parent with
      | Ok canonical_parent =>
          filename ← ok_or (file_name resolved) "invalid filename";
          Ok (path_join canonical_parent filename)
      | Err _ => Err ("parent directory does not exist: " +:+ parent)
      end
  | _, _ => map_err (fun e => "cannot resolve path '" +:+ raw +:+ "': " +:+ e) (canonicalize resolved)
  end.

Definition within_sandbox (m : PermissionMatrix) (canonical : string) : bool :=
  path_starts_with canonical (workspace_root (sandbox m)) ||
  existsb (path_starts_with canonical) (allowed_paths (sandbox m)).

Definition verify_path (m : PermissionMatrix) (raw : string) (op : PathOp) : result string string :=
  canonical ← canonical_path m raw op;
  if negb (within_sandbox m canonical) then
    Err ("path '" +:+ raw +:+ "' (→ " +:+ canonical +:+ ") is outside project root '" +:+
         workspace_root (sandbox m) +:+ "'")
  else
    match List.find (contains_str canonical) (blocked_prefixes (sandbox m)) with
    | Some prefix =>
        Err ("path '" +:+ raw +:+ "' (→ " +:+ canonical +:+ ") matches blocked prefix '" +:+ prefix +:+ "'")
    | None => Ok canonical
    end.

(** *** Commands *)

Definition blocked_pattern (m : PermissionMatrix) (cmd : string) : option string :=
  List.find (contains_str cmd) (blocklist (shell_policy m)).

(** [first.split('/').next_back()]. *)
Definition command_name (first : string) : string := default first (last (split_char slash first)).

Definition first_allowed (m : PermissionMatrix) (first : string) : bool :=
  existsb (fun a => String.eqb a (command_name first) || String.eqb a first) (allowlist (shell_policy m)).

(** The allowlist check of the segments, in order. *)
Fixpoint check_segments (m : PermissionMatrix) (segments : list string) : result string unit :=
  match segments with
  | [] => Ok ()
  | segment :: rest =>
      match default [] (ok (shell_split (trim segment))) with
      | [] => check_segments m rest
      | first :: _ =>
          if first_allowed m first then check_segments m rest
          else Err ("command '" +:+ command_name first +:+ "' is not in the allowlist")
      end
  end.

(** The first token equal to a blocklist entry, with the entry. *)
Fixpoint blocked_token (m : PermissionMatrix) (tokens : list string) : option string :=
  match tokens with
  | [] => None
  | t :: rest => if existsb (String.eqb t) (blocklist (shell_policy m)) then Some t else blocked_token m rest
  end.

Definition verify_command (m : PermissionMatrix) (cmd : string) : result string unit :=
  let blocked_err p := Err ("command matches blocked pattern '" +:+ p +:+ "'") in
  match shell_split cmd with
  | Err _ =>
      match split_whitespace cmd with
      | [] => Ok ()
      | _ =>
          match blocked_pattern m cmd with
          | Some p => blocked_err p
          | None =>
              match disallowed_metachar cmd with
              | Some c => Err (metachar_error c)
              | None => Ok ()
              end
          end
      end
  | Ok [] => Ok ()
  | Ok tokens =>
      match disallowed_metachar cmd with
      | Some c => Err (metachar_error c)
      | None =>
          _ ← (match allowlist (shell_policy m) with
               | [] => Ok ()
               | _ => check_segments m (split_ampersands cmd)
               end);
          match blocked_token m tokens with
          | Some t => Err ("command token '" +:+ t +:+ "' matches blocked pattern '" +:+ t +:+ "'")
          | None =>
              match blocked_pattern m cmd with
              | Some p => blocked_err p
              | None => Ok ()
              end
          end
      end
  end.

(** *** Tool input *)

(** [v\[key\] = value] on an object. *)
Definition set_key (v : Value) (key : string) (x : Value) : Value :=
  match v with
  | Obj m => Obj (obj_insert key x m)
  | _ => v
  end.

Definition sandbox_path (m : PermissionMatrix) (input : Value) (key : string) (op : PathOp)
    : result string Value :=
  path ← ok_or (as_str (index input key)) ("missing '" +:+ key +:+ "' parameter");
  canonical ← verify_path m path op;
  Ok (set_key input key (Str canonical)).

Definition sandbox_input (m : PermissionMatrix) (tool_name : string) (input : Value) : result string Value :=
  if one_of tool_name ["read_file"] then sandbox_path m input "path" Read
  else if one_of tool_name ["write_file"; "patch_file"; "revert_file"] then
    sandbox_path m input "path" Write
  else if one_of tool_name ["shell"] then
    cmd ← ok_or (as_str (index input "command")) "missing 'command' parameter";
    _ ← verify_command m cmd;
    Ok input
  else if one_of tool_name ["grep"] then
    match as_str (index input "path") with
    | Some _ => sandbox_path m input "path" Read
    | None => Ok input
    end
  else Ok input.

Fixpoint sandbox_known_params (m : PermissionMatrix) (input : Value) (param_names : list string)
    : result string Value :=
  match param_names with
  | [] => Ok input
  | key :: rest =>
      match get input key with
      | Some _ => v ← sandbox_path m input key Write; sandbox_known_params m v rest
      | None => sandbox_known_params m input rest
      end
  end.

(** *** The policy chain *)

Definition subject (tool_name : string) (input : Value) : string * string :=
  match tool_name with
  | "shell" => ("Bash", default "" (as_str (index input "command")))
  | "read_file" => ("Read", default "" (as_str (index input "path")))
  | "write_file" | "patch_file" | "revert_file" => ("Write", default "" (as_str (index input "path")))
  | other => (other, to_string input)
  end.

Definition eq_ignore_ascii_case (a b : string) : bool :=
  String.eqb (to_ascii_lowercase a) (to_ascii_lowercase b).

Definition match_deny_rule (rule kind subj : string) : bool :=
  match find_str "(" rule, rfind_str ")" rule with
  | Some op, Some close =>
      if (close <=? op)%nat then false
      else if negb (eq_ignore_ascii_case (trim (take_str op rule)) kind) then false
      else match glob (slice (op + 1) close rule) with
           | Some p => p subj
           | None => false
           end
  | _, _ => false
  end.

Definition SSH_KEY_NAMES : list string := ["id_rsa"; "id_dsa"; "id_ecdsa"; "id_ed25519"].

Definition sensitive_path_reason (path : string) : option string :=
  name ← file_name path;
  let lower := to_lowercase name in
  if starts_with lower ".env" &&
     negb (contains_str lower "example" || contains_str lower "sample" || contains_str lower "template")
  then Some ("sensitive file '" +:+ name +:+ "' matches .env* — confirmation required")
  else if one_of lower SSH_KEY_NAMES
  then Some ("sensitive file '" +:+ name +:+ "' is an SSH private key — confirmation required")
  else None.

Definition approval_key (tool_name : string) (input : Value) : string :=
  tool_name +:+ ":" +:+ to_string input.

Definition chain_check (m : PermissionMatrix) (tool_name : string) (input : Value) : ChainVerdict :=
  let '(kind, subj) := subject tool_name input in
  match List.find (fun rule => match_deny_rule rule kind subj) (deny_rules m) with
  | Some rule => Deny "deny_rule" ("denied by configured rule '" +:+ rule +:+ "'")
  | None =>
      match as_str (index input "path") ≫= sensitive_path_reason with
      | Some reason => Ask "sensitive_file" reason
      | None => Pass
      end
  end.
End Matrix.

(** ** The verifier's allowlist (verifier.rs) *)

Section Verifier.
Context (shell_split : string -> result string (list string)).

Definition denied (what : string) : string :=
  what +:+ " — Verifier 只执行验证命令(测试/构建/lint/只读查看),写操作请由主 agent 执行".

Definition segment_allowed (name : string) (args : list string) : bool :=
  match name with
  | "ls" | "cat" | "grep" | "rg" | "find" | "wc" | "head" | "tail" | "pwd" | "echo" => true
  | "pytest" | "vitest" | "jest" => true
  | "cargo" =>
      match head args with
      | Some "test" | Some "check" | Some "clippy" | Some "build" => true
      | _ => false
      end
  | "go" => match head args with Some "test" => true | _ => false end
  | "git" =>
      match head args with
      | Some "status" | Some "diff" | Some "log" | Some "show" | Some "blame" => true
      | _ => false
      end
  | "npm" | "pnpm" | "yarn" | "bun" => match head args with Some "test" => true | _ => false end
  | _ => false
  end.

(** [split_segments]: [current] is the segment being read. *)
Fixpoint split_segments_from (q : Quoting) (current : string) (cmd : string) : list string :=
  match cmd with
  | "" => [current]
  | String c rest =>
      if live q && Ascii.eqb c pipe then current :: split_segments_from q "" rest
      else
        let continue := fun _ : unit =>
          split_segments_from (advance q c) (current +:+ char_str c) rest in
        match rest with
        | String c2 rest2 =>
            if live q && Ascii.eqb c ampersand && Ascii.eqb c2 ampersand
            then current :: split_segments_from q "" rest2
            else continue ()
        | "" => continue ()
        end
  end.
Definition split_segments (cmd : string) : list string := split_segments_from unquoted "" cmd.

Fixpoint redirection_metachar_from (q : Quoting) (cmd : string) : option ascii :=
  match cmd with
  | "" => None
  | String c rest =>
      if live q && (Ascii.eqb c "<" || Ascii.eqb c ">") then Some c
      else redirection_metachar_from (advance q c) rest
  end.
Definition redirection_metachar (cmd : string) : option ascii := redirection_metachar_from unquoted cmd.

Fixpoint verify_segments (segments : list string) : result string unit :=
  match segments with
  | [] => Ok ()
  | segment :: rest =>
      match shell_split segment with
      | Err e => Err (denied ("unparseable command segment (" +:+ e +:+ ")"))
      | Ok [] => verify_segments rest
      | Ok (first :: args) =>
          let name := command_name first in
          if segment_allowed name args then verify_segments rest
          else Err (denied ("command '" +:+ name +:+ "' is not in the verification allowlist"))
      end
  end.

Definition verify_verifier_command (cmd : string) : result string unit :=
  match redirection_metachar cmd with
  | Some c => Err (denied ("redirection '" +:+ char_str c +:+ "' is not allowed"))
  | None => verify_segments (split_segments cmd)
  end.
End Verifier.

(** ** Running a command (execute_sandboxed_in)

    The wrapper appended to the command prints the marker and the final
    directory after everything the command printed. *)

Definition CWD_MARKER : string := "__JIA_CWD__".

Definition wrap_command (cmd : string) : string :=
  cmd +:+ char_str newline +:+ "__jia_ec=$?" +:+ char_str newline +:+ "printf '\n" +:+ CWD_MARKER +:+
  "%s' " +:+ char_str dquote +:+ "$PWD" +:+ char_str dquote +:+ char_str newline +:+ "exit $__jia_ec".

Definition pop_newline (s : string) : string := default s (strip_suffix_str s (char_str newline)).

Definition split_cwd (stdout : string) : string * option string :=
  match rfind_str CWD_MARKER stdout with
  | Some idx =>
      let path := trim (drop_str (idx + len CWD_MARKER) stdout) in
      (pop_newline (take_str idx stdout), if is_empty_str path then None else Some path)
  | None => (stdout, None)
  end.

Record SandboxOutput := { stdout : string; stderr : string; exit_code : Z }.

Definition format_output (m : PermissionMatrix) (raw : SandboxOutput) : string :=
  let nl := char_str newline in
  let result :=
    if is_empty_str (stderr raw) then stdout raw
    else "stdout:" +:+ nl +:+ stdout raw +:+ nl +:+ "stderr:" +:+ nl +:+ stderr raw in
  if execution_sandbox m && negb (exit_code raw =? 0)%Z
  then result +:+ nl +:+ "[exit code: " +:+ pretty (exit_code raw) +:+ "]" else result.

(** [run] is the backend: the command and the directory to run it in. *)
Definition execute_sandboxed (shell_split : string -> result string (list string))
    (run : string -> string -> result string SandboxOutput)
    (m : PermissionMatrix) (cmd : string) : result string string :=
  _ ← verify_command shell_split m cmd;
  raw ← run cmd (workspace_root (sandbox m));
  Ok (format_output m raw).

Definition execute_sandboxed_in (shell_split : string -> result string (list string))
    (run : string -> string -> result string SandboxOutput)
    (m : PermissionMatrix) (cmd cwd : string) : result string (string * option string) :=
  _ ← verify_command shell_split m cmd;
  raw ← run (wrap_command cmd) cwd;
  let '(visible, final_cwd) := split_cwd (stdout raw) in
  Ok (format_output m {| stdout := visible; stderr := stderr raw; exit_code := exit_code raw |}, final_cwd).

(** ** Lemmas *)

(** The quoting state after the first [n] bytes. *)
Fixpoint quote_state (q : Quoting) (s : string) (n : nat) : Quoting :=
  match n, s with
  | S n', String c s' => quote_state (advance q c) s' n'
  | _, _ => q
  end.

Definition live_at (q : Quoting) (s : string) (i : nat) (c : ascii) : Prop :=
  String.get i s = Some c /\ live (quote_state q s i) = true.

(** What a scanned command may not have outside quotes. *)
Definition no_live_metachar (q : Quoting) (cmd : string) : Prop :=
  forall i c, live_at q cmd i c ->
    separator_char c = false /\
    (c = ampersand ->
     String.get (S i) cmd = Some ampersand \/ exists j, i = S j /\ String.get j cmd = Some ampersand).

Lemma advance_ampersand q : live q = true -> advance q ampersand = q.
Proof. destruct q as [[] [] []]; done. Qed.

(** Induction over a string by its length. *)
Lemma string_len_ind (P : string -> Prop) :
  (forall s, (forall t, (len t < len s)%nat -> P t) -> P s) -> forall s, P s.
Proof.
  intros H s. remember (len s) as n eqn:Hn. revert s Hn.
  induction n as [n IH] using lt_wf_ind. intros s ->. apply H. intros t Ht. by apply (IH (len t)).
Qed.

Lemma disallowed_metachar_None q cmd :
  disallowed_metachar_from q cmd = None -> no_live_metachar q cmd.
Proof.
  revert q. induction cmd as [cmd IH] using string_len_ind. intros q Hnone.
  destruct cmd as [|c rest]; [by intros i d [? _]|]. cbn in Hnone.
  destruct (live q && separator_char c) eqn:Hsep; [done|].
  assert (Hhead : live q = true -> separator_char c = false).
  { intros Hl. by rewrite Hl in Hsep. }
  destruct (live q && Ascii.eqb c ampersand) eqn:Hamp.
  - apply andb_true_iff in Hamp as [Hl ->%Ascii.eqb_eq].
    destruct rest as [|c2 rest2]; [done|].
    destruct (Ascii.eqb_spec c2 ampersand) as [->|]; [|done].
    apply IH in Hnone; [|cbn; lia].
    assert (Ha : advance q ampersand = q) by by apply advance_ampersand.
    intros [|[|i]] d [Hg Hlive]; cbn in Hg, Hlive.
    + injection Hg as <-. split; [done|]. intros _. by left.
    + injection Hg as <-. split; [done|]. intros _. right. by exists 0.
    + rewrite !Ha in Hlive. destruct (Hnone i d) as [H1 H2]; [by split|].
      split; [done|]. intros Hd. destruct (H2 Hd) as [?|(j & -> & ?)]; [by left|].
      right. by exists (S (S j)).
  - apply IH in Hnone; [|cbn; lia].
    intros [|i] d [Hg Hlive]; cbn in Hg, Hlive.
    + injection Hg as <-. split; [auto|]. intros ->. by rewrite Hlive in Hamp.
    + destruct (Hnone i d) as [H1 H2]; [by split|].
      split; [done|]. intros Hd. destruct (H2 Hd) as [?|(j & -> & ?)]; [by left|].
      right. by exists (S j).
Qed.

(** A rejection names a character that really is live. *)
Lemma disallowed_metachar_Some q cmd c :
  disallowed_metachar_from q cmd = Some c ->
  exists i, live_at q cmd i c /\ (separator_char c = true \/ c = ampersand).
Proof.
  revert q. induction cmd as [cmd IH] using string_len_ind. intros q Hs.
  destruct cmd as [|d rest]; [done|]. cbn in Hs.
  destruct (live q && separator_char d) eqn:Hsep.
  - injection Hs as ->. apply andb_true_iff in Hsep as [Hl Hc]. exists 0. by repeat split; auto.
  - destruct (live q && Ascii.eqb d ampersand) eqn:Hamp.
    + apply andb_true_iff in Hamp as [Hl ->%Ascii.eqb_eq].
      assert (Ha : advance q ampersand = q) by by apply advance_ampersand.
      destruct rest as [|c2 rest2]; [injection Hs as <-; exists 0; repeat split; auto|].
      destruct (Ascii.eqb_spec c2 ampersand) as [->|];
        [|injection Hs as <-; exists 0; repeat split; auto].
      apply IH in Hs as (i & [Hg Hl'] & Hc); [|cbn; lia].
      exists (S (S i)). split; [|done]. split; [done|]. cbn. by rewrite !Ha.
    + apply IH in Hs as (i & [Hg Hl'] & Hc); [|cbn; lia]. exists (S i). by repeat split.
Qed.

Lemma check_segments_ok split m segments :
  check_segments split m segments = Ok () <->
  forall segment first args, segment ∈ segments ->
    split (trim segment) = Ok (first :: args) -> first_allowed m first = true.
Proof.
  induction segments as [|segment segments IH]; cbn; [set_solver|].
  destruct (split (trim segment)) as [[|first args]|e] eqn:Hs; cbn.
  - rewrite IH. split; [|set_solver]. intros H s f a Hin. apply elem_of_cons in Hin as [->|Hin]; [congruence|eauto].
  - destruct (first_allowed m first) eqn:Hf.
    + rewrite IH. split; [|set_solver].
      intros H s f a Hin Hsp. apply elem_of_cons in Hin as [->|Hin]; [|eauto]. congruence.
    + split; [done|]. intros H. rewrite (H segment first args) in Hf; [done|set_solver|done].
  - rewrite IH. split; [|set_solver]. intros H s f a Hin. apply elem_of_cons in Hin as [->|Hin]; [congruence|eauto].
Qed.

Lemma blocked_token_None m tokens :
  blocked_token m tokens = None <-> forall t, t ∈ tokens -> t ∉ blocklist (shell_policy m).
Proof.
  induction tokens as [|t tokens IH]; cbn; [set_solver|].
  destruct (existsb (String.eqb t) _) eqn:He.
  - split; [done|]. intros H. apply existsb_exists in He as (p & Hp & ->%String.eqb_eq).
    exfalso. apply (H p); [set_solver|by apply list_elem_of_In].
  - rewrite IH. rewrite not_existsb in He. split; [|set_solver].
    intros H t' Ht'. apply elem_of_cons in Ht' as [->|Ht']; [|auto].
    intros Hin. apply He in Hin. by rewrite String.eqb_refl in Hin.
Qed.

Lemma blocked_pattern_None m cmd :
  blocked_pattern m cmd = None <-> forall p, p ∈ blocklist (shell_policy m) -> forall a b, cmd <> a +:+ p +:+ b.
Proof.
  unfold blocked_pattern. rewrite find_None_forall. split; intros H p Hp.
  - intros a b He. assert (contains_str cmd p = true) by (apply contains_str_spec; eauto).
    by rewrite H in *.
  - destruct (contains_str cmd p) eqn:Hc; [|done]. apply contains_str_spec in Hc as (a & b & He).
    by destruct (H p Hp a b).
Qed.

(** The allowlist step as a condition on the segments. *)
Definition segments_allowed (split : string -> result string (list string)) (m : PermissionMatrix) (cmd : string) : Prop :=
  allowlist (shell_policy m) <> [] ->
  forall segment first args, segment ∈ split_ampersands cmd ->
    split (trim segment) = Ok (first :: args) ->
    command_name first ∈ allowlist (shell_policy m) \/ first ∈ allowlist (shell_policy m).

Lemma first_allowed_spec m first :
  first_allowed m first = true <->
  command_name first ∈ allowlist (shell_policy m) \/ first ∈ allowlist (shell_policy m).
Proof.
  unfold first_allowed. rewrite existsb_exists. split.
  - intros (a & Ha%list_elem_of_In & He). apply orb_true_iff in He as [->%String.eqb_eq | ->%String.eqb_eq]; auto.
  - intros [H|H]; apply list_elem_of_In in H; eexists; (split; [exact H|]);
      rewrite String.eqb_refl; [done|apply orb_true_r].
Qed.

Lemma allowlist_step split m cmd :
  match allowlist (shell_policy m) with [] => Ok () | _ => check_segments split m (split_ampersands cmd) end = Ok ()
  <-> segments_allowed split m cmd.
Proof.
  unfold segments_allowed. destruct (allowlist (shell_policy m)) as [|a l] eqn:Ha; [naive_solver|].
  rewrite check_segments_ok. setoid_rewrite first_allowed_spec. rewrite Ha. naive_solver.
Qed.

(** ** Properties *)

(** [C23] What an accepted shell command is guaranteed to be.  For a command
    the shell parser accepts and that is not blank, the check succeeds exactly
    when: the metacharacter scan finds nothing, so that no separator, pipe,
    variable or substitution character stands outside quotes and a live
    ampersand only occurs doubled; every segment between [&&] that parses
    starts with a command of a nonempty allowlist; no token is on the blocklist
    and no blocklist pattern occurs anywhere in the text. *)
Theorem verify_command_spec split m cmd token tokens
    (Hparse : split cmd = Ok (token :: tokens)) :
  (verify_command split m cmd = Ok () <->
     disallowed_metachar cmd = None /\
     segments_allowed split m cmd /\
     (forall t, t ∈ token :: tokens -> t ∉ blocklist (shell_policy m)) /\
     (forall p, p ∈ blocklist (shell_policy m) -> forall a b, cmd <> a +:+ p +:+ b)) /\
  (verify_command split m cmd = Ok () -> no_live_metachar unquoted cmd).
Proof.
  assert (Hiff : verify_command split m cmd = Ok () <->
     disallowed_metachar cmd = None /\ segments_allowed split m cmd /\
     (forall t, t ∈ token :: tokens -> t ∉ blocklist (shell_policy m)) /\
     (forall p, p ∈ blocklist (shell_policy m) -> forall a b, cmd <> a +:+ p +:+ b)).
  { rewrite <- allowlist_step, <- blocked_token_None, <- blocked_pattern_None.
    unfold verify_command. rewrite Hparse.
    destruct (disallowed_metachar cmd); [naive_solver|].
    set (step := match allowlist (shell_policy m) with [] => _ | _ => _ end).
    clearbody step. destruct step as [[]|e]; cbn [mbind result_bind]; [|split; [done|by intros (_ & ? & _)]].
    destruct (blocked_token m (token :: tokens)); [split; [done|by intros (_ & _ & ? & _)]|].
    destruct (blocked_pattern m cmd); [split; [done|by intros (_ & _ & _ & ?)]|by repeat split]. }
  split; [done|]. intros Hok. apply Hiff in Hok as [Hm _]. by apply disallowed_metachar_None.
Qed.

Definition sample_matrix (allow block : list string) : PermissionMatrix :=
  {| sandbox := {| workspace_root := "/work"; allowed_paths := ["/data"]; blocked_prefixes := ["/.git/"] |};
     shell_policy := {| allowlist := allow; blocklist := block |};
     deny_rules := ["Bash(rm *)"]; confirmation_timeout := 30; sandbox_mode := Required;
     backup_dir := ".jia/backups"; execution_sandbox := true |}.

(** A concrete tokenizer for the witnesses: whitespace separates words and a
    double quote that is not closed in the same piece is a parse error. *)
Definition sample_split (s : string) : result string (list string) :=
  if Nat.even (length (split_char dquote s)) then Err "missing closing quote"
  else Ok (split_whitespace s).

Lemma verify_command_spec_witness :
  verify_command sample_split (sample_matrix ["cargo"; "ls"] ["sudo"]) "cargo test && ls -l" = Ok () /\
  no_live_metachar unquoted "cargo test && ls -l".
Proof.
  assert (Hok : verify_command sample_split (sample_matrix ["cargo"; "ls"] ["sudo"]) "cargo test && ls -l" = Ok ())
    by by vm_compute.
  split; [done|].
  apply (verify_command_spec sample_split (sample_matrix ["cargo"; "ls"] ["sudo"]) "cargo test && ls -l"
           "cargo" ["test"; "&&"; "ls"; "-l"]); [by vm_compute|done].
Defined.

(** The segments are cut at every [&&], quoted or not, and a piece that does
    not parse is skipped: a quoted [&&] makes the allowlist pass any command. *)
Example quoted_ampersands_bypass_allowlist :
  verify_command sample_split (sample_matrix ["ls"] ["sudo"])
    ("rm " +:+ char_str dquote +:+ "x && y" +:+ char_str dquote) = Ok ().
Proof. by vm_compute. Qed.

(** A newline separates commands for the shell but is no metacharacter of the
    scan. *)
Example newline_is_not_rejected :
  verify_command sample_split (sample_matrix ["ls"] ["sudo"])
    ("ls" +:+ char_str newline +:+ "rm x") = Ok ().
Proof. by vm_compute. Qed.

(** Path confinement: a verified path is the canonical form of what was
    asked (for a write to a new file, the canonical parent and the file name),
    lies under the workspace root or an allowed directory, component by
    component, and contains no blocked prefix; conversely a path that resolves
    to such a place is accepted. *)
Theorem verify_path_spec exists_path canonicalize m raw op p :
  verify_path exists_path canonicalize m raw op = Ok p <->
  canonical_path exists_path canonicalize m raw op = Ok p /\
  (components (workspace_root (sandbox m)) `prefix_of` components p \/
   exists a, a ∈ allowed_paths (sandbox m) /\ components a `prefix_of` components p) /\
  forall prefix, prefix ∈ blocked_prefixes (sandbox m) -> forall a b, p <> a +:+ prefix +:+ b.
Proof.
  assert (Hin : forall q, within_sandbox m q = true <->
     components (workspace_root (sandbox m)) `prefix_of` components q \/
     exists a, a ∈ allowed_paths (sandbox m) /\ components a `prefix_of` components q).
  { intros q. unfold within_sandbox, path_starts_with. rewrite orb_true_iff, is_prefix_spec, existsb_exists.
    setoid_rewrite is_prefix_spec. by setoid_rewrite <- list_elem_of_In. }
  unfold verify_path. rewrite bind_Ok. split.
  - intros (q & Hq & H). destruct (within_sandbox m q) eqn:Hw; cbn in H; [|done].
    destruct (List.find _ _) as [?|] eqn:Hf; [done|]. injection H as <-.
    split; [done|]. split; [by apply Hin|]. intros prefix Hp a b He.
    apply (find_None_forall (contains_str q)) with (x := prefix) in Hf; [|done].
    assert (contains_str q prefix = true) by (apply contains_str_spec; eauto). congruence.
  - intros (Hc & Hw & Hb). exists p. split; [done|]. apply Hin in Hw as ->. cbn.
    rewrite (proj2 (find_None_forall (contains_str p) (blocked_prefixes (sandbox m)))); [done|].
    intros prefix Hp. destruct (contains_str p prefix) eqn:Hcs; [|done].
    apply contains_str_spec in Hcs as (a & b & He). by destruct (Hb prefix Hp a b).
Qed.

(** What the sandbox does to a tool's input.  When it succeeds, a file
    tool's [path] is a verified path and every other field is as given; a shell
    command passed the command policy and its input is unchanged; any other
    tool's input is unchanged. *)
Theorem sandbox_input_spec exists_path canonicalize split m tool input v
    (Hok : sandbox_input exists_path canonicalize split m tool input = Ok v) :
  (forall k, k <> "path"%string -> get v k = get input k) /\
  (tool ∈ ["read_file"; "write_file"; "patch_file"; "revert_file"] ->
     exists raw p op, as_str (index input "path") = Some raw /\
       verify_path exists_path canonicalize m raw op = Ok p /\
       as_str (index v "path") = Some p /\ (op = Read <-> tool = "read_file"%string)) /\
  (tool = "shell"%string ->
     v = input /\ exists cmd, as_str (index input "command") = Some cmd /\ verify_command split m cmd = Ok ()) /\
  (tool ∉ ["read_file"; "write_file"; "patch_file"; "revert_file"; "grep"] -> v = input).
Proof.
  assert (Hpath : forall op, sandbox_path exists_path canonicalize m input "path" op = Ok v ->
    (forall k, k <> "path"%string -> get v k = get input k) /\
    exists raw p, as_str (index input "path") = Some raw /\
       verify_path exists_path canonicalize m raw op = Ok p /\ as_str (index v "path") = Some p).
  { intros op H. unfold sandbox_path in H.
    apply bind_Ok in H as (raw & Hraw & H). apply bind_Ok in H as (p & Hp & H).
    injection H as <-. destruct (as_str (index input "path")) as [s|] eqn:Hs; [|done].
    injection Hraw as ->. destruct input as [| | | | |fields]; try done. cbn. split.
    - intros k Hk. by apply assoc_insert_ne.
    - exists raw, p. split; [done|]. split; [done|]. unfold index, get. cbn. by rewrite assoc_insert. }
  unfold sandbox_input in Hok.
  destruct (one_of tool ["read_file"]) eqn:H1.
  { apply one_of_spec, list_elem_of_singleton in H1 as ->.
    destruct (Hpath Read Hok) as (Hk & raw & p & ? & ? & ?). split; [done|]. split; [|split; [done|set_solver]].
    intros _. by exists raw, p, Read. }
  apply one_of_false in H1. destruct (one_of tool ["write_file"; "patch_file"; "revert_file"]) eqn:H2.
  { apply one_of_spec in H2. destruct (Hpath Write Hok) as (Hk & raw & p & ? & ? & ?). split; [done|].
    split; [|split; [intros ->; set_solver|set_solver]].
    intros _. exists raw, p, Write. repeat split; try done. intros ->. set_solver. }
  apply one_of_false in H2. destruct (one_of tool ["shell"]) eqn:H3.
  { apply one_of_spec, list_elem_of_singleton in H3 as ->.
    apply bind_Ok in Hok as (cmd & Hcmd & Hok). apply bind_Ok in Hok as ([] & Hv & [= <-]).
    split; [done|]. split; [set_solver|]. split; [|done]. intros _. split; [done|].
    exists cmd. split; [|done]. by destruct (as_str _); simplify_eq/=. }
  apply one_of_false in H3. destruct (one_of tool ["grep"]) eqn:H4.
  { apply one_of_spec, list_elem_of_singleton in H4 as ->.
    destruct (as_str (index input "path")) eqn:Hs.
    - destruct (Hpath Read Hok) as (Hk & _). split; [done|]. split; [set_solver|]. split; [done|set_solver].
    - injection Hok as <-. split; [done|]. split; [set_solver|]. split; [done|set_solver]. }
  injection Hok as <-. split; [done|]. split; [set_solver|]. split; [set_solver|done].
Qed.

Definition file_input (path : string) : Value := Obj [("content", Str "x"); ("path", Str path)].

Lemma sandbox_input_spec_witness :
  let fs := fun _ : string => true in
  let canon := fun p : string => Ok p in
  sandbox_input fs canon sample_split (sample_matrix [] []) "write_file" (file_input "a.txt")
    = Ok (file_input "/work/a.txt") /\
  get (file_input "/work/a.txt") "content" = get (file_input "a.txt") "content".
Proof.
  split; [by vm_compute|].
  apply (sandbox_input_spec (fun _ : string => true) (fun p : string => Ok p) sample_split (sample_matrix [] [])
    "write_file" (file_input "a.txt") (file_input "/work/a.txt")); [by vm_compute|done].
Defined.

(** The policy chain, first match wins.  The verdict is a denial exactly
    when some configured deny rule matches the tool's subject, whatever the
    path is; without one, a path whose file name is an SSH private key or a
    [.env] file that is not an example, sample or template is never passed
    silently; and an [Ask] is only raised for a path without a matching deny
    rule. *)
Theorem chain_check_spec glob to_lowercase to_string m tool input :
  let kind := fst (subject to_string tool input) in
  let subj := snd (subject to_string tool input) in
  let verdict := chain_check glob to_lowercase to_string m tool input in
  ((exists policy reason, verdict = Deny policy reason) <->
     exists rule, rule ∈ deny_rules m /\ match_deny_rule glob rule kind subj = true) /\
  (verdict = Pass -> forall path name, as_str (index input "path") = Some path ->
     file_name path = Some name ->
     to_lowercase name ∉ SSH_KEY_NAMES /\
     (starts_with (to_lowercase name) ".env" = true ->
        contains_str (to_lowercase name) "example" = true \/
        contains_str (to_lowercase name) "sample" = true \/
        contains_str (to_lowercase name) "template" = true)) /\
  (forall policy reason, verdict = Ask policy reason -> policy = "sensitive_file"%string /\
     is_Some (as_str (index input "path")) /\
     forall rule, rule ∈ deny_rules m -> match_deny_rule glob rule kind subj = false).
Proof.
  intros kind subj verdict. subst verdict. unfold chain_check.
  destruct (subject to_string tool input) as [k s] eqn:Hs. subst kind subj. cbn [fst snd].
  destruct (List.find _ _) as [rule|] eqn:Hf.
  - apply List.find_some in Hf as [Hin%list_elem_of_In Hm].
    split; [split; [by exists rule|eauto]|]. split; [done|done].
  - pose proof (proj1 (find_None_forall _ _) Hf) as Hno. cbn in Hno.
    destruct (as_str (index input "path")) as [p|] eqn:Hp; cbn [mbind option_bind].
    2: { split; [|split; [done|done]]. split; [naive_solver|]. intros (r & Hr & Hm). by rewrite Hno in Hm. }
    destruct (sensitive_path_reason to_lowercase p) as [reason|] eqn:Hr.
    + split; [|split; [done|]].
      * split; [naive_solver|]. intros (r & Hin & Hm). by rewrite Hno in Hm.
      * intros policy r [= <- <-]. split; [done|]. split; [by eexists|exact Hno].
    + split; [|split; [|done]].
      * split; [naive_solver|]. intros (r & Hin & Hm). by rewrite Hno in Hm.
      * intros _ path name [= <-] Hname. unfold sensitive_path_reason in Hr. rewrite Hname in Hr.
        cbn [mbind option_bind] in Hr.
        destruct (one_of (to_lowercase name) SSH_KEY_NAMES) eqn:Hk;
          [by destruct (_ && _) in Hr|].
        apply one_of_false in Hk. split; [done|]. intros Henv. rewrite Henv in Hr.
        destruct (contains_str _ "example"), (contains_str _ "sample"), (contains_str _ "template");
          cbn in Hr; auto; done.
Qed.

(** The pieces of a command and the operators between them. *)
Fixpoint weave (segments seps : list string) : string :=
  match segments, seps with
  | s :: ((_ :: _) as segments'), sep :: seps' => s +:+ sep +:+ weave segments' seps'
  | s :: _, _ => s
  | [], _ => ""
  end.

Lemma weave_cons s segments sep seps :
  segments <> [] -> weave (s :: segments) (sep :: seps) = s +:+ sep +:+ weave segments seps.
Proof. by destruct segments. Qed.

Lemma split_segments_from_ne q cur cmd : split_segments_from q cur cmd <> [].
Proof.
  revert q cur. induction cmd as [cmd IH] using string_len_ind. intros q cur.
  destruct cmd as [|c rest]; cbn; [done|]. destruct (live q && Ascii.eqb c pipe); [done|].
  destruct rest as [|c2 rest2]; [done|]. destruct (_ && _ && _); [done|].
  apply IH. cbn. lia.
Qed.

(** Nothing of the command is lost: the segments, rejoined with their
    operators, are the command. *)
Lemma split_segments_cover q cur cmd :
  exists seps, Forall (fun s => s = "|"%string \/ s = "&&"%string) seps /\
    S (length seps) = length (split_segments_from q cur cmd) /\
    weave (split_segments_from q cur cmd) seps = cur +:+ cmd.
Proof.
  revert q cur. induction cmd as [cmd IH] using string_len_ind. intros q cur.
  destruct cmd as [|c rest]; cbn [split_segments_from].
  { exists []. cbn. by rewrite app_nil_r_str. }
  destruct (live q && Ascii.eqb c pipe) eqn:Hp.
  - apply andb_true_iff in Hp as [_ ->%Ascii.eqb_eq].
    destruct (IH rest ltac:(cbn; lia) q "") as (seps & Hs & Hlen & Hw).
    exists ("|" :: seps)%string. split; [constructor; auto|]. split; [cbn; lia|].
    rewrite weave_cons by apply split_segments_from_ne. by rewrite Hw.
  - assert (Hgo : exists seps, Forall (fun s => s = "|"%string \/ s = "&&"%string) seps /\
      S (length seps) = length (split_segments_from (advance q c) (cur +:+ char_str c) rest) /\
      weave (split_segments_from (advance q c) (cur +:+ char_str c) rest) seps = cur +:+ String c rest).
    { destruct (IH rest ltac:(cbn; lia) (advance q c) (cur +:+ char_str c)) as (seps & Hs & Hlen & Hw).
      exists seps. split; [done|]. split; [done|]. by rewrite Hw, app_assoc_str. }
    destruct rest as [|c2 rest2]; [exact Hgo|].
    destruct (live q && Ascii.eqb c ampersand && Ascii.eqb c2 ampersand) eqn:Ha; [|exact Hgo].
    apply andb_true_iff in Ha as [[_ ->%Ascii.eqb_eq]%andb_true_iff ->%Ascii.eqb_eq].
    destruct (IH rest2 ltac:(cbn; lia) q "") as (seps & Hs & Hlen & Hw).
    exists ("&&" :: seps)%string. split; [constructor; auto|]. split; [cbn; lia|].
    rewrite weave_cons by apply split_segments_from_ne. by rewrite Hw.
Qed.

Lemma redirection_metachar_None q cmd :
  redirection_metachar_from q cmd = None ->
  forall i c, live_at q cmd i c -> c <> "<"%char /\ c <> ">"%char.
Proof.
  revert q. induction cmd as [|d rest IH]; intros q H i c [Hg Hl]; [by destruct i|]. cbn in H.
  destruct (live q && _) eqn:Hr; [done|]. destruct i as [|i]; cbn in Hg, Hl.
  - injection Hg as ->. rewrite Hl in Hr. apply orb_false_iff in Hr as [?%Ascii.eqb_neq ?%Ascii.eqb_neq]. done.
  - apply (IH _ H i c). done.
Qed.

Lemma verify_segments_ok split segments :
  verify_segments split segments = Ok () <->
  forall s, s ∈ segments -> split s = Ok [] \/
    exists first args, split s = Ok (first :: args) /\ segment_allowed (command_name first) args = true.
Proof.
  induction segments as [|s segments IH]; cbn; [set_solver|].
  destruct (split s) as [[|first args]|e] eqn:Hs.
  - rewrite IH. split; [|set_solver]. intros H s' Hin. apply elem_of_cons in Hin as [->|Hin]; auto.
  - destruct (segment_allowed _ _) eqn:Ha.
    + rewrite IH. split; [|set_solver]. intros H s' Hin. apply elem_of_cons in Hin as [->|Hin]; eauto 10.
    + split; [done|]. intros H. destruct (H s) as [?|(f & a & ? & ?)]; [set_solver|congruence|congruence].
  - split; [done|]. intros H. destruct (H s) as [?|(f & a & ? & ?)]; [set_solver|congruence|congruence].
Qed.

(** The verifier's gate.  An accepted command has no redirection outside
    quotes, and it decomposes completely into segments joined by pipes or [&&]
    every one of which is blank or runs a command of the verification
    allowlist with an allowed sub-command. *)
Theorem verifier_command_sound split cmd (Hok : verify_verifier_command split cmd = Ok ()) :
  (forall i c, live_at unquoted cmd i c -> c <> "<"%char /\ c <> ">"%char) /\
  exists segments seps,
    weave segments seps = cmd /\ S (length seps) = length segments /\
    Forall (fun s => s = "|"%string \/ s = "&&"%string) seps /\
    Forall (fun s => split s = Ok [] \/
      exists first args, split s = Ok (first :: args) /\ segment_allowed (command_name first) args = true) segments.
Proof.
  unfold verify_verifier_command in Hok.
  destruct (redirection_metachar cmd) eqn:Hr; [done|].
  split; [by apply redirection_metachar_None|].
  destruct (split_segments_cover unquoted "" cmd) as (seps & Hs & Hlen & Hw).
  exists (split_segments cmd), seps. split; [exact Hw|]. split; [exact Hlen|]. split; [done|].
  rewrite Forall_forall. by apply verify_segments_ok.
Qed.

Lemma verifier_command_sound_witness :
  verify_verifier_command sample_split "cargo test | grep ok && git status" = Ok () /\
  forall i c, live_at unquoted "cargo test | grep ok && git status" i c -> c <> "<"%char /\ c <> ">"%char.
Proof.
  split; [by vm_compute|].
  apply (verifier_command_sound sample_split "cargo test | grep ok && git status"). by vm_compute.
Defined.

(** Neither the verifier's splitter nor the metacharacter scan separates
    commands at a newline, which the tokenizer reads as blank. *)
Example verifier_newline :
  verify_verifier_command sample_split ("ls" +:+ char_str newline +:+ "rm -rf x") = Ok () /\
  verify_command sample_split (sample_matrix [] []) ("ls" +:+ char_str newline +:+ "rm -rf x") = Ok ().
Proof. by vm_compute. Qed.

Lemma rfind_marker_path r :
  find_str CWD_MARKER r = None -> rfind_str CWD_MARKER (CWD_MARKER +:+ String "/"%char r) = Some 0.
Proof.
  intros H%rfind_str_None.
  let s := eval lazy [CWD_MARKER String.append] in (CWD_MARKER +:+ String "/"%char r) in
  change (CWD_MARKER +:+ String "/"%char r) with s.
  by rewrite !rfind_str_cons, H.
Qed.

(** The working directory smuggled out through the output is read back
    exactly: after the wrapper printed the marker and an absolute directory
    (without a marker or outer blanks in it), the visible output is what the
    command itself printed, even if that contains the marker, and the
    directory is the one printed. *)
Theorem split_cwd_roundtrip user dir
    (Hmarker : find_str CWD_MARKER dir = None) (Htrim : trim (String "/" dir) = String "/"%char dir) :
  split_cwd (user +:+ char_str newline +:+ CWD_MARKER +:+ String "/"%char dir) = (user, Some (String "/"%char dir)).
Proof.
  unfold split_cwd. rewrite <- app_assoc_str.
  rewrite (rfind_str_app _ (user +:+ char_str newline) _ 0) by by apply rfind_marker_path.
  rewrite Nat.add_0_r, drop_str_app_plus, drop_app_str, Htrim, take_app_str.
  unfold pop_newline. by rewrite strip_suffix_app.
Qed.

Lemma split_cwd_roundtrip_witness :
  split_cwd ("fake __JIA_CWD__/etc" +:+ char_str newline +:+ CWD_MARKER +:+ "/work/sub") =
    ("fake __JIA_CWD__/etc"%string, Some "/work/sub"%string).
Proof. apply (split_cwd_roundtrip "fake __JIA_CWD__/etc" "work/sub"); by vm_compute. Defined.
