(* ===== verification/Links.v ===== *)
(** * The sandbox on a tree with symbolic links

    [Permission.verify_path] asks the file system which path is the canonical one
    and whether a path exists.  Here these two questions of the standard library
    are answered on a concrete tree of directories, files and symbolic links, as
    the operating system answers them, so that what a tool opens after the check
    can be compared with what was checked. *)

From S2P Require Import Prelude RString Path Permission.
Local Open Scope string_scope.
#[local] Arguments String.append !_ _ : simpl nomatch.

(** ** The tree *)

(** The names from the root to an object. *)
Abbreviation Place := (list string).

Inductive Node := NDir | NFile | NLink (target : string).

(** The root directory is always there. *)
Abbreviation Tree := (gmap Place Node).

Section Walk.
Context (t : Tree).

(** Following the segments of a path from a directory: at most [links] links are
    followed; an object that is not a directory must be the last one.  With
    [create] the last name may be missing: the place where a file would be made. *)
Fixpoint walk (create : bool) (links : nat) : Place -> list string -> option Place :=
  fix go (at_ : Place) (todo : list string) : option Place :=
    match todo with
    | [] => Some at_
    | c :: rest =>
        if String.eqb c "" || String.eqb c "." then go at_ rest
        else if String.eqb c ".." then go (take (length at_ - 1) at_) rest
        else match t !! (at_ ++ [c])%list with
             | Some NDir => go (at_ ++ [c])%list rest
             | Some NFile => match rest with [] => Some (at_ ++ [c])%list | _ => None end
             | Some (NLink target) =>
                 match links with
                 | O => None
                 | S links => walk create links (if is_absolute target then [] else at_) (split_char slash target ++ rest)%list
                 end
             | None => match rest with [] => if create then Some (at_ ++ [c])%list else None | _ => None end
             end
    end.

(** Linux follows forty links in one lookup. *)
Definition MAX_LINKS : nat := 40.

Context (cwd : Place).

Definition lookup_path (create : bool) (p : string) : option Place :=
  if is_empty_str p then None else walk create MAX_LINKS (if is_absolute p then [] else cwd) (split_char slash p).

(** [Path::exists] and [canonicalize], and what opening a path reaches: for a
    write the file may be new. *)
Definition exists_in (p : string) : bool := match lookup_path false p with Some _ => true | None => false end.
Definition canonicalize_in (p : string) : result string string :=
  match lookup_path false p with Some l => Ok (render l) | None => Err "No such file or directory" end.
Definition opens (op : PathOp) (p : string) : option Place :=
  lookup_path (match op with Write => true | Read => false end) p.

(** ** Real places *)

Definition name_ok (c : string) : Prop := clean_segment c /\ c <> "..".

(** A directory reached by names alone, and a place such a path ends at. *)
Definition is_dir (l : Place) : Prop :=
  Forall name_ok l /\ forall i, 0 < i <= length l -> t !! take i l = Some NDir.
Definition is_file (l : Place) : Prop := exists d c, l = (d ++ [c])%list /\ is_dir d /\ name_ok c /\ t !! l = Some NFile.
Definition real (l : Place) : Prop := is_dir l \/ is_file l.

Lemma name_ok_segment c : no_slash c -> String.eqb c "" || String.eqb c "." = false -> String.eqb c ".." = false -> name_ok c.
Proof. intros Hn [H1%String.eqb_neq H2%String.eqb_neq]%orb_false_iff H3%String.eqb_neq. by repeat split. Qed.

Lemma root_is_dir : is_dir [].
Proof. split; [constructor|]. cbn. lia. Qed.

Lemma is_dir_snoc d c : is_dir d -> name_ok c -> t !! (d ++ [c])%list = Some NDir -> is_dir (d ++ [c])%list.
Proof.
  intros [Hf Hd] Hc Ht. split; [apply Forall_app; split; [done|by apply Forall_singleton]|]. intros i Hi. rewrite length_app in Hi. cbn in Hi.
  destruct (decide (i = length d + 1)) as [->|Hne].
  - by rewrite take_ge by (rewrite length_app; cbn; lia).
  - rewrite take_app_le by lia. apply Hd. lia.
Qed.

Lemma is_dir_app d l : is_dir (d ++ l)%list -> is_dir d.
Proof.
  intros [Hf Hd]. split; [by apply Forall_app in Hf as [? _]|]. intros i Hi. specialize (Hd i).
  rewrite length_app, take_app_le in Hd by lia. apply Hd. lia.
Qed.

Lemma is_dir_up d : is_dir d -> is_dir (take (length d - 1) d).
Proof. intros H. apply is_dir_app with (drop (length d - 1) d). by rewrite take_drop. Qed.

Lemma is_dir_start p d : is_dir d -> is_dir (if is_absolute p then [] else d).
Proof. destruct (is_absolute p); [intros _; apply root_is_dir|done]. Qed.

(** What a walk reaches is real, or the free name of a new file. *)
Lemma walk_real create links d todo l : is_dir d -> Forall no_slash todo -> walk create links d todo = Some l ->
  real l \/ create = true /\ exists d' c, l = (d' ++ [c])%list /\ is_dir d' /\ name_ok c /\ t !! l = None.
Proof.
  revert d todo. induction links as [|links IHl]; intros d todo; revert d; induction todo as [|c rest IH]; intros d Hd Hs;
    cbn [walk]; try (intros [= <-]; by left; left); apply Forall_cons in Hs as [Hc Hs];
    (destruct (String.eqb c "" || String.eqb c ".") eqn:E1; [by apply IH|]);
    (destruct (String.eqb c "..") eqn:E2; [apply IH; [by apply is_dir_up|done]|]);
    pose proof (name_ok_segment c Hc E1 E2) as Hn;
    destruct (t !! (d ++ [c])%list) as [[| |target]|] eqn:Et.
  1, 5: by apply IH; [apply is_dir_snoc|].
  1, 4: destruct rest; [|done]; intros [= <-]; left; right; by exists d, c.
  - done.
  - destruct rest; [|done]. destruct create; [|done]. intros [= <-]. right. split; [done|]. by exists d, c.
  - apply IHl; [by apply is_dir_start|]. apply Forall_app. split; [apply split_char_pieces|done].
  - destruct rest; [|done]. destruct create; [|done]. intros [= <-]. right. split; [done|]. by exists d, c.
Qed.

Lemma name_ok_skip c : name_ok c -> String.eqb c "" || String.eqb c "." = false /\ String.eqb c ".." = false.
Proof. intros ((_ & H1 & H2) & H3). apply String.eqb_neq in H1, H2, H3. by rewrite H1, H2, H3. Qed.

(** The names of a directory lead to it, without a link. *)
Lemma walk_down create links d e rest : is_dir (d ++ e)%list -> walk create links d (e ++ rest)%list = walk create links (d ++ e)%list rest.
Proof.
  revert d. induction e as [|c e IH]; intros d Hd; [by rewrite app_nil_r|].
  assert (Hd1 : is_dir (d ++ [c])%list) by (apply is_dir_app with e; by rewrite <- app_assoc).
  assert (Hc : name_ok c) by (destruct Hd1 as [[_ [Hc _]%Forall_cons]%Forall_app _]; exact Hc).
  destruct (name_ok_skip c Hc) as [E1 E2].
  assert (Et : t !! (d ++ [c])%list = Some NDir).
  { destruct Hd1 as [_ H]. specialize (H (length (d ++ [c])%list)). rewrite take_ge in H by done. apply H. rewrite length_app. cbn. lia. }
  rewrite (cons_middle c d e), app_assoc. rewrite (cons_middle c d e), app_assoc in Hd. specialize (IH (d ++ [c])%list Hd).
  rewrite <- IH. destruct links; cbn [walk app]; rewrite E1, E2, Et; reflexivity.
Qed.

Lemma split_render l : Forall clean_segment l -> split_char slash (render l) = "" :: match l with [] => [""] | _ => l end.
Proof.
  intros H. unfold render. change ("/" +:+ ?x) with (String slash x). cbn [split_char]. rewrite Ascii.eqb_refl. f_equal.
  destruct l as [|c l]; [done|]. apply split_char_join; [done|]. eapply Forall_impl; [exact H|]. by intros s [? _].
Qed.

Lemma names_clean l : Forall name_ok l -> Forall clean_segment l.
Proof. intros H. eapply Forall_impl; [exact H|]. by intros s [? _]. Qed.

Lemma lookup_render create l : Forall name_ok l -> lookup_path create (render l) = walk create MAX_LINKS [] l.
Proof.
  intros H. unfold lookup_path. change (is_empty_str (render l)) with false. change (is_absolute (render l)) with true. cbv iota.
  rewrite split_render by by apply names_clean. unfold MAX_LINKS. by destruct l.
Qed.

Lemma real_names l : real l -> Forall name_ok l.
Proof. intros [[H _]|(d & c & -> & [H _] & Hc & _)]; [done|]. apply Forall_app. split; [done|by apply Forall_singleton]. Qed.

(** One name in a directory. *)
Lemma walk_last create links d c : is_dir d -> name_ok c -> walk create links d [c] =
  match t !! (d ++ [c])%list with
  | Some (NLink target) =>
      match links with
      | O => None
      | S links => walk create links (if is_absolute target then [] else d) (split_char slash target ++ [])%list
      end
  | Some _ => Some (d ++ [c])%list
  | None => if create then Some (d ++ [c])%list else None
  end.
Proof.
  intros _ Hc. destruct (name_ok_skip c Hc) as [E1 E2].
  destruct links; cbn [walk]; rewrite E1, E2; by destruct (t !! _) as [[| |]|].
Qed.

(** A real place is where its own path leads. *)
Lemma lookup_real create l : real l -> lookup_path create (render l) = Some l.
Proof.
  intros Hr. rewrite lookup_render by by apply real_names. destruct Hr as [Hd|(d & c & -> & Hd & Hc & Ht)].
  - pose proof (walk_down create MAX_LINKS [] l [] Hd) as H. rewrite app_nil_r in H. by rewrite H.
  - rewrite (walk_down create MAX_LINKS [] d [c] Hd). cbn [app]. rewrite walk_last by done. by rewrite Ht.
Qed.
End Walk.

(** ** Properties *)

(** Under the workspace or an allowed directory, name by name; and without any
    of the blocked texts. *)
Definition inside (m : PermissionMatrix) (l : Place) : Prop :=
  exists base, (base = workspace_root (sandbox m) \/ base ∈ allowed_paths (sandbox m)) /\ components base `prefix_of` RootDir :: map Normal l.
Definition unblocked (m : PermissionMatrix) (l : Place) : Prop :=
  forall prefix, prefix ∈ blocked_prefixes (sandbox m) -> forall a b, render l <> a +:+ prefix +:+ b.

Lemma names_components l : Forall name_ok l -> components (render l) = RootDir :: map Normal l.
Proof.
  intros H. rewrite components_render by by apply names_clean. f_equal. apply map_ext_in. intros c Hc%list_elem_of_In.
  rewrite Forall_forall in H. destruct (H c Hc) as [_ Hne%String.eqb_neq]. unfold segment_component. by rewrite Hne.
Qed.

(** What the check of a canonical path says of its place. *)
Lemma accepted_place ex canon m raw op l : Forall name_ok l -> canonical_path ex canon m raw op = Ok (render l) ->
  forall p, verify_path ex canon m raw op = Ok p <-> p = render l /\ inside m l /\ unblocked m l.
Proof.
  intros Hn Hc p. rewrite verify_path_spec, Hc. unfold inside, unblocked. rewrite <- (names_components l Hn). split.
  - intros ([= <-] & Hw & Hb). split_and!; try done. destruct Hw as [Hw|(a & Ha & Hw)]; eauto.
  - intros (-> & (base & [->|Ha] & Hw) & Hb); split_and!; try done; [by left|right; eauto].
Qed.

Lemma file_name_ok p c : file_name p = Some c -> name_ok c.
Proof.
  intros H. split; [by eapply file_name_clean|]. intros ->. unfold file_name in H.
  destruct (last (components p)) as [[| | |x]|] eqn:Hl; [done..| |done]. injection H as ->.
  apply last_Some_elem_of in Hl. unfold components in Hl. apply elem_of_app in Hl as [Hl|Hl].
  { destruct (is_absolute p); [set_solver|]. destruct (include_cur_dir p); set_solver. }
  apply list_elem_of_In, List.in_map_iff in Hl as (y & Hy & _). unfold segment_component in Hy.
  destruct (String.eqb y "..") eqn:E; [done|]. injection Hy as ->. discriminate E.
Qed.

(** Opening a free or linked name in a real place. *)
Lemma opens_new t cwd d c l : real t d -> name_ok c -> opens t cwd Write (render (d ++ [c])%list) = Some l ->
  l = (d ++ [c])%list \/ exists target, t !! (d ++ [c])%list = Some (NLink target).
Proof.
  intros Hd Hc. unfold opens. rewrite lookup_render by (apply Forall_app; split; [by eapply real_names|by apply Forall_singleton]).
  destruct Hd as [Hd|(d0 & c0 & -> & Hd & Hc0 & Ht)].
  - rewrite (walk_down t true MAX_LINKS [] d [c] Hd). cbn [app]. rewrite walk_last by done.
    destruct (t !! _) as [[| |target]|]; [intros E; injection E as E; by left|intros E; injection E as E; by left|intros _; right; by exists target|intros E; injection E as E; by left].
  - rewrite <- app_assoc. cbn [app]. rewrite (walk_down t true MAX_LINKS [] d0 [c0; c] Hd). cbn [app]. destruct (name_ok_skip c0 Hc0) as [E1 E2].
    unfold MAX_LINKS. cbn [walk]. by rewrite E1, E2, Ht.
Qed.

(** [C22] What the path check is worth on a tree with symbolic links.  A path that
    exists is accepted exactly when the place it leads to is under the workspace
    or an allowed directory and its path has none of the blocked texts anywhere;
    the accepted path then leads to that very place, for reading and for writing.
    A path that does not exist is accepted only for a write, as the last name in
    the real place of its parent, again inside and without a blocked text; and
    the write then reaches that very place unless the last name is itself a
    link, which is followed: [write_escapes] is such a write. *)
Theorem verify_path_confines (t : Tree) (cwd : Place) (m : PermissionMatrix) raw op p (Hcwd : is_dir t cwd) :
  let verify := verify_path (exists_in t cwd) (canonicalize_in t cwd) m raw op in
  let asked := resolve m raw in
  match opens t cwd Read asked with
  | Some l =>
      (verify = Ok p <-> p = render l /\ inside m l /\ unblocked m l) /\ forall op', opens t cwd op' (render l) = Some l
  | None =>
      verify = Ok p ->
      op = Write /\ exists d c, p = render (d ++ [c])%list /\ inside m (d ++ [c]) /\ unblocked m (d ++ [c]) /\
        opens t cwd Read (default asked (parent asked)) = Some d /\ file_name asked = Some c /\
        forall l', opens t cwd Write p = Some l' -> l' = (d ++ [c])%list \/ exists target, t !! (d ++ [c])%list = Some (NLink target)
  end.
Proof.
  cbv zeta. assert (Hreal : forall q l, lookup_path t cwd false q = Some l -> real t l).
  { intros q l. unfold lookup_path. destruct (is_empty_str q); [done|]. intros H.
    apply walk_real in H as [H|[H _]]; [done|done|by apply is_dir_start|apply split_char_pieces]. }
  unfold opens at 1. destruct (lookup_path t cwd false (resolve m raw)) as [l|] eqn:El.
  - pose proof (Hreal _ _ El) as Hl. split; [|intros op'; by apply lookup_real].
    apply accepted_place; [by eapply real_names|]. unfold canonical_path, exists_in, canonicalize_in. rewrite El. by destruct op.
  - intros Hv. assert (Hcan := Hv). apply verify_path_spec in Hcan as (Hcan & _). unfold canonical_path in Hcan.
    unfold exists_in, canonicalize_in in Hcan. rewrite El in Hcan. destruct op; [done|]. split; [done|].
    destruct (lookup_path t cwd false (default _ _)) as [d|] eqn:Ed; [|done].
    destruct (file_name (resolve m raw)) as [c|] eqn:Ec; [|done]. clear Hcan.
    pose proof (Hreal _ _ Ed) as Hd. pose proof (file_name_ok _ _ Ec) as Hc. pose proof (real_names _ _ Hd) as Hnd.
    assert (Hn : Forall name_ok (d ++ [c])) by (apply Forall_app; split; [done|by apply Forall_singleton]).
    assert (Hcan : canonical_path (exists_in t cwd) (canonicalize_in t cwd) m raw Write = Ok (render (d ++ [c]))).
    { unfold canonical_path, exists_in, canonicalize_in. rewrite El, Ed, Ec. cbn [mbind result_bind ok_or].
      by rewrite path_join_render by (try apply names_clean; try apply Hc; done). }
    destruct (proj1 (accepted_place _ _ m raw Write (d ++ [c]) Hn Hcan p) Hv) as (Ep & Hin & Hun).
    exists d, c. split_and!; try done. intros l' Hl'. rewrite Ep in Hl'. by apply (opens_new t cwd).
Qed.

(** ** What the model shows *)

(** A workspace with a link to a file outside, and one to a file that is missing. *)
Definition demo_tree : Tree :=
  {[ ["w"] := NDir; ["w"; "src"] := NDir; ["w"; "src"; "a.rs"] := NFile; ["w"; "in"] := NLink "src"; ["etc"] := NDir; ["etc"; "passwd"] := NFile;
     ["w"; "out"] := NLink "../etc/passwd"; ["w"; "gone"] := NLink "/etc/new" ]}.
Definition demo_matrix : PermissionMatrix :=
  {| sandbox := {| workspace_root := "/w"; allowed_paths := []; blocked_prefixes := ["/.git/"] |};
     shell_policy := {| allowlist := []; blocklist := [] |}; deny_rules := []; confirmation_timeout := 30; sandbox_mode := Required;
     backup_dir := ".jia/backups"; execution_sandbox := true |}.
Abbreviation demo_verify := (verify_path (exists_in demo_tree ["w"]) (canonicalize_in demo_tree ["w"]) demo_matrix).

(** A path to a link is refused when the link leads outside; with a slash behind
    it, which makes the path of a file one of nothing, the link itself is
    accepted for a write, and the write follows it.  So does the write to a link
    whose target is missing. *)
Example write_escapes :
  demo_verify "out" Write = Err "path 'out' (→ /etc/passwd) is outside project root '/w'" /\
  (demo_verify "out/" Write = Ok "/w/out" /\ opens demo_tree ["w"] Write "/w/out" = Some ["etc"; "passwd"]) /\
  (demo_verify "gone" Write = Ok "/w/gone" /\ opens demo_tree ["w"] Write "/w/gone" = Some ["etc"; "new"]).
Proof. vm_compute. done. Qed.

Lemma demo_cwd : is_dir demo_tree ["w"].
Proof.
  split; [by repeat constructor|]. intros i Hi. cbn in Hi. assert (i = 1) as -> by lia. reflexivity.
Qed.

Lemma verify_path_confines_witness :
  demo_verify "in/a.rs" Read = Ok "/w/src/a.rs" /\ opens demo_tree ["w"] Write "/w/src/new.rs" = Some ["w"; "src"; "new.rs"].
Proof.
  split.
  - pose proof (verify_path_confines demo_tree ["w"] demo_matrix "in/a.rs" Read "/w/src/a.rs" demo_cwd) as H.
    cbv zeta in H. replace (opens demo_tree ["w"] Read (resolve demo_matrix "in/a.rs")) with (Some ["w"; "src"; "a.rs"]) in H by by vm_compute.
    apply H. split; [reflexivity|]. split.
    + exists "/w". split; [by left|]. by exists [Normal "src"; Normal "a.rs"].
    + intros prefix Hp a b E. apply list_elem_of_singleton in Hp as ->.
      assert (Hc : contains_str "/w/src/a.rs" "/.git/" = true) by (apply contains_str_spec; exists a, b; exact E). discriminate Hc.
  - pose proof (verify_path_confines demo_tree ["w"] demo_matrix "in/new.rs" Write "/w/src/new.rs" demo_cwd) as H.
    cbv zeta in H. replace (opens demo_tree ["w"] Read (resolve demo_matrix "in/new.rs")) with (@None Place) in H by by vm_compute.
    destruct H as (_ & d & c & E & _ & _ & Hd & Hc & H); [by vm_compute|].
    assert (E2 : opens demo_tree ["w"] Write "/w/src/new.rs" = Some ["w"; "src"; "new.rs"]) by by vm_compute.
    destruct (H _ E2) as [E3|[target Ht]]; [|exact E2]. rewrite <- E3 in E. exact E2.
Defined.
