(* ===== verification/Tool.v ===== *)
(** * Tools and their registry

    src/kernel/src/palaces/zhen_tool/base.rs (the tool interface and the access
    declarations), src/kernel/src/palaces/zhen_tool/registry.rs and the call
    records of src/kernel/src/stems/action.rs. *)

From S2P Require Export Prelude RString Json GeJu.

Record ToolAccesses := {
  reads : list string;
  writes : list string;
  recursive : bool;
  all : bool
}.

Definition accesses_all : ToolAccesses := {| reads := []; writes := []; recursive := false; all := true |}.
Definition read_only (reads : list string) (recursive : bool) : ToolAccesses :=
  {| reads := reads; writes := []; recursive := recursive; all := false |}.
Definition write_only (writes : list string) : ToolAccesses :=
  {| reads := []; writes := writes; recursive := false; all := false |}.

Record ToolCall := { tc_id : string; tc_name : string; tc_parameters : Value }.

Record ToolResult := { call_id : string; tr_output : string; tr_error : option string }.

(** The methods of the [BaseTool] trait the kernel decides with; [execute] is
    the environment. *)
Record BaseTool := {
  t_name : string;
  t_ceremony : CeremoniesIntent;
  t_is_destructive : bool;
  t_is_concurrency_safe : bool;
  t_accesses : Value -> ToolAccesses;
  t_target_palace : Value -> Palace
}.

(** The default methods of the trait. *)
Definition default_is_destructive (c : CeremoniesIntent) : bool :=
  match c with IntentWu => false | _ => true end.

Definition default_target_palace (c : CeremoniesIntent) : Palace :=
  match c with
  | IntentWu => Zhen
  | IntentJi => Xun
  | IntentGeng => Zhong
  | IntentXin => Qian
  | IntentRen => Dui
  | IntentGui => Gen
  end.

(** The heaven stem of a ceremony and the palace its tools run in by default
    carry the same stem: an intent over its own palace. *)
Definition intent_stem_of (c : CeremoniesIntent) : Stem :=
  match c with
  | IntentWu => Wu | IntentJi => Ji | IntentGeng => Geng
  | IntentXin => Xin | IntentRen => Ren | IntentGui => Gui
  end.

Lemma default_target_palace_stem c : stem (default_target_palace c) = intent_stem_of c.
Proof. by destruct c. Qed.

(** ** The registry *)

Record ToolRegistry := { tools : gmap string BaseTool; external : gset string }.

Definition ToolRegistry_new : ToolRegistry := {| tools := ∅; external := ∅ |}.

Definition register (t : BaseTool) (r : ToolRegistry) : ToolRegistry :=
  {| tools := <[t_name t := t]> (tools r); external := external r |}.

Definition register_external (t : BaseTool) (r : ToolRegistry) : ToolRegistry :=
  {| tools := <[t_name t := t]> (tools r); external := {[t_name t]} ∪ external r |}.

Definition is_external (name : string) (r : ToolRegistry) : bool := bool_decide (name ∈ external r).

(** [iter] is the iteration order of the hash map; [to_lowercase] is the
    Unicode lower-casing of the standard library. *)
Definition registry_get (iter : gmap string BaseTool -> list (string * BaseTool))
    (to_lowercase : string -> string) (r : ToolRegistry) (name : string) : option BaseTool :=
  match tools r !! name with
  | Some tool => Some tool
  | None =>
      let lower := to_lowercase name in
      snd <$> List.find (fun e => String.eqb (to_lowercase (fst e)) lower) (iter (tools r))
  end.

Definition list_core (iter : gmap string BaseTool -> list (string * BaseTool)) (r : ToolRegistry) : list BaseTool :=
  map snd (List.filter (fun e => negb (is_external (fst e) r)) (iter (tools r))).
Definition list_external (iter : gmap string BaseTool -> list (string * BaseTool)) (r : ToolRegistry) : list BaseTool :=
  map snd (List.filter (fun e => is_external (fst e) r) (iter (tools r))).

(** Every registered tool is filed under its own name. *)
Definition registry_wf (r : ToolRegistry) : Prop := map_Forall (fun k t => t_name t = k) (tools r).

Lemma register_wf t r : registry_wf r -> registry_wf (register t r).
Proof. intros H. by apply map_Forall_insert_2. Qed.

Lemma register_external_wf t r : registry_wf r -> registry_wf (register_external t r).
Proof. intros H. by apply map_Forall_insert_2. Qed.

(** Lookup in the registry: a registered name finds exactly the tool last
    registered under it; otherwise a tool is found exactly when some registered
    name equals the requested one up to case, and the tool found carries such a
    name. *)
Theorem registry_get_spec iter to_lowercase r name
    (Hiter : iter (tools r) ≡ₚ map_to_list (tools r)) (Hwf : registry_wf r) :
  (forall t, tools r !! name = Some t -> registry_get iter to_lowercase r name = Some t) /\
  (tools r !! name = None ->
     (is_Some (registry_get iter to_lowercase r name) <->
        exists k t, tools r !! k = Some t /\ to_lowercase k = to_lowercase name) /\
     forall t, registry_get iter to_lowercase r name = Some t ->
       tools r !! t_name t = Some t /\ to_lowercase (t_name t) = to_lowercase name).
Proof.
  unfold registry_get. split; [by intros t ->|]. intros ->.
  assert (Hin : forall k t, (k, t) ∈ iter (tools r) <-> tools r !! k = Some t).
  { intros k t. rewrite Hiter. by rewrite elem_of_map_to_list. }
  destruct (List.find _ _) as [[k t]|] eqn:Hf; cbn.
  - apply List.find_some in Hf as [Hk%list_elem_of_In He%String.eqb_eq]. apply Hin in Hk.
    split; [split; [intros _; eauto|by eexists]|].
    intros t' [= <-]. rewrite (Hwf _ _ Hk). done.
  - split; [|done]. split; [by intros [? ?]|]. intros (k & t & Hk & He).
    apply Hin, list_elem_of_In in Hk. pose proof (List.find_none _ _ Hf _ Hk) as Hn. cbn in Hn.
    by rewrite He, String.eqb_refl in Hn.
Qed.

Definition sample_tool (n : string) (c : CeremoniesIntent) (acc : Value -> ToolAccesses) : BaseTool :=
  {| t_name := n; t_ceremony := c; t_is_destructive := default_is_destructive c;
     t_is_concurrency_safe := true; t_accesses := acc;
     t_target_palace := fun _ => default_target_palace c |}.

Definition read_tool : BaseTool :=
  sample_tool "read_file" IntentWu
    (fun i => read_only (option_list (as_str (index i "path"))) false).
Definition write_tool : BaseTool :=
  sample_tool "write_file" IntentJi
    (fun i => write_only (option_list (as_str (index i "path")))).
Definition shell_tool : BaseTool := sample_tool "shell" IntentGeng (fun _ => accesses_all).

Definition sample_registry : ToolRegistry :=
  register shell_tool (register write_tool (register read_tool ToolRegistry_new)).

Lemma registry_get_spec_witness :
  registry_wf sample_registry /\
  registry_get map_to_list to_ascii_lowercase sample_registry "Read_File" = Some read_tool /\
  registry_get map_to_list to_ascii_lowercase sample_registry "shell" = Some shell_tool.
Proof.
  assert (Hwf : registry_wf sample_registry) by (by apply register_wf, register_wf, register_wf).
  split; [done|]. split; [by vm_compute|].
  apply (registry_get_spec map_to_list to_ascii_lowercase sample_registry "shell"); [done|done|].
  by vm_compute.
Defined.
