(* ===== verification/Scheduler.v ===== *)
(** * The tool scheduler

    src/kernel/src/plates/tian_heaven/tool_scheduler.rs: lexical path
    normalization, the conflict matrix on access declarations and the planning
    of parallel batches. *)

From S2P Require Export Prelude RString Path Tool.

(** ** Normalization *)

Definition push_component (out : string) (c : Component) : string :=
  match c with
  | CurDir => out
  | ParentDir => default out (parent out)
  | RootDir => path_join out "/"
  | Normal s => path_join out s
  end.

Definition absolutize (base p : string) : string := if is_absolute p then p else path_join base p.

Definition normalize_path_lexical (base p : string) : string :=
  foldl push_component "" (components (absolutize base p)).

Definition normalize_accesses (base : string) (a : ToolAccesses) : ToolAccesses :=
  {| reads := normalize_path_lexical base <$> reads a;
     writes := normalize_path_lexical base <$> writes a;
     recursive := recursive a;
     all := all a |}.

(** ** Conflicts *)

(** Equality of paths is equality of their components. *)
Definition path_eqb (a b : string) : bool := bool_decide (components a = components b).

Definition paths_intersect (a : string) (a_recursive : bool) (b : string) (b_recursive : bool) : bool :=
  if path_eqb a b then true
  else if a_recursive && path_starts_with b a then true
  else if b_recursive && path_starts_with a b then true
  else false.

Definition accesses_conflict (a b : ToolAccesses) : bool :=
  if all a || all b then true
  else if existsb (fun wa => existsb (fun wb => paths_intersect wa (recursive a) wb (recursive b)) (writes b)) (writes a) then true
  else if existsb (fun r => existsb (fun w => paths_intersect r (recursive a) w (recursive b)) (writes b)) (reads a) then true
  else if existsb (fun w => existsb (fun r => paths_intersect w (recursive a) r (recursive b)) (reads b)) (writes a) then true
  else false.

(** ** Batches *)

(** The declaration a call is scheduled by: an unknown tool is a barrier. *)
Definition call_accesses (get : string -> option BaseTool) (base : string) (call : ToolCall) : ToolAccesses :=
  match get (tc_name call) with
  | Some t => normalize_accesses base (t_accesses t (tc_parameters call))
  | None => accesses_all
  end.

(** The loop of [plan_batches]: the batches emitted, in order, from the calls
    left and the pending batch. *)
Fixpoint plan_from (get : string -> option BaseTool) (base : string) (calls pending : list ToolCall)
    (pending_accesses : list ToolAccesses) : list (list ToolCall) :=
  match calls with
  | [] => match pending with [] => [] | _ => [pending] end
  | call :: rest =>
      let accesses := call_accesses get base call in
      if all accesses then
        (match pending with [] => [] | _ => [pending] end) ++ [call] :: plan_from get base rest [] []
      else if existsb (fun pa => accesses_conflict pa accesses) pending_accesses then
        pending :: plan_from get base rest [call] [accesses]
      else plan_from get base rest (pending ++ [call]) (pending_accesses ++ [accesses])
  end.

Definition plan_batches (get : string -> option BaseTool) (base : string) (calls : list ToolCall) : list (list ToolCall) :=
  plan_from get base calls [] [].

(** [max_tool_concurrency] from the value of [JIA_MAX_TOOL_CONCURRENCY]. *)
Definition max_tool_concurrency (env : option string) : Z :=
  match env ≫= parse_unsigned u64_max with
  | Some n => if (0 <? n)%Z then n else 10
  | None => 10
  end.

(** ** Lemmas on normalization *)

(** The reference: resolve the components after the root on a stack. *)
Definition resolve_step (stack : list string) (c : Component) : list string :=
  match c with
  | Normal s => stack ++ [s]
  | ParentDir => removelast stack
  | _ => stack
  end.
Definition resolve_stack (cs : list Component) : list string := foldl resolve_step [] cs.

(** A segment a normalized path consists of. *)
Definition plain_segment (s : string) : Prop := clean_segment s /\ s <> ".."%string.

Definition plain_component (c : Component) : Prop :=
  match c with Normal s => plain_segment s | ParentDir => True | _ => False end.

Lemma components_absolute p :
  is_absolute p = true -> exists cs, components p = RootDir :: cs /\ Forall plain_component cs.
Proof.
  intros Ha. unfold components, body_segments. rewrite Ha. cbn [orb].
  eexists. split; [reflexivity|].
  rewrite Forall_forall. intros c Hc. apply list_elem_of_fmap in Hc as (s & -> & Hs).
  apply list_elem_of_In, filter_In in Hs as [Hs Hns]. apply list_elem_of_In in Hs.
  pose proof (split_char_pieces slash (drop_str 1 p)) as Hall. rewrite Forall_forall in Hall.
  apply Hall in Hs. unfold segment_component.
  destruct (String.eqb_spec s ".."); [done|]. cbn. split; [|done]. split; [done|].
  apply negb_true_iff, orb_false_iff in Hns as [?%String.eqb_neq ?%String.eqb_neq]. done.
Qed.

Lemma removelast_snoc {A} (l : list A) x : removelast (l ++ [x]) = l.
Proof. apply removelast_last. Qed.

Lemma plain_clean segs : Forall plain_segment segs -> Forall clean_segment segs.
Proof. intros H. eapply Forall_impl; [exact H|]. by intros s [? _]. Qed.

Lemma push_components_render cs segs :
  Forall plain_component cs -> Forall plain_segment segs ->
  foldl push_component (render segs) cs = render (foldl resolve_step segs cs) /\
  Forall plain_segment (foldl resolve_step segs cs).
Proof.
  revert segs. induction cs as [|c cs IH]; intros segs Hcs Hsegs; [done|].
  apply Forall_cons in Hcs as [Hc Hcs]. cbn [foldl].
  destruct c as [| | |s]; try done; cbn [push_component resolve_step].
  - destruct segs as [|y segs' _] using rev_ind; [by apply IH|].
    rewrite parent_render_snoc, removelast_snoc by by apply plain_clean. cbn [default].
    apply IH; [done|]. by apply Forall_app in Hsegs as [? _].
  - rewrite path_join_render; [|by apply plain_clean|by destruct Hc].
    apply IH; [done|]. apply Forall_app. split; [done|by constructor].
Qed.

Lemma absolutize_absolute base p : is_absolute base = true -> is_absolute (absolutize base p) = true.
Proof.
  intros Hb. unfold absolutize. destruct (is_absolute p) eqn:Hp; [done|].
  unfold path_join. rewrite Hp. destruct base as [|c base]; [done|].
  unfold is_absolute, starts_with in *. by destruct (_ || _).
Qed.

(** Normal form of a normalized path. *)
Lemma normalize_render base p :
  is_absolute base = true ->
  let segs := resolve_stack (tail (components (absolutize base p))) in
  normalize_path_lexical base p = render segs /\ Forall plain_segment segs.
Proof.
  intros Hb. destruct (components_absolute _ (absolutize_absolute base p Hb)) as (cs & Hcs & Hall).
  unfold normalize_path_lexical. rewrite Hcs. cbn [tail foldl push_component].
  change (path_join "" "/") with (render []). apply push_components_render; [done|constructor].
Qed.

Lemma map_segment_component segs :
  Forall plain_segment segs -> map segment_component segs = map Normal segs.
Proof.
  induction segs as [|s segs IH]; [done|]. intros [[_ Hs] Hall]%Forall_cons. cbn.
  rewrite IH by done. unfold segment_component. by rewrite (proj2 (String.eqb_neq _ _) Hs).
Qed.

Lemma resolve_normals segs acc : foldl resolve_step acc (map Normal segs) = acc ++ segs.
Proof.
  revert acc. induction segs as [|s segs IH]; intros acc; cbn; [by rewrite app_nil_r|].
  by rewrite IH, <- app_assoc.
Qed.

(** ** Lemmas on conflicts *)

(** What a declared path covers: itself, and everything below it when the
    declaration is recursive. *)
Definition covers (rec : bool) (p q : string) : Prop :=
  components p = components q \/ rec = true /\ components p `prefix_of` components q.

Lemma path_starts_with_spec p q : path_starts_with p q = true <-> components q `prefix_of` components p.
Proof. apply is_prefix_spec. Qed.

Lemma paths_intersect_spec a ra b rb :
  paths_intersect a ra b rb = true <-> exists q, covers ra a q /\ covers rb b q.
Proof.
  unfold paths_intersect, path_eqb, covers. case_bool_decide as Heq.
  { split; [|done]. intros _. exists b. auto. }
  destruct (ra && path_starts_with b a) eqn:H1.
  { apply andb_true_iff in H1 as [-> H1%path_starts_with_spec]. split; [|done]. intros _. exists b. auto. }
  destruct (rb && path_starts_with a b) eqn:H2.
  { apply andb_true_iff in H2 as [-> H2%path_starts_with_spec]. split; [|done]. intros _. exists a. auto. }
  split; [done|]. intros (q & Ha & Hb). exfalso.
  rewrite andb_false_iff in H1, H2. rewrite <- !not_true_iff_false, !path_starts_with_spec in H1, H2.
  destruct Ha as [Ha|[-> Ha]], Hb as [Hb|[-> Hb]].
  - congruence.
  - destruct H2 as [?|H2]; [done|]. apply H2. by rewrite Ha.
  - destruct H1 as [?|H1]; [done|]. apply H1. by rewrite Hb.
  - destruct H1 as [?|H1]; [done|]. destruct H2 as [?|H2]; [done|].
    destruct (prefix_weak_total _ _ _ Ha Hb); auto.
Qed.

(** A call's footprint: the paths it may write and the paths it may read. *)
Definition may_write (a : ToolAccesses) (q : string) : Prop := exists p, p ∈ writes a /\ covers (recursive a) p q.
Definition may_read (a : ToolAccesses) (q : string) : Prop := exists p, p ∈ reads a /\ covers (recursive a) p q.

Lemma existsb2_intersect la ra lb rb :
  existsb (fun x => existsb (fun y => paths_intersect x ra y rb) lb) la = true <->
  exists q, (exists p, p ∈ la /\ covers ra p q) /\ (exists p, p ∈ lb /\ covers rb p q).
Proof.
  rewrite existsb_exists. setoid_rewrite existsb_exists. setoid_rewrite paths_intersect_spec.
  setoid_rewrite <- list_elem_of_In. naive_solver.
Qed.

Lemma accesses_conflict_spec a b :
  accesses_conflict a b = true <->
  all a = true \/ all b = true \/
  exists q, (may_write a q /\ (may_write b q \/ may_read b q)) \/ (may_read a q /\ may_write b q).
Proof.
  unfold accesses_conflict, may_write, may_read.
  destruct (all a), (all b); cbn [orb]; try (split; [auto|done]).
  destruct (existsb _ (writes a)) eqn:H1.
  { apply existsb2_intersect in H1. split; [|done]. naive_solver. }
  destruct (existsb _ (reads a)) eqn:H2.
  { apply existsb2_intersect in H2. split; [|done]. naive_solver. }
  apply not_true_iff_false in H1, H2. rewrite existsb2_intersect in H1, H2.
  destruct (existsb _ (writes a)) eqn:H3.
  { apply existsb2_intersect in H3. split; [|done]. naive_solver. }
  apply not_true_iff_false in H3. rewrite existsb2_intersect in H3.
  split; [done|]. intros [?|[?|(q & [[Hw [Hw'|Hr]]|[Hr Hw]])]]; try done; exfalso;
    [apply H1|apply H3|apply H2]; by exists q.
Qed.

Lemma accesses_conflict_sym a b : accesses_conflict a b = accesses_conflict b a.
Proof.
  assert (Himp : forall a b, accesses_conflict a b = true -> accesses_conflict b a = true).
  { clear. intros a b. rewrite !accesses_conflict_spec.
    intros [?|[?|(q & H)]]; [auto|auto|]. right; right. exists q. tauto. }
  apply eq_true_iff_eq. split; apply Himp.
Qed.

(** ** Lemmas on batches *)

Section Batches.
Context (get : string -> option BaseTool) (base : string).

Abbreviation accesses_of := (call_accesses get base).

(** A batch that may run concurrently: a lone barrier, or bounded calls no two
    of which conflict. *)
Definition parallel_safe (batch : list ToolCall) : Prop :=
  (exists call, batch = [call] /\ all (accesses_of call) = true) \/
  (Forall (fun call => all (accesses_of call) = false) batch /\
   forall i j a b, i <> j -> batch !! i = Some a -> batch !! j = Some b ->
     accesses_conflict (accesses_of a) (accesses_of b) = false).

(** What the planner keeps true of the pending batch. *)
Definition pending_ok (pending : list ToolCall) (pending_accesses : list ToolAccesses) : Prop :=
  pending_accesses = accesses_of <$> pending /\
  Forall (fun call => all (accesses_of call) = false) pending /\
  forall i j a b, i <> j -> pending !! i = Some a -> pending !! j = Some b ->
    accesses_conflict (accesses_of a) (accesses_of b) = false.

Definition flush (pending : list ToolCall) : list (list ToolCall) :=
  match pending with [] => [] | _ => [pending] end.

Lemma flush_concat pending : concat (flush pending) = pending.
Proof. destruct pending; cbn; [done|]. by rewrite app_nil_r. Qed.

Lemma flush_safe pending accs :
  pending_ok pending accs -> Forall (fun b => b <> [] /\ parallel_safe b) (flush pending).
Proof.
  intros (_ & Hall & Hno). destruct pending as [|c l]; [constructor|].
  constructor; [|constructor]. split; [done|]. by right.
Qed.

Lemma pending_ok_nil : pending_ok [] [].
Proof. split; [done|]. split; [constructor|]. intros i j a b _ H. by rewrite lookup_nil in H. Qed.

Lemma pending_ok_snoc pending accs call :
  pending_ok pending accs -> all (accesses_of call) = false ->
  existsb (fun pa => accesses_conflict pa (accesses_of call)) accs = false ->
  pending_ok (pending ++ [call]) (accs ++ [accesses_of call]).
Proof.
  intros (-> & Hall & Hno) Hcall Hex. split; [by rewrite fmap_app|].
  split; [apply Forall_app; split; [done|by constructor]|].
  assert (Hfree : forall i a, pending !! i = Some a -> accesses_conflict (accesses_of a) (accesses_of call) = false).
  { intros i a Ha. rewrite not_existsb in Hex. apply (Hex (accesses_of a)).
    apply list_elem_of_fmap. exists a. split; [done|]. by eapply list_elem_of_lookup_2. }
  intros i j a b Hij Ha Hb. apply lookup_app_Some in Ha, Hb.
  destruct Ha as [Ha|[Hi Ha]], Hb as [Hb|[Hj Hb]].
  - by apply (Hno i j).
  - apply list_lookup_singleton_Some in Hb as [_ <-]. eauto.
  - apply list_lookup_singleton_Some in Ha as [_ <-]. rewrite accesses_conflict_sym. eauto.
  - apply list_lookup_singleton_Some in Ha as [Ha _], Hb as [Hb _]. lia.
Qed.

Lemma plan_from_concat calls pending accs :
  concat (plan_from get base calls pending accs) = pending ++ calls.
Proof.
  revert pending accs. induction calls as [|call calls IH]; intros pending accs; cbn [plan_from].
  - fold (flush pending). by rewrite flush_concat, app_nil_r.
  - fold (flush pending). destruct (all _).
    + rewrite concat_app, flush_concat. cbn. by rewrite IH.
    + destruct (existsb _ _); cbn; rewrite IH; [done|]. by rewrite <- app_assoc.
Qed.

Lemma plan_from_safe calls pending accs :
  pending_ok pending accs ->
  Forall (fun b => b <> [] /\ parallel_safe b) (plan_from get base calls pending accs).
Proof.
  revert pending accs. induction calls as [|call calls IH]; intros pending accs Hok; cbn [plan_from];
    fold (flush pending).
  - by eapply flush_safe.
  - destruct (all _) eqn:Hall.
    + apply Forall_app. split; [by eapply flush_safe|]. constructor.
      * split; [done|]. left. eauto.
      * apply IH, pending_ok_nil.
    + destruct (existsb _ _) eqn:Hex.
      * constructor.
        -- pose proof (flush_safe _ _ Hok) as Hs. destruct Hok as (-> & _).
           destruct pending; [done|]. by apply Forall_cons in Hs as [? _].
        -- apply IH. apply (pending_ok_snoc [] [] call pending_ok_nil Hall eq_refl).
      * apply IH. by apply pending_ok_snoc.
Qed.

(** Two adjacent batches are separated for a reason: one of them is a barrier
    or the first call of the second conflicts with a call of the first. *)
Definition separated (b1 b2 : list ToolCall) : Prop :=
  exists call rest, b2 = call :: rest /\
    ((exists b, b ∈ b1 /\ all (accesses_of b) = true) \/ all (accesses_of call) = true \/
     exists b, b ∈ b1 /\ accesses_conflict (accesses_of b) (accesses_of call) = true).

Fixpoint chain_separated (prev : list ToolCall) (batches : list (list ToolCall)) : Prop :=
  match batches with
  | [] => True
  | b :: bs => separated prev b /\ chain_separated b bs
  end.

(** The first batch planned starts with the pending calls, if there are any. *)
Lemma plan_from_head calls pending accs c l :
  pending = c :: l -> exists more bs, plan_from get base calls pending accs = (pending ++ more) :: bs.
Proof.
  revert pending accs l. induction calls as [|call calls IH]; intros pending accs l ->; cbn [plan_from].
  - exists [], []. by rewrite app_nil_r.
  - destruct (all _); [exists [], ([call] :: plan_from get base calls [] []); by rewrite app_nil_r|].
    destruct (existsb _ _); [exists [], (plan_from get base calls [call] [accesses_of call]); by rewrite app_nil_r|].
    destruct (IH ((c :: l) ++ [call]) (accs ++ [accesses_of call]) (l ++ [call]) eq_refl) as (more & bs & ->).
    exists ([call] ++ more), bs. by rewrite app_assoc.
Qed.

Lemma plan_from_separated calls pending accs :
  accs = accesses_of <$> pending ->
  match plan_from get base calls pending accs with
  | [] => True
  | b :: bs => chain_separated b bs
  end.
Proof.
  revert pending accs. induction calls as [|call calls IH]; intros pending accs Haccs; cbn [plan_from].
  { by destruct pending. }
  assert (Hbar : all (accesses_of call) = true -> chain_separated [call] (plan_from get base calls [] [])).
  { intros Hall. specialize (IH [] [] eq_refl).
    destruct (plan_from get base calls [] []) as [|b bs] eqn:Hp; [done|]. cbn. split; [|done].
    assert (Hb : b <> []) by (pose proof (plan_from_safe calls [] [] pending_ok_nil) as Hs;
      rewrite Hp in Hs; by apply Forall_cons in Hs as [[? _] _]).
    destruct b as [|c rest]; [done|]. exists c, rest. split; [done|]. left. exists call. set_solver. }
  destruct (all _) eqn:Hall.
  - destruct pending as [|c l]; cbn [app]; [by apply Hbar|]. cbn. split; [|by apply Hbar].
    exists call, []. split; [done|]. by right; left.
  - destruct (existsb _ _) eqn:Hex.
    + specialize (IH [call] [accesses_of call] eq_refl).
      destruct (plan_from_head calls [call] [accesses_of call] call [] eq_refl) as (more & bs & Hp).
      rewrite Hp in *. cbn. split; [|done]. exists call, more. split; [done|]. right; right.
      apply existsb_exists in Hex as (pa & Hpa%list_elem_of_In & Hc). subst accs.
      apply list_elem_of_fmap in Hpa as (b & -> & Hb). eauto.
    + apply IH. subst accs. by rewrite fmap_app.
Qed.
End Batches.

(** ** Properties *)

(** Lexical normalization computes the path a resolver would: against an
    absolute base the result is the root followed by plain segments, exactly
    those that remain when the components are resolved on a stack with [..]
    popping and never leaving the root; so two spellings with the same
    resolution become the same string, and normalizing again changes
    nothing. *)
Theorem normalize_path_lexical_spec base p (Habs : is_absolute base = true) :
  let segs := resolve_stack (tail (components (absolutize base p))) in
  normalize_path_lexical base p = render segs /\
  components (normalize_path_lexical base p) = RootDir :: map Normal segs /\
  Forall plain_segment segs /\
  normalize_path_lexical base (normalize_path_lexical base p) = normalize_path_lexical base p.
Proof.
  intros segs. destruct (normalize_render base p Habs) as [Hr Hplain]. fold segs in Hr, Hplain.
  assert (Hc : components (render segs) = RootDir :: map Normal segs)
    by (rewrite components_render, map_segment_component by (done || by apply plain_clean); done).
  rewrite Hr. split; [done|]. split; [done|]. split; [done|].
  destruct (normalize_render base (render segs) Habs) as [-> _]. f_equal.
  change (absolutize base (render segs)) with (render segs). rewrite Hc. apply (resolve_normals segs []).
Qed.

Lemma normalize_path_lexical_spec_witness :
  normalize_path_lexical "/repo" "./src/../lib//a.rs" = "/repo/lib/a.rs"%string /\
  normalize_path_lexical "/repo" (normalize_path_lexical "/repo" "./src/../lib//a.rs") =
    normalize_path_lexical "/repo" "./src/../lib//a.rs".
Proof.
  split; [by vm_compute|]. by apply (normalize_path_lexical_spec "/repo" "./src/../lib//a.rs").
Defined.

(** The conflict matrix decides interference of footprints: two
    declarations may run together exactly when neither is unbounded and no path
    that one may write may be read or written by the other, a recursive
    declaration covering everything below its paths; and the relation is
    symmetric. *)
Theorem accesses_conflict_decides_interference a b :
  (accesses_conflict a b = false <->
     all a = false /\ all b = false /\
     forall q, ~ (may_write a q /\ (may_write b q \/ may_read b q)) /\ ~ (may_read a q /\ may_write b q)) /\
  accesses_conflict a b = accesses_conflict b a.
Proof.
  split; [|apply accesses_conflict_sym].
  rewrite <- not_true_iff_false, accesses_conflict_spec.
  destruct (all a), (all b); try (split; [intros H; exfalso; apply H; auto|by intros (? & ? & _)]).
  split.
  - intros H. split; [done|]. split; [done|]. intros q.
    split; intros Hq; apply H; right; right; exists q; [by left|by right].
  - intros (_ & _ & H) [?|[?|(q & [Hq|Hq])]]; [done|done|by apply (proj1 (H q))|by apply (proj2 (H q))].
Qed.

(** [C21] Planning is correct for every registry and every list of calls: the
    batches, in sequence, are the calls in the order the model gave them, none
    lost or repeated; no batch is empty; each is either a lone barrier or a set
    of bounded calls no two of which conflict, so running it concurrently
    cannot interfere; and a new batch is only opened next to a barrier or
    because its first call conflicts with the batch before it. *)
Theorem plan_batches_correct get base calls :
  concat (plan_batches get base calls) = calls /\
  Forall (fun b => b <> [] /\ parallel_safe get base b) (plan_batches get base calls) /\
  match plan_batches get base calls with
  | [] => calls = []
  | b :: bs => chain_separated get base b bs
  end.
Proof.
  pose proof (plan_from_concat get base calls [] []) as Hc.
  pose proof (plan_from_separated get base calls [] [] eq_refl) as Hs.
  split; [done|]. split; [apply plan_from_safe, pending_ok_nil|].
  unfold plan_batches in *. destruct (plan_from get base calls [] []); [by cbn in Hc|done].
Qed.

Example plan_batches_example :
  let call n p := {| tc_id := n; tc_name := n; tc_parameters := Obj [("path", Str p)] |} in
  map (map tc_name) (plan_batches (fun n => tools sample_registry !! n) "/repo"
    [call "read_file" "a"; call "read_file" "./a"; call "write_file" "b/../a"; call "write_file" "c";
     call "shell" ""; call "read_file" "x"]) =
  [["read_file"; "read_file"]; ["write_file"; "write_file"]; ["shell"]; ["read_file"]]%string.
Proof. by vm_compute. Qed.
