(* ===== verification/HumanPlate.v ===== *)
(** * The human plate

    src/kernel/src/plates/ren_human/mod.rs: the eight gates and [prepare], the
    serial gate every tool call passes before it may run: the verifier's
    allowlist, the policy chain, the mode of the GeJu result with its
    downgrades, the approval chain and the user confirmations.

    The shared state ([World]) is what the plate shares with the session bus
    (approvals, pending confirmations), the runtime events and confirmation
    requests it sent, and the environment's answers to come.  [prepare_guarded]
    and [prepare_sandbox] call each other; the recursion is bounded by fuel and
    two units always suffice ([prepare_fuel_enough]). *)

From S2P Require Export Prelude RString Json GeJu Permission Tool.

(** ** Gates *)

Inductive HumanGate := XiuMen | ShengMen | ShangMen | DuMen | JingXiangMen | SiMen | JingJueMen | KaiMen.

Inductive GateState := Open | Closed.

#[export] Instance HumanGate_eq_dec : EqDecision HumanGate.
Proof. solve_decision. Defined.
#[export] Instance GateState_eq_dec : EqDecision GateState.
Proof. solve_decision. Defined.

Definition gate_index (g : HumanGate) : Z :=
  match g with
  | XiuMen => 0 | ShengMen => 1 | ShangMen => 2 | DuMen => 3
  | JingXiangMen => 4 | SiMen => 5 | JingJueMen => 6 | KaiMen => 7
  end.

(** [closed_by_principle] is a [u8]: bit [n] closes gate [n]. *)
Record HumanPlate := {
  gates : list GateState;
  closed_by_principle : Z;
  permissions : PermissionMatrix;
  confirmation_override : option bool;
  verifier_shell_only : bool
}.

Definition with_state (permissions : PermissionMatrix) : HumanPlate :=
  {| gates := replicate 8 Open; closed_by_principle := 0; permissions := permissions;
     confirmation_override := None; verifier_shell_only := false |}.

Definition gate_bit (g : HumanGate) : Z := Z.shiftl 1 (gate_index g).

Definition gate_is_open (p : HumanPlate) (g : HumanGate) : bool :=
  bool_decide (gates p !! Z.to_nat (gate_index g) = Some Open) &&
  (Z.land (closed_by_principle p) (gate_bit g) =? 0)%Z.

Definition set_closed (c : Z) (p : HumanPlate) : HumanPlate :=
  {| gates := gates p; closed_by_principle := c; permissions := permissions p;
     confirmation_override := confirmation_override p; verifier_shell_only := verifier_shell_only p |}.

Definition close_gate (g : HumanGate) (p : HumanPlate) : HumanPlate :=
  set_closed (Z.lor (closed_by_principle p) (gate_bit g)) p.

Definition sync_jingjue_with_mode (planning : bool) (p : HumanPlate) : HumanPlate :=
  if planning then set_closed (Z.lor (closed_by_principle p) (gate_bit JingJueMen)) p
  else set_closed (Z.land (closed_by_principle p) (Z.lnot (gate_bit JingJueMen))) p.

Definition should_escalate_alert (p : HumanPlate) : bool := gate_is_open p JingJueMen.

(** ** State and effects *)

Inductive DispatchError := DispatchDenied (reason : string) | DispatchToolError (e : string).

Inductive RuntimeEvent :=
| PermissionDecision (tool decision policy reason : string)
| ErrorEvent (source message : string).

Record PendingConfirmation := { created_at : Z; token : string; pc_session_id : string }.

Record ConfirmRequest := { req_id : string; req_tool : string; req_reason : string; req_timeout : Z; req_token : string }.

(** How a request ends: the answer of the user, the sender dropped with its
    entry, the timeout, or the cancellation of the run. *)
Inductive ConfirmOutcome := Answered (approved : bool) | SenderDropped | TimedOut | Cancelled.

Record World := {
  session_approvals : gmap string (gset string);
  pending_confirmations : gmap string PendingConfirmation;
  events : list RuntimeEvent;
  requests : list ConfirmRequest;
  answers : list (Z * ConfirmOutcome);
  uuids : nat
}.

Record PreparedCall := { pc_tool : BaseTool; pc_input : Value }.

(** The code the plate relies on that is not in the repository, and the file
    system. *)
Record Env := {
  exists_path : string -> bool;
  canonicalize : string -> result string string;
  shell_split : string -> result string (list string);
  glob : string -> option (string -> bool);
  to_lowercase : string -> string;
  to_string : Value -> string;
  uuid : nat -> string
}.

(** Gate computations: state, errors, and [None] when the fuel runs out. *)
Definition G (A : Type) : Type := World -> option (result DispatchError A * World).

#[export] Instance G_ret : MRet G := fun A a w => Some (Ok a, w).
#[export] Instance G_bind : MBind G := fun A B k m w =>
  match m w with
  | Some (Ok a, w') => k a w'
  | Some (Err e, w') => Some (Err e, w')
  | None => None
  end.

Definition throw {A} (e : DispatchError) : G A := fun w => Some (Err e, w).
Definition out_of_fuel {A} : G A := fun _ => None.
Definition get_world : G World := fun w => Some (Ok w, w).

Definition emit (e : RuntimeEvent) : G unit := fun w =>
  Some (Ok (), {| session_approvals := session_approvals w; pending_confirmations := pending_confirmations w;
                  events := events w ++ [e]; requests := requests w; answers := answers w; uuids := uuids w |}).

Definition set_approvals (a : gmap string (gset string)) : G unit := fun w =>
  Some (Ok (), {| session_approvals := a; pending_confirmations := pending_confirmations w;
                  events := events w; requests := requests w; answers := answers w; uuids := uuids w |}).

Section Plate.
Context (env : Env) (p : HumanPlate) (session_id : string).

Definition approved_keys (w : World) : gset string := default ∅ (session_approvals w !! session_id).

(** [request_confirmation].  Stale entries (30 minutes) are dropped when a new
    one is stored; the entry of this request is gone when the request ends: the
    answering side and the sweep of a session remove it with its sender, the
    timeout and the cancellation remove it here. *)
Definition request_confirmation (tool_name reason : string) : G bool := fun w =>
  match confirmation_override p with
  | Some v => Some (Ok v, w)
  | None =>
      let id := uuid env (uuids w) in
      let token := uuid env (S (uuids w)) in
      let '((now, outcome), rest) :=
        match answers w with
        | a :: rest => (a, rest)
        | [] => ((0%Z, TimedOut), [])
        end in
      let live := filter (fun e => (now - 1800 < created_at (snd e))%Z) (pending_confirmations w) in
      let entry := {| created_at := now; token := token; pc_session_id := session_id |} in
      let req := {| req_id := id; req_tool := tool_name; req_reason := reason;
                    req_timeout := confirmation_timeout (permissions p); req_token := token |} in
      let approved := match outcome with Answered b => b | _ => false end in
      Some (Ok approved,
        {| session_approvals := session_approvals w;
           pending_confirmations := delete id (<[id := entry]> live);
           events := events w; requests := requests w ++ [req]; answers := rest;
           uuids := S (S (uuids w)) |})
  end.

(** The [UserConfirmation] gate: the approval memory of the session, or a
    request whose approval is remembered for this tool and input. *)
Definition confirm_gate (tool : BaseTool) (input : Value) (reason : string) : G unit :=
  let key := approval_key (to_string env) (t_name tool) input in
  w ← get_world;
  if bool_decide (key ∈ approved_keys w) then
    emit (PermissionDecision (t_name tool) "allow" "session_approval" "approved earlier in this session")
  else
    approved ← request_confirmation (t_name tool) reason;
    if negb approved then
      _ ← emit (PermissionDecision (t_name tool) "deny" "user_confirmation" reason);
      _ ← emit (ErrorEvent "human_plate" ("User denied: " +:+ t_name tool +:+ " (reason: " +:+ reason +:+ ")"));
      throw (DispatchDenied ("User denied confirmation for " +:+ t_name tool +:+ ": " +:+ reason))
    else
      w ← get_world;
      _ ← set_approvals (<[session_id := {[key]} ∪ approved_keys w]> (session_approvals w));
      emit (PermissionDecision (t_name tool) "allow" "user_confirmation" reason).

(** The loop over the approval chain; [on_sandbox] is the escalation of a
    [SandboxIsolation] gate. *)
Fixpoint walk_chain (tool : BaseTool) (input : Value) (chain : list ApprovalGate)
    (on_sandbox : G PreparedCall) : G PreparedCall :=
  match chain with
  | [] => mret {| pc_tool := tool; pc_input := input |}
  | Permission rule :: rest =>
      if contains_str rule "deny" then throw (DispatchDenied ("Permission rule denied: " +:+ rule))
      else walk_chain tool input rest on_sandbox
  | UserConfirmation reason :: rest =>
      _ ← confirm_gate tool input reason;
      walk_chain tool input rest on_sandbox
  | SandboxIsolation :: _ => on_sandbox
  | CodeReview :: rest => walk_chain tool input rest on_sandbox
  end.

Definition with_mode (m : ExecutionMode) (chain : list ApprovalGate) (r : GeJuResult) : GeJuResult :=
  {| name := name r; execution_mode := m; requires_audit := requires_audit r;
     max_retries := max_retries r; approval_chain := chain; layer := layer r |}.

(** [prepare_sandbox], given [prepare_guarded]. *)
Definition prepare_sandbox (guarded : GeJuResult -> G PreparedCall) (geju : GeJuResult)
    (tool : BaseTool) (input : Value) : G PreparedCall :=
  let disabled := match sandbox_mode (permissions p) with Disabled => true | _ => false end in
  if negb (gate_is_open p DuMen) || disabled then
    guarded (with_mode Guarded
      [UserConfirmation ("Sandbox is unavailable for " +:+ t_name tool +:+ ". Proceed without isolation?")] geju)
  else
    match sandbox_input (exists_path env) (canonicalize env) (shell_split env) (permissions p)
            (t_name tool) input with
    | Ok sandboxed => mret {| pc_tool := tool; pc_input := sandboxed |}
    | Err e =>
        _ ← emit (PermissionDecision (t_name tool) "deny"
               (if String.eqb (t_name tool) "shell" then "command_policy" else "path_sandbox") e);
        throw (DispatchDenied ("Sandbox rejected: " +:+ e))
    end.

Definition is_ren (c : CeremoniesIntent) : bool := match c with IntentRen => true | _ => false end.

Fixpoint prepare_guarded (fuel : nat) (tool : BaseTool) (input : Value) (geju : GeJuResult) : G PreparedCall :=
  match fuel with
  | O => out_of_fuel
  | S fuel' =>
      if negb (gate_is_open p ShangMen) && t_is_destructive tool then
        throw (DispatchDenied ("Destructive tool '" +:+ t_name tool +:+ "' blocked: ShangMen is closed"))
      else if negb (gate_is_open p KaiMen) && is_ren (t_ceremony tool) then
        throw (DispatchDenied ("Communication tool '" +:+ t_name tool +:+ "' blocked: KaiMen is closed"))
      else if negb (gate_is_open p ShengMen) && String.eqb (t_name tool) "skill" then
        throw (DispatchDenied "Skill tool blocked: ShengMen is closed")
      else
        walk_chain tool input (approval_chain geju)
          (prepare_sandbox (prepare_guarded fuel' tool input)
             (with_mode Sandbox (approval_chain geju) geju) tool input)
  end.

Definition is_user_confirmation (g : ApprovalGate) : bool :=
  match g with UserConfirmation _ => true | _ => false end.

(** The verifier's hard constraint, before everything else. *)
Definition verifier_gate (tool : BaseTool) (input : Value) : G unit :=
  if verifier_shell_only p && String.eqb (t_name tool) "shell" then
    match verify_verifier_command (shell_split env) (default "" (as_str (index input "command"))) with
    | Ok _ => mret ()
    | Err reason =>
        _ ← emit (PermissionDecision (t_name tool) "deny" "verifier_command_allowlist" reason);
        throw (DispatchDenied reason)
    end
  else mret ().

(** The mode of the GeJu result, after the policy chain passed. *)
Definition prepare_mode (fuel : nat) (geju : GeJuResult) (tool : BaseTool) (input : Value) : G PreparedCall :=
  match execution_mode geju with
  | Direct =>
      if negb (gate_is_open p JingXiangMen)
      then prepare_guarded fuel tool input (with_mode Guarded (approval_chain geju) geju)
      else mret {| pc_tool := tool; pc_input := input |}
  | Guarded => prepare_guarded fuel tool input geju
  | Sandbox => prepare_sandbox (prepare_guarded fuel tool input) geju tool input
  | Denied =>
      if gate_is_open p ShangMen then
        prepare_guarded fuel tool input
          (with_mode Guarded
             [UserConfirmation ("This operation (" +:+ t_name tool +:+ ") was flagged as high-risk (geju: " +:+
                                name geju +:+ "). Proceed?")] geju)
      else
        _ ← emit (ErrorEvent "human_plate" ("Denied: " +:+ t_name tool +:+ " (geju: " +:+ name geju +:+ ")"));
        throw (DispatchDenied (name geju))
  end.

Definition prepare (fuel : nat) (geju : GeJuResult) (tool : BaseTool) (input : Value) : G PreparedCall :=
  _ ← verifier_gate tool input;
  match chain_check (glob env) (to_lowercase env) (to_string env) (permissions p) (t_name tool) input with
  | Deny policy reason =>
      _ ← emit (PermissionDecision (t_name tool) "deny" policy reason);
      throw (DispatchDenied reason)
  | Ask policy reason =>
      if bool_decide (execution_mode geju = Denied) then prepare_mode fuel geju tool input
      else
        _ ← emit (PermissionDecision (t_name tool) "ask" policy reason);
        let chain := approval_chain geju in
        let chain := if existsb is_user_confirmation chain then chain else chain ++ [UserConfirmation reason] in
        prepare_guarded fuel tool input (with_mode Guarded chain geju)
  | Pass => prepare_mode fuel geju tool input
  end.

(** [dispatch]: prepare, then run the tool; [execute] is the tool's own
    effect. *)
Definition dispatch (execute : Value -> result string string) (fuel : nat) (geju : GeJuResult)
    (tool : BaseTool) (input : Value) : G ToolResult :=
  prepared ← prepare fuel geju tool input;
  match execute (pc_input prepared) with
  | Ok output => mret {| call_id := ""; tr_output := output; tr_error := None |}
  | Err e => throw (DispatchToolError e)
  end.
End Plate.

(** ** Lemmas on gates *)

Lemma gate_bit_pow g : gate_bit g = (2 ^ gate_index g)%Z.
Proof. by destruct g. Qed.

Lemma gate_is_open_testbit p g :
  gate_is_open p g =
  bool_decide (gates p !! Z.to_nat (gate_index g) = Some Open) &&
  negb (Z.testbit (closed_by_principle p) (gate_index g)).
Proof.
  unfold gate_is_open. f_equal. rewrite gate_bit_pow.
  assert (Hg : (0 <= gate_index g)%Z) by (by destruct g).
  rewrite (Z.land_comm _ (2 ^ _)). destruct (Z.testbit _ _) eqn:Ht.
  - apply Z.eqb_neq. intros H0.
    assert (Z.testbit (Z.land (2 ^ gate_index g) (closed_by_principle p)) (gate_index g) = false)
      by (by rewrite H0, Z.bits_0).
    rewrite Z.land_spec, Z.pow2_bits_true, Ht in * by done. done.
  - apply Z.eqb_eq. apply Z.bits_inj'. intros n Hn. rewrite Z.land_spec, Z.bits_0.
    destruct (Z.eq_dec n (gate_index g)) as [->|Hne]; [by rewrite Ht, andb_false_r|].
    by rewrite Z.pow2_bits_false.
Qed.

Lemma gate_index_inj g g' : gate_index g = gate_index g' -> g = g'.
Proof. by destruct g, g'. Qed.

Lemma close_gate_open g p g' :
  gate_is_open (close_gate g p) g' = gate_is_open p g' && negb (bool_decide (g' = g)).
Proof.
  rewrite !gate_is_open_testbit. cbn. rewrite Z.lor_spec, gate_bit_pow.
  assert (Hg : (0 <= gate_index g)%Z) by (by destruct g).
  assert (Hg' : (0 <= gate_index g')%Z) by (by destruct g').
  rewrite Z.pow2_bits_eqb by done. case_bool_decide as H1; cbn; [|done].
  destruct (Z.eqb_spec (gate_index g) (gate_index g')) as [He|Hne].
  - apply gate_index_inj in He as ->. rewrite bool_decide_eq_true_2 by done. by rewrite orb_true_r, andb_false_r.
  - rewrite bool_decide_eq_false_2 by congruence. by rewrite orb_false_r, andb_true_r.
Qed.

Lemma sync_jingjue_open planning p g :
  gate_is_open (sync_jingjue_with_mode planning p) g =
  if decide (g = JingJueMen)
  then negb planning && bool_decide (gates p !! 6%nat = Some Open)
  else gate_is_open p g.
Proof.
  destruct planning; cbn [sync_jingjue_with_mode negb].
  - change (set_closed _ p) with (close_gate JingJueMen p). rewrite close_gate_open.
    destruct (decide (g = JingJueMen)) as [->|Hne]; [by rewrite andb_false_r|].
    rewrite bool_decide_eq_false_2 by done. by rewrite andb_true_r.
  - rewrite !gate_is_open_testbit. cbn [closed_by_principle gates set_closed]. rewrite gate_bit_pow.
    assert (Hg : (0 <= gate_index g)%Z) by (by destruct g).
    rewrite Z.land_spec, Z.lnot_spec, Z.pow2_bits_eqb by (done || by cbn).
    destruct (decide (g = JingJueMen)) as [->|Hne].
    + cbn. by rewrite andb_false_r, andb_true_r.
    + destruct (Z.eqb_spec (gate_index JingJueMen) (gate_index g)) as [He|_].
      * by apply gate_index_inj in He.
      * cbn [negb]. by rewrite andb_true_r.
Qed.

(** ** Lemmas on effects *)

Lemma G_bind_Some {A B} (m : G A) (k : A -> G B) w r w' :
  (m ≫= k) w = Some (r, w') ->
  (exists a w1, m w = Some (Ok a, w1) /\ k a w1 = Some (r, w')) \/
  (exists e, m w = Some (Err e, w') /\ r = Err e).
Proof.
  unfold mbind, G_bind. destruct (m w) as [[[a|e] w1]|]; [eauto 6|injection 1 as <- <-; eauto|done].
Qed.

Section Effects.
Context (env : Env) (p : HumanPlate) (session_id : string) (tool : BaseTool) (input : Value).

Abbreviation key := (approval_key (to_string env) (t_name tool) input).
Abbreviation approved := (approved_keys session_id).

(** What any part of the gate may do to the shared state: other sessions'
    approvals are untouched; this session's only grow, by the key of this call,
    and only on a positive answer; a remembered approval means no request; and
    a second request is never sent, since after the first the key is approved
    or the call is over. *)
Definition gated {A} (m : G A) : Prop := forall w r w', m w = Some (r, w') ->
  (forall s, s <> session_id -> session_approvals w' !! s = session_approvals w !! s) /\
  (approved w' = approved w \/
   approved w' = {[key]} ∪ approved w /\
     (confirmation_override p = Some true \/ exists t, (t, Answered true) ∈ answers w)) /\
  answers w' `suffix_of` answers w /\
  (key ∈ approved w -> requests w' = requests w) /\
  (requests w' = requests w \/
   (exists q, requests w' = requests w ++ [q]) /\ (key ∈ approved w' \/ is_ok r = false)).

Lemma gated_ret {A} (a : A) : gated (mret a).
Proof. intros w r w' [= <- <-]. repeat split; auto. Qed.

Lemma gated_throw {A} e : gated (throw (A := A) e).
Proof. intros w r w' [= <- <-]. repeat split; auto. Qed.

Lemma gated_emit e : gated (emit e).
Proof. intros w r w' [= <- <-]. repeat split; auto. Qed.

Lemma gated_out_of_fuel {A} : gated (out_of_fuel (A := A)).
Proof. done. Qed.

Lemma gated_bind {A B} (m : G A) (k : A -> G B) : gated m -> (forall a, gated (k a)) -> gated (m ≫= k).
Proof.
  intros Hm Hk w r w' Hb. apply G_bind_Some in Hb as [(a & w1 & H1 & H2)|(e & H1 & ->)].
  2: { apply Hm in H1 as (HA & HB & HC & HD & HE). do 4 (split; [done|]).
       destruct HE as [?|[? ?]]; auto. }
  apply Hm in H1 as (HA & HB & HC & HD & HE). apply Hk in H2 as (HA' & HB' & HC' & HD' & HE').
  assert (Hin : forall x, x ∈ answers w1 -> x ∈ answers w).
  { destruct HC as [l ->]. set_solver. }
  split; [intros s Hs; by rewrite HA', HA|].
  split.
  { destruct HB as [HB|[HB He]], HB' as [HB'|[HB' He']].
    - left. congruence.
    - right. split; [congruence|]. destruct He' as [?|[t ?]]; eauto.
    - right. split; [congruence|done].
    - right. split; [rewrite HB', HB; set_solver|done]. }
  split; [by transitivity (answers w1)|].
  split.
  { intros Hkey. rewrite HD', HD; [done|done|]. destruct HB as [->|[-> _]]; set_solver. }
  destruct HE as [HE|[[q HE] Hdone]].
  - rewrite <- HE. exact HE'.
  - destruct Hdone as [Hkey|?]; [|done]. right. rewrite HD' by done. split; [by exists q|].
    left. destruct HB' as [->|[-> _]]; set_solver.
Qed.

Lemma approved_insert keys w pend evs reqs ans ids :
  approved {| session_approvals := <[session_id := keys]> (session_approvals w); pending_confirmations := pend;
              events := evs; requests := reqs; answers := ans; uuids := ids |} = keys.
Proof. unfold approved_keys. cbn. by rewrite lookup_insert_eq. Qed.

Lemma gated_confirm reason : gated (confirm_gate env p session_id tool input reason).
Proof.
  intros w r w'. unfold confirm_gate, mbind, G_bind, get_world.
  case_bool_decide as Hkey; [apply gated_emit|].
  unfold request_confirmation.
  destruct (confirmation_override p) as [v|] eqn:Hov.
  - destruct v; intros [= <- <-]; cbn; [|by repeat split; auto].
    split; [intros s Hs; by rewrite lookup_insert_ne|].
    split; [right; rewrite approved_insert; auto|]. by repeat split; auto.
  - destruct (answers w) as [|[t o] rest] eqn:Ha; cbn.
    { intros [= <- <-]. cbn. split; [done|]. split; [by left|]. split; [done|].
      split; [done|]. right. eauto. }
    assert (Hsuf : rest `suffix_of` (t, o) :: rest) by (by exists [(t, o)]).
    destruct o as [[]| | |]; cbn; intros [= <- <-]; cbn;
      try (split; [done|]; split; [by left|]; split; [done|]; split; [done|]; right; eauto; fail).
    split; [intros s Hs; by rewrite lookup_insert_ne|].
    split; [right; rewrite approved_insert; split; [done|]; right; exists t; set_solver|].
    split; [done|]. split; [done|]. right. split; [eauto|].
    left. rewrite approved_insert. set_solver.
Qed.

Lemma gated_walk chain on_sandbox :
  gated on_sandbox -> gated (walk_chain env p session_id tool input chain on_sandbox).
Proof.
  intros Hs. induction chain as [|[rule|reason| |] chain IH]; cbn [walk_chain].
  - apply gated_ret.
  - destruct (contains_str rule "deny"); [apply gated_throw|done].
  - apply gated_bind; [apply gated_confirm|by intros _].
  - done.
  - done.
Qed.

Lemma gated_sandbox guarded geju :
  (forall g, gated (guarded g)) -> gated (prepare_sandbox env p guarded geju tool input).
Proof.
  intros Hg. unfold prepare_sandbox. destruct (_ || _); [apply Hg|].
  destruct (sandbox_input _ _ _ _ _ _); [apply gated_ret|].
  apply gated_bind; [apply gated_emit|]. intros _. apply gated_throw.
Qed.

Lemma gated_guarded fuel geju : gated (prepare_guarded env p session_id fuel tool input geju).
Proof.
  revert geju. induction fuel as [|fuel IH]; intros geju; cbn [prepare_guarded]; [apply gated_out_of_fuel|].
  destruct (_ && _); [apply gated_throw|]. destruct (_ && _); [apply gated_throw|].
  destruct (_ && _); [apply gated_throw|]. apply gated_walk, gated_sandbox, IH.
Qed.

Lemma gated_mode fuel geju : gated (prepare_mode env p session_id fuel geju tool input).
Proof.
  unfold prepare_mode. destruct (execution_mode geju).
  - destruct (negb _); [apply gated_guarded|apply gated_ret].
  - apply gated_guarded.
  - apply gated_sandbox. apply gated_guarded.
  - destruct (gate_is_open p ShangMen); [apply gated_guarded|].
    apply gated_bind; [apply gated_emit|]. intros _. apply gated_throw.
Qed.

Lemma gated_verifier : gated (verifier_gate env p tool input).
Proof.
  unfold verifier_gate. destruct (_ && _); [|apply gated_ret].
  destruct (verify_verifier_command _ _); [apply gated_ret|].
  apply gated_bind; [apply gated_emit|]. intros _. apply gated_throw.
Qed.

Lemma gated_prepare fuel geju : gated (prepare env p session_id fuel geju tool input).
Proof.
  unfold prepare. apply gated_bind; [apply gated_verifier|]. intros _.
  destruct (chain_check _ _ _ _ _ _).
  - apply gated_mode.
  - apply gated_bind; [apply gated_emit|]. intros _. apply gated_throw.
  - destruct (bool_decide _); [apply gated_mode|].
    apply gated_bind; [apply gated_emit|]. intros _. apply gated_guarded.
Qed.

(** *** Fuel *)

Definition is_sandbox_gate (g : ApprovalGate) : bool :=
  match g with SandboxIsolation => true | _ => false end.

Lemma walk_chain_ext chain k1 k2 w :
  (forall w, k1 w = k2 w) ->
  walk_chain env p session_id tool input chain k1 w = walk_chain env p session_id tool input chain k2 w.
Proof.
  intros Hk. revert w. induction chain as [|[rule|reason| |] chain IH]; intros w; cbn [walk_chain]; auto.
  - by destruct (contains_str rule "deny").
  - unfold mbind, G_bind. destruct (confirm_gate _ _ _ _ _ _ w) as [[[]?]|]; auto.
Qed.

Lemma walk_chain_no_sandbox chain k1 k2 :
  existsb is_sandbox_gate chain = false ->
  walk_chain env p session_id tool input chain k1 = walk_chain env p session_id tool input chain k2.
Proof.
  induction chain as [|[rule|reason| |] chain IH]; cbn [walk_chain existsb is_sandbox_gate orb]; intros H; try done.
  - by rewrite IH.
  - by rewrite IH.
  - by rewrite IH.
Qed.

Lemma confirm_total reason w : is_Some (confirm_gate env p session_id tool input reason w).
Proof.
  unfold confirm_gate, mbind, G_bind, get_world. case_bool_decide; [by eexists|].
  unfold request_confirmation. destruct (confirmation_override p) as [[]|]; cbn; try by eexists.
  destruct (answers w) as [|[t []] rest]; cbn; try by eexists. destruct approved; by eexists.
Qed.

Lemma walk_chain_total chain k w :
  (forall w, is_Some (k w)) -> is_Some (walk_chain env p session_id tool input chain k w).
Proof.
  intros Hk. revert w. induction chain as [|[rule|reason| |] chain IH]; intros w; cbn [walk_chain]; auto.
  - destruct (contains_str rule "deny"); [by eexists|auto].
  - unfold mbind, G_bind. destruct (confirm_total reason w) as [[[a|e] w1] ->]; [apply IH|by eexists].
Qed.

Lemma guarded_no_sandbox fuel geju :
  existsb is_sandbox_gate (approval_chain geju) = false ->
  prepare_guarded env p session_id (S fuel) tool input geju = prepare_guarded env p session_id 1 tool input geju.
Proof.
  intros H. cbn [prepare_guarded]. do 3 (destruct (_ && _); [done|]). by apply walk_chain_no_sandbox.
Qed.

Lemma guarded_one_total geju w :
  existsb is_sandbox_gate (approval_chain geju) = false ->
  is_Some (prepare_guarded env p session_id 1 tool input geju w).
Proof.
  intros H. cbn [prepare_guarded]. do 3 (destruct (_ && _); [by eexists|]).
  rewrite (walk_chain_no_sandbox _ _ (mret {| pc_tool := tool; pc_input := input |})) by done.
  apply walk_chain_total. by eexists.
Qed.

Lemma sandbox_fuel fuel geju w :
  prepare_sandbox env p (prepare_guarded env p session_id (S fuel) tool input) geju tool input w =
  prepare_sandbox env p (prepare_guarded env p session_id 1 tool input) geju tool input w /\
  is_Some (prepare_sandbox env p (prepare_guarded env p session_id 1 tool input) geju tool input w).
Proof.
  unfold prepare_sandbox. destruct (_ || _).
  - split; [by rewrite guarded_no_sandbox|by apply guarded_one_total].
  - split; [done|]. destruct (sandbox_input _ _ _ _ _ _); by eexists.
Qed.

Lemma guarded_fuel fuel geju w :
  prepare_guarded env p session_id (S (S fuel)) tool input geju w =
  prepare_guarded env p session_id 2 tool input geju w /\
  is_Some (prepare_guarded env p session_id 2 tool input geju w).
Proof.
  change (prepare_guarded env p session_id 2) with (prepare_guarded env p session_id (S (S 0))).
  remember (S fuel) as f eqn:Hf. remember (S 0) as one eqn:H1. cbn [prepare_guarded].
  do 3 (destruct (_ && _); [split; [done|by eexists]|]). subst. split.
  - apply walk_chain_ext. intros w'. apply sandbox_fuel.
  - apply walk_chain_total. intros w'. apply (sandbox_fuel 0).
Qed.

Lemma mode_fuel fuel geju w :
  prepare_mode env p session_id (S (S fuel)) geju tool input w =
  prepare_mode env p session_id 2 geju tool input w /\
  is_Some (prepare_mode env p session_id 2 geju tool input w).
Proof.
  unfold prepare_mode. destruct (execution_mode geju).
  - destruct (negb _); [apply guarded_fuel|by split; [|eexists]].
  - apply guarded_fuel.
  - destruct (sandbox_fuel (S fuel) geju w) as [-> H1]. destruct (sandbox_fuel 1 geju w) as [-> _]. done.
  - destruct (gate_is_open p ShangMen); [apply guarded_fuel|]. by split; [|eexists].
Qed.
End Effects.

(** *** What a cleared call went through *)

Lemma confirm_ok env p session_id tool input reason w w' :
  confirm_gate env p session_id tool input reason w = Some (Ok (), w') ->
  approval_key (to_string env) (t_name tool) input ∈ approved_keys session_id w'.
Proof.
  unfold confirm_gate, mbind, G_bind, get_world. case_bool_decide as Hkey; [by intros [= <-]|].
  destruct (request_confirmation _ _ _ _ _ w) as [[[[]|e] w1]|]; cbn; try done.
  intros [= <-]. unfold approved_keys. cbn. rewrite lookup_insert_eq. set_solver.
Qed.

(** A cleared call carries the tool, and its input either as given or as the
    sandbox transformed it. *)
Definition cleared (env : Env) (p : HumanPlate) (tool : BaseTool) (input : Value) (pc : PreparedCall) : Prop :=
  pc_tool pc = tool /\
  (pc_input pc = input \/
   sandbox_input (exists_path env) (canonicalize env) (shell_split env) (permissions p) (t_name tool) input
     = Ok (pc_input pc)).

Definition clears (env : Env) (p : HumanPlate) (tool : BaseTool) (input : Value) (m : G PreparedCall) : Prop :=
  forall w pc w', m w = Some (Ok pc, w') -> cleared env p tool input pc.

Lemma walk_clears env p session_id tool input chain k :
  clears env p tool input k -> clears env p tool input (walk_chain env p session_id tool input chain k).
Proof.
  intros Hk. induction chain as [|[rule|reason| |] chain IH]; cbn [walk_chain]; try done.
  - intros w pc w' [= <- <-]. split; [done|by left].
  - by destruct (contains_str rule "deny").
  - intros w pc w' H. apply G_bind_Some in H as [(a & w1 & _ & H)|(e & _ & ?)]; [by eapply IH|done].
Qed.

Lemma sandbox_clears env p tool input guarded geju :
  (forall g, clears env p tool input (guarded g)) ->
  clears env p tool input (prepare_sandbox env p guarded geju tool input).
Proof.
  intros Hg. unfold prepare_sandbox. destruct (_ || _); [apply Hg|].
  destruct (sandbox_input _ _ _ _ _ _) as [v|e] eqn:Hs; intros w pc w' H.
  - injection H as <- <-. split; [done|by right].
  - apply G_bind_Some in H as [(a & w1 & _ & H)|(e' & _ & ?)]; done.
Qed.

Lemma guarded_clears env p session_id tool input fuel geju :
  clears env p tool input (prepare_guarded env p session_id fuel tool input geju).
Proof.
  revert geju. induction fuel as [|fuel IH]; intros geju; cbn [prepare_guarded]; [done|].
  do 3 (destruct (_ && _); [done|]). by apply walk_clears, sandbox_clears.
Qed.

Lemma mode_clears env p session_id tool input fuel geju :
  clears env p tool input (prepare_mode env p session_id fuel geju tool input).
Proof.
  unfold prepare_mode. destruct (execution_mode geju).
  - destruct (negb _); [apply guarded_clears|]. intros w pc w' [= <- <-]. split; [done|by left].
  - apply guarded_clears.
  - apply sandbox_clears. intros g. apply guarded_clears.
  - destruct (gate_is_open p ShangMen); [apply guarded_clears|].
    intros w pc w' H. apply G_bind_Some in H as [(a & w1 & _ & H)|(e' & _ & ?)]; done.
Qed.

(** A call whose result was denied only clears through its own confirmation. *)
Lemma denied_mode_confirms env p session_id tool input fuel geju w pc w' :
  execution_mode geju = Denied ->
  prepare_mode env p session_id fuel geju tool input w = Some (Ok pc, w') ->
  gate_is_open p ShangMen = true /\
  approval_key (to_string env) (t_name tool) input ∈ approved_keys session_id w'.
Proof.
  intros Hd. unfold prepare_mode. rewrite Hd. destruct (gate_is_open p ShangMen).
  2: { intros H. apply G_bind_Some in H as [(a & w1 & _ & H)|(e' & _ & ?)]; done. }
  intros H. split; [done|]. destruct fuel as [|fuel]; [done|]. cbn [prepare_guarded] in H.
  do 3 (destruct (_ && _); [done|]). cbn [with_mode approval_chain walk_chain] in H.
  apply G_bind_Some in H as [([] & w1 & H1 & [= _ <-])|(e & _ & ?)]; [by apply confirm_ok in H1|done].
Qed.

(** The verifier gate changes nothing but the events and passes only allowed
    commands. *)
Lemma verifier_gate_ok env p tool input w w' :
  verifier_gate env p tool input w = Some (Ok (), w') ->
  w' = w /\
  (verifier_shell_only p = true -> t_name tool = "shell"%string ->
   verify_verifier_command (shell_split env) (default "" (as_str (index input "command"))) = Ok ()).
Proof.
  unfold verifier_gate. destruct (verifier_shell_only p); cbn [andb]; [|by intros [= <-]].
  destruct (String.eqb_spec (t_name tool) "shell") as [Hname|Hname]; [|intros [= <-]; split; [done|by intros _ ?]].
  destruct (verify_verifier_command _ _) as [[]|e]; [by intros [= <-]|].
  intros H. apply G_bind_Some in H as [(a & w1 & _ & H)|(e' & _ & ?)]; done.
Qed.

Lemma chain_not_deny glob to_lowercase to_string m tool input :
  (forall policy reason, chain_check glob to_lowercase to_string m tool input <> Deny policy reason) ->
  forall rule, rule ∈ deny_rules m ->
    match_deny_rule glob rule (fst (subject to_string tool input)) (snd (subject to_string tool input)) = false.
Proof.
  intros H rule Hr. unfold chain_check in H. destruct (subject to_string tool input) as [k s]. cbn.
  destruct (List.find _ _) eqn:Hf; [by destruct (H _ _ eq_refl)|].
  by apply (proj1 (find_None_forall _ _) Hf).
Qed.

(** ** Properties *)

(** Two units of fuel always suffice: with any more the gate computes the
    same, and it never runs out, whatever the result, the tool, the input and
    the state: [prepare] terminates, with a cleared call or a denial. *)
Theorem prepare_fuel_enough env p session_id fuel geju tool input w :
  prepare env p session_id (2 + fuel) geju tool input w = prepare env p session_id 2 geju tool input w /\
  is_Some (prepare env p session_id 2 geju tool input w).
Proof.
  assert (Hv : is_Some (verifier_gate env p tool input w)).
  { unfold verifier_gate. destruct (_ && _); [|by eexists].
    destruct (verify_verifier_command _ _); by eexists. }
  unfold prepare, mbind, G_bind. cbv beta. destruct Hv as [[[a|e] w1] ->]; [|by split; [|eexists]].
  destruct (chain_check _ _ _ _ _ _).
  - apply mode_fuel.
  - by split; [|eexists].
  - destruct (bool_decide _); [apply mode_fuel|]. apply guarded_fuel.
Qed.

(** [C20] Deny rules are absolute: if a configured rule matches the call, the
    call is denied whatever the GeJu result, the gates, the remembered
    approvals and the answers of the user; nobody is asked and nothing but the
    event log changes. *)
Theorem deny_rule_absolute env p session_id fuel geju tool input w rule
    (Hin : rule ∈ deny_rules (permissions p))
    (Hmatch : match_deny_rule (glob env) rule (fst (subject (to_string env) (t_name tool) input))
                (snd (subject (to_string env) (t_name tool) input)) = true) :
  exists reason w', prepare env p session_id fuel geju tool input w = Some (Err (DispatchDenied reason), w') /\
    session_approvals w' = session_approvals w /\ requests w' = requests w /\
    answers w' = answers w /\ pending_confirmations w' = pending_confirmations w.
Proof.
  unfold prepare, mbind, G_bind. cbv beta.
  destruct (verifier_gate env p tool input w) as [[[[]|e] w1]|] eqn:Hv.
  - apply verifier_gate_ok in Hv as [-> _].
    destruct (chain_check (glob env) (to_lowercase env) (to_string env) (permissions p) (t_name tool) input)
      eqn:Hc; [| by do 2 eexists |];
      (assert (Hno : forall policy reason, chain_check (glob env) (to_lowercase env) (to_string env)
          (permissions p) (t_name tool) input <> Deny policy reason) by (intros; congruence);
       pose proof (chain_not_deny _ _ _ _ _ _ Hno rule Hin); congruence).
  - unfold verifier_gate in Hv. destruct (_ && _); [|done].
    destruct (verify_verifier_command _ _); [done|]. cbn in Hv. injection Hv as <- <-. by do 2 eexists.
  - unfold verifier_gate in Hv. destruct (_ && _); [|done]. by destruct (verify_verifier_command _ _).
Qed.

(** [C1] What a cleared call went through.  The prepared call carries the tool
    and the input as given or as the sandbox transformed it; no deny rule
    matches it; a verifier's shell command passed the verification allowlist;
    a call in sandbox mode without a policy question, with the isolation gate
    open and the sandbox enabled, carries the sandboxed input; and a call the
    GeJu engine denied was cleared only with ShangMen open and its own
    confirmation on record. *)
Theorem prepare_safe env p session_id fuel geju tool input w pc w'
    (Hok : prepare env p session_id fuel geju tool input w = Some (Ok pc, w')) :
  let sandboxed := sandbox_input (exists_path env) (canonicalize env) (shell_split env) (permissions p)
                     (t_name tool) input in
  let verdict := chain_check (glob env) (to_lowercase env) (to_string env) (permissions p) (t_name tool) input in
  pc_tool pc = tool /\ (pc_input pc = input \/ sandboxed = Ok (pc_input pc)) /\
  (forall rule, rule ∈ deny_rules (permissions p) ->
     match_deny_rule (glob env) rule (fst (subject (to_string env) (t_name tool) input))
       (snd (subject (to_string env) (t_name tool) input)) = false) /\
  (verifier_shell_only p = true -> t_name tool = "shell"%string ->
     verify_verifier_command (shell_split env) (default "" (as_str (index input "command"))) = Ok ()) /\
  (verdict = Pass -> execution_mode geju = Sandbox -> gate_is_open p DuMen = true ->
     sandbox_mode (permissions p) <> Disabled -> sandboxed = Ok (pc_input pc)) /\
  (execution_mode geju = Denied ->
     gate_is_open p ShangMen = true /\
     approval_key (to_string env) (t_name tool) input ∈ approved_keys session_id w').
Proof.
  intros sandboxed verdict. unfold prepare in Hok.
  apply G_bind_Some in Hok as [([] & w1 & Hv & Hok)|(e & _ & ?)]; [|done].
  apply verifier_gate_ok in Hv as [-> Hv]. fold verdict in Hok.
  assert (Hno : forall policy reason, verdict <> Deny policy reason).
  { intros policy reason Hd. rewrite Hd in Hok.
    apply G_bind_Some in Hok as [(a & w1 & _ & H)|(e' & _ & ?)]; done. }
  assert (Hclear : cleared env p tool input pc).
  { destruct verdict; [by eapply mode_clears|by destruct (Hno policy reason)|].
    destruct (bool_decide _); [by eapply mode_clears|].
    apply G_bind_Some in Hok as [(a & w1 & _ & H)|(e' & _ & ?)]; [by eapply guarded_clears|done]. }
  destruct Hclear as [Ht Hi]. do 2 (split; [done|]).
  split; [exact (chain_not_deny _ (to_lowercase env) _ _ _ _ Hno)|]. split; [done|]. split.
  - intros -> Hs Hdu Hmode. unfold prepare_mode, prepare_sandbox in Hok. rewrite Hs, Hdu in Hok. cbn [negb orb] in Hok.
    destruct (sandbox_mode (permissions p)); try done; fold sandboxed in Hok;
      (destruct sandboxed as [v|e]; [by injection Hok as <- _|]);
      apply G_bind_Some in Hok as [(a & w1 & _ & H)|(e' & _ & ?)]; done.
  - intros Hd. destruct verdict; [by eapply denied_mode_confirms|by destruct (Hno policy reason)|].
    rewrite bool_decide_eq_true_2 in Hok by done. by eapply denied_mode_confirms.
Qed.

(** The approval memory.  Whatever [prepare] decides, other sessions'
    memories are untouched; this session's grows at most by the key of this
    very tool and input, and only after the user approved; a call already
    approved in the session is never asked about again; and no call is ever
    asked about twice. *)
Theorem prepare_asks_once env p session_id fuel geju tool input w r w'
    (Hrun : prepare env p session_id fuel geju tool input w = Some (r, w')) :
  let key := approval_key (to_string env) (t_name tool) input in
  (forall s, s <> session_id -> session_approvals w' !! s = session_approvals w !! s) /\
  (approved_keys session_id w' = approved_keys session_id w \/
   approved_keys session_id w' = {[key]} ∪ approved_keys session_id w /\
     (confirmation_override p = Some true \/ exists t, (t, Answered true) ∈ answers w)) /\
  (key ∈ approved_keys session_id w -> requests w' = requests w) /\
  (requests w' = requests w \/ exists q, requests w' = requests w ++ [q]).
Proof.
  intros key. destruct (gated_prepare env p session_id tool input fuel geju w r w' Hrun)
    as (H1 & H2 & _ & H4 & H5).
  split; [done|]. split; [done|]. split; [done|]. destruct H5 as [?|[? _]]; auto.
Qed.

(** Gates: closing a gate closes exactly that gate for good, and the
    planning mode closes and reopens the alert gate without touching another
    one; a reopened alert gate is open again exactly when the configuration
    leaves it open. *)
Theorem gate_operations p g g' planning :
  gate_is_open (close_gate g p) g' = gate_is_open p g' && negb (bool_decide (g' = g)) /\
  close_gate g (close_gate g p) = close_gate g p /\
  gate_is_open (sync_jingjue_with_mode planning p) g' =
    (if decide (g' = JingJueMen)
     then negb planning && bool_decide (gates p !! 6%nat = Some Open)
     else gate_is_open p g').
Proof.
  split; [apply close_gate_open|]. split; [|apply sync_jingjue_open].
  unfold close_gate, set_closed. cbn. f_equal. rewrite <- Z.lor_assoc. by rewrite Z.lor_diag.
Qed.

(** ** Concrete runs *)

Definition sample_env : Env :=
  {| exists_path := fun _ => true; canonicalize := fun p => Ok p; shell_split := sample_split;
     glob := fun pat => Some (fun s => starts_with s (default pat (strip_suffix_str pat "*")));
     to_lowercase := to_ascii_lowercase;
     to_string := fun v => default "" (as_str (index v "command")) +:+ default "" (as_str (index v "path"));
     uuid := fun n => pretty n |}.

Definition sample_plate : HumanPlate := with_state (sample_matrix [] ["sudo"]).

Definition empty_world : World :=
  {| session_approvals := ∅; pending_confirmations := ∅; events := []; requests := [];
     answers := [(100%Z, Answered true)]; uuids := 0 |}.

Definition shell_input (cmd : string) : Value := Obj [("command", Str cmd)].

Definition geng_zhong : GeJuResult := evaluate {| heaven_stem := Geng; earth_stem := Geng |}.
Definition ren_zhong : GeJuResult := evaluate {| heaven_stem := Ren; earth_stem := Geng |}.
Definition geng_kan : GeJuResult := evaluate {| heaven_stem := Geng; earth_stem := Bing |}.

Lemma deny_rule_absolute_witness :
  exists reason w', prepare sample_env sample_plate "s" 2 geng_zhong shell_tool (shell_input "rm -rf x") empty_world
      = Some (Err (DispatchDenied reason), w') /\
    session_approvals w' = session_approvals empty_world /\ requests w' = requests empty_world /\
    answers w' = answers empty_world /\ pending_confirmations w' = pending_confirmations empty_world.
Proof.
  apply (deny_rule_absolute sample_env sample_plate "s" 2 geng_zhong shell_tool (shell_input "rm -rf x")
           empty_world "Bash(rm *)"); [cbn; set_solver|by vm_compute].
Defined.

Definition outcome {A} (x : option (result DispatchError A * World)) : option (result DispatchError A) := fst <$> x.
Definition after {A} (x : option (result DispatchError A * World)) : World := default empty_world (snd <$> x).

(** A call the engine denied, cleared by the user's confirmation. *)
Lemma prepare_safe_witness :
  let run := prepare sample_env sample_plate "s" 2 ren_zhong shell_tool (shell_input "ls") empty_world in
  outcome run = Some (Ok {| pc_tool := shell_tool; pc_input := shell_input "ls" |}) /\
  (execution_mode ren_zhong = Denied ->
     gate_is_open sample_plate ShangMen = true /\
     approval_key (to_string sample_env) "shell" (shell_input "ls") ∈ approved_keys "s" (after run)).
Proof.
  split; [by vm_compute|].
  eapply (prepare_safe sample_env sample_plate "s" 2 ren_zhong shell_tool (shell_input "ls") empty_world).
  vm_compute. reflexivity.
Defined.

Lemma prepare_asks_once_witness :
  let run := prepare sample_env sample_plate "s" 2 ren_zhong shell_tool (shell_input "ls") empty_world in
  length (requests (after run)) = 1 /\
  (requests (after run) = requests empty_world \/ exists q, requests (after run) = requests empty_world ++ [q]).
Proof.
  split; [by vm_compute|].
  eapply (prepare_asks_once sample_env sample_plate "s" 2 ren_zhong shell_tool (shell_input "ls") empty_world).
  vm_compute. reflexivity.
Defined.

(** A sensitive file under a sandbox pattern: the policy chain asks, but the
    confirmation is appended after the isolation gate, which clears the call
    first: nobody is asked. *)
Example sensitive_ask_skipped_under_sandbox :
  let run := prepare sample_env sample_plate "s" 2 geng_kan write_tool (file_input ".env") empty_world in
  outcome run = Some (Ok {| pc_tool := write_tool; pc_input := file_input "/work/.env" |}) /\
  requests (after run) = [] /\
  events (after run) =
    [PermissionDecision "write_file" "ask" "sensitive_file"
       "sensitive file '.env' matches .env* — confirmation required"].
Proof. by vm_compute. Qed.

(** The approval chain of a direct result is not read: a confirmation a
    learned principle added to it is never requested. *)
Example direct_ignores_chain env session_id fuel geju tool input w :
  execution_mode geju = Direct ->
  prepare_mode env sample_plate session_id fuel geju tool input w =
    Some (Ok {| pc_tool := tool; pc_input := input |}, w).
Proof. intros H. unfold prepare_mode. by rewrite H. Qed.
