(* ===== verification/Mind.v ===== *)
(** * Working memory, self-model and turn certainty

    src/kernel/src/vijnana/mano/mod.rs (the ring buffer of turn snapshots),
    src/kernel/src/vijnana/manas/mod.rs (the self-model [atma_graha]) and
    src/kernel/src/plates/tian_heaven/certainty.rs (the certainty that ends or
    escalates the agent loop). *)

From S2P Require Export Prelude Float Json GeJu.

(** ** Working memory *)

Record TurnSnapshot := {
  turn_number : Z;
  intent_stem : Stem;
  target_palace : Palace;
  geju_name : string;
  snap_execution_mode : string;
  tool_name : string;
  tool_input : Value;
  tool_output : string;
  tool_error : option string;
  timestamp : Z;
  certainty : option spec_float;
  active_seed_ids : list string;
  tool_count : Z
}.

Record WorkingMemory := { snapshots : list TurnSnapshot; max_snapshots : nat }.

Definition WorkingMemory_new (max_snapshots : nat) : WorkingMemory :=
  {| snapshots := []; max_snapshots := max_snapshots |}.

(** [WorkingMemory::record]: [None] is the panic of [remove(0)] on an empty
    vector, which only a memory of capacity 0 reaches. *)
Definition record (wm : WorkingMemory) (s : TurnSnapshot) : option WorkingMemory :=
  if (max_snapshots wm <=? length (snapshots wm))%nat then
    match snapshots wm with
    | [] => None
    | _ :: rest => Some {| snapshots := rest ++ [s]; max_snapshots := max_snapshots wm |}
    end
  else Some {| snapshots := snapshots wm ++ [s]; max_snapshots := max_snapshots wm |}.

Fixpoint record_all (wm : WorkingMemory) (ss : list TurnSnapshot) : option WorkingMemory :=
  match ss with
  | [] => Some wm
  | s :: ss' => wm' ← record wm s; record_all wm' ss'
  end.

(** The last [n] elements of a list, what a ring buffer of capacity [n] is
    meant to hold. *)
Definition last_n {A} (n : nat) (l : list A) : list A := drop (length l - n) l.

(** ** The self-model *)

Record AlayaEntropy := {
  staleness : spec_float;
  contradiction : spec_float;
  redundancy : spec_float;
  access_decay : spec_float;
  total : spec_float
}.

Definition ATMA_MIN := F32.lit 5 100.
Definition ATMA_MAX := F32.lit 80 100.
Definition ATMA_INITIAL := F32.lit 80 100.
Definition ENTROPY_FLOOR := F32.lit 5 100.
Definition ENTROPY_COEFFICIENT := F32.lit 70 100.
Definition CONTRADICTION_THRESHOLD := F32.lit 3 10.
Definition CONTRADICTION_PENALTY := F32.lit 15 100.
Definition VOLUME_SEED_THRESHOLD : Z := 10.
Definition VOLUME_MAX_REDUNDANCY := F32.lit 4 10.
Definition VOLUME_MAX_CONTRADICTION := F32.lit 1 10.
Definition VOLUME_BONUS := F32.lit (-5) 100.
Definition EMA_NEW := F32.lit 6 10.
Definition EMA_OLD := F32.sub (F32.of_Z 1) EMA_NEW.
Definition STABILITY_THRESHOLD := F32.lit 30 100.
Definition STABILITY_EPOCHS_NEEDED : Z := 3.
Definition TURN_DECAY := F32.lit 1 1000.
Definition CONSOLIDATION_DROP := F32.lit 15 100.

Record Manas := {
  atma_graha : spec_float;
  total_turns : Z;
  consolidation_count : Z;
  stable_pattern_count : Z;
  last_consolidation_at : Z;
  stable_epochs : Z
}.

Definition Manas_new : Manas :=
  {| atma_graha := ATMA_INITIAL; total_turns := 0; consolidation_count := 0;
     stable_pattern_count := 0; last_consolidation_at := 0; stable_epochs := 0 |}.

Definition record_turn (m : Manas) : Manas :=
  {| atma_graha := fmax ATMA_MIN (F32.sub (atma_graha m) TURN_DECAY);
     total_turns := wrap_u64 (total_turns m + 1);
     consolidation_count := consolidation_count m;
     stable_pattern_count := stable_pattern_count m;
     last_consolidation_at := last_consolidation_at m;
     stable_epochs := stable_epochs m |}.

Definition on_consolidation (now : Z) (new_patterns : Z) (m : Manas) : Manas :=
  {| atma_graha := fmax ATMA_MIN (F32.sub (atma_graha m) CONSOLIDATION_DROP);
     total_turns := total_turns m;
     consolidation_count := wrap_u64 (consolidation_count m + 1);
     stable_pattern_count := wrap_u64 (stable_pattern_count m + new_patterns);
     last_consolidation_at := now;
     stable_epochs := stable_epochs m |}.

(** The clamped, data-driven target of [recalibrate]. *)
Definition calibrated (entropy : AlayaEntropy) (seed_count : Z) : spec_float :=
  let entropy_driven := F32.add ENTROPY_FLOOR (F32.mul (total entropy) ENTROPY_COEFFICIENT) in
  let contradiction_penalty :=
    if fgtb (contradiction entropy) CONTRADICTION_THRESHOLD
    then CONTRADICTION_PENALTY else F32.of_Z 0 in
  let volume_bonus :=
    if (VOLUME_SEED_THRESHOLD <? seed_count)%Z
       && fltb (redundancy entropy) VOLUME_MAX_REDUNDANCY
       && fltb (contradiction entropy) VOLUME_MAX_CONTRADICTION
    then VOLUME_BONUS else F32.of_Z 0 in
  fclamp (F32.add (F32.add entropy_driven contradiction_penalty) volume_bonus) ATMA_MIN ATMA_MAX.

Definition recalibrate (entropy : AlayaEntropy) (seed_count : Z) (m : Manas) : Manas :=
  let a := F32.add (F32.mul (calibrated entropy seed_count) EMA_NEW) (F32.mul (atma_graha m) EMA_OLD) in
  {| atma_graha := a;
     total_turns := total_turns m;
     consolidation_count := consolidation_count m;
     stable_pattern_count := stable_pattern_count m;
     last_consolidation_at := last_consolidation_at m;
     stable_epochs := if fltb a STABILITY_THRESHOLD then wrap_u64 (stable_epochs m + 1) else 0 |}.

Definition is_stable (m : Manas) : bool := (STABILITY_EPOCHS_NEEDED <=? stable_epochs m)%Z.

(** [f32]'s [Sum]: a left fold. *)
Definition fsum (l : list spec_float) : spec_float := foldl F32.add (F32.of_Z 0) l.

(** [windows(2).map(|w| w\[1\] - w\[0\])]. *)
Fixpoint window_diffs (l : list spec_float) : list spec_float :=
  match l with
  | x :: (y :: _) as l' => F32.sub y x :: window_diffs l'
  | _ => []
  end.

Definition set_atma (a : spec_float) (m : Manas) : Manas :=
  {| atma_graha := a; total_turns := total_turns m; consolidation_count := consolidation_count m;
     stable_pattern_count := stable_pattern_count m;
     last_consolidation_at := last_consolidation_at m; stable_epochs := stable_epochs m |}.

Definition adjust_from_certainty_trend (history : list spec_float) (m : Manas) : Manas :=
  if (length history <? 3)%nat then m
  else
    let trend := fsum (window_diffs history) in
    if fgtb trend (F32.lit 3 10) then
      set_atma (fmax (F32.sub (atma_graha m) (F32.lit 5 100)) ATMA_MIN) m
    else if fltb trend (F32.lit (-3) 10) then
      set_atma (fmin (F32.add (atma_graha m) (F32.lit 5 100)) ATMA_MAX) m
    else m.

(** ** Turn certainty *)

Inductive LoopDecision := Continue | ConfidentStop | EscalateToHuman | HardLimitReached.

#[export] Instance LoopDecision_eq_dec : EqDecision LoopDecision.
Proof. solve_decision. Defined.

Record TurnCertainty := {
  c_task : spec_float;
  c_open : spec_float;
  composite : spec_float;
  decision : LoopDecision
}.

Record CertaintyParams := {
  window_size : nat;
  theta_high : spec_float;
  theta_low : spec_float;
  alpha : spec_float;
  beta : spec_float;
  w1 : spec_float;
  w2 : spec_float;
  w3 : spec_float
}.

Definition CertaintyParams_default : CertaintyParams :=
  {| window_size := 10; theta_high := F32.lit 80 100; theta_low := F32.lit 30 100;
     alpha := F32.lit 70 100; beta := F32.lit 30 100;
     w1 := F32.lit 20 100; w2 := F32.lit 50 100; w3 := F32.lit 30 100 |}.

Definition has_tool (s : TurnSnapshot) : bool := negb (String.eqb (tool_name s) "").
Definition fnat (n : nat) : spec_float := F32.of_Z (Z.of_nat n).

(** Signal 1: the share of successful tool turns of the window. *)
Definition tool_success_rate (window : list TurnSnapshot) : spec_float :=
  match window with
  | [] => F32.of_Z 1
  | _ =>
      let ok_count := length (List.filter (fun s => bool_decide (tool_error s = None) && has_tool s) window) in
      let tot := length (List.filter has_tool window) in
      if (tot =? 0)%nat then F32.of_Z 1 else F32.div (fnat ok_count) (fnat tot)
  end.

(** The number of snapshots without a tool at the end of the memory. *)
Fixpoint leading_no_tool (rev_snapshots : list TurnSnapshot) : nat :=
  match rev_snapshots with
  | s :: l => if has_tool s then 0 else S (leading_no_tool l)
  | [] => 0
  end.

Definition no_tool_run (snapshots : list TurnSnapshot) (rate : spec_float) : spec_float :=
  let count := leading_no_tool (reverse snapshots) in
  F32.mul (fmin (F32.div (fnat count) (F32.of_Z 3)) (F32.of_Z 1)) rate.

(** Signal 3: one minus the normalised variance of the output lengths. *)
Definition output_stability (window : list TurnSnapshot) : spec_float :=
  let lens :=
    map (fun s => fnat (len (tool_output s)))
        (List.filter (fun s => negb (String.eqb (tool_output s) "")) window) in
  if (length lens <? 2)%nat then F32.of_Z 1
  else
    let n := fnat (length lens) in
    let mean := F32.div (fsum lens) n in
    let sq := fun x => F32.mul x x in
    let variance := F32.div (fsum (map (fun l => sq (F32.sub l mean)) lens)) n in
    let normalized := F32.div variance (F32.add (sq mean) (F32.of_Z 1)) in
    fmax (F32.sub (F32.of_Z 1) normalized) (F32.of_Z 0).

Definition TurnCertainty_evaluate (snapshots : list TurnSnapshot) (atma : spec_float)
    (turn_count max_turns : Z) (params : CertaintyParams) : TurnCertainty :=
  let window := take (window_size params) (reverse snapshots) in
  let rate := tool_success_rate window in
  let quiet := no_tool_run snapshots rate in
  let stability := output_stability window in
  let task :=
    F32.add (F32.add (F32.mul (w1 params) rate) (F32.mul (w2 params) quiet))
            (F32.mul (w3 params) stability) in
  let open := F32.sub (F32.of_Z 1) atma in
  let comp := F32.add (F32.mul (alpha params) task) (F32.mul (beta params) open) in
  let decision :=
    if (max_turns <? turn_count)%Z then HardLimitReached
    else if fgtb comp (theta_high params) && fgtb quiet (F32.of_Z 0) then ConfidentStop
    else if fltb comp (theta_low params) && (3 <? turn_count)%Z then EscalateToHuman
    else Continue in
  {| c_task := task; c_open := open; composite := comp; decision := decision |}.

(** ** Lemmas *)

Lemma last_n_short {A} n (l : list A) : (length l <= n)%nat -> last_n n l = l.
Proof. intros H. unfold last_n. by replace (length l - n)%nat with 0%nat by lia. Qed.

Lemma length_last_n {A} n (l : list A) : length (last_n n l) = Nat.min n (length l).
Proof. unfold last_n. rewrite length_drop. lia. Qed.

(** Pushing onto a full window drops its oldest element. *)
Lemma last_n_push {A} n (l : list A) x :
  (n <= length l)%nat -> (1 <= n)%nat -> last_n n (l ++ [x]) = tail (last_n n l) ++ [x].
Proof.
  intros Hl Hn. unfold last_n. rewrite length_app. cbn.
  replace (length l + 1 - n)%nat with (S (length l - n)) by lia.
  rewrite drop_app_le by lia. f_equal.
  assert (Hlt : (length l - n < length l)%nat) by lia.
  destruct (lookup_lt_is_Some_2 l _ Hlt) as [y Hy].
  by rewrite (drop_S l y _ Hy).
Qed.

Lemma record_window wm hist s :
  (1 <= max_snapshots wm)%nat -> snapshots wm = last_n (max_snapshots wm) hist ->
  exists wm', record wm s = Some wm' /\ max_snapshots wm' = max_snapshots wm /\
    snapshots wm' = last_n (max_snapshots wm) (hist ++ [s]).
Proof.
  intros Hc Hs. unfold record. pose proof (length_last_n (max_snapshots wm) hist) as Hlen.
  rewrite Hs. destruct (Nat.leb_spec (max_snapshots wm) (length (last_n (max_snapshots wm) hist))) as [Hfull|Hroom].
  - rewrite last_n_push by lia.
    destruct (last_n _ hist) as [|y l] eqn:Hl; [cbn in *; lia|]. cbn. by eexists.
  - rewrite last_n_short in * by lia. eexists. split; [done|]. split; [done|]. cbn.
    rewrite last_n_short; [done|]. rewrite length_app. cbn. lia.
Qed.

Lemma record_all_window ss wm hist :
  (1 <= max_snapshots wm)%nat -> snapshots wm = last_n (max_snapshots wm) hist ->
  exists wm', record_all wm ss = Some wm' /\ snapshots wm' = last_n (max_snapshots wm) (hist ++ ss).
Proof.
  revert wm hist. induction ss as [|s ss IH]; intros wm hist Hc Hs; cbn.
  - exists wm. by rewrite app_nil_r.
  - destruct (record_window wm hist s Hc Hs) as (wm' & -> & Hm & Hs'). cbn.
    destruct (IH wm' (hist ++ [s])) as (wm2 & -> & Hw); [lia|congruence|].
    exists wm2. split; [done|]. by rewrite Hw, Hm, <- app_assoc.
Qed.

Lemma fclamp_bounds x lo hi :
  is_nan x = false -> is_nan lo = false -> is_nan hi = false -> fleb lo hi = true ->
  fleb lo (fclamp x lo hi) = true /\ fleb (fclamp x lo hi) hi = true.
Proof.
  intros Hx Hlo Hhi Hle. unfold fclamp.
  destruct (fltb x lo) eqn:Hxl.
  - destruct (fltb hi lo) eqn:Hhl.
    + rewrite (fltb_fleb_dual hi lo Hhi Hlo), Hle in Hhl. done.
    + by rewrite Hle, fleb_refl.
  - rewrite (fltb_fleb_dual x lo Hx Hlo) in Hxl. apply negb_false_iff in Hxl.
    destruct (fltb hi x) eqn:Hhx.
    + by rewrite Hle, fleb_refl.
    + rewrite (fltb_fleb_dual hi x Hhi Hx) in Hhx. apply negb_false_iff in Hhx. by rewrite Hxl, Hhx.
Qed.

Lemma zero_mul_not_positive s x : fgtb (F32.mul (S754_zero s) x) (F32.of_Z 0) = false.
Proof. by destruct x as [[]|[]| |[] ? ?], s. Qed.

Lemma leading_no_tool_zero s l :
  has_tool s = true -> leading_no_tool (reverse (l ++ [s])) = 0.
Proof. intros Hs. rewrite reverse_app. cbn. by rewrite Hs. Qed.

(** ** Properties *)

(** The ring buffer refines "the last [capacity] snapshots of the
    session": recording any history into a fresh memory of positive capacity
    succeeds and leaves exactly the newest [capacity] snapshots, in order. *)
Theorem working_memory_refines capacity history (Hcap : (1 <= capacity)%nat) :
  exists wm, record_all (WorkingMemory_new capacity) history = Some wm /\
    snapshots wm = last_n capacity history.
Proof.
  destruct (record_all_window history (WorkingMemory_new capacity) []) as (wm & H1 & H2);
    [done|done|]. by exists wm.
Qed.

Definition sample_snapshot (n : Z) (tool : string) : TurnSnapshot :=
  {| turn_number := n; intent_stem := Geng; target_palace := Zhen; geju_name := "";
     snap_execution_mode := "direct"; tool_name := tool; tool_input := Null; tool_output := "ok";
     tool_error := None; timestamp := n; certainty := None; active_seed_ids := [];
     tool_count := 1 |}.

Lemma working_memory_refines_witness :
  exists wm, record_all (WorkingMemory_new 2)
      [sample_snapshot 1 "a"; sample_snapshot 2 "b"; sample_snapshot 3 "c"] = Some wm /\
    snapshots wm = [sample_snapshot 2 "b"; sample_snapshot 3 "c"].
Proof. apply (working_memory_refines 2). lia. Defined.

(** A memory of capacity 0 panics on its first snapshot. *)
Example record_capacity_zero : record (WorkingMemory_new 0) (sample_snapshot 1 "a") = None.
Proof. reflexivity. Qed.

(** Adaptive termination is never premature: whatever the parameters, the
    self-model value and the history, a confident stop is decided only within
    the turn limit and only when the last recorded turn ran no tool; past the
    limit the decision is always the hard limit; an escalation needs more than
    three turns. *)
Theorem certainty_decision_safe ss a turn max params :
  (decision (TurnCertainty_evaluate ss a turn max params) = ConfidentStop ->
     (turn <= max)%Z /\ forall l s, ss = l ++ [s] -> tool_name s = ""%string) /\
  (decision (TurnCertainty_evaluate ss a turn max params) = HardLimitReached <-> (max < turn)%Z) /\
  (decision (TurnCertainty_evaluate ss a turn max params) = EscalateToHuman -> (3 < turn <= max)%Z).
Proof.
  unfold TurnCertainty_evaluate. cbn [decision].
  destruct (Z.ltb_spec max turn); [repeat split; done|].
  destruct (fgtb _ (theta_high params)); cbn [andb].
  2: { destruct (fltb _ _); cbn [andb]; [destruct (Z.ltb_spec 3 turn)|]; repeat split; done || lia. }
  destruct (fgtb (no_tool_run _ _) _) eqn:Hq.
  - repeat split; try done; try lia. intros l s ->.
    destruct (has_tool s) eqn:Hs.
    + unfold no_tool_run in Hq. rewrite leading_no_tool_zero in Hq by done.
      exfalso. revert Hq. change (fmin _ _) with (S754_zero false). by rewrite zero_mul_not_positive.
    + unfold has_tool in Hs. apply negb_false_iff, String.eqb_eq in Hs. done.
  - destruct (fltb _ _); cbn [andb]; [destruct (Z.ltb_spec 3 turn)|]; repeat split; done || lia.
Qed.

(** Bounds of the self-model: after a turn or a consolidation the value is
    a number and not below [ATMA_MIN], whatever it was before; the data-driven
    target of a recalibration lies within [[ATMA_MIN, ATMA_MAX]] unless the
    entropy makes it NaN; and the two adjustments from the certainty trend
    respect the bound they move towards. *)
Theorem manas_bounds m now n e seeds h :
  (is_nan (atma_graha (record_turn m)) = false /\ fleb ATMA_MIN (atma_graha (record_turn m)) = true) /\
  (is_nan (atma_graha (on_consolidation now n m)) = false /\
     fleb ATMA_MIN (atma_graha (on_consolidation now n m)) = true) /\
  (is_nan (calibrated e seeds) = false ->
     fleb ATMA_MIN (calibrated e seeds) = true /\ fleb (calibrated e seeds) ATMA_MAX = true) /\
  (adjust_from_certainty_trend h m = m \/
   fleb ATMA_MIN (atma_graha (adjust_from_certainty_trend h m)) = true \/
   fleb (atma_graha (adjust_from_certainty_trend h m)) ATMA_MAX = true).
Proof.
  assert (Hmin : is_nan ATMA_MIN = false) by done.
  assert (Hmax : is_nan ATMA_MAX = false) by done.
  assert (Hside : forall x, is_nan (fmax ATMA_MIN x) = false /\ fleb ATMA_MIN (fmax ATMA_MIN x) = true).
  { intros x. unfold fmax. rewrite Hmin. destruct (is_nan x) eqn:Hx; [by rewrite fleb_refl|].
    destruct (fltb ATMA_MIN x) eqn:Hl; [by rewrite Hx, fltb_fleb|by rewrite fleb_refl]. }
  split; [apply Hside|]. split; [apply Hside|]. split.
  - unfold calibrated. match goal with |- context [fclamp ?x _ _] => set (v := x) end.
    intros Hn. apply fclamp_bounds; try done.
    unfold fclamp in Hn. destruct (is_nan v) eqn:Hv; [|done].
    destruct v; try done.
  - unfold adjust_from_certainty_trend.
    destruct (_ <? _)%nat; [by left|]. destruct (fgtb _ _); [right; left; by apply fmax_ge|].
    destruct (fltb _ _); [right; right; by apply fmin_le|by left].
Qed.
