(* ===== verification/Principles.v ===== *)
(** * Layer 4: learned principles

    src/kernel/src/principles/mod.rs: principles are derived from the turn
    snapshots ([derive]); a learned principle tightens a GeJu result
    ([tighten]); [apply_layer4] folds every active principle of the store over a
    result, and the gate phase of the agent loop folds the principles it loaded
    at session start ([gate_layer4],
    src/kernel/src/plates/tian_heaven/loop_dispatch.rs).  The principles table
    is src/kernel/src/palaces/gen_store/principles.rs. *)

From S2P Require Export Prelude Float Json GeJu Mind.
From stdpp Require Import sorting.

Inductive PrincipleConstraint :=
| AddGuard (gate reason : string)
| EscalateTo (mode reason : string)
| RequireAudit (reason : string).

Record SystemPrinciple := {
  sp_id : string;
  sp_session_id : string;
  sp_geju_key : string;
  constraint : PrincipleConstraint;
  confidence : spec_float;
  source_seed_count : Z
}.

(** [std::mem::discriminant] of an approval gate. *)
Definition same_discriminant (a b : ApprovalGate) : bool :=
  match a, b with
  | Permission _, Permission _ => true
  | UserConfirmation _, UserConfirmation _ => true
  | SandboxIsolation, SandboxIsolation => true
  | CodeReview, CodeReview => true
  | _, _ => false
  end.

Definition escalation_target (mode : string) : option ExecutionMode :=
  match mode with
  | "Guarded" => Some Guarded
  | "Sandbox" => Some Sandbox
  | "Denied" => Some Denied
  | _ => None
  end.

Definition guard_gate (gate reason : string) : option ApprovalGate :=
  match gate with
  | "Permission" => Some (Permission reason)
  | "UserConfirmation" => Some (UserConfirmation reason)
  | "SandboxIsolation" => Some SandboxIsolation
  | "CodeReview" => Some CodeReview
  | _ => None
  end.

(** [SystemPrinciple::tighten]: the new result and whether it was modified. *)
Definition tighten (p : SystemPrinciple) (result : GeJuResult) (atma_graha : spec_float)
    : GeJuResult * bool :=
  if fgeb atma_graha (F32.lit 1 2) then (result, false)
  else
    match constraint p with
    | EscalateTo mode _ =>
        match escalation_target mode with
        | None => (result, false)
        | Some target =>
            let candidate :=
              {| name := name result; execution_mode := target;
                 requires_audit := requires_audit result;
                 max_retries := max_retries result;
                 approval_chain := approval_chain result; layer := layer result |} in
            if is_stricter_than candidate result
            then (set_layer 4 candidate, true)
            else (result, false)
        end
    | AddGuard gate reason =>
        match guard_gate gate reason with
        | None => (result, false)
        | Some gate =>
            let already_present := existsb (fun g => same_discriminant g gate) (approval_chain result) in
            if already_present then (result, false)
            else
              ({| name := name result; execution_mode := execution_mode result;
                  requires_audit := requires_audit result; max_retries := max_retries result;
                  approval_chain := approval_chain result ++ [gate]; layer := 4 |}, true)
        end
    | RequireAudit _ =>
        if requires_audit result then (result, false)
        else
          ({| name := name result; execution_mode := execution_mode result;
              requires_audit := true; max_retries := max_retries result;
              approval_chain := approval_chain result; layer := 4 |}, true)
    end.

(** The loop both callers run: every principle whose key matches is applied in
    turn to the result so far. *)
Fixpoint tighten_all (ps : list SystemPrinciple) (key : string) (atma_graha : spec_float)
    (result : GeJuResult) : GeJuResult * bool :=
  match ps with
  | [] => (result, false)
  | p :: ps' =>
      if bool_decide (sp_geju_key p = key) then
        let '(r1, m1) := tighten p result atma_graha in
        let '(r2, m2) := tighten_all ps' key atma_graha r1 in
        (r2, m1 || m2)
      else tighten_all ps' key atma_graha result
  end.

(** [apply_layer4]: rows that do not parse are skipped, a store error leaves the
    result alone.  [parse] is serde_json's decoder. *)
Definition apply_layer4 {E} (parse : string -> option SystemPrinciple)
    (load_active_principles : result E (list string)) (key : string)
    (result : GeJuResult) (atma_graha : spec_float) : GeJuResult :=
  match load_active_principles with
  | Err _ => result
  | Ok rows => fst (tighten_all (omap parse rows) key atma_graha result)
  end.

(** The gate phase: the principles loaded at session start, matched on the name
    of the pattern. *)
Definition gate_layer4 (principles : list SystemPrinciple) (r : GeJuResult) (atma : spec_float)
    : GeJuResult :=
  fst (tighten_all principles (name r) atma r).

(** ** Derivation from the turn snapshots *)

Definition group_by_geju (snaps : list TurnSnapshot) : gmap string (list TurnSnapshot) :=
  foldl (fun g s => <[geju_name s := default [] (g !! geju_name s) ++ [s]]> g) ∅ snaps.

Definition mk_principle (id session key : string) (c : PrincipleConstraint) (conf : spec_float) (n : Z)
    : SystemPrinciple :=
  {| sp_id := id; sp_session_id := session; sp_geju_key := key; constraint := c;
     confidence := conf; source_seed_count := n |}.

(** [principles.iter_mut().find(|p| p.geju_key == key)] and the update of the
    principle found. *)
Fixpoint update_first (key : string) (f : SystemPrinciple -> SystemPrinciple)
    (ps : list SystemPrinciple) : option (list SystemPrinciple) :=
  match ps with
  | [] => None
  | p :: ps' =>
      if bool_decide (sp_geju_key p = key) then Some (f p :: ps')
      else (p ::.) <$> update_first key f ps'
  end.

Definition upgrade (n : Z) (p : SystemPrinciple) : SystemPrinciple :=
  mk_principle (sp_id p) (sp_session_id p) (sp_geju_key p)
    (EscalateTo "Sandbox" (pretty n +:+ " seeds accumulated — systemic pattern detected"))
    (fmin (F32.add (confidence p) (F32.lit 2 10)) (F32.of_Z 1)) (source_seed_count p).

(** One iteration of the loop over the groups.  [uuid k] is the identifier that
    the k-th principle pushed gets. *)
Definition derive_step (uuid : nat -> string) (session_id : string) (atma : spec_float)
    (principles : list SystemPrinciple) (entry : string * list TurnSnapshot) : list SystemPrinciple :=
  let '(geju_key, group) := entry in
  let n := Z.of_nat (length group) in
  if (n <? 3)%Z then principles
  else
    let error_count := fnat (length (List.filter (fun s => bool_decide (is_Some (tool_error s))) group)) in
    let error_rate := F32.div error_count (F32.of_Z n) in
    let push ps c conf := ps ++ [mk_principle (uuid (length ps)) session_id geju_key c conf n] in
    let principles :=
      if fgeb error_rate (F32.lit 7 10) && fltb atma (F32.lit 4 10) then
        push principles
          (EscalateTo "Sandbox"
             ("error_rate=" +:+ fmt2 error_rate +:+ ", atma_graha=" +:+ fmt2 atma +:+
              " — repeated failures indicate systemic risk"))
          (fmin (F32.add (F32.mul error_rate (F32.lit 7 10))
                         (F32.mul (F32.sub (F32.of_Z 1) atma) (F32.lit 3 10)))
                (F32.of_Z 1))
      else if fgeb error_rate (F32.lit 4 10) then
        push principles
          (AddGuard "Permission"
             ("error_rate=" +:+ fmt2 error_rate +:+ " — elevated error rate requires additional checks"))
          (fmin (F32.add (F32.mul error_rate (F32.lit 6 10)) (F32.lit 2 10)) (F32.of_Z 1))
      else principles in
    if (5 <? n)%Z then
      match update_first geju_key (upgrade n) principles with
      | Some principles' => principles'
      | None =>
          push principles
            (RequireAudit (pretty n +:+ " seeds accumulated — pattern requires audit oversight"))
            (F32.lit 6 10)
      end
    else principles.

(** [SystemPrinciple::derive], for the order [groups] in which the hash map of
    the groups is iterated. *)
Definition derive (uuid : nat -> string) (session_id : string) (groups : list (string * list TurnSnapshot))
    (m : Manas) : list SystemPrinciple :=
  foldl (derive_step uuid session_id (atma_graha m)) [] groups.

(** ** The order that tightening respects *)

Record at_least_as_strict (a b : GeJuResult) : Prop := {
  als_name : name a = name b;
  als_level : (safety_level b <= safety_level a)%Z;
  als_audit : requires_audit b = true -> requires_audit a = true;
  als_chain : exists extra, approval_chain a = approval_chain b ++ extra;
  als_retries : max_retries a = max_retries b
}.

#[export] Instance at_least_as_strict_preorder : PreOrder at_least_as_strict.
Proof.
  split.
  - intros r. split; try done. exists []. by rewrite app_nil_r.
  - intros a b c [Hn1 Hl1 Ha1 [e1 He1] Hr1] [Hn2 Hl2 Ha2 [e2 He2] Hr2].
    split; try congruence; try lia; auto.
    exists (e2 ++ e1). by rewrite He1, He2, app_assoc.
Qed.

Lemma is_stricter_than_same_rest r target :
  let candidate := {| name := name r; execution_mode := target;
                      requires_audit := requires_audit r; max_retries := max_retries r;
                      approval_chain := approval_chain r; layer := layer r |} in
  is_stricter_than candidate r = true <-> (safety_level r < mode_level target)%Z.
Proof.
  intros candidate. unfold is_stricter_than, safety_level. subst candidate.
  cbn [execution_mode requires_audit approval_chain].
  rewrite andb_negb_r, Nat.ltb_irrefl.
  destruct (Z.ltb_spec (mode_level (execution_mode r)) (mode_level target)); [done|].
  destruct (Z.eqb_spec (mode_level target) (mode_level (execution_mode r))); split; done || lia.
Qed.

Ltac solve_stricter :=
  split; cbn; unfold safety_level in *; cbn in *;
  try first [ done | lia | congruence | exists []; by rewrite app_nil_r | by eexists ].

Lemma tighten_strict p r a : at_least_as_strict (fst (tighten p r a)) r.
Proof.
  unfold tighten. destruct (fgeb a _); [done|].
  destruct (constraint p) as [gate reason|mode reason|reason]; cbn.
  - destruct (guard_gate gate reason) as [g|]; [|done].
    destruct (existsb _ _); [done|]. solve_stricter.
  - destruct (escalation_target mode) as [t|]; [|done].
    destruct (is_stricter_than _ r) eqn:Hs; [|done].
    apply is_stricter_than_same_rest in Hs. solve_stricter.
  - destruct (requires_audit r) eqn:Hr; [done|]. solve_stricter.
Qed.

Lemma tighten_all_strict ps key a r : at_least_as_strict (fst (tighten_all ps key a r)) r.
Proof.
  revert r. induction ps as [|p ps IH]; intros r; cbn; [done|].
  case_bool_decide; [|apply IH].
  pose proof (tighten_strict p r a) as H1.
  destruct (tighten p r a) as [r1 m1]; cbn in H1.
  specialize (IH r1). destruct (tighten_all ps key a r1) as [r2 m2]; cbn in *.
  by transitivity r1.
Qed.

(** ** Idempotence *)

Lemma existsb_last {A} (f : A -> bool) l x : f x = true -> existsb f (l ++ [x]) = true.
Proof. intros H. rewrite existsb_app. cbn. rewrite H. by rewrite orb_true_r. Qed.

Lemma same_discriminant_refl g : same_discriminant g g = true.
Proof. by destruct g. Qed.

(** *** Lemmas on derivation *)

Definition well_derived (groups : list (string * list TurnSnapshot)) (p : SystemPrinciple) : Prop :=
  exists g, (sp_geju_key p, g) ∈ groups /\ (3 <= length g)%nat /\
    source_seed_count p = Z.of_nat (length g) /\
    fleb (confidence p) (F32.of_Z 1) = true /\
    ((5 < length g)%nat -> forall gate reason, constraint p <> AddGuard gate reason).

Lemma update_first_None key f ps :
  update_first key f ps = None <-> key ∉ (sp_geju_key <$> ps).
Proof.
  induction ps as [|p ps IH]; cbn; [set_solver|].
  case_bool_decide as Hk; [set_solver|].
  rewrite fmap_None, IH. set_solver.
Qed.

Lemma update_first_last key f ps p :
  key ∉ (sp_geju_key <$> ps) -> sp_geju_key p = key ->
  update_first key f (ps ++ [p]) = Some (ps ++ [f p]).
Proof.
  intros Hn Hp. induction ps as [|q ps IH]; cbn.
  - by rewrite bool_decide_eq_true_2.
  - rewrite bool_decide_eq_false_2 by set_solver. rewrite IH by set_solver. done.
Qed.

(** A step either leaves the principles alone, for a group of at most five
    snapshots, or appends one well-derived principle for its group. *)
Lemma derive_step_shape uuid session a ps key g :
  key ∉ (sp_geju_key <$> ps) ->
  (derive_step uuid session a ps (key, g) = ps /\ (length g <= 5)%nat) \/
  exists p, derive_step uuid session a ps (key, g) = ps ++ [p] /\ sp_geju_key p = key /\
            well_derived [(key, g)] p.
Proof.
  intros Hnew. unfold derive_step.
  destruct (Z.ltb_spec (Z.of_nat (length g)) 3) as [|H3]; [left; split; [done|lia]|].
  set (n := Z.of_nat (length g)) in *.
  match goal with |- context [F32.div ?a ?b] => generalize (F32.div a b); intros rate end.
  assert (Hup : forall c conf, update_first key (upgrade n)
      (ps ++ [mk_principle (uuid (length ps)) session key c conf n]) =
      Some (ps ++ [upgrade n (mk_principle (uuid (length ps)) session key c conf n)]))
    by (intros; by apply update_first_last).
  apply update_first_None with (f := upgrade n) in Hnew as Hnone.
  assert (Hwd : forall c conf, fleb conf (F32.of_Z 1) = true ->
      ((5 < n)%Z -> forall gate reason, c <> AddGuard gate reason) ->
      well_derived [(key, g)] (mk_principle (uuid (length ps)) session key c conf n)).
  { intros c conf Hc Hg. exists g. split; [set_solver|]. split; [lia|]. split; [done|].
    split; [done|]. intros. apply Hg. lia. }
  assert (Hle : forall x, fleb (fmin x (F32.of_Z 1)) (F32.of_Z 1) = true) by (intros; by apply fmin_le).
  destruct (fgeb rate (F32.lit 7 10) && fltb a (F32.lit 4 10));
    [|destruct (fgeb rate (F32.lit 4 10))];
    destruct (Z.ltb_spec 5 n); rewrite ?Hup, ?Hnone;
    try (left; split; [done|lia]);
    right; eexists; (split; [reflexivity|]); (split; [done|]); apply Hwd; auto; try done; lia.
Qed.

Lemma well_derived_mono gs gs' p : (forall x, x ∈ gs -> x ∈ gs') -> well_derived gs p -> well_derived gs' p.
Proof. intros Hsub (g & Hin & H). exists g. split; [by apply Hsub|done]. Qed.

(** ** Properties *)

(** [C26] Layer 4 only ever tightens: whatever principles the store returns
    (or fails to return), whatever the key and the self-model value, the
    result keeps its name and retries, its execution mode never moves to a
    laxer level, a required audit stays required, and every approval gate it
    had is still there, in order, before the added ones. *)
Theorem apply_layer4_only_tightens {E} parse (rows : result E (list string)) key r a :
  at_least_as_strict (apply_layer4 parse rows key r a) r.
Proof.
  unfold apply_layer4. destruct rows as [rows|e]; [apply tighten_all_strict|done].
Qed.

(** Applying a principle twice is applying it once: the second
    application leaves the tightened result alone and reports no change. *)
Theorem tighten_idempotent p r a :
  tighten p (fst (tighten p r a)) a = (fst (tighten p r a), false).
Proof.
  unfold tighten. destruct (fgeb a _) eqn:Ha; cbn; rewrite ?Ha; [done|].
  destruct (constraint p) as [gate reason|mode reason|reason]; cbn.
  - destruct (guard_gate gate reason) as [g|] eqn:Hg; cbn; rewrite ?Ha; [|done].
    destruct (existsb _ (approval_chain r)) eqn:Hex; cbn; rewrite ?Ha, ?Hex; [done|].
    by rewrite existsb_last by apply same_discriminant_refl.
  - destruct (escalation_target mode) as [t|] eqn:Ht; cbn; [|done].
    destruct (is_stricter_than _ r) eqn:Hs; cbn; rewrite ?Hs; [|done].
    unfold is_stricter_than, safety_level, set_layer.
    cbn [execution_mode requires_audit approval_chain].
    by rewrite Z.ltb_irrefl, Z.eqb_refl, andb_negb_r, Nat.ltb_irrefl.
  - destruct (requires_audit r) eqn:Hr; cbn; by rewrite ?Hr.
Qed.

Lemma derive_invariant uuid session m groups :
  NoDup groups.*1 ->
  NoDup (sp_geju_key <$> derive uuid session groups m) /\
  (forall p, p ∈ derive uuid session groups m -> well_derived groups p) /\
  (forall key g, (key, g) ∈ groups -> (5 < length g)%nat ->
     key ∈ (sp_geju_key <$> derive uuid session groups m)).
Proof.
  induction groups as [|[key g] groups IH] using rev_ind; intros Hnd; cbn.
  - split; [constructor|]. split; intros; exfalso; set_solver.
  - rewrite fmap_app in Hnd. apply NoDup_app in Hnd as (Hnd & Hdis & _).
    destruct (IH Hnd) as (Hk & Hw & Hc). unfold derive in *. rewrite foldl_app. cbn [foldl].
    set (ps := foldl _ [] groups) in *.
    assert (Hnew : key ∉ (sp_geju_key <$> ps)).
    { intros Hin. apply list_elem_of_fmap in Hin as (p & -> & Hp).
      destruct (Hw p Hp) as (g' & Hg' & _). apply (Hdis (sp_geju_key p)); [|set_solver].
      apply list_elem_of_fmap. by exists (sp_geju_key p, g'). }
    destruct (derive_step_shape uuid session (atma_graha m) ps key g Hnew)
      as [[-> Hlen]|(p & -> & Hpk & Hpw)].
    + split; [done|]. split.
      * intros p Hp. apply (well_derived_mono groups); [set_solver|auto].
      * intros k' g' Hin Hl. apply elem_of_app in Hin as [Hin|Hin]; [eauto|].
        apply list_elem_of_singleton in Hin as [= -> ->]. lia.
    + rewrite fmap_app. cbn. split; [|split].
      * apply NoDup_app. split; [done|]. split; [set_solver|apply NoDup_singleton].
      * intros q Hq. apply elem_of_app in Hq as [Hq|Hq].
        -- apply (well_derived_mono groups); [set_solver|auto].
        -- apply list_elem_of_singleton in Hq as ->. apply (well_derived_mono [(key, g)]); [set_solver|done].
      * intros k' g' Hin Hl. apply elem_of_app in Hin as [Hin|Hin]; [set_solver by eauto|].
        apply list_elem_of_singleton in Hin as [= -> ->]. set_solver.
Qed.

(** Derivation of principles, whatever order the hash map of the groups is
    iterated in: there is at most one principle per pattern; each comes from a
    group of at least three snapshots of its pattern and records their number,
    has a confidence of at most 1 and, above five snapshots, is an escalation or
    an audit, never just a guard; and every pattern seen more than five times
    has a principle. *)
Theorem derive_sound uuid session m snaps groups
    (Hperm : groups ≡ₚ map_to_list (group_by_geju snaps)) :
  NoDup (sp_geju_key <$> derive uuid session groups m) /\
  (forall p, p ∈ derive uuid session groups m -> exists g,
     group_by_geju snaps !! sp_geju_key p = Some g /\ (3 <= length g)%nat /\
     source_seed_count p = Z.of_nat (length g) /\ fleb (confidence p) (F32.of_Z 1) = true /\
     ((5 < length g)%nat -> forall gate reason, constraint p <> AddGuard gate reason)) /\
  (forall key g, group_by_geju snaps !! key = Some g -> (5 < length g)%nat ->
     key ∈ (sp_geju_key <$> derive uuid session groups m)).
Proof.
  destruct (derive_invariant uuid session m groups) as (H1 & H2 & H3).
  { rewrite Hperm. apply NoDup_fst_map_to_list. }
  split; [done|]. split.
  - intros p Hp. destruct (H2 p Hp) as (g & Hg & Hrest). exists g. split; [|done].
    rewrite Hperm in Hg. by apply elem_of_map_to_list in Hg.
  - intros key g Hg Hl. apply (H3 key g); [|done]. rewrite Hperm. by apply elem_of_map_to_list.
Qed.

Definition failing_snapshot (n : Z) : TurnSnapshot :=
  {| turn_number := n; intent_stem := Geng; target_palace := Zhen; geju_name := "太白入荧";
     snap_execution_mode := "sandbox"; tool_name := "bash"; tool_input := Null; tool_output := "";
     tool_error := Some "exit code 1"; timestamp := n; certainty := None; active_seed_ids := [];
     tool_count := 1 |}.

Definition failing_groups : list (string * list TurnSnapshot) :=
  [("太白入荧", failing_snapshot <$> [1; 2; 3; 4; 5; 6]%Z)].

Lemma derive_sound_witness :
  sp_geju_key <$> derive (fun k => pretty k) "s" failing_groups Manas_new = ["太白入荧"] /\
  NoDup (sp_geju_key <$> derive (fun k => pretty k) "s" failing_groups Manas_new).
Proof.
  split; [by vm_compute|].
  refine (proj1 (derive_sound (fun k => pretty k) "s" Manas_new
    (failing_snapshot <$> [1; 2; 3; 4; 5; 6]%Z) failing_groups _)).
  by vm_compute.
Defined.

(** ** The principles table *)

Record PrincipleRow := {
  row_id : string;
  row_session : string;
  row_geju_key : string;
  row_scope : string;
  row_constraint_type : string;
  row_constraint_json : string;
  row_confidence : spec_float;
  row_seed_count : Z;
  row_created_at : Z;
  row_archived : Z
}.

Inductive StoreError := JsonError | ConstraintViolation.

(** [u64 as i64]. *)
Definition as_i64 (z : Z) : Z := if (z <? 2 ^ 63)%Z then z else (z - 2 ^ 64)%Z.

Section Table.
(** serde_json's decoder and printer. *)
Context (from_str : string -> option Value) (to_string : Value -> string).

Definition str_field (v : Value) (k : string) : string := default "" (as_str (index v k)).

Definition principle_row (session_id : string) (now : Z) (p : Value) : PrincipleRow :=
  {| row_id := str_field p "id";
     row_session := session_id;
     row_geju_key := str_field p "geju_key";
     row_scope := "agent";
     row_constraint_type := str_field (index p "constraint") "type";
     row_constraint_json := to_string (index p "constraint");
     row_confidence := default (F64.lit 1 2) (as_f64 (index p "confidence"));
     row_seed_count := as_i64 (default 0%Z (as_u64 (index p "source_seed_count")));
     row_created_at := now;
     row_archived := 0 |}.

(** The insertions of one transaction: [id] is the primary key. *)
Fixpoint insert_rows (table : list PrincipleRow) (rows : list PrincipleRow)
    : result StoreError (list PrincipleRow) :=
  match rows with
  | [] => Ok table
  | r :: rows' =>
      if bool_decide (row_id r ∈ row_id <$> table) then Err ConstraintViolation
      else insert_rows (table ++ [r]) rows'
  end.

Definition cleared_by (session_id : string) (r : PrincipleRow) : bool :=
  bool_decide (row_session r = session_id) && bool_decide (row_scope r = "agent").

(** [Store::save_principles]: the outcome and the table afterwards; a failed
    insertion rolls the whole transaction back. *)
Definition save_principles (now : Z) (session_id principles_json : string) (table : list PrincipleRow)
    : result StoreError unit * list PrincipleRow :=
  match from_str principles_json with
  | Some (Arr arr) =>
      let kept := List.filter (fun r => negb (cleared_by session_id r)) table in
      match insert_rows kept (principle_row session_id now <$> arr) with
      | Ok table' => (Ok (), table')
      | Err e => (Err e, table)
      end
  | _ => (Err JsonError, table)
  end.

Definition with_archived (a : Z) (r : PrincipleRow) : PrincipleRow :=
  {| row_id := row_id r; row_session := row_session r; row_geju_key := row_geju_key r;
     row_scope := row_scope r; row_constraint_type := row_constraint_type r;
     row_constraint_json := row_constraint_json r; row_confidence := row_confidence r;
     row_seed_count := row_seed_count r; row_created_at := row_created_at r; row_archived := a |}.

Definition archive_principle (id : string) (table : list PrincipleRow) : list PrincipleRow :=
  (fun r => if bool_decide (row_id r = id) then with_archived 1 r else r) <$> table.

Definition unarchive_principle (id : string) (table : list PrincipleRow) : list PrincipleRow :=
  (fun r => if bool_decide (row_id r = id) then with_archived 0 r else r) <$> table.

(** The JSON object a row is returned as; the [archived] field is read from
    column [archived_col] of the select. *)
Definition row_json (archived : bool) (r : PrincipleRow) : string :=
  to_string
    (Obj [("archived", Bool archived);
          ("confidence", Num (FloatNum (row_confidence r)));
          ("constraint", default Null (from_str (row_constraint_json r)));
          ("geju_key", Str (row_geju_key r));
          ("id", Str (row_id r));
          ("scope", Str (row_scope r));
          ("session_id", Str (row_session r));
          ("source_seed_count", Num (PosInt (row_seed_count r mod 2 ^ 64)))]).

Definition newest_first (a b : PrincipleRow) : Prop := (row_created_at b <= row_created_at a)%Z.
#[export] Instance newest_first_dec a b : Decision (newest_first a b).
Proof. unfold newest_first. apply _. Defined.

(** [Store::load_active_principles].  Column 8 of its select is [created_at],
    not [archived].  Rows of the same second come in table order. *)
Definition load_active_principles (table : list PrincipleRow) : list string :=
  (fun r => row_json (negb (row_created_at r =? 0)%Z) r) <$>
    stable_sort newest_first (List.filter (fun r => (row_archived r =? 0)%Z) table).

Definition load_all_principles (table : list PrincipleRow) : list string :=
  (fun r => row_json (negb (row_archived r =? 0)%Z) r) <$> stable_sort newest_first table.
End Table.

Lemma insert_rows_ok rows table table' :
  NoDup (row_id <$> table) ->
  (insert_rows table rows = Ok table' <->
   table' = table ++ rows /\ NoDup (row_id <$> table ++ rows)).
Proof.
  revert table. induction rows as [|r rows IH]; intros table Hnd; cbn.
  - rewrite app_nil_r. naive_solver.
  - case_bool_decide as Hin.
    + split; [done|]. intros [_ H]. rewrite fmap_app in H. apply NoDup_app in H as (_ & H & _).
      exfalso. apply (H (row_id r)); [done|]. cbn. set_solver.
    + rewrite IH.
      * by rewrite <- app_assoc.
      * rewrite fmap_app. apply NoDup_app. split; [done|]. split; [|apply NoDup_singleton].
        cbn. set_solver.
Qed.

Lemma NoDup_fmap_filter {A B} (f : A -> B) (p : A -> bool) l :
  NoDup (f <$> l) -> NoDup (f <$> List.filter p l).
Proof.
  induction l as [|x l IH]; cbn; [done|].
  intros [Hx Hl]%NoDup_cons. destruct (p x); cbn; [|by apply IH].
  apply NoDup_cons. split; [|by apply IH].
  intros Hin. apply Hx. apply list_elem_of_fmap in Hin as (y & -> & Hy).
  apply list_elem_of_fmap. exists y. split; [done|].
  apply list_elem_of_In, filter_In in Hy as [Hy _]. by apply list_elem_of_In.
Qed.

(** Saving principles is a transaction.  On a table with distinct
    identifiers it succeeds exactly when the text is a JSON array whose
    identifiers are distinct and not used by another session's rows; then the
    session's earlier agent principles are replaced by the new rows, everything
    else is kept and identifiers stay distinct; on any failure the table is the
    one before the call. *)
Theorem save_principles_transactional from_str to_string now session json table
    (Hnd : NoDup (row_id <$> table)) :
  let kept := List.filter (fun r => negb (cleared_by session r)) table in
  let '(outcome, table') := save_principles from_str to_string now session json table in
  (outcome = Ok () <->
     exists arr, from_str json = Some (Arr arr) /\
       NoDup ((row_id <$> kept) ++ (row_id <$> (principle_row to_string session now <$> arr)))) /\
  (outcome = Ok () -> exists arr, from_str json = Some (Arr arr) /\
     table' = kept ++ (principle_row to_string session now <$> arr) /\ NoDup (row_id <$> table')) /\
  (outcome <> Ok () -> table' = table).
Proof.
  intros kept. unfold save_principles. fold kept.
  assert (Hk : NoDup (row_id <$> kept)) by by apply NoDup_fmap_filter.
  destruct (from_str json) as [v|] eqn:Hf; [destruct v as [| | | |arr|] |];
    try (split; [naive_solver|split; naive_solver]).
  set (rows := principle_row to_string session now <$> arr).
  pose proof (fun t => insert_rows_ok rows kept t Hk) as Hins. rewrite fmap_app in Hins.
  destruct (insert_rows kept rows) as [t|e] eqn:Hi.
  - destruct (proj1 (Hins t) eq_refl) as [-> Hok]. split; [|split; [|done]].
    + split; [|done]. intros _. by exists arr.
    + intros _. exists arr. split; [done|]. split; [done|]. by rewrite fmap_app.
  - split; [|split; done]. split; [done|]. intros (arr' & [= <-] & Hok).
    exfalso. assert (H : Err e = Ok (kept ++ rows)) by (apply Hins; done). done.
Qed.

Definition sample_row (id session : string) : PrincipleRow :=
  {| row_id := id; row_session := session; row_geju_key := "k"; row_scope := "agent";
     row_constraint_type := "RequireAudit"; row_constraint_json := "{}"; row_confidence := F64.lit 1 2;
     row_seed_count := 3; row_created_at := 5; row_archived := 0 |}.

Lemma save_principles_transactional_witness :
  let parse := fun _ : string => Some (Arr [Obj [("id", Str "n")]]) in
  let table := [sample_row "a" "s"; sample_row "b" "t"] in
  (row_id <$> snd (save_principles parse (fun _ => "null") 7 "s" "..." table)) = ["b"; "n"] /\
  fst (save_principles parse (fun _ => "null") 7 "s" "..." table) = Ok ().
Proof.
  split; [by vm_compute|].
  assert (Hnd : NoDup (row_id <$> [sample_row "a" "s"; sample_row "b" "t"]))
    by (apply (bool_decide_unpack _); by vm_compute).
  apply (save_principles_transactional (fun _ : string => Some (Arr [Obj [("id", Str "n")]]))
           (fun _ => "null") 7 "s" "..." _ Hnd).
  eexists. split; [reflexivity|]. apply (bool_decide_unpack _). by vm_compute.
Defined.

(** The active principles announce themselves as archived: the loader reads
    the flag from the column of the creation time. *)
Example active_rows_claim_archived from_str to_string :
  load_active_principles from_str to_string [sample_row "a" "s"] =
    [row_json from_str to_string true (sample_row "a" "s")] /\
  load_all_principles from_str to_string [sample_row "a" "s"] =
    [row_json from_str to_string false (sample_row "a" "s")].
Proof. by vm_compute. Qed.
