(* ===== verification/Breaker.v ===== *)
(** * Circuit breakers, provider failover and retry backoff

    src/kernel/src/palaces/zhong_core/breaker.rs, router.rs and backoff.rs.
    Instants and durations are integers of one unit; [duration_since]
    saturates at zero. *)

From S2P Require Export Prelude RString Float.
From stdpp Require Import sorting.

(** ** The breaker *)

Inductive BreakerState := BClosed | BOpen | BHalfOpen.

#[export] Instance BreakerState_eq_dec : EqDecision BreakerState.
Proof. solve_decision. Defined.

Record CircuitBreaker := {
  state : BreakerState;
  failure_count : Z;
  last_failure : option Z;
  failure_threshold : Z;
  cooldown : Z
}.

Definition CircuitBreaker_new (failure_threshold cooldown_secs : Z) : CircuitBreaker :=
  {| state := BClosed; failure_count := 0; last_failure := None;
     failure_threshold := failure_threshold; cooldown := cooldown_secs |}.

Definition with_state (s : BreakerState) (b : CircuitBreaker) : CircuitBreaker :=
  {| state := s; failure_count := failure_count b; last_failure := last_failure b;
     failure_threshold := failure_threshold b; cooldown := cooldown b |}.

(** [is_open]: whether the request is refused, and the breaker afterwards. *)
Definition is_open (now : Z) (b : CircuitBreaker) : bool * CircuitBreaker :=
  match state b with
  | BClosed => (false, b)
  | BOpen =>
      match last_failure b with
      | Some last =>
          if (cooldown b <=? Z.max 0 (now - last))%Z then (false, with_state BHalfOpen b) else (true, b)
      | None => (true, b)
      end
  | BHalfOpen => (false, b)
  end.

Definition record_success (b : CircuitBreaker) : CircuitBreaker :=
  {| state := BClosed; failure_count := 0; last_failure := None;
     failure_threshold := failure_threshold b; cooldown := cooldown b |}.

(** [failure_count] is a [u32]; the increment wraps in a release build. *)
Definition record_failure (now : Z) (b : CircuitBreaker) : CircuitBreaker :=
  let count := ((failure_count b + 1) mod 2 ^ 32)%Z in
  {| state :=
       if (failure_threshold b <=? count)%Z || bool_decide (state b = BHalfOpen) then BOpen else state b;
     failure_count := count; last_failure := Some now;
     failure_threshold := failure_threshold b; cooldown := cooldown b |}.

(** ** The router

    A provider is identified by its position in the list it was given in. *)

Record ProviderRouter := {
  providers : list (Z * nat);
  breakers : list CircuitBreaker;
  active : nat
}.

Definition by_priority (a b : Z * nat) : Prop := (fst a <= fst b)%Z.
#[export] Instance by_priority_dec a b : Decision (by_priority a b).
Proof. unfold by_priority. apply _. Defined.

Definition ProviderRouter_new (ps : list (Z * nat)) : ProviderRouter :=
  let sorted := stable_sort by_priority ps in
  {| providers := sorted; breakers := replicate (length sorted) (CircuitBreaker_new 3 30); active := 0 |}.

Definition router_record_success (r : ProviderRouter) : ProviderRouter :=
  {| providers := providers r; breakers := alter record_success (active r) (breakers r); active := active r |}.

(** The search for the next healthy provider: the offset that was accepted, and
    the breakers afterwards. *)
Fixpoint scan (now : Z) (n start : nat) (offsets : list nat) (bs : list CircuitBreaker)
    : option nat * list CircuitBreaker :=
  match offsets with
  | [] => (None, bs)
  | o :: rest =>
      let idx := ((start + o) mod n)%nat in
      match bs !! idx with
      | None => (None, bs)
      | Some b =>
          let '(open, b') := is_open now b in
          if open then scan now n start rest (<[idx := b']> bs)
          else (Some idx, <[idx := b']> bs)
      end
  end.

(** [try_failover]; [now] is read before the failure is recorded at
    [failed_at]. *)
Definition try_failover (now failed_at : Z) (r : ProviderRouter) : bool * ProviderRouter :=
  let bs := alter (record_failure failed_at) (active r) (breakers r) in
  let n := length (providers r) in
  match scan now n (active r) (seq 1 n) bs with
  | (Some idx, bs') => (true, {| providers := providers r; breakers := bs'; active := idx |})
  | (None, bs') => (false, {| providers := providers r; breakers := bs'; active := active r |})
  end.

(** The provider requests go to. *)
Definition active_provider (r : ProviderRouter) : option (Z * nat) := providers r !! active r.

(** ** Backoff *)

Record RetryBackoff := { attempt : Z; base : Z; cap : Z }.

Definition RetryBackoff_new : RetryBackoff := {| attempt := 0; base := 500; cap := 32000 |}.

(** [raw] before the cap; the product of two [u64] wraps in a release build. *)
Definition raw_delay (b : RetryBackoff) : Z :=
  let exp := Z.min u64_max (2 ^ attempt b) in
  wrap_u64 (base b * exp).

(** [next_delay] in milliseconds; [entropy] is the clock's sub-second
    nanoseconds. *)
Definition next_delay (entropy : Z) (b : RetryBackoff) : Z * RetryBackoff :=
  let capped := Z.min (raw_delay b) (cap b) in
  let jitter_range := trunc_to u64_max (F64.mul (F64.of_Z capped) (F64.lit 1 2)) in
  let jitter := (wrap_u64 (capped * (entropy mod 1000)) mod Z.max jitter_range 1)%Z in
  let with_jitter := saturating_add_u64 (saturating_sub capped (jitter_range / 2)) jitter in
  (with_jitter, {| attempt := ((attempt b + 1) mod 2 ^ 32)%Z; base := base b; cap := cap b |}).

(** [parse_retry_after], in seconds. *)
Definition parse_retry_after (header_value : string) : option Z := parse_unsigned u64_max (trim header_value).

(** ** Lemmas on breakers *)

Lemma is_open_true_same now b : fst (is_open now b) = true -> snd (is_open now b) = b.
Proof. unfold is_open. by destruct (state b), (last_failure b) as [l|]; cbn; try destruct (_ <=? _)%Z. Qed.

Lemma is_open_false_closed now b :
  fst (is_open now b) = false -> state (snd (is_open now b)) <> BOpen.
Proof.
  unfold is_open. destruct (state b) eqn:Hs; cbn; try congruence.
  destruct (last_failure b); cbn; [|done]. by destruct (_ <=? _)%Z.
Qed.

(** The steps a breaker can take, at increasing instants. *)
Inductive breaker_step : CircuitBreaker -> CircuitBreaker -> Prop :=
| step_probe now b : breaker_step b (snd (is_open now b))
| step_success b : breaker_step b (record_success b)
| step_failure now b : breaker_step b (record_failure now b).

Record breaker_inv (threshold cooldown' : Z) (b : CircuitBreaker) : Prop := {
  bi_threshold : failure_threshold b = threshold;
  bi_cooldown : cooldown b = cooldown';
  bi_count : (0 <= failure_count b < 2 ^ 32)%Z;
  bi_last : state b <> BClosed -> is_Some (last_failure b)
}.

(** A probe leaves the breaker alone or half-opens one that failed before. *)
Lemma is_open_after now b :
  snd (is_open now b) = b \/ snd (is_open now b) = with_state BHalfOpen b /\ is_Some (last_failure b).
Proof.
  unfold is_open. destruct (state b); cbn; auto.
  destruct (last_failure b) as [l|] eqn:Hl; cbn; auto. destruct (_ <=? _)%Z; cbn; eauto.
Qed.

Lemma breaker_inv_step th cd b b' : breaker_inv th cd b -> breaker_step b b' -> breaker_inv th cd b'.
Proof.
  intros Hinv Hstep. destruct Hstep as [now b|b|now b].
  - destruct (is_open_after now b) as [->|[-> Hl]]; [done|]. by destruct Hinv.
  - destruct Hinv. by split.
  - destruct Hinv. split; cbn; [done|done|by apply Z.mod_pos_bound|intros _; by eexists].
Qed.

Definition failures (times : list Z) (b : CircuitBreaker) : CircuitBreaker :=
  foldl (fun b t => record_failure t b) b times.

Lemma failures_snoc times t b : failures (times ++ [t]) b = record_failure t (failures times b).
Proof. unfold failures. by rewrite foldl_app. Qed.

Lemma failures_closed threshold cd times :
  (0 < threshold)%Z -> (Z.of_nat (length times) < 2 ^ 32)%Z ->
  let b := failures times (CircuitBreaker_new threshold cd) in
  failure_count b = Z.of_nat (length times) /\ last_failure b = last times /\
  failure_threshold b = threshold /\ cooldown b = cd /\
  state b = if (threshold <=? Z.of_nat (length times))%Z then BOpen else BClosed.
Proof.
  intros Hth. induction times as [|t times IH] using rev_ind; intros Hlen.
  - do 4 (split; [done|]). change (BClosed = if (threshold <=? 0)%Z then BOpen else BClosed).
    by rewrite (proj2 (Z.leb_gt threshold 0)).
  - rewrite length_app in Hlen |- *. cbn [length] in Hlen |- *.
    destruct IH as (Hc & Hl & Ht & Hd & Hs); [lia|].
    rewrite failures_snoc. cbn [record_failure failure_count last_failure failure_threshold cooldown state].
    rewrite Hc, Ht, Hd, Hs, last_snoc.
    rewrite Z.mod_small by lia. replace (Z.of_nat (length times) + 1)%Z with (Z.of_nat (length times + 1)) by lia.
    do 4 (split; [done|]). destruct (Z.leb_spec threshold (Z.of_nat (length times + 1))); [done|].
    destruct (Z.leb_spec threshold (Z.of_nat (length times))); [lia|done].
Qed.

(** ** Lemmas on the router *)

Record router_wf (r : ProviderRouter) : Prop := {
  rw_breakers : length (breakers r) = length (providers r);
  rw_active : (active r < length (providers r))%nat
}.

(** A scan that starts on breakers that refuse leaves them alone, so what it
    meets at an offset is the breaker it started with. *)
Lemma scan_spec now n start offsets bs :
  (0 < n)%nat -> length bs = n ->
  match scan now n start offsets bs with
  | (None, bs') => bs' = bs /\ forall o b, o ∈ offsets -> bs !! ((start + o) mod n)%nat = Some b -> fst (is_open now b) = true
  | (Some idx, bs') => exists pre o post b, offsets = pre ++ o :: post /\ idx = ((start + o) mod n)%nat /\
      bs !! idx = Some b /\ fst (is_open now b) = false /\ bs' = <[idx := snd (is_open now b)]> bs /\
      forall o' b', o' ∈ pre -> bs !! ((start + o') mod n)%nat = Some b' -> fst (is_open now b') = true
  end.
Proof.
  intros Hn Hlen. induction offsets as [|o offsets IH]; cbn [scan].
  { split; [done|]. intros o b H. by apply elem_of_nil in H. }
  assert (Hidx : ((start + o) mod n < length bs)%nat) by (rewrite Hlen; apply Nat.mod_upper_bound; lia).
  destruct (lookup_lt_is_Some_2 bs _ Hidx) as [b Hb]. rewrite Hb.
  destruct (is_open now b) as [open b'] eqn:Ho. destruct open.
  - assert (b' = b) as -> by (pose proof (is_open_true_same now b) as Hsame; rewrite Ho in Hsame; by apply Hsame).
    rewrite list_insert_id by done.
    destruct (scan now n start offsets bs) as [[idx|] bs'].
    + destruct IH as (pre & o' & post & c & -> & ? & ? & ? & ? & Hpre).
      exists (o :: pre), o', post, c. split; [done|]. do 4 (split; [done|]).
      intros o2 b2 Hin Hb2. apply elem_of_cons in Hin as [->|Hin]; [|eauto].
      rewrite Hb in Hb2. injection Hb2 as <-. by rewrite Ho.
    + destruct IH as [-> Hall]. split; [done|]. intros o2 b2 Hin Hb2.
      apply elem_of_cons in Hin as [->|Hin]; [|eauto]. rewrite Hb in Hb2. injection Hb2 as <-. by rewrite Ho.
  - exists [], o, offsets, b. rewrite Ho. do 5 (split; [done|]). intros o' b2 H. by apply elem_of_nil in H.
Qed.

(** Every index is visited: the offsets 1..n reach all of them. *)
Lemma offset_covers n start j :
  (0 < n)%nat -> (j < n)%nat -> (start < n)%nat ->
  exists o, o ∈ seq 1 n /\ ((start + o) mod n = j)%nat.
Proof.
  intros Hn Hj Hs. destruct (decide (start < j)%nat).
  - exists (j - start)%nat. split; [apply elem_of_seq; lia|].
    replace (start + (j - start))%nat with j by lia. by apply Nat.mod_small.
  - exists (n - start + j)%nat. split; [apply elem_of_seq; lia|].
    replace (start + (n - start + j))%nat with (j + 1 * n)%nat by lia.
    rewrite Nat.Div0.mod_add. by apply Nat.mod_small.
Qed.

(** ** Lemmas on backoff *)

(** The nominal delays of the attempts 0 to 5, then the cap. *)
Lemma raw_delay_small a :
  (0 <= a <= 5)%Z -> Z.min (raw_delay {| attempt := a; base := 500; cap := 32000 |}) 32000 = (500 * 2 ^ a)%Z /\
  (500 * 2 ^ a ∈ [500; 1000; 2000; 4000; 8000; 16000])%Z.
Proof.
  intros Ha. assert (Hc : (a = 0 \/ a = 1 \/ a = 2 \/ a = 3 \/ a = 4 \/ a = 5)%Z) by lia.
  destruct Hc as [-> |[-> |[-> |[-> |[-> | ->]]]]]; (split; [done|cbn; set_solver]).
Qed.

Lemma raw_delay_capped a :
  (6 <= a <= 55)%Z -> Z.min (raw_delay {| attempt := a; base := 500; cap := 32000 |}) 32000 = 32000%Z.
Proof.
  intros Ha. unfold raw_delay, wrap_u64, u64_max. cbn [attempt base].
  assert (H1 : (2 ^ a <= 2 ^ 55)%Z) by (apply Z.pow_le_mono_r; lia).
  assert (H2 : (2 ^ 6 <= 2 ^ a)%Z) by (apply Z.pow_le_mono_r; lia).
  change (2 ^ 55)%Z with 36028797018963968%Z in H1. change (2 ^ 6)%Z with 64%Z in H2.
  change (2 ^ 64)%Z with 18446744073709551616%Z.
  rewrite (Z.min_r (18446744073709551616 - 1)) by lia. rewrite Z.mod_small by lia. lia.
Qed.

Lemma next_delay_range capped entropy b :
  (0 < capped)%Z -> Z.min (raw_delay b) (cap b) = capped ->
  trunc_to u64_max (F64.mul (F64.of_Z capped) (F64.lit 1 2)) = (capped / 2)%Z ->
  (capped <= 32000)%Z ->
  (capped - capped / 2 / 2 <= fst (next_delay entropy b) < capped - capped / 2 / 2 + Z.max (capped / 2) 1)%Z.
Proof.
  intros Hpos Hcap Hhalf Hle. unfold next_delay. rewrite Hcap, Hhalf. cbn [fst].
  unfold saturating_add_u64, saturating_sub, u64_max.
  pose proof (Z.mod_pos_bound (wrap_u64 (capped * (entropy mod 1000))) (Z.max (capped / 2) 1) ltac:(lia)) as Hj.
  set (j := (wrap_u64 _ mod _)%Z) in *.
  pose proof (Z.div_pos capped 2 ltac:(lia) ltac:(lia)).
  pose proof (Z.div_pos (capped / 2) 2 ltac:(lia) ltac:(lia)).
  pose proof (Z.div_le_upper_bound capped 2 capped ltac:(lia) ltac:(lia)).
  pose proof (Z.div_le_upper_bound (capped / 2) 2 (capped / 2) ltac:(lia) ltac:(lia)).
  change (2 ^ 64)%Z with 18446744073709551616%Z. lia.
Qed.

(** ** Properties *)

(** The breaker trips at its threshold and not before: after consecutive
    failures (fewer than 2^32) a new breaker with a positive threshold refuses
    requests exactly while their number has reached the threshold and less than
    the cooldown has passed since the last one; a request let through after the
    cooldown half-opens it, whereupon one failure reopens it and a success
    closes it with the count at zero. *)
Theorem breaker_trips_at_threshold threshold cd times last now later
    (Hth : (0 < threshold)%Z) (Hlen : (Z.of_nat (length (times ++ [last])) < 2 ^ 32)%Z) :
  let b := failures (times ++ [last]) (CircuitBreaker_new threshold cd) in
  (fst (is_open now b) = true <->
     (threshold <= Z.of_nat (length (times ++ [last])))%Z /\ (Z.max 0 (now - last) < cd)%Z) /\
  (state b = BOpen -> fst (is_open now b) = false ->
     let probed := snd (is_open now b) in
     state probed = BHalfOpen /\ state (record_failure later probed) = BOpen /\
     state (record_success probed) = BClosed /\ failure_count (record_success probed) = 0%Z).
Proof.
  intros b. destruct (failures_closed threshold cd (times ++ [last]) Hth Hlen) as (Hc & Hl & Ht & Hd & Hs).
  fold b in Hc, Hl, Ht, Hd, Hs. rewrite last_snoc in Hl.
  unfold is_open. destruct (Z.leb_spec threshold (Z.of_nat (length (times ++ [last])))) as [Hge|Hlt];
    rewrite Hs; [rewrite Hl, Hd|cbn; split; [split; [done|intros [? _]; lia]|done]].
  destruct (Z.leb_spec cd (Z.max 0 (now - last))); cbn.
  - split; [split; [done|intros [_ ?]; lia]|]. intros _ _. split; [done|]. rewrite orb_true_r. done.
  - split; [split; [intros _; split; lia|done]|done].
Qed.

Lemma breaker_trips_at_threshold_witness :
  let b := failures [10; 20; 30]%Z (CircuitBreaker_new 3 30) in
  (fst (is_open 59 b) = true) /\ fst (is_open 60 b) = false /\
  (fst (is_open 59 b) = true <-> (3 <= 3)%Z /\ (Z.max 0 (59 - 30) < 30)%Z).
Proof.
  split; [by vm_compute|]. split; [by vm_compute|].
  apply (breaker_trips_at_threshold 3 30 [10; 20]%Z 30 59 61); [lia|by vm_compute].
Defined.

(** Every reachable breaker keeps its threshold and cooldown, a 32-bit
    failure count, and the instant of its last failure whenever it is not
    closed, so an open breaker always knows when its cooldown ends. *)
Theorem breaker_reachable_inv threshold cd b
    (Hreach : rtc breaker_step (CircuitBreaker_new threshold cd) b) :
  breaker_inv threshold cd b.
Proof.
  assert (Hinit : breaker_inv threshold cd (CircuitBreaker_new threshold cd)) by by split.
  revert Hinit. induction Hreach as [|x y z Hxy _ IH]; [done|].
  intros Hx. apply IH. by eapply breaker_inv_step.
Qed.

Lemma breaker_reachable_inv_witness : breaker_inv 3 30 (record_failure 5 (CircuitBreaker_new 3 30)).
Proof.
  apply (breaker_reachable_inv 3 30). eapply rtc_l; [apply (step_failure 5)|apply rtc_refl].
Defined.

(** Failover.  After the failure of the active provider is recorded, the
    router moves to the next provider in cyclic priority order whose breaker
    admits a request, skipping only providers whose breaker refuses; when it
    reports exhaustion every breaker refuses and the active provider stays; and
    in both cases the router stays well formed. *)
Theorem try_failover_spec now failed_at r (Hwf : router_wf r) :
  let bs := alter (record_failure failed_at) (active r) (breakers r) in
  let n := length (providers r) in
  let '(ok, r') := try_failover now failed_at r in
  router_wf r' /\ providers r' = providers r /\
  (ok = true -> exists o b, (1 <= o <= n)%nat /\ active r' = ((active r + o) mod n)%nat /\
     bs !! active r' = Some b /\ fst (is_open now b) = false /\
     breakers r' = <[active r' := snd (is_open now b)]> bs /\
     forall o' b', (1 <= o' < o)%nat -> bs !! ((active r + o') mod n)%nat = Some b' -> fst (is_open now b') = true) /\
  (ok = false -> active r' = active r /\ breakers r' = bs /\
     forall j b, bs !! j = Some b -> fst (is_open now b) = true).
Proof.
  intros bs n. destruct Hwf as [Hb Ha]. fold n in Hb, Ha.
  assert (Hlen : length bs = n) by (unfold bs; by rewrite length_alter).
  pose proof (scan_spec now n (active r) (seq 1 n) bs ltac:(lia) Hlen) as Hscan.
  unfold try_failover. fold bs n. destruct (scan now n (active r) (seq 1 n) bs) as [[idx|] bs'].
  - destruct Hscan as (pre & o & post & b & Hseq & -> & Hlk & Hopen & -> & Hpre).
    assert (Ho : o ∈ seq 1 n) by (rewrite Hseq; set_solver). apply elem_of_seq in Ho.
    split; [split; cbn; [by rewrite length_insert|apply Nat.mod_upper_bound; lia]|].
    split; [done|]. split; [|done]. intros _. exists o, b.
    split; [lia|]. do 4 (split; [done|]). intros o' b' Ho' Hb'. apply (Hpre o' b'); [|done].
    assert (Hpos : seq 1 n !! length pre = Some o) by (by rewrite Hseq, list_lookup_middle).
    apply lookup_seq in Hpos as [Hpos Hlt].
    apply list_elem_of_lookup. exists (o' - 1)%nat.
    rewrite <- (lookup_app_l pre (o :: post)) by lia. rewrite <- Hseq. apply lookup_seq. lia.
  - destruct Hscan as [-> Hall]. split; [by split|]. split; [done|]. split; [done|].
    intros _. split; [done|]. split; [done|]. intros j b Hj.
    assert (Hjn : (j < n)%nat) by (rewrite <- Hlen; by apply lookup_lt_Some in Hj).
    destruct (offset_covers n (active r) j) as (o & Ho & Hoj); [lia|done|done|].
    apply (Hall o b Ho). by rewrite Hoj.
Qed.

Definition sample_router : ProviderRouter := ProviderRouter_new [(2%Z, 0%nat); (1%Z, 1%nat)].

Lemma try_failover_spec_witness :
  fst (try_failover 0 1 sample_router) = true /\ router_wf (snd (try_failover 0 1 sample_router)).
Proof.
  split; [by vm_compute|].
  assert (Hwf : router_wf sample_router) by (split; vm_compute; lia).
  pose proof (try_failover_spec 0 1 sample_router Hwf) as H.
  destruct (try_failover 0 1 sample_router) as [ok r']. apply H.
Defined.

(** Bounds of the retry delay: up to attempt 55 the delay stays within a
    quarter below and (less than) a quarter above the nominal exponential delay
    [min 32000 (500 * 2^attempt)] milliseconds, for every value of the clock,
    and the attempt counter advances by one. *)
Theorem next_delay_bounds a entropy (Ha : (0 <= a <= 55)%Z) :
  let nominal := Z.min 32000 (500 * 2 ^ a) in
  let '(d, b') := next_delay entropy {| attempt := a; base := 500; cap := 32000 |} in
  (nominal - nominal / 4 <= d < nominal - nominal / 4 + nominal / 2)%Z /\ attempt b' = (a + 1)%Z.
Proof.
  assert (Hb : attempt (snd (next_delay entropy {| attempt := a; base := 500; cap := 32000 |})) = (a + 1)%Z)
    by (cbn; apply Z.mod_small; lia).
  intros nominal.
  assert (Hnom : Z.min (raw_delay {| attempt := a; base := 500; cap := 32000 |}) 32000 = nominal /\
                 nominal ∈ [500; 1000; 2000; 4000; 8000; 16000; 32000]%Z).
  { destruct (decide (a <= 5)%Z).
    - destruct (raw_delay_small a) as [-> Hin]; [lia|].
      assert (nominal = 500 * 2 ^ a)%Z as -> by (subst nominal; set_unfold in Hin; lia).
      split; [done|]. set_unfold in Hin. set_solver.
    - rewrite raw_delay_capped by lia. assert (nominal = 32000)%Z as ->.
      { subst nominal. assert ((2 ^ 6 <= 2 ^ a)%Z) by (apply Z.pow_le_mono_r; lia).
        change (2 ^ 6)%Z with 64%Z in *. lia. }
      split; [done|]. set_solver. }
  destruct Hnom as [Hraw Hin]. clearbody nominal.
  assert (Hhalf : trunc_to u64_max (F64.mul (F64.of_Z nominal) (F64.lit 1 2)) = (nominal / 2)%Z /\
                  (0 < nominal <= 32000)%Z /\ (nominal / 2 / 2 = nominal / 4)%Z /\ Z.max (nominal / 2) 1 = (nominal / 2)%Z).
  { set_unfold in Hin.
    destruct Hin as [-> |[-> |[-> |[-> |[-> |[-> |[-> | []]]]]]]]; by vm_compute. }
  destruct Hhalf as (Hhalf & Hpos & Hq & Hmax).
  pose proof (next_delay_range nominal entropy {| attempt := a; base := 500; cap := 32000 |}
    ltac:(lia) Hraw Hhalf ltac:(lia)) as Hd.
  rewrite Hq, Hmax in Hd.
  destruct (next_delay entropy _) as [d b']. cbn in *. done.
Qed.

Lemma next_delay_bounds_witness :
  let '(d, b') := next_delay 123456789 {| attempt := 3; base := 500; cap := 32000 |} in
  (4000 - 1000 <= d < 4000 - 1000 + 2000)%Z /\ attempt b' = 4%Z.
Proof. apply (next_delay_bounds 3 123456789). lia. Defined.

(** At the attempts 62 and 63 the product wraps to zero and the retry is
    immediate. *)
Example next_delay_wraps entropy :
  fst (next_delay entropy {| attempt := 62; base := 500; cap := 32000 |}) = 0%Z /\
  fst (next_delay entropy {| attempt := 63; base := 500; cap := 32000 |}) = 0%Z.
Proof. by vm_compute. Qed.
