(* ===== verification/Provider.v ===== *)
(** * Providers: from a response body to stream chunks

    src/kernel/src/palaces/zhong_core/{mod,openai,anthropic,gemini}.rs and the
    provider errors of src/kernel/src/error.rs.

    A provider reads the bytes of an HTTP response as they come, cuts them into
    lines, parses the [data: ] lines as events and sends chunks.  The network is a
    list of what the byte stream yields; serde_json and uuid are arguments. *)

From S2P Require Export Prelude RString Utf8 Json Breaker.
From stdpp Require Import sorting.
From Stdlib Require Import Ascii.
Local Open Scope string_scope.
#[local] Arguments String.append !_ _ : simpl nomatch.

(** ** Errors *)

(** Durations are seconds. *)
Inductive ProviderError :=
| RateLimited (body : string) (retry : option Z)
| AuthFailed (status : Z)
| ServerError (status : Z) (body : string) (retry : option Z)
| ClientError (status : Z) (body : string)
| Network (e : string)
| StreamStalled
| StreamErr (e : string)
| ProviderFailed (e : string)
| ProviderCancelled.

Definition is_retryable (e : ProviderError) : bool :=
  match e with
  | RateLimited _ _ | ServerError _ _ _ | Network _ | StreamStalled | AuthFailed _ => true
  | _ => false
  end.

Definition retry_after (e : ProviderError) : option Z :=
  match e with
  | RateLimited _ r | ServerError _ _ r => r
  | _ => None
  end.

(** [Display] *)
Definition error_text (e : ProviderError) : string :=
  match e with
  | RateLimited body _ => "rate limited: " +:+ body
  | AuthFailed status => "authentication failed (HTTP " +:+ pretty status +:+ "). Check API key."
  | ServerError status body _ => "server error (HTTP " +:+ pretty status +:+ "): " +:+ body
  | ClientError status body => "client error (HTTP " +:+ pretty status +:+ "): " +:+ body
  | Network e => "network error: " +:+ e
  | StreamStalled => "stream stalled — no data for 30s"
  | StreamErr e => "stream error: " +:+ e
  | ProviderFailed e => "provider error: " +:+ e
  | ProviderCancelled => "cancelled"
  end.

(** [retry_after_header] is the header as text, when there is one and it is text. *)
Definition classify_http_error (status : Z) (body : string) (retry_after_header : option string) : ProviderError :=
  let retry := retry_after_header ≫= parse_retry_after in
  if (status =? 429)%Z then RateLimited body retry
  else if (status =? 401)%Z || (status =? 403)%Z then AuthFailed status
  else if (500 <=? status)%Z && (status <=? 599)%Z then ServerError status body retry
  else if (400 <=? status)%Z && (status <=? 499)%Z then ClientError status body
  else ProviderFailed ("HTTP " +:+ pretty status +:+ ": " +:+ body).

(** ** Chunks *)

Inductive StreamChunk :=
| Delta (text : string)
| Usage (input_tokens output_tokens : Z)
| CacheHit (input_tokens cache_read cache_creation : Z)
| NativeToolCall (id name arguments : string).

Definition Item : Type := result ProviderError StreamChunk.

Definition use_native_tools (kind : string) : bool := one_of kind ["openai"; "anthropic"; "gemini"].

(** ** The reading loop *)

(** What the byte stream yields before it ends. *)
Inductive Net := NBytes (bytes : string) | NError (e : string) | NStall.

(** What the provider does after an event: go on, return after an error, or panic
    on a missing key, which ends the task and closes the stream. *)
Inductive After (St : Type) := Go (st : St) | Return | Panic.
Arguments Go {St} st.
Arguments Return {St}.
Arguments Panic {St}.

(** The complete lines of a buffer, and what is left of it. *)
Definition cut_lines (buffer : string) : list string * string :=
  let pieces := split_char newline buffer in
  (trim <$> removelast pieces, List.last pieces "").

(** The payload of a line, if it is an event. *)
Definition data_of (line : string) : option string := strip_prefix_str line "data: ".

Section Reader.
Variable from_str : string -> option Value.
Context {St : Type}.
Variable handle : Value -> St -> list Item * After St.
Variable finish : St -> list Item.
(** Whether a silence of thirty seconds ends the stream. *)
Variable timed : bool.

Definition event_of (line : string) : option Value := data_of line ≫= from_str.

Fixpoint handle_lines (ls : list string) (st : St) : list Item * After St :=
  match ls with
  | [] => ([], Go st)
  | l :: ls' =>
      match event_of l with
      | None => handle_lines ls' st
      | Some event =>
          match handle event st with
          | (out, Go st') => let '(out', r) := handle_lines ls' st' in ((out ++ out')%list, r)
          | other => other
          end
      end
  end.

Fixpoint read_body (nets : list Net) (buffer : string) (st : St) : list Item :=
  match nets with
  | [] => finish st
  | NError e :: _ => [Err (StreamErr e)]
  | NStall :: rest => if timed then [Err StreamStalled] else read_body rest buffer st
  | NBytes b :: rest =>
      let '(ls, buffer') := cut_lines (buffer +:+ from_utf8_lossy b) in
      match handle_lines ls st with
      | (out, Go st') => (out ++ read_body rest buffer' st')%list
      | (out, _) => out
      end
  end.

End Reader.

(** ** OpenAI *)

(** [BTreeMap<usize, (String, String, String)>], ascending by index. *)
Definition Pending : Type := list (Z * (string * string * string)).

Fixpoint pending_get (k : Z) (p : Pending) : string * string * string :=
  match p with
  | [] => ("", "", "")
  | (i, e) :: p' => if (i =? k)%Z then e else pending_get k p'
  end.

Fixpoint pending_set (k : Z) (e : string * string * string) (p : Pending) : Pending :=
  match p with
  | [] => [(k, e)]
  | (i, e') :: p' =>
      if (k <? i)%Z then (k, e) :: p
      else if (i =? k)%Z then (k, e) :: p'
      else (i, e') :: pending_set k e p'
  end.

Definition call_of (e : Z * (string * string * string)) : StreamChunk :=
  let '(_, (id, name, args)) := e in NativeToolCall id name args.

(** A number in a JSON event as [usize]. *)
Definition index_of (v : Value) : Z := default 0%Z (as_u64 v).

Definition or_text (v : Value) (old : string) : string := default old (as_str v).

Section Assembler.
Variable from_str : string -> option Value.

Definition complete (args : string) : bool := is_empty_str args || bool_decide (is_Some (from_str args)).

Definition merge_fragment (tc : Value) (e : string * string * string) : string * string * string :=
  let '(id, name, args) := e in
  (or_text (index tc "id") id, or_text (index (index tc "function") "name") name,
   args +:+ or_text (index (index tc "function") "arguments") "").

Definition push_fragment (tc : Value) (pending : Pending) : list StreamChunk * Pending :=
  let idx := index_of (index tc "index") in
  let pending := pending_set idx (merge_fragment tc (pending_get idx pending)) pending in
  let sealed (e : Z * (string * string * string)) := (fst e <? idx)%Z && complete (snd (snd e)) in
  (call_of <$> List.filter sealed pending, List.filter (fun e => negb (sealed e)) pending).

Fixpoint push_fragments (tcs : list Value) (pending : Pending) : list StreamChunk * Pending :=
  match tcs with
  | [] => ([], pending)
  | tc :: rest =>
      let '(out, pending) := push_fragment tc pending in
      let '(out', pending) := push_fragments rest pending in
      ((out ++ out')%list, pending)
  end.

Definition assembler_finish (pending : Pending) : list StreamChunk * Pending := (call_of <$> pending, []).

Record OpenAiState := { oa_pending : Pending; oa_input : Z; oa_output : Z }.
Definition OpenAi_new : OpenAiState := {| oa_pending := []; oa_input := 0; oa_output := 0 |}.

Definition first_of (v : Value) : option Value := as_array v ≫= head.

(** The message of an error object: [err["message"]] on a map panics when the
    key is missing. *)
Definition error_message (err : Value) (unknown : string) : option string :=
  (fun m => default unknown (as_str m)) <$> get err "message".

Definition openai_choice (choice : Value) (pending : Pending) : list StreamChunk * Pending :=
  let text := match as_str (index (index choice "delta") "content") with Some t => [Delta t] | None => [] end in
  let '(calls, pending) :=
    match as_array (index (index choice "delta") "tool_calls") with
    | Some arr => push_fragments arr pending
    | None => ([], pending)
    end in
  let '(final, pending) :=
    if bool_decide (as_str (index choice "finish_reason") = Some "tool_calls")
    then assembler_finish pending else ([], pending) in
  ((text ++ calls ++ final)%list, pending).

Definition openai_event (event : Value) (st : OpenAiState) : list Item * After OpenAiState :=
  if is_object (index event "error") then
    match error_message (index event "error") "Unknown OpenAI error" with
    | Some msg => ([Err (ProviderFailed msg)], Return)
    | None => ([], Panic)
    end
  else
    let '(out, pending) :=
      match first_of (index event "choices") with
      | Some choice => openai_choice choice (oa_pending st)
      | None => ([], oa_pending st)
      end in
    let usage := index event "usage" in
    (Ok <$> out,
     Go {| oa_pending := pending;
           oa_input := if is_object usage then default 0%Z (as_u64 (index usage "prompt_tokens")) else oa_input st;
           oa_output := if is_object usage then default 0%Z (as_u64 (index usage "completion_tokens")) else oa_output st |}).

Definition usage_item (input output : Z) : list Item :=
  if (0 <? input)%Z || (0 <? output)%Z then [Ok (Usage input output)] else [].

Definition openai_finish (st : OpenAiState) : list Item := usage_item (oa_input st) (oa_output st).

(** The payload [[DONE]] is skipped. *)
Definition openai_from_str (data : string) : option Value :=
  if String.eqb data "[DONE]" then None else from_str data.

Definition openai_stream (nets : list Net) : list Item :=
  read_body openai_from_str openai_event openai_finish true nets "" OpenAi_new.

End Assembler.

(** ** Anthropic *)

Section Anthropic.
Variable from_str : string -> option Value.

(** [tool_use_state] by block index. *)
Record AnthropicState := {
  an_blocks : gmap Z (string * string * string);
  an_input : Z; an_output : Z; an_read : Z; an_creation : Z
}.
Definition Anthropic_new : AnthropicState :=
  {| an_blocks := ∅; an_input := 0; an_output := 0; an_read := 0; an_creation := 0 |}.

Definition with_blocks (b : gmap Z (string * string * string)) (st : AnthropicState) : AnthropicState :=
  {| an_blocks := b; an_input := an_input st; an_output := an_output st; an_read := an_read st; an_creation := an_creation st |}.

(** The shared reader; the reader of [infer_stream] is the same without the
    cache counters, with a timeout. *)
Definition anthropic_event (event : Value) (st : AnthropicState) : list Item * After AnthropicState :=
  let kind := default "" (as_str (index event "type")) in
  let idx := index_of (index event "index") in
  if String.eqb kind "message_start" then
    let usage := index (index event "message") "usage" in
    ([], Go {| an_blocks := an_blocks st;
               an_input := default (an_input st) (as_u64 (index usage "input_tokens")); an_output := an_output st;
               an_read := default (an_read st) (as_u64 (index usage "cache_read_input_tokens"));
               an_creation := default (an_creation st) (as_u64 (index usage "cache_creation_input_tokens")) |})
  else if String.eqb kind "content_block_start" then
    let cb := index event "content_block" in
    if bool_decide (as_str (index cb "type") = Some "tool_use")
    then ([], Go (with_blocks (<[idx := (or_text (index cb "id") "", or_text (index cb "name") "", "")]> (an_blocks st)) st))
    else ([], Go st)
  else if String.eqb kind "content_block_delta" then
    let delta := index event "delta" in
    let dkind := default "" (as_str (index delta "type")) in
    if String.eqb dkind "text_delta" then
      (match as_str (index delta "text") with Some t => [Ok (Delta t)] | None => [] end, Go st)
    else if String.eqb dkind "input_json_delta" then
      match an_blocks st !! idx, as_str (index delta "partial_json") with
      | Some (id, name, args), Some partial => ([], Go (with_blocks (<[idx := (id, name, args +:+ partial)]> (an_blocks st)) st))
      | _, _ => ([], Go st)
      end
    else ([], Go st)
  else if String.eqb kind "content_block_stop" then
    match an_blocks st !! idx with
    | Some (id, name, args) => ([Ok (NativeToolCall id name args)], Go (with_blocks (delete idx (an_blocks st)) st))
    | None => ([], Go st)
    end
  else if String.eqb kind "message_delta" then
    ([], Go {| an_blocks := an_blocks st; an_input := an_input st;
               an_output := default (an_output st) (as_u64 (index (index event "usage") "output_tokens"));
               an_read := an_read st; an_creation := an_creation st |})
  else if String.eqb kind "error" then
    ([Err (ProviderFailed (default "Unknown Anthropic error" (as_str (index (index event "error") "message"))))], Return)
  else ([], Go st).

Definition anthropic_finish (st : AnthropicState) : list Item :=
  if (0 <? an_read st)%Z || (0 <? an_creation st)%Z
  then [Ok (Usage (an_input st) (an_output st)); Ok (CacheHit (an_input st) (an_read st) (an_creation st))]
  else usage_item (an_input st) (an_output st).

(** The uncached path counts no cache tokens. *)
Definition anthropic_plain_finish (st : AnthropicState) : list Item := usage_item (an_input st) (an_output st).

(** [stream_anthropic_response] waits for the next bytes without a timeout;
    [infer_stream] has one. *)
Definition stream_anthropic_response (nets : list Net) : list Item :=
  read_body from_str anthropic_event anthropic_finish false nets "" Anthropic_new.
Definition anthropic_plain_stream (nets : list Net) : list Item :=
  read_body from_str anthropic_event anthropic_plain_finish true nets "" Anthropic_new.
End Anthropic.

(** ** Gemini *)

Section Gemini.
Variable from_str : string -> option Value.
Variable to_string : Value -> string.
(** The ids made so far are numbered. *)
Variable new_uuid : nat -> string.

Record GeminiState := { ge_ids : nat; ge_input : Z; ge_output : Z }.
Definition Gemini_new : GeminiState := {| ge_ids := 0; ge_input := 0; ge_output := 0 |}.

(** [fc["name"]] and [fc["args"]] index a map: a missing key panics. *)
Definition gemini_part (part : Value) (ids : nat) : list StreamChunk * option nat :=
  let text := match as_str (index part "text") with Some t => [Delta t] | None => [] end in
  let fc := index part "functionCall" in
  if is_object fc then
    match get fc "name", get fc "args" with
    | Some name, Some args => ((text ++ [NativeToolCall (new_uuid ids) (or_text name "") (to_string args)])%list, Some (S ids))
    | _, _ => (text, None)
    end
  else (text, Some ids).

Fixpoint gemini_parts (parts : list Value) (ids : nat) : list StreamChunk * option nat :=
  match parts with
  | [] => ([], Some ids)
  | p :: ps =>
      match gemini_part p ids with
      | (out, Some ids) => let '(out', r) := gemini_parts ps ids in ((out ++ out')%list, r)
      | (out, None) => (out, None)
      end
  end.

Definition gemini_event (event : Value) (st : GeminiState) : list Item * After GeminiState :=
  if is_object (index event "error") then
    match error_message (index event "error") "Unknown Gemini error" with
    | Some msg => ([Err (ProviderFailed msg)], Return)
    | None => ([], Panic)
    end
  else
    let um := index event "usageMetadata" in
    let count k old := if is_object um then default 0%Z (as_u64 (index um k)) else old in
    let input := count "promptTokenCount" (ge_input st) in
    let output := count "candidatesTokenCount" (ge_output st) in
    match first_of (index event "candidates") ≫= (fun c => as_array (index (index c "content") "parts")) with
    | None => ([], Go {| ge_ids := ge_ids st; ge_input := input; ge_output := output |})
    | Some parts =>
        let '(out, ids) := gemini_parts parts (ge_ids st) in
        (Ok <$> out, match ids with
                     | Some n => Go {| ge_ids := n; ge_input := input; ge_output := output |}
                     | None => Panic
                     end)
    end.

Definition gemini_finish (st : GeminiState) : list Item := usage_item (ge_input st) (ge_output st).
Definition gemini_stream (nets : list Net) : list Item :=
  read_body from_str gemini_event gemini_finish true nets "" Gemini_new.
End Gemini.

(** ** The request *)

Inductive Response := SendFailed (e : string) | Refused (status : Z) (body : string) (retry_header : option string)
  | Body (nets : list Net).

Definition respond (read : list Net -> list Item) (r : Response) : list Item :=
  match r with
  | SendFailed e => [Err (Network e)]
  | Refused status body h => [Err (classify_http_error status body h)]
  | Body nets => read nets
  end.

(** [run_or_cancel]: when the token fires after some sends, with the producer
    still at work, the sentinel follows them.  A producer is done as soon as it
    has sent an error: it returns without waiting again. *)
Definition run_or_cancel (cancelled_at : option nat) (items : list Item) : list Item :=
  match cancelled_at with
  | Some n =>
      if (n <=? length items)%nat && forallb is_ok (take n items)
      then (take n items ++ [Err ProviderCancelled])%list else items
  | None => items
  end.

(** * Proofs *)

(** ** Lines *)

Lemma split_char_app c a b : exists ps l, split_char c a = (ps ++ [l])%list /\
  split_char c (a +:+ b) = (ps ++ split_char c (l +:+ b))%list.
Proof.
  induction a as [|d a (ps & l & Ha & Hab)]; [by exists [], ""|].
  change (String d a +:+ b) with (String d (a +:+ b)). cbn [split_char]. destruct (Ascii.eqb c d) eqn:Hcd.
  - exists ("" :: ps), l. by rewrite Ha, Hab.
  - rewrite Ha, Hab. destruct ps as [|p ps].
    + exists [], (String d l). cbn. rewrite Hcd. split; [done|]. by destruct (split_char c (l +:+ b)).
    + by exists (String d p :: ps), l.
Qed.

Lemma last_snoc_default {A} (l : list A) x d : List.last (l ++ [x]) d = x.
Proof. apply List.last_last. Qed.

(** What was left of the buffer is cut again with the bytes that follow. *)
Lemma cut_lines_app a b :
  cut_lines (a +:+ b) =
  ((fst (cut_lines a) ++ fst (cut_lines (snd (cut_lines a) +:+ b)))%list, snd (cut_lines (snd (cut_lines a) +:+ b))).
Proof.
  destruct (split_char_app newline a b) as (ps & l & Ha & Hab). unfold cut_lines. cbn [fst snd].
  rewrite Ha, Hab, last_snoc_default, removelast_last.
  destruct (split_char newline (l +:+ b)) as [|x xs] eqn:Hx using rev_ind; [by destruct (split_char_ne newline (l +:+ b))|].
  rewrite app_assoc, removelast_last, !last_snoc_default, fmap_app, removelast_last. done.
Qed.

(** A rest of a buffer holds no line. *)
Definition no_line (buffer : string) : Prop := cut_lines buffer = ([], buffer).

Lemma split_char_no_sep c s : has_char c s = false -> split_char c s = [s].
Proof.
  induction s as [|d s IH]; [done|]. rewrite has_char_cons, orb_false_iff. intros [Hcd Hs].
  cbn. by rewrite Hcd, (IH Hs).
Qed.

Lemma split_pieces_no_sep c s : Forall (fun p => has_char c p = false) (split_char c s).
Proof.
  induction s as [|d s IH]; [by repeat constructor|]. cbn. destruct (Ascii.eqb c d) eqn:Hcd; [by constructor|].
  destruct IH as [|p ps Hp Hps]; [by repeat constructor; rewrite has_char_cons, Hcd|].
  constructor; [|done]. by rewrite has_char_cons, Hcd.
Qed.

Lemma rest_no_line a : no_line (snd (cut_lines a)).
Proof.
  unfold no_line, cut_lines. cbn [snd]. pose proof (split_pieces_no_sep newline a) as Hall.
  destruct (split_char newline a) as [|x xs] eqn:Hx using rev_ind; [by destruct (split_char_ne newline a)|].
  rewrite last_snoc_default. apply Forall_app in Hall as [_ Hx1%Forall_inv]. by rewrite split_char_no_sep.
Qed.

(** ** The reading loop *)

Section ReaderFacts.
Variable from_str : string -> option Value.
Context {St : Type}.
Variable handle : Value -> St -> list Item * After St.
Variable finish : St -> list Item.
Variable timed : bool.

Local Abbreviation handle_lines := (handle_lines from_str handle).
Local Abbreviation read_body := (read_body from_str handle finish timed).

Lemma handle_lines_app l1 l2 st :
  handle_lines (l1 ++ l2)%list st =
  match handle_lines l1 st with
  | (out, Go st') => let '(out', r) := handle_lines l2 st' in ((out ++ out')%list, r)
  | other => other
  end.
Proof.
  revert st. induction l1 as [|l l1 IH]; intros st; cbn; [by destruct (handle_lines l2 st)|].
  destruct (event_of from_str l); [|apply IH]. destruct (handle v st) as [out [st'| |]]; [|done..].
  rewrite IH. destruct (handle_lines l1 st') as [out1 [st1| |]]; [|done..].
  destruct (handle_lines l2 st1) as [out2 r]. by rewrite app_assoc.
Qed.

(** Two chunks of text in a row are read as one. *)
Lemma read_two a b nets buffer st : is_utf8 a = true -> is_utf8 b = true ->
  read_body (NBytes a :: NBytes b :: nets) buffer st = read_body (NBytes (a +:+ b) :: nets) buffer st.
Proof.
  intros Ha Hb. cbn [Provider.read_body]. rewrite !lossy_utf8 by (done || by apply is_utf8_app).
  rewrite <- (app_assoc_str buffer a b), (cut_lines_app (buffer +:+ a) b).
  destruct (cut_lines (buffer +:+ a)) as [ls1 r1]. cbn [fst snd].
  destruct (cut_lines (r1 +:+ b)) as [ls2 r2]. cbn [fst snd]. rewrite handle_lines_app.
  destruct (handle_lines ls1 st) as [out1 [st1| |]]; [|done..].
  destruct (handle_lines ls2 st1) as [out2 [st2| |]]; [|done..]. by rewrite app_assoc.
Qed.

Lemma read_empty nets buffer st : no_line buffer -> read_body (NBytes "" :: nets) buffer st = read_body nets buffer st.
Proof. intros Hb. cbn [Provider.read_body]. change (from_utf8_lossy "") with "". rewrite app_nil_r_str, Hb. done. Qed.

Lemma read_concat_cons b bs nets buffer st : is_utf8 b = true -> Forall (fun b => is_utf8 b = true) bs ->
  read_body (NBytes b :: (NBytes <$> bs) ++ nets)%list buffer st = read_body (NBytes (b +:+ concat_str bs) :: nets) buffer st.
Proof.
  intros Hb Hall. revert b Hb. induction Hall as [|b' bs Hb' _ IH]; intros b Hb; [by rewrite app_nil_r_str|].
  cbn [fmap list_fmap app]. rewrite read_two, IH by (done || by apply is_utf8_app).
  change (concat_str (b' :: bs)) with (b' +:+ concat_str bs). by rewrite app_assoc_str.
Qed.

Lemma read_concat bs nets buffer st : no_line buffer -> Forall (fun b => is_utf8 b = true) bs ->
  read_body ((NBytes <$> bs) ++ nets)%list buffer st = read_body (NBytes (concat_str bs) :: nets) buffer st.
Proof.
  intros Hb Hall. destruct Hall as [|b bs Hu Hall]; [by rewrite read_empty|]. by apply read_concat_cons.
Qed.

(** Errors end what is sent, when the events keep to that. *)
Definition error_last (items : list Item) : Prop :=
  forall pre e post, items = (pre ++ Err e :: post)%list -> post = [].

Lemma error_last_oks (items : list Item) (last : list Item) :
  Forall (fun i => is_ok i = true) items -> error_last last -> error_last (items ++ last)%list.
Proof.
  intros Hall Hl. induction Hall as [|i items Hi _ IH]; [done|]. intros pre e post He.
  destruct pre as [|p pre]; injection He as -> He; [done|]. by apply (IH pre e post).
Qed.

Hypothesis Hevent : forall event st out r, handle event st = (out, r) ->
  error_last out /\ (forall st', r = Go st' -> Forall (fun i => is_ok i = true) out).
Hypothesis Hfinish : forall st, Forall (fun i => is_ok i = true) (finish st).

Lemma handle_lines_errors ls st out r : handle_lines ls st = (out, r) ->
  error_last out /\ (forall st', r = Go st' -> Forall (fun i => is_ok i = true) out).
Proof.
  revert st out r. induction ls as [|l ls IH]; intros st out r; cbn.
  - intros [= <- <-]. split; [|done]. by intros [].
  - destruct (event_of from_str l) as [event|]; [|apply IH]. destruct (handle event st) as [out1 r1] eqn:Hh.
    destruct (Hevent _ _ _ _ Hh) as [Hl Hgo]. destruct r1 as [st1| |].
    + destruct (handle_lines ls st1) as [out2 r2] eqn:Hrest. intros [= <- <-]. destruct (IH _ _ _ Hrest) as [Hl2 Hgo2].
      specialize (Hgo st1 eq_refl). split; [by apply error_last_oks|]. intros st' ->. apply Forall_app. eauto.
    + intros [= <- <-]. split; [done|discriminate].
    + intros [= <- <-]. split; [done|discriminate].
Qed.

Lemma single_error_last e : error_last [Err e].
Proof. intros [|p pre] e' post He; injection He; [auto|]. intros Hx _. by destruct pre. Qed.

Lemma oks_error_last items : Forall (fun i => is_ok i = true) items -> error_last items.
Proof. intros H. rewrite <- (app_nil_r items). apply error_last_oks; [done|]. by intros []. Qed.

Lemma read_body_errors nets buffer st : error_last (read_body nets buffer st).
Proof.
  revert buffer st. induction nets as [|[b|e|] nets IH]; intros buffer st; cbn [Provider.read_body].
  - by apply oks_error_last.
  - destruct (cut_lines (buffer +:+ from_utf8_lossy b)) as [ls r1]. destruct (handle_lines ls st) as [out r] eqn:Hh.
    destruct (handle_lines_errors _ _ _ _ Hh) as [Hl Hgo]. destruct r; [|exact Hl..]. apply error_last_oks; [by eapply Hgo|apply IH].
  - apply single_error_last.
  - destruct timed; [apply single_error_last|apply IH].
Qed.

End ReaderFacts.

(** ** The providers *)

Lemma oks_ok {A} (l : list A) : Forall (fun i : result ProviderError A => is_ok i = true) (Ok <$> l).
Proof. apply Forall_fmap. by apply Forall_true. Qed.

Lemma usage_ok i o : Forall (fun x => is_ok x = true) (usage_item i o).
Proof. unfold usage_item. destruct (_ || _); by repeat constructor. Qed.

Lemma openai_event_errors from_str event st out r : openai_event from_str event st = (out, r) ->
  error_last out /\ (forall st', r = Go st' -> Forall (fun i => is_ok i = true) out).
Proof.
  unfold openai_event. destruct (is_object (index event "error")).
  - destruct (error_message _ _); intros [= <- <-]; (split; [|discriminate]); [apply single_error_last|by intros []].
  - destruct (match first_of _ with Some _ => _ | None => _ end) as [chunks pending]. intros [= <- <-].
    split; [apply oks_error_last|intros _ _]; apply oks_ok.
Qed.

Lemma gemini_event_errors to_string new_uuid event st out r : gemini_event to_string new_uuid event st = (out, r) ->
  error_last out /\ (forall st', r = Go st' -> Forall (fun i => is_ok i = true) out).
Proof.
  unfold gemini_event. destruct (is_object (index event "error")).
  - destruct (error_message _ _); intros [= <- <-]; (split; [|discriminate]); [apply single_error_last|by intros []].
  - destruct (first_of _ ≫= _) as [parts|].
    + destruct (gemini_parts _ _ _ _) as [chunks ids]. intros [= <- <-].
      split; [apply oks_error_last|intros _ _]; apply oks_ok.
    + intros [= <- <-]. split; [by intros []|by constructor].
Qed.

Lemma anthropic_event_errors event st out r : anthropic_event event st = (out, r) ->
  error_last out /\ (forall st', r = Go st' -> Forall (fun i => is_ok i = true) out).
Proof.
  unfold anthropic_event.
  repeat match goal with
  | |- context [if ?b then _ else _] => destruct b
  | |- context [match ?x with _ => _ end] => destruct x
  end; intros [= <- <-]; (split; [try apply single_error_last; apply oks_error_last|]); try discriminate; by repeat constructor.
Qed.

(** The four readers of a body. *)
Inductive provider_reader (from_str : string -> option Value) (to_string : Value -> string) (new_uuid : nat -> string) :
    (list Net -> list Item) -> Prop :=
| openai_reader : provider_reader from_str to_string new_uuid (openai_stream from_str)
| anthropic_reader : provider_reader from_str to_string new_uuid (stream_anthropic_response from_str)
| anthropic_plain_reader : provider_reader from_str to_string new_uuid (anthropic_plain_stream from_str)
| gemini_reader : provider_reader from_str to_string new_uuid (gemini_stream from_str to_string new_uuid).

(** [C36] Whatever provider: how the network cuts a response into chunks does not
    matter as long as it never cuts inside a character; and whatever the response
    and whenever it is cancelled, at most one error is sent and nothing after it. *)
Theorem provider_stream_spec from_str to_string new_uuid read (Hread : provider_reader from_str to_string new_uuid read) :
  (forall bs bs' nets, Forall (fun b => is_utf8 b = true) bs -> Forall (fun b => is_utf8 b = true) bs' ->
     concat_str bs = concat_str bs' ->
     read ((NBytes <$> bs) ++ nets)%list = read ((NBytes <$> bs') ++ nets)%list) /\
  (forall response cancelled_at, error_last (run_or_cancel cancelled_at (respond read response))).
Proof.
  split.
  - intros bs bs' nets Hb Hb' He.
    destruct Hread; unfold openai_stream, stream_anthropic_response, anthropic_plain_stream, gemini_stream;
      rewrite !read_concat by done; by rewrite He.
  - intros response at_n. assert (Hl : error_last (respond read response)).
    { destruct response as [e|status body h|nets]; [apply single_error_last..|]. cbn.
      destruct Hread; (eapply read_body_errors;
        [intros event st out r; first [apply openai_event_errors|apply anthropic_event_errors|apply gemini_event_errors]|]);
        intros st; unfold openai_finish, anthropic_finish, anthropic_plain_finish, gemini_finish;
        repeat case_match; try apply usage_ok; by repeat constructor. }
    destruct at_n as [n|]; [|exact Hl]. unfold run_or_cancel.
    generalize dependent (respond read response). intros items Hl.
    destruct ((n <=? length items)%nat && forallb is_ok (take n items)) eqn:Hc; [|exact Hl].
    apply andb_true_iff in Hc as [_ Hok]. apply error_last_oks; [|apply single_error_last].
    rewrite forallb_forall in Hok. apply Forall_forall. intros i Hi. apply Hok. by apply list_elem_of_In.
Qed.

(** ** Assembling tool calls *)

Section AssemblerFacts.
Variable from_str : string -> option Value.

(** The fragments of one call, and the call they make up. *)
Record Group := { g_index : Z; g_fragments : list Value }.
Definition group_wf (g : Group) : Prop :=
  g_fragments g <> [] /\ Forall (fun tc => index_of (index tc "index") = g_index g) (g_fragments g).
Definition assembled (g : Group) : Z * (string * string * string) :=
  (g_index g, foldl (fun e tc => merge_fragment tc e) ("", "", "") (g_fragments g)).
Definition done (e : Z * (string * string * string)) : bool := complete from_str (snd (snd e)).

Definition keys_below (k : Z) (p : Pending) : Prop := Forall (fun e => (fst e < k)%Z) p.

Lemma pending_set_new k e p : keys_below k p -> pending_set k e p = (p ++ [(k, e)])%list.
Proof.
  intros Hp. induction Hp as [|[i e'] p Hi _ IH]; [reflexivity|]. cbn in *.
  rewrite (proj2 (Z.ltb_ge k i)), (proj2 (Z.eqb_neq i k)), IH by lia. reflexivity.
Qed.

Lemma pending_get_new k p : keys_below k p -> pending_get k p = ("", "", "").
Proof.
  intros Hp. induction Hp as [|[i e'] p Hi _ IH]; [reflexivity|]. cbn in *. by rewrite (proj2 (Z.eqb_neq i k)) by lia.
Qed.

Lemma pending_set_last k e e' p : keys_below k p -> pending_set k e (p ++ [(k, e')])%list = (p ++ [(k, e)])%list.
Proof.
  intros Hp. induction Hp as [|[i e0] p Hi _ IH]; cbn in *.
  - by rewrite Z.ltb_irrefl, Z.eqb_refl.
  - rewrite (proj2 (Z.ltb_ge k i)), (proj2 (Z.eqb_neq i k)), IH by lia. reflexivity.
Qed.

Lemma pending_get_last k e p : keys_below k p -> pending_get k (p ++ [(k, e)])%list = e.
Proof.
  intros Hp. induction Hp as [|[i e0] p Hi _ IH]; cbn in *; [by rewrite Z.eqb_refl|].
  by rewrite (proj2 (Z.eqb_neq i k)) by lia.
Qed.

(** Below the index of the fragment just the complete calls are sealed. *)
Lemma sealed_below k e p : keys_below k p ->
  List.filter (fun x => (fst x <? k)%Z && complete from_str (snd (snd x))) (p ++ [(k, e)])%list = List.filter done p /\
  List.filter (fun x => negb ((fst x <? k)%Z && complete from_str (snd (snd x)))) (p ++ [(k, e)])%list =
    (List.filter (fun x => negb (done x)) p ++ [(k, e)])%list.
Proof.
  intros Hp. rewrite !List.filter_app. cbn [List.filter fst]. rewrite Z.ltb_irrefl. cbn [andb negb].
  rewrite app_nil_r. induction Hp as [|x p Hx _ [IH1 IH2]]; [split; reflexivity|]. cbn [List.filter].
  rewrite (proj2 (Z.ltb_lt _ _) Hx). fold (done x). destruct (done x); cbn [negb andb app]; split; congruence.
Qed.

Lemma push_first tc p : keys_below (index_of (index tc "index")) p ->
  push_fragment from_str tc p =
  (call_of <$> List.filter done p,
   (List.filter (fun x => negb (done x)) p ++ [(index_of (index tc "index"), merge_fragment tc ("", "", ""))])%list).
Proof.
  intros Hp. unfold push_fragment. rewrite pending_get_new, pending_set_new by assumption.
  by destruct (sealed_below (index_of (index tc "index")) (merge_fragment tc ("", "", "")) p Hp) as [-> ->].
Qed.

Lemma filter_every {A} (f : A -> bool) l : Forall (fun x => f x = true) l -> List.filter f l = l.
Proof. intros H. induction H as [|x l Hx _ IH]; [reflexivity|]. cbn. by rewrite Hx, IH. Qed.
Lemma filter_nothing {A} (f : A -> bool) l : Forall (fun x => f x = false) l -> List.filter f l = [].
Proof. intros H. induction H as [|x l Hx _ IH]; [reflexivity|]. cbn. by rewrite Hx, IH. Qed.

Lemma push_more k tcs p e : keys_below k p -> Forall (fun x => done x = false) p ->
  Forall (fun tc => index_of (index tc "index") = k) tcs ->
  push_fragments from_str tcs (p ++ [(k, e)])%list = ([], (p ++ [(k, foldl (fun e tc => merge_fragment tc e) e tcs)])%list).
Proof.
  intros Hp Hw Htcs. revert e. induction Htcs as [|tc tcs Htc _ IH]; intros e; [reflexivity|].
  cbn [push_fragments]. unfold push_fragment. rewrite Htc, pending_get_last, pending_set_last by assumption.
  destruct (sealed_below k (merge_fragment tc e) p Hp) as [-> ->].
  rewrite (filter_nothing done) by assumption.
  rewrite filter_every by (eapply Forall_impl; [exact Hw|]; intros x ->; reflexivity).
  rewrite IH. reflexivity.
Qed.

Lemma push_group g p : group_wf g -> keys_below (g_index g) p ->
  push_fragments from_str (g_fragments g) p =
  (call_of <$> List.filter done p, (List.filter (fun x => negb (done x)) p ++ [assembled g])%list).
Proof.
  intros [Hne Hall] Hp. unfold assembled. destruct Hall as [|tc tcs Htc Hall]; [contradiction|].
  cbn [push_fragments]. rewrite push_first, Htc by (by rewrite Htc). rewrite push_more; [by rewrite app_nil_r| | |assumption].
  - apply Forall_forall. intros x Hx. apply list_elem_of_In, List.filter_In in Hx as [Hx _].
    unfold keys_below in Hp. rewrite Forall_forall in Hp. by apply Hp, list_elem_of_In.
  - apply Forall_forall. intros x Hx. apply list_elem_of_In, List.filter_In in Hx as [_ Hx]. by apply negb_true_iff.
Qed.

Lemma push_fragments_app a b p :
  push_fragments from_str (a ++ b)%list p =
  (let '(o1, p1) := push_fragments from_str a p in
   let '(o2, p2) := push_fragments from_str b p1 in ((o1 ++ o2)%list, p2)).
Proof.
  revert p. induction a as [|tc a IH]; intros p; cbn [app push_fragments]; [by destruct (push_fragments from_str b p)|].
  destruct (push_fragment from_str tc p) as [o p1]. rewrite IH.
  destruct (push_fragments from_str a p1) as [o1 p2]. destruct (push_fragments from_str b p2) as [o2 p3].
  by rewrite app_assoc.
Qed.

Lemma filter_split {A} (f : A -> bool) l : l ≡ₚ (List.filter f l ++ List.filter (fun x => negb (f x)) l)%list.
Proof.
  induction l as [|x l IH]; [reflexivity|]. cbn. destruct (f x); cbn; rewrite <- ?Permutation_middle; by rewrite <- IH.
Qed.

Lemma push_groups gs p :
  Forall group_wf gs -> StronglySorted Z.lt (g_index <$> gs) -> (forall g, g ∈ gs -> keys_below (g_index g) p) ->
  exists out p', push_fragments from_str (concat (g_fragments <$> gs)) p = (call_of <$> out, p') /\
    (out ++ p')%list ≡ₚ (p ++ (assembled <$> gs))%list /\
    (Forall (fun x => done x = true) (removelast (p ++ (assembled <$> gs))%list) -> length p <= 1 ->
     (out ++ p')%list = (p ++ (assembled <$> gs))%list /\ length p' <= 1).
Proof.
  revert p. induction gs as [|g gs IH]; intros p Hwf Hsort Hkeys.
  { exists [], p. cbn. rewrite app_nil_r. auto. }
  apply Forall_cons in Hwf as [Hg Hwf]. cbn [fmap list_fmap] in Hsort. apply StronglySorted_inv in Hsort as [Hsort Hlt].
  cbn [fmap list_fmap concat]. rewrite push_fragments_app, push_group by (auto; apply Hkeys; set_solver).
  destruct (IH (List.filter (fun x => negb (done x)) p ++ [assembled g])%list Hwf Hsort) as (out & p' & -> & Hperm & Hord).
  { intros g' Hg'. assert (Hgg : (g_index g < g_index g')%Z).
    { rewrite Forall_forall in Hlt. apply Hlt. by apply list_elem_of_fmap_2. }
    apply Forall_app. split; [|by repeat constructor].
    apply Forall_forall. intros x Hx. apply list_elem_of_In, List.filter_In in Hx as [Hx _].
    specialize (Hkeys g' ltac:(set_solver)). unfold keys_below in Hkeys. rewrite Forall_forall in Hkeys.
    by apply Hkeys, list_elem_of_In. }
  exists (List.filter done p ++ out)%list, p'. rewrite fmap_app. split_and!; [reflexivity| |].
  - rewrite <- app_assoc, Hperm. rewrite (filter_split done p) at 3. by rewrite <- !app_assoc.
  - intros Hall Hp. cbn [fmap list_fmap] in Hall.
    assert (Hdone : Forall (fun x => done x = true) p).
    { destruct p as [|x [|y p]]; [constructor| |cbn in Hp; lia]. cbn in Hall. by apply Forall_inv in Hall; repeat constructor. }
    rewrite (filter_every done p Hdone) in *. rewrite (filter_nothing (fun x => negb (done x)) p) in *
      by (eapply Forall_impl; [exact Hdone|]; intros x ->; reflexivity).
    destruct Hord as [Heq Hlen]; [|cbn; lia|].
    + destruct p as [|x [|y p]]; [exact Hall|by apply Forall_cons in Hall as [_ ?]|cbn in Hp; lia].
    + split; [|assumption]. by rewrite <- app_assoc, Heq.
Qed.

(** Tool calls streamed in fragments: for calls sent one after the other,
    with ascending indices, every call comes out exactly once, with its id, name
    and concatenated arguments, whatever the arguments are; and when each call
    but the last has arguments that parse when the next begins, all of these come
    out before the end and in order. *)
Theorem assembler_spec gs
    (Hwf : Forall group_wf gs) (Hsort : StronglySorted Z.lt (g_index <$> gs)) :
  let '(out, pending) := push_fragments from_str (concat (g_fragments <$> gs)) [] in
  let '(rest, empty) := assembler_finish pending in
  empty = [] /\ (out ++ rest)%list ≡ₚ call_of <$> (assembled <$> gs) /\
  (Forall (fun x => complete from_str (snd (snd x)) = true) (removelast (assembled <$> gs)) ->
   (out ++ rest)%list = call_of <$> (assembled <$> gs) /\ (length rest <= 1)%nat).
Proof.
  destruct (push_groups gs [] Hwf Hsort) as (out & p' & -> & Hperm & Hord); [intros; constructor|].
  cbn [assembler_finish app] in *. split_and!; [reflexivity| |].
  - by rewrite <- fmap_app, Hperm.
  - intros Hall. destruct (Hord Hall) as [Heq Hlen]; [cbn; lia|]. rewrite <- fmap_app, Heq, length_fmap. auto.
Qed.

End AssemblerFacts.

(** ** Witnesses and examples *)

(** A parser for the examples: the payload as the text of a delta. *)
Definition text_event (s : string) : Value := Obj [("choices", Arr [Obj [("delta", Obj [("content", Str s)])]])].
Definition parse_text (s : string) : option Value := Some (text_event s).

Definition e_acute_start : string := String (ascii_of_nat 195) "".
Definition e_acute_end : string := String (ascii_of_nat 169) "".

Lemma provider_stream_spec_witness :
  openai_stream parse_text (NBytes <$> ["da"; "ta: h"; "i" +:+ nl]) = openai_stream parse_text (NBytes <$> ["data: hi" +:+ nl]) /\
  error_last (run_or_cancel (Some 1) (openai_stream parse_text (NBytes <$> ["data: hi" +:+ nl]))).
Proof.
  destruct (provider_stream_spec parse_text (fun _ => "") (fun _ => "") (openai_stream parse_text) (openai_reader _ _ _))
    as [Hchunks Herr].
  split.
  - specialize (Hchunks ["da"; "ta: h"; "i" +:+ nl] ["data: hi" +:+ nl] []). rewrite !app_nil_r in Hchunks.
    apply Hchunks; [repeat constructor..|reflexivity].
  - apply (Herr (Body (NBytes <$> ["data: hi" +:+ nl])) (Some 1)).
Defined.

Definition fragment (idx : Z) (id name args : string) : Value :=
  Obj [("index", Num (PosInt idx)); ("id", Str id); ("function", Obj [("arguments", Str args); ("name", Str name)])].
Definition two_calls : list Group :=
  [{| g_index := 0; g_fragments := [fragment 0 "a" "read_file" "{"; fragment 0 "a" "read_file" "}"] |};
   {| g_index := 1; g_fragments := [fragment 1 "b" "grep" "{}"] |}].

Lemma assembler_spec_witness :
  fst (push_fragments parse_text (concat (g_fragments <$> two_calls)) []) = [NativeToolCall "a" "read_file" "{}"] /\
  (let '(out, pending) := push_fragments parse_text (concat (g_fragments <$> two_calls)) [] in
   let '(rest, _) := assembler_finish pending in
   (out ++ rest)%list = [NativeToolCall "a" "read_file" "{}"; NativeToolCall "b" "grep" "{}"]).
Proof.
  split; [reflexivity|].
  assert (Hw : Forall group_wf two_calls) by (repeat constructor; discriminate).
  assert (Hs : StronglySorted Z.lt (g_index <$> two_calls)) by (repeat constructor; lia).
  pose proof (assembler_spec parse_text two_calls Hw Hs) as H.
  destruct (push_fragments _ _ _) as [out pending]. destruct (assembler_finish pending) as [rest p0].
  destruct H as (_ & _ & H). destruct H as [-> _]; [repeat constructor|reflexivity].
Defined.

(** A chunk that ends inside a character garbles it: each half becomes U+FFFD. *)
Example chunk_splits_character :
  openai_stream parse_text (NBytes <$> ["data: " +:+ e_acute_start; e_acute_end +:+ nl]) =
    [Ok (Delta (replacement_char +:+ replacement_char))] /\
  openai_stream parse_text (NBytes <$> ["data: " +:+ e_acute_start +:+ e_acute_end +:+ nl]) =
    [Ok (Delta (e_acute_start +:+ e_acute_end))].
Proof. vm_compute. auto. Qed.

(** A call pending when the choice finishes with any other reason never comes out. *)
Definition finish_with (reason : string) : Value :=
  Obj [("choices", Arr [Obj [("delta", Obj [("tool_calls", Arr [fragment 0 "a" "grep" "{}"])]);
                             ("finish_reason", Str reason)]])].
Example stop_drops_pending_call :
  openai_stream (fun _ => Some (finish_with "stop")) [NBytes ("data: x" +:+ nl)] = [] /\
  openai_stream (fun _ => Some (finish_with "tool_calls")) [NBytes ("data: x" +:+ nl)] =
    [Ok (NativeToolCall "a" "grep" "{}")].
Proof. vm_compute. auto. Qed.

(** A function call without arguments panics: the call and all that follows are
    lost, and the stream ends as if complete. *)
Definition call_without_args : Value :=
  Obj [("candidates", Arr [Obj [("content", Obj [("parts", Arr [
    Obj [("functionCall", Obj [("name", Str "list_tasks")])]; Obj [("text", Str "done")]])])]])].
Example gemini_call_without_args :
  gemini_stream (fun _ => Some call_without_args) (fun _ => "{}") (fun _ => "id")
    (NBytes <$> ["data: x" +:+ nl; "data: x" +:+ nl]) = [].
Proof. vm_compute. reflexivity. Qed.

(** Silence ends the uncached reader, not the one the loop uses. *)
Example cached_reader_waits :
  anthropic_plain_stream (fun _ => None) [NStall] = [Err StreamStalled] /\
  stream_anthropic_response (fun _ => None) [NStall] = [].
Proof. vm_compute. auto. Qed.
