(* ===== verification/SessionBus.v ===== *)
(** * The session bus

    src/kernel/src/plates/ren_human/session_bus.rs: the steer queues, the
    completion criteria and the approval memories, per session.  Each method
    holds its table's lock for its whole body, so an operation is one step. *)

From S2P Require Export Prelude RString.

Inductive SteerPriority := Now | Next | Later.

Record SteerMessage := { content : string; priority : SteerPriority }.

Record Criterion := { text : string; checked : bool }.

Record SessionBus := {
  bus_approvals : gmap string (gset string);
  steer_queues : gmap string (list SteerMessage);
  completion_criteria : gmap string (list Criterion)
}.

Definition SessionBus_new : SessionBus :=
  {| bus_approvals := ∅; steer_queues := ∅; completion_criteria := ∅ |}.

Definition set_queues (q : gmap string (list SteerMessage)) (b : SessionBus) : SessionBus :=
  {| bus_approvals := bus_approvals b; steer_queues := q; completion_criteria := completion_criteria b |}.
Definition set_criteria_map (c : gmap string (list Criterion)) (b : SessionBus) : SessionBus :=
  {| bus_approvals := bus_approvals b; steer_queues := steer_queues b; completion_criteria := c |}.

Definition clear_session_approvals (s : string) (b : SessionBus) : SessionBus :=
  {| bus_approvals := delete s (bus_approvals b); steer_queues := steer_queues b;
     completion_criteria := completion_criteria b |}.

Definition clear_criteria (s : string) (b : SessionBus) : SessionBus :=
  set_criteria_map (delete s (completion_criteria b)) b.

Definition push_steer (s : string) (m : SteerMessage) (b : SessionBus) : SessionBus :=
  set_queues (<[s := default [] (steer_queues b !! s) ++ [m]]> (steer_queues b)) b.

(** [drain_steer]: the messages taken, and the bus without the queue. *)
Definition drain_steer (s : string) (b : SessionBus) : list SteerMessage * SessionBus :=
  match steer_queues b !! s with
  | None => ([], b)
  | Some queue => (queue, set_queues (delete s (steer_queues b)) b)
  end.

(** [VecDeque::insert(i, msg)] for [i] at most the length. *)
Definition insert_at {A} (i : nat) (x : A) (l : list A) : list A := take i l ++ x :: drop i l.

Fixpoint insert_each (i : nat) (msgs queue : list SteerMessage) : list SteerMessage :=
  match msgs with
  | [] => queue
  | m :: rest => insert_each (S i) rest (insert_at i m queue)
  end.

Definition requeue_steer (s : string) (msgs : list SteerMessage) (b : SessionBus) : SessionBus :=
  match msgs with
  | [] => b
  | _ => set_queues (<[s := insert_each 0 msgs (default [] (steer_queues b !! s))]> (steer_queues b)) b
  end.

Definition set_criteria (s : string) (criteria : list string) (b : SessionBus) : SessionBus :=
  set_criteria_map
    (<[s := (fun t => {| text := t; checked := false |}) <$> criteria]> (completion_criteria b)) b.

Definition count_unchecked (l : list Criterion) : nat := length (List.filter (fun c => negb (checked c)) l).

Definition check_off (c : Criterion) : Criterion := {| text := text c; checked := true |}.

Section Check.
(** The Unicode lower-casing of the standard library. *)
Context (to_lowercase : string -> string).

Definition exact_match (t : string) (c : Criterion) : bool := negb (checked c) && String.eqb (text c) t.
Definition loose_match (t : string) (c : Criterion) : bool :=
  negb (checked c) && contains_str (to_lowercase (text c)) (to_lowercase t).

(** The criterion [check_criterion] picks. *)
Definition find_criterion (t : string) (l : list Criterion) : option nat :=
  match position (exact_match t) l with
  | Some i => Some i
  | None => position (loose_match t) l
  end.

Definition check_criterion (s t : string) (b : SessionBus) : result string nat * SessionBus :=
  match completion_criteria b !! s with
  | None => (Err "No completion criteria set for this session", b)
  | Some l =>
      match find_criterion t l with
      | Some i =>
          let l' := alter check_off i l in
          (Ok (count_unchecked l'), set_criteria_map (<[s := l']> (completion_criteria b)) b)
      | None => (Err ("No unchecked criterion matching '" +:+ t +:+ "'"), b)
      end
  end.
End Check.

Definition unchecked_criteria (s : string) (b : SessionBus) : list string :=
  match completion_criteria b !! s with
  | Some l => map text (List.filter (fun c => negb (checked c)) l)
  | None => []
  end.

(** ** The abstract queue of a session *)

Definition queue_of (s : string) (b : SessionBus) : list SteerMessage := default [] (steer_queues b !! s).

Lemma insert_each_app i msgs queue pre :
  length pre = i -> insert_each i msgs (pre ++ queue) = pre ++ msgs ++ queue.
Proof.
  revert i pre. induction msgs as [|m msgs IH]; intros i pre Hlen; cbn; [done|].
  unfold insert_at. rewrite take_app_length' by done. rewrite drop_app_length' by done.
  replace (pre ++ m :: queue) with ((pre ++ [m]) ++ queue) by (by rewrite <- app_assoc).
  rewrite IH by (rewrite length_app; cbn; lia). by rewrite <- app_assoc.
Qed.

Lemma queue_of_insert s s' q b :
  queue_of s' (set_queues (<[s := q]> (steer_queues b)) b) = if decide (s' = s) then q else queue_of s' b.
Proof.
  unfold queue_of. cbn. destruct (decide (s' = s)) as [->|Hne].
  - by rewrite lookup_insert_eq.
  - by rewrite lookup_insert_ne.
Qed.

(** A position is found in range, at a criterion not yet checked. *)
Lemma find_criterion_Some low t l i :
  find_criterion low t l = Some i ->
  exists c, l !! i = Some c /\ checked c = false /\
    (text c = t \/ (contains_str (low (text c)) (low t) = true /\ forall c', c' ∈ l -> checked c' = false -> text c' <> t)).
Proof.
  unfold find_criterion. destruct (position (exact_match t) l) as [j|] eqn:He.
  - intros [= <-]. apply position_Some in He as (l1 & c & l2 & -> & <- & Hc & _).
    exists c. rewrite list_lookup_middle by done. unfold exact_match in Hc. bool_to_prop.
    apply String.eqb_eq in H0. auto.
  - intros Hl. apply position_Some in Hl as (l1 & c & l2 & -> & <- & Hc & _).
    exists c. rewrite list_lookup_middle by done. unfold loose_match in Hc. bool_to_prop.
    split; [done|]. split; [done|]. right. split; [done|].
    apply position_None in He. rewrite Forall_forall in He. intros c' Hin Hch Ht.
    specialize (He c' Hin). unfold exact_match in He. by rewrite Hch, Ht, String.eqb_refl in He.
Qed.

Lemma count_unchecked_app l1 l2 : count_unchecked (l1 ++ l2) = (count_unchecked l1 + count_unchecked l2)%nat.
Proof. unfold count_unchecked. by rewrite List.filter_app, length_app. Qed.

Lemma count_check_off l i c :
  l !! i = Some c -> checked c = false -> S (count_unchecked (alter check_off i l)) = count_unchecked l.
Proof.
  intros Hi Hc. rewrite <- (take_drop_middle l i c Hi) at 2.
  assert (Hlt : (i < length l)%nat) by (by apply lookup_lt_Some in Hi).
  rewrite <- (take_drop_middle (alter check_off i l) i (check_off c)) by (by rewrite list_lookup_alter_eq, Hi).
  rewrite take_alter_ge, drop_alter_lt by lia. rewrite !count_unchecked_app.
  unfold count_unchecked at 2 4. cbn. rewrite Hc. cbn. lia.
Qed.

(** ** Properties *)

(** Steering refines a FIFO queue per session.  A pushed message goes to
    the end of its session's queue; a drain returns the whole queue in arrival
    order and leaves it empty; what a checkpoint puts back comes before
    everything that arrived meanwhile, in its old order; and no operation
    touches another session's queue. *)
Theorem steer_refines_fifo s s' m msgs b :
  queue_of s' (push_steer s m b) = (if decide (s' = s) then queue_of s b ++ [m] else queue_of s' b) /\
  fst (drain_steer s b) = queue_of s b /\
  queue_of s' (snd (drain_steer s b)) = (if decide (s' = s) then [] else queue_of s' b) /\
  queue_of s' (requeue_steer s msgs b) = (if decide (s' = s) then msgs ++ queue_of s b else queue_of s' b).
Proof.
  split; [unfold push_steer; rewrite queue_of_insert; by destruct (decide (s' = s)) as [->|]|].
  split; [unfold drain_steer, queue_of; by destruct (steer_queues b !! s)|].
  split.
  - unfold drain_steer, queue_of. destruct (steer_queues b !! s) as [q|] eqn:Hq; cbn.
    + destruct (decide (s' = s)) as [->|Hne]; [by rewrite lookup_delete_eq|by rewrite lookup_delete_ne].
    + destruct (decide (s' = s)) as [->|Hne]; [by rewrite Hq|done].
  - unfold requeue_steer. destruct msgs as [|x msgs].
    + cbn. by destruct (decide (s' = s)) as [->|].
    + rewrite queue_of_insert. destruct (decide (s' = s)) as [->|]; [|done].
      apply (insert_each_app 0 (x :: msgs) _ []). done.
Qed.

(** Checking a criterion.  It succeeds exactly when the session has an
    unchecked criterion with the given text or, without one, an unchecked
    criterion containing it up to case; then exactly one unchecked criterion is
    checked, an exact match taking precedence, the texts and the order are
    kept, and the number returned is that of the criteria left, one less than
    before.  On failure nothing changes, and no other session is affected. *)
Theorem check_criterion_spec low s t b :
  let '(r, b') := check_criterion low s t b in
  (forall s', s' <> s -> completion_criteria b' !! s' = completion_criteria b !! s') /\
  match r with
  | Err _ => b' = b /\ forall l c, completion_criteria b !! s = Some l -> c ∈ l -> checked c = false ->
               text c <> t /\ contains_str (low (text c)) (low t) = false
  | Ok remaining => exists l i c, completion_criteria b !! s = Some l /\ l !! i = Some c /\ checked c = false /\
      completion_criteria b' !! s = Some (<[i := check_off c]> l) /\
      remaining = count_unchecked (<[i := check_off c]> l) /\ S remaining = count_unchecked l /\
      (text c = t \/ (contains_str (low (text c)) (low t) = true /\
                      forall c', c' ∈ l -> checked c' = false -> text c' <> t))
  end.
Proof.
  unfold check_criterion. destruct (completion_criteria b !! s) as [l|] eqn:Hl; [|by split; [|split]].
  destruct (find_criterion low t l) as [i|] eqn:Hf.
  - destruct (find_criterion_Some low t l i Hf) as (c & Hi & Hc & Hmatch).
    assert (Halter : alter check_off i l = <[i := check_off c]> l).
    { apply list_eq. intros j. destruct (decide (j = i)) as [->|Hne].
      - rewrite list_lookup_alter_eq, Hi, list_lookup_insert_eq; [done|]. by apply lookup_lt_Some in Hi.
      - by rewrite list_lookup_alter_ne, list_lookup_insert_ne. }
    split; [intros s' Hne; cbn; by rewrite lookup_insert_ne|].
    exists l, i, c. split; [done|]. split; [done|]. split; [done|].
    split; [cbn; by rewrite lookup_insert_eq, Halter|]. split; [by rewrite Halter|].
    split; [by apply (count_check_off l i c)|done].
  - split; [done|]. split; [done|]. intros l0 c [= <-] Hin Hc.
    unfold find_criterion in Hf. destruct (position (exact_match t) l) eqn:He; [done|].
    apply position_None in He, Hf. rewrite Forall_forall in He, Hf.
    specialize (He c Hin). specialize (Hf c Hin). unfold exact_match, loose_match in *.
    rewrite Hc in *. cbn in *. split; [|done]. intros Ht. by rewrite Ht, String.eqb_refl in He.
Qed.

Example criteria_run :
  let b := set_criteria "s" ["run tests"; "Update docs"]%string SessionBus_new in
  let '(r1, b1) := check_criterion to_ascii_lowercase "s" "docs" b in
  let '(r2, b2) := check_criterion to_ascii_lowercase "s" "docs" b1 in
  r1 = Ok 1 /\ is_ok r2 = false /\ unchecked_criteria "s" b2 = ["run tests"]%string.
Proof. by vm_compute. Qed.
