(* ===== verification/Completion.v ===== *)
(** * The completion checklist

    src/kernel/src/plates/shen_spirit/completion_check.rs: recognition of test
    commands and of their failures, the per-session observation buckets with
    their LRU bound, and the assessment at a confident stop.  Also the text
    truncations of src/kernel/src/utils.rs it uses. *)

From S2P Require Export Prelude RString Permission.
From Stdlib Require Import Ascii.

(** ** Test commands *)

Inductive TestKind := Cargo | Pytest | Go | Vitest | NpmLike.

#[export] Instance TestKind_eq_dec : EqDecision TestKind.
Proof. solve_decision. Defined.

Definition kind_str (k : TestKind) : string :=
  match k with
  | Cargo => "cargo" | Pytest => "pytest" | Go => "go" | Vitest => "vitest" | NpmLike => "npm"
  end.

Definition detect_test_command (command : string) : option TestKind :=
  if contains_str command "cargo nextest" || contains_str command "cargo test" then Some Cargo
  else if contains_str command "pytest" then Some Pytest
  else if contains_str command "go test" then Some Go
  else if contains_str command "vitest" then Some Vitest
  else if contains_str command "jest" then Some NpmLike
  else if existsb (fun pm => contains_str command (pm +:+ " test") || contains_str command (pm +:+ " run test"))
            ["pnpm"; "npm"; "yarn"; "bun"]%string then Some NpmLike
  else None.

Record TestFailure := {
  command : string;
  kind : TestKind;
  failed_cases : list string;
  tail_excerpt : option string
}.

(** The [push] closure: trimmed, nonempty, without repetition. *)
Definition push_case (name : string) (cases : list string) : list string :=
  let n := trim name in
  if is_empty_str n || existsb (fun c => String.eqb c n) cases then cases else cases ++ [n].

(** [trim_end_matches('.')]. *)
Definition trim_end_dots (s : string) : string :=
  of_chars (reverse (drop_while (fun c => String.eqb c ".") (reverse (chars s)))).

Definition cargo_line (cases : list string) (line : string) : list string :=
  let t := trim line in
  if starts_with t "test " && ends_with t "FAILED" then
    push_case (trim (trim_end_dots (trim (slice (len "test ") (len t - len "FAILED") t)))) cases
  else cases.

(** The scan of the [failures:] section: whether it is inside, and the cases. *)
Definition cargo_section (st : bool * list string) (line : string) : bool * list string :=
  let '(in_failures, cases) := st in
  let t := trim line in
  if String.eqb t "failures:" then (true, cases)
  else if negb in_failures then (false, cases)
  else if is_empty_str t then (false, cases)
  else if starts_with line "    " && negb (existsb is_whitespace (chars t))
  then (true, push_case t cases) else (true, cases).

(** [s.split(pat).next().unwrap_or(s)]. *)
Definition before_str (pat s : string) : string :=
  match find_str pat s with Some i => take_str i s | None => s end.

Definition npm_line (cases : list string) (line : string) : list string :=
  let t := trim line in
  let cases := match strip_prefix_str t "✕" with Some rest => push_case rest cases | None => cases end in
  let cases := match strip_prefix_str t "×" with Some rest => push_case rest cases | None => cases end in
  let cases := match strip_prefix_str t "FAIL " with Some rest => push_case rest cases | None => cases end in
  match strip_prefix_str t "● " with
  | Some rest => if negb (starts_with rest "Console") then push_case rest cases else cases
  | None => cases
  end.

Definition parse_failed_cases (kind : TestKind) (output : string) : list string :=
  match kind with
  | Cargo =>
      let cases := foldl cargo_line [] (lines output) in
      snd (foldl cargo_section (false, cases) (lines output))
  | Pytest =>
      foldl (fun cases line =>
        match strip_prefix_str (trim line) "FAILED " with
        | Some rest => push_case (before_str " - " rest) cases
        | None => cases
        end) [] (lines output)
  | Go =>
      foldl (fun cases line =>
        match strip_prefix_str (trim line) "--- FAIL: " with
        | Some rest => push_case (default rest (head (split_whitespace rest))) cases
        | None => cases
        end) [] (lines output)
  | Vitest | NpmLike => foldl npm_line [] (lines output)
  end.

(** A byte offset a string may be sliced at. *)
Definition is_char_boundary (i : nat) (s : string) : bool :=
  match String.get i s with
  | Some c => negb (is_cont_byte c)
  | None => (i =? len s)%nat
  end.

Definition MAX_LINES : nat := 12.
Definition MAX_CHARS : nat := 1500.

(** [tail_excerpt]: [None] is the panic of a slice inside a character. *)
Definition tail_excerpt_of (output : string) : option string :=
  let ls := List.filter (fun l => negb (is_empty_str (trim l))) (lines output) in
  let s := str_join (char_str newline) (drop (length ls - MAX_LINES) ls) in
  if (MAX_CHARS <? len s)%nat then
    if is_char_boundary (len s - MAX_CHARS) s then Some (drop_str (len s - MAX_CHARS) s) else None
  else Some s.

Definition bullet_list (cases : list string) : string :=
  concat_str ((fun c => char_str newline +:+ "- " +:+ c) <$> cases).

Definition format_failure_reminder (f : TestFailure) : string :=
  let nl := char_str newline in
  let out := "[Verification] Test command failed: `" +:+ command f +:+ "` (" +:+ kind_str (kind f) +:+ ")." in
  match failed_cases f with
  | _ :: _ =>
      out +:+ nl +:+ "Failed cases (" +:+ pretty (length (failed_cases f)) +:+ "):" +:+
      bullet_list (failed_cases f) +:+ nl +:+
      "Suggested focus: re-run the failing cases individually for the full output, fix them, then re-run the whole suite to confirm before wrapping up."
  | [] =>
      out +:+ nl +:+
      "Individual failing cases could not be parsed from the output; tail excerpt:" +:+ nl +:+ "```" +:+ nl +:+
      default "(no output)" (tail_excerpt f) +:+ nl +:+ "```" +:+ nl +:+
      "Locate the failure from the output above, fix it, then re-run to confirm."
  end.

(** [parse_exit_code] of the note the permission matrix appends. *)
Definition parse_exit_code (output : string) : option Z :=
  let marker := "[exit code:" in
  match rfind_str marker output with
  | Some pos =>
      let rest := drop_str (pos + len marker) output in
      match find_str "]" rest with
      | Some e => parse_signed i32_min i32_max (trim (take_str e rest))
      | None => None
      end
  | None => None
  end.

Definition extract_file_path (output : string) : option string :=
  let trimmed := trim output in
  if starts_with trimmed "/" || starts_with trimmed "./" then Some trimmed else None.

(** utils.rs: [truncate_chars]. *)
Definition truncate_chars (s : string) (max_chars : nat) : string :=
  if (length (chars s) <=? max_chars)%nat then s
  else of_chars (take max_chars (chars s)) +:+ "…".

(** ** The buckets *)

Record CompletionVector := {
  exit_codes : list Z;
  files_created : list string;
  grep_matches : list nat;
  test_failures : list TestFailure;
  anomaly_pending : bool
}.

Definition empty_vector : CompletionVector :=
  {| exit_codes := []; files_created := []; grep_matches := []; test_failures := []; anomaly_pending := false |}.

Definition MAX_SESSION_VECTORS : nat := 64.
Definition HOOK_BUCKET : string := "__hook__".

(** The map, and the keys from the least to the most recently touched. *)
Record SessionVectors := { vmap : gmap string CompletionVector; order : list string }.

Definition SessionVectors_new : SessionVectors := {| vmap := ∅; order := [] |}.

Definition without (s : string) (l : list string) : list string := List.filter (fun k => negb (String.eqb k s)) l.

#[global] Arguments without : simpl never.

Definition touch (s : string) (sv : SessionVectors) : SessionVectors :=
  {| vmap := vmap sv; order := without s (order sv) ++ [s] |}.

(** The eviction loop of [bucket]: it pops the order until there is room. *)
Fixpoint evict (m : gmap string CompletionVector) (ord : list string) : gmap string CompletionVector * list string :=
  if (MAX_SESSION_VECTORS <=? size m)%nat then
    match ord with
    | [] => (m, ord)
    | oldest :: rest => evict (delete oldest m) rest
    end
  else (m, ord).

(** [bucket]: the state with the session's bucket ensured and touched. *)
Definition ensure (s : string) (sv : SessionVectors) : SessionVectors :=
  match vmap sv !! s with
  | Some _ => touch s sv
  | None =>
      let '(m, ord) := evict (vmap sv) (order sv) in
      touch s {| vmap := <[s := empty_vector]> m; order := ord |}
  end.

Definition update_vector (s : string) (f : CompletionVector -> CompletionVector) (sv : SessionVectors) : SessionVectors :=
  {| vmap := alter f s (vmap sv); order := order sv |}.

(** Writing through [bucket]. *)
Definition with_bucket (s : string) (f : CompletionVector -> CompletionVector) (sv : SessionVectors) : SessionVectors :=
  update_vector s f (ensure s sv).

(** Reading through [bucket_if_present]: the vector found, and the state with
    the bucket touched and rewritten. *)
Definition with_bucket_if_present (s : string) (f : CompletionVector -> CompletionVector) (sv : SessionVectors)
    : option CompletionVector * SessionVectors :=
  match vmap sv !! s with
  | None => (None, sv)
  | Some v => (Some v, update_vector s f (touch s sv))
  end.

Definition end_session (s : string) (sv : SessionVectors) : SessionVectors :=
  {| vmap := delete s (vmap sv); order := without s (order sv) |}.

(** ** The checklist *)

Definition ingest (tool_name output : string) (error : option string) (sv : SessionVectors) : SessionVectors :=
  with_bucket HOOK_BUCKET (fun v =>
    {| exit_codes := exit_codes v ++ option_list (parse_exit_code output);
       files_created :=
         files_created v ++
         (if String.eqb tool_name "write_file" then option_list (extract_file_path output) else []);
       grep_matches :=
         grep_matches v ++
         (if String.eqb tool_name "grep" && bool_decide (error = None) then [length (lines output)] else []);
       test_failures := test_failures v;
       anomaly_pending := anomaly_pending v |}) sv.

Inductive CompletionAssessment :=
| SilentPass
| UpgradeToUser (reason : string) (missing : list string).

(** [assess]; [exists_path] is the file system. *)
Definition assess (exists_path : string -> bool) (sv : SessionVectors) : CompletionAssessment * SessionVectors :=
  let '(v, sv') := with_bucket_if_present HOOK_BUCKET id sv in
  let missing :=
    match v with
    | None => []
    | Some v =>
        let failures := List.filter (fun c => negb (c =? 0)%Z) (exit_codes v) in
        (match failures with
         | [] => []
         | _ => [pretty (length failures) +:+ " shell command(s) failed (exit ≠ 0)"]
         end) ++
        map (fun p => "claimed file not found: " +:+ p)
          (List.filter (fun p => negb (exists_path p)) (files_created v))
    end in
  (match missing with
   | [] => SilentPass
   | _ => UpgradeToUser ("completion checklist found " +:+ pretty (length missing) +:+ " issue(s)") missing
   end, sv').

Definition reset (sv : SessionVectors) : SessionVectors := with_bucket HOOK_BUCKET (fun _ => empty_vector) sv.

Definition note_failure (f : TestFailure) (v : CompletionVector) : CompletionVector :=
  {| exit_codes := exit_codes v; files_created := files_created v; grep_matches := grep_matches v;
     test_failures := test_failures v ++ [f]; anomaly_pending := true |}.

(** [ingest_test_command]: [None] is the panic of [tail_excerpt]. *)
Definition ingest_test_command (s cmd output : string) (error : option string) (sv : SessionVectors)
    : option SessionVectors :=
  match detect_test_command cmd with
  | None => Some sv
  | Some kind =>
      let cases := parse_failed_cases kind output in
      let exit_nonzero := match parse_exit_code output with Some c => negb (c =? 0)%Z | None => false end in
      let failed := negb (bool_decide (cases = [])) || exit_nonzero || bool_decide (is_Some error) in
      if negb failed then Some sv
      else
        tail ← match cases with [] => Some <$> tail_excerpt_of output | _ => Some None end;
        Some (with_bucket s
          (note_failure {| command := truncate_chars cmd 120; kind := kind; failed_cases := cases;
                           tail_excerpt := tail |}) sv)
  end.

Definition take_test_failure_reminders (s : string) (sv : SessionVectors) : list string * SessionVectors :=
  let '(v, sv') := with_bucket_if_present s (fun v =>
    {| exit_codes := exit_codes v; files_created := files_created v; grep_matches := grep_matches v;
       test_failures := []; anomaly_pending := anomaly_pending v |}) sv in
  (match v with Some v => map format_failure_reminder (test_failures v) | None => [] end, sv').

Definition take_verification_anomaly (s : string) (sv : SessionVectors) : bool * SessionVectors :=
  let '(v, sv') := with_bucket_if_present s (fun v =>
    {| exit_codes := exit_codes v; files_created := files_created v; grep_matches := grep_matches v;
       test_failures := test_failures v; anomaly_pending := false |}) sv in
  (match v with Some v => anomaly_pending v | None => false end, sv').

Definition note_verification_anomaly (s : string) (sv : SessionVectors) : SessionVectors :=
  with_bucket s (fun v =>
    {| exit_codes := exit_codes v; files_created := files_created v; grep_matches := grep_matches v;
       test_failures := test_failures v; anomaly_pending := true |}) sv.

(** ** Lemmas on the buckets *)

Record vectors_wf (sv : SessionVectors) : Prop := {
  vw_nodup : NoDup (order sv);
  vw_dom : forall k, k ∈ order sv <-> is_Some (vmap sv !! k);
  vw_bound : (size (vmap sv) <= MAX_SESSION_VECTORS)%nat
}.

Lemma elem_of_without k s l : k ∈ without s l <-> k ∈ l /\ k <> s.
Proof.
  unfold without. rewrite list_elem_of_In, filter_In, <- list_elem_of_In.
  by rewrite negb_true_iff, String.eqb_neq.
Qed.

Lemma NoDup_without s l : NoDup l -> NoDup (without s l).
Proof.
  induction l as [|k l IH]; [constructor|]. intros [Hk Hl]%NoDup_cons.
  change (without s (k :: l)) with (if negb (String.eqb k s) then k :: without s l else without s l).
  destruct (String.eqb k s); cbn [negb]; [by apply IH|]. apply NoDup_cons. split; [|by apply IH].
  intros Hin. by apply elem_of_without in Hin as [? _].
Qed.

Lemma touch_wf s sv : vectors_wf sv -> is_Some (vmap sv !! s) -> vectors_wf (touch s sv).
Proof.
  intros [Hn Hd Hb] Hs. split; cbn; [| |done].
  - apply NoDup_app. split; [by apply NoDup_without|]. split; [|apply NoDup_singleton].
    intros k Hk. apply elem_of_without in Hk as [_ ?]. by rewrite list_elem_of_singleton.
  - intros k. rewrite elem_of_app, elem_of_without, list_elem_of_singleton, Hd.
    destruct (decide (k = s)) as [->|]; naive_solver.
Qed.

Lemma alter_wf s f sv : vectors_wf sv -> vectors_wf (update_vector s f sv).
Proof.
  intros [Hn Hd Hb]. split; cbn; [done| |].
  - intros k. rewrite Hd. destruct (decide (k = s)) as [->|].
    + rewrite lookup_alter_eq. by rewrite fmap_is_Some.
    + by rewrite lookup_alter_ne.
  - rewrite <- size_dom, dom_alter_L, size_dom. done.
Qed.

Lemma order_length sv : vectors_wf sv -> length (order sv) = size (vmap sv).
Proof.
  intros [Hn Hd _]. rewrite <- size_dom.
  assert (Heq : dom (vmap sv) = list_to_set (order sv)).
  { apply set_eq. intros k. by rewrite elem_of_list_to_set, elem_of_dom, Hd. }
  by rewrite Heq, size_list_to_set.
Qed.

(** Eviction below a bounded state drops at most the front of the order. *)
Lemma evict_spec sv :
  vectors_wf sv ->
  evict (vmap sv) (order sv) = (vmap sv, order sv) /\ (size (vmap sv) < MAX_SESSION_VECTORS)%nat \/
  exists oldest rest, order sv = oldest :: rest /\ size (vmap sv) = MAX_SESSION_VECTORS /\
    evict (vmap sv) (order sv) = (delete oldest (vmap sv), rest).
Proof.
  intros Hwf. pose proof (order_length sv Hwf) as Hlen. destruct Hwf as [Hn Hd Hb].
  destruct (Nat.leb_spec MAX_SESSION_VECTORS (size (vmap sv))) as [Hfull|Hroom].
  2: { left. split; [|done]. destruct (order sv); cbn [evict]; by rewrite (proj2 (Nat.leb_gt _ _) Hroom). }
  right. destruct (order sv) as [|oldest rest] eqn:Ho.
  { cbn in Hlen. unfold MAX_SESSION_VECTORS in *. lia. }
  exists oldest, rest. split; [done|]. split; [lia|]. cbn [evict].
  rewrite (proj2 (Nat.leb_le _ _) Hfull).
  assert (Hold : is_Some (vmap sv !! oldest)) by (apply Hd; set_solver).
  assert (Hsz : (size (delete oldest (vmap sv)) < MAX_SESSION_VECTORS)%nat).
  { rewrite map_size_delete. destruct Hold as [v Hv]. rewrite Hv. unfold MAX_SESSION_VECTORS in *. lia. }
  destruct rest; cbn [evict]; by rewrite (proj2 (Nat.leb_gt _ _) Hsz).
Qed.

(** What a write to a bucket does: the state stays well formed, the bucket is
    updated from its old value or the empty one, it is the most recent, and
    another bucket is lost only as the least recently touched of a full
    table. *)
Lemma with_bucket_spec s f sv :
  vectors_wf sv ->
  let sv' := with_bucket s f sv in
  vectors_wf sv' /\
  vmap sv' !! s = Some (f (default empty_vector (vmap sv !! s))) /\
  last (order sv') = Some s /\
  forall k, k <> s -> vmap sv' !! k = vmap sv !! k \/
    (vmap sv' !! k = None /\ vmap sv !! s = None /\ size (vmap sv) = MAX_SESSION_VECTORS /\ head (order sv) = Some k).
Proof.
  intros Hwf. unfold with_bucket, ensure.
  destruct (vmap sv !! s) as [v|] eqn:Hs.
  { assert (Ht : vectors_wf (touch s sv)) by (apply touch_wf; [done|by eexists]).
    split; [by apply alter_wf|]. cbn. rewrite lookup_alter_eq, Hs, last_snoc.
    split; [done|]. split; [done|]. intros k Hk. left. by rewrite lookup_alter_ne. }
  destruct (evict_spec sv Hwf) as [[-> Hroom]|(oldest & rest & Ho & Hsz & ->)]; cbn [vmap order touch update_vector].
  - split.
    + apply alter_wf. destruct Hwf as [Hn Hd Hb]. split; cbn.
      * apply NoDup_app. split; [by apply NoDup_without|]. split; [|apply NoDup_singleton].
        intros k Hk. apply elem_of_without in Hk as [_ ?]. by rewrite list_elem_of_singleton.
      * intros k. rewrite elem_of_app, elem_of_without, list_elem_of_singleton, Hd.
        destruct (decide (k = s)) as [->|]; [rewrite lookup_insert_eq|rewrite lookup_insert_ne by done]; naive_solver.
      * rewrite map_size_insert_None by done. unfold MAX_SESSION_VECTORS in *. lia.
    + rewrite lookup_alter_eq, lookup_insert_eq, last_snoc. split; [done|]. split; [done|].
      intros k Hk. left. by rewrite lookup_alter_ne, lookup_insert_ne.
  - destruct Hwf as [Hn Hd Hb]. rewrite Ho in Hn. apply NoDup_cons in Hn as [Hno Hnr].
    assert (Hold : is_Some (vmap sv !! oldest)) by (apply Hd; rewrite Ho; set_solver).
    assert (Hne : oldest <> s) by (intros ->; rewrite Hs in Hold; by destruct Hold).
    split.
    + apply alter_wf. split; cbn.
      * apply NoDup_app. split; [by apply NoDup_without|]. split; [|apply NoDup_singleton].
        intros k Hk. apply elem_of_without in Hk as [_ ?]. by rewrite list_elem_of_singleton.
      * intros k. rewrite elem_of_app, elem_of_without, list_elem_of_singleton.
        destruct (decide (k = s)) as [->|Hks]; [rewrite lookup_insert_eq; naive_solver|].
        rewrite lookup_insert_ne by done. destruct (decide (k = oldest)) as [->|Hko].
        -- rewrite lookup_delete_eq. split; [intros [[? _]|?]; done|by intros [? ?]].
        -- rewrite lookup_delete_ne by done. rewrite <- Hd, Ho. set_solver.
      * rewrite map_size_insert_None by (by rewrite lookup_delete_ne).
        rewrite map_size_delete. destruct Hold as [v ->]. unfold MAX_SESSION_VECTORS in *. lia.
    + rewrite lookup_alter_eq, lookup_insert_eq, last_snoc. split; [done|]. split; [done|].
      intros k Hk. rewrite lookup_alter_ne, lookup_insert_ne by done.
      destruct (decide (k = oldest)) as [->|Hko].
      * right. rewrite lookup_delete_eq, Ho. done.
      * left. by rewrite lookup_delete_ne.
Qed.

Lemma with_bucket_if_present_spec s f sv :
  vectors_wf sv ->
  let '(v, sv') := with_bucket_if_present s f sv in
  vectors_wf sv' /\ v = vmap sv !! s /\ vmap sv' !! s = f <$> vmap sv !! s /\
  forall k, k <> s -> vmap sv' !! k = vmap sv !! k.
Proof.
  intros Hwf. unfold with_bucket_if_present. destruct (vmap sv !! s) as [v|] eqn:Hs; [|by rewrite Hs].
  split; [apply alter_wf, touch_wf; [done|by eexists]|]. split; [done|]. cbn.
  split; [by rewrite lookup_alter_eq, Hs|]. intros k Hk. by rewrite lookup_alter_ne.
Qed.

Lemma end_session_wf s sv : vectors_wf sv -> vectors_wf (end_session s sv).
Proof.
  intros [Hn Hd Hb]. split; cbn.
  - by apply NoDup_without.
  - intros k. rewrite elem_of_without, Hd. destruct (decide (k = s)) as [->|Hks].
    + rewrite lookup_delete_eq. split; [by intros [_ ?]|by intros [? ?]].
    + rewrite lookup_delete_ne by done. naive_solver.
  - transitivity (size (vmap sv)); [|done]. apply map_subseteq_size, delete_subseteq.
Qed.

(** The operations of the checklist as steps of its state. *)
Inductive checklist_step : SessionVectors -> SessionVectors -> Prop :=
| step_ingest tool output error sv : checklist_step sv (ingest tool output error sv)
| step_assess fs sv : checklist_step sv (snd (assess fs sv))
| step_reset sv : checklist_step sv (reset sv)
| step_test s cmd output error sv sv' :
    ingest_test_command s cmd output error sv = Some sv' -> checklist_step sv sv'
| step_take s sv : checklist_step sv (snd (take_test_failure_reminders s sv))
| step_anomaly s sv : checklist_step sv (snd (take_verification_anomaly s sv))
| step_note s sv : checklist_step sv (note_verification_anomaly s sv)
| step_end s sv : checklist_step sv (end_session s sv).

Lemma with_bucket_wf s f sv : vectors_wf sv -> vectors_wf (with_bucket s f sv).
Proof. intros H. by apply with_bucket_spec. Qed.

Lemma with_present_wf s f sv : vectors_wf sv -> vectors_wf (snd (with_bucket_if_present s f sv)).
Proof.
  intros H. pose proof (with_bucket_if_present_spec s f sv H) as Hs.
  destruct (with_bucket_if_present s f sv). by destruct Hs.
Qed.

Lemma checklist_step_wf sv sv' : vectors_wf sv -> checklist_step sv sv' -> vectors_wf sv'.
Proof.
  intros Hwf Hstep. revert Hwf.
  destruct Hstep as [tool output error sv0|fs sv0|sv0|s cmd output error sv0 sv1 Hi|s sv0|s sv0|s sv0|s sv0];
    intros Hwf.
  - by apply with_bucket_wf.
  - unfold assess. pose proof (with_present_wf HOOK_BUCKET id sv0 Hwf) as H.
    destruct (with_bucket_if_present _ _ _). exact H.
  - by apply with_bucket_wf.
  - unfold ingest_test_command in Hi. destruct (detect_test_command cmd); [|by injection Hi as <-].
    destruct (negb _); [by injection Hi as <-|].
    apply bind_Some in Hi as (tail & _ & Hi). injection Hi as <-. by apply with_bucket_wf.
  - unfold take_test_failure_reminders.
    match goal with |- context [with_bucket_if_present s ?f sv0] => pose proof (with_present_wf s f sv0 Hwf) as H end.
    destruct (with_bucket_if_present _ _ _). exact H.
  - unfold take_verification_anomaly.
    match goal with |- context [with_bucket_if_present s ?f sv0] => pose proof (with_present_wf s f sv0 Hwf) as H end.
    destruct (with_bucket_if_present _ _ _). exact H.
  - by apply with_bucket_wf.
  - by apply end_session_wf.
Qed.

Lemma new_wf : vectors_wf SessionVectors_new.
Proof.
  split; cbn; [constructor| |unfold MAX_SESSION_VECTORS; rewrite map_size_empty; lia].
  intros k. rewrite lookup_empty. split; [by intros ?%elem_of_nil|by intros [? ?]].
Qed.

(** ** Lemmas on exit codes *)

(** The note the permission matrix appends after a failed command. *)
Definition exit_note (code : Z) : string := char_str newline +:+ "[exit code: " +:+ pretty code +:+ "]".

Lemma rfind_absent_tail c pat s :
  has_char c s = false -> rfind_str (String c pat) s = None.
Proof. intros H. by apply rfind_str_None, find_str_head_absent. Qed.

Lemma rfind_exit_marker (code : Z) :
  rfind_str "[exit code:" ("[exit code:" +:+ String " " (pretty code +:+ "]")) = Some 0.
Proof.
  assert (Hno : has_char "[" (String " " (pretty code +:+ "]")) = false).
  { rewrite has_char_cons, has_char_app. by rewrite (number_not_has "[") by (apply pretty_Z_chars || done). }
  pose proof (rfind_absent_tail "[" "exit code:" _ Hno) as Hnone.
  set (t := String " " (pretty code +:+ "]")) in *. clearbody t.
  let s := eval lazy [String.append] in ("[exit code:" +:+ t) in change ("[exit code:" +:+ t) with s.
  by rewrite !rfind_str_cons, Hnone.
Qed.

(** ** Properties *)

(** Bounded state: whatever the sequence of observations, reads, resets
    and session ends, the table holds at most 64 sessions, and the touch order
    lists exactly the sessions in the table, each once. *)
Theorem checklist_bounded sv (Hreach : rtc checklist_step SessionVectors_new sv) :
  (size (vmap sv) <= 64)%nat /\ NoDup (order sv) /\ forall k, k ∈ order sv <-> is_Some (vmap sv !! k).
Proof.
  assert (Hwf : vectors_wf sv).
  { pose proof new_wf as Hnew. revert Hnew. induction Hreach as [|x y z Hxy _ IH]; [done|].
    intros Hx. apply IH. by eapply checklist_step_wf. }
  by destruct Hwf.
Qed.

Lemma checklist_bounded_witness :
  let sv := note_verification_anomaly "b" (note_verification_anomaly "a" SessionVectors_new) in
  order sv = ["a"; "b"]%string /\ (size (vmap sv) <= 64)%nat.
Proof.
  split; [by vm_compute|].
  apply (checklist_bounded (note_verification_anomaly "b" (note_verification_anomaly "a" SessionVectors_new))).
  eapply rtc_l; [apply (step_note "a")|]. eapply rtc_l; [apply (step_note "b")|]. apply rtc_refl.
Defined.

(** Observing a test command for one session.  A command that is no test,
    or a test that shows no failure, changes nothing.  A failing test adds one
    failure to the end of its own session's list and raises its anomaly flag;
    every other session keeps its observations, except that creating a bucket
    in a full table drops the least recently touched one. *)
Theorem test_failure_isolated s cmd output error sv sv'
    (Hwf : vectors_wf sv) (Hrun : ingest_test_command s cmd output error sv = Some sv') :
  let cases kind := parse_failed_cases kind output in
  let failed kind := cases kind <> [] \/ (exists c, parse_exit_code output = Some c /\ c <> 0%Z) \/ is_Some error in
  (forall kind, detect_test_command cmd = Some kind -> failed kind ->
     exists f v, kind = Completion.kind f /\ failed_cases f = cases kind /\
       v = default empty_vector (vmap sv !! s) /\ vmap sv' !! s = Some (note_failure f v)) /\
  ((forall kind, detect_test_command cmd = Some kind -> ~ failed kind) -> sv' = sv) /\
  forall k, k <> s -> vmap sv' !! k = vmap sv !! k \/
    (vmap sv' !! k = None /\ vmap sv !! s = None /\ size (vmap sv) = 64 /\ head (order sv) = Some k).
Proof.
  intros cases failed. unfold ingest_test_command in Hrun.
  destruct (detect_test_command cmd) as [kind|] eqn:Hd.
  2: { injection Hrun as <-. split; [done|]. split; [done|]. by left. }
  fold (cases kind) in Hrun.
  assert (Hfailed : negb (bool_decide (cases kind = [])) ||
      match parse_exit_code output with Some c => negb (c =? 0)%Z | None => false end ||
      bool_decide (is_Some error) = true <-> failed kind).
  { unfold failed. rewrite !orb_true_iff, negb_true_iff, bool_decide_eq_false, bool_decide_eq_true.
    destruct (parse_exit_code output) as [c|].
    - rewrite negb_true_iff, Z.eqb_neq. naive_solver.
    - naive_solver. }
  destruct (negb (bool_decide (cases kind = [])) || _ || _).
  - cbn [negb] in Hrun. apply bind_Some in Hrun as (tail & _ & Hrun). injection Hrun as <-.
    match goal with |- context [note_failure ?f] => set (f0 := f) end.
    destruct (with_bucket_spec s (note_failure f0) sv Hwf) as (_ & Hs & _ & Hk).
    split; [|split; [|exact Hk]].
    + intros k [= <-] _. exists f0, (default empty_vector (vmap sv !! s)). done.
    + intros Hno. by destruct (Hno kind eq_refl (proj1 Hfailed eq_refl)).
  - cbn [negb] in Hrun. injection Hrun as <-. split; [|split; [done|by left]].
    intros k [= <-] Hf. by apply Hfailed in Hf.
Qed.

Lemma test_failure_isolated_witness :
  let out := ("test foo::bar ... FAILED" +:+ char_str newline)%string in
  let sv := note_verification_anomaly "b" SessionVectors_new in
  exists sv', ingest_test_command "a" "cargo test" out None sv = Some sv' /\
    (v ← vmap sv' !! "a"%string; f ← head (test_failures v); Some (failed_cases f)) = Some ["foo::bar"%string] /\
    (vmap sv' !! "b" = vmap sv !! "b" \/
     (vmap sv' !! "b" = None /\ vmap sv !! "a" = None /\ size (vmap sv) = 64 /\ head (order sv) = Some "b"%string)).
Proof.
  eexists. split; [vm_compute; reflexivity|]. split; [by vm_compute|].
  refine (proj2 (proj2 (test_failure_isolated "a" "cargo test" ("test foo::bar ... FAILED" +:+ char_str newline) None
    (note_verification_anomaly "b" SessionVectors_new) _ _ _)) "b"%string _);
    [apply with_bucket_wf, new_wf|vm_compute; reflexivity|done].
Defined.

(** Each observation is delivered once: taking the reminders of a session
    returns one text per recorded failure, in order, and leaves none; taking
    the anomaly flag returns it and clears it; and both leave every other
    session's bucket alone. *)
Theorem observations_delivered_once s sv (Hwf : vectors_wf sv) :
  let v := default empty_vector (vmap sv !! s) in
  let '(reminders, sv1) := take_test_failure_reminders s sv in
  let '(anomaly, sv2) := take_verification_anomaly s sv in
  reminders = map format_failure_reminder (test_failures v) /\
  fst (take_test_failure_reminders s sv1) = [] /\
  anomaly = anomaly_pending v /\ fst (take_verification_anomaly s sv2) = false /\
  forall k, k <> s -> vmap sv1 !! k = vmap sv !! k /\ vmap sv2 !! k = vmap sv !! k.
Proof.
  intros v. unfold take_test_failure_reminders, take_verification_anomaly, with_bucket_if_present.
  destruct (vmap sv !! s) as [v0|] eqn:Hs; cbn; [|by rewrite Hs].
  rewrite !lookup_alter_eq, Hs. cbn. do 4 (split; [done|]).
  intros k Hk. by rewrite !lookup_alter_ne.
Qed.

Lemma observations_delivered_once_witness :
  let sv := note_verification_anomaly "a" SessionVectors_new in
  fst (take_verification_anomaly "a" sv) = true /\
  fst (take_verification_anomaly "a" (snd (take_verification_anomaly "a" sv))) = false.
Proof.
  split; [by vm_compute|].
  pose proof (observations_delivered_once "a" (note_verification_anomaly "a" SessionVectors_new)
    (with_bucket_wf _ _ _ new_wf)) as H.
  destruct (take_test_failure_reminders _ _) as [r sv1].
  destruct (take_verification_anomaly "a" (note_verification_anomaly "a" SessionVectors_new)) as [an sv2].
  apply H.
Defined.

(** The exit code survives the trip through the tool output: what the
    permission matrix appends after a failed sandboxed command is what the
    checklist reads back, for every 32-bit code and every output, even one that
    itself contains such a note. *)
Theorem exit_code_roundtrip m raw
    (Hsandboxed : execution_sandbox m = true) (Hcode : exit_code raw <> 0%Z)
    (Hrange : (i32_min <= exit_code raw <= i32_max)%Z) :
  parse_exit_code (format_output m raw) = Some (exit_code raw).
Proof.
  unfold format_output. rewrite Hsandboxed, (proj2 (Z.eqb_neq _ _) Hcode). cbn [andb negb].
  set (body := if is_empty_str (stderr raw) then _ else _). clearbody body.
  set (code := exit_code raw) in *.
  assert (Hsplit : body +:+ char_str newline +:+ "[exit code: " +:+ pretty code +:+ "]" =
    (body +:+ char_str newline) +:+ "[exit code:" +:+ String " " (pretty code +:+ "]")) by by rewrite app_assoc_str.
  rewrite Hsplit. unfold parse_exit_code.
  rewrite (rfind_str_app _ _ _ 0) by apply rfind_exit_marker.
  rewrite Nat.add_0_r, drop_str_app_plus, drop_app_str.
  change (String " " (pretty code +:+ "]")) with (String " " (pretty code) +:+ "]").
  rewrite (find_str_char "]" (String " " (pretty code)) "").
  2: { rewrite has_char_cons. by rewrite (number_not_has "]") by (apply pretty_Z_chars || done). }
  rewrite take_app_str, trim_space_graph by apply number_all_graph, pretty_Z_chars.
  by apply parse_signed_pretty.
Qed.

Lemma exit_code_roundtrip_witness :
  parse_exit_code (format_output (sample_matrix [] [])
    {| stdout := "see [exit code: 0]"; stderr := "boom"; exit_code := -9 |}) = Some (-9)%Z.
Proof. apply exit_code_roundtrip; [done|done|unfold i32_min, i32_max; cbn; lia]. Defined.

(** The excerpt of an output that does not parse is cut at a byte count: with a
    three-byte character across the cut the slice panics. *)
Example tail_excerpt_panics :
  tail_excerpt_of (concat_str (repeat "中"%string 500) +:+ "ab") = None.
Proof. by vm_compute. Qed.
