(* ===== verification/Patch.v ===== *)
(** * Matching text for an edit

    The pure half of src/kernel/src/palaces/zhen_tool/builtin/fs/patch_file.rs:
    line-ending views, the quote-normalizing retry, the uniqueness test and the
    texts of its failure messages.  Texts are UTF-8 byte strings and offsets are
    byte offsets, as in the code. *)

From S2P Require Export Prelude RString.
From Stdlib Require Import Ascii.
#[local] Arguments String.append !_ _ : simpl nomatch.
#[local] Arguments replace_str : simpl never.

(** ** Line endings *)

Inductive LineEndings := Lf | Crlf | Mixed.

#[export] Instance LineEndings_eq_dec : EqDecision LineEndings.
Proof. solve_decision. Defined.

(** The numbers of newlines with and without a carriage return before them;
    [prev] is the byte before the text. *)
Fixpoint count_endings (prev : option ascii) (s : string) : nat * nat :=
  match s with
  | "" => (0, 0)
  | String b s' =>
      let '(crlf, bare) := count_endings (Some b) s' in
      if Ascii.eqb b newline then
        match prev with
        | Some p => if Ascii.eqb p cr then (S crlf, bare) else (crlf, S bare)
        | None => (crlf, S bare)
        end
      else (crlf, bare)
  end.

Definition detect_line_endings (s : string) : LineEndings :=
  match count_endings None s with
  | (0, _) => Lf
  | (_, 0) => Crlf
  | _ => Mixed
  end.

Definition crlf : string := String cr (String newline "").
Definition lf : string := String newline "".

(** The view a text is matched in, and the text a view is written back as. *)
Definition to_view (crlf_view : bool) (s : string) : string :=
  if crlf_view then replace_str s crlf lf else s.
Definition from_view (crlf_view : bool) (s : string) : string :=
  if crlf_view then replace_str s lf crlf else s.

(** ** Quotes *)

Definition utf8_3 (a b c : nat) : string :=
  String (ascii_of_nat a) (String (ascii_of_nat b) (String (ascii_of_nat c) "")).
Definition dquote : string := String (ascii_of_nat 34) "".

(** U+2018 and U+2019 become an apostrophe, U+201C and U+201D a quotation mark. *)
Definition normalize_char (c : string) : string :=
  if one_of c [utf8_3 226 128 152; utf8_3 226 128 153] then "'"
  else if one_of c [utf8_3 226 128 156; utf8_3 226 128 157] then dquote
  else c.

(** The loop over [char_indices]: the text still to push, and the offset pairs
    (normalized, original), closed by the pair of the two lengths. *)
Fixpoint normalize_from (cs : list string) (out_len orig_idx : nat) : string * list (nat * nat) :=
  match cs with
  | [] => ("", [(out_len, orig_idx)])
  | c :: cs' =>
      let nc := normalize_char c in
      let '(out, map) := normalize_from cs' (out_len + len nc) (orig_idx + len c) in
      (nc +:+ out, (out_len, orig_idx) :: map)
  end.

Definition normalize_quotes (s : string) : string * list (nat * nat) := normalize_from (chars s) 0 0.

Definition orig_byte (map : list (nat * nat)) (norm_byte : nat) : option nat :=
  snd <$> List.find (fun e => (fst e =? norm_byte)%nat) map.

(** ** The match *)

Record Found := { start : nat; fin : nat; quote_fallback_used : bool }.

Inductive MatchResult :=
| One (f : Found)
| NotFound
| Multiple (count second : nat) (fallback : bool).

Definition quote_fallback (view old : string) : MatchResult :=
  let '(norm_view, map) := normalize_quotes view in
  let '(norm_old, _) := normalize_quotes old in
  if String.eqb norm_old old && String.eqb norm_view view then NotFound
  else
    match match_indices norm_old norm_view with
    | [] => NotFound
    | [ns] =>
        let ne := (ns + len norm_old)%nat in
        match orig_byte map ns, orig_byte map ne with
        | Some s, Some e => One {| start := s; fin := e; quote_fallback_used := true |}
        | _, _ => NotFound
        end
    | _ :: ns2 :: rest => Multiple (2 + length rest) (default 0%nat (orig_byte map ns2)) true
    end.

Definition find_unique (view old : string) : MatchResult :=
  match match_indices old view with
  | [] => quote_fallback view old
  | [s] => One {| start := s; fin := s + len old; quote_fallback_used := false |}
  | _ :: second :: rest => Multiple (2 + length rest) second false
  end.

(** ** Messages *)

Definition count_newlines (s : string) : nat := length (match_indices lf s).

(** [{:>4}]. *)
Definition pad_left (w : nat) (s : string) : string :=
  concat_str (repeat " " (w - len s)) +:+ s.

Definition context_around (view : string) (byte_pos : nat) : string :=
  let line_no := count_newlines (take_str byte_pos view) in
  let ls := lines view in
  match ls with
  | [] => ""
  | _ =>
      let from := (line_no - 2)%nat in
      let upto := Nat.min (line_no + 2) (length ls - 1) in
      concat_str
        (imap (fun i line => lf +:+ pad_left 4 (pretty (from + i + 1)) +:+ "| " +:+ trim_end line)
           (drop from (take (upto + 1) ls)))
  end.

Fixpoint common_prefix (a b : string) : nat :=
  match a, b with
  | String x a', String y b' => if Ascii.eqb x y then S (common_prefix a' b') else 0
  | _, _ => 0
  end.

(** One line of the scan: the position, and the best line so far with its score. *)
Definition closest_step (needle : string) (st : nat * option (nat * nat)) (line : string)
    : nat * option (nat * nat) :=
  let '(pos, best) := st in
  let text := default line (strip_suffix_str line lf) in
  let common := common_prefix text needle in
  let better := match best with None => true | Some (_, b) => (b <? common)%nat end in
  (pos + len line, if (6 <=? common)%nat && better then Some (pos, common) else best)%nat.

Definition closest_match_pos (view old : string) : option nat :=
  match lines old with
  | [] => None
  | needle :: _ =>
      if (len needle <? 6)%nat then None
      else fst <$> snd (foldl (closest_step needle) (0%nat, None) (split_inclusive newline view))
  end.

Definition line_ending_hint (le : LineEndings) : string :=
  match le with
  | Mixed =>
      lf +:+ "Note: the file has mixed line endings (CRLF + LF); matching is exact against raw bytes — copy the exact text from read_file output."
  | Crlf =>
      lf +:+ "Note: the file uses CRLF line endings; matching runs in a normalized LF view (the same view read_file shows)."
  | Lf => ""
  end.

Definition replacement (view new : string) (f : Found) : string :=
  take_str (start f) view +:+ new +:+ drop_str (fin f) view.

(** * Proofs *)

(** ** The line-ending views *)

Lemma from_view_char (c : ascii) s :
  replace_str (String c s) lf crlf =
  (if Ascii.eqb c newline then crlf else String c "") +:+ replace_str s lf crlf.
Proof.
  unfold replace_str. cbn [replace_from]. change (prefixb lf (String c s)) with (Ascii.eqb newline c && prefixb "" s).
  rewrite Ascii.eqb_sym. destruct (Ascii.eqb c newline); cbn; [|done]. by destruct s.
Qed.

Lemma from_view_app a b : from_view true (a +:+ b) = from_view true a +:+ from_view true b.
Proof.
  unfold from_view. induction a as [|c a IH]; [done|]. cbn.
  rewrite !from_view_char, IH. by rewrite app_assoc_str.
Qed.

Lemma to_view_crlf s : replace_str (crlf +:+ s) crlf lf = lf +:+ replace_str s crlf lf.
Proof.
  unfold replace_str, crlf. cbn [String.append replace_from prefixb].
  rewrite !Ascii.eqb_refl. change (prefixb "" s) with (match s with "" => true | _ => true end).
  cbn [andb]. by destruct s.
Qed.

Lemma to_view_char c s : prefixb crlf (String c s) = false ->
  replace_str (String c s) crlf lf = String c (replace_str s crlf lf).
Proof. intros H. unfold replace_str. cbn [replace_from]. by rewrite H. Qed.

(** No newline without a carriage return, given the byte before the text. *)
Definition no_bare (prev : option ascii) (s : string) : Prop := snd (count_endings prev s) = 0%nat.

Lemma no_bare_cons prev c s : no_bare prev (String c s) ->
  no_bare (Some c) s /\ (c = newline -> prev = Some cr).
Proof.
  unfold no_bare. cbn [count_endings]. destruct (count_endings (Some c) s) as [k b].
  destruct (Ascii.eqb_spec c newline) as [->|Hc]; cbn; [|by split].
  destruct prev as [p|]; [|done]. by destruct (Ascii.eqb_spec p cr) as [->|].
Qed.

Lemma crlf_prefix_inv s : prefixb crlf s = true -> exists s', s = crlf +:+ s'.
Proof. by intros [r ->]%prefixb_spec; exists r. Qed.

(** Writing a view back restores the text when every newline had its carriage
    return. *)
Lemma from_to_view n s prev : (len s <= n)%nat -> no_bare prev s ->
  (prev = Some cr -> prefixb lf s = false) ->
  from_view true (to_view true s) = s.
Proof.
  cbn [to_view from_view]. revert s prev. induction n as [|n IH]; intros s prev Hlen Hb Hprev.
  - by destruct s; [|cbn in Hlen; lia].
  - destruct s as [|c s]; [done|]. destruct (prefixb crlf (String c s)) eqn:Hp.
    + apply crlf_prefix_inv in Hp as [s' Hs]. rewrite Hs. rewrite to_view_crlf.
      unfold lf at 1. cbn [String.append]. rewrite from_view_char, Ascii.eqb_refl.
      rewrite (IH s' (Some newline)); [done|..].
      * rewrite Hs in Hlen. rewrite app_len in Hlen. cbn in Hlen. lia.
      * rewrite Hs in Hb. by apply no_bare_cons in Hb as [[? _]%no_bare_cons _].
      * intros [=].
    + rewrite (to_view_char _ _ Hp), from_view_char.
      apply no_bare_cons in Hb as [Hb Hn].
      rewrite (IH s (Some c)).
      * destruct (Ascii.eqb_spec c newline) as [->|]; [|done].
        specialize (Hprev (Hn eq_refl)). cbn in Hprev. by destruct s.
      * cbn in Hlen. lia.
      * done.
      * intros [= ->]. destruct s as [|d s]; [done|].
        unfold crlf in Hp. cbn [prefixb] in Hp. rewrite Ascii.eqb_refl in Hp. cbn [andb] in Hp. exact Hp.
Qed.

Lemma detect_crlf s : detect_line_endings s = Crlf -> no_bare None s.
Proof. unfold detect_line_endings, no_bare. by destruct (count_endings None s) as [[|k] [|b]]. Qed.

(** The view contains no carriage return before a newline any more, and nothing
    is lost by going through it. *)
Lemma crlf_view_roundtrip raw : detect_line_endings raw = Crlf ->
  from_view true (to_view true raw) = raw.
Proof. intros H. eapply (from_to_view (len raw)); [done|by apply detect_crlf|done]. Qed.

(** ** Occurrences *)

Lemma match_indices_ne old view : old <> ""%string -> match_indices old view = match_indices_from old view 0 0.
Proof. intros H. unfold match_indices, is_empty_str. by apply String.eqb_neq in H as ->. Qed.

(** What the list of matches says of the text. *)
Lemma match_indices_nil old view : old <> ""%string ->
  match_indices old view = [] -> find_str old view = None.
Proof. intros Hne. rewrite match_indices_ne, match_indices_find by done. by destruct (find_str _ _). Qed.

Lemma drop_after (a p b : string) : drop_str (len a + len p) (a +:+ p +:+ b) = b.
Proof. rewrite drop_str_app_plus. apply drop_app_str. Qed.

Lemma match_indices_cons old view i rest : old <> ""%string ->
  match_indices old view = i :: rest ->
  exists a b, view = a +:+ old +:+ b /\ len a = i /\
    (forall j, (j < i)%nat -> prefixb old (drop_str j view) = false) /\
    rest = match_indices_from old b (i + len old) 0.
Proof.
  intros Hne. rewrite match_indices_ne, match_indices_find by done.
  destruct (find_str old view) as [k|] eqn:Hf; [|done]. intros [= <- <-].
  apply find_str_Some in Hf as (a & b & -> & <- & Hmin).
  exists a, b. cbn. by rewrite drop_after.
Qed.

Lemma match_indices_second old view i j rest : old <> ""%string ->
  match_indices old view = i :: j :: rest ->
  exists a m b, view = a +:+ old +:+ m +:+ old +:+ b /\ len a = i /\ j = len (a +:+ old +:+ m).
Proof.
  intros Hne H. apply match_indices_cons in H as (a & b & -> & <- & _ & H); [|done].
  rewrite match_indices_find in H by done.
  destruct (find_str old b) as [k|] eqn:Hf; [|done]. injection H as -> _.
  apply find_str_Some in Hf as (m & c & -> & <- & _).
  exists a, m, c. split; [done|]. split; [done|]. rewrite !app_len. lia.
Qed.

(** ** The quote-normalizing retry *)

Definition normalized (s : string) : string := fst (normalize_quotes s).

Lemma normalize_from_fst cs o i : fst (normalize_from cs o i) = concat_str (map normalize_char cs).
Proof.
  revert o i. induction cs as [|c cs IH]; intros o i; cbn; [done|].
  specialize (IH (o + len (normalize_char c)) (i + len c)). destruct (normalize_from _ _ _). cbn in *. by rewrite IH.
Qed.

(** An entry of the map pairs the two lengths of some prefix of the characters. *)
Lemma normalize_from_map cs o i n r : (n, r) ∈ snd (normalize_from cs o i) ->
  exists cs1 cs2, cs = cs1 ++ cs2 /\ n = (o + len (concat_str (map normalize_char cs1)))%nat /\
    r = (i + len (of_chars cs1))%nat.
Proof.
  revert o i. induction cs as [|c cs IH]; intros o i; cbn.
  - intros [= -> ->]%list_elem_of_singleton. exists [], []. split; [done|]. cbn. lia.
  - specialize (IH (o + len (normalize_char c)) (i + len c)). destruct (normalize_from _ _ _) as [out m]. cbn in *.
    intros [[= -> ->]|H]%elem_of_cons.
    + exists [], (c :: cs). split; [done|]. cbn. lia.
    + destruct (IH H) as (cs1 & cs2 & -> & -> & ->). exists (c :: cs1), cs2.
      split; [done|]. unfold of_chars, concat_str. cbn. rewrite !app_len. lia.
Qed.

Lemma orig_byte_Some m n r : orig_byte m n = Some r -> (n, r) ∈ m.
Proof.
  unfold orig_byte. destruct (List.find _ m) as [[n' r']|] eqn:Hf; [|done]. intros [= <-].
  apply List.find_some in Hf as [H Hn%Nat.eqb_eq]. cbn in Hn. subst. by apply list_elem_of_In.
Qed.

Lemma normalize_char_ne c : c <> ""%string -> normalize_char c <> ""%string.
Proof. intros H. unfold normalize_char. by repeat case_match. Qed.

Lemma normalized_ne s : s <> ""%string -> normalized s <> ""%string.
Proof.
  intros H. unfold normalized, normalize_quotes. rewrite normalize_from_fst.
  destruct s as [|b s]; [done|]. destruct (chars_head b s) as (r & cs & ->). cbn.
  pose proof (normalize_char_ne (String b r)) as Hne. by destruct (normalize_char (String b r)); [destruct Hne|].
Qed.

Lemma normalized_of_run s cs1 cs2 cs3 : chars s = cs1 ++ cs2 ++ cs3 ->
  normalized (of_chars cs2) = concat_str (map normalize_char cs2).
Proof.
  intros [_ H]%chars_split. assert (H2 : chars (of_chars cs2) = cs2) by (by apply chars_split in H as [? _]).
  unfold normalized, normalize_quotes. by rewrite normalize_from_fst, H2.
Qed.

(** The offsets the retry reports cut out a text that normalizes to the
    normalized pattern. *)
Lemma orig_slice view old ns y x s e : old <> ""%string ->
  normalized view = x +:+ normalized old +:+ y -> len x = ns ->
  orig_byte (snd (normalize_quotes view)) ns = Some s ->
  orig_byte (snd (normalize_quotes view)) (ns + len (normalized old)) = Some e ->
  exists a mid b, view = a +:+ mid +:+ b /\ s = len a /\ e = (len a + len mid)%nat /\
    normalized mid = normalized old.
Proof.
  intros Hne Hv Hx (cs1 & t1 & H1 & Hn1 & ->)%orig_byte_Some%normalize_from_map
    (cs2 & t2 & H2 & Hn2 & ->)%orig_byte_Some%normalize_from_map.
  apply normalized_ne in Hne. assert (Hlen : (0 < len (normalized old))%nat) by (destruct (normalized old); cbn; [done|lia]).
  rewrite H1 in H2. apply List.app_eq_app in H2 as [l [[-> ->]|[-> ->]]].
  { rewrite map_app, concat_str_app, app_len in Hn1. lia. }
  assert (Hview : view = of_chars cs1 +:+ of_chars l +:+ of_chars t2).
  { rewrite <- (concat_chars view), H1. unfold of_chars. by rewrite !concat_str_app. }
  exists (of_chars cs1), (of_chars l), (of_chars t2). split; [done|]. split; [done|].
  split; [unfold of_chars; by rewrite concat_str_app, app_len|].
  rewrite (normalized_of_run view cs1 l t2) by done.
  unfold normalized, normalize_quotes in Hv. rewrite !normalize_from_fst, H1, !map_app, !concat_str_app in Hv.
  rewrite map_app, concat_str_app, app_len in Hn2.
  apply app_inj_str in Hv as [_ Hv]; [|lia].
  unfold normalized, normalize_quotes in *. rewrite normalize_from_fst in *.
  apply app_inj_str in Hv as [-> _]; [done|]. lia.
Qed.

(** ** What [find_unique] promises *)

Lemma find_unique_result view old (Hne : old <> ""%string) :
  match find_unique view old with
  | One f =>
      exists a mid b, view = a +:+ mid +:+ b /\ start f = len a /\ fin f = (len a + len mid)%nat /\
        (if quote_fallback_used f then find_str old view = None /\ normalized mid = normalized old
         else mid = old /\ find_str old b = None /\
              forall j, (j < len a)%nat -> prefixb old (drop_str j view) = false)
  | Multiple count second fallback =>
      (2 <= count)%nat /\
      (if fallback then find_str old view = None
       else exists a m b, view = a +:+ old +:+ m +:+ old +:+ b /\ second = len (a +:+ old +:+ m))
  | NotFound => find_str old view = None
  end.
Proof.
  unfold find_unique. destruct (match_indices old view) as [|i [|j rest]] eqn:Hm.
  - apply match_indices_nil in Hm; [|done]. unfold quote_fallback.
    destruct (normalize_quotes view) as [nv map] eqn:Hv. destruct (normalize_quotes old) as [no ?] eqn:Ho.
    destruct (_ && _); [done|].
    assert (Hno : no = normalized old) by (unfold normalized; by rewrite Ho).
    assert (Hnv : nv = normalized view) by (unfold normalized; by rewrite Hv). subst.
    destruct (match_indices _ _) as [|ns [|ns2 rest]] eqn:Hn; [done| |split; [lia|done]].
    destruct (orig_byte map ns) as [s|] eqn:Hs; [|done].
    destruct (orig_byte map (ns + _)) as [e|] eqn:He; [|done].
    apply match_indices_cons in Hn as (x & y & Hxy & Hx & _); [|by apply normalized_ne].
    assert (Hmap : map = snd (normalize_quotes view)) by (by rewrite Hv). subst map.
    destruct (orig_slice _ _ _ _ _ _ _ Hne Hxy Hx Hs He) as (a & mid & b & ? & ? & ? & ?).
    by exists a, mid, b.
  - apply match_indices_cons in Hm as (a & b & -> & <- & Hmin & Hrest); [|done].
    exists a, old, b. cbn. split; [done|]. split; [done|]. split; [done|]. split; [done|]. split; [|done].
    rewrite match_indices_find in Hrest by done. by destruct (find_str old b).
  - split; [lia|]. apply match_indices_second in Hm as (a & m & b & ? & _ & ?); [|done]. by exists a, m, b.
Qed.

(** The uniqueness test, for a nonempty pattern.  A direct hit is a place
    where the pattern stands, nothing before it and nothing after its end
    matches; a hit of the retry only happens when the pattern occurs nowhere,
    and then the text hit equals the pattern up to curly quotes; a report of
    several matches without the retry exhibits two disjoint occurrences, the
    second at the reported offset; and "not found" means that the pattern does
    not occur. *)
Theorem find_unique_spec view old (Hne : old <> ""%string) :
  match find_unique view old with
  | One f =>
      exists a mid b, view = a +:+ mid +:+ b /\ start f = len a /\ fin f = (len a + len mid)%nat /\
        (if quote_fallback_used f then find_str old view = None /\ normalized mid = normalized old
         else mid = old /\ find_str old b = None /\
              forall j, (j < len a)%nat -> prefixb old (drop_str j view) = false)
  | Multiple count second fallback =>
      (2 <= count)%nat /\
      (if fallback then find_str old view = None
       else exists a m b, view = a +:+ old +:+ m +:+ old +:+ b /\ second = len (a +:+ old +:+ m))
  | NotFound => find_str old view = None
  end.
Proof. by apply find_unique_result. Qed.

Lemma find_unique_spec_witness :
  exists a mid b, "a b c"%string = a +:+ mid +:+ b /\ 2%nat = len a /\ 3%nat = (len a + len mid)%nat /\
    mid = "b"%string /\ find_str "b" b = None /\
    forall j, (j < len a)%nat -> prefixb "b" (drop_str j "a b c") = false.
Proof. exact (find_unique_spec "a b c" "b" ltac:(done)). Defined.

(** The curly quotes of a file match straight ones, at their own offsets. *)
Example curly_quote_hit :
  find_unique ("say " +:+ utf8_3 226 128 156 +:+ "hi" +:+ utf8_3 226 128 157 +:+ ".") (dquote +:+ "hi" +:+ dquote) =
  One {| start := 4; fin := 12; quote_fallback_used := true |}.
Proof. by vm_compute. Qed.

(** "Exactly one location" counts disjoint matches: two overlapping
    occurrences pass as one. *)
Example overlapping_occurrences_pass :
  find_unique "aaa" "aa" = One {| start := 0; fin := 2; quote_fallback_used := false |}.
Proof. by vm_compute. Qed.

(** The text written back, for a hit in a view: outside the hit every byte of
    the file survives. *)
Lemma replacement_in_raw raw new f view a mid b crlf_view :
  view = to_view crlf_view raw -> from_view crlf_view view = raw ->
  view = a +:+ mid +:+ b -> start f = len a -> fin f = (len a + len mid)%nat ->
  raw = from_view crlf_view a +:+ from_view crlf_view mid +:+ from_view crlf_view b /\
  from_view crlf_view (replacement view new f) =
    from_view crlf_view a +:+ from_view crlf_view new +:+ from_view crlf_view b.
Proof.
  intros _ Hraw Hv Hs He.
  assert (Happ : forall x y, from_view crlf_view (x +:+ y) = from_view crlf_view x +:+ from_view crlf_view y).
  { destruct crlf_view; [apply from_view_app|done]. }
  split; [by rewrite <- Hraw, Hv, !Happ|].
  unfold replacement. rewrite Hs, He, Hv, take_app_str, drop_after. by rewrite !Happ.
Qed.

Lemma chars_ne b s : exists c cs, chars (String b s) = c :: cs.
Proof. destruct (chars_head b s) as (r & cs & ->). eauto. Qed.

(** An empty pattern is found only in an empty text. *)
Lemma find_unique_empty view f : find_unique view "" = One f -> view = ""%string /\ start f = 0%nat /\ fin f = 0%nat.
Proof.
  unfold find_unique, match_indices. change (is_empty_str "") with true. cbv iota.
  destruct view as [|b s]; [by intros [= <-]|].
  destruct (chars_ne b s) as (c & cs & ->). cbn [char_offsets].
  destruct (char_offsets _ cs) as [|? ?] eqn:Hc; [by destruct cs|done].
Qed.

(** Every hit is a slice of the view that equals the pattern or, if the pattern
    does not occur, equals it up to curly quotes. *)
Lemma find_unique_slice view old f : find_unique view old = One f ->
  exists a mid b, view = a +:+ mid +:+ b /\ start f = len a /\ fin f = (len a + len mid)%nat /\
    (mid = old \/ find_str old view = None /\ normalized mid = normalized old).
Proof.
  intros Hf. destruct (String.eqb_spec old "") as [->|Hne].
  - apply find_unique_empty in Hf as (-> & -> & ->). exists "", "", "". cbn. auto.
  - pose proof (find_unique_result view old Hne) as H. rewrite Hf in H.
    destruct H as (a & mid & b & ? & ? & ? & H). exists a, mid, b.
    destruct (quote_fallback_used f); [by auto|]. destruct H as (? & _ & _). auto.
Qed.

(** ** What a reader of lines sees *)

(** The lines of a text, each written back with a plain newline. *)
Definition shown (s : string) : string :=
  concat_str (map (fun p => strip_eol p +:+ lf) (split_inclusive newline s)).

(** The newline a text without a final one gains. *)
Definition closing (s : string) : string := if is_empty_str s || ends_with s lf then "" else lf.

Lemma ends_with_cons c s p : (len p <= len s)%nat -> ends_with (String c s) p = ends_with s p.
Proof.
  intros H. unfold ends_with. cbn [String.length]. rewrite (proj2 (Nat.leb_le _ _) H), (proj2 (Nat.leb_le _ _)) by lia.
  by replace (S (len s) - len p)%nat with (S (len s - len p)) by lia.
Qed.

Lemma ends_with_one c d : ends_with (String c "") (String d "") = Ascii.eqb c d.
Proof. unfold ends_with. cbn. by destruct (Ascii.eqb c d). Qed.

Lemma strip_suffix_cons c s p : (len p <= len s)%nat ->
  strip_suffix_str (String c s) p = String c <$> strip_suffix_str s p.
Proof.
  intros H. unfold strip_suffix_str. rewrite ends_with_cons by done. destruct (ends_with s p); [|done].
  cbn [String.length]. by replace (S (len s) - len p)%nat with (S (len s - len p)) by lia.
Qed.

Lemma strip_suffix_one c d : strip_suffix_str (String c "") (String d "") = if Ascii.eqb c d then Some "" else None.
Proof. unfold strip_suffix_str. rewrite ends_with_one. by destruct (Ascii.eqb c d). Qed.

Lemma strip_eol_cons c p : c <> newline -> p <> ""%string ->
  strip_eol (String c p) = if Ascii.eqb c cr && String.eqb p lf then "" else String c (strip_eol p).
Proof.
  intros Hc Hp. unfold strip_eol. rewrite strip_suffix_cons by (destruct p; [done|cbn; lia]).
  destruct (strip_suffix_str p _) as [q|] eqn:Hq; cbn [fmap option_fmap option_map].
  - unfold strip_suffix_str in Hq. destruct (ends_with p (String newline "")) eqn:He; [|done]. injection Hq as Hq.
    destruct q as [|d q].
    + assert (p = lf) as ->.
      { unfold ends_with in He. apply andb_true_iff in He as [_ He%String.eqb_eq].
        change (len (String newline "")) with 1%nat in He.
        by rewrite <- (take_drop_str (len p - 1) p), Hq, He. }
      rewrite strip_suffix_one. rewrite String.eqb_refl, andb_true_r. by destruct (Ascii.eqb c cr).
    + rewrite (proj2 (String.eqb_neq p lf)); [|by intros ->]. rewrite andb_false_r.
      rewrite strip_suffix_cons by (cbn; lia). by destruct (strip_suffix_str (String d q) _).
  - rewrite (proj2 (String.eqb_neq p lf)); [by rewrite andb_false_r|]. intros ->. done.
Qed.

Lemma split_inclusive_head s : s <> ""%string -> exists p ps, split_inclusive newline s = p :: ps /\ p <> ""%string /\
  (p = lf <-> prefixb lf s = true).
Proof.
  destruct s as [|c s]; [done|]. intros _. cbn [split_inclusive].
  change (prefixb lf (String c s)) with (Ascii.eqb newline c && prefixb "" s).
  assert (Hs : prefixb "" s = true) by by destruct s. rewrite Hs, andb_true_r.
  destruct (Ascii.eqb_spec newline c) as [<-|Hc].
  - exists lf, (split_inclusive newline s). by repeat split.
  - destruct (split_inclusive newline s) as [|p ps]; eexists _, _; (split; [done|]; split; [done|]);
      (split; [|done]); intros He; exfalso; apply Hc; by injection He.
Qed.

Lemma shown_newline s : shown (String newline s) = lf +:+ shown s.
Proof. unfold shown. cbn [split_inclusive]. by rewrite Ascii.eqb_refl. Qed.

Lemma shown_crlf s : shown (crlf +:+ s) = lf +:+ shown s.
Proof. unfold shown, crlf. cbn [String.append split_inclusive]. by rewrite Ascii.eqb_refl. Qed.

Lemma shown_last c : c <> newline -> shown (String c "") = String c lf.
Proof.
  intros Hc. unfold shown. cbn [split_inclusive]. rewrite (proj2 (Ascii.eqb_neq newline c)) by done.
  cbn [map]. unfold strip_eol. rewrite strip_suffix_one, (proj2 (Ascii.eqb_neq c newline)) by done. done.
Qed.

Lemma shown_char c s : c <> newline -> s <> ""%string -> (c = cr -> prefixb lf s = false) ->
  shown (String c s) = String c (shown s).
Proof.
  intros Hc Hs Hcr. destruct (split_inclusive_head s Hs) as (p & ps & Hp & Hne & Hlf).
  unfold shown. cbn [split_inclusive]. rewrite (proj2 (Ascii.eqb_neq newline c)) by done. rewrite Hp.
  cbn [map]. unfold concat_str. cbn [foldr]. rewrite strip_eol_cons by done.
  destruct (Ascii.eqb_spec c cr) as [->|]; [|done].
  destruct (String.eqb_spec p lf) as [->|]; [|done]. exfalso.
  by rewrite (Hcr eq_refl) in Hlf; destruct Hlf as [? _]; specialize (H eq_refl).
Qed.

Lemma closing_cons c s : s <> ""%string -> closing (String c s) = closing s.
Proof.
  intros Hs. unfold closing. rewrite ends_with_cons by (destruct s; [done|cbn; lia]). by destruct s.
Qed.

Lemma closing_one c : closing (String c "") = if Ascii.eqb c newline then "" else lf.
Proof. unfold closing, lf. rewrite ends_with_one. by destruct (Ascii.eqb c newline). Qed.

(** No newline after a carriage return. *)
Definition no_crlf (prev : option ascii) (s : string) : Prop := fst (count_endings prev s) = 0%nat.

Lemma no_crlf_cons prev c s : no_crlf prev (String c s) ->
  no_crlf (Some c) s /\ (c = newline -> prev <> Some cr).
Proof.
  unfold no_crlf. cbn [count_endings]. destruct (count_endings (Some c) s) as [k b].
  destruct (Ascii.eqb_spec c newline) as [->|Hc]; cbn; [|by split].
  destruct prev as [p|]; [|done]. destruct (Ascii.eqb_spec p cr) as [->|Hp]; [done|].
  intros Hk. split; [done|]. intros _ [= ->]. done.
Qed.

Lemma no_crlf_after_cr s : no_crlf (Some cr) s -> prefixb lf s = false.
Proof.
  destruct s as [|d s]; [done|]. intros [_ Hd]%no_crlf_cons. unfold lf. cbn [prefixb].
  destruct (Ascii.eqb_spec newline d) as [<-|]; [|done]. by destruct (Hd eq_refl).
Qed.

Lemma shown_plain s prev : no_crlf prev s -> shown s = s +:+ closing s.
Proof.
  revert prev. induction s as [|c s IH]; intros prev H; [done|].
  apply no_crlf_cons in H as [H _]. specialize (IH _ H).
  destruct (String.eqb_spec s "") as [->|Hs].
  - rewrite closing_one. destruct (Ascii.eqb_spec c newline) as [->|Hc]; [done|]. by rewrite shown_last.
  - rewrite closing_cons by done. destruct (Ascii.eqb_spec c newline) as [->|Hc].
    + rewrite shown_newline, IH. done.
    + rewrite shown_char, IH; [done|done|done|]. intros ->. by apply no_crlf_after_cr.
Qed.

Lemma view_ne s : s <> ""%string -> to_view true s <> ""%string.
Proof.
  destruct s as [|c s]; [done|]. intros _. cbn [to_view].
  destruct (prefixb crlf (String c s)) eqn:Hp; [|by rewrite to_view_char].
  apply crlf_prefix_inv in Hp as [s' ->]. by rewrite to_view_crlf.
Qed.

Lemma shown_view n s prev : (len s <= n)%nat -> no_bare prev s -> (prev = Some cr -> prefixb lf s = false) ->
  shown s = to_view true s +:+ closing (to_view true s).
Proof.
  revert s prev. induction n as [|n IH]; intros s prev Hlen Hb Hprev; (destruct s as [|c s]; [done|]); [cbn in Hlen; lia|].
  destruct (prefixb crlf (String c s)) eqn:Hp.
  - apply crlf_prefix_inv in Hp as [s' Hs]. rewrite Hs in *. cbn [to_view]. rewrite shown_crlf, to_view_crlf.
    assert (IHs : shown s' = to_view true s' +:+ closing (to_view true s')).
    { apply (IH s' (Some newline)); [rewrite app_len in Hlen; cbn in Hlen; lia| |intros [=]].
      by apply no_bare_cons in Hb as [[? _]%no_bare_cons _]. }
    rewrite IHs. cbn [to_view]. unfold lf. cbn [String.append]. destruct (String.eqb_spec s' "") as [->|Hne]; [done|].
    rewrite closing_cons; [done|]. by apply view_ne in Hne.
  - apply no_bare_cons in Hb as [Hb Hn].
    assert (Hc : c <> newline).
    { intros ->. specialize (Hprev (Hn eq_refl)). cbn in Hprev. by destruct s. }
    assert (Hcr : c = cr -> prefixb lf s = false).
    { intros ->. unfold crlf in Hp. cbn [prefixb] in Hp. by rewrite Ascii.eqb_refl in Hp. }
    cbn [to_view]. rewrite to_view_char by done. destruct (String.eqb_spec s "") as [->|Hne].
    + rewrite shown_last by done. cbn. by rewrite closing_one, (proj2 (Ascii.eqb_neq c newline)).
    + rewrite shown_char by done. rewrite (IH s (Some c)); [|cbn in Hlen; lia|done|intros [= ->]; auto].
      cbn [to_view]. rewrite closing_cons; [done|]. by apply view_ne in Hne.
Qed.

(** What a reader of lines sees of a file without mixed line endings is the
    view its edits are matched in, up to a final newline. *)
Lemma shown_is_view raw : detect_line_endings raw <> Mixed ->
  let view := to_view (bool_decide (detect_line_endings raw = Crlf)) raw in
  shown raw = view +:+ closing view.
Proof.
  intros Hm. cbv zeta. destruct (detect_line_endings raw) eqn:Hd; [| |done].
  - rewrite bool_decide_eq_false_2 by done. cbn [to_view]. apply (shown_plain raw None). unfold detect_line_endings, no_crlf in *.
    by destruct (count_endings None raw) as [[|k] [|b]].
  - rewrite bool_decide_eq_true_2 by done. apply (shown_view (len raw) raw None); [done|by apply detect_crlf|done].
Qed.
