(* ===== verification/Files.v ===== *)
(** * The file tools and the freshness gate

    src/kernel/src/palaces/zhen_tool/builtin/fs/{read_file,write_file,patch_file,
    revert_file}.rs and the read memory of src/kernel/src/stems/action.rs.

    The file system and the LRU cache are interfaces: a class of operations with
    the laws the tools rely on.  The theorems are proved against the interfaces;
    an in-memory file system and a bounded list discharge the laws at the end of
    the file and run the witnesses. *)

From S2P Require Export Prelude RString Json Path Permission Tool Patch.
From stdpp Require Import sorting.
From Stdlib Require Import Ascii.
#[local] Arguments String.append !_ _ : simpl nomatch.

(** ** Interfaces *)

(** What [metadata] reports: [modified().ok()], the size and the kind. *)
Record Meta := { modified : option Z; size : Z; is_file : bool }.

(** The calls the tools make.  A call that changes the file system returns its
    outcome and the file system after it; the error text is the one printed. *)
Class FileSystem (FS : Type) := {
  fs_exists : FS -> string -> bool;
  fs_canonicalize : FS -> string -> result string string;
  fs_metadata : FS -> string -> result string Meta;
  fs_read : FS -> string -> result string string;
  fs_write : string -> string -> FS -> result string unit * FS;
  fs_copy : string -> string -> FS -> result string unit * FS;
  fs_create_dir_all : string -> FS -> result string unit * FS;
  fs_read_dir : FS -> string -> list string
}.

Class FileSystemLaws (FS : Type) `{FileSystem FS} := {
  write_read p s fs fs' : fs_write p s fs = (Ok (), fs') -> fs_read fs' p = Ok s;
  write_frame p s fs q : q <> p -> fs_read (snd (fs_write p s fs)) q = fs_read fs q;
  copy_read p q fs fs' : p <> q -> fs_copy p q fs = (Ok (), fs') ->
    exists s, fs_read fs p = Ok s /\ fs_read fs' q = Ok s;
  copy_frame p q fs r : r <> q -> fs_read (snd (fs_copy p q fs)) r = fs_read fs r;
  mkdir_frame d fs q : fs_read (snd (fs_create_dir_all d fs)) q = fs_read fs q;
  exists_metadata fs p : fs_exists fs p = is_ok (fs_metadata fs p);
  listed fs d n f : clean_segment n -> clean_segment f ->
    fs_exists fs (path_join (path_join d n) f) = true -> n ∈ fs_read_dir fs d
}.

(** The cache of the [lru] crate, keyed by path. *)
Class LruCache (C : Type) := {
  lru_new : C;
  lru_get : string -> C -> option (Z * Z) * C;
  lru_peek : string -> C -> option (Z * Z);
  lru_put : string -> Z * Z -> C -> C
}.

(** It may forget, but what it finds was the last thing put. *)
Class LruCacheLaws (C : Type) `{LruCache C} := {
  lru_peek_new k : lru_peek k lru_new = None;
  lru_get_peek k c : fst (lru_get k c) = lru_peek k c;
  lru_peek_get k k' c : lru_peek k (snd (lru_get k' c)) = lru_peek k c;
  lru_peek_put k v c : lru_peek k (lru_put k v c) = Some v;
  lru_peek_put_ne k k' v v' c : k <> k' -> lru_peek k (lru_put k' v' c) = Some v -> lru_peek k c = Some v
}.

(** ** Errors *)

Inductive ToolError :=
| Execution (tool message : string)
| PermissionDenied (reason : string)
| InvalidInput (tool reason : string)
| SandboxRejected (reason : string)
| Timeout (tool : string) (secs : Z).

(** [From<String>] and [From<&str>]. *)
Definition error_of (s : string) : ToolError := Execution "" s.

(** ** The freshness gate *)

Section Gate.
Context {C : Type} `{LruCache C}.

Definition record_read (path : string) (mtime nanos : Z) (cache : C) : C :=
  lru_put path (mtime, nanos) cache.

Definition check_freshness (path : string) (current_mtime : Z) (cache : C) : result string unit * C :=
  match lru_get path cache with
  | (None, cache') =>
      (Err ("Freshness gate: '" +:+ path +:+ "' has not been read in this session. Please read_file first."), cache')
  | (Some (cached_mtime, _), cache') =>
      if negb (cached_mtime =? current_mtime)%Z then
        (Err ("Freshness gate: '" +:+ path +:+ "' was modified after your last read (mtime changed). Please re-read the file."), cache')
      else (Ok (), cache')
  end.

End Gate.

(** ** The state a tool runs in *)

(** The file system, the read memory, and what the outside supplies: the wall
    clock, the test that bytes are UTF-8, and the language server. *)
Record World (FS C : Type) := { fs : FS; read_state : C }.
Arguments fs {FS C} w.
Arguments read_state {FS C} w.
Arguments Build_World {FS C} _ _.

Record Outside := {
  now_secs : Z;
  now_nanos : Z;
  utf8 : string -> bool;
  post_edit_summary : string -> option string
}.

Definition Tool_m (FS C A : Type) : Type := World FS C -> result ToolError A * World FS C.

#[export] Instance Tool_ret {FS C} : MRet (Tool_m FS C) := fun A a w => (Ok a, w).
#[export] Instance Tool_bind {FS C} : MBind (Tool_m FS C) := fun A B k m w =>
  match m w with
  | (Ok a, w') => k a w'
  | (Err e, w') => (Err e, w')
  end.

Section Tools.
Context {FS C : Type} `{FileSystem FS, LruCache C}.
Context (out : Outside) (perm : PermissionMatrix).

Definition throw {A} (e : ToolError) : Tool_m FS C A := fun w => (Err e, w).
Definition lift {A} (r : result string A) : Tool_m FS C A := fun w => (map_err error_of r, w).
Definition ask {A} (f : FS -> A) : Tool_m FS C A := fun w => (Ok (f (fs w)), w).
Definition run_fs {A} (f : FS -> A * FS) : Tool_m FS C A := fun w =>
  let '(a, fs') := f (fs w) in (Ok a, {| fs := fs'; read_state := read_state w |}).

(** [ctx.permissions.verify_path(path, op)?]. *)
Definition verify (path : string) (op : PathOp) : Tool_m FS C string :=
  r ← ask (fun fs => verify_path (fs_exists fs) (fs_canonicalize fs) perm path op); lift r.

Definition gate (canonical : string) (mtime : Z) : Tool_m FS C unit := fun w =>
  let '(r, cache) := check_freshness canonical mtime (read_state w) in
  (map_err PermissionDenied r, {| fs := fs w; read_state := cache |}).

(** The gate of the tools that overwrite: only if the file can be inspected. *)
Definition gate_if_present (canonical : string) : Tool_m FS C unit :=
  meta ← ask (fun fs => fs_metadata fs canonical);
  match ok meta ≫= modified with
  | Some mtime => gate canonical mtime
  | None => mret ()
  end.

(** After a write: remember the new modification time. *)
Definition refresh (canonical : string) : Tool_m FS C unit := fun w =>
  match ok (fs_metadata (fs w) canonical) ≫= modified with
  | Some mtime => (Ok (), {| fs := fs w; read_state := record_read canonical mtime (now_nanos out) (read_state w) |})
  | None => (Ok (), w)
  end.

Definition backup_dir_at (ts : Z) : string := path_join (backup_dir perm) (pretty ts).

Definition append_post_edit_diagnostics (result canonical : string) : string :=
  match post_edit_summary out canonical with
  | Some summary => result +:+ summary
  | None => result
  end.

(** The access declaration the four tools share, up to its kind. *)
Definition path_accesses (declare : list string -> ToolAccesses) (input : Value) : ToolAccesses :=
  match as_str (index input "path") with
  | Some p => if is_empty_str p then accesses_all else declare [p]
  | None => accesses_all
  end.

(** ** read_file *)

(** The loop over [next_line]. *)
Fixpoint next_lines (pieces : list string) (max_lines count : Z) (content : string)
    : result string (string * bool) :=
  match pieces with
  | [] => Ok (content, false)
  | piece :: rest =>
      if negb (utf8 out piece) then Err "read_file error: stream did not contain valid UTF-8"
      else if (max_lines <=? count)%Z then Ok (content, true)
      else next_lines rest max_lines (count + 1) (content +:+ strip_eol piece +:+ lf)
  end.

Definition truncation_note (max_lines : Z) : string :=
  lf +:+ "... [truncated at line " +:+ pretty max_lines +:+ ", more lines follow]" +:+ lf.

Definition actual_max_lines (input : Value) : Z :=
  Z.max 1 (default 500%Z (as_u64 (index input "max_lines"))).

(** The default range of an unchanged file is not sent twice. *)
Definition is_duplicate (max_lines : Z) (file_mtime : option Z) (canonical : string) (cache : C) : bool :=
  (max_lines <=? 500)%Z &&
  match file_mtime with
  | Some mtime =>
      match lru_peek canonical cache with
      | Some (cached_mtime, _) => (cached_mtime =? mtime)%Z
      | None => false
      end
  | None => false
  end.

Definition read_file_execute (input : Value) : Tool_m FS C string :=
  path ← lift (ok_or (as_str (index input "path")) "Missing 'path' parameter");
  canonical ← verify path Read;
  file_mtime ← ask (fun fs => ok (fs_metadata fs canonical) ≫= modified);
  let max_lines := actual_max_lines input in
  duplicate ← (fun w => (Ok (is_duplicate max_lines file_mtime canonical (read_state w)), w));
  if (duplicate : bool) then
    mret ("File unchanged since last read: " +:+ canonical +:+ ". The content from your earlier read is still current — do NOT re-read this file; proceed with your next step (e.g. patch_file) using that content. Re-read only if you need lines beyond the earlier max_lines.")
  else
    _ ← (match file_mtime with
         | Some mtime => fun w =>
             (Ok (), {| fs := fs w; read_state := record_read canonical mtime (now_nanos out) (read_state w) |})
         | None => mret ()
         end);
    opened ← ask (fun fs => fs_read fs canonical);
    raw ← lift (map_err (String.append "read_file error: ") opened);
    shown ← lift (next_lines (split_inclusive newline raw) max_lines 0 "");
    let '(content, truncated) := (shown : string * bool) in
    mret (if truncated then content +:+ truncation_note max_lines else content).

(** ** write_file *)

Definition write_backup (canonical : string) : Tool_m FS C unit :=
  present ← ask (fun fs => fs_exists fs canonical);
  if (present : bool) then
    let dir := backup_dir_at (now_secs out) in
    made ← run_fs (fs_create_dir_all dir);
    match made, file_name canonical with
    | Ok _, Some fname => _ ← run_fs (fs_copy canonical (path_join dir fname)); mret ()
    | _, _ => mret ()
    end
  else mret ().

Definition write_file_execute (input : Value) : Tool_m FS C string :=
  path ← lift (ok_or (as_str (index input "path")) "Missing 'path' parameter");
  content ← lift (ok_or (as_str (index input "content")) "Missing 'content' parameter");
  canonical ← verify path Write;
  _ ← gate_if_present canonical;
  _ ← write_backup canonical;
  written ← run_fs (fs_write canonical content);
  _ ← lift (map_err (String.append "write_file error: ") written);
  _ ← refresh canonical;
  mret (append_post_edit_diagnostics
          ("Wrote " +:+ pretty (len content) +:+ " bytes to " +:+ canonical) canonical).

(** ** patch_file *)

Definition patch_backup (canonical raw : string) : Tool_m FS C unit :=
  let dir := backup_dir_at (now_secs out) in
  made ← run_fs (fs_create_dir_all dir);
  match made, file_name canonical with
  | Ok _, Some fname => _ ← run_fs (fs_write (path_join dir fname) raw); mret ()
  | _, _ => mret ()
  end.

(** Was the file changed since the recorded read? *)
Definition stale (canonical : string) (current_mtime : option Z) : Tool_m FS C bool := fun w =>
  let '(recorded, cache) := lru_get canonical (read_state w) in
  (Ok (match current_mtime, recorded with
       | Some c, Some (r, _) => negb (c =? r)%Z
       | _, _ => false
       end), {| fs := fs w; read_state := cache |}).

Definition patch_hints (stale_hint : bool) (endings : LineEndings) : string :=
  (if stale_hint
   then lf +:+ "Note: the file was modified on disk since your last read — read_file it again before retrying."
   else "") +:+ line_ending_hint endings.

Definition not_found_message (canonical view old hints : string) : string :=
  "old_string not found in file '" +:+ canonical +:+ "' (0 matches)." +:+
  match closest_match_pos view old with
  | Some pos => " Closest match:" +:+ context_around view pos
  | None => ""
  end +:+ hints.

Definition multiple_message (canonical view : string) (count second : nat) (fallback : bool) : string :=
  "old_string matches multiple locations in '" +:+ canonical +:+ "' (" +:+ pretty count +:+ " matches" +:+
  (if fallback then " (after quote normalization)" else "") +:+
  "). Must be unique — include more surrounding context. Second occurrence at line " +:+
  pretty (count_newlines (take_str second view) + 1)%nat +:+ ":" +:+ context_around view second.

Definition patch_file_execute (input : Value) : Tool_m FS C string :=
  path ← lift (ok_or (as_str (index input "path")) "Missing 'path' parameter");
  old_string ← lift (ok_or (as_str (index input "old_string")) "Missing 'old_string' parameter");
  new_string ← lift (ok_or (as_str (index input "new_string")) "Missing 'new_string' parameter");
  canonical ← verify path Write;
  stat ← ask (fun fs => fs_metadata fs canonical);
  meta ← lift (map_err (String.append "Cannot stat file: ") stat);
  let current_mtime := modified meta in
  _ ← (match current_mtime with Some mtime => gate canonical mtime | None => mret () end);
  bytes ← ask (fun fs => fs_read fs canonical);
  raw ← lift (map_err (String.append "read error: ")
                (s ← bytes; if utf8 out s then Ok s else Err "stream did not contain valid UTF-8"));
  let endings := detect_line_endings raw in
  let crlf_view := bool_decide (endings = Crlf) in
  let view := to_view crlf_view raw in
  let old := to_view crlf_view old_string in
  let new := to_view crlf_view new_string in
  stale_hint ← stale canonical current_mtime;
  match find_unique view old with
  | NotFound => throw (error_of (not_found_message canonical view old (patch_hints stale_hint endings)))
  | Multiple count second fallback =>
      throw (error_of (multiple_message canonical view count second fallback))
  | One found =>
      _ ← patch_backup canonical raw;
      written ← run_fs (fs_write canonical (from_view crlf_view (replacement view new found)));
      _ ← lift (map_err (String.append "write error: ") written);
      _ ← refresh canonical;
      mret (append_post_edit_diagnostics
              ("Successfully edited " +:+ canonical +:+ " (1 replacement)" +:+
               (if quote_fallback_used found
                then " [quote-normalized fallback: curly quotes matched as straight]" else "")) canonical)
  end.

(** ** revert_file *)

Record BackupEntry := { ts : Z; entry_size : Z }.

Definition newer (a b : BackupEntry) : Prop := (ts b <= ts a)%Z.
#[export] Instance newer_dec : RelDecision newer.
Proof. intros a b. unfold newer. solve_decision. Defined.

Definition backup_entry (fs : FS) (backup_root fname name : string) : option BackupEntry :=
  ts ← parse_unsigned u64_max name;
  meta ← ok (fs_metadata fs (path_join (path_join backup_root name) fname));
  if is_file meta then Some {| ts := ts; entry_size := size meta |} else None.

Definition list_backups (fs : FS) (backup_root fname : string) : list BackupEntry :=
  stable_sort newer (omap (backup_entry fs backup_root fname) (fs_read_dir fs backup_root)).

Definition select_backup (entries : list BackupEntry) (backup : option Value) : result string nat :=
  match backup with
  | None | Some Null => Ok 0%nat
  | Some v =>
      s ← ok_or (match as_str v with Some s => Some s | None => (fun n => pretty (n : Z)) <$> as_u64 v end)
            "Invalid 'backup' parameter: expected a timestamp or 1-based index";
      n ← ok_or (parse_unsigned u64_max (trim s))
            ("Invalid 'backup' parameter '" +:+ s +:+ "': expected a timestamp or 1-based index (1 = most recent)");
      match position (fun e => ts e =? n)%Z entries with
      | Some i => Ok i
      | None =>
          if (1 <=? n)%Z && (n <=? Z.of_nat (length entries))%Z then Ok (Z.to_nat (n - 1))
          else Err ("No backup matching '" +:+ s +:+ "' (" +:+ pretty (length entries) +:+
                    " available, newest first)")
      end
  end.

(** The loop that bumps the timestamp while its slot is taken; one more step
    than the backup directory has entries is enough. *)
Fixpoint free_slot (fuel : nat) (fs : FS) (fname : string) (ts : Z) : Z :=
  match fuel with
  | O => ts
  | S fuel' =>
      if fs_exists fs (path_join (backup_dir_at ts) fname) then free_slot fuel' fs fname (ts + 1) else ts
  end.

Definition revert_backup (canonical fname : string) : Tool_m FS C unit :=
  current ← ask (fun fs => fs_read fs canonical);
  match (current : result string string) with
  | Ok bytes =>
      slot ← ask (fun fs => free_slot (S (length (fs_read_dir fs (backup_dir perm)))) fs fname (now_secs out));
      made ← run_fs (fs_create_dir_all (backup_dir_at slot));
      match (made : result string unit) with
      | Ok _ => _ ← run_fs (fs_write (path_join (backup_dir_at slot) fname) bytes); mret ()
      | Err _ => mret ()
      end
  | Err _ => mret ()
  end.

Definition dry_run_text (canonical : string) (backups : list BackupEntry) : string :=
  "Backups for '" +:+ canonical +:+ "' (newest first):" +:+ lf +:+
  concat_str (imap (fun i b => "  [" +:+ pretty (i + 1)%nat +:+ "] ts=" +:+ pretty (ts b) +:+
                               " size=" +:+ pretty (entry_size b) +:+ " bytes" +:+ lf) backups) +:+
  "Pass backup=<ts or index> without dry_run to restore one.".

Definition revert_file_execute (input : Value) : Tool_m FS C string :=
  path ← lift (ok_or (as_str (index input "path")) "Missing 'path' parameter");
  let dry_run := default false (as_bool (index input "dry_run")) in
  canonical ← verify path Write;
  fname ← lift (ok_or (file_name canonical) "invalid filename");
  backups ← ask (fun fs => list_backups fs (backup_dir perm) fname);
  match backups with
  | [] =>
      let msg := "No backups found for '" +:+ canonical +:+ "'. Backups are created automatically before write_file/patch_file modifies a file." in
      if dry_run then mret msg else throw (error_of msg)
  | _ :: _ =>
      if dry_run then mret (dry_run_text canonical backups)
      else
        idx ← lift (select_backup backups (get input "backup"));
        chosen ← lift (ok_or (backups !! (idx : nat)) "index out of bounds");
        let backup_path := path_join (backup_dir_at (ts chosen)) fname in
        _ ← gate_if_present canonical;
        _ ← revert_backup canonical fname;
        copied ← run_fs (fs_copy backup_path canonical);
        _ ← lift (map_err (String.append "revert_file error: ") copied);
        _ ← refresh canonical;
        mret ("Reverted " +:+ canonical +:+ " to backup ts=" +:+ pretty (ts chosen) +:+ " (" +:+
              pretty (entry_size chosen) +:+ " bytes)")
  end.

End Tools.

(** * Proofs *)

(** ** The freshness gate *)

Section GateProofs.
Context {C : Type} `{LruCacheLaws C}.

(** What the tools do with the read memory. *)
Inductive CacheOp :=
| Record_ (path : string) (mtime nanos : Z)
| Check_ (path : string) (mtime : Z).

Definition apply_op (op : CacheOp) (c : C) : C :=
  match op with
  | Record_ p m n => record_read p m n c
  | Check_ p m => snd (check_freshness p m c)
  end.

Definition run_ops (ops : list CacheOp) : C := foldl (flip apply_op) lru_new ops.

(** The modification time of the last recorded read or write of a path. *)
Definition last_record (p : string) (ops : list CacheOp) : option Z :=
  foldl (fun acc op => match op with
                       | Record_ q m _ => if String.eqb q p then Some m else acc
                       | Check_ _ _ => acc
                       end) None ops.

Lemma check_freshness_peek p m c q : lru_peek q (snd (check_freshness p m c)) = lru_peek q c.
Proof.
  unfold check_freshness. pose proof (lru_peek_get q p c) as Hg.
  destruct (lru_get p c) as [[[cm ?]|] c']; cbn in *; [|done]. by destruct (negb _).
Qed.

Lemma check_freshness_Ok p m c : fst (check_freshness p m c) = Ok () <-> exists n, lru_peek p c = Some (m, n).
Proof.
  unfold check_freshness. rewrite <- (lru_get_peek p c).
  destruct (lru_get p c) as [[[cm n]|] c']; cbn; [|split; [done|by intros [? ?]]].
  destruct (Z.eqb_spec cm m) as [->|Hne]; cbn; [split; eauto|].
  split; [done|]. intros (? & [= ? ?]). done.
Qed.

Lemma peek_last_record ops p m n : lru_peek p (run_ops ops) = Some (m, n) -> last_record p ops = Some m.
Proof.
  revert m n. induction ops as [|op ops IH] using rev_ind; intros m n; unfold run_ops, last_record; cbn.
  - by rewrite lru_peek_new.
  - rewrite !foldl_app. cbn. fold (run_ops ops) (last_record p ops). destruct op as [q m' n'|q m']; cbn.
    + unfold record_read. destruct (String.eqb_spec q p) as [->|Hne].
      * rewrite lru_peek_put. by intros [= -> _].
      * intros Hp%lru_peek_put_ne; eauto.
    + rewrite check_freshness_peek. apply IH.
Qed.

(** The freshness gate: whatever was recorded and checked before, and
    whatever the cache has forgotten, the gate lets a file through only if its
    modification time is the one of the last recorded read or write of that
    very path; and checking records nothing. *)
Theorem freshness_gate_sound ops p m
    (Hpass : fst (check_freshness p m (run_ops ops)) = Ok ()) :
  last_record p ops = Some m /\
  forall q m', last_record q (ops ++ [Check_ p m']) = last_record q ops.
Proof.
  apply check_freshness_Ok in Hpass as [n Hp]. split; [by eapply peek_last_record|].
  intros q m'. unfold last_record. by rewrite foldl_app.
Qed.

End GateProofs.

(** ** Running the tools *)

Section ToolProofs.
Context {FS C : Type} `{FileSystemLaws FS, LruCacheLaws C}.
Implicit Types (w : World FS C) (perm : PermissionMatrix) (out : Outside).

Lemma bind_run {A B} (m : Tool_m FS C A) (k : A -> Tool_m FS C B) w r w' :
  (m ≫= k) w = (r, w') ->
  (exists a w1, m w = (Ok a, w1) /\ k a w1 = (r, w')) \/ (exists e, m w = (Err e, w') /\ r = Err e).
Proof.
  unfold mbind, Tool_bind. destruct (m w) as [[a|e] w1].
  - intros Hr. left. eauto.
  - intros [= <- <-]. right. eauto.
Qed.

Definition mtime_of (f : FS) (p : string) : option Z := ok (fs_metadata f p) ≫= modified.

(** The gate passed at this state: the recorded time is the file's. *)
Definition seen (c : C) (f : FS) (p : string) : Prop :=
  forall m, mtime_of f p = Some m -> exists n, lru_peek p c = Some (m, n).

Lemma gate_run p m w r w' : gate p m w = (r, w') ->
  fs w' = fs w /\ (r = Ok () -> exists n, lru_peek p (read_state w) = Some (m, n)).
Proof.
  unfold gate. pose proof (check_freshness_Ok p m (read_state w)) as Hc.
  destruct (check_freshness p m (read_state w)) as [x c]. intros [= <- <-]. split; [done|].
  destruct x as [[]|e]; [|done]. intros _. by apply Hc.
Qed.

Lemma gate_if_present_run p w r w' : gate_if_present p w = (r, w') ->
  fs w' = fs w /\ (r = Ok () -> seen (read_state w) (fs w) p).
Proof.
  unfold gate_if_present, seen, mtime_of. intros [(a & w1 & [= <- <-] & Hk)|(e & [=] & _)]%bind_run.
  destruct (ok (fs_metadata (fs w) p) ≫= modified) as [m|].
  - apply gate_run in Hk as [Hfs Hs]. split; [done|]. intros Hr m' [= <-]. auto.
  - injection Hk as <- <-. done.
Qed.

Lemma refresh_run out p w r w' : refresh out p w = (r, w') -> r = Ok () /\ fs w' = fs w.
Proof. unfold refresh. destruct (_ ≫= _); by intros [= <- <-]. Qed.

Lemma lift_run {A} (x : result string A) w r w' : lift x w = (r, w') -> w' = w /\ r = map_err error_of x.
Proof. by intros [= <- <-]. Qed.

Lemma verify_run perm path op w r w' : verify perm path op w = (r, w') ->
  w' = w /\ r = map_err error_of (verify_path (fs_exists (fs w)) (fs_canonicalize (fs w)) perm path op).
Proof. unfold verify. intros [(a & w1 & [= <- <-] & Hk)|(e & [=] & _)]%bind_run. by apply lift_run in Hk. Qed.

Lemma lift_bind {A B} (x : result string A) (k : A -> Tool_m FS C B) w r w' :
  (lift x ≫= k) w = (r, w') ->
  (exists a, x = Ok a /\ k a w = (r, w')) \/ (exists e, r = Err (error_of e) /\ w' = w /\ x = Err e).
Proof. destruct x as [a|e]; cbn; [by eauto|]. intros [= <- <-]. right. eauto. Qed.

Lemma verify_bind {B} perm path op (k : string -> Tool_m FS C B) w r w' :
  (verify perm path op ≫= k) w = (r, w') ->
  (exists p, verify_path (fs_exists (fs w)) (fs_canonicalize (fs w)) perm path op = Ok p /\ k p w = (r, w')) \/
  (exists e, r = Err (error_of e) /\ w' = w).
Proof.
  intros [(p & w1 & Hv & Hk)|(e & Hv & ->)]%bind_run; apply verify_run in Hv as [-> Hr];
    destruct (verify_path _ _ _ _ _); simplify_eq/=; eauto.
Qed.

Lemma run_fs_bind {A B} (f : FS -> A * FS) (k : A -> Tool_m FS C B) w r w' :
  (run_fs f ≫= k) w = (r, w') ->
  k (fst (f (fs w))) {| fs := snd (f (fs w)); read_state := read_state w |} = (r, w').
Proof. unfold mbind, Tool_bind, run_fs. by destruct (f (fs w)). Qed.

Lemma ask_bind {A B} (f : FS -> A) (k : A -> Tool_m FS C B) w r w' :
  (ask f ≫= k) w = (r, w') -> k (f (fs w)) w = (r, w').
Proof. done. Qed.

Lemma optional_gate_bind {B} p (mtime : option Z) (k : unit -> Tool_m FS C B) w r w' :
  ((match mtime with Some m => gate p m | None => mret () end) ≫= k) w = (r, w') ->
  exists w1, fs w1 = fs w /\
    ((k () w1 = (r, w') /\ forall m, mtime = Some m -> exists n, lru_peek p (read_state w) = Some (m, n)) \/
     (exists e, r = Err e /\ w' = w1)).
Proof.
  intros [([] & w1 & Hg & Hk)|(e & Hg & ->)]%bind_run.
  - exists w1. destruct mtime as [m|]; [|by injection Hg as <-; split; [|left]].
    apply gate_run in Hg as [Hfs Hs]. split; [done|]. left. split; [done|]. intros m' [= <-]. auto.
  - exists w'. destruct mtime as [m|]; [|done].
    apply gate_run in Hg as [Hfs _]. split; [done|]. right. eauto.
Qed.

Lemma stale_run p m w : exists b c, stale p m w = (Ok b, {| fs := fs w; read_state := c |}).
Proof. unfold stale. destruct (lru_get p (read_state w)) as [x c]. eauto. Qed.

(** No file changed but those of a given set. *)
Definition touches (only : string -> Prop) (f f' : FS) : Prop :=
  forall q, ~ only q -> fs_read f' q = fs_read f q.

(** The final write of an edit or an overwrite. *)
Lemma write_refresh out p s prefix (msg : string) w r w' :
  (written ← run_fs (fs_write p s); _ ← lift (map_err (String.append prefix) written);
   _ ← refresh out p; mret msg) w = (r, w') ->
  match r with
  | Ok _ => fs_read (fs w') p = Ok s /\ touches (fun q => q = p) (fs w) (fs w')
  | Err e => exists e', e = error_of (prefix +:+ e')
  end.
Proof.
  intros Hk%run_fs_bind. pose proof (write_frame p s (fs w)) as Hframe. pose proof (write_read p s (fs w)) as Hread.
  destruct (fs_write p s (fs w)) as [[[]|e] f']; cbn [fst snd] in *.
  - apply bind_run in Hk as [([] & w1 & [-> _]%lift_run & Hk)|(e & [_ [=]]%lift_run & _)].
    apply bind_run in Hk as [([] & w2 & [_ Hfs]%refresh_run & Hk)|(e & [[=] _]%refresh_run & _)].
    injection Hk as <- <-. rewrite Hfs. cbn. split; [by apply Hread|]. intros q Hq. by apply Hframe.
  - apply bind_run in Hk as [([] & w1 & [_ [=]]%lift_run & _)|(e' & [_ [= ->]]%lift_run & ->)]. by exists e.
Qed.

Definition backup_path (perm : PermissionMatrix) (ts : Z) (canonical q : string) : Prop :=
  exists fname, file_name canonical = Some fname /\ q = path_join (backup_dir_at perm ts) fname.

Lemma patch_backup_run out perm p raw w r w' : patch_backup out perm p raw w = (r, w') ->
  r = Ok () /\ touches (backup_path perm (now_secs out) p) (fs w) (fs w').
Proof.
  unfold patch_backup. intros Hk%run_fs_bind. set (dir := backup_dir_at perm (now_secs out)) in *.
  destruct (fst _) as [[]|e]; [destruct (file_name p) as [fname|] eqn:Hf|].
  - apply run_fs_bind in Hk as [= <- <-]. split; [done|]. intros q Hq.
    cbn. rewrite write_frame; [apply mkdir_frame|]. intros ->. apply Hq. by exists fname.
  - injection Hk as <- <-. split; [done|]. intros q _. apply mkdir_frame.
  - injection Hk as <- <-. split; [done|]. intros q _. apply mkdir_frame.
Qed.

(** [C25] What an edit does.  When it succeeds, the target was read or written
    in this session at its present modification time (if the file system has
    one), and the file, which consisted of some bytes, the text matched, and
    the remaining bytes, now consists of the same bytes around the new text,
    line endings included; the text matched is the requested one or, if that
    does not occur, one equal to it up to curly quotes; and no other file but
    the backup of the target changes.  When it fails, no file has changed,
    except that the file system itself refused the final write. *)
Theorem patch_file_spec out perm input w r w' (Hrun : patch_file_execute out perm input w = (r, w')) :
  match r with
  | Ok _ => exists path old new p raw a mid b,
      as_str (index input "path") = Some path /\ as_str (index input "old_string") = Some old /\
      as_str (index input "new_string") = Some new /\
      verify_path (fs_exists (fs w)) (fs_canonicalize (fs w)) perm path Write = Ok p /\
      seen (read_state w) (fs w) p /\ fs_read (fs w) p = Ok raw /\
      let cr := bool_decide (detect_line_endings raw = Crlf) in
      raw = from_view cr a +:+ from_view cr mid +:+ from_view cr b /\
      (mid = to_view cr old \/
       find_str (to_view cr old) (to_view cr raw) = None /\ normalized mid = normalized (to_view cr old)) /\
      fs_read (fs w') p = Ok (from_view cr a +:+ from_view cr (to_view cr new) +:+ from_view cr b) /\
      touches (fun q => q = p \/ backup_path perm (now_secs out) p q) (fs w) (fs w')
  | Err e => fs w' = fs w \/ exists e', e = error_of ("write error: " +:+ e')
  end.
Proof.
  unfold patch_file_execute in Hrun.
  apply lift_bind in Hrun as [(path & Hpath & Hrun)|(? & -> & -> & _)]; [|by left].
  apply lift_bind in Hrun as [(old & Hold & Hrun)|(? & -> & -> & _)]; [|by left].
  apply lift_bind in Hrun as [(new & Hnew & Hrun)|(? & -> & -> & _)]; [|by left].
  apply verify_bind in Hrun as [(p & Hp & Hrun)|(? & -> & ->)]; [|by left].
  apply ask_bind in Hrun.
  apply lift_bind in Hrun as [(meta & Hmeta & Hrun)|(? & -> & -> & _)]; [|by left].
  apply optional_gate_bind in Hrun as (w1 & Hfs1 & [[Hrun Hseen]|(? & -> & ->)]); [|by left].
  apply ask_bind in Hrun. rewrite Hfs1 in Hrun.
  apply lift_bind in Hrun as [(raw & Hraw & Hrun)|(? & -> & -> & _)]; [|by left].
  assert (Hread : fs_read (fs w) p = Ok raw).
  { destruct (fs_read (fs w) p) as [s|]; [|done]. cbn in Hraw. by destruct (utf8 out s). }
  cbv zeta in Hrun. set (cr := bool_decide (detect_line_endings raw = Crlf)) in *.
  apply bind_run in Hrun as [(stale_hint & w2 & Hst & Hrun)|(e & Hst & ->)];
    destruct (stale_run p (modified meta) w1) as (b & c & Hst'); rewrite Hst' in Hst; simplify_eq.
  destruct (find_unique _ _) as [f| |count second fb] eqn:Hf;
    [|injection Hrun as <- <-; left; exact Hfs1|injection Hrun as <- <-; left; exact Hfs1].
  apply bind_run in Hrun as [([] & w3 & [_ Hb]%patch_backup_run & Hrun)|(e & [[=] _]%patch_backup_run & _)].
  apply write_refresh in Hrun. destruct r as [msg|e]; [|by right].
  destruct Hrun as [Hw Htouch]. cbn in Hb. rewrite Hfs1 in Hb.
  apply find_unique_slice in Hf as (a & mid & b' & Hview & Hs & He & Hmid).
  assert (Hround : from_view cr (to_view cr raw) = raw).
  { unfold cr. case_bool_decide; [by apply crlf_view_roundtrip|done]. }
  destruct (replacement_in_raw raw (to_view cr new) f _ a mid b' cr eq_refl Hround Hview Hs He) as [Hraw' Hnew'].
  apply ok_or_Ok in Hpath, Hold, Hnew.
  exists path, old, new, p, raw, a, mid, b'. do 4 (split; [done|]).
  split; [unfold seen, mtime_of; destruct (fs_metadata (fs w) p) as [meta0|]; [|done]; injection Hmeta as ->; exact Hseen|].
  split; [done|]. cbv zeta. fold cr. split; [done|]. split; [done|]. split; [by rewrite Hw, Hnew'|].
  intros q Hq. rewrite Htouch, Hb; [done|..]; tauto.
Qed.

(** *** Reading *)

Lemma next_lines_all out pieces max_lines count content :
  Forall (fun p => utf8 out p = true) pieces -> (count + Z.of_nat (length pieces) <= max_lines)%Z ->
  next_lines out pieces max_lines count content =
  Ok (content +:+ concat_str (map (fun p => strip_eol p +:+ lf) pieces), false).
Proof.
  intros Hall. revert count content. induction Hall as [|p pieces Hp _ IH]; intros count content Hlen; cbn [next_lines].
  - cbn. by rewrite app_nil_r_str.
  - cbn [length] in Hlen. rewrite Hp. cbn [negb].
    rewrite (proj2 (Z.leb_gt _ _)) by lia. rewrite IH by lia.
    unfold concat_str. cbn [map foldr]. by rewrite !app_assoc_str.
Qed.

Lemma lift_ok {A B} (a : A) (k : A -> Tool_m FS C B) w : (lift (Ok a) ≫= k) w = k a w.
Proof. done. Qed.

Lemma ask_ok {A B} (f : FS -> A) (k : A -> Tool_m FS C B) w : (ask f ≫= k) w = k (f (fs w)) w.
Proof. done. Qed.

Lemma verify_ok {B} perm path op p (k : string -> Tool_m FS C B) w :
  verify_path (fs_exists (fs w)) (fs_canonicalize (fs w)) perm path op = Ok p ->
  (verify perm path op ≫= k) w = k p w.
Proof. intros H'. unfold verify, mbind, Tool_bind, ask, lift. by rewrite H'. Qed.

(** Reading a text file whose line endings are not mixed, within the line
    limit, never fails and changes no file; it opens the gate for the file's
    present modification time; and unless the same contents were already sent,
    the text shown is exactly the view in which an edit of the file will be
    matched, up to the final newline: what was read can be found. *)
Theorem read_file_shows_edit_view out perm input w path p raw
    (Hpath : as_str (index input "path") = Some path)
    (Hp : verify_path (fs_exists (fs w)) (fs_canonicalize (fs w)) perm path Read = Ok p)
    (Hraw : fs_read (fs w) p = Ok raw)
    (Hutf8 : Forall (fun l => utf8 out l = true) (split_inclusive newline raw))
    (Hlen : (Z.of_nat (length (split_inclusive newline raw)) <= actual_max_lines input)%Z)
    (Hmixed : detect_line_endings raw <> Mixed) :
  let view := to_view (bool_decide (detect_line_endings raw = Crlf)) raw in
  exists text w', read_file_execute out perm input w = (Ok text, w') /\ fs w' = fs w /\
    seen (read_state w') (fs w') p /\
    (is_duplicate (actual_max_lines input) (mtime_of (fs w) p) p (read_state w) = false ->
     text = view +:+ closing view).
Proof.
  intros view. unfold read_file_execute. rewrite Hpath. cbn [ok_or].
  rewrite lift_ok, (verify_ok _ _ _ p), ask_ok by done. cbv zeta. fold (mtime_of (fs w) p).
  unfold mbind at 1, Tool_bind at 1.
  destruct (is_duplicate _ _ p (read_state w)) eqn:Hdup.
  - eexists _, w. split; [done|]. split; [done|]. split; [|done].
    unfold is_duplicate in Hdup. apply andb_true_iff in Hdup as [_ Hdup].
    intros m Hm. rewrite Hm in Hdup. destruct (lru_peek p (read_state w)) as [[cm n]|]; [|done].
    apply Z.eqb_eq in Hdup as ->. eauto.
  - assert (Hshown : next_lines out (split_inclusive newline raw) (actual_max_lines input) 0 "" =
                     Ok (view +:+ closing view, false)).
    { rewrite next_lines_all by (done || lia). fold (shown raw). by rewrite shown_is_view. }
    destruct (mtime_of (fs w) p) as [m|] eqn:Hm;
      unfold mbind, Tool_bind, ask, lift, mret, Tool_ret; cbn [fs]; rewrite Hraw; cbn [map_err]; rewrite Hshown; cbn [map_err];
      (eexists _, _; split; [done|]; split; [done|]; split; [|done]); intros m' Hm'; cbn in Hm'; rewrite Hm in Hm'; [|done].
    injection Hm' as <-. exists (now_nanos out). cbn. apply lru_peek_put.
Qed.

(** *** Reverting *)

Lemma free_slot_spec perm f fname fuel t :
  (t <= free_slot perm fuel f fname t)%Z /\
  (fs_exists f (path_join (backup_dir_at perm (free_slot perm fuel f fname t)) fname) = false \/
   forall i, (0 <= i < Z.of_nat fuel)%Z -> fs_exists f (path_join (backup_dir_at perm (t + i)) fname) = true).
Proof.
  revert t. induction fuel as [|fuel IH]; intros t; cbn [free_slot]; [split; [lia|right; lia]|].
  destruct (fs_exists f _) eqn:He; [|by split; [lia|left]].
  destruct (IH (t + 1)%Z) as [Hle Hor]. split; [lia|].
  destruct Hor as [Hfree|Hall]; [by left|]. right. intros i Hi.
  destruct (decide (i = 0)%Z) as [->|Hne]; [by rewrite Z.add_0_r|].
  replace (t + i)%Z with (t + 1 + (i - 1))%Z by lia. apply Hall. lia.
Qed.

Lemma number_clean s : char_all number_char s = true -> s <> ""%string -> clean_segment s.
Proof.
  intros Hs Hne. split; [|split; [done|by intros ->]].
  unfold no_slash. pose proof (number_not_has slash s Hs eq_refl) as Hno. clear Hne Hs.
  induction s as [|c s IH]; [done|]. rewrite has_char_cons in Hno. apply orb_false_iff in Hno as [Hc Hno].
  cbn [split_char]. rewrite Hc, (IH Hno). done.
Qed.

Lemma pretty_Z_ne (z : Z) : pretty z <> ""%string.
Proof. destruct z as [|n|n]; cbn; [done|apply (pretty_N_ne (N.pos n))|done]. Qed.

Lemma pretty_Z_clean (z : Z) : clean_segment (pretty z).
Proof. apply number_clean; [apply pretty_Z_chars|apply pretty_Z_ne]. Qed.

(** One step more than the backup directory has entries finds a free slot. *)
Lemma free_slot_free perm f fname t : clean_segment fname ->
  fs_exists f (path_join (backup_dir_at perm
    (free_slot perm (S (length (fs_read_dir f (backup_dir perm)))) f fname t)) fname) = false.
Proof.
  intros Hclean. destruct (free_slot_spec perm f fname (S (length (fs_read_dir f (backup_dir perm)))) t) as [_ [Hfree|Hall]]; [done|].
  set (n := length (fs_read_dir f (backup_dir perm))) in *. exfalso.
  set (slots := map (fun i => pretty (t + Z.of_nat i)%Z) (seq 0 (S n))).
  assert (Hnd : List.NoDup slots).
  { apply Finite.Injective_map_NoDup; [|apply List.seq_NoDup]. intros i j Hij%(inj pretty). lia. }
  assert (Hincl : incl slots (fs_read_dir f (backup_dir perm))).
  { intros x (i & <- & Hi%List.in_seq)%List.in_map_iff. apply list_elem_of_In.
    eapply listed; [apply pretty_Z_clean|done|]. apply Hall. lia. }
  pose proof (List.NoDup_incl_length Hnd Hincl) as Hlen. unfold slots in Hlen.
  rewrite List.length_map, List.length_seq in Hlen. unfold n in *. lia.
Qed.

Lemma revert_backup_run out perm p fname w r w' : clean_segment fname -> revert_backup out perm p fname w = (r, w') ->
  r = Ok () /\ touches (fun q => fs_exists (fs w) q = false) (fs w) (fs w').
Proof.
  intros Hclean. unfold revert_backup. intros Hk%ask_bind. destruct (fs_read (fs w) p) as [bytes|e]; [|by injection Hk as <- <-].
  apply ask_bind, run_fs_bind in Hk. set (slot := free_slot perm _ (fs w) fname _) in *.
  assert (Hfree : fs_exists (fs w) (path_join (backup_dir_at perm slot) fname) = false) by by apply free_slot_free.
  destruct (fst _) as [[]|e].
  - apply run_fs_bind in Hk as [= <- <-]. split; [done|]. intros q Hq. cbn.
    rewrite write_frame; [apply mkdir_frame|]. by intros ->.
  - injection Hk as <- <-. split; [done|]. intros q _. apply mkdir_frame.
Qed.

Lemma copy_refresh out p q prefix (msg : string) w r w' :
  (copied ← run_fs (fs_copy q p); _ ← lift (map_err (String.append prefix) copied);
   _ ← refresh out p; mret msg) w = (r, w') ->
  touches (fun x => x = p) (fs w) (fs w') /\
  match r with
  | Ok _ => q <> p -> exists s, fs_read (fs w) q = Ok s /\ fs_read (fs w') p = Ok s
  | Err e => exists e', e = error_of (prefix +:+ e')
  end.
Proof.
  intros Hk%run_fs_bind. pose proof (copy_frame q p (fs w)) as Hframe. pose proof (copy_read q p (fs w)) as Hread.
  destruct (fs_copy q p (fs w)) as [[[]|e] f']; cbn [fst snd] in *.
  - apply bind_run in Hk as [([] & w1 & [-> _]%lift_run & Hk)|(e & [_ [=]]%lift_run & _)].
    apply bind_run in Hk as [([] & w2 & [_ Hfs]%refresh_run & Hk)|(e & [[=] _]%refresh_run & _)].
    injection Hk as <- <-. rewrite Hfs. cbn. split; [intros x Hx; by apply Hframe|]. intros Hne. by apply Hread.
  - apply bind_run in Hk as [([] & w1 & [_ [=]]%lift_run & _)|(e' & [-> [= ->]]%lift_run & ->)].
    split; [intros x Hx; by apply Hframe|]. by exists e.
Qed.

Lemma list_backups_elem f root fname b : b ∈ list_backups f root fname ->
  exists name meta, parse_unsigned u64_max name = Some (ts b) /\
    fs_metadata f (path_join (path_join root name) fname) = Ok meta /\ is_file meta = true /\ entry_size b = size meta.
Proof.
  unfold list_backups. rewrite stable_sort_Permutation.
  intros (name & _ & Hb)%list_elem_of_omap. unfold backup_entry in Hb.
  destruct (parse_unsigned u64_max name) as [t|] eqn:Hp; [|done]. cbn in Hb.
  destruct (fs_metadata f _) as [meta|] eqn:Hm; [|done]. cbn in Hb.
  destruct (is_file meta) eqn:Hf; [|done]. injection Hb as <-. eauto 10.
Qed.

(** Reverting.  A dry run, and a refusal other than that of the final
    copy, changes no file.  A revert that succeeds was let through by the
    freshness gate, restores one of the listed backups of the file's name, byte
    for byte, and otherwise touches no file that existed: the backup it makes
    of the present contents never overwrites an earlier backup, because the
    loop over timestamps always reaches a free one. *)
Theorem revert_file_spec out perm input w r w' (Hrun : revert_file_execute out perm input w = (r, w')) :
  match r with
  | Ok _ =>
      default false (as_bool (index input "dry_run")) = true /\ fs w' = fs w \/
      exists path p fname chosen,
        as_str (index input "path") = Some path /\
        verify_path (fs_exists (fs w)) (fs_canonicalize (fs w)) perm path Write = Ok p /\
        file_name p = Some fname /\ chosen ∈ list_backups (fs w) (backup_dir perm) fname /\
        seen (read_state w) (fs w) p /\
        let q := path_join (backup_dir_at perm (ts chosen)) fname in
        (q <> p -> fs_exists (fs w) q = true -> exists s, fs_read (fs w) q = Ok s /\ fs_read (fs w') p = Ok s) /\
        touches (fun x => x = p \/ fs_exists (fs w) x = false) (fs w) (fs w')
  | Err e => fs w' = fs w \/ exists e', e = error_of ("revert_file error: " +:+ e')
  end.
Proof.
  unfold revert_file_execute in Hrun.
  apply lift_bind in Hrun as [(path & Hpath%ok_or_Ok & Hrun)|(? & -> & -> & _)]; [|by left].
  apply verify_bind in Hrun as [(p & Hp & Hrun)|(? & -> & ->)]; [|by left].
  apply lift_bind in Hrun as [(fname & Hname%ok_or_Ok & Hrun)|(? & -> & -> & _)]; [|by left].
  apply ask_bind in Hrun.
  set (dry := default false (as_bool (index input "dry_run"))) in *. clearbody dry.
  destruct (list_backups (fs w) (backup_dir perm) fname) as [|b0 bs] eqn:Hbs.
  { destruct dry; injection Hrun as <- <-; by left. }
  destruct dry; [injection Hrun as <- <-; by left|].
  apply lift_bind in Hrun as [(idx & _ & Hrun)|(? & -> & -> & _)]; [|by left].
  apply lift_bind in Hrun as [(chosen & Hch%ok_or_Ok & Hrun)|(? & -> & -> & _)]; [|by left].
  apply list_elem_of_lookup_2 in Hch. rewrite <- Hbs in Hch.
  apply bind_run in Hrun as [([] & w1 & [Hfs1 Hseen]%gate_if_present_run & Hrun)|(e & [Hfs1 _]%gate_if_present_run & ->)]; [|by left].
  pose proof (file_name_clean _ _ Hname) as Hclean.
  apply bind_run in Hrun as [([] & w2 & Hb & Hrun)|(e & Hb & _)]; apply revert_backup_run in Hb as [? Hb]; try done.
  apply copy_refresh in Hrun as [Hframe Hrun]. rewrite Hfs1 in Hb.
  destruct r as [msg|e]; [|by right]. right.
  exists path, p, fname, chosen. do 4 (split; [done|]). split; [by apply Hseen|].
  cbv zeta in *. split.
  - intros Hne Hex. destruct (Hrun Hne) as (s & Hs & Hs'). exists s. split; [|done].
    rewrite <- Hs. symmetry. apply Hb. by rewrite Hex.
  - intros x Hx. rewrite Hframe, Hb; [done|..]; tauto.
Qed.

End ToolProofs.

(** ** An in-memory file system and a bounded cache *)

(** Files with their contents and modification times, the directories made, and
    a clock that ticks at every change. *)
Record MemFs := { mem_files : gmap string (string * Z); mem_dirs : gset string; clock : Z }.

Definition mem_put (p s : string) (f : MemFs) : MemFs :=
  {| mem_files := <[p := (s, clock f)]> (mem_files f); mem_dirs := mem_dirs f; clock := clock f + 1 |}.

Definition mem_metadata (f : MemFs) (p : string) : result string Meta :=
  match mem_files f !! p with
  | Some (s, t) => Ok {| modified := Some t; size := Z.of_nat (len s); is_file := true |}
  | None =>
      if decide (p ∈ mem_dirs f) then Ok {| modified := None; size := 0; is_file := false |}
      else Err "No such file or directory"
  end.

Definition mem_read (f : MemFs) (p : string) : result string string :=
  ok_or (fst <$> mem_files f !! p) "No such file or directory".

(** The first segment of every path below a directory. *)
Definition below (d q : string) : option string :=
  rest ← strip_prefix_str q (if String.eqb d "" || ends_with d "/" then d else d +:+ "/");
  head (split_char slash rest).

#[export] Instance MemFs_FileSystem : FileSystem MemFs := {
  fs_exists f p := is_ok (mem_metadata f p);
  fs_canonicalize f p := if is_ok (mem_metadata f p) then Ok p else Err "No such file or directory";
  fs_metadata := mem_metadata;
  fs_read := mem_read;
  fs_write p s f := (Ok (), mem_put p s f);
  fs_copy p q f :=
    match mem_read f p with
    | Ok s => (Ok (), mem_put q s f)
    | Err e => (Err e, f)
    end;
  fs_create_dir_all d f := (Ok (), {| mem_files := mem_files f; mem_dirs := {[d]} ∪ mem_dirs f; clock := clock f |});
  fs_read_dir f d := omap (below d) (map fst (map_to_list (mem_files f)) ++ elements (mem_dirs f))
}.

Lemma mem_put_read p s f q : mem_read (mem_put p s f) q = if decide (q = p) then Ok s else mem_read f q.
Proof.
  unfold mem_read, mem_put. cbn. destruct (decide (q = p)) as [->|Hne]; [by rewrite lookup_insert_eq|].
  by rewrite lookup_insert_ne.
Qed.

Lemma below_join d n f : clean_segment n -> clean_segment f -> below d (path_join (path_join d n) f) = Some n.
Proof.
  intros Hn Hf. pose proof Hn as (Hns & Hne & _).
  rewrite (path_join_clean _ f), (path_join_clean d n) by done.
  set (base := if String.eqb d "" || ends_with d "/" then d else d +:+ "/"). unfold below. fold base.
  rewrite (ends_with_slash_snoc base n) by done. rewrite (proj2 (String.eqb_neq (base +:+ n) "")).
  2:{ destruct base; [done|]. done. }
  cbn [orb]. rewrite !app_assoc_str. unfold strip_prefix_str. rewrite prefixb_app, drop_app_str. cbn.
  change (n +:+ String "/" f) with (n +:+ String slash f). by rewrite split_char_app_nosep.
Qed.

#[export] Instance MemFs_laws : FileSystemLaws MemFs.
Proof.
  split; cbn.
  - intros p s f f' [= <-]. rewrite mem_put_read. by destruct (decide (p = p)).
  - intros p s f q Hne. rewrite mem_put_read. by destruct (decide (q = p)).
  - intros p q f f' Hne. destruct (mem_read f p) as [s|e]; [|done]. intros [= <-]. exists s. split; [done|].
    rewrite mem_put_read. by destruct (decide (q = q)).
  - intros p q f r Hne. destruct (mem_read f p) as [s|e]; [|done]. cbn. rewrite mem_put_read. by destruct (decide (r = q)).
  - done.
  - done.
  - intros f d n x Hn Hx Hex. apply list_elem_of_omap. eexists. split; [|by apply below_join].
    apply elem_of_app. unfold mem_metadata in Hex.
    destruct (mem_files f !! path_join (path_join d n) x) as [[s t]|] eqn:Hl.
    + left. apply list_elem_of_fmap. exists (path_join (path_join d n) x, (s, t)). split; [done|]. by apply elem_of_map_to_list.
    + right. apply elem_of_elements. by destruct (decide _).
Qed.

(** Sixty-four entries, most recently used first. *)
Definition ListLru := list (string * (Z * Z)).

Definition recall (k : string) (c : ListLru) : option (Z * Z) := Json.assoc k c.
Definition forget_key (k : string) (c : ListLru) : ListLru := List.filter (fun e => negb (String.eqb k (fst e))) c.

#[export] Instance ListLru_cache : LruCache ListLru := {
  lru_new := [];
  lru_get k c := (recall k c, match recall k c with Some v => (k, v) :: forget_key k c | None => c end);
  lru_peek := recall;
  lru_put k v c := take 64 ((k, v) :: forget_key k c)
}.

Lemma forget_peek k k' (c : ListLru) : k <> k' -> recall k (forget_key k' c) = recall k c.
Proof.
  intros Hne. unfold recall, forget_key. induction c as [|[q v] c IH]; [done|]. cbn.
  destruct (String.eqb_spec k' q) as [->|Hq]; cbn.
  - by rewrite (proj2 (String.eqb_neq k q)).
  - by rewrite IH.
Qed.

Lemma take_peek n k v (c : ListLru) : recall k (take n c) = Some v -> recall k c = Some v.
Proof.
  unfold recall. revert n. induction c as [|[q u] c IH]; intros [|n]; cbn; [done..|].
  destruct (String.eqb k q); [done|]. apply IH.
Qed.

#[export] Instance ListLru_laws : LruCacheLaws ListLru.
Proof.
  split; cbn -[take].
  - done.
  - done.
  - intros k k' c. destruct (recall k' c) as [v|] eqn:Hv; [|done].
    destruct (String.eqb_spec k k') as [->|Hne]; cbn; [by rewrite String.eqb_refl|].
    rewrite (proj2 (String.eqb_neq k k')) by done. by apply forget_peek.
  - intros k v c. cbn. by rewrite String.eqb_refl.
  - intros k k' v v' c Hne. cbn. rewrite (proj2 (String.eqb_neq k k')) by done.
    intros Hp%take_peek. by rewrite forget_peek in Hp.
Qed.

(** ** Runs *)

Definition file_matrix : PermissionMatrix :=
  {| sandbox := {| workspace_root := "/w"; allowed_paths := []; blocked_prefixes := [] |};
     shell_policy := {| allowlist := []; blocklist := [] |};
     deny_rules := []; confirmation_timeout := 60; sandbox_mode := Disabled;
     backup_dir := "/b"; execution_sandbox := false |}.

Definition quiet (secs : Z) : Outside :=
  {| now_secs := secs; now_nanos := 0; utf8 := fun _ => true; post_edit_summary := fun _ => None |}.

Definition two_files : World MemFs ListLru :=
  {| fs := {| mem_files := {[ "/w/a/x.rs"%string := ("one" +:+ crlf +:+ "two" +:+ crlf, 1%Z);
                              "/w/b/x.rs"%string := ("other", 2%Z) ]};
              mem_dirs := {[ "/w"%string; "/w/a"%string; "/w/b"%string ]}; clock := 10 |};
     read_state := lru_new |}.

Definition read_input (p : string) : Value := Obj [("path", Str p)].
Definition write_input (p s : string) : Value := Obj [("content", Str s); ("path", Str p)].
Definition patch_input (p old new : string) : Value :=
  Obj [("new_string", Str new); ("old_string", Str old); ("path", Str p)].

Definition after {A} (m : Tool_m MemFs ListLru A) (w : World MemFs ListLru) : World MemFs ListLru := snd (m w).

Definition both_read : World MemFs ListLru :=
  after (read_file_execute (quiet 100) file_matrix (read_input "a/x.rs"))
    (after (read_file_execute (quiet 100) file_matrix (read_input "/w/b/x.rs")) two_files).

Lemma freshness_gate_sound_witness :
  last_record "p" [Record_ "p" 1 0; Record_ "q" 5 0; Record_ "p" 2 0] = Some 2%Z /\
  forall q m, last_record q ([Record_ "p" 1 0; Record_ "q" 5 0; Record_ "p" 2 0] ++ [Check_ "p" m]) =
              last_record q [Record_ "p" 1 0; Record_ "q" 5 0; Record_ "p" 2 0].
Proof. apply (freshness_gate_sound (C := ListLru)). by vm_compute. Defined.

Definition edit : Tool_m MemFs ListLru string :=
  patch_file_execute (quiet 100) file_matrix (patch_input "a/x.rs" "two" "2").

Lemma patch_file_spec_witness :
  edit both_read = (Ok "Successfully edited /w/a/x.rs (1 replacement)", after edit both_read) /\
  mem_read (fs (after edit both_read)) "/w/a/x.rs" = Ok ("one" +:+ crlf +:+ "2" +:+ crlf) /\
  seen (read_state both_read) (fs both_read) "/w/a/x.rs".
Proof.
  assert (Hrun : edit both_read = (Ok "Successfully edited /w/a/x.rs (1 replacement)", after edit both_read)) by by vm_compute.
  split; [done|]. split; [by vm_compute|].
  destruct (patch_file_spec _ _ _ _ _ _ Hrun) as (path & old & new & p & raw & a & mid & b & Hpath & _ & _ & Hp & Hseen & _).
  injection Hpath as <-. vm_compute in Hp. by injection Hp as <-.
Defined.

Lemma read_file_shows_edit_view_witness : exists text w,
  read_file_execute (quiet 100) file_matrix (read_input "a/x.rs") two_files = (Ok text, w) /\
  fs w = fs two_files /\ seen (read_state w) (fs w) "/w/a/x.rs" /\
  text = "one" +:+ lf +:+ "two" +:+ lf.
Proof.
  destruct (read_file_shows_edit_view (quiet 100) file_matrix (read_input "a/x.rs") two_files "a/x.rs" "/w/a/x.rs"
              ("one" +:+ crlf +:+ "two" +:+ crlf)) as (text & w & H1 & H2 & H3 & H4);
    [by vm_compute..|repeat constructor|by vm_compute|by vm_compute|].
  exists text, w. split; [done|]. split; [done|]. split; [done|]. rewrite H4; by vm_compute.
Defined.

(** Two files of the same name written within one second share one backup
    slot: reverting the first then "restores" what the second contained. *)
Definition both_written : World MemFs ListLru :=
  after (write_file_execute (quiet 100) file_matrix (write_input "b/x.rs" "other2"))
    (after (write_file_execute (quiet 100) file_matrix (write_input "a/x.rs" "ONE")) both_read).

Definition revert_a : Tool_m MemFs ListLru string :=
  revert_file_execute (quiet 200) file_matrix (read_input "a/x.rs").

Example same_second_backups_collide :
  mem_read (fs both_written) "/w/a/x.rs" = Ok "ONE"%string /\
  mem_read (fs (after revert_a both_written)) "/w/a/x.rs" = Ok "other"%string /\
  mem_read (fs two_files) "/w/a/x.rs" = Ok ("one" +:+ crlf +:+ "two" +:+ crlf).
Proof. by vm_compute. Qed.

Lemma revert_file_spec_witness : exists msg,
  revert_a both_written = (Ok msg, after revert_a both_written) /\
  touches (fun x => x = "/w/a/x.rs"%string \/ fs_exists (fs both_written) x = false)
    (fs both_written) (fs (after revert_a both_written)).
Proof.
  assert (Hrun : exists msg, revert_a both_written = (Ok msg, after revert_a both_written)) by (eexists; by vm_compute).
  destruct Hrun as [msg Hrun]. exists msg. split; [done|].
  destruct (revert_file_spec _ _ _ _ _ _ Hrun) as [[Hdry _]|(path & p & fname & chosen & Hpath & Hp & _ & _ & _ & _ & Ht)];
    [by vm_compute in Hdry|].
  injection Hpath as <-. vm_compute in Hp. by injection Hp as <-.
Defined.
