(* ===== verification/DiskOutput.v ===== *)
(** * Output files of tasks and persisted tool results

    src/kernel/src/palaces/zhen_tool/builtin/exec/{disk_output,
    retrieve_tool_result}.rs.

    The operating system is an interface [OutputFs]: the calls the code makes,
    each on one path, and in [OutputFsLaws] what they do to the bytes of the
    files.  An in-memory instance at the end of the file satisfies the laws and
    runs the witnesses. *)

From S2P Require Export Prelude RString Utf8 Path Json Files.
From stdpp Require Import sorting.
From Stdlib Require Import Ascii.
Local Open Scope string_scope.
#[local] Arguments String.append !_ _ : simpl nomatch.

(** ** The interface *)

(** [io::ErrorKind], as far as the code looks at it, with the text printed. *)
Inductive IoError := NotFound (text : string) | AlreadyExists (text : string) | OtherIo (text : string).
Definition io_text (e : IoError) : string :=
  match e with NotFound t | AlreadyExists t | OtherIo t => t end.

Class OutputFs (FS : Type) := {
  o_stat : FS -> string -> result IoError Z;
  o_mkdir_all : string -> FS -> result IoError unit * FS;
  (* O_CREAT | O_EXCL | O_NOFOLLOW *)
  o_create_new : string -> FS -> result IoError unit * FS;
  (* O_APPEND | O_NOFOLLOW *)
  o_open_append : FS -> string -> result IoError unit;
  o_write_all : string -> string -> FS -> result IoError unit * FS;
  o_open_read : FS -> string -> result IoError unit;
  (* seek, then one read into a buffer *)
  o_seek : FS -> string -> Z -> result IoError unit;
  o_read : FS -> string -> Z -> Z -> result IoError string;
  o_remove : string -> FS -> FS;
  o_file_names : FS -> string -> option (list string);
  (* [{path:?}] *)
  o_debug : string -> string
}.

(** What the calls do to the bytes of the files. *)
Class OutputFsLaws (FS : Type) `{OutputFs FS} := {
  o_bytes : FS -> string -> option string;
  stat_bytes f p n : o_stat f p = Ok n -> exists c, o_bytes f p = Some c /\ n = Z.of_nat (len c);
  mkdir_bytes d f q : o_bytes (snd (o_mkdir_all d f)) q = o_bytes f q;
  create_bytes p f f' : o_create_new p f = (Ok (), f') ->
    o_bytes f p = None /\ o_bytes f' p = Some "" /\ forall q, q <> p -> o_bytes f' q = o_bytes f q;
  create_fails p f e f' : o_create_new p f = (Err e, f') -> forall q, o_bytes f' q = o_bytes f q;
  append_exists f p : o_open_append f p = Ok () -> is_Some (o_bytes f p);
  write_bytes p s f r f' c : o_bytes f p = Some c -> o_write_all p s f = (r, f') ->
    (exists w, o_bytes f' p = Some (c +:+ w) /\ prefixb w s = true /\ (r = Ok () -> w = s)) /\
    forall q, q <> p -> o_bytes f' q = o_bytes f q;
  read_bytes f p off n s : o_read f p off n = Ok s ->
    exists c, o_bytes f p = Some c /\ s = take_str (len s) (drop_str (Z.to_nat off) c) /\
      ((0 <= n)%Z -> (Z.of_nat (len s) <= n)%Z) /\ ((0 < n)%Z -> (0 <= off < Z.of_nat (len c))%Z -> s <> "")
}.

(** ** Output of a task *)

Definition MAX_TASK_OUTPUT_BYTES : Z := 5 * 1024 * 1024 * 1024.
Definition DEFAULT_MAX_READ_BYTES : Z := 8 * 1024 * 1024.
#[global] Arguments MAX_TASK_OUTPUT_BYTES : simpl never.

Definition cap_notice : string := nl +:+ "[output truncated: exceeded 5GB disk cap]" +:+ nl.

(** [u64::saturating_sub] and the characters that start below [available]. *)
Fixpoint chars_below (available pos : Z) (cs : list string) : list string :=
  match cs with
  | [] => []
  | c :: cs' => if (pos <? available)%Z then c :: chars_below available (pos + Z.of_nat (len c)) cs' else []
  end.

Definition truncated_to (available : Z) (content : string) : string :=
  of_chars (chars_below available 0 (chars content)).

(** What an append to a file of [current_size] bytes writes. *)
Definition to_write (current_size : Z) (content : string) : option string :=
  if (MAX_TASK_OUTPUT_BYTES <=? current_size)%Z then None
  else
    let projected := saturating_add_u64 current_size (Z.of_nat (len content)) in
    if (MAX_TASK_OUTPUT_BYTES <? projected)%Z then
      let available := saturating_sub MAX_TASK_OUTPUT_BYTES current_size in
      if (available =? 0)%Z then None else Some (truncated_to available content +:+ cap_notice)
    else Some content.

Section Disk.
Context {FS : Type} `{OutputFs FS}.
(** [kun_config::default_data_dir()]. *)
Variable data_dir : string.

Definition task_output_dir : string := path_join data_dir "tasks".
Definition task_output_path (task_id : string) : string :=
  path_join task_output_dir (task_id +:+ ".output").

(** [map_err(|e| format!("<what> {path:?}: {e}"))]. *)
Definition io_err (what path : string) (e : IoError) : string :=
  what +:+ " " +:+ o_debug path +:+ ": " +:+ io_text e.

Definition init_task_output (task_id : string) (f : FS) : result string string * FS :=
  let dir := task_output_dir in
  match o_mkdir_all dir f with
  | (Err e, f) => (Err (io_err "mkdir" dir e), f)
  | (Ok _, f) =>
      let path := task_output_path task_id in
      match o_create_new path f with
      | (Err e, f) => (Err (io_err "open" path e), f)
      | (Ok _, f) => (Ok path, f)
      end
  end.

Definition append_task_output (task_id content : string) (f : FS) : result string unit * FS :=
  let path := task_output_path task_id in
  let current_size := default 0%Z (ok (o_stat f path)) in
  match to_write current_size content with
  | None => (Ok (), f)
  | Some s =>
      match o_open_append f path with
      | Err e => (Err (io_err "append open" path e), f)
      | Ok _ => let '(r, f') := o_write_all path s f in (map_err (io_err "write" path) r, f')
      end
  end.

(** Open, seek when something is skipped, and read once. *)
Definition read_from (path : string) (seek : bool) (skip read_size : Z) (f : FS) : result string string :=
  map_err (io_err "open" path) (o_open_read f path) ≫= fun _ =>
  (if seek then map_err (io_err "seek" path) (o_seek f path skip) else Ok ()) ≫= fun _ =>
  map_err (io_err "read" path) (o_read f path skip read_size).

Definition read_task_output (task_id : string) (max_bytes : Z) (f : FS) : result string string :=
  let path := task_output_path task_id in
  map_err (io_err "stat" path) (o_stat f path) ≫= fun file_size =>
  if (file_size =? 0)%Z then Ok ""
  else
    let read_size := Z.min max_bytes file_size in
    let skip := (if read_size <? file_size then file_size - read_size else 0)%Z in
    read_from path (0 <? skip)%Z skip read_size f ≫= fun buf =>
    let content := from_utf8_lossy buf in
    if (0 <? skip)%Z
    then Ok ("[" +:+ pretty (skip / 1024)%Z +:+ "KB of earlier output omitted]" +:+ nl +:+ content)
    else Ok content.

(** The new offset is [from_offset + n as u64]. *)
Definition read_task_output_delta (task_id : string) (from_offset max_bytes : Z) (f : FS) :
    result string (string * Z) :=
  let path := task_output_path task_id in
  match o_stat f path with
  | Err (NotFound _) => Ok ("", from_offset)
  | Err e => Err (io_err "stat" path e)
  | Ok file_size =>
      if (file_size <=? from_offset)%Z then Ok ("", from_offset)
      else
        let read_size := Z.min max_bytes (file_size - from_offset) in
        read_from path true from_offset read_size f ≫= fun buf =>
        Ok (from_utf8_lossy buf, (from_offset + Z.of_nat (len buf))%Z)
  end.

Definition task_output_size (task_id : string) (f : FS) : result string Z :=
  let path := task_output_path task_id in
  match o_stat f path with
  | Ok n => Ok n
  | Err (NotFound _) => Ok 0%Z
  | Err e => Err (io_err "stat" path e)
  end.

Definition cleanup_task_output (task_id : string) (f : FS) : FS := o_remove (task_output_path task_id) f.

Definition tail_task_output (task_id : string) (tail_bytes : Z) (f : FS) : result string string :=
  let path := task_output_path task_id in
  match o_stat f path with
  | Err (NotFound _) => Ok ""
  | Err e => Err (io_err "stat" path e)
  | Ok file_size =>
      if (file_size =? 0)%Z then Ok ""
      else
        let read_size := Z.min tail_bytes file_size in
        let skip := (file_size - read_size)%Z in
        from_utf8_lossy <$> read_from path (0 <? skip)%Z skip read_size f
  end.

(** ** The buffered writer *)

Record OutputWriter := { task_id : string; buffer : string; bytes_written : Z; capped : bool }.

Definition OutputWriter_new (id : string) : OutputWriter :=
  {| task_id := id; buffer := ""; bytes_written := 0; capped := false |}.

(** The lock is released before the write; the write is part of the same call. *)
Definition writer_append (content : string) (w : OutputWriter) (f : FS) :
    result string unit * OutputWriter * FS :=
  if capped w then (Ok (), w, f)
  else
    let written := saturating_add_u64 (bytes_written w) (Z.of_nat (len content)) in
    if (MAX_TASK_OUTPUT_BYTES <=? written)%Z then
      let data := from_utf8_lossy (buffer w +:+ cap_notice) in
      let w' := {| task_id := task_id w; buffer := ""; bytes_written := written; capped := true |} in
      let '(r, f') := append_task_output (task_id w) data f in (r, w', f')
    else
      let buf := buffer w +:+ content in
      if (8192 <=? Z.of_nat (len buf))%Z then
        let w' := {| task_id := task_id w; buffer := ""; bytes_written := written; capped := false |} in
        let '(r, f') := append_task_output (task_id w) (from_utf8_lossy buf) f in (r, w', f')
      else (Ok (), {| task_id := task_id w; buffer := buf; bytes_written := written; capped := false |}, f).

(** [flush]; dropping the writer does the same and ignores the result. *)
Definition writer_flush (w : OutputWriter) (f : FS) : result string unit * OutputWriter * FS :=
  let buf := buffer w in
  let w' := {| task_id := task_id w; buffer := ""; bytes_written := bytes_written w; capped := capped w |} in
  if is_empty_str buf then (Ok (), w', f)
  else let '(r, f') := append_task_output (task_id w) (from_utf8_lossy buf) f in (r, w', f').

(** ** Persisted tool results *)

Definition tool_results_dir (workspace_root session_id : string) : string :=
  path_join (path_join (path_join workspace_root ".jia") "tool-results") session_id.

Definition id_char (c : string) : bool :=
  match c with
  | String a "" =>
      is_ascii_alphanumeric a || Ascii.eqb a "." || Ascii.eqb a "_" || Ascii.eqb a "-"
  | _ => false
  end.

Definition sanitize_tool_call_id (tool_call_id : string) : string :=
  of_chars ((fun c => if id_char c then c else "_") <$> chars tool_call_id).

Definition tool_result_path (workspace_root session_id tool_call_id : string) : string :=
  path_join (tool_results_dir workspace_root session_id) (sanitize_tool_call_id tool_call_id +:+ ".txt").

Definition persist_tool_result (workspace_root session_id tool_call_id content : string) (f : FS) :
    result string (string * Z) * FS :=
  let dir := tool_results_dir workspace_root session_id in
  match o_mkdir_all dir f with
  | (Err e, f) => (Err (io_err "mkdir" dir e), f)
  | (Ok _, f) =>
      let path := tool_result_path workspace_root session_id tool_call_id in
      match o_create_new path f with
      | (Ok _, f) =>
          match o_write_all path content f with
          | (Ok _, f) => (Ok (path, Z.of_nat (len content)), f)
          | (Err e, f) => (Err (io_err "write" path e), f)
          end
      | (Err (AlreadyExists _), f) => (Ok (path, default 0%Z (ok (o_stat f path))), f)
      | (Err e, f) => (Err (io_err "open" path e), f)
      end
  end.

Definition read_tool_result_window (path : string) (from_offset max_bytes : Z) (f : FS) :
    result string (string * Z * Z) :=
  map_err (io_err "stat" path) (o_stat f path) ≫= fun file_size =>
  if (file_size <=? from_offset)%Z then Ok ("", from_offset, file_size)
  else
    let read_size := Z.min max_bytes (file_size - from_offset) in
    read_from path true from_offset read_size f ≫= fun buf =>
    Ok (from_utf8_lossy buf, (from_offset + Z.of_nat (len buf))%Z, file_size).

(** [Vec<String>::sort] orders by bytes. *)
Definition list_tool_result_ids (workspace_root session_id : string) (f : FS) : list string :=
  match o_file_names f (tool_results_dir workspace_root session_id) with
  | Some names => stable_sort String.le (omap (fun n => strip_suffix_str n ".txt") names)
  | None => []
  end.

(** ** The tool [retrieve_tool_result] *)

Definition DEFAULT_MAX_BYTES : Z := 64 * 1024.
Definition MAX_RETRIEVE_BYTES : Z := 1024 * 1024.

Definition page_size (input : Value) : Z :=
  Z.min MAX_RETRIEVE_BYTES (Z.max 1 (default DEFAULT_MAX_BYTES (as_u64 (index input "max_bytes")))).

Definition missing_result (tool_call_id : string) (available : list string) : string :=
  match available with
  | [] => "No persisted tool result for tool_call_id '" +:+ tool_call_id +:+
      "' — this session has no persisted results at all. Only tool outputs that exceeded the output budget are persisted."
  | _ => "No persisted tool result for tool_call_id '" +:+ tool_call_id +:+
      "'. Available ids this session: " +:+ str_join ", " available
  end.

Definition page_text (tool_call_id : string) (offset new_offset total : Z) (content : string) : string :=
  "[tool_call_id '" +:+ tool_call_id +:+ "' — bytes " +:+ pretty offset +:+ ".." +:+ pretty new_offset +:+
  " of " +:+ pretty total +:+ "]" +:+ nl +:+ content +:+
  (if (new_offset <? total)%Z
   then nl +:+ "[" +:+ pretty (total - new_offset)%Z +:+ " bytes remaining — call again with offset=" +:+
        pretty new_offset +:+ "]"
   else "").

Definition retrieve_execute (workspace_root session_id : string) (input : Value) (f : FS) :
    result ToolError string :=
  ok_or (as_str (index input "tool_call_id")) (error_of "Missing 'tool_call_id' parameter") ≫= fun id =>
  if is_empty_str id then Err (error_of "Empty 'tool_call_id' parameter")
  else
    let offset := default 0%Z (as_u64 (index input "offset")) in
    let path := tool_result_path workspace_root session_id id in
    if is_ok (o_stat f path) then
      '(content, new_offset, total) ← map_err error_of (read_tool_result_window path offset (page_size input) f);
      Ok (page_text id offset new_offset total content)
    else Err (error_of (missing_result id (list_tool_result_ids workspace_root session_id f))).

End Disk.

(** ** Appending *)

Definition cap_slack : Z := 3 + Z.of_nat (len cap_notice).
#[local] Arguments cap_notice : simpl never.

Lemma chars_below_len available pos cs :
  Forall (fun c => (len c <= 4)%nat) cs -> (Z.of_nat (len (of_chars (chars_below available pos cs))) <= Z.max 0 (available - pos + 3))%Z.
Proof.
  intros Hall. revert pos. induction Hall as [|c cs Hc _ IH]; intros pos; cbn; [lia|].
  destruct (Z.ltb_spec pos available); cbn; [|lia]. unfold of_chars in IH. rewrite app_len.
  fold (concat_str (chars_below available (pos + Z.of_nat (len c)) cs)).
  specialize (IH (pos + Z.of_nat (len c))%Z). lia.
Qed.

Lemma truncated_len available s : is_utf8 s = true -> (0 <= available)%Z ->
  (Z.of_nat (len (truncated_to available s)) <= available + 3)%Z.
Proof. intros Hs Ha. pose proof (chars_below_len available 0 (chars s) (utf8_char_len s Hs)). unfold truncated_to. lia. Qed.

(** Below the cap an append writes the whole text; beyond it nothing; across it,
    the characters that start below it and the notice. *)
Lemma to_write_small n s : (0 <= n)%Z -> (n + Z.of_nat (len s) <= MAX_TASK_OUTPUT_BYTES)%Z ->
  to_write n s = Some s \/ (n = MAX_TASK_OUTPUT_BYTES /\ s = "").
Proof.
  intros Hn Hs. unfold to_write. destruct (Z.leb_spec MAX_TASK_OUTPUT_BYTES n).
  - right. split; [lia|]. destruct s; [done|]. cbn in Hs. lia.
  - left. unfold saturating_add_u64. destruct (Z.ltb_spec MAX_TASK_OUTPUT_BYTES (Z.min u64_max (n + Z.of_nat (len s)))); [lia|done].
Qed.

Lemma to_write_bound n s w : is_utf8 s = true -> (0 <= n)%Z -> to_write n s = Some w ->
  (n + Z.of_nat (len w) <= MAX_TASK_OUTPUT_BYTES + cap_slack)%Z.
Proof.
  intros Hs Hn. unfold to_write, cap_slack.
  destruct (Z.leb_spec MAX_TASK_OUTPUT_BYTES n); [done|].
  unfold saturating_add_u64, saturating_sub.
  destruct (Z.ltb_spec MAX_TASK_OUTPUT_BYTES (Z.min u64_max (n + Z.of_nat (len s)))).
  - destruct (Z.eqb_spec (Z.max 0 (MAX_TASK_OUTPUT_BYTES - n)) 0); [done|]. intros [= <-]. rewrite app_len.
    pose proof (truncated_len (Z.max 0 (MAX_TASK_OUTPUT_BYTES - n)) s Hs ltac:(lia)). lia.
  - intros [= <-]. assert (MAX_TASK_OUTPUT_BYTES < u64_max)%Z by reflexivity. lia.
Qed.

Section DiskFacts.
Context {FS : Type} `{OutputFsLaws FS}.
Variable data_dir : string.

(** What one append does to the bytes of all files. *)
Lemma append_run id s f r f' : append_task_output data_dir id s f = (r, f') ->
  (forall q, o_bytes f' q = o_bytes f q) /\ (r = Ok () -> to_write (default 0%Z (ok (o_stat f (task_output_path data_dir id)))) s = None) \/
  exists c w t, o_bytes f (task_output_path data_dir id) = Some c /\
    to_write (default 0%Z (ok (o_stat f (task_output_path data_dir id)))) s = Some t /\
    o_bytes f' (task_output_path data_dir id) = Some (c +:+ w) /\ prefixb w t = true /\ (r = Ok () -> w = t) /\
    forall q, q <> task_output_path data_dir id -> o_bytes f' q = o_bytes f q.
Proof.
  unfold append_task_output. set (p := task_output_path data_dir id).
  destruct (to_write _ s) as [t|] eqn:Ht; [|intros [= <- <-]; auto].
  destruct (o_open_append f p) as [[]|e] eqn:Ho; [|intros [= <- <-]; left; split; [done|discriminate]].
  destruct (append_exists f p Ho) as [c Hc]. destruct (o_write_all p t f) as [r0 f0] eqn:Hw. intros [= <- <-].
  destruct (write_bytes p t f r0 f0 c Hc Hw) as ((w & Hb & Hp & Hok) & Hframe).
  right. exists c, w, t. split_and!; try done. intros Hr. apply Hok. destruct r0 as [[]|]; [done|discriminate].
Qed.

Lemma prefixb_len w t : prefixb w t = true -> (len w <= len t)%nat.
Proof.
  revert t. induction w as [|a w IH]; intros [|b t]; cbn; try done; try lia.
  intros [_ H1]%andb_true_iff. specialize (IH _ H1). lia.
Qed.

(** A run of appends, to any tasks. *)
Fixpoint append_all (ops : list (string * string)) (f : FS) : FS :=
  match ops with
  | [] => f
  | (id, s) :: ops' => append_all ops' (snd (append_task_output data_dir id s f))
  end.

(** [metadata] succeeds on the files that exist. *)
Definition stat_works (p : string) : Prop := forall f c, o_bytes f p = Some c -> o_stat f p = Ok (Z.of_nat (len c)).

Lemma append_step_bound id s p f c : stat_works p -> is_utf8 s = true -> o_bytes f p = Some c ->
  exists w, o_bytes (snd (append_task_output data_dir id s f)) p = Some (c +:+ w) /\
    (Z.of_nat (len (c +:+ w)) <= Z.max (Z.of_nat (len c)) (MAX_TASK_OUTPUT_BYTES + cap_slack))%Z /\
    ((MAX_TASK_OUTPUT_BYTES <= Z.of_nat (len c))%Z -> w = "").
Proof.
  intros Hst Hs Hc. destruct (append_task_output data_dir id s f) as [r f'] eqn:Hrun. cbn [snd].
  destruct (append_run id s f r f' Hrun) as [[Hf _]|(c0 & w & t & Hc0 & Ht & Hb & Hp & _ & Hf)].
  - exists "". rewrite Hf, app_nil_r_str. split_and!; [done|lia|done].
  - destruct (decide (p = task_output_path data_dir id)) as [->|Hne].
    + assert (c0 = c) as -> by congruence. exists w. rewrite (Hst f c Hc) in Ht. change (to_write (Z.of_nat (len c)) s = Some t) in Ht.
      pose proof (to_write_bound _ _ _ Hs (Nat2Z.is_nonneg _) Ht) as Hbd. pose proof (prefixb_len w t Hp).
      rewrite app_len. split_and!; [done|lia|]. intros Hcap. exfalso. unfold to_write in Ht.
      destruct (Z.leb_spec MAX_TASK_OUTPUT_BYTES (Z.of_nat (len c))); [done|lia].
    + exists "". rewrite (Hf p Hne), app_nil_r_str. split_and!; [done|lia|done].
Qed.

(** The output file of a task only grows, and never beyond five gigabytes
    by more than one character and the notice, whatever appends are made to
    whatever tasks and however the writes fail; from the cap on it is left as
    it is. *)
Theorem task_output_bounded ops p f c
    (Hstat : stat_works p) (Htext : Forall (fun op => is_utf8 (snd op) = true) ops)
    (Hc : o_bytes f p = Some c) (Hlen : (Z.of_nat (len c) <= MAX_TASK_OUTPUT_BYTES + cap_slack)%Z) :
  exists w, o_bytes (append_all ops f) p = Some (c +:+ w) /\
    (Z.of_nat (len (c +:+ w)) <= MAX_TASK_OUTPUT_BYTES + 3 + Z.of_nat (len cap_notice))%Z /\
    ((MAX_TASK_OUTPUT_BYTES <= Z.of_nat (len c))%Z -> w = "").
Proof.
  revert f c Hc Hlen. induction Htext as [|[id s] ops Hs _ IH]; intros f c Hc Hlen; cbn [append_all].
  { exists "". rewrite app_nil_r_str. unfold cap_slack in Hlen. split_and!; [done|lia|done]. }
  destruct (append_step_bound id s p f c Hstat Hs Hc) as (w & Hw & Hb & Hcap).
  destruct (IH _ _ Hw ltac:(lia)) as (w' & Hw' & Hb' & Hcap'). exists (w +:+ w').
  rewrite <- app_assoc_str. split_and!; [done|done|]. intros Hge. rewrite (Hcap Hge) in *.
  rewrite app_nil_r_str in Hcap'. by rewrite (Hcap' Hge).
Qed.

(** ** The buffered writer *)

Fixpoint writer_run (ss : list string) (w : OutputWriter) (f : FS) : result string unit * OutputWriter * FS :=
  match ss with
  | [] => (Ok (), w, f)
  | s :: ss' =>
      match writer_append data_dir s w f with
      | (Ok _, w', f') => writer_run ss' w' f'
      | other => other
      end
  end.

(** What is on disk and what is buffered make up everything appended. *)
Record writer_inv (id : string) (f0 : FS) (seen : string) (w : OutputWriter) (f : FS) : Prop := {
  inv_id : task_id w = id;
  inv_open : capped w = false;
  inv_count : bytes_written w = Z.of_nat (len seen);
  inv_text : is_utf8 (buffer w) = true;
  inv_small : (Z.of_nat (len (buffer w)) < 8192)%Z;
  inv_disk : exists c, o_bytes f (task_output_path data_dir id) = Some c /\ c +:+ buffer w = seen;
  inv_frame : forall q, q <> task_output_path data_dir id -> o_bytes f q = o_bytes f0 q
}.

(** An append that succeeds below the cap writes its whole text. *)
Lemma append_ok id s f f' c : append_task_output data_dir id s f = (Ok (), f') ->
  o_bytes f (task_output_path data_dir id) = Some c ->
  (Z.of_nat (len c) + Z.of_nat (len s) <= MAX_TASK_OUTPUT_BYTES)%Z ->
  o_bytes f' (task_output_path data_dir id) = Some (c +:+ s) /\
  forall q, q <> task_output_path data_dir id -> o_bytes f' q = o_bytes f q.
Proof.
  intros Hrun Hc Hsum. pose proof (append_run id s f (Ok ()) f' Hrun) as Hcases.
  remember (default 0%Z (ok (o_stat f (task_output_path data_dir id)))) as n eqn:Hdef.
  assert (Hn : n = Z.of_nat (len c) \/ n = 0%Z).
  { rewrite Hdef. destruct (o_stat f _) as [m|e] eqn:Hst; [left|by right].
    destruct (stat_bytes _ _ _ Hst) as (c' & Hc' & ->). by simplify_eq. }
  assert (Hw : to_write n s = Some s \/ s = "").
  { destruct (to_write_small n s) as [?|[_ ?]]; [destruct Hn; lia..|by left|by right]. }
  destruct Hcases as [[Hf Hnone]|(c0 & w & t & Hc0 & Ht & Hb & Hp & Hok & Hf)].
  - rewrite !Hf. destruct Hw as [Hw| ->]; [rewrite (Hnone eq_refl) in Hw; discriminate|].
    by rewrite app_nil_r_str.
  - assert (c0 = c) as -> by congruence. rewrite (Hok eq_refl) in Hb. split; [|done].
    destruct Hw as [Hw| ->]; [congruence|]. unfold to_write in Ht. cbn [String.length] in Ht.
    change (Z.of_nat 0) with 0%Z in Ht. unfold saturating_add_u64 in Ht. rewrite Z.add_0_r in Ht.
    destruct (Z.leb_spec MAX_TASK_OUTPUT_BYTES n); [done|].
    destruct (Z.ltb_spec MAX_TASK_OUTPUT_BYTES (Z.min u64_max n)); [lia|]. by simplify_eq.
Qed.

Lemma total_small (n : Z) : (n < MAX_TASK_OUTPUT_BYTES)%Z -> saturating_add_u64 0 n = n.
Proof. intros Hn. unfold saturating_add_u64. assert (MAX_TASK_OUTPUT_BYTES < u64_max)%Z by reflexivity. lia. Qed.

Lemma writer_append_inv id f0 seen s w f w' f' : writer_inv id f0 seen w f -> is_utf8 s = true ->
  (Z.of_nat (len (seen +:+ s)) < MAX_TASK_OUTPUT_BYTES)%Z ->
  writer_append data_dir s w f = (Ok (), w', f') -> writer_inv id f0 (seen +:+ s) w' f'.
Proof.
  intros [Hid Hop Hcnt Htx Hsm (c & Hc & Hseen) Hfr] Hs Htot. unfold writer_append. rewrite Hop, Hcnt, Hid.
  assert (Hadd : saturating_add_u64 (Z.of_nat (len seen)) (Z.of_nat (len s)) = Z.of_nat (len (seen +:+ s))).
  { rewrite <- (total_small (Z.of_nat (len (seen +:+ s)))) by done. unfold saturating_add_u64. rewrite app_len. lia. }
  rewrite Hadd. destruct (Z.leb_spec MAX_TASK_OUTPUT_BYTES (Z.of_nat (len (seen +:+ s)))); [lia|].
  assert (Hbuf : is_utf8 (buffer w +:+ s) = true) by by apply is_utf8_app.
  destruct (Z.leb_spec 8192 (Z.of_nat (len (buffer w +:+ s)))).
  - rewrite lossy_utf8 by done. destruct (append_task_output _ _ _ f) as [r f2] eqn:Ha. intros [= -> <- <-].
    destruct (append_ok id _ f f2 c Ha Hc) as [Hb Hf2].
    { rewrite <- Hseen, !app_len in Htot. rewrite app_len. lia. }
    constructor; cbn; try done; [|intros q Hq; by rewrite Hf2, Hfr].
    eexists. split; [exact Hb|]. by rewrite app_nil_r_str, <- app_assoc_str, Hseen.
  - intros [= <- <-]. constructor; cbn; try done. exists c. split; [done|]. by rewrite <- app_assoc_str, Hseen.
Qed.

Lemma writer_run_inv id f0 seen ss w f w' f' : writer_inv id f0 seen w f -> Forall (fun s => is_utf8 s = true) ss ->
  (Z.of_nat (len (seen +:+ concat_str ss)) < MAX_TASK_OUTPUT_BYTES)%Z ->
  writer_run ss w f = (Ok (), w', f') -> writer_inv id f0 (seen +:+ concat_str ss) w' f'.
Proof.
  intros Hinv Hall. revert seen w f Hinv. induction Hall as [|s ss Hs _ IH]; intros seen w f Hinv Htot Hrun.
  - cbn in Hrun. injection Hrun as <- <-. cbn. by rewrite app_nil_r_str.
  - cbn [writer_run] in Hrun. change (concat_str (s :: ss)) with (s +:+ concat_str ss) in *.
    rewrite <- app_assoc_str in *.
    destruct (writer_append data_dir s w f) as [[[[]|e] w1] f1] eqn:Ha; [|done].
    apply (IH _ w1 f1); [|done|done]. apply (writer_append_inv id f0 seen s w f); [done|done| |done].
    rewrite app_len in Htot. lia.
Qed.

Lemma writer_new_inv id f0 f1 p : init_task_output data_dir id f0 = (Ok p, f1) ->
  p = task_output_path data_dir id /\ o_bytes f0 p = None /\ writer_inv id f0 "" (OutputWriter_new id) f1.
Proof.
  unfold init_task_output. destruct (o_mkdir_all _ f0) as [[[]|e] fm] eqn:Hm; [|done].
  destruct (o_create_new _ fm) as [[[]|e] fc] eqn:Hcr; [|done]. intros [= <- <-].
  destruct (create_bytes _ _ _ Hcr) as (Hn & Hs & Hfr).
  assert (Hmk : forall q, o_bytes fm q = o_bytes f0 q).
  { intros q. change fm with (snd (Ok (E:=IoError) (), fm)). rewrite <- Hm. apply mkdir_bytes. }
  split_and!; [done|by rewrite <- Hmk|]. constructor; try done; [by exists ""|].
  intros q Hq. by rewrite Hfr, Hmk.
Qed.

(** [C39] A writer on a fresh output file refines writing straight through: as
    long as its calls succeed and less than the cap is appended, disk and buffer
    together are everything appended so far and the buffer stays below 8 KB;
    after a flush the file is exactly everything appended, and no other file has
    changed.  The append that reaches the cap is not recorded: the file ends with
    the notice after the text before it. *)
Theorem writer_refines_file id ss f0 p f1 w f2
    (Hinit : init_task_output data_dir id f0 = (Ok p, f1)) (Htext : Forall (fun s => is_utf8 s = true) ss)
    (Hrun : writer_run ss (OutputWriter_new id) f1 = (Ok (), w, f2))
    (Htot : (Z.of_nat (len (concat_str ss)) < MAX_TASK_OUTPUT_BYTES)%Z) :
  (exists c, o_bytes f2 p = Some c /\ c +:+ buffer w = concat_str ss /\ (Z.of_nat (len (buffer w)) < 8192)%Z) /\
  (forall q, q <> p -> o_bytes f2 q = o_bytes f0 q) /\
  (forall w' f', writer_flush data_dir w f2 = (Ok (), w', f') -> o_bytes f' p = Some (concat_str ss)) /\
  (forall s w' f', writer_append data_dir s w f2 = (Ok (), w', f') ->
     (MAX_TASK_OUTPUT_BYTES <= Z.of_nat (len (concat_str ss)) + Z.of_nat (len s))%Z ->
     (Z.of_nat (len (concat_str ss)) + Z.of_nat (len cap_notice) <= MAX_TASK_OUTPUT_BYTES)%Z ->
     o_bytes f' p = Some (concat_str ss +:+ cap_notice) /\
     forall t, writer_append data_dir t w' f' = (Ok (), w', f')).
Proof.
  destruct (writer_new_inv id f0 f1 p Hinit) as (-> & _ & Hinv).
  pose proof (writer_run_inv id f0 "" ss _ f1 w f2 Hinv Htext Htot Hrun) as [Hid Hop Hcnt Htx Hsm (c & Hc & Hseen) Hfr].
  change ("" +:+ concat_str ss) with (concat_str ss) in *. split_and!; [by exists c|done| |].
  - intros w' f'. unfold writer_flush. rewrite Hid. destruct (is_empty_str (buffer w)) eqn:He.
    + intros [= _ <-]. apply String.eqb_eq in He. rewrite He, app_nil_r_str in Hseen. by rewrite Hc, Hseen.
    + rewrite lossy_utf8 by done. destruct (append_task_output _ _ _ f2) as [r f3] eqn:Ha. intros [= -> _ <-].
      destruct (append_ok id _ f2 f3 c Ha Hc) as [Hb _]; [|by rewrite Hb, Hseen].
      rewrite <- Hseen, app_len in Htot. lia.
  - intros s w' f'. unfold writer_append. rewrite Hop, Hcnt, Hid. intros Happ Hge Hle.
    assert (Hsat : (MAX_TASK_OUTPUT_BYTES <= saturating_add_u64 (Z.of_nat (len (concat_str ss))) (Z.of_nat (len s)))%Z).
    { unfold saturating_add_u64. assert (MAX_TASK_OUTPUT_BYTES < u64_max)%Z by reflexivity. lia. }
    rewrite (proj2 (Z.leb_le _ _) Hsat) in Happ.
    rewrite lossy_utf8 in Happ by (by apply is_utf8_app).
    destruct (append_task_output _ _ _ f2) as [r f3] eqn:Ha. injection Happ as -> <- <-.
    destruct (append_ok id _ f2 f3 c Ha Hc) as [Hb _].
    { rewrite <- Hseen, app_len in Hle. rewrite app_len. lia. }
    rewrite Hb, <- app_assoc_str, Hseen. split; [done|]. intros t. reflexivity.
Qed.

(** ** Persisted results *)

(** Following the offsets a reader is given, until nothing remains. *)
Fixpoint read_pages (fuel : nat) (path : string) (offset max_bytes : Z) (f : FS) : option (list string) :=
  match fuel with
  | O => None
  | S k =>
      match read_tool_result_window path offset max_bytes f with
      | Ok (text, new_offset, total) =>
          if (new_offset <? total)%Z then cons text <$> read_pages k path new_offset max_bytes f
          else Some [text]
      | Err _ => None
      end
  end.

(** A window is the bytes from its offset on: some, unless none are left. *)
Lemma window_run path offset m f c text new_offset total :
  o_bytes f path = Some c -> (0 <= offset)%Z -> (0 < m)%Z ->
  read_tool_result_window path offset m f = Ok (text, new_offset, total) ->
  exists w, text = from_utf8_lossy w /\ total = Z.of_nat (len c) /\ new_offset = (offset + Z.of_nat (len w))%Z /\
    drop_str (Z.to_nat offset) c = w +:+ drop_str (Z.to_nat new_offset) c /\
    ((offset < total)%Z -> w <> "") /\ (Z.of_nat (len w) <= m)%Z.
Proof.
  intros Hc Ho Hm. unfold read_tool_result_window.
  destruct (o_stat f path) as [n|e] eqn:Hst; [|done]. cbn.
  destruct (stat_bytes _ _ _ Hst) as (c' & Hc' & ->). assert (c' = c) as -> by congruence.
  destruct (Z.leb_spec (Z.of_nat (len c)) offset) as [Hle|Hgt].
  { intros [= <- <- <-]. exists "". change (Z.of_nat (len "")) with 0%Z. rewrite Z.add_0_r. split_and!; (done || lia). }
  unfold read_from. destruct (o_open_read f path) as [[]|e]; [|done]. cbn.
  destruct (o_seek f path offset) as [[]|e]; [|done]. cbn.
  destruct (o_read f path offset _) as [w|e] eqn:Hr; [|done]. cbn. intros [= <- <- <-].
  destruct (read_bytes _ _ _ _ _ Hr) as (c' & Hc2 & Hw & Hlen & Hne). assert (c' = c) as -> by congruence.
  exists w. split_and!; try done; [|intros _; apply Hne; lia|lia].
  rewrite <- (take_drop_str (len w) (drop_str (Z.to_nat offset) c)) at 1. rewrite <- Hw. f_equal.
  replace (Z.to_nat (offset + Z.of_nat (len w))) with (len w + Z.to_nat offset)%nat by lia.
  rewrite drop_drop_str. done.
Qed.

(** The reads a page needs succeed. *)
Definition readable (path : string) (f : FS) : Prop :=
  forall offset m, is_ok (read_tool_result_window path offset m f) = true.

(** The pages from an offset on tile the rest of the file. *)
Lemma pages_tile path m f c fuel offset : o_bytes f path = Some c -> readable path f ->
  (0 < m)%Z -> (0 <= offset)%Z -> (len c - Z.to_nat offset < fuel)%nat ->
  exists ws, read_pages fuel path offset m f = Some (from_utf8_lossy <$> ws) /\
    concat_str ws = drop_str (Z.to_nat offset) c /\ Forall (fun w => (Z.of_nat (len w) <= m)%Z) ws.
Proof.
  intros Hc Hrd Hm. revert offset. induction fuel as [|k IH]; intros offset Ho Hk; [lia|]. cbn [read_pages].
  destruct (read_tool_result_window path offset m f) as [[[text new] total]|e] eqn:Hw.
  2: { specialize (Hrd offset m). by rewrite Hw in Hrd. }
  destruct (window_run _ _ _ _ _ _ _ _ Hc Ho Hm Hw) as (w & -> & -> & -> & Hsplit & Hne & Hlen).
  destruct (Z.ltb_spec (offset + Z.of_nat (len w)) (Z.of_nat (len c))) as [Hlt|Hge].
  - destruct (IH (offset + Z.of_nat (len w))%Z) as (ws & Hp & Hcat & Hall); [lia|..].
    { assert (w <> "") by (apply Hne; lia). destruct w as [|a w]; [done|]. cbn [String.length] in *. lia. }
    rewrite Hp. exists (w :: ws). split_and!; [done| |by constructor]. rewrite Hsplit, <- Hcat. done.
  - exists [w]. split_and!; [done| |by repeat constructor]. rewrite Hsplit.
    rewrite (drop_beyond_str (Z.to_nat _) c) by lia. cbn. done.
Qed.

Lemma concat_lossy_ascii ws : is_ascii_str (concat_str ws) = true -> concat_str (from_utf8_lossy <$> ws) = concat_str ws.
Proof.
  induction ws as [|w ws IH]; [done|]. change (concat_str (w :: ws)) with (w +:+ concat_str ws).
  rewrite ascii_app. intros [Hw Hws]%andb_true_iff.
  change (concat_str (from_utf8_lossy <$> w :: ws)) with (from_utf8_lossy w +:+ concat_str (from_utf8_lossy <$> ws)).
  by rewrite IH, lossy_utf8 by (done || by apply ascii_utf8).
Qed.

(** Persisting either creates the file or finds it taken; no other file changes. *)
Lemma persist_run root session id content f p n f' :
  persist_tool_result root session id content f = (Ok (p, n), f') ->
  p = tool_result_path root session id /\ (forall q, q <> p -> o_bytes f' q = o_bytes f q) /\
  (o_bytes f p = None /\ o_bytes f' p = Some content /\ n = Z.of_nat (len content) \/
   o_bytes f' p = o_bytes f p /\ (exists t f1, o_create_new p f1 = (Err (AlreadyExists t), f'))).
Proof.
  unfold persist_tool_result. set (path := tool_result_path root session id).
  destruct (o_mkdir_all _ f) as [[[]|e] f1] eqn:Hmk; [|done].
  assert (Hd : forall q, o_bytes f1 q = o_bytes f q).
  { intros q. change f1 with (snd (Ok (E:=IoError) (), f1)). rewrite <- Hmk. apply mkdir_bytes. }
  destruct (o_create_new path f1) as [[[]|e] f2] eqn:Hcr.
  - destruct (create_bytes _ _ _ Hcr) as (Hn & Hs & Hfr). destruct (o_write_all path content f2) as [[[]|e] f3] eqn:Hw; [|done].
    intros [= <- <- <-]. destruct (write_bytes _ _ _ _ _ _ Hs Hw) as ((w & Hb & _ & Hok) & Hfw).
    rewrite (Hok eq_refl) in Hb. split_and!; [done| |].
    + intros q Hq. by rewrite Hfw, Hfr, Hd.
    + left. split_and!; [by rewrite <- Hd|done|done].
  - pose proof (create_fails _ _ _ _ Hcr) as Hfr. destruct e; try done. intros [= <- <- <-].
    split_and!; [done|intros q _; by rewrite Hfr, Hd|]. right. split; [by rewrite Hfr, Hd|eauto].
Qed.

(** A persisted result is the first text saved under its name, for good:
    saving to a free name stores exactly the text and reports its length, saving
    again changes nothing; and reading it page by page, following the offsets the
    pages give, ends after at most as many pages as the file has bytes, with
    windows that tile the file, so that ASCII text comes back unchanged. *)
Theorem persisted_result_roundtrip root session id content f p n f'
    (Hrun : persist_tool_result root session id content f = (Ok (p, n), f')) :
  (forall q, q <> p -> o_bytes f' q = o_bytes f q) /\
  (o_bytes f p = None -> o_bytes f' p <> None -> o_bytes f' p = Some content /\ n = Z.of_nat (len content)) /\
  (forall c, o_bytes f p = Some c -> o_bytes f' p = Some c) /\
  (forall content' n' f'', persist_tool_result root session id content' f' = (Ok (p, n'), f'') ->
     forall c, o_bytes f' p = Some c -> o_bytes f'' p = Some c) /\
  (forall m c, o_bytes f' p = Some c -> readable p f' -> (0 < m)%Z -> exists ws,
     read_pages (S (len c)) p 0 m f' = Some (from_utf8_lossy <$> ws) /\ concat_str ws = c /\
     Forall (fun w => (Z.of_nat (len w) <= m)%Z) ws /\
     (is_ascii_str c = true -> concat_str (from_utf8_lossy <$> ws) = c)).
Proof.
  destruct (persist_run _ _ _ _ _ _ _ _ Hrun) as (-> & Hfr & Hcases). split_and!.
  - done.
  - intros Hn Hs. destruct Hcases as [(_ & -> & ->)|[Heq _]]; [done|congruence].
  - intros c Hc. destruct Hcases as [(Hn & _)|[-> _]]; congruence.
  - intros content' n' f'' Hrun2 c Hc.
    destruct (persist_run _ _ _ _ _ _ _ _ Hrun2) as (_ & _ & [(Hn & _)|[-> _]]); congruence.
  - intros m c Hc Hrd Hm. destruct (pages_tile _ m f' c (S (len c)) 0 Hc Hrd Hm) as (ws & Hp & Hcat & Hall); [lia..|].
    exists ws. change (drop_str (Z.to_nat 0) c) with c in Hcat. split_and!; [done..|].
    intros Ha. rewrite <- Hcat. apply concat_lossy_ascii. by rewrite Hcat.
Qed.

End DiskFacts.

(** ** Names of persisted results *)

(** The bytes a file name may hold; no slash is among them. *)
Definition name_byte (a : ascii) : bool :=
  is_ascii_alphanumeric a || Ascii.eqb a "." || Ascii.eqb a "_" || Ascii.eqb a "-".

Lemma name_byte_no_slash s : char_all name_byte s = true -> no_slash s.
Proof.
  induction s as [|c s IH]; [done|]. intros [Hc Hs]%andb_true_iff. unfold no_slash in *. cbn [split_char].
  destruct (Ascii.eqb_spec slash c) as [<-|]; [done|]. by rewrite (IH Hs).
Qed.

Lemma id_char_name_byte c : char_all name_byte (if id_char c then c else "_") = true.
Proof.
  destruct (id_char c) eqn:Hc; [|done]. destruct c as [|a [|b c]]; [done| |done]. cbn in Hc |- *.
  unfold name_byte. by rewrite Hc.
Qed.

Lemma char_all_app p a b : char_all p (a +:+ b) = char_all p a && char_all p b.
Proof. unfold char_all. induction a as [|c a IH]; cbn; [done|]. by rewrite IH, andb_assoc. Qed.

Lemma sanitized_bytes id : char_all name_byte (sanitize_tool_call_id id) = true.
Proof.
  unfold sanitize_tool_call_id, of_chars. induction (chars id) as [|c cs IH]; [done|].
  cbn [fmap list_fmap]. change (concat_str (?x :: ?l)) with (x +:+ concat_str l).
  rewrite char_all_app, id_char_name_byte. exact IH.
Qed.

Lemma suffixed_clean s : char_all name_byte s = true -> clean_segment (s +:+ ".txt").
Proof.
  intros Hs. split; [|split; [by destruct s|]].
  - apply name_byte_no_slash. by rewrite char_all_app, Hs.
  - intros He%(f_equal len). rewrite app_len in He. cbn in He. lia.
Qed.

(** An id made of plain name bytes is left as it is. *)
Lemma name_byte_graph s : char_all name_byte s = true -> char_all is_graph s = true.
Proof.
  unfold char_all. rewrite !forallb_forall. intros H a Ha. specialize (H a Ha).
  unfold name_byte in H. rewrite !orb_true_iff in H. unfold is_graph, ascii_in.
  apply andb_true_iff. rewrite !Nat.leb_le.
  destruct H as [[[H|H%Ascii.eqb_eq]|H%Ascii.eqb_eq]|H%Ascii.eqb_eq]; [|subst; vm_compute; lia..].
  unfold is_ascii_alphanumeric, is_ascii_alphabetic, is_ascii_lower, is_ascii_upper, is_ascii_digit, ascii_in in H.
  rewrite !orb_true_iff, !andb_true_iff, !Nat.leb_le in H. lia.
Qed.

Lemma sanitize_plain id : char_all name_byte id = true -> sanitize_tool_call_id id = id.
Proof.
  intros Hid. unfold sanitize_tool_call_id. rewrite <- (concat_chars id) at 2. f_equal.
  rewrite chars_graph by (by apply name_byte_graph). rewrite <- list_fmap_compose.
  apply list_fmap_ext. intros i a Ha. cbn. unfold char_all in Hid. rewrite forallb_forall in Hid.
  specialize (Hid a (proj1 (list_elem_of_In _ _) (list_elem_of_lookup_2 _ _ _ Ha))).
  unfold name_byte in Hid. by rewrite Hid.
Qed.

Lemma result_names_clean segs session s : Forall clean_segment segs -> clean_segment session ->
  char_all name_byte s = true ->
  Forall clean_segment (segs ++ [".jia"; "tool-results"; session; s +:+ ".txt"])%list.
Proof.
  intros Hsegs Hses Hs. apply Forall_app. split; [done|].
  apply Forall_cons_2; [done|]. apply Forall_cons_2; [done|]. apply Forall_cons_2; [done|].
  apply Forall_cons_2; [by apply suffixed_clean|constructor].
Qed.

(** Whatever id a provider sends, its persisted result is a file directly in
    the directory of the session, and ids of letters, digits, dots, underscores
    and hyphens keep their own name, so two of them never share a file. *)
Theorem tool_result_path_contained segs session id
    (Hroot : Forall clean_segment segs) (Hsession : clean_segment session) :
  (exists name, clean_segment name /\
     tool_result_path (render segs) session id = render (segs ++ [".jia"; "tool-results"; session; name])%list) /\
  (char_all name_byte id = true ->
     tool_result_path (render segs) session id = render (segs ++ [".jia"; "tool-results"; session; id +:+ ".txt"])%list /\
     forall id', char_all name_byte id' = true ->
       tool_result_path (render segs) session id' = tool_result_path (render segs) session id -> id' = id).
Proof.
  assert (Hpath : forall i, tool_result_path (render segs) session i =
    render (segs ++ [".jia"; "tool-results"; session; sanitize_tool_call_id i +:+ ".txt"])%list).
  { intros i. unfold tool_result_path, tool_results_dir.
    assert (clean_segment ".jia" /\ clean_segment "tool-results") as [H1 H2] by done.
    pose proof (suffixed_clean _ (sanitized_bytes i)) as Hn.
    rewrite (path_join_render segs), (path_join_render (segs ++ _)), (path_join_render ((segs ++ _) ++ _)),
      (path_join_render (((segs ++ _) ++ _) ++ _)); rewrite ?Forall_app; auto 10.
    by rewrite <- !app_assoc. }
  split.
  - exists (sanitize_tool_call_id id +:+ ".txt"). split; [|apply Hpath]. apply suffixed_clean, sanitized_bytes.
  - intros Hid. split; [by rewrite Hpath, sanitize_plain|]. intros id' Hid'. rewrite !Hpath, !sanitize_plain by done.
    intros He. assert (Hbody : body_segments (render (segs ++ [".jia"; "tool-results"; session; id' +:+ ".txt"])%list) =
      body_segments (render (segs ++ [".jia"; "tool-results"; session; id +:+ ".txt"])%list)) by by rewrite He.
    rewrite !body_segments_render in Hbody.
    + apply app_inv_head in Hbody. injection Hbody as Hx. apply app_inj_str in Hx as [? _]; [done|].
      apply (f_equal len) in Hx. rewrite !app_len in Hx. lia.
    + by destruct segs.
    + by apply result_names_clean.
    + by destruct segs.
    + by apply result_names_clean.
Qed.

(** ** An in-memory file system *)

(** The files, the latest content of each first. *)
Definition MemDisk := list (string * string).
Definition bytes_of (f : MemDisk) (p : string) : option string := Json.assoc p f.

Definition no_such_file {A} : result IoError A := Err (NotFound "No such file or directory (os error 2)").

#[export] Instance mem_output_fs : OutputFs MemDisk := {
  o_stat f p := match bytes_of f p with Some c => Ok (Z.of_nat (len c)) | None => no_such_file end;
  o_mkdir_all _ f := (Ok (), f);
  o_create_new p f :=
    match bytes_of f p with
    | Some _ => (Err (AlreadyExists "File exists (os error 17)"), f)
    | None => (Ok (), (p, "") :: f)
    end;
  o_open_append f p := match bytes_of f p with Some _ => Ok () | None => no_such_file end;
  o_write_all p s f :=
    match bytes_of f p with Some c => (Ok (), (p, c +:+ s) :: f) | None => (no_such_file, f) end;
  o_open_read f p := match bytes_of f p with Some _ => Ok () | None => no_such_file end;
  o_seek _ _ _ := Ok ();
  o_read f p off n :=
    match bytes_of f p with
    | Some c => Ok (take_str (Z.to_nat n) (drop_str (Z.to_nat off) c))
    | None => no_such_file
    end;
  o_remove p f := List.filter (fun e => negb (String.eqb p (fst e))) f;
  o_file_names f d := Some (omap (fun p => strip_prefix_str p (d +:+ "/")) f.*1);
  o_debug p := dq +:+ p +:+ dq
}.

Lemma bytes_of_cons p q s f : bytes_of ((p, s) :: f) q = if String.eqb q p then Some s else bytes_of f q.
Proof. done. Qed.

Lemma bytes_of_put p s f : bytes_of ((p, s) :: f) p = Some s.
Proof. by rewrite bytes_of_cons, String.eqb_refl. Qed.

Lemma bytes_of_other p q s f : q <> p -> bytes_of ((p, s) :: f) q = bytes_of f q.
Proof. intros H. rewrite bytes_of_cons. by rewrite (proj2 (String.eqb_neq q p)). Qed.

Lemma take_min_str n s : take_str (Nat.min n (len s)) s = take_str n s.
Proof. revert n. induction s as [|c s IH]; intros [|n]; cbn; [done..|]. by rewrite IH. Qed.

#[export] Instance mem_output_laws : OutputFsLaws MemDisk.
Proof.
  refine {| o_bytes := bytes_of |}.
  - intros f p n. cbn. destruct (bytes_of f p) as [c|]; [|done]. intros [= <-]. eauto.
  - done.
  - intros p f f'. cbn. destruct (bytes_of f p) eqn:Hp; [done|]. intros [= <-]. split_and!; [done| |].
    + apply bytes_of_put.
    + intros q Hq. by apply bytes_of_other.
  - intros p f e f'. cbn. destruct (bytes_of f p); [|done]. by intros [= _ <-].
  - intros f p. cbn. by destruct (bytes_of f p).
  - intros p s f r f' c Hc. cbn. rewrite Hc. intros [= <- <-]. split.
    + exists s. split_and!; [apply bytes_of_put|by rewrite <- (app_nil_r_str s) at 2; apply prefixb_app|done].
    + intros q Hq. by apply bytes_of_other.
  - intros f p off n s. cbn. destruct (bytes_of f p) as [c|]; [|done]. intros [= <-]. exists c. split_and!; [done| | |].
    + rewrite len_take_str. symmetry. apply take_min_str.
    + rewrite len_take_str. lia.
    + intros Hn Hoff He. apply (f_equal len) in He. rewrite len_take_str, len_drop_str in He. cbn in He. lia.
Defined.

(** ** Witnesses and examples *)

Definition out_path : string := task_output_path "/data" "b1".
Definition fresh_disk : MemDisk := [(out_path, "")].

Lemma mem_stat_works p : stat_works (FS := MemDisk) p.
Proof. intros f c Hc. change (bytes_of f p = Some c) in Hc. cbn. by rewrite Hc. Qed.

Lemma task_output_bounded_witness : exists w,
  o_bytes (append_all "/data" [("b1", "ok"); ("b2", "lost"); ("b1", "!")] fresh_disk) out_path = Some w /\
  (Z.of_nat (len w) <= MAX_TASK_OUTPUT_BYTES + 3 + Z.of_nat (len cap_notice))%Z.
Proof.
  destruct (task_output_bounded "/data" [("b1", "ok"); ("b2", "lost"); ("b1", "!")] out_path fresh_disk "") as (w & Hw & Hb & _).
  - apply mem_stat_works.
  - repeat constructor.
  - reflexivity.
  - vm_compute. discriminate.
  - exists ("" +:+ w). auto.
Defined.

Definition after_init : MemDisk := snd (init_task_output "/data" "b1" ([] : MemDisk)).

Lemma writer_refines_file_witness : exists w f2 c,
  writer_run "/data" ["ab"; "cd"] (OutputWriter_new "b1") after_init = (Ok (), w, f2) /\
  o_bytes f2 out_path = Some c /\ c +:+ buffer w = "abcd".
Proof.
  eexists _, _. edestruct (writer_refines_file "/data" "b1" ["ab"; "cd"] ([] : MemDisk) out_path after_init) as [(c & Hc & Hs & _) _].
  - vm_compute. reflexivity.
  - repeat constructor.
  - vm_compute. reflexivity.
  - vm_compute. reflexivity.
  - exists c. split; [vm_compute; reflexivity|]. split; [exact Hc|exact Hs].
Defined.

Definition saved : MemDisk := snd (persist_tool_result "/w" "s1" "call_1" "hello" ([] : MemDisk)).
Definition saved_path : string := tool_result_path "/w" "s1" "call_1".

Lemma persisted_result_roundtrip_witness : exists ws,
  read_pages 6 saved_path 0 2 saved = Some (from_utf8_lossy <$> ws) /\ concat_str (from_utf8_lossy <$> ws) = "hello".
Proof.
  destruct (persisted_result_roundtrip "/w" "s1" "call_1" "hello" ([] : MemDisk) saved_path 5 saved) as (_ & _ & _ & _ & Hpages).
  - vm_compute. reflexivity.
  - destruct (Hpages 2%Z "hello") as (ws & Hp & _ & _ & Ha).
    + vm_compute. reflexivity.
    + intros offset m. unfold read_tool_result_window, saved.
      change (o_stat _ saved_path) with (Ok (E := IoError) 5%Z). cbn. destruct (5 <=? offset)%Z; done.
    + lia.
    + exists ws. split; [exact Hp|]. by apply Ha.
Defined.

Lemma tool_result_path_contained_witness :
  tool_result_path (render ["w"]) "s1" "call_1" = "/w/.jia/tool-results/s1/call_1.txt" /\
  exists name, clean_segment name /\
    tool_result_path (render ["w"]) "s1" "../../etc/passwd" = render ["w"; ".jia"; "tool-results"; "s1"; name].
Proof.
  assert (Hw : Forall clean_segment ["w"]) by (repeat constructor; done).
  assert (Hs : clean_segment "s1") by done. split.
  - destruct (tool_result_path_contained ["w"] "s1" "call_1" Hw Hs) as [_ Hplain].
    destruct Hplain as [Hp _]; [vm_compute; reflexivity|]. rewrite Hp. reflexivity.
  - destruct (tool_result_path_contained ["w"] "s1" "../../etc/passwd" Hw Hs) as [Hname _]. exact Hname.
Defined.

(** The two bytes of an e with acute accent. *)
Definition e_acute : string := String (ascii_of_nat 195) (String (ascii_of_nat 169) "").

(** A page that ends inside a character decodes both of its halves to U+FFFD:
    the pages of a text that is not ASCII need not be the text. *)
Example page_splits_character :
  read_pages 3 "/f" 0 1 ([("/f", e_acute)] : MemDisk) = Some [replacement_char; replacement_char].
Proof. vm_compute. reflexivity. Qed.

(** Ids that differ in a replaced character share a file, so the second result
    is answered with the first. *)
Example sanitized_ids_collide :
  tool_result_path "/w" "s1" "call:1" = tool_result_path "/w" "s1" "call_1" /\
  let f := snd (persist_tool_result "/w" "s1" "call:1" "first" ([] : MemDisk)) in
  persist_tool_result "/w" "s1" "call_1" "second" f = (Ok (saved_path, 5%Z), f) /\
  read_pages 6 saved_path 0 64 f = Some ["first"].
Proof. vm_compute. auto. Qed.

(** The text kept of an append across the cap is not within what is available:
    a character that starts below the limit is kept whole. *)
Example truncation_exceeds_available : len (truncated_to 3 (e_acute +:+ e_acute)) = 4%nat.
Proof. vm_compute. reflexivity. Qed.
