(* ===== verification/Background.v ===== *)
(** * Background tasks

    src/kernel/src/palaces/zhen_tool/builtin/exec/background_task.rs, the
    background part of exec/shell.rs and the notification step of
    src/kernel/src/plates/tian_heaven/loop.rs.

    The store is a map behind a mutex, so an operation under the lock is one
    function on the map.  [register], [update_status] and [kill] release the lock
    and then write the snapshot file under a lock of its own; [step] interleaves
    these parts of any number of threads.  The order in which a [HashMap] lists
    its values, serde_json and the operating system's treatment of the snapshot
    file are arguments. *)

From S2P Require Export Prelude RString Path DiskOutput.
From Stdlib Require Import Ascii.
Local Open Scope string_scope.
#[local] Arguments String.append !_ _ : simpl nomatch.

(** ** Identifiers *)

Definition TASK_ID_ALPHABET : string := "0123456789abcdefghijklmnopqrstuvwxyz".

Definition alphabet_char (i : nat) : ascii := default "0"%char (String.get i TASK_ID_ALPHABET).

(** [uuid] holds the sixteen bytes of [Uuid::new_v4]. *)
Definition random_base36 (uuid : list nat) (n : nat) : string :=
  String.string_of_list_ascii
    ((fun i => alphabet_char (nth (i mod 16) uuid 0 mod String.length TASK_ID_ALPHABET)) <$> seq 0 n).

(** ** Types *)

Inductive TaskType := TShell | TAgent | TWorkflow.
#[export] Instance TaskType_eq_dec : EqDecision TaskType.
Proof. solve_decision. Defined.

Definition prefix (t : TaskType) : string :=
  match t with TShell => "b" | TAgent => "a" | TWorkflow => "w" end.
Definition type_as_str (t : TaskType) : string :=
  match t with TShell => "shell" | TAgent => "agent" | TWorkflow => "workflow" end.
Definition type_from_str (s : string) : option TaskType :=
  if String.eqb s "shell" then Some TShell
  else if String.eqb s "agent" then Some TAgent
  else if String.eqb s "workflow" then Some TWorkflow
  else None.

Inductive TaskStatus := Pending | Running | Completed | Failed | Killed | Lost.
#[export] Instance TaskStatus_eq_dec : EqDecision TaskStatus.
Proof. solve_decision. Defined.

Definition status_as_str (s : TaskStatus) : string :=
  match s with
  | Pending => "pending" | Running => "running" | Completed => "completed"
  | Failed => "failed" | Killed => "killed" | Lost => "lost"
  end.

Definition is_terminal (s : TaskStatus) : bool :=
  match s with Completed | Failed | Killed | Lost => true | _ => false end.

(** Times are [Instant]s. *)
Record BackgroundTask := {
  id : string;
  task_type : TaskType;
  status : TaskStatus;
  description : string;
  output_file : string;
  output_offset : Z;
  notified : bool;
  started_at : Z;
  ended_at : option Z;
  tool_use_id : option string;
  agent_id : option string;
  exit_code : option Z
}.

Record PersistedTask := {
  p_id : string;
  p_task_type : string;
  p_description : string;
  p_output_file : string;
  p_tool_use_id : option string;
  p_agent_id : option string
}.

Definition persisted (t : BackgroundTask) : PersistedTask :=
  {| p_id := id t; p_task_type := type_as_str (task_type t); p_description := description t;
     p_output_file := output_file t; p_tool_use_id := tool_use_id t; p_agent_id := agent_id t |}.

Definition generate_id (t : TaskType) (uuid : list nat) : string := prefix t +:+ random_base36 uuid 8.

(** ** The store, under its lock *)

Abbreviation Tasks := (gmap string BackgroundTask).

Definition with_status (st : TaskStatus) (ended : option Z) (code : option Z) (note : bool) (t : BackgroundTask) :
    BackgroundTask :=
  {| id := id t; task_type := task_type t; status := st; description := description t;
     output_file := output_file t; output_offset := output_offset t; notified := note;
     started_at := started_at t; ended_at := ended; tool_use_id := tool_use_id t; agent_id := agent_id t;
     exit_code := code |}.

Definition started (now : Z) (t : BackgroundTask) : BackgroundTask :=
  {| id := id t; task_type := task_type t; status := Running; description := description t;
     output_file := output_file t; output_offset := output_offset t; notified := notified t;
     started_at := now; ended_at := ended_at t; tool_use_id := tool_use_id t; agent_id := agent_id t;
     exit_code := exit_code t |}.

Definition register_locked (now : Z) (t : BackgroundTask) (m : Tasks) : Tasks := <[id t := started now t]> m.

(** The task found, whether the snapshot is to be written, and the store. *)
Definition update_locked (now : Z) (task_id : string) (st : TaskStatus) (code : option Z) (m : Tasks) :
    option BackgroundTask * bool * Tasks :=
  match m !! task_id with
  | None => (None, false, m)
  | Some t =>
      if is_terminal (status t) then (Some t, false, m)
      else
        let t' := with_status st (if is_terminal st then Some now else None)
                    (match code with Some c => Some c | None => exit_code t end) (notified t) t in
        (Some t', is_terminal st, <[task_id := t']> m)
  end.

Definition mark_notified (task_id : string) (m : Tasks) : bool * Tasks :=
  match m !! task_id with
  | None => (false, m)
  | Some t =>
      if notified t then (false, m)
      else (true, <[task_id := with_status (status t) (ended_at t) (exit_code t) true t]> m)
  end.

Definition get (task_id : string) (m : Tasks) : option BackgroundTask := m !! task_id.

Definition update_offset (task_id : string) (n : Z) (m : Tasks) : Tasks :=
  match m !! task_id with
  | None => m
  | Some t =>
      <[task_id := {| id := id t; task_type := task_type t; status := status t; description := description t;
         output_file := output_file t; output_offset := n; notified := notified t; started_at := started_at t;
         ended_at := ended_at t; tool_use_id := tool_use_id t; agent_id := agent_id t;
         exit_code := exit_code t |}]> m
  end.

Definition evict (task_id : string) (m : Tasks) : bool * Tasks :=
  match m !! task_id with
  | Some t => if is_terminal (status t) && notified t then (true, delete task_id m) else (false, m)
  | None => (false, m)
  end.

(** [Some] also asks for the snapshot. *)
Definition kill_locked (now : Z) (task_id : string) (m : Tasks) : option BackgroundTask * Tasks :=
  match m !! task_id with
  | None => (None, m)
  | Some t =>
      if bool_decide (status t = Running)
      then let t' := with_status Killed (Some now) (exit_code t) true t in (Some t', <[task_id := t']> m)
      else (None, m)
  end.

Section Store.
(** The values of a [HashMap], in its order. *)
Variable values : Tasks -> list BackgroundTask.
Variable to_string_pretty : list PersistedTask -> option string.
Variable from_str : string -> option (list PersistedTask).
(** What [remove_file] and [write] leave of the snapshot file. *)
Variable remove_file : option string -> option string.
Variable write_file : string -> option string -> option string.

(** [list(None)] is [values]. *)
Definition list_tasks (status_filter : option TaskStatus) (m : Tasks) : list BackgroundTask :=
  List.filter (fun t => match status_filter with Some s => bool_decide (status t = s) | None => true end) (values m).

Definition unnotified_terminal_tasks (m : Tasks) : list BackgroundTask :=
  List.filter (fun t => is_terminal (status t) && negb (notified t)) (values m).

Definition running_count (m : Tasks) : nat :=
  length (List.filter (fun t => bool_decide (status t = Running)) (values m)).

(** ** The snapshot *)

Definition is_live (t : BackgroundTask) : bool := bool_decide (status t = Running) || bool_decide (status t = Pending).

Definition live_rows (m : Tasks) : list PersistedTask := persisted <$> List.filter is_live (values m).

Definition persist_snapshot (m : Tasks) (file : option string) : option string :=
  let running := live_rows m in
  match running with
  | [] => remove_file file
  | _ =>
      match to_string_pretty running with
      | Some json => write_file json file
      | None => file
      end
  end.

Definition lost (now : Z) (p : PersistedTask) : BackgroundTask :=
  {| id := p_id p; task_type := default TShell (type_from_str (p_task_type p)); status := Lost;
     description := p_description p; output_file := p_output_file p; output_offset := 0; notified := false;
     started_at := now; ended_at := Some now; tool_use_id := p_tool_use_id p; agent_id := p_agent_id p;
     exit_code := None |}.

Definition hydrate_and_mark_lost (now : Z) (m : Tasks) (file : option string) : nat * Tasks * option string :=
  match file with
  | None => (0, m, file)
  | Some json =>
      match from_str json with
      | None => (0, m, file)
      | Some [] => (0, m, file)
      | Some rows => (length rows, foldl (fun m p => <[p_id p := lost now p]> m) m rows, remove_file file)
      end
  end.

(** ** Whole calls *)

Definition register (now : Z) (t : BackgroundTask) (m : Tasks) (file : option string) :
    string * Tasks * option string :=
  let m' := register_locked now t m in (id t, m', persist_snapshot m' file).

Definition update_status (now : Z) (task_id : string) (st : TaskStatus) (code : option Z) (m : Tasks)
    (file : option string) : option BackgroundTask * Tasks * option string :=
  let '(r, save, m') := update_locked now task_id st code m in
  (r, m', if save then persist_snapshot m' file else file).

Definition kill (now : Z) (task_id : string) (m : Tasks) (file : option string) :
    option BackgroundTask * Tasks * option string :=
  let '(r, m') := kill_locked now task_id m in
  (r, m', match r with Some _ => persist_snapshot m' file | None => file end).

(** ** Notification before a turn *)

Record TaskCompletedEvent := {
  e_task_id : string; e_status : string; e_summary : string; e_output_file : string; e_tool_use_id : option string
}.

Definition code_info (code : option Z) : string :=
  match code with None => "" | Some c => " (exit code " +:+ pretty c +:+ ")" end.

(** What a finished task is reported as; nothing for a command that has not
    finished. *)
Definition summary_of (kind : TaskType) (st : TaskStatus) (code : option Z) (desc : string) : option string :=
  match kind with
  | TShell =>
      let command := "Background command " +:+ dq +:+ desc +:+ dq in
      match st with
      | Completed => Some (command +:+ " completed successfully" +:+ code_info code +:+ ".")
      | Failed => Some (command +:+ " failed" +:+ code_info code +:+ ".")
      | Killed => Some (command +:+ " was stopped.")
      | Lost => Some (command +:+ " was lost after a crash (process state unknown).")
      | _ => None
      end
  | _ => Some ("Background task " +:+ dq +:+ desc +:+ dq +:+ " " +:+ status_as_str st +:+ ".")
  end.

Definition notification (task_id summary output_path : string) : string :=
  "[Background task " +:+ task_id +:+ "] " +:+ summary +:+ nl +:+ "Output file: " +:+ output_path.

(** One task of the list: claim it, read it again, report it. *)
Definition notify_one (task : BackgroundTask) (m : Tasks) : option (string * TaskCompletedEvent) * Tasks :=
  match mark_notified (id task) m with
  | (false, m) => (None, m)
  | (true, m) =>
      let definitive := default task (get (id task) m) in
      let code := get (id task) m ≫= exit_code in
      (match summary_of (task_type task) (status definitive) code (description definitive) with
       | Some summary =>
           Some (notification (id task) summary (output_file definitive),
             {| e_task_id := id task; e_status := status_as_str (status definitive); e_summary := summary;
                e_output_file := output_file definitive; e_tool_use_id := tool_use_id task |})
       | None => None
       end, m)
  end.

Fixpoint notify_each (tasks : list BackgroundTask) (m : Tasks) : list (string * TaskCompletedEvent) * Tasks :=
  match tasks with
  | [] => ([], m)
  | t :: ts =>
      let '(r, m) := notify_one t m in
      let '(rs, m) := notify_each ts m in
      (match r with Some x => x :: rs | None => rs end, m)
  end.

(** Then the terminal tasks that were notified leave the store. *)
Definition evict_each (tasks : list BackgroundTask) (m : Tasks) : Tasks :=
  foldl (fun m t => if is_terminal (status t) && notified t then snd (evict (id t) m) else m) m tasks.

Definition notify_finished (m : Tasks) : list (string * TaskCompletedEvent) * Tasks :=
  let terminal_tasks := unnotified_terminal_tasks m in
  let '(messages, m) := notify_each terminal_tasks m in
  (messages, match terminal_tasks with [] => m | _ => evict_each (list_tasks None m) m end).

(** ** Shell commands in the background *)

Definition shell_task (task_id desc out session : string) (now : Z) : BackgroundTask :=
  {| id := task_id; task_type := TShell; status := Pending; description := desc; output_file := out;
     output_offset := 0; notified := false; started_at := now; ended_at := None; tool_use_id := None;
     agent_id := Some session; exit_code := None |}.

(** The end of the spawned command. *)
Inductive CommandEnd := Finished (stdout : string) | Rejected (message : string)
  | Panicked | Cancelled (message : string).

Definition output_of (e : CommandEnd) : string :=
  match e with
  | Finished stdout => stdout
  | Rejected m => "Error: " +:+ m +:+ nl
  | Panicked => "Internal error: sandbox panic" +:+ nl
  | Cancelled m => "Internal error: sandbox cancelled: " +:+ m +:+ nl
  end.
Definition status_of_end (e : CommandEnd) : TaskStatus * Z :=
  match e with
  | Finished _ => (Completed, 0%Z)
  | Rejected _ => (Failed, 1%Z)
  | Panicked | Cancelled _ => (Failed, 2%Z)
  end.

Section Shell.
Context {FS : Type} `{OutputFs FS}.
Variable data_dir : string.

(** [spawn_shell_background] up to the start of the command. *)
Definition spawn_shell (uuid : list nat) (desc session : string) (now : Z) (m : Tasks) (file : option string) (f : FS) :
    result ToolError string * Tasks * option string * FS :=
  let task_id := generate_id TShell uuid in
  let out := task_output_path data_dir task_id in
  match init_task_output data_dir task_id f with
  | (Err e, f) => (Err (Execution "shell" ("Failed to create output file: " +:+ e)), m, file, f)
  | (Ok _, f) =>
      let '(registered, m, file) := register now (shell_task task_id desc out session now) m file in
      (Ok task_id, m, file, f)
  end.

(** The spawned task when the command ends: the result of the append is ignored. *)
Definition finish_shell (now : Z) (task_id : string) (e : CommandEnd) (m : Tasks) (file : option string) (f : FS) :
    Tasks * option string * FS :=
  let f := snd (append_task_output data_dir task_id (output_of e) f) in
  let '(st, code) := status_of_end e in
  let '(_, m, file) := update_status now task_id st (Some code) m file in
  (m, file, f).
End Shell.

(** ** Interleavings *)

(** The store, the snapshot file, and how many threads have released the lock and
    not yet written the snapshot. *)
Record Shared := { tasks : Tasks; file : option string; waiting : nat }.

(** The atomic parts, each with what it answered. *)
Inductive Label :=
| LRegister (t : BackgroundTask)
| LUpdate (task_id : string) (st : TaskStatus) (code : option Z)
| LKill (task_id : string) (done : bool)
| LMark (task_id : string) (won : bool)
| LOffset (task_id : string) (n : Z)
| LEvict (task_id : string) (gone : bool)
| LPersist.

(** A task is registered as [spawn_shell] builds it: not ended, not notified. *)
Definition registrable (t : BackgroundTask) : Prop := ended_at t = None /\ notified t = false.

Inductive step : Shared -> Label -> Shared -> Prop :=
| step_register now t m fl n : registrable t ->
    step {| tasks := m; file := fl; waiting := n |} (LRegister t)
         {| tasks := register_locked now t m; file := fl; waiting := S n |}
| step_update now k st code m fl n r save m' : update_locked now k st code m = (r, save, m') ->
    step {| tasks := m; file := fl; waiting := n |} (LUpdate k st code)
         {| tasks := m'; file := fl; waiting := if save then S n else n |}
| step_kill now k m fl n r m' : kill_locked now k m = (r, m') ->
    step {| tasks := m; file := fl; waiting := n |} (LKill k (match r with Some _ => true | None => false end))
         {| tasks := m'; file := fl; waiting := match r with Some _ => S n | None => n end |}
| step_mark k m fl n :
    step {| tasks := m; file := fl; waiting := n |} (LMark k (fst (mark_notified k m)))
         {| tasks := snd (mark_notified k m); file := fl; waiting := n |}
| step_offset k off m fl n :
    step {| tasks := m; file := fl; waiting := n |} (LOffset k off)
         {| tasks := update_offset k off m; file := fl; waiting := n |}
| step_evict k m fl n :
    step {| tasks := m; file := fl; waiting := n |} (LEvict k (fst (evict k m)))
         {| tasks := snd (evict k m); file := fl; waiting := n |}
| step_persist m fl n :
    step {| tasks := m; file := fl; waiting := S n |} LPersist
         {| tasks := m; file := persist_snapshot m fl; waiting := n |}.

Inductive steps : Shared -> list Label -> Shared -> Prop :=
| steps_nil s : steps s [] s
| steps_cons s l s' tr s'' : step s l s' -> steps s' tr s'' -> steps s (l :: tr) s''.

Definition fresh : Shared := {| tasks := ∅; file := None; waiting := 0 |}.

End Store.

(** ** The operations, pointwise *)

Lemma update_cases now k st code m r save m' : update_locked now k st code m = (r, save, m') ->
  (m' = m /\ save = false /\ (m !! k = None \/ exists t, m !! k = Some t /\ is_terminal (status t) = true)) \/
  exists t, m !! k = Some t /\ is_terminal (status t) = false /\ save = is_terminal st /\
    m' = <[k := with_status st (if is_terminal st then Some now else None)
                  (match code with Some c => Some c | None => exit_code t end) (notified t) t]> m.
Proof.
  unfold update_locked. destruct (m !! k) as [t|] eqn:Hk; [|intros [= <- <- <-]; auto].
  destruct (is_terminal (status t)) eqn:Ht; intros [= <- <- <-]; [left|right]; eauto 10.
Qed.

Lemma mark_cases k m :
  (mark_notified k m = (false, m) /\ forall t, m !! k = Some t -> notified t = true) \/
  exists t, m !! k = Some t /\ notified t = false /\
    mark_notified k m = (true, <[k := with_status (status t) (ended_at t) (exit_code t) true t]> m).
Proof.
  unfold mark_notified. destruct (m !! k) as [t|] eqn:Hk; [|left; split; [done|congruence]].
  destruct (notified t) eqn:Hn; [left|right; eauto]. split; [done|]. intros t'. congruence.
Qed.

Lemma evict_cases k m :
  (evict k m = (false, m)) \/
  exists t, m !! k = Some t /\ is_terminal (status t) = true /\ notified t = true /\ evict k m = (true, delete k m).
Proof.
  unfold evict. destruct (m !! k) as [t|] eqn:Hk; [|auto].
  destruct (is_terminal (status t)) eqn:Ht; [|auto]. destruct (notified t) eqn:Hn; [|auto]. right. eauto.
Qed.

Lemma kill_cases now k m r m' : kill_locked now k m = (r, m') ->
  (r = None /\ m' = m) \/
  exists t, m !! k = Some t /\ status t = Running /\ is_Some r /\
    m' = <[k := with_status Killed (Some now) (exit_code t) true t]> m.
Proof.
  unfold kill_locked. destruct (m !! k) as [t|] eqn:Hk; [|intros [= <- <-]; auto].
  case_bool_decide; intros [= <- <-]; [right; eauto 10|auto].
Qed.

(** What an update of one task leaves alone. *)
Lemma offset_lookup k n m k' :
  option_map (fun t => (id t, status t, notified t, ended_at t, exit_code t, persisted t)) (update_offset k n m !! k') =
  option_map (fun t => (id t, status t, notified t, ended_at t, exit_code t, persisted t)) (m !! k').
Proof.
  unfold update_offset. destruct (m !! k) as [t|] eqn:Hk; [|done].
  destruct (decide (k' = k)) as [->|Hne]; [|by rewrite lookup_insert_ne].
  by rewrite lookup_insert_eq, Hk.
Qed.

Lemma filter_nodup {A B} (g : A -> B) (f : A -> bool) l : NoDup (g <$> l) -> NoDup (g <$> List.filter f l).
Proof.
  induction l as [|x l IH]; [done|]. cbn [fmap list_fmap]. intros [Hx Hl]%NoDup_cons. cbn [List.filter].
  destruct (f x); [|by apply IH]. apply NoDup_cons. split; [|by apply IH].
  intros (y & Hy & Hin)%list_elem_of_fmap. apply Hx. rewrite Hy. apply list_elem_of_fmap_2.
  apply list_elem_of_In, List.filter_In in Hin as [? _]. by apply list_elem_of_In.
Qed.

Section Values.
Variable values : Tasks -> list BackgroundTask.
Hypothesis Hvalues : forall m, values m ≡ₚ (map_to_list m).*2.

Lemma elem_values t m : t ∈ values m <-> exists k, m !! k = Some t.
Proof.
  rewrite (Hvalues m), list_elem_of_fmap. split.
  - intros ([k t'] & -> & Hin). apply elem_of_map_to_list in Hin. eauto.
  - intros [k Hk]. exists (k, t). split; [done|]. by apply elem_of_map_to_list.
Qed.

End Values.

Section StoreFacts.
Variable values : Tasks -> list BackgroundTask.
Variable to_string_pretty : list PersistedTask -> option string.
Variable from_str : string -> option (list PersistedTask).
Variable remove_file : option string -> option string.
Variable write_file : string -> option string -> option string.
Hypothesis Hvalues : forall m, values m ≡ₚ (map_to_list m).*2.
(** serde_json reads back what it wrote of these plain records. *)
Hypothesis Hjson : forall rows, exists json, to_string_pretty rows = Some json /\ from_str json = Some rows.
(** A working disk. *)
Hypothesis Hremove : forall fl, remove_file fl = None.
Hypothesis Hwrite : forall json fl, write_file json fl = Some json.

Local Abbreviation step := (step values to_string_pretty remove_file write_file).
Local Abbreviation steps := (steps values to_string_pretty remove_file write_file).
Local Abbreviation live_rows := (live_rows values).
Local Abbreviation elem_values := (elem_values values Hvalues).

(** ** The snapshot depends on the live tasks only *)

Definition live_row (t : BackgroundTask) : option PersistedTask := if is_live t then Some (persisted t) else None.

Lemma live_rows_map m : live_rows m ≡ₚ (map_to_list (omap live_row m)).*2.
Proof.
  assert (Hl : forall l, persisted <$> List.filter is_live l = omap live_row l).
  { induction l as [|t l IH]; [done|]. cbn. unfold live_row at 1. destruct (is_live t); cbn; by rewrite IH. }
  unfold Background.live_rows. rewrite Hl, (Hvalues m).
  induction m as [|k t m Hk IH] using map_ind; [done|].
  rewrite map_to_list_insert by done. rewrite omap_insert. cbn [fmap list_fmap omap list_omap]. cbn.
  destruct (live_row t) as [r|].
  - rewrite map_to_list_insert by (by rewrite lookup_omap, Hk). cbn. by rewrite IH.
  - rewrite delete_id by (by rewrite lookup_omap, Hk). exact IH.
Qed.

Lemma same_live m m' : (forall k, m !! k ≫= live_row = m' !! k ≫= live_row) -> live_rows m ≡ₚ live_rows m'.
Proof.
  intros H. rewrite !live_rows_map. assert (omap live_row m = omap live_row m') as ->; [|done].
  apply map_eq. intros k. rewrite !lookup_omap. apply H.
Qed.

Lemma same_live_insert k t t' m : m !! k = Some t -> live_row t' = live_row t ->
  live_rows (<[k := t']> m) ≡ₚ live_rows m.
Proof.
  intros Hk Hl. apply same_live. intros k'. destruct (decide (k' = k)) as [->|].
  - rewrite lookup_insert_eq, Hk. exact Hl.
  - by rewrite lookup_insert_ne.
Qed.

(** The file describes the live tasks. *)
Definition describes (fl : option string) (m : Tasks) : Prop :=
  match fl with
  | None => live_rows m = []
  | Some json => exists rows, from_str json = Some rows /\ rows <> [] /\ rows ≡ₚ live_rows m
  end.

Lemma describes_perm fl m m' : live_rows m' ≡ₚ live_rows m -> describes fl m -> describes fl m'.
Proof.
  intros Hp. destruct fl as [json|]; cbn.
  - intros (rows & H1 & H2 & H3). exists rows. by rewrite Hp.
  - intros H. rewrite H in Hp. by apply Permutation_nil_r in Hp.
Qed.

Lemma persist_describes m fl : describes (persist_snapshot values to_string_pretty remove_file write_file m fl) m.
Proof.
  unfold persist_snapshot. destruct (live_rows m) as [|r rs] eqn:Hr.
  - rewrite Hremove. exact Hr.
  - destruct (Hjson (r :: rs)) as (json & -> & Hj). rewrite Hwrite. cbn. exists (r :: rs). by rewrite Hr.
Qed.

(** ** The invariant of the store *)

Record store_inv (s : Shared) : Prop := {
  keyed : forall k t, tasks s !! k = Some t -> id t = k;
  ended : forall k t, tasks s !! k = Some t -> is_terminal (status t) = bool_decide (is_Some (ended_at t));
  synced : waiting s = 0 -> describes (file s) (tasks s)
}.

(** A map whose entries all satisfy a property keeps it when one entry is
    replaced by another that does. *)
Lemma insert_all (P : string -> BackgroundTask -> Prop) k t (m : Tasks) :
  (forall k' t', m !! k' = Some t' -> P k' t') -> P k t -> forall k' t', <[k := t]> m !! k' = Some t' -> P k' t'.
Proof. intros Hall Ht k' t'. rewrite lookup_insert_Some. intros [[<- <-]|[_ ?]]; auto. Qed.

Lemma step_inv s l s' : store_inv s -> step s l s' -> store_inv s'.
Proof.
  intros [Hk He Hs] Hstep. destruct Hstep; cbn [tasks file waiting] in *.
  - destruct H as [Hend _]. constructor; cbn; [..|done]; eapply insert_all; cbn; eauto. by rewrite Hend.
  - destruct (update_cases _ _ _ _ _ _ _ _ H) as [(-> & -> & _)|(t & Ht & Hterm & -> & ->)]; [by constructor|].
    constructor; cbn [tasks file waiting].
    + apply insert_all; [done|]. cbn. by apply Hk.
    + apply insert_all; [done|]. cbn. by destruct (is_terminal st).
    + destruct (is_terminal st) eqn:Hst; [done|]. intros Hn. apply (describes_perm _ m); [|by apply Hs].
      apply (same_live_insert k t); [done|]. unfold live_row, is_live. destruct t as [? ? [] ? ? ? ? ? ? ? ? ?], st; done.
  - destruct (kill_cases _ _ _ _ _ H) as [[-> ->]|(t & Ht & Hrun & [t' ->] & ->)]; [by constructor|].
    constructor; cbn [tasks file waiting]; [..|done]; apply insert_all; cbn; auto.
  - destruct (mark_cases k m) as [[-> _]|(t & Ht & Hn & ->)]; [by constructor|].
    constructor; cbn [tasks file waiting fst snd].
    + apply insert_all; [done|]. cbn. by apply Hk.
    + apply insert_all; [done|]. cbn. by apply (He k).
    + intros Hw. apply (describes_perm _ m); [|by apply Hs]. by apply (same_live_insert k t).
  - constructor; cbn [tasks file waiting].
    + intros k' t' Hk'. pose proof (offset_lookup k off m k') as Ho. rewrite Hk' in Ho.
      destruct (m !! k') as [t|] eqn:Ht; [|done]. cbn in Ho. injection Ho as -> _ _ _ _ _. by apply Hk.
    + intros k' t' Hk'. pose proof (offset_lookup k off m k') as Ho. rewrite Hk' in Ho.
      destruct (m !! k') as [t|] eqn:Ht; [|done]. cbn in Ho. injection Ho as _ -> _ -> _ _. by apply (He k').
    + intros Hw. apply (describes_perm _ m); [|by apply Hs]. apply same_live. intros k'.
      pose proof (offset_lookup k off m k') as Ho. destruct (update_offset k off m !! k') as [t'|], (m !! k') as [t|]; try done.
      unfold option_map in Ho. assert (Hst : status t' = status t) by congruence.
      assert (Hp : persisted t' = persisted t) by congruence. cbn [mbind option_bind].
      unfold live_row, is_live. by rewrite Hst, Hp.
  - destruct (evict_cases k m) as [->|(t & Ht & Hterm & Hn & ->)]; [by constructor|].
    constructor; cbn [tasks file waiting fst snd].
    + intros k' t' [_ ?]%lookup_delete_Some. by apply Hk.
    + intros k' t' [_ ?]%lookup_delete_Some. by apply (He k').
    + intros Hw. apply (describes_perm _ m); [|by apply Hs]. apply same_live. intros k'.
      destruct (decide (k' = k)) as [->|]; [|by rewrite lookup_delete_ne]. rewrite lookup_delete_eq, Ht. cbn.
      unfold live_row, is_live. by destruct (status t).
  - constructor; cbn; [done|done|]. intros _. apply persist_describes.
Qed.

Lemma steps_inv s tr s' : store_inv s -> steps s tr s' -> store_inv s'.
Proof. intros Hi Hs. induction Hs; [done|]. eauto using step_inv. Qed.

Lemma fresh_inv : store_inv fresh.
Proof.
  constructor; cbn; [done|done|]. intros _. apply Permutation_nil_r.
  rewrite live_rows_map. by rewrite omap_empty, map_to_list_empty.
Qed.

(** ** Restarting *)

(** What a restart makes of a task. *)
Definition recovered (now : Z) (t : BackgroundTask) : BackgroundTask :=
  {| id := id t; task_type := task_type t; status := Lost; description := description t;
     output_file := output_file t; output_offset := 0; notified := false; started_at := now;
     ended_at := Some now; tool_use_id := tool_use_id t; agent_id := agent_id t; exit_code := None |}.

Lemma lost_recovered now t : lost now (persisted t) = recovered now t.
Proof. destruct t as [? [] ? ? ? ? ? ? ? ? ? ?]; done. Qed.

Lemma fold_lost now rows (m0 : Tasks) k :
  (exists r, r ∈ rows /\ p_id r = k /\ foldl (fun m p => <[p_id p := lost now p]> m) m0 rows !! k = Some (lost now r)) \/
  ((forall r, r ∈ rows -> p_id r <> k) /\ foldl (fun m p => <[p_id p := lost now p]> m) m0 rows !! k = m0 !! k).
Proof.
  induction rows as [|r rows IH] using rev_ind; [right; split; [set_solver|done]|].
  rewrite foldl_app. cbn [foldl]. destruct (decide (p_id r = k)) as [Heq|Hne].
  - left. exists r. rewrite Heq, lookup_insert_eq. set_solver.
  - rewrite lookup_insert_ne by done. destruct IH as [(r' & Hr & Hk & ->)|[Hno ->]]; [left|right]; set_solver.
Qed.

Lemma elem_live_rows r m : r ∈ live_rows m <-> exists k t, m !! k = Some t /\ is_live t = true /\ r = persisted t.
Proof.
  unfold Background.live_rows. rewrite list_elem_of_fmap. split.
  - intros (t & -> & Hin). apply list_elem_of_In, List.filter_In in Hin as [Hin Hl].
    apply list_elem_of_In, elem_values in Hin as [k Hk]. eauto.
  - intros (k & t & Hk & Hl & ->). exists t. split; [done|]. apply list_elem_of_In, List.filter_In. split; [|done].
    apply list_elem_of_In, elem_values. eauto.
Qed.

(** Crash recovery: whatever threads do to the store in whatever order,
    whenever no snapshot write is outstanding a daemon that dies and starts again
    finds exactly the tasks that were pending or running, each under its id and
    with its description, file and owner, now lost, ended, not notified; it
    reports their number and removes the snapshot. *)
Theorem crash_recovery tr s now
    (Hrun : steps fresh tr s) (Hquiet : waiting s = 0) :
  exists m, hydrate_and_mark_lost from_str remove_file now ∅ (file s) =
      (length (List.filter is_live (values (tasks s))), m, None) /\
    forall k, m !! k = match tasks s !! k with
                       | Some t => if is_live t then Some (recovered now t) else None
                       | None => None
                       end.
Proof.
  destruct (steps_inv _ _ _ fresh_inv Hrun) as [Hkey _ Hsync]. specialize (Hsync Hquiet).
  assert (Hlen : length (live_rows (tasks s)) = length (List.filter is_live (values (tasks s)))).
  { unfold Background.live_rows. by rewrite length_fmap. }
  assert (Hnone : live_rows (tasks s) = [] -> forall k t, tasks s !! k = Some t -> is_live t = false).
  { intros Hnil k t Hk. destruct (is_live t) eqn:Hl; [|done]. exfalso.
    apply (not_elem_of_nil (persisted t)). rewrite <- Hnil. apply elem_live_rows. eauto. }
  unfold hydrate_and_mark_lost. destruct (file s) as [json|]; cbn in Hsync.
  - destruct Hsync as (rows & -> & Hne & Hperm). destruct rows as [|r0 rows0]; [done|].
    rewrite Hremove. eexists. split; [by rewrite <- Hlen, <- Hperm|]. intros k.
    destruct (fold_lost now (r0 :: rows0) ∅ k) as [(r & Hr & Hk & ->)|[Hno ->]].
    + rewrite Hperm in Hr. apply elem_live_rows in Hr as (k' & t & Ht & Hl & ->).
      pose proof (Hkey _ _ Ht). cbn in Hk. subst. rewrite Ht, Hl. by rewrite lost_recovered.
    + rewrite lookup_empty. destruct (tasks s !! k) as [t|] eqn:Hk; [|done]. destruct (is_live t) eqn:Hl; [|done].
      exfalso. apply (Hno (persisted t)); [|cbn; by apply Hkey]. rewrite Hperm. apply elem_live_rows. eauto.
  - exists ∅. rewrite <- Hlen, Hsync. split; [done|]. intros k. rewrite lookup_empty.
    destruct (tasks s !! k) as [t|] eqn:Hk; [|done]. by rewrite (Hnone Hsync k t Hk).
Qed.

(** ** Notification over a run *)

(** The notification still owed about a task. *)
Definition owed (k : string) (s : Shared) : nat :=
  match tasks s !! k with Some t => if notified t then 0 else 1 | None => 0 end.

Definition is_mark (k : string) (l : Label) : bool :=
  match l with LMark k' true => String.eqb k k' | _ => false end.
Definition is_kill (k : string) (l : Label) : bool :=
  match l with LKill k' true => String.eqb k k' | _ => false end.
Definition registers (k : string) (l : Label) : bool :=
  match l with LRegister t => String.eqb k (id t) | _ => false end.

(** The times a notification about a task was claimed. *)
Definition marks (k : string) (tr : list Label) : nat := length (List.filter (is_mark k) tr).

Lemma owed_insert k k' t t' m fl fl' n n' : m !! k' = Some t -> (k = k' -> notified t' = notified t) ->
  owed k {| tasks := <[k' := t']> m; file := fl; waiting := n |} = owed k {| tasks := m; file := fl'; waiting := n' |}.
Proof.
  intros Hk Hn. unfold owed. cbn. destruct (decide (k = k')) as [->|Hne].
  - by rewrite lookup_insert_eq, Hk, Hn.
  - by rewrite lookup_insert_ne.
Qed.

Lemma eqb_ne k k' : k <> k' -> String.eqb k k' = false.
Proof. apply String.eqb_neq. Qed.

(** Every step pays at most what it claims; only a kill writes a debt off. *)
Lemma step_owed k s l s' : step s l s' -> registers k l = false ->
  (Nat.b2n (is_mark k l) + owed k s' <= owed k s)%nat /\
  (is_kill k l = false -> Nat.b2n (is_mark k l) + owed k s' = owed k s) /\
  (is_kill k l = true -> owed k s' = 0).
Proof.
  intros Hstep Hreg. destruct Hstep; cbn [registers is_mark is_kill Nat.b2n Nat.add] in *.
  - assert (Ho : forall n', owed k {| tasks := register_locked now t m; file := fl; waiting := n' |} = owed k {| tasks := m; file := fl; waiting := n |}).
    { intros n'. unfold owed, register_locked. cbn. rewrite lookup_insert_ne; [done|]. apply String.eqb_neq in Hreg. congruence. }
    rewrite Ho. by split_and!.
  - destruct (update_cases _ _ _ _ _ _ _ _ H) as [(-> & -> & _)|(t & Ht & _ & _ & ->)]; [by split_and!|].
    rewrite (owed_insert k k0 t _ m fl fl _ n Ht) by done. by split_and!.
  - destruct (kill_cases _ _ _ _ _ H) as [[-> ->]|(t & Ht & Hrun & [t' ->] & ->)]; [by split_and!|]. cbv beta iota.
    destruct (decide (k = k0)) as [->|Hne].
    + rewrite String.eqb_refl. unfold owed. cbn [tasks]. rewrite lookup_insert_eq. cbn [notified with_status]. split_and!; [lia|done|done].
    + rewrite (eqb_ne _ _ Hne). rewrite (owed_insert k k0 t _ m fl fl _ n Ht) by done. by split_and!.
  - destruct (mark_cases k0 m) as [[-> _]|(t & Ht & Hn & ->)]; cbn [fst snd Nat.b2n]; [by split_and!|].
    destruct (decide (k = k0)) as [->|Hne].
    + rewrite String.eqb_refl. unfold owed. cbn [tasks]. rewrite lookup_insert_eq, Ht, Hn. by split_and!.
    + rewrite (eqb_ne _ _ Hne). cbn. rewrite (owed_insert k k0 t _ m fl fl _ n Ht) by done. by split_and!.
  - assert (Ho : owed k {| tasks := update_offset k0 off m; file := fl; waiting := n |} = owed k {| tasks := m; file := fl; waiting := n |}).
    { unfold owed. cbn. pose proof (offset_lookup k0 off m k) as Ho.
      destruct (update_offset k0 off m !! k), (m !! k); try done. cbn in Ho. injection Ho as _ _ -> _ _ _. done. }
    rewrite Ho. by split_and!.
  - destruct (evict_cases k0 m) as [->|(t & Ht & Hterm & Hn & ->)]; [by split_and!|]. cbn [fst snd].
    assert (Ho : owed k {| tasks := delete k0 m; file := fl; waiting := n |} = owed k {| tasks := m; file := fl; waiting := n |}).
    { unfold owed. cbn. destruct (decide (k = k0)) as [->|]; [|by rewrite lookup_delete_ne].
      by rewrite lookup_delete_eq, Ht, Hn. }
    rewrite Ho. by split_and!.
  - by split_and!.
Qed.

Lemma step_zero k s l s' : step s l s' -> registers k l = false -> owed k s = 0 -> owed k s' = 0 /\ is_mark k l = false.
Proof.
  intros Hst Hr Hz. destruct (step_owed k s l s' Hst Hr) as [Hle _]. rewrite Hz in Hle.
  destruct (is_mark k l); cbn in Hle; lia || (split; [lia|done]).
Qed.

Lemma steps_owed k s tr s' : steps s tr s' -> existsb (registers k) tr = false ->
  (marks k tr + owed k s' <= owed k s)%nat /\
  (existsb (is_kill k) tr = false -> marks k tr + owed k s' = owed k s).
Proof.
  intros Hs. induction Hs as [s|s l s1 tr s' Hst Hs IH]; intros Hreg; [done|].
  cbn in Hreg. apply orb_false_iff in Hreg as [Hl Htr]. destruct (IH Htr) as [IH1 IH2].
  destruct (step_owed k s l s1 Hst Hl) as (H1 & H2 & _). unfold marks in *. cbn [List.filter existsb].
  assert (Hm : length (if is_mark k l then l :: List.filter (is_mark k) tr else List.filter (is_mark k) tr) =
    (Nat.b2n (is_mark k l) + length (List.filter (is_mark k) tr))%nat) by by destruct (is_mark k l).
  rewrite Hm. split; [lia|]. intros [Hk Hks]%orb_false_iff. specialize (IH2 Hks). specialize (H2 Hk). lia.
Qed.

(** A terminal task keeps its end until it is evicted. *)
Definition settled (k : string) (t : BackgroundTask) (s : Shared) : Prop :=
  match tasks s !! k with
  | Some t' => status t' = status t /\ ended_at t' = ended_at t /\ exit_code t' = exit_code t
  | None => True
  end.

Lemma step_settled k t s l s' : step s l s' -> registers k l = false -> is_terminal (status t) = true ->
  settled k t s -> settled k t s'.
Proof.
  intros Hstep Hreg Hterm. unfold settled. destruct Hstep; cbn [registers tasks] in *.
  - unfold register_locked. rewrite lookup_insert_ne; [done|]. apply String.eqb_neq in Hreg. congruence.
  - destruct (update_cases _ _ _ _ _ _ _ _ H) as [(-> & _)|(t0 & Ht & Hlive & _ & ->)]; [done|].
    destruct (decide (k = k0)) as [->|]; [|by rewrite lookup_insert_ne]. rewrite Ht. intros (He & _). congruence.
  - destruct (kill_cases _ _ _ _ _ H) as [[_ ->]|(t0 & Ht & Hrun & _ & ->)]; [done|].
    destruct (decide (k = k0)) as [->|]; [|by rewrite lookup_insert_ne]. rewrite Ht. intros (He & _).
    rewrite <- He, Hrun in Hterm. done.
  - destruct (mark_cases k0 m) as [[-> _]|(t0 & Ht & Hn & ->)]; [done|]. cbn [snd].
    destruct (decide (k = k0)) as [->|]; [|by rewrite lookup_insert_ne]. by rewrite Ht, lookup_insert_eq.
  - pose proof (offset_lookup k0 off m k) as Ho. destruct (update_offset k0 off m !! k), (m !! k); try done.
    cbn in Ho. by injection Ho as _ -> _ -> -> _.
  - destruct (evict_cases k0 m) as [->|(t0 & Ht & _ & _ & ->)]; [done|]. cbn [snd].
    destruct (decide (k = k0)) as [->|]; [by rewrite lookup_delete_eq|by rewrite lookup_delete_ne].
  - done.
Qed.

Lemma steps_app s tr1 tr2 s' : steps s (tr1 ++ tr2) s' -> exists s1, steps s tr1 s1 /\ steps s1 tr2 s'.
Proof.
  revert s. induction tr1 as [|l tr1 IH]; intros s Hrun; [exists s; split; [constructor|done]|].
  inversion Hrun as [|? ? s1 ? ? Hst Hrest]; subst. destruct (IH s1 Hrest) as (s2 & H1 & H2). exists s2. split; [by econstructor|done].
Qed.

(** [C37] Over any interleaving, a registered task is reported at most once; it is
    reported exactly once before it leaves the store, unless it was killed; it is
    never reported after a kill that stopped it; and once it has ended, neither a
    late completion nor a kill changes its end. *)
Theorem notified_exactly_once s tr s' k t
    (Hrun : steps s tr s') (Hreg : existsb (registers k) tr = false)
    (Hk : tasks s !! k = Some t) (Hn : notified t = false) :
  (marks k tr <= 1)%nat /\
  (tasks s' !! k = None -> existsb (is_kill k) tr = false -> marks k tr = 1%nat) /\
  (forall before after, tr = (before ++ LKill k true :: after)%list -> marks k after = 0%nat) /\
  (forall t', tasks s' !! k = Some t' -> notified t' = false -> marks k tr = 0%nat) /\
  (is_terminal (status t) = true -> forall t', tasks s' !! k = Some t' ->
     status t' = status t /\ ended_at t' = ended_at t /\ exit_code t' = exit_code t).
Proof.
  destruct (steps_owed k s tr s' Hrun Hreg) as [Hle Heq].
  assert (Ho : owed k s = 1) by (unfold owed; by rewrite Hk, Hn). rewrite Ho in *. split_and!.
  - lia.
  - intros Hgone Hnk. specialize (Heq Hnk). unfold owed in Heq. rewrite Hgone in Heq. lia.
  - intros before after ->. rewrite existsb_app in Hreg. apply orb_false_iff in Hreg as [_ [_ Hafter]%orb_false_iff].
    apply steps_app in Hrun as (s1 & _ & Hrun). inversion Hrun as [|? ? s2 ? ? Hkill Hrest]; subst.
    destruct (step_owed k _ _ _ Hkill eq_refl) as (_ & _ & Hz).
    destruct (steps_owed k s2 after s' Hrest Hafter) as [Hm _]. rewrite (Hz (String.eqb_refl k)) in Hm. lia.
  - intros t' Ht' Hn'. unfold owed in Hle. rewrite Ht', Hn' in Hle. lia.
  - intros Hterm t' Ht'. assert (Hset : settled k t s) by (unfold settled; by rewrite Hk).
    clear - Hrun Hreg Hterm Ht' Hset. induction Hrun as [s|s l s1 tr s2 Hst _ IH].
    + unfold settled in Hset. by rewrite Ht' in Hset.
    + cbn in Hreg. apply orb_false_iff in Hreg as [Hl Htr]. apply IH; [done|done|]. by apply (step_settled k t s l).
Qed.

End StoreFacts.

(** ** The notification step *)

Section Notify.
Variable values : Tasks -> list BackgroundTask.
Hypothesis Hvalues : forall m, values m ≡ₚ (map_to_list m).*2.

Local Abbreviation elem_values := (elem_values values Hvalues).


Definition noted (t : BackgroundTask) : BackgroundTask := with_status (status t) (ended_at t) (exit_code t) true t.

(** The report of a finished task. *)
Definition report (t : BackgroundTask) : option (string * TaskCompletedEvent) :=
  match summary_of (task_type t) (status t) (exit_code t) (description t) with
  | Some summary =>
      Some (notification (id t) summary (output_file t),
        {| e_task_id := id t; e_status := status_as_str (status t); e_summary := summary;
           e_output_file := output_file t; e_tool_use_id := tool_use_id t |})
  | None => None
  end.

Lemma notify_one_run t m : m !! id t = Some t -> notified t = false ->
  notify_one t m = (report t, <[id t := noted t]> m).
Proof.
  intros Hk Hn. unfold notify_one, mark_notified. rewrite Hk, Hn. unfold get. rewrite lookup_insert_eq. done.
Qed.

Lemma notify_each_run ts m : NoDup (id <$> ts) -> (forall t, t ∈ ts -> m !! id t = Some t /\ notified t = false) ->
  exists m', notify_each ts m = (omap report ts, m') /\
    (forall t, t ∈ ts -> m' !! id t = Some (noted t)) /\ (forall k, k ∉ id <$> ts -> m' !! k = m !! k).
Proof.
  revert m. induction ts as [|t ts IH]; intros m Hnd Hall; [by exists m; split_and!; [|set_solver|]|].
  cbn [fmap list_fmap] in Hnd. apply NoDup_cons in Hnd as [Hnin Hnd].
  destruct (Hall t) as [Hk Hn]; [set_solver|]. cbn [notify_each]. rewrite (notify_one_run t m Hk Hn).
  destruct (IH (<[id t := noted t]> m) Hnd) as (m' & -> & Hin & Hout).
  { intros t' Ht'. rewrite lookup_insert_ne; [apply Hall; set_solver|].
    intros He. apply Hnin. rewrite He. by apply list_elem_of_fmap_2. }
  exists m'. split_and!.
  - cbn [omap list_omap]. by destruct (report t).
  - intros t' [->|Ht']%elem_of_cons; [|by apply Hin]. rewrite (Hout _ Hnin). by rewrite lookup_insert_eq.
  - intros k Hk'. cbn [fmap list_fmap] in Hk'. apply not_elem_of_cons in Hk' as [Hne Hk'].
    rewrite (Hout k Hk'). by rewrite lookup_insert_ne.
Qed.

Definition finished (t : BackgroundTask) : bool := is_terminal (status t) && notified t.

Lemma evict_each_snoc ts t m :
  evict_each (ts ++ [t]) m = if finished t then snd (evict (id t) (evict_each ts m)) else evict_each ts m.
Proof. unfold evict_each. by rewrite foldl_app. Qed.

Lemma evict_each_run ts m : (forall t, t ∈ ts -> m !! id t = Some t) ->
  forall k, evict_each ts m !! k =
    match m !! k with
    | Some t => if existsb (fun t' => String.eqb k (id t') && finished t') ts then None else Some t
    | None => None
    end.
Proof.
  induction ts as [|t ts IH] using rev_ind; intros Hall k; [cbn; by destruct (m !! k)|].
  rewrite evict_each_snoc, existsb_app. cbn [existsb]. rewrite orb_false_r.
  specialize (IH (fun t' Ht' => Hall t' (proj2 (elem_of_app _ _ _) (or_introl Ht')))).
  destruct (finished t) eqn:Hf; [|rewrite andb_false_r, orb_false_r; apply IH].
  rewrite andb_true_r. pose proof (IH (id t)) as Ht. rewrite (Hall t) in Ht by set_solver.
  destruct (String.eqb_spec k (id t)) as [->|Hne].
  - rewrite orb_true_r, (Hall t) by set_solver. unfold evict. rewrite Ht.
    destruct (existsb _ ts); [exact Ht|]. unfold finished in Hf. rewrite Hf. apply lookup_delete_eq.
  - rewrite orb_false_r, <- IH. destruct (evict_cases (id t) (evict_each ts m)) as [->|(t' & _ & _ & _ & ->)]; [done|].
    cbn [snd]. by rewrite lookup_delete_ne.
Qed.

Lemma values_nodup m : (forall k t, m !! k = Some t -> id t = k) -> NoDup (id <$> values m).
Proof.
  intros Hk. assert (Hp : id <$> values m ≡ₚ (map_to_list m).*1).
  { rewrite (Hvalues m), <- list_fmap_compose. erewrite list_fmap_ext; [done|].
    intros i [k t] Hi. cbn. apply Hk. apply elem_of_map_to_list. by eapply list_elem_of_lookup_2. }
  rewrite Hp. apply NoDup_fst_map_to_list.
Qed.

Lemma terminal_reported t : is_terminal (status t) = true -> is_Some (report t).
Proof. unfold report, summary_of. destruct (task_type t), (status t); try done; eauto. Qed.

(** Before a turn every finished task that was not reported is reported, with
    the status, exit code and file it ended with, in the order of the store; then
    every finished task has left the store, and the tasks still under way are as
    they were.  With nothing to report the store is left alone. *)
Theorem notify_finished_spec m (Hkey : forall k t, m !! k = Some t -> id t = k) :
  exists messages m', notify_finished values m = (messages, m') /\
    Some <$> messages = report <$> unnotified_terminal_tasks values m /\
    (unnotified_terminal_tasks values m = [] -> m' = m) /\
    (unnotified_terminal_tasks values m <> [] -> forall k,
       m' !! k = match m !! k with Some t => if is_terminal (status t) then None else Some t | None => None end).
Proof.
  set (ts := unnotified_terminal_tasks values m).
  assert (Hts : forall t, t ∈ ts <-> m !! id t = Some t /\ is_terminal (status t) = true /\ notified t = false).
  { intros t. unfold ts, unnotified_terminal_tasks. rewrite list_elem_of_In, List.filter_In, <- list_elem_of_In, elem_values, andb_true_iff, negb_true_iff.
    split; [intros ([k Hk] & ?); pose proof (Hkey _ _ Hk); by subst|naive_solver]. }
  assert (Hnd : NoDup (id <$> ts)).
  { by apply filter_nodup, values_nodup. }
  destruct (notify_each_run ts m Hnd) as (m1 & Hrun & Hin & Hout).
  { intros t Ht. apply Hts in Ht as (? & _ & ?). auto. }
  unfold notify_finished. fold ts. rewrite Hrun. eexists _, _. split; [done|].
  assert (Hm1 : forall k, m1 !! k = match m !! k with
    | Some t => Some (if is_terminal (status t) && negb (notified t) then noted t else t) | None => None end).
  { intros k. destruct (decide (k ∈ id <$> ts)) as [Hk|Hk].
    - apply list_elem_of_fmap in Hk as (t & -> & Ht). rewrite (Hin t Ht). apply Hts in Ht as (-> & -> & ->). done.
    - rewrite (Hout k Hk). destruct (m !! k) as [t|] eqn:Ht; [|done].
      destruct (is_terminal (status t) && negb (notified t)) eqn:Hc; [|done]. exfalso. apply Hk.
      apply andb_true_iff in Hc as [H1 H2%negb_true_iff]. pose proof (Hkey _ _ Ht) as Hid. subst k.
      apply list_elem_of_fmap_2. by apply Hts. }
  split_and!.
  - assert (Hrep : forall t, t ∈ ts -> is_Some (report t)) by (intros t Ht; apply terminal_reported; by apply Hts).
    clear - Hrep. induction ts as [|t ts IH]; [done|]. destruct (Hrep t) as [r Hr]; [set_solver|].
    cbn [omap list_omap fmap list_fmap]. rewrite Hr. cbn. f_equal. apply IH. set_solver.
  - intros He. rewrite He in Hrun |- *. cbn in Hrun. congruence.
  - intros Hne k. destruct ts as [|t0 ts'] eqn:Hcase; [done|]. rewrite <- Hcase in *.
    assert (Hkey1 : forall k t, m1 !! k = Some t -> id t = k).
    { intros k' t'. rewrite Hm1. destruct (m !! k') as [t|] eqn:Ht; [|done]. intros [= <-].
      rewrite <- (Hkey _ _ Ht). by destruct (_ && _). }
    assert (Hall : forall t, t ∈ list_tasks values None m1 <-> m1 !! id t = Some t).
    { intros t. unfold list_tasks. rewrite list_elem_of_In, List.filter_In, <- list_elem_of_In, elem_values. split.
      - intros ([k' Hk'] & _). by rewrite (Hkey1 _ _ Hk').
      - eauto. }
    rewrite evict_each_run by (intros t; apply Hall). rewrite Hm1. destruct (m !! k) as [t|] eqn:Ht; [|done].
    pose proof (Hkey _ _ Ht) as Hid. set (t1 := if is_terminal (status t) && negb (notified t) then noted t else t) in *.
    assert (Hf : finished t1 = is_terminal (status t)).
    { unfold t1, finished. destruct (is_terminal (status t)) eqn:H1, (notified t) eqn:H2; cbn; by rewrite ?H1, ?H2. }
    assert (Hex : existsb (fun t' => String.eqb k (id t') && finished t') (list_tasks values None m1) = finished t1).
    { destruct (finished t1) eqn:Hfin.
      - apply existsb_exists. exists t1. assert (id t1 = k) as Hid1 by (unfold t1; by destruct (_ && _)).
        split; [apply list_elem_of_In, Hall|by rewrite Hid1, String.eqb_refl]. by rewrite Hid1, Hm1, Ht.
      - apply not_existsb. intros t' Ht'%Hall. apply andb_false_iff. destruct (String.eqb_spec k (id t')) as [He|]; [right|by left].
        rewrite <- He, Hm1, Ht in Ht'. fold t1 in Ht'. by injection Ht' as <-. }
    rewrite Hex, Hf. destruct (is_terminal (status t)) eqn:Hterm; [done|]. unfold t1. by cbn.
Qed.

End Notify.

(** ** Identifiers *)

Lemma alphabet_name i : (i < 36)%nat -> name_byte (alphabet_char i) = true.
Proof.
  intros H. do 36 (destruct i as [|i]; [reflexivity|]). lia.
Qed.

Lemma random_base36_name uuid n : char_all name_byte (random_base36 uuid n) = true.
Proof.
  unfold char_all, random_base36. rewrite String.list_ascii_of_string_of_list_ascii, forallb_forall.
  intros a Ha. apply list_elem_of_In, list_elem_of_fmap in Ha as (i & -> & _). apply alphabet_name.
  apply Nat.mod_upper_bound. done.
Qed.

Lemma generate_id_name t uuid : char_all name_byte (generate_id t uuid) = true.
Proof. unfold generate_id. rewrite char_all_app, random_base36_name. by destruct t. Qed.

Lemma output_path_render segs k : Forall clean_segment segs -> char_all name_byte k = true ->
  task_output_path (render segs) k = render (segs ++ ["tasks"; k +:+ ".output"])%list.
Proof.
  intros Hs Hk. unfold task_output_path, task_output_dir.
  assert (Hc : clean_segment (k +:+ ".output")).
  { split; [apply name_byte_no_slash; by rewrite char_all_app, Hk|]. split; [by destruct k|].
    intros He%(f_equal len). rewrite app_len in He. cbn in He. lia. }
  rewrite (path_join_render segs) by done. rewrite path_join_render; [by rewrite <- app_assoc| |done].
  apply Forall_app. split; [done|]. by apply Forall_singleton.
Qed.

(** ** A command in the background *)

Section ShellFacts.
Context {FS : Type} `{OutputFsLaws FS}.
Variable values : Tasks -> list BackgroundTask.
Variable to_string_pretty : list PersistedTask -> option string.
Variable remove_file : option string -> option string.
Variable write_file : string -> option string -> option string.

Local Abbreviation spawn := (spawn_shell values to_string_pretty remove_file write_file).
Local Abbreviation finish := (finish_shell values to_string_pretty remove_file write_file).
Local Abbreviation kill := (kill values to_string_pretty remove_file write_file).

(** The task as it is registered. *)
Definition running_task (data_dir k desc session : string) (now : Z) : BackgroundTask :=
  started now (shell_task k desc (task_output_path data_dir k) session now).

Lemma spawn_ok data_dir uuid desc session now m fl f k m1 fl1 f1 :
  spawn data_dir uuid desc session now m fl f = (Ok k, m1, fl1, f1) ->
  k = generate_id TShell uuid /\ m1 = <[k := running_task data_dir k desc session now]> m /\
  o_bytes f (task_output_path data_dir k) = None /\ o_bytes f1 (task_output_path data_dir k) = Some "" /\
  forall q, q <> task_output_path data_dir k -> o_bytes f1 q = o_bytes f q.
Proof.
  unfold spawn_shell. destruct (init_task_output _ _ f) as [[p|e] f0] eqn:Hi; [|done].
  cbn [register]. intros [= <- <- <- <-]. destruct (writer_new_inv _ _ _ _ _ Hi) as (-> & Hn & [_ _ _ _ _ (c & Hc & He) Hfr]).
  cbn in He. rewrite app_nil_r_str in He. subst c. by split_and!.
Qed.

(** The output reaches the file, up to a failing write. *)
Lemma append_fresh data_dir k s f : o_bytes f (task_output_path data_dir k) = Some "" ->
  (Z.of_nat (len s) <= MAX_TASK_OUTPUT_BYTES)%Z ->
  (exists w, o_bytes (snd (append_task_output data_dir k s f)) (task_output_path data_dir k) = Some w /\ prefixb w s = true /\
     (fst (append_task_output data_dir k s f) = Ok () -> w = s)) /\
  forall q, q <> task_output_path data_dir k -> o_bytes (snd (append_task_output data_dir k s f)) q = o_bytes f q.
Proof.
  intros Hf Hs. destruct (append_task_output data_dir k s f) as [r f'] eqn:Ha. cbn [fst snd].
  assert (Hw : to_write (default 0%Z (ok (o_stat f (task_output_path data_dir k)))) s = Some s).
  { assert (default 0%Z (ok (o_stat f (task_output_path data_dir k))) = 0%Z) as ->.
    { destruct (o_stat f _) as [n|e] eqn:Hst; [|done]. destruct (stat_bytes _ _ _ Hst) as (c & Hc & ->). by simplify_eq. }
    destruct (to_write_small 0 s) as [?|[Hx _]]; [lia|lia|done|]. discriminate Hx. }
  destruct (append_run data_dir k s f r f' Ha) as [[Hfr Hnone]|(c & w & t & Hc & Ht & Hb & Hp & Hok & Hfr)].
  - split; [|by intros q _]. exists "". rewrite Hfr. split_and!; [done|done|]. intros Hr. rewrite (Hnone Hr) in Hw. done.
  - assert (c = "") as -> by congruence. assert (t = s) as -> by congruence. split; [|done]. exists w. auto.
Qed.

(** A command started in the background gets a fresh output file directly in
    the task directory and a running task; when it ends, the task has ended with
    the status and exit code of the outcome, still to be reported, its file holds
    the output as far as writing succeeded, and nothing else has changed.  A task
    that was killed first stays killed and reported.  A command that cannot have
    a file is not registered. *)
Theorem shell_task_lifecycle segs uuid desc session now m fl f r m1 fl1 f1
    (Hsegs : Forall clean_segment segs)
    (Hspawn : spawn (render segs) uuid desc session now m fl f = (r, m1, fl1, f1)) :
  match r with
  | Err _ => m1 = m /\ fl1 = fl
  | Ok k =>
      let p := task_output_path (render segs) k in
      p = render (segs ++ ["tasks"; k +:+ ".output"])%list /\ clean_segment (k +:+ ".output") /\
      o_bytes f p = None /\ m1 !! k = Some (running_task (render segs) k desc session now) /\
      (forall now2 e m2 fl2 f2, finish (render segs) now2 k e m1 fl1 f1 = (m2, fl2, f2) ->
         m2 = <[k := with_status (fst (status_of_end e)) (Some now2) (Some (snd (status_of_end e))) false
                       (running_task (render segs) k desc session now)]> m /\
         ((Z.of_nat (len (output_of e)) <= MAX_TASK_OUTPUT_BYTES)%Z ->
            (exists w, o_bytes f2 p = Some w /\ prefixb w (output_of e) = true) /\
            forall q, q <> p -> o_bytes f2 q = o_bytes f q)) /\
      (forall now1 m1' fl1' t now2 e, kill now1 k m1 fl1 = (Some t, m1', fl1') ->
         status t = Killed /\ notified t = true /\
         finish (render segs) now2 k e m1' fl1' f1 =
           (m1', fl1', snd (append_task_output (render segs) k (output_of e) f1)))
  end.
Proof.
  destruct r as [k|e].
  - destruct (spawn_ok _ _ _ _ _ _ _ _ _ _ _ _ Hspawn) as (-> & -> & Hnone & Hempty & Hfr).
    set (k := generate_id TShell uuid) in *. set (t0 := running_task (render segs) k desc session now).
    assert (Hname : char_all name_byte k = true) by apply generate_id_name. cbv zeta. split_and!.
    + by apply output_path_render.
    + split; [apply name_byte_no_slash; by rewrite char_all_app, Hname|]. split; [by destruct k|].
      intros He%(f_equal len). rewrite app_len in He. cbn in He. lia.
    + done.
    + apply lookup_insert_eq.
    + intros now2 e m2 fl2 f2. unfold finish_shell.
      assert (Hup : update_locked now2 k (fst (status_of_end e)) (Some (snd (status_of_end e))) (<[k := t0]> m) =
        (Some (with_status (fst (status_of_end e)) (Some now2) (Some (snd (status_of_end e))) false t0), true,
         <[k := with_status (fst (status_of_end e)) (Some now2) (Some (snd (status_of_end e))) false t0]> m)).
      { unfold update_locked. rewrite lookup_insert_eq, insert_insert_eq. by destruct e. }
      unfold update_status. destruct (status_of_end e) as [st code]. cbn [fst snd] in Hup |- *. rewrite Hup.
      intros [= <- _ <-]. split; [done|]. intros Hlen.
      destruct (append_fresh (render segs) k (output_of e) f1 Hempty Hlen) as [(w & Hw & Hp & _) Hq].
      split; [by exists w|]. intros q Hne. by rewrite Hq, Hfr.
    + intros now1 m1' fl1' t now2 e. unfold Background.kill, kill_locked. rewrite lookup_insert_eq. cbn [status started running_task t0].
      rewrite bool_decide_true by done. intros [= <- <- _]. split_and!; [done|done|].
      unfold finish_shell, update_status, update_locked. destruct (status_of_end e) as [st code].
      rewrite lookup_insert_eq. done.
  - unfold spawn_shell in Hspawn. destruct (init_task_output _ _ f) as [[p|e0] f0]; [done|]. by injection Hspawn as _ <- <- _.
Qed.
End ShellFacts.

(** ** Witnesses and examples *)

#[export] Instance PersistedTask_eq_dec : EqDecision PersistedTask.
Proof. solve_decision. Defined.
#[export] Instance PersistedTask_countable : Countable PersistedTask.
Proof.
  refine (inj_countable' (fun p => (p_id p, p_task_type p, p_description p, p_output_file p, p_tool_use_id p, p_agent_id p))
    (fun '(a, b, c, d, e, f) => {| p_id := a; p_task_type := b; p_description := c; p_output_file := d;
       p_tool_use_id := e; p_agent_id := f |}) _).
  by intros [].
Defined.

(** A text for every number, and back. *)
Fixpoint bits (p : positive) : string :=
  match p with xH => "" | xO p => String "0" (bits p) | xI p => String "1" (bits p) end.
Fixpoint of_bits (s : string) : positive :=
  match s with
  | "" => xH
  | String c s' => if Ascii.eqb c "1" then xI (of_bits s') else xO (of_bits s')
  end.
Lemma of_bits_bits p : of_bits (bits p) = p.
Proof. induction p as [p IH|p IH|]; cbn; by rewrite ?IH. Qed.

Definition plain_values (m : Tasks) : list BackgroundTask := (map_to_list m).*2.
Definition plain_print (rows : list PersistedTask) : option string := Some (bits (encode rows)).
Definition plain_parse (s : string) : option (list PersistedTask) := decode (of_bits s).
Definition working_remove (_ : option string) : option string := None.
Definition working_write (s : string) (_ : option string) : option string := Some s.

Lemma plain_json rows : exists json, plain_print rows = Some json /\ plain_parse json = Some rows.
Proof. eexists. split; [reflexivity|]. unfold plain_parse. by rewrite of_bits_bits, decode_encode. Qed.

Definition build : BackgroundTask := shell_task "b1" "make" "/d/tasks/b1.output" "s1" 0.
Definition build_running : Tasks := <["b1" := started 5 build]> ∅.
Definition build_file : option string := persist_snapshot plain_values plain_print working_remove working_write build_running None.

Lemma crash_recovery_witness : exists m,
  hydrate_and_mark_lost plain_parse working_remove 9 ∅ build_file = (1, m, None) /\
  m !! "b1" = Some (recovered 9 (started 5 build)).
Proof.
  edestruct (crash_recovery plain_values plain_print plain_parse working_remove working_write
    (fun m => Permutation_refl _) plain_json (fun _ => eq_refl) (fun _ _ => eq_refl)
    [LRegister build; LPersist] {| tasks := build_running; file := build_file; waiting := 0 |} 9)
    as (m & Hh & Hm).
  - eapply steps_cons; [apply (step_register _ _ _ _ 5 build ∅ None 0); split; reflexivity|].
    eapply steps_cons; [apply step_persist|apply steps_nil].
  - reflexivity.
  - exists m. split; [exact Hh|]. rewrite Hm. reflexivity.
Defined.

Definition built : BackgroundTask := with_status Completed (Some 7%Z) (Some 0%Z) false (started 5 build).

Lemma notified_exactly_once_witness :
  marks "b1" [LUpdate "b1" Completed (Some 0%Z); LMark "b1" true; LEvict "b1" true] = 1.
Proof.
  eapply (notified_exactly_once plain_values plain_print working_remove working_write
    {| tasks := build_running; file := None; waiting := 0 |} _
    {| tasks := ∅; file := None; waiting := 1 |} "b1" (started 5 build)).
  - eapply steps_cons; [eapply (step_update _ _ _ _ 7 "b1" Completed (Some 0%Z)); reflexivity|].
    eapply steps_cons; [apply (step_mark _ _ _ _ "b1")|].
    eapply steps_cons; [apply (step_evict _ _ _ _ "b1")|apply steps_nil].
  - reflexivity.
  - reflexivity.
  - reflexivity.
  - reflexivity.
  - reflexivity.
Defined.

Lemma notify_finished_spec_witness :
  fst <$> fst (notify_finished plain_values (<["b1" := built]> ∅)) =
  ["[Background task b1] Background command " +:+ dq +:+ "make" +:+ dq +:+
   " completed successfully (exit code 0)." +:+ nl +:+ "Output file: /d/tasks/b1.output"].
Proof.
  destruct (notify_finished_spec plain_values (fun m => Permutation_refl _) (<["b1" := built]> ∅))
    as (messages & m' & -> & Hr & _).
  - intros k t. rewrite lookup_insert_Some. by intros [[<- <-]|[_ ?]].
  - change (report <$> unnotified_terminal_tasks plain_values (<["b1" := built]> ∅)) with [report built] in Hr.
    destruct messages as [|x [|y l]]; [done| |done]. injection Hr as ->. reflexivity.
Defined.

Definition zero_uuid : list nat := replicate 16 0.

Lemma shell_task_lifecycle_witness :
  let '(r, m1, fl1, f1) := spawn_shell plain_values plain_print working_remove working_write (render ["d"])
    zero_uuid "make" "s1" 5 ∅ None ([] : MemDisk) in
  r = Ok "b00000000" /\
  forall now2 m2 fl2 f2,
    finish_shell plain_values plain_print working_remove working_write (render ["d"]) now2 "b00000000" (Finished "ok")
      m1 fl1 f1 = (m2, fl2, f2) ->
    exists w, o_bytes f2 "/d/tasks/b00000000.output" = Some w /\ prefixb w "ok" = true.
Proof.
  assert (Hr : fst (fst (fst (spawn_shell plain_values plain_print working_remove working_write (render ["d"])
    zero_uuid "make" "s1" 5 ∅ None ([] : MemDisk)))) = Ok "b00000000") by (vm_compute; reflexivity).
  destruct (spawn_shell _ _ _ _ _ _ _ _ _ _ _ _) as [[[r m1] fl1] f1] eqn:Hs. cbn [fst] in Hr.
  pose proof (shell_task_lifecycle plain_values plain_print working_remove working_write
    ["d"] zero_uuid "make" "s1" 5 ∅ None ([] : MemDisk) r m1 fl1 f1 ltac:(repeat constructor; done) Hs) as Hl.
  subst r.
  split; [done|]. intros now2 m2 fl2 f2 Hf. destruct Hl as (_ & _ & _ & _ & Hfin & _).
  destruct (Hfin _ _ _ _ _ Hf) as [_ Hout]. destruct Hout as [Hw _]; [vm_compute; discriminate|exact Hw].
Defined.

(** Byte 6 of a version 4 UUID has the high half 4, so the seventh character of
    an id takes at most sixteen of the thirty-six values. *)
Example seventh_character_restricted :
  length (remove_dups ((fun b => alphabet_char ((64 + b) mod 36)) <$> seq 0 16)) = 16.
Proof. vm_compute. reflexivity. Qed.
