(* ===== verification/Calendar.v ===== *)
(** * Local date and time of the scheduler

    [now_local_components] of src/kernel/src/palaces/zhen_tool/builtin/
    cron_runner.rs: a Unix timestamp to minute, hour, day, month and weekday, by
    integer arithmetic on eras of 400 years; proved against the Gregorian
    calendar's own successor rule. *)

From S2P Require Export Prelude.
#[local] Open Scope Z_scope.

(** ** The code's arithmetic *)

(** [u32] values are nonnegative here and far from the width, see
    [civil_from_days_ranges]. *)
Definition civil_from_days (days_since_epoch : Z) : Z * Z * Z :=
  let z := days_since_epoch + 719468 in
  let era := (if 0 <=? z then z else z - 146096) ÷ 146097 in
  let doe := z - era * 146097 in
  let yoe := (doe - doe / 1460 + doe / 36524 - doe / 146096) / 365 in
  let y := yoe + era * 400 in
  let doy := doe - (365 * yoe + yoe / 4 - yoe / 100) in
  let mp := (5 * doy + 2) / 153 in
  let day := doy - (153 * mp + 2) / 5 + 1 in
  let month := if mp <? 10 then mp + 3 else mp - 9 in
  let year := if month <=? 2 then y + 1 else y in
  (year, month, day).

Record LocalTime := { minute : Z; hour : Z; day : Z; month : Z; weekday : Z }.

(** [utc_ts] and [offset_secs] are what the system clock and the time zone
    database report. *)
Definition now_local_components (utc_ts offset_secs : Z) : LocalTime :=
  let local_ts := wrap_u64 (utc_ts + offset_secs) in
  let days_since_epoch := local_ts / 86400 in
  let time_of_day := local_ts mod 86400 in
  let '(_, month, day) := civil_from_days days_since_epoch in
  {| minute := (time_of_day mod 3600) / 60; hour := time_of_day / 3600;
     day := day; month := month; weekday := (days_since_epoch + 4) mod 7 |}.

(** ** The calendar *)

Definition leap (y : Z) : bool :=
  (y mod 4 =? 0) && (negb (y mod 100 =? 0) || (y mod 400 =? 0)).

Definition days_in_month (y m : Z) : Z :=
  if m =? 2 then if leap y then 29 else 28
  else if (m =? 4) || (m =? 6) || (m =? 9) || (m =? 11) then 30 else 31.

Definition next_date (d : Z * Z * Z) : Z * Z * Z :=
  let '(y, m, d) := d in
  if d <? days_in_month y m then (y, m, d + 1)
  else if m <? 12 then (y, m + 1, 1)
  else (y + 1, 1, 1).

(** The date a number of days after 1 January 1970. *)
Definition date_after (n : nat) : Z * Z * Z := Nat.iter n next_date (1970, 1, 1).

(** ** One era, year by year *)

(** The years of an era start in March: the days before year [y], the year a day
    falls in, and the month and day of a day of a year. *)
Definition year_start (y : Z) : Z := 365 * y + y / 4 - y / 100.
Definition yoe_dividend (doe : Z) : Z := doe - doe / 1460 + doe / 36524 - doe / 146096.
Definition yoe (doe : Z) : Z := yoe_dividend doe / 365.
Definition month_day (doy : Z) : Z * Z :=
  let mp := (5 * doy + 2) / 153 in
  ((if mp <? 10 then mp + 3 else mp - 9), doy - (153 * mp + 2) / 5 + 1).
Definition calendar_year (y m : Z) : Z := if m <=? 2 then y + 1 else y.

(** The date of a day of an era, with the year counted from the era's start. *)
Definition civil_of_era (doe : Z) : Z * Z * Z :=
  let y := yoe doe in
  let '(m, d) := month_day (doe - year_start y) in (calendar_year y m, m, d).

Definition shift_year (k : Z) (d : Z * Z * Z) : Z * Z * Z := let '(y, m, d) := d in (y + k, m, d).

(** [n] consecutive integers from [lo]. *)
Fixpoint range (lo : Z) (n : nat) : list Z :=
  match n with
  | O => []
  | S n' => lo :: range (lo + 1) n'
  end.

Lemma forallb_range p lo n : forallb p (range lo n) = true -> forall k, lo <= k < lo + Z.of_nat n -> p k = true.
Proof.
  revert lo. induction n as [|n IH]; cbn [range forallb]; intros lo H k Hk; [lia|].
  apply andb_true_iff in H as [H1 H2]. destruct (decide (k = lo)) as [->|Hne]; [done|]. apply (IH (lo + 1)); [done|lia].
Qed.

Definition year_length (y : Z) : Z := if leap (y + 1) then 366 else 365.

Lemma year_table y : 0 <= y < 400 ->
  yoe (year_start y) = y /\ yoe (year_start y + year_length y - 1) = y /\
  (y < 399 -> year_start (y + 1) = year_start y + year_length y) /\
  (y = 399 -> year_start y + year_length y = 146097).
Proof.
  intros Hy.
  pose proof (forallb_range (fun y => (yoe (year_start y) =? y) && (yoe (year_start y + year_length y - 1) =? y) &&
    (if y =? 399 then year_start y + year_length y =? 146097
     else year_start (y + 1) =? year_start y + year_length y)) 0 (Z.to_nat 400)
    ltac:(by vm_compute) y ltac:(lia)) as H. cbn beta in H.
  apply andb_true_iff in H as [[H1 H2]%andb_true_iff H3]. apply Z.eqb_eq in H1, H2.
  split; [done|]. split; [done|]. destruct (Z.eqb_spec y 399) as [->|Hne]; apply Z.eqb_eq in H3; split; (done || lia).
Qed.

Lemma yoe_dividend_mono n d : 0 <= d -> d + Z.of_nat n < 146097 -> yoe_dividend d <= yoe_dividend (d + Z.of_nat n).
Proof.
  intros Hd. induction n as [|n IH]; intros Hn; [rewrite Z.add_0_r; lia|].
  transitivity (yoe_dividend (d + Z.of_nat n)); [apply IH; lia|].
  replace (d + Z.of_nat (S n)) with (d + Z.of_nat n + 1) in * by lia. clear IH.
  set (k := d + Z.of_nat n) in *. assert (0 <= k) by lia. clearbody k. unfold yoe_dividend.
  destruct (decide (k = 146095)) as [->|Hne]; [by vm_compute|].
  rewrite (Z.div_small (k + 1) 146096), (Z.div_small k 146096) by lia.
  pose proof (Z.div_le_mono k (k + 1) 36524 ltac:(lia) ltac:(lia)).
  assert ((k + 1) / 1460 <= k / 1460 + 1); [|lia].
  rewrite <- (Z.div_add k 1 1460) by done. apply Z.div_le_mono; lia.
Qed.

(** The year of every day between the first and the last of a year. *)
Lemma yoe_year y doy : 0 <= y < 400 -> 0 <= doy < year_length y -> yoe (year_start y + doy) = y.
Proof.
  intros Hy Hd. destruct (year_table y Hy) as (H1 & H2 & H3 & H4).
  assert (Hs : 0 <= year_start y /\ year_start y + year_length y <= 146097).
  { split.
    - unfold year_start. pose proof (Z.div_pos y 4 ltac:(lia) ltac:(lia)).
      assert (y / 100 <= y) by (apply Z.div_le_upper_bound; lia). lia.
    - pose proof (forallb_range (fun y => year_start y + year_length y <=? 146097) 0 (Z.to_nat 400)
        ltac:(by vm_compute) y ltac:(lia)) as H. by apply Z.leb_le in H. }
  assert (Hlo : yoe (year_start y) <= yoe (year_start y + doy)).
  { unfold yoe. apply Z.div_le_mono; [lia|].
    pose proof (yoe_dividend_mono (Z.to_nat doy) (year_start y)) as Hm. rewrite Z2Nat.id in Hm by lia. apply Hm; lia. }
  assert (Hhi : yoe (year_start y + doy) <= yoe (year_start y + year_length y - 1)).
  { unfold yoe. apply Z.div_le_mono; [lia|].
    pose proof (yoe_dividend_mono (Z.to_nat (year_length y - 1 - doy)) (year_start y + doy)) as Hm.
    rewrite Z2Nat.id in Hm by lia. replace (year_start y + year_length y - 1) with
      (year_start y + doy + (year_length y - 1 - doy)) by lia. apply Hm; lia. }
  lia.
Qed.

(** Every day of an era lies in one of its years. *)
Lemma year_of_day n doe : (n <= 400)%nat -> 0 <= doe ->
  (doe < year_start (Z.of_nat n) \/ n = 400%nat /\ doe < 146097) ->
  exists y doy, 0 <= y < 400 /\ 0 <= doy < year_length y /\ doe = year_start y + doy.
Proof.
  induction n as [|n IH]; intros Hn Hd Hlt; [destruct Hlt as [Hlt|[? _]]; [change (year_start (Z.of_nat 0)) with 0 in Hlt; lia|done]|].
  destruct (year_table (Z.of_nat n) ltac:(lia)) as (_ & _ & H3 & H4).
  destruct (decide (doe < year_start (Z.of_nat n))) as [Hl|Hge]; [apply IH; [lia|lia|by left]|].
  exists (Z.of_nat n), (doe - year_start (Z.of_nat n)). split; [lia|]. split; [|lia].
  destruct (decide (n = 399%nat)) as [->|Hne].
  - change (Z.of_nat 399) with 399 in *. specialize (H4 eq_refl). destruct Hlt as [Hlt|[_ Hlt]]; [|lia].
    change (year_start (Z.of_nat 400)) with 146096 in Hlt. lia.
  - destruct Hlt as [Hlt|[? _]]; [|lia]. rewrite Nat2Z.inj_succ, <- Z.add_1_r, H3 in Hlt by lia. lia.
Qed.

Lemma civil_of_year y doy : 0 <= y < 400 -> 0 <= doy < year_length y ->
  civil_of_era (year_start y + doy) = let '(m, d) := month_day doy in (calendar_year y m, m, d).
Proof.
  intros Hy Hd. unfold civil_of_era. rewrite yoe_year by done.
  by replace (year_start y + doy - year_start y) with doy by lia.
Qed.

(** The successor rule up to the year's last day but one, under either leap
    rule. *)
Definition step_date (lp : bool) (md : Z * Z) : Z * Z * Z :=
  let '(m, d) := md in
  let dim := if m =? 2 then if lp then 29 else 28
             else if (m =? 4) || (m =? 6) || (m =? 9) || (m =? 11) then 30 else 31 in
  if d <? dim then (0, m, d + 1) else if m <? 12 then (0, m + 1, 1) else (1, 1, 1).

Definition step_ok (lp : bool) (doy : Z) : bool :=
  let '(m, d) := month_day doy in
  let '(i, m', d') := step_date lp (m, d) in
  let '(m1, d1) := month_day (doy + 1) in
  (m' =? m1) && (d' =? d1) && (calendar_year 0 m + i =? calendar_year 0 m').

Lemma steps_ok lp doy : 0 <= doy < 364 -> step_ok lp doy = true.
Proof.
  intros Hd. pose proof (forallb_range (fun k => step_ok true k && step_ok false k) 0 (Z.to_nat 364)
    ltac:(by vm_compute) doy ltac:(lia)) as H. apply andb_true_iff in H as [? ?]. by destruct lp.
Qed.

Lemma next_date_step y m d :
  next_date (calendar_year y m, m, d) =
  let '(i, m', d') := step_date (leap (calendar_year y m)) (m, d) in (calendar_year y m + i, m', d').
Proof.
  unfold next_date, step_date, days_in_month.
  destruct (d <? _); [by rewrite Z.add_0_r|]. destruct (m <? 12); [by rewrite Z.add_0_r|done].
Qed.

Lemma calendar_year_0 y m : calendar_year y m = y + calendar_year 0 m.
Proof. unfold calendar_year. destruct (m <=? 2); lia. Qed.

Lemma civil_of_era_next doe : 0 <= doe < 146096 -> civil_of_era (doe + 1) = next_date (civil_of_era doe).
Proof.
  intros Hd. destruct (year_of_day 400 doe ltac:(lia) ltac:(lia) ltac:(right; lia)) as (y & doy & Hy & Hdoy & ->).
  rewrite civil_of_year by done. destruct (year_table y Hy) as (_ & _ & Hnext & Hlast).
  assert (Hlen : year_length y = 365 \/ year_length y = 366) by (unfold year_length; destruct (leap _); auto).
  destruct (decide (doy < 364)) as [Hlt|Hge].
  - pose proof (steps_ok (leap (calendar_year y (fst (month_day doy)))) doy ltac:(lia)) as Hok.
    replace (year_start y + doy + 1) with (year_start y + (doy + 1)) by lia. rewrite civil_of_year by lia.
    unfold step_ok in Hok. destruct (month_day doy) as [m d]. cbn [fst] in Hok. rewrite next_date_step.
    destruct (step_date _ (m, d)) as [[i m'] d']. destruct (month_day (doy + 1)) as [m1 d1].
    apply andb_true_iff in Hok as [[->%Z.eqb_eq ->%Z.eqb_eq]%andb_true_iff Hi%Z.eqb_eq].
    rewrite (calendar_year_0 y m1), <- Hi, (calendar_year_0 y m). f_equal. f_equal. lia.
  - assert (Hnew : doy = year_length y - 1 -> civil_of_era (year_start y + doy + 1) = (y + 1, 3, 1)).
    { intros ->. assert (y <> 399) by lia. replace (year_start y + (year_length y - 1) + 1) with (year_start (y + 1) + 0) by lia.
      rewrite civil_of_year; [|lia|unfold year_length; destruct (leap _); lia]. cbn. f_equal. }
    unfold year_length in *. destruct (leap (y + 1)) eqn:Hleap.
    + assert (doy = 364 \/ doy = 365) as [->| ->] by lia.
      * replace (year_start y + 364 + 1) with (year_start y + 365) by lia.
        rewrite civil_of_year by (unfold year_length; rewrite ?Hleap; lia).
        change (month_day 365) with (2, 29). change (month_day 364) with (2, 28). cbv iota beta.
        rewrite next_date_step. change (calendar_year y 2) with (y + 1). rewrite Hleap. cbn. by rewrite Z.add_0_r.
      * rewrite Hnew by lia. change (month_day 365) with (2, 29). cbv iota beta. rewrite next_date_step.
        change (calendar_year y 2) with (y + 1). rewrite Hleap. cbn. by rewrite Z.add_0_r.
    + assert (doy = 364) as -> by lia. rewrite Hnew by lia. change (month_day 364) with (2, 28). cbv iota beta.
      rewrite next_date_step. change (calendar_year y 2) with (y + 1). rewrite Hleap. cbn. by rewrite Z.add_0_r.
Qed.

(** ** The other eras by periodicity *)

Lemma civil_era e doe : 0 <= e -> 0 <= doe < 146097 ->
  civil_from_days (e * 146097 + doe - 719468) = shift_year (400 * e) (civil_of_era doe).
Proof.
  intros He Hd. unfold civil_from_days. replace (e * 146097 + doe - 719468 + 719468) with (e * 146097 + doe) by lia.
  rewrite (proj2 (Z.leb_le 0 (e * 146097 + doe))) by lia. rewrite Z.quot_div_nonneg by lia.
  replace ((e * 146097 + doe) / 146097) with e by (apply (Z.div_unique _ _ _ doe); lia).
  replace (e * 146097 + doe - e * 146097) with doe by lia.
  unfold civil_of_era, yoe, yoe_dividend, month_day, year_start, calendar_year, shift_year. cbv zeta.
  f_equal. f_equal. destruct (_ <=? 2); lia.
Qed.

Lemma leap_shift y e : leap (y + 400 * e) = leap y.
Proof.
  unfold leap. replace (y + 400 * e) with (y + e * 100 * 4) at 1 by lia. rewrite Z.mod_add by done.
  replace (y + 400 * e) with (y + e * 4 * 100) at 1 by lia. rewrite Z.mod_add by done.
  replace (y + 400 * e) with (y + e * 400) by lia. by rewrite Z.mod_add.
Qed.

Lemma next_date_shift e d : next_date (shift_year (400 * e) d) = shift_year (400 * e) (next_date d).
Proof.
  destruct d as [[y m] d]. unfold next_date, shift_year, days_in_month. rewrite leap_shift.
  destruct (d <? _); [done|]. destruct (m <? 12); [done|]. f_equal. f_equal. lia.
Qed.

Lemma civil_next z : -719468 <= z -> civil_from_days (z + 1) = next_date (civil_from_days z).
Proof.
  intros Hz. pose proof (Z.div_mod (z + 719468) 146097 ltac:(lia)) as Hdm.
  pose proof (Z.mod_pos_bound (z + 719468) 146097 ltac:(lia)) as Hb.
  set (e := (z + 719468) / 146097) in *. set (doe := (z + 719468) mod 146097) in *.
  assert (He : 0 <= e) by (apply Z.div_pos; lia).
  replace z with (e * 146097 + doe - 719468) by lia. rewrite civil_era, next_date_shift by lia.
  destruct (decide (doe = 146096)) as [->|Hne].
  - replace (e * 146097 + 146096 - 719468 + 1) with ((e + 1) * 146097 + 0 - 719468) by lia.
    rewrite civil_era by lia. replace (400 * (e + 1)) with (400 * e + 400) by lia.
    change (next_date (civil_of_era 146096)) with (400, 3, 1). change (civil_of_era 0) with (0, 3, 1). cbn. f_equal; f_equal; lia.
  - replace (e * 146097 + doe - 719468 + 1) with (e * 146097 + (doe + 1) - 719468) by lia.
    rewrite civil_era by lia. f_equal.
    apply civil_of_era_next. lia.
Qed.

Lemma civil_date_after n : civil_from_days (Z.of_nat n) = date_after n.
Proof.
  unfold date_after. induction n as [|n IH]; [by vm_compute|].
  rewrite Nat2Z.inj_succ, <- Z.add_1_r, civil_next by lia. cbn [Nat.iter]. by rewrite IH.
Qed.

(** The scheduler's calendar.  For every time from 1970 on, the day and
    month it computes are those of the Gregorian calendar: the date reached
    from 1 January 1970 by stepping over as many days as have passed, with
    February's leap rule; the weekday counts on from that Thursday; and minute
    and hour are in range and determine the time of day up to the second. *)
Theorem local_components_calendar utc_ts offset_secs (Hpos : 0 <= utc_ts + offset_secs < 2 ^ 64) :
  let t := utc_ts + offset_secs in
  let lt := now_local_components utc_ts offset_secs in
  (exists year, date_after (Z.to_nat (t / 86400)) = (year, month lt, day lt)) /\
  weekday lt = (4 + t / 86400) mod 7 /\
  0 <= hour lt < 24 /\ 0 <= minute lt < 60 /\
  exists s, 0 <= s < 60 /\ t mod 86400 = hour lt * 3600 + minute lt * 60 + s.
Proof.
  intros t lt. unfold lt, now_local_components, wrap_u64. rewrite Z.mod_small by done. fold t.
  pose proof (Z.div_pos t 86400 ltac:(lia) ltac:(lia)) as Hq.
  rewrite <- civil_date_after, Z2Nat.id by done.
  pose proof (Z.mod_pos_bound t 86400 ltac:(lia)) as Ht. set (r := t mod 86400) in *.
  destruct (civil_from_days (t / 86400)) as [[y m] d]. cbn.
  split; [by exists y|]. split; [f_equal; lia|].
  pose proof (Z.div_mod r 3600 ltac:(lia)). pose proof (Z.mod_pos_bound r 3600 ltac:(lia)).
  pose proof (Z.div_mod (r mod 3600) 60 ltac:(lia)). pose proof (Z.mod_pos_bound (r mod 3600) 60 ltac:(lia)).
  split; [lia|]. split; [lia|]. exists ((r mod 3600) mod 60). lia.
Qed.

Lemma local_components_calendar_witness :
  now_local_components 1709210096 3600 =
    {| minute := 34; hour := 13; day := 29; month := 2; weekday := 4 |} /\
  exists year, date_after (Z.to_nat ((1709210096 + 3600) / 86400)) = (year, 2, 29).
Proof.
  split; [by vm_compute|].
  destruct (local_components_calendar 1709210096 3600 ltac:(lia)) as [[y Hy] _]. exists y. exact Hy.
Defined.
