(* ===== verification/Cron.v ===== *)
(** * Scheduled jobs

    src/kernel/src/palaces/zhen_tool/builtin/cron/{mod,jitter,cron_tool}.rs (the
    job store, its files, the tool), cron_runner.rs (the runner) and the
    management endpoint of src/kernel/src/palaces/dui_gateway/cron.rs.

    The [time] crate's parser and the clocks are parameters; a job file is the
    job record serde writes and reads back. *)

From S2P Require Export Prelude RString Float Json Files Calendar.
From Stdlib Require Import Ascii.
#[local] Arguments String.append !_ _ : simpl nomatch.

(** ** Jobs *)

Definition MAX_JOBS : nat := 100.

Inductive TriggerMode := Schedule | Once.
#[export] Instance TriggerMode_eq_dec : EqDecision TriggerMode.
Proof. solve_decision. Defined.

Record CronJob := {
  cj_name : string;
  cj_schedule : string;
  cj_prompt : string;
  cj_enabled : bool;
  last_fired_at : option Z;
  last_response : option string;
  cooldown_secs : option Z;
  cj_trigger : TriggerMode
}.

Definition effective_cooldown (j : CronJob) : Z := default 72000%Z (cooldown_secs j).

Record CronJobFile := {
  cf_name : string;
  cf_schedule : string;
  cf_prompt : string;
  cf_enabled : bool;
  cf_cooldown_secs : option Z;
  cf_trigger : TriggerMode;
  cf_last_fired_at : option Z
}.

Definition to_file (j : CronJob) : CronJobFile :=
  {| cf_name := cj_name j; cf_schedule := cj_schedule j; cf_prompt := cj_prompt j; cf_enabled := cj_enabled j;
     cf_cooldown_secs := cooldown_secs j; cf_trigger := cj_trigger j; cf_last_fired_at := last_fired_at j |}.

Definition into_job (f : CronJobFile) (existing : option CronJob) : CronJob :=
  {| cj_name := cf_name f; cj_schedule := cf_schedule f; cj_prompt := cf_prompt f; cj_enabled := cf_enabled f;
     last_fired_at :=
       match existing ≫= last_fired_at with
       | Some mem_ts =>
           match cf_last_fired_at f with
           | Some disk_ts => Some (Z.max disk_ts mem_ts)
           | None => Some mem_ts
           end
       | None => cf_last_fired_at f
       end;
     last_response := existing ≫= last_response;
     cooldown_secs := cf_cooldown_secs f; cj_trigger := cf_trigger f |}.

(** ** Validation *)

Definition validate_cron_name (name : string) : result string unit :=
  if is_empty_str name then Err "Cron job name must not be empty"
  else if contains_str name "/" || contains_str name "\" || contains_str name ".." then
    Err ("Invalid cron job name '" +:+ name +:+ "': must not contain path separators")
  else if existsb is_whitespace (chars name) then
    Err ("Invalid cron job name '" +:+ name +:+ "': must not contain whitespace")
  else Ok ().

Definition ranges : list (string * (Z * Z)) :=
  [("minute", (0, 59)); ("hour", (0, 23)); ("day", (1, 31)); ("month", (1, 12)); ("weekday", (0, 6))]%Z.

Definition validate_field (e : string * (Z * Z)) (field : string) : result string unit :=
  let '(name, (lo, hi)) := e in
  if String.eqb field "*" then Ok ()
  else
    match strip_prefix_str field "*/" with
    | Some rest =>
        match parse_unsigned u32_max rest with
        | None => Err ("Invalid step value in " +:+ name +:+ " field: '" +:+ field +:+ "'")
        | Some step =>
            if (step =? 0)%Z then Err ("Step value must be > 0 in " +:+ name +:+ " field: '" +:+ field +:+ "'")
            else Ok ()
        end
    | None =>
        match parse_unsigned u32_max field with
        | None => Err ("Invalid " +:+ name +:+ " field '" +:+ field +:+ "': must be *, */N, or a number")
        | Some value =>
            if (value <? lo)%Z || (hi <? value)%Z then
              Err ("Value " +:+ pretty value +:+ " in " +:+ name +:+ " field out of range [" +:+
                   pretty lo +:+ ", " +:+ pretty hi +:+ "]")
            else Ok ()
        end
    end.

Fixpoint validate_fields (es : list (string * (Z * Z))) (fields : list string) : result string unit :=
  match es, fields with
  | e :: es', f :: fields' => _ ← validate_field e f; validate_fields es' fields'
  | _, _ => Ok ()
  end.

Definition validate_cron_schedule (schedule : string) : result string unit :=
  let fields := split_whitespace schedule in
  if negb (length fields =? 5)%nat then
    Err ("Cron schedule must have 5 fields (minute hour day month weekday), got " +:+ pretty (length fields))
  else validate_fields ranges fields.

(** ** The store *)

(** The memory, the job files by name with their modification second (a file
    that does not parse, or whose name differs, has no job), and the cache of
    modification seconds. *)
Record CronStore := {
  jobs : list CronJob;
  dir : gmap string (Z * option CronJobFile);
  mtimes : gmap string Z
}.

Definition with_jobs (js : list CronJob) (s : CronStore) : CronStore :=
  {| jobs := js; dir := dir s; mtimes := mtimes s |}.

Definition retain (p : CronJob -> bool) (s : CronStore) : CronStore := with_jobs (List.filter p (jobs s)) s.

(** [iter_mut().find(name)] and an assignment through it. *)
Fixpoint update_named (name : string) (f : CronJob -> CronJob) (js : list CronJob) : list CronJob :=
  match js with
  | [] => []
  | j :: js' => if String.eqb (cj_name j) name then f j :: js' else j :: update_named name f js'
  end.

Definition find_job (name : string) (js : list CronJob) : option CronJob :=
  List.find (fun j => String.eqb (cj_name j) name) js.

(** Writing a job file: [written] is the modification second the file got, or
    nothing when a call failed, which the callers only log. *)
Definition persist_one (written : option Z) (f : CronJobFile) (s : CronStore) : CronStore :=
  match written with
  | Some t =>
      {| jobs := jobs s; dir := <[cf_name f := (t, Some f)]> (dir s); mtimes := <[cf_name f := t]> (mtimes s) |}
  | None => s
  end.

(** A deletion that fails leaves the file, but never the cache entry. *)
Definition remove_file (deleted : bool) (name : string) (s : CronStore) : CronStore :=
  {| jobs := jobs s; dir := if deleted then delete name (dir s) else dir s; mtimes := delete name (mtimes s) |}.

Section Store.
(** [time::PrimitiveDateTime::parse] of a local date and time: the moment in
    milliseconds and its minute, or the text of the error. *)
Context (parse_local : string -> result string (Z * Z)).

Definition validate_once_schedule (schedule : string) : result string unit :=
  match parse_local schedule with
  | Ok _ => Ok ()
  | Err e => Err ("Invalid one-shot datetime: " +:+ e +:+ ". Expected format: YYYY-MM-DDTHH:MM:SS (local time)")
  end.

Definition add (written : option Z) (name schedule prompt : string) (cooldown_secs : option Z)
    (trigger : TriggerMode) (s : CronStore) : result string unit * CronStore :=
  match (_ ← validate_cron_name name;
         match trigger with
         | Schedule => validate_cron_schedule schedule
         | Once => validate_once_schedule schedule
         end) with
  | Err e => (Err e, s)
  | Ok _ =>
      if (MAX_JOBS <=? length (jobs s))%nat then (Err ("Max " +:+ pretty MAX_JOBS +:+ " cron jobs reached"), s)
      else
        let job := {| cj_name := name; cj_schedule := schedule; cj_prompt := prompt; cj_enabled := true;
                      last_fired_at := None; last_response := None; cooldown_secs := cooldown_secs;
                      cj_trigger := trigger |} in
        let s1 := retain (fun j => negb (String.eqb (cj_name j) name)) s in
        (Ok (), persist_one written (to_file job) (with_jobs (jobs s1 ++ [job]) s1))
  end.

Definition not_found (name : string) : string := "Cron job '" +:+ name +:+ "' not found".

Definition remove (deleted : bool) (name : string) (s : CronStore) : result string unit * CronStore :=
  let s1 := retain (fun j => negb (String.eqb (cj_name j) name)) s in
  if (length (jobs s) <=? length (jobs s1))%nat then (Err (not_found name), s1)
  else (Ok (), remove_file deleted name s1).

(** The new value of the job found, written to memory and then to its file. *)
Definition modify (written : option Z) (name : string) (f : CronJob -> CronJob) (s : CronStore) : CronStore :=
  let s1 := with_jobs (update_named name f (jobs s)) s in
  match find_job name (jobs s) with
  | Some j => persist_one written (to_file (f j)) s1
  | None => s1
  end.

Definition update (written : option Z) (name : string) (schedule prompt : option string)
    (cooldown : option Z) (s : CronStore) : result string unit * CronStore :=
  match find_job name (jobs s) with
  | None => (Err (not_found name), s)
  | Some _ =>
      match (match schedule with Some sch => validate_cron_schedule sch | None => Ok () end) with
      | Err e => (Err e, s)
      | Ok _ =>
          (Ok (), modify written name (fun j =>
             {| cj_name := cj_name j;
                cj_schedule := default (cj_schedule j) schedule;
                cj_prompt := default (cj_prompt j) prompt;
                cj_enabled := cj_enabled j; last_fired_at := last_fired_at j; last_response := last_response j;
                cooldown_secs := match cooldown with Some _ => cooldown | None => cooldown_secs j end;
                cj_trigger := cj_trigger j |}) s)
      end
  end.

Definition put_enabled (enabled : bool) (j : CronJob) : CronJob :=
  {| cj_name := cj_name j; cj_schedule := cj_schedule j; cj_prompt := cj_prompt j; cj_enabled := enabled;
     last_fired_at := last_fired_at j; last_response := last_response j; cooldown_secs := cooldown_secs j;
     cj_trigger := cj_trigger j |}.

Definition set_enabled (written : option Z) (name : string) (enabled : bool) (s : CronStore)
    : result string unit * CronStore :=
  match find_job name (jobs s) with
  | None => (Err (not_found name), s)
  | Some _ => (Ok (), modify written name (put_enabled enabled) s)
  end.

Definition put_fired (now : Z) (j : CronJob) : CronJob :=
  {| cj_name := cj_name j; cj_schedule := cj_schedule j; cj_prompt := cj_prompt j; cj_enabled := cj_enabled j;
     last_fired_at := Some now; last_response := last_response j; cooldown_secs := cooldown_secs j;
     cj_trigger := cj_trigger j |}.

Definition record_fired (written : option Z) (now : Z) (name : string) (s : CronStore) : CronStore :=
  modify written name (put_fired now) s.

Definition put_response (response : string) (j : CronJob) : CronJob :=
  {| cj_name := cj_name j; cj_schedule := cj_schedule j; cj_prompt := cj_prompt j; cj_enabled := cj_enabled j;
     last_fired_at := last_fired_at j; last_response := Some response; cooldown_secs := cooldown_secs j;
     cj_trigger := cj_trigger j |}.

Definition set_last_response (name response : string) (s : CronStore) : CronStore :=
  with_jobs (update_named name (put_response response) (jobs s)) s.

(** The configuration of [job], the history of [existing]. *)
Definition put_config (job existing : CronJob) : CronJob :=
  {| cj_name := cj_name existing; cj_schedule := cj_schedule job; cj_prompt := cj_prompt job;
     cj_enabled := cj_enabled job; last_fired_at := last_fired_at existing;
     last_response := last_response existing; cooldown_secs := cooldown_secs job; cj_trigger := cj_trigger job |}.

Definition upsert (job : CronJob) (s : CronStore) : CronStore :=
  match find_job (cj_name job) (jobs s) with
  | Some _ => with_jobs (update_named (cj_name job) (put_config job) (jobs s)) s
  | None => with_jobs (jobs s ++ [job]) s
  end.

Definition remove_by_names (names : list string) (s : CronStore) : CronStore :=
  retain (fun j => negb (one_of (cj_name j) names)) s.

Definition enabled_jobs (s : CronStore) : list CronJob := List.filter cj_enabled (jobs s).

(** *** Hot reload *)

(** [iter] is the order in which the hash map of the directory is walked. *)
Definition scan_changes_sync (iter : list (string * (Z * option CronJobFile))) (s : CronStore)
    : list CronJobFile * list string * CronStore :=
  let changed := omap (fun e : string * (Z * option CronJobFile) =>
    let '(name, (mtime, file)) := e in
    if bool_decide (mtimes s !! name = Some mtime) then None
    else match file with
         | Some f => if String.eqb (cf_name f) name then Some f else None
         | None => None
         end) iter in
  let removed := List.filter (fun name => bool_decide (dir s !! name = None)) (map fst (map_to_list (mtimes s))) in
  (changed, removed, {| jobs := jobs s; dir := dir s; mtimes := fst <$> dir s |}).

Definition hot_reload (iter : list (string * (Z * option CronJobFile))) (s : CronStore) : CronStore :=
  let '(changed, removed, s1) := scan_changes_sync iter s in
  let s2 := if decide (removed = []) then s1 else remove_by_names removed s1 in
  foldl (fun s f => upsert (into_job f (find_job (cf_name f) (jobs s))) s) s2 changed.

(** *** The tool and the endpoint *)

Definition tool_add (written : option Z) (input : Value) (s : CronStore) : result string string * CronStore :=
  match (name ← ok_or (as_str (index input "name")) "Missing 'name' for add";
         schedule ← ok_or (as_str (index input "schedule")) "Missing 'schedule' for add";
         prompt ← ok_or (as_str (index input "prompt")) "Missing 'prompt' for add";
         Ok (name, schedule, prompt)) with
  | Err e => (Err e, s)
  | Ok (name, schedule, prompt) =>
      let trigger := if decide (as_str (index input "trigger") = Some "once") then Once else Schedule in
      let '(r, s') := add written name schedule prompt (as_u64 (index input "cooldown_secs")) trigger s in
      (_ ← r; Ok ("Cron job '" +:+ name +:+ "' added: " +:+ schedule +:+
                  match trigger with Once => " (one-shot)" | Schedule => "" end), s')
  end.

Definition list_line (j : CronJob) : string :=
  "  " +:+ cj_name j +:+ " [" +:+ (if cj_enabled j then "on" else "off") +:+ "] " +:+ cj_schedule j +:+ ": " +:+
  cj_prompt j +:+ "  last_fired: " +:+ match last_fired_at j with Some t => pretty t | None => "never" end.

Definition cron_execute (written : option Z) (deleted : bool) (input : Value) (s : CronStore)
    : result string string * CronStore :=
  match as_str (index input "action") with
  | None => (Err "Missing 'action' parameter", s)
  | Some action =>
      if one_of action ["add"] then tool_add written input s
      else if one_of action ["list"] then
        (Ok (match jobs s with
             | [] => "No cron jobs configured."
             | js => "Cron jobs:" +:+ lf +:+ str_join lf (map list_line js)
             end), s)
      else if one_of action ["remove"] then
        match as_str (index input "name") with
        | None => (Err "Missing 'name' for remove", s)
        | Some name =>
            let '(r, s') := remove deleted name s in
            (_ ← r; Ok ("Removed cron job '" +:+ name +:+ "'"), s')
        end
      else if one_of action ["enable"; "disable"] then
        match as_str (index input "name") with
        | None => (Err "Missing 'name'", s)
        | Some name =>
            let enabled := String.eqb action "enable" in
            let '(r, s') := set_enabled written name enabled s in
            (_ ← r; Ok ("Cron job '" +:+ name +:+ "' " +:+ (if enabled then "enabled" else "disabled")), s')
        end
      else (Err ("Unknown action: " +:+ action +:+ ". Valid: add, list, remove, enable, disable"), s)
  end.

Record CronManageBody := {
  mb_action : string;
  mb_name : option string;
  mb_schedule : option string;
  mb_prompt : option string;
  mb_cooldown_secs : option Z;
  mb_trigger : option string
}.

Definition handle_cron_manage (written : option Z) (deleted : bool) (body : CronManageBody) (s : CronStore)
    : result string unit * CronStore :=
  let name := default "" (mb_name body) in
  if one_of (mb_action body) ["add"] then
    let schedule := default "" (mb_schedule body) in
    if is_empty_str name || is_empty_str schedule then (Err "name and schedule are required", s)
    else
      add written name schedule (default "" (mb_prompt body)) (mb_cooldown_secs body)
        (if decide (mb_trigger body = Some "once") then Once else Schedule) s
  else if one_of (mb_action body) ["remove"] then remove deleted name s
  else if one_of (mb_action body) ["update"] then
    if is_empty_str name then (Err "name is required", s)
    else update written name (mb_schedule body) (mb_prompt body) (mb_cooldown_secs body) s
  else if one_of (mb_action body) ["enable"; "disable"] then
    set_enabled written name (String.eqb (mb_action body) "enable") s
  else (Err ("Unknown action: " +:+ mb_action body), s).

End Store.

(** ** Jitter *)

Definition fnv1a_step (hash : Z) (byte : ascii) : Z :=
  wrap_u64 (Z.lxor hash (Z.of_nat (byte_val byte)) * 0x100000001b3).
Definition fnv1a_64 (name : string) : Z :=
  foldl fnv1a_step 0xcbf29ce484222325%Z (String.list_ascii_of_string name).

Definition jitter_frac (name : string) : spec_float := F64.div (F64.of_Z (fnv1a_64 name)) (F64.of_Z u64_max).

Definition RECURRING_CAP_MS : Z := 15 * 60 * 1000.
Definition ONESHOT_MAX_MS : Z := 90000.
Definition ONESHOT_MINUTE_MOD : Z := 30.

Definition recurring_jitter (name : string) (interval_ms : Z) : Z :=
  let raw := F64.mul (F64.mul (jitter_frac name) (F64.lit 1 10)) (F64.of_Z interval_ms) in
  Z.min (trunc_to u64_max raw) RECURRING_CAP_MS.

Definition oneshot_jitter (name : string) (target_minute : Z) : Z :=
  if negb (target_minute mod ONESHOT_MINUTE_MOD =? 0)%Z then 0
  else trunc_to u64_max (F64.mul (jitter_frac name) (F64.of_Z ONESHOT_MAX_MS)).

(** The product wraps as in a release build. *)
Definition within_minute_jitter_ms (job_name : string) (interval_secs : Z) : Z :=
  recurring_jitter job_name (wrap_u64 (interval_secs * 1000)).

(** ** The runner *)

Definition field_matches (field : string) (current : Z) : bool :=
  if String.eqb field "*" then true
  else
    match strip_prefix_str field "*/" with
    | Some rest =>
        match parse_unsigned u32_max rest with
        | Some step => (0 <? step)%Z && (current mod step =? 0)%Z
        | None => false
        end
    | None =>
        match parse_unsigned u32_max field with
        | Some v => (v =? current)%Z
        | None => false
        end
    end.

Definition components_of (t : LocalTime) : list Z := [minute t; hour t; day t; month t; weekday t].

(** [now] is the local time at the moment of the test. *)
Definition cron_matches (now : LocalTime) (expr : string) : bool :=
  let fields := split_whitespace expr in
  if negb (length fields =? 5)%nat then false
  else forallb (fun e => field_matches (fst e) (snd e)) (zip fields (components_of now)).

(** [now_ms] is the local wall clock, when it can be read. *)
Definition once_matches (parse_local : string -> result string (Z * Z)) (now_ms : option Z)
    (schedule job_name : string) : bool :=
  match parse_local schedule, now_ms with
  | Ok (target, target_minute), Some now => (target - oneshot_jitter job_name target_minute <=? now)%Z
  | _, _ => false
  end.

Definition estimate_cron_interval_secs (expr : string) : Z :=
  match split_whitespace expr with
  | [f0; f1; f2; _; _] =>
      match strip_prefix_str f0 "*/" ≫= parse_unsigned u64_max with
      | Some n => wrap_u64 (n * 60)
      | None =>
          match strip_prefix_str f1 "*/" ≫= parse_unsigned u64_max with
          | Some n => wrap_u64 (n * 3600)
          | None =>
              if String.eqb f0 "*" && String.eqb f1 "*" then 60
              else if String.eqb f1 "*" && negb (contains_str f0 "*") then 3600
              else if negb (contains_str f1 "*") && negb (contains_str f0 "*") && String.eqb f2 "*" then 86400
              else 3600
          end
      end
  | _ => 60
  end.

(** What the outside shows while one job is handled: the wall clock read by
    [record_fired], the local time its schedule is tested against, and what
    became of the writes of its file. *)
Record Reading := {
  r_unix : Z;
  r_local : LocalTime;
  r_local_ms : option Z;
  r_written : option Z;
  r_written_disabled : option Z
}.

Inductive RunnerEvent :=
| Slept (ms : Z)
| Spawned (name prompt : string).

Section Runner.
Context (parse_local : string -> result string (Z * Z)).

Definition is_once (j : CronJob) : bool := bool_decide (cj_trigger j = Once).

Definition matches_now (r : Reading) (j : CronJob) : bool :=
  if is_once j then once_matches parse_local (r_local_ms r) (cj_schedule j) (cj_name j)
  else cron_matches (r_local r) (cj_schedule j).

(** The 45-second deduplication and the cooldown; the difference is unsigned. *)
Definition too_soon (now_secs : Z) (j : CronJob) : bool :=
  match last_fired_at j with
  | Some l =>
      (wrap_u64 (now_secs - l) <? 45)%Z ||
      (negb (is_once j) && (wrap_u64 (now_secs - l) <? effective_cooldown j)%Z)
  | None => false
  end.

Definition jitter_sleep (j : CronJob) : list RunnerEvent :=
  if is_once j then []
  else
    let ms := within_minute_jitter_ms (cj_name j) (estimate_cron_interval_secs (cj_schedule j)) in
    if (0 <? ms)%Z then [Slept ms] else [].

Definition run_job (now_secs : Z) (j : CronJob) (r : Reading) (s : CronStore) : list RunnerEvent * CronStore :=
  if negb (matches_now r j) then ([], s)
  else if too_soon now_secs j then ([], s)
  else
    let s1 := record_fired (r_written r) (r_unix r) (cj_name j) s in
    let s2 := if is_once j then snd (set_enabled (r_written_disabled r) (cj_name j) false s1) else s1 in
    (jitter_sleep j ++ [Spawned (cj_name j) (cj_prompt j)], s2).

(** The loop over the snapshot of the enabled jobs. *)
Fixpoint run_jobs (now_secs : Z) (work : list (CronJob * Reading)) (s : CronStore)
    : list RunnerEvent * CronStore :=
  match work with
  | [] => ([], s)
  | (j, r) :: rest =>
      let '(ev, s1) := run_job now_secs j r s in
      let '(evs, s2) := run_jobs now_secs rest s1 in
      (ev ++ evs, s2)
  end.

(** One turn of the runner; [readings] gives what is seen at each job. *)
Definition tick (iter : list (string * (Z * option CronJobFile))) (now_secs : Z) (readings : nat -> Reading)
    (s : CronStore) : list RunnerEvent * CronStore :=
  let s1 := hot_reload iter s in
  run_jobs now_secs (imap (fun i j => (j, readings i)) (enabled_jobs s1)) s1.

(** The check at startup; [target_unix] is the timestamp of a local date and
    time under the present offset. *)
Definition detect_and_notify_missed (target_unix : string -> option Z) (written : string -> option Z)
    (now_secs : Z) (s : CronStore) : CronStore :=
  let missed := List.filter (fun j =>
    is_once j && match target_unix (cj_schedule j) with
                 | Some t => (wrap_u64 (wrap_u64 t + 120) <? now_secs)%Z
                 | None => false
                 end) (enabled_jobs s) in
  foldl (fun s j => snd (set_enabled (written (cj_name j)) (cj_name j) false s)) s missed.

End Runner.

(** * Proofs *)

(** ** Schedules *)

(** What a schedule says, apart from the code that checks it and tests it. *)
Inductive Field := AnyValue | Every (n : Z) | Exactly (v : Z).

(** How a field is written; [parse_unsigned] is the standard library's
    [u32::from_str]. *)
Inductive spelled : string -> Field -> Prop :=
| spell_any : spelled "*" AnyValue
| spell_every digits n : parse_unsigned u32_max digits = Some n -> spelled ("*/" +:+ digits) (Every n)
| spell_exactly digits v : parse_unsigned u32_max digits = Some v -> spelled digits (Exactly v).

Definition admits (f : Field) (current : Z) : Prop :=
  match f with AnyValue => True | Every n => (n | current)%Z | Exactly v => v = current end.

Definition allowed (bounds : Z * Z) (f : Field) : Prop :=
  match f with AnyValue => True | Every n => (0 < n)%Z | Exactly v => (fst bounds <= v <= snd bounds)%Z end.

(** Minute, hour, day of the month, month and day of the week (0 is Sunday). *)
Definition field_bounds : list (Z * Z) := [(0, 59); (0, 23); (1, 31); (1, 12); (0, 6)]%Z.

Definition next_weekday (w : Z) : Z := if (w =? 6)%Z then 0%Z else (w + 1)%Z.

(** The clock and the calendar [t] seconds after 1 January 1970, a Thursday. *)
Definition clock (t : Z) : list Z :=
  let days := Z.to_nat (t / 86400) in
  let '(_, m, d) := date_after days in
  [(t / 60) mod 60; (t / 3600) mod 24; d; m; Nat.iter days next_weekday 4]%Z.

Lemma weekday_iter n : Nat.iter n next_weekday 4%Z = ((4 + Z.of_nat n) mod 7)%Z.
Proof.
  induction n as [|n IH]; [done|]. rewrite Nat.iter_succ, IH. unfold next_weekday.
  destruct (Z.eqb_spec ((4 + Z.of_nat n) mod 7) 6); Z.to_euclidean_division_equations; lia.
Qed.

Lemma components_clock utc offset : (0 <= utc + offset < 2 ^ 64)%Z -> components_of (now_local_components utc offset) = clock (utc + offset).
Proof.
  intros Ht. destruct (local_components_calendar utc offset Ht) as ([y Hd] & Hw & Hh & Hm & s & Hs & Heq).
  unfold components_of, clock. rewrite Hd, weekday_iter, Hw, Z2Nat.id by (apply Z.div_pos; lia).
  set (t := (utc + offset)%Z) in *. set (lt := now_local_components utc offset) in *.
  assert (minute lt = (t / 60) mod 60 /\ hour lt = (t / 3600) mod 24)%Z as [-> ->] by (split; Z.to_euclidean_division_equations; lia).
  done.
Qed.

Lemma not_star_number digits n : parse_unsigned u32_max digits = Some n -> digits <> "*"%string /\ strip_prefix_str digits "*/" = None.
Proof.
  intros Hp. split; [by intros ->|]. destruct digits as [|ch digits]; [done|]. unfold strip_prefix_str. cbn [prefixb].
  destruct (Ascii.eqb_spec "*" ch) as [<-|]; [|done]. by vm_compute in Hp.
Qed.

(** Validation of a field accepts what is spelled within bounds. *)
Lemma validate_field_spec name b field : validate_field (name, b) field = Ok () <-> exists f, spelled field f /\ allowed b f.
Proof.
  destruct b as [lo hi]. unfold validate_field. split.
  - destruct (String.eqb_spec field "*") as [->|Hstar]; [intros _; exists AnyValue; by split; [constructor|]|].
    destruct (strip_prefix_str field "*/") as [rest|] eqn:Hs.
    + apply strip_prefix_some in Hs as ->. destruct (parse_unsigned u32_max rest) as [n|] eqn:Hp; [|done].
      destruct (Z.eqb_spec n 0); [done|]. intros _. exists (Every n). split; [by constructor|]. apply parse_unsigned_nonneg in Hp. cbn. lia.
    + destruct (parse_unsigned u32_max field) as [v|] eqn:Hp; [|done]. destruct (_ || _) eqn:Hr; [done|]. bool_to_prop.
      intros _. exists (Exactly v). split; [by constructor|]. cbn. lia.
  - intros (f & [|digits n Hp|digits v Hp] & Ha); [done| |]; cbn in Ha.
    + rewrite (proj2 (strip_prefix_some _ _ _) eq_refl), Hp. cbn. destruct (Z.eqb_spec n 0); [lia|done].
    + destruct (not_star_number _ _ Hp) as [H1%String.eqb_neq H2]. rewrite H1, H2, Hp.
      destruct (Z.ltb_spec v lo), (Z.ltb_spec hi v); cbn; (done || lia).
Qed.

Lemma field_matches_spec b field f current : spelled field f -> allowed b f -> field_matches field current = true <-> admits f current.
Proof.
  unfold field_matches. intros [|digits n Hp|digits v Hp] Ha; cbn in Ha; [done| |].
  - rewrite (proj2 (strip_prefix_some _ _ _) eq_refl), Hp. cbn. rewrite andb_true_iff, Z.ltb_lt, Z.eqb_eq, Z.mod_divide by lia. tauto.
  - destruct (not_star_number _ _ Hp) as [H1%String.eqb_neq H2]. rewrite H1, H2, Hp. cbn. by rewrite Z.eqb_eq.
Qed.

Lemma validate_fields_Forall2 es fields : length es = length fields ->
  validate_fields es fields = Ok () <-> Forall2 (fun e f => validate_field e f = Ok ()) es fields.
Proof.
  revert fields. induction es as [|e es IH]; intros [|f fields] Hl; try done; cbn [validate_fields].
  injection Hl as Hl. rewrite bind_Ok, Forall2_cons, <- (IH _ Hl). split.
  - intros ([] & ? & ?). done.
  - intros [? ?]. by exists ().
Qed.

Lemma fields_spelled (es : list (string * (Z * Z))) fields : Forall2 (fun e f => validate_field e f = Ok ()) es fields <->
  exists fs, Forall2 spelled fields fs /\ Forall2 allowed (map snd es) fs.
Proof.
  split.
  - induction 1 as [|[name b] field es fields Hv _ (fs & H1 & H2)]; [by exists []|]. apply validate_field_spec in Hv as (f & ? & ?).
    exists (f :: fs). split; by constructor.
  - intros (fs & H1 & H2). revert es H2. induction H1 as [|field f fields fs Hf _ IH]; intros [|[name b] es] H2; inversion H2; subst; constructor; auto.
    apply validate_field_spec. by exists f.
Qed.

Lemma fields_match fields fs bounds cs : Forall2 spelled fields fs -> Forall2 allowed bounds fs -> length cs = length fs ->
  forallb (fun e => field_matches (fst e) (snd e)) (zip fields cs) = true <-> Forall2 admits fs cs.
Proof.
  intros H1. revert bounds cs. induction H1 as [|field f fields fs Hf _ IH]; intros bounds cs H2 Hl; destruct cs as [|c cs]; try done.
  inversion H2 as [|b ? bs ? Ha Hb]; subst. cbn. rewrite andb_true_iff, Forall2_cons, (field_matches_spec b field f c Hf Ha), (IH bs cs); [done..|].
  by injection Hl.
Qed.

(** [C31] A schedule is accepted exactly when its five fields, separated by
    blanks, are each a star, a star with a positive step, or a number within the
    bounds of the minute, the hour, the day, the month or the weekday; and an
    accepted schedule fires at a moment exactly when every field admits what the
    clock and the calendar show then, with the calendar stepped day by day from
    Thursday 1 January 1970: any value, the multiples of the step, or the number.
    The moment counts from 1970 on, offset included. *)
Theorem cron_matches_spec expr utc_ts offset_secs (Hpos : (0 <= utc_ts + offset_secs < 2 ^ 64)%Z) :
  (validate_cron_schedule expr = Ok () <->
   exists fs, Forall2 spelled (split_whitespace expr) fs /\ Forall2 allowed field_bounds fs) /\
  forall fs, Forall2 spelled (split_whitespace expr) fs -> Forall2 allowed field_bounds fs ->
    (cron_matches (now_local_components utc_ts offset_secs) expr = true <-> Forall2 admits fs (clock (utc_ts + offset_secs))).
Proof.
  unfold validate_cron_schedule, cron_matches. rewrite components_clock by done. set (fields := split_whitespace expr). split.
  - destruct (Nat.eqb_spec (length fields) 5) as [Hl|Hl]; cbn [negb].
    + rewrite validate_fields_Forall2, fields_spelled by done. done.
    + split; [done|]. intros (fs & H1%Forall2_length & H2%Forall2_length). cbn in H2. lia.
  - intros fs H1 H2. pose proof (Forall2_length _ _ _ H1) as Hl1. pose proof (Forall2_length _ _ _ H2) as Hl2. cbn in Hl2.
    rewrite <- Hl2 in Hl1. rewrite Hl1. cbn [negb Nat.eqb]. apply (fields_match _ _ field_bounds); [done..|].
    rewrite <- Hl2. unfold clock. by destruct (date_after _) as [[y m] d].
Qed.

Lemma cron_matches_spec_witness :
  validate_cron_schedule "*/15 9 * * 2" = Ok () /\ Forall2 admits [Every 15; Exactly 9; AnyValue; AnyValue; Exactly 2] (clock 1711445400).
Proof.
  destruct (cron_matches_spec "*/15 9 * * 2" 1711441800 3600 ltac:(lia)) as [Hv Hm].
  assert (Hs : Forall2 spelled (split_whitespace "*/15 9 * * 2") [Every 15; Exactly 9; AnyValue; AnyValue; Exactly 2]).
  { change (split_whitespace "*/15 9 * * 2") with ["*/" +:+ "15"; "9"; "*"; "*"; "2"]%string. repeat constructor; by vm_compute. }
  assert (Ha : Forall2 allowed field_bounds [Every 15; Exactly 9; AnyValue; AnyValue; Exactly 2]) by (repeat constructor; cbn; lia).
  split; [apply Hv; by eexists|]. apply (Hm _ Hs Ha). by vm_compute.
Defined.

(** ** The store *)

Definition names (s : CronStore) : list string := cj_name <$> jobs s.

Definition keeps_name (f : CronJob -> CronJob) : Prop := forall j, cj_name (f j) = cj_name j.

Lemma update_named_names name f js : keeps_name f -> cj_name <$> update_named name f js = cj_name <$> js.
Proof.
  intros Hf. induction js as [|j js IH]; cbn; [done|].
  destruct (String.eqb _ _); cbn; [by rewrite Hf|by rewrite IH].
Qed.

Lemma find_update_named n name f js : keeps_name f ->
  find_job n (update_named name f js) = if decide (n = name) then f <$> find_job n js else find_job n js.
Proof.
  intros Hf. unfold find_job. induction js as [|j js IH]; cbn; [by destruct (decide _)|].
  destruct (String.eqb_spec (cj_name j) name) as [Hj|Hj]; cbn.
  - rewrite Hf, Hj. destruct (decide (n = name)) as [->|Hne]; [by rewrite String.eqb_refl|].
    by rewrite (proj2 (String.eqb_neq name n)).
  - destruct (String.eqb_spec (cj_name j) n) as [Hn|Hn]; [|done].
    rewrite decide_False by congruence. done.
Qed.

Lemma persist_jobs w f s : jobs (persist_one w f s) = jobs s.
Proof. by destruct w. Qed.

Lemma modify_jobs w name f s : jobs (modify w name f s) = update_named name f (jobs s).
Proof. unfold modify. destruct (find_job _ _); by rewrite ?persist_jobs. Qed.

Lemma modify_names w name f s : keeps_name f -> names (modify w name f s) = names s.
Proof. intros Hf. unfold names. rewrite modify_jobs. by apply update_named_names. Qed.

Lemma retain_sublist p s : names (retain p s) `sublist_of` names s.
Proof.
  unfold names, retain, with_jobs. cbn. induction (jobs s) as [|j js IH]; cbn; [done|].
  destruct (p j); cbn; by constructor.
Qed.

Lemma NoDup_names_filter p s : NoDup (names s) -> NoDup (names (retain p s)).
Proof. intros H. eapply sublist_NoDup; [done|apply retain_sublist]. Qed.

Lemma names_retain_not name s : name ∉ names (retain (fun j => negb (String.eqb (cj_name j) name)) s).
Proof.
  unfold names, retain, with_jobs. cbn. intros (j & -> & Hin)%list_elem_of_fmap.
  apply list_elem_of_In, List.filter_In in Hin as [_ H]. by rewrite String.eqb_refl in H.
Qed.

Definition valid_name (n : string) : Prop := validate_cron_name n = Ok ().

(** The store as its own operations leave it. *)
Record store_wf (s : CronStore) : Prop := {
  wf_names : NoDup (names s);
  wf_bound : (length (jobs s) <= MAX_JOBS)%nat;
  wf_valid : Forall valid_name (names s)
}.

Lemma store_wf_jobs s s' : jobs s' = jobs s -> store_wf s -> store_wf s'.
Proof. intros He [H1 H2 H3]. split; unfold names in *; by rewrite He. Qed.

Lemma update_named_wf name f s : keeps_name f -> store_wf s -> store_wf (with_jobs (update_named name f (jobs s)) s).
Proof.
  intros Hf [Hn Hb Hv].
  assert (He : names (with_jobs (update_named name f (jobs s)) s) = names s) by by apply update_named_names.
  split; [by rewrite He| |by rewrite He].
  rewrite <- (length_fmap cj_name). fold (names (with_jobs (update_named name f (jobs s)) s)). rewrite He.
  unfold names. by rewrite length_fmap.
Qed.

Lemma modify_wf w name f s : keeps_name f -> store_wf s -> store_wf (modify w name f s).
Proof. intros Hf Hwf. eapply store_wf_jobs; [|by apply update_named_wf]. apply modify_jobs. Qed.

Lemma remove_file_jobs d name s : jobs (remove_file d name s) = jobs s.
Proof. done. Qed.

Lemma retain_wf p s : store_wf s -> store_wf (retain p s).
Proof.
  intros [Hn Hb Hv]. split.
  - by apply NoDup_names_filter.
  - cbn. etransitivity; [apply List.filter_length_le|done].
  - rewrite Forall_forall in *. intros n Hin. apply Hv.
    eapply elem_of_submseteq; [exact Hin|]. apply sublist_submseteq, retain_sublist.
Qed.

Lemma add_wf pl w name sch p c t s : store_wf s -> store_wf (snd (add pl w name sch p c t s)).
Proof.
  intros Hwf. unfold add. destruct (_ ≫= _) as [[]|e] eqn:Hv; [|done].
  destruct (Nat.leb_spec MAX_JOBS (length (jobs s))) as [|Hlt]; [done|]. cbn [snd].
  apply bind_Ok in Hv as ([] & Hname & _).
  set (s1 := retain _ s). pose proof (retain_wf (fun j => negb (String.eqb (cj_name j) name)) s Hwf) as [H1 H2 H3].
  pose proof (names_retain_not name s) as Hnot. fold s1 in H1, H2, H3, Hnot.
  assert (Hlen : (length (jobs s1) <= length (jobs s))%nat) by apply List.filter_length_le.
  eapply store_wf_jobs; [apply persist_jobs|]. split; unfold names in *; cbn [with_jobs jobs].
  - rewrite fmap_app. apply NoDup_app. split; [done|]. split; [|by apply NoDup_singleton].
    intros x Hx ->%list_elem_of_singleton. done.
  - rewrite length_app. cbn [length]. lia.
  - rewrite fmap_app. apply Forall_app. split; [done|]. by repeat constructor.
Qed.

Lemma remove_wf d name s : store_wf s -> store_wf (snd (remove d name s)).
Proof. intros Hwf. unfold remove. destruct (_ <=? _)%nat; cbn; [by apply retain_wf|]. by eapply store_wf_jobs; [apply remove_file_jobs|apply retain_wf]. Qed.

Lemma put_enabled_name b : keeps_name (put_enabled b). Proof. done. Qed.
Lemma put_fired_name t : keeps_name (put_fired t). Proof. done. Qed.
Lemma put_response_name t : keeps_name (put_response t). Proof. done. Qed.
#[export] Hint Resolve put_enabled_name put_fired_name put_response_name : cron.

Lemma set_enabled_wf w name b s : store_wf s -> store_wf (snd (set_enabled w name b s)).
Proof. intros Hwf. unfold set_enabled. destruct (find_job _ _); cbn; [by apply modify_wf|done]. Qed.

Lemma update_wf w name sch p c s : store_wf s -> store_wf (snd (update w name sch p c s)).
Proof.
  intros Hwf. unfold update. destruct (find_job _ _); [|done]. destruct (match sch with Some _ => _ | None => _ end); [|done].
  by apply modify_wf.
Qed.

(** What the tool, the endpoint and the runner's own bookkeeping do. *)
Inductive store_step (pl : string -> result string (Z * Z)) : CronStore -> CronStore -> Prop :=
| step_tool w d input s : store_step pl s (snd (cron_execute pl w d input s))
| step_manage w d body s : store_step pl s (snd (handle_cron_manage pl w d body s))
| step_fired w now name s : store_step pl s (record_fired w now name s)
| step_response name r s : store_step pl s (set_last_response name r s)
| step_run now work s : store_step pl s (snd (run_jobs pl now work s)).

Lemma cron_execute_wf pl w d input s : store_wf s -> store_wf (snd (cron_execute pl w d input s)).
Proof.
  intros Hwf. unfold cron_execute. destruct (as_str (index input "action")) as [a|]; [|done].
  destruct (one_of a ["add"]).
  { unfold tool_add. destruct (_ ≫= _) as [[[name sch] p]|]; [|done].
    pose proof (add_wf pl w name sch p (as_u64 (index input "cooldown_secs"))
      (if decide (as_str (index input "trigger") = Some "once"%string) then Once else Schedule) s Hwf) as Ha.
    by destruct (add _ _ _ _ _ _ _ _). }
  destruct (one_of a ["list"]); [done|].
  destruct (one_of a ["remove"]).
  { destruct (as_str _) as [name|]; [|done]. pose proof (remove_wf d name s Hwf). by destruct (remove _ _ _). }
  destruct (one_of a ["enable"; "disable"]); [|done].
  destruct (as_str _) as [name|]; [|done].
  pose proof (set_enabled_wf w name (String.eqb a "enable") s Hwf). by destruct (set_enabled _ _ _ _).
Qed.

Lemma handle_cron_manage_wf pl w d body s : store_wf s -> store_wf (snd (handle_cron_manage pl w d body s)).
Proof.
  intros Hwf. unfold handle_cron_manage.
  repeat match goal with |- context [if ?b then _ else _] => lazymatch type of b with bool => destruct b end end;
    try done; auto using add_wf, remove_wf, update_wf, set_enabled_wf.
Qed.

Lemma run_job_wf pl now j r s : store_wf s -> store_wf (snd (run_job pl now j r s)).
Proof.
  intros Hwf. unfold run_job. destruct (negb _); [done|]. destruct (too_soon _ _); [done|]. cbn [snd].
  assert (store_wf (record_fired (r_written r) (r_unix r) (cj_name j) s)) by by apply modify_wf.
  destruct (is_once j); [by apply set_enabled_wf|done].
Qed.

Lemma run_jobs_wf pl now work s : store_wf s -> store_wf (snd (run_jobs pl now work s)).
Proof.
  revert s. induction work as [|[j r] work IH]; intros s Hwf; [done|]. cbn [run_jobs].
  pose proof (run_job_wf pl now j r s Hwf) as H1. destruct (run_job _ _ _ _ _) as [ev s1]. cbn in H1.
  specialize (IH s1 H1). by destruct (run_jobs _ _ _ _).
Qed.

Definition empty_store : CronStore := {| jobs := []; dir := ∅; mtimes := ∅ |}.

(** The job store: whatever calls of the tool, of the endpoint and of the
    runner happen, in whatever order and whether or not the files could be
    written, the store never holds two jobs of one name, never more than a
    hundred, and every name is one that passed validation, so that no job file
    is ever written outside the job directory. *)
Theorem cron_store_invariant pl s (Hreach : rtc (store_step pl) empty_store s) :
  NoDup (names s) /\ (length (jobs s) <= 100)%nat /\
  forall j, j ∈ jobs s -> cj_name j <> ""%string /\
    (forall a b, cj_name j <> a +:+ "/" +:+ b) /\ (forall a b, cj_name j <> a +:+ ".." +:+ b).
Proof.
  assert (Hwf : store_wf s).
  { assert (H0 : store_wf empty_store) by (split; [constructor|cbn; unfold MAX_JOBS; lia|constructor]).
    revert H0. induction Hreach as [|x y z Hxy _ IH]; [done|]. intros Hx. apply IH. destruct Hxy.
    - by apply cron_execute_wf.
    - by apply handle_cron_manage_wf.
    - by apply modify_wf.
    - by apply update_named_wf.
    - by apply run_jobs_wf. }
  destruct Hwf as [Hn Hb Hv]. split; [done|]. split; [exact Hb|]. intros j Hj.
  assert (Hname : valid_name (cj_name j)).
  { rewrite Forall_forall in Hv. apply Hv. by apply list_elem_of_fmap_2. }
  unfold valid_name, validate_cron_name in Hname.
  destruct (is_empty_str (cj_name j)) eqn:He; [done|]. destruct (_ || _) eqn:Hc; [done|].
  apply orb_false_iff in Hc as [[Hc _]%orb_false_iff Hd].
  split; [by intros E; rewrite E in He|].
  split; intros a b E; [rewrite (proj2 (contains_str_spec _ "/")) in Hc by eauto|
                        rewrite (proj2 (contains_str_spec _ "..")) in Hd by eauto]; done.
Qed.

Definition add_input (name sch : string) : Value :=
  Obj [("action", Str "add"); ("name", Str name); ("prompt", Str "p"); ("schedule", Str sch)].

Definition no_dates : string -> result string (Z * Z) := fun _ => Err "invalid".

Definition two_jobs : CronStore :=
  snd (cron_execute no_dates (Some 6%Z) true (add_input "b" "0 9 * * 1")
    (snd (cron_execute no_dates (Some 5%Z) true (add_input "a" "* * * * *") empty_store))).

Lemma cron_store_invariant_witness :
  names two_jobs = ["a"; "b"]%string /\ NoDup (names two_jobs) /\ (length (jobs two_jobs) <= 100)%nat.
Proof.
  split; [by vm_compute|].
  destruct (cron_store_invariant no_dates two_jobs) as (H1 & H2 & _); [|done].
  eapply rtc_l; [apply (step_tool _ (Some 5%Z) true (add_input "a" "* * * * *"))|].
  eapply rtc_l; [apply (step_tool _ (Some 6%Z) true (add_input "b" "0 9 * * 1"))|]. apply rtc_refl.
Defined.

(** An update of a one-shot job is checked as a recurring schedule: the date it
    has is refused, and a cron expression, which can never fire, is accepted. *)
Definition any_date : string -> result string (Z * Z) :=
  fun s => if String.eqb s "2026-05-31T21:14:00" then Ok (1780262040000, 14)%Z else Err "invalid".

Definition once_job : CronStore :=
  snd (add any_date None "o" "2026-05-31T21:14:00" "p" None Once empty_store).

Example once_update_is_checked_as_schedule :
  is_ok (fst (update None "o" (Some "2026-05-31T21:14:00"%string) None None once_job)) = false /\
  fst (update None "o" (Some "* * * * *"%string) None None once_job) = Ok () /\
  once_matches any_date (Some 1780262040000%Z) "* * * * *" "o" = false.
Proof. by vm_compute. Qed.

(** A full store refuses to replace a job it already has. *)
Definition full_store : CronStore :=
  {| jobs := map (fun i => into_job {| cf_name := pretty (i : nat); cf_schedule := "* * * * *"; cf_prompt := "";
                                       cf_enabled := true; cf_cooldown_secs := None; cf_trigger := Schedule;
                                       cf_last_fired_at := None |} None) (seq 0 100);
     dir := ∅; mtimes := ∅ |}.

Example full_store_refuses_replacement :
  fst (add no_dates None "7" "* * * * *" "new" None Schedule full_store) = Err "Max 100 cron jobs reached"%string.
Proof. by vm_compute. Qed.

(** ** The runner *)

Section RunnerProofs.
Context (pl : string -> result string (Z * Z)).

Definition fires (now : Z) (j : CronJob) (r : Reading) : bool := matches_now pl r j && negb (too_soon now j).

Definition after_fire (j : CronJob) (r : Reading) (x : CronJob) : CronJob :=
  let x := put_fired (r_unix r) x in if is_once j then put_enabled false x else x.

Lemma find_modify n w name f s : keeps_name f ->
  find_job n (jobs (modify w name f s)) = if decide (n = name) then f <$> find_job n (jobs s) else find_job n (jobs s).
Proof. intros Hf. rewrite modify_jobs. by apply find_update_named. Qed.

Lemma set_enabled_find n w name b s :
  find_job n (jobs (snd (set_enabled w name b s))) =
  if decide (n = name) then put_enabled b <$> find_job n (jobs s) else find_job n (jobs s).
Proof.
  unfold set_enabled. destruct (find_job name (jobs s)) as [j|] eqn:Hf; cbn [snd].
  - by rewrite find_modify.
  - destruct (decide (n = name)) as [->|]; [by rewrite Hf|done].
Qed.

Lemma run_job_spec now j r s n :
  fst (run_job pl now j r s) =
    (if fires now j r then jitter_sleep j ++ [Spawned (cj_name j) (cj_prompt j)] else []) /\
  find_job n (jobs (snd (run_job pl now j r s))) =
    if fires now j r && bool_decide (n = cj_name j) then after_fire j r <$> find_job n (jobs s) else find_job n (jobs s).
Proof.
  unfold run_job, fires. destruct (matches_now pl r j); [|done]. destruct (too_soon now j); [done|]. cbn [negb andb].
  split; [done|]. cbn [snd]. unfold after_fire. destruct (is_once j).
  - rewrite set_enabled_find. unfold record_fired. rewrite find_modify by done.
    case_bool_decide; [rewrite !decide_True by done; by destruct (find_job n (jobs s))|by rewrite !decide_False].
  - unfold record_fired. rewrite find_modify by done.
    case_bool_decide; [by rewrite decide_True|by rewrite decide_False].
Qed.

Lemma spawned_jitter n p j : Spawned n p ∉ jitter_sleep j.
Proof. unfold jitter_sleep. destruct (is_once j); [set_solver|]. destruct (0 <? _)%Z; set_solver. Qed.

Lemma run_jobs_find_other now work s n : n ∉ (cj_name ∘ fst) <$> work ->
  find_job n (jobs (snd (run_jobs pl now work s))) = find_job n (jobs s).
Proof.
  revert s. induction work as [|[j r] work IH]; intros s Hn; [done|]. cbn [run_jobs].
  destruct (run_job_spec now j r s n) as [_ Hf]. destruct (run_job pl now j r s) as [ev s1]. cbn in Hf.
  rewrite fmap_cons, not_elem_of_cons in Hn. destruct Hn as [Hne Hn]. cbn in Hne.
  specialize (IH s1 Hn). destruct (run_jobs pl now work s1) as [evs s2]. cbn in *. rewrite IH, Hf.
  by rewrite bool_decide_eq_false_2, andb_false_r.
Qed.

(** The events and the final store, job by job. *)
Lemma run_jobs_spec now work s : NoDup ((cj_name ∘ fst) <$> work) ->
  let '(evs, s') := run_jobs pl now work s in
  (forall n p, Spawned n p ∈ evs <-> exists j r, (j, r) ∈ work /\ fires now j r = true /\ n = cj_name j /\ p = cj_prompt j) /\
  forall j r, (j, r) ∈ work ->
    find_job (cj_name j) (jobs s') =
      if fires now j r then after_fire j r <$> find_job (cj_name j) (jobs s) else find_job (cj_name j) (jobs s).
Proof.
  revert s. induction work as [|[j r] work IH]; intros s Hnd.
  { cbn. split; [|set_solver]. intros n p. split; [set_solver|]. by intros (? & ? & ?%elem_of_nil & _). }
  rewrite fmap_cons, NoDup_cons in Hnd. destruct Hnd as [Hnot Hnd]. cbn in Hnot. cbn [run_jobs].
  pose proof (fun n => run_job_spec now j r s n) as Hrun. destruct (run_job pl now j r s) as [ev s1]. cbn in Hrun.
  pose proof (run_jobs_find_other now work s1 _ Hnot) as Hother. specialize (IH s1 Hnd).
  destruct (run_jobs pl now work s1) as [evs s2]. cbn in Hother. destruct IH as [IHe IHf]. split.
  - intros n p. destruct (Hrun n) as [-> _]. rewrite elem_of_app, IHe. split.
    + intros [Hin|(j' & r' & Hin & ?)]; [|exists j', r'; set_solver].
      destruct (fires now j r) eqn:Hf; [|set_solver]. apply elem_of_app in Hin as [Hin|Hin]; [by apply spawned_jitter in Hin|].
      apply list_elem_of_singleton in Hin as [= -> ->]. exists j, r. split; [by left|done].
    + intros (j' & r' & [[= -> ->]|Hin]%elem_of_cons & Hf & -> & ->).
      * left. rewrite Hf. apply elem_of_app. right. by left.
      * right. eauto 10.
  - intros j' r' [[= -> ->]|Hin]%elem_of_cons.
    + rewrite Hother. destruct (Hrun (cj_name j)) as [_ ->]. rewrite bool_decide_eq_true_2, andb_true_r by done. done.
    + rewrite (IHf j' r' Hin). destruct (Hrun (cj_name j')) as [_ ->].
      rewrite bool_decide_eq_false_2; [by rewrite andb_false_r|]. intros He. apply Hnot. rewrite <- He.
      by apply (list_elem_of_fmap_2 (cj_name ∘ fst) work (j', r')).
Qed.

Lemma find_job_elem j js : NoDup (cj_name <$> js) -> j ∈ js -> find_job (cj_name j) js = Some j.
Proof.
  unfold find_job. induction js as [|x js IH]; intros Hnd Hin; [set_solver|].
  rewrite fmap_cons, NoDup_cons in Hnd. destruct Hnd as [Hnot Hnd]. cbn.
  apply elem_of_cons in Hin as [->|Hin]; [by rewrite String.eqb_refl|].
  rewrite (proj2 (String.eqb_neq _ _)); [by apply IH|]. intros He. apply Hnot. rewrite He. by apply list_elem_of_fmap_2.
Qed.

Lemma gap_respected now j l : too_soon now j = false -> last_fired_at j = Some l -> (0 <= l <= now)%Z ->
  (now < 2 ^ 64)%Z -> (45 <= now - l)%Z /\ (cj_trigger j = Schedule -> (effective_cooldown j <= now - l)%Z).
Proof.
  unfold too_soon, wrap_u64. intros Hts Hl Hb Hn. rewrite Hl, Z.mod_small in Hts by lia.
  apply orb_false_iff in Hts as [H1%Z.ltb_ge H2]. split; [lia|].
  intros Ht. unfold is_once in H2. rewrite Ht in H2. cbn in H2. by apply Z.ltb_ge in H2.
Qed.

Lemma snapshot_names readings s :
  (cj_name ∘ fst) <$> imap (fun i j => (j, readings i : Reading)) (enabled_jobs s) = names (retain cj_enabled s).
Proof.
  unfold names, retain, with_jobs, enabled_jobs. cbn [jobs]. generalize (List.filter cj_enabled (jobs s)) as l. revert readings.
  intros readings l. revert readings. induction l as [|j l IH]; intros readings; [done|]. cbn. f_equal.
  apply (IH (readings ∘ S)).
Qed.

(** One turn of the runner, over the jobs as they stand after the reload.
    A job is spawned exactly when it is enabled, its schedule matches at the
    moment it is looked at, and neither the deduplication nor its cooldown
    holds it back: with a past last firing that means at least 45 seconds and,
    for a recurring job, at least its cooldown have passed.  What was spawned is
    recorded as fired, a one-shot job is disabled with it, so the next turn
    cannot spawn it again; and every other job is left as it was. *)
Theorem runner_turn_spec now readings s (Hnd : NoDup (names s)) :
  let '(evs, s') := run_jobs pl now (imap (fun i j => (j, readings i)) (enabled_jobs s)) s in
  forall j, j ∈ jobs s -> exists r,
    (Spawned (cj_name j) (cj_prompt j) ∈ evs <-> cj_enabled j = true /\ matches_now pl r j = true /\ too_soon now j = false) /\
    (Spawned (cj_name j) (cj_prompt j) ∈ evs -> forall l, last_fired_at j = Some l -> (0 <= l <= now)%Z -> (now < 2 ^ 64)%Z ->
       (45 <= now - l)%Z /\ (cj_trigger j = Schedule -> (effective_cooldown j <= now - l)%Z)) /\
    find_job (cj_name j) (jobs s') =
      Some (if cj_enabled j && fires now j r then after_fire j r j else j).
Proof.
  set (work := imap _ _).
  assert (Hw : NoDup ((cj_name ∘ fst) <$> work)) by (unfold work; rewrite snapshot_names; by apply NoDup_names_filter).
  pose proof (run_jobs_spec now work s Hw) as Hspec. pose proof (fun n => run_jobs_find_other now work s n) as Hother.
  destruct (run_jobs pl now work s) as [evs s']. destruct Hspec as [He Hf]. cbn in Hother. intros j Hj.
  pose proof (find_job_elem j (jobs s) Hnd Hj) as Hfind.
  assert (Hin_work : forall j' r', (j', r') ∈ work -> j' ∈ enabled_jobs s).
  { intros j' r' (i & x & [= -> ->] & Hl)%elem_of_lookup_imap_1. by eapply list_elem_of_lookup_2. }
  destruct (cj_enabled j) eqn:Hen.
  - assert (Hin : j ∈ enabled_jobs s) by (apply list_elem_of_In, List.filter_In; split; [by apply list_elem_of_In|done]).
    apply list_elem_of_lookup in Hin as [i Hi]. exists (readings i).
    assert (Hwork : (j, readings i) ∈ work).
    { apply (list_elem_of_lookup_2 _ i). unfold work. by rewrite list_lookup_imap, Hi. }
    assert (Hsp : Spawned (cj_name j) (cj_prompt j) ∈ evs <-> fires now j (readings i) = true).
    { rewrite He. split; [|by eauto 10]. intros (j' & r' & Hin & Hfire & Hn & _).
      assert (j' = j /\ r' = readings i) as [-> ->]; [|done].
      apply list_elem_of_lookup in Hwork as [a Ha], Hin as [b Hb].
      assert (a = b) as ->; [|rewrite Ha in Hb; by injection Hb].
      eapply NoDup_lookup; [exact Hw|..]; rewrite list_lookup_fmap; [rewrite Ha|rewrite Hb]; cbn; [done|by rewrite Hn]. }
    split; [rewrite Hsp; unfold fires; rewrite andb_true_iff, negb_true_iff; tauto|]. split.
    + rewrite Hsp. unfold fires. intros [_ Hts%negb_true_iff]%andb_true_iff l Hl Hb Hn. exact (gap_respected now j l Hts Hl Hb Hn).
    + rewrite (Hf _ _ Hwork), Hfind. cbn [andb]. by destruct (fires _ _ _).
  - exists (readings 0%nat).
    assert (Hno : Spawned (cj_name j) (cj_prompt j) ∉ evs).
    { rewrite He. intros (j' & r' & Hin%Hin_work & _ & Hn & _).
      apply list_elem_of_In, List.filter_In in Hin as [Hin Hen']. apply list_elem_of_In in Hin.
      pose proof (find_job_elem j' (jobs s) Hnd Hin) as Hf'. rewrite <- Hn, Hfind in Hf'. congruence. }
    split; [by split; [|intros [? _]]|]. split; [done|]. cbn [andb]. rewrite Hother; [done|].
    unfold work. rewrite snapshot_names. intros (x & Hx & Hin)%list_elem_of_fmap.
    apply list_elem_of_In, List.filter_In in Hin as [Hin Hen']. apply list_elem_of_In in Hin.
    pose proof (find_job_elem x (jobs s) Hnd Hin) as Hf'. rewrite <- Hx, Hfind in Hf'. congruence.
Qed.

End RunnerProofs.

(** Nine o'clock on a Monday, seen at every job. *)
Definition monday_nine (unix : Z) : Reading :=
  {| r_unix := unix; r_local := {| minute := 0; hour := 9; day := 4; month := 5; weekday := 1 |};
     r_local_ms := None; r_written := None; r_written_disabled := None |}.

Definition job_b : CronJob :=
  {| cj_name := "b"; cj_schedule := "0 9 * * 1"; cj_prompt := "p"; cj_enabled := true; last_fired_at := None;
     last_response := None; cooldown_secs := None; cj_trigger := Schedule |}.

Lemma two_jobs_names : NoDup (names two_jobs).
Proof. vm_compute. repeat constructor; set_solver. Qed.

Lemma runner_turn_spec_witness : exists r,
  (Spawned "b" "p" ∈ fst (run_jobs no_dates 1000 (imap (fun i j => (j, monday_nine 1000)) (enabled_jobs two_jobs)) two_jobs) <->
   true = true /\ matches_now no_dates r job_b = true /\ too_soon 1000 job_b = false).
Proof.
  assert (Hin : job_b ∈ jobs two_jobs) by (apply list_elem_of_In; vm_compute; tauto).
  pose proof (runner_turn_spec no_dates 1000 (fun _ => monday_nine 1000) two_jobs two_jobs_names) as Hspec.
  destruct (run_jobs _ _ _ _) as [evs s']. destruct (Hspec job_b Hin) as (r & Hiff & _). exists r. exact Hiff.
Defined.

Example monday_run :
  Spawned "b" "p" ∈ fst (run_jobs no_dates 1000 (imap (fun i j => (j, monday_nine 1000)) (enabled_jobs two_jobs)) two_jobs).
Proof. apply list_elem_of_In. vm_compute. tauto. Qed.

(** ** Hot reload *)

(** The cache agrees with the directory. *)
Definition cache_synced (s : CronStore) : Prop := mtimes s = fst <$> dir s.

Lemma omap_nil {A B} (f : A -> option B) l : (forall x, x ∈ l -> f x = None) -> omap f l = [].
Proof.
  induction l as [|x l IH]; intros H; [done|]. cbn. rewrite (H x) by set_solver. apply IH. set_solver.
Qed.

(** Hot reload and the store's own writes.  A reload leaves the cache in
    step with the directory; while it is, a reload finds nothing and changes
    nothing; and the store's own writes and deletions keep it in step, so a job
    written by the tool is never read back as an outside change. *)
Theorem own_writes_not_reloaded iter s (Hiter : iter ≡ₚ map_to_list (dir s)) :
  cache_synced (snd (scan_changes_sync iter s)) /\
  (cache_synced s -> scan_changes_sync iter s = ([], [], s) /\ hot_reload iter s = s) /\
  (cache_synced s -> forall w f name, cache_synced (persist_one w f s) /\ cache_synced (remove_file true name s)).
Proof.
  split; [done|].
  assert (Hscan : cache_synced s -> scan_changes_sync iter s = ([], [], s)).
  { intros Hc. unfold scan_changes_sync. rewrite omap_nil.
    - f_equal; [f_equal|].
      + destruct (List.filter _ _) as [|n l] eqn:Hf; [done|]. exfalso.
        assert (Hin : List.In n (n :: l)) by by left. rewrite <- Hf in Hin.
        apply List.filter_In in Hin as [Hin Hd]. bool_to_prop.
        apply List.in_map_iff in Hin as ([n' t] & <- & Hin%list_elem_of_In%elem_of_map_to_list). cbn in Hd.
        rewrite Hc, lookup_fmap, Hd in Hin. done.
      + unfold cache_synced in Hc. destruct s as [js d m]. cbn in *. by rewrite Hc.
    - intros [n [t f]] Hin. rewrite Hiter in Hin. apply elem_of_map_to_list in Hin.
      rewrite bool_decide_eq_true_2; [done|]. by rewrite Hc, lookup_fmap, Hin. }
  split; [intros Hc; split; [by apply Hscan|]; unfold hot_reload; by rewrite Hscan|].
  intros Hc w f name. unfold cache_synced in *. split.
  - destruct w as [t|]; [|done]. cbn. by rewrite Hc, fmap_insert.
  - cbn. by rewrite Hc, fmap_delete.
Qed.

Lemma own_writes_not_reloaded_witness :
  hot_reload (map_to_list (dir two_jobs)) two_jobs = two_jobs /\ cache_synced two_jobs.
Proof.
  destruct (own_writes_not_reloaded (map_to_list (dir two_jobs)) two_jobs) as (_ & H & _); [done|].
  assert (Hc : cache_synced two_jobs) by (unfold cache_synced; by vm_compute).
  split; [by apply H|done].
Defined.

(** The "later of disk and memory" that [into_job] computes is not what a reload
    keeps: [upsert] leaves the memory's value. *)
Example reload_ignores_disk_history :
  let disk := {| cf_name := "a"; cf_schedule := "* * * * *"; cf_prompt := "p"; cf_enabled := true;
                 cf_cooldown_secs := None; cf_trigger := Schedule; cf_last_fired_at := Some 99%Z |} in
  let job := into_job disk (find_job "a" (jobs two_jobs)) in
  last_fired_at job = Some 99%Z /\
  (last_fired_at <$> find_job "a" (jobs (upsert job two_jobs))) = Some None.
Proof. by vm_compute. Qed.
