(* ===== verification/ToolParse.v ===== *)
(** * Tool calls in the text of a model

    src/kernel/src/stems/tool_parse.rs.  The JSON decoder is a parameter, and so
    are the random identifiers: [fresh i] is the one of the [i]-th call. *)

From S2P Require Export Prelude RString Json Tool.
From Stdlib Require Import Ascii.
#[local] Arguments String.append !_ _ : simpl nomatch.

(** A call before it gets its identifier. *)
Definition Call : Type := string * Value.

Section Parse.
Context (from_str : string -> option Value).

(** ** Tags *)

Record TagMatch := { tag_name : string; name_attr : option string; tm_start : nat; open_end : nat }.

Definition extract_attr (open_tag attr_name : string) : option string :=
  let pattern := attr_name +:+ "=" +:+ dq in
  p ← find_str pattern open_tag;
  let rest := drop_str (p + len pattern) open_tag in
  e ← find_str dq rest;
  let value := take_str e rest in
  if is_empty_str value then None else Some value.

(** The first [<tag] that is not followed by an [s]. *)
Fixpoint find_tag_prefix (fuel : nat) (text prefix : string) (search_from : nat) : option nat :=
  match fuel with
  | O => None
  | S fuel' =>
      p ← find_str prefix (drop_str search_from text);
      let abs := (search_from + p)%nat in
      match drop_str (abs + len prefix) text with
      | String c _ => if Ascii.eqb c "s" then find_tag_prefix fuel' text prefix (abs + 1) else Some abs
      | "" => Some abs
      end
  end.

Definition nearest_tag (text : string) : option (string * nat) :=
  match find_tag_prefix (S (len text)) text "<tool_call" 0, find_str "<tool_calls" text with
  | Some c, Some cs => if (c <=? cs)%nat then Some ("tool_call", c) else Some ("tool_calls", cs)
  | Some c, None => Some ("tool_call", c)
  | None, Some cs => Some ("tool_calls", cs)
  | None, None => None
  end.

Definition recognized (open_tag : string) : bool :=
  starts_with open_tag "<tool_call>" || starts_with open_tag "<tool_call " ||
  starts_with open_tag "<tool_calls>" || starts_with open_tag "<tool_calls ".

Fixpoint find_next_tag (fuel : nat) (text : string) : option TagMatch :=
  match fuel with
  | O => None
  | S fuel' =>
      '(name, pos) ← nearest_tag text;
      let after_tag := drop_str pos text in
      gt ← find_str ">" after_tag;
      let open_tag := take_str (S gt) after_tag in
      if recognized open_tag then
        Some {| tag_name := name; name_attr := extract_attr open_tag "name"; tm_start := pos; open_end := pos + gt + 1 |}
      else
        next ← find_next_tag fuel' (drop_str (pos + 1) text);
        Some {| tag_name := tag_name next; name_attr := name_attr next;
                tm_start := pos + 1 + tm_start next; open_end := pos + 1 + open_end next |}
  end.

(** The loop of [find_tag_body]: where the matching closing tag begins. *)
Fixpoint find_close (fuel : nat) (text open close : string) (depth search_pos : nat) : option nat :=
  match fuel with
  | O => None
  | S fuel' =>
      let remaining := drop_str search_pos text in
      let open_pos := find_str open remaining in
      match open_pos, find_str close remaining with
      | _, Some cp =>
          let first := match open_pos with Some op => (cp <? op)%nat | None => true end in
          if (depth =? 1)%nat && first then Some (search_pos + cp)%nat
          else
            match open_pos with
            | Some op =>
                if (op <? cp)%nat then find_close fuel' text open close (depth + 1) (search_pos + op + len open)
                else find_close fuel' text open close (depth - 1) (search_pos + cp + len close)
            | None => find_close fuel' text open close (depth - 1) (search_pos + cp + len close)
            end
      | Some op, None => find_close fuel' text open close depth (search_pos + op + len open)
      | None, None => None
      end
  end.

Definition find_tag_body (text tag : string) : string * string :=
  let close := "</" +:+ tag +:+ ">" in
  match find_close (S (len text)) text ("<" +:+ tag) close 1 0 with
  | Some p => (take_str p text, drop_str (p + len close) text)
  | None => (text, "")
  end.

(** ** JSON bodies *)

Definition contains_key (k : string) (m : list (string * Value)) : bool := bool_decide (is_Some (Json.assoc k m)).

(** The name, and whether it was taken from the first key. *)
Definition json_tool_name (val : Value) : string * bool :=
  match as_str (index val "tool") with
  | Some t => (t, false)
  | None =>
      match as_str (index val "name") with
      | Some t => (t, false)
      | None => match val with Obj ((key, _) :: _) => (key, true) | _ => ("unknown", false) end
      end
  end.

Definition parse_tool_call_json (inner : string) : option Call :=
  val ← from_str inner;
  let '(name, from_key) := json_tool_name val in
  let explicit := match get val "parameters" with Some (Obj m) => Some m | _ => None end in
  let obj := match val with Obj m => m | _ => [] end in
  let extra := List.filter (fun e => negb (one_of (fst e) ["tool"; "name"; "parameters"]) &&
                                     negb (from_key && String.eqb (fst e) name)) obj in
  let params :=
    match extra, explicit with
    | [], Some m => Obj m
    | [], None => match obj with (_, v) :: _ => v | [] => Null end
    | _, Some base =>
        Obj (foldl (fun m e => if contains_key (fst e) m then m else obj_insert (fst e) (snd e) m) base extra)
    | _, None => Obj (foldl (fun m e => obj_insert (fst e) (snd e) m) [] extra)
    end in
  Some (name, params).

(** The parameters of a call named by its tag's attribute. *)
Definition attr_params (body : string) : Value :=
  let body_trimmed := trim body in
  if is_empty_str body_trimmed then Obj []
  else
    match from_str body_trimmed with
    | Some (Obj obj) =>
        if negb (contains_key "tool" obj) && negb (contains_key "name" obj)
        then Obj (obj_insert "input" (Str body_trimmed) obj)
        else Obj obj
    | _ => Obj [("input", Str body_trimmed)]
    end.

(** ** Markdown fences *)

Definition fence : string := "```".
Definition backtick : string := "`".

Definition find_inline_code_tool_before (text : string) (pos : nat) : option string :=
  let before := take_str pos text in
  backtick_end ← rfind_str backtick before;
  backtick_start ← rfind_str backtick (take_str backtick_end before);
  let candidate := trim (slice (backtick_start + 1) backtick_end before) in
  if is_empty_str candidate || contains_str candidate " " then None else Some candidate.

Definition build_tool_call (name json_str : string) : Call :=
  (name, if is_empty_str json_str then Obj [] else default (Obj []) (from_str json_str)).

Definition build_tool_call_from_json (val : Value) : option Call :=
  match val with
  | Obj obj =>
      let params := default Null (Json.assoc "parameters" obj) in
      match Json.assoc "tool" obj ≫= as_str with
      | Some t => Some (t, params)
      | None => (fun n => (n, params)) <$> (Json.assoc "name" obj ≫= as_str)
      end
  | _ => None
  end.

Definition fence_calls (text : string) (abs_fence_start : nat) (code_content : string) : list Call :=
  if is_empty_str code_content then
    match find_inline_code_tool_before text abs_fence_start with
    | Some name => [build_tool_call name ""]
    | None => []
    end
  else
    match from_str code_content with
    | Some val =>
        match build_tool_call_from_json val with
        | Some tc => [tc]
        | None =>
            match val, find_inline_code_tool_before text abs_fence_start with
            | Obj [], Some name => [build_tool_call name code_content]
            | _, _ => []
            end
        end
    | None => []
    end.

Fixpoint markdown_from (fuel : nat) (text : string) (search_start : nat) : list Call :=
  match fuel with
  | O => []
  | S fuel' =>
      match find_str fence (drop_str search_start text) with
      | None => []
      | Some fence_start =>
          let abs := (search_start + fence_start)%nat in
          let after_fence := drop_str (abs + 3) text in
          let content_start := match find_str nl after_fence with Some n => S n | None => 0%nat end in
          let body := drop_str content_start after_fence in
          match find_str (nl +:+ fence) body with
          | None => []
          | Some fence_end =>
              fence_calls text abs (trim (take_str fence_end body)) ++
              markdown_from fuel' text (abs + 3 + content_start + fence_end + 4)
          end
      end
  end.

Definition parse_markdown_tool_calls (text : string) : list Call := markdown_from (S (len text)) text 0.

(** ** Raw tags *)

Definition unescape_xml (s : string) : string :=
  replace_str (replace_str (replace_str (replace_str (replace_str s "&lt;" "<") "&gt;" ">") "&amp;" "&")
    "&quot;" dq) "&apos;" "'".

Definition is_ascii_whitespace (c : ascii) : bool :=
  existsb (Nat.eqb (byte_val c)) [32; 9; 10; 12; 13]%nat.

Fixpoint skip_ascii_whitespace (s : string) : string :=
  match s with
  | String c s' => if is_ascii_whitespace c then skip_ascii_whitespace s' else s
  | "" => ""
  end.

(** The attributes from the current position on. *)
Fixpoint attrs_from (fuel : nat) (s : string) (attrs : list (string * Value)) : list (string * Value) :=
  match fuel with
  | O => attrs
  | S fuel' =>
      match skip_ascii_whitespace s with
      | "" => attrs
      | s1 =>
          match find_str "=" s1 with
          | None => attrs
          | Some eq =>
              let key := trim (take_str eq s1) in
              match drop_str (eq + 1) s1 with
              | String q rest =>
                  if Ascii.eqb q (ascii_of_nat 34) || Ascii.eqb q "'" then
                    match find_str (String q "") rest with
                    | None => attrs
                    | Some e =>
                        attrs_from fuel' (drop_str (e + 1) rest)
                          (obj_insert key (Str (unescape_xml (take_str e rest))) attrs)
                    end
                  else attrs
              | "" => attrs
              end
          end
      end
  end.

Definition extract_all_attrs (open_tag : string) : list (string * Value) :=
  let inner := default open_tag (s ← strip_prefix_str open_tag "<"; strip_suffix_str s ">") in
  let after_name := match find_str " " inner with Some p => drop_str (p + 1) inner | None => "" end in
  attrs_from (S (len after_name)) after_name [].

Definition raw_boundary (c : ascii) : bool :=
  Ascii.eqb c ">" || Ascii.eqb c " " || Ascii.eqb c newline || Ascii.eqb c cr.

(** The tag of one tool name, if its first occurrence is a tag. *)
Definition raw_tag (remaining name : string) : option (nat * nat * string) :=
  let prefix := "<" +:+ name in
  pos ← find_str prefix remaining;
  match drop_str (pos + len prefix) remaining with
  | String c _ as after =>
      if raw_boundary c then
        gt ← find_str ">" after; Some (pos, (pos + len prefix + gt + 1)%nat, name)
      else None
  | "" => None
  end.

Definition earlier (best : option (nat * nat * string)) (remaining name : string) : option (nat * nat * string) :=
  match raw_tag remaining name, best with
  | Some (pos, e, n), Some (b_pos, _, _) => if (pos <? b_pos)%nat then Some (pos, e, n) else best
  | Some t, None => Some t
  | None, _ => best
  end.

Definition raw_params (open_tag body : string) : Value :=
  let params := extract_all_attrs open_tag in
  let body_trimmed := trim body in
  Obj (if negb (is_empty_str body_trimmed) && negb (contains_key "input" params)
       then obj_insert "input" (Str body_trimmed) params else params).

Fixpoint raw_from (fuel : nat) (tool_names : list string) (remaining clean : string) : string * list Call :=
  match fuel with
  | O => (trim (clean +:+ remaining), [])
  | S fuel' =>
      match foldl (fun best name => earlier best remaining name) None tool_names with
      | None => (trim (clean +:+ remaining), [])
      | Some (start, open_end, name) =>
          let '(body, rest) := find_tag_body (drop_str open_end remaining) name in
          let '(text, calls) := raw_from fuel' tool_names rest (clean +:+ take_str start remaining) in
          (text, (name, raw_params (slice start open_end remaining) body) :: calls)
      end
  end.

Definition parse_raw_tool_tags (text : string) (tool_names : list string) : string * list Call :=
  raw_from (S (len text)) tool_names text "".

(** ** The parser *)

(** The calls of one singular tag. *)
Definition single_call (attr : option string) (body : string) : list Call :=
  match attr with
  | Some name => [(name, attr_params body)]
  | None => option_list (parse_tool_call_json (trim body))
  end.

Definition fallbacks (text : string) (tool_names : list string) (r : string * list Call) : string * list Call :=
  let '(clean, calls) := r in
  let clean := trim clean in
  let calls := match calls with [] => parse_markdown_tool_calls text | _ => calls end in
  match calls, tool_names with
  | [], _ :: _ =>
      let '(raw_clean, raw_calls) := parse_raw_tool_tags text tool_names in
      match raw_calls with [] => (clean, []) | _ => (raw_clean, raw_calls) end
  | _, _ => (clean, calls)
  end.

(** The loop, and the whole parser on a container's content.  Fuel bounds the
    length of the text still to scan. *)
Fixpoint scan (fuel : nat) (tool_names : list string) (remaining : string) : string * list Call :=
  match fuel with
  | O => (remaining, [])
  | S fuel' =>
      match find_next_tag (S (len remaining)) remaining with
      | None => (remaining, [])
      | Some tm =>
          let before := take_str (tm_start tm) remaining in
          let after_open := drop_str (open_end tm) remaining in
          if String.eqb (tag_name tm) "tool_calls" then
            let '(inner, rest) := find_tag_body after_open "tool_calls" in
            let inner_calls :=
              if is_empty_str inner then []
              else snd (fallbacks inner tool_names (scan fuel' tool_names inner)) in
            let '(clean, calls) := scan fuel' tool_names rest in
            (before +:+ clean, inner_calls ++ calls)
          else
            let '(body, rest) := find_tag_body after_open "tool_call" in
            if is_empty_str rest && String.eqb body after_open then (before +:+ drop_str (tm_start tm) remaining, [])
            else
              let '(clean, calls) := scan fuel' tool_names rest in
              (before +:+ clean, single_call (name_attr tm) body ++ calls)
      end
  end.

Definition parse_calls (text : string) (tool_names : list string) : string * list Call :=
  fallbacks text tool_names (scan (S (len text)) tool_names text).

Definition parse_tool_calls (fresh : nat -> string) (text : string) (tool_names : list string)
    : string * list ToolCall :=
  let '(clean, calls) := parse_calls text tool_names in
  (clean, imap (fun i c => {| tc_id := fresh i; tc_name := fst c; tc_parameters := snd c |}) calls).

End Parse.

(** * Proofs *)

(** ** Searching past a text that lacks the first byte of the pattern *)

Lemma find_str_app_absent c pat a b : has_char c a = false ->
  find_str (String c pat) (a +:+ b) = (fun i => len a + i)%nat <$> find_str (String c pat) b.
Proof.
  induction a as [|d a IH]; intros Ha.
  - cbn. by destruct (find_str _ b).
  - rewrite has_char_cons in Ha. apply orb_false_iff in Ha as [Hd Ha].
    change (String d a +:+ b) with (String d (a +:+ b)). cbn [find_str prefixb]. rewrite Hd. cbn [andb].
    rewrite IH by done. by destruct (find_str _ b).
Qed.

Lemma find_str_bound pat s i : find_str pat s = Some i -> (i + len pat <= len s)%nat.
Proof. intros (a & b & -> & <- & _)%find_str_Some. rewrite !app_len. lia. Qed.

Lemma len_slice_le a b s : (len (slice a b s) <= b - a)%nat.
Proof. unfold slice. rewrite len_take_str. lia. Qed.

(** ** Enough fuel *)

Lemma find_tag_prefix_fuel f g text prefix from : prefix <> ""%string ->
  (len text < f + from)%nat -> (f <= g)%nat ->
  find_tag_prefix g text prefix from = find_tag_prefix f text prefix from.
Proof.
  intros Hne. revert g from. induction f as [|f IH]; intros g from Hf Hg.
  - destruct g as [|g]; [done|]. cbn [find_tag_prefix].
    destruct (find_str prefix (drop_str from text)) as [p|] eqn:Hp; [|done].
    apply find_str_bound in Hp. rewrite len_drop_str in Hp. destruct prefix; [done|]. cbn in Hp. lia.
  - destruct g as [|g]; [lia|]. cbn [find_tag_prefix]. destruct (find_str _ _) as [p|]; [|done].
    cbn [mbind option_bind]. destruct (drop_str _ text) as [|c s]; [done|]. destruct (Ascii.eqb c "s"); [|done].
    apply IH; lia.
Qed.

Lemma nearest_tag_bound text n pos : nearest_tag text = Some (n, pos) -> (pos < len text)%nat.
Proof.
  assert (Hpre : forall f from p, find_tag_prefix f text "<tool_call" from = Some p -> (p < len text)%nat).
  { induction f as [|f IH]; intros from p; cbn [find_tag_prefix]; [done|].
    destruct (find_str _ (drop_str from text)) as [q|] eqn:Hq; [|done]. cbn [mbind option_bind].
    apply find_str_bound in Hq. rewrite len_drop_str in Hq. cbn in Hq.
    destruct (drop_str _ text) as [|c s]; [intros [= <-]; lia|].
    destruct (Ascii.eqb c "s"); [apply IH|]. intros [= <-]. lia. }
  assert (Hs : forall p, find_str "<tool_calls" text = Some p -> (p < len text)%nat).
  { intros p Hp%find_str_bound. cbn in Hp. lia. }
  unfold nearest_tag. destruct (find_tag_prefix _ _ _ _) as [c|] eqn:Hc, (find_str _ text) as [cs|] eqn:Hcs; [|..]; try done.
  - destruct (c <=? cs)%nat; intros [= <- <-]; eauto.
  - intros [= <- <-]; eauto.
  - intros [= <- <-]; eauto.
Qed.

Lemma find_next_tag_fuel f g text : (len text < f)%nat -> (f <= g)%nat -> find_next_tag g text = find_next_tag f text.
Proof.
  revert g text. induction f as [|f IH]; intros g text Hf Hg; [lia|]. destruct g as [|g]; [lia|].
  cbn [find_next_tag]. destruct (nearest_tag text) as [[n pos]|] eqn:Hn; [|done]. cbn [mbind option_bind].
  apply nearest_tag_bound in Hn. destruct (find_str ">" _) as [gt|]; [|done]. cbn [mbind option_bind].
  destruct (recognized _); [done|]. by rewrite (IH g) by (rewrite ?len_drop_str; lia).
Qed.

(** An opening tag is not empty and lies inside the text. *)
Lemma find_next_tag_bound f text tm : find_next_tag f text = Some tm -> (tm_start tm < open_end tm <= len text)%nat.
Proof.
  revert text tm. induction f as [|f IH]; intros text tm; cbn [find_next_tag]; [done|].
  destruct (nearest_tag text) as [[n pos]|] eqn:Hn; [|done]. cbn [mbind option_bind]. apply nearest_tag_bound in Hn.
  destruct (find_str ">" _) as [gt|] eqn:Hgt; [|done]. cbn [mbind option_bind].
  apply find_str_bound in Hgt. rewrite len_drop_str in Hgt. cbn in Hgt.
  destruct (recognized _); [intros [= <-]; cbn; lia|].
  destruct (find_next_tag f _) as [next|] eqn:Hnext; [|done]. intros [= <-]. cbn.
  apply IH in Hnext. rewrite len_drop_str in Hnext. lia.
Qed.

Lemma find_close_fuel f g text open close d pos : open <> ""%string -> close <> ""%string ->
  (len text < f + pos)%nat -> (f <= g)%nat ->
  find_close g text open close d pos = find_close f text open close d pos.
Proof.
  intros Ho Hc. assert (Hlo : (0 < len open)%nat) by (destruct open; [done|cbn; lia]).
  assert (Hlc : (0 < len close)%nat) by (destruct close; [done|cbn; lia]).
  revert g d pos. induction f as [|f IH]; intros g d pos Hf Hg.
  - destruct g as [|g]; [done|]. cbn [find_close].
    destruct (find_str open (drop_str pos text)) as [op|] eqn:Hop.
    { apply find_str_bound in Hop. rewrite len_drop_str in Hop. lia. }
    destruct (find_str close (drop_str pos text)) as [cp|] eqn:Hcp; [|done].
    apply find_str_bound in Hcp. rewrite len_drop_str in Hcp. lia.
  - destruct g as [|g]; [lia|]. cbn [find_close].
    destruct (find_str open _) as [op|], (find_str close _) as [cp|]; [| | |done].
    + destruct (_ && _); [done|]. destruct (op <? cp)%nat; apply IH; lia.
    + apply IH; lia.
    + destruct (_ && _); [done|]. apply IH; lia.
Qed.

Lemma find_tag_body_bound text tag : let '(body, rest) := find_tag_body text tag in
  (len body <= len text)%nat /\ (len rest <= len text)%nat.
Proof.
  unfold find_tag_body. destruct (find_close _ _ _ _ _ _) as [p|]; [|cbn; lia].
  rewrite len_take_str, len_drop_str. lia.
Qed.

Section FuelProofs.
Context (from_str : string -> option Value).

Lemma scan_fuel f g names text : (len text < f)%nat -> (f <= g)%nat ->
  scan from_str g names text = scan from_str f names text.
Proof.
  revert g text. induction f as [|f IH]; intros g text Hf Hg; [lia|]. destruct g as [|g]; [lia|].
  cbn [scan]. destruct (find_next_tag _ text) as [tm|] eqn:Htm; [|done]. apply find_next_tag_bound in Htm.
  set (after := drop_str (open_end tm) text).
  assert (Hafter : (len after < len text)%nat) by (unfold after; rewrite len_drop_str; lia).
  destruct (String.eqb (tag_name tm) "tool_calls").
  - pose proof (find_tag_body_bound after "tool_calls") as Hb. destruct (find_tag_body after "tool_calls") as [inner rest].
    by rewrite !(IH g) by lia.
  - pose proof (find_tag_body_bound after "tool_call") as Hb. destruct (find_tag_body after "tool_call") as [body rest].
    by rewrite !(IH g) by lia.
Qed.

Lemma markdown_fuel f g text from : (len text < f + from)%nat -> (f <= g)%nat ->
  markdown_from from_str g text from = markdown_from from_str f text from.
Proof.
  revert g from. induction f as [|f IH]; intros g from Hf Hg.
  - destruct g as [|g]; [done|]. cbn [markdown_from].
    destruct (find_str fence (drop_str from text)) as [p|] eqn:Hp; [|done].
    apply find_str_bound in Hp. rewrite len_drop_str in Hp. cbn in Hp. lia.
  - destruct g as [|g]; [lia|]. cbn [markdown_from]. destruct (find_str fence _) as [p|]; [|done].
    destruct (find_str (nl +:+ fence) _) as [e|]; [|done]. f_equal. apply IH; lia.
Qed.

End FuelProofs.

Definition raw_inside (remaining : string) (best : option (nat * nat * string)) : Prop :=
  forall s e n, best = Some (s, e, n) -> (s < e)%nat /\ (s < len remaining)%nat.

Lemma raw_tag_inside remaining name : raw_inside remaining (raw_tag remaining name).
Proof.
  unfold raw_tag. destruct (find_str _ remaining) as [x|] eqn:Hx; [|done]. cbn [mbind option_bind].
  apply find_str_bound in Hx. cbn in Hx. destruct (drop_str _ remaining) as [|c after]; [done|].
  destruct (raw_boundary c); [|done]. destruct (find_str ">" _) as [gt|]; [|done]. intros s e n [= <- <- _]. lia.
Qed.

Lemma earlier_inside remaining names best : raw_inside remaining best ->
  raw_inside remaining (foldl (fun best name => earlier best remaining name) best names).
Proof.
  revert best. induction names as [|name names IH]; intros best Hb; cbn [foldl]; [done|].
  apply IH. unfold earlier. pose proof (raw_tag_inside remaining name) as Hr.
  destruct (raw_tag remaining name) as [[[p q] m]|]; [|done].
  destruct best as [[[bp bq] bn]|]; [|done]. by destruct (p <? bp)%nat.
Qed.

Lemma raw_fuel f g names remaining clean : (len remaining < f)%nat -> (f <= g)%nat ->
  raw_from g names remaining clean = raw_from f names remaining clean.
Proof.
  revert g remaining clean. induction f as [|f IH]; intros g remaining clean Hf Hg; [lia|]. destruct g as [|g]; [lia|].
  cbn [raw_from]. pose proof (earlier_inside remaining names None ltac:(done)) as Hin.
  destruct (foldl _ None names) as [[[s e] name]|]; [|done]. destruct (Hin s e name eq_refl) as [Hse Hlt].
  pose proof (find_tag_body_bound (drop_str e remaining) name) as Hb.
  destruct (find_tag_body (drop_str e remaining) name) as [body rest]. rewrite len_drop_str in Hb.
  by rewrite (IH g) by lia.
Qed.

(** ** Writing calls and reading them back *)

Definition lt : ascii := "<"%char.

(** Some text, then a call with a JSON body. *)
Definition write_call (seg : string * string) : string :=
  fst seg +:+ "<tool_call>" +:+ snd seg +:+ "</tool_call>".

Definition write_calls (segs : list (string * string)) (tail : string) : string :=
  concat_str (map write_call segs) +:+ tail.

Definition plain (s : string) : Prop := has_char lt s = false.

Definition plain_seg (seg : string * string) : Prop := plain (fst seg) /\ plain (snd seg).

Lemma drop_len_app a b : drop_str (len a) (a +:+ b) = b.
Proof. apply drop_app_str. Qed.

Lemma nearest_tag_plain pre rest : plain pre ->
  nearest_tag (pre +:+ "<tool_call>" +:+ rest) = Some ("tool_call"%string, len pre).
Proof.
  intros Hp. unfold nearest_tag. set (text := pre +:+ "<tool_call>" +:+ rest).
  assert (Hfind : forall pat, find_str (String lt pat) text = (fun i => len pre + i)%nat <$> find_str (String lt pat) ("<tool_call>" +:+ rest)).
  { intros pat. by apply find_str_app_absent. }
  assert (Hsingle : find_tag_prefix (S (len text)) text "<tool_call" 0 = Some (len pre)).
  { cbn [find_tag_prefix]. change (drop_str 0 text) with text.
    change "<tool_call"%string with (String lt "tool_call"). rewrite Hfind.
    change (find_str (String lt "tool_call") ("<tool_call>" +:+ rest)) with (Some 0%nat).
    cbn [fmap option_fmap option_map mbind option_bind]. rewrite Nat.add_0_r. cbn [Nat.add].
    unfold text. rewrite drop_str_app_plus.
    change (drop_str (len (String lt "tool_call")) ("<tool_call>" +:+ rest)) with (String ">" rest). cbv iota. done. }
  rewrite Hsingle. change "<tool_calls"%string with (String lt "tool_calls"). rewrite Hfind.
  destruct (find_str (String lt "tool_calls") ("<tool_call>" +:+ rest)) as [i|]; cbn [fmap option_fmap option_map]; [|done].
  by rewrite (proj2 (Nat.leb_le _ _)) by lia.
Qed.

Lemma find_next_tag_plain f pre rest : plain pre ->
  find_next_tag (S f) (pre +:+ "<tool_call>" +:+ rest) =
  Some {| tag_name := "tool_call"; name_attr := None; tm_start := len pre; open_end := len pre + 11 |}.
Proof.
  intros Hp. cbn [find_next_tag]. rewrite nearest_tag_plain by done. cbn [mbind option_bind].
  rewrite drop_len_app. change (find_str ">" ("<tool_call>" +:+ rest)) with (Some 10%nat). cbn [mbind option_bind].
  change (take_str 11 ("<tool_call>" +:+ rest)) with ("<tool_call>"%string).
  change (recognized "<tool_call>") with true. cbv iota.
  change (extract_attr "<tool_call>" "name") with (@None string). do 2 f_equal. lia.
Qed.

Lemma find_tag_body_plain body rest : plain body ->
  find_tag_body (body +:+ "</tool_call>" +:+ rest) "tool_call" = (body, rest).
Proof.
  intros Hb. unfold find_tag_body. set (text := body +:+ "</tool_call>" +:+ rest).
  change ("<" +:+ "tool_call") with (String lt "tool_call"). change ("</" +:+ "tool_call" +:+ ">") with (String lt "/tool_call>").
  assert (Hclose : find_close (S (len text)) text (String lt "tool_call") (String lt "/tool_call>") 1 0 = Some (len body)).
  { assert (Hfind : forall pat, find_str (String lt pat) text = (fun i => len body + i)%nat <$> find_str (String lt pat) ("</tool_call>" +:+ rest)).
    { intros pat. by apply find_str_app_absent. }
    cbn [find_close]. change (drop_str 0 text) with text. rewrite !Hfind.
    assert (Hhit : find_str (String lt "/tool_call>") ("</tool_call>" +:+ rest) = Some 0%nat) by by destruct rest.
    rewrite Hhit. clear Hfind Hhit.
    change (find_str (String lt "tool_call") ("</tool_call>" +:+ rest))
      with (S <$> find_str (String lt "tool_call") ("/tool_call>" +:+ rest)).
    destruct (find_str (String lt "tool_call") _) as [i|]; cbn [fmap option_fmap option_map Nat.add]; rewrite Nat.add_0_r; [|done].
    rewrite (proj2 (Nat.ltb_lt (len body) _)) by lia. done. }
  rewrite Hclose. unfold text. rewrite take_app_str. f_equal.
  rewrite drop_str_app_plus. done.
Qed.

Section RoundTrip.
Context (from_str : string -> option Value).

Lemma nearest_tag_none text : plain text -> nearest_tag text = None.
Proof.
  intros Hp. unfold nearest_tag. cbn [find_tag_prefix]. change (drop_str 0 text) with text.
  change "<tool_call"%string with (String lt "tool_call"). change "<tool_calls"%string with (String lt "tool_calls").
  by rewrite !find_str_head_absent.
Qed.

Lemma scan_plain f names text : plain text -> scan from_str (S f) names text = (text, []).
Proof. intros Hp. cbn [scan find_next_tag]. by rewrite nearest_tag_none. Qed.

Lemma scan_call f names pre body rest : plain pre -> plain body ->
  scan from_str (S f) names (write_call (pre, body) +:+ rest) =
  let '(clean, calls) := scan from_str f names rest in
  (pre +:+ clean, option_list (parse_tool_call_json from_str (trim body)) ++ calls).
Proof.
  intros Hp Hb.
  assert (Htext : write_call (pre, body) +:+ rest = pre +:+ "<tool_call>" +:+ body +:+ "</tool_call>" +:+ rest).
  { unfold write_call. cbn [fst snd]. by rewrite !app_assoc_str. }
  rewrite Htext. cbn [scan]. rewrite find_next_tag_plain by done. cbn [tm_start open_end tag_name name_attr].
  rewrite take_app_str, drop_str_app_plus.
  change (drop_str 11 ("<tool_call>" +:+ body +:+ "</tool_call>" +:+ rest)) with (body +:+ "</tool_call>" +:+ rest).
  change (String.eqb "tool_call" "tool_calls") with false. cbv iota. rewrite find_tag_body_plain by done.
  rewrite (proj2 (String.eqb_neq body _)), andb_false_r; [done|].
  intros He. apply (f_equal len) in He. rewrite !app_len in He. cbn in He. lia.
Qed.

Lemma scan_calls f names segs tail : Forall plain_seg segs -> plain tail -> (length segs < f)%nat ->
  scan from_str f names (write_calls segs tail) =
  (concat_str (map fst segs) +:+ tail, omap (fun seg => parse_tool_call_json from_str (trim (snd seg))) segs).
Proof.
  intros Hsegs Ht. revert f. induction Hsegs as [|[pre body] segs [Hp Hb] _ IH]; intros f Hf;
    (destruct f as [|f]; [cbn in Hf; lia|]).
  - by rewrite scan_plain.
  - assert (Htext : write_calls ((pre, body) :: segs) tail = write_call (pre, body) +:+ write_calls segs tail).
    { unfold write_calls, concat_str. cbn [map foldr]. by rewrite !app_assoc_str. }
    rewrite Htext, scan_call by done. rewrite IH by (cbn in Hf; lia).
    cbn [omap list_omap snd]. f_equal.
    + unfold concat_str. cbn [map foldr fst]. by rewrite !app_assoc_str.
    + by destruct (parse_tool_call_json from_str (trim body)).
Qed.

Lemma write_calls_length segs tail : (length segs <= len (write_calls segs tail))%nat.
Proof.
  unfold write_calls, concat_str. rewrite app_len. induction segs as [|[pre body] segs IH]; cbn [map foldr length]; [lia|].
  rewrite app_len. unfold write_call at 1. cbn [fst snd]. rewrite !app_len. change (len "<tool_call>") with 11%nat. change (len "</tool_call>") with 12%nat. unfold lt in *. lia.
Qed.

(** [C40] Calls written in the documented format are read back: for texts and
    JSON bodies without an opening angle bracket, however many and whatever
    tools are known, the parser returns exactly the calls whose bodies decode,
    in order, and the text between the tags, trimmed, nothing of which leaks
    into a call; and a text without any angle bracket or fence is returned
    trimmed, without calls. *)
Theorem parse_calls_roundtrip names segs tail (Hsegs : Forall plain_seg segs) (Htail : plain tail) :
  let calls := omap (fun seg => parse_tool_call_json from_str (trim (snd seg))) segs in
  (calls <> [] -> parse_calls from_str (write_calls segs tail) names =
     (trim (concat_str (map fst segs) +:+ tail), calls)) /\
  (find_str fence tail = None -> parse_calls from_str tail names = (trim tail, [])).
Proof.
  intros calls. split.
  - intros Hne. unfold parse_calls. rewrite scan_calls by (done || (pose proof (write_calls_length segs tail); lia)).
    fold calls. unfold fallbacks. by destruct calls.
  - intros Hf. unfold parse_calls. rewrite scan_plain by done. unfold fallbacks.
    assert (Hmd : parse_markdown_tool_calls from_str tail = []).
    { unfold parse_markdown_tool_calls. cbn [markdown_from]. change (drop_str 0 tail) with tail. by rewrite Hf. }
    rewrite Hmd. destruct names as [|n names]; [done|].
    assert (Hraw : parse_raw_tool_tags tail (n :: names) = (trim tail, [])); [|by rewrite Hraw].
    unfold parse_raw_tool_tags. cbn [raw_from].
    replace (foldl _ None (n :: names)) with (@None (nat * nat * string)); [done|]. symmetry.
    generalize (n :: names) as l. induction l as [|m l IH]; [done|]. cbn [foldl].
    replace (earlier None tail m) with (@None (nat * nat * string)); [exact IH|].
    unfold earlier, raw_tag. change ("<" +:+ m) with (String lt m). by rewrite find_str_head_absent.
Qed.

End RoundTrip.

(** A decoder for the witness: one object it knows. *)
Definition tiny_json : string -> option Value := fun s =>
  if String.eqb s "BODY" then Some (Obj [("parameters", Obj [("path", Str "a.rs")]); ("tool", Str "read_file")])
  else None.

Lemma parse_calls_roundtrip_witness :
  parse_calls tiny_json "first <tool_call> BODY </tool_call> then <tool_call>bad</tool_call> done" ["shell"] =
  ("first  then  done"%string, [("read_file"%string, Obj [("path"%string, Str "a.rs")])]).
Proof.
  destruct (parse_calls_roundtrip tiny_json ["shell"%string] [("first ", " BODY "); (" then ", "bad")]%string " done") as [H _];
    [by repeat constructor|done|].
  apply H. by vm_compute.
Defined.

(** The scanners terminate: each loop of the parser, given one unit of
    fuel more than the text is long, computes what it computes with any more. *)
Theorem parse_fuel_enough from_str names text g (Hg : (len text < g)%nat) :
  scan from_str g names text = scan from_str (S (len text)) names text /\
  find_next_tag g text = find_next_tag (S (len text)) text /\
  find_tag_prefix g text "<tool_call" 0 = find_tag_prefix (S (len text)) text "<tool_call" 0 /\
  markdown_from from_str g text 0 = parse_markdown_tool_calls from_str text /\
  raw_from g names text "" = parse_raw_tool_tags text names /\
  forall tag, find_close g text ("<" +:+ tag) ("</" +:+ tag +:+ ">") 1 0 =
              find_close (S (len text)) text ("<" +:+ tag) ("</" +:+ tag +:+ ">") 1 0.
Proof.
  split; [apply scan_fuel; lia|]. split; [apply find_next_tag_fuel; lia|].
  split; [apply find_tag_prefix_fuel; [done|lia..]|]. split; [apply markdown_fuel; lia|].
  split; [apply raw_fuel; lia|]. intros tag. apply find_close_fuel; [done|done|lia..].
Qed.

Lemma parse_fuel_enough_witness :
  scan tiny_json 100 [] "a <tool_call>BODY</tool_call>" = scan tiny_json 30 [] "a <tool_call>BODY</tool_call>".
Proof. apply (parse_fuel_enough tiny_json [] "a <tool_call>BODY</tool_call>" 100). by vm_compute; lia. Defined.

(** A newline after the tag's name is accepted by the prefix search and then
    refused: the call is not recognized. *)
Example newline_after_tag_is_no_call :
  snd (parse_calls tiny_json ("<tool_call" +:+ nl +:+ "name=" +:+ dq +:+ "x" +:+ dq +:+ ">{}</tool_call>") []) = [].
Proof. by vm_compute. Qed.
