(* ===== verification/Hooks.v ===== *)
(** * Hooks

    src/kernel/src/plates/shen_spirit/hook.rs (the spirit hooks and their
    registry) and src/kernel/src/stems/hooks.rs (the user's pre-tool hooks).

    A hook's handler is its own code: a function from the event to a result, or
    to nothing when it panics.  Handlers that are not awaited are only recorded
    as spawned.  Glob and regular expression matching and running a shell
    command are parameters. *)

From S2P Require Export Prelude RString Json GeJu Float.
From stdpp Require Import sorting.

Inductive SpiritType := ZhiFu | TengShe | TaiYin | LiuHe | BaiHu | XuanWu | JiuDi | JiuTian.
#[export] Instance SpiritType_eq_dec : EqDecision SpiritType.
Proof. solve_decision. Defined.

Definition spirit_name (s : SpiritType) : string :=
  match s with
  | ZhiFu => "ZhiFu" | TengShe => "TengShe" | TaiYin => "TaiYin" | LiuHe => "LiuHe"
  | BaiHu => "BaiHu" | XuanWu => "XuanWu" | JiuDi => "JiuDi" | JiuTian => "JiuTian"
  end.

Inductive HookEvent :=
| LlmResponse (response_len tool_call_count : Z) (certainty : option spec_float)
| ToolPreExecute (tool_name : string) (input : Value)
| ToolPostExecute (tool_name output : string) (error : option string) (duration_ms : Z)
| BatchEnded (tool_count turn : Z) (geju_name : option string)
| CompactionTriggered (messages_before messages_after tokens_before tokens_after : Z) (method : string).

Inductive HookResult := HookOk | Cancel (reason : string).

Record Hook := {
  h_name : string;
  priority : Z;
  spirit_types : list SpiritType;
  matcher : option string;
  block_on_failure : bool;
  on_event : HookEvent -> option HookResult
}.

(** The hooks, highest priority first. *)
Definition HookRegistry := list Hook.

Definition before (a b : Hook) : Prop := (priority b <= priority a)%Z.
#[export] Instance before_dec : RelDecision before.
Proof. intros a b. unfold before. solve_decision. Defined.

Definition register_hook (h : Hook) (r : HookRegistry) : HookRegistry := stable_sort before (r ++ [h]).
Definition remove_hook (name : string) (r : HookRegistry) : HookRegistry :=
  List.filter (fun h => negb (String.eqb (h_name h) name)) r.
Definition by_spirit_type (st : SpiritType) (r : HookRegistry) : list Hook :=
  List.filter (fun h => bool_decide (st ∈ spirit_types h)) r.

(** What firing shows outside: the GeJu result on the event bus, hooks awaited
    in order, and hooks left to run on their own. *)
Inductive HookTrace :=
| GeJuEmitted (tool pattern : string) (mode : ExecutionMode)
| Awaited (hook : string)
| Detached (hook : string).

Section Fire.
Context (glob : string -> option (string -> bool)).

Definition event_matches_matcher (h : Hook) (e : HookEvent) : bool :=
  match matcher h with
  | None => true
  | Some pattern =>
      match e with
      | ToolPreExecute tool_name _ | ToolPostExecute tool_name _ _ _ =>
          match glob pattern with Some m => m tool_name | None => false end
      | _ => true
      end
  end.

Definition geju_gate_and_collect (r : HookRegistry) (st : SpiritType) (earth : Stem) (e : HookEvent)
    : list HookTrace * list Hook :=
  let result := evaluate {| heaven_stem := Ding; earth_stem := earth |} in
  let emitted := [GeJuEmitted ("hook:" +:+ spirit_name st) (name result) (execution_mode result)] in
  match execution_mode result with
  | Denied => (emitted, [])
  | _ => (emitted, List.filter (fun h => event_matches_matcher h e) (by_spirit_type st r))
  end.

Definition fire_void_hooks (r : HookRegistry) (st : SpiritType) (earth : Stem) (e : HookEvent) : list HookTrace :=
  let '(trace, matching) := geju_gate_and_collect r st earth e in
  trace ++ map (fun h => Detached (h_name h)) matching.

Fixpoint guard_loop (e : HookEvent) (hooks : list Hook) : option string * list HookTrace :=
  match hooks with
  | [] => (None, [])
  | h :: rest =>
      if negb (block_on_failure h) then
        let '(r, t) := guard_loop e rest in (r, Detached (h_name h) :: t)
      else
        match on_event h e with
        | Some (Cancel reason) => (Some reason, [Awaited (h_name h)])
        | _ => let '(r, t) := guard_loop e rest in (r, Awaited (h_name h) :: t)
        end
  end.

Definition fire_guarding_hooks (r : HookRegistry) (st : SpiritType) (earth : Stem) (e : HookEvent)
    : option string * list HookTrace :=
  let '(trace, matching) := geju_gate_and_collect r st earth e in
  let '(reason, t) := guard_loop e matching in
  (reason, trace ++ t).

End Fire.

(** ** The user's pre-tool hooks *)

Inductive UserHookEvent := PreToolUse | PostToolUse.
#[export] Instance UserHookEvent_eq_dec : EqDecision UserHookEvent.
Proof. solve_decision. Defined.

Record CompiledHook := {
  ch_event : UserHookEvent;
  tool_pattern : option (string -> bool);
  command : string;
  block_on_exit : bool
}.

Record HookConfig := {
  hc_event : string;
  hc_tool_pattern : option string;
  hc_command : string;
  hc_block_on_exit : bool
}.

Section User.
(** [Regex::new], with the text of the error. *)
Context (regex : string -> result string (string -> bool)).
(** Running [sh -c command]: the task was lost, the command could not be
    started, or it exited with or without success. *)
Inductive Status := JoinError (e : string) | SpawnError | Exited (success : bool).
Context (run_command : string -> string -> Value -> Status).

Definition compile_hook (cfg : HookConfig) : result string CompiledHook :=
  event ← (if one_of (hc_event cfg) ["pre_tool_use"] then Ok PreToolUse
           else if one_of (hc_event cfg) ["post_tool_use"] then Ok PostToolUse
           else Err ("unknown hook event: " +:+ hc_event cfg));
  pattern ← (match hc_tool_pattern cfg with
             | Some p =>
                 if is_empty_str p then Ok None
                 else match regex p with
                      | Ok m => Ok (Some m)
                      | Err e => Err ("bad hook tool_pattern '" +:+ p +:+ "': " +:+ e)
                      end
             | None => Ok None
             end);
  Ok {| ch_event := event; tool_pattern := pattern; command := hc_command cfg;
        block_on_exit := hc_block_on_exit cfg |}.

Definition matches_tool (h : CompiledHook) (tool_name : string) : bool :=
  match tool_pattern h with Some m => m tool_name | None => true end.

Fixpoint run_pre_tool_hooks (hooks : list CompiledHook) (tool_name : string) (input : Value) : result string unit :=
  match hooks with
  | [] => Ok ()
  | h :: rest =>
      if negb (bool_decide (ch_event h = PreToolUse)) || negb (matches_tool h tool_name) then
        run_pre_tool_hooks rest tool_name input
      else
        match run_command (command h) tool_name input with
        | JoinError e => Err ("hook join error: " +:+ e)
        | SpawnError => run_pre_tool_hooks rest tool_name input
        | Exited success =>
            if block_on_exit h && negb success then
              Err ("Tool '" +:+ tool_name +:+ "' blocked by pre-tool-use hook (人盘门规): " +:+ command h)
            else run_pre_tool_hooks rest tool_name input
        end
  end.

End User.

(** * Proofs *)

(** The hook's own GeJu (Ding over any stem) never denies: hooks always fire. *)
Lemma hook_gate_never_denies earth : execution_mode (evaluate {| heaven_stem := Ding; earth_stem := earth |}) <> Denied.
Proof. by destruct earth. Qed.

Lemma collect_all glob r st earth e :
  snd (geju_gate_and_collect glob r st earth e) =
  List.filter (fun h => event_matches_matcher glob h e) (by_spirit_type st r).
Proof. unfold geju_gate_and_collect. by destruct earth. Qed.

(** Registration keeps the order by priority. *)
#[export] Instance before_trans : Transitive before.
Proof. intros a b c. unfold before. lia. Qed.
#[export] Instance before_total : Total before.
Proof. intros a b. unfold before. lia. Qed.

Lemma register_sorted h r : StronglySorted before (register_hook h r).
Proof. apply (StronglySorted_stable_sort before). Qed.

(** Among equals, the hook registered first comes first. *)
Lemma register_stable p h r :
  List.filter (fun x => priority x =? p)%Z (register_hook h r) =
  List.filter (fun x => priority x =? p)%Z r ++ (if (priority h =? p)%Z then [h] else []).
Proof.
  unfold register_hook. rewrite (stable_sort_stable before).
  - rewrite List.filter_app. reflexivity.
  - intros x y Hx Hy. bool_to_prop. unfold before. lia.
Qed.

Lemma filter_sorted {A} (R : A -> A -> Prop) p l : StronglySorted R l -> StronglySorted R (List.filter p l).
Proof.
  induction 1 as [|x l _ IH Hx]; cbn; [constructor|]. destruct (p x); [|done]. constructor; [done|].
  rewrite Forall_forall in *. intros y Hy. apply list_elem_of_In, List.filter_In in Hy as [Hy _].
  by apply Hx, list_elem_of_In.
Qed.

(** Why a hook stops the walk, and the mark it leaves. *)
Definition stops (e : HookEvent) (h : Hook) : option string :=
  if block_on_failure h then match on_event h e with Some (Cancel reason) => Some reason | _ => None end else None.
Definition mark (h : Hook) : HookTrace :=
  if block_on_failure h then Awaited (h_name h) else Detached (h_name h).

Lemma guard_loop_cons e h rest :
  guard_loop e (h :: rest) =
  match stops e h with
  | Some reason => (Some reason, [mark h])
  | None => let '(r, t) := guard_loop e rest in (r, mark h :: t)
  end.
Proof.
  cbn. unfold stops, mark. destruct (block_on_failure h); [|done]. by destruct (on_event h e) as [[|reason]|].
Qed.

(** The walk stops at the first hook that cancels, and only hooks up to it have
    seen the event. *)
Lemma guard_loop_spec e hooks :
  match guard_loop e hooks with
  | (Some reason, t) => exists l1 h l2, hooks = l1 ++ h :: l2 /\ stops e h = Some reason /\
      Forall (fun x => stops e x = None) l1 /\ t = map mark (l1 ++ [h])
  | (None, t) => Forall (fun x => stops e x = None) hooks /\ t = map mark hooks
  end.
Proof.
  induction hooks as [|h hooks IH]; [by split|]. rewrite guard_loop_cons.
  destruct (stops e h) as [reason|] eqn:Hs; [by exists [], h, hooks|].
  destruct (guard_loop e hooks) as [[reason|] t].
  - destruct IH as (l1 & h' & l2 & -> & Hs' & Hl & ->). exists (h :: l1), h', l2. auto.
  - destruct IH as [Hl ->]. auto.
Qed.

(** The same for the user's hooks: the first blocking hook whose command exits
    without success stops the call, and nothing else does but a lost task. *)
Definition user_blocks (run : string -> string -> Value -> Status) (tool : string) (input : Value) (h : CompiledHook) : bool :=
  bool_decide (ch_event h = PreToolUse) && matches_tool h tool &&
  match run (command h) tool input with
  | JoinError _ => true
  | SpawnError => false
  | Exited success => block_on_exit h && negb success
  end.

Lemma run_pre_tool_hooks_spec run hooks tool input :
  run_pre_tool_hooks run hooks tool input = Ok () <-> forall h, h ∈ hooks -> user_blocks run tool input h = false.
Proof.
  induction hooks as [|h hooks IH]; [split; [set_solver|done]|]. cbn [run_pre_tool_hooks].
  assert (Hall : (forall x, x ∈ h :: hooks -> user_blocks run tool input x = false) <->
                 user_blocks run tool input h = false /\ run_pre_tool_hooks run hooks tool input = Ok ()).
  { rewrite IH. set_solver. }
  rewrite Hall. unfold user_blocks at 1. destruct (bool_decide _); cbn [negb orb andb]; [|tauto].
  destruct (matches_tool h tool); cbn [negb orb andb]; [|tauto].
  destruct (run (command h) tool input) as [e| |s]; [by split; [|intros [? _]]|tauto|].
  destruct (_ && _); [by split; [|intros [? _]]|tauto].
Qed.

(** Guarding a tool call with the registered hooks.  The hooks that see the
    event are those of the spirit whose matcher admits the tool, all of them
    (their own GeJu never suppresses one) and, in a registry built by
    registration, in order of falling priority; the call is stopped exactly by
    the first blocking hook that cancels, with its reason; hooks after it are
    not run; and a hook that is not blocking, or panics, never stops a call. *)
Theorem guarding_hooks_spec glob r st earth e (Hsorted : StronglySorted before r) :
  let matching := List.filter (fun h => event_matches_matcher glob h e) (by_spirit_type st r) in
  StronglySorted before matching /\
  match fire_guarding_hooks glob r st earth e with
  | (Some reason, t) => exists l1 h l2, matching = l1 ++ h :: l2 /\
      block_on_failure h = true /\ on_event h e = Some (Cancel reason) /\
      Forall (fun x => block_on_failure x = false \/ forall y, on_event x e <> Some (Cancel y)) l1 /\
      exists g, t = g :: map mark (l1 ++ [h])
  | (None, t) =>
      Forall (fun x => block_on_failure x = false \/ forall y, on_event x e <> Some (Cancel y)) matching /\
      exists g, t = g :: map mark matching
  end.
Proof.
  intros matching. split; [by apply filter_sorted, filter_sorted|].
  assert (Hnone : forall l, Forall (fun x => stops e x = None) l ->
    Forall (fun x => block_on_failure x = false \/ forall y, on_event x e <> Some (Cancel y)) l).
  { intros l Hl. eapply Forall_impl; [exact Hl|]. intros x. cbn. unfold stops. destruct (block_on_failure x); [|by left].
    destruct (on_event x e) as [[|y]|]; [by right|done|by right]. }
  unfold fire_guarding_hooks. pose proof (collect_all glob r st earth e) as Hc.
  assert (Hone : exists g, fst (geju_gate_and_collect glob r st earth e) = [g]).
  { unfold geju_gate_and_collect. destruct (execution_mode _); by eexists. }
  destruct (geju_gate_and_collect glob r st earth e) as [trace hooks]. cbn in Hc, Hone. subst hooks.
  destruct Hone as [g ->]. fold matching. pose proof (guard_loop_spec e matching) as Hg.
  destruct (guard_loop e matching) as [[reason|] t].
  - destruct Hg as (l1 & h & l2 & He & Hs & Hl & ->). exists l1, h, l2. split; [done|].
    unfold stops in Hs. destruct (block_on_failure h); [|done].
    destruct (on_event h e) as [[|y]|]; [done| |done]. injection Hs as ->. eauto 10.
  - destruct Hg as [Hl ->]. eauto.
Qed.

Definition veto (n : string) (p : Z) (block : bool) (r : option HookResult) : Hook :=
  {| h_name := n; priority := p; spirit_types := [ZhiFu]; matcher := None; block_on_failure := block;
     on_event := fun _ => r |}.

Definition sample_hooks : HookRegistry :=
  register_hook (veto "late" 1 true (Some (Cancel "late")))
    (register_hook (veto "first" 9 true (Some (Cancel "no")))
       (register_hook (veto "panics" 20 true None) [])).

Lemma guarding_hooks_spec_witness :
  fst (fire_guarding_hooks (fun _ => None) sample_hooks ZhiFu Wu (ToolPreExecute "shell" Null)) = Some "no"%string /\
  StronglySorted before (List.filter (fun h => event_matches_matcher (fun _ => None) h (ToolPreExecute "shell" Null))
                           (by_spirit_type ZhiFu sample_hooks)).
Proof.
  split; [by vm_compute|].
  apply (guarding_hooks_spec (fun _ => None) sample_hooks ZhiFu Wu (ToolPreExecute "shell" Null)). apply register_sorted.
Defined.
