(* ===== verification/Context.v ===== *)
(** * The context window

    src/kernel/src/palaces/xun_context/mod.rs: the sliding window over a
    session's messages ([fit], [victim_range], [would_exceed]) and the token
    budget of tool outputs.  The tokenizer is the library tiktoken: a class. *)

From Stdlib Require Import Ascii.
From S2P Require Export Prelude RString Float.

#[local] Arguments String.append !_ _ : simpl nomatch.

Class Tokenizer := {
  Token : Type;
  encode_with_special_tokens : string -> list Token;
  decode_to_string : list Token -> option string
}.

(** ** Messages (src/kernel/src/types.rs) *)

Inductive Role := System | User | Assistant.
#[export] Instance Role_eq_dec : EqDecision Role.
Proof. solve_decision. Defined.

Record Message := { role : Role; content : string; images : list string }.

(** ** The window *)

Record ContextWindow := { max_tokens : Z; compaction_threshold : spec_float }.

Section Window.
Context `{Tokenizer}.

Definition message_tokens (m : Message) : Z := Z.of_nat (length (encode_with_special_tokens (content m))).

Definition sum_tokens (l : list Z) : Z := foldr Z.add 0%Z l.

Definition count_tokens (messages : list Message) : Z := sum_tokens (message_tokens <$> messages).

Definition spaces (n : nat) : string := concat_str (replicate n " "%string).

Definition total_with (messages : list Message) (extra_chars : nat) : Z :=
  (count_tokens messages + Z.of_nat (length (encode_with_special_tokens (spaces extra_chars))))%Z.

Definition limit (cw : ContextWindow) : Z :=
  trunc_to u64_max (F64.mul (F64.of_Z (max_tokens cw)) (compaction_threshold cw)).

Definition would_exceed (cw : ContextWindow) (messages : list Message) (extra_chars : nat) : bool :=
  (limit cw <? total_with messages extra_chars)%Z.

Definition starts_with_system (messages : list Message) : bool :=
  match messages with m :: _ => bool_decide (role m = System) | [] => false end.

Definition min_len (messages : list Message) : nat := if starts_with_system messages then 2 else 1.
Definition remove_start (messages : list Message) : nat := if starts_with_system messages then 1 else 0.

(** [rposition]: the last index a predicate holds at. *)
Definition rposition {A} (p : A -> bool) (l : list A) : option nat :=
  (fun i => length l - 1 - i)%nat <$> position p (reverse l).

Definition is_user (m : Message) : bool := bool_decide (role m = User).

(** The loop of [victim_range] over the token counts from [idx] on. *)
Fixpoint victim_loop (len min_len : nat) (limit : Z) (last_user_idx : option nat) (tokens : list Z)
    (total : Z) (count idx : nat) : nat :=
  if (min_len <? len - count)%nat && (limit <? total)%Z then
    match tokens with
    | [] => count
    | t :: rest =>
        match last_user_idx with
        | Some lui => if (lui <=? idx)%nat then count
                      else victim_loop len min_len limit last_user_idx rest (saturating_sub total t) (S count) (S idx)
        | None => victim_loop len min_len limit last_user_idx rest (saturating_sub total t) (S count) (S idx)
        end
    end
  else count.

Definition victim_range (cw : ContextWindow) (messages : list Message) : nat * nat :=
  if (length messages <=? min_len messages)%nat then (0, 0)%nat
  else
    let tokens := message_tokens <$> messages in
    let start := remove_start messages in
    (start, victim_loop (length messages) (min_len messages) (limit cw) (rposition is_user messages)
              (drop start tokens) (sum_tokens tokens) 0 start).

(** The loop of [fit]; [rest] are the messages from [remove_start] on. *)
Fixpoint fit_loop (start min_len : nat) (limit : Z) (rest : list Message) (total : Z) (dropped : nat) :
    list Message * nat * Z :=
  match rest with
  | m :: rest' =>
      if (min_len <? start + length rest)%nat && (limit <? total)%Z
      then fit_loop start min_len limit rest' (saturating_sub total (message_tokens m)) (S dropped)
      else (rest, dropped, total)
  | [] => (rest, dropped, total)
  end.

(** The messages kept, the number dropped and the tokens left. *)
Definition fit (cw : ContextWindow) (messages : list Message) : list Message * nat * Z :=
  let start := remove_start messages in
  let '(rest, dropped, total) :=
    fit_loop start (min_len messages) (limit cw) (drop start messages) (count_tokens messages) 0 in
  (take start messages ++ rest, dropped, total).

End Window.

(** ** Tool outputs *)

Record ToolOutputBudget := {
  default_budget : Z;
  tool_budgets : gmap string Z;
  char_fast_path_multiplier : Z
}.

Definition budget_for (b : ToolOutputBudget) (tool_name : string) : Z :=
  default (default_budget b) (tool_budgets b !! tool_name).

Definition default_tool_budgets : list (string * Z) :=
  [("shell", 1500); ("read_file", 2500); ("grep", 2000); ("git", 2000); ("delegate", 3000); ("web_fetch", 4000);
   ("web_search", 2500); ("namarupa", 1500); ("skill", 2000); ("task", 1000); ("cron", 1000); ("ask_user", 1500);
   ("write_file", 500); ("patch_file", 500); ("web_execute_js", 3000); ("browser_navigate", 3000);
   ("browser_snapshot", 2500); ("browser_click", 2000); ("browser_type", 2000); ("browser_press", 2000);
   ("browser_screenshot", 1500); ("browser_scroll", 500); ("browser_console", 2000); ("browser_dialog", 500);
   ("computer_use", 80000)]%string%Z.

Definition ToolOutputBudget_default : ToolOutputBudget :=
  {| default_budget := 1500; tool_budgets := list_to_map default_tool_budgets; char_fast_path_multiplier := 2 |}.

Section Budget.
Context `{Tokenizer}.

Definition token_count (s : string) : Z := Z.of_nat (length (encode_with_special_tokens s)).

Definition truncation_marker (output : string) (tokens budget : Z) : string :=
  let base_marker := nl +:+ "... [truncated ~" +:+ pretty (Z.of_nat (String.length output)) +:+ " chars / " +:+
                     pretty tokens +:+ " total tokens] ..." +:+ nl in
  if (200 <=? budget)%Z then
    base_marker +:+ "[the omitted middle is not in this preview; do not repeat the same call — " +:+
    "narrow it instead (grep/head/tail filters, smaller max_lines). " +:+
    "If a " +:+ dq +:+ "完整输出已保存" +:+ dq +:+ " notice follows, page through the full output " +:+
    "with retrieve_tool_result by tool_call_id. " +:+
    "For shell, run_in_background: true writes full output to a file " +:+
    "you can page through with read_file]" +:+ nl
  else base_marker.

(** The tokens kept at each end. *)
Definition head_tokens (budget marker_tokens : Z) : Z := Z.max (saturating_sub budget marker_tokens / 2) 1.
Definition tail_tokens (budget marker_tokens : Z) : Z :=
  Z.max (saturating_sub (saturating_sub budget marker_tokens) (head_tokens budget marker_tokens)) 1.

Definition truncate_output (b : ToolOutputBudget) (output tool_name : string) : string :=
  let budget := budget_for b tool_name in
  if (Z.of_nat (String.length output) <? budget * char_fast_path_multiplier b)%Z then output
  else
    let tokens := encode_with_special_tokens output in
    if (Z.of_nat (length tokens) <=? budget)%Z then output
    else
      let marker := truncation_marker output (Z.of_nat (length tokens)) budget in
      let marker_tokens := token_count marker in
      let head := default "" (decode_to_string (take (Z.to_nat (head_tokens budget marker_tokens)) tokens)) in
      let tail_start := (length tokens - Z.to_nat (tail_tokens budget marker_tokens))%nat in
      let tail := if (tail_start <? length tokens)%nat
                  then default "" (decode_to_string (drop tail_start tokens)) else "" in
      head +:+ marker +:+ tail.

End Budget.

(** * Proofs *)

Section WindowProofs.
Context `{Tokenizer}.

Lemma message_tokens_nonneg m : (0 <= message_tokens m)%Z.
Proof. unfold message_tokens. lia. Qed.

Lemma count_tokens_nil : count_tokens [] = 0%Z.
Proof. done. Qed.

Lemma count_tokens_cons m l : count_tokens (m :: l) = (message_tokens m + count_tokens l)%Z.
Proof. done. Qed.

Lemma count_tokens_nonneg l : (0 <= count_tokens l)%Z.
Proof. induction l as [|m l IH]; [done|]. rewrite count_tokens_cons. pose proof (message_tokens_nonneg m). lia. Qed.

Lemma count_tokens_app a b : count_tokens (a ++ b) = (count_tokens a + count_tokens b)%Z.
Proof. induction a as [|m a IH]; [done|]. rewrite <- app_comm_cons, !count_tokens_cons, IH. lia. Qed.

#[local] Arguments count_tokens : simpl never.

(** What the loop of [fit] removes: the shortest prefix that reaches the limit
    or leaves the minimal length. *)
Definition fit_stop (start min : nat) (lim base : Z) (rest : list Message) (k : nat) : Prop :=
  (k = 0 \/ min <= start + (length rest - k)) /\ k <= length rest /\
  (start + (length rest - k) <= min \/ (base + count_tokens (drop k rest) <= lim)%Z) /\
  forall j, j < k -> min < start + (length rest - j) /\ (lim < base + count_tokens (drop j rest))%Z.

Lemma fit_loop_spec start min lim base rest dropped (Hbase : (0 <= base)%Z) (Hmin : start <= min) :
  exists k, fit_loop start min lim rest (base + count_tokens rest) dropped =
      (drop k rest, (dropped + k)%nat, (base + count_tokens (drop k rest))%Z) /\ fit_stop start min lim base rest k.
Proof.
  revert dropped. induction rest as [|m rest IH]; intros dropped.
  - exists 0. split; [cbn; by rewrite Nat.add_0_r|]. repeat split; cbn; try lia.
  - cbn [fit_loop]. destruct ((min <? _)%nat && (lim <? _)%Z) eqn:Hc.
    + apply andb_true_iff in Hc as [Hl%Nat.ltb_lt Ht%Z.ltb_lt].
      replace (saturating_sub _ _) with (base + count_tokens rest)%Z
        by (rewrite count_tokens_cons; unfold saturating_sub; pose proof (count_tokens_nonneg rest); lia).
      destruct (IH (S dropped)) as (k & -> & Hk0 & Hk & Hstop & Hj). exists (S k).
      split; [cbn; by rewrite Nat.add_succ_r|]. cbn in *. unfold fit_stop. cbn.
      split; [lia|]. split; [lia|]. split; [lia|]. intros [|j] Hlt; [cbn; lia|]. destruct (Hj j); cbn; lia.
    + exists 0. split; [cbn; by rewrite Nat.add_0_r|]. rewrite andb_false_iff, Nat.ltb_ge, Z.ltb_ge in Hc.
      unfold fit_stop. cbn in *. split; [lia|]. split; [lia|]. split; [lia|]. lia.
Qed.

(** The shared conclusion of both functions: where [fit] stops. *)
Lemma fit_run cw messages :
  let start := remove_start messages in
  exists k, fit cw messages =
      (take start messages ++ drop (start + k) messages, k,
       count_tokens (take start messages ++ drop (start + k) messages)) /\
    fit_stop start (min_len messages) (limit cw) (count_tokens (take start messages)) (drop start messages) k.
Proof.
  intros start. unfold fit. fold start.
  assert (Hmin : start <= min_len messages) by (unfold start, remove_start, min_len; case_match; lia).
  destruct (fit_loop_spec start (min_len messages) (limit cw) (count_tokens (take start messages))
              (drop start messages) 0 (count_tokens_nonneg _) Hmin) as (k & Hrun & Hstop).
  exists k. split; [|done]. rewrite <- count_tokens_app, take_drop in Hrun. rewrite Hrun.
  by rewrite drop_drop, count_tokens_app.
Qed.

Definition fit_dropped (r : list Message * nat * Z) : nat := snd (fst r).

Lemma fit_loop_dropped start min lim rest total d :
  fit_dropped (fit_loop start min lim rest total d) = d + fit_dropped (fit_loop start min lim rest total 0).
Proof.
  revert total d. induction rest as [|m rest IH]; intros total d; cbn; [lia|].
  case_match; [|cbn; lia]. rewrite IH, (IH _ 1). lia.
Qed.

(** [victim_range] stops where [fit] stops, or before the last user message. *)
Definition up_to_user (last_user_idx : option nat) (idx k : nat) : nat :=
  match last_user_idx with Some lui => k `min` (lui - idx) | None => k end.

Lemma victim_loop_spec len start min lim lui rest total count idx (Hlen : len - count = start + length rest) :
  victim_loop len min lim lui (message_tokens <$> rest) total count idx =
    count + up_to_user lui idx (fit_dropped (fit_loop start min lim rest total 0)).
Proof.
  revert total count idx Hlen. induction rest as [|m rest IH]; intros total count idx Hlen; cbn [fmap list_fmap victim_loop fit_loop].
  - case_match; destruct lui; cbn; lia.
  - rewrite Hlen. case_match; [|destruct lui; cbn; lia].
    cbn in Hlen. rewrite fit_loop_dropped. destruct lui as [lui|].
    + destruct (Nat.leb_spec lui idx); [unfold up_to_user; lia|]. rewrite IH by lia. cbn [up_to_user]. lia.
    + rewrite IH by lia. cbn [up_to_user]. lia.
Qed.

Lemma last_skip {A} (l1 : list A) n l : n < length l -> last (l1 ++ drop n l) = last l.
Proof.
  intros Hn. rewrite <- (take_drop n l) at 2. rewrite !last_app.
  destruct (last (drop n l)) eqn:Hl; [done|]. apply last_None in Hl. apply (f_equal length) in Hl.
  rewrite length_drop in Hl. cbn in Hl. lia.
Qed.

(** Compaction.  [fit] keeps a leading system message and drops the
    oldest other messages: exactly as many as it takes to reach the limit or
    the minimal length, never the last message, and reports the number dropped
    and the tokens that remain. *)
Theorem fit_spec cw messages :
  let start := remove_start messages in
  exists k, fit cw messages =
      (take start messages ++ drop (start + k) messages, k,
       count_tokens (take start messages ++ drop (start + k) messages)) /\
    (length messages <= min_len messages -> k = 0) /\
    ((count_tokens (take start messages ++ drop (start + k) messages) <= limit cw)%Z \/
       length (take start messages ++ drop (start + k) messages) <= min_len messages) /\
    (forall j, j < k -> (limit cw < count_tokens (take start messages ++ drop (start + j) messages))%Z) /\
    last (take start messages ++ drop (start + k) messages) = last messages.
Proof.
  intros start. destruct (fit_run cw messages) as (k & Hrun & Hk0 & Hk & Hstop & Hj). fold start in Hrun, Hk0, Hk, Hstop, Hj.
  assert (Hs : start < min_len messages) by (unfold start, remove_start, min_len; case_match; lia).
  rewrite !length_drop in *.
  exists k. split; [done|]. split; [|split; [|split]].
  - intros Hle. destruct k as [|k]; [done|]. destruct (Hj 0); lia.
  - rewrite length_app, length_take, length_drop. rewrite drop_drop, <- count_tokens_app in Hstop.
    destruct Hstop; [right|by left]. lia.
  - intros j Hlt. destruct (Hj j Hlt) as [_ Hd]. by rewrite drop_drop, <- count_tokens_app in Hd.
  - destruct (decide (k = 0)) as [->|]; [by rewrite Nat.add_0_r, take_drop|].
    apply last_skip. lia.
Qed.

(** The messages compaction summarizes first.  [victim_range] names the
    messages [fit] would drop, cut short before the last user message: what it
    returns never contains the last user message and never more than [fit]
    drops. *)
Theorem victim_range_spec cw messages (Hlen : min_len messages < length messages) :
  let '(start, count) := victim_range cw messages in
  start = remove_start messages /\
  count = up_to_user (rposition is_user messages) start (fit_dropped (fit cw messages)) /\
  (forall lui, rposition is_user messages = Some lui -> ~ (start <= lui < start + count)).
Proof.
  unfold victim_range. destruct (Nat.leb_spec (length messages) (min_len messages)); [lia|].
  set (start := remove_start messages).
  assert (Hs : start < min_len messages) by (unfold start, remove_start, min_len; case_match; lia).
  rewrite <- fmap_drop, (victim_loop_spec _ start) by (rewrite length_drop; lia).
  assert (fit_dropped (fit_loop start (min_len messages) (limit cw) (drop start messages) (sum_tokens (message_tokens <$> messages)) 0)
          = fit_dropped (fit cw messages)) as ->.
  { unfold fit. fold start. change (sum_tokens _) with (count_tokens messages). by destruct (fit_loop _ _ _ _ _ _) as [[? ?] ?]. }
  split; [done|]. split; [done|]. intros lui ->. cbn. lia.
Qed.
End WindowProofs.

Section BudgetProofs.
Context `{Tokenizer}.

(** The token budget of tool outputs.  An output is passed unchanged, or
    it was longer than its budget and is replaced by its first [h] and its
    last [t] tokens around a marker: at least one token is kept at each end,
    the two ends do not overlap unless the output is a single token, and
    together with the marker they make up the budget exactly, unless the marker
    alone leaves less than two tokens of it. *)
Theorem truncate_output_spec b output tool_name (Hbudget : (0 <= budget_for b tool_name)%Z) :
  let tokens := encode_with_special_tokens output in
  let budget := budget_for b tool_name in
  let marker := truncation_marker output (Z.of_nat (length tokens)) budget in
  truncate_output b output tool_name = output \/
  exists h t, truncate_output b output tool_name =
      default "" (decode_to_string (take h tokens)) +:+ marker +:+
      default "" (decode_to_string (drop (length tokens - t) tokens)) /\
    (Z.of_nat (length tokens) > budget)%Z /\ 1 <= h /\ 1 <= t /\
    (1 < length tokens -> h + t <= length tokens) /\
    (Z.of_nat (h + t) + token_count marker = Z.max budget (token_count marker + 2))%Z.
Proof.
  intros tokens budget marker. fold budget in Hbudget. unfold truncate_output. fold tokens budget marker.
  destruct (_ <? _)%Z; [by left|]. destruct (Z.leb_spec (Z.of_nat (length tokens)) budget); [by left|]. right.
  exists (Z.to_nat (head_tokens budget (token_count marker))), (Z.to_nat (tail_tokens budget (token_count marker))).
  assert (Hm : (0 <= token_count marker)%Z) by (unfold token_count; lia).
  clearbody budget. assert (Hb : (Z.to_nat (head_tokens budget (token_count marker)) + Z.to_nat (tail_tokens budget (token_count marker)) =
    Z.to_nat (Z.max 2 (budget - token_count marker)))%nat /\ (1 <= head_tokens budget (token_count marker))%Z /\
    (1 <= tail_tokens budget (token_count marker))%Z).
  { unfold tail_tokens, head_tokens, saturating_sub.
    set (c := Z.max 0 (budget - token_count marker)).
    assert (Hc : (0 <= c)%Z) by (unfold c; lia).
    replace (Z.max 2 (budget - token_count marker)) with (Z.max 2 c) by (unfold c; lia). clearbody c.
    assert (c < 2 \/ (1 <= c / 2 /\ 1 <= c - c / 2 <= c))%Z as [?|[? ?]] by (Z.to_euclidean_division_equations; lia);
      [rewrite (Z.max_r (c / 2)) by (Z.to_euclidean_division_equations; lia); lia|].
    rewrite (Z.max_l (c / 2)) by lia. generalize dependent (c / 2)%Z. intros q. lia. }
  destruct Hb as (Hsum & Hh & Ht). split.
  - destruct (Nat.ltb_spec (length tokens - Z.to_nat (tail_tokens budget (token_count marker))) (length tokens)); [done|]. lia.
  - repeat split; lia.
Qed.
End BudgetProofs.

(** ** Concrete runs *)

(** One token per byte. *)
Definition byte_tokenizer : Tokenizer :=
  {| Token := ascii; encode_with_special_tokens := String.list_ascii_of_string; decode_to_string := fun l => Some (String.string_of_list_ascii l) |}.

Definition msg (r : Role) (c : string) : Message := {| role := r; content := c; images := [] |}.

(** A window of 16 tokens, half of it usable. *)
Definition small_window : ContextWindow := {| max_tokens := 16; compaction_threshold := F64.lit 1 2 |}.

Definition sample_messages : list Message :=
  [msg System "sys"; msg Assistant "hello"; msg User "question"; msg Assistant "reply!"].

(** [fit] drops the last user message, which [victim_range] protects: the
    summary covers less than what is dropped. *)
Example fit_drops_last_user :
  fst (@fit byte_tokenizer small_window sample_messages) = ([msg System "sys"; msg Assistant "reply!"], 2) /\
  @victim_range byte_tokenizer small_window sample_messages = (1, 1).
Proof. split; vm_compute; reflexivity. Qed.

Lemma victim_range_spec_witness :
  min_len sample_messages < length sample_messages /\
  1 = up_to_user (rposition is_user sample_messages) 1 2.
Proof.
  assert (H : min_len sample_messages < length sample_messages) by (vm_compute; lia).
  split; [exact H|]. pose proof (@victim_range_spec byte_tokenizer small_window sample_messages H) as Hv.
  assert (Hr : @victim_range byte_tokenizer small_window sample_messages = (1, 1)) by (vm_compute; reflexivity).
  assert (Hf : fit_dropped (@fit byte_tokenizer small_window sample_messages) = 2) by (vm_compute; reflexivity).
  rewrite Hr, Hf in Hv. apply Hv.
Defined.

(** The fast path compares bytes with twice the budget: an output of one token
    per byte passes it with almost twice its budget. *)
Example fast_path_exceeds_budget :
  let b := {| default_budget := 4; tool_budgets := ∅; char_fast_path_multiplier := 2 |} in
  @truncate_output byte_tokenizer b "abcdefg" "x" = "abcdefg"%string /\
  @token_count byte_tokenizer "abcdefg" = 7%Z.
Proof. split; vm_compute; reflexivity. Qed.

Lemma truncate_output_spec_witness :
  let b := {| default_budget := 3; tool_budgets := ∅; char_fast_path_multiplier := 2 |} in
  (0 <= budget_for b "x")%Z /\
  (@truncate_output byte_tokenizer b "abcdefg" "x" = "abcdefg"%string \/
   (7 > 3)%Z /\ starts_with (@truncate_output byte_tokenizer b "abcdefg" "x") "a" = true).
Proof.
  intros b. assert (H : (0 <= budget_for b "x")%Z) by (vm_compute; discriminate). split; [exact H|].
  destruct (@truncate_output_spec byte_tokenizer b "abcdefg" "x" H) as [Hs|(h & t & _ & Hl & _)]; [by left|right].
  split; [exact Hl|]. vm_compute. reflexivity.
Defined.
