(* ===== verification/Compaction.v ===== *)
(** * Compaction of the history

    src/kernel/src/types.rs (history entries and the messages they become),
    src/kernel/src/palaces/xun_context/handoff.rs (what a compaction preserves,
    the handoff note and its degradation chain) and the compaction step of
    src/kernel/src/plates/tian_heaven/loop.rs.  The model answers the language
    model's streams from a list of replies. *)

From Stdlib Require Import Ascii.
From S2P Require Export Prelude RString Float Json Context.

#[local] Arguments String.append !_ _ : simpl nomatch.

(** ** History entries *)

Inductive ToolStatus := Running | Success | Error.

Inductive HistoryEntry :=
| HUser (content : string) (images : list string)
| HAssistant (content : string)
| HSystem (content : string)
| HToolCall (id tool : string) (input : Value) (status : ToolStatus) (output : string)
    (error geju execution_mode : option string).

Definition is_message (e : HistoryEntry) : bool :=
  match e with HToolCall _ _ _ _ _ _ _ _ => false | _ => true end.

Definition is_user_entry (e : HistoryEntry) : bool := match e with HUser _ _ => true | _ => false end.

Definition to_llm_message (e : HistoryEntry) : option Message :=
  match e with
  | HUser c imgs => Some {| role := User; content := c; images := imgs |}
  | HAssistant c => Some {| role := Assistant; content := c; images := [] |}
  | HSystem c => Some {| role := System; content := c; images := [] |}
  | HToolCall _ tool _ _ output error _ _ =>
      let c := match error with
               | Some err => "Tool " +:+ tool +:+ " error: " +:+ err
               | None => "Tool " +:+ tool +:+ " result: " +:+ output
               end in
      Some {| role := User; content := c; images := [] |}
  end.

Definition to_llm_messages (entries : list HistoryEntry) : list Message := omap to_llm_message entries.

(** ** What a compaction preserves *)

Definition PRESERVED_USER_TOKEN_BUDGET : Z := 20000.
Definition PRESERVED_HEAD_TOKENS : Z := 2000.

(** The positions a predicate holds at. *)
Fixpoint indices_of {A} (p : A -> bool) (l : list A) (i : nat) : list nat :=
  match l with
  | [] => []
  | x :: l' => if p x then i :: indices_of p l' (S i) else indices_of p l' (S i)
  end.

Section Preserve.
Context `{Tokenizer}.

Definition token_len (s : string) : Z := Z.of_nat (length (encode_with_special_tokens s)).

Definition content_len (entries : list HistoryEntry) (i : nat) : Z :=
  match entries !! i with Some (HUser c _) => token_len c | _ => 0 end.

(** The head loop: the positions taken and the tokens used. *)
Fixpoint head_loop (len : nat -> Z) (positions : list nat) (used : Z) (head_count : nat) : nat * Z :=
  match positions with
  | [] => (head_count, used)
  | i :: rest =>
      if (0 <? head_count)%nat && (PRESERVED_HEAD_TOKENS <? used + len i)%Z then (head_count, used)
      else head_loop len rest (used + len i) (S head_count)
  end.

(** The tail loop, over the remaining positions from the last one backwards:
    how many are taken. *)
Fixpoint tail_loop (len : nat -> Z) (positions : list nat) (used : Z) : nat :=
  match positions with
  | [] => 0
  | i :: rest =>
      if (PRESERVED_USER_TOKEN_BUDGET <? used + len i)%Z then 0 else S (tail_loop len rest (used + len i)%Z)
  end.

Definition set_true (keep : list bool) (positions : list nat) : list bool :=
  foldl (fun k i => <[i := true]> k) keep positions.

Definition count_true (keep : list bool) : nat := length (List.filter id keep).

Definition select_preserved_users (entries : list HistoryEntry) : list bool * nat :=
  let user_positions := indices_of is_user_entry entries 0 in
  let len := content_len entries in
  let '(head_count, used) := head_loop len user_positions 0 0 in
  let keep := set_true (replicate (length entries) false) (take head_count user_positions) in
  let backwards := reverse (drop head_count user_positions) in
  let keep := set_true keep (take (tail_loop len backwards used) backwards) in
  (keep, length user_positions - count_true keep).

End Preserve.

Definition elision_marker (elided : nat) : string := "[…" +:+ pretty elided +:+ " 条真实用户消息已折叠进上方交接笔记…]".

(** ** The handoff note *)

Definition ceil_Z (x : spec_float) : Z :=
  match x with
  | S754_finite false m e => if (0 <=? e)%Z then Z.pos m * 2 ^ e else - (- Z.pos m / 2 ^ (- e))
  | _ => 0
  end.

Definition DEGRADE_RATIOS : list spec_float := [F64.lit 7 10; F64.lit 1 2; F64.lit 35 100].

Definition strip_message (m : Message) : Message :=
  match images m with
  | [] => m
  | imgs =>
      {| role := role m;
         content := (if String.eqb (content m) "" then content m else content m +:+ nl +:+ nl) +:+
                    "[" +:+ pretty (length imgs) +:+ " image(s) omitted — media stripped during compaction retry]";
         images := [] |}
  end.

Definition strip_media (messages : list Message) : list Message := map strip_message messages.

(** What the provider streams back for one request, and whether the session is
    cancelled when the stream has ended. *)
Inductive StreamChunk := Delta (delta : string) | OtherChunk.
Record Reply := { chunks : list (result string StreamChunk); cancelled : bool }.

Fixpoint collect (chunks : list (result string StreamChunk)) (response : string) : result string string :=
  match chunks with
  | [] => Ok response
  | Ok (Delta d) :: rest => collect rest (response +:+ d)
  | Ok OtherChunk :: rest => collect rest response
  | Err e :: _ => Err ("Summarization error: " +:+ e)
  end.

Definition summarize (messages : list Message) (reply : Reply) : result string Message :=
  match messages with
  | [] => Err "no messages to summarize"
  | _ =>
      match collect (chunks reply) "" with
      | Err e => Err e
      | Ok response =>
          if cancelled reply then Err "summarization cancelled — partial checkpoint discarded"
          else
            let summary := trim response in
            if String.eqb summary "" then Err "summarization produced empty output"
            else Ok {| role := User; content := summary; images := [] |}
      end
  end%string.

(** [keep.clamp(1, n)] of [ceil (n * ratio)]; the standard library panics on an
    empty interval. *)
Definition degraded_len (n : nat) (ratio : spec_float) : option nat :=
  if (n =? 0)%nat then None
  else Some (Nat.max 1 (Nat.min n (Z.to_nat (ceil_Z (F64.mul (F64.of_Z (Z.of_nat n)) ratio))))).

(** One attempt consumes one reply; without one the session is gone. *)
Definition no_reply : Reply := {| chunks := []; cancelled := true |}.
Definition next_reply (replies : list Reply) : Reply * list Reply :=
  match replies with r :: rest => (r, rest) | [] => (no_reply, []) end.

(** The loop over the ratios: the result (nothing on a panic), and the batches
    sent to the model. *)
Fixpoint degrade (stripped : list Message) (ratios : list spec_float) (replies : list Reply) (last_err : string) :
    option (result string Message) * list (list Message) :=
  match ratios with
  | [] => (Some (Err ("handoff summarization failed after degradation chain: " +:+ last_err)), [])
  | ratio :: ratios =>
      match degraded_len (length stripped) ratio with
      | None => (None, [])
      | Some keep =>
          let batch := drop (length stripped - keep) stripped in
          let '(reply, replies) := next_reply replies in
          match summarize batch reply with
          | Ok m => (Some (Ok m), [batch])
          | Err e =>
              if cancelled reply then (Some (Err e), [batch])
              else let '(r, batches) := degrade stripped ratios replies e in (r, batch :: batches)
          end
      end
  end.

Definition summarize_with_degradation (messages : list Message) (replies : list Reply) :
    option (result string Message) * list (list Message) :=
  let '(reply, replies) := next_reply replies in
  match summarize messages reply with
  | Ok m => (Some (Ok m), [messages])
  | Err e =>
      if cancelled reply then (Some (Err e), [messages])
      else let '(r, batches) := degrade (strip_media messages) DEGRADE_RATIOS replies "" in (r, messages :: batches)
  end.

(** ** Thrashing and races *)

Definition anti_thrash_skip (last_compaction_turn current_turn tokens_before tokens_after : Z) : bool :=
  if (last_compaction_turn =? 0)%Z then false
  else
    let turns_since := saturating_sub current_turn last_compaction_turn in
    let saved_pct := if (0 <? tokens_before)%Z then (saturating_sub tokens_before tokens_after * 100 / tokens_before)%Z else 100%Z in
    (turns_since <=? 2)%Z && (saved_pct <? 10)%Z.

(** Whether a turn compacts: over the limit, and not thrashing. *)
Definition compaction_due `{Tokenizer} (cw : ContextWindow) (messages : list Message)
    (last_compaction_turn current_turn tokens_before tokens_after : Z) : bool :=
  (limit cw <? count_tokens messages)%Z &&
  negb (anti_thrash_skip last_compaction_turn current_turn tokens_before tokens_after).

Definition fnv1a_hash (text : string) : Z :=
  foldl (fun hash byte => wrap_u64 (Z.lxor hash (Z.of_nat (nat_of_ascii byte)) * 0x100000001b3))
    0xcbf29ce484222325%Z (String.list_ascii_of_string text).

Definition entry_text (e : HistoryEntry) : string :=
  match e with HUser c _ | HAssistant c | HSystem c => c | HToolCall _ _ _ _ output _ _ _ => output end.

Definition fingerprint_step (acc : Z) (e : HistoryEntry) : Z :=
  Z.lxor acc (wrap_u64 (fnv1a_hash (entry_text e) + 0x9e3779b9 + wrap_u64 (Z.shiftl acc 6) + Z.shiftr acc 2)).

Definition history_fingerprint (entries : list HistoryEntry) : nat * Z :=
  (length entries, foldl fingerprint_step 0xcbf29ce484222325%Z entries).

(** ** The compaction step *)

Definition role_tag (r : Role) : string := match r with User => "U" | Assistant => "A" | System => "S" end.

Definition duplicate_note (m : Message) : Message :=
  {| role := role m; content := "[Duplicate — same content as an earlier message in this batch]"; images := [] |}.

Fixpoint dedup (seen : gset Z) (messages : list Message) : list Message :=
  match messages with
  | [] => []
  | m :: rest =>
      let key := fnv1a_hash (role_tag (role m) +:+ ":" +:+ content m) in
      if bool_decide (key ∈ seen) then duplicate_note m :: dedup seen rest
      else m :: dedup ({[key]} ∪ seen) rest
  end.

(** The elements whose mark is [b]. *)
Fixpoint keep_where {A} (b : bool) (l : list A) (mask : list bool) : list A :=
  match l, mask with
  | x :: l', k :: mask' => if Bool.eqb k b then x :: keep_where b l' mask' else keep_where b l' mask'
  | _, _ => []
  end.

Fixpoint leading_true (mask : list bool) : nat :=
  match mask with true :: rest => S (leading_true rest) | _ => 0 end.

(** The rebuild after [fit]: a message entry is kept while the messages [fit]
    left are not used up. *)
Fixpoint fit_rebuild (history : list HistoryEntry) (left : nat) : list HistoryEntry :=
  match history with
  | [] => []
  | e :: rest =>
      if is_message e then
        match left with
        | S left' => e :: fit_rebuild rest left'
        | O => fit_rebuild rest O
        end
      else e :: fit_rebuild rest left
  end.

Inductive Compaction :=
| NothingToCompact
| Compacted (method : string) (history : list HistoryEntry) (summary : option string)
| Aborted
| Panicked.

Section Compact.
Context `{Tokenizer}.

Definition note_entry (summary : string) : HistoryEntry :=
  HSystem ("[CONTEXT COMPACTION -- REFERENCE ONLY]" +:+ nl +:+ summary).

Definition replacement (summary : string) (victims : list HistoryEntry) (keep_mask : list bool) (elided : nat) :
    list HistoryEntry :=
  let head_len := leading_true keep_mask in
  note_entry summary :: take head_len victims ++
  (if (0 <? elided)%nat then [HSystem (elision_marker elided)] else []) ++
  keep_where true (drop head_len victims) (drop head_len keep_mask).

(** The step, with the batches sent to the model.  The history is borrowed by
    the loop while the summary is awaited, so both fingerprints are taken of
    the same entries. *)
Definition compact (cw : ContextWindow) (history : list HistoryEntry) (replies : list Reply) (now_cancelled : bool) :
    Compaction * list (list Message) :=
  let compact_msgs := to_llm_messages history in
  let msg_indices := indices_of is_message history 0 in
  let '(start, count) := victim_range cw compact_msgs in
  let count := Nat.min count (length msg_indices - start) in
  if (count =? 0)%nat then (NothingToCompact, [])
  else
    let hist_start := default 0 (msg_indices !! start) in
    let hist_end := S (default 0 (msg_indices !! (start + count - 1))) in
    let victim_entries := omap (fun i => history !! i) (take count (drop start msg_indices)) in
    let '(keep_mask, elided) := select_preserved_users victim_entries in
    let victims := dedup ∅ (keep_where false (take count (drop start compact_msgs)) keep_mask) in
    match victims with
    | [] => (NothingToCompact, [])
    | _ =>
        let fp_before := history_fingerprint (take hist_end history) in
        let '(result, batches) := summarize_with_degradation victims replies in
        (match result with
         | None => Panicked
         | Some (Ok summary) =>
             if negb (bool_decide (history_fingerprint (take hist_end history) = fp_before)) then Aborted
             else Compacted "summarize"
                    (take hist_start history ++ replacement (content summary) victim_entries keep_mask elided ++
                     drop hist_end history) (Some (content summary))
         | Some (Err _) =>
             if now_cancelled then Aborted
             else Compacted "fit" (fit_rebuild history (length (fst (fst (fit cw compact_msgs))))) None
         end, batches)
    end.

End Compact.

(** * Proofs *)

(** ** The degradation chain *)

(** The reply was complete: no error, not cut by a cancellation, and its
    trimmed text is the summary. *)
Definition complete (r : Reply) (summary : string) : Prop :=
  cancelled r = false /\ summary <> ""%string /\ exists response, collect (chunks r) "" = Ok response /\ summary = trim response.

Lemma summarize_complete messages reply m :
  summarize messages reply = Ok m -> complete reply (content m) /\ role m = User /\ images m = [].
Proof.
  unfold summarize. destruct messages; [done|]. destruct (collect (chunks reply) "") as [response|] eqn:Hc; [|done].
  destruct (cancelled reply) eqn:Hr; [done|]. destruct (String.eqb_spec (trim response) ""); [done|].
  intros [= <-]. split; [|done]. split; [done|]. split; [done|]. by exists response.
Qed.

(** A batch of the chain: a non-empty suffix. *)
Definition degraded (stripped b : list Message) : Prop := b <> [] /\ b `suffix_of` stripped.

Definition chain_result (replies : list Reply) (batches : list (list Message)) (r : result string Message) : Prop :=
  (forall i reply, S i < length batches -> replies !! i = Some reply -> cancelled reply = false) /\
  match r with
  | Ok m => exists reply, replies !! (length batches - 1) = Some reply /\ complete reply (content m)
  | Err _ => True
  end.

Lemma chain_result_cons reply replies b batches r :
  cancelled reply = false -> batches <> [] -> chain_result replies batches r ->
  chain_result (reply :: replies) (b :: batches) r.
Proof.
  intros Hc Hne [Hi Hr]. destruct batches as [|b' batches]; [done|]. split.
  - intros [|i] reply' Hl Hl'; [by simplify_eq/=|]. apply (Hi i); [cbn in *; lia|done].
  - destruct r; [|done]. destruct Hr as (rp & Hl & Hrp). exists rp. split; [|done].
    replace (length (b :: b' :: batches) - 1) with (S (length (b' :: batches) - 1)) by (cbn; lia). exact Hl.
Qed.

Lemma degrade_spec stripped ratios replies last_err (Hne : stripped <> []) :
  exists r batches, degrade stripped ratios replies last_err = (Some r, batches) /\
    length batches <= length ratios /\ (forall b, b ∈ batches -> degraded stripped b) /\ 
    (ratios <> [] -> batches <> []) /\ (batches = [] -> exists e, r = Err e) /\ chain_result replies batches r.
Proof.
  revert replies last_err. induction ratios as [|ratio ratios IH]; intros replies last_err; cbn [degrade].
  - do 2 eexists. split; [done|]. split; [cbn; lia|]. split; [by intros b ?%elem_of_nil|]. split; [done|].
    split; [by eexists|]. split; [cbn; lia|done].
  - unfold degraded_len. destruct (Nat.eqb_spec (length stripped) 0) as [Hl|Hl]; [by apply nil_length_inv in Hl|].
    set (keep := Nat.max 1 _). assert (1 <= keep <= length stripped) by lia.
    set (batch := drop (length stripped - keep) stripped).
    assert (Hbatch : degraded stripped batch).
    { split; [|apply suffix_drop]. intros Hb. apply (f_equal length) in Hb. unfold batch in Hb. rewrite length_drop in Hb. cbn in Hb. lia. }
    clearbody batch keep.
    assert (Hsingle : forall b, b ∈ [batch] -> degraded stripped b) by (by intros b ->%list_elem_of_singleton).
    destruct replies as [|reply replies]; cbn [next_reply].
    + destruct (summarize batch no_reply) as [m|e] eqn:Hs; [by apply summarize_complete in Hs as [[? _] _]|].
      do 2 eexists. split; [done|]. split; [cbn; lia|]. do 3 (split; [done|]). split; [cbn; lia|done].
    + destruct (summarize batch reply) as [m|e] eqn:Hs; [|destruct (cancelled reply) eqn:Hc].
      * do 2 eexists. split; [done|]. split; [cbn; lia|]. do 3 (split; [done|]). split; [cbn; lia|].
        exists reply. split; [done|]. by apply summarize_complete in Hs as [? _].
      * do 2 eexists. split; [done|]. split; [cbn; lia|]. do 3 (split; [done|]). split; [cbn; lia|done].
      * destruct (IH replies e) as (r & batches & -> & Hlen & Hall & _ & Hnil & Hres).
        do 2 eexists. split; [done|]. split; [cbn; lia|]. split; [by intros b [->|?]%elem_of_cons; auto|]. do 2 (split; [done|]).
        destruct batches as [|b' batches]; [|by apply chain_result_cons].
        destruct (Hnil eq_refl) as [e' ->]. split; [cbn; lia|done].
Qed.

Lemma handoff_chain_run messages replies (Hne : messages <> []) :
  exists r batches, summarize_with_degradation messages replies = (Some r, messages :: batches) /\
    length batches <= 3 /\ (forall b, b ∈ batches -> degraded (strip_media messages) b) /\
    chain_result replies (messages :: batches) r.
Proof.
  unfold summarize_with_degradation.
  assert (Hnil : forall b : list Message, b ∈ [] -> degraded (strip_media messages) b) by by intros b ?%elem_of_nil.
  destruct replies as [|reply replies]; cbn [next_reply].
  - destruct (summarize messages no_reply) as [m|e] eqn:Hs; [by apply summarize_complete in Hs as [[? _] _]|].
    do 2 eexists. split; [done|]. split; [cbn; lia|]. split; [done|]. split; [cbn; lia|done].
  - destruct (summarize messages reply) as [m|e] eqn:Hs; [|destruct (cancelled reply) eqn:Hc].
    + do 2 eexists. split; [done|]. split; [cbn; lia|]. split; [done|]. split; [cbn; lia|].
      exists reply. split; [done|]. by apply summarize_complete in Hs as [? _].
    + do 2 eexists. split; [done|]. split; [cbn; lia|]. split; [done|]. split; [cbn; lia|done].
    + destruct (degrade_spec (strip_media messages) DEGRADE_RATIOS replies "") as (r & batches & -> & Hlen & Hall & Hb & _ & Hres).
      { unfold strip_media. by destruct messages. }
      exists r, batches. split; [done|]. split; [done|]. split; [done|]. apply chain_result_cons; [done| |done].
      by apply Hb.
Qed.

(** The handoff note.  The chain always ends with a note or an error and
    never panics on a non-empty batch.  It asks the model at most four times:
    first with the full batch, then with non-empty suffixes of it whose media
    were stripped; it does not ask again once the session was cancelled; and a
    note it returns is the trimmed, non-empty text of a stream that neither
    failed nor was cut by a cancellation. *)
Theorem handoff_chain_spec messages replies (Hne : messages <> []) :
  exists r batches, summarize_with_degradation messages replies = (Some r, messages :: batches) /\
    length batches <= 3 /\ (forall b, b ∈ batches -> degraded (strip_media messages) b) /\
    chain_result replies (messages :: batches) r.
Proof. by apply handoff_chain_run. Qed.

Definition sample_material : list Message := [msg User "a"; msg Assistant "b"; msg User "c"].

(** The first stream fails, the second is complete: two of the three messages
    are sent again... *)
Lemma handoff_chain_spec_witness :
  let replies := [{| chunks := [Ok (Delta "half"); Err "reset"]; cancelled := false |};
                  {| chunks := [Ok (Delta " the "); Ok OtherChunk; Ok (Delta "note ")]; cancelled := false |}] in
  exists batches, summarize_with_degradation sample_material replies
      = (Some (Ok (msg User "the note")), sample_material :: batches) /\ length batches <= 3.
Proof.
  intros replies. destruct (handoff_chain_spec sample_material replies) as (r & batches & Hrun & Hlen & _); [done|].
  exists batches. split; [|exact Hlen]. rewrite Hrun. f_equal. vm_compute in Hrun. injection Hrun as <- _. reflexivity.
Defined.

(** ** Positions *)

Section Positions.
Context {A : Type}.
Implicit Types (p : A -> bool) (l : list A).

Lemma indices_of_offset p l i : indices_of p l (S i) = S <$> indices_of p l i.
Proof. revert i. induction l as [|x l IH]; intros i; cbn; [done|]. rewrite IH. by destruct (p x). Qed.

Lemma omap_shift (x : A) l (ks : list nat) : omap (fun i => (x :: l) !! i) (S <$> ks) = omap (fun i => l !! i) ks.
Proof. induction ks as [|k ks IH]; [done|]. cbn. cbn in IH. by rewrite IH. Qed.

(** The elements at the positions of a predicate. *)
Lemma indices_of_filter p l : omap (fun i => l !! i) (indices_of p l 0) = List.filter p l.
Proof.
  induction l as [|x l IH]; [done|]. cbn. rewrite indices_of_offset.
  assert (omap (fun i => (x :: l) !! i) (S <$> indices_of p l 0) = List.filter p l) as Hrest.
  { rewrite <- IH. apply omap_shift. }
  destruct (p x); cbn; [by rewrite Hrest|exact Hrest].
Qed.

Lemma indices_of_length p l i : length (indices_of p l i) = length (List.filter p l).
Proof. revert i. induction l as [|x l IH]; intros i; cbn; [done|]. destruct (p x); cbn; by rewrite IH. Qed.

(** The [k]-th position splits the list after the first [k] hits. *)
Lemma indices_of_lookup p l k i :
  indices_of p l 0 !! k = Some i ->
  exists x, l !! i = Some x /\ p x = true /\
    List.filter p (take i l) = take k (List.filter p l) /\ List.filter p (take (S i) l) = take (S k) (List.filter p l).
Proof.
  revert k i. induction l as [|x l IH]; intros k i; [done|]. cbn [indices_of]. rewrite indices_of_offset.
  destruct (p x) eqn:Hp.
  - destruct k as [|k]; cbn.
    + intros [= <-]. exists x. cbn. rewrite Hp. cbn. by rewrite !take_0.
    + intros Hk. change ((S <$> indices_of p l 0) !! k = Some i) in Hk. rewrite list_lookup_fmap in Hk.
      apply fmap_Some in Hk as (j & Hj & ->). destruct (IH _ _ Hj) as (y & Hy & Hpy & H1 & H2).
      exists y. cbn. rewrite Hp. cbn in *. by rewrite H1, H2.
  - rewrite list_lookup_fmap. intros (j & Hj & ->)%fmap_Some. destruct (IH _ _ Hj) as (y & Hy & Hpy & H1 & H2).
    exists y. cbn. rewrite Hp. cbn in *. by rewrite H1, H2.
Qed.

(** The slice between two positions. *)
Lemma indices_of_slice p l start count i j :
  0 < count -> indices_of p l 0 !! start = Some i -> indices_of p l 0 !! (start + count - 1) = Some j ->
  i <= j /\ List.filter p (drop i (take (S j) l)) = take count (drop start (List.filter p l)).
Proof.
  intros Hc Hi Hj. destruct (indices_of_lookup _ _ _ _ Hi) as (x & Hx & Hpx & H1 & _).
  destruct (indices_of_lookup _ _ _ _ Hj) as (y & Hy & Hpy & H3 & H2).
  replace (S (start + count - 1)) with (start + count) in H2 by lia.
  assert (Hij : i <= j).
  { destruct (decide (i <= j)); [done|]. exfalso.
    assert (take i l = take (S j) l ++ drop (S j) (take i l)) as Ht
      by (rewrite <- (take_drop (S j) (take i l)) at 1; by rewrite take_take, Nat.min_l by lia).
    apply (f_equal (fun l => length (List.filter p l))) in Ht. rewrite List.filter_app, length_app, H1, H2, !length_take in Ht.
    apply lookup_lt_Some in Hj. rewrite indices_of_length in Hj. lia. }
  split; [done|].
  assert (take (S j) l = take i l ++ drop i (take (S j) l)) as Ht
    by (rewrite <- (take_drop i (take (S j) l)) at 1; by rewrite take_take, Nat.min_l by lia).
  apply (f_equal (List.filter p)) in Ht. rewrite List.filter_app, H1, H2 in Ht.
  assert (take (start + count) (List.filter p l) = take start (List.filter p l) ++ take count (drop start (List.filter p l))) as Hs
    by (by rewrite take_take_drop).
  rewrite Hs in Ht. by apply app_inv_head in Ht.
Qed.
End Positions.

(** ** Preserved users *)

Lemma indices_of_rank {A} (p : A -> bool) l i x :
  l !! i = Some x -> p x = true -> indices_of p l 0 !! length (List.filter p (take i l)) = Some i.
Proof.
  revert i. induction l as [|y l IH]; intros i Hi Hp; [done|]. cbn [indices_of]. rewrite indices_of_offset.
  destruct i as [|i]; cbn in Hi; [simplify_eq; by rewrite Hp|]. cbn. specialize (IH _ Hi Hp).
  destruct (p y); cbn; change (?l !! ?i) with (lookup i l) in *; rewrite list_lookup_fmap, IH; done.
Qed.

Lemma indices_of_NoDup {A} (p : A -> bool) l i : NoDup (indices_of p l i) /\ Forall (fun j => i <= j < i + length l) (indices_of p l i).
Proof.
  revert i. induction l as [|x l IH]; intros i; cbn; [split; [constructor|done]|].
  destruct (IH (S i)) as [Hnd Hle]. rewrite Forall_forall in Hle.
  destruct (p x).
  - split; [constructor; [intros Hin; specialize (Hle _ Hin); lia|done]|].
    rewrite Forall_cons, Forall_forall. split; [lia|]. intros j Hj. specialize (Hle j Hj). lia.
  - split; [done|]. rewrite Forall_forall. intros j Hj. specialize (Hle j Hj). lia.
Qed.

Lemma set_true_lookup keep ps i :
  set_true keep ps !! i = (fun b => b || bool_decide (i ∈ ps)) <$> keep !! i.
Proof.
  unfold set_true. revert keep. induction ps as [|j ps IH]; intros keep; cbn.
  - destruct (keep !! i) as [b|]; [|done]. cbn. rewrite bool_decide_false by by intros ?%elem_of_nil. by rewrite orb_false_r.
  - rewrite IH. destruct (decide (i = j)) as [->|Hne].
    + destruct (keep !! j) as [b|] eqn:Hk.
      * rewrite list_lookup_insert_eq by (by eapply lookup_lt_Some). cbn. f_equal.
        rewrite (bool_decide_true (j ∈ j :: ps)) by set_solver. by rewrite orb_true_r.
      * rewrite list_insert_ge by (by apply lookup_ge_None). by rewrite Hk.
    + rewrite list_lookup_insert_ne by done. destruct (keep !! i) as [b|]; [|done]. cbn. do 2 f_equal.
      apply bool_decide_ext. set_solver.
Qed.

(** The mask that keeps the elements of a class by their rank in it. *)
Fixpoint rank_mask {A} (p : A -> bool) (R : nat -> bool) (l : list A) (k : nat) : list bool :=
  match l with
  | [] => []
  | x :: l' => if p x then R k :: rank_mask p R l' (S k) else false :: rank_mask p R l' k
  end.

Lemma rank_mask_lookup {A} (p : A -> bool) R l k i :
  rank_mask p R l k !! i = (fun x => p x && R (k + length (List.filter p (take i l)))) <$> l !! i.
Proof.
  revert k i. induction l as [|x l IH]; intros k [|i]; cbn; try done; destruct (p x) eqn:Hp; cbn; rewrite ?Nat.add_0_r, ?Hp; try done.
  rewrite IH. by rewrite Nat.add_succ_r.
Qed.

Lemma rank_mask_keep {A} (p : A -> bool) (h m : nat) l k (Hhm : h <= m) :
  keep_where true l (rank_mask p (fun r => (r <? h)%nat || (m <=? r)%nat) l k) =
    take (h - k) (List.filter p l) ++ drop (m - k) (List.filter p l).
Proof.
  revert k. induction l as [|x l IH]; intros k; cbn [rank_mask List.filter]; [by rewrite take_nil, drop_nil|].
  destruct (p x); cbn [keep_where Bool.eqb]; [|apply IH]. rewrite IH.
  destruct (Nat.ltb_spec k h); cbn [orb Bool.eqb].
  - replace (h - k) with (S (h - S k)) by lia. replace (m - k) with (S (m - S k)) by lia. done.
  - replace (h - k) with 0 by lia. replace (h - S k) with 0 by lia. rewrite !take_0.
    destruct (Nat.leb_spec m k); cbn [Bool.eqb].
    + replace (m - k) with 0 by lia. by replace (m - S k) with 0 by lia.
    + by replace (m - k) with (S (m - S k)) by lia.
Qed.

Section PreserveProofs.
Context `{Tokenizer}.

Definition user_tokens (e : HistoryEntry) : Z := match e with HUser c _ => token_len c | _ => 0 end.
Definition tokens_of (l : list HistoryEntry) : Z := sum_tokens (user_tokens <$> l).

Lemma head_loop_spec len ps used hc :
  exists d, head_loop len ps used hc = (hc + d, (used + sum_tokens (take d (len <$> ps)))%Z) /\ d <= length ps /\
    (ps <> [] -> hc = 0 -> 1 <= d) /\ (d = 0 \/ hc + d <= 1 \/ (used + sum_tokens (take d (len <$> ps)) <= PRESERVED_HEAD_TOKENS)%Z) /\
    (d < length ps -> (PRESERVED_HEAD_TOKENS < used + sum_tokens (take (S d) (len <$> ps)))%Z).
Proof.
  revert used hc. induction ps as [|i ps IH]; intros used hc; cbn [head_loop].
  - exists 0. split; [cbn; f_equal; lia|]. split; [done|]. split; [done|]. split; [by left|]. cbn. lia.
  - destruct ((0 <? hc)%nat && _) eqn:Hc.
    + apply andb_true_iff in Hc as [H0%Nat.ltb_lt Ht%Z.ltb_lt]. exists 0. split; [cbn; f_equal; lia|].
      split; [cbn; lia|]. split; [lia|]. split; [by left|]. cbn. rewrite take_0. cbn. lia.
    + destruct (IH (used + len i)%Z (S hc)) as (d & -> & Hd & _ & Hb & Hm). exists (S d). cbn.
      rewrite Z.add_assoc. split; [f_equal; lia|]. split; [lia|]. split; [lia|]. split.
      * right. destruct Hb as [->|[?|?]]; [|lia|by right].
        rewrite andb_false_iff, Nat.ltb_ge, Z.ltb_ge in Hc. rewrite take_0. cbn. lia.
      * intros Hlt. rewrite Z.add_assoc. apply Hm. lia.
Qed.

Lemma tail_loop_spec len ps used :
  let d := tail_loop len ps used in
  d <= length ps /\ (d = 0 \/ (used + sum_tokens (take d (len <$> ps)) <= PRESERVED_USER_TOKEN_BUDGET)%Z) /\
  (d < length ps -> (PRESERVED_USER_TOKEN_BUDGET < used + sum_tokens (take (S d) (len <$> ps)))%Z).
Proof.
  revert used. induction ps as [|i ps IH]; intros used; cbn.
  - split; [done|]. split; [by left|]. lia.
  - destruct (Z.ltb_spec PRESERVED_USER_TOKEN_BUDGET (used + len i)).
    + split; [lia|]. split; [by left|]. rewrite take_0. cbn. lia.
    + destruct (IH (used + len i)%Z) as (H1 & H2 & H3). cbn. rewrite !Z.add_assoc. split; [lia|]. split.
      * right. destruct H2 as [->|?]; [|done]. rewrite take_0. cbn. lia.
      * intros Hlt. apply H3. lia.
Qed.

Lemma content_len_users entries (ps : list nat) :
  (forall i, i ∈ ps -> is_Some (entries !! i)) ->
  content_len entries <$> ps = user_tokens <$> omap (fun i => entries !! i) ps.
Proof.
  induction ps as [|i ps IH]; intros Hp; [done|]. cbn. destruct (Hp i) as [e He]; [set_solver|].
  rewrite He. cbn. f_equal.
  - unfold content_len. by rewrite He.
  - apply IH. intros j Hj. apply Hp. set_solver.
Qed.

Lemma NoDup_take_rank (P : list nat) r i h : NoDup P -> P !! r = Some i -> i ∈ take h P <-> r < h.
Proof.
  intros Hnd Hr. rewrite list_elem_of_lookup. split.
  - intros (k & Hk). apply lookup_take_Some in Hk as [Hk Hlt]. by rewrite (NoDup_lookup _ _ _ _ Hnd Hr Hk).
  - intros Hlt. exists r. by apply lookup_take_Some.
Qed.

Lemma NoDup_drop_rank (P : list nat) r i m : NoDup P -> P !! r = Some i -> i ∈ drop m P <-> m <= r.
Proof.
  intros Hnd Hr. rewrite list_elem_of_lookup. split.
  - intros (k & Hk). rewrite lookup_drop in Hk. rewrite (NoDup_lookup _ _ _ _ Hnd Hr Hk). lia.
  - intros Hle. exists (r - m). rewrite lookup_drop. by replace (m + (r - m)) with r by lia.
Qed.

(** The mask keeps the first [h] and the last [n - m] users. *)
Lemma preserved_mask (entries : list HistoryEntry) h m :
  let P := indices_of is_user_entry entries 0 in
  set_true (set_true (replicate (length entries) false) (take h P)) (reverse (drop m P)) =
    rank_mask is_user_entry (fun r => (r <? h)%nat || (m <=? r)%nat) entries 0.
Proof.
  intros P. apply list_eq. intros i. rewrite !set_true_lookup, rank_mask_lookup.
  destruct (entries !! i) as [x|] eqn:Hx; cbn [fmap option_fmap option_map].
  - rewrite lookup_replicate_2 by (by eapply lookup_lt_Some). cbn [fmap option_fmap option_map orb Nat.add]. f_equal.
    destruct (indices_of_NoDup is_user_entry entries 0) as [Hnd _].
    destruct (is_user_entry x) eqn:Hp; cbn [andb].
    + pose proof (indices_of_rank _ _ _ _ Hx Hp) as Hr. fold P in Hr, Hnd.
      f_equal; apply eq_true_iff_eq; rewrite bool_decide_eq_true.
      * rewrite Nat.ltb_lt. by apply NoDup_take_rank.
      * rewrite Nat.leb_le, elem_of_reverse. by apply NoDup_drop_rank.
    + assert (i ∉ P) as Hnot.
      { intros (k & Hk)%list_elem_of_lookup. apply indices_of_lookup in Hk as (y & Hy & Hpy & _). congruence. }
      rewrite !bool_decide_false; [done| |].
      * intros Hin. apply Hnot. rewrite <- (take_drop m P). set_solver.
      * intros Hin. apply Hnot. rewrite <- (take_drop h P). set_solver.
  - apply lookup_ge_None in Hx. by rewrite (proj1 (lookup_replicate_None _ false _) Hx).
Qed.

Lemma sum_tokens_app a b : sum_tokens (a ++ b) = (sum_tokens a + sum_tokens b)%Z.
Proof. unfold sum_tokens. induction a as [|x a IH]; cbn; [done|]. rewrite IH. lia. Qed.

Lemma tokens_of_app a b : tokens_of (a ++ b) = (tokens_of a + tokens_of b)%Z.
Proof. unfold tokens_of. by rewrite fmap_app, sum_tokens_app. Qed.

Lemma keep_where_length {A} (l : list A) mask : length mask = length l -> length (keep_where true l mask) = count_true mask.
Proof.
  revert mask. induction l as [|x l IH]; intros [|b mask] Hl; try done. unfold count_true. cbn.
  injection Hl as Hl. by destruct b; cbn; rewrite IH.
Qed.

Lemma rank_mask_length {A} (p : A -> bool) R l k : length (rank_mask p R l k) = length l.
Proof. revert k. induction l as [|x l IH]; intros k; cbn; [done|]. destruct (p x); cbn; by rewrite IH. Qed.

Lemma sum_tokens_reverse l : sum_tokens (reverse l) = sum_tokens l.
Proof. induction l as [|x l IH]; [done|]. rewrite reverse_cons, sum_tokens_app, IH. unfold sum_tokens. cbn. lia. Qed.

Lemma preserved_users_run entries :
  let '(keep, elided) := select_preserved_users entries in
  exists first folded lasts, List.filter is_user_entry entries = first ++ folded ++ lasts /\
    length keep = length entries /\ keep_where true entries keep = first ++ lasts /\ elided = length folded /\
    (List.filter is_user_entry entries <> [] -> first <> []) /\
    (length first <= 1 \/ (tokens_of first <= PRESERVED_HEAD_TOKENS)%Z) /\
    (lasts = [] \/ (tokens_of (first ++ lasts) <= PRESERVED_USER_TOKEN_BUDGET)%Z) /\
    (forall e, head folded = Some e -> (PRESERVED_HEAD_TOKENS < tokens_of (first ++ [e]))%Z) /\
    (forall e, last folded = Some e -> (PRESERVED_USER_TOKEN_BUDGET < tokens_of (first ++ e :: lasts))%Z).
Proof.
  unfold select_preserved_users. set (P := indices_of is_user_entry entries 0). set (F := List.filter is_user_entry entries).
  set (len := content_len entries).
  assert (HL : len <$> P = user_tokens <$> F).
  { unfold F. rewrite <- indices_of_filter. apply content_len_users. intros i (k & Hk)%list_elem_of_lookup.
    apply indices_of_lookup in Hk as (x & -> & _). by eexists. }
  assert (HPF : length P = length F) by apply indices_of_length.
  destruct (head_loop_spec len P 0 0) as (h & -> & Hh & Hh1 & Hhb & Hhm). cbn [Nat.add] in *.
  rewrite Z.add_0_l in *. rewrite HL in *.
  set (used := sum_tokens (take h (user_tokens <$> F))) in *.
  destruct (tail_loop_spec len (reverse (drop h P)) used) as (Ht & Htb & Htm).
  set (t := tail_loop len _ used) in *. rewrite length_reverse, length_drop in *.
  set (m := length P - t).
  assert (Hm : h <= m <= length F) by lia.
  assert (take t (reverse (drop h P)) = reverse (drop m P)) as ->.
  { rewrite take_reverse, length_drop, drop_drop. do 2 f_equal. lia. }
  unfold P. rewrite preserved_mask. fold P. set (R := fun r : nat => (r <? h)%nat || (m <=? r)%nat).
  assert (Hkeep : keep_where true entries (rank_mask is_user_entry R entries 0) = take h F ++ drop m F)
    by (unfold R; rewrite rank_mask_keep by lia; by rewrite !Nat.sub_0_r).
  assert (Hfst : tokens_of (take h F) = used) by (unfold tokens_of, used; by rewrite fmap_take).
  assert (Hback : forall d, d <= length F - h ->
    sum_tokens (take d (len <$> reverse (drop h P))) = tokens_of (drop (length F - d) F)).
  { intros d Hd. rewrite fmap_reverse, fmap_drop, HL, take_reverse, sum_tokens_reverse, length_drop, length_fmap.
    unfold tokens_of. rewrite fmap_drop, drop_drop. do 2 f_equal. lia. }
  exists (take h F), (take (m - h) (drop h F)), (drop m F).
  split; [|split; [apply rank_mask_length|split; [done|split]]].
  - rewrite <- (take_drop h F) at 1. f_equal. rewrite <- (take_drop (m - h) (drop h F)) at 1. f_equal.
    rewrite drop_drop. f_equal. lia.
  - rewrite <- keep_where_length with (l := entries), Hkeep by apply rank_mask_length.
    rewrite length_app, !length_take, !length_drop. lia.
  - split; [|split; [|split; [|split]]].
    + intros HF Hf. apply (f_equal length) in Hf. rewrite length_take in Hf. cbn in Hf.
      destruct F as [|e F']; [done|]. cbn in *. assert (1 <= h) by (apply Hh1; [by destruct P|done]). lia.
    + rewrite Hfst, length_take. destruct Hhb as [?|[?|?]]; [left; lia|left; lia|by right].
    + destruct Htb as [?|Htb]; [left; apply drop_ge; lia|right].
      rewrite Hback in Htb by lia. rewrite tokens_of_app, Hfst. unfold m. by rewrite HPF.
    + intros e He. assert (F !! h = Some e) as HF.
      { rewrite head_lookup, lookup_take_Some, lookup_drop, Nat.add_0_r in He. apply He. }
      rewrite <- (take_S_r _ _ _ HF). unfold tokens_of. rewrite fmap_take. apply Hhm. apply lookup_lt_Some in HF. lia.
    + intros e He. rewrite last_lookup, length_take, length_drop, lookup_take_Some, lookup_drop in He. destruct He as [HF Hlt].
      replace (h + pred _) with (m - 1) in HF by lia.
      replace (e :: drop m F) with (drop (length F - S t) F).
      * rewrite tokens_of_app, Hfst, <- Hback by lia. apply Htm. lia.
      * replace (length F - S t) with (m - 1) by lia. rewrite (drop_S _ _ _ HF). f_equal. f_equal. lia.
Qed.

(** What a compaction preserves.  Of the user messages among the victims a
    first block and a last block are kept, and exactly the block between them
    is folded away; only user messages are kept.  The first user message is
    always kept; the first block stays within its budget unless it is that
    single message, both blocks together stay within the total budget unless
    the last block is empty; and when something is folded away, either block
    is as long as its budget allows. *)
Theorem select_preserved_users_spec entries :
  let '(keep, elided) := select_preserved_users entries in
  exists first folded lasts, List.filter is_user_entry entries = first ++ folded ++ lasts /\
    length keep = length entries /\ keep_where true entries keep = first ++ lasts /\ elided = length folded /\
    (List.filter is_user_entry entries <> [] -> first <> []) /\
    (length first <= 1 \/ (tokens_of first <= PRESERVED_HEAD_TOKENS)%Z) /\
    (lasts = [] \/ (tokens_of (first ++ lasts) <= PRESERVED_USER_TOKEN_BUDGET)%Z) /\
    (forall e, head folded = Some e -> (PRESERVED_HEAD_TOKENS < tokens_of (first ++ [e]))%Z) /\
    (forall e, last folded = Some e -> (PRESERVED_USER_TOKEN_BUDGET < tokens_of (first ++ e :: lasts))%Z).
Proof. apply preserved_users_run. Qed.

End PreserveProofs.

(** ** The step *)

Section CompactProofs.
Context `{Tokenizer}.

Lemma omap_take {A B} (f : A -> option B) l n :
  (forall x, x ∈ l -> is_Some (f x)) -> omap f (take n l) = take n (omap f l).
Proof.
  revert n. induction l as [|x l IH]; intros n Hf; [by destruct n|].
  destruct n as [|n]; [done|]. cbn. destruct (Hf x) as [y ->]; [set_solver|]. cbn. f_equal. apply IH. set_solver.
Qed.

Lemma omap_drop {A B} (f : A -> option B) l n :
  (forall x, x ∈ l -> is_Some (f x)) -> omap f (drop n l) = drop n (omap f l).
Proof.
  revert n. induction l as [|x l IH]; intros n Hf; [by destruct n|].
  destruct n as [|n]; [done|]. cbn. destruct (Hf x) as [y ->]; [set_solver|]. cbn. apply IH. set_solver.
Qed.

(** The victims are the messages of the slice that is replaced. *)
Lemma victims_are_slice history start count :
  let idx := indices_of is_message history 0 in
  0 < count -> start + count <= length idx ->
  exists i j, idx !! start = Some i /\ idx !! (start + count - 1) = Some j /\ i <= j < length history /\
    omap (fun i => history !! i) (take count (drop start idx)) = List.filter is_message (drop i (take (S j) history)).
Proof.
  intros idx Hc Hle.
  destruct (lookup_lt_is_Some_2 idx start) as [i Hi]; [lia|].
  destruct (lookup_lt_is_Some_2 idx (start + count - 1)) as [j Hj]; [lia|].
  exists i, j. destruct (indices_of_slice is_message history start count i j Hc Hi Hj) as [Hij Hs].
  split; [done|]. split; [done|]. destruct (indices_of_lookup _ _ _ _ Hj) as (x & Hx & _).
  split; [split; [done|by eapply lookup_lt_Some]|]. rewrite Hs, <- indices_of_filter. fold idx.
  assert (Hall : forall i, i ∈ idx -> is_Some (history !! i)).
  { intros k (r & Hr)%list_elem_of_lookup. apply indices_of_lookup in Hr as (y & -> & _). by eexists. }
  rewrite omap_take, omap_drop; [done|done|]. intros k Hk. apply Hall. rewrite <- (take_drop start idx). set_solver.
Qed.

Lemma filter_users_messages l : List.filter is_user_entry (List.filter is_message l) = List.filter is_user_entry l.
Proof. induction l as [|[] l IH]; cbn; by rewrite ?IH. Qed.

Lemma keep_where_leading {A} (l : list A) mask :
  take (leading_true mask) l ++ keep_where true (drop (leading_true mask) l) (drop (leading_true mask) mask) = keep_where true l mask.
Proof.
  revert mask. induction l as [|x l IH]; intros mask; [by rewrite take_nil, drop_nil; destruct (drop _ mask), mask|].
  destruct mask as [|[] mask]; cbn; [done| |done]. by rewrite IH.
Qed.

Lemma filter_app_swap {A} (p : A -> bool) a b c :
  (forall x, x ∈ a ++ c -> p x = true) -> (forall x, x ∈ b -> p x = false) ->
  List.filter p (a ++ b ++ c) = a ++ c /\ List.filter (fun x => negb (p x)) (a ++ b ++ c) = b.
Proof.
  intros Hac Hb. rewrite !List.filter_app.
  assert (Hn : forall l, (forall x, x ∈ l -> p x = false) -> List.filter p l = []).
  { induction l as [|x l IH]; intros Hl; [done|]. cbn. rewrite Hl by set_solver. apply IH. set_solver. }
  assert (Hn' : forall l, (forall x, x ∈ l -> p x = true) -> List.filter (fun x => negb (p x)) l = []).
  { induction l as [|x l IH]; intros Hl; [done|]. cbn. rewrite Hl by set_solver. apply IH. set_solver. }
  rewrite (filter_all p a), (filter_all p c), (Hn b), (Hn' a), (Hn' c) by set_solver.
  split; [done|]. cbn. rewrite app_nil_r. apply filter_all. intros x Hx. by rewrite Hb.
Qed.

Lemma fit_rebuild_spec history left :
  List.filter is_message (fit_rebuild history left) = take left (List.filter is_message history) /\
  List.filter (fun e => negb (is_message e)) (fit_rebuild history left) = List.filter (fun e => negb (is_message e)) history.
Proof.
  revert left. induction history as [|e history IH]; intros left; cbn [fit_rebuild List.filter]; [by rewrite take_nil|].
  destruct (is_message e) eqn:He; cbn [negb].
  - destruct left as [|left]; [by destruct (IH 0)|]. cbn [List.filter]. rewrite He. cbn [negb]. destruct (IH left) as [H1 H2].
    by rewrite H1, H2.
  - cbn [List.filter]. rewrite He. cbn [negb]. destruct (IH left) as [H1 H2]. by rewrite H1, H2.
Qed.

Lemma dedup_nil seen l : dedup seen l = [] -> l = [].
Proof. destruct l; cbn; [done|]. by case_match. Qed.

(** What a summary compaction leaves of the history: a slice is replaced by the
    note, its kept users and at most one elision marker. *)
Definition summarized (history history' : list HistoryEntry) (summary : string) : Prop :=
  exists i j rest first folded lasts,
    i <= j < length history /\
    history' = take i history ++ note_entry summary :: rest ++ drop (S j) history /\
    List.filter is_user_entry (drop i (take (S j) history)) = first ++ folded ++ lasts /\
    (first ++ folded ++ lasts <> [] -> first <> []) /\
    List.filter is_user_entry rest = first ++ lasts /\
    List.filter (fun e => negb (is_user_entry e)) rest =
      match folded with [] => [] | _ => [HSystem (elision_marker (length folded))] end.

Lemma replacement_spec summary history start count mask elided :
  let idx := indices_of is_message history 0 in
  let victims := omap (fun i => history !! i) (take count (drop start idx)) in
  select_preserved_users victims = (mask, elided) ->
  0 < count -> start + count <= length idx ->
  summarized history (take (default 0 (idx !! start)) history ++ replacement summary victims mask elided ++
                      drop (S (default 0 (idx !! (start + count - 1)))) history) summary.
Proof.
  intros idx victims. pose proof (preserved_users_run victims) as Hsel.
  intros Hsp Hc Hle. rewrite Hsp in Hsel.
  destruct (victims_are_slice history start count Hc Hle) as (i & j & Hi & Hj & Hij & Hvict). fold idx victims in Hi, Hj, Hvict.
  destruct Hsel as (first & folded & lasts & Husers & _ & Hkeep & -> & Hfirst & _).
  rewrite Hi, Hj. cbn [default from_option id].
  assert (Husers' : List.filter is_user_entry (drop i (take (S j) history)) = first ++ folded ++ lasts)
    by (by rewrite <- filter_users_messages, <- Hvict).
  set (head_len := leading_true mask).
  destruct (filter_app_swap is_user_entry (take head_len victims)
     (if (0 <? length folded)%nat then [HSystem (elision_marker (length folded))] else [])
     (keep_where true (drop head_len victims) (drop head_len mask))) as [H1 H2].
  - unfold head_len. rewrite keep_where_leading, Hkeep. intros x Hx.
    assert (x ∈ List.filter is_user_entry victims) as Hin by (rewrite Husers; set_solver).
    by apply list_elem_of_In, filter_In in Hin as [_ ?].
  - intros x. case_match; [by intros ->%list_elem_of_singleton|by intros ?%elem_of_nil].
  - exists i, j, (take head_len victims ++ (if (0 <? length folded)%nat then [HSystem (elision_marker (length folded))] else []) ++
       keep_where true (drop head_len victims) (drop head_len mask)), first, folded, lasts.
    split; [done|]. split; [done|]. split; [done|]. split; [by rewrite <- Husers|]. split.
    + rewrite H1. unfold head_len. by rewrite keep_where_leading.
    + rewrite H2. by destruct folded.
Qed.

(** [C7] One compaction of the history.  It never panics.  A summary replaces
    one slice of the history by a note, taken from a complete stream of the
    model, the first and last user messages of the slice and at most one
    marker that counts the user messages folded between them: everything
    before and after the slice is kept.  Without a summary the fallback keeps
    every tool card and the oldest message entries, as many as [fit] left; it is
    not taken once the session is cancelled. *)
Theorem compact_spec cw history replies now_cancelled :
  match fst (compact cw history replies now_cancelled) with
  | Panicked => False
  | Compacted method history' (Some summary) =>
      method = "summarize"%string /\ summarized history history' summary /\
      exists reply, reply ∈ replies /\ complete reply summary
  | Compacted method history' None =>
      method = "fit"%string /\ now_cancelled = false /\
      List.filter is_message history' =
        take (length (fst (fst (fit cw (to_llm_messages history))))) (List.filter is_message history) /\
      List.filter (fun e => negb (is_message e)) history' = List.filter (fun e => negb (is_message e)) history
  | NothingToCompact | Aborted => True
  end.
Proof.
  unfold compact. destruct (victim_range cw (to_llm_messages history)) as [start count].
  set (idx := indices_of is_message history 0). set (n := Nat.min count (length idx - start)).
  destruct (Nat.eqb_spec n 0) as [|Hn]; [done|].
  assert (Hle : start + n <= length idx) by lia.
  set (victims := omap _ (take n (drop start idx))).
  destruct (select_preserved_users victims) as [mask elided] eqn:Hsp.
  destruct (dedup _ _) as [|v vs] eqn:Hd; [done|].
  destruct (handoff_chain_run (v :: vs) replies) as (r & batches & -> & _ & _ & _ & Hr); [done|]. cbn [fst].
  destruct r as [m|e].
  - rewrite bool_decide_true by done. cbn [negb]. split; [done|]. split; [apply replacement_spec; [done|lia|done]|].
    destruct Hr as (reply & Hl & Hc). exists reply. split; [|done]. by eapply list_elem_of_lookup_2.
  - destruct now_cancelled; [done|]. split; [done|]. split; [done|]. apply fit_rebuild_spec.
Qed.
End CompactProofs.

(** ** Concrete runs *)

Definition tool_card (output : string) : HistoryEntry := HToolCall "1" "t" Null Success output None None None.

(** The model never answers: the fallback keeps the oldest message and drops
    the user's current request, although [fit] itself drops the oldest. *)
Example fit_fallback_drops_newest :
  let history := [HUser "old question" []; HAssistant "old answer"; HUser "now" []] in
  fst (@fit byte_tokenizer small_window (to_llm_messages history)) = ([msg User "now"], 2) /\
  fst (@compact byte_tokenizer small_window history
         (replicate 4 {| chunks := [Err "down"]; cancelled := false |}) false)
    = Compacted "fit" [HUser "old question" []] None.
Proof. split; vm_compute; reflexivity. Qed.

(** With tool cards in the history the victim range counts them but the
    replaced slice does not: the assistant's answer is dropped although the
    summarizer only saw the tool results. *)
Example summary_misses_dropped_messages :
  let history := [HUser "q" []; tool_card "one"; tool_card "two"; HAssistant "the answer"; HUser "now" []] in
  @compact byte_tokenizer small_window history [{| chunks := [Ok (Delta "note")]; cancelled := false |}] false =
    (Compacted "summarize" [note_entry "note"; HUser "q" []; HUser "now" []] (Some "note"%string),
     [[msg User "Tool t result: one"]]).
Proof. vm_compute. reflexivity. Qed.

(** Only the users before the first other victim stand before the marker. *)
Example marker_before_kept_head :
  let users := [HUser "a" []; HAssistant "x"; HUser "b" []] in
  replacement "note" users [true; false; true] 1 = [note_entry "note"; HUser "a" []; HSystem (elision_marker 1); HUser "b" []].
Proof. vm_compute. reflexivity. Qed.
