(* ===== verification/Dispatch.v ===== *)
(** * Gating tool calls

    The serial gate of src/kernel/src/plates/tian_heaven/loop_dispatch.rs
    ([gate_one_tool]), the eligibility test of early dispatch, and the
    loop-local guards of src/kernel/src/plates/tian_heaven/loop.rs (repeated
    calls, unverified completions, steering checkpoints). *)

From S2P Require Export Prelude RString Json GeJu Permission Tool Scheduler HumanPlate Principles Hooks SessionBus.

(** ** Data *)

Inductive InteractionMode := Auto | Plan.
#[export] Instance InteractionMode_eq_dec : EqDecision InteractionMode.
Proof. solve_decision. Defined.

Record CallOutcome := {
  co_output : string;
  co_error : option string;
  co_geju_name : string;
  co_execution_mode : string;
  co_heaven_stem : Stem;
  co_target_palace : Palace;
  synthetic_cancel : bool
}.

Definition gate_denied (error geju_name mode : string) (heaven : Stem) (palace : Palace) : CallOutcome :=
  {| co_output := ""; co_error := Some error; co_geju_name := geju_name; co_execution_mode := mode;
     co_heaven_stem := heaven; co_target_palace := palace; synthetic_cancel := false |}.

Inductive GatedCall :=
| Cleared (tool : BaseTool) (geju : GeJuResult) (geju_name mode : string) (heaven : Stem) (palace : Palace)
| Finished (outcome : CallOutcome).

(** What the gate sends to the frontend and the event bus. *)
Inductive GateEvent :=
| TxToolCall (tool : string) (input : Value)
| TxToolResult (tool : string) (output : string) (error geju mode : option string)
| BusGeJu (tool pattern mode : string)
| BusToolCall (tool : string) (input : Value)
| BusToolResult (tool output : string)
| HookFired (t : HookTrace).

(** [Agent::intent_stem_from_tool]. *)
Definition intent_stem_from_tool (c : CeremoniesIntent) : Stem :=
  match c with
  | IntentWu => Wu | IntentJi => Ji | IntentGeng => Geng
  | IntentXin => Xin | IntentRen => Ren | IntentGui => Gui
  end.

(** The debug name of a mode, lowercased. *)
Definition mode_str (m : ExecutionMode) : string :=
  match m with
  | Direct => "direct" | Guarded => "guarded" | Sandbox => "sandbox" | Denied => "denied"
  end.

Definition eq_ignore_ascii_case (a b : string) : bool := String.eqb (to_ascii_lowercase a) (to_ascii_lowercase b).

Definition is_mutable (v : Value) : bool :=
  match as_str (index v "subagent_type") with
  | Some s => eq_ignore_ascii_case s "coder" || eq_ignore_ascii_case s "verifier"
  | None => false
  end.

Definition requests_coder (params : Value) : bool :=
  if is_mutable params then true
  else match as_array (index params "tasks") with
       | Some arr => existsb is_mutable arr
       | None => false
       end.

Definition is_verifier (v : Value) : bool :=
  match as_str (index v "subagent_type") with
  | Some s => eq_ignore_ascii_case s "verifier"
  | None => false
  end.

Definition requests_verifier (params : Value) : bool :=
  if is_verifier params then true
  else match as_array (index params "tasks") with
       | Some arr => existsb is_verifier arr
       | None => false
       end.

(** Refused in planning mode. *)
Definition plan_blocked (tool : BaseTool) (tc : ToolCall) : bool :=
  t_is_destructive tool || String.eqb (tc_name tc) "send_message" ||
  (String.eqb (tc_name tc) "delegate" && requests_coder (tc_parameters tc)).

Section Gate.
Context (get_tool : string -> option BaseTool).
Context (glob : string -> option (string -> bool)).
Context (run_command : string -> string -> Value -> Status).

(** A refusal: the call and its failed result are announced. *)
Definition refuse (tc : ToolCall) (err : string) (geju mode : option string) : list GateEvent :=
  [TxToolCall (tc_name tc) (tc_parameters tc); TxToolResult (tc_name tc) "" (Some err) geju mode].

Definition gate_one_tool (tc : ToolCall) (hooks : HookRegistry) (failures : gmap string Z) (max_failures : Z)
    (mode : InteractionMode) (user_hooks : list CompiledHook) (principles : list SystemPrinciple)
    (atma : spec_float) : GatedCall * list GateEvent :=
  let count := default 0%Z (failures !! tc_name tc) in
  if bool_decide (is_Some (failures !! tc_name tc)) && (max_failures <=? count)%Z then
    let err := "Tool '" +:+ tc_name tc +:+ "' has failed " +:+ pretty count +:+
      " consecutive times. Consider: (1) check tool prerequisites, (2) use a different tool, (3) simplify the input." in
    (Finished (gate_denied err "" "" Jia Zhong), refuse tc err None None)
  else
    match get_tool (tc_name tc) with
    | None =>
        let err := "Unknown tool: " +:+ tc_name tc in
        (Finished (gate_denied err "" "" Jia Zhong), refuse tc err None None)
    | Some tool =>
        let palace := t_target_palace tool (tc_parameters tc) in
        let earth := stem palace in
        let heaven := intent_stem_from_tool (t_ceremony tool) in
        if bool_decide (mode = Plan) && plan_blocked tool tc then
          let err := "【谋划态】当前为只读计划模式，变更类工具 '" +:+ tc_name tc +:+
            "' 被拒。完成方案后用 exit_plan_mode 退出谋划态再执行。" in
          (Finished (gate_denied err "" "planning_denied" heaven palace), refuse tc err None (Some "planning_denied"))
        else
          let geju := gate_layer4 principles (evaluate {| heaven_stem := heaven; earth_stem := earth |}) atma in
          let pattern := name geju in
          let mode := mode_str (execution_mode geju) in
          let hook_verdict :=
            if bool_decide (execution_mode geju = Denied) then Ok ()
            else run_pre_tool_hooks run_command user_hooks (tc_name tc) (tc_parameters tc) in
          match hook_verdict with
          | Err reason =>
              (Finished (gate_denied reason pattern "hook_denied" heaven palace),
               refuse tc reason (Some pattern) (Some "hook_denied"))
          | Ok _ =>
              let bus := BusGeJu (tc_name tc) pattern mode in
              let '(cancelled, trace) := fire_guarding_hooks glob hooks ZhiFu earth
                                           (ToolPreExecute (tc_name tc) (tc_parameters tc)) in
              match cancelled with
              | Some reason =>
                  let err := "Blocked by hook: " +:+ reason in
                  (Finished (gate_denied err pattern mode heaven palace),
                   bus :: map HookFired trace ++ refuse tc err (Some pattern) (Some mode) ++
                   map HookFired (fire_void_hooks glob hooks ZhiFu earth
                                    (ToolPostExecute (tc_name tc) "" (Some err) 0)))
              | None =>
                  (Cleared tool geju pattern mode heaven palace,
                   bus :: map HookFired trace ++
                   [BusToolCall (tc_name tc) (tc_parameters tc); TxToolCall (tc_name tc) (tc_parameters tc)])
              end
          end
    end.

End Gate.

(** ** Early dispatch *)

(** [join_len] counts the tasks not yet joined. *)
Record EarlyDispatch := {
  ed_in_flight : list (nat * ToolAccesses);
  ed_join_len : nat;
  ed_completed : gmap nat (string * option string * Z);
  ed_aborted : bool
}.

Definition EarlyDispatch_new : EarlyDispatch :=
  {| ed_in_flight := []; ed_join_len := 0; ed_completed := ∅; ed_aborted := false |}.

Definition eligible (ed : EarlyDispatch) (accesses : ToolAccesses) (geju_mode : ExecutionMode)
    (jingxiang_open : bool) (chain : ChainVerdict) (max_conc : nat) : bool :=
  negb (ed_aborted ed) && negb (all accesses) && bool_decide (writes accesses = []) &&
  bool_decide (geju_mode = Direct) && jingxiang_open && match chain with Pass => true | _ => false end &&
  (ed_join_len ed <? max_conc)%nat &&
  negb (existsb (fun e => accesses_conflict (snd e) accesses) (ed_in_flight ed)).

Definition ed_spawn (index : nat) (accesses : ToolAccesses) (ed : EarlyDispatch) : EarlyDispatch :=
  {| ed_in_flight := ed_in_flight ed ++ [(index, accesses)]; ed_join_len := S (ed_join_len ed);
     ed_completed := ed_completed ed; ed_aborted := ed_aborted ed |}.

(** A task joined by [poll]: its result, or nothing when it was aborted or
    panicked. *)
Definition TaskResult : Type := string * option string * Z.

Definition poll_one (joined : option (nat * TaskResult)) (ed : EarlyDispatch) : EarlyDispatch :=
  match joined with
  | Some (index, (raw, error, duration)) =>
      let kept := List.filter (fun e => negb (fst e =? index)%nat) (ed_in_flight ed) in
      let abort := bool_decide (is_Some error) && negb (ed_aborted ed) in
      {| ed_in_flight := if abort then [] else kept; ed_join_len := ed_join_len ed - 1;
         ed_completed := <[index := (raw, error, duration)]> (ed_completed ed);
         ed_aborted := ed_aborted ed || abort |}
  | None =>
      {| ed_in_flight := ed_in_flight ed; ed_join_len := ed_join_len ed - 1;
         ed_completed := ed_completed ed; ed_aborted := ed_aborted ed |}
  end.

Definition poll (joined : list (option (nat * TaskResult))) (ed : EarlyDispatch) : EarlyDispatch :=
  foldl (fun ed j => poll_one j ed) ed joined.

(** [drain] joins every remaining task; [cancelled] is what the session's token
    shows after each. *)
Definition drain_one (j : option (nat * TaskResult) * bool) (ed : EarlyDispatch) : EarlyDispatch :=
  let '(joined, cancelled) := j in
  let ed := match joined with
            | Some (index, (raw, error, duration)) =>
                {| ed_in_flight := ed_in_flight ed; ed_join_len := ed_join_len ed - 1;
                   ed_completed := <[index := (raw, error, duration)]> (ed_completed ed);
                   ed_aborted := ed_aborted ed || bool_decide (is_Some error) |}
            | None =>
                {| ed_in_flight := ed_in_flight ed; ed_join_len := ed_join_len ed - 1;
                   ed_completed := ed_completed ed; ed_aborted := ed_aborted ed |}
            end in
  {| ed_in_flight := ed_in_flight ed; ed_join_len := ed_join_len ed;
     ed_completed := ed_completed ed; ed_aborted := ed_aborted ed || cancelled |}.

Definition drain (joined : list (option (nat * TaskResult) * bool)) (ed : EarlyDispatch) : EarlyDispatch :=
  let ed := foldl (fun ed j => drain_one j ed) ed joined in
  {| ed_in_flight := []; ed_join_len := ed_join_len ed; ed_completed := ed_completed ed; ed_aborted := ed_aborted ed |}.

Definition take_completed (index : nat) (ed : EarlyDispatch) : option TaskResult * EarlyDispatch :=
  (ed_completed ed !! index,
   {| ed_in_flight := ed_in_flight ed; ed_join_len := ed_join_len ed;
      ed_completed := delete index (ed_completed ed); ed_aborted := ed_aborted ed |}).

(** * Proofs *)

(** ** The gate *)

Definition is_tx_call (e : GateEvent) : bool := match e with TxToolCall _ _ => true | _ => false end.
Definition is_tx_result (e : GateEvent) : bool := match e with TxToolResult _ _ _ _ _ => true | _ => false end.
Definition count_ev (p : GateEvent -> bool) (l : list GateEvent) : nat := length (List.filter p l).

Lemma count_app p a b : count_ev p (a ++ b) = (count_ev p a + count_ev p b)%nat.
Proof. unfold count_ev. by rewrite List.filter_app, length_app. Qed.

Lemma count_hooks p l : (forall t, p (HookFired t) = false) -> count_ev p (map HookFired l) = 0%nat.
Proof. intros Hp. unfold count_ev. induction l as [|t l IH]; [done|]. cbn. by rewrite Hp. Qed.

(** [C2] The gate of one call.  A call that is cleared is below its failure
    limit and names a registered tool; in planning mode that tool is not
    destructive, not a message to a sub-agent, and no delegation to a coder or
    verifier; its GeJu result is at least as strict as the one the engine gives
    to the tool's intent over its palace, whatever principles were learned; no
    hook of the user blocked it unless GeJu had already denied it, and no
    registered guarding hook cancelled it.  A call that is not cleared carries
    an error.  Either way the call is announced exactly once, and its result
    exactly when it is refused. *)
Theorem gate_one_tool_sound get_tool glob run tc hooks failures max mode uhooks ps atma :
  let '(gated, evs) := gate_one_tool get_tool glob run tc hooks failures max mode uhooks ps atma in
  count_ev is_tx_call evs = 1%nat /\
  match gated with
  | Cleared tool geju pattern _ heaven palace =>
      count_ev is_tx_result evs = 0%nat /\
      (forall n, failures !! tc_name tc = Some n -> (n < max)%Z) /\
      get_tool (tc_name tc) = Some tool /\
      (mode = Plan -> t_is_destructive tool = false /\ tc_name tc <> "send_message"%string /\
         (tc_name tc = "delegate"%string -> requests_coder (tc_parameters tc) = false)) /\
      heaven = intent_stem_from_tool (t_ceremony tool) /\ palace = t_target_palace tool (tc_parameters tc) /\
      at_least_as_strict geju (evaluate {| heaven_stem := heaven; earth_stem := stem palace |}) /\
      (execution_mode geju = Denied \/
       forall h, h ∈ uhooks -> user_blocks run (tc_name tc) (tc_parameters tc) h = false) /\
      fst (fire_guarding_hooks glob hooks ZhiFu (stem palace) (ToolPreExecute (tc_name tc) (tc_parameters tc))) = None
  | Finished o => count_ev is_tx_result evs = 1%nat /\ is_Some (co_error o) /\ synthetic_cancel o = false
  end.
Proof.
  unfold gate_one_tool. set (limit := _ && (max <=? _)%Z).
  assert (Hlim : limit = false -> forall n, failures !! tc_name tc = Some n -> (n < max)%Z).
  { unfold limit. intros Hl n Hn. rewrite Hn in Hl. cbn in Hl. bool_to_prop. lia. }
  clearbody limit. destruct limit; [split; [done|]; split; [done|]; split; [by eexists|done]|]. specialize (Hlim eq_refl).
  destruct (get_tool (tc_name tc)) as [tool|]; [|split; [done|]; split; [done|]; split; [by eexists|done]].
  destruct (bool_decide (mode = Plan) && plan_blocked tool tc) eqn:Hplan;
    [split; [done|]; split; [done|]; split; [by eexists|done]|].
  set (heaven := intent_stem_from_tool (t_ceremony tool)). set (palace := t_target_palace tool (tc_parameters tc)).
  set (geju := gate_layer4 ps (evaluate _) atma).
  assert (Hstrict : at_least_as_strict geju (evaluate {| heaven_stem := heaven; earth_stem := stem palace |})) by apply tighten_all_strict.
  clearbody geju.
  destruct (if bool_decide (execution_mode geju = Denied) then Ok () else _) as [[]|reason] eqn:Hhook;
    [|split; [done|]; split; [done|]; split; [by eexists|done]].
  destruct (fire_guarding_hooks _ _ _ _ _) as [[reason|] trace] eqn:Hfire.
  - change (?x :: ?l) with ([x] ++ l). rewrite !count_app, !count_hooks by done. cbn. split; [done|]. split; [done|]. split; [by eexists|done].
  - change (BusGeJu ?a ?b ?c :: ?l) with ([BusGeJu a b c] ++ l). rewrite !count_app, !count_hooks by done. cbn.
    split; [done|]. split; [done|]. split; [done|]. split; [done|]. split.
    + intros ->. rewrite bool_decide_true in Hplan by done. cbn in Hplan.
      unfold plan_blocked in Hplan. rewrite !orb_false_iff, andb_false_iff in Hplan. destruct Hplan as [[Hd Hs] Hq].
      split; [done|]. split; [by apply String.eqb_neq|]. intros Hn. rewrite Hn in Hq. by destruct Hq.
    + do 2 (split; [done|]). split; [done|]. split; [|by rewrite Hfire].
      case_bool_decide; [by left|]. right. by apply run_pre_tool_hooks_spec.
Qed.

(** ** Early dispatch is harmless *)

Lemma eligible_inv ed accesses mode open chain max :
  eligible ed accesses mode open chain max = true ->
  ed_aborted ed = false /\ all accesses = false /\ writes accesses = [] /\ mode = Direct /\ open = true /\ chain = Pass /\
  ed_join_len ed < max.
Proof.
  unfold eligible. rewrite !andb_true_iff.
  intros [[[[[[[Ha%negb_true_iff Hall%negb_true_iff] Hw%bool_decide_eq_true] Hm%bool_decide_eq_true] Ho] Hc] Hl%Nat.ltb_lt] _].
  by destruct chain.
Qed.

(** Direct mode over an open gate and a silent chain clears the call at once,
    unless it is a verifier's shell command. *)
Lemma direct_prepare env p session_id fuel geju tool input w
    (Hmode : execution_mode geju = Direct) (Hopen : gate_is_open p JingXiangMen = true)
    (Hpass : chain_check (HumanPlate.glob env) (to_lowercase env) (to_string env) (permissions p) (t_name tool) input = Pass) :
  let cleared := Some (Ok {| pc_tool := tool; pc_input := input |}, w) in
  prepare env p session_id fuel geju tool input w = cleared \/
  verifier_shell_only p = true /\ t_name tool = "shell"%string /\
  exists r w', prepare env p session_id fuel geju tool input w = Some (r, w') /\
    requests w' = requests w /\ answers w' = answers w /\ session_approvals w' = session_approvals w /\
    pending_confirmations w' = pending_confirmations w /\
    (r = Ok {| pc_tool := tool; pc_input := input |} \/ exists e, r = Err e).
Proof.
  intros cleared. assert (Hm : prepare_mode env p session_id fuel geju tool input w = cleared)
    by (unfold prepare_mode; by rewrite Hmode, Hopen).
  unfold prepare, verifier_gate, mbind, G_bind.
  destruct (verifier_shell_only p && (t_name tool =? "shell")%string) eqn:Hv; [|left; cbn; by rewrite Hpass, Hm].
  apply andb_true_iff in Hv as [Hv Hs%String.eqb_eq]. right. split; [done|]. split; [done|].
  destruct (verify_verifier_command _ _) as [[]|reason]; cbn; [rewrite Hpass, Hm|]; do 2 eexists;
    do 5 (split; [done|]); [by left|right; by eexists].
Qed.

(** A call the early dispatcher finds eligible never waits for the user:
    the human plate answers it without a confirmation request, without
    consuming an answer and without touching any approval memory; and unless
    the sub-agent is a verifier running a shell command, it is cleared with its
    input and the shared state unchanged. *)
Theorem early_prepare_never_asks env p session_id fuel geju tool input w ed accesses max_conc
    (Helig : eligible ed accesses (execution_mode geju) (gate_is_open p JingXiangMen)
               (chain_check (HumanPlate.glob env) (to_lowercase env) (to_string env) (permissions p) (t_name tool) input)
               max_conc = true) :
  exists r w', prepare env p session_id fuel geju tool input w = Some (r, w') /\
    requests w' = requests w /\ answers w' = answers w /\ session_approvals w' = session_approvals w /\
    pending_confirmations w' = pending_confirmations w /\
    (verifier_shell_only p = false \/ t_name tool <> "shell"%string ->
       r = Ok {| pc_tool := tool; pc_input := input |} /\ w' = w).
Proof.
  destruct (eligible_inv _ _ _ _ _ _ Helig) as (_ & _ & _ & Hdirect & Hopen & Hpass & _).
  destruct (direct_prepare env p session_id fuel geju tool input w Hdirect Hopen Hpass)
    as [->|(Hv & Hs & r & w' & -> & H1 & H2 & H3 & H4 & _)]; do 2 eexists; do 5 (split; [done|]); [done|].
  intros [?|?]; congruence.
Qed.

Definition read_of (path : string) : ToolAccesses := read_only [path] false.

Definition read_tool : BaseTool :=
  {| t_name := "read_file"; t_ceremony := IntentWu; t_is_destructive := false; t_is_concurrency_safe := true;
     t_accesses := fun v => read_of (default "" (as_str (index v "path"))); t_target_palace := fun _ => Zhen |}.

Definition bing_zhong : GeJuResult := evaluate {| heaven_stem := Wu; earth_stem := Bing |}.

Lemma early_prepare_never_asks_witness :
  exists r w', prepare sample_env sample_plate "s" 0 bing_zhong read_tool (file_input "notes") empty_world = Some (r, w') /\
    requests w' = [] /\ r = Ok {| pc_tool := read_tool; pc_input := file_input "notes" |}.
Proof.
  destruct (early_prepare_never_asks sample_env sample_plate "s" 0 bing_zhong read_tool (file_input "notes") empty_world
              EarlyDispatch_new (read_of "notes") 10) as (r & w' & H & Hr & _ & _ & _ & Hok); [by vm_compute|].
  exists r, w'. split; [exact H|]. split; [exact Hr|]. apply Hok. left. by vm_compute.
Defined.

(** ** In-flight calls *)

(** The states of one stream: calls are offered and spawned, tasks are joined. *)
Inductive early_reachable (max_conc : nat) : EarlyDispatch -> Prop :=
| er_new : early_reachable max_conc EarlyDispatch_new
| er_poll ed joined : early_reachable max_conc ed -> early_reachable max_conc (poll joined ed)
| er_spawn ed index accesses mode open chain :
    early_reachable max_conc ed -> eligible ed accesses mode open chain max_conc = true ->
    early_reachable max_conc (ed_spawn index accesses ed)
| er_drain ed joined : early_reachable max_conc ed -> early_reachable max_conc (drain joined ed).

Definition read_only_access (a : ToolAccesses) : Prop := all a = false /\ writes a = [].

Lemma read_only_no_conflict a b : read_only_access a -> read_only_access b -> accesses_conflict a b = false.
Proof.
  intros [Ha Hwa] [Hb Hwb]. unfold accesses_conflict. rewrite Ha, Hb, Hwa, Hwb. cbn.
  assert (forall l : list string, existsb (fun _ => false) l = false) as -> by (induction l; done). done.
Qed.

Definition early_inv (max_conc : nat) (ed : EarlyDispatch) : Prop :=
  ed_join_len ed <= max_conc /\ Forall (fun e => read_only_access (snd e)) (ed_in_flight ed).

Lemma poll_one_inv max j ed : early_inv max ed -> early_inv max (poll_one j ed) /\ (ed_aborted ed = true -> ed_aborted (poll_one j ed) = true).
Proof.
  intros [Hl Hf]. unfold poll_one, early_inv. destruct j as [[i [[raw err] d]]|]; cbn; [|by repeat split; auto; lia].
  split; [split; [lia|]|by intros ->]. case_match; [done|]. rewrite Forall_forall in *. intros e He. apply Hf.
  apply list_elem_of_In in He. apply filter_In in He as [He _]. by apply list_elem_of_In.
Qed.

Lemma fold_inv {J} (step : J -> EarlyDispatch -> EarlyDispatch) max js ed :
  (forall j ed, early_inv max ed -> early_inv max (step j ed) /\ (ed_aborted ed = true -> ed_aborted (step j ed) = true)) ->
  early_inv max ed ->
  early_inv max (foldl (fun ed j => step j ed) ed js) /\
  (ed_aborted ed = true -> ed_aborted (foldl (fun ed j => step j ed) ed js) = true).
Proof.
  intros Hstep. revert ed. induction js as [|j js IH]; intros ed Hinv; [by split|]. cbn.
  destruct (Hstep j ed Hinv) as [Hi Ha]. destruct (IH _ Hi) as [Hi' Ha']. split; [done|]. auto.
Qed.

Lemma drain_one_inv max j ed : early_inv max ed -> early_inv max (drain_one j ed) /\ (ed_aborted ed = true -> ed_aborted (drain_one j ed) = true).
Proof.
  intros [Hl Hf]. unfold drain_one, early_inv. destruct j as [[[i [[raw err] d]]|] c]; cbn; (split; [split; [lia|done]|by intros ->]).
Qed.

Lemma early_reachable_inv max ed : early_reachable max ed -> early_inv max ed.
Proof.
  induction 1 as [|ed joined _ IH|ed index accesses mode open chain _ IH Helig|ed joined _ IH].
  - split; [cbn; lia|constructor].
  - by apply (fold_inv poll_one); [apply poll_one_inv|].
  - destruct IH as [Hl Hf]. destruct (eligible_inv _ _ _ _ _ _ Helig) as (_ & Hall & Hw & _ & _ & _ & Hlen).
    split; [cbn; lia|]. cbn. apply Forall_app. split; [done|]. by repeat constructor.
  - destruct (fold_inv drain_one max joined ed (drain_one_inv max) IH) as [[Hl _] _]. split; [exact Hl|constructor].
Qed.

(** Early dispatch, whatever the order of calls and completions.  Only
    read-only calls are in flight and never more than the window allows, so
    the conflict test never decides: eligibility does not depend on what is in
    flight.  Once a call failed or the session was cancelled no call of this
    stream is eligible again, through any number of joins. *)
Theorem early_dispatch_spec max ed (Hr : early_reachable max ed) :
  ed_join_len ed <= max /\
  (forall e, e ∈ ed_in_flight ed -> all (snd e) = false /\ writes (snd e) = []) /\
  (forall accesses mode open chain,
     eligible ed accesses mode open chain max =
     eligible {| ed_in_flight := []; ed_join_len := ed_join_len ed; ed_completed := ed_completed ed; ed_aborted := ed_aborted ed |}
       accesses mode open chain max) /\
  (ed_aborted ed = true -> forall joined accesses mode open chain, eligible (poll joined ed) accesses mode open chain max = false).
Proof.
  pose proof (early_reachable_inv max ed Hr) as Hinv. destruct Hinv as [Hl Hf]. rewrite Forall_forall in Hf.
  split; [done|]. split; [done|]. split.
  - intros accesses mode open chain. unfold eligible. cbn.
    destruct (all accesses) eqn:Ha; [by rewrite !andb_false_r|]. destruct (decide (writes accesses = [])) as [Hw|Hw];
      [|by rewrite !(bool_decide_false (writes accesses = [])), !andb_false_r].
    enough (existsb (fun e => accesses_conflict (snd e) accesses) (ed_in_flight ed) = false) as -> by done.
    apply not_existsb. intros e He. apply read_only_no_conflict; [by apply Hf|by split].
  - intros Hab joined accesses mode open chain. destruct (fold_inv poll_one max joined ed (poll_one_inv max)) as [_ Ha].
    + split; [done|]. by rewrite Forall_forall.
    + unfold eligible, poll. by rewrite (Ha Hab).
Qed.

Lemma early_dispatch_spec_witness :
  let ed := ed_spawn 0 (read_of "a") EarlyDispatch_new in
  early_reachable 10 ed /\ ed_join_len ed <= 10 /\ eligible ed (read_of "a") Direct true Pass 10 = true.
Proof.
  intros ed. assert (Hr : early_reachable 10 ed).
  { apply (er_spawn 10 EarlyDispatch_new 0 (read_of "a") Direct true Pass); [apply er_new|vm_compute; reflexivity]. }
  split; [exact Hr|]. destruct (early_dispatch_spec 10 ed Hr) as (Hl & _ & He & _). split; [exact Hl|].
  rewrite He. vm_compute. reflexivity.
Defined.
