(* ===== verification/Batch.v ===== *)
(** * Execution of a batch and its bookkeeping

    src/kernel/src/plates/tian_heaven/loop.rs, phases 3 and 4: the concurrency
    window of a batch with its sibling abort, the outcomes at the barrier
    ([finalize_outcome] of loop_dispatch.rs), the bookkeeping of one outcome
    ([absorb_outcome]) and the gates closed after repeated failures.  The
    verdict line of a verifier is read as in
    src/kernel/src/palaces/zhen_tool/builtin/delegate.rs. *)

From S2P Require Import Prelude RString Json GeJu Tool HumanPlate Mind Completion Context Compaction Loop Dispatch.

#[local] Arguments String.append !_ _ : simpl nomatch.

(** ** The concurrency window *)

Record Window := {
  queue : list nat;
  join_set : list nat;
  completed : gmap nat TaskResult;
  aborted : bool
}.

(** Refill: spawn from the queue while the window has room. *)
Fixpoint fill (max_conc : nat) (join queue : list nat) : list nat * list nat :=
  match queue with
  | i :: rest => if (length join <? max_conc)%nat then fill max_conc (join ++ [i]) rest else (join, queue)
  | [] => (join, [])
  end.

Definition window_init (max_conc : nat) (prepared : list nat) : Window :=
  let '(join, queue) := fill max_conc [] prepared in
  {| queue := queue; join_set := join; completed := ∅; aborted := false |}.

(** A joined task: its result, nothing when it was aborted or panicked, and
    whether the session is cancelled now. *)
Record Joined := { j_index : nat; j_result : option TaskResult; j_cancelled : bool }.

Definition task_failed (r : TaskResult) : bool := let '(_, error, _) := r in bool_decide (is_Some error).

Definition abort_all (b : bool) (w : Window) : Window :=
  if b && negb (aborted w)
  then {| queue := []; join_set := join_set w; completed := completed w; aborted := true |}
  else w.

Definition join_step (max_conc : nat) (j : Joined) (w : Window) : Window :=
  let w := {| queue := queue w; join_set := List.filter (fun i => negb (i =? j_index j)%nat) (join_set w);
              completed := completed w; aborted := aborted w |} in
  let w := match j_result j with
           | Some r =>
               let w := abort_all (task_failed r) w in
               {| queue := queue w; join_set := join_set w; completed := <[j_index j := r]> (completed w);
                  aborted := aborted w |}
           | None => w
           end in
  let w := abort_all (j_cancelled j) w in
  if aborted w then w
  else let '(join, queue) := fill max_conc (join_set w) (queue w) in
       {| queue := queue; join_set := join; completed := completed w; aborted := aborted w |}.

(** The loop: joins in any order, until none is left. *)
Inductive batch_run (max_conc : nat) : list Joined -> Window -> Window -> Prop :=
| batch_done w : batch_run max_conc [] w w
| batch_join j js w w' :
    j_index j ∈ join_set w -> batch_run max_conc js (join_step max_conc j w) w' -> batch_run max_conc (j :: js) w w'.

(** ** The barrier *)

Section Finalize.
Context `{Tokenizer} (parse_json : string -> option Value) (glob : string -> option (string -> bool)).
(** [persist_tool_result]: the path and size of the spilled output. *)
Context (persist : ToolCall -> string -> result string (string * Z)).

Definition spill_notice (path : string) (size : Z) (id : string) : string :=
  nl +:+ "[完整输出已保存: " +:+ path +:+ " (" +:+ pretty size +:+ " bytes). 用 retrieve_tool_result 按 tool_call_id " +:+
  dq +:+ id +:+ dq +:+ " 分段取回]".

Definition touched_ids (raw_output : string) : list string :=
  match parse_json raw_output with
  | Some val => match get val "touched_ids" with
                | Some v => match as_array v with Some l => omap as_str l | None => [] end
                | None => []
                end
  | None => []
  end.

(** The outcome with its output, the seeds touched and the events sent. *)
Definition finalize_outcome (budget : ToolOutputBudget) (hooks : HookRegistry) (tc : ToolCall) (raw_output : string)
    (o : CallOutcome) (duration_ms : Z) (touched_acc : list string) : CallOutcome * list string * list GateEvent :=
  let output := truncate_output budget raw_output (tc_name tc) in
  let output :=
    if negb (String.eqb raw_output "") && negb (String.eqb output raw_output) then
      match persist tc raw_output with
      | Ok (path, size) => output +:+ spill_notice path size (tc_id tc)
      | Err _ => output
      end
    else output in
  let touched := if bool_decide (co_error o = None) && negb (String.eqb raw_output "")
                 then touched_acc ++ touched_ids raw_output else touched_acc in
  ({| co_output := output; co_error := co_error o; co_geju_name := co_geju_name o; co_execution_mode := co_execution_mode o;
      co_heaven_stem := co_heaven_stem o; co_target_palace := co_target_palace o; synthetic_cancel := synthetic_cancel o |},
   touched,
   BusToolResult (tc_name tc) output ::
   TxToolResult (tc_name tc) output (co_error o) (Some (co_geju_name o)) (Some (co_execution_mode o)) ::
   map HookFired
     (fire_void_hooks glob hooks ZhiFu (stem (co_target_palace o)) (ToolPostExecute (tc_name tc) output (co_error o) duration_ms))).

(** What the barrier records of a prepared call. *)
Record CallMeta := { m_geju_name : string; m_mode : string; m_heaven : Stem; m_palace : Palace }.

Definition barrier_outcome (m : CallMeta) (joined : option TaskResult) : string * CallOutcome * Z :=
  let '(raw, error, duration, synthetic) :=
    match joined with
    | Some (raw, error, duration) => (raw, error, duration, false)
    | None => (""%string, Some "cancelled: a sibling tool call in this batch failed"%string, 0%Z, true)
    end in
  (raw,
   {| co_output := ""; co_error := error; co_geju_name := m_geju_name m; co_execution_mode := m_mode m;
      co_heaven_stem := m_heaven m; co_target_palace := m_palace m; synthetic_cancel := synthetic |},
   duration).

End Finalize.

(** ** Bookkeeping of one outcome *)

Inductive Verdict := VPass | VFail.

Fixpoint verdict_of (ls : list string) : option Verdict :=
  match ls with
  | [] => None
  | l :: rest =>
      let t := trim l in
      if String.eqb t "Verifier verdict: PASS" then Some VPass
      else if String.eqb t "Verifier verdict: FAIL" then Some VFail
      else if String.eqb t "Verifier verdict: UNPARSEABLE" then None
      else verdict_of rest
  end.

Definition delegate_output_verdict (output : string) : option Verdict := verdict_of (lines output).

Definition verifier_failed (output : string) : bool :=
  match delegate_output_verdict output with
  | Some VFail => true
  | Some VPass => false
  | None => contains_str output "Verdict: FAIL"
  end.

(** The loop's state: what [absorb_outcome] and the gate closing change. *)
Record Agent := {
  a_id : string;
  history : list HistoryEntry;
  tool_failure_count : gmap string Z;
  working_memory : WorkingMemory;
  verify : VerifyTracker;
  checklist : SessionVectors;
  worktree_root : option string;
  (** The root the current execution context was built for. *)
  exec_root : string;
  main_root : string
}.

Definition worktree_path (base_root name : string) : string :=
  path_join (path_join (path_join base_root ".jia") "worktrees") name.

(** The verification signals of one outcome. *)
Definition verification_signals (tc : ToolCall) (o : CallOutcome) (a : Agent) : option (VerifyTracker * SessionVectors) :=
  let params := tc_parameters tc in
  let succeeded := bool_decide (co_error o = None) in
  if String.eqb (tc_name tc) "shell" then
    match get params "command" ≫= as_str with
    | Some cmd =>
        sv ← ingest_test_command (a_id a) cmd (co_output o) (co_error o) (checklist a);
        Some (match detect_test_command cmd with Some _ => note_verification (verify a) | None => verify a end, sv)
    | None => Some (verify a, checklist a)
    end
  else if String.eqb (tc_name tc) "task" then
    if succeeded && bool_decide (get params "action" ≫= as_str = Some "update"%string) &&
       bool_decide (get params "status" ≫= as_str = Some "completed"%string)
    then Some (note_task_completion (verify a), checklist a) else Some (verify a, checklist a)
  else if String.eqb (tc_name tc) "write_file" || String.eqb (tc_name tc) "patch_file" then
    match get params "path" ≫= as_str with
    | Some p => if succeeded then Some (note_touched p (verify a), checklist a) else Some (verify a, checklist a)
    | None => Some (verify a, checklist a)
    end
  else if String.eqb (tc_name tc) "delegate" then
    if requests_verifier params then
      Some (note_verification (verify a),
            if succeeded && verifier_failed (co_output o) then note_verification_anomaly (a_id a) (checklist a) else checklist a)
    else Some (verify a, checklist a)
  else Some (verify a, checklist a).

Definition merge_failure (tc : ToolCall) (o : CallOutcome) (counts : gmap string Z) : gmap string Z :=
  if synthetic_cancel o then counts
  else match co_error o with
       | Some _ => <[tc_name tc := (default 0 (counts !! tc_name tc) + 1)%Z]> counts
       | None => delete (tc_name tc) counts
       end.

(** Entering and leaving a worktree: the worktree, the root of the execution
    context, and the worktree to remove. *)
Definition worktree_transition (tc : ToolCall) (o : CallOutcome) (a : Agent) : option string * string * option string :=
  if bool_decide (co_error o = None) && negb (synthetic_cancel o) then
    match (if String.eqb (tc_name tc) "enter_worktree" then get (tc_parameters tc) "name" ≫= as_str else None) with
    | Some name =>
        match worktree_root a with
        | None => let path := worktree_path (main_root a) name in (Some path, path, None)
        | Some wt => (Some wt, exec_root a, None)
        end
    | None =>
        if String.eqb (tc_name tc) "exit_worktree" then
          match worktree_root a with
          | Some wt =>
              let action := default "keep"%string (get (tc_parameters tc) "action" ≫= as_str) in
              (None, main_root a, if String.eqb action "remove" then Some wt else None)
          | None => (None, exec_root a, None)
          end
        else (worktree_root a, exec_root a, None)
    end
  else (worktree_root a, exec_root a, None).

(** What the environment of the turn adds to a snapshot. *)
Record TurnInfo := {
  ti_turn : Z; ti_now : Z; ti_certainty : option spec_float; ti_seeds : list string; ti_tools : Z; ti_uuid : string
}.

Definition snapshot_of (ti : TurnInfo) (tc : ToolCall) (o : CallOutcome) : TurnSnapshot :=
  {| turn_number := ti_turn ti; intent_stem := co_heaven_stem o; Mind.target_palace := co_target_palace o;
     geju_name := co_geju_name o; snap_execution_mode := co_execution_mode o; tool_name := tc_name tc;
     tool_input := tc_parameters tc; tool_output := truncate_snapshot_output (co_output o); tool_error := co_error o;
     timestamp := ti_now ti; certainty := ti_certainty ti; active_seed_ids := ti_seeds ti; tool_count := ti_tools ti |}.

Definition known_mode (m : string) : option string :=
  if one_of m ["direct"; "guarded"; "sandbox"; "denied"; "Direct"; "Guarded"; "Sandbox"; "Denied"]%string
  then Some (to_ascii_lowercase m) else None.

Definition card_of (ti : TurnInfo) (tc : ToolCall) (o : CallOutcome) : HistoryEntry :=
  HToolCall (ti_uuid ti) (tc_name tc) (tc_parameters tc) (match co_error o with Some _ => Error | None => Success end)
    (co_output o) (co_error o) (Some (co_geju_name o)) (known_mode (co_execution_mode o)).

(** [absorb_outcome]: the agent (nothing on a panic), and the worktree removed. *)
Definition absorb_outcome (ti : TurnInfo) (tc : ToolCall) (o : CallOutcome) (a : Agent) : option (Agent * option string) :=
  signals ← (if synthetic_cancel o then Some (verify a, checklist a) else verification_signals tc o a);
  let counts := merge_failure tc o (tool_failure_count a) in
  let '(wt, root, removed) := worktree_transition tc o a in
  wm ← record (working_memory a) (snapshot_of ti tc o);
  Some ({| a_id := a_id a;
           history := if synthetic_cancel o then history a else history a ++ [card_of ti tc o];
           tool_failure_count := counts; working_memory := wm; verify := fst signals; checklist := snd signals;
           worktree_root := wt; exec_root := root; main_root := main_root a |}, removed).

(** ** Gates closed after failures *)

Definition GATE_CLOSE_THRESHOLD : Z := 5.

Definition gate_of_tool (tool : string) : option HumanGate :=
  if one_of tool ["web_fetch"; "web_search"]%string then Some KaiMen
  else if one_of tool ["shell"; "write_file"; "patch_file"; "revert_file"]%string then Some ShangMen
  else if String.eqb tool "skill" then Some ShengMen
  else None.

Definition close_for (plate : HumanPlate) (e : string * Z) : HumanPlate :=
  if (snd e <? GATE_CLOSE_THRESHOLD)%Z then plate
  else match gate_of_tool (fst e) with Some g => close_gate g plate | None => plate end.

Definition close_failing_gates (counts : gmap string Z) (plate : HumanPlate) : HumanPlate :=
  foldl close_for plate (map_to_list counts).

(** * Proofs *)

(** ** The window *)

Lemma fill_spec max join queue :
  let '(join', queue') := fill max join queue in
  join' ++ queue' = join ++ queue /\ (length join <= max -> length join' <= max) /\ (queue' = [] \/ max <= length join').
Proof.
  revert join. induction queue as [|i queue IH]; intros join; cbn [fill]; [by auto|].
  destruct (Nat.ltb_spec (length join) max); [|by auto].
  specialize (IH (join ++ [i])). destruct (fill _ _ _) as [join' queue']. destruct IH as (H1 & H2 & H3).
  split; [by rewrite H1, <- app_assoc|]. split; [|done]. intros _. apply H2. rewrite length_app. cbn. lia.
Qed.

Lemma remove_index l i : NoDup l -> i ∈ l -> l ≡ₚ i :: List.filter (fun j => negb (j =? i)%nat) l.
Proof.
  induction l as [|j l IH]; intros Hnd Hin; [by apply elem_of_nil in Hin|].
  apply NoDup_cons in Hnd as [Hj Hnd]. cbn. destruct (Nat.eqb_spec j i) as [->|Hne]; cbn.
  - constructor. rewrite filter_all; [done|]. intros k Hk. apply negb_true_iff, Nat.eqb_neq. by intros ->.
  - apply elem_of_cons in Hin as [->|Hin]; [done|]. rewrite (IH Hnd Hin) at 1. apply perm_swap.
Qed.

(** A joined task that aborts its siblings. *)
Definition aborting (j : Joined) : bool :=
  match j_result j with Some r => task_failed r | None => false end || j_cancelled j.

Lemma join_step_spec max j w :
  let rest := List.filter (fun i => negb (i =? j_index j)%nat) (join_set w) in
  let w' := join_step max j w in
  aborted w' = aborted w || aborting j /\
  completed w' = (match j_result j with Some r => <[j_index j := r]> (completed w) | None => completed w end) /\
  if aborted w then join_set w' = rest /\ queue w' = queue w
  else if aborting j then join_set w' = rest /\ queue w' = []
  else join_set w' ++ queue w' = rest ++ queue w /\ (length rest <= max -> length (join_set w') <= max) /\
       (queue w' = [] \/ max <= length (join_set w')).
Proof.
  intros rest. unfold join_step, aborting. fold rest. destruct w as [q js comp ab]. cbn [queue join_set completed aborted] in *.
  assert (Hfill := fill_spec max rest q).
  destruct (j_result j) as [r|], (j_cancelled j), ab; cbn; try destruct (task_failed r); cbn; try done;
    destruct (fill max rest q) as [js' q']; cbn; done.
Qed.

(** The results kept are those of the joined tasks. *)
Definition results (js : list Joined) (m : gmap nat TaskResult) : Prop :=
  forall i r, m !! i = Some r <-> exists c, {| j_index := i; j_result := Some r; j_cancelled := c |} ∈ js.

Definition keep_result (j : Joined) (m : gmap nat TaskResult) : gmap nat TaskResult :=
  match j_result j with Some r => <[j_index j := r]> m | None => m end.

Lemma results_snoc js j m : j_index j ∉ map j_index js -> results js m -> results (js ++ [j]) (keep_result j m).
Proof.
  intros Hnew Hm i r. unfold keep_result. destruct j as [k res c]. cbn [j_index j_result] in *.
  assert (Hfresh : forall r' c', {| j_index := k; j_result := r'; j_cancelled := c' |} ∉ js).
  { intros r' c' Hj. apply Hnew. apply list_elem_of_In, in_map_iff. eexists. split; [|by apply list_elem_of_In]. done. }
  setoid_rewrite elem_of_app. setoid_rewrite list_elem_of_singleton. destruct res as [r0|].
  - destruct (decide (k = i)) as [->|Hne].
    + rewrite lookup_insert_eq. split; [intros [= ->]; eauto|]. intros [c' [Hj|[= -> _]]]; [by apply Hfresh in Hj|done].
    + rewrite lookup_insert_ne, (Hm i r) by done. split; intros [c' Hj]; exists c'; [by left|]. destruct Hj as [?|[= ? _ _]]; [done|congruence].
  - rewrite (Hm i r). split; intros [c' Hj]; exists c'; [by left|]. by destruct Hj as [?|[=]].
Qed.

(** Every prepared call was joined, is in flight, is queued, or was dropped by
    an abort. *)
Definition window_inv (max : nat) (prepared : list nat) (js : list Joined) (w : Window) : Prop :=
  (exists dropped, prepared ≡ₚ map j_index js ++ join_set w ++ queue w ++ dropped /\ (aborted w = false -> dropped = [])) /\
  length (join_set w) <= max /\
  (if aborted w then queue w = [] else queue w = [] \/ max <= length (join_set w)) /\
  aborted w = existsb aborting js /\
  results js (completed w).

Lemma window_init_inv max prepared : window_inv max prepared [] (window_init max prepared).
Proof.
  unfold window_init. pose proof (fill_spec max [] prepared) as Hf. destruct (fill max [] prepared) as [join queue].
  destruct Hf as (H1 & H2 & H3). unfold window_inv. cbn in *. split; [exists []; by rewrite app_nil_r, H1|].
  split; [apply H2; lia|]. split; [done|]. split; [done|]. intros i r. rewrite lookup_empty. split; [done|]. intros [c Hc]. by apply elem_of_nil in Hc.
Qed.

Lemma join_step_inv max prepared js j w :
  NoDup prepared -> j_index j ∈ join_set w -> window_inv max prepared js w ->
  window_inv max prepared (js ++ [j]) (join_step max j w).
Proof.
  intros Hnd Hin ((dropped & Hperm & Hdrop) & Hlen & Hq & Hab & Hcomp).
  assert (Hndw : NoDup (map j_index js ++ join_set w ++ queue w ++ dropped)) by (by rewrite <- Hperm).
  assert (Hndj : NoDup (join_set w)) by (by apply NoDup_app in Hndw as (_ & _ & [? _]%NoDup_app)).
  pose proof (remove_index _ _ Hndj Hin) as Hrem.
  destruct (join_step_spec max j w) as (Ha & Hc & Hcases).
  set (rest := List.filter (fun i => negb (i =? j_index j)%nat) (join_set w)) in *.
  set (w' := join_step max j w) in *. clearbody w'.
  assert (Hrl : S (length rest) <= max) by (rewrite Hrem in Hlen; done).
  assert (Hp : forall q d, queue w ++ dropped ≡ₚ q ++ d ->
    prepared ≡ₚ map j_index (js ++ [j]) ++ rest ++ q ++ d).
  { intros q d Hqd. rewrite Hperm, map_app, Hqd, Hrem. cbn. rewrite <- app_assoc. cbn. done. }
  split; [|split; [|split; [|split]]].
  - destruct (aborted w) eqn:Hw; [|destruct (aborting j) eqn:Haj].
    + destruct Hcases as [-> ->]. exists dropped. split; [by apply Hp|]. rewrite Ha. done.
    + destruct Hcases as [-> ->]. exists (queue w ++ dropped). split; [by apply Hp|]. rewrite Ha. done.
    + destruct Hcases as (Hjq & _). exists dropped. split; [|intros _; by apply Hdrop].
      rewrite (app_assoc (join_set w')), Hjq, <- app_assoc. by apply Hp.
  - destruct (aborted w); [|destruct (aborting j)]; [destruct Hcases as [-> _]; lia..|].
    destruct Hcases as (_ & Hl & _). apply Hl. lia.
  - rewrite Ha. destruct (aborted w) eqn:Hw; cbn; [destruct Hcases as [_ ->]; done|].
    destruct (aborting j); [by destruct Hcases as [_ ->]|]. apply Hcases.
  - rewrite Ha, Hab, existsb_app. cbn. by rewrite orb_false_r.
  - rewrite Hc. apply (results_snoc js j); [|done]. intros Hj. apply NoDup_app in Hndw as (_ & Hdis & _).
    apply (Hdis _ Hj). set_solver.
Qed.

Lemma batch_run_inv max prepared js0 w0 js w :
  NoDup prepared -> batch_run max js w0 w -> window_inv max prepared js0 w0 -> window_inv max prepared (js0 ++ js) w.
Proof.
  intros Hnd Hrun. revert js0. induction Hrun as [w|j js w w' Hin Hrun IH]; intros js0 Hinv; [by rewrite app_nil_r|].
  rewrite (cons_middle j js0 js), app_assoc. apply IH. by apply join_step_inv.
Qed.

Lemma batch_window max prepared js w (Hnd : NoDup prepared) (Hmax : 0 < max)
    (Hrun : batch_run max js (window_init max prepared) w) :
  length (join_set w) <= max /\
  NoDup (map j_index js) /\ (forall j, j ∈ js -> j_index j ∈ prepared) /\ length js <= length prepared /\
  (forall i r, completed w !! i = Some r <-> exists c, {| j_index := i; j_result := Some r; j_cancelled := c |} ∈ js) /\
  aborted w = existsb aborting js /\ (aborted w = true -> queue w = []) /\
  (join_set w = [] -> queue w = [] /\ forall i, i ∈ prepared -> i ∈ map j_index js \/ aborted w = true).
Proof.
  pose proof (batch_run_inv max prepared [] _ js w Hnd Hrun (window_init_inv max prepared)) as Hinv. cbn [app] in Hinv.
  destruct Hinv as ((dropped & Hperm & Hdrop) & Hlen & Hq & Hab & Hcomp).
  split; [done|]. assert (Hndw : NoDup (map j_index js ++ join_set w ++ queue w ++ dropped)) by (by rewrite <- Hperm).
  split; [by apply NoDup_app in Hndw as [? _]|]. split.
  { intros j Hj. rewrite Hperm. apply elem_of_app. left. apply list_elem_of_In, in_map, list_elem_of_In, Hj. }
  split. { rewrite Hperm, length_app, length_map. lia. }
  split; [done|]. split; [done|]. split; [intros Ha; by rewrite Ha in Hq|].
  intros Hj. assert (Hq0 : queue w = []).
  { destruct (aborted w); [done|]. destruct Hq as [?|Hq]; [done|]. rewrite Hj in Hq. cbn in Hq. lia. }
  split; [done|]. intros i Hi. rewrite Hperm, Hj, Hq0 in Hi. cbn in Hi. apply elem_of_app in Hi as [?|Hi]; [by left|right].
  destruct (aborted w); [done|]. rewrite Hdrop in Hi by done. by apply elem_of_nil in Hi.
Qed.

(** [C6] Concurrent execution of a batch, for every order the tasks are joined
    in.  At most the window's number of tasks is in flight; no call is joined
    twice and only prepared calls are, so there are at most as many joins as
    calls; the results kept are exactly those of the joined tasks; the batch
    aborts exactly when a task failed or the session was cancelled, and then
    nothing more is started.  When no task is left the queue is empty, and a
    call that was never joined was dropped by an abort. *)
Theorem batch_run_spec max prepared js w (Hnd : NoDup prepared) (Hmax : 0 < max)
    (Hrun : batch_run max js (window_init max prepared) w) :
  length (join_set w) <= max /\
  NoDup (map j_index js) /\ (forall j, j ∈ js -> j_index j ∈ prepared) /\ length js <= length prepared /\
  (forall i r, completed w !! i = Some r <-> exists c, {| j_index := i; j_result := Some r; j_cancelled := c |} ∈ js) /\
  aborted w = existsb aborting js /\ (aborted w = true -> queue w = []) /\
  (join_set w = [] -> queue w = [] /\ forall i, i ∈ prepared -> i ∈ map j_index js \/ aborted w = true).
Proof. by apply batch_window. Qed.

(** Every schedule ends: a state without tasks in flight satisfies [P], and from
    any other one every join leads to states that end. *)
Inductive ends (max : nat) (P : list Joined -> Window -> Prop) : list Joined -> Window -> Prop :=
| ends_done js w : join_set w = [] -> P js w -> ends max P js w
| ends_step js w : join_set w <> [] ->
    (forall j, j_index j ∈ join_set w -> ends max P (js ++ [j]) (join_step max j w)) -> ends max P js w.

Lemma batch_step_decreases max prepared js j w :
  NoDup prepared -> window_inv max prepared js w -> j_index j ∈ join_set w ->
  length (js ++ [j]) <= length prepared.
Proof.
  intros Hnd Hinv Hin. destruct (join_step_inv max prepared js j w Hnd Hin Hinv) as ((d & Hp & _) & _).
  rewrite Hp, (length_app (map _ _)), length_map. lia.
Qed.

Lemma window_ends max prepared P js w (Hnd : NoDup prepared) (Hinv : window_inv max prepared js w) :
  (forall js w, window_inv max prepared js w -> join_set w = [] -> P js w) -> ends max P js w.
Proof.
  intros HP. remember (length prepared - length js) as n eqn:Hn. revert js w Hinv Hn.
  induction n as [|n IH]; intros js w Hinv Hn; (destruct (join_set w) as [|i join] eqn:Hj; [apply ends_done; auto|]);
    (apply ends_step; [by rewrite Hj|]); intros j Hin;
    pose proof (batch_step_decreases max prepared js j w Hnd Hinv Hin) as Hdec; rewrite length_app in Hdec; cbn in Hdec; [lia|].
  apply IH; [by apply join_step_inv|]. rewrite length_app. cbn. lia.
Qed.

(** [C24] Every batch ends, whatever its tasks do and in whatever order they are
    joined: after finitely many joins nothing is in flight or queued.  Then
    every prepared call has an outcome: the result its own task was joined
    with, or a synthetic cancellation, which only happens to a task that was
    joined without a result and to a call an abort dropped before it started. *)
Theorem batch_ends max prepared (Hnd : NoDup prepared) (Hmax : 0 < max) :
  ends max (fun js w => queue w = [] /\ forall m i, i ∈ prepared ->
      let '(raw, o, duration) := barrier_outcome m (completed w !! i) in
      if synthetic_cancel o
      then (exists c, {| j_index := i; j_result := None; j_cancelled := c |} ∈ js) \/ aborted w = true /\ i ∉ map j_index js
      else exists c, {| j_index := i; j_result := Some (raw, co_error o, duration); j_cancelled := c |} ∈ js)
    [] (window_init max prepared).
Proof.
  apply (window_ends max prepared); [done|apply window_init_inv|]. intros js w Hinv Hend.
  destruct Hinv as ((dropped & Hperm & Hdrop) & _ & Hq & _ & Hcomp).
  assert (Hq0 : queue w = []) by (destruct (aborted w); [done|]; destruct Hq as [?|Hq]; [done|]; rewrite Hend in Hq; cbn in Hq; lia).
  split; [done|]. intros m i Hi. unfold barrier_outcome.
  destruct (completed w !! i) as [[[raw error] duration]|] eqn:Hc; cbn; [by apply Hcomp|].
  destruct (decide (i ∈ map j_index js)) as [Hj|Hj].
  - left. apply list_elem_of_In, in_map_iff in Hj as ([k r c] & Hk & Hj). cbn in Hk. subst k. apply list_elem_of_In in Hj.
    destruct r as [r|]; [|by exists c]. assert (completed w !! i = Some r) by (apply Hcomp; by exists c). congruence.
  - right. split; [|done]. rewrite Hperm, Hend, Hq0 in Hi. cbn in Hi. apply elem_of_app in Hi as [?|Hi]; [done|].
    destruct (aborted w); [done|]. rewrite Hdrop in Hi by done. by apply elem_of_nil in Hi.
Qed.

(** ** Bookkeeping *)

(** Both worktree fields tell the same: the execution context is built for the
    worktree the agent is in, or for the main root. *)
Definition worktree_wf (a : Agent) : Prop := exec_root a = default (main_root a) (worktree_root a).

Ltac unchanged := split; [done|]; split; [by left|done].

Lemma worktree_transition_spec tc o a (Hwf : worktree_wf a) :
  let '(wt, root, removed) := worktree_transition tc o a in
  root = default (main_root a) wt /\
  (wt = worktree_root a \/
     synthetic_cancel o = false /\ co_error o = None /\ tc_name tc ∈ ["enter_worktree"; "exit_worktree"]%string) /\
  (forall w, removed = Some w -> worktree_root a = Some w /\ wt = None /\ synthetic_cancel o = false).
Proof.
  unfold worktree_transition. unfold worktree_wf in Hwf.
  destruct (bool_decide (co_error o = None) && negb (synthetic_cancel o)) eqn:Hok; [|unchanged].
  apply andb_true_iff in Hok as [Herr%bool_decide_eq_true Hsyn%negb_true_iff].
  destruct (if String.eqb (tc_name tc) "enter_worktree" then _ else _) as [name|] eqn:Hname.
  - destruct (String.eqb_spec (tc_name tc) "enter_worktree") as [->|]; [|done].
    destruct (worktree_root a); [unchanged|]. split; [done|]. split; [right; set_solver|done].
  - destruct (String.eqb_spec (tc_name tc) "exit_worktree") as [->|]; [|unchanged].
    destruct (worktree_root a) as [w0|]; [|unchanged]. split; [done|]. split; [right; set_solver|].
    intros w. destruct (String.eqb (default _ _) "remove"); [|done]. by intros [= <-].
Qed.

(** Bookkeeping of one outcome.  The execution context always matches the
    worktree the session is in.  A synthetic cancellation only leaves a snapshot: history, failure
    streaks, verification signals and worktree are as before.  Any other
    outcome appends exactly one tool card to the history, and its tool's streak
    is incremented by an error and reset by a success; other tools' streaks are
    untouched.  Only a successful enter_worktree or exit_worktree moves the
    session, and a worktree is removed only when it was left. *)
Theorem absorb_outcome_spec ti tc o a a' removed (Hwf : worktree_wf a)
    (Hrun : absorb_outcome ti tc o a = Some (a', removed)) :
  worktree_wf a' /\ record (working_memory a) (snapshot_of ti tc o) = Some (working_memory a') /\
  (if synthetic_cancel o then
     history a' = history a /\ tool_failure_count a' = tool_failure_count a /\ verify a' = verify a /\
     checklist a' = checklist a /\ worktree_root a' = worktree_root a /\ removed = None
   else
     history a' = history a ++ [card_of ti tc o] /\
     tool_failure_count a' !! tc_name tc =
       match co_error o with
       | Some _ => Some (default 0 (tool_failure_count a !! tc_name tc) + 1)%Z
       | None => None
       end /\
     (forall t, t <> tc_name tc -> tool_failure_count a' !! t = tool_failure_count a !! t)) /\
  (worktree_root a' <> worktree_root a ->
     co_error o = None /\ tc_name tc ∈ ["enter_worktree"; "exit_worktree"]%string) /\
  (forall wt, removed = Some wt -> worktree_root a = Some wt /\ worktree_root a' = None).
Proof.
  unfold absorb_outcome in Hrun. pose proof (worktree_transition_spec tc o a Hwf) as Htrans.
  destruct (if synthetic_cancel o then Some (verify a, checklist a) else verification_signals tc o a) as [[v sv]|] eqn:Hsig; [|by cbn in Hrun]. cbn in Hrun.
  destruct (worktree_transition tc o a) as [[wt root] rm]. destruct Htrans as (Hroot & Hmove & Hrm).
  destruct (record _ _) as [wm|] eqn:Hrec; [|by cbn in Hrun]. cbn in Hrun. injection Hrun as <- <-. cbn.
  split; [done|]. split; [done|]. split; [|split].
  - unfold merge_failure. destruct (synthetic_cancel o) eqn:Hs.
    + injection Hsig as <- <-. do 4 (split; [done|]). split; [destruct Hmove as [?|[? _]]; done|].
      destruct rm as [w|]; [|done]. destruct (Hrm w) as (_ & _ & ?); done.
    + split; [done|]. destruct (co_error o).
      * split; [by rewrite lookup_insert_eq|]. intros t Ht. by rewrite lookup_insert_ne.
      * split; [by rewrite lookup_delete_eq|]. intros t Ht. by rewrite lookup_delete_ne.
  - intros Hne. destruct Hmove as [?|(_ & ? & ?)]; [done|by split].
  - intros w Hw. destruct (Hrm w Hw) as (? & ? & _). by split.
Qed.

(** ** Failure streaks and gates *)

(** A failure streak at its limit is final.  The gate refuses every further
    call of that tool, whatever the mode, the hooks and the principles; the
    refusal is itself an error, so the bookkeeping keeps the streak at the
    limit: only another tool's calls go on. *)
Theorem failure_streak_is_final get_tool glob run tc hooks counts max mode uhooks ps atma n
    (Hn : counts !! tc_name tc = Some n) (Hmax : (max <= n)%Z) :
  exists o, fst (gate_one_tool get_tool glob run tc hooks counts max mode uhooks ps atma) = Finished o /\
    merge_failure tc o counts !! tc_name tc = Some (n + 1)%Z.
Proof.
  unfold gate_one_tool. rewrite Hn, bool_decide_true by by eexists. cbn [default from_option id andb].
  destruct (Z.leb_spec max n); [|lia]. eexists. split; [done|]. unfold merge_failure. cbn. by rewrite Hn, lookup_insert_eq.
Qed.

Lemma close_for_open plate e g :
  gate_is_open (close_for plate e) g =
    gate_is_open plate g && negb (bool_decide (GATE_CLOSE_THRESHOLD <= snd e /\ gate_of_tool (fst e) = Some g)%Z).
Proof.
  unfold close_for. destruct (Z.ltb_spec (snd e) GATE_CLOSE_THRESHOLD) as [Hlt|Hle].
  - rewrite bool_decide_false by lia. by rewrite andb_true_r.
  - destruct (gate_of_tool (fst e)) as [g0|].
    + rewrite close_gate_open. f_equal. f_equal. apply bool_decide_ext. split; [intros ->; done|intros [_ [= ->]]; done].
    + rewrite bool_decide_false by (by intros [_ ?]). by rewrite andb_true_r.
Qed.

(** Gates closed by failures.  After a turn a gate is open exactly when it
    was open and no tool it guards has failed five times in a row: the network
    tools close the communication gate, the shell and the writing tools the
    destructive gate, skills the growth gate, and no other gate is closed. *)
Theorem close_failing_gates_spec counts plate g :
  gate_is_open (close_failing_gates counts plate) g = true <->
  gate_is_open plate g = true /\
  forall tool n, counts !! tool = Some n -> gate_of_tool tool = Some g -> (n < GATE_CLOSE_THRESHOLD)%Z.
Proof.
  unfold close_failing_gates.
  assert (Hgen : forall l p, gate_is_open (foldl close_for p l) g = true <->
    gate_is_open p g = true /\ forall e, e ∈ l -> ~ (GATE_CLOSE_THRESHOLD <= snd e /\ gate_of_tool (fst e) = Some g)%Z).
  { induction l as [|e l IH]; intros p; cbn; [split; [intros ?; split; [done|by intros e ?%elem_of_nil]|by intros [? _]]|].
    rewrite IH, close_for_open, andb_true_iff, negb_true_iff, bool_decide_eq_false. setoid_rewrite elem_of_cons.
    split; [intros [[? ?] ?]; split; [done|]; intros e' [->|?]; auto|]. intros [? Hall]. split; [split; [done|]|]; auto. }
  rewrite Hgen. split; intros [H1 H2]; (split; [done|]).
  - intros tool n Hl Hg. destruct (Z.lt_ge_cases n GATE_CLOSE_THRESHOLD) as [?|?]; [done|].
    exfalso. apply (H2 (tool, n)); [by apply elem_of_map_to_list|done].
  - intros [tool n] Hl [Hle Hg]. apply elem_of_map_to_list in Hl. specialize (H2 tool n Hl Hg). cbn in *. lia.
Qed.

(** ** Concrete runs *)

Definition ok_result : TaskResult := ("out"%string, None, 1%Z).
Definition failed_result : TaskResult := (""%string, Some "boom"%string, 1%Z).

(** Three calls, a window of two: the second one fails first; the first is
    aborted, the third never starts. *)
Definition sample_joins : list Joined :=
  [{| j_index := 1; j_result := Some failed_result; j_cancelled := false |};
   {| j_index := 0; j_result := None; j_cancelled := false |}].

Definition sample_end : Window := foldl (fun w j => join_step 2 j w) (window_init 2 [0; 1; 2]) sample_joins.

Lemma batch_run_spec_witness :
  NoDup [0; 1; 2] /\ 0 < 2 /\ batch_run 2 sample_joins (window_init 2 [0; 1; 2]) sample_end /\
  aborted sample_end = true /\ queue sample_end = [].
Proof.
  assert (Hnd : NoDup [0; 1; 2]) by (by apply (bool_decide_unpack (NoDup [0; 1; 2]))).
  assert (Hm : 0 < 2) by lia.
  assert (Hrun : batch_run 2 sample_joins (window_init 2 [0; 1; 2]) sample_end).
  { apply batch_join; [vm_compute; set_solver|]. apply batch_join; [vm_compute; set_solver|]. apply batch_done. }
  split; [exact Hnd|]. split; [exact Hm|]. split; [exact Hrun|].
  destruct (batch_run_spec 2 [0; 1; 2] sample_joins sample_end Hnd Hm Hrun) as (_ & _ & _ & _ & _ & Hab & Hq & _).
  assert (Ha : aborted sample_end = true) by (rewrite Hab; vm_compute; reflexivity).
  split; [exact Ha|]. apply Hq. exact Ha.
Defined.

Lemma batch_ends_witness :
  NoDup [0; 1; 2] /\ 0 < 2 /\ ends 2 (fun _ w => queue w = []) [] (window_init 2 [0; 1; 2]).
Proof.
  assert (Hnd : NoDup [0; 1; 2]) by (by apply (bool_decide_unpack (NoDup [0; 1; 2]))).
  assert (Hm : 0 < 2) by lia.
  split; [exact Hnd|]. split; [exact Hm|].
  pose proof (batch_ends 2 [0; 1; 2] Hnd Hm) as H. induction H as [js w Hj [Hq _]|js w Hj _ IH].
  - apply ends_done; [exact Hj|exact Hq].
  - apply ends_step; [exact Hj|exact IH].
Defined.

Definition sample_agent : Agent :=
  {| a_id := "s"; history := []; tool_failure_count := ∅; working_memory := WorkingMemory_new 4;
     verify := VerifyTracker_default; checklist := SessionVectors_new; worktree_root := None; exec_root := "/repo";
     main_root := "/repo" |}.

Definition sample_turn : TurnInfo :=
  {| ti_turn := 1; ti_now := 0; ti_certainty := None; ti_seeds := []; ti_tools := 1; ti_uuid := "u" |}.

Definition enter_call : ToolCall :=
  {| tc_id := "1"; tc_name := "enter_worktree"; tc_parameters := Obj [("name", Str "feat")]%string |}.

Definition success : CallOutcome :=
  {| co_output := "ok"; co_error := None; co_geju_name := "g"; co_execution_mode := "direct";
     co_heaven_stem := Geng; co_target_palace := Zhong; synthetic_cancel := false |}.

Definition absorbed : Agent := default sample_agent (fst <$> absorb_outcome sample_turn enter_call success sample_agent).

Lemma absorb_outcome_spec_witness :
  worktree_wf sample_agent /\ absorb_outcome sample_turn enter_call success sample_agent = Some (absorbed, None) /\
  worktree_wf absorbed /\ exec_root absorbed = "/repo/.jia/worktrees/feat"%string.
Proof.
  assert (Hwf : worktree_wf sample_agent) by reflexivity.
  assert (Hrun : absorb_outcome sample_turn enter_call success sample_agent = Some (absorbed, None)) by (vm_compute; reflexivity).
  split; [exact Hwf|]. split; [exact Hrun|].
  split; [apply (absorb_outcome_spec sample_turn enter_call success sample_agent absorbed None Hwf Hrun)|].
  vm_compute. reflexivity.
Defined.

Definition shell_call : ToolCall := {| tc_id := "1"; tc_name := "shell"; tc_parameters := Obj [("command", Str "ls")]%string |}.

Definition shell_gate (mode : InteractionMode) (counts : gmap string Z) : GatedCall :=
  fst (gate_one_tool (fun n => if String.eqb n "shell" then Some shell_tool else None) (fun _ => None) (fun _ _ _ => SpawnError)
         shell_call [] counts 99 mode [] [] (F32.lit 1 2)).

Lemma failure_streak_is_final_witness :
  let counts := {["shell"%string := 3%Z]} : gmap string Z in
  counts !! tc_name shell_call = Some 3%Z /\ (3 <= 3)%Z /\
  exists o, fst (gate_one_tool (fun _ => Some shell_tool) (fun _ => None) (fun _ _ _ => SpawnError) shell_call []
                   counts 3 Auto [] [] (F32.lit 1 2)) = Finished o /\
    merge_failure shell_call o counts !! tc_name shell_call = Some 4%Z.
Proof.
  intros counts. assert (H1 : counts !! tc_name shell_call = Some 3%Z) by (vm_compute; reflexivity).
  assert (H2 : (3 <= 3)%Z) by lia. split; [exact H1|]. split; [exact H2|].
  apply (failure_streak_is_final (fun _ => Some shell_tool) (fun _ => None) (fun _ _ _ => SpawnError) shell_call []
           counts 3 Auto [] [] (F32.lit 1 2) 3 H1 H2).
Defined.

(** A refusal of the planning mode counts as a failure: five of them close the
    destructive gate for the rest of the session. *)
Example planning_refusals_close_gate :
  let refused := match shell_gate Plan ∅ with Finished o => o | Cleared _ _ _ _ _ _ => success end in
  co_execution_mode refused = "planning_denied"%string /\
  gate_is_open (close_failing_gates (Nat.iter 5 (merge_failure shell_call refused) ∅) sample_plate) ShangMen = false.
Proof. split; vm_compute; reflexivity. Qed.
