(* ===== verification/Early.v ===== *)
(** * Early dispatch: calls executed while the answer still streams

    src/kernel/src/plates/tian_heaven/loop.rs: [early_gate_dispatch],
    [drain_early_finalize] and [wind_down_early], over the dispatcher's state of
    loop_dispatch.rs.  A task that ends is a [Joined] of the batch window; the
    model is told which tasks have ended whenever the code looks. *)

From S2P Require Import Prelude RString Json GeJu Permission Tool Scheduler HumanPlate Principles Hooks Context Dispatch Batch.

#[local] Arguments String.append !_ _ : simpl nomatch.

(** ** State *)

Inductive EarlySlot :=
| Done (o : CallOutcome)
| Running (m : CallMeta)
| Gated (tool : BaseTool) (geju : GeJuResult) (m : CallMeta)
| Consumed.

(** The tasks of the join set carry the call they execute. *)
Record Stream := {
  ed : EarlyDispatch;
  tasks : list (nat * PreparedCall);
  slots : list EarlySlot;
  touched : list string;
  world : World
}.

Definition stream_new (touched : list string) (w : World) : Stream :=
  {| ed := EarlyDispatch_new; tasks := []; slots := []; touched := touched; world := w |}.

(** What the run keeps fixed while an answer is processed. *)
Record RunCtx := {
  rc_hooks : HookRegistry;
  rc_failures : gmap string Z;
  rc_max_failures : Z;
  rc_mode : InteractionMode;
  rc_user_hooks : list CompiledHook;
  rc_principles : list SystemPrinciple;
  rc_atma : spec_float;
  rc_plate : HumanPlate;
  rc_session : string;
  rc_budget : ToolOutputBudget;
  rc_root : string;
  rc_max_conc : nat
}.

(** An outcome before its output is finalized. *)
Definition raw_outcome (m : CallMeta) (error : option string) (synthetic : bool) : CallOutcome :=
  {| co_output := ""; co_error := error; co_geju_name := m_geju_name m; co_execution_mode := m_mode m;
     co_heaven_stem := m_heaven m; co_target_palace := m_palace m; synthetic_cancel := synthetic |}.

Definition joined_of (j : Joined) : option (nat * TaskResult) := (fun r => (j_index j, r)) <$> j_result j.

Definition forget (js : list Joined) (ts : list (nat * PreparedCall)) : list (nat * PreparedCall) :=
  List.filter (fun t => negb (existsb (fun j => (j_index j =? fst t)%nat) js)) ts.

Definition push_slot (x : EarlySlot) (s : Stream) : Stream :=
  {| ed := ed s; tasks := tasks s; slots := slots s ++ [x]; touched := touched s; world := world s |}.

(** [EarlyDispatch::poll]: the tasks that ended since. *)
Definition poll_stream (js : list Joined) (s : Stream) : Stream :=
  {| ed := poll (map joined_of js) (ed s); tasks := forget js (tasks s); slots := slots s; touched := touched s; world := world s |}.

(** [abort_and_reset], before a retried request: no account is kept. *)
Definition abort_and_reset (s : Stream) : Stream :=
  {| ed := EarlyDispatch_new; tasks := []; slots := []; touched := touched s; world := world s |}.

Section Dispatching.
Context (get_tool : string -> option BaseTool) (run_command : string -> string -> Value -> Status) (env : Env).
Context `{Tokenizer} (parse_json : string -> option Value) (persist : ToolCall -> string -> result string (string * Z)).
Context (c : RunCtx).

Definition gate (tc : ToolCall) : GatedCall * list GateEvent :=
  gate_one_tool get_tool (HumanPlate.glob env) run_command tc (rc_hooks c) (rc_failures c) (rc_max_failures c) (rc_mode c)
    (rc_user_hooks c) (rc_principles c) (rc_atma c).

(** [HumanPlate::prepare] with the fuel that is always enough, so the last case
    does not occur; both errors carry a text. *)
Definition prepare_call (geju : GeJuResult) (tool : BaseTool) (input : Value) (w : World) : result string PreparedCall * World :=
  match prepare env (rc_plate c) (rc_session c) 2 geju tool input w with
  | Some (Ok pc, w') => (Ok pc, w')
  | Some (Err (DispatchDenied r), w') | Some (Err (DispatchToolError r), w') => (Err r, w')
  | None => (Err "", w)
  end.

Definition finalize (tc : ToolCall) (raw : string) (o : CallOutcome) (duration : Z) (touched : list string) :
    CallOutcome * list string * list GateEvent :=
  finalize_outcome parse_json (HumanPlate.glob env) persist (rc_budget c) (rc_hooks c) tc raw o duration touched.

Definition eligible_now (tool : BaseTool) (geju : GeJuResult) (tc : ToolCall) (ed : EarlyDispatch) : bool :=
  eligible ed (normalize_accesses (rc_root c) (t_accesses tool (tc_parameters tc))) (execution_mode geju)
    (gate_is_open (rc_plate c) JingXiangMen)
    (chain_check (HumanPlate.glob env) (HumanPlate.to_lowercase env) (HumanPlate.to_string env) (permissions (rc_plate c))
       (t_name tool) (tc_parameters tc))
    (rc_max_conc c).

(** [early_gate_dispatch]; [polled] are the tasks found ended by its [poll]. *)
Definition early_gate_dispatch (index : nat) (tc : ToolCall) (polled : list Joined) (s : Stream) : Stream * list GateEvent :=
  let '(gated, evs) := gate tc in
  match gated with
  | Finished o => (push_slot (Done o) s, evs)
  | Cleared tool geju geju_name mode heaven palace =>
      let m := {| m_geju_name := geju_name; m_mode := mode; m_heaven := heaven; m_palace := palace |} in
      let s := poll_stream polled s in
      if negb (eligible_now tool geju tc (ed s)) then (push_slot (Gated tool geju m) s, evs)
      else
        let '(prepared, w) := prepare_call geju tool (tc_parameters tc) (world s) in
        match prepared with
        | Ok pc =>
            (push_slot (Running m)
               {| ed := ed_spawn index (normalize_accesses (rc_root c) (t_accesses tool (tc_parameters tc))) (ed s);
                  tasks := tasks s ++ [(index, pc)]; slots := slots s; touched := touched s; world := w |}, evs)
        | Err err =>
            let '(o, touched, evs') := finalize tc "" (raw_outcome m (Some err) false) 0 (touched s) in
            (push_slot (Done o) {| ed := ed s; tasks := tasks s; slots := slots s; touched := touched; world := w |}, evs ++ evs')
        end
  end.

(** The running slots settled in order; [take] gives the outcome of each, and
    the indexing of the calls panics past their end. *)
Fixpoint settle (take : nat -> CallMeta -> string * CallOutcome * Z) (k : nat) (sl : list EarlySlot) (calls : list ToolCall)
    (touched : list string) : option (list EarlySlot * list string * list GateEvent) :=
  match sl with
  | [] => Some ([], touched, [])
  | x :: rest =>
      match x with
      | Running m =>
          tc ← head calls;
          let '(raw, o, duration) := take k m in
          let '(o, touched, evs) := finalize tc raw o duration touched in
          '(rest, touched, evs') ← settle take (S k) rest (tail calls) touched;
          Some (Done o :: rest, touched, evs ++ evs')
      | _ =>
          '(rest, touched, evs) ← settle take (S k) rest (tail calls) touched;
          Some (x :: rest, touched, evs)
      end
  end.

(** [drain_early_finalize]: every task left is joined, in the order of [js];
    every result is taken once. *)
Definition drain_early_finalize (js : list Joined) (calls : list ToolCall) (s : Stream) : option (Stream * list GateEvent) :=
  let ed' := drain (map (fun j => (joined_of j, j_cancelled j)) js) (ed s) in
  '(sl, touched, evs) ← settle (fun k m => barrier_outcome m (ed_completed ed' !! k)) 0 (slots s) calls (touched s);
  Some ({| ed := {| ed_in_flight := []; ed_join_len := ed_join_len ed'; ed_completed := ∅; ed_aborted := ed_aborted ed' |};
           tasks := forget js (tasks s); slots := sl; touched := touched; world := world s |}, evs).

Definition interrupted : string := "cancelled: stream interrupted while the call was in flight".

(** [wind_down_early]: all tasks are aborted and joined. *)
Definition wind_down_early (calls : list ToolCall) (s : Stream) : option (Stream * list GateEvent) :=
  '(sl, touched, evs) ← settle (fun _ m => (""%string, raw_outcome m (Some interrupted) true, 0%Z)) 0 (slots s) calls (touched s);
  Some ({| ed := {| ed_in_flight := []; ed_join_len := 0; ed_completed := ed_completed (ed s); ed_aborted := ed_aborted (ed s) |};
           tasks := []; slots := sl; touched := touched; world := world s |}, evs).

(** ** Streams

    The tasks that end are tasks that run, each once. *)
Definition joins_ok (js : list Joined) (s : Stream) : Prop :=
  NoDup (map j_index js) /\ forall j, j ∈ js -> j_index j ∈ map fst (tasks s).

(** The calls of the answer so far, the tasks joined so far, and the state. *)
Inductive streamed (touched : list string) (w : World) : list ToolCall -> list Joined -> Stream -> Prop :=
| streamed_new : streamed touched w [] [] (stream_new touched w)
| streamed_call calls js s tc polled :
    streamed touched w calls js s ->
    joins_ok polled s ->
    streamed touched w (calls ++ [tc])
      (js ++ match fst (gate tc) with Finished _ => [] | Cleared _ _ _ _ _ _ => polled end)
      (fst (early_gate_dispatch (length calls) tc polled s)).

(** * Proofs *)

Definition cleared_by (tc : ToolCall) (tool : BaseTool) (geju : GeJuResult) (m : CallMeta) : Prop :=
  fst (gate tc) = Cleared tool geju (m_geju_name m) (m_mode m) (m_heaven m) (m_palace m).

(** A verifier's shell command the allowlist refuses. *)
Definition verifier_refused (tool : BaseTool) : Prop :=
  verifier_shell_only (rc_plate c) = true /\ t_name tool = "shell"%string.

(** A call that may run while the answer streams. *)
Definition harmless (tc : ToolCall) (tool : BaseTool) (geju : GeJuResult) : Prop :=
  execution_mode geju = Direct /\
  all (normalize_accesses (rc_root c) (t_accesses tool (tc_parameters tc))) = false /\
  writes (normalize_accesses (rc_root c) (t_accesses tool (tc_parameters tc))) = [] /\
  chain_check (HumanPlate.glob env) (HumanPlate.to_lowercase env) (HumanPlate.to_string env) (permissions (rc_plate c))
    (t_name tool) (tc_parameters tc) = Pass.

Definition slot_ok (tc : ToolCall) (x : EarlySlot) : Prop :=
  match x with
  | Done o =>
      fst (gate tc) = Finished o \/
      exists tool geju m, cleared_by tc tool geju m /\ verifier_refused tool /\ is_Some (co_error o) /\ synthetic_cancel o = false
  | Running m => exists tool geju, cleared_by tc tool geju m /\ harmless tc tool geju
  | Gated tool geju m => cleared_by tc tool geju m
  | Consumed => False
  end.

(** The calls that were started. *)
Fixpoint running_from (k : nat) (sl : list EarlySlot) : list nat :=
  match sl with
  | [] => []
  | Running _ :: rest => k :: running_from (S k) rest
  | _ :: rest => running_from (S k) rest
  end.

Lemma running_snoc k sl x :
  running_from k (sl ++ [x]) = running_from k sl ++ match x with Running _ => [k + length sl] | _ => [] end.
Proof.
  revert k. induction sl as [|y sl IH]; intros k; [cbn; by rewrite Nat.add_0_r; destruct x|].
  cbn. rewrite IH. replace (S k + length sl) with (k + S (length sl)) by lia. by destruct y.
Qed.

Lemma running_bound k sl i : i ∈ running_from k sl -> k <= i < k + length sl.
Proof.
  revert k. induction sl as [|x sl IH]; intros k Hi; [by apply elem_of_nil in Hi|].
  destruct x; cbn in Hi; try (apply IH in Hi; cbn; lia).
  apply elem_of_cons in Hi as [->|Hi]; [cbn; lia|]. apply IH in Hi. cbn. lia.
Qed.

Lemma running_nodup k sl : NoDup (running_from k sl).
Proof.
  revert k. induction sl as [|x sl IH]; intros k; [constructor|]. destruct x; cbn; auto.
  constructor; [|by auto]. intros Hk%running_bound. lia.
Qed.

Lemma forget_elem js ts i :
  i ∈ map fst (forget js ts) <-> i ∈ map fst ts /\ i ∉ map j_index js.
Proof.
  rewrite !list_elem_of_In, !in_map_iff. setoid_rewrite filter_In. setoid_rewrite negb_true_iff. setoid_rewrite not_existsb.
  split.
  - intros ([k pc] & <- & Hin & Hno). cbn in *. split; [by exists (k, pc)|]. intros (j & Hk & Hj).
    apply list_elem_of_In in Hj. specialize (Hno j Hj). by apply Nat.eqb_neq in Hno.
  - intros [([k pc] & <- & Hin) Hno]. exists (k, pc). split; [done|]. split; [done|]. intros j Hj. cbn.
    apply Nat.eqb_neq. intros Hjk. apply Hno. exists j. split; [done|]. by apply list_elem_of_In.
Qed.

Lemma forget_sub js ts t : t ∈ forget js ts -> t ∈ ts.
Proof. intros Ht. apply list_elem_of_In in Ht. apply filter_In in Ht as [Ht _]. by apply list_elem_of_In. Qed.

Lemma forget_nodup js ts : NoDup (map fst ts) -> NoDup (map fst (forget js ts)).
Proof.
  unfold forget. induction ts as [|t ts IH]; cbn; [done|]. intros [Ht Hnd]%NoDup_cons.
  destruct (negb _); cbn; [|by auto]. constructor; [|by auto]. intros [? _]%forget_elem. done.
Qed.

Lemma forget_perm js s : NoDup (map fst (tasks s)) -> joins_ok js s ->
  map fst (tasks s) ≡ₚ map j_index js ++ map fst (forget js (tasks s)).
Proof.
  intros Hts [Hjs Hin]. apply NoDup_Permutation; [done|apply NoDup_app; split; [done|split]|].
  - intros i Hi [_ Hn]%forget_elem. done.
  - by apply forget_nodup.
  - intros i. rewrite elem_of_app, forget_elem. destruct (decide (i ∈ map j_index js)) as [Hi|Hi]; [|tauto].
    split; [by left|intros _]. apply list_elem_of_In, in_map_iff in Hi as (j & <- & Hj). by apply Hin, list_elem_of_In.
Qed.

(** Joining keeps the results and counts the tasks down. *)
Lemma poll_one_completed j e :
  ed_completed (poll_one (joined_of j) e) = keep_result j (ed_completed e) /\
  ed_join_len (poll_one (joined_of j) e) = ed_join_len e - 1.
Proof. destruct j as [k [[[raw err] d]|] cc]; cbn; by split. Qed.

Lemma drain_one_completed j e :
  ed_completed (drain_one (joined_of j, j_cancelled j) e) = keep_result j (ed_completed e) /\
  ed_join_len (drain_one (joined_of j, j_cancelled j) e) = ed_join_len e - 1.
Proof. destruct j as [k [[[raw err] d]|] cc]; cbn; by split. Qed.

Lemma join_all_results (f : Joined -> EarlyDispatch -> EarlyDispatch) js0 js e :
  (forall j e, ed_completed (f j e) = keep_result j (ed_completed e) /\ ed_join_len (f j e) = ed_join_len e - 1) ->
  NoDup (map j_index (js0 ++ js)) -> results js0 (ed_completed e) ->
  let e' := foldl (fun e j => f j e) e js in
  results (js0 ++ js) (ed_completed e') /\ ed_join_len e' = ed_join_len e - length js.
Proof.
  intros Hf. revert js0 e. induction js as [|j js IH]; intros js0 e Hnd Hres; cbn; [rewrite app_nil_r; split; [done|lia]|].
  destruct (Hf j e) as [Hc Hl]. rewrite cons_middle, app_assoc in Hnd |- *.
  destruct (IH (js0 ++ [j]) (f j e) Hnd) as [Hr Hn].
  - rewrite Hc. apply results_snoc; [|done]. intros Hj. rewrite !map_app in Hnd.
    apply NoDup_app in Hnd as [(_ & Hdis & _)%NoDup_app _]. apply (Hdis _ Hj). by constructor.
  - split; [exact Hr|]. rewrite Hn, Hl. lia.
Qed.

Lemma foldl_map {A B C} (f : C -> B -> C) (g : A -> B) l x : foldl f x (map g l) = foldl (fun x a => f x (g a)) x l.
Proof. revert x. induction l as [|a l IH]; intros x; [done|apply IH]. Qed.

Lemma poll_results js0 js e : NoDup (map j_index (js0 ++ js)) -> results js0 (ed_completed e) ->
  results (js0 ++ js) (ed_completed (poll (map joined_of js) e)) /\
  ed_join_len (poll (map joined_of js) e) = ed_join_len e - length js.
Proof.
  intros Hnd Hres. unfold poll. rewrite foldl_map. by apply join_all_results; [apply poll_one_completed|..].
Qed.

Lemma drain_results js0 js e : NoDup (map j_index (js0 ++ js)) -> results js0 (ed_completed e) ->
  results (js0 ++ js) (ed_completed (drain (map (fun j => (joined_of j, j_cancelled j)) js) e)) /\
  ed_join_len (drain (map (fun j => (joined_of j, j_cancelled j)) js) e) = ed_join_len e - length js.
Proof.
  intros Hnd Hres. unfold drain. cbn. rewrite foldl_map. by apply join_all_results; [apply drain_one_completed|..].
Qed.

(** Nobody was asked, and nothing was approved. *)
Definition quiet (w w' : World) : Prop :=
  requests w' = requests w /\ answers w' = answers w /\ session_approvals w' = session_approvals w /\
  pending_confirmations w' = pending_confirmations w.

Record stream_inv (w : World) (calls : list ToolCall) (js : list Joined) (s : Stream) : Prop := {
  si_slots : Forall2 slot_ok calls (slots s);
  si_running : running_from 0 (slots s) ≡ₚ map j_index js ++ map fst (tasks s);
  si_results : results js (ed_completed (ed s));
  si_window : ed_join_len (ed s) = length (tasks s) /\ length (tasks s) <= rc_max_conc c;
  si_tasks : forall k pc, (k, pc) ∈ tasks s -> exists tc tool geju m,
    calls !! k = Some tc /\ cleared_by tc tool geju m /\ harmless tc tool geju /\
    pc = {| pc_tool := tool; pc_input := tc_parameters tc |};
  si_quiet : quiet w (world s)
}.

Lemma inv_nodup w calls js s : stream_inv w calls js s -> NoDup (map j_index js ++ map fst (tasks s)).
Proof. intros Hinv. rewrite <- (si_running _ _ _ _ Hinv). apply running_nodup. Qed.

Lemma poll_inv w calls js s polled : stream_inv w calls js s -> joins_ok polled s ->
  stream_inv w calls (js ++ polled) (poll_stream polled s).
Proof.
  intros Hinv Hok. pose proof (inv_nodup _ _ _ _ Hinv) as Hnd. destruct Hinv as [Hs Hr Hres [Hl Hm] Ht Hq].
  pose proof (proj2 (proj2 (proj1 (NoDup_app _ _) Hnd))) as Hts. pose proof (forget_perm _ _ Hts Hok) as Hp.
  rewrite Hp, app_assoc, <- map_app in Hnd. apply NoDup_app in Hnd as [Hnd _].
  destruct (poll_results js polled (ed s) Hnd Hres) as [Hres' Hl'].
  assert (Hlen : length (tasks s) = length polled + length (forget polled (tasks s))).
  { pose proof (Permutation_length Hp) as E. by rewrite length_app, !length_map in E. }
  split; cbn [slots tasks ed world poll_stream]; try done.
  - by rewrite Hr, Hp, map_app, app_assoc.
  - split; [rewrite Hl', Hl; lia|lia].
  - intros k pc Hk%forget_sub. by apply Ht.
Qed.

(** A slot pushed without a task. *)
Lemma push_inv w calls js s tc x : stream_inv w calls js s -> slot_ok tc x ->
  match x with Running _ => False | _ => True end -> stream_inv w (calls ++ [tc]) js (push_slot x s).
Proof.
  intros [Hs Hr Hres Hw Ht Hq] Hx Hno. split; cbn [slots tasks ed world push_slot]; try done.
  - apply Forall2_app; [done|by constructor].
  - rewrite running_snoc, Hr. destruct x; [by rewrite app_nil_r|done|by rewrite app_nil_r|by rewrite app_nil_r].
  - intros k pc Hk. destruct (Ht k pc Hk) as (tc' & tool & geju & m & Hc & ?). exists tc', tool, geju, m.
    split; [by apply lookup_app_l_Some|done].
Qed.

Lemma set_touched_inv w calls js s touched : stream_inv w calls js s -> forall w', quiet w w' ->
  stream_inv w calls js {| ed := ed s; tasks := tasks s; slots := slots s; touched := touched; world := w' |}.
Proof. intros [Hs Hr Hres Hw Ht Hq] w' Hq'. by split. Qed.

Lemma early_gate_inv w calls js s tc polled : stream_inv w calls js s -> joins_ok polled s ->
  stream_inv w (calls ++ [tc]) (js ++ match fst (gate tc) with Finished _ => [] | Cleared _ _ _ _ _ _ => polled end)
    (fst (early_gate_dispatch (length calls) tc polled s)).
Proof.
  intros Hinv Hok. unfold early_gate_dispatch. destruct (gate tc) as [[tool geju pattern mode heaven palace|o] evs] eqn:Hg; cbn [fst].
  2: { rewrite app_nil_r. apply push_inv; [done| |done]. left. by rewrite Hg. }
  set (m := {| m_geju_name := pattern |}). assert (Hcl : cleared_by tc tool geju m) by (unfold cleared_by; by rewrite Hg).
  pose proof (poll_inv _ _ _ _ _ Hinv Hok) as Hp. set (s1 := poll_stream polled s) in *. clearbody s1.
  destruct (eligible_now tool geju tc (ed s1)) eqn:He; cbn [negb]; [|by apply push_inv].
  destruct (eligible_inv _ _ _ _ _ _ He) as (_ & Hall & Hwr & Hdir & Hopen & Hpass & Hroom).
  assert (Hh : harmless tc tool geju) by done.
  pose proof (direct_prepare env (rc_plate c) (rc_session c) 2 geju tool (tc_parameters tc) (world s1) Hdir Hopen Hpass) as Hprep.
  assert (Hcase : exists prepared w', prepare_call geju tool (tc_parameters tc) (world s1) = (prepared, w') /\ quiet w w' /\
    match prepared with Ok pc => pc = {| pc_tool := tool; pc_input := tc_parameters tc |} | Err _ => verifier_refused tool end).
  { unfold prepare_call. pose proof (si_quiet _ _ _ _ Hp) as (Q1 & Q2 & Q3 & Q4).
    destruct Hprep as [->|(Hv & Hn & r & w' & -> & R1 & R2 & R3 & R4 & [->|[e ->]])].
    - do 2 eexists. by split_and!.
    - do 2 eexists. split; [done|]. split; [|done]. unfold quiet. by rewrite R1, R2, R3, R4.
    - exists (Err (match e with DispatchDenied r => r | DispatchToolError r => r end)), w'.
      split; [by destruct e|]. split; [|done]. unfold quiet. by rewrite R1, R2, R3, R4. }
  destruct Hcase as (prepared & w' & -> & Hquiet & Hres). destruct prepared as [pc|err]; [subst pc|].
  - destruct Hp as [Hs Hr Hrs [Hl Hm] Ht Hq]. pose proof (Forall2_length _ _ _ Hs) as Hlen.
    split; cbn [slots tasks ed world push_slot fst].
    + apply Forall2_app; [done|]. constructor; [|done]. by exists tool, geju.
    + rewrite running_snoc, Hr, (map_app fst), app_assoc. cbn. by rewrite Hlen.
    + done.
    + rewrite length_app. cbn in *. split; [lia|]. lia.
    + intros k pc. rewrite elem_of_app, list_elem_of_singleton. intros [Hk|[= -> ->]].
      * destruct (Ht k pc Hk) as (tc' & tool' & geju' & m' & Hc & ?). exists tc', tool', geju', m'.
        split; [by apply lookup_app_l_Some|done].
      * exists tc, tool, geju, m. split; [apply list_lookup_middle; done|]. done.
    + done.
  - destruct (finalize _ _ _ _ _) as [[o tch] evs'] eqn:Hfin. cbn [fst].
    apply push_inv; [by apply set_touched_inv| |done]. right. exists tool, geju, m. do 2 (split; [done|]).
    unfold finalize, finalize_outcome in Hfin. simplify_eq. cbn. split; [by eexists|done].
Qed.

Lemma streamed_inv touched w calls js s : streamed touched w calls js s -> stream_inv w calls js s.
Proof.
  induction 1 as [|calls js s tc polled _ IH Hok]; [|by apply early_gate_inv].
  split; cbn; try done; [|lia|].
  - intros i r. rewrite lookup_empty. split; [done|]. intros [cc Hc]. by apply elem_of_nil in Hc.
  - intros k pc Hk. by apply elem_of_nil in Hk.
Qed.

(** Settling a slot: a started call becomes the final form of the outcome it is
    given, and every other slot stays. *)
Definition settled (take : nat -> CallMeta -> string * CallOutcome * Z) (k : nat) (tc : ToolCall) (x y : EarlySlot) : Prop :=
  match x with
  | Running m => let '(raw, o, duration) := take k m in exists t, y = Done (fst (fst (finalize tc raw o duration t)))
  | _ => y = x
  end.

Lemma finalize_events tc raw o duration t : count_ev is_tx_result (snd (finalize tc raw o duration t)) = 1.
Proof. unfold finalize, finalize_outcome, count_ev. cbn. f_equal. by apply (count_hooks is_tx_result). Qed.

Lemma settle_spec take k sl calls t : length sl <= length calls ->
  exists sl' t' evs, settle take k sl calls t = Some (sl', t', evs) /\ length sl' = length sl /\
    count_ev is_tx_result evs = length (running_from k sl) /\
    forall i x, sl !! i = Some x -> exists tc y, calls !! i = Some tc /\ sl' !! i = Some y /\ settled take (k + i) tc x y.
Proof.
  revert k calls t. induction sl as [|x sl IH]; intros k calls t Hlen; [by exists [], t, []|].
  destruct calls as [|tc calls]; [cbn in Hlen; lia|]. cbn in Hlen.
  assert (Hstep : forall t0, exists sl' t' evs, settle take (S k) sl calls t0 = Some (sl', t', evs) /\ length sl' = length sl /\
    count_ev is_tx_result evs = length (running_from (S k) sl) /\
    forall y0, settled take k tc x y0 -> forall i x', (x :: sl) !! i = Some x' ->
      exists tc' y, (tc :: calls) !! i = Some tc' /\ (y0 :: sl') !! i = Some y /\ settled take (k + i) tc' x' y).
  { intros t0. destruct (IH (S k) calls t0) as (sl' & t' & evs & Hr & Hl & Hc & Hall); [lia|].
    exists sl', t', evs. do 3 (split; [done|]). intros y0 Hy [|i] x' Hx; cbn in Hx |- *.
    - simplify_eq. exists tc, y0. do 2 (split; [done|]). by rewrite Nat.add_0_r.
    - replace (k + S i) with (S k + i) by lia. by apply Hall. }
  destruct x as [o|m|tool geju m|].
  2: { cbn [settle head tail]. destruct (take k m) as [[raw o] d] eqn:Htk. cbn [mbind option_bind].
       pose proof (finalize_events tc raw o d t) as He. destruct (finalize tc raw o d t) as [[o' t1] evs1] eqn:Hf. cbn [snd] in He.
       destruct (Hstep t1) as (sl' & t' & evs & Hr & Hl & Hc & Hall). cbn. rewrite Hr. cbn.
       do 3 eexists. split; [done|]. split; [cbn; lia|]. split; [by rewrite count_app, He, Hc|].
       apply Hall. unfold settled. rewrite Htk. exists t. by rewrite Hf. }
  all: destruct (Hstep t) as (sl' & t' & evs & Hr & Hl & Hc & Hall); cbn; rewrite Hr; cbn;
    do 3 eexists; (split; [done|]); (split; [cbn; lia|]); (split; [exact Hc|]); by apply Hall.
Qed.

Lemma running_elem k sl i : i ∈ running_from k sl <-> exists m, k <= i /\ sl !! (i - k) = Some (Running m).
Proof.
  revert k. induction sl as [|x sl IH]; intros k; cbn.
  - rewrite elem_of_nil. split; [done|]. by intros (m & _ & ?).
  - assert (Hrec : i ∈ running_from (S k) sl <-> exists m, k <= i /\ i <> k /\ (x :: sl) !! (i - k) = Some (Running m)).
    { rewrite IH. split; intros (m & H1 & H2); exists m.
      - replace (i - k) with (S (i - S k)) by lia. cbn. split_and!; [lia|lia|done].
      - destruct H2 as [Hne H2]. split; [lia|]. by replace (i - k) with (S (i - S k)) in H2 by lia. }
    assert (Hhead : forall m, (k <= i /\ (x :: sl) !! (i - k) = Some (Running m)) ->
      i = k /\ x = Running m \/ (k <= i /\ i <> k /\ (x :: sl) !! (i - k) = Some (Running m))).
    { intros m [H1 H2]. destruct (decide (i = k)) as [->|]; [|by right]. left. rewrite Nat.sub_diag in H2. by simplify_eq/=. }
    destruct x; [rewrite Hrec|rewrite elem_of_cons, Hrec|rewrite Hrec|rewrite Hrec]; split.
    all: try (intros (m' & H1 & H2 & H3); by exists m').
    all: try (intros (m' & Hm'); apply Hhead in Hm' as [[-> ?]|?]; [congruence|by exists m']).
    + intros [->|(m' & H1 & H2 & H3)]; [exists m; by rewrite Nat.sub_diag|by exists m'].
    + intros (m' & Hm'). apply Hhead in Hm' as [[-> ?]|?]; [by left|right; by exists m'].
Qed.

(** [C5] Early dispatch while an answer streams, for every answer and every order
    in which the started calls end.  Every call has its slot, in order.  Nobody
    is asked and nothing is approved.  A call in flight was cleared by the
    serial gate in direct mode, writes nothing, passed the policy chain, and
    runs with its own parameters; at most a window's number of calls is in
    flight.  Exactly the started calls have a running slot, and a call is
    started once and joined at most once.  A call that waits for the end of the
    stream keeps the gate's decision, and a refused one the gate's outcome,
    unless it is a verifier's shell command that its allowlist refused. *)
Theorem early_stream_spec touched w calls js s (Hs : streamed touched w calls js s) :
  length (slots s) = length calls /\
  quiet w (world s) /\
  (forall k pc, (k, pc) ∈ tasks s -> exists tc tool geju m,
     calls !! k = Some tc /\ cleared_by tc tool geju m /\ harmless tc tool geju /\
     pc = {| pc_tool := tool; pc_input := tc_parameters tc |}) /\
  length (tasks s) <= rc_max_conc c /\
  (forall k, k ∈ map j_index js ++ map fst (tasks s) <-> exists m, slots s !! k = Some (Running m)) /\
  NoDup (map j_index js ++ map fst (tasks s)) /\
  (forall k x, slots s !! k = Some x -> exists tc, calls !! k = Some tc /\ slot_ok tc x).
Proof.
  apply streamed_inv in Hs. pose proof (inv_nodup _ _ _ _ Hs) as Hnd. destruct Hs as [Hsl Hr Hres [Hl Hm] Ht Hq].
  split; [symmetry; by eapply Forall2_length|]. do 3 (split; [done|]).
  split; [intros k; rewrite <- Hr, running_elem, Nat.sub_0_r; split; intros [m Hk]; exists m; [by destruct Hk|split; [lia|done]]|].
  split; [done|]. intros k x Hx. by destruct (Forall2_lookup_r _ _ _ _ _ Hsl Hx) as (tc & ? & ?); exists tc.
Qed.

(** What an early call ends with, given the tasks that ended. *)
Definition own_result (js : list Joined) (k : nat) (m : CallMeta) (tc : ToolCall) (o : CallOutcome) : Prop :=
  (exists raw error duration cc t,
     {| j_index := k; j_result := Some (raw, error, duration); j_cancelled := cc |} ∈ js /\
     o = fst (fst (finalize tc raw (raw_outcome m error false) duration t))) \/
  (exists cc t, {| j_index := k; j_result := None; j_cancelled := cc |} ∈ js /\
     o = fst (fst (finalize tc "" (raw_outcome m (Some "cancelled: a sibling tool call in this batch failed"%string) true) 0 t))).

(** The end of the stream.  When the tasks still in flight have been joined,
    in any order, no slot is left running: every started call has the outcome
    its own task ended with, while the stream was read or at the drain, or a
    synthetic cancellation, which only happens when its task was aborted or
    panicked; the other slots are untouched, one result is announced for every
    started call, and indexing the calls never fails. *)
Theorem drain_early_spec touched w calls js js' s (Hs : streamed touched w calls js s) (Hok : joins_ok js' s)
    (Hall : forall i, i ∈ map fst (tasks s) -> i ∈ map j_index js') :
  exists s' evs, drain_early_finalize js' calls s = Some (s', evs) /\
    tasks s' = [] /\ ed_join_len (ed s') = 0 /\ world s' = world s /\ length (slots s') = length calls /\
    count_ev is_tx_result evs = length js + length js' /\
    forall k tc, calls !! k = Some tc -> exists x y, slots s !! k = Some x /\ slots s' !! k = Some y /\
      match x with
      | Running m => exists o, y = Done o /\ own_result (js ++ js') k m tc o
      | _ => y = x
      end.
Proof.
  apply streamed_inv in Hs. pose proof (inv_nodup _ _ _ _ Hs) as Hnd. destruct Hs as [Hsl Hr Hres [Hl Hm] Ht Hq].
  pose proof (proj2 (proj2 (proj1 (NoDup_app _ _) Hnd))) as Hts. pose proof (forget_perm _ _ Hts Hok) as Hp.
  assert (Hnone : forget js' (tasks s) = []).
  { destruct (forget js' (tasks s)) as [|t ts] eqn:Hf; [done|]. exfalso. assert (Hin : fst t ∈ map fst (forget js' (tasks s)))
      by (rewrite Hf; by constructor). apply forget_elem in Hin as [Hin Hno]. by apply Hno, Hall. }
  rewrite Hnone, app_nil_r in Hp. pose proof (Permutation_length Hp) as Hlen. rewrite !length_map in Hlen.
  assert (Hndj : NoDup (map j_index (js ++ js'))) by (rewrite map_app; by rewrite <- Hp).
  destruct (drain_results js js' (ed s) Hndj Hres) as [Hres' Hl'].
  pose proof (Forall2_length _ _ _ Hsl) as Hlc.
  unfold drain_early_finalize. set (ed' := drain _ (ed s)) in *.
  destruct (settle_spec (fun k m => barrier_outcome m (ed_completed ed' !! k)) 0 (slots s) calls (Early.touched s)) as (sl' & t' & evs & -> & Hsl' & Hcnt & Hset);
    [lia|]. cbn [mbind option_bind]. do 2 eexists. split; [done|]. cbn [tasks ed ed_join_len world slots]. split; [done|].
    split; [rewrite Hl', Hl, Hlen; apply Nat.sub_diag|]. split; [done|]. split; [lia|]. split.
  { pose proof (Permutation_length Hr) as E. rewrite length_app, !length_map in E. rewrite Hcnt. lia. }
  intros k tc Hk. destruct (lookup_lt_is_Some_2 (slots s) k) as [x Hx]; [apply lookup_lt_Some in Hk; lia|].
  destruct (Hset k x Hx) as (tc' & y & Hk' & Hy & Hse). simplify_eq. exists x, y. do 2 (split; [done|]).
  destruct x as [o|m|tool geju m|]; unfold settled in Hse; try done.
  unfold barrier_outcome in Hse. cbv beta in Hse. rewrite Nat.add_0_l in Hse.
  assert (Hj : k ∈ map j_index (js ++ js')).
  { rewrite map_app, <- Hp, <- Hr, running_elem. exists m. split; [lia|]. by rewrite Nat.sub_0_r. }
  destruct (ed_completed ed' !! k) as [[[raw error] duration]|] eqn:Hc; cbv beta iota zeta in Hse; destruct Hse as [t ->]; eexists; (split; [done|]).
  - apply (proj1 (Hres' _ _)) in Hc as [cc Hc]. left. by exists raw, error, duration, cc, t.
  - right. apply list_elem_of_In, in_map_iff in Hj as ([k' res cc] & Hk'' & Hj). cbn in Hk''. subst k'.
    apply list_elem_of_In in Hj. exists cc, t. split; [|done]. destruct res as [r|]; [|done]. exfalso.
    assert (ed_completed ed' !! k = Some r) by (apply (proj2 (Hres' _ _)); by exists cc). congruence.
Qed.

(** An interrupted stream: every started call is accounted for as cancelled. *)
Lemma wind_down_spec touched w calls js s : streamed touched w calls js s ->
  exists s' evs, wind_down_early calls s = Some (s', evs) /\ tasks s' = [] /\ world s' = world s /\
    count_ev is_tx_result evs = length (running_from 0 (slots s)) /\
    forall k m tc, slots s !! k = Some (Running m) -> calls !! k = Some tc ->
      exists t, slots s' !! k = Some (Done (fst (fst (finalize tc "" (raw_outcome m (Some interrupted) true) 0 t)))).
Proof.
  intros Hs%streamed_inv. pose proof (Forall2_length _ _ _ (si_slots _ _ _ _ Hs)) as Hlc. unfold wind_down_early.
  destruct (settle_spec (fun _ m => (""%string, raw_outcome m (Some interrupted) true, 0%Z)) 0 (slots s) calls (Early.touched s))
    as (sl' & t' & evs & -> & Hsl' & Hcnt & Hset); [lia|].
  cbn. do 2 eexists. split; [done|]. do 2 (split; [done|]). split; [done|]. intros k m tc Hk Htc.
  destruct (Hset k _ Hk) as (tc' & y & Hk' & Hy & t & ->). simplify_eq. by exists t.
Qed.
End Dispatching.

(** ** Concrete runs *)

Definition demo_tools (n : string) : option BaseTool :=
  if String.eqb n "read_file" then Some read_tool else if String.eqb n "shell" then Some shell_tool else None.

Definition demo_call (id path : string) : ToolCall := {| tc_id := id; tc_name := "read_file"; tc_parameters := file_input path |}.

Definition demo_ctx : RunCtx :=
  {| rc_hooks := []; rc_failures := ∅; rc_max_failures := 3; rc_mode := Auto; rc_user_hooks := []; rc_principles := [];
     rc_atma := F32.lit 1 2; rc_plate := sample_plate; rc_session := "s";
     rc_budget := {| default_budget := 100; tool_budgets := ∅; char_fast_path_multiplier := 2 |}; rc_root := "/w"; rc_max_conc := 2 |}.

Definition demo_gate (tc : ToolCall) : GatedCall := fst (gate demo_tools (fun _ _ _ => SpawnError) sample_env demo_ctx tc).

Definition demo_dispatch (k : nat) (tc : ToolCall) (js : list Joined) (s : Stream) : Stream :=
  fst (early_gate_dispatch demo_tools (fun _ _ _ => SpawnError) sample_env (H := byte_tokenizer) (fun _ => None)
         (fun _ _ => Err "full") demo_ctx k tc js s).

Definition demo_drain (js : list Joined) (calls : list ToolCall) (s : Stream) : option (Stream * list GateEvent) :=
  drain_early_finalize sample_env (H := byte_tokenizer) (fun _ => None) (fun _ _ => Err "full") demo_ctx js calls s.

Definition ended (k : nat) (out : string) : Joined := {| j_index := k; j_result := Some (out, None, 5%Z); j_cancelled := false |}.

(** A read, a shell command and, after the first read ended, another read. *)
Definition demo_calls : list ToolCall := [demo_call "a" "notes"; shell_call; demo_call "b" "plan"].
Definition demo_one : Stream := demo_dispatch 0 (demo_call "a" "notes") [] (stream_new [] empty_world).
Definition demo_two : Stream := demo_dispatch 1 shell_call [] demo_one.
Definition demo_three : Stream := demo_dispatch 2 (demo_call "b" "plan") [ended 0 "text of notes"] demo_two.

Definition demo_streamed : list ToolCall -> list Joined -> Stream -> Prop :=
  streamed demo_tools (fun _ _ _ => SpawnError) sample_env (H := byte_tokenizer) (fun _ => None) (fun _ _ => Err "full") demo_ctx [] empty_world.

Lemma joins_none s : joins_ok [] s.
Proof. split; [constructor|]. intros j Hj. by apply elem_of_nil in Hj. Qed.

Lemma joins_one j s : j_index j ∈ map fst (tasks s) -> joins_ok [j] s.
Proof. intros Hj. split; [apply NoDup_singleton|]. intros j' Hj'%list_elem_of_singleton. by subst. Qed.

Lemma demo_stream : demo_streamed demo_calls [ended 0 "text of notes"] demo_three.
Proof.
  pose proof (streamed_call demo_tools (fun _ _ _ => SpawnError) sample_env (H := byte_tokenizer) (fun _ => None) (fun _ _ => Err "full"%string)
                demo_ctx [] empty_world) as Hcall.
  pose proof (Hcall [] [] _ (demo_call "a" "notes") [] (streamed_new _ _ _ _ _ _ _ _) (joins_none _)) as H1.
  pose proof (Hcall _ _ _ shell_call [] H1 (joins_none _)) as H2.
  refine (Hcall _ _ _ (demo_call "b" "plan") [ended 0 "text of notes"] H2 (joins_one _ _ _)).
  vm_compute. by constructor.
Qed.

Lemma early_stream_spec_witness :
  demo_streamed demo_calls [ended 0 "text of notes"] demo_three /\
  length (tasks demo_three) <= 2 /\ map fst (tasks demo_three) = [2] /\
  match slots demo_three with [Running _; Gated _ _ _; Running _] => True | _ => False end.
Proof.
  split; [exact demo_stream|]. split.
  - apply (early_stream_spec demo_tools (fun _ _ _ => SpawnError) sample_env (H := byte_tokenizer) (fun _ => None) (fun _ _ => Err "full"%string)
             demo_ctx [] empty_world demo_calls _ demo_three demo_stream).
  - vm_compute. done.
Defined.

Lemma drain_early_spec_witness :
  joins_ok [ended 2 "text of plan"] demo_three /\
  exists s' evs, demo_drain [ended 2 "text of plan"] demo_calls demo_three = Some (s', evs) /\ tasks s' = [] /\
    match slots s' with
    | [Done a; Gated _ _ _; Done b] => co_output a = "text of notes"%string /\ co_output b = "text of plan"%string
    | _ => False
    end.
Proof.
  assert (Hok : joins_ok [ended 2 "text of plan"] demo_three) by (apply joins_one; vm_compute; by constructor).
  split; [exact Hok|].
  destruct (drain_early_spec demo_tools (fun _ _ _ => SpawnError) sample_env (H := byte_tokenizer) (fun _ => None) (fun _ _ => Err "full"%string)
              demo_ctx [] empty_world demo_calls _ [ended 2 "text of plan"] demo_three demo_stream Hok) as (s' & evs & Hrun & Ht & _).
  - vm_compute. intros i Hi. exact Hi.
  - exists s', evs. split; [exact Hrun|]. split; [exact Ht|].
    assert (Hs : Some (s', evs) = demo_drain [ended 2 "text of plan"] demo_calls demo_three) by (symmetry; exact Hrun).
    vm_compute in Hs. injection Hs as -> _. vm_compute. done.
Defined.
