(* ===== verification/Turn.v ===== *)
(** * The tool phase of a turn

    src/kernel/src/plates/tian_heaven/loop.rs, from the parsed calls of an
    answer to the end of the turn: the slots of early dispatch are taken up, the
    calls are planned in batches, every batch passes the serial gate and the
    preparation, is executed, and its outcomes are entered in order. *)

From S2P Require Import Prelude RString Json GeJu Permission Tool Scheduler HumanPlate Principles Hooks Context Mind Completion Compaction Loop Dispatch Batch Early.

#[local] Arguments String.append !_ _ : simpl nomatch.

(** ** Serial gate and preparation of a batch *)

(** [PreparedExec] *)
Record Prepared := { px_index : nat; px_call : PreparedCall; px_meta : CallMeta }.

(** What the serial phases leave of a call. *)
Inductive Served := Ready (o : CallOutcome) | ToRun (p : Prepared) | ForceStop.

(** The loop's state the serial phases change. *)
Record Serial := {
  sr_slots : list EarlySlot;
  sr_guard : RepeatGuard;
  sr_reminder : option string;
  sr_touched : list string;
  sr_world : World
}.

Definition with_failures (counts : gmap string Z) (c : RunCtx) : RunCtx :=
  {| rc_hooks := rc_hooks c; rc_failures := counts; rc_max_failures := rc_max_failures c; rc_mode := rc_mode c;
     rc_user_hooks := rc_user_hooks c; rc_principles := rc_principles c; rc_atma := rc_atma c; rc_plate := rc_plate c;
     rc_session := rc_session c; rc_budget := rc_budget c; rc_root := rc_root c; rc_max_conc := rc_max_conc c |}.

(** [early_by_id]: the slots by the identifier of their call; for an identifier
    that occurs twice the map keeps the last slot. *)
Definition early_by_id (calls : list ToolCall) (n : nat) : list (string * nat) :=
  reverse (zip (map tc_id (take n calls)) (seq 0 n)).

(** The slot of a call, emptied when it holds a result or a decision. *)
Definition take_slot (k : nat) (sl : list EarlySlot) : option (CallOutcome + BaseTool * GeJuResult * CallMeta) * list EarlySlot :=
  match sl !! k with
  | Some (Done o) => (Some (inl o), <[k := Consumed]> sl)
  | Some (Gated tool geju m) => (Some (inr (tool, geju, m)), <[k := Consumed]> sl)
  | _ => (None, sl)
  end.

Definition set_slots (sl : list EarlySlot) (st : Serial) : Serial :=
  {| sr_slots := sl; sr_guard := sr_guard st; sr_reminder := sr_reminder st; sr_touched := sr_touched st; sr_world := sr_world st |}.

Definition set_guard (g : RepeatGuard) (r : option string) (st : Serial) : Serial :=
  {| sr_slots := sr_slots st; sr_guard := g; sr_reminder := r; sr_touched := sr_touched st; sr_world := sr_world st |}.

(** Everything the phases obtain from elsewhere: the durations measured, the
    results of a call executed alone, the joins of a batch and the order a
    [HashMap] is walked in, by batch; and what the clock and the random
    numbers add to a snapshot, by outcome. *)
Record Oracle := {
  or_elapsed : ToolCall -> Z;
  or_inline : nat -> Prepared -> TaskResult;
  or_joins : nat -> list Prepared -> list Joined;
  or_order : nat -> list Prepared -> list Prepared;
  or_info : nat -> TurnInfo
}.

Section ToolPhase.
Context (get_tool : string -> option BaseTool) (run_command : string -> string -> Value -> Status) (env : Env).
Context `{Tokenizer} (parse_json : string -> option Value) (persist : ToolCall -> string -> result string (string * Z)).
Context (c : RunCtx) (orc : Oracle).

(** [HumanPlate::prepare] of a cleared call; a refusal is a finished outcome. *)
Definition prepare_one (i : nat) (tc : ToolCall) (tool : BaseTool) (geju : GeJuResult) (m : CallMeta) (st : Serial) :
    Served * Serial * list GateEvent :=
  let '(prepared, w) := prepare_call env c geju tool (tc_parameters tc) (sr_world st) in
  match prepared with
  | Ok pc =>
      (ToRun {| px_index := i; px_call := pc; px_meta := m |},
       {| sr_slots := sr_slots st; sr_guard := sr_guard st; sr_reminder := sr_reminder st; sr_touched := sr_touched st; sr_world := w |}, [])
  | Err err =>
      let '(o, touched, evs) :=
        finalize env parse_json persist c tc "" (raw_outcome m (Some err) false) (or_elapsed orc tc) (sr_touched st) in
      (Ready o,
       {| sr_slots := sr_slots st; sr_guard := sr_guard st; sr_reminder := sr_reminder st; sr_touched := touched; sr_world := w |}, evs)
  end.

(** The gate of a call that was not gated while the answer streamed; [counts]
    are the failures so far. *)
Definition gate_late (counts : gmap string Z) (i : nat) (tc : ToolCall) (st : Serial) : Served * Serial * list GateEvent :=
  let g := track (HumanPlate.to_string env) (tc_name tc) (tc_parameters tc) (sr_guard st) in
  if (REPEAT_FORCE_STOP <=? streak g)%Z then (ForceStop, set_guard g (sr_reminder st) st, [])
  else
    let st := set_guard g (match reminder g with Some r => Some (reminder_text (tc_name tc) r) | None => sr_reminder st end) st in
    let '(gated, evs) := gate get_tool run_command env (with_failures counts c) tc in
    match gated with
    | Finished o => (Ready o, st, evs)
    | Cleared tool geju pattern mode heaven palace =>
        let '(x, st, evs') := prepare_one i tc tool geju
              {| m_geju_name := pattern; m_mode := mode; m_heaven := heaven; m_palace := palace |} st in
        (x, st, evs ++ evs')
    end.

Definition serve (counts : gmap string Z) (ids : list (string * nat)) (i : nat) (tc : ToolCall) (st : Serial) :
    Served * Serial * list GateEvent :=
  match Json.assoc (tc_id tc) ids with
  | Some k =>
      match take_slot k (sr_slots st) with
      | (Some (inl o), sl) => (Ready o, set_slots sl st, [])
      | (Some (inr (tool, geju, m)), sl) => prepare_one i tc tool geju m (set_slots sl st)
      | (None, _) => gate_late counts i tc st
      end
  | None => gate_late counts i tc st
  end.

(** Phases 1 and 2; a forced stop leaves the rest of the batch alone. *)
Fixpoint serve_batch (counts : gmap string Z) (ids : list (string * nat)) (i : nat) (batch : list ToolCall) (st : Serial) :
    list Served * Serial * list GateEvent :=
  match batch with
  | [] => ([], st, [])
  | tc :: rest =>
      let '(x, st, evs) := serve counts ids i tc st in
      match x with
      | ForceStop => ([ForceStop], st, evs)
      | _ =>
          let '(xs, st, evs') := serve_batch counts ids (S i) rest st in
          (x :: xs, st, evs ++ evs')
      end
  end.

Definition to_run (xs : list Served) : list Prepared := omap (fun x => match x with ToRun p => Some p | _ => None end) xs.
Definition stopped (xs : list Served) : bool := existsb (fun x => match x with ForceStop => true | _ => false end) xs.

(** ** Execution *)

(** The outcomes entered at their indices. *)
Fixpoint settle_run (batch : list ToolCall) (take : Prepared -> string * CallOutcome * Z) (ps : list Prepared) (touched : list string) :
    list (nat * CallOutcome) * list string * list GateEvent :=
  match ps with
  | [] => ([], touched, [])
  | p :: rest =>
      match batch !! px_index p with
      | Some tc =>
          let '(raw, o, duration) := take p in
          let '(o, touched, evs) := finalize env parse_json persist c tc raw o duration touched in
          let '(os, touched, evs') := settle_run batch take rest touched in
          ((px_index p, o) :: os, touched, evs ++ evs')
      | None => ([], touched, [])
      end
  end.

(** Phase 3: a single call inline, several through the window and the barrier. *)
Definition execute (b : nat) (batch : list ToolCall) (ps : list Prepared) (touched : list string) :
    list (nat * CallOutcome) * list string * list GateEvent :=
  match ps with
  | [] => ([], touched, [])
  | [p] =>
      let '(raw, error, duration) := or_inline orc b p in
      settle_run batch (fun p => (raw, raw_outcome (px_meta p) error false, duration)) [p] touched
  | _ =>
      let w := foldl (fun w j => join_step (rc_max_conc c) j w) (window_init (rc_max_conc c) (map px_index ps)) (or_joins orc b ps) in
      settle_run batch (fun p => barrier_outcome (px_meta p) (completed w !! px_index p)) (or_order orc b ps) touched
  end.

(** The outcome of a served call, once its batch has run. *)
Definition outcome_at (results : list (nat * CallOutcome)) (x : Served) : option CallOutcome :=
  match x with
  | Ready o => Some o
  | ToRun p => snd <$> List.find (fun r => (fst r =? px_index p)%nat) results
  | ForceStop => None
  end.

(** ** Bookkeeping *)

(** Phase 4: in order; a call without an outcome is passed over.  The counter
    is [tool_count]. *)
Fixpoint absorb_all (n : nat) (calls : list ToolCall) (os : list (option CallOutcome)) (a : Agent) : option (Agent * nat) :=
  match calls, os with
  | tc :: calls, Some o :: os =>
      '(a, _) ← absorb_outcome (or_info orc n) tc o a;
      absorb_all (S n) calls os a
  | _ :: calls, None :: os => absorb_all n calls os a
  | _, _ => Some (a, n)
  end.

(** The batches of a turn: the agent, the state, the number of outcomes entered,
    the events and whether the turn was stopped. *)
Fixpoint run_batches (ids : list (string * nat)) (b n : nat) (batches : list (list ToolCall)) (a : Agent) (st : Serial) :
    option (Agent * Serial * nat * list GateEvent * bool) :=
  match batches with
  | [] => Some (a, st, n, [], false)
  | batch :: rest =>
      let '(xs, st, evs) := serve_batch (tool_failure_count a) ids 0 batch st in
      if stopped xs then Some (a, st, n, evs, true)
      else
        let '(results, touched, evs') := execute b batch (to_run xs) (sr_touched st) in
        let st := {| sr_slots := sr_slots st; sr_guard := sr_guard st; sr_reminder := sr_reminder st;
                     sr_touched := touched; sr_world := sr_world st |} in
        '(a, n) ← absorb_all n batch (map (outcome_at results) xs) a;
        '(a, st, n, evs'', stop) ← run_batches ids (S b) n rest a st;
        Some (a, st, n, evs ++ evs' ++ evs'', stop)
  end.

(** After a forced stop during the stream only the results of early calls are
    entered. *)
Definition early_results (sl : list EarlySlot) : list (option CallOutcome) :=
  map (fun x => match x with Done o => Some o | _ => None end) sl.

(** The tool phase; [repeat_stop] tells that the stream was already stopped. *)
Definition tool_phase (repeat_stop : bool) (calls : list ToolCall) (a : Agent) (st : Serial) :
    option (Agent * Serial * nat * list GateEvent * bool) :=
  if repeat_stop then
    '(a, _) ← absorb_all 0 calls (early_results (sr_slots st)) a;
    Some (a, set_slots (map (fun _ => Consumed) (sr_slots st)) st, 0%nat, [], true)
  else run_batches (early_by_id calls (length (sr_slots st))) 0 0 (plan_batches get_tool (rc_root c) calls) a st.

(** * Proofs *)

(** The decision a call runs under: the one kept from the stream, or the one of
    the serial gate. *)
Definition decided (slot : option EarlySlot) (tc : ToolCall) (tool : BaseTool) (geju : GeJuResult) (m : CallMeta) : Prop :=
  match slot with
  | Some (Gated tool' geju' m') => tool' = tool /\ geju' = geju /\ m' = m
  | None => exists counts, cleared_by get_tool run_command env (with_failures counts c) tc tool geju m
  | _ => False
  end.

Definition prepares (tc : ToolCall) (tool : BaseTool) (geju : GeJuResult) (r : result string PreparedCall) : Prop :=
  exists w w', prepare_call env c geju tool (tc_parameters tc) w = (r, w').

(** [final tc raw o x]: [x] is the finalized form of [o]. *)
Definition final (tc : ToolCall) (raw : string) (o x : CallOutcome) : Prop :=
  exists d t, x = fst (fst (finalize env parse_json persist c tc raw o d t)).

(** How a call of the turn can end. *)
Inductive outcome_of (slot : option EarlySlot) (tc : ToolCall) : CallOutcome -> Prop :=
| of_early o : slot = Some (Done o) -> outcome_of slot tc o
| of_gate counts o :
    slot = None -> fst (gate get_tool run_command env (with_failures counts c) tc) = Finished o -> outcome_of slot tc o
| of_prepare tool geju m err o :
    decided slot tc tool geju m -> prepares tc tool geju (Err err) ->
    final tc "" (raw_outcome m (Some err) false) o -> outcome_of slot tc o
| of_run tool geju m pc raw error o :
    decided slot tc tool geju m -> prepares tc tool geju (Ok pc) ->
    final tc raw (raw_outcome m error false) o -> outcome_of slot tc o
| of_cancel tool geju m pc o :
    decided slot tc tool geju m -> prepares tc tool geju (Ok pc) ->
    final tc "" (raw_outcome m (Some "cancelled: a sibling tool call in this batch failed"%string) true) o ->
    outcome_of slot tc o.

Definition served_ok (slot : option EarlySlot) (tc : ToolCall) (i : nat) (x : Served) : Prop :=
  match x with
  | Ready o => outcome_of slot tc o
  | ToRun p => px_index p = i /\ exists tool geju, decided slot tc tool geju (px_meta p) /\ prepares tc tool geju (Ok (px_call p))
  | ForceStop => True
  end.

Lemma prepare_one_ok i tc tool geju m st slot : decided slot tc tool geju m ->
  let '(x, st', _) := prepare_one i tc tool geju m st in served_ok slot tc i x /\ sr_slots st' = sr_slots st.
Proof.
  intros Hd. unfold prepare_one. destruct (prepare_call _ _ _ _ _ _) as [[pc|err] w] eqn:Hp.
  - split; [|done]. split; [done|]. exists tool, geju. split; [done|]. by exists (sr_world st), w.
  - destruct (finalize _ _ _ _ _ _ _ _ _) as [[o t] evs] eqn:Hf. split; [|done].
    eapply of_prepare; [done|by exists (sr_world st), w|]. do 2 eexists. by rewrite Hf.
Qed.

Lemma gate_late_ok counts i tc st :
  let '(x, st', _) := gate_late counts i tc st in served_ok None tc i x /\ sr_slots st' = sr_slots st.
Proof.
  unfold gate_late. destruct (_ <=? _)%Z; [done|].
  destruct (gate _ _ _ _ _) as [[tool geju pattern mode heaven palace|o] evs] eqn:Hg; [|split; [|done]; eapply of_gate; [done|by rewrite Hg]].
  set (m := {| m_geju_name := pattern |}). set (st1 := set_guard _ _ st).
  pose proof (prepare_one_ok i tc tool geju m st1 None) as Hp. destruct (prepare_one i tc tool geju m st1) as [[x st2] evs'].
  destruct Hp as [Hx Hs]; [|by rewrite Hs]. exists counts. unfold cleared_by. by rewrite Hg.
Qed.

Definition settled_slot (x : EarlySlot) : Prop := match x with Done _ | Gated _ _ _ => True | _ => False end.

(** The slots of a turn and where its calls find them. *)
Definition finds_slots (ids : list (string * nat)) (sl : list EarlySlot) (off : nat) (calls : list ToolCall) : Prop :=
  forall j tc, calls !! j = Some tc ->
    Json.assoc (tc_id tc) ids = match sl !! (off + j) with Some _ => Some (off + j) | None => None end.

Lemma finds_slots_app ids sl off a b : finds_slots ids sl off (a ++ b) -> finds_slots ids sl off a /\ finds_slots ids sl (off + length a) b.
Proof.
  intros Hf. split; intros j tc Hj.
  - apply Hf. by apply lookup_app_l_Some.
  - rewrite <- Nat.add_assoc. apply Hf. rewrite lookup_app_r by lia. by replace (length a + j - length a) with j by lia.
Qed.

Lemma finds_slots_cons ids sl off tc calls : finds_slots ids sl off (tc :: calls) ->
  Json.assoc (tc_id tc) ids = (match sl !! off with Some _ => Some off | None => None end) /\ finds_slots ids sl (S off) calls.
Proof.
  intros Hf. split; [pose proof (Hf 0 tc eq_refl) as Hf0; by rewrite Nat.add_0_r in Hf0|].
  intros j tc' Hj. replace (S off + j) with (off + S j) by lia. by apply Hf.
Qed.

Section Slots.
Context (ids : list (string * nat)) (sl : list EarlySlot) (Hsl : Forall settled_slot sl).

(** From [off] on the slots are as the stream left them. *)
Definition intact (off : nat) (st : Serial) : Prop := forall k, off <= k -> sr_slots st !! k = sl !! k.

Lemma serve_ok counts i tc st off calls : finds_slots ids sl off (tc :: calls) -> intact off st ->
  let '(x, st', _) := serve counts ids i tc st in served_ok (sl !! off) tc i x /\ intact (S off) st'.
Proof.
  intros [Hid _]%finds_slots_cons Hin. unfold serve. rewrite Hid. clear Hid.
  assert (Hlate : forall s, intact off s -> sl !! off = None ->
    let '(x, st', _) := gate_late counts i tc s in served_ok None tc i x /\ intact (S off) st').
  { intros s Hs Hn. pose proof (gate_late_ok counts i tc s) as Hg. destruct (gate_late counts i tc s) as [[x st'] evs].
    destruct Hg as [Hx Heq]. split; [done|]. intros k Hk. rewrite Heq. apply Hs. lia. }
  destruct (sl !! off) as [y|] eqn:Hy; [|by apply Hlate].
  unfold take_slot. rewrite (Hin off), Hy by lia. assert (Hset : settled_slot y) by (by eapply Forall_lookup_1).
  assert (Hins : forall k, S off <= k -> <[off := Consumed]> (sr_slots st) !! k = sl !! k).
  { intros k Hk. rewrite list_lookup_insert_ne by lia. apply Hin. lia. }
  destruct y as [o|m|tool geju m|]; try done.
  - split; [by apply of_early|done].
  - pose proof (prepare_one_ok i tc tool geju m (set_slots (<[off := Consumed]> (sr_slots st)) st) (Some (Gated tool geju m))) as Hp.
    destruct (prepare_one _ _ _ _ _ _) as [[x st'] evs]. destruct Hp as [Hx Heq]; [done|]. split; [done|].
    intros k Hk. rewrite Heq. by apply Hins.
Qed.

(** Relating the calls of a batch, their slots, and what they were served with. *)
Fixpoint all_served (off i : nat) (batch : list ToolCall) (xs : list Served) : Prop :=
  match batch, xs with
  | tc :: batch, x :: xs => served_ok (sl !! off) tc i x /\ all_served (S off) (S i) batch xs
  | [], [] => True
  | _, _ => False
  end.

Lemma serve_batch_ok counts i batch st off : finds_slots ids sl off batch -> intact off st ->
  let '(xs, st', _) := serve_batch counts ids i batch st in
  stopped xs = false -> all_served off i batch xs /\ intact (off + length batch) st'.
Proof.
  revert i st off. induction batch as [|tc batch IH]; intros i st off Hf Hin; cbn [serve_batch].
  - intros _. split; [done|]. by rewrite Nat.add_0_r.
  - pose proof (serve_ok counts i tc st off batch Hf Hin) as Hs. destruct (serve counts ids i tc st) as [[x st1] evs1].
    destruct Hs as [Hx Hin1]. apply finds_slots_cons in Hf as [_ Hf].
    specialize (IH (S i) st1 (S off) Hf Hin1). destruct (serve_batch counts ids (S i) batch st1) as [[xs st2] evs2].
    replace (off + length (tc :: batch)) with (S off + length batch) by (cbn; lia).
    destruct x as [o|p|]; intros Hstop; [|..|done]; destruct (IH Hstop) as [Ha Hi]; done.
Qed.

(** ** Execution *)

Lemma to_run_spec off i batch xs : all_served off i batch xs ->
  (forall p, p ∈ to_run xs -> i <= px_index p < i + length batch /\ xs !! (px_index p - i) = Some (ToRun p)) /\
  NoDup (map px_index (to_run xs)).
Proof.
  revert off i xs. induction batch as [|tc batch IH]; intros off i [|x xs] Hall; try done.
  - split; [intros p Hp; by apply elem_of_nil in Hp|constructor].
  - destruct Hall as [Hx Hall]. destruct (IH _ _ _ Hall) as [Hin Hnd]. cbn [length].
    assert (Hstep : forall p, p ∈ to_run xs -> i <= px_index p < i + S (length batch) /\ (x :: xs) !! (px_index p - i) = Some (ToRun p)).
    { intros p Hp. destruct (Hin p Hp) as [Hb Hl]. split; [lia|].
      by replace (px_index p - i) with (S (px_index p - S i)) by lia. }
    destruct x as [o|q|]; try done. destruct Hx as [Hq _]. change (to_run (ToRun q :: xs)) with (q :: to_run xs). split.
    + intros p [->|Hp]%elem_of_cons; [|by apply Hstep]. rewrite Hq, Nat.sub_diag. split; [lia|done].
    + cbn. constructor; [|done]. intros (p & Hp & Hpin)%list_elem_of_In%in_map_iff. apply list_elem_of_In in Hpin.
      destruct (Hin p Hpin) as [Hb _]. lia.
Qed.

Lemma settle_run_ok batch take ps t : (forall p, p ∈ ps -> px_index p < length batch) ->
  let results := fst (fst (settle_run batch take ps t)) in
  map fst results = map px_index ps /\
  forall i o, (i, o) ∈ results -> exists p tc, p ∈ ps /\ px_index p = i /\ batch !! i = Some tc /\
    final tc (fst (fst (take p))) (snd (fst (take p))) o.
Proof.
  revert t. induction ps as [|p ps IH]; intros t Hb; cbn [settle_run].
  - split; [done|]. intros i o Hi. by apply elem_of_nil in Hi.
  - destruct (lookup_lt_is_Some_2 batch (px_index p)) as [tc Htc]; [apply Hb; by constructor|]. rewrite Htc.
    destruct (take p) as [[raw o0] d] eqn:Ht. destruct (finalize _ _ _ _ _ _ _ _ _) as [[o t1] evs] eqn:Hf.
    assert (Hb' : forall q, q ∈ ps -> px_index q < length batch) by (intros q Hq; apply Hb; by constructor).
    specialize (IH t1 Hb'). destruct (settle_run batch take ps t1) as [[os t2] evs']. cbn in IH |- *. destruct IH as [Hm Hall].
    split; [by rewrite Hm|]. intros i o' [[= -> ->]|Hin]%elem_of_cons.
    + exists p, tc. split; [by constructor|]. do 2 (split; [done|]). rewrite Ht. exists d, t. cbn [fst snd]. by rewrite Hf.
    + destruct (Hall i o' Hin) as (q & tc' & Hq & ?). exists q, tc'. split; [by constructor|done].
Qed.

(** What a prepared call is entered with: its result, or a cancellation. *)
Definition runs_as (p : Prepared) (x : string * CallOutcome) : Prop :=
  (exists error, snd x = raw_outcome (px_meta p) error false) \/
  x = (""%string, raw_outcome (px_meta p) (Some "cancelled: a sibling tool call in this batch failed"%string) true).

Lemma barrier_runs_as p r : runs_as p (fst (barrier_outcome (px_meta p) r)).
Proof. destruct r as [[[raw error] d]|]; [left; by exists error|by right]. Qed.

Lemma execute_ok (Horder : forall b ps, or_order orc b ps ≡ₚ ps) b off batch xs t : all_served off 0 batch xs ->
  forall p, p ∈ to_run xs -> exists tc o raw o0, batch !! px_index p = Some tc /\
    snd <$> List.find (fun r => (fst r =? px_index p)%nat) (fst (fst (execute b batch (to_run xs) t))) = Some o /\
    runs_as p (raw, o0) /\ final tc raw o0 o.
Proof.
  intros Hall p Hp. destruct (to_run_spec _ _ _ _ Hall) as [Hin Hnd].
  assert (Hrun : exists take ps, ps ≡ₚ to_run xs /\ execute b batch (to_run xs) t = settle_run batch take ps t /\
    forall q, runs_as q (fst (take q))).
  { unfold execute. destruct (to_run xs) as [|q [|q' qs]] eqn:Hr; [by apply elem_of_nil in Hp|..].
    - destruct (or_inline orc b q) as [[raw error] d]. do 2 eexists. split; [reflexivity|]. split; [done|].
      intros q0. left. by exists error.
    - do 2 eexists. split; [apply Horder|]. split; [done|]. intros q0. cbv beta. apply barrier_runs_as. }
  destruct Hrun as (take & ps & Hps & -> & Htake).
  assert (Hbound : forall q, q ∈ ps -> px_index q < length batch) by (intros q Hq; rewrite Hps in Hq; destruct (Hin q Hq); lia).
  destruct (settle_run_ok batch take ps t Hbound) as [Hfst Hres]. set (results := fst (fst (settle_run batch take ps t))) in *.
  destruct (List.find _ results) as [[i o]|] eqn:Hfind.
  - apply List.find_some in Hfind as [Hmem Hi%Nat.eqb_eq]. cbn in Hi. subst i. apply list_elem_of_In in Hmem.
    destruct (Hres _ _ Hmem) as (q & tc & Hq & Hqi & Htc & Hfin).
    assert (q = p) as ->.
    { rewrite Hps in Hq. destruct (Hin q Hq) as [_ H1]. destruct (Hin p Hp) as [_ H2]. rewrite Hqi in H1. congruence. }
    exists tc, o, (fst (fst (take p))), (snd (fst (take p))). split; [done|]. split; [done|]. split; [|done].
    rewrite <- surjective_pairing. apply Htake.
  - exfalso. assert (Hpi : px_index p ∈ map fst results).
    { rewrite Hfst. rewrite <- Hps in Hp. apply list_elem_of_In, in_map, list_elem_of_In, Hp. }
    apply list_elem_of_In, in_map_iff in Hpi as ([i o] & Hi & Hm). cbn in Hi. subst i. apply list_elem_of_In in Hm.
    pose proof (proj1 (find_None_forall _ _) Hfind _ Hm) as Hno. cbn in Hno. by rewrite Nat.eqb_refl in Hno.
Qed.

(** The outcomes of a list of calls, slot by slot. *)
Fixpoint outcomes_ok (off : nat) (calls : list ToolCall) (os : list CallOutcome) : Prop :=
  match calls, os with
  | tc :: calls, o :: os => outcome_of (sl !! off) tc o /\ outcomes_ok (S off) calls os
  | [], [] => True
  | _, _ => False
  end.

Lemma outcomes_app off a b os1 os2 : outcomes_ok off a os1 -> outcomes_ok (off + length a) b os2 ->
  outcomes_ok off (a ++ b) (os1 ++ os2).
Proof.
  revert off os1. induction a as [|tc a IH]; intros off [|o os1] H1 H2; try done; [by rewrite Nat.add_0_r in H2|].
  destruct H1 as [Ho H1]. cbn. split; [done|]. apply IH; [done|]. by replace (S off + length a) with (off + length (tc :: a)) by (cbn; lia).
Qed.

Lemma outcomes_length off calls os : outcomes_ok off calls os -> length os = length calls.
Proof. revert off os. induction calls as [|tc calls IH]; intros off [|o os] Hall; try done. destruct Hall as [_ Hall]. cbn. f_equal. by eapply IH. Qed.

Lemma batch_outcomes results off i batch xs pre : all_served off i batch xs -> length pre = i ->
  (forall p, p ∈ to_run xs -> exists tc o raw o0, (pre ++ batch) !! px_index p = Some tc /\
    snd <$> List.find (fun r => (fst r =? px_index p)%nat) results = Some o /\ runs_as p (raw, o0) /\ final tc raw o0 o) ->
  stopped xs = false -> exists os, map (outcome_at results) xs = map Some os /\ outcomes_ok off batch os.
Proof.
  revert off i pre xs. induction batch as [|tc batch IH]; intros off i pre [|x xs] Hall Hpre Hres Hstop; try done; [by exists []|].
  destruct Hall as [Hx Hall]. cbn in Hstop. apply orb_false_iff in Hstop as [Hxs Hstop].
  destruct (IH (S off) (S i) (pre ++ [tc]) xs Hall) as (os & Hos & Hok); [rewrite length_app; cbn; lia| |done|].
  { intros p Hp. rewrite <- app_assoc. apply Hres. unfold to_run in *. cbn. destruct x; [done|by constructor|done]. }
  assert (Hone : exists o, outcome_at results x = Some o /\ outcome_of (sl !! off) tc o).
  { destruct x as [o|p|]; [by exists o| |done]. destruct Hx as (Hi & tool & geju & Hd & Hp).
    destruct (Hres p) as (tc' & o & raw & o0 & Htc & Hf & Hr & Hfin); [by constructor|].
    rewrite Hi, lookup_app_r, Hpre, Nat.sub_diag in Htc by lia. cbn in Htc. injection Htc as <-.
    exists o. split; [done|]. destruct Hr as [[error Hr]|[= -> ->]]; [cbn in Hr; subst o0; by eapply of_run|by eapply of_cancel]. }
  destruct Hone as (o & Ho & Hoo). exists (o :: os). cbn. rewrite Ho, Hos. done.
Qed.

(** ** Bookkeeping *)

Lemma absorb_all_app n a b os1 os2 ag : length os1 = length a ->
  absorb_all n (a ++ b) (map Some (os1 ++ os2)) ag =
  '(ag', n') ← absorb_all n a (map Some os1) ag; absorb_all n' b (map Some os2) ag'.
Proof.
  revert n os1 ag. induction a as [|tc a IH]; intros n [|o os1] ag Hlen; try done. cbn.
  destruct (absorb_outcome _ tc o ag) as [[ag1 r]|]; [|done]. cbn. apply IH. by injection Hlen.
Qed.

Lemma absorb_all_count n calls os ag ag' n' : length os = length calls ->
  absorb_all n calls (map Some os) ag = Some (ag', n') -> n' = n + length calls.
Proof.
  revert n os ag. induction calls as [|tc calls IH]; intros n [|o os] ag Hlen Hrun; try done; cbn in Hrun |- *.
  - injection Hrun as <- <-. lia.
  - destruct (absorb_outcome _ tc o ag) as [[ag1 r]|]; [|done]. cbn in Hrun. apply IH in Hrun; [lia|by injection Hlen].
Qed.

(** The cards the outcomes leave in the history. *)
Fixpoint cards (n : nat) (calls : list ToolCall) (os : list CallOutcome) : list HistoryEntry :=
  match calls, os with
  | tc :: calls, o :: os => (if synthetic_cancel o then [] else [card_of (or_info orc n) tc o]) ++ cards (S n) calls os
  | _, _ => []
  end.

Lemma absorb_history ti tc o ag ag' r : absorb_outcome ti tc o ag = Some (ag', r) ->
  history ag' = history ag ++ if synthetic_cancel o then [] else [card_of ti tc o].
Proof.
  unfold absorb_outcome. destruct (if synthetic_cancel o then Some (verify ag, checklist ag) else _) as [sig|]; cbn; [|done].
  destruct (worktree_transition tc o ag) as [[wt root] rm]. destruct (record _ _) as [wm|]; cbn; [|done].
  intros [= <- _]. cbn. destruct (synthetic_cancel o); [by rewrite app_nil_r|done].
Qed.

Lemma absorb_all_history n calls os ag ag' n' : length os = length calls ->
  absorb_all n calls (map Some os) ag = Some (ag', n') -> history ag' = history ag ++ cards n calls os.
Proof.
  revert n os ag. induction calls as [|tc calls IH]; intros n [|o os] ag Hlen Hrun; try done; cbn in Hrun |- *.
  - injection Hrun as <- <-. by rewrite app_nil_r.
  - destruct (absorb_outcome _ tc o ag) as [[ag1 r]|] eqn:Ha; [|done]. cbn in Hrun.
    apply IH in Hrun; [|by injection Hlen]. rewrite Hrun, app_assoc. f_equal. clear Hrun IH.
    rewrite (absorb_history _ _ _ _ _ _ Ha). by destruct (synthetic_cancel o).
Qed.

Lemma run_batches_ok (Horder : forall b ps, or_order orc b ps ≡ₚ ps) off b n batches ag st ag' st' n' evs :
  finds_slots ids sl off (concat batches) -> intact off st ->
  run_batches ids b n batches ag st = Some (ag', st', n', evs, false) ->
  exists os, outcomes_ok off (concat batches) os /\ absorb_all n (concat batches) (map Some os) ag = Some (ag', n').
Proof.
  revert off b n ag st evs. induction batches as [|batch batches IH]; intros off b n ag st evs Hf Hin Hrun.
  - exists []. split; [done|]. cbn in Hrun |- *. by simplify_eq.
  - cbn [concat] in Hf. apply finds_slots_app in Hf as [Hf1 Hf2]. cbn [run_batches] in Hrun.
    pose proof (serve_batch_ok (tool_failure_count ag) 0 batch st off Hf1 Hin) as Hs.
    destruct (serve_batch _ ids 0 batch st) as [[xs st1] evs1]. destruct (stopped xs) eqn:Hstop; [done|].
    destruct (Hs eq_refl) as [Hall Hin1]. clear Hs.
    pose proof (execute_ok Horder b off batch xs (sr_touched st1) Hall) as Hx.
    destruct (execute b batch (to_run xs) (sr_touched st1)) as [[results t1] evs2]. cbn [fst] in Hx.
    destruct (batch_outcomes results off 0 batch xs [] Hall eq_refl Hx Hstop) as (os1 & Hos1 & Hok1). rewrite Hos1 in Hrun.
    destruct (absorb_all n batch (map Some os1) ag) as [[ag1 n1]|] eqn:Habs; [|done]. cbn [mbind option_bind] in Hrun.
    destruct (run_batches ids (S b) n1 batches ag1 _) as [[[[[ag2 st2] n2] evs3] stop2]|] eqn:Hrest; [|done]. cbn in Hrun.
    injection Hrun as -> -> -> _ ->.
    pose proof (fun Hi => IH (off + length batch) (S b) n1 ag1 _ evs3 Hf2 Hi Hrest) as IH'.
    destruct (IH' Hin1) as (os2 & Hok2 & Habs2).
    exists (os1 ++ os2). cbn [concat]. split; [by apply outcomes_app|].
    rewrite (absorb_all_app n batch (concat batches) os1 os2 ag) by (by eapply outcomes_length). by rewrite Habs.
Qed.
End Slots.

(** ** The slots of distinct calls *)

Lemma assoc_unique {A} (l : list (string * A)) k v : NoDup (map fst l) -> (k, v) ∈ l -> Json.assoc k l = Some v.
Proof.
  induction l as [|[k' v'] l IH]; intros Hnd Hin; [by apply elem_of_nil in Hin|]. cbn in *. apply NoDup_cons in Hnd as [Hk Hnd].
  apply elem_of_cons in Hin as [[= -> ->]|Hin]; [by rewrite String.eqb_refl|].
  destruct (String.eqb_spec k k') as [->|]; [|by apply IH]. destruct Hk. apply list_elem_of_In, in_map_iff. exists (k', v).
  split; [done|]. by apply list_elem_of_In.
Qed.

Lemma assoc_absent {A} (l : list (string * A)) k : k ∉ map fst l -> Json.assoc k l = None.
Proof.
  induction l as [|[k' v'] l IH]; intros Hk; [done|]. cbn in *. apply not_elem_of_cons in Hk as [Hne Hk].
  rewrite (proj2 (String.eqb_neq _ _) Hne). by apply IH.
Qed.

Lemma early_index calls sl : NoDup (map tc_id calls) -> length sl <= length calls ->
  finds_slots (early_by_id calls (length sl)) sl 0 calls.
Proof.
  intros Hnd Hlen j tc Hj. unfold early_by_id. cbn [Nat.add].
  assert (Hz : map fst (zip (map tc_id (take (length sl) calls)) (seq 0 (length sl))) = map tc_id (take (length sl) calls)).
  { apply fst_zip. rewrite length_map, length_take, length_seq. lia. }
  assert (Hr : map fst (reverse (zip (map tc_id (take (length sl) calls)) (seq 0 (length sl)))) ≡ₚ map tc_id (take (length sl) calls)).
  { transitivity (map fst (zip (map tc_id (take (length sl) calls)) (seq 0 (length sl)))); [apply Permutation_map, reverse_Permutation|by rewrite Hz]. }
  assert (Hndt : NoDup (map tc_id (take (length sl) calls))).
  { rewrite <- (take_drop (length sl) calls), map_app in Hnd. by apply NoDup_app in Hnd as [? _]. }
  destruct (sl !! j) as [y|] eqn:Hy.
  - apply assoc_unique; [by rewrite Hr|]. rewrite elem_of_reverse. apply list_elem_of_lookup. exists j.
    apply lookup_zip_with_Some. exists (tc_id tc), j. apply lookup_lt_Some in Hy. split; [done|]. split.
    + rewrite list_lookup_fmap, lookup_take_lt by done. by rewrite Hj.
    + rewrite lookup_seq. split; [lia|done].
  - apply assoc_absent. rewrite Hr. intros Hin. apply lookup_ge_None in Hy.
    rewrite <- (take_drop (length sl) calls), map_app in Hnd. apply NoDup_app in Hnd as (_ & Hdis & _).
    apply (Hdis _ Hin). apply list_elem_of_In, in_map, list_elem_of_In. apply list_elem_of_lookup. exists (j - length sl).
    rewrite lookup_drop. by replace (length sl + (j - length sl)) with j by lia.
Qed.

(** [C3] The tool phase of a turn, for calls with identifiers of their own.  If
    the turn is neither stopped by the repeat guard nor ended by a panic, every
    call has exactly one outcome, and the outcomes are entered in the order of
    the calls, whatever the batches, the windows and the order the tasks end
    in: a call dispatched while the answer streamed has the outcome it had
    then; any other call was refused by the gate, refused by the preparation,
    or was cleared by both and has its result or a cancellation.  The history
    grows by one card per outcome that is no cancellation, in that order. *)
Theorem tool_phase_spec calls ag st ag' st' n evs (Hids : NoDup (map tc_id calls)) (Hlen : length (sr_slots st) <= length calls)
    (Hslots : Forall settled_slot (sr_slots st)) (Horder : forall b ps, or_order orc b ps ≡ₚ ps)
    (Hrun : tool_phase false calls ag st = Some (ag', st', n, evs, false)) :
  n = length calls /\
  exists os, length os = length calls /\
    (forall k tc o, calls !! k = Some tc -> os !! k = Some o -> outcome_of (sr_slots st !! k) tc o) /\
    absorb_all 0 calls (map Some os) ag = Some (ag', n) /\
    history ag' = history ag ++ cards 0 calls os.
Proof.
  cbn [tool_phase] in Hrun. pose proof (plan_from_concat get_tool (rc_root c) calls [] []) as Hcat. cbn [app] in Hcat.
  fold (plan_batches get_tool (rc_root c) calls) in Hcat.
  pose proof (early_index calls (sr_slots st) Hids Hlen) as Hf. rewrite <- Hcat in Hf at 2.
  destruct (run_batches_ok _ (sr_slots st) Hslots Horder 0 _ _ _ _ _ _ _ _ _ Hf (fun _ _ => eq_refl) Hrun) as (os & Hok & Habs).
  rewrite Hcat in Hok, Habs. pose proof (outcomes_length _ _ _ _ Hok) as Hol.
  split; [by rewrite (absorb_all_count _ _ _ _ _ _ Hol Habs)|]. exists os. split; [done|]. split; [|split; [done|by eapply absorb_all_history]].
  clear -Hok. intros k tc o Hk Ho. change k with (0 + k). revert k calls os Hok Hk Ho. generalize 0 as off.
  intros off k calls. revert off k. induction calls as [|tc' calls IH]; intros off [|k] [|o' os] Hok Hk Ho; try done; destruct Hok as [H1 H2].
  - cbn in Hk, Ho. simplify_eq. by rewrite Nat.add_0_r.
  - replace (off + S k) with (S off + k) by lia. by eapply IH.
Qed.
End ToolPhase.

(** ** After the batches *)

(** The skills named in the calls of the turn, each noted once. *)
Definition note_skills (calls : list ToolCall) (noted : list string) : list string :=
  foldl (fun noted tc =>
    if String.eqb (tc_name tc) "skill" then
      match get (tc_parameters tc) "skill" ≫= as_str with
      | Some name => if existsb (fun s => String.eqb s name) noted then noted else noted ++ [name]
      | None => noted
      end
    else noted) noted calls.

(** Mode transitions by name; every one is announced. *)
Definition mode_transition (tc : ToolCall) (st : InteractionMode * HumanPlate * list InteractionMode) :
    InteractionMode * HumanPlate * list InteractionMode :=
  let '(mode, plate, sent) := st in
  if String.eqb (tc_name tc) "enter_plan_mode" then (Plan, sync_jingjue_with_mode true plate, sent ++ [Plan])
  else if String.eqb (tc_name tc) "exit_plan_mode" then (Auto, sync_jingjue_with_mode false plate, sent ++ [Auto])
  else (mode, plate, sent).

Definition mode_transitions (calls : list ToolCall) (mode : InteractionMode) (plate : HumanPlate) :
    InteractionMode * HumanPlate * list InteractionMode :=
  foldl (fun st tc => mode_transition tc st) (mode, plate, []) calls.

Definition HISTORY_CAP : nat := 1000.

(** The absolute cap: the oldest entries are dropped. *)
Definition cap_history (h : list HistoryEntry) : list HistoryEntry :=
  if (HISTORY_CAP <? length h)%nat then drop (length h - HISTORY_CAP) h else h.

Lemma note_skills_nodup calls noted : NoDup noted -> NoDup (note_skills calls noted).
Proof.
  revert noted. induction calls as [|tc calls IH]; intros noted Hnd; [done|]. cbn. apply IH.
  destruct (_ =? _)%string; [|done]. destruct (_ ≫= as_str) as [name|]; [|done].
  destruct (existsb _ noted) eqn:Hex; [done|]. apply NoDup_app. split; [done|]. split; [|apply NoDup_singleton].
  intros s Hs ->%list_elem_of_singleton. pose proof (proj1 (not_existsb _ _) Hex _ Hs) as Hne. cbn in Hne. by rewrite String.eqb_refl in Hne.
Qed.

Lemma cap_history_suffix h : length (cap_history h) <= HISTORY_CAP /\ exists dropped, h = dropped ++ cap_history h.
Proof.
  unfold cap_history. destruct (Nat.ltb_spec HISTORY_CAP (length h)) as [Hlt|Hle].
  - rewrite length_drop. split; [lia|]. exists (take (length h - HISTORY_CAP) h). by rewrite take_drop.
  - split; [done|]. by exists [].
Qed.

(** The mode after a turn is the one of the last transition, and the alerts of
    the plate follow it. *)
Lemma mode_transitions_last calls mode plate :
  let '(mode', plate', sent) := mode_transitions calls mode plate in
  mode' = default mode (last sent) /\ gates plate' = gates plate /\
  (sent = [] -> plate' = plate) /\
  (sent <> [] -> gate_is_open plate' JingJueMen = bool_decide (mode' = Auto) && bool_decide (gates plate !! 6%nat = Some Open)).
Proof.
  unfold mode_transitions. induction calls as [|tc calls IH] using rev_ind; [done|]. rewrite foldl_snoc.
  destruct (foldl _ _ calls) as [[mode' plate'] sent]. destruct IH as (Hm & Hg & Hp & Ho). unfold mode_transition.
  destruct (tc_name tc =? "enter_plan_mode")%string; [|destruct (tc_name tc =? "exit_plan_mode")%string; [|done]];
    rewrite last_snoc; (split; [done|]); (split; [done|]); (split; [by destruct sent|]); intros _;
    rewrite sync_jingjue_open, decide_True by done; cbn; by rewrite ?Hg.
Qed.

(** ** Concrete runs *)

Definition demo_oracle : Oracle :=
  {| or_elapsed := fun _ => 1%Z; or_inline := fun _ _ => ("ran inline"%string, None, 3%Z); or_joins := fun _ _ => [];
     or_order := fun _ ps => ps; or_info := fun _ => sample_turn |}.

Definition demo_state (sl : list EarlySlot) : Serial :=
  {| sr_slots := sl; sr_guard := RepeatGuard_default; sr_reminder := None; sr_touched := []; sr_world := empty_world |}.

Definition demo_phase (calls : list ToolCall) (sl : list EarlySlot) : option (Agent * Serial * nat * list GateEvent * bool) :=
  tool_phase demo_tools (fun _ _ _ => SpawnError) sample_env (H := byte_tokenizer) (fun _ => None) (fun _ _ => Err "full")
    demo_ctx demo_oracle false calls sample_agent (demo_state sl).

(** The slots the stream of [demo_calls] leaves. *)
Definition demo_slots : list EarlySlot :=
  match demo_drain [ended 2 "text of plan"] demo_calls demo_three with Some (s, _) => slots s | None => [] end.

Definition card_text (h : HistoryEntry) : string :=
  match h with HToolCall _ tool _ _ output _ _ _ => tool +:+ ": " +:+ output | _ => "" end.

Definition demo_end : Agent * Serial * nat * list GateEvent * bool :=
  default (sample_agent, demo_state [], 0%nat, [], true) (demo_phase demo_calls demo_slots).

Lemma tool_phase_spec_witness :
  let '(ag', st', n, evs, stop) := demo_end in
  demo_phase demo_calls demo_slots = Some (ag', st', n, evs, stop) /\ n = length demo_calls /\
  map card_text (history ag') = ["read_file: text of notes"; "shell: ran inline"; "read_file: text of plan"]%string.
Proof.
  destruct demo_end as [[[[ag' st'] n] evs] stop] eqn:He.
  assert (Hrun : demo_phase demo_calls demo_slots = Some (ag', st', n, evs, stop)).
  { rewrite <- He. unfold demo_end. destruct (demo_phase demo_calls demo_slots) eqn:Hd; [reflexivity|]. vm_compute in Hd. discriminate. }
  assert (Hstop : stop = false) by (transitivity (snd demo_end); [by rewrite He|vm_compute; reflexivity]). subst stop.
  split; [exact Hrun|].
  assert (Hids : NoDup (map tc_id demo_calls)) by (apply (bool_decide_eq_true_1 (NoDup (map tc_id demo_calls))); vm_compute; reflexivity).
  assert (Hlen : length (sr_slots (demo_state demo_slots)) <= length demo_calls) by (vm_compute; reflexivity).
  assert (Hset : Forall settled_slot (sr_slots (demo_state demo_slots))) by (vm_compute; repeat constructor).
  assert (Hord : forall b ps, or_order demo_oracle b ps ≡ₚ ps) by reflexivity.
  destruct (tool_phase_spec demo_tools (fun _ _ _ => SpawnError) sample_env (H := byte_tokenizer) (fun _ => None) (fun _ _ => Err "full"%string)
              demo_ctx demo_oracle demo_calls sample_agent (demo_state demo_slots) ag' st' n evs Hids Hlen Hset Hord Hrun) as [Hn _].
  split; [exact Hn|]. transitivity (map card_text (history (fst (fst (fst (fst demo_end)))))); [by rewrite He|vm_compute; reflexivity].
Defined.

(** Two early calls under one identifier: the first call is entered with the
    result of the second, whose own turn finds an emptied slot, so that it is
    gated and executed once more; the result of the first call is lost. *)
Definition same_id_slots : list EarlySlot :=
  let m := {| m_geju_name := "g"; m_mode := "direct"; m_heaven := Wu; m_palace := Zhen |} in
  [Done {| co_output := "text of notes"; co_error := None; co_geju_name := "g"; co_execution_mode := "direct";
           co_heaven_stem := Wu; co_target_palace := Zhen; synthetic_cancel := false |};
   Done {| co_output := "text of plan"; co_error := None; co_geju_name := "g"; co_execution_mode := "direct";
           co_heaven_stem := Wu; co_target_palace := Zhen; synthetic_cancel := false |}].

Example duplicate_ids_misattribute :
  let joins_none := demo_phase [demo_call "" "notes"; demo_call "" "plan"] same_id_slots in
  (fun r => let '(ag, _, _, evs, _) := r in
     (map card_text (history ag), count_ev is_tx_call evs)) <$> joins_none =
  Some (["read_file: text of plan"; "read_file: ran inline"]%string, 1%nat).
Proof. vm_compute. reflexivity. Qed.
