(* ===== verification/Stream.v ===== *)
(** * Reading the model's answer, with retries

    src/kernel/src/plates/tian_heaven/loop.rs: the request loop of a turn from
    the first request to the recorded answer, and the collectors of
    src/kernel/src/plates/tian_heaven/spawn.rs, which rebuild the answer from the
    events.  What the provider's stream yields, and the tasks of early dispatch
    that have ended when a call comes in, are told by attempt. *)

From S2P Require Import Prelude RString Json GeJu Permission Tool Scheduler HumanPlate Principles Hooks Context ToolParse Loop Dispatch Batch Early Breaker Provider.
Local Open Scope string_scope.
#[local] Arguments String.append !_ _ : simpl nomatch.

Definition MAX_LLM_RETRIES : nat := 3.

(** What the loop sends while it reads. *)
Inductive LlmEvent :=
| TxDelta (text : string)
| TxError (message : string)
| TxRetrying (attempt : nat)
| TxStreamEnd
| BusLlmUsage (input_tokens output_tokens : Z)
| TxGate (e : GateEvent).

(** The locals of the turn the reading changes. *)
Record Reading := {
  rd_text : string;
  rd_calls : list ToolCall;
  rd_guard : RepeatGuard;
  rd_reminder : option string;
  rd_stop : bool;
  rd_early : Early.Stream;
  rd_events : list LlmEvent
}.

(** What the attempts meet: the items of the stream, each with the early tasks
    ended since the item before; whether the session is cancelled and the
    clock's instants when the attempt fails; the entropy of the delays. *)
Record Attempts := {
  at_items : nat -> list (Item * list Joined);
  at_cancelled : nat -> bool;
  at_probe : nat -> Z;
  at_failed : nat -> Z;
  at_entropy : nat -> nat -> Z
}.

Inductive LlmEnd :=
| Completed
| Truncated
| CancelledRetry
| GaveUp (e : ProviderError).

Record LlmRun := {
  lr_reading : Reading;
  lr_router : option ProviderRouter;
  lr_attempt : nat;
  lr_delays : list Z;
  lr_rate_limits : nat;
  lr_end : LlmEnd
}.

Section Read.
Context (get_tool : string -> option BaseTool) (run_command : string -> string -> Value -> Status) (env : Env).
Context `{Tokenizer} (from_str : string -> option Value) (persist : ToolCall -> string -> result string (string * Z)).
Context (c : RunCtx) (ephemeral : bool) (ats : Attempts).

Definition dispatch_early := early_gate_dispatch get_tool run_command env from_str persist c.

(** A native call: counted by the repeat guard, gated, perhaps started. *)
Definition read_call (tc : ToolCall) (polled : list Joined) (rd : Reading) : Reading :=
  if rd_stop rd then
    {| rd_text := rd_text rd; rd_calls := (rd_calls rd ++ [tc])%list; rd_guard := rd_guard rd; rd_reminder := rd_reminder rd;
       rd_stop := true; rd_early := rd_early rd; rd_events := rd_events rd |}
  else
    let g := track (HumanPlate.to_string env) (tc_name tc) (tc_parameters tc) (rd_guard rd) in
    if (REPEAT_FORCE_STOP <=? streak g)%Z then
      {| rd_text := rd_text rd; rd_calls := (rd_calls rd ++ [tc])%list; rd_guard := g; rd_reminder := rd_reminder rd;
         rd_stop := true; rd_early := rd_early rd; rd_events := (rd_events rd ++ [TxError (force_stop_text (tc_name tc))])%list |}
    else
      let '(early, evs) := dispatch_early (length (rd_calls rd)) tc polled (rd_early rd) in
      {| rd_text := rd_text rd; rd_calls := (rd_calls rd ++ [tc])%list; rd_guard := g;
         rd_reminder := match reminder g with Some r => Some (reminder_text (tc_name tc) r) | None => rd_reminder rd end;
         rd_stop := false; rd_early := early; rd_events := (rd_events rd ++ map TxGate evs)%list |}.

Definition send (e : LlmEvent) (rd : Reading) : Reading :=
  {| rd_text := rd_text rd; rd_calls := rd_calls rd; rd_guard := rd_guard rd; rd_reminder := rd_reminder rd;
     rd_stop := rd_stop rd; rd_early := rd_early rd; rd_events := (rd_events rd ++ [e])%list |}.

Definition native_call (id name arguments : string) : ToolCall :=
  {| tc_id := id; tc_name := name; tc_parameters := default Null (from_str arguments) |}.

Definition read_chunk (ch : Provider.StreamChunk) (polled : list Joined) (rd : Reading) : Reading :=
  match ch with
  | NativeToolCall id name arguments => read_call (native_call id name arguments) polled rd
  | Delta text =>
      send (TxDelta text)
        {| rd_text := rd_text rd +:+ text; rd_calls := rd_calls rd; rd_guard := rd_guard rd; rd_reminder := rd_reminder rd;
           rd_stop := rd_stop rd; rd_early := rd_early rd; rd_events := rd_events rd |}
  | Usage i o => send (BusLlmUsage i o) rd
  | CacheHit _ _ _ => rd
  end.

(** A stream up to its end or its first error. *)
Fixpoint read_items (items : list (Item * list Joined)) (rd : Reading) : Reading * option ProviderError :=
  match items with
  | [] => (rd, None)
  | (Ok ch, polled) :: rest => read_items rest (read_chunk ch polled rd)
  | (Err e, _) :: _ => (rd, Some e)
  end.

(** A new request drops the output of the attempt before. *)
Definition begin_attempt (rd : Reading) : Reading :=
  {| rd_text := ""; rd_calls := []; rd_guard := rd_guard rd; rd_reminder := rd_reminder rd;
     rd_stop := rd_stop rd; rd_early := rd_early rd; rd_events := rd_events rd |}.

(** Before a retry: early calls are aborted without account, the repeat guard is
    back at its checkpoint, the frontends are told to roll back. *)
Definition roll_back (checkpoint : RepeatGuard) (attempt : nat) (rd : Reading) : Reading :=
  {| rd_text := rd_text rd; rd_calls := rd_calls rd; rd_guard := checkpoint; rd_reminder := None;
     rd_stop := rd_stop rd; rd_early := abort_and_reset (rd_early rd); rd_events := (rd_events rd ++ [TxRetrying attempt])%list |}.

(** The exponential delay of the [n]-th retry, in milliseconds: the [n+1]-th
    value of a fresh backoff. *)
Fixpoint nth_delay (n : nat) (entropy : nat -> Z) (b : RetryBackoff) : Z :=
  match n with
  | O => fst (next_delay (entropy 0%nat) b)
  | S n => nth_delay n (fun i => entropy (S i)) (snd (next_delay (entropy 0%nat) b))
  end.

Definition retry_delay (retry : nat) (e : ProviderError) : Z :=
  match retry_after e with
  | Some secs => (secs * 1000)%Z
  | None => nth_delay retry (at_entropy ats retry) RetryBackoff_new
  end.

Definition failover (k : nat) (router : option ProviderRouter) : option ProviderRouter :=
  (fun r => snd (try_failover (at_probe ats k) (at_failed ats k) r)) <$> router.

Definition is_rate_limited (e : ProviderError) : bool := match e with RateLimited _ _ => true | _ => false end.

(** The request loop; [left] retries are left, so attempt and retry count are
    [MAX_LLM_RETRIES - left]. *)
Fixpoint llm_loop (left : nat) (checkpoint : RepeatGuard) (rd : Reading) (router : option ProviderRouter) (delays : list Z)
    (limits : nat) : LlmRun :=
  let k := (MAX_LLM_RETRIES - left)%nat in
  let '(rd, failure) := read_items (at_items ats k) (begin_attempt rd) in
  let done rd router limits e :=
    {| lr_reading := rd; lr_router := router; lr_attempt := k; lr_delays := delays; lr_rate_limits := limits; lr_end := e |} in
  match failure with
  | None => done (send TxStreamEnd rd) (router_record_success <$> router) limits Completed
  | Some ProviderCancelled => done rd router limits Truncated
  | Some e =>
      let limits := (limits + if ephemeral && is_rate_limited e then 1 else 0)%nat in
      match left with
      | S left' =>
          if is_retryable e then
            if at_cancelled ats k then done rd router limits CancelledRetry
            else llm_loop left' checkpoint (roll_back checkpoint (S k) rd) (failover k router)
                   (delays ++ [retry_delay (S k) e])%list limits
          else done (send (TxError (error_text e)) rd) router limits (GaveUp e)
      | O => done (send (TxError (error_text e)) rd) router limits (GaveUp e)
      end
  end.

(** The loop of a turn: the retry budget and the answer start afresh. *)
Definition llm_turn (guard : RepeatGuard) (reminder : option string) (touched : list string) (w : World)
    (router : option ProviderRouter) : LlmRun :=
  llm_loop MAX_LLM_RETRIES guard
    {| rd_text := ""; rd_calls := []; rd_guard := guard; rd_reminder := reminder; rd_stop := false;
       rd_early := stream_new touched w; rd_events := [] |} router [] 0.

(** ** The recorded answer *)

Definition sentence_ends : list string := ["."; "?"; "!"; "。"; "？"; "！"].

(** The length in characters of the longest prefix that ends a sentence. *)
Fixpoint last_sentence (cs : list string) : option nat :=
  match cs with
  | [] => None
  | ch :: rest =>
      match last_sentence rest with
      | Some n => Some (S n)
      | None => if one_of ch sentence_ends then Some 1%nat else None
      end
  end.

(** A JSON fragment behind the last sentence is stripped. *)
Definition strip_fragment (text : string) : string :=
  match last_sentence (chars text) with
  | Some n =>
      if contains_str (of_chars (drop n (chars text))) "{" then of_chars (take n (chars text)) else text
  | None => text
  end.

(** The answer and the calls of the turn: native calls win over calls parsed
    from the text. *)
Definition finish_answer (fresh : nat -> string) (tool_names : list string) (text : string) (native : list ToolCall) :
    string * list ToolCall :=
  let has_native := negb (bool_decide (native = [])) in
  let text := trim_end (if has_native then strip_fragment text else text) in
  (text, if has_native then native else snd (parse_tool_calls from_str fresh text tool_names)).

(** Nothing is recorded for an answer a cancellation left empty. *)
Definition record_answer (cancelled : bool) (text : string) (calls : list ToolCall) (history : list HistoryEntry) :
    list HistoryEntry :=
  if cancelled && String.eqb text "" && bool_decide (calls = []) then history else (history ++ [HAssistant text])%list.
End Read.

(** ** Collectors *)

Record Collected := { cl_response : string; cl_anchor : nat; cl_open : bool }.

(** One event at the collector; it stops listening at an error. *)
Definition collect (cl : Collected) (e : LlmEvent) : Collected :=
  if cl_open cl then
    match e with
    | TxDelta text => {| cl_response := cl_response cl +:+ text; cl_anchor := cl_anchor cl; cl_open := true |}
    | TxRetrying _ => {| cl_response := take_str (cl_anchor cl) (cl_response cl); cl_anchor := cl_anchor cl; cl_open := true |}
    | TxStreamEnd => {| cl_response := cl_response cl; cl_anchor := len (cl_response cl); cl_open := true |}
    | TxError msg => {| cl_response := "Error: " +:+ msg; cl_anchor := cl_anchor cl; cl_open := false |}
    | _ => cl
    end
  else cl.

Definition collect_all (cl : Collected) (es : list LlmEvent) : Collected := foldl collect cl es.

(** * Proofs *)

(** ** What a stream says *)

(** The first error of a stream; the text and the calls before it. *)
Fixpoint failure (items : list Item) : option ProviderError :=
  match items with
  | [] => None
  | Ok _ :: rest => failure rest
  | Err e :: _ => Some e
  end.

Fixpoint text_of (items : list Item) : string :=
  match items with
  | Ok (Delta t) :: rest => t +:+ text_of rest
  | Ok _ :: rest => text_of rest
  | _ => ""
  end.

Fixpoint calls_of (from_str : string -> option Value) (items : list Item) : list ToolCall :=
  match items with
  | Ok (NativeToolCall id name arguments) :: rest => native_call from_str id name arguments :: calls_of from_str rest
  | Ok _ :: rest => calls_of from_str rest
  | _ => []
  end.

(** What the frontends hear of it. *)
Definition said (e : LlmEvent) : string := match e with TxDelta t => t | _ => "" end.
Definition spoken (es : list LlmEvent) : string := concat_str (map said es).

Definition within_attempt (e : LlmEvent) : Prop := match e with TxRetrying _ | TxStreamEnd => False | _ => True end.
Definition no_error (e : LlmEvent) : Prop := match e with TxError _ => False | _ => True end.

Lemma spoken_app a b : spoken (a ++ b)%list = spoken a +:+ spoken b.
Proof. unfold spoken. by rewrite map_app, concat_str_app. Qed.

Lemma spoken_gates evs : spoken (map TxGate evs) = "".
Proof. induction evs as [|e evs IH]; [done|]. exact IH. Qed.

Lemma collect_attempt es cl : Forall within_attempt es -> Forall no_error es -> cl_open cl = true ->
  collect_all cl es = {| cl_response := cl_response cl +:+ spoken es; cl_anchor := cl_anchor cl; cl_open := true |}.
Proof.
  revert cl. induction es as [|e es IH]; intros cl Hw Hn Ho.
  - destruct cl as [r a o]. cbn in *. subst o. cbn. by rewrite app_nil_r_str.
  - apply Forall_cons in Hw as [Hw Hws]. apply Forall_cons in Hn as [Hn Hns]. cbn [collect_all foldl].
    fold (collect_all (collect cl e) es). destruct cl as [r a o]. cbn in Ho. subst o.
    rewrite IH; [|done|done|by destruct e]. destruct e; cbn in *; try done. unfold spoken. cbn. by rewrite app_assoc_str.
Qed.

Section ReadProofs.
Context (get_tool : string -> option BaseTool) (run_command : string -> string -> Value -> Status) (env : Env).
Context `{Tokenizer} (from_str : string -> option Value) (persist : ToolCall -> string -> result string (string * Z)).
Context (c : RunCtx) (ephemeral : bool) (ats : Attempts).

Local Abbreviation read_items := (read_items get_tool run_command env from_str persist c).
Local Abbreviation read_call := (read_call get_tool run_command env from_str persist c).
Local Abbreviation read_chunk := (read_chunk get_tool run_command env from_str persist c).
Local Abbreviation llm_loop := (llm_loop get_tool run_command env from_str persist c ephemeral ats).

Definition pair_of (tc : ToolCall) : string * Value := (tc_name tc, tc_parameters tc).
Definition guarded (calls : list ToolCall) (g : RepeatGuard) (q : option string) :=
  guard_calls (HumanPlate.to_string env) (map pair_of calls) g q.

(** What reading does to a reading, given what is said. *)
Record heard (text : string) (calls : list ToolCall) (rd rd' : Reading) : Prop := {
  he_text : rd_text rd' = rd_text rd +:+ text;
  he_calls : rd_calls rd' = (rd_calls rd ++ calls)%list;
  he_events : exists es, rd_events rd' = (rd_events rd ++ es)%list /\ Forall within_attempt es /\ spoken es = text /\
                (rd_stop rd = rd_stop rd' -> Forall no_error es);
  he_stop : rd_stop rd = true -> rd_stop rd' = true /\ rd_guard rd' = rd_guard rd /\ rd_reminder rd' = rd_reminder rd;
  he_guard : rd_stop rd = false ->
    let '(_, q, g, stopped) := guarded calls (rd_guard rd) (rd_reminder rd) in
    rd_stop rd' = stopped /\ rd_guard rd' = g /\ rd_reminder rd' = q
}.

Lemma heard_nothing rd : heard "" [] rd rd.
Proof.
  split; [by rewrite app_nil_r_str|by rewrite app_nil_r| |done|done].
  exists []. by rewrite app_nil_r.
Qed.

Lemma guarded_app a b g q : guarded (a ++ b) g q =
  let '(d, q1, g1, s) := guarded a g q in
  if s then (d, q1, g1, true) else let '(d', q2, g2, s') := guarded b g1 q1 in (d ++ d', q2, g2, s')%list.
Proof.
  unfold guarded. rewrite map_app. generalize (map pair_of a) as ps, (map pair_of b) as qs. intros ps qs. revert g q.
  induction ps as [|[n v] ps IH]; intros g q; cbn [app guard_calls].
  - by destruct (guard_calls _ qs g q) as [[[d q1] g1] s].
  - destruct (_ <=? _)%Z; [done|]. rewrite IH. destruct (guard_calls _ ps _ _) as [[[d q1] g1] s].
    destruct s; [done|]. by destruct (guard_calls _ qs g1 q1) as [[[d' q2] g2] s'].
Qed.

Lemma heard_trans t1 c1 t2 c2 a b d : heard t1 c1 a b -> heard t2 c2 b d -> heard (t1 +:+ t2) (c1 ++ c2) a d.
Proof.
  intros [Ht1 Hc1 (es1 & He1 & Hw1 & Hs1 & Hn1) Hst1 Hg1] [Ht2 Hc2 (es2 & He2 & Hw2 & Hs2 & Hn2) Hst2 Hg2].
  assert (Hmid : rd_stop a = rd_stop d -> rd_stop a = rd_stop b /\ rd_stop b = rd_stop d).
  { intros Had. destruct (rd_stop a) eqn:Ha.
    - destruct (Hst1 eq_refl) as [Hb _]. rewrite Hb. split; [done|]. congruence.
    - destruct (rd_stop b) eqn:Hb; [|split; congruence]. destruct (Hst2 eq_refl) as [Hd _]. congruence. }
  split.
  - by rewrite Ht2, Ht1, app_assoc_str.
  - by rewrite Hc2, Hc1, app_assoc.
  - exists (es1 ++ es2)%list. split; [by rewrite He2, He1, app_assoc|]. split; [by apply Forall_app|].
    split; [by rewrite spoken_app, Hs1, Hs2|]. intros Had. destruct (Hmid Had). apply Forall_app. auto.
  - intros Ha. destruct (Hst1 Ha) as (Hb & Hgb & Hrb). destruct (Hst2 Hb) as (Hd & Hgd & Hrd).
    split; [done|]. split; congruence.
  - intros Ha. specialize (Hg1 Ha). rewrite guarded_app. destruct (guarded c1 _ _) as [[[dd q] g] s].
    destruct Hg1 as (Hs & Hg & Hr). destruct s.
    + destruct (Hst2 Hs) as (Hd & Hgd & Hrd). split; [done|]. split; congruence.
    + specialize (Hg2 Hs). rewrite Hg, Hr in Hg2. by destruct (guarded c2 g q) as [[[d' q2] g2] s'].
Qed.

Lemma read_call_heard tc polled rd : heard "" [tc] rd (read_call tc polled rd).
Proof.
  unfold Stream.read_call. destruct (rd_stop rd) eqn:Hs.
  { split; cbn [rd_text rd_calls rd_guard rd_reminder rd_stop rd_events]; [by rewrite app_nil_r_str|done| |done|congruence]. exists []. by rewrite app_nil_r. }
  set (g := track _ _ _ _).
  assert (Hguard : guarded [tc] (rd_guard rd) (rd_reminder rd) =
    if (REPEAT_FORCE_STOP <=? streak g)%Z then ([], rd_reminder rd, g, true)
    else ([pair_of tc], match reminder g with Some r => Some (reminder_text (tc_name tc) r) | None => rd_reminder rd end, g, false))
    by done.
  destruct (_ <=? _)%Z eqn:Hle.
  - split; cbn [rd_text rd_calls rd_guard rd_reminder rd_stop rd_events]; [by rewrite app_nil_r_str|done| |congruence|by rewrite Hguard].
    exists [TxError (force_stop_text (tc_name tc))]. split; [done|]. split; [by repeat constructor|]. split; [done|congruence].
  - destruct (dispatch_early _ _ _ _ _ _ _ _ _) as [early evs].
    split; cbn [rd_text rd_calls rd_guard rd_reminder rd_stop rd_events]; [by rewrite app_nil_r_str|done| |congruence|by rewrite Hguard].
    exists (map TxGate evs). split; [done|]. split; [apply Forall_map, Forall_true; done|]. split; [apply spoken_gates|].
    intros _. apply Forall_map, Forall_true. done.
Qed.

Lemma send_heard t e text rd rd' : said e = t -> within_attempt e -> no_error e ->
  rd_text rd' = rd_text rd +:+ t -> rd_calls rd' = rd_calls rd -> rd_guard rd' = rd_guard rd -> rd_reminder rd' = rd_reminder rd ->
  rd_stop rd' = rd_stop rd -> rd_events rd' = rd_events rd -> text = t -> heard text [] rd (send e rd').
Proof.
  intros Hsaid Hw Hn Ht Hc Hg Hr Hs He ->. split; cbn; [done|by rewrite Hc, app_nil_r| |by rewrite Hs, Hg, Hr|by rewrite Hs, Hg, Hr].
  exists [e]. rewrite He. split; [done|]. split; [by repeat constructor|]. split; [|intros _; by repeat constructor].
  unfold spoken. cbn. rewrite Hsaid. apply app_nil_r_str.
Qed.

Lemma read_items_heard items rd : let '(rd', f) := read_items items rd in
  f = failure (map fst items) /\ heard (text_of (map fst items)) (calls_of from_str (map fst items)) rd rd'.
Proof.
  revert rd. induction items as [|[[ch|e] polled] items IH]; intros rd; cbn [Stream.read_items map fst failure text_of calls_of].
  - split; [done|apply heard_nothing].
  - specialize (IH (read_chunk ch polled rd)). destruct (read_items items _) as [rd' f]. destruct IH as [-> Hh]. split; [done|].
    destruct ch as [t|i o|i r w|id name args]; cbn [Stream.read_chunk] in Hh.
    + refine (heard_trans t [] _ _ _ _ _ _ Hh). by eapply send_heard.
    + refine (heard_trans "" [] _ _ _ _ _ _ Hh). eapply send_heard; try done. cbn. by rewrite app_nil_r_str.
    + done.
    + refine (heard_trans "" [_] _ _ _ _ _ _ Hh). apply read_call_heard.
  - split; [done|apply heard_nothing].
Qed.

(** ** The request loop *)

Definition said_at (k : nat) : list Item := map fst (at_items ats k).

(** The guard and the reminder after an attempt that nothing stopped. *)
Definition guard_after (calls : list ToolCall) (g : RepeatGuard) (q : option string) (rd : Reading) : Prop :=
  guarded calls g q = (map pair_of calls, rd_reminder rd, rd_guard rd, false).

Lemma guarded_all calls g q d q' g' : guarded calls g q = (d, q', g', false) -> d = map pair_of calls.
Proof.
  unfold guarded. generalize (map pair_of calls) as ps. intros ps. revert g q d. induction ps as [|[n v] ps IH]; intros g q d; cbn [guard_calls].
  - by intros [= <- _ _].
  - destruct (_ <=? _)%Z; [done|]. destruct (guard_calls _ ps _ _) as [[[d' q1] g1] s] eqn:Hg. intros [= <- -> -> ->].
    f_equal. by eapply IH.
Qed.

Lemma heard_guard text calls rd rd' : heard text calls rd rd' -> rd_stop rd' = false ->
  rd_stop rd = false /\ guard_after calls (rd_guard rd) (rd_reminder rd) rd'.
Proof.
  intros [_ _ _ Hst Hg] Hs. destruct (rd_stop rd) eqn:Hr; [destruct (Hst eq_refl); congruence|]. split; [done|].
  specialize (Hg eq_refl). unfold guard_after. destruct (guarded calls _ _) as [[[d q] g] s] eqn:Hgd.
  destruct Hg as (Hs' & -> & ->). assert (s = false) as -> by congruence. by rewrite <- (guarded_all _ _ _ _ _ _ Hgd).
Qed.

Lemma cancelled_or_not (e : ProviderError) : e = ProviderCancelled \/ e <> ProviderCancelled.
Proof. destruct e; (by left) || (by right). Qed.

Section Collector.
Context (prev : string).
Definition listening : Collected := {| cl_response := prev; cl_anchor := len prev; cl_open := true |}.

Lemma collect_all_app cl a b : collect_all cl (a ++ b) = collect_all (collect_all cl a) b.
Proof. apply foldl_app. Qed.

Lemma heard_collected text calls rd rd' : heard text calls rd rd' -> rd_stop rd' = false ->
  collect_all listening (rd_events rd) = listening ->
  collect_all listening (rd_events rd') = {| cl_response := prev +:+ text; cl_anchor := len prev; cl_open := true |}.
Proof.
  intros Hh Hs Hc. destruct (heard_guard _ _ _ _ Hh Hs) as [Hr _]. destruct Hh as [_ _ (es & -> & Hw & <- & Hn) _ _].
  rewrite collect_all_app, Hc. apply collect_attempt; [done|apply Hn; congruence|done].
Qed.

(** How the loop ends, and after how many attempts. *)
Record loop_spec (from : nat) (checkpoint : RepeatGuard) (rd : Reading) (delays : list Z) (r : LlmRun) : Prop := {
  ls_attempt : from <= lr_attempt r <= MAX_LLM_RETRIES;
  ls_before : forall i, from <= i < lr_attempt r -> exists e,
    failure (said_at i) = Some e /\ is_retryable e = true /\ at_cancelled ats i = false;
  ls_delays : length (lr_delays r) = length delays + (lr_attempt r - from);
  ls_end : match lr_end r with
    | Completed => failure (said_at (lr_attempt r)) = None
    | Truncated => failure (said_at (lr_attempt r)) = Some ProviderCancelled
    | CancelledRetry => exists e, failure (said_at (lr_attempt r)) = Some e /\ is_retryable e = true /\
                          lr_attempt r < MAX_LLM_RETRIES /\ at_cancelled ats (lr_attempt r) = true
    | GaveUp e => failure (said_at (lr_attempt r)) = Some e /\ e <> ProviderCancelled /\
                    (is_retryable e = false \/ lr_attempt r = MAX_LLM_RETRIES)
    end;
  ls_text : rd_text (lr_reading r) = text_of (said_at (lr_attempt r));
  ls_calls : rd_calls (lr_reading r) = calls_of from_str (said_at (lr_attempt r));
  ls_guard : rd_stop (lr_reading r) = false -> rd_stop rd = false /\
    guard_after (calls_of from_str (said_at (lr_attempt r)))
      (if decide (lr_attempt r = from) then rd_guard rd else checkpoint)
      (if decide (lr_attempt r = from) then rd_reminder rd else None) (lr_reading r);
  ls_collected : rd_stop (lr_reading r) = false -> lr_end r = Completed ->
    collect_all listening (rd_events (lr_reading r)) =
    let response := prev +:+ text_of (said_at (lr_attempt r)) in
    {| cl_response := response; cl_anchor := len response; cl_open := true |}
}.

(** One attempt and its end. *)
Lemma attempt_spec k checkpoint rd delays rd1 rd2 router limits e :
  k <= MAX_LLM_RETRIES ->
  heard (text_of (said_at k)) (calls_of from_str (said_at k)) (begin_attempt rd) rd1 ->
  rd_text rd2 = rd_text rd1 -> rd_calls rd2 = rd_calls rd1 -> rd_guard rd2 = rd_guard rd1 -> rd_reminder rd2 = rd_reminder rd1 ->
  rd_stop rd2 = rd_stop rd1 ->
  match e with
  | Completed => failure (said_at k) = None
  | Truncated => failure (said_at k) = Some ProviderCancelled
  | CancelledRetry => exists e, failure (said_at k) = Some e /\ is_retryable e = true /\ k < MAX_LLM_RETRIES /\ at_cancelled ats k = true
  | GaveUp e => failure (said_at k) = Some e /\ e <> ProviderCancelled /\ (is_retryable e = false \/ k = MAX_LLM_RETRIES)
  end ->
  (e = Completed -> rd_events rd2 = (rd_events rd1 ++ [TxStreamEnd])%list) ->
  (rd_stop rd = false -> collect_all listening (rd_events rd) = listening) ->
  loop_spec k checkpoint rd delays {| lr_reading := rd2; lr_router := router; lr_attempt := k; lr_delays := delays;
                                      lr_rate_limits := limits; lr_end := e |}.
Proof.
  intros Hk Hh Ht Hc Hg Hr Hs Hend Hev Hcol. split; cbn [lr_attempt lr_end lr_reading lr_delays]; try done.
  - intros i Hi. lia.
  - lia.
  - rewrite Ht. by rewrite (he_text _ _ _ _ Hh).
  - rewrite Hc. by rewrite (he_calls _ _ _ _ Hh).
  - intros Hst. rewrite decide_True, decide_True by done. rewrite Hs in Hst. destruct (heard_guard _ _ _ _ Hh Hst) as [H1 H2].
    split; [exact H1|]. unfold guard_after in *. by rewrite Hr, Hg.
  - intros Hst Hcomp. rewrite (Hev Hcomp), collect_all_app. rewrite Hs in Hst.
    rewrite (heard_collected _ _ _ _ Hh Hst); [done|]. apply Hcol. by destruct (heard_guard _ _ _ _ Hh Hst).
Qed.

Lemma llm_loop_spec left checkpoint rd router delays limits : left <= MAX_LLM_RETRIES ->
  (rd_stop rd = false -> collect_all listening (rd_events rd) = listening) ->
  loop_spec (MAX_LLM_RETRIES - left) checkpoint rd delays (llm_loop left checkpoint rd router delays limits).
Proof.
  revert rd router delays limits. induction left as [|left IH]; intros rd router delays limits Hleft Hcol.
  - cbn [Stream.llm_loop]. set (k := MAX_LLM_RETRIES - 0).
    pose proof (read_items_heard (at_items ats k) (begin_attempt rd)) as Hr. fold (said_at k) in Hr.
    destruct (read_items _ _) as [rd1 f]. destruct Hr as [Hf Hh].
    destruct f as [e|]; [|by apply (attempt_spec k _ _ _ rd1)].
    destruct (cancelled_or_not e) as [->|Hne]; [by apply (attempt_spec k _ _ _ rd1)|].
    assert (Hcase : forall (A : Type) (x y : A), match e with ProviderCancelled => x | _ => y end = y) by (intros; by destruct e).
    rewrite Hcase. apply (attempt_spec k _ _ _ rd1); try done. split; [done|]. split; [done|by right].
  - cbn [Stream.llm_loop]. set (k := MAX_LLM_RETRIES - S left). assert (Hk : S k = MAX_LLM_RETRIES - left) by (subst k; lia).
    pose proof (read_items_heard (at_items ats k) (begin_attempt rd)) as Hr. fold (said_at k) in Hr.
    destruct (read_items _ _) as [rd1 f]. destruct Hr as [Hf Hh].
    assert (Hkm : k <= MAX_LLM_RETRIES) by lia.
    destruct f as [e|]; [|by apply (attempt_spec k _ _ _ rd1)].
    destruct (cancelled_or_not e) as [->|Hne]; [by apply (attempt_spec k _ _ _ rd1)|].
    assert (Hcase : forall (A : Type) (x y : A), match e with ProviderCancelled => x | _ => y end = y) by (intros; by destruct e).
    rewrite Hcase. clear Hcase. destruct (is_retryable e) eqn:Hret.
    2: { apply (attempt_spec k _ _ _ rd1); try done. split; [done|]. split; [done|by left]. }
    destruct (at_cancelled ats k) eqn:Hcan.
    { apply (attempt_spec k _ _ _ rd1); try done. exists e. split; [done|]. split; [done|]. split; [lia|done]. }
    set (limits' := (limits + _)%nat). set (rd' := roll_back checkpoint (S k) rd1). set (router' := failover _ k router).
    set (delays' := (delays ++ [retry_delay ats (S k) e])%list).
    assert (Hcol' : rd_stop rd' = false -> collect_all listening (rd_events rd') = listening).
    { intros Hst. cbn in Hst. cbn [rd_events rd' roll_back]. rewrite collect_all_app.
      rewrite (heard_collected _ _ _ _ Hh Hst); [|apply Hcol; by destruct (heard_guard _ _ _ _ Hh Hst)].
      unfold listening. cbn. by rewrite take_app_str. }
    destruct (IH rd' router' delays' limits' ltac:(lia) Hcol') as [H1 H2 H3 H4 H5 H6 H7 H8]. clear IH.
    rewrite <- Hk in *. set (r := llm_loop left checkpoint rd' router' delays' limits') in *. clearbody r.
    split; try done.
    + lia.
    + intros i Hi. destruct (decide (i = k)) as [->|]; [by exists e|]. apply H2. lia.
    + rewrite H3. unfold delays'. rewrite length_app. cbn [length]. lia.
    + intros Hst. destruct (H7 Hst) as [Hs' Hg]. cbn in Hs'. destruct (heard_guard _ _ _ _ Hh Hs') as [Hs _]. split; [exact Hs|].
      rewrite decide_False, decide_False by lia. case_decide; exact Hg.
Qed.
End Collector.

(** [C4] A turn's request, retried.  At most four requests are made; every
    attempt but the last one failed with a retryable error, and the last one
    ended as its stream did: normally, cut by a cancellation, or with an error
    that is not retryable or exhausts the budget; a delay is waited before each
    retry.  The answer and the native calls are those of the last attempt alone.
    Unless the repeat guard stopped the turn, the guard and the queued reminder
    are those of the last attempt counted from the state before the turn, as if
    no attempt had failed; and a frontend that follows the events holds, at the
    end, what it held before followed by the recorded answer. *)
Theorem llm_turn_spec guard reminder touched w router prev :
  let r := llm_turn get_tool run_command env from_str persist c ephemeral ats guard reminder touched w router in
  let k := lr_attempt r in
  k <= 3 /\ length (lr_delays r) = k /\
  (forall i, i < k -> exists e, failure (said_at i) = Some e /\ is_retryable e = true /\ at_cancelled ats i = false) /\
  match lr_end r with
  | Completed => failure (said_at k) = None
  | Truncated => failure (said_at k) = Some ProviderCancelled
  | CancelledRetry => exists e, failure (said_at k) = Some e /\ is_retryable e = true /\ k < 3 /\ at_cancelled ats k = true
  | GaveUp e => failure (said_at k) = Some e /\ e <> ProviderCancelled /\ (is_retryable e = false \/ k = 3)
  end /\
  rd_text (lr_reading r) = text_of (said_at k) /\ rd_calls (lr_reading r) = calls_of from_str (said_at k) /\
  (rd_stop (lr_reading r) = false ->
     guarded (rd_calls (lr_reading r)) guard (if decide (k = 0) then reminder else None) =
       (map pair_of (rd_calls (lr_reading r)), rd_reminder (lr_reading r), rd_guard (lr_reading r), false) /\
     (lr_end r = Completed ->
        cl_response (collect_all (listening prev) (rd_events (lr_reading r))) = prev +:+ rd_text (lr_reading r))).
Proof.
  intros r k. set (rd0 := {| rd_text := ""; rd_calls := []; rd_guard := guard; rd_reminder := reminder; rd_stop := false;
       rd_early := stream_new touched w; rd_events := [] |}).
  assert (Hspec : loop_spec prev 0 guard rd0 [] r) by exact (llm_loop_spec prev MAX_LLM_RETRIES guard rd0 router [] 0 (le_n _) (fun _ => eq_refl)).
  destruct Hspec as [H1 H2 H3 H4 H5 H6 H7 H8]. clearbody r. subst k. unfold MAX_LLM_RETRIES in *. cbn [length] in H3.
  split; [lia|]. split; [lia|]. split; [intros i Hi; apply H2; lia|]. split; [exact H4|]. do 2 (split; [done|]).
  intros Hs. destruct (H7 Hs) as [_ Hg]. split; [|intros Hc; by rewrite (H8 Hs Hc), H5].
  rewrite H6. unfold guard_after in Hg. rewrite <- Hg. by case_decide.
Qed.

(** ** Early dispatch of a reading

    The tasks found ended are tasks that run. *)
Fixpoint legal (items : list (Item * list Joined)) (rd : Reading) : Prop :=
  match items with
  | (Ok ch, polled) :: rest =>
      (match ch with NativeToolCall _ _ _ => joins_ok polled (rd_early rd) | _ => True end) /\ legal rest (read_chunk ch polled rd)
  | _ => True
  end.

Local Abbreviation streamed := (streamed get_tool run_command env from_str persist c).

(** The early calls of an attempt that nothing stopped form a stream, so that
    the theorems on early dispatch apply to what the request loop does. *)
Lemma read_streamed touched w items rd js : streamed touched w (rd_calls rd) js (rd_early rd) -> legal items rd ->
  let rd' := fst (read_items items rd) in
  rd_stop rd' = false -> exists js', streamed touched w (rd_calls rd') js' (rd_early rd').
Proof.
  revert rd js. induction items as [|[[ch|e] polled] items IH]; intros rd js Hs Hl rd' Hstop; cbn in rd'; subst rd'; try by exists js.
  destruct Hl as [Hok Hl]. assert (Hcall : rd_stop (read_chunk ch polled rd) = false).
  { pose proof (read_items_heard items (read_chunk ch polled rd)) as Hh.
    destruct (read_items items (read_chunk ch polled rd)) as [rd1 f]. destruct Hh as [_ Hh]. by destruct (heard_guard _ _ _ _ Hh Hstop). }
  assert (Hnext : exists js', streamed touched w (rd_calls (read_chunk ch polled rd)) js' (rd_early (read_chunk ch polled rd))).
  { destruct ch as [t|i o|i r cw|id name args]; try by exists js. cbn [Stream.read_chunk] in *. unfold Stream.read_call in *.
    destruct (rd_stop rd); [done|]. destruct (_ <=? _)%Z; [done|].
    pose proof (streamed_call get_tool run_command env from_str persist c touched w _ _ _ (native_call from_str id name args) polled Hs Hok) as Hnew.
    unfold dispatch_early. destruct (early_gate_dispatch _ _ _ _ _ _ _ _ _ _) as [early evs]. cbn. by eexists. }
  destruct Hnext as [js' Hnext]. by eapply IH.
Qed.

Lemma fresh_streamed rd touched w : rd_early rd = stream_new touched w -> streamed touched w (rd_calls (begin_attempt rd)) [] (rd_early (begin_attempt rd)).
Proof. cbn. intros ->. constructor. Qed.
End ReadProofs.

(** ** The recorded answer *)

Lemma last_sentence_spec cs :
  match last_sentence cs with
  | Some n => n <= length cs /\ exists ch, cs !! (n - 1) = Some ch /\ one_of ch sentence_ends = true /\ 0 < n /\
                Forall (fun ch => one_of ch sentence_ends = false) (drop n cs)
  | None => Forall (fun ch => one_of ch sentence_ends = false) cs
  end.
Proof.
  induction cs as [|ch cs IH]; [constructor|]. cbn [last_sentence]. destruct (last_sentence cs) as [n|].
  - destruct IH as (Hn & ch' & Hl & Hone & Hpos & Hall). split; [cbn; lia|]. exists ch'.
    replace (S n - 1) with (S (n - 1)) by lia. split; [done|]. split; [done|]. split; [lia|done].
  - destruct (one_of ch sentence_ends) eqn:Hone.
    + split; [cbn; lia|]. exists ch. split; [done|]. split; [done|]. split; [lia|]. exact IH.
    + by constructor.
Qed.

(** Stripping keeps a prefix of the answer: all of it, or what ends with the
    last sentence when a brace follows. *)
Lemma strip_fragment_prefix text : exists rest, text = strip_fragment text +:+ rest /\
  (rest = "" \/ contains_str rest "{" = true).
Proof.
  unfold strip_fragment. destruct (last_sentence (chars text)) as [n|]; [|exists ""; split; [by rewrite app_nil_r_str|by left]].
  destruct (contains_str _ "{") eqn:Hc; [|exists ""; split; [by rewrite app_nil_r_str|by left]].
  exists (of_chars (drop n (chars text))). split; [|by right]. unfold of_chars. rewrite <- concat_str_app, take_drop. symmetry. apply concat_chars.
Qed.

(** ** Concrete runs *)

Definition demo_turn (items : nat -> list Item) : LlmRun :=
  llm_turn demo_tools (fun _ _ _ => SpawnError) sample_env (H := byte_tokenizer) (fun s => Some (file_input s)) (fun _ _ => Err "full")
    demo_ctx false
    {| at_items := fun k => map (fun i => (i, [])) (items k); at_cancelled := fun _ => false; at_probe := fun _ => 0%Z;
       at_failed := fun _ => 0%Z; at_entropy := fun _ _ => 0%Z |}
    RepeatGuard_default None [] empty_world None.

Definition native (id path : string) : Item := Ok (NativeToolCall id "read_file" path).

(** A first attempt that fails leaves nothing in the answer. *)
Example retry_discards_output :
  let r := demo_turn (fun k => match k with
             | O => [Ok (Delta "half an "); native "1" "a"; Err (Network "reset")]
             | _ => [Ok (Delta "a whole answer"); native "2" "b"]
             end) in
  lr_attempt r = 1 /\ rd_text (lr_reading r) = "a whole answer" /\ map tc_id (rd_calls (lr_reading r)) = ["2"] /\
  length (slots (rd_early (lr_reading r))) = 1.
Proof. vm_compute. done. Qed.

(** The stop of the repeat guard outlives the attempt it happened in: the
    guard's counts are rolled back, but every call of the retried answer is
    left ungated, and the turn ends as stopped. *)
Example stop_survives_retry :
  let r := demo_turn (fun k => match k with
             | O => (replicate 12 (native "1" "a") ++ [Err (Network "reset")])%list
             | _ => [native "2" "b"]
             end) in
  lr_end r = Completed /\ rd_stop (lr_reading r) = true /\ map tc_id (rd_calls (lr_reading r)) = ["2"] /\
  slots (rd_early (lr_reading r)) = [] /\ rd_guard (lr_reading r) = RepeatGuard_default.
Proof. vm_compute. done. Qed.
