(* ===== verification/Subagent.v ===== *)
(** * Sub-agents and background sessions

    src/kernel/src/plates/tian_heaven/subagent_batch.rs (the permits),
    src/kernel/src/plates/tian_heaven/spawn.rs (the consumer of incoming
    messages, the run of a sub-agent, the verdict of a verifier) and
    src/kernel/src/palaces/zhen_tool/builtin/exec/worktree.rs.  What an agent
    does in its run, the file system and git are arguments. *)

From Stdlib Require Import Ascii.
From S2P Require Import Prelude RString Path Json GeJu Permission Tool HumanPlate Completion Compaction Dispatch Batch.
Local Open Scope string_scope.
#[local] Arguments String.append !_ _ : simpl nomatch.

(** ** Permits *)

(** [available] are the permits of the semaphore nobody holds; instants are
    seconds. *)
Record SubagentBatch := {
  available : nat;
  backoff_multiplier : Z;
  last_rate_limit : option Z;
  last_clear : Z
}.

Definition max_concurrency : nat := 8.

Definition SubagentBatch_new (now : Z) : SubagentBatch :=
  {| available := 5; backoff_multiplier := 1; last_rate_limit := None; last_clear := now |}.

Definition with_available (n : nat) (b : SubagentBatch) : SubagentBatch :=
  {| available := n; backoff_multiplier := backoff_multiplier b; last_rate_limit := last_rate_limit b; last_clear := last_clear b |}.

(** [acquire]: a permit, when there is one; otherwise the caller waits. *)
Definition acquire (b : SubagentBatch) : option SubagentBatch :=
  match available b with O => None | S n => Some (with_available n b) end.

(** A [BatchPermit] is dropped. *)
Definition release (b : SubagentBatch) : SubagentBatch := with_available (S (available b)) b.

Definition on_rate_limited (now : Z) (b : SubagentBatch) : SubagentBatch :=
  {| available := available b; backoff_multiplier := Z.min (Z.min (2 ^ 32 - 1) (backoff_multiplier b * 2)) 16;
     last_rate_limit := Some now; last_clear := last_clear b |}.

Definition recovers (now : Z) (b : SubagentBatch) : bool :=
  (180 <? Z.max 0 (now - last_clear b))%Z && (1 <? backoff_multiplier b)%Z.

Definition maybe_recover (now : Z) (b : SubagentBatch) : SubagentBatch :=
  if recovers now b then
    {| available := if (available b <? max_concurrency)%nat then S (available b) else available b;
       backoff_multiplier := Z.max 0 (backoff_multiplier b - 1); last_rate_limit := last_rate_limit b; last_clear := now |}
  else b.

(** The operations in any order; [held] counts the permits handed out. *)
Inductive PermitOp := Acquired | Released | RateLimitedAt (now : Z) | RecoverAt (now : Z).

Inductive permit_step : SubagentBatch * nat -> PermitOp -> SubagentBatch * nat -> Prop :=
| ps_acquire b b' held : acquire b = Some b' -> permit_step (b, held) Acquired (b', S held)
| ps_release b held : permit_step (b, S held) Released (release b, held)
| ps_limit now b held : permit_step (b, held) (RateLimitedAt now) (on_rate_limited now b, held)
| ps_recover now b held : permit_step (b, held) (RecoverAt now) (maybe_recover now b, held).

Inductive permit_steps : SubagentBatch * nat -> list PermitOp -> SubagentBatch * nat -> Prop :=
| permit_none s : permit_steps s [] s
| permit_more s op s' ops s'' : permit_step s op s' -> permit_steps s' ops s'' -> permit_steps s (op :: ops) s''.

(** ** Incoming messages *)

Inductive ChannelSource := Stdin | FileWatch (path : string) | Webhook (endpoint : string) | Api.

Definition source_key (s : ChannelSource) : string :=
  match s with
  | Stdin => "stdin"
  | FileWatch path => "filewatch:" +:+ path
  | Webhook endpoint => "webhook:" +:+ endpoint
  | Api => "api"
  end.

(** The consumer: the keys marked active, the tasks that wait for one of the
    eight permits, the tasks that run. *)
Record IoConsumer := { io_active : list string; io_waiting : list string; io_running : list string }.

Definition IO_PERMITS : nat := 8.
Definition IoConsumer_new : IoConsumer := {| io_active := []; io_waiting := []; io_running := [] |}.

(** A message comes in: dropped when its source is active, otherwise a task is
    spawned for it. *)
Definition io_receive (s : ChannelSource) (c : IoConsumer) : bool * IoConsumer :=
  let key := source_key s in
  if existsb (fun k => String.eqb k key) (io_active c) then (false, c)
  else (true, {| io_active := io_active c ++ [key]; io_waiting := io_waiting c ++ [key]; io_running := io_running c |}).

Definition remove_key (key : string) (l : list string) : list string := List.filter (fun k => negb (String.eqb k key)) l.

Inductive io_step : IoConsumer -> IoConsumer -> Prop :=
| io_message s c : io_step c (snd (io_receive s c))
| io_start key c :
    key ∈ io_waiting c -> length (io_running c) < IO_PERMITS ->
    io_step c {| io_active := io_active c; io_waiting := remove_key key (io_waiting c); io_running := io_running c ++ [key] |}
(** The agent is done; the key is released after the run. *)
| io_finish key c :
    key ∈ io_running c ->
    io_step c {| io_active := remove_key key (io_active c); io_waiting := io_waiting c; io_running := remove_key key (io_running c) |}
(** The run panics: the permit is released, the key is not. *)
| io_panic key c :
    key ∈ io_running c ->
    io_step c {| io_active := io_active c; io_waiting := io_waiting c; io_running := remove_key key (io_running c) |}.

Inductive io_reachable : IoConsumer -> Prop :=
| io_init : io_reachable IoConsumer_new
| io_next c c' : io_reachable c -> io_step c c' -> io_reachable c'.

(** The text a message starts a session with, and the session's title. *)
Definition io_text (contents : list string) : option string :=
  let text := default "" (head contents) in
  if String.eqb (trim text) "" then None else Some text.
Definition io_title (text : string) : string := of_chars (take 60 (chars text)).

(** ** Worktrees *)

(** [enter_worktree]; [root] is the project root as the sandbox resolves it. *)
Definition enter_worktree (root : result string string) (git_add : string -> string -> string -> result string unit)
    (input : Value) : result string string :=
  match as_str (index input "name") with
  | None => Err "Missing 'name' parameter"
  | Some name =>
      if String.eqb name "" || contains_str name "/" then Err "worktree name must be non-empty and contain no '/'"
      else
        match root with
        | Err e => Err ("cannot resolve project root: " +:+ e)
        | Ok base =>
            if existsb (fun c => match c with Normal s => String.eqb s ".jia" | _ => false end) (components base)
            then Err "already inside a worktree; nested worktrees are not supported"
            else
              let path := worktree_path base name in
              match git_add base path name with
              | Err e => Err e
              | Ok _ => Ok ("Created worktree '" +:+ name +:+ "' at " +:+ path +:+
                            ". File/shell/git tools now operate within it. Use exit_worktree to return to the main project.")
              end
        end
  end.

(** ** A sub-agent *)

Inductive SubagentType := Explore | PlanAgent | Coder | Verifier.
#[export] Instance SubagentType_eq_dec : EqDecision SubagentType.
Proof. solve_decision. Defined.

Inductive SubagentModel := Primary | Secondary.
Inductive WorktreeBinding := NoWorktree | Enter | Reattach (path : string).
Inductive ToolSet := ReadonlyTools | CoderTools | VerifierTools.

Record SubagentSpec := {
  sp_session : string;
  sp_kind : SubagentType;
  sp_model : SubagentModel;
  sp_allow_guarded : bool;
  sp_max_turns : Z;
  sp_history : list HistoryEntry;
  sp_message : string;
  sp_worktree : WorktreeBinding
}.

(** What the run of a sub-agent is set up with. *)
Record Setup := {
  su_tools : ToolSet;
  su_mode : InteractionMode;
  su_plate : HumanPlate;
  su_worktree : option string;
  su_aux_core : bool
}.

(** Events of the run the collector looks at. *)
Inductive AgentEvent := EvDelta (text : string) | EvRetrying | EvStreamEnd | EvToolCall | EvError (msg : string) | EvDone | EvOther.

Record Collector := { co_response : string; co_attempt_start : nat; co_failure : option string; co_tool_count : Z; co_listening : bool }.

Definition Collector_new : Collector :=
  {| co_response := ""; co_attempt_start := 0; co_failure := None; co_tool_count := 0; co_listening := true |}.

(** The first error is kept and the stream is drained on. *)
Definition collect_event (c : Collector) (e : AgentEvent) : Collector :=
  if co_listening c then
    let set r a f n l := {| co_response := r; co_attempt_start := a; co_failure := f; co_tool_count := n; co_listening := l |} in
    match e with
    | EvDelta t => set (co_response c +:+ t) (co_attempt_start c) (co_failure c) (co_tool_count c) true
    | EvRetrying => set (take_str (co_attempt_start c) (co_response c)) (co_attempt_start c) (co_failure c) (co_tool_count c) true
    | EvStreamEnd => set (co_response c) (len (co_response c)) (co_failure c) (co_tool_count c) true
    | EvToolCall => set (co_response c) (co_attempt_start c) (co_failure c) ((co_tool_count c + 1) mod 2 ^ 32)%Z true
    | EvError msg => set (co_response c) (co_attempt_start c) (match co_failure c with None => Some msg | f => f end) (co_tool_count c) true
    | EvDone => set (co_response c) (co_attempt_start c) (co_failure c) (co_tool_count c) false
    | EvOther => c
    end
  else c.

Definition collect_events (es : list AgentEvent) : Collector := foldl collect_event Collector_new es.

(** The progress messages sent to the parent. *)
Definition progress_of (es : list AgentEvent) : list string :=
  snd (foldl (fun '(c, out) e =>
         let c' := collect_event c e in
         (c', match e with EvToolCall => if co_listening c then (out ++ [pretty (co_tool_count c') +:+ " tool calls"])%list else out
              | _ => out end)) (Collector_new, []) es).

(** The last line that is not blank, trimmed, is the verdict, exactly. *)
Definition parse_verdict (response : string) : option Verdict :=
  match List.find (fun l => negb (String.eqb (trim l) "")) (reverse (lines response)) with
  | Some l => if String.eqb (trim l) "Verdict: PASS" then Some VPass
              else if String.eqb (trim l) "Verdict: FAIL" then Some VFail else None
  | None => None
  end.

Record SubagentReport := {
  re_response : string;
  re_history : list HistoryEntry;
  re_worktree_path : option string;
  re_worktree_branch : option string;
  re_verdict : option Verdict
}.

(** What became of the agent's run. *)
Record RunResult := { rr_events : option (list AgentEvent); rr_history : list HistoryEntry; rr_cancelled : bool }.

Section Run.
(** The matrix of the parent, and the one built for a worktree. *)
Context (parent : PermissionMatrix) (worktree_matrix : string -> PermissionMatrix).
Context (root : result string string) (git_add : string -> string -> string -> result string unit) (is_dir : string -> bool).
(** The first group of a random UUID, whether an auxiliary model is configured,
    and the agent itself. *)
Context (uuid_head : string) (has_aux : bool) (run : Setup -> SubagentSpec -> RunResult).

(** The worktree a sub-agent works in, with its branch when it is new. *)
Definition bind_worktree (w : WorktreeBinding) : result string (option string * option string) :=
  match w with
  | NoWorktree => Ok (None, None)
  | Enter =>
      let branch := "coder-" +:+ uuid_head in
      match enter_worktree root git_add (Obj [("name", Str branch)]) with
      | Err e => Err ("Coder sub-agent requires worktree isolation, but enter_worktree failed: " +:+ e)
      | Ok _ => Ok (Some (worktree_path (workspace_root (sandbox parent)) branch), Some branch)
      end
  | Reattach path =>
      if is_dir path then Ok (Some path, None)
      else Err ("Coder worktree " +:+ path +:+ " no longer exists; cannot resume — delegate a fresh Coder sub-agent.")
  end.

Definition subagent_plate (kind : SubagentType) (allow_guarded : bool) (m : PermissionMatrix) : HumanPlate :=
  {| gates := replicate 8 Open; closed_by_principle := 0; permissions := m;
     confirmation_override := Some allow_guarded; verifier_shell_only := bool_decide (kind = Verifier) |}.

Definition setup_of (spec : SubagentSpec) (worktree : option string) : Setup :=
  {| su_tools := match sp_kind spec with Coder => CoderTools | Verifier => VerifierTools | _ => ReadonlyTools end;
     su_mode := match sp_kind spec with Coder | Verifier => Auto | _ => Plan end;
     su_plate := subagent_plate (sp_kind spec) (sp_allow_guarded spec)
                   (match worktree with Some path => worktree_matrix path | None => parent end);
     su_worktree := worktree;
     su_aux_core := match sp_model spec with Secondary => has_aux | Primary => false end |}.

(** The report of a finished run. *)
Definition report_of (spec : SubagentSpec) (wt branch : option string) (r : RunResult) : result string SubagentReport :=
  let '(response, error) :=
    match rr_events r with
    | Some es => (co_response (collect_events es), co_failure (collect_events es))
    | None => ("", Some "sub-agent event collector failed")
    end in
  if rr_cancelled r then Err "Sub-agent cancelled"
  else
    match String.eqb (trim response) "", error with
    | true, Some e => Err e
    | true, None => Err "Sub-agent returned empty response"
    | false, e =>
        let response := match e with
                        | Some e => response +:+ nl +:+ nl +:+ "[注意: 子代理终止于错误 — " +:+ e +:+ "]"
                        | None => response end in
        Ok {| re_response := response; re_history := rr_history r; re_worktree_path := wt; re_worktree_branch := branch;
              re_verdict := if bool_decide (sp_kind spec = Verifier) then parse_verdict response else None |}
    end.

(** [run_subagent]; [permit] tells whether a slot was free in time.  The batch
    recovers after every run that was not cancelled. *)
Definition run_subagent (permit : bool) (spec : SubagentSpec) : result string SubagentReport * bool :=
  if negb permit then (Err "Timed out waiting for sub-agent slot", false)
  else
    match bind_worktree (sp_worktree spec) with
    | Err e => (Err e, false)
    | Ok (wt, branch) =>
        let r := run (setup_of spec wt) spec in
        (report_of spec wt branch r, negb (rr_cancelled r))
    end.
End Run.

(** ** Lemmas: permits *)

Definition permit_ok (limits : nat) (s : SubagentBatch * nat) : Prop :=
  let total := Z.of_nat (available (fst s) + snd s) in
  let m := backoff_multiplier (fst s) in
  (1 <= m <= 16)%Z /\ (5 <= total)%Z /\ (total + m <= 6 + 8 * Z.of_nat limits)%Z.

Definition limits_of (ops : list PermitOp) : nat :=
  length (List.filter (fun op => match op with RateLimitedAt _ => true | _ => false end) ops).

Lemma permit_step_ok n s op s' :
  permit_step s op s' -> permit_ok n s -> permit_ok (n + limits_of [op]) s'.
Proof.
  unfold permit_ok. intros Hs. destruct Hs as [b b' held Ha|b held|now b held|now b held];
    cbn [fst snd limits_of List.filter length release on_rate_limited with_available available backoff_multiplier].
  - unfold acquire in Ha. destruct (available b) eqn:E; [done|]. injection Ha as <-. cbn. lia.
  - lia.
  - lia.
  - unfold maybe_recover, recovers. destruct (_ && _) eqn:E; [|lia].
    apply andb_true_iff in E as [_ E%Z.ltb_lt].
    cbn [fst snd available backoff_multiplier]. destruct (available b <? max_concurrency)%nat; lia.
Qed.

Lemma permit_steps_ok n s ops s' :
  permit_steps s ops s' -> permit_ok n s -> permit_ok (n + limits_of ops) s'.
Proof.
  intros Hs. revert n. induction Hs as [s|s op s' ops s'' H1 _ IH]; intros n Hok; [by rewrite Nat.add_0_r|].
  replace (n + limits_of (op :: ops)) with (n + limits_of [op] + limits_of ops).
  - by eapply IH, permit_step_ok.
  - unfold limits_of. cbn. destruct op; cbn; lia.
Qed.

(** Executing a list of operations, as far as permits allow. *)
Fixpoint permit_run (s : SubagentBatch * nat) (ops : list PermitOp) : option (SubagentBatch * nat) :=
  match ops with
  | [] => Some s
  | op :: ops =>
      let '(b, held) := s in
      match op with
      | Acquired => match acquire b with Some b' => permit_run (b', S held) ops | None => None end
      | Released => match held with S h => permit_run (release b, h) ops | O => None end
      | RateLimitedAt now => permit_run (on_rate_limited now b, held) ops
      | RecoverAt now => permit_run (maybe_recover now b, held) ops
      end
  end.

Lemma permit_run_steps s ops s' : permit_run s ops = Some s' -> permit_steps s ops s'.
Proof.
  revert s. induction ops as [|op ops IH]; intros [b held]; cbn; [intros [= ->]; constructor|].
  destruct op.
  - destruct (acquire b) eqn:E; [|done]. intros H. econstructor; [by constructor|by apply IH].
  - destruct held; [done|]. intros H. econstructor; [by constructor|by apply IH].
  - intros H. econstructor; [by constructor|by apply IH].
  - intros H. econstructor; [by constructor|by apply IH].
Qed.

(** A rate limit leaves the capacity as it is. *)
Example rate_limit_keeps_capacity b now : available (on_rate_limited now b) = available b.
Proof. reflexivity. Qed.

(** The bound on the growth looks at the free permits only: nine sub-agents run
    at once. *)
Example permits_exceed_max :
  exists b, permit_steps (SubagentBatch_new 0, 0)
    (replicate 5 Acquired ++ [RateLimitedAt 1; RateLimitedAt 1; RateLimitedAt 1] ++
     [RecoverAt 200; Acquired; RecoverAt 400; Acquired; RecoverAt 600; Acquired; RecoverAt 800; Acquired]) (b, 9).
Proof. eexists. apply permit_run_steps. vm_compute. reflexivity. Qed.

(** The three minutes run from the last recovery: a rate limit a second ago
    does not stop it. *)
Example recovers_right_after_limit : recovers 1001 (on_rate_limited 1000 (SubagentBatch_new 0)) = true.
Proof. reflexivity. Qed.

(** ** Lemmas: incoming messages *)

Lemma elem_remove_key k key l : k ∈ remove_key key l <-> k ∈ l /\ k <> key.
Proof.
  unfold remove_key. rewrite !list_elem_of_In, filter_In, negb_true_iff, String.eqb_neq. done.
Qed.

Lemma NoDup_remove_key key l : NoDup l -> NoDup (remove_key key l).
Proof.
  unfold remove_key. induction 1 as [|k l Hk Hl IH]; cbn; [constructor|].
  destruct (negb _); [|done]. constructor; [|done]. intros Hin. apply Hk.
  by apply elem_remove_key in Hin as [? _].
Qed.

Lemma remove_key_length key l : length (remove_key key l) <= length l.
Proof. unfold remove_key. induction l as [|k l IH]; cbn; [lia|]. destruct (negb _); cbn; lia. Qed.

(** A source has at most one task, and only while it is marked active. *)
Definition io_ok (c : IoConsumer) : Prop :=
  NoDup (io_active c) /\ NoDup (io_waiting c) /\ NoDup (io_running c) /\
  (forall k, k ∈ io_waiting c -> k ∉ io_running c) /\
  (forall k, k ∈ io_waiting c \/ k ∈ io_running c -> k ∈ io_active c) /\
  length (io_running c) <= IO_PERMITS.

Lemma existsb_eqb_elem key l : existsb (fun k => String.eqb k key) l = true <-> key ∈ l.
Proof.
  rewrite existsb_exists. setoid_rewrite String.eqb_eq. rewrite list_elem_of_In. split; [by intros (? & ? & <-)|eauto].
Qed.

Lemma io_step_ok c c' : io_step c c' -> io_ok c -> io_ok c'.
Proof.
  intros Hs (Ha & Hw & Hr & Hd & Hi & Hn).
  destruct Hs as [s c|key c Hk Hl|key c Hk|key c Hk]; unfold io_ok; cbn.
  - unfold io_receive. destruct (existsb _ _) eqn:E; [done|]. cbn.
    assert (Hkey : source_key s ∉ io_active c).
    { intros Hin%existsb_eqb_elem. congruence. }
    rewrite !NoDup_app. setoid_rewrite elem_of_app. setoid_rewrite list_elem_of_singleton.
    repeat split; auto using NoDup_singleton; try naive_solver.
  - rewrite NoDup_app. setoid_rewrite elem_remove_key. setoid_rewrite elem_of_app. setoid_rewrite list_elem_of_singleton.
    rewrite length_app. cbn.
    repeat split; auto using NoDup_singleton, NoDup_remove_key; try naive_solver lia.
  - setoid_rewrite elem_remove_key. pose proof (remove_key_length key (io_running c)).
    repeat split; auto using NoDup_remove_key; try naive_solver lia.
  - setoid_rewrite elem_remove_key. pose proof (remove_key_length key (io_running c)).
    repeat split; auto using NoDup_remove_key; try naive_solver lia.
Qed.

Lemma io_reachable_ok c : io_reachable c -> io_ok c.
Proof.
  induction 1 as [|c c' _ IH Hs]; [|by eapply io_step_ok].
  repeat split; cbn; try constructor; try set_solver. unfold IO_PERMITS. lia.
Qed.

(** Once a run panicked, every later message of its source is dropped. *)
Lemma stuck_step key c c' :
  io_step c c' -> key ∈ io_active c -> key ∉ io_waiting c -> key ∉ io_running c ->
  key ∈ io_active c' /\ key ∉ io_waiting c' /\ key ∉ io_running c'.
Proof.
  intros Hs Ha Hw Hr. destruct Hs as [s c|k c Hk Hl|k c Hk|k c Hk]; cbn.
  - unfold io_receive. destruct (existsb _ _) eqn:E; [done|]. cbn.
    assert (source_key s ∉ io_active c) by (intros Hin%existsb_eqb_elem; congruence). set_solver.
  - rewrite elem_remove_key. set_solver.
  - rewrite !elem_remove_key. set_solver.
  - rewrite !elem_remove_key. set_solver.
Qed.

(** ** Lemmas: the collector and the verdict *)

Lemma split_inclusive_last d s (c : ascii) : c <> d ->
  exists ps q, split_inclusive d (s +:+ String c "") = (ps ++ [q +:+ String c ""])%list.
Proof.
  intros Hc. induction s as [|e s (ps & q & IH)]; cbn [String.append split_inclusive].
  - destruct (Ascii.eqb_spec d c) as [->|_]; [done|]. by exists [], "".
  - rewrite IH. destruct (Ascii.eqb d e); [by exists (String e "" :: ps), q|].
    destruct ps as [|p ps]; [by exists [], (String e q)|by exists (String e p :: ps), q].
Qed.

Lemma chars_snoc s c : is_cont_byte c = false -> chars (s +:+ String c "") = (chars s ++ [String c ""])%list.
Proof.
  intros Hc. induction s as [|b s IH]; [done|]. cbn [String.append chars]. rewrite IH.
  destruct (chars s) as [|x xs]; cbn; [by rewrite Hc|]. by destruct (starts_with_cont x).
Qed.

Lemma drop_while_snoc {A} (p : A -> bool) l x : p x = false ->
  exists l', drop_while p (l ++ [x]) = (l' ++ [x])%list.
Proof.
  intros Hx. induction l as [|y l IH]; cbn; [rewrite Hx; by exists []|].
  destruct (p y); [done|by exists (y :: l)].
Qed.

Lemma trim_last s c : is_graph c = true -> exists t, trim (s +:+ String c "") = t +:+ String c "".
Proof.
  intros Hg. pose proof (graph_not_cont c Hg) as Hc. pose proof (graph_not_whitespace c Hg) as Hw.
  assert (Hst : exists t, trim_start (s +:+ String c "") = t +:+ String c "").
  { unfold trim_start. rewrite chars_snoc by done. destruct (drop_while_snoc is_whitespace (chars s) _ Hw) as [l ->].
    unfold of_chars. rewrite concat_str_app. by eexists. }
  destruct Hst as [t Ht]. unfold trim. rewrite Ht. unfold trim_end. rewrite chars_snoc by done.
  rewrite reverse_snoc. cbn [drop_while]. rewrite Hw. rewrite reverse_cons, reverse_involutive.
  unfold of_chars. rewrite concat_str_app. by eexists.
Qed.

Lemma strip_eol_last q c : c <> newline -> strip_eol (q +:+ String c "") = q +:+ String c "".
Proof.
  intros Hc. unfold strip_eol. destruct (strip_suffix_str _ _) as [l|] eqn:E; [|done].
  exfalso. unfold strip_suffix_str in E. destruct (ends_with _ _) eqn:He; [|done].
  unfold ends_with in He. apply andb_true_iff in He as [_ He%String.eqb_eq].
  rewrite app_len in He. cbn in He. replace (len q + 1 - 1) with (len q) in He by lia.
  rewrite drop_app_str in He. congruence.
Qed.

(** The last line of a text that ends in a visible character. *)
Lemma parse_verdict_last s c : is_graph c = true ->
  exists t, parse_verdict (s +:+ String c "") =
    let l := t +:+ String c "" in
    if String.eqb l "Verdict: PASS" then Some VPass else if String.eqb l "Verdict: FAIL" then Some VFail else None.
Proof.
  intros Hg. assert (Hn : c <> newline) by (intros ->; done).
  destruct (split_inclusive_last newline s c Hn) as (ps & q & Hq).
  destruct (trim_last q c Hg) as [t Ht]. exists t.
  unfold parse_verdict, lines. rewrite Hq, fmap_app. cbn [fmap list_fmap]. rewrite reverse_snoc.
  rewrite strip_eol_last by done. cbn [List.find]. rewrite Ht.
  replace (String.eqb (t +:+ String c "") "") with false by (by destruct t).
  cbn [negb]. cbv iota. by rewrite Ht.
Qed.

(** A report that carries the note of an error has no verdict. *)
Lemma note_no_verdict response e :
  parse_verdict (response +:+ nl +:+ nl +:+ "[注意: 子代理终止于错误 — " +:+ e +:+ "]") = None.
Proof.
  replace (response +:+ nl +:+ nl +:+ "[注意: 子代理终止于错误 — " +:+ e +:+ "]")
    with ((response +:+ nl +:+ nl +:+ "[注意: 子代理终止于错误 — " +:+ e) +:+ "]") by (by rewrite !app_assoc_str).
  destruct (parse_verdict_last (response +:+ nl +:+ nl +:+ "[注意: 子代理终止于错误 — " +:+ e) "]"%char eq_refl) as [t ->].
  cbv zeta.
  assert (Hl : forall l x, l +:+ String "]" "" = x -> ends_with x "]" = true) by (intros l x <-; apply ends_with_app).
  destruct (String.eqb_spec (t +:+ "]") "Verdict: PASS") as [E|_]; [by apply Hl in E|].
  destruct (String.eqb_spec (t +:+ "]") "Verdict: FAIL") as [E|_]; [by apply Hl in E|]. done.
Qed.

(** One answer of the model: attempts that failed and were retried, then the
    attempt that stood. *)
Record AnswerText := { failed_attempts : list (list string); final_attempt : list string }.

Definition answer_events (a : AnswerText) : list AgentEvent :=
  (concat (map (fun ds => map EvDelta ds ++ [EvRetrying])%list (failed_attempts a)) ++
   map EvDelta (final_attempt a) ++ [EvStreamEnd])%list.

Definition heard_at (c : Collector) (base : string) : Prop :=
  co_response c = base /\ co_attempt_start c = len base /\ co_listening c = true.

Lemma collect_deltas ds c : co_listening c = true ->
  foldl collect_event c (map EvDelta ds) =
    {| co_response := co_response c +:+ concat_str ds; co_attempt_start := co_attempt_start c;
       co_failure := co_failure c; co_tool_count := co_tool_count c; co_listening := true |}.
Proof.
  revert c. induction ds as [|d ds IH]; intros [r a f n l] Hl; cbn in *; subst l.
  - by rewrite app_nil_r_str.
  - unfold collect_event at 2. cbn. rewrite IH by done. cbn. by rewrite app_assoc_str.
Qed.

Lemma collect_failed dss c base : heard_at c base ->
  let c' := foldl collect_event c (concat (map (fun ds => map EvDelta ds ++ [EvRetrying])%list dss)) in
  heard_at c' base /\ co_failure c' = co_failure c.
Proof.
  revert c. induction dss as [|ds dss IH]; intros c Hc; [done|].
  cbn [map concat]. cbv zeta. rewrite <- app_assoc, foldl_app, collect_deltas by apply Hc.
  destruct Hc as (Hr & Ha & Hl). cbn [app foldl]. unfold collect_event at 2. cbn [co_listening co_response co_attempt_start].
  edestruct IH as [H1 H2]; [|split; [exact H1|exact H2]].
  rewrite Hr, Ha, take_app_str. done.
Qed.

Lemma collect_answer a c base : heard_at c base ->
  let c' := foldl collect_event c (answer_events a) in
  heard_at c' (base +:+ concat_str (final_attempt a)) /\ co_failure c' = co_failure c.
Proof.
  intros Hc. unfold answer_events. cbv zeta. rewrite !foldl_app.
  destruct (collect_failed (failed_attempts a) c base Hc) as [(Hr & Ha & Hl) Hf].
  rewrite collect_deltas by done. cbn [foldl]. unfold collect_event at 1. cbn. by rewrite Hr, Hf.
Qed.

(** Whatever was retried, the response is the text of the attempts that stood. *)
Lemma collect_answers ans :
  co_response (collect_events (concat (map answer_events ans))) = concat_str (map (fun a => concat_str (final_attempt a)) ans) /\
  co_failure (collect_events (concat (map answer_events ans))) = None.
Proof.
  unfold collect_events.
  assert (Hgen : forall c base, heard_at c base ->
    let c' := foldl collect_event c (concat (map answer_events ans)) in
    heard_at c' (base +:+ concat_str (map (fun a => concat_str (final_attempt a)) ans)) /\ co_failure c' = co_failure c).
  { induction ans as [|a ans IH]; intros c base Hc; cbn [map concat foldl]; cbv zeta.
    - cbn. by rewrite app_nil_r_str.
    - rewrite foldl_app. destruct (collect_answer a c base Hc) as [H1 H2].
      destruct (IH _ _ H1) as [H3 H4]. cbn. rewrite app_assoc_str in H3. split; [exact H3|congruence]. }
  destruct (Hgen Collector_new "") as [(Hr & _) Hf]; [done|]. done.
Qed.

(** ** Lemmas: calls of a sub-agent at the human plate *)

Create HintDb unattended.

Section Unattended.
Context (env : Env) (p : HumanPlate) (session_id : string) (tool : BaseTool) (input : Value).
Context (granted : bool) (Hov : confirmation_override p = Some granted).

(** Nobody is asked, and without the grant nothing is remembered. *)
Definition unattended {A} (m : G A) : Prop := forall w r w', m w = Some (r, w') ->
  requests w' = requests w /\ answers w' = answers w /\ pending_confirmations w' = pending_confirmations w /\
  (granted = false -> session_approvals w' = session_approvals w).

Lemma unattended_ret {A} (a : A) : unattended (mret a).
Proof. by intros w r w' [= <- <-]. Qed.
Lemma unattended_throw {A} e : unattended (throw (A := A) e).
Proof. by intros w r w' [= <- <-]. Qed.
Lemma unattended_emit e : unattended (emit e).
Proof. by intros w r w' [= <- <-]. Qed.

Lemma unattended_bind {A B} (m : G A) (k : A -> G B) : unattended m -> (forall a, unattended (k a)) -> unattended (m ≫= k).
Proof.
  intros Hm Hk w r w' Hb. apply G_bind_Some in Hb as [(a & w1 & H1 & H2)|(e & H1 & ->)]; [|by apply Hm in H1].
  apply Hm in H1 as (E1 & E2 & E3 & E4). apply Hk in H2 as (F1 & F2 & F3 & F4).
  rewrite F1, F2, F3. do 3 (split; [done|]). intros Hg. by rewrite F4, E4.
Qed.

Lemma unattended_confirm reason : unattended (confirm_gate env p session_id tool input reason).
Proof.
  intros w r w'. unfold confirm_gate, mbind, G_bind, get_world. case_bool_decide; [apply unattended_emit|].
  unfold request_confirmation. rewrite Hov. destruct granted; cbn; by intros [= <- <-].
Qed.

#[local] Hint Resolve unattended_ret unattended_throw unattended_emit unattended_confirm : unattended.

Lemma unattended_walk chain k : unattended k -> unattended (walk_chain env p session_id tool input chain k).
Proof.
  intros Hk. induction chain as [|[rule|reason| |] chain IH]; cbn [walk_chain]; auto with unattended.
  - destruct (contains_str rule "deny"); auto with unattended.
  - apply unattended_bind; auto with unattended.
Qed.

Lemma unattended_sandbox guarded geju :
  (forall g, unattended (guarded g)) -> unattended (prepare_sandbox env p guarded geju tool input).
Proof.
  intros Hg. unfold prepare_sandbox. destruct (_ || _); [apply Hg|].
  destruct (sandbox_input _ _ _ _ _ _); [apply unattended_ret|]. apply unattended_bind; auto with unattended.
Qed.

Lemma unattended_guarded fuel geju : unattended (prepare_guarded env p session_id fuel tool input geju).
Proof.
  revert geju. induction fuel as [|fuel IH]; intros geju; cbn [prepare_guarded]; [done|].
  do 3 (destruct (_ && _); [apply unattended_throw|]). apply unattended_walk, unattended_sandbox, IH.
Qed.

Lemma unattended_mode fuel geju : unattended (prepare_mode env p session_id fuel geju tool input).
Proof.
  unfold prepare_mode. destruct (execution_mode geju).
  - destruct (negb _); [apply unattended_guarded|apply unattended_ret].
  - apply unattended_guarded.
  - apply unattended_sandbox, unattended_guarded.
  - destruct (gate_is_open p ShangMen); [apply unattended_guarded|]. apply unattended_bind; auto with unattended.
Qed.

Lemma unattended_prepare fuel geju : unattended (prepare env p session_id fuel geju tool input).
Proof.
  unfold prepare. apply unattended_bind; [|intros _].
  - unfold verifier_gate. destruct (_ && _); [|apply unattended_ret].
    destruct (verify_verifier_command _ _); [apply unattended_ret|]. apply unattended_bind; auto with unattended.
  - destruct (chain_check _ _ _ _ _ _); [apply unattended_mode|apply unattended_bind; auto with unattended|].
    destruct (bool_decide _); [apply unattended_mode|]. apply unattended_bind; auto using unattended_guarded with unattended.
Qed.
End Unattended.

(** Whether a chain asks before it isolates, and whether it holds a gate that
    can end in a question. *)
Fixpoint asks_first (chain : list ApprovalGate) : bool :=
  match chain with
  | [] | SandboxIsolation :: _ => false
  | UserConfirmation _ :: _ => true
  | _ :: rest => asks_first rest
  end.

Definition may_ask (chain : list ApprovalGate) : bool :=
  existsb (fun g => is_user_confirmation g || is_sandbox_gate g) chain.

Section Refused.
Context (env : Env) (p : HumanPlate) (session_id : string) (tool : BaseTool) (input : Value).
Context (Hov : confirmation_override p = Some false).

(** Without the grant a confirmation that was not remembered is refused. *)
Lemma confirm_refused reason w w' : approved_keys session_id w = ∅ ->
  confirm_gate env p session_id tool input reason w <> Some (Ok (), w').
Proof.
  intros Hw. unfold confirm_gate, mbind, G_bind, get_world. rewrite Hw, bool_decide_eq_false_2 by set_solver.
  unfold request_confirmation. rewrite Hov. cbn. done.
Qed.

Lemma walk_refused chain k w pc w' : approved_keys session_id w = ∅ ->
  walk_chain env p session_id tool input chain k w = Some (Ok pc, w') ->
  asks_first chain = false /\ (may_ask chain = false \/ k w = Some (Ok pc, w')).
Proof.
  intros Hw. induction chain as [|[rule|reason| |] chain IH]; cbn [walk_chain asks_first].
  - intros _. split; [done|by left].
  - destruct (contains_str rule "deny"); [done|]. exact IH.
  - intros Hb. apply G_bind_Some in Hb as [([] & w1 & H1 & _)|(e & _ & ?)]; [|done].
    by apply confirm_refused in H1.
  - intros Hk. split; [done|by right].
  - exact IH.
Qed.

Lemma guarded_refused fuel geju w pc w' : approved_keys session_id w = ∅ ->
  prepare_guarded env p session_id fuel tool input geju w = Some (Ok pc, w') ->
  asks_first (approval_chain geju) = false /\
  (sandbox_mode (permissions p) = Disabled -> may_ask (approval_chain geju) = false).
Proof.
  intros Hw. destruct fuel as [|fuel]; [done|]. cbn [prepare_guarded].
  do 3 (destruct (_ && _); [done|]). intros [Ha Hk]%walk_refused; [|done].
  split; [done|]. intros Hdis. destruct Hk as [?|Hk]; [done|]. exfalso.
  unfold prepare_sandbox in Hk. rewrite Hdis, orb_true_r in Hk.
  destruct fuel as [|fuel]; [done|]. cbn [prepare_guarded] in Hk.
  do 3 (destruct (_ && _) in Hk; [done|]). by apply walk_refused in Hk as [Hk _].
Qed.

Lemma guarded_ask_refused fuel reason geju w pc w' : approved_keys session_id w = ∅ ->
  prepare_guarded env p session_id fuel tool input (with_mode Guarded [UserConfirmation reason] geju) w <> Some (Ok pc, w').
Proof. by intros Hw [? _]%guarded_refused. Qed.

Lemma mode_refused fuel geju w pc w' : approved_keys session_id w = ∅ ->
  prepare_mode env p session_id fuel geju tool input w = Some (Ok pc, w') ->
  execution_mode geju <> Denied /\
  (execution_mode geju = Guarded -> asks_first (approval_chain geju) = false) /\
  (execution_mode geju = Sandbox -> sandbox_mode (permissions p) <> Disabled).
Proof.
  intros Hw. unfold prepare_mode. destruct (execution_mode geju); intros Hk.
  - done.
  - apply guarded_refused in Hk as [? _]; done.
  - split; [done|]. split; [done|]. intros _ Hdis. unfold prepare_sandbox in Hk.
    rewrite Hdis, orb_true_r in Hk. by apply guarded_ask_refused in Hk.
  - destruct (gate_is_open p ShangMen); [by apply guarded_ask_refused in Hk|].
    apply G_bind_Some in Hk as [(a & w1 & _ & ?)|(e & _ & ?)]; done.
Qed.
End Refused.

Lemma asks_first_app chain l : asks_first chain = true -> asks_first (chain ++ l) = true.
Proof. by induction chain as [|[] chain IH]; cbn. Qed.

Lemma may_ask_app chain reason : may_ask (chain ++ [UserConfirmation reason]) = true.
Proof. unfold may_ask. rewrite existsb_app. cbn. by rewrite orb_true_r. Qed.

Lemma may_ask_confirmation chain : existsb is_user_confirmation chain = true -> may_ask chain = true.
Proof.
  unfold may_ask. rewrite !existsb_exists. intros (g & ? & Hg). exists g. by rewrite Hg.
Qed.

(** What a report's verdict stands for, and the worktree it names. *)
Lemma report_verdict spec wt branch r rep v :
  report_of spec wt branch r = Ok rep -> re_verdict rep = Some v ->
  sp_kind spec = Verifier /\
  exists es, rr_events r = Some es /\ co_failure (collect_events es) = None /\
    parse_verdict (co_response (collect_events es)) = Some v.
Proof.
  unfold report_of. destruct (rr_events r) as [es|]; destruct (rr_cancelled r); try done.
  destruct (String.eqb _ _); [by destruct (co_failure _)|].
  intros Hr%(f_equal (fun x => match x with Ok y => y | Err _ => rep end)). rewrite <- Hr. cbn [re_verdict].
  case_bool_decide as Hk; [|done]. destruct (co_failure _) eqn:Hf; [by rewrite note_no_verdict|]. eauto.
Qed.

Lemma report_worktree spec wt branch r rep :
  report_of spec wt branch r = Ok rep -> re_worktree_path rep = wt /\ re_worktree_branch rep = branch.
Proof.
  unfold report_of. destruct (rr_events r) as [es|]; destruct (rr_cancelled r); try done.
  destruct (String.eqb _ _); [by destruct (co_failure _)|]. by intros [= <-].
Qed.

(** ** Properties *)

(** A sub-agent never reaches the user: whatever it calls, no confirmation
    is requested, no answer is taken and no pending confirmation changes.
    Without the grant of its task, no approval is remembered either, and in a
    session without approvals no call is cleared that the engine denied, that
    its chain asks about before isolating, or that needs a sandbox while
    sandboxes are disabled; and a verifier runs only allowed commands. *)
Theorem subagent_unattended parent worktree_matrix has_aux spec wt env session fuel geju tool input w r w'
    (Hrun : prepare env (su_plate (setup_of parent worktree_matrix has_aux spec wt)) session fuel geju tool input w
            = Some (r, w')) :
  let p := su_plate (setup_of parent worktree_matrix has_aux spec wt) in
  requests w' = requests w /\ answers w' = answers w /\ pending_confirmations w' = pending_confirmations w /\
  (sp_allow_guarded spec = false ->
    session_approvals w' = session_approvals w /\
    (approved_keys session w = ∅ -> is_ok r = true ->
      execution_mode geju <> Denied /\
      (execution_mode geju = Guarded -> asks_first (approval_chain geju) = false) /\
      (execution_mode geju = Sandbox -> sandbox_mode (permissions p) <> Disabled))) /\
  (sp_kind spec = Verifier -> t_name tool = "shell" -> is_ok r = true ->
    verify_verifier_command (shell_split env) (default "" (as_str (index input "command"))) = Ok ()).
Proof.
  intros p. assert (Hov : confirmation_override p = Some (sp_allow_guarded spec)) by done.
  destruct (unattended_prepare env p session tool input _ Hov fuel geju w r w' Hrun) as (H1 & H2 & H3 & H4).
  do 3 (split; [done|]). split.
  - intros Hg. split; [auto|]. intros Hw Hok. destruct r as [pc|e]; [|done]. rewrite Hg in Hov.
    change (prepare env p session fuel geju tool input w = Some (Ok pc, w')) in Hrun.
    unfold prepare in Hrun. apply G_bind_Some in Hrun as [([] & w1 & Hv & Hk)|(e & _ & ?)]; [|done].
    apply verifier_gate_ok in Hv as [-> _].
    destruct (chain_check _ _ _ _ _ _).
    + by eapply mode_refused.
    + apply G_bind_Some in Hk as [(a & w1 & _ & ?)|(e & _ & ?)]; done.
    + case_bool_decide as Hd; [by eapply mode_refused|].
      apply G_bind_Some in Hk as [([] & w1 & [= <-] & Hk)|(e & _ & ?)]; [|done].
      eapply guarded_refused in Hk as [Ha Hm]; [|done..]. cbn [with_mode approval_chain] in Ha, Hm.
      split; [done|]. split.
      * intros _. destruct (existsb is_user_confirmation (approval_chain geju)); [done|].
        destruct (asks_first (approval_chain geju)) eqn:E; [|done]. by rewrite asks_first_app in Ha.
      * intros _ Hdis. specialize (Hm Hdis).
        destruct (existsb is_user_confirmation (approval_chain geju)) eqn:E;
          [by rewrite may_ask_confirmation in Hm|by rewrite may_ask_app in Hm].
  - intros Hk Hn Hok. destruct r as [pc|e]; [|done].
    unfold prepare in Hrun. apply G_bind_Some in Hrun as [([] & w1 & Hv & _)|(e & _ & ?)]; [|done].
    apply verifier_gate_ok in Hv as [_ Hv]. apply Hv; [|done]. cbn. by rewrite bool_decide_eq_true_2.
Qed.

Lemma bind_bound parent root git_add is_dir uuid w wt branch :
  bind_worktree parent root git_add is_dir uuid w = Ok (wt, branch) ->
  (wt = None <-> w = NoWorktree) /\ (forall path, w = Reattach path -> is_dir path = true /\ wt = Some path /\ branch = None).
Proof.
  unfold bind_worktree. destruct w as [| |path].
  - by intros [= <- <-].
  - destruct (enter_worktree _ _ _); [|done]. by intros [= <- <-].
  - destruct (is_dir path) eqn:E; [|done]. intros [= <- <-]. split; [done|]. by intros ? [= <-].
Qed.

Lemma bind_failed parent root git_add is_dir uuid w e : bind_worktree parent root git_add is_dir uuid w = Err e ->
  match w with
  | NoWorktree => False
  | Enter => exists why, enter_worktree root git_add (Obj [("name", Str ("coder-" +:+ uuid))]) = Err why /\
      e = "Coder sub-agent requires worktree isolation, but enter_worktree failed: " +:+ why
  | Reattach path => is_dir path = false /\
      e = "Coder worktree " +:+ path +:+ " no longer exists; cannot resume — delegate a fresh Coder sub-agent."
  end.
Proof.
  unfold bind_worktree. destruct w as [| |path]; [done| |].
  - destruct (enter_worktree _ _ _) as [|why]; [done|]. intros [= <-]. by exists why.
  - destruct (is_dir path); [done|]. by intros [= <-].
Qed.

(** The last line of a text that is not blank says the verdict. *)
Definition verdict_line (v : Verdict) : string := match v with VPass => "Verdict: PASS" | VFail => "Verdict: FAIL" end.
Definition says_verdict (text : string) (v : Verdict) : Prop :=
  exists before line after, lines text = (before ++ line :: after)%list /\ trim line = verdict_line v /\ Forall (fun l => trim l = "") after.

Lemma find_last {A} (f : A -> bool) l x : List.find f (reverse l) = Some x <->
  exists before after, l = (before ++ x :: after)%list /\ f x = true /\ Forall (fun y => f y = false) after.
Proof.
  induction l as [|y l IH] using rev_ind.
  - split; [done|]. intros (b & a & E & _). by destruct b.
  - rewrite reverse_snoc. cbn [List.find]. destruct (f y) eqn:Hy.
    + split; [intros [= <-]; exists l, []; by split_and!|]. intros (b & a & E & Hx & Ha).
      destruct a as [|z a _] using rev_ind; [apply app_inj_tail in E as [_ ->]; done|].
      rewrite app_comm_cons, app_assoc in E. apply app_inj_tail in E as [_ <-]. apply Forall_app in Ha as [_ Ha]. inversion Ha; congruence.
    + rewrite IH. split.
      * intros (b & a & -> & Hx & Ha). exists b, (a ++ [y])%list. rewrite <- app_assoc. split_and!; [done|done|]. apply Forall_app. by repeat constructor.
      * intros (b & a & E & Hx & Ha). destruct a as [|z a _] using rev_ind; [apply app_inj_tail in E as [_ ->]; congruence|].
        rewrite app_comm_cons, app_assoc in E. apply app_inj_tail in E as [-> _]. apply Forall_app in Ha as [Ha _]. by exists b, a.
Qed.

Lemma parse_verdict_says text v : parse_verdict text = Some v <-> says_verdict text v.
Proof.
  unfold parse_verdict, says_verdict. set (f := fun l => negb (String.eqb (trim l) "")).
  assert (Hf : forall l, f l = false <-> trim l = "") by (intros l; unfold f; by rewrite negb_false_iff, String.eqb_eq).
  assert (Hline : forall l, trim l = verdict_line v -> f l = true) by (intros l E; unfold f; rewrite E; by destruct v).
  split.
  - destruct (List.find f _) as [l|] eqn:E; [|done]. apply find_last in E as (b & a & El & _ & Ha). intros Hv.
    exists b, l, a. split; [done|]. split; [|by eapply Forall_impl; [exact Ha|intros; by apply Hf]].
    destruct (String.eqb_spec (trim l) "Verdict: PASS"); [by injection Hv as <-|].
    destruct (String.eqb_spec (trim l) "Verdict: FAIL"); [by injection Hv as <-|done].
  - intros (b & l & a & El & Hl & Ha). rewrite (proj2 (find_last f (lines text) l)); [rewrite Hl; by destruct v|].
    exists b, a. split_and!; [done|by apply Hline|]. eapply Forall_impl; [exact Ha|]. intros. by apply Hf.
Qed.

(** [C38] Every outcome of a sub-agent's run.  A report exists only when a slot
    was free, the worktree could be bound and the run was not cancelled; its
    response is not blank, is what the collector kept (with the note of the first
    error, if one was sent) and, for a run that only answered, is the text of the
    attempts that stood, whatever was retried; its history is the run's; it has a
    verdict exactly when a verifier's run sent no error and its response's last
    line that is not blank is the verdict's; the worktree is new, with its branch,
    or the existing one of a resumed task.  Otherwise the error tells the reason:
    no free slot, a worktree that could not be created or no longer exists, a
    cancelled run whatever it wrote, a failed collector, the first error of a run
    without a response, or the blank response. *)
Theorem run_subagent_spec parent wm root git_add is_dir uuid has_aux run permit spec :
  match run_subagent parent wm root git_add is_dir uuid has_aux run permit spec with
  | (Ok rep, recovered) =>
      permit = true /\ recovered = true /\
      exists wt branch es,
        bind_worktree parent root git_add is_dir uuid (sp_worktree spec) = Ok (wt, branch) /\
        let r := run (setup_of parent wm has_aux spec wt) spec in
        let c := collect_events es in
        rr_cancelled r = false /\ rr_events r = Some es /\
        re_history rep = rr_history r /\ re_worktree_path rep = wt /\ re_worktree_branch rep = branch /\
        trim (co_response c) <> "" /\
        re_response rep = co_response c +:+
          match co_failure c with Some e => nl +:+ nl +:+ "[注意: 子代理终止于错误 — " +:+ e +:+ "]" | None => "" end /\
        (forall ans, es = concat (map answer_events ans) ->
          re_response rep = concat_str (map (fun a => concat_str (final_attempt a)) ans)) /\
        (forall v, re_verdict rep = Some v <->
          sp_kind spec = Verifier /\ co_failure c = None /\ says_verdict (co_response c) v) /\
        (wt = None <-> sp_worktree spec = NoWorktree) /\
        (forall path, sp_worktree spec = Reattach path -> is_dir path = true /\ wt = Some path /\ branch = None)
  | (Err e, recovered) =>
      (permit = false -> e = "Timed out waiting for sub-agent slot" /\ recovered = false) /\
      (permit = true -> forall failed, bind_worktree parent root git_add is_dir uuid (sp_worktree spec) = Err failed ->
        e = failed /\ recovered = false /\
        match sp_worktree spec with
        | NoWorktree => False
        | Enter => exists why, enter_worktree root git_add (Obj [("name", Str ("coder-" +:+ uuid))]) = Err why /\
            e = "Coder sub-agent requires worktree isolation, but enter_worktree failed: " +:+ why
        | Reattach path => is_dir path = false /\
            e = "Coder worktree " +:+ path +:+ " no longer exists; cannot resume — delegate a fresh Coder sub-agent."
        end) /\
      (permit = true -> forall wt branch, bind_worktree parent root git_add is_dir uuid (sp_worktree spec) = Ok (wt, branch) ->
        let r := run (setup_of parent wm has_aux spec wt) spec in
        recovered = negb (rr_cancelled r) /\
        (rr_cancelled r = true -> e = "Sub-agent cancelled") /\
        (rr_cancelled r = false -> rr_events r = None -> e = "sub-agent event collector failed") /\
        (rr_cancelled r = false -> forall es, rr_events r = Some es ->
          trim (co_response (collect_events es)) = "" /\
          e = default "Sub-agent returned empty response" (co_failure (collect_events es))))
  end.
Proof.
  unfold run_subagent. destruct permit; [|done].
  destruct (bind_worktree _ _ _ _ _ _) as [[wt branch]|e] eqn:Hb; cbn [negb]; cycle 1.
  { split; [done|]. split; [|done]. intros _ ? [= <-]. split; [done|]. split; [done|]. by apply bind_failed in Hb. }
  pose proof (bind_bound _ _ _ _ _ _ _ _ Hb) as Hwt.
  set (r := run _ _). unfold report_of.
  destruct (rr_events r) as [es|] eqn:Hes; destruct (rr_cancelled r) eqn:Hcan.
  - split; [done|]. split; [done|]. intros _ ? ? [= <- <-]. fold r. by rewrite Hcan.
  - destruct (String.eqb_spec (trim (co_response (collect_events es))) "") as [Ht|Ht].
    { destruct (co_failure _) as [e|] eqn:Hf; (split; [done|]); (split; [done|]); intros _ ? ? [= <- <-]; fold r; rewrite Hcan, Hes;
        (split; [done|]); (split; [done|]); (split; [done|]); intros _ ? [= <-]; by rewrite Hf. }
    cbn [negb]. split; [done|]. split; [done|]. exists wt, branch, es. split; [done|]. cbv zeta. fold r.
    cbn [re_history re_worktree_path re_worktree_branch re_response re_verdict].
    do 6 (split; [done|]).
    split; [destruct (co_failure _); [done|by rewrite app_nil_r_str]|].
    split; [intros ans ->; destruct (collect_answers ans) as [Hr Hf]; by rewrite Hf|].
    split; [|done]. intros v. rewrite <- parse_verdict_says. case_bool_decide as Hk; [|naive_solver].
    destruct (co_failure _); [rewrite note_no_verdict|]; naive_solver.
  - split; [done|]. split; [done|]. intros _ ? ? [= <- <-]. fold r. by rewrite Hcan.
  - cbn. split; [done|]. split; [done|]. intros _ ? ? [= <- <-]. fold r. rewrite Hcan, Hes. by split_and!.
Qed.

(** The permits, in every order of the operations: handed out and free
    permits together never fall below five and grow past that only by recoveries, at most eight for every
    rate limit seen; the multiplier stays between one and sixteen. *)
Theorem permits_bounds now ops b held (Hs : permit_steps (SubagentBatch_new now, 0) ops (b, held)) :
  (1 <= backoff_multiplier b <= 16)%Z /\ 5 <= available b + held <= 5 + 8 * limits_of ops.
Proof.
  destruct (permit_steps_ok 0 _ _ _ Hs) as (H1 & H2 & H3); [unfold permit_ok; cbn; lia|].
  cbn in H1, H2, H3. lia.
Qed.

(** The consumer of messages, in every order of messages, starts, ends and
    panics: a source has at most one task, waiting or running, at most eight
    tasks run, and a message is dropped only while its source is marked; after
    a panic the source stays marked, and all its messages are dropped. *)
Theorem io_consumer_safe c (Hc : io_reachable c) :
  NoDup (io_waiting c ++ io_running c) /\ length (io_running c) <= IO_PERMITS /\
  (forall s, fst (io_receive s c) = false <-> source_key s ∈ io_active c) /\
  (forall k, k ∈ io_waiting c \/ k ∈ io_running c -> k ∈ io_active c) /\
  (forall s c', source_key s ∈ io_active c -> source_key s ∉ io_waiting c -> source_key s ∉ io_running c ->
    rtc io_step c c' -> fst (io_receive s c') = false).
Proof.
  destruct (io_reachable_ok c Hc) as (H1 & H2 & H3 & H4 & H5 & H6).
  assert (Hrec : forall s c, fst (io_receive s c) = false <-> source_key s ∈ io_active c).
  { intros s c0. unfold io_receive. rewrite <- existsb_eqb_elem. by destruct (existsb _ _). }
  split; [rewrite NoDup_app; naive_solver|]. do 3 (split; [done|]).
  intros s c' Ha Hw Hr Hsteps. apply Hrec. clear Hc H1 H2 H3 H4 H5 H6.
  induction Hsteps as [c|c c1 c' Hst _ IH]; [done|].
  destruct (stuck_step _ _ _ Hst Ha Hw Hr) as (? & ? & ?). by apply IH.
Qed.

(** ** Concrete runs *)

Definition demo_spec (k : SubagentType) : SubagentSpec :=
  {| sp_session := "sub"; sp_kind := k; sp_model := Primary; sp_allow_guarded := false; sp_max_turns := 20;
     sp_history := []; sp_message := "check it"; sp_worktree := match k with Coder => Enter | _ => NoWorktree end |}.

Definition demo_matrix : PermissionMatrix := sample_matrix [] [].
Definition demo_setup (k : SubagentType) : Setup := setup_of demo_matrix (fun _ => demo_matrix) false (demo_spec k) None.

(** The call the user cleared in [prepare_safe_witness] is refused here. *)
Lemma subagent_unattended_witness :
  let run := prepare sample_env (su_plate (demo_setup Verifier)) "sub" 2 ren_zhong shell_tool (shell_input "cargo test") empty_world in
  (exists reason, outcome run = Some (Err (DispatchDenied reason))) /\ answers (after run) = answers empty_world.
Proof.
  split; [eexists; vm_compute; reflexivity|].
  eapply (subagent_unattended demo_matrix (fun _ => demo_matrix) false (demo_spec Verifier) None sample_env "sub" 2
            ren_zhong shell_tool (shell_input "cargo test") empty_world).
  vm_compute. reflexivity.
Defined.

(** With the grant the confirmation passes without a question. *)
Example granted_subagent_is_not_asked :
  let p := subagent_plate Coder true demo_matrix in
  let run := prepare sample_env p "sub" 2 ren_zhong shell_tool (shell_input "ls") empty_world in
  outcome run = Some (Ok {| pc_tool := shell_tool; pc_input := shell_input "ls" |}) /\ requests (after run) = [].
Proof. by vm_compute. Qed.

Lemma permits_bounds_witness :
  exists b, permit_steps (SubagentBatch_new 0, 0) [Acquired; RateLimitedAt 1; RecoverAt 200] (b, 1) /\
    5 <= available b + 1 <= 5 + 8 * 1.
Proof.
  eexists. assert (Hs : permit_steps (SubagentBatch_new 0, 0) [Acquired; RateLimitedAt 1; RecoverAt 200]
    ({| available := 5; backoff_multiplier := 1; last_rate_limit := Some 1%Z; last_clear := 200 |}, 1))
    by (apply permit_run_steps; vm_compute; reflexivity).
  split; [exact Hs|]. exact (proj2 (permits_bounds 0 _ _ _ Hs)).
Defined.

(** A message whose run panics: the next message of its source is dropped. *)
Definition demo_stuck : IoConsumer := {| io_active := ["webhook:chat"]; io_waiting := []; io_running := [] |}.

Lemma demo_stuck_reachable : io_reachable demo_stuck.
Proof.
  eapply io_next; [eapply io_next; [eapply io_next; [apply io_init|apply (io_message (Webhook "chat"))]|]|].
  - apply (io_start "webhook:chat"); [vm_compute; by left|vm_compute; lia].
  - apply (io_panic "webhook:chat"). vm_compute. by left.
Qed.

Lemma io_consumer_safe_witness :
  io_reachable demo_stuck /\ io_running demo_stuck = [] /\
  forall c', rtc io_step demo_stuck c' -> fst (io_receive (Webhook "chat") c') = false.
Proof.
  split; [exact demo_stuck_reachable|]. split; [done|]. intros c' Hc.
  eapply (io_consumer_safe demo_stuck demo_stuck_reachable); [| | |exact Hc].
  - vm_compute. by left.
  - vm_compute. by inversion 1.
  - vm_compute. by inversion 1.
Defined.

Definition demo_events (final : string) : list AgentEvent :=
  [EvDelta "half a line"; EvRetrying; EvDelta "Tests pass."; EvDelta (nl +:+ final); EvStreamEnd].

Definition demo_run (es : list AgentEvent) : Setup -> SubagentSpec -> RunResult :=
  fun _ _ => {| rr_events := Some es; rr_history := []; rr_cancelled := false |}.

Definition demo_report (es : list AgentEvent) (k : SubagentType) : result string SubagentReport :=
  fst (run_subagent demo_matrix (fun _ => demo_matrix) (Ok "/work") (fun _ _ _ => Ok ()) (fun _ => true) "1a2b" false
         (demo_run es) true (demo_spec k)).

Example demo_verdicts :
  (re_verdict <$> demo_report (demo_events "Verdict: PASS") Verifier) = Ok (Some VPass) /\
  (re_verdict <$> demo_report (demo_events "Verdict: PASS.") Verifier) = Ok None /\
  (re_verdict <$> demo_report (demo_events "Verdict: PASS" ++ [EvError "turn limit"]) Verifier) = Ok None /\
  (re_worktree_path <$> demo_report (demo_events "done") Coder) = Ok (Some "/work/.jia/worktrees/coder-1a2b").
Proof. by vm_compute. Qed.

Example demo_retry_not_in_report :
  (re_response <$> demo_report (demo_events "Verdict: PASS") Explore) = Ok ("Tests pass." +:+ nl +:+ "Verdict: PASS").
Proof. by vm_compute. Qed.
