(* ===== verification/Delegate.v ===== *)
(** * The delegate and send_message tools

    src/kernel/src/palaces/zhen_tool/builtin/delegate.rs: parsing of tasks,
    inline, parallel and background dispatch, the kept sub-agent sessions and
    their stored form, reports, and the continuation of a session.  The run of
    a sub-agent is [subagent] (Subagent.v); clocks, identifiers, Unicode
    lower-casing, serde_json and the iteration order of hash maps are
    arguments. *)

From Stdlib Require Import Ascii.
From S2P Require Import Prelude RString Path Json GeJu Permission Tool HumanPlate Completion Context Compaction Dispatch Batch DiskOutput Background Subagent.
Local Open Scope string_scope.
#[local] Arguments String.append !_ _ : simpl nomatch.

(** ** Types and models *)

Definition subagent_type_str (k : SubagentType) : string :=
  match k with Explore => "Explore" | PlanAgent => "Plan" | Coder => "Coder" | Verifier => "Verifier" end.

Definition model_str (m : SubagentModel) : string :=
  match m with Primary => "primary" | Secondary => "secondary" end.

Section Parsing.
(** [str::to_lowercase]. *)
Context (lower : string -> string).

Definition subagent_type_of (s : string) : result string SubagentType :=
  let l := lower s in
  if String.eqb l "explore" then Ok Explore
  else if String.eqb l "plan" then Ok PlanAgent
  else if String.eqb l "coder" then Ok Coder
  else if String.eqb l "verifier" then Ok Verifier
  else Err ("Unknown subagent_type '" +:+ l +:+ "'. Use 'Explore', 'Plan', 'Coder' or 'Verifier'.").

Definition model_of (s : string) : result string SubagentModel :=
  let l := lower s in
  if String.eqb l "primary" then Ok Primary
  else if String.eqb l "secondary" then Ok Secondary
  else Err ("Unknown model '" +:+ l +:+ "'. Use 'primary' or 'secondary'.").

(** ** Tasks *)

Record TaskInput := {
  ta_kind : SubagentType; ta_prompt : string; ta_max_turns : Z; ta_model : SubagentModel; ta_allow_guarded : bool
}.

Definition turns_of (v : Value) : Z := Z.min 50 (Z.max 1 (default 25%Z (as_u64 (index v "max_turns")))).

Definition parse_one_task (v : Value) : result string TaskInput :=
  match as_str (index v "subagent_type") with
  | None => Err "Missing 'subagent_type' parameter"
  | Some ty =>
      match subagent_type_of ty with
      | Err e => Err e
      | Ok kind =>
          match as_str (index v "prompt") with
          | None => Err "Missing 'prompt' parameter"
          | Some prompt =>
              match (match as_str (index v "model") with Some s => model_of s | None => Ok Secondary end) with
              | Err e => Err e
              | Ok m =>
                  Ok {| ta_kind := kind; ta_prompt := prompt; ta_max_turns := turns_of v; ta_model := m;
                        ta_allow_guarded := default false (as_bool (index v "allow_guarded")) |}
              end
          end
      end
  end.

(** [collect] of results: the first error. *)
Fixpoint parse_each (l : list Value) : result string (list TaskInput) :=
  match l with
  | [] => Ok []
  | v :: l' =>
      match parse_one_task v with
      | Err e => Err e
      | Ok t => match parse_each l' with Err e => Err e | Ok ts => Ok (t :: ts) end
      end
  end.

Definition parse_tasks (input : Value) : result string (list TaskInput) :=
  match as_array (index input "tasks") with
  | Some [] => Err "'tasks' must be a non-empty array"
  | Some arr => parse_each arr
  | None => match parse_one_task input with Err e => Err e | Ok t => Ok [t] end
  end.

(** ** Sessions *)

Record SubagentSession := {
  ss_history : list HistoryEntry;
  ss_type : SubagentType;
  ss_model : SubagentModel;
  ss_allow_guarded : bool;
  ss_worktree : option string;
  ss_created : Z;
  ss_last_used : Z
}.

(** The stored form, and what serde_json makes of it and of the older form, a
    list of messages. *)
Record SessionEnvelope := {
  en_v : Z; en_history : list HistoryEntry; en_model : string; en_allow_guarded : bool; en_worktree : option string
}.

Context (envelope_to_string : SessionEnvelope -> option string).
Context (envelope_from_str : string -> option SessionEnvelope) (messages_from_str : string -> option (list Message)).

Definition envelope_of (s : SubagentSession) : SessionEnvelope :=
  {| en_v := 2; en_history := ss_history s; en_model := model_str (ss_model s); en_allow_guarded := ss_allow_guarded s;
     en_worktree := ss_worktree s |}.

Definition to_stored_json (s : SubagentSession) : option string := envelope_to_string (envelope_of s).

Definition legacy_entry (m : Message) : HistoryEntry :=
  match Context.role m with
  | User => HUser (Context.content m) (Context.images m)
  | Assistant => HAssistant (Context.content m)
  | System => HSystem (Context.content m)
  end.

Definition from_stored (json ty : string) (created last : Z) : option SubagentSession :=
  let kind := match subagent_type_of ty with Ok k => k | Err _ => Explore end in
  let legacy :=
    match messages_from_str json with
    | Some ms =>
        Some {| ss_history := map legacy_entry ms; ss_type := kind; ss_model := Secondary; ss_allow_guarded := false;
                ss_worktree := None; ss_created := created; ss_last_used := last |}
    | None => None
    end in
  match envelope_from_str json with
  | Some env =>
      if (en_v env =? 2)%Z then
        Some {| ss_history := en_history env; ss_type := kind;
                ss_model := match model_of (en_model env) with Ok m => m | Err _ => Secondary end;
                ss_allow_guarded := en_allow_guarded env; ss_worktree := en_worktree env;
                ss_created := created; ss_last_used := last |}
      else legacy
  | None => legacy
  end.

(** The rows handed to the store, in order. *)
Record SavedRow := { sr_id : string; sr_json : string; sr_type : string; sr_created : Z; sr_last : Z }.

Record Sessions := { kept : gmap string SubagentSession; saved : list SavedRow }.

(** The order in which the hash map iterates. *)
Context (order : gmap string SubagentSession -> list (string * SubagentSession)).

(** [min_by_key]: the first of the least. *)
Fixpoint min_last_used (l : list (string * SubagentSession)) : option (string * SubagentSession) :=
  match l with
  | [] => None
  | e :: l' =>
      match min_last_used l' with
      | Some e' => if (ss_last_used (snd e') <? ss_last_used (snd e))%Z then Some e' else Some e
      | None => Some e
      end
  end.

Definition SESSION_CAPACITY : nat := 64.

Definition make_room (id : string) (m : gmap string SubagentSession) : gmap string SubagentSession :=
  if (SESSION_CAPACITY <=? base.size m)%nat && negb (bool_decide (is_Some (m !! id))) then
    match min_last_used (order m) with Some (oldest, _) => delete oldest m | None => m end
  else m.

Definition persist_session (id : string) (s : SubagentSession) (sh : Sessions) : Sessions :=
  {| kept := <[id := s]> (make_room id (kept sh));
     saved := match to_stored_json s with
              | Some json => (saved sh ++ [{| sr_id := id; sr_json := json; sr_type := subagent_type_str (ss_type s);
                                              sr_created := ss_created s; sr_last := ss_last_used s |}])%list
              | None => saved sh
              end |}.

(** ** Reports *)

Definition verdict_marker (v : option Verdict) : string :=
  match v with
  | Some VPass => "Verifier verdict: PASS"
  | Some VFail => "Verifier verdict: FAIL"
  | None => "Verifier verdict: UNPARSEABLE"
  end.

Definition format_report (id : string) (kind : SubagentType) (r : SubagentReport) : string :=
  "Sub-agent " +:+ id +:+ " (" +:+ subagent_type_str kind +:+ ") completed." +:+
  (match kind with Verifier => nl +:+ verdict_marker (re_verdict r) | _ => "" end) +:+
  (match re_worktree_path r with
   | Some path =>
       nl +:+ "Worktree: " +:+ path +:+ " (branch: " +:+ default "(resumed)" (re_worktree_branch r) +:+
       ") — left on disk for review; merge or `git worktree remove` when done."
   | None => "" end) +:+
  nl +:+ nl +:+ re_response r +:+ nl +:+ nl +:+
  "To continue this sub-agent, call send_message with subagent_id=" +:+ dq +:+ id +:+ dq +:+ ".".

(** Events shown to the parent. *)
Record Lifecycle := { lc_id : string; lc_kind : string; lc_status : string; lc_summary : string }.

Definition lifecycle (id : string) (kind : SubagentType) (status summary : string) : Lifecycle :=
  {| lc_id := id; lc_kind := subagent_type_str kind; lc_status := status; lc_summary := summary |}.

Definition ended_event (id : string) (kind : SubagentType) (r : result string (SubagentReport * SubagentSession)) : Lifecycle :=
  match r with
  | Ok (rep, _) => lifecycle id kind "completed" (truncate_chars (trim (re_response rep)) 120)
  | Err e => lifecycle id kind "failed" e
  end.

Definition started_event (id : string) (t : TaskInput) : Lifecycle :=
  lifecycle id (ta_kind t) "started" (truncate_chars (ta_prompt t) 80).

(** ** Dispatch *)

(** The run of a sub-agent. *)
Context (subagent : SubagentSpec -> result string SubagentReport).

Definition spec_of (id : string) (t : TaskInput) : SubagentSpec :=
  {| sp_session := id; sp_kind := ta_kind t; sp_model := ta_model t; sp_allow_guarded := ta_allow_guarded t;
     sp_max_turns := ta_max_turns t; sp_history := []; sp_message := ta_prompt t;
     sp_worktree := match ta_kind t with Coder => Enter | _ => NoWorktree end |}.

(** [run_one]; [now] is the clock when the run ends. *)
Definition run_one (now : Z) (id : string) (t : TaskInput) : result string (SubagentReport * SubagentSession) :=
  match subagent (spec_of id t) with
  | Err e => Err e
  | Ok r => Ok (r, {| ss_history := re_history r; ss_type := ta_kind t; ss_model := ta_model t;
                      ss_allow_guarded := ta_allow_guarded t; ss_worktree := re_worktree_path r;
                      ss_created := now; ss_last_used := now |})
  end.

(** One task, inline. *)
Definition delegate_single (now : Z) (id : string) (t : TaskInput) (sh : Sessions) :
    result string string * list Lifecycle * Sessions :=
  match run_one now id t with
  | Err e => (Err e, [started_event id t; lifecycle id (ta_kind t) "failed" e], sh)
  | Ok (r, s) =>
      (Ok (format_report id (ss_type s) r), [started_event id t; ended_event id (ta_kind t) (Ok (r, s))],
       persist_session id s sh)
  end.

(** A spawned task of a batch: its identifier, its task, the clock at its end. *)
Record Spawned := { sw_id : string; sw_task : TaskInput; sw_now : Z }.

(** What the join loop sees, until nothing is left or the parent is cancelled;
    a slot of a task that never joins or that panicked stays empty. *)
Inductive JoinEnd := Ended (i : nat) | PanickedTask (i : nat).

Abbreviation slot := (option (result string (SubagentReport * SubagentSession))).

Definition join_one (ws : list Spawned) (st : list slot * list Lifecycle) (j : JoinEnd) : list slot * list Lifecycle :=
  let '(slots, evs) := st in
  match j with
  | Ended i =>
      match ws !! i with
      | Some w => let r := run_one (sw_now w) (sw_id w) (sw_task w) in
                  (<[i := Some r]> slots, (evs ++ [ended_event (sw_id w) (ta_kind (sw_task w)) r])%list)
      | None => st
      end
  | PanickedTask _ => st
  end.

Definition join_all (ws : list Spawned) (js : list JoinEnd) : list slot * list Lifecycle :=
  foldl (join_one ws) (replicate (length ws) None, map (fun w => started_event (sw_id w) (sw_task w)) ws) js.

Definition heading (i : nat) : string := "## [" +:+ pretty (N.of_nat (S i)) +:+ "] ".

Definition section_of (i : nat) (w : Spawned) (s : slot) : string :=
  heading i +:+
  match s with
  | Some (Ok (r, _)) => format_report (sw_id w) (ta_kind (sw_task w)) r
  | Some (Err e) => "Sub-agent " +:+ sw_id w +:+ " failed: " +:+ e
  | None => "Sub-agent cancelled before completion."
  end.

Definition keep_slot (w : Spawned) (s : slot) (sh : Sessions) : Sessions :=
  match s with Some (Ok (_, session)) => persist_session (sw_id w) session sh | _ => sh end.

Fixpoint aggregate (i : nat) (ws : list Spawned) (slots : list slot) (sh : Sessions) : list string * Sessions :=
  match ws, slots with
  | w :: ws', s :: slots' =>
      let '(out, sh') := aggregate (S i) ws' slots' (keep_slot w s sh) in (section_of i w s :: out, sh')
  | _, _ => ([], sh)
  end.

(** Several tasks in parallel. *)
Definition delegate_parallel (ws : list Spawned) (js : list JoinEnd) (sh : Sessions) : string * list Lifecycle * Sessions :=
  let '(slots, evs) := join_all ws js in
  let '(sections, sh') := aggregate 0 ws slots sh in
  (str_join (nl +:+ nl) sections, evs, sh').

(** *** In the background *)

Section Background.
Context (data_dir : string) (values : Tasks -> list BackgroundTask) (to_string_pretty : list PersistedTask -> option string).
Context (remove_file : option string -> option string) (write_file : string -> option string -> option string).
Context {FS : Type} (write_out : string -> string -> FS -> FS).

Definition agent_task (task_id out id prompt : string) (now : Z) : BackgroundTask :=
  {| Background.id := task_id; task_type := TAgent; status := Pending; description := truncate_chars prompt 80;
     output_file := out; output_offset := 0; notified := false; started_at := now; ended_at := None;
     tool_use_id := None; agent_id := Some id; exit_code := None |}.

Definition started_line (batch : bool) (task_id id out : string) : string :=
  "Sub-agent (" +:+ (if batch then "batch" else "single") +:+ ") started in background: task_id=" +:+ task_id +:+
  ", subagent_id=" +:+ id +:+ "." +:+ nl +:+
  "Completion will arrive as a background task notification; output file: " +:+ out +:+ ".".

(** One task registered and spawned. *)
Definition start_background (uuid : list nat) (now : Z) (batch : bool) (id : string) (t : TaskInput)
    (tasks : Tasks) (file : option string) : string * Lifecycle * Tasks * option string :=
  let task_id := generate_id TAgent uuid in
  let out := task_output_path data_dir task_id in
  let '(_, tasks, file) :=
    register values to_string_pretty remove_file write_file now (agent_task task_id out id (ta_prompt t) now) tasks file in
  (started_line batch task_id id out, started_event id t, tasks, file).

(** All of them, in order. *)
Fixpoint start_all (uuids : nat -> list nat) (ids : nat -> string) (i : nat) (now : Z) (batch : bool) (ts : list TaskInput)
    (tasks : Tasks) (file : option string) : list string * list Lifecycle * Tasks * option string :=
  match ts with
  | [] => ([], [], tasks, file)
  | t :: ts' =>
      let '(line, ev, tasks, file) := start_background (uuids i) now batch (ids i) t tasks file in
      let '(lines, evs, tasks, file) := start_all uuids ids (S i) now batch ts' tasks file in
      (line :: lines, ev :: evs, tasks, file)
  end.

(** The tool.  [ends] is the clock at the end of each task, [js] the order they
    are joined in. *)
Definition delegate_execute (uuids : nat -> list nat) (ids : nat -> string) (now : Z) (ends : nat -> Z) (js : list JoinEnd)
    (input : Value) (sh : Sessions) (tasks : Tasks) (file : option string) :
    result string string * list Lifecycle * Sessions * Tasks * option string :=
  match parse_tasks input with
  | Err e => (Err e, [], sh, tasks, file)
  | Ok ts =>
      if default false (as_bool (index input "run_in_background")) then
        let batch := bool_decide (is_Some (as_array (index input "tasks"))) in
        let '(lines, evs, tasks, file) := start_all uuids ids 0 now batch ts tasks file in
        (Ok (str_join nl lines), evs, sh, tasks, file)
      else
        match ts with
        | [t] => let '(r, evs, sh) := delegate_single (ends 0) (ids 0) t sh in (r, evs, sh, tasks, file)
        | _ =>
            let ws := imap (fun i t => {| sw_id := ids i; sw_task := t; sw_now := ends i |}) ts in
            let '(out, evs, sh) := delegate_parallel ws js sh in
            (Ok out, evs, sh, tasks, file)
        end
  end.

(** The spawned task. *)
Definition finish_background (now : Z) (task_id id : string) (t : TaskInput) (sh : Sessions) (tasks : Tasks)
    (file : option string) (fs : FS) : Sessions * Tasks * option string * FS :=
  let '(text, st, sh) :=
    match run_one now id t with
    | Ok (r, s) => (format_report id (ss_type s) r, Completed, persist_session id s sh)
    | Err e => ("Sub-agent " +:+ id +:+ " failed: " +:+ e, Failed, sh)
    end in
  let fs := write_out (task_output_path data_dir task_id) text fs in
  let '(_, tasks, file) := update_status values to_string_pretty remove_file write_file now task_id st None tasks file in
  (sh, tasks, file, fs).
End Background.

(** ** Continuing a session *)

Definition touch (now : Z) (s : SubagentSession) : SubagentSession :=
  {| ss_history := ss_history s; ss_type := ss_type s; ss_model := ss_model s; ss_allow_guarded := ss_allow_guarded s;
     ss_worktree := ss_worktree s; ss_created := ss_created s; ss_last_used := now |}.

Definition resume_spec (id message : string) (turns : Z) (s : SubagentSession) : SubagentSpec :=
  {| sp_session := id; sp_kind := ss_type s; sp_model := ss_model s; sp_allow_guarded := ss_allow_guarded s;
     sp_max_turns := turns; sp_history := ss_history s; sp_message := message;
     sp_worktree := match ss_type s, ss_worktree s with
                    | Coder, Some path => Reattach path
                    | Coder, None => Enter
                    | _, _ => NoWorktree
                    end |}.

(** [started] and [ended] are the clock before and after the run. *)
Definition send_message (started ended : Z) (input : Value) (sh : Sessions) :
    result string string * list Lifecycle * Sessions :=
  match as_str (index input "subagent_id") with
  | None => (Err "Missing 'subagent_id' parameter", [], sh)
  | Some id =>
      match as_str (index input "message") with
      | None => (Err "Missing 'message' parameter", [], sh)
      | Some message =>
          match kept sh !! id with
          | None => (Err ("Unknown subagent_id '" +:+ id +:+ "'"), [], sh)
          | Some s =>
              let sh := {| kept := <[id := touch started s]> (kept sh); saved := saved sh |} in
              let begun := lifecycle id (ss_type s) "started" (truncate_chars message 80) in
              match subagent (resume_spec id message (turns_of input) s) with
              | Err e => (Err e, [begun; lifecycle id (ss_type s) "failed" e], sh)
              | Ok r =>
                  let s' := {| ss_history := re_history r; ss_type := ss_type s; ss_model := ss_model s;
                               ss_allow_guarded := ss_allow_guarded s; ss_worktree := re_worktree_path r;
                               ss_created := ss_created s; ss_last_used := ended |} in
                  (Ok ((match re_worktree_path r with
                        | Some path => "Worktree: " +:+ path +:+ " (resumed)" +:+ nl +:+ nl | None => "" end) +:+
                       re_response r +:+
                       (match ss_type s with Verifier => nl +:+ nl +:+ verdict_marker (re_verdict r) | _ => "" end)),
                   [begun; lifecycle id (ss_type s) "completed" (truncate_chars (trim (re_response r)) 120)],
                   persist_session id s' sh)
              end
          end
      end
  end.
End Parsing.

(** ** Lemmas: the verdict line *)

Lemma split_inclusive_cut d a b : has_char d a = false ->
  split_inclusive d (a +:+ String d b) = (a +:+ String d "") :: split_inclusive d b.
Proof.
  induction a as [|e a IH]; cbn [String.append split_inclusive]; intros H.
  - by rewrite Ascii.eqb_refl.
  - rewrite has_char_cons in H. apply orb_false_iff in H as [-> H]. by rewrite IH.
Qed.

Lemma lines_cut a c b : has_char newline (a +:+ String c "") = false -> c <> cr ->
  lines ((a +:+ String c "") +:+ nl +:+ b) = (a +:+ String c "") :: lines b.
Proof.
  intros Ha Hc. unfold lines, nl. cbn [String.append]. rewrite split_inclusive_cut by done. cbn [fmap list_fmap]. f_equal.
  unfold strip_eol. rewrite strip_suffix_app. cbn [default].
  destruct (strip_suffix_str (a +:+ String c "") _) as [l|] eqn:E; [|done]. exfalso.
  unfold strip_suffix_str in E. destruct (ends_with _ _) eqn:He; [|done].
  unfold ends_with in He. apply andb_true_iff in He as [_ He%String.eqb_eq].
  rewrite app_len in He. cbn in He. replace (len a + 1 - 1) with (len a) in He by lia.
  rewrite drop_app_str in He. congruence.
Qed.

Lemma verdict_of_other s c ls : is_graph c = true ->
  (forall t, "Verifier verdict: PASS" <> t +:+ String c "") ->
  (forall t, "Verifier verdict: FAIL" <> t +:+ String c "") ->
  (forall t, "Verifier verdict: UNPARSEABLE" <> t +:+ String c "") ->
  verdict_of ((s +:+ String c "") :: ls) = verdict_of ls.
Proof.
  intros Hg H1 H2 H3. cbn [verdict_of]. destruct (trim_last s c Hg) as [t ->].
  repeat (rewrite (proj2 (String.eqb_neq _ _)); [|by apply not_eq_sym]). done.
Qed.

Lemma marker_lines v b :
  lines (verdict_marker v +:+ nl +:+ b) = verdict_marker v :: lines b.
Proof. destruct v as [[]|]; reflexivity. Qed.

Lemma verdict_of_marker v ls : verdict_of (verdict_marker v :: ls) = v.
Proof. by destruct v as [[]|]. Qed.

(** The verdict line is the second of a verifier's report. *)
Lemma format_report_lines id r : has_char newline id = false ->
  exists rest, lines (format_report id Verifier r) =
    (("Sub-agent " +:+ id +:+ " (Verifier) completed") +:+ ".") :: verdict_marker (re_verdict r) :: rest.
Proof.
  intros Hid. unfold format_report. cbn [subagent_type_str].
  set (tail := (match re_worktree_path r with Some _ => _ | None => _ end) +:+ _).
  assert (Ht : exists b, tail = nl +:+ b).
  { unfold tail. destruct (re_worktree_path r); [rewrite !app_assoc_str; by eexists|by eexists]. }
  destruct Ht as [b ->]. eexists. rewrite <- marker_lines.
  assert (Hn : has_char newline (("Sub-agent " +:+ id +:+ " (Verifier) completed") +:+ ".") = false).
  { rewrite !has_char_app, Hid. reflexivity. }
  rewrite <- (lines_cut _ "."%char) by done.
  f_equal. by rewrite !app_assoc_str.
Qed.

(** ** Lemmas: kept sessions *)

Lemma min_last_used_spec l k s : min_last_used l = Some (k, s) ->
  (k, s) ∈ l /\ forall k' s', (k', s') ∈ l -> (ss_last_used s <= ss_last_used s')%Z.
Proof.
  revert k s. induction l as [|[k0 s0] l IH]; intros k s; cbn [min_last_used]; [done|].
  destruct (min_last_used l) as [[k1 s1]|] eqn:E; cbn [snd].
  - destruct (IH k1 s1 eq_refl) as [Hin Hmin].
    destruct (Z.ltb_spec (ss_last_used s1) (ss_last_used s0)) as [Hlt|Hge]; intros [= <- <-].
    + split; [by right|]. intros k' s' [[= -> ->]|H]%elem_of_cons; [lia|by eapply Hmin].
    + split; [by left|]. intros k' s' [[= -> ->]|H]%elem_of_cons; [lia|]. specialize (Hmin _ _ H). lia.
  - intros [= <- <-]. destruct l as [|x l]; [|cbn in E; by destruct (min_last_used l) as [[? ?]|]; [case_match|]].
    split; [by left|]. intros k' s' [[= -> ->]|H]%elem_of_cons; [lia|by apply elem_of_nil in H].
Qed.

Lemma min_last_used_None l : min_last_used l = None -> l = [].
Proof. destruct l as [|e l]; [done|]. cbn. destruct (min_last_used l); [case_match|]; done. Qed.

Section Kept.
Context (order : gmap string SubagentSession -> list (string * SubagentSession)).
Context (order_map : forall m, order m ≡ₚ map_to_list m).

Abbreviation make_room := (make_room order).

(** Room is made only for a new session in a full table, and by dropping one
    that was used least recently. *)
Lemma make_room_spec id m :
  make_room id m = m \/
  (SESSION_CAPACITY <= base.size m /\ m !! id = None /\
   exists k s, m !! k = Some s /\ make_room id m = delete k m /\
     forall k' s', m !! k' = Some s' -> (ss_last_used s <= ss_last_used s')%Z).
Proof.
  unfold Delegate.make_room. destruct (_ && _) eqn:E; [|by left].
  apply andb_true_iff in E as [Hs Hn]. apply Nat.leb_le in Hs.
  destruct (min_last_used (order m)) as [[k s]|] eqn:Em; [|by left].
  right. split; [done|]. split.
  { apply negb_true_iff, bool_decide_eq_false_1 in Hn. by destruct (m !! id); [destruct Hn; eauto|]. }
  apply min_last_used_spec in Em as [Hin Hmin]. setoid_rewrite order_map in Hin. setoid_rewrite order_map in Hmin.
  apply elem_of_map_to_list in Hin. setoid_rewrite elem_of_map_to_list in Hmin. by exists k, s.
Qed.

Lemma make_room_present id m : is_Some (m !! id) -> make_room id m = m.
Proof.
  intros Hs. unfold Delegate.make_room. rewrite bool_decide_eq_true_2 by done. by rewrite andb_false_r.
Qed.

Lemma make_room_full id m : base.size m <= SESSION_CAPACITY -> m !! id = None ->
  base.size (make_room id m) < SESSION_CAPACITY.
Proof.
  intros Hle Hn. unfold Delegate.make_room.
  rewrite (bool_decide_eq_false_2 (is_Some (m !! id))) by (rewrite Hn; by intros [? ?]).
  destruct (Nat.leb_spec SESSION_CAPACITY (base.size m)) as [Hf|Hf]; cbn [negb andb]; [|done].
  destruct (min_last_used (order m)) as [[k s]|] eqn:Em.
  - apply min_last_used_spec in Em as [Hin _]. setoid_rewrite order_map in Hin. apply elem_of_map_to_list in Hin.
    assert (base.size m <> 0) by (intros H0%map_size_empty_inv; subst m; by rewrite lookup_empty in Hin).
    rewrite map_size_delete_Some by eauto. lia.
  - apply min_last_used_None in Em. pose proof (order_map m) as Ho. rewrite Em in Ho.
    apply Permutation_nil in Ho. apply map_to_list_empty_iff in Ho. subst m. rewrite map_size_empty in Hf. unfold SESSION_CAPACITY in Hf. lia.
Qed.

Context (envelope_to_string : SessionEnvelope -> option string).
Abbreviation persist_session := (persist_session envelope_to_string order).

Lemma persist_capacity id s sh : base.size (kept sh) <= SESSION_CAPACITY ->
  base.size (kept (persist_session id s sh)) <= SESSION_CAPACITY.
Proof.
  intros Hle. cbn [Delegate.persist_session kept].
  destruct (kept sh !! id) as [s0|] eqn:E.
  - rewrite make_room_present by eauto. rewrite map_size_insert_Some; eauto.
  - pose proof (make_room_full id (kept sh) Hle E).
    destruct (make_room id (kept sh) !! id) eqn:E2.
    + rewrite map_size_insert_Some by eauto. lia.
    + rewrite map_size_insert_None by done. lia.
Qed.

Lemma persist_lookup id s sh : kept (persist_session id s sh) !! id = Some s.
Proof. cbn. apply lookup_insert_eq. Qed.

Lemma persist_present id s sh : is_Some (kept sh !! id) -> kept (persist_session id s sh) = <[id := s]> (kept sh).
Proof. intros H. cbn. by rewrite make_room_present. Qed.
End Kept.

(** ** Lemmas: parallel dispatch *)

Section Parallel.
Context (envelope_to_string : SessionEnvelope -> option string).
Context (order : gmap string SubagentSession -> list (string * SubagentSession)).
Context (subagent : SubagentSpec -> result string SubagentReport).

Abbreviation run w := (run_one subagent (sw_now w) (sw_id w) (sw_task w)).
Abbreviation join_one := (join_one subagent).
Abbreviation slot := (option (result string (SubagentReport * SubagentSession))).

(** The slot of a task: its result, when it was joined. *)
Definition slot_in (js : list JoinEnd) (i : nat) (w : Spawned) : slot :=
  if existsb (fun j => match j with Ended k => Nat.eqb k i | _ => false end) js then Some (run w) else None.

Definition end_of (ws : list Spawned) (j : JoinEnd) : option Lifecycle :=
  match j with
  | Ended i => (fun w => ended_event (sw_id w) (ta_kind (sw_task w)) (run w)) <$> ws !! i
  | PanickedTask _ => None
  end.

Lemma join_slots ws js slots evs : length slots = length ws ->
  let st := foldl (join_one ws) (slots, evs) js in
  length (fst st) = length ws /\
  (forall i w, ws !! i = Some w ->
    fst st !! i = match slot_in js i w with Some r => Some (Some r) | None => slots !! i end) /\
  snd st = (evs ++ omap (end_of ws) js)%list.
Proof.
  revert slots evs. induction js as [|j js IH]; intros slots evs Hl; cbn [foldl].
  - split; [done|]. split; [done|]. by rewrite app_nil_r.
  - destruct (join_one ws (slots, evs) j) as [slots1 evs1] eqn:E.
    assert (Hl1 : length slots1 = length ws).
    { destruct j as [i|i]; cbn in E; [|congruence]. destruct (ws !! i); [|congruence].
      injection E as <- _. by rewrite length_insert. }
    destruct (IH slots1 evs1 Hl1) as (H1 & H2 & H3). split; [done|]. split.
    + intros i w Hw. cbv zeta in H2. rewrite (H2 i w Hw). unfold slot_in. cbn [existsb].
      destruct (existsb _ js); [by rewrite orb_true_r|]. rewrite orb_false_r.
      destruct j as [k|k]; cbn in E; [|by injection E as <- _].
      destruct (Nat.eqb_spec k i) as [->|Hki].
      * rewrite Hw in E. injection E as <- _. apply list_lookup_insert_eq. apply lookup_lt_Some in Hw. lia.
      * destruct (ws !! k); [|by injection E as <- _]. injection E as <- _. by apply list_lookup_insert_ne.
    + rewrite H3. destruct j as [i|i]; cbn in E |- *; [|by injection E as _ <-].
      destruct (ws !! i); cbn; injection E as _ <-; [by rewrite <- app_assoc|done].
Qed.

Lemma join_all_spec ws js :
  fst (join_all subagent ws js) = imap (slot_in js) ws /\
  snd (join_all subagent ws js) =
    (map (fun w => started_event (sw_id w) (sw_task w)) ws ++ omap (end_of ws) js)%list.
Proof.
  unfold join_all.
  destruct (join_slots ws js (replicate (length ws) None) (map (fun w => started_event (sw_id w) (sw_task w)) ws))
    as (H1 & H2 & H3); [by rewrite length_replicate|].
  split; [|exact H3]. cbv zeta in H1, H2. apply list_eq. intros i. rewrite list_lookup_imap.
  destruct (ws !! i) as [w|] eqn:Hw; cbn.
  - rewrite (H2 i w Hw). destruct (slot_in js i w); [done|]. apply lookup_replicate_2. by apply lookup_lt_Some in Hw.
  - apply lookup_ge_None_2. rewrite H1. by apply lookup_ge_None_1.
Qed.

Lemma existsb_perm {A} (f : A -> bool) l l' : l ≡ₚ l' -> existsb f l = existsb f l'.
Proof. induction 1; cbn; [done|congruence| |congruence]. by rewrite !orb_assoc, (orb_comm (f y)). Qed.

Lemma slot_in_perm js js' i w : js ≡ₚ js' -> slot_in js i w = slot_in js' i w.
Proof. intros Hp. unfold slot_in. by rewrite (existsb_perm _ js js' Hp). Qed.

Lemma aggregate_sections ws (f : nat -> Spawned -> slot) n sh :
  fst (aggregate envelope_to_string order n ws (imap (fun i => f (n + i)) ws) sh) =
    imap (fun i w => section_of (n + i) w (f (n + i) w)) ws.
Proof.
  revert n sh. induction ws as [|w ws IH]; intros n sh; [done|]. cbn [imap aggregate]. rewrite Nat.add_0_r.
  destruct (aggregate _ _ _ _ _ _) as [out sh'] eqn:E. cbn [fst]. f_equal.
  transitivity (fst (out, sh')); [done|]. rewrite <- E.
  rewrite (imap_ext _ (fun i => f (S n + i)));
    [|intros i x _; unfold compose; by replace (n + S i) with (S n + i) by lia].
  rewrite IH. apply imap_ext. intros i x _. unfold compose. by replace (n + S i) with (S n + i) by lia.
Qed.

Lemma aggregate_capacity (order_map : forall m, order m ≡ₚ map_to_list m) ws slots n sh :
  base.size (kept sh) <= SESSION_CAPACITY ->
  base.size (kept (snd (aggregate envelope_to_string order n ws slots sh))) <= SESSION_CAPACITY.
Proof.
  revert slots n sh. induction ws as [|w ws IH]; intros [|s slots] n sh Hle; cbn [aggregate]; [done..|].
  specialize (IH slots (S n) (keep_slot envelope_to_string order w s sh)).
  destruct (aggregate _ _ _ _ _ _) as [out sh'] eqn:E. cbn [snd]. apply IH.
  unfold keep_slot. destruct s as [[[r s]|e]|]; [by apply persist_capacity|done|done].
Qed.
End Parallel.

(** ** Lemmas: parsing *)

(** What is used of [str::to_lowercase]: the two names of the kinds that change
    things have no spelling but in ASCII letters. *)
Definition lower_ascii_kinds (lower : string -> string) : Prop :=
  forall s, (lower s = "coder" \/ lower s = "verifier") -> to_ascii_lowercase s = lower s.

Lemma parse_one_task_inv lower v t : parse_one_task lower v = Ok t ->
  exists ty, as_str (index v "subagent_type") = Some ty /\ subagent_type_of lower ty = Ok (ta_kind t) /\
    as_str (index v "prompt") = Some (ta_prompt t) /\ (1 <= ta_max_turns t <= 50)%Z /\
    ta_allow_guarded t = default false (as_bool (index v "allow_guarded")).
Proof.
  unfold parse_one_task. destruct (as_str (index v "subagent_type")) as [ty|]; [|done].
  destruct (subagent_type_of lower ty) as [k|] eqn:Hk; [|done]. destruct (as_str (index v "prompt")) as [p|]; [|done].
  destruct (match as_str _ with Some _ => _ | None => _ end); [|done]. intros [= <-]. exists ty. cbn.
  do 3 (split; [done|]). split; [unfold turns_of; lia|done].
Qed.

Lemma parse_each_inv lower l ts : parse_each lower l = Ok ts ->
  Forall2 (fun v t => parse_one_task lower v = Ok t) l ts.
Proof.
  revert ts. induction l as [|v l IH]; intros ts; cbn [parse_each]; [intros [= <-]; constructor|].
  destruct (parse_one_task lower v) as [t|] eqn:E; [|done].
  destruct (parse_each lower l) as [ts'|]; [|done]. intros [= <-]. constructor; [done|by apply IH].
Qed.

(** The values a list of tasks was read from. *)
Lemma parse_tasks_inv lower input ts : parse_tasks lower input = Ok ts ->
  ts <> [] /\
  ((exists arr, as_array (index input "tasks") = Some arr /\ Forall2 (fun v t => parse_one_task lower v = Ok t) arr ts) \/
   (as_array (index input "tasks") = None /\ exists t, ts = [t] /\ parse_one_task lower input = Ok t)).
Proof.
  unfold parse_tasks. destruct (as_array _) as [[|v arr]|]; [done| |].
  - intros Hp%parse_each_inv. split; [by destruct ts; [inversion Hp|]|]. left. eauto.
  - destruct (parse_one_task lower input) as [t|]; [|done]. intros [= <-]. split; [done|]. right. eauto.
Qed.

Definition read_only (k : SubagentType) : bool := match k with Explore | PlanAgent => true | _ => false end.

Lemma not_mutable_read_only lower v t : lower_ascii_kinds lower ->
  parse_one_task lower v = Ok t -> is_mutable v = false -> read_only (ta_kind t) = true.
Proof.
  intros Hl (ty & Hty & Hk & _)%parse_one_task_inv. unfold is_mutable. rewrite Hty. unfold eq_ignore_ascii_case.
  change (to_ascii_lowercase "coder") with "coder". change (to_ascii_lowercase "verifier") with "verifier".
  intros [H1 H2]%orb_false_iff. apply String.eqb_neq in H1, H2. unfold subagent_type_of in Hk. cbv zeta in Hk.
  destruct (String.eqb_spec (lower ty) "explore"); [by injection Hk as <-|].
  destruct (String.eqb_spec (lower ty) "plan"); [by injection Hk as <-|].
  destruct (String.eqb_spec (lower ty) "coder") as [E|]; [by rewrite Hl, E in H1; auto|].
  destruct (String.eqb_spec (lower ty) "verifier") as [E|]; [by rewrite Hl, E in H2; auto|]. done.
Qed.

(** ** Properties *)

(** The verdict of a verifier reaches the loop.  The loop reads back from
    a verifier's report exactly the verdict that was put into it, whatever the
    report's text says; and a delegated verifier whose output the loop reads as
    a pass ran to its end without an error event, and its last line was the
    verdict. *)
Theorem verdict_reaches_loop ets order parent wm root git_add is_dir uuid has_aux run permit now id t sh out evs sh'
    (Hid : has_char newline id = false) (Hk : ta_kind t = Verifier)
    (Hrun : delegate_single ets order
              (fun sp => fst (run_subagent parent wm root git_add is_dir uuid has_aux run permit sp)) now id t sh
            = (Ok out, evs, sh')) :
  (forall r, delegate_output_verdict (format_report id Verifier r) = re_verdict r) /\
  (forall v, delegate_output_verdict out = Some v ->
     verifier_failed out = match v with VFail => true | VPass => false end /\
     exists wt es, rr_events (run (setup_of parent wm has_aux (spec_of id t) wt) (spec_of id t)) = Some es /\
       co_failure (collect_events es) = None /\ parse_verdict (co_response (collect_events es)) = Some v).
Proof.
  assert (Hrt : forall r, delegate_output_verdict (format_report id Verifier r) = re_verdict r).
  { intros r. unfold delegate_output_verdict. destruct (format_report_lines id r Hid) as [rest ->].
    rewrite (verdict_of_other _ "."%char); [apply verdict_of_marker|done|..];
      (intros tt E; apply (f_equal (fun x => ends_with x ".")) in E; by rewrite (ends_with_app tt ".") in E). }
  split; [done|]. intros v Hv. split.
  { unfold verifier_failed. rewrite Hv. by destruct v. }
  unfold delegate_single in Hrun. destruct (run_one _ now id t) as [[r s]|e] eqn:E; [|done].
  injection Hrun as <- _ _. unfold run_one in E.
  destruct (run_subagent _ _ _ _ _ _ _ _ _ _) as [[r0|] rec] eqn:Er; [|done]. cbn [fst] in E. injection E as -> <-.
  cbn [ss_type] in Hv. rewrite Hk, Hrt in Hv.
  unfold run_subagent in Er. destruct permit; [|done]. cbn [negb] in Er.
  destruct (bind_worktree _ _ _ _ _ _) as [[wt branch]|]; [|done]. injection Er as Er _.
  destruct (report_verdict _ _ _ _ _ _ Er Hv) as [_ (es & H1 & H2 & H3)]. by exists wt, es.
Qed.

(** [C28] Planning mode delegates only read-only sub-agents.  The gate of the
    planning mode looks at the raw parameters and the tool parses them itself:
    whenever the gate lets a delegation pass, every task of it is of a
    read-only kind, runs in planning mode with the read-only tools and in no
    worktree, within one to fifty turns; and every task list is non-empty. *)
Theorem planning_delegates_read_only lower parent wm has_aux input ts t id wt
    (Hl : lower_ascii_kinds lower) (Hgate : requests_coder input = false)
    (Hp : parse_tasks lower input = Ok ts) (Ht : t ∈ ts) :
  read_only (ta_kind t) = true /\ (1 <= ta_max_turns t <= 50)%Z /\
  su_tools (setup_of parent wm has_aux (spec_of id t) wt) = ReadonlyTools /\
  su_mode (setup_of parent wm has_aux (spec_of id t) wt) = Plan /\
  sp_worktree (spec_of id t) = NoWorktree /\
  confirmation_override (su_plate (setup_of parent wm has_aux (spec_of id t) wt)) = Some (ta_allow_guarded t).
Proof.
  assert (H : read_only (ta_kind t) = true /\ (1 <= ta_max_turns t <= 50)%Z).
  { unfold requests_coder in Hgate. destruct (is_mutable input) eqn:Hm; [done|].
    apply parse_tasks_inv in Hp as [_ [(arr & Ha & Hf)|(_ & t0 & -> & H0)]].
    - rewrite Ha in Hgate. apply list_elem_of_lookup in Ht as [i Hi].
      destruct (Forall2_lookup_r _ _ _ _ _ Hf Hi) as (v & Hv & Hpv).
      assert (Hmv : is_mutable v = false).
      { apply not_true_iff_false. intros E. rewrite <- not_true_iff_false, existsb_exists in Hgate. apply Hgate.
        exists v. split; [|done]. apply list_elem_of_In. by eapply list_elem_of_lookup_2. }
      split; [by eapply not_mutable_read_only|]. by apply parse_one_task_inv in Hpv as (? & _ & _ & _ & ? & _).
    - apply list_elem_of_singleton in Ht as ->.
      split; [by eapply not_mutable_read_only|]. by apply parse_one_task_inv in H0 as (? & _ & _ & _ & ? & _). }
  destruct H as [Hr Hb]. do 2 (split; [done|]). cbn. by destruct (ta_kind t).
Qed.

(** A parallel delegation, in every order its tasks end in.  Its output
    has one section per task, in the order of the tasks, which depends on the
    task and on whether it was joined before the end, and on nothing else; any
    two orders with the same ends give the same output and the same sessions,
    and events that differ in their order only; every task is announced before
    any end; and at most sixty-four sessions are kept. *)
Theorem delegate_parallel_spec ets order subagent ws js js' sh
    (Horder : forall m, order m ≡ₚ map_to_list m) (Hsize : base.size (kept sh) <= SESSION_CAPACITY)
    (Hperm : js ≡ₚ js') :
  let '(out, evs, sh1) := delegate_parallel ets order subagent ws js sh in
  let '(out', evs', sh1') := delegate_parallel ets order subagent ws js' sh in
  out = str_join (nl +:+ nl) (imap (fun i w => section_of i w (slot_in subagent js i w)) ws) /\
  out' = out /\ sh1' = sh1 /\ evs' ≡ₚ evs /\
  map (fun w => started_event (sw_id w) (sw_task w)) ws `prefix_of` evs /\
  base.size (kept sh1) <= SESSION_CAPACITY.
Proof.
  unfold delegate_parallel.
  destruct (join_all subagent ws js) as [slots evs] eqn:E1, (join_all subagent ws js') as [slots' evs'] eqn:E2.
  destruct (join_all_spec subagent ws js) as [S1 V1], (join_all_spec subagent ws js') as [S2 V2].
  rewrite E1 in S1, V1. rewrite E2 in S2, V2. cbn [fst snd] in S1, V1, S2, V2.
  assert (Hs : slots' = slots).
  { rewrite S1, S2. apply imap_ext. intros i w _. by apply slot_in_perm. }
  rewrite Hs. destruct (aggregate ets order 0 ws slots sh) as [out sh1] eqn:Ea.
  pose proof (aggregate_sections ets order ws (slot_in subagent js) 0 sh) as Hag. cbn [Nat.add] in Hag.
  change (fun i : nat => slot_in subagent js i) with (slot_in subagent js) in Hag.
  rewrite <- S1, Ea in Hag. cbn [fst] in Hag.
  split; [by rewrite Hag|]. do 2 (split; [done|]). rewrite V1, V2. split.
  { by rewrite Hperm. }
  split; [by eexists|].
  pose proof (aggregate_capacity ets order Horder ws slots 0 sh Hsize) as Hc. by rewrite Ea in Hc.
Qed.

(** The documented behaviour of [str::to_lowercase] on letters of ASCII. *)
Definition lower_letters (lower : string -> string) : Prop :=
  forall s, char_all is_ascii_alphabetic s = true -> lower s = to_ascii_lowercase s.

Lemma subagent_type_roundtrip lower k : lower_letters lower -> subagent_type_of lower (subagent_type_str k) = Ok k.
Proof. intros Hl. unfold subagent_type_of. destruct k; rewrite Hl by done; reflexivity. Qed.

Lemma model_roundtrip lower m : lower_letters lower -> model_of lower (model_str m) = Ok m.
Proof. intros Hl. unfold model_of. destruct m; rewrite Hl by done; reflexivity. Qed.

(** A kept session survives a restart.  The row written for a session
    gives back exactly that session, with its history, kind, model, grant and
    worktree; a row of the older form, or of a kind that is not known, grants
    nothing. *)
Theorem stored_session_roundtrip lower ets efs mfs order id s sh
    (Hl : lower_letters lower) (Hserde : forall e json, ets e = Some json -> efs json = Some e)
    (Hs : is_Some (ets (envelope_of s))) :
  (exists row, last (saved (persist_session ets order id s sh)) = Some row /\ sr_id row = id /\
    from_stored lower efs mfs (sr_json row) (sr_type row) (sr_created row) (sr_last row) = Some s) /\
  (forall json ty created last s', from_stored lower efs mfs json ty created last = Some s' ->
    (efs json = None -> ss_allow_guarded s' = false /\ ss_worktree s' = None) /\
    (subagent_type_of lower ty = Ok (ss_type s') \/ ss_type s' = Explore)).
Proof.
  split.
  - destruct Hs as [json Hj]. cbn [persist_session saved]. unfold to_stored_json. rewrite Hj.
    eexists. split; [apply last_snoc|]. cbn [sr_id sr_json sr_type sr_created sr_last]. split; [done|].
    unfold from_stored. rewrite (Hserde _ _ Hj), subagent_type_roundtrip by done. cbn. rewrite model_roundtrip by done.
    by destruct s.
  - intros json ty created last s'. unfold from_stored.
    destruct (efs json) as [e|], (mfs json), (subagent_type_of lower ty);
      try destruct (en_v e =? 2)%Z; intros [= <-]; cbn; naive_solver.
Qed.

(** Continuing a session.  Its kind, model, grant and creation time are
    never changed by [send_message], and the run it starts is given exactly
    these and the kept history; a sub-agent that had a worktree of its own
    works in the same one; no other session is touched or dropped; an error
    before the run changes nothing, and a failed run only the time of the last
    use. *)
Theorem resume_keeps_bindings ets order parent wm root git_add is_dir uuid has_aux run permit started ended input sh :
  let subagent := fun sp => fst (run_subagent parent wm root git_add is_dir uuid has_aux run permit sp) in
  let '(r, evs, sh') := send_message ets order subagent started ended input sh in
  match as_str (index input "subagent_id"), as_str (index input "message") with
  | Some id, Some message =>
      (forall k, k <> id -> kept sh' !! k = kept sh !! k) /\ base.size (kept sh') = base.size (kept sh) /\
      match kept sh !! id with
      | None => is_ok r = false /\ sh' = sh /\ evs = []
      | Some s =>
          exists s', kept sh' !! id = Some s' /\
            (ss_type s', ss_model s', ss_allow_guarded s', ss_created s') =
              (ss_type s, ss_model s, ss_allow_guarded s, ss_created s) /\
            (ss_type s = Coder -> is_Some (ss_worktree s) -> ss_worktree s' = ss_worktree s) /\
            (is_ok r = false -> s' = touch started s /\ saved sh' = saved sh) /\
            (is_ok r = true -> exists wt rep,
               report_of (resume_spec id message (turns_of input) s) (ss_worktree s') (re_worktree_branch rep)
                 (run (setup_of parent wm has_aux (resume_spec id message (turns_of input) s) wt)
                      (resume_spec id message (turns_of input) s)) = Ok rep /\ wt = ss_worktree s' /\
               ss_history s' = re_history rep)
      end
  | _, _ => is_ok r = false /\ sh' = sh /\ evs = []
  end.
Proof.
  intros subagent. unfold send_message.
  destruct (as_str (index input "subagent_id")) as [id|]; [|done].
  destruct (as_str (index input "message")) as [message|]; [|done].
  destruct (kept sh !! id) as [s|] eqn:Hs; [|done].
  set (sh1 := {| kept := _; saved := _ |}).
  assert (Hpres : is_Some (kept sh1 !! id)) by (cbn; rewrite lookup_insert_eq; eauto).
  assert (Hs1 : forall k, k <> id -> kept sh1 !! k = kept sh !! k) by (intros k Hk; cbn; by rewrite lookup_insert_ne).
  assert (Hz1 : base.size (kept sh1) = base.size (kept sh)) by (cbn; apply map_size_insert_Some; eauto).
  set (spec := resume_spec id message (turns_of input) s).
  destruct (subagent spec) as [r|e] eqn:Er; cbn [is_ok].
  - rewrite persist_present by done. split; [intros k Hk; rewrite lookup_insert_ne by done; by apply Hs1|].
    split; [by rewrite map_size_insert_Some|].
    eexists. rewrite lookup_insert_eq. split; [done|]. cbn. split; [done|].
    unfold subagent, run_subagent in Er. destruct permit; [|done]. cbn [negb fst] in Er.
    destruct (bind_worktree _ _ _ _ _ _) as [[wt branch]|] eqn:Hb; [|done]. cbn [fst] in Er.
    destruct (report_worktree _ _ _ _ _ Er) as [Hw Hbr]. split; [|split; [done|]].
    + intros Hc [path Hp]. rewrite Hw, Hp. unfold bind_worktree, spec, resume_spec in Hb. cbn [sp_worktree] in Hb.
      rewrite Hc, Hp in Hb. destruct (is_dir path); [|done]. by injection Hb as <- _.
    + intros _. exists wt, r. rewrite Hw, Hbr. done.
  - split; [done|]. split; [done|]. exists (touch started s). split; [cbn; by rewrite lookup_insert_eq|]. done.
Qed.

(** ** Concrete runs *)

Definition demo_task (k : SubagentType) (prompt : string) : TaskInput :=
  {| ta_kind := k; ta_prompt := prompt; ta_max_turns := 25; ta_model := Secondary; ta_allow_guarded := false |}.

Definition no_row (_ : SessionEnvelope) : option string := None.
Definition no_sessions : Sessions := {| kept := ∅; saved := [] |}.

(** A sub-agent that repeats the events of [demo_events]. *)
Definition demo_single (k : SubagentType) (final : string) : result string string * list Lifecycle * Sessions :=
  delegate_single no_row map_to_list
    (fun sp => fst (run_subagent demo_matrix (fun _ => demo_matrix) (Ok "/work") (fun _ _ _ => Ok ()) (fun _ => true) "1a2b"
                      false (demo_run (demo_events final)) true sp)) 7 "s1" (demo_task k "check") no_sessions.

Definition output_of_run {A B C} (x : result A string * B * C) : string :=
  match x with (Ok s, _, _) => s | _ => "" end.

Lemma verdict_reaches_loop_witness :
  delegate_output_verdict (output_of_run (demo_single Verifier "Verdict: FAIL")) = Some VFail /\
  verifier_failed (output_of_run (demo_single Verifier "Verdict: FAIL")) = true.
Proof.
  assert (Hv : delegate_output_verdict (output_of_run (demo_single Verifier "Verdict: FAIL")) = Some VFail)
    by (vm_compute; reflexivity).
  split; [exact Hv|].
  refine (proj1 (proj2 (verdict_reaches_loop no_row map_to_list demo_matrix (fun _ => demo_matrix) (Ok "/work")
    (fun _ _ _ => Ok ()) (fun _ => true) "1a2b" false (demo_run (demo_events "Verdict: FAIL")) true 7 "s1"
    (demo_task Verifier "check") no_sessions _ _ _ _ _ _) VFail Hv)).
  - reflexivity.
  - reflexivity.
  - vm_compute. reflexivity.
Defined.

(** In a batch the first verdict line wins: the failure of a second verifier
    is not seen. *)
Example batch_loses_second_verdict :
  let pass := fst (run_subagent demo_matrix (fun _ => demo_matrix) (Ok "/work") (fun _ _ _ => Ok ()) (fun _ => true) "1a2b"
                      false (demo_run (demo_events "Verdict: PASS")) true (demo_spec Verifier)) in
  let fail := fst (run_subagent demo_matrix (fun _ => demo_matrix) (Ok "/work") (fun _ _ _ => Ok ()) (fun _ => true) "1a2b"
                      false (demo_run (demo_events "Verdict: FAIL")) true (demo_spec Verifier)) in
  let subagent sp := if String.eqb (sp_message sp) "a" then pass else fail in
  let ws := [{| sw_id := "s1"; sw_task := demo_task Verifier "a"; sw_now := 7 |};
             {| sw_id := "s2"; sw_task := demo_task Verifier "b"; sw_now := 7 |}] in
  let out := fst (fst (delegate_parallel no_row map_to_list subagent ws [Ended 1; Ended 0] no_sessions)) in
  delegate_output_verdict out = Some VPass /\ verifier_failed out = false /\
  contains_str out "Verifier verdict: FAIL" = true.
Proof. by vm_compute. Qed.

(** The type beside a list of tasks is not read by the tool, but it makes the
    loop take the delegation for a verification. *)
Definition stray_type : Value :=
  Obj [("subagent_type", Str "Verifier");
       ("tasks", Arr [Obj [("prompt", Str "look"); ("subagent_type", Str "Explore")]])].

Example stray_type_counts_as_verifier :
  requests_verifier stray_type = true /\
  parse_tasks to_ascii_lowercase stray_type = Ok [demo_task Explore "look"].
Proof. by vm_compute. Qed.

Definition demo_batch : Value :=
  Obj [("tasks", Arr [Obj [("max_turns", Num (PosInt 500)); ("prompt", Str "look"); ("subagent_type", Str "EXPLORE")];
                      Obj [("prompt", Str "design"); ("subagent_type", Str "Plan")]])].

Lemma planning_delegates_read_only_witness :
  exists t, parse_tasks to_ascii_lowercase demo_batch = Ok [t; demo_task PlanAgent "design"] /\
    (1 <= ta_max_turns t <= 50)%Z /\ read_only (ta_kind t) = true.
Proof.
  eexists. split; [vm_compute; reflexivity|].
  match goal with |- (1 <= ta_max_turns ?t <= 50)%Z /\ _ =>
    pose proof (planning_delegates_read_only to_ascii_lowercase demo_matrix (fun _ => demo_matrix) false demo_batch
      [t; demo_task PlanAgent "design"] t "s1" None) as Hp end.
  destruct Hp as (H1 & H2 & _).
  - intros s _. reflexivity.
  - vm_compute. reflexivity.
  - vm_compute. reflexivity.
  - by left.
  - split; [exact H2|exact H1].
Defined.

Lemma delegate_parallel_spec_witness :
  let subagent sp := if String.eqb (sp_message sp) "a" then Err "no slot"
                     else Ok {| re_response := "found it"; re_history := []; re_worktree_path := None;
                                re_worktree_branch := None; re_verdict := None |} in
  let ws := [{| sw_id := "s1"; sw_task := demo_task Explore "a"; sw_now := 7 |};
             {| sw_id := "s2"; sw_task := demo_task Explore "b"; sw_now := 7 |};
             {| sw_id := "s3"; sw_task := demo_task Explore "c"; sw_now := 7 |}] in
  let '(out, evs, sh1) := delegate_parallel no_row map_to_list subagent ws [Ended 1; Ended 0] no_sessions in
  let '(out', evs', sh1') := delegate_parallel no_row map_to_list subagent ws [Ended 0; Ended 1] no_sessions in
  out' = out /\ sh1' = sh1 /\ contains_str out "[1] Sub-agent s1 failed: no slot" = true /\
  contains_str out "[3] Sub-agent cancelled before completion." = true.
Proof.
  cbv zeta.
  match goal with |- context [delegate_parallel ?e ?o ?f ?ws ?js ?sh] =>
    pose proof (delegate_parallel_spec e o f ws [Ended 1; Ended 0] [Ended 0; Ended 1] sh) as Hp end.
  set (x := delegate_parallel _ _ _ _ [Ended 1; Ended 0] _) in *.
  set (y := delegate_parallel _ _ _ _ [Ended 0; Ended 1] _) in *.
  assert (Hc : contains_str (fst (fst x)) "[1] Sub-agent s1 failed: no slot" = true /\
    contains_str (fst (fst x)) "[3] Sub-agent cancelled before completion." = true) by (vm_compute; done).
  destruct x as [[out evs] sh1], y as [[out' evs'] sh1']. cbn [fst] in Hc.
  destruct Hp as (_ & H1 & H2 & _); [done|vm_compute; lia|constructor|]. split; [exact H1|]. split; [exact H2|exact Hc].
Defined.

(** A serializer for the stored form of one kind of session. *)
Definition demo_print (e : SessionEnvelope) : option string :=
  match en_history e, en_worktree e with
  | [], Some path =>
      if (en_v e =? 2)%Z && en_allow_guarded e && String.eqb (en_model e) "primary" then Some path else None
  | _, _ => None
  end.
Definition demo_parse (s : string) : option SessionEnvelope :=
  Some {| en_v := 2; en_history := []; en_model := "primary"; en_allow_guarded := true; en_worktree := Some s |}.

Definition fresh_session : SubagentSession :=
  {| ss_history := []; ss_type := Coder; ss_model := Primary; ss_allow_guarded := true;
     ss_worktree := Some "/work/.jia/worktrees/coder-1a2b"; ss_created := 5; ss_last_used := 9 |}.

Lemma demo_parse_print e json : demo_print e = Some json -> demo_parse json = Some e.
Proof.
  destruct e as [v h m g w]. unfold demo_print. cbn. destruct h; [|done]. destruct w as [path|]; [|done].
  destruct (Z.eqb_spec v 2) as [->|]; [|done]. destruct g; [|done]. cbn.
  destruct (String.eqb_spec m "primary") as [->|]; [|done]. by intros [= ->].
Qed.

Lemma stored_session_roundtrip_witness :
  exists row, last (saved (persist_session demo_print map_to_list "s1" fresh_session no_sessions)) = Some row /\
    from_stored to_ascii_lowercase demo_parse (fun _ => None) (sr_json row) (sr_type row) (sr_created row) (sr_last row)
      = Some fresh_session.
Proof.
  edestruct (stored_session_roundtrip to_ascii_lowercase demo_print demo_parse (fun _ => None) map_to_list "s1"
    fresh_session no_sessions) as [(row & H1 & _ & H2) _].
  - intros s _. reflexivity.
  - exact demo_parse_print.
  - vm_compute. by eexists.
  - exists row. split; [exact H1|exact H2].
Defined.
