(* ===== verification/Seeds.v ===== *)
(** * The seed store

    src/kernel/src/vijnana/alaya/mod.rs (seeds, their relevance, what the prompt
    shows of them) and src/kernel/src/palaces/gen_store/{seeds,helpers}.rs (the
    table of seeds: rows, tiers, budgets).  The table is the list of its rows;
    what SQLite leaves open, the order among equal keys, is an argument, as are
    serde_json's printer and parser. *)

From Stdlib Require Import Sorted.
From stdpp Require Import sorting.
From S2P Require Import Prelude RString Float Json GeJu.
Local Open Scope string_scope.
#[local] Arguments String.append !_ _ : simpl nomatch.

(** ** Seeds *)

Inductive SeedTier := Always | OnDemand | Archive.
Inductive SeedNature := Fact | Inference | Preference | Procedure.
Inductive SeedSource := UserStatement | ToolObservation | Consolidation | SystemInferred | SignalDetection | RenSoul | Handoff.
Inductive SeedContent := KeyValue (key value : string) | Triple (subject predicate object : string) | FreeText (text : string).

#[export] Instance SeedTier_eq_dec : EqDecision SeedTier.
Proof. solve_decision. Defined.
#[export] Instance SeedNature_eq_dec : EqDecision SeedNature.
Proof. solve_decision. Defined.
#[export] Instance SeedSource_eq_dec : EqDecision SeedSource.
Proof. solve_decision. Defined.

Record Seed := {
  sd_id : string;
  sd_session : string;
  sd_workspace : string;
  sd_nature : SeedNature;
  sd_source : SeedSource;
  sd_content : SeedContent;
  sd_palace : Palace;
  sd_stem : Stem;
  sd_geju_key : string;
  sd_created_at : Z;
  sd_access_count : Z;
  sd_last_accessed_at : Z;
  sd_strength : spec_float;
  sd_tier : SeedTier
}.

Definition Seed_new (uuid : string) (now : Z) (session workspace : string) (nature : SeedNature) (source : SeedSource)
    (content : SeedContent) (palace : Palace) (stem : Stem) (geju_key : string) : Seed :=
  {| sd_id := uuid; sd_session := session; sd_workspace := workspace; sd_nature := nature; sd_source := source;
     sd_content := content; sd_palace := palace; sd_stem := stem; sd_geju_key := geju_key; sd_created_at := now;
     sd_access_count := 0; sd_last_accessed_at := now; sd_strength := F32.of_Z 1; sd_tier := OnDemand |}.

Definition relevance_score (now : Z) (s : Seed) : spec_float :=
  let age_secs := F32.of_Z (Z.max 0 (now - Z.max (sd_last_accessed_at s) (sd_created_at s))) in
  let age_hours := F32.div age_secs (F32.of_Z 3600) in
  let recency := F32.div (F32.of_Z 1) (F32.add (F32.of_Z 1) (F32.div age_hours (F32.of_Z 24))) in
  let access_bonus := fmin (F32.mul (F32.of_Z (sd_access_count s)) (F32.lit 5 100)) (F32.lit 3 10) in
  fmin (F32.add (F32.add (F32.mul (sd_strength s) (F32.lit 5 10)) (F32.mul recency (F32.lit 3 10))) access_bonus) (F32.of_Z 1).

(** Seeds of these sources and of this nature are not forgotten. *)
Definition is_prot (s : Seed) : bool :=
  match sd_source s with UserStatement | RenSoul | Handoff => true | _ => false end ||
  match sd_nature s with Preference => true | _ => false end.

(** ** Names *)

Definition tier_name (t : SeedTier) : string := match t with Always => "Always" | OnDemand => "OnDemand" | Archive => "Archive" end.
Definition nature_name (n : SeedNature) : string :=
  match n with Fact => "Fact" | Inference => "Inference" | Preference => "Preference" | Procedure => "Procedure" end.
Definition source_name (s : SeedSource) : string :=
  match s with
  | UserStatement => "UserStatement" | ToolObservation => "ToolObservation" | Consolidation => "Consolidation"
  | SystemInferred => "SystemInferred" | SignalDetection => "SignalDetection" | RenSoul => "RenSoul" | Handoff => "Handoff"
  end.
Definition palace_name (p : Palace) : string :=
  match p with
  | Kan => "Kan" | Kun => "Kun" | Zhen => "Zhen" | Xun => "Xun" | Zhong => "Zhong" | Qian => "Qian" | Dui => "Dui"
  | Gen => "Gen" | Li => "Li"
  end.
Definition stem_name (s : Stem) : string :=
  match s with
  | Jia => "Jia" | Yi => "Yi" | Bing => "Bing" | Ding => "Ding" | Wu => "Wu" | Ji => "Ji" | Geng => "Geng" | Xin => "Xin"
  | Ren => "Ren" | Gui => "Gui"
  end.

(** The variant of a given name. *)
Definition named {A} (name : A -> string) (l : list A) (s : string) : option A :=
  List.find (fun a => String.eqb (name a) s) l.

Definition all_tiers := [Always; OnDemand; Archive].
Definition all_natures := [Fact; Inference; Preference; Procedure].
Definition all_sources := [UserStatement; ToolObservation; Consolidation; SystemInferred; SignalDetection; RenSoul; Handoff].
Definition all_palaces := [Kan; Kun; Zhen; Xun; Zhong; Qian; Dui; Gen; Li].
Definition all_stems := [Jia; Yi; Bing; Ding; Wu; Ji; Geng; Xin; Ren; Gui].

(** ** serde: seeds as JSON values *)

Definition content_json (c : SeedContent) : Value :=
  match c with
  | KeyValue k v => Obj [("key", Str k); ("type", Str "KeyValue"); ("value", Str v)]
  | Triple s p o => Obj [("object", Str o); ("predicate", Str p); ("subject", Str s); ("type", Str "Triple")]
  | FreeText t => Obj [("text", Str t); ("type", Str "FreeText")]
  end.

Definition decode_content (v : Value) : option SeedContent :=
  ty ← as_str (index v "type");
  if String.eqb ty "KeyValue" then
    k ← as_str (index v "key"); w ← as_str (index v "value"); Some (KeyValue k w)
  else if String.eqb ty "Triple" then
    s ← as_str (index v "subject"); p ← as_str (index v "predicate"); o ← as_str (index v "object"); Some (Triple s p o)
  else if String.eqb ty "FreeText" then t ← as_str (index v "text"); Some (FreeText t)
  else None.

Definition int_json (z : Z) : Value := Num (if (0 <=? z)%Z then PosInt z else NegInt z).
Definition as_i64 (v : Value) : option Z :=
  match v with
  | Num (PosInt n) => if (n <? 2 ^ 63)%Z then Some n else None
  | Num (NegInt n) => Some n
  | _ => None
  end.

(** A binary32 value kept as a binary64 one, and back with rounding. *)
Definition to_f32 (x : spec_float) : spec_float :=
  match x with S754_finite s m e => binary_normalize 24 128 (cond_Zopp s (Z.pos m)) e s | _ => x end.

(** ** The table *)

Record SeedRow := {
  r_id : string;
  r_session : string;
  r_workspace : string;
  r_nature : string;
  r_source : string;
  r_content_type : string;
  r_content_json : string;
  r_content_text : string;
  r_palace : Z;
  r_stem : Z;
  r_geju_key : string;
  r_created_at : Z;
  r_access_count : Z;
  r_last_accessed_at : Z;
  r_strength : spec_float;
  r_tier : string
}.

(** The rows, and the entries of the text index. *)
Record SeedTable := { rows : list SeedRow; fts : list (string * string) }.

Section Store.
Context (from_str : string -> option Value) (to_string : Value -> string).
(** What a binary32 strength printed as JSON is read as, and what a binary64
    one printed and parsed again becomes. *)
Context (printed : spec_float -> spec_float) (reread : spec_float -> spec_float).

(** [Seed] as the derived serializer prints it. *)
Definition seed_json (s : Seed) : Value :=
  Obj [("access_count", int_json (sd_access_count s));
       ("content", content_json (sd_content s));
       ("created_at", int_json (sd_created_at s));
       ("geju_key", Str (sd_geju_key s));
       ("id", Str (sd_id s));
       ("intent_stem", Str (stem_name (sd_stem s)));
       ("last_accessed_at", int_json (sd_last_accessed_at s));
       ("nature", Str (nature_name (sd_nature s)));
       ("palace", Str (palace_name (sd_palace s)));
       ("session_id", Str (sd_session s));
       ("source", Str (source_name (sd_source s)));
       ("strength", Num (FloatNum (printed (sd_strength s))));
       ("tier", Str (tier_name (sd_tier s)));
       ("workspace_id", Str (sd_workspace s))].

Definition decode_seed (v : Value) : option Seed :=
  id ← as_str (index v "id");
  session ← as_str (index v "session_id");
  nature ← as_str (index v "nature") ≫= named nature_name all_natures;
  source ← as_str (index v "source") ≫= named source_name all_sources;
  content ← decode_content (index v "content");
  palace ← as_str (index v "palace") ≫= named palace_name all_palaces;
  stem ← as_str (index v "intent_stem") ≫= named stem_name all_stems;
  geju ← as_str (index v "geju_key");
  created ← as_i64 (index v "created_at");
  access ← as_u64 (index v "access_count");
  last ← as_i64 (index v "last_accessed_at");
  strength ← as_f64 (index v "strength");
  tier ← match get v "tier" with None => Some OnDemand | Some t => as_str t ≫= named tier_name all_tiers end;
  workspace ← match get v "workspace_id" with None => Some "" | Some w => as_str w end;
  if (access <? 2 ^ 32)%Z then
    Some {| sd_id := id; sd_session := session; sd_workspace := workspace; sd_nature := nature; sd_source := source;
            sd_content := content; sd_palace := palace; sd_stem := stem; sd_geju_key := geju; sd_created_at := created;
            sd_access_count := access; sd_last_accessed_at := last; sd_strength := to_f32 strength; sd_tier := tier |}
  else None.

(** [extract_content_text]. *)
Definition content_text_of (content_type : string) (json : string) : string :=
  match from_str json with
  | None => ""
  | Some v =>
      let f k := default "" (as_str (index v k)) in
      if String.eqb content_type "KeyValue" then f "key" +:+ ": " +:+ f "value"
      else if String.eqb content_type "Triple" then f "subject" +:+ " " +:+ f "predicate" +:+ " " +:+ f "object"
      else f "text"
  end.

(** The position of the first equal name, as the codes number them. *)
Definition code_of (names : list string) (dflt : Z) (s : option string) : Z :=
  match s with
  | Some x => match list_find (fun y => y = x) names with Some (i, _) => Z.of_nat i | None => dflt end
  | None => dflt
  end.
Definition name_of (names : list string) (dflt : string) (c : Z) : string :=
  if (c <? 0)%Z then dflt else default dflt (names !! Z.to_nat c).

Definition palace_codes : list string := ["Kan"; "Kun"; "Zhen"; "Xun"; "Zhong"; "Qian"; "Dui"; "Gen"; "Li"].
Definition stem_codes : list string := ["Jia"; "Yi"; "Bing"; "Ding"; "Wu"; "Ji"; "Geng"; "Xin"; "Ren"; "Gui"].

Definition row_of_json (v : Value) : SeedRow :=
  let f k d := default d (as_str (index v k)) in
  let content_type := default "FreeText" (as_str (index (index v "content") "type")) in
  let json := to_string (index v "content") in
  {| r_id := f "id" ""; r_session := f "session_id" ""; r_workspace := f "workspace_id" "";
     r_nature := f "nature" "Fact"; r_source := f "source" "SystemInferred"; r_content_type := content_type;
     r_content_json := json; r_content_text := content_text_of content_type json;
     r_palace := code_of palace_codes 0 (as_str (index v "palace"));
     r_stem := code_of stem_codes 4 (as_str (index v "intent_stem"));
     r_geju_key := f "geju_key" ""; r_created_at := default 0%Z (as_i64 (index v "created_at"));
     r_access_count := (let n := default 0%Z (as_u64 (index v "access_count")) in
                        if (n <? 2 ^ 63)%Z then n else (n - 2 ^ 64)%Z);
     r_last_accessed_at := default 0%Z (as_i64 (index v "last_accessed_at"));
     r_strength := default (F64.of_Z 1) (as_f64 (index v "strength")); r_tier := f "tier" "OnDemand" |}.

(** [insert_seed]: a row whose identifier is taken is ignored, its text is
    indexed again all the same. *)
Definition insert_seed (v : Value) (t : SeedTable) : SeedTable :=
  let r := row_of_json v in
  {| rows := if bool_decide (r_id r ∈ map r_id (rows t)) then rows t else (rows t ++ [r])%list;
     fts := (fts t ++ [(r_id r, r_content_text r)])%list |}.

(** [seed_row_to_json]. *)
Definition row_json (r : SeedRow) : Value :=
  Obj [("access_count", int_json (r_access_count r));
       ("content", default Null (from_str (r_content_json r)));
       ("created_at", int_json (r_created_at r));
       ("geju_key", Str (r_geju_key r));
       ("id", Str (r_id r));
       ("intent_stem", Str (name_of stem_codes "Wu" (r_stem r)));
       ("last_accessed_at", int_json (r_last_accessed_at r));
       ("nature", Str (r_nature r));
       ("palace", Str (name_of palace_codes "Zhen" (r_palace r)));
       ("session_id", Str (r_session r));
       ("source", Str (r_source r));
       ("strength", Num (FloatNum (reread (r_strength r))));
       ("tier", Str (r_tier r));
       ("workspace_id", Str (r_workspace r))].

Definition load_row (r : SeedRow) : option Seed := decode_seed (row_json r).

(** *** Changes of the table *)

Definition update_rows (f : SeedRow -> SeedRow) (t : SeedTable) : SeedTable := {| rows := map f (rows t); fts := fts t |}.

Definition with_strength (x : spec_float) (r : SeedRow) : SeedRow :=
  {| r_id := r_id r; r_session := r_session r; r_workspace := r_workspace r; r_nature := r_nature r; r_source := r_source r;
     r_content_type := r_content_type r; r_content_json := r_content_json r; r_content_text := r_content_text r;
     r_palace := r_palace r; r_stem := r_stem r; r_geju_key := r_geju_key r; r_created_at := r_created_at r;
     r_access_count := r_access_count r; r_last_accessed_at := r_last_accessed_at r; r_strength := x; r_tier := r_tier r |}.
Definition with_tier (tier : string) (r : SeedRow) : SeedRow :=
  {| r_id := r_id r; r_session := r_session r; r_workspace := r_workspace r; r_nature := r_nature r; r_source := r_source r;
     r_content_type := r_content_type r; r_content_json := r_content_json r; r_content_text := r_content_text r;
     r_palace := r_palace r; r_stem := r_stem r; r_geju_key := r_geju_key r; r_created_at := r_created_at r;
     r_access_count := r_access_count r; r_last_accessed_at := r_last_accessed_at r; r_strength := r_strength r; r_tier := tier |}.
Definition with_access (n last : Z) (x : spec_float) (r : SeedRow) : SeedRow :=
  {| r_id := r_id r; r_session := r_session r; r_workspace := r_workspace r; r_nature := r_nature r; r_source := r_source r;
     r_content_type := r_content_type r; r_content_json := r_content_json r; r_content_text := r_content_text r;
     r_palace := r_palace r; r_stem := r_stem r; r_geju_key := r_geju_key r; r_created_at := r_created_at r;
     r_access_count := n; r_last_accessed_at := last; r_strength := x; r_tier := r_tier r |}.

(** [WHERE id = ...], for each of the identifiers in turn. *)
Definition on_id (f : SeedRow -> SeedRow) (id : string) (t : SeedTable) : SeedTable :=
  update_rows (fun r => if String.eqb (r_id r) id then f r else r) t.
Definition on_ids (f : SeedRow -> SeedRow) (ids : list string) (t : SeedTable) : SeedTable :=
  foldl (fun t id => on_id f id t) t ids.

Definition weaken_seeds (ids : list string) (factor : spec_float) (t : SeedTable) : SeedTable :=
  on_ids (fun r => with_strength (F64.mul (r_strength r) factor) r) ids t.

Definition delete_one (t : SeedTable) (id : string) : SeedTable :=
  {| rows := List.filter (fun r => negb (String.eqb (r_id r) id)) (rows t);
     fts := List.filter (fun e => negb (String.eqb (fst e) id)) (fts t) |}.
Definition delete_seeds (ids : list string) (t : SeedTable) : SeedTable := foldl delete_one t ids.

Definition set_tier_batch (ids : list string) (tier : string) (t : SeedTable) : SeedTable := on_ids (with_tier tier) ids t.

(** SQL's [MIN] of two numbers. *)
Definition sql_min (x y : spec_float) : spec_float := if fltb y x then y else x.

Definition touch_row (now : Z) (r : SeedRow) : SeedRow :=
  with_access (r_access_count r + 1) now (sql_min (F64.add (r_strength r) (F64.lit 1 100)) (F64.of_Z 1)) r.

Definition promote (from to : string) (least : Z) (r : SeedRow) : SeedRow :=
  if String.eqb (r_tier r) from && (least <=? r_access_count r)%Z then with_tier to r else r.

Definition touch_batch (now : Z) (ids : list string) (t : SeedTable) : SeedTable :=
  match ids with
  | [] => t
  | _ =>
      let t := update_rows (fun r => if bool_decide (r_id r ∈ ids) then touch_row now r else r) t in
      let t := update_rows (promote "OnDemand" "Always" 8) t in
      update_rows (promote "Archive" "OnDemand" 5) t
  end.

(** *** Queries *)

(** [ORDER BY strength ASC], and descending. *)
Context (weakest_first : list SeedRow -> list SeedRow) (strongest_first : list SeedRow -> list SeedRow).
Context (newest_first : list SeedRow -> list SeedRow).

Definition load_all_seeds (t : SeedTable) : list SeedRow := newest_first (rows t).
Definition count_seeds (t : SeedTable) : nat := length (rows t).
Definition in_tier (tier : string) (r : SeedRow) : bool := String.eqb (r_tier r) tier.
Definition load_always_seeds (t : SeedTable) : list SeedRow :=
  take 10 (strongest_first (List.filter (in_tier "Always") (rows t))).

(** The [WHERE] of the two evictions. *)
Definition evictable (tier : string) (r : SeedRow) : bool :=
  String.eqb (r_tier r) tier && negb (String.eqb (r_source r) "UserStatement") && negb (String.eqb (r_source r) "RenSoul") &&
  negb (String.eqb (r_source r) "Handoff") && negb (String.eqb (r_nature r) "Preference").

Definition ONDEMAND_BUDGET : nat := 200.
Definition ARCHIVE_BUDGET : nat := 1000.

Record TierBudgetReport := { ondemand_total : nat; ondemand_demoted : nat; archive_total : nat; archive_deleted : nat }.

(** The identifiers over the budget of a tier. *)
Definition over_budget (tier : string) (budget : nat) (t : SeedTable) : list string :=
  let n := length (List.filter (in_tier tier) (rows t)) in
  if (budget <? n)%nat then map r_id (take (n - budget) (weakest_first (List.filter (evictable tier) (rows t)))) else [].

Definition enforce_tier_budgets (t : SeedTable) : TierBudgetReport * SeedTable :=
  let demoted := over_budget "OnDemand" ONDEMAND_BUDGET t in
  let t1 := set_tier_batch demoted "Archive" t in
  let deleted := over_budget "Archive" ARCHIVE_BUDGET t1 in
  ({| ondemand_total := length (List.filter (in_tier "OnDemand") (rows t)); ondemand_demoted := length demoted;
      archive_total := length (List.filter (in_tier "Archive") (rows t1)); archive_deleted := length deleted |},
   delete_seeds deleted t1).

(** ** What the prompt shows *)

Definition text_of (c : SeedContent) : string :=
  match c with
  | FreeText t => t | KeyValue k v => k +:+ ": " +:+ v | Triple s p o => s +:+ " " +:+ p +:+ " " +:+ o end.

Definition influence_line (c : SeedContent) : string :=
  "- " +:+ match c with FreeText t => of_chars (take 120 (chars t)) | _ => text_of c end.

(** [top_influence_prompt_with_bias] and [semantic_influence_prompt], on the
    seeds the query gave. *)
Definition influence_prompt (title : string) (seeds : list Seed) : string * list string :=
  match seeds with
  | [] => ("", [])
  | _ => (str_join nl ("" :: title :: map (fun s => influence_line (sd_content s)) seeds), map sd_id seeds)
  end.

Definition seed_content_short (c : SeedContent) : string :=
  match c with
  | KeyValue k v => k +:+ "=" +:+ v
  | Triple s p o => s +:+ " " +:+ p +:+ " " +:+ o
  | FreeText t => replace_str (of_chars (take 60 (chars t))) nl " "
  end.

Definition catalog_count (tier : string) (p : string -> bool) (stats : list (string * string * nat)) : nat :=
  list_sum (map (fun '(ti, na, n) => if String.eqb ti tier && p na then n else 0) stats).

Definition counted (n : nat) (what : string) : list string :=
  match n with O => [] | _ => [pretty (N.of_nat n) +:+ what] end.

(** [memory_catalog], from the aggregated counts and the seeds of the first
    tier. *)
Definition memory_catalog (stats : list (string * string * nat)) (always : list Seed) : string * list string :=
  let on p := catalog_count "OnDemand" p stats in
  let total := on (fun _ => true) in
  let archived := catalog_count "Archive" (fun _ => true) stats in
  (str_join nl
     ([nl +:+ "[Memory]"] ++
      (match always with [] => [] | _ => ["Always: " +:+ str_join ", " (map (fun s => seed_content_short (sd_content s)) always)] end) ++
      (match total with
       | O => []
       | _ => ["OnDemand: " +:+ str_join ", "
                 (counted (on (String.eqb "Fact")) " facts" ++ counted (on (String.eqb "Preference")) " preferences" ++
                  counted (on (String.eqb "Procedure")) " procedures" ++ counted (on (String.eqb "Inference")) " inferences")]
       end) ++
      (match archived with O => [] | _ => ["Archive: " +:+ pretty (N.of_nat archived) +:+ " archived"] end) ++
      (match total, archived with O, O => [] | _, _ => ["(Retrieve details with: namarupa query <keyword>)"] end))%list,
   map sd_id always).
End Store.

(** ** Lemmas: names, codes and the stored form *)

Lemma named_tier t : named tier_name all_tiers (tier_name t) = Some t.
Proof. by destruct t. Qed.
Lemma named_nature n : named nature_name all_natures (nature_name n) = Some n.
Proof. by destruct n. Qed.
Lemma named_source s : named source_name all_sources (source_name s) = Some s.
Proof. by destruct s. Qed.
Lemma named_palace p : named palace_name all_palaces (palace_name p) = Some p.
Proof. by destruct p. Qed.
Lemma named_stem s : named stem_name all_stems (stem_name s) = Some s.
Proof. by destruct s. Qed.

Lemma named_eq {A} (name : A -> string) l s a : named name l s = Some a -> name a = s.
Proof. unfold named. intros H%find_some. by apply String.eqb_eq, H. Qed.

Lemma palace_code_roundtrip p : name_of palace_codes "Zhen" (code_of palace_codes 0 (Some (palace_name p))) = palace_name p.
Proof. by destruct p. Qed.
Lemma stem_code_roundtrip s : name_of stem_codes "Wu" (code_of stem_codes 4 (Some (stem_name s))) = stem_name s.
Proof. by destruct s. Qed.

Lemma decode_content_json c : decode_content (content_json c) = Some c.
Proof. by destruct c. Qed.

Lemma as_i64_int z : (- 2 ^ 63 <= z < 2 ^ 63)%Z -> as_i64 (int_json z) = Some z.
Proof.
  intros Hz. unfold int_json. destruct (Z.leb_spec 0 z); [|done]. cbn.
  by destruct (Z.ltb_spec z (2 ^ 63)); [|lia].
Qed.
Lemma as_u64_int z : (0 <= z)%Z -> as_u64 (int_json z) = Some z.
Proof. intros Hz. unfold int_json. by destruct (Z.leb_spec 0 z); [|lia]. Qed.

(** What the kernel keeps of integers. *)
Definition in_range (s : Seed) : Prop :=
  (- 2 ^ 63 <= sd_created_at s < 2 ^ 63)%Z /\ (- 2 ^ 63 <= sd_last_accessed_at s < 2 ^ 63)%Z /\
  (0 <= sd_access_count s < 2 ^ 32)%Z.

Section Facts.
Context (from_str : string -> option Value) (to_string : Value -> string).
Context (printed reread : spec_float -> spec_float).

Abbreviation row_of s := (row_of_json from_str to_string (seed_json printed s)).
Abbreviation load_row := (load_row from_str reread).

Lemma load_row_of s : in_range s ->
  from_str (to_string (content_json (sd_content s))) = Some (content_json (sd_content s)) ->
  to_f32 (reread (printed (sd_strength s))) = sd_strength s ->
  load_row (row_of s) = Some s.
Proof.
  intros (Hc & Hl & Ha) Hjson Hf. unfold Seeds.load_row.
  assert (Hrow : row_json from_str reread (row_of s) = seed_json (fun _ => reread (printed (sd_strength s))) s).
  { unfold row_json, row_of_json, seed_json. cbn [r_access_count r_content_json r_created_at r_geju_key r_id r_stem
      r_last_accessed_at r_nature r_palace r_session r_source r_strength r_tier r_workspace].
    unfold index, get. cbn [Json.assoc String.eqb Ascii.eqb Bool.eqb default id as_str].
    rewrite !as_i64_int, as_u64_int by (done || lia). cbn [default id as_f64].
    rewrite palace_code_roundtrip, stem_code_roundtrip, Hjson.
    destruct (Z.ltb_spec (sd_access_count s) (2 ^ 63)); [done|lia]. }
  rewrite Hrow. unfold decode_seed, seed_json, index, get.
  cbn [Json.assoc String.eqb Ascii.eqb Bool.eqb default id as_str mbind option_bind].
  rewrite named_nature, named_source, named_palace, named_stem, named_tier, decode_content_json, !as_i64_int, as_u64_int
    by (done || lia).
  cbn [mbind option_bind as_f64]. destruct (Z.ltb_spec (sd_access_count s) (2 ^ 32)); [|lia].
  rewrite Hf. by destruct s.
Qed.

(** A loaded seed says what its row says. *)
Lemma load_row_inv r s : load_row r = Some s ->
  sd_id s = r_id r /\ source_name (sd_source s) = r_source r /\ nature_name (sd_nature s) = r_nature r /\
  tier_name (sd_tier s) = r_tier r.
Proof.
  unfold Seeds.load_row, decode_seed, row_json, index, get.
  cbn [Json.assoc String.eqb Ascii.eqb Bool.eqb default id as_str mbind option_bind].
  destruct (named nature_name _ _) as [n|] eqn:E1; [|done]. cbn [mbind option_bind].
  destruct (named source_name _ _) as [so|] eqn:E2; [|done]. cbn [mbind option_bind].
  destruct (decode_content _) as [c|]; [|done]. cbn [mbind option_bind].
  destruct (named palace_name _ _) as [p|]; [|done]. cbn [mbind option_bind].
  destruct (named stem_name _ _) as [st|]; [|done]. cbn [mbind option_bind].
  destruct (as_i64 (int_json (r_created_at r))) as [cr|]; [|done]. cbn [mbind option_bind].
  destruct (as_u64 _) as [a|]; [|done]. cbn [mbind option_bind].
  destruct (as_i64 _) as [l|]; [|done]. cbn [mbind option_bind as_f64].
  destruct (named tier_name _ _) as [ti|] eqn:E3; [|done]. cbn [mbind option_bind].
  destruct (_ <? _)%Z; [|done]. intros [= <-]. cbn. by apply named_eq in E1, E2, E3.
Qed.

(** The protection of the SQL statements and of the pipeline agree. *)
Definition prot_row (r : SeedRow) : bool := negb (evictable (r_tier r) r).

Lemma is_prot_row r s : load_row r = Some s -> is_prot s = prot_row r.
Proof.
  intros (_ & Hs & Hn & _)%load_row_inv. unfold is_prot, prot_row, evictable. rewrite <- Hs, <- Hn, String.eqb_refl.
  by destruct (sd_source s), (sd_nature s).
Qed.
End Facts.

(** *** Updates *)

Lemma on_ids_rows f ids t : (forall r, r_id (f r) = r_id r) -> NoDup ids ->
  rows (on_ids f ids t) = map (fun r => if bool_decide (r_id r ∈ ids) then f r else r) (rows t) /\
  fts (on_ids f ids t) = fts t.
Proof.
  intros Hf. revert t. induction ids as [|id ids IH]; intros t Hnd; cbn [on_ids foldl].
  - split; [|done]. rewrite <- (map_id (rows t)) at 1. apply map_ext. intros r. by rewrite bool_decide_eq_false_2 by set_solver.
  - apply NoDup_cons in Hnd as [Hni Hnd]. destruct (IH (on_id f id t) Hnd) as [H1 H2].
    unfold on_ids in H1, H2. rewrite H1, H2. split; [|done]. cbn [on_id update_rows rows]. rewrite map_map.
    apply map_ext. intros r. destruct (String.eqb_spec (r_id r) id) as [He|Hne].
    + rewrite Hf, He, (bool_decide_eq_false_2 (id ∈ ids)), (bool_decide_eq_true_2 (id ∈ id :: ids)) by set_solver. done.
    + destruct (decide (r_id r ∈ ids)).
      * by rewrite !bool_decide_eq_true_2 by set_solver.
      * by rewrite !bool_decide_eq_false_2 by set_solver.
Qed.

(** *** The order of strengths *)

Lemma fleb_trans x y z : fleb x y = true -> fleb y z = true -> fleb x z = true.
Proof.
  unfold fleb, SFleb.
  destruct x as [[]|[]| |[] m1 e1], y as [[]|[]| |[] m2 e2], z as [[]|[]| |[] m3 e3]; cbn; try done.
  all: change (Pos.compare_cont Eq) with Pos.compare.
  all: destruct (Z.compare_spec e1 e2), (Z.compare_spec e2 e3), (Z.compare_spec e1 e3); try lia; try done.
  all: destruct (Pos.compare_spec m1 m2), (Pos.compare_spec m2 m3), (Pos.compare_spec m1 m3); cbn; try lia; done.
Qed.

(** At most as strong; a value that is no number counts as the strongest. *)
Definition weaker_eq (a b : SeedRow) : Prop :=
  is_nan (r_strength b) = true \/ (is_nan (r_strength a) = false /\ fleb (r_strength a) (r_strength b) = true).

#[export] Instance weaker_eq_dec : RelDecision weaker_eq.
Proof. intros a b. unfold weaker_eq. solve_decision. Defined.
#[export] Instance weaker_eq_trans : Transitive weaker_eq.
Proof.
  intros a b c [Hb|[Ha Hab]] [Hc|[Hb' Hbc]]; unfold weaker_eq; try (by left); [congruence|].
  right. split; [done|]. by eapply fleb_trans.
Qed.
#[export] Instance weaker_eq_total : Total weaker_eq.
Proof.
  intros a b. unfold weaker_eq. destruct (is_nan (r_strength a)) eqn:Ha; [by right; left|].
  destruct (is_nan (r_strength b)) eqn:Hb; [by left; left|].
  destruct (SFcompare_total _ _ Ha Hb) as [c Hc]. unfold fleb, SFleb. rewrite (SFcompare_antisym (r_strength a) (r_strength b)), Hc.
  destruct c; cbn; auto.
Qed.

(** *** Evictions *)

Section Budget.
Context (weakest_first : list SeedRow -> list SeedRow).
Context (weakest_perm : forall l, weakest_first l ≡ₚ l) (weakest_sorted : forall l, StronglySorted weaker_eq (weakest_first l)).

Lemma evictable_spec tier r : evictable tier r = in_tier tier r && negb (prot_row r).
Proof.
  unfold prot_row, evictable, in_tier. rewrite String.eqb_refl, negb_involutive. cbn [andb]. by rewrite !andb_assoc.
Qed.

Lemma StronglySorted_app_rel {A} (R : A -> A -> Prop) (l1 l2 : list A) x y :
  StronglySorted R (l1 ++ l2) -> x ∈ l1 -> y ∈ l2 -> R x y.
Proof.
  induction l1 as [|z l1 IH]; cbn; [by intros _ ?%elem_of_nil|].
  intros [Hs Hf]%StronglySorted_inv [->|Hx]%elem_of_cons Hy; [|by apply IH].
  rewrite Forall_forall in Hf. apply Hf. apply elem_of_app. by right.
Qed.

Lemma filter_length_split {A} (p q : A -> bool) l :
  length (List.filter p l) = length (List.filter (fun x => p x && q x) l) + length (List.filter (fun x => p x && negb (q x)) l).
Proof. induction l as [|x l IH]; [done|]. cbn. destruct (p x), (q x); cbn; lia. Qed.

Lemma NoDup_ids_filter (p : SeedRow -> bool) l : NoDup (map r_id l) -> NoDup (map r_id (List.filter p l)).
Proof.
  induction l as [|r l IH]; cbn; [done|]. intros [Hr Hl]%NoDup_cons.
  destruct (p r); cbn; [|by apply IH]. constructor; [|by apply IH].
  intros (r' & He & Hr')%list_elem_of_fmap. apply Hr. rewrite He. apply list_elem_of_fmap_2.
  apply list_elem_of_In, filter_In in Hr' as [Hr' _]. by apply list_elem_of_In.
Qed.

(** The rows with given, distinct identifiers. *)
Lemma chosen_perm (l : list SeedRow) ids : NoDup (map r_id l) -> NoDup ids ->
  (forall d, d ∈ ids -> exists r, r ∈ l /\ r_id r = d) ->
  map r_id (List.filter (fun r => bool_decide (r_id r ∈ ids)) l) ≡ₚ ids.
Proof.
  intros Hl Hd Hin. apply NoDup_Permutation; [|done|].
  - by apply NoDup_ids_filter.
  - intros d. split.
    + intros (r & -> & Hr)%list_elem_of_fmap. apply list_elem_of_In, filter_In in Hr as [_ Hr]. by apply bool_decide_eq_true_1 in Hr.
    + intros Hdd. destruct (Hin d Hdd) as (r & Hr & <-). apply list_elem_of_fmap_2. apply list_elem_of_In, filter_In.
      split; [by apply list_elem_of_In|]. by apply bool_decide_eq_true_2.
Qed.

Lemma unique_row (l : list SeedRow) r r' : NoDup (map r_id l) -> r ∈ l -> r' ∈ l -> r_id r = r_id r' -> r = r'.
Proof.
  intros Hl (i & Hi)%list_elem_of_lookup (j & Hj)%list_elem_of_lookup He.
  assert (i = j) as ->; [|congruence].
  eapply NoDup_lookup; [exact Hl| |]; rewrite list_lookup_fmap; [by rewrite Hi|]. by rewrite Hj, He.
Qed.

Lemma over_budget_spec tier budget t : NoDup (map r_id (rows t)) ->
  let D := over_budget weakest_first tier budget t in
  NoDup D /\
  (forall d, d ∈ D -> exists r, r ∈ rows t /\ r_id r = d /\ evictable tier r = true) /\
  length (List.filter (in_tier tier) (rows t)) - length D <=
    Nat.max budget (length (List.filter (fun r => in_tier tier r && prot_row r) (rows t))) /\
  (forall r d, r ∈ rows t -> d ∈ rows t -> evictable tier r = true -> r_id r ∉ D -> r_id d ∈ D -> weaker_eq d r).
Proof.
  intros Hnd D. unfold D, over_budget. cbv zeta.
  set (n := length (List.filter (in_tier tier) (rows t))). set (ev := List.filter (evictable tier) (rows t)).
  destruct (Nat.ltb_spec budget n) as [Hlt|Hge].
  2: { split; [constructor|]. split; [by intros d ?%elem_of_nil|]. split; [cbn; lia|]. by intros r d _ _ _ _ ?%elem_of_nil. }
  assert (Hids : NoDup (map r_id (weakest_first ev))).
  { rewrite weakest_perm. by apply NoDup_ids_filter. }
  assert (Hev : forall r, r ∈ weakest_first ev <-> r ∈ rows t /\ evictable tier r = true).
  { intros r. rewrite weakest_perm. unfold ev. by rewrite !list_elem_of_In, filter_In. }
  set (k := n - budget). pose proof (take_drop k (weakest_first ev)) as Htd.
  split; [|split; [|split]].
  - rewrite <- Htd, map_app in Hids. by apply NoDup_app in Hids as [? _].
  - intros d (r & -> & Hr)%list_elem_of_fmap. assert (Hr' : r ∈ weakest_first ev) by (rewrite <- Htd; set_solver).
    apply Hev in Hr' as [? ?]. by exists r.
  - rewrite length_map, length_take, weakest_perm.
    assert (Hsplit : n = length ev + length (List.filter (fun r => in_tier tier r && prot_row r) (rows t))).
    { unfold n, ev. rewrite (filter_length_split _ (fun r => negb (prot_row r))). f_equal.
      - f_equal. apply filter_ext. intros r. by rewrite evictable_spec.
      - f_equal. apply filter_ext. intros r. by rewrite negb_involutive. }
    unfold k. lia.
  - intros r d Hr Hd He Hnr Hdd. apply list_elem_of_fmap in Hdd as (d' & Hid & Hd').
    assert (Hd2 : d' ∈ weakest_first ev) by (rewrite <- Htd; set_solver). apply Hev in Hd2 as [Hd2 _].
    rewrite (unique_row (rows t) d d') by done.
    eapply (StronglySorted_app_rel weaker_eq); [rewrite Htd; apply weakest_sorted|exact Hd'|].
    assert (Hr2 : r ∈ weakest_first ev) by by apply Hev. rewrite <- Htd in Hr2. apply elem_of_app in Hr2 as [Hr2|Hr2]; [|done].
    destruct Hnr. by apply list_elem_of_fmap_2.
Qed.
End Budget.

(** *** Deletions *)

Lemma prot_with_tier tier r : prot_row (with_tier tier r) = prot_row r.
Proof. unfold prot_row, evictable. cbn [with_tier r_tier r_source r_nature]. by rewrite !String.eqb_refl. Qed.

(** A list of identifiers that a tier gives up. *)
Definition evicted (tier : string) (ids : list string) (l : list SeedRow) : Prop :=
  NoDup ids /\ (forall r, r ∈ l -> r_id r ∈ ids -> evictable tier r = true) /\ (forall d, d ∈ ids -> exists r, r ∈ l /\ r_id r = d).

Lemma over_budget_evicted weakest_first tier budget t (Hperm : forall l, weakest_first l ≡ₚ l)
    (Hsort : forall l, StronglySorted weaker_eq (weakest_first l)) : NoDup (map r_id (rows t)) ->
  evicted tier (over_budget weakest_first tier budget t) (rows t).
Proof.
  intros Hnd. destruct (over_budget_spec weakest_first Hperm Hsort tier budget t Hnd) as (D1 & D2 & _). split; [done|]. split.
  - intros r Hr HrD. destruct (D2 _ HrD) as (r0 & Hr0 & Hid & He). by rewrite (unique_row (rows t) r r0).
  - intros d Hd. destruct (D2 d Hd) as (r & ? & ? & _). eauto.
Qed.

Lemma evicted_tier tier ids l r : evicted tier ids l -> r ∈ l -> r_id r ∈ ids -> r_tier r = tier /\ prot_row r = false.
Proof.
  intros (_ & He & _) Hr Hi. specialize (He r Hr Hi). rewrite evictable_spec in He.
  apply andb_true_iff in He as [Ht Hp]. apply String.eqb_eq in Ht. by apply negb_true_iff in Hp.
Qed.

(** What is left of the tier. *)
Lemma evicted_left tier ids l : NoDup (map r_id l) -> evicted tier ids l ->
  length (List.filter (fun r => in_tier tier r && negb (bool_decide (r_id r ∈ ids))) l) =
    length (List.filter (in_tier tier) l) - length ids.
Proof.
  intros Hnd He. rewrite (filter_length_split (in_tier tier) (fun r => bool_decide (r_id r ∈ ids)) l).
  assert (Hlen : length (List.filter (fun r => in_tier tier r && bool_decide (r_id r ∈ ids)) l) = length ids).
  { rewrite (filter_ext_in _ (fun r => bool_decide (r_id r ∈ ids))).
    - rewrite <- (length_map r_id), (chosen_perm l ids); [done|done|apply He|]. intros d Hd. by apply He.
    - intros r Hr. apply list_elem_of_In in Hr. case_bool_decide as HrD; [|by rewrite andb_false_r].
      destruct (evicted_tier _ _ _ _ He Hr HrD) as [<- _]. unfold in_tier. by rewrite String.eqb_refl. }
  lia.
Qed.

Lemma delete_seeds_rows ids t :
  rows (delete_seeds ids t) = List.filter (fun r => negb (bool_decide (r_id r ∈ ids))) (rows t) /\
  fts (delete_seeds ids t) = List.filter (fun e => negb (bool_decide (fst e ∈ ids))) (fts t).
Proof.
  unfold delete_seeds. revert t. induction ids as [|id ids IH]; intros t; cbn [foldl].
  - split; symmetry; apply filter_all; intros x _; by rewrite bool_decide_eq_false_2 by set_solver.
  - destruct (IH (delete_one t id)) as [-> ->]. cbn [delete_one rows fts].
    assert (Hor : forall x, negb (String.eqb x id) && negb (bool_decide (x ∈ ids)) = negb (bool_decide (x ∈ id :: ids))).
    { intros x. destruct (String.eqb_spec x id) as [->|Hne]; cbn.
      - by rewrite bool_decide_eq_true_2 by set_solver.
      - f_equal. destruct (decide (x ∈ ids)); [by rewrite !bool_decide_eq_true_2 by set_solver|].
        by rewrite !bool_decide_eq_false_2 by set_solver. }
    by split; rewrite filter_twice; apply filter_ext; intros x; rewrite <- Hor.
Qed.

Lemma filter_map_length {A B} (f : A -> B) p l : length (List.filter p (map f l)) = length (List.filter (fun x => p (f x)) l).
Proof. induction l as [|x l IH]; [done|]. cbn. destruct (p (f x)); cbn; lia. Qed.

(** ** Properties *)

(** A seed that is stored is the seed that is loaded: for every seed whose
    numbers are in the range of the kernel and whose content and strength
    survive JSON, inserting it under a new identifier and loading its row gives
    it back, and every other row is as before; inserting under a taken
    identifier leaves the rows alone. *)
Theorem insert_load_roundtrip from_str to_string printed reread s t
    (Hr : in_range s)
    (Hj : from_str (to_string (content_json (sd_content s))) = Some (content_json (sd_content s)))
    (Hf : to_f32 (reread (printed (sd_strength s))) = sd_strength s) :
  let t' := insert_seed from_str to_string (seed_json printed s) t in
  fts t' = (fts t ++ [(sd_id s, text_of (sd_content s))])%list /\
  (sd_id s ∈ map r_id (rows t) -> rows t' = rows t) /\
  (sd_id s ∉ map r_id (rows t) -> exists r, rows t' = (rows t ++ [r])%list /\ load_row from_str reread r = Some s /\
     prot_row r = is_prot s).
Proof.
  set (r := row_of_json from_str to_string (seed_json printed s)).
  assert (Hid : r_id r = sd_id s) by done.
  assert (Hload : load_row from_str reread r = Some s) by (by apply load_row_of).
  cbv zeta. unfold insert_seed. cbv zeta. fold r. cbn [fts rows]. rewrite Hid. split; [|split].
  - do 3 f_equal. cbn [r r_content_text row_of_json]. unfold index, get. cbn [seed_json].
    cbn [Json.assoc String.eqb Ascii.eqb Bool.eqb default id]. unfold content_text_of. rewrite Hj.
    destruct (sd_content s); reflexivity.
  - intros Hin. by rewrite bool_decide_eq_true_2.
  - intros Hni. rewrite bool_decide_eq_false_2 by done. exists r. split; [done|]. split; [done|].
    by rewrite <- (is_prot_row from_str reread r s).
Qed.

(** The budgets.  On a table with distinct identifiers, whatever order SQLite
    gives to equal strengths: every protected row stays as it is; every row
    left is one of before, possibly moved to the archive, and then it was an
    unprotected one of the on-demand tier; both tiers end within their budget,
    or hold nothing but protected rows beyond it; what was moved is at most as
    strong as what stayed; and the text index loses exactly the deleted rows. *)
Lemma enforce_budgets_spec weakest_first t
    (Hperm : forall l, weakest_first l ≡ₚ l) (Hsort : forall l, StronglySorted weaker_eq (weakest_first l))
    (Hnd : NoDup (map r_id (rows t))) :
  let '(rep, t') := enforce_tier_budgets weakest_first t in
  (forall r, r ∈ rows t -> prot_row r = true -> r ∈ rows t') /\
  (forall r', r' ∈ rows t' -> exists r, r ∈ rows t /\
     (r' = r \/ r' = with_tier "Archive" r /\ r_tier r = "OnDemand" /\ prot_row r = false)) /\
  length (List.filter (in_tier "OnDemand") (rows t')) <=
    Nat.max ONDEMAND_BUDGET (length (List.filter (fun r => in_tier "OnDemand" r && prot_row r) (rows t))) /\
  length (List.filter (in_tier "Archive") (rows t')) <=
    Nat.max ARCHIVE_BUDGET (length (List.filter (fun r => in_tier "Archive" r && prot_row r) (rows t))) /\
  (forall r d, r ∈ rows t' -> d ∈ rows t -> in_tier "OnDemand" r = true -> prot_row r = false ->
     in_tier "OnDemand" d = true -> d ∉ rows t' -> weaker_eq d r) /\
  (forall e, e ∈ fts t' <-> e ∈ fts t /\ ~ (fst e ∈ map r_id (rows t) /\ fst e ∉ map r_id (rows t'))).
Proof.
  unfold enforce_tier_budgets.
  destruct (over_budget_spec weakest_first Hperm Hsort "OnDemand" ONDEMAND_BUDGET t Hnd) as (_ & _ & D3 & D4).
  pose proof (over_budget_evicted weakest_first "OnDemand" ONDEMAND_BUDGET t Hperm Hsort Hnd) as HD.
  set (D := over_budget weakest_first "OnDemand" ONDEMAND_BUDGET t) in *. set (t1 := set_tier_batch D "Archive" t).
  destruct (on_ids_rows (with_tier "Archive") D t) as [R1 F1]; [done|apply HD|].
  change (on_ids (with_tier "Archive") D t) with t1 in R1, F1.
  assert (Hids : map r_id (rows t1) = map r_id (rows t)).
  { rewrite R1, map_map. apply map_ext. intros r. by destruct (bool_decide _). }
  assert (Hnd1 : NoDup (map r_id (rows t1))) by by rewrite Hids.
  destruct (over_budget_spec weakest_first Hperm Hsort "Archive" ARCHIVE_BUDGET t1 Hnd1) as (_ & _ & E3 & _).
  pose proof (over_budget_evicted weakest_first "Archive" ARCHIVE_BUDGET t1 Hperm Hsort Hnd1) as HE.
  set (E := over_budget weakest_first "Archive" ARCHIVE_BUDGET t1) in *. destruct (delete_seeds_rows E t1) as [R2 F2].
  assert (Hin1 : forall r', r' ∈ rows t1 <-> exists r, r ∈ rows t /\ r' = if bool_decide (r_id r ∈ D) then with_tier "Archive" r else r).
  { intros r'. rewrite R1, list_elem_of_fmap. naive_solver. }
  assert (Hin2 : forall r', r' ∈ rows (delete_seeds E t1) <-> r' ∈ rows t1 /\ r_id r' ∉ E).
  { intros r'. by rewrite R2, elem_of_Lfilter, negb_true_iff, bool_decide_eq_false. }
  assert (Hstay : forall r, r ∈ rows t -> r_id r ∉ D -> r ∈ rows t1).
  { intros r Hr HrD. apply Hin1. exists r. split; [done|]. by rewrite bool_decide_eq_false_2. }
  split; [|split; [|split; [|split; [|split]]]].
  - intros r Hr Hp.
    assert (HrD : r_id r ∉ D) by (intros HrD; destruct (evicted_tier _ _ _ _ HD Hr HrD); congruence).
    apply Hin2. split; [by apply Hstay|]. intros HrE. destruct (evicted_tier _ _ _ _ HE (Hstay r Hr HrD) HrE). congruence.
  - intros r' [Hr' _]%Hin2. apply Hin1 in Hr' as (r & Hr & ->). exists r. split; [done|].
    case_bool_decide as HrD; [|by left]. right. by destruct (evicted_tier _ _ _ _ HD Hr HrD).
  - etransitivity; [|exact D3]. rewrite <- (evicted_left _ _ _ Hnd HD), R2, filter_twice, R1, filter_map_length.
    etransitivity;
      [apply (filter_length_mono _ (fun r => in_tier "OnDemand" (if bool_decide (r_id r ∈ D) then with_tier "Archive" r else r)))
      |apply Nat.eq_le_incl; f_equal; apply filter_ext].
    + intros r Hr. by apply andb_true_iff in Hr as [_ Hr].
    + intros r. cbv beta. case_bool_decide; cbn; [by rewrite andb_false_r|by rewrite andb_true_r].
  - rewrite R2, filter_twice. rewrite (filter_ext _ (fun r => in_tier "Archive" r && negb (bool_decide (r_id r ∈ E))));
      [|intros r; by rewrite andb_comm].
    rewrite (evicted_left _ _ _ Hnd1 HE). etransitivity; [exact E3|]. apply Nat.max_le_compat_l.
    rewrite R1, filter_map_length. apply Nat.eq_le_incl. f_equal. apply filter_ext_in. intros r Hr. apply list_elem_of_In in Hr.
    case_bool_decide as HrD; [|done]. destruct (evicted_tier _ _ _ _ HD Hr HrD) as [_ Hp].
    rewrite prot_with_tier. by rewrite Hp, !andb_false_r.
  - intros r d [Hr HrE]%Hin2 Hd Htr Hpr Htd Hnd'. apply Hin1 in Hr as (r0 & Hr0 & ->).
    case_bool_decide as Hr0D; [done|]. apply D4; [done|done|by rewrite evictable_spec, Htr, Hpr|done|].
    destruct (decide (r_id d ∈ D)) as [?|HdD]; [done|]. exfalso. apply Hnd', Hin2. split; [by apply Hstay|].
    intros HdE. destruct (evicted_tier _ _ _ _ HE (Hstay d Hd HdD) HdE) as [Ha _].
    unfold in_tier in Htd. apply String.eqb_eq in Htd. congruence.
  - intros e. rewrite F2, F1, elem_of_Lfilter, negb_true_iff, bool_decide_eq_false.
    apply and_iff_compat_l. rewrite <- Hids. split.
    + intros He [(r & Hk & Hr)%list_elem_of_fmap Hn]. apply Hn. rewrite Hk in He |- *. apply list_elem_of_fmap_2. by apply Hin2.
    + intros Hn HeE. apply Hn. split.
      * destruct HE as (_ & _ & HE). destruct (HE _ HeE) as (r & Hr & <-). by apply list_elem_of_fmap_2.
      * intros (r & Hk & [_ Hr]%Hin2)%list_elem_of_fmap. congruence.
Qed.

Lemma promote_same from to least r :
  let r' := promote from to least r in
  r_id r' = r_id r /\ r_nature r' = r_nature r /\ r_source r' = r_source r /\ r_content_json r' = r_content_json r /\
  r_created_at r' = r_created_at r /\ r_access_count r' = r_access_count r /\ r_last_accessed_at r' = r_last_accessed_at r /\
  r_strength r' = r_strength r.
Proof. cbv zeta. unfold promote. by destruct (_ && _). Qed.

Lemma promote_tier from to least r :
  r_tier (promote from to least r) = if String.eqb (r_tier r) from && (least <=? r_access_count r)%Z then to else r_tier r.
Proof. unfold promote. by destruct (_ && _). Qed.

(** Touching.  Every row keeps its place and everything but its access
    count, its time, its strength and its tier; the rows named are counted once
    each, however often they are named, and end at a strength of at most one;
    the other rows only change tier; tiers only move up, one step at a time, and
    exactly when the count reaches the threshold. *)
Theorem touch_batch_spec now ids t (Hne : ids <> []) :
  let t' := touch_batch now ids t in
  fts t' = fts t /\
  Forall2 (fun r r' =>
    r_id r' = r_id r /\ r_nature r' = r_nature r /\ r_source r' = r_source r /\ r_content_json r' = r_content_json r /\
    r_created_at r' = r_created_at r /\
    (if bool_decide (r_id r ∈ ids) then
       r_access_count r' = (r_access_count r + 1)%Z /\ r_last_accessed_at r' = now /\ fltb (F64.of_Z 1) (r_strength r') = false
     else r_access_count r' = r_access_count r /\ r_last_accessed_at r' = r_last_accessed_at r /\ r_strength r' = r_strength r) /\
    r_tier r' =
      (if String.eqb (r_tier r) "OnDemand" && (8 <=? r_access_count r')%Z then "Always"
       else if String.eqb (r_tier r) "Archive" && (5 <=? r_access_count r')%Z then "OnDemand" else r_tier r))
    (rows t) (rows t').
Proof.
  cbv zeta. destruct ids as [|i ids']; [done|]. remember (i :: ids') as ids eqn:Hids. unfold touch_batch. rewrite Hids. cbv iota. rewrite <- Hids.
  split; [done|]. cbn [update_rows rows]. rewrite !map_map. apply Forall2_fmap_r, Forall_Forall2_diag, Forall_forall. intros r Hr. unfold compose. cbv beta.
  assert (Hone : fltb (F64.of_Z 1) (sql_min (F64.add (r_strength r) (F64.lit 1 100)) (F64.of_Z 1)) = false).
  { unfold sql_min. by destruct (fltb (F64.of_Z 1) (F64.add _ _)) eqn:E. }
  set (r1 := if bool_decide (r_id r ∈ ids) then touch_row now r else r).
  destruct (promote_same "OnDemand" "Always" 8 r1) as (A1 & A2 & A3 & A4 & A5 & A6 & A7 & A8).
  destruct (promote_same "Archive" "OnDemand" 5 (promote "OnDemand" "Always" 8 r1)) as (B1 & B2 & B3 & B4 & B5 & B6 & B7 & B8).
  rewrite B1, B2, B3, B4, B5, B6, B7, B8, A1, A2, A3, A4, A5, A6, A7, A8.
  do 5 (split; [unfold r1; by case_bool_decide|]). split; [unfold r1; by case_bool_decide|].
  assert (Ht : r_tier r1 = r_tier r) by (unfold r1; by case_bool_decide).
  rewrite promote_tier, A6, promote_tier, Ht.
  destruct (String.eqb_spec (r_tier r) "OnDemand") as [Ho|Ho]; cbn [andb]; [rewrite Ho; by destruct (8 <=? _)%Z|].
  by destruct (String.eqb (r_tier r) "Archive").
Qed.

(** ** Concrete runs *)

(** A binary32 value as a binary64 one. *)
Definition to_f64 (x : spec_float) : spec_float :=
  match x with S754_finite s m e => binary_normalize 53 1024 (cond_Zopp s (Z.pos m)) e s | _ => x end.

Definition demo_seed (id text : string) : Seed :=
  Seed_new id 100 "s1" "w1" Fact SystemInferred (FreeText text) Gen Gui "k".

(** A printer and a parser for contents of free text. *)
Definition text_print (v : Value) : string := default "" (as_str (index v "text")).
Definition text_parse (s : string) : option Value := Some (content_json (FreeText s)).

Definition empty_table : SeedTable := {| rows := []; fts := [] |}.
Definition demo_insert (s : Seed) : SeedTable -> SeedTable := insert_seed text_parse text_print (seed_json to_f64 s).

Lemma insert_load_roundtrip_witness :
  exists r, rows (demo_insert (demo_seed "a" "likes tea") empty_table) = [r] /\
    load_row text_parse (fun x => x) r = Some (demo_seed "a" "likes tea").
Proof.
  destruct (insert_load_roundtrip text_parse text_print to_f64 (fun x => x) (demo_seed "a" "likes tea") empty_table)
    as (_ & _ & H3).
  - vm_compute. intuition congruence.
  - vm_compute. reflexivity.
  - vm_compute. reflexivity.
  - destruct H3 as (r & H4 & H5 & _); [apply not_elem_of_nil|]. exists r. split; [exact H4|exact H5].
Defined.

(** A row of the on-demand tier, and a full tier of them. *)
Definition demo_row (source : string) (strength : spec_float) (i : nat) : SeedRow :=
  {| r_id := pretty (N.of_nat i); r_session := "s1"; r_workspace := ""; r_nature := "Fact"; r_source := source;
     r_content_type := "FreeText"; r_content_json := "t"; r_content_text := "t"; r_palace := 7; r_stem := 9; r_geju_key := "";
     r_created_at := 100; r_access_count := 0; r_last_accessed_at := 100; r_strength := strength; r_tier := "OnDemand" |}.

Definition demo_table : SeedTable :=
  {| rows := demo_row "RenSoul" (F64.lit 1 10) 0 :: demo_row "Consolidation" (F64.lit 1 5) 1 ::
             map (demo_row "Consolidation" (F64.of_Z 1)) (seq 2 199); fts := [] |}.

Lemma enforce_budgets_spec_witness :
  NoDup (map r_id (rows demo_table)) /\
  ondemand_demoted (fst (enforce_tier_budgets (merge_sort weaker_eq) demo_table)) = 1 /\
  length (List.filter (in_tier "OnDemand") (rows (snd (enforce_tier_budgets (merge_sort weaker_eq) demo_table)))) <= 200.
Proof.
  assert (Hnd : NoDup (map r_id (rows demo_table))).
  { apply (bool_decide_eq_true_1 (NoDup (map r_id (rows demo_table)))). vm_compute. reflexivity. }
  split; [exact Hnd|]. split; [vm_compute; reflexivity|].
  assert (Hp : forall l, merge_sort weaker_eq l ≡ₚ l) by (intros l; apply merge_sort_Permutation).
  assert (Hs : forall l, StronglySorted weaker_eq (merge_sort weaker_eq l)).
  { intros l. apply (StronglySorted_merge_sort weaker_eq). }
  pose proof (enforce_budgets_spec (merge_sort weaker_eq) demo_table Hp Hs Hnd) as H.
  set (run := enforce_tier_budgets (merge_sort weaker_eq) demo_table) in *.
  destruct run as [rep t']. destruct H as (_ & _ & H & _).
  etransitivity; [exact H|]. vm_compute. lia.
Defined.

(** The protected row is the weakest and stays; the weakest unprotected one
    goes. *)
Example demoted_is_unprotected :
  r_id <$> List.filter (in_tier "Archive") (rows (snd (enforce_tier_budgets (merge_sort weaker_eq) demo_table))) = ["1"].
Proof. vm_compute. reflexivity. Qed.

(** A touch of any seed undoes a demotion: an archived row with five accesses is
    back in its tier. *)
Example touch_undoes_demotion :
  let old := with_tier "Archive" (with_access 5 100 (F64.lit 1 5) (demo_row "Consolidation" (F64.lit 1 5) 1)) in
  map r_tier (rows (touch_batch 200 ["2"] {| rows := [old; demo_row "Consolidation" (F64.of_Z 1) 2]; fts := [] |})) =
    ["OnDemand"; "OnDemand"].
Proof. vm_compute. reflexivity. Qed.

Lemma touch_batch_spec_witness :
  map r_tier (rows (touch_batch 200 ["1"; "1"] {| rows := [with_access 7 100 (F64.of_Z 1) (demo_row "Consolidation" (F64.of_Z 1) 1)]; fts := [] |}))
    = ["Always"] /\
  exists r', rows (touch_batch 200 ["1"; "1"]
      {| rows := [with_access 7 100 (F64.of_Z 1) (demo_row "Consolidation" (F64.of_Z 1) 1)]; fts := [] |}) = [r'] /\
    r_access_count r' = 8%Z.
Proof.
  split; [vm_compute; reflexivity|].
  destruct (touch_batch_spec 200 ["1"; "1"] {| rows := [with_access 7 100 (F64.of_Z 1) (demo_row "Consolidation" (F64.of_Z 1) 1)]; fts := [] |})
    as [_ H]; [discriminate|].
  apply Forall2_cons_inv_l in H as (r' & l & (_ & _ & _ & _ & _ & H & _) & Hl & Hr).
  apply Forall2_nil_inv_l in Hl. rewrite Hl in Hr. exists r'. split; [exact Hr|].
  rewrite bool_decide_eq_true_2 in H by (apply elem_of_cons; left; reflexivity). exact (proj1 H).
Defined.

(** An identifier that is taken: the row stays, its text is indexed again. *)
Example reinserted_text_is_indexed_again :
  let t := demo_insert (demo_seed "a" "likes coffee") (demo_insert (demo_seed "a" "likes tea") empty_table) in
  map r_content_text (rows t) = ["likes tea"] /\ fts t = [("a", "likes tea"); ("a", "likes coffee")].
Proof. vm_compute. split; reflexivity. Qed.

(** A catalog of few seeds can be long: only free text loses its line breaks. *)
Example catalog_keeps_newlines :
  seed_content_short (KeyValue "motto" ("a" +:+ nl +:+ "b")) = "motto=a" +:+ nl +:+ "b".
Proof. reflexivity. Qed.
