(* ===== verification/Zuowang.v ===== *)
(** * Forgetting

    src/kernel/src/zuowang/trigger/mod.rs (the entropy of the seed store) and
    src/kernel/src/zuowang/pipeline/mod.rs (the dissolution of seeds, its report
    and history, and the scheduler around it), over the table of Seeds.v.  The
    natural logarithm, Unicode lower-casing, serde_json, the clock and the
    orders SQLite leaves open are arguments; the statements of a transaction
    are taken to succeed. *)

From stdpp Require Import sorting.
From S2P Require Import Prelude RString Float Json GeJu Mind Seeds.
Local Open Scope string_scope.
#[local] Arguments String.append !_ _ : simpl nomatch.

(** ** Entropy *)

Definition count_one {K} `{Countable K} (m : gmap K nat) (k : K) : gmap K nat := <[k := S (default 0 (m !! k))]> m.
Definition counts {K} `{Countable K} (l : list K) : gmap K nat := foldl count_one ∅ l.

(** A function of the values, summed. *)
Definition msum {K V} `{Countable K} (f : V -> nat) (m : gmap K V) : nat := list_sum (map (fun kv => f (snd kv)) (map_to_list m)).

Definition redundant {K} `{Countable K} (m : gmap K nat) : nat := msum (fun c => if (1 <? c)%nat then c - 1 else 0) m.

(** The values seen for one key: one, or a set once they differ. *)
Inductive ValueSet := One (v : string) (count : nat) | Many (s : gset string) (count : nat).

Definition add_value (vs : ValueSet) (v : string) : ValueSet :=
  match vs with
  | One e n => if String.eqb e v then One e (S n) else Many {[e; v]} (S n)
  | Many s n => Many ({[v]} ∪ s) (S n)
  end.

Definition add_assertion {K} `{Countable K} (m : gmap K ValueSet) (kv : K * string) : gmap K ValueSet :=
  <[fst kv := match m !! fst kv with Some vs => add_value vs (snd kv) | None => One (snd kv) 1 end]> m.
Definition assertions {K} `{Countable K} (l : list (K * string)) : gmap K ValueSet := foldl add_assertion ∅ l.

Definition count_of (vs : ValueSet) : nat := match vs with One _ n | Many _ n => n end.
Definition conflicts_of (vs : ValueSet) : nat := match vs with One _ _ => 0 | Many s _ => size s - 1 end.

Definition key_values (seeds : list Seed) : list (string * string) :=
  omap (fun s => match sd_content s with KeyValue k v => Some (k, v) | _ => None end) seeds.
Definition triple_facts (seeds : list Seed) : list ((string * string) * string) :=
  omap (fun s => match sd_content s with Triple s p o => Some ((s, p), o) | _ => None end) seeds.

Definition compute_contradiction (seeds : list Seed) : spec_float :=
  let kv := assertions (key_values seeds) in
  let tr := assertions (triple_facts seeds) in
  let conflict_count := msum conflicts_of kv + msum conflicts_of tr in
  let total_assertions := msum count_of kv + msum count_of tr in
  match total_assertions with
  | O => F32.of_Z 0
  | _ => fmin (F32.div (F32.of_Z (Z.of_nat conflict_count)) (F32.of_Z (Z.of_nat total_assertions))) (F32.of_Z 1)
  end.

Section Entropy.
(** [str::to_lowercase]. *)
Context (lower : string -> string).

Definition fingerprint (text : string) : string := lower (of_chars (take 50 (chars text))).

Definition triple_keys (seeds : list Seed) : list (string * string) :=
  omap (fun s => match sd_content s with Triple _ p o => Some (p, o) | _ => None end) seeds.
Definition fingerprints (seeds : list Seed) : list string :=
  omap (fun s => match sd_content s with FreeText t => Some (fingerprint t) | _ => None end) seeds.

Definition redundant_count (seeds : list Seed) : nat :=
  redundant (counts (map fst (key_values seeds))) + redundant (counts (triple_keys seeds)) +
  redundant (counts (fingerprints seeds)).

Definition compute_redundancy (seeds : list Seed) : spec_float :=
  match seeds with
  | [] => F32.of_Z 0
  | _ => F32.div (F32.of_Z (Z.of_nat (redundant_count seeds))) (F32.of_Z (Z.of_nat (length seeds)))
  end.

(** The largest of the values, at least one. *)
Definition largest (l : list Z) : Z := foldr Z.max 1%Z l.

Definition fsum (l : list spec_float) : spec_float := foldl F32.add (F32.of_Z 0) l.
Definition mean (f : Seed -> spec_float) (seeds : list Seed) : spec_float :=
  F32.div (fsum (map f seeds)) (F32.of_Z (Z.of_nat (length seeds))).

(** Archived seeds count half. *)
Definition halved (s : Seed) (x : spec_float) : spec_float :=
  match sd_tier s with Archive => F32.mul x (F32.lit 5 10) | _ => x end.

Definition zero_entropy : AlayaEntropy :=
  {| staleness := F32.of_Z 0; contradiction := F32.of_Z 0; redundancy := F32.of_Z 0; access_decay := F32.of_Z 0; total := F32.of_Z 0 |}.

Definition entropy_compute (seeds : list Seed) (now : Z) : AlayaEntropy :=
  match seeds with
  | [] => zero_entropy
  | _ =>
      let max_age := F32.of_Z (largest (map (fun s => (now - sd_created_at s)%Z) seeds)) in
      let stale := mean (fun s => halved s (F32.div (F32.of_Z (now - sd_created_at s)) max_age)) seeds in
      let max_gap := F32.of_Z (largest (map (fun s => (now - sd_last_accessed_at s)%Z) seeds)) in
      let decay := mean (fun s => halved s (fmin (F32.div (F32.of_Z (now - sd_last_accessed_at s)) max_gap) (F32.of_Z 1))) seeds in
      let red := compute_redundancy seeds in
      let con := compute_contradiction seeds in
      {| staleness := stale; contradiction := con; redundancy := red; access_decay := decay;
         total := F32.add (F32.add (F32.add (F32.mul stale (F32.lit 3 10)) (F32.mul con (F32.lit 2 10)))
                             (F32.mul red (F32.lit 25 100))) (F32.mul decay (F32.lit 25 100)) |}
  end.

Definition exceeds_threshold (e : AlayaEntropy) (threshold : spec_float) : bool := fgeb (total e) threshold.

(** ** Dissolution *)

Record SeedDigest := { dg_nature : string; dg_source : string; dg_primary : string }.

Record ZuowangReport := {
  seeds_examined : nat;
  seeds_dissolved : nat;
  seeds_weakened : nat;
  seeds_downgraded : nat;
  entropy_before : spec_float;
  entropy_after : spec_float;
  entropy_dimensions : AlayaEntropy;
  z_timestamp : Z;
  (** [None]: the subtraction underflows. *)
  score_kept : option nat;
  score_protected : nat;
  dissolved_sample : list SeedDigest
}.

Definition idle_report (n : nat) (e : AlayaEntropy) (now : Z) : ZuowangReport :=
  {| seeds_examined := n; seeds_dissolved := 0; seeds_weakened := 0; seeds_downgraded := 0; entropy_before := total e;
     entropy_after := total e; entropy_dimensions := e; z_timestamp := now; score_kept := Some n; score_protected := 0;
     dissolved_sample := [] |}.

Definition nature_weight (n : SeedNature) : spec_float :=
  match n with Fact => F32.lit 125 100 | Inference => F32.lit 80 100 | _ => F32.of_Z 1 end.

Definition seed_score (now : Z) (s : Seed) : spec_float :=
  fmin (F32.mul (relevance_score now s) (nature_weight (sd_nature s))) (F32.of_Z 1).

Definition low (x : spec_float) : bool := fltb x (F32.lit 1 10).
Definition fading (x : spec_float) : bool := fgeb x (F32.lit 1 10) && fltb x (F32.lit 2 10).

(** The four groups the pipeline acts on. *)
Definition to_delete (now : Z) (s : Seed) : bool :=
  low (seed_score now s) && bool_decide (sd_tier s = Archive) && negb (is_prot s).
Definition to_downgrade (now : Z) (s : Seed) : bool :=
  low (seed_score now s) && bool_decide (sd_tier s = OnDemand) && negb (is_prot s).
Definition to_weaken (now : Z) (s : Seed) : bool :=
  fading (seed_score now s) && bool_decide (sd_tier s = OnDemand) && negb (is_prot s).
Definition always_to_downgrade (now : Z) (s : Seed) : bool :=
  bool_decide (sd_tier s = Always) && (30 * 24 * 3600 <? now - sd_last_accessed_at s)%Z && negb (is_prot s).

Definition actionable (now : Z) (s : Seed) : bool :=
  match sd_tier s with
  | Always => false
  | Archive => low (seed_score now s)
  | OnDemand => fltb (seed_score now s) (F32.lit 2 10)
  end.

Definition digest (now : Z) (s : Seed) : SeedDigest :=
  let age_hours := F32.div (F32.of_Z (now - Z.max (sd_last_accessed_at s) (sd_created_at s))) (F32.of_Z 3600) in
  {| dg_nature := nature_name (sd_nature s); dg_source := source_name (sd_source s);
     dg_primary := if fgtb age_hours (F32.of_Z 720) then "staleness"
                   else if (sd_access_count s =? 0)%Z then "access_decay" else "staleness" |}.

Definition digest_le (a b : SeedDigest) : Prop :=
  match String.compare (dg_nature a) (dg_nature b) with
  | Lt => True
  | Eq => String.compare (dg_source a) (dg_source b) <> Gt
  | Gt => False
  end.
#[export] Instance digest_le_dec : RelDecision digest_le.
Proof. intros a b. unfold digest_le. destruct (String.compare _ _); apply _. Defined.

Definition ids_where (p : Seed -> bool) (seeds : list Seed) : list string := map sd_id (List.filter p seeds).

Section Pipeline.
Context (from_str : string -> option Value) (reread : spec_float -> spec_float) (ln : spec_float -> spec_float).
Context (newest_first : list SeedRow -> list SeedRow).

Definition load_seeds (t : SeedTable) : list Seed := omap (load_row from_str reread) (load_all_seeds newest_first t).

(** More seeds lower the bar, down to 0.05. *)
Definition adapted (threshold : spec_float) (n : nat) : spec_float :=
  fmax (F32.sub threshold (F32.mul (F32.lit 3 100) (ln (F32.of_Z (Z.of_nat n))))) (F32.lit 5 100).

(** Layer 3: the changes, in the order of the pipeline. *)
Definition apply_dissolution (now : Z) (seeds : list Seed) (t : SeedTable) : SeedTable :=
  let t := delete_seeds (ids_where (to_delete now) seeds) t in
  let t := set_tier_batch (ids_where (to_downgrade now) seeds) "Archive" t in
  let t := weaken_seeds (ids_where (to_weaken now) seeds) (F32.lit 5 10) t in
  set_tier_batch (ids_where (always_to_downgrade now) seeds) "OnDemand" t.

Definition sub_checked (a b : nat) : option nat := if (b <=? a)%nat then Some (a - b) else None.

(** [dissolve]; [busy] when another run holds the lock, [later] the clock at the
    end. *)
Definition dissolve (busy : bool) (threshold : spec_float) (now later : Z) (t : SeedTable) : ZuowangReport * SeedTable :=
  if busy then (idle_report 0 zero_entropy now, t)
  else
    let threshold := adapted threshold (length (load_all_seeds newest_first t)) in
    match load_all_seeds newest_first t with
    | [] => (idle_report 0 zero_entropy now, t)
    | _ =>
        let seeds := load_seeds t in
        let entropy := entropy_compute seeds now in
        if negb (exceeds_threshold entropy threshold) then (idle_report (length seeds) entropy now, t)
        else
          let n p := length (List.filter p seeds) in
          let t' := apply_dissolution now seeds t in
          let post := entropy_compute (load_seeds t') now in
          ({| seeds_examined := length seeds;
              seeds_dissolved := n (to_delete now);
              seeds_weakened := n (to_weaken now);
              seeds_downgraded := n (to_downgrade now) + n (always_to_downgrade now);
              entropy_before := total entropy;
              entropy_after := total post;
              entropy_dimensions := post;
              z_timestamp := later;
              score_kept := k ← sub_checked (length seeds) (n (to_delete now));
                            k ← sub_checked k (n (to_weaken now));
                            k ← sub_checked k (n (to_downgrade now));
                            sub_checked k (n (always_to_downgrade now));
              score_protected := n (fun s => actionable now s && is_prot s);
              dissolved_sample := take 5 (stable_sort digest_le
                (map (digest later) (List.filter (fun s => low (seed_score now s) && negb (is_prot s)) seeds))) |}, t')
    end.

(** *** The history *)

Definition HISTORY_MAX : nat := 20.

Definition push_history (r : ZuowangReport) (hist : option (list ZuowangReport)) : option (list ZuowangReport) :=
  let entries := (default [] hist ++ [r])%list in
  Some (if (HISTORY_MAX <? length entries)%nat then tail entries else entries).

(** [history]; [load] are the newest reports of the database, oldest first. *)
Definition history (load : nat -> option (list ZuowangReport)) (hist : option (list ZuowangReport)) :
    list ZuowangReport * option (list ZuowangReport) :=
  match hist with
  | Some (e :: es) => (e :: es, hist)
  | _ => match load HISTORY_MAX with
         | Some (r :: rs) => (r :: rs, Some (r :: rs))
         | _ => ([], hist)
         end
  end.

(** ** The scheduler *)

Record VasanaReport := { v_zuowang : ZuowangReport; v_budget : option TierBudgetReport; v_dormant : nat; v_total : nat }.

Context (weakest_first : list SeedRow -> list SeedRow).

(** [schedule]; [dormant] is what the matrix of the empty workspace counts, if
    there is one. *)
Definition schedule (busy : bool) (now later : Z) (si_men_open : bool) (dormant : option nat) (t : SeedTable) : VasanaReport * SeedTable :=
  let '(zw, t) := dissolve busy (F32.lit 75 100) now later t in
  let '(budget, t) := if si_men_open then let '(b, t) := enforce_tier_budgets weakest_first t in (Some b, t) else (None, t) in
  ({| v_zuowang := zw; v_budget := budget; v_dormant := default 0 dormant; v_total := count_seeds t |}, t).
End Pipeline.
End Entropy.

(** ** Lemmas: sums over maps *)

Section Sums.
Context {K V : Type} `{Countable K}.
Implicit Types (m : gmap K V) (f : V -> nat).

Lemma msum_insert_new f m k x : m !! k = None -> msum f (<[k := x]> m) = f x + msum f m.
Proof. intros Hk. unfold msum. by rewrite map_to_list_insert. Qed.

Lemma msum_insert_old f m k x y : m !! k = Some y -> msum f (<[k := x]> m) + f y = f x + msum f m.
Proof.
  intros Hk. rewrite <- (insert_delete_id m k y Hk) at 2. rewrite <- insert_delete_eq.
  rewrite !msum_insert_new by apply lookup_delete_eq. lia.
Qed.
End Sums.

Section Distinct.
Context {K : Type} `{Countable K}.

Definition distinct (l : list K) : nat := size (list_to_set l : gset K).

Lemma distinct_snoc (l : list K) k : distinct (l ++ [k]) = if bool_decide (k ∈ l) then distinct l else S (distinct l).
Proof.
  unfold distinct. rewrite list_to_set_app_L. cbn. rewrite union_empty_r_L. case_bool_decide as Hk.
  - f_equal. set_solver.
  - rewrite size_union by set_solver. rewrite size_singleton. lia.
Qed.

Lemma counts_snoc (l : list K) k : counts (l ++ [k]) = count_one (counts l) k.
Proof. unfold counts. by rewrite foldl_app. Qed.

Lemma counts_lookup (l : list K) k : counts l !! k = None <-> k ∉ l.
Proof.
  induction l as [|x l IH] using rev_ind; [split; [by intros _ ?%elem_of_nil|intros _; apply lookup_empty]|].
  rewrite counts_snoc. unfold count_one. destruct (decide (x = k)) as [->|Hne].
  - rewrite lookup_insert_eq. set_solver.
  - rewrite lookup_insert_ne by done. set_solver.
Qed.

Lemma counts_pos (l : list K) k n : counts l !! k = Some n -> 0 < n.
Proof.
  revert n. induction l as [|x l IH] using rev_ind; intros n; [unfold counts; cbn [foldl]; by rewrite lookup_empty|].
  rewrite counts_snoc. unfold count_one. destruct (decide (x = k)) as [->|Hne].
  - rewrite lookup_insert_eq. intros [= <-]. lia.
  - rewrite lookup_insert_ne by done. apply IH.
Qed.

(** Redundant entries: all but the first of every key. *)
Lemma redundant_counts (l : list K) : redundant (counts l) + distinct l = length l.
Proof.
  induction l as [|x l IH] using rev_ind; [done|].
  rewrite counts_snoc, distinct_snoc, length_app. cbn [length]. unfold count_one, redundant in *.
  destruct (counts l !! x) as [n|] eqn:E; cbn [from_option id].
  - pose proof (counts_pos l x n E) as Hpos.
    assert (x ∈ l). { destruct (decide (x ∈ l)) as [?|Hn]; [done|]. apply counts_lookup in Hn. congruence. }
    rewrite bool_decide_eq_true_2 by done.
    pose proof (msum_insert_old (fun c => if (1 <? c)%nat then c - 1 else 0) (counts l) x (S n) n E) as Hs. cbv beta in Hs.
    destruct (Nat.ltb_spec 1 (S n)), (Nat.ltb_spec 1 n); lia.
  - rewrite msum_insert_new by done. cbn [from_option]. change (if (1 <? 1)%nat then 1 - 1 else 0) with 0. rewrite bool_decide_eq_false_2 by (by apply counts_lookup). lia.
Qed.

(** *** Contradictions *)

Definition values_of (vs : ValueSet) : gset string := match vs with One v _ => {[v]} | Many s _ => s end.

Lemma add_value_values vs v : values_of (add_value vs v) = {[v]} ∪ values_of vs.
Proof.
  destruct vs as [e n|s n]; cbn; [|done]. destruct (String.eqb_spec e v) as [->|]; cbn; set_solver.
Qed.
Lemma add_value_count vs v : count_of (add_value vs v) = S (count_of vs).
Proof. destruct vs as [e n|s n]; cbn; [|done]. by destruct (String.eqb e v). Qed.

(** A set of conflicting values has the conflicts the code counts. *)
Definition consistent (vs : ValueSet) : Prop := conflicts_of vs = size (values_of vs) - 1 /\ values_of vs <> ∅.

Lemma add_value_consistent vs v : consistent vs -> consistent (add_value vs v).
Proof.
  intros [H1 H2]. split; [|rewrite add_value_values; set_solver].
  destruct vs as [e n|s n]; cbn; [|done]. destruct (String.eqb_spec e v) as [->|]; cbn; [by rewrite size_singleton|done].
Qed.

Lemma assertions_snoc (l : list (K * string)) kv : assertions (l ++ [kv]) = add_assertion (assertions l) kv.
Proof. unfold assertions. by rewrite foldl_app. Qed.

Lemma assertions_inv (l : list (K * string)) :
  (forall k, match assertions l !! k with
             | Some vs => consistent vs /\ forall v, v ∈ values_of vs <-> (k, v) ∈ l
             | None => forall v, (k, v) ∉ l
             end) /\
  msum count_of (assertions l) = length l /\
  msum conflicts_of (assertions l) + distinct (map fst l) = size (list_to_set l : gset (K * string)).
Proof.
  induction l as [|[k v] l (IH1 & IH2 & IH3)] using rev_ind.
  { split; [|done]. intros k. unfold assertions. cbn [foldl]. rewrite lookup_empty. intros v. apply not_elem_of_nil. }
  assert (Hset : size (list_to_set (l ++ [(k, v)]) : gset (K * string)) =
    if bool_decide ((k, v) ∈ l) then size (list_to_set l : gset (K * string)) else S (size (list_to_set l : gset (K * string)))).
  { rewrite list_to_set_app_L. cbn. rewrite union_empty_r_L. case_bool_decide.
    - f_equal. set_solver.
    - rewrite size_union by set_solver. rewrite size_singleton. lia. }
  rewrite assertions_snoc, Hset, map_app. cbn [map fst]. rewrite distinct_snoc, length_app. cbn [length].
  unfold add_assertion. cbn [fst snd]. specialize (IH1 k) as IHk. split; [|].
  - intros k'. destruct (decide (k = k')) as [<-|Hne].
    + rewrite lookup_insert_eq. destruct (assertions l !! k) as [vs|] eqn:E.
      * destruct IHk as [Hc Hv]. split; [by apply add_value_consistent|]. intros w. rewrite add_value_values. set_solver.
      * split; [split; cbn; [by rewrite size_singleton|set_solver]|]. intros w. cbn. specialize (IHk w). set_solver.
    + rewrite lookup_insert_ne by done. specialize (IH1 k'). destruct (assertions l !! k'); set_solver.
  - destruct (assertions l !! k) as [vs|] eqn:E.
    + destruct IHk as [[Hc Hne] Hv].
      pose proof (msum_insert_old count_of _ _ (add_value vs v) _ E) as Hs. rewrite add_value_count in Hs.
      pose proof (msum_insert_old conflicts_of _ _ (add_value vs v) _ E) as Ht.
      destruct (add_value_consistent vs v (conj Hc Hne)) as [Hc' _]. rewrite add_value_values in Hc'.
      split; [lia|].
      assert (Hk : k ∈ map fst l).
      { apply set_choose_L in Hne as [w Hw]. apply Hv in Hw. apply list_elem_of_fmap. by exists (k, w). }
      rewrite (bool_decide_eq_true_2 (k ∈ map fst l)) by done.
      assert (Hpos : 0 < size (values_of vs)) by (apply Nat.neq_0_lt_0; rewrite size_empty_iff; set_solver).
      case_bool_decide as Hin.
      * apply Hv in Hin. assert (Hu : {[v]} ∪ values_of vs = values_of vs) by set_solver. rewrite Hu in Hc'. lia.
      * assert (Hni : v ∉ values_of vs) by (by rewrite Hv). rewrite size_union, size_singleton in Hc' by set_solver. lia.
    + rewrite !msum_insert_new by done. cbn [count_of conflicts_of].
      rewrite (bool_decide_eq_false_2 ((k, v) ∈ l)) by apply IHk.
      rewrite bool_decide_eq_false_2.
      * lia.
      * intros ([k0 w] & -> & Hin)%list_elem_of_fmap. by apply (IHk w).
Qed.
End Distinct.

(** ** Lemmas: the pipeline *)

(** What becomes of one row. *)
Definition fate (from_str : string -> option Value) (reread : spec_float -> spec_float) (now : Z) (r : SeedRow) : option SeedRow :=
  match load_row from_str reread r with
  | None => Some r
  | Some s =>
      if is_prot s then Some r
      else match sd_tier s with
           | Archive => if low (seed_score now s) then None else Some r
           | OnDemand =>
               if low (seed_score now s) then Some (with_tier "Archive" r)
               else if fading (seed_score now s) then Some (with_strength (F64.mul (r_strength r) (F32.lit 5 10)) r) else Some r
           | Always => if (30 * 24 * 3600 <? now - sd_last_accessed_at s)%Z then Some (with_tier "OnDemand" r) else Some r
           end
  end.

Lemma low_not_fading x : low x = true -> fading x = false.
Proof. unfold low, fading. intros H. by rewrite (fltb_fgeb_excl _ _ H). Qed.

(** A seed is in at most one of the four groups. *)
Lemma one_group now s :
  Nat.b2n (to_delete now s) + Nat.b2n (to_weaken now s) + Nat.b2n (to_downgrade now s) + Nat.b2n (always_to_downgrade now s) <= 1.
Proof.
  unfold to_delete, to_weaken, to_downgrade, always_to_downgrade. pose proof (low_not_fading (seed_score now s)) as Hlf.
  generalize dependent (seed_score now s). intros x Hlf. generalize (30 * 24 * 3600 <? now - sd_last_accessed_at s)%Z.
  intros idle. destruct (is_prot s); cbn [negb]; rewrite ?andb_false_r, ?andb_true_r; [cbn; lia|].
  destruct (low x); [rewrite Hlf by done|]; destruct (fading x), (sd_tier s), idle; vm_compute; lia.
Qed.

Lemma groups_disjoint now (l : list Seed) :
  length (List.filter (to_delete now) l) + length (List.filter (to_weaken now) l) +
  length (List.filter (to_downgrade now) l) + length (List.filter (always_to_downgrade now) l) <= length l.
Proof.
  induction l as [|s l IH]; [done|]. cbn [List.filter]. pose proof (one_group now s).
  destruct (to_delete now s), (to_weaken now s), (to_downgrade now s), (always_to_downgrade now s); cbn in *; lia.
Qed.

Lemma set_tier_rows ids tier t : NoDup ids ->
  rows (set_tier_batch ids tier t) = map (fun r => if bool_decide (r_id r ∈ ids) then with_tier tier r else r) (rows t).
Proof. intros Hnd. by apply on_ids_rows. Qed.
Lemma weaken_rows ids factor t : NoDup ids ->
  rows (weaken_seeds ids factor t) =
    map (fun r => if bool_decide (r_id r ∈ ids) then with_strength (F64.mul (r_strength r) factor) r else r) (rows t).
Proof. intros Hnd. by apply on_ids_rows. Qed.

Lemma if_tier_id (b : bool) x r : r_id (if b then with_tier x r else r) = r_id r.
Proof. by destruct b. Qed.
Lemma if_strength_id (b : bool) x r : r_id (if b then with_strength x r else r) = r_id r.
Proof. by destruct b. Qed.

Section Dissolve.
Context (from_str : string -> option Value) (reread : spec_float -> spec_float).
Context (newest_first : list SeedRow -> list SeedRow) (newest_perm : forall l, newest_first l ≡ₚ l).
Abbreviation load := (load_row from_str reread).
Abbreviation loaded := (load_seeds from_str reread newest_first).

Lemma elem_of_loaded t s : s ∈ loaded t <-> exists r, r ∈ rows t /\ load r = Some s.
Proof.
  unfold load_seeds, load_all_seeds. rewrite list_elem_of_omap. split; intros (r & Hr & Hs); exists r.
  - by rewrite newest_perm in Hr.
  - by rewrite newest_perm.
Qed.

Lemma ids_where_row p t r : NoDup (map r_id (rows t)) -> r ∈ rows t ->
  r_id r ∈ ids_where p (loaded t) <-> exists s, load r = Some s /\ p s = true.
Proof.
  intros Hnd Hr. unfold ids_where. rewrite list_elem_of_fmap. split.
  - intros (s & Hid & Hs). apply elem_of_Lfilter in Hs as [Hs Hp]. apply elem_of_loaded in Hs as (r' & Hr' & Hl).
    exists s. split; [|done]. destruct (load_row_inv _ _ _ _ Hl) as (Hid' & _).
    by rewrite (unique_row (rows t) r r') by (done || congruence).
  - intros (s & Hl & Hp). exists s. destruct (load_row_inv _ _ _ _ Hl) as (Hid' & _). split; [done|].
    apply elem_of_Lfilter. split; [|done]. apply elem_of_loaded. eauto.
Qed.

Lemma ids_where_NoDup p t : NoDup (map r_id (rows t)) -> NoDup (ids_where p (loaded t)).
Proof.
  intros Hnd. unfold ids_where.
  assert (Hsub : map sd_id (loaded t) `sublist_of` map r_id (newest_first (rows t))).
  { unfold load_seeds, load_all_seeds. induction (newest_first (rows t)) as [|r l IH]; [constructor|].
    cbn [omap list_omap]. destruct (load r) as [s|] eqn:Hl; cbn [map]; [|by apply sublist_cons].
    destruct (load_row_inv _ _ _ _ Hl) as (<- & _). by apply sublist_skip. }
  assert (Hall : NoDup (map sd_id (loaded t))).
  { eapply sublist_NoDup; [|exact Hsub]. by rewrite newest_perm. }
  clear Hsub. induction (loaded t) as [|s l IH]; cbn in *; [constructor|]. apply NoDup_cons in Hall as [Hs Hl].
  destruct (p s); cbn; [|by apply IH]. constructor; [|by apply IH].
  intros (s' & He & Hs')%list_elem_of_fmap. apply Hs. rewrite He. apply list_elem_of_fmap_2. by apply elem_of_Lfilter in Hs' as [? _].
Qed.

Lemma dissolution_rows now t : NoDup (map r_id (rows t)) ->
  rows (apply_dissolution now (loaded t) t) = omap (fate from_str reread now) (rows t).
Proof.
  intros Hnd. unfold apply_dissolution.
  rewrite set_tier_rows, weaken_rows, set_tier_rows by (by apply ids_where_NoDup).
  rewrite (proj1 (delete_seeds_rows _ _)), !map_map, omap_filter_map.
  apply omap_ext_in. intros r Hr. cbv beta.
  assert (Hin : forall p, bool_decide (r_id r ∈ ids_where p (loaded t)) =
    match load r with Some s => p s | None => false end).
  { intros p. pose proof (ids_where_row p t r Hnd Hr) as Hiff. destruct (load r) as [s|].
    - destruct (p s) eqn:Hp; [apply bool_decide_eq_true_2|apply bool_decide_eq_false_2]; naive_solver congruence.
    - apply bool_decide_eq_false_2. naive_solver. }
  rewrite !if_tier_id, !if_strength_id, !if_tier_id, !Hin. unfold fate. clear Hin.
  destruct (load r) as [s|]; [|done]. cbn [negb].
  unfold to_delete, to_downgrade, to_weaken, always_to_downgrade.
  pose proof (low_not_fading (seed_score now s)) as Hlf.
  revert Hlf. generalize (seed_score now s) as x. intros x Hlf. generalize (30 * 24 * 3600 <? now - sd_last_accessed_at s)%Z. intros idle.
  destruct (is_prot s); cbn [negb]; rewrite ?andb_false_r, ?andb_true_r; [done|].
  destruct (low x); [rewrite Hlf by done|]; destruct (fading x), (sd_tier s), idle; reflexivity.
Qed.
End Dissolve.

(** ** Properties *)

Section Properties.
Context (lower : string -> string) (from_str : string -> option Value) (reread : spec_float -> spec_float) (ln : spec_float -> spec_float).
Context (newest_first : list SeedRow -> list SeedRow) (newest_perm : forall l, newest_first l ≡ₚ l).
Abbreviation load := (load_row from_str reread).

Lemma fate_protected now r s : load r = Some s -> is_prot s = true -> fate from_str reread now r = Some r.
Proof. unfold fate. by intros -> ->. Qed.

Lemma fate_id now r r' : fate from_str reread now r = Some r' -> r_id r' = r_id r /\ prot_row r' = prot_row r.
Proof.
  unfold fate. destruct (load r) as [s|]; [|by intros [= ->]]. destruct (is_prot s); [by intros [= ->]|].
  repeat case_match; intros [= <-]; rewrite ?prot_with_tier; done.
Qed.

Lemma omap_fate_ids now l : NoDup (map r_id l) -> NoDup (map r_id (omap (fate from_str reread now) l)).
Proof.
  intros Hnd. eapply sublist_NoDup; [exact Hnd|]. clear Hnd. induction l as [|r l IH]; [constructor|].
  cbn [omap list_omap map]. destruct (fate _ _ now r) as [r'|] eqn:E; cbn [map]; [|by apply sublist_cons].
  apply fate_id in E as [-> _]. by apply sublist_skip.
Qed.

Lemma omap_load_length p now l :
  (forall r, r ∈ l -> fate from_str reread now r = None <-> exists s, load r = Some s /\ p s = true) ->
  length (omap (fate from_str reread now) l) + length (List.filter p (omap load l)) = length l.
Proof.
  induction l as [|r l IH]; intros H; [done|]. pose proof (H r ltac:(set_solver)) as Hr.
  specialize (IH (fun x Hx => H x (list_elem_of_further _ _ _ Hx))).
  assert (Hf : match fate from_str reread now r with Some _ => 1 | None => 0 end +
               match load r with Some s => Nat.b2n (p s) | None => 0 end = 1).
  { destruct (fate from_str reread now r) as [r'|].
    - destruct (load r) as [s|]; [|done]. destruct (p s) eqn:Hp; [|done]. by discriminate (proj2 Hr (ex_intro _ s (conj eq_refl Hp))).
    - destruct (proj1 Hr eq_refl) as (s & -> & ->). done. }
  cbn [omap list_omap length]. clear Hr. destruct (fate from_str reread now r) as [r'|], (load r) as [s|]; cbn [List.filter length] in *;
    try (destruct (p s)); cbn in *; lia.
Qed.

Lemma fate_deleted now r : fate from_str reread now r = None <-> exists s, load r = Some s /\ to_delete now s = true.
Proof.
  unfold fate, to_delete. destruct (load r) as [s|]; [|naive_solver].
  generalize (30 * 24 * 3600 <? now - sd_last_accessed_at s)%Z. intros idle.
  transitivity (low (seed_score now s) && bool_decide (sd_tier s = Archive) && negb (is_prot s) = true).
  - generalize (low (seed_score now s)) (fading (seed_score now s)) (is_prot s) (sd_tier s). intros [] [] [] []; destruct idle; done.
  - split; [by exists s|]. by intros (s' & [= <-] & ?).
Qed.

Lemma sub_checked_all a b c d n : a + b + c + d <= n ->
  (k ← sub_checked n a; k ← sub_checked k b; k ← sub_checked k c; sub_checked k d) = Some (n - (a + b + c + d)).
Proof.
  intros H. unfold sub_checked.
  repeat match goal with |- context [(?x <=? ?y)%nat] => destruct (Nat.leb_spec x y); [cbn [mbind option_bind]|lia] end.
  f_equal. lia.
Qed.

(** The dissolution, run or skipped. *)
Lemma dissolve_cases busy threshold now later t : NoDup (map r_id (rows t)) ->
  let '(rep, t') := dissolve lower from_str reread ln newest_first busy threshold now later t in
  (t' = t /\ seeds_dissolved rep = 0 /\ seeds_weakened rep = 0 /\ seeds_downgraded rep = 0 /\ score_kept rep = Some (seeds_examined rep)) \/
  (busy = false /\ fgeb (entropy_before rep) (adapted ln threshold (length (rows t))) = true /\
   rows t' = omap (fate from_str reread now) (rows t) /\
   length (rows t') + seeds_dissolved rep = length (rows t) /\
   exists k, score_kept rep = Some k /\ k + seeds_dissolved rep + seeds_weakened rep + seeds_downgraded rep = seeds_examined rep).
Proof.
  intros Hnd. unfold dissolve. destruct busy; [by left|].
  assert (Hlen : length (load_all_seeds newest_first t) = length (rows t)) by (unfold load_all_seeds; by rewrite newest_perm).
  destruct (load_all_seeds newest_first t) eqn:Hall; [by left|]. rewrite <- Hall in Hlen |- *. clear Hall.
  destruct (exceeds_threshold _ _) eqn:Hex; cbn [negb]; [|by left].
  right. cbn [entropy_before seeds_dissolved seeds_weakened seeds_downgraded seeds_examined score_kept].
  split; [done|]. rewrite <- Hlen at 1. split; [exact Hex|].
  pose proof (dissolution_rows from_str reread newest_first newest_perm now t Hnd) as Hrows.
  split; [exact Hrows|]. split.
  - rewrite Hrows. etransitivity; [|apply (omap_load_length (to_delete now) now); intros; apply fate_deleted].
    f_equal. unfold load_seeds, load_all_seeds. apply Permutation_length. rewrite newest_perm. done.
  - pose proof (groups_disjoint now (load_seeds from_str reread newest_first t)) as Hg.
    eexists. split; [apply sub_checked_all; exact Hg|]. lia.
Qed.
End Properties.

Lemma distinct_le {K} `{Countable K} (l : list K) : distinct l <= length l.
Proof. pose proof (redundant_counts l). lia. Qed.
Lemma distinct_pos {K} `{Countable K} (l : list K) : length l <> 0 -> 0 < distinct l.
Proof.
  intros Hl. destruct l as [|x l]; [done|]. unfold distinct. cbn [list_to_set].
  apply Nat.neq_0_lt_0. rewrite size_empty_iff. set_solver.
Qed.

Lemma filter_kept {A} (p : A -> bool) (l l' : list A) : NoDup l -> (forall x, x ∈ l -> p x = true -> x ∈ l') ->
  length (List.filter p l) <= length (List.filter p l').
Proof.
  intros Hnd H. apply NoDup_incl_length; [apply List.NoDup_filter; by apply NoDup_ListNoDup|].
  intros x Hx. apply list_elem_of_In. apply list_elem_of_In, elem_of_Lfilter in Hx as [Hx Hp]. apply elem_of_Lfilter. auto.
Qed.

(** [C29] The dissolution.  On a table with distinct identifiers, either nothing
    changes (another run, an empty table, an entropy below the bar), or the
    entropy is at least 0.05 and every row meets its fate, decided from that row
    alone: protected and unreadable ones stay as they are; archived ones of low
    score go; on-demand ones are archived or weakened; idle always-loaded ones
    are moved down.  The kept score never underflows and accounts for every
    seed, and the table shrinks by exactly the dissolved ones. *)
Theorem dissolve_spec lower from_str reread ln newest_first busy threshold now later t
    (Hperm : forall l, newest_first l ≡ₚ l) (Hnd : NoDup (map r_id (rows t))) :
  let '(rep, t') := dissolve lower from_str reread ln newest_first busy threshold now later t in
  (t' = t \/
   busy = false /\ fgeb (entropy_before rep) (F32.lit 5 100) = true /\ rows t' = omap (fate from_str reread now) (rows t)) /\
  (forall r s, r ∈ rows t -> load_row from_str reread r = Some s -> is_prot s = true -> r ∈ rows t') /\
  NoDup (map r_id (rows t')) /\
  length (rows t') + seeds_dissolved rep = length (rows t) /\
  exists k, score_kept rep = Some k /\ k + seeds_dissolved rep + seeds_weakened rep + seeds_downgraded rep = seeds_examined rep.
Proof.
  pose proof (dissolve_cases lower from_str reread ln newest_first Hperm busy threshold now later t Hnd) as H.
  destruct (dissolve _ _ _ _ _ _ _ _ _ t) as [rep t'].
  destruct H as [(-> & -> & -> & -> & Hk)|(Hb & Hex & Hrows & Hlen & Hk)].
  { split; [by left|]. split; [done|]. split; [done|]. split; [lia|]. eexists. split; [done|lia]. }
  split; [right|split; [|split; [|done]]].
  - split; [done|]. split; [|done]. eapply fleb_trans; [|exact Hex]. by apply fmax_ge.
  - intros r s Hr Hl Hp. rewrite Hrows, list_elem_of_omap. exists r. split; [done|]. by eapply fate_protected.
  - rewrite Hrows. by apply omap_fate_ids.
Qed.

(** One cycle of the scheduler: no protected seed that loads is lost or
    changed, and while the gate of Si is open both tiers end within their budgets, or hold
    beyond them nothing but protected seeds of that tier. *)
Theorem schedule_spec lower from_str reread ln newest_first weakest_first busy now later si_men_open dormant t
    (Hperm : forall l, newest_first l ≡ₚ l) (Hweak : forall l, weakest_first l ≡ₚ l)
    (Hsort : forall l, Sorted.StronglySorted weaker_eq (weakest_first l)) (Hnd : NoDup (map r_id (rows t))) :
  let '(rep, t') := schedule lower from_str reread ln newest_first weakest_first busy now later si_men_open dormant t in
  (forall r s, r ∈ rows t -> load_row from_str reread r = Some s -> is_prot s = true -> r ∈ rows t') /\
  v_total rep = length (rows t') /\
  (exists k, score_kept (v_zuowang rep) = Some k) /\
  (si_men_open = true ->
   length (List.filter (in_tier "OnDemand") (rows t')) <=
     Nat.max ONDEMAND_BUDGET (length (List.filter (fun r => in_tier "OnDemand" r && prot_row r) (rows t'))) /\
   length (List.filter (in_tier "Archive") (rows t')) <=
     Nat.max ARCHIVE_BUDGET (length (List.filter (fun r => in_tier "Archive" r && prot_row r) (rows t')))).
Proof.
  pose proof (dissolve_cases lower from_str reread ln newest_first Hperm busy (F32.lit 75 100) now later t Hnd) as H.
  unfold schedule. destruct (dissolve _ _ _ _ _ _ _ _ _ t) as [zw t1].
  assert (Hkept : exists k, score_kept zw = Some k) by naive_solver.
  assert (Hnd1 : NoDup (map r_id (rows t1))).
  { destruct H as [(-> & _)|(_ & _ & -> & _)]; [done|by apply omap_fate_ids]. }
  assert (Hp1 : forall r s, r ∈ rows t -> load_row from_str reread r = Some s -> is_prot s = true -> r ∈ rows t1).
  { intros r s Hr Hl Hp. destruct H as [(-> & _)|(_ & _ & -> & _)]; [done|].
    apply list_elem_of_omap. exists r. split; [done|]. by eapply fate_protected. }
  destruct si_men_open; [|by repeat split].
  pose proof (enforce_budgets_spec weakest_first t1 Hweak Hsort Hnd1) as Hb.
  destruct (enforce_tier_budgets weakest_first t1) as [b t2]. destruct Hb as (Hprot & _ & Hod & Har & _ & _).
  cbn [v_total v_zuowang]. split; [|split; [done|split; [done|intros _; split]]].
  - intros r s Hr Hl Hp. apply Hprot; [by eapply Hp1|]. by rewrite <- (is_prot_row from_str reread r s).
  - etransitivity; [exact Hod|]. apply Nat.max_le_compat_l. apply filter_kept; [by eapply NoDup_fmap_1|].
    intros r Hr [_ Hp]%andb_true_iff. by apply Hprot.
  - etransitivity; [exact Har|]. apply Nat.max_le_compat_l. apply filter_kept; [by eapply NoDup_fmap_1|].
    intros r Hr [_ Hp]%andb_true_iff. by apply Hprot.
Qed.

(** What the entropy counts.  The redundancy counts every seed that repeats
    the key of an earlier key-value seed, the predicate and object of an earlier
    triple, or the fingerprint of an earlier text: with the distinct ones these
    are all the seeds.  A contradiction is a value beyond the first of its key,
    so with the distinct keys the conflicts are the distinct assertions, never
    as many as the assertions. *)
Theorem entropy_counts (lower : string -> string) (seeds : list Seed) :
  redundant_count lower seeds + distinct (map fst (key_values seeds)) + distinct (triple_keys seeds) +
    distinct (fingerprints lower seeds) = length seeds /\
  let kv := assertions (key_values seeds) in
  let tr := assertions (triple_facts seeds) in
  msum conflicts_of kv + distinct (map fst (key_values seeds)) = distinct (key_values seeds) /\
  msum conflicts_of tr + distinct (map fst (triple_facts seeds)) = distinct (triple_facts seeds) /\
  msum count_of kv + msum count_of tr + length (fingerprints lower seeds) = length seeds /\
  (msum count_of kv + msum count_of tr <> 0 -> msum conflicts_of kv + msum conflicts_of tr < msum count_of kv + msum count_of tr).
Proof.
  assert (Hlen : length (key_values seeds) + length (triple_keys seeds) + length (fingerprints lower seeds) = length seeds /\
                 length (triple_facts seeds) = length (triple_keys seeds)).
  { unfold key_values, triple_keys, fingerprints, triple_facts. induction seeds as [|s l IH]; [done|].
    cbn [omap list_omap length]. destruct (sd_content s); cbn [length]; lia. }
  destruct (assertions_inv (key_values seeds)) as (_ & Ck & Dk), (assertions_inv (triple_facts seeds)) as (_ & Ct & Dt).
  pose proof (redundant_counts (map fst (key_values seeds))) as R1. pose proof (redundant_counts (triple_keys seeds)) as R2.
  pose proof (redundant_counts (fingerprints lower seeds)) as R3. rewrite length_map in R1.
  fold (distinct (key_values seeds)) in Dk. fold (distinct (triple_facts seeds)) in Dt.
  unfold redundant_count. cbv zeta. repeat split; [lia|done|done|lia|]. intros Hne.
  pose proof (distinct_le (key_values seeds)). pose proof (distinct_le (triple_facts seeds)).
  pose proof (distinct_pos (map fst (key_values seeds))). pose proof (distinct_pos (map fst (triple_facts seeds))).
  rewrite !length_map in *. lia.
Qed.

(** The history never holds more than its bound, and ends with the new report. *)
Lemma push_history_spec r hist : length (default [] hist) <= HISTORY_MAX ->
  exists es, push_history r hist = Some es /\ length es <= HISTORY_MAX /\ last es = Some r.
Proof.
  intros Hl. unfold push_history. eexists. split; [done|]. generalize dependent (default [] hist). intros l Hl.
  destruct (Nat.ltb_spec HISTORY_MAX (length (l ++ [r]))) as [Hlt|Hge]; [|split; [done|by rewrite last_snoc]].
  rewrite length_app in Hlt. destruct l as [|x l]; [cbn in *; unfold HISTORY_MAX in *; lia|].
  cbn [app tail length] in *. rewrite length_app, last_snoc. cbn. split; [lia|done].
Qed.

(** ** Witnesses and instances *)

(** An archived weak seed, a protected one, and an idle always-loaded one. *)
Definition demo_seeds : SeedTable :=
  {| rows := [with_tier "Archive" (demo_row "Consolidation" (F64.lit 1 100) 1);
              demo_row "RenSoul" (F64.lit 1 100) 2;
              with_tier "Always" (demo_row "Consolidation" (F64.lit 1 10) 3);
              demo_row "Consolidation" (F64.lit 1 100) 4];
     fts := [] |}.

Definition demo_dissolve : ZuowangReport * SeedTable :=
  dissolve (fun s => s) text_parse (fun x => x) (fun _ => F32.of_Z 0) (fun l => l) false (F32.lit 10 100) 10000000 10000001 demo_seeds.

Lemma demo_seeds_NoDup : NoDup (map r_id (rows demo_seeds)).
Proof. apply (bool_decide_eq_true_1 (NoDup (map r_id (rows demo_seeds)))). vm_compute. reflexivity. Qed.

Lemma dissolve_spec_witness :
  map (fun r => (r_id r, r_tier r)) (rows (snd demo_dissolve)) = [("2", "OnDemand"); ("3", "OnDemand"); ("4", "Archive")] /\
  exists k, score_kept (fst demo_dissolve) = Some k /\
    k + seeds_dissolved (fst demo_dissolve) + seeds_weakened (fst demo_dissolve) + seeds_downgraded (fst demo_dissolve) =
    seeds_examined (fst demo_dissolve).
Proof.
  split; [vm_compute; reflexivity|].
  pose proof (dissolve_spec (fun s => s) text_parse (fun x => x) (fun _ => F32.of_Z 0) (fun l => l) false (F32.lit 10 100)
    10000000 10000001 demo_seeds (fun _ => reflexivity _) demo_seeds_NoDup) as H.
  unfold demo_dissolve. destruct (dissolve _ _ _ _ _ _ _ _ _ _) as [rep t']. by destruct H as (_ & _ & _ & _ & H).
Defined.

Definition demo_schedule : VasanaReport * SeedTable :=
  schedule (fun s => s) text_parse (fun x => x) (fun _ => F32.of_Z 0) (fun l => l) (merge_sort weaker_eq) false 10000000 10000001 true
    None demo_table.

Lemma schedule_spec_witness :
  length (rows demo_table) = 201 /\ length (List.filter (in_tier "OnDemand") (rows (snd demo_schedule))) <= 200.
Proof.
  split; [reflexivity|].
  assert (Hnd : NoDup (map r_id (rows demo_table))).
  { apply (bool_decide_eq_true_1 (NoDup (map r_id (rows demo_table)))). vm_compute. reflexivity. }
  pose proof (schedule_spec (fun s => s) text_parse (fun x => x) (fun _ => F32.of_Z 0) (fun l => l) (merge_sort weaker_eq) false
    10000000 10000001 true None demo_table (fun _ => reflexivity _)
    (fun l => merge_sort_Permutation weaker_eq l) (fun l => StronglySorted_merge_sort weaker_eq l) Hnd) as H.
  destruct (schedule _ _ _ _ _ _ _ _ _ _ _ _) as [rep t'] eqn:E in H. destruct H as (_ & _ & _ & H). destruct (H eq_refl) as [Hod _].
  assert (Ht : t' = snd demo_schedule) by (unfold demo_schedule; rewrite E; reflexivity). rewrite Ht in Hod.
  etransitivity; [exact Hod|]. clear. vm_compute. lia.
Defined.

(** After a restart the buffer is filled from the database, oldest first, and a
    full buffer gives up its oldest report. *)
Example restart_keeps_newest :
  let loaded := map (fun n => idle_report n zero_entropy 0) (seq 0 20) in
  let '(_, buf) := history (fun _ => Some loaded) None in
  map seeds_examined (default [] (push_history (idle_report 20 zero_entropy 0) buf)) = seq 1 20.
Proof. vm_compute. reflexivity. Qed.

(** A threshold below the floor is raised to it. *)
Example threshold_zero_is_raised :
  adapted (fun _ => F32.of_Z 0) (F32.of_Z 0) 1 = F32.lit 5 100.
Proof. vm_compute. reflexivity. Qed.
