(* ===== verification/Signal.v ===== *)
(** * Signals in the user's messages

    src/kernel/src/vijnana/vasana/signal.rs: the patterns a message is scanned
    for, the technology keywords, and the step that turns signals into seeds of
    the table of Seeds.v.  The identifiers of new seeds, the clock, serde_json
    and the order of SQLite's rows are arguments. *)

From Stdlib Require Import Ascii.
From S2P Require Import Prelude RString Float Json GeJu Seeds.
Local Open Scope string_scope.
#[local] Arguments String.append !_ _ : simpl nomatch.

Record DetectedSignal := { sg_key : string; sg_value : string; sg_nature : SeedNature }.

#[export] Instance DetectedSignal_eq_dec : EqDecision DetectedSignal.
Proof. solve_decision. Defined.

(** ** What follows a pattern *)

(** The leading characters that satisfy a predicate. *)
Fixpoint take_while {A} (p : A -> bool) (l : list A) : list A :=
  match l with
  | [] => []
  | x :: l' => if p x then x :: take_while p l' else []
  end.

(** [None] for an empty text or an empty result. *)
Definition leading (p : string -> bool) (s : string) : option string :=
  let cs := take_while p (chars (trim_start s)) in
  match cs with [] => None | _ => Some (of_chars cs) end.

Definition ident_char (c : string) : bool :=
  match c with
  | String a "" => is_ascii_alphanumeric a
  | _ => false
  end || one_of c ["+"; "."; "-"; "#"; "_"; "/"].

Definition take_ident (s : string) : option string := leading ident_char s.

Definition cn_delimiter (c : string) : bool :=
  is_whitespace c ||
  one_of c ["，"; ","; "。"; "."; "、"; "；"; ";"; "："; ":"; "？"; "?"; "！"; "!"; "）"; ")"; "】"; "]"; "」"; "（"; "("; "【";
            "["; "「"; dq; "'"; "“"; "”"].

Definition take_cn_word (s : string) : option string := leading (fun c => negb (cn_delimiter c)) s.

(** The characters before the delimiter or the last allowed word's end. *)
Fixpoint en_phrase (max words : nat) (cs : list string) : list string :=
  match cs with
  | [] => []
  | c :: cs' =>
      if one_of c ["."; "!"; "?"; ";"; nl] then []
      else if is_whitespace c then if (max <=? S words)%nat then [] else c :: en_phrase max (S words) cs'
      else c :: en_phrase max words cs'
  end.

Definition take_en_phrase (max : nat) (s : string) : option string :=
  match en_phrase max 0 (chars (trim_start s)) with [] => None | cs => Some (of_chars cs) end.

(** [trim_end_matches] of one character. *)
Definition trim_end_char (c : string) (s : string) : string :=
  of_chars (reverse (drop_while (String.eqb c) (reverse (chars s)))).

(** ** Patterns *)

Record Pattern := { pt_prefixes : list string; pt_take : string -> option string; pt_key : string; pt_nature : SeedNature }.

(** The loops of [detect], in their order. *)
Definition patterns : list Pattern :=
  [ {| pt_prefixes := ["我使用的是"; "我用的是"; "我使用"; "我用"]; pt_take := take_ident; pt_key := "tool"; pt_nature := Preference |};
    {| pt_prefixes := ["I use "; "I'm using "; "I am using "; "my setup is "; "I switched to "]; pt_take := take_ident;
       pt_key := "tool"; pt_nature := Preference |};
    {| pt_prefixes := ["我是做"; "我是搞"; "我是"]; pt_take := fun rest => take_cn_word (trim_end_char "的" rest); pt_key := "role";
       pt_nature := Preference |};
    {| pt_prefixes := ["I am a "; "I'm a "; "I work as a "; "I work as an "]; pt_take := take_en_phrase 4; pt_key := "role";
       pt_nature := Preference |};
    {| pt_prefixes := ["不喜欢"; "讨厌"; "不想用"; "不用"]; pt_take := take_cn_word; pt_key := "dislikes"; pt_nature := Preference |};
    {| pt_prefixes := ["I don't like "; "I dislike "; "I hate "; "I avoid "]; pt_take := take_en_phrase 4; pt_key := "dislikes";
       pt_nature := Preference |};
    {| pt_prefixes := ["偏爱"; "爱用"; "常用"; "喜欢"]; pt_take := take_cn_word; pt_key := "likes"; pt_nature := Preference |};
    {| pt_prefixes := ["I like "; "I love "; "I prefer "; "I enjoy "]; pt_take := take_en_phrase 4; pt_key := "likes";
       pt_nature := Preference |};
    {| pt_prefixes := ["在开发"; "在维护"; "在做"; "在写"; "在搞"; "在弄"]; pt_take := take_cn_word; pt_key := "project";
       pt_nature := Fact |};
    {| pt_prefixes := ["I'm building "; "I am building "; "I'm working on "; "I maintain "]; pt_take := take_en_phrase 4;
       pt_key := "project"; pt_nature := Fact |} ].

Definition signal_at (tail : string) (p : Pattern) (prefix : string) : option DetectedSignal :=
  rest ← strip_prefix_str tail prefix;
  word ← pt_take p rest;
  if is_empty_str word then None else Some {| sg_key := pt_key p; sg_value := word; sg_nature := pt_nature p |}.

(** The suffixes of the message that start at a character. *)
Fixpoint tails (cs : list string) : list string :=
  match cs with
  | [] => []
  | _ :: cs' => of_chars cs :: tails cs'
  end.

Definition pattern_signals (message : string) : list DetectedSignal :=
  flat_map (fun tail => flat_map (fun p => omap (signal_at tail p) (pt_prefixes p)) patterns) (tails (chars message)).

(** ** Keywords *)

Definition TECH_KEYWORDS : list string :=
  [ "Rust"; "Python"; "Go"; "TypeScript"; "JavaScript"; "C++"; "C"; "Java"; "Kotlin"; "Swift"; "Zig"; "Elixir"; "Haskell"; "OCaml";
    "Scala"; "Lua";
    "vim"; "neovim"; "emacs"; "VSCode"; "IntelliJ"; "Cursor"; "Helix";
    "sqlx"; "tokio"; "serde"; "diesel"; "axum"; "actix"; "rocket"; "tauri"; "bevy"; "egui"; "ratatui"; "clap"; "rayon"; "nom"; "pest";
    "Postgres"; "MySQL"; "SQLite"; "Redis"; "MongoDB"; "DuckDB";
    "Docker"; "Kubernetes"; "AWS"; "GCP"; "Fly.io"; "Cloudflare";
    "React"; "Vue"; "Svelte"; "Next.js"; "Tailwind" ].

Definition detect_tech_keywords (message : string) : list string := List.filter (contains_str message) TECH_KEYWORDS.

Definition tech_signal (tech : string) : DetectedSignal := {| sg_key := "tech_stack"; sg_value := tech; sg_nature := Fact |}.

(** One keyword: skipped when a signal names it as a tool. *)
Definition add_tech (signals : list DetectedSignal) (tech : string) : list DetectedSignal :=
  if existsb (fun s => String.eqb (sg_key s) "tool" && String.eqb (sg_value s) tech) signals then signals
  else (signals ++ [tech_signal tech])%list.

Definition detect (message : string) : list DetectedSignal :=
  foldl add_tech (pattern_signals message) (detect_tech_keywords message).

(** ** Seeds *)

Section Process.
Context (from_str : string -> option Value) (to_string : Value -> string).
Context (printed reread : spec_float -> spec_float) (newest_first : list SeedRow -> list SeedRow).

(** [SeedStore::load_all]: one unreadable row and nothing is loaded. *)
Definition load_all (t : SeedTable) : option (list Seed) := mapM (load_row from_str reread) (load_all_seeds newest_first t).

Definition is_dup (existing : list Seed) (sig : DetectedSignal) : bool :=
  existsb (fun s => match sd_content s with
                    | KeyValue k v => String.eqb k (sg_key sig) && String.eqb v (sg_value sig)
                    | _ => false
                    end) existing.

(** A preference stored under the signal's key. *)
Definition is_stale (sig : DetectedSignal) (s : Seed) : bool :=
  bool_decide (sd_nature s = Preference) &&
  match sd_content s with KeyValue k _ => String.eqb k (sg_key sig) | _ => false end.
Definition stale (existing : list Seed) (sig : DetectedSignal) : list string :=
  map sd_id (List.filter (is_stale sig) existing).

Definition signal_seed (uuid : string) (now : Z) (session workspace : string) (sig : DetectedSignal) : Seed :=
  Seed_new uuid now session workspace (sg_nature sig) SignalDetection (KeyValue (sg_key sig) (sg_value sig)) Kun Ji "".

(** One signal; the identifier is drawn by the n-th insertion. *)
Definition process_one (uuid : nat -> string) (now : Z) (session workspace : string) (existing : list Seed)
    (st : nat * SeedTable) (sig : DetectedSignal) : nat * SeedTable :=
  let '(created, t) := st in
  if is_dup existing sig then (created, t)
  else
    let t := match sg_nature sig with Preference => delete_seeds (stale existing sig) t | _ => t end in
    (S created, insert_seed from_str to_string (seed_json printed (signal_seed (uuid created) now session workspace sig)) t).

(** [process], in a session whose workspace the store knows. *)
Definition process (uuid : nat -> string) (now : Z) (session : string) (workspace : option string) (message : string)
    (t : SeedTable) : nat * SeedTable :=
  match detect message with
  | [] => (O, t)
  | signals => foldl (process_one uuid now session (default "" workspace) (default [] (load_all t))) (O, t) signals
  end.
End Process.

(** ** Lemmas: patterns *)

Lemma take_while_split {A} (p : A -> bool) l : exists r, l = (take_while p l ++ r)%list.
Proof.
  induction l as [|x l [r IH]]; [by exists []|]. cbn. destruct (p x); [|by exists (x :: l)]. exists r. cbn. by rewrite <- IH.
Qed.

Lemma en_phrase_split max n cs : exists r, cs = (en_phrase max n cs ++ r)%list.
Proof.
  revert n. induction cs as [|c cs IH]; intros n; [by exists []|]. cbn [en_phrase].
  destruct (one_of c _); [by exists (c :: cs)|]. destruct (is_whitespace c); [destruct (max <=? S n)%nat; [by exists (c :: cs)|]|].
  - destruct (IH (S n)) as [r Hr]. exists r. cbn. by rewrite <- Hr.
  - destruct (IH n) as [r Hr]. exists r. cbn. by rewrite <- Hr.
Qed.

(** The text begins, after white space, with the word. *)
Definition begins (s w : string) : Prop :=
  exists gap b, s = of_chars gap +:+ w +:+ b /\ Forall (fun c => is_whitespace c = true) gap.

Lemma begins_chars s (l r : list string) : chars (trim_start s) = (l ++ r)%list -> begins s (of_chars l).
Proof.
  intros H. destruct (drop_while_split is_whitespace (chars s)) as (g & Hg & Hw). exists g, (of_chars r). split; [|done].
  rewrite <- (concat_chars s), Hg at 1. unfold of_chars at 1. rewrite concat_str_app. fold (of_chars g).
  f_equal. transitivity (trim_start s); [done|]. rewrite <- (concat_chars (trim_start s)), H. apply concat_str_app.
Qed.

Lemma leading_begins p s w : leading p s = Some w -> begins s w.
Proof.
  unfold leading. destruct (take_while_split p (chars (trim_start s))) as [r Hr]. revert Hr.
  destruct (take_while p _) as [|c cs]; [done|]. intros Hr Hw. replace w with (of_chars (c :: cs)) by congruence. by eapply begins_chars.
Qed.

Lemma en_phrase_begins max s w : take_en_phrase max s = Some w -> begins s w.
Proof.
  unfold take_en_phrase. destruct (en_phrase_split max 0 (chars (trim_start s))) as [r Hr]. revert Hr.
  destruct (en_phrase max 0 _) as [|c cs]; [done|]. intros Hr Hw. replace w with (of_chars (c :: cs)) by congruence. by eapply begins_chars.
Qed.

Lemma trim_end_char_prefix c s : exists b, s = trim_end_char c s +:+ b.
Proof.
  destruct (drop_while_split (String.eqb c) (reverse (chars s))) as (g & Hg & _). exists (of_chars (reverse g)).
  rewrite <- (concat_chars s) at 1. rewrite <- (reverse_involutive (chars s)), Hg, reverse_app. apply concat_str_app.
Qed.

Lemma pattern_begins p s w : p ∈ patterns -> pt_take p s = Some w -> begins s w.
Proof.
  intros Hp. unfold patterns in Hp. rewrite !elem_of_cons in Hp.
  assert (Hrole : forall t, take_cn_word (trim_end_char "的" s) = Some t -> begins s t).
  { intros t (gap & b & Hs & Hg)%leading_begins. destruct (trim_end_char_prefix "的" s) as [b' Hb].
    exists gap, (b +:+ b'). split; [|done]. rewrite Hb, Hs at 1. by rewrite !app_assoc_str. }
  repeat (destruct Hp as [->|Hp]; [first [exact (leading_begins _ _ _) | exact (en_phrase_begins _ _ _) | exact (Hrole w)]|]).
  by apply elem_of_nil in Hp.
Qed.

Lemma tails_suffix tail cs : tail ∈ tails cs -> exists a, of_chars cs = a +:+ tail.
Proof.
  induction cs as [|c cs IH]; cbn; [by intros ?%elem_of_nil|]. intros [->|H]%elem_of_cons; [by exists ""|].
  destruct (IH H) as [a Ha]. exists (c +:+ a). rewrite app_assoc_str, <- Ha. done.
Qed.

Lemma signal_at_inv tail p prefix sig : p ∈ patterns -> signal_at tail p prefix = Some sig ->
  sg_value sig <> "" /\ sg_key sig = pt_key p /\ sg_nature sig = pt_nature p /\
  exists gap b, tail = prefix +:+ of_chars gap +:+ sg_value sig +:+ b /\ Forall (fun c => is_whitespace c = true) gap.
Proof.
  intros Hp. unfold signal_at, strip_prefix_str. destruct (prefixb prefix tail) eqn:E; [|done].
  apply prefixb_spec in E as [r ->]. cbn [mbind option_bind]. rewrite drop_app_str.
  destruct (pt_take p r) as [w|] eqn:Ht; [|done]. cbn [mbind option_bind]. unfold is_empty_str.
  destruct (String.eqb_spec w ""); [done|]. intros [= <-]. cbn. split; [done|]. split; [done|]. split; [done|].
  destruct (pattern_begins p r w Hp Ht) as (gap & b & -> & Hg). by exists gap, b.
Qed.

(** *** Keywords *)

Definition names_tool (sigs : list DetectedSignal) (tech : string) : Prop := exists s, s ∈ sigs /\ sg_key s = "tool" /\ sg_value s = tech.

Lemma add_tech_spec sigs tech :
  (names_tool sigs tech /\ add_tech sigs tech = sigs) \/
  (~ names_tool sigs tech /\ add_tech sigs tech = (sigs ++ [tech_signal tech])%list).
Proof.
  unfold add_tech. destruct (existsb _ sigs) eqn:E.
  - left. split; [|done]. apply existsb_exists in E as (s & Hs & [Hk Hv]%andb_true_iff).
    exists s. by rewrite list_elem_of_In, <- String.eqb_eq, <- String.eqb_eq.
  - right. split; [|done]. intros (s & Hs & Hk & Hv). rewrite not_existsb in E. specialize (E s Hs). cbv beta in E.
    by rewrite Hk, Hv, !String.eqb_refl in E.
Qed.

Lemma detect_fold (sigs d : list DetectedSignal) (l : list string) : d = foldl add_tech sigs l ->
  (forall s, s ∈ d -> s ∈ sigs \/ exists k, k ∈ l /\ s = tech_signal k /\ ~ names_tool sigs k) /\
  (forall s, s ∈ sigs -> s ∈ d) /\
  (forall k, k ∈ l -> names_tool sigs k \/ tech_signal k ∈ d).
Proof.
  intros ->. revert sigs. induction l as [|k l IH]; intros sigs; cbn [foldl]; [set_solver|].
  destruct (IH (add_tech sigs k)) as (H1 & H2 & H3).
  destruct (add_tech_spec sigs k) as [[Hn Hadd]|[Hn Hadd]]; [rewrite Hadd in *|].
  - split; [set_solver|]. split; [done|]. intros k' [->|Hk]%elem_of_cons; [by left|]. by apply H3.
  - assert (Hsame : forall k', names_tool (add_tech sigs k) k' <-> names_tool sigs k').
    { intros k'. rewrite Hadd. unfold names_tool. split; [|set_solver]. intros (s & [Hs|Hs]%elem_of_app & Hk & Hv); [by exists s|].
      apply list_elem_of_singleton in Hs as ->. done. }
    split; [|split].
    + intros s Hs. destruct (H1 s Hs) as [Hs'|(k' & Hk' & -> & Hno)].
      * rewrite Hadd in Hs'. apply elem_of_app in Hs' as [?|Hs'%list_elem_of_singleton]; [by left|]. right. exists k. set_solver.
      * right. exists k'. rewrite <- Hsame. set_solver.
    + intros s Hs. apply H2. rewrite Hadd. set_solver.
    + intros k' [->|Hk]%elem_of_cons; [right; apply H2; rewrite Hadd; set_solver|]. rewrite <- Hsame. by apply H3.
Qed.

Lemma elem_of_techs message k : k ∈ detect_tech_keywords message <-> k ∈ TECH_KEYWORDS /\ exists a b, message = a +:+ k +:+ b.
Proof. unfold detect_tech_keywords. by rewrite elem_of_Lfilter, contains_str_spec. Qed.

Lemma elem_of_patterns message sig : sig ∈ pattern_signals message <->
  exists tail p prefix, tail ∈ tails (chars message) /\ p ∈ patterns /\ prefix ∈ pt_prefixes p /\ signal_at tail p prefix = Some sig.
Proof.
  unfold pattern_signals. rewrite list_elem_of_In, in_flat_map. setoid_rewrite in_flat_map. setoid_rewrite <- list_elem_of_In.
  setoid_rewrite list_elem_of_omap. naive_solver.
Qed.

Lemma keyword_ne : "" ∉ TECH_KEYWORDS.
Proof. apply (bool_decide_eq_false_1 ("" ∈ TECH_KEYWORDS)). vm_compute. reflexivity. Qed.

#[local] Opaque patterns TECH_KEYWORDS.

Lemma detect_eq message : detect message = foldl add_tech (pattern_signals message) (detect_tech_keywords message).
Proof. unfold detect. reflexivity. Qed.

(** What a message is read as.  Every signal has a non-empty value; it stands
    in the message right after one of the prefixes of its key, white space
    apart, or it is a keyword the message contains and no pattern named as a
    tool.  Every keyword the message contains is one of the two. *)
Theorem detect_spec (message : string) :
  (forall sig, sig ∈ detect message ->
     sg_value sig <> "" /\
     ((exists p prefix a gap b, p ∈ patterns /\ prefix ∈ pt_prefixes p /\ sg_key sig = pt_key p /\ sg_nature sig = pt_nature p /\
         message = a +:+ prefix +:+ of_chars gap +:+ sg_value sig +:+ b /\ Forall (fun c => is_whitespace c = true) gap) \/
      (sig = tech_signal (sg_value sig) /\ sg_value sig ∈ TECH_KEYWORDS /\ (exists a b, message = a +:+ sg_value sig +:+ b) /\
       ~ names_tool (pattern_signals message) (sg_value sig)))) /\
  (forall a kw b, kw ∈ TECH_KEYWORDS -> message = a +:+ kw +:+ b ->
     names_tool (detect message) kw \/ tech_signal kw ∈ detect message).
Proof.
  destruct (detect_fold (pattern_signals message) (detect message) (detect_tech_keywords message) (detect_eq message)) as (H1 & H2 & H3). split.
  - intros sig Hsig. destruct (H1 sig Hsig) as [Hp|(k & Hk & -> & Hno)].
    + apply elem_of_patterns in Hp as (tail & p & prefix & Ht & Hpat & Hpre & Hs).
      destruct (tails_suffix _ _ Ht) as [a Ha]. rewrite concat_chars in Ha.
      destruct (signal_at_inv _ _ _ _ Hpat Hs) as (Hv & Hkey & Hnat & gap & b & -> & Hg).
      split; [done|]. left. by exists p, prefix, a, gap, b.
    + apply elem_of_techs in Hk as [Hk Hc]. split; [|by right].
      cbn [sg_value tech_signal]. intros ->. by apply keyword_ne.
  - intros a kw b Hkw Hm. destruct (H3 kw) as [(s & Hs & ?)|?]; [apply elem_of_techs; eauto|left; exists s; split; [by apply H2|done]|by right].
Qed.

(** ** Lemmas: the seeds of a message *)

Section Message.
Context (from_str : string -> option Value) (reread : spec_float -> spec_float).
Context (newest_first : list SeedRow -> list SeedRow) (newest_perm : forall l, newest_first l ≡ₚ l).
Abbreviation load := (load_row from_str reread).
Abbreviation load_all := (load_all from_str reread newest_first).

Lemma load_all_inv t l : load_all t = Some l -> forall s, s ∈ l <-> exists r, r ∈ rows t /\ load r = Some s.
Proof.
  unfold Signal.load_all, load_all_seeds. intros Hl%mapM_Some s'. setoid_rewrite <- (newest_perm (rows t)). revert Hl. generalize (newest_first (rows t)).
  intros rs Hl. induction Hl as [|r s rs l Hr Hl IH]; [set_solver|]. set_unfold. rewrite IH. naive_solver congruence.
Qed.

Lemma load_all_some t : (forall r, r ∈ rows t -> is_Some (load r)) -> is_Some (load_all t).
Proof.
  intros H. apply mapM_is_Some. apply Forall_forall. intros r Hr. apply H. unfold load_all_seeds in Hr. by rewrite newest_perm in Hr.
Qed.

Section Fold.
Context (to_string : Value -> string) (printed : spec_float -> spec_float).
Context (json_roundtrip : forall k v, from_str (to_string (content_json (KeyValue k v))) = Some (content_json (KeyValue k v))).
Context (one_roundtrip : to_f32 (reread (printed (F32.of_Z 1))) = F32.of_Z 1).
Context (uuid : nat -> string) (uuid_inj : Inj (=) (=) uuid) (now : Z) (now_range : (- 2 ^ 63 <= now < 2 ^ 63)%Z).
Context (session workspace : string) (existing : list Seed) (t : SeedTable).
Context (ids_known : forall s, s ∈ existing -> sd_id s ∈ map r_id (rows t)) (uuid_fresh : forall n, uuid n ∉ map r_id (rows t)).

Definition fresh_row (n : nat) (sig : DetectedSignal) : SeedRow :=
  row_of_json from_str to_string (seed_json printed (signal_seed (uuid n) now session workspace sig)).

(** The identifiers a list of signals gives up. *)
Definition dropped (l : list DetectedSignal) : list string :=
  flat_map (fun sig => if is_dup existing sig then [] else match sg_nature sig with Preference => stale existing sig | _ => [] end) l.

Definition new_signals (l : list DetectedSignal) : list DetectedSignal := List.filter (fun sig => negb (is_dup existing sig)) l.

Definition kept_rows (l : list DetectedSignal) : list SeedRow := List.filter (fun r => negb (bool_decide (r_id r ∈ dropped l))) (rows t).

Lemma fresh_row_id n sig : r_id (fresh_row n sig) = uuid n.
Proof. reflexivity. Qed.

Lemma fresh_row_loads n sig : load (fresh_row n sig) = Some (signal_seed (uuid n) now session workspace sig).
Proof. apply load_row_of; [split; [done|split; [done|cbn; lia]]|apply json_roundtrip|exact one_roundtrip]. Qed.

Lemma stale_known sig id : id ∈ stale existing sig -> id ∈ map r_id (rows t).
Proof. unfold stale. intros (s & -> & [Hs _]%elem_of_Lfilter)%list_elem_of_fmap. by apply ids_known. Qed.

Lemma process_fold l :
  let '(n, t') := foldl (process_one from_str to_string printed uuid now session workspace existing) (O, t) l in
  n = length (new_signals l) /\ rows t' = (kept_rows l ++ imap fresh_row (new_signals l))%list.
Proof.
  induction l as [|sig l IH] using rev_ind.
  { cbn. split; [done|]. rewrite app_nil_r. unfold kept_rows. symmetry. apply filter_all. intros r _. by rewrite bool_decide_eq_false_2 by set_solver. }
  rewrite foldl_app. cbn [foldl]. destruct (foldl _ _ l) as [n t1]. destruct IH as [-> Hrows].
  unfold process_one, new_signals, kept_rows, dropped in *. rewrite List.filter_app, flat_map_app. cbn [List.filter flat_map].
  destruct (is_dup existing sig); cbn [negb]; [by rewrite !app_nil_r|].
  rewrite app_nil_r, imap_app, length_app. cbn [imap length]. split; [lia|].
  set (D := match sg_nature sig with Preference => stale existing sig | _ => [] end).
  set (t2 := match sg_nature sig with Preference => delete_seeds (stale existing sig) t1 | _ => t1 end).
  assert (Hknown : forall id, id ∈ D -> id ∈ map r_id (rows t)).
  { unfold D. destruct (sg_nature sig); try (by intros id ?%elem_of_nil). apply stale_known. }
  assert (H2 : rows t2 = List.filter (fun r => negb (bool_decide (r_id r ∈ D))) (rows t1)).
  { unfold t2, D. destruct (sg_nature sig); try (symmetry; apply filter_all; intros r _; by rewrite bool_decide_eq_false_2 by set_solver).
    apply delete_seeds_rows. }
  assert (Hrows2 : rows t2 = (List.filter (fun r => negb (bool_decide (r_id r ∈ dropped l ++ D))) (rows t) ++ imap fresh_row (new_signals l))%list).
  { rewrite H2, Hrows, List.filter_app, filter_twice. f_equal.
    - apply filter_ext. intros r. rewrite <- negb_orb. f_equal. rewrite <- bool_decide_or. apply bool_decide_ext. set_solver.
    - apply filter_all. intros r Hr. apply list_elem_of_lookup in Hr as [i Hi]. rewrite list_lookup_imap in Hi.
      destruct (new_signals l !! i) as [s|]; [|done]. injection Hi as <-.
      rewrite bool_decide_eq_false_2; [done|]. rewrite fresh_row_id. intros ?%Hknown. by eapply uuid_fresh. }
  unfold insert_seed. cbv zeta. cbn [rows].
  match goal with |- context [row_of_json ?f ?g ?v] => change (row_of_json f g v) with (fresh_row (length (new_signals l)) sig) end.
  rewrite bool_decide_eq_false_2.
  - rewrite Hrows2, <- app_assoc. do 3 f_equal. unfold fresh_row. cbn. by rewrite Nat.add_0_r.
  - rewrite fresh_row_id, Hrows2, map_app. intros [(r & Hid & [Hr _]%elem_of_Lfilter)%list_elem_of_fmap|(r & Hid & Hr)%list_elem_of_fmap]%elem_of_app.
    + eapply uuid_fresh. rewrite Hid. by apply list_elem_of_fmap_2.
    + apply list_elem_of_lookup in Hr as [i Hi]. rewrite list_lookup_imap in Hi.
      destruct (new_signals l !! i) as [s|] eqn:E; [|done]. injection Hi as <-. rewrite fresh_row_id in Hid. apply uuid_inj in Hid as <-.
      apply lookup_lt_Some in E. lia.
Qed.
End Fold.
End Message.

Lemma load_all_loads from_str reread newest_first t seeds r (Hperm : forall l, newest_first l ≡ₚ l) :
  load_all from_str reread newest_first t = Some seeds -> r ∈ rows t -> is_Some (load_row from_str reread r).
Proof.
  intros H Hr. assert (Hs : is_Some (load_all from_str reread newest_first t)) by by rewrite H.
  apply mapM_is_Some in Hs. rewrite Forall_forall in Hs. apply Hs. unfold load_all_seeds. by rewrite Hperm.
Qed.

Lemma process_one_dup from_str to_string printed uuid now session workspace existing n t (l : list DetectedSignal) :
  (forall sig, sig ∈ l -> is_dup existing sig = true) ->
  foldl (process_one from_str to_string printed uuid now session workspace existing) (n, t) l = (n, t).
Proof.
  induction l as [|sig l IH]; intros H; [done|]. cbn [foldl process_one].
  rewrite H by set_solver. apply IH. set_solver.
Qed.

Lemma is_dup_spec existing sig : is_dup existing sig = true <->
  exists s, s ∈ existing /\ sd_content s = KeyValue (sg_key sig) (sg_value sig).
Proof.
  unfold is_dup. rewrite existsb_exists. split; intros (s & Hs & Hc); exists s; rewrite list_elem_of_In in *; (split; [done|]).
  - destruct (sd_content s); try done. by apply andb_true_iff in Hc as [->%String.eqb_eq ->%String.eqb_eq].
  - rewrite Hc. by rewrite !String.eqb_refl.
Qed.

(** The identifiers given up are those of the stale preferences. *)
Lemma dropped_spec from_str reread seeds t (l : list DetectedSignal) r s
    (Hnd : NoDup (map r_id (rows t))) (Hin : forall s, s ∈ seeds <-> exists r, r ∈ rows t /\ load_row from_str reread r = Some s)
    (Hr : r ∈ rows t) (Hl : load_row from_str reread r = Some s) :
  r_id r ∈ dropped seeds l <->
  exists sig, sig ∈ l /\ sg_nature sig = Preference /\ is_dup seeds sig = false /\ is_stale sig s = true.
Proof.
  unfold dropped. rewrite list_elem_of_In, in_flat_map. setoid_rewrite <- list_elem_of_In.
  apply exist_proper. intros sig. destruct (is_dup seeds sig).
  { split; [by intros [_ ?%elem_of_nil]|by intros (_ & _ & ? & _)]. }
  destruct (sg_nature sig); try (split; [by intros [_ ?%elem_of_nil]|by intros (_ & ? & _)]).
  unfold stale. rewrite list_elem_of_fmap. split.
  2: { intros (Hs & _ & _ & Hst). split; [done|]. exists s. destruct (load_row_inv _ _ _ _ Hl) as (<- & _). split; [done|].
       apply elem_of_Lfilter. split; [|done]. apply Hin. by exists r. }
  intros (? & s' & Hid & [(r' & Hr' & Hl')%Hin Hst]%elem_of_Lfilter). repeat split; [done|].
  destruct (load_row_inv _ _ _ _ Hl') as (Hid' & _). rewrite (unique_row (rows t) r r') in Hl by (done || congruence). by simplify_eq.
Qed.

(** A message becomes seeds.  On a table that loads, with new identifiers:
    one seed is stored per signal the table does not know; a row goes exactly
    when it is a preference under the key of such a preference signal, and
    every other row stays.  If the message gives no preference two values,
    every signal is then in the table, and reading the message again changes
    nothing. *)
Theorem process_spec from_str to_string printed reread newest_first uuid now session workspace message t seeds
    (Hperm : forall l, newest_first l ≡ₚ l)
    (Hjson : forall k v, from_str (to_string (content_json (KeyValue k v))) = Some (content_json (KeyValue k v)))
    (Hone : to_f32 (reread (printed (F32.of_Z 1))) = F32.of_Z 1)
    (Hinj : Inj (=) (=) uuid) (Hfresh : forall n, uuid n ∉ map r_id (rows t)) (Hnow : (- 2 ^ 63 <= now < 2 ^ 63)%Z)
    (Hnd : NoDup (map r_id (rows t))) (Hload : load_all from_str reread newest_first t = Some seeds) :
  let '(n, t') := process from_str to_string printed reread newest_first uuid now session workspace message t in
  n = length (new_signals seeds (detect message)) /\
  length (rows t') = length (kept_rows seeds t (detect message)) + n /\
  (forall r s, r ∈ rows t -> load_row from_str reread r = Some s ->
     r ∈ rows t' <-> ~ exists sig, sig ∈ detect message /\ sg_nature sig = Preference /\ is_dup seeds sig = false /\ is_stale sig s = true) /\
  ((forall a b, a ∈ detect message -> b ∈ detect message -> sg_nature a = Preference -> sg_key a = sg_key b -> sg_value a = sg_value b) ->
   exists seeds', load_all from_str reread newest_first t' = Some seeds' /\
     (forall sig, sig ∈ detect message -> is_dup seeds' sig = true) /\
     forall uuid' now' session' workspace', process from_str to_string printed reread newest_first uuid' now' session' workspace' message t' = (O, t')).
Proof.
  pose proof (load_all_inv from_str reread newest_first Hperm t seeds Hload) as Hin.
  assert (Hknown : forall s, s ∈ seeds -> sd_id s ∈ map r_id (rows t)).
  { intros s (r & Hr & Hl)%Hin. destruct (load_row_inv _ _ _ _ Hl) as (-> & _). by apply list_elem_of_fmap_2. }
  pose proof (process_fold from_str reread newest_first Hperm to_string printed Hjson Hone uuid Hinj now Hnow session (default "" workspace) seeds t Hknown
    Hfresh (detect message)) as Hfold.
  assert (Hproc : forall uuid' now' session' workspace' t1 l1, load_all from_str reread newest_first t1 = Some l1 ->
    process from_str to_string printed reread newest_first uuid' now' session' workspace' message t1 =
    foldl (process_one from_str to_string printed uuid' now' session' (default "" workspace') l1) (O, t1) (detect message)).
  { intros uuid' now' session' workspace' t1 l1 Hl1. unfold process. rewrite Hl1. cbn [default from_option id]. by destruct (detect message). }
  rewrite (Hproc _ _ _ _ _ _ Hload). destruct (foldl _ (O, t) (detect message)) as [n t']. destruct Hfold as [-> Hrows].
  assert (Hstay : forall r, r ∈ rows t -> r ∈ rows t' <-> r_id r ∉ dropped seeds (detect message)).
  { intros r Hr. rewrite Hrows, elem_of_app. unfold kept_rows. rewrite elem_of_Lfilter, negb_true_iff, bool_decide_eq_false.
    split; [|by left]. intros [[_ ?]|Hi]; [done|]. exfalso. apply elem_of_lookup_imap in Hi as (i & sig & -> & _).
    apply (Hfresh i). rewrite <- (fresh_row_id from_str to_string printed uuid now session (default "" workspace) i sig).
    by apply list_elem_of_fmap_2. }
  split; [done|]. split; [by rewrite Hrows, length_app, length_imap|]. split.
  { intros r s Hr Hl. rewrite (Hstay r Hr). by rewrite (dropped_spec from_str reread seeds t _ r s Hnd Hin Hr Hl). }
  intros Hfun.
  assert (Hloads : forall r, r ∈ rows t' -> is_Some (load_row from_str reread r)).
  { intros r Hr. rewrite Hrows in Hr. apply elem_of_app in Hr as [[Hr _]%elem_of_Lfilter|(i & sig & -> & _)%elem_of_lookup_imap].
    - by eapply load_all_loads.
    - rewrite (fresh_row_loads from_str reread to_string printed) by done. done. }
  destruct (load_all_some from_str reread newest_first Hperm t' Hloads) as [seeds' Hload'].
  pose proof (load_all_inv from_str reread newest_first Hperm t' seeds' Hload') as Hin'.
  assert (Hall : forall sig, sig ∈ detect message -> is_dup seeds' sig = true).
  { intros sig Hsig. apply is_dup_spec. destruct (is_dup seeds sig) eqn:Hd.
    - pose proof Hd as (s & (r & Hr & Hl)%Hin & Hc)%is_dup_spec. exists s. split; [|done]. apply Hin'. exists r. split; [|done].
      apply (Hstay r Hr). rewrite (dropped_spec from_str reread seeds t _ r s Hnd Hin Hr Hl). intros (sig' & Hs' & Hp & Hnd' & [_ Hk]%andb_true_iff).
      rewrite Hc in Hk. apply String.eqb_eq in Hk. assert (Hv : sg_value sig' = sg_value sig) by by apply Hfun.
      assert (Hd' : is_dup seeds sig' = true) by (apply is_dup_spec; exists s; rewrite Hin, Hc, Hk, Hv; eauto). congruence.
    - assert (Hnew : sig ∈ new_signals seeds (detect message)) by (apply elem_of_Lfilter; by rewrite Hd).
      apply list_elem_of_lookup in Hnew as [i Hi]. eexists. split; [apply Hin'; eexists; split|].
      + rewrite Hrows. apply elem_of_app. right. apply elem_of_lookup_imap. by exists i, sig.
      + by apply (fresh_row_loads from_str reread to_string printed).
      + done. }
  exists seeds'. split; [done|]. split; [done|]. intros uuid' now' session' workspace'.
  rewrite (Hproc _ _ _ _ _ _ Hload'). by apply process_one_dup.
Qed.

(** ** Witnesses and instances *)

(** A printer and a parser of key-value contents. *)
Fixpoint kv_quote (k v : string) : string :=
  match k with "" => String "b"%char v | String c k' => String "a"%char (String c (kv_quote k' v)) end.
Fixpoint kv_unquote (s : string) : option (string * string) :=
  match s with
  | String "a"%char (String c r) => kv ← kv_unquote r; Some (String c (fst kv), snd kv)
  | String "b"%char v => Some ("", v)
  | _ => None
  end.
Definition kv_print (v : Value) : string := kv_quote (default "" (as_str (index v "key"))) (default "" (as_str (index v "value"))).
Definition kv_parse (s : string) : option Value := kv ← kv_unquote s; Some (content_json (KeyValue (fst kv) (snd kv))).

Lemma kv_roundtrip k v : kv_parse (kv_print (content_json (KeyValue k v))) = Some (content_json (KeyValue k v)).
Proof.
  change (kv_print _) with (kv_quote k v). unfold kv_parse. assert (Hq : kv_unquote (kv_quote k v) = Some (k, v)).
  { induction k as [|c k IH]; [done|]. cbn [kv_quote kv_unquote]. by rewrite IH. }
  by rewrite Hq.
Qed.

Definition demo_uuid (tag : string) (n : nat) : string := tag +:+ pretty (N.of_nat n).
Definition demo_process (tag message : string) (t : SeedTable) : nat * SeedTable :=
  process kv_parse kv_print to_f64 (fun x => x) (fun l => l) (demo_uuid tag) 100 "s1" None message t.
Definition values (t : SeedTable) : list string := map r_content_text (rows t).

(** The table of somebody who uses vim. *)
Definition vim_user : SeedTable := snd (demo_process "old" "I use vim" {| rows := []; fts := [] |}).

Lemma process_spec_witness :
  values vim_user = ["tool: vim"] /\ values (snd (demo_process "new" "I switched to emacs" vim_user)) = ["tool: emacs"] /\
  snd (demo_process "later" "I switched to emacs" (snd (demo_process "new" "I switched to emacs" vim_user))) =
    snd (demo_process "new" "I switched to emacs" vim_user).
Proof.
  split; [vm_compute; reflexivity|]. split; [vm_compute; reflexivity|].
  assert (Hinj : Inj (=) (=) (demo_uuid "new")).
  { intros a b H. unfold demo_uuid in H. apply Nat2N.inj. apply (inj pretty). by injection H. }
  assert (Hids : map r_id (rows vim_user) = ["old0"]) by (vm_compute; reflexivity).
  pose proof (process_spec kv_parse kv_print to_f64 (fun x => x) (fun l => l) (demo_uuid "new") 100 "s1" None "I switched to emacs" vim_user
    (default [] (load_all kv_parse (fun x => x) (fun l => l) vim_user)) (fun _ => reflexivity _) kv_roundtrip) as H.
  specialize (H ltac:(vm_compute; reflexivity) Hinj). rewrite Hids in H.
  specialize (H ltac:(intros n [=]%list_elem_of_singleton) ltac:(lia) ltac:(apply NoDup_singleton) ltac:(vm_compute; reflexivity)).
  unfold demo_process in *. destruct (process _ _ _ _ _ _ 100 "s1" None _ vim_user) as [n t'].
  destruct H as (_ & _ & _ & H). destruct H as (seeds' & _ & _ & H).
  - assert (Hd : detect "I switched to emacs" = [ {| sg_key := "tool"; sg_value := "emacs"; sg_nature := Preference |} ])
      by (vm_compute; reflexivity).
    rewrite Hd. intros a b ->%list_elem_of_singleton ->%list_elem_of_singleton. done.
  - cbn [snd]. by rewrite H.
Defined.

(** A message with two values for one preference flips the table each time it
    is read: what is stored already goes, and the other stays. *)
Example two_values_flip :
  let once := snd (demo_process "a" "I use vim and I use emacs" vim_user) in
  let twice := snd (demo_process "b" "I use vim and I use emacs" once) in
  values once = ["tool: emacs"] /\ values twice = ["tool: vim"].
Proof. vm_compute. done. Qed.

(** The seeds of one message are not compared with each other. *)
Example same_message_duplicates :
  values (snd (demo_process "a" "I use vim, I use vim" {| rows := []; fts := [] |})) = ["tool: vim"; "tool: vim"].
Proof. vm_compute. reflexivity. Qed.

(** One row that does not load hides all the others from the comparison. *)
Example unreadable_row_disables_dedup :
  let bad := {| rows := with_tier "Cold" (demo_row "Consolidation" (F64.of_Z 1) 1) :: rows vim_user; fts := [] |} in
  fst (demo_process "a" "I use vim" vim_user) = 0 /\ fst (demo_process "a" "I use vim" bad) = 1.
Proof. vm_compute. done. Qed.

Example dislikes_are_liked :
  detect "我不喜欢Java" =
    [ {| sg_key := "dislikes"; sg_value := "Java"; sg_nature := Preference |};
      {| sg_key := "likes"; sg_value := "Java"; sg_nature := Preference |}; tech_signal "Java" ].
Proof. vm_compute. reflexivity. Qed.

Example role_read_twice :
  map sg_value (detect "我是做后端的") = ["后端"; "做后端"].
Proof. vm_compute. reflexivity. Qed.

Example keywords_in_words : detect "Good Coffee" = [tech_signal "Go"; tech_signal "C"].
Proof. vm_compute. reflexivity. Qed.
