(* ===== verification/Vasana.v ===== *)
(** * Habituation: co-activation, consolidation, distillation

    src/kernel/src/vijnana/vasana/: the matrix of seeds retrieved together
    (coactivation.rs), the extraction of facts from a session's snapshots
    (mod.rs) and of insights from its exchanges (distillation.rs).  What the
    model answers, the order of hash maps, serde_json, the text index, Unicode
    upper-casing and the identifiers of new seeds are arguments. *)

From stdpp Require Import sorting.
From S2P Require Import Prelude RString Float Json GeJu Mind Seeds Context Compaction Loop Provider.
Local Open Scope string_scope.
#[local] Arguments String.append !_ _ : simpl nomatch.

(** ** Seeds retrieved together *)

Abbreviation Pair := (string * string)%type.
Record CoEntry := { co_strength : spec_float; co_last_updated : Z }.
Abbreviation Matrix := (gmap Pair CoEntry).
Record SeedCoActivationMatrix := { matrices : gmap string Matrix; co_decay : spec_float }.

Definition SeedCoActivationMatrix_new (decay : spec_float) : SeedCoActivationMatrix := {| matrices := ∅; co_decay := decay |}.
Definition default_matrix : SeedCoActivationMatrix := SeedCoActivationMatrix_new (F32.lit 95 100).

Definition string_lt (a b : string) : bool := match String.compare a b with Lt => true | _ => false end.
Definition pair_key (x y : string) : Pair := if string_lt x y then (x, y) else (y, x).

Definition reinforce (decay : spec_float) (turn : Z) (m : Matrix) (k : Pair) : Matrix :=
  let old := match m !! k with Some e => co_strength e | None => F32.of_Z 0 end in
  <[k := {| co_strength := F32.add (F32.mul decay old) (F32.mul (F32.sub (F32.of_Z 1) decay) (F32.of_Z 1)); co_last_updated := turn |}]> m.

(** The pairs [(i, j)] with [i < j]. *)
Fixpoint all_pairs (ids : list string) : list Pair :=
  match ids with
  | [] => []
  | x :: rest => (map (pair_key x) rest ++ all_pairs rest)%list
  end.

Definition record_coactivation (w : string) (ids : list string) (turn : Z) (s : SeedCoActivationMatrix) : SeedCoActivationMatrix :=
  if (length ids <? 2)%nat then s
  else {| matrices := <[w := foldl (reinforce (co_decay s) turn) (default ∅ (matrices s !! w)) (all_pairs ids)]> (matrices s);
          co_decay := co_decay s |}.

Definition touches (id : string) (k : Pair) : bool := String.eqb (fst k) id || String.eqb (snd k) id.

Definition count_pairs_for (w id : string) (s : SeedCoActivationMatrix) : nat :=
  match matrices s !! w with
  | None => 0
  | Some m => length (List.filter (fun e => touches id (fst e)) (map_to_list m))
  end.

Definition total_pairs (w : string) (s : SeedCoActivationMatrix) : nat :=
  match matrices s !! w with None => 0 | Some m => size m end.

Section Iteration.
(** The order a hash map is iterated in. *)
Context (iter : list (Pair * CoEntry) -> list (Pair * CoEntry)).

Definition entries (m : Matrix) : list (Pair * CoEntry) := iter (map_to_list m).

Definition coactivation_strength (w id : string) (s : SeedCoActivationMatrix) : spec_float :=
  match matrices s !! w with
  | None => F32.of_Z 0
  | Some m =>
      match List.filter (fun e => touches id (fst e)) (entries m) with
      | [] => F32.of_Z 0
      | l => F32.div (foldl (fun x e => F32.add x (co_strength (snd e))) (F32.of_Z 0) l) (F32.of_Z (Z.of_nat (length l)))
      end
  end.

Definition add_strength (m : gmap string spec_float) (id : string) (x : spec_float) : gmap string spec_float :=
  <[id := F32.add (default (F32.of_Z 0) (m !! id)) x]> m.

(** The seeds whose pairs sum up below the threshold, in some order. *)
Definition dormant_seeds (w : string) (threshold : spec_float) (s : SeedCoActivationMatrix) : list string :=
  match matrices s !! w with
  | None => []
  | Some m =>
      let sums := foldl (fun acc e => add_strength (add_strength acc (fst (fst e)) (co_strength (snd e))) (snd (fst e)) (co_strength (snd e)))
                    ∅ (entries m) in
      map fst (List.filter (fun kv => fltb (snd kv) threshold) (map_to_list sums))
  end.

(** The pairs of a seed, as they are collected: a pair of a seed with itself
    twice. *)
Definition pairs_of (id : string) (m : Matrix) : list (Pair * spec_float) :=
  flat_map (fun e => ((if String.eqb (fst (fst e)) id then [(fst e, co_strength (snd e))] else []) ++
                      (if String.eqb (snd (fst e)) id then [(fst e, co_strength (snd e))] else []))%list) (entries m).

(** The order of [partial_cmp], equal where there is none. *)
Definition weaker_pair (a b : Pair * spec_float) : Prop := fltb (snd b) (snd a) = false.
#[local] Instance weaker_pair_dec : RelDecision weaker_pair.
Proof. intros a b. unfold weaker_pair. apply _. Defined.

Definition surplus (cap : nat) (id : string) (m : Matrix) : list Pair :=
  let pairs := pairs_of id m in
  if (cap <? length pairs)%nat then map fst (take (length pairs - cap) (stable_sort weaker_pair pairs)) else [].

Definition seeds_of (m : Matrix) : list string := flat_map (fun e => [fst (fst e); snd (fst e)]) (entries m).

Definition to_remove (cap : nat) (m : Matrix) : list Pair := flat_map (fun id => surplus cap id m) (seeds_of m).

Definition enforce_cap (w : string) (cap : nat) (s : SeedCoActivationMatrix) : SeedCoActivationMatrix :=
  match matrices s !! w with
  | None => s
  | Some m => {| matrices := <[w := foldl (fun m k => delete k m) m (to_remove cap m)]> (matrices s); co_decay := co_decay s |}
  end.
End Iteration.

(** ** Consolidation *)

Record ConsolidatedFact := {
  fact_type : option string;
  cf_key : option string;
  cf_value : option string;
  cf_subject : option string;
  cf_predicate : option string;
  cf_object : option string;
  cf_text : option string
}.

Definition truncate (max : nat) (s : string) : string :=
  if (len s <=? max)%nat then s else take_str (floor_char_boundary max s) s.

(** Single quotes stand for the double quotes of the source. *)
Definition double_quoted (s : string) : string := replace_str s "'" dq.

Definition snapshot_line (s : TurnSnapshot) : string :=
  "Turn " +:+ pretty (turn_number s) +:+ ": tool=" +:+ tool_name s +:+ ", geju=" +:+ geju_name s +:+ ", mode=" +:+
  snap_execution_mode s +:+ ", output=" +:+ truncate 200 (tool_output s).

Definition consolidation_format : string := str_join nl
  [double_quoted ("Output format: [{'type':'causal', 'subject':'...', 'predicate':'...', 'object':'...'}, " +:+
     "{'type':'preference', 'key':'...', 'value':'...'}, {'type':'entity', 'subject':'...', 'predicate':'is_a', 'object':'...'}]");
   ""; "Focus on:"; "- Causal relationships (what caused what)"; "- Entity facts (X is a Y)";
   "- User preferences (user likes/wants X)"; "- Procedures that succeeded or failed"; "";
   "Output ONLY the JSON array, no other text."].

Definition build_consolidation_prompt (snaps : list TurnSnapshot) : string :=
  str_join nl (["Extract structured facts from these agent execution traces. Output a JSON array."; ""] ++ map snapshot_line snaps ++
               [""; consolidation_format])%list.

Definition text_message (r : Role) (s : string) : Message := {| Context.role := r; Context.content := s; Context.images := [] |}.

(** The text of an answer, up to its first error. *)
Fixpoint read_answer (acc : string) (items : list Item) : string * option ProviderError :=
  match items with
  | [] => (acc, None)
  | Ok (Delta d) :: rest => read_answer (acc +:+ d) rest
  | Ok _ :: rest => read_answer acc rest
  | Err e :: _ => (acc, Some e)
  end.

Inductive Decoded := Facts (l : list ConsolidatedFact) | Unparsed (e : string) | SlicePanic.
Inductive Ended := Answered (response last_error : string) (facts : list ConsolidatedFact) | Failed (e : string) | Crashed.

Definition MAX_RETRIES : nat := 3.

Section Consolidation.
(** serde_json on arrays of facts; [Display] of an error; [Debug] of a string. *)
Context (parse : string -> result string (list ConsolidatedFact)) (show : ProviderError -> string) (debug : string -> string).
(** What the model answers to the n-th request. *)
Context (infer : nat -> list Message -> list Item).

Definition consolidation_request (snaps : list TurnSnapshot) (attempt : nat) (last_error : string) : list Message :=
  ([text_message System ("You are a memory consolidation engine. Extract structured facts from agent execution traces. " +:+
      "Output ONLY valid JSON — an array of fact objects. No other text.");
    text_message User (build_consolidation_prompt snaps)] ++
   match attempt with
   | O => []
   | _ => [text_message User ("Previous attempt failed: " +:+ last_error +:+ ". Output ONLY a valid JSON array.")]
   end)%list.

(** The answer, or the array between its outermost brackets. *)
Definition decode_answer (response : string) : Decoded :=
  match parse response with
  | Ok f => Facts f
  | Err e =>
      let failed := Unparsed ("JSON parse error: " +:+ e) in
      let trimmed := trim response in
      match find_str "[" trimmed, rfind_str "]" trimmed with
      | Some a, Some b =>
          if (S b <? a)%nat then SlicePanic
          else match parse (slice a (S b) trimmed) with Ok f => Facts f | Err _ => failed end
      | _, _ => failed
      end
  end.

(** The attempts left, the number of the next one, and what the last one left. *)
Fixpoint attempts (snaps : list TurnSnapshot) (more attempt : nat) (response last_error : string) : nat * Ended :=
  match more with
  | O => (attempt, Answered response last_error [])
  | S more' =>
      match read_answer "" (infer attempt (consolidation_request snaps attempt last_error)) with
      | (resp, Some e) =>
          let err := "stream error: " +:+ show e in
          match more' with O => (S attempt, Failed err) | _ => attempts snaps more' (S attempt) resp err end
      | (resp, None) =>
          match decode_answer resp with
          | Facts f => (S attempt, Answered resp last_error f)
          | SlicePanic => (S attempt, Crashed)
          | Unparsed err => attempts snaps more' (S attempt) resp err
          end
      end
  end.

Definition content_of_fact (f : ConsolidatedFact) : SeedContent :=
  let key := match cf_key f with Some k => Some k | None => cf_subject f end in
  let value := match cf_value f with Some v => Some v | None => cf_object f end in
  let fallback := FreeText (default (match key with Some k => "Some(" +:+ debug k +:+ ")" | None => "None" end) (cf_text f)) in
  match key, value with
  | Some k, Some v =>
      if bool_decide (fact_type f = Some "preference") then KeyValue k v
      else match cf_predicate f with Some p => Triple k p v | None => fallback end
  | _, _ => fallback
  end.

Definition geju_key_of (snaps : list TurnSnapshot) : string :=
  match snaps with s :: _ => if String.eqb (geju_name s) "" then "consolidation" else geju_name s | [] => "consolidation" end.

Definition fact_seed (uuid : string) (now : Z) (session workspace geju : string) (f : ConsolidatedFact) : Seed :=
  Seed_new uuid now session workspace Inference Consolidation (content_of_fact f) Gen Gui geju.

Section Store.
Context (from_str : string -> option Value) (to_string : Value -> string) (printed : spec_float -> spec_float).
Context (uuid : nat -> string) (now : Z).

Definition store_seed (st : nat * SeedTable) (mk : string -> Seed) : nat * SeedTable :=
  let '(n, t) := st in (S n, insert_seed from_str to_string (seed_json printed (mk (uuid n))) t).

(** [run]: the number of requests, the result ([None] is a panic), and the
    table.  [warn]: whether warnings are logged. *)
Definition consolidate (warn : bool) (session : string) (workspace : option string) (snaps : list TurnSnapshot) (t : SeedTable) :
    nat * option (result string nat) * SeedTable :=
  match snaps with
  | [] => (O, Some (Ok O), t)
  | _ =>
      match attempts snaps MAX_RETRIES 0 "" "" with
      | (n, Crashed) => (n, None, t)
      | (n, Failed e) => (n, Some (Err e), t)
      | (n, Answered resp last_error facts) =>
          match facts, last_error with
          | [], String _ _ =>
              if warn && negb (char_boundary (Nat.min (len resp) 200) resp) then (n, None, t) else (n, Some (Err last_error), t)
          | _, _ =>
              let '(count, t') := foldl (fun st f => store_seed st (fun id => fact_seed id now session (default "" workspace) (geju_key_of snaps) f))
                                    (O, t) facts in
              (n, Some (Ok count), t')
          end
      end
  end.
End Store.
End Consolidation.

(** ** Distillation *)

(** FNV-1a, 64 bits. *)
Definition fnv1a_hash (text : string) : Z :=
  foldl (fun h b => (Z.lxor h (Z.of_nat (byte_val b)) * 1099511628211) mod 2 ^ 64)%Z 14695981039346656037%Z
    (String.list_ascii_of_string text).

(** The deltas up to the first other item. *)
Fixpoint leading_deltas (items : list Item) : string :=
  match items with
  | Ok (Delta d) :: rest => d +:+ leading_deltas rest
  | _ => ""
  end.

Section Distillation.
(** What the model answers to the n-th request; [None] is the timeout. *)
Context (ask : nat -> Message -> option (list Item)) (upper : string -> string).
(** [search_similar_texts] with its limit of five. *)
Context (similar : SeedTable -> string -> option (list string)).

Definition distill_prompt (query response : string) : string :=
  "Based on this interaction:" +:+ nl +:+ "  User: " +:+ query +:+ nl +:+ "  Assistant: " +:+ response +:+ nl +:+ nl +:+
  "Distill one reusable insight from this exchange." +:+ nl +:+
  "If the response is merely " +:+ dq +:+ "I don't know" +:+ dq +:+ " or cannot be answered, output only: SKIP" +:+ nl +:+
  "Otherwise output 1-2 sentences capturing the key knowledge.".

(** The number of requests made so far goes in and out. *)
Definition distill_thought (n : nat) (query response : string) : nat * option string :=
  if (len response <? 50)%nat then (n, None)
  else match ask n (text_message User (distill_prompt query response)) with
       | None => (S n, None)
       | Some items =>
           let thought := trim (leading_deltas items) in
           (S n, if String.eqb thought "" || String.eqb thought "SKIP" then None else Some thought)
       end.

Definition compare_prompt (new_text c : string) : string :=
  "Do these two texts express the same information?" +:+ nl +:+ "A: " +:+ new_text +:+ nl +:+ "B: " +:+ c +:+ nl +:+
  "Answer only YES or NO.".

Fixpoint compare_all (n : nat) (new_text : string) (candidates : list string) : nat * bool :=
  match candidates with
  | [] => (n, false)
  | c :: rest =>
      if String.eqb c "" then compare_all n new_text rest
      else if (fnv1a_hash c =? fnv1a_hash new_text)%Z then (n, true)
      else match ask n (text_message User (compare_prompt new_text c)) with
           | None => compare_all (S n) new_text rest
           | Some items =>
               if contains_str (upper (trim (leading_deltas items))) "YES" then (S n, true) else compare_all (S n) new_text rest
           end
  end.

Definition is_redundant (n : nat) (t : SeedTable) (new_text : string) : nat * bool :=
  match similar t new_text with None => (n, false) | Some candidates => compare_all n new_text candidates end.

Context (from_str : string -> option Value) (to_string : Value -> string) (printed : spec_float -> spec_float).
Context (uuid : nat -> string) (now : Z).

Record Distilled := { dl_requests : nat; dl_hashes : gset Z; dl_created : nat; dl_table : SeedTable }.

Definition thought_seed (id session workspace thought : string) : Seed :=
  Seed_new id now session workspace Inference Consolidation (FreeText thought) Gen Gui "thought_distillation".

Definition pair_hash (query response : string) : Z := fnv1a_hash (query +:+ "|" +:+ response).

(** One exchange. *)
Definition distill_pair (session workspace : string) (old : gset Z) (query response : string) (d : Distilled) : Distilled :=
  let h := pair_hash query response in
  if bool_decide (h ∈ old) || bool_decide (h ∈ dl_hashes d) then d
  else
    match distill_thought (dl_requests d) query response with
    | (n, None) => {| dl_requests := n; dl_hashes := {[h]} ∪ dl_hashes d; dl_created := dl_created d; dl_table := dl_table d |}
    | (n, Some thought) =>
        match is_redundant n (dl_table d) thought with
        | (n, true) => {| dl_requests := n; dl_hashes := {[h]} ∪ dl_hashes d; dl_created := dl_created d; dl_table := dl_table d |}
        | (n, false) =>
            let '(created, t) := store_seed from_str to_string printed uuid (dl_created d, dl_table d)
                                   (fun id => thought_seed id session workspace thought) in
            {| dl_requests := n; dl_hashes := {[h]} ∪ dl_hashes d; dl_created := created; dl_table := t |}
        end
    end.

Fixpoint distill_entries (session workspace : string) (old : gset Z) (last_user : option string) (history : list HistoryEntry)
    (d : Distilled) : Distilled :=
  match history with
  | [] => d
  | HUser q _ :: rest => distill_entries session workspace old (Some q) rest d
  | HAssistant r :: rest =>
      match last_user with
      | Some q => distill_entries session workspace old None rest (distill_pair session workspace old q r d)
      | None => distill_entries session workspace old None rest d
      end
  | _ :: rest => distill_entries session workspace old last_user rest d
  end.

Definition distill (session : string) (workspace : option string) (history : list HistoryEntry) (old : gset Z) (t : SeedTable) : Distilled :=
  distill_entries session (default "" workspace) old None history
    {| dl_requests := 0; dl_hashes := ∅; dl_created := 0; dl_table := t |}.
End Distillation.

(** ** Lemmas: distillation *)

(** The exchanges of a history: each assistant entry with the last user entry
    not answered yet. *)
Fixpoint exchanges (last_user : option string) (history : list HistoryEntry) : list (string * string) :=
  match history with
  | [] => []
  | HUser q _ :: rest => exchanges (Some q) rest
  | HAssistant r :: rest => match last_user with Some q => (q, r) :: exchanges None rest | None => exchanges None rest end
  | _ :: rest => exchanges last_user rest
  end.

Section DistillFacts.
Context (ask : nat -> Message -> option (list Item)) (upper : string -> string).
Context (similar : SeedTable -> string -> option (list string)).
Context (from_str : string -> option Value) (to_string : Value -> string) (printed : spec_float -> spec_float).
Context (uuid : nat -> string) (now : Z) (session workspace : string) (old : gset Z).
Abbreviation pair q r := (distill_pair ask upper similar from_str to_string printed uuid now session workspace old q r).
Abbreviation run := (distill_entries ask upper similar from_str to_string printed uuid now session workspace old).

Lemma distill_exchanges last_user history d :
  run last_user history d = foldl (fun d qr => pair (fst qr) (snd qr) d) d (exchanges last_user history).
Proof.
  revert last_user d. induction history as [|[] history IH]; intros last_user d; cbn; try done; try apply IH.
  destruct last_user; cbn; apply IH.
Qed.

Lemma distill_pair_known q r d : pair_hash q r ∈ old ∪ dl_hashes d -> pair q r d = d.
Proof.
  intros H. unfold distill_pair. cbv zeta. assert (Hb : bool_decide (pair_hash q r ∈ old) || bool_decide (pair_hash q r ∈ dl_hashes d) = true).
  { apply orb_true_iff. rewrite !bool_decide_eq_true. set_solver. }
  by rewrite Hb.
Qed.

Lemma distill_pair_new q r d : pair_hash q r ∉ old ∪ dl_hashes d ->
  dl_hashes (pair q r d) = {[pair_hash q r]} ∪ dl_hashes d /\
  ((dl_created (pair q r d) = dl_created d /\ dl_table (pair q r d) = dl_table d) \/
   exists thought, thought <> "" /\ thought <> "SKIP" /\ 50 <= len r /\
     dl_created (pair q r d) = S (dl_created d) /\
     dl_table (pair q r d) = insert_seed from_str to_string
       (seed_json printed (thought_seed now (uuid (dl_created d)) session workspace thought)) (dl_table d)).
Proof.
  intros H. unfold distill_pair. cbv zeta.
  assert (Hb : bool_decide (pair_hash q r ∈ old) || bool_decide (pair_hash q r ∈ dl_hashes d) = false).
  { apply orb_false_iff. rewrite !bool_decide_eq_false. set_solver. }
  rewrite Hb. unfold distill_thought. destruct (Nat.ltb_spec (len r) 50); [split; [done|by left]|].
  destruct (ask _ _) as [items|]; [|split; [done|by left]].
  destruct (String.eqb_spec (trim (leading_deltas items)) ""); [split; [done|by left]|].
  destruct (String.eqb_spec (trim (leading_deltas items)) "SKIP"); [split; [done|by left]|]. cbn [orb].
  destruct (is_redundant _ _ _ _ _ _) as [k b]. destruct b; [split; [done|by left]|]. split; [done|]. right. by exists (trim (leading_deltas items)).
Qed.

Definition start (t : SeedTable) : Distilled := {| dl_requests := 0; dl_hashes := ∅; dl_created := 0; dl_table := t |}.

Lemma distill_fold t (l : list (string * string)) :
  let d := foldl (fun d qr => pair (fst qr) (snd qr) d) (start t) l in
  (forall h, h ∈ dl_hashes d <-> h ∉ old /\ exists q r, (q, r) ∈ l /\ h = pair_hash q r) /\
  dl_created d <= size (dl_hashes d) /\
  exists new, rows (dl_table d) = (rows t ++ new)%list /\ length new <= dl_created d /\
    ((forall n, uuid n ∉ map r_id (rows t)) -> Inj (=) (=) uuid -> map r_id new = map uuid (seq 0 (dl_created d))).
Proof.
  induction l as [|[q r] l IH] using rev_ind; cbv zeta in *.
  { cbn. split; [set_solver|]. split; [done|]. exists []. by rewrite app_nil_r. }
  rewrite foldl_app. cbn [foldl fst snd]. set (d := foldl _ _ l) in *. destruct IH as (H1 & H2 & new & H3 & H4 & H5).
  destruct (decide (pair_hash q r ∈ old ∪ dl_hashes d)) as [Hk|Hk].
  { rewrite distill_pair_known by done. split; [|split; [done|by exists new]].
    intros h. rewrite H1. split; intros (Ho & q' & r' & Hin & ->); (split; [done|]).
    - exists q', r'. set_solver.
    - apply elem_of_app in Hin as [Hin|[= -> ->]%list_elem_of_singleton]; [eauto|].
      apply elem_of_union in Hk as [?|Hk%H1]; [done|]. by destruct Hk as (_ & ?). }
  destruct (distill_pair_new q r d Hk) as [Hh Hrest].
  rewrite Hh, size_union, size_singleton by set_solver. split; [|split; [destruct Hrest as [[-> _]|(? & _ & _ & _ & -> & _)]; lia|]].
  { intros h. rewrite elem_of_union, elem_of_singleton, H1. setoid_rewrite elem_of_app. setoid_rewrite list_elem_of_singleton.
    split; [|naive_solver]. intros [->|(Ho & q' & r' & Hin & ->)]; [|naive_solver]. split; [set_solver|eauto]. }
  destruct Hrest as [[-> ->]|(thought & _ & _ & _ & -> & ->)]; [by exists new|].
  unfold insert_seed. set (r' := row_of_json _ _ _). assert (Hid : r_id r' = uuid (dl_created d)) by done. clearbody r'. cbv zeta.
  cbn [rows]. case_bool_decide as Htaken.
  - exists new. split; [done|]. split; [lia|]. intros Hf Hi. exfalso. rewrite Hid, H3, map_app in Htaken.
    apply elem_of_app in Htaken as [?|Ht]; [by eapply Hf|]. rewrite (H5 Hf Hi) in Ht.
    apply list_elem_of_fmap in Ht as (n & Hn%Hi & Hin). apply elem_of_seq in Hin. lia.
  - exists (new ++ [r'])%list. rewrite H3, app_assoc. split; [done|]. rewrite length_app. cbn [length]. split; [lia|].
    intros Hf Hi. rewrite map_app, seq_S, map_app, (H5 Hf Hi). cbn. by rewrite Hid.
Qed.
End DistillFacts.

(** Distillation.  Every exchange of the history is known afterwards, whatever
    the model answered; the new hashes are those of exchanges not known before;
    no more insights are stored than hashes are new, each under its own
    identifier, and what was stored stays first.  Running again over the same history with what is
    known now asks the model nothing and changes nothing. *)
Theorem distill_spec ask upper similar from_str to_string printed uuid now session workspace history old t :
  let d := distill ask upper similar from_str to_string printed uuid now session workspace history old t in
  (forall h, h ∈ dl_hashes d <-> h ∉ old /\ exists q r, (q, r) ∈ exchanges None history /\ h = pair_hash q r) /\
  dl_created d <= size (dl_hashes d) /\
  (exists new, rows (dl_table d) = (rows t ++ new)%list /\ length new <= dl_created d /\
     ((forall n, uuid n ∉ map r_id (rows t)) -> Inj (=) (=) uuid -> map r_id new = map uuid (seq 0 (dl_created d)))) /\
  forall ask' uuid' now' session' workspace',
    distill ask' upper similar from_str to_string printed uuid' now' session' workspace' history (old ∪ dl_hashes d) (dl_table d) =
    {| dl_requests := 0; dl_hashes := ∅; dl_created := 0; dl_table := dl_table d |}.
Proof.
  unfold distill. rewrite distill_exchanges. generalize (default "" workspace) as ws. intros ws.
  destruct (distill_fold ask upper similar from_str to_string printed uuid now session ws old t (exchanges None history)) as (H1 & H2 & H3).
  unfold start in *. cbv zeta. set (d := foldl _ _ _) in *. split; [exact H1|]. split; [exact H2|]. split; [exact H3|].
  intros ask' uuid' now' session' workspace'. rewrite distill_exchanges.
  assert (Hall : forall q r, (q, r) ∈ exchanges None history -> pair_hash q r ∈ old ∪ dl_hashes d).
  { intros q r Hin. apply elem_of_union. destruct (decide (pair_hash q r ∈ old)); [by left|right]. apply H1. eauto. }
  clearbody d. clear H1 H2 H3. induction (exchanges None history) as [|[q r] l IH]; [done|]. cbn [foldl fst snd].
  rewrite distill_pair_known; [|cbn [dl_hashes]; rewrite union_empty_r_L; apply Hall; set_solver]. apply IH. set_solver.
Qed.

(** ** Lemmas: co-activation *)

Lemma foldl_delete (m : Matrix) (l : list Pair) k :
  foldl (fun m k => delete k m) m l !! k = if bool_decide (k ∈ l) then None else m !! k.
Proof.
  revert m. induction l as [|x l IH]; intros m; cbn [foldl]; [by rewrite bool_decide_eq_false_2 by set_solver|].
  rewrite IH. destruct (decide (k = x)) as [->|Hne].
  - rewrite lookup_delete_eq. rewrite (bool_decide_eq_true_2 (x ∈ x :: l)) by set_solver. by case_bool_decide.
  - rewrite lookup_delete_ne by done. destruct (decide (k ∈ l)).
    + by rewrite !bool_decide_eq_true_2 by set_solver.
    + by rewrite !bool_decide_eq_false_2 by set_solver.
Qed.

Lemma filter_sublist {A B} (f : A -> B) (p : A -> bool) l : map f (List.filter p l) `sublist_of` map f l.
Proof. induction l as [|x l IH]; cbn; [constructor|]. destruct (p x); by constructor. Qed.

Section Cap.
Context (iter : list (Pair * CoEntry) -> list (Pair * CoEntry)) (iter_perm : forall l, iter l ≡ₚ l).

Lemma elem_of_entries m k e : (k, e) ∈ entries iter m <-> m !! k = Some e.
Proof. unfold entries. by rewrite iter_perm, elem_of_map_to_list. Qed.

Lemma elem_of_pairs_of m k e id : m !! k = Some e -> touches id k = true -> (k, co_strength e) ∈ pairs_of iter id m.
Proof.
  intros Hk Ht. apply list_elem_of_In, in_flat_map. exists (k, e). split; [by apply list_elem_of_In, elem_of_entries|].
  apply list_elem_of_In, elem_of_app. cbn [fst snd]. apply orb_true_iff in Ht as [E|E]; rewrite E; set_solver.
Qed.

Lemma pairs_of_touch m k x id : (k, x) ∈ pairs_of iter id m -> touches id k = true /\ is_Some (m !! k).
Proof.
  intros H. apply list_elem_of_In, in_flat_map in H as ([k' e] & He%list_elem_of_In%elem_of_entries & Hin%list_elem_of_In).
  cbn [fst snd] in Hin. unfold touches. apply elem_of_app in Hin as [Hin|Hin]; destruct (String.eqb _ id) eqn:E;
    try (by apply elem_of_nil in Hin); apply list_elem_of_singleton in Hin as [= -> _]; rewrite E; split; eauto using orb_true_r.
Qed.

Lemma elem_of_seeds_of m k e id : m !! k = Some e -> touches id k = true -> id ∈ seeds_of iter m.
Proof.
  intros Hk Ht. apply list_elem_of_In, in_flat_map. exists (k, e). split; [by apply list_elem_of_In, elem_of_entries|].
  apply list_elem_of_In. cbn [fst snd]. apply orb_true_iff in Ht as [E%String.eqb_eq|E%String.eqb_eq]; subst id; set_solver.
Qed.

Lemma surplus_inv cap m k id : k ∈ surplus iter cap id m -> touches id k = true /\ cap < length (pairs_of iter id m).
Proof.
  unfold surplus. destruct (Nat.ltb_spec cap (length (pairs_of iter id m))); [|by intros ?%elem_of_nil].
  intros ([k' x] & -> & Hin)%list_elem_of_fmap. split; [|done]. apply elem_of_take in Hin as (i & Hi & _).
  apply list_elem_of_lookup_2 in Hi. rewrite stable_sort_Permutation in Hi. by apply pairs_of_touch in Hi as [? _].
Qed.

(** What is not in the surplus fits the cap. *)
Lemma cap_bound cap m id (l : list Pair) : NoDup l ->
  (forall k, k ∈ l -> k ∉ surplus iter cap id m /\ exists e, m !! k = Some e /\ touches id k = true) -> length l <= cap.
Proof.
  intros Hnd Hl. unfold surplus in Hl. set (P := pairs_of iter id m) in *.
  assert (Hin : forall k, k ∈ l -> k ∈ map fst P).
  { intros k Hk. destruct (Hl k Hk) as (_ & e & He & Ht). apply list_elem_of_fmap. exists (k, co_strength e). split; [done|].
    by apply elem_of_pairs_of. }
  destruct (Nat.ltb_spec cap (length P)) as [Hlt|Hge].
  - set (n := length P - cap) in *. set (S := stable_sort weaker_pair P) in *.
    assert (HS : S ≡ₚ P) by apply stable_sort_Permutation.
    transitivity (length (map fst (drop n S))).
    + apply NoDup_incl_length; [by apply NoDup_ListNoDup|]. intros k Hk. apply list_elem_of_In in Hk. apply list_elem_of_In.
      specialize (Hin k Hk). destruct (Hl k Hk) as [Hno _]. rewrite <- HS in Hin. rewrite <- (take_drop n S), map_app in Hin.
      by apply elem_of_app in Hin as [?|?].
    + rewrite length_map, length_drop, HS. lia.
  - transitivity (length (map fst P)); [|rewrite length_map; lia].
    apply NoDup_incl_length; [by apply NoDup_ListNoDup|]. intros k Hk. apply list_elem_of_In in Hk. apply list_elem_of_In. auto.
Qed.
End Cap.

(** The cap.  Whatever order the hash maps are iterated in, no seed has more
    pairs than the cap afterwards; other workspaces are untouched; the pairs
    left are as they were; and a pair goes only if one of its two seeds had
    more than the cap. *)
Theorem enforce_cap_spec iter w cap s (Hperm : forall l, iter l ≡ₚ l) :
  let s' := enforce_cap iter w cap s in
  (forall id, count_pairs_for w id s' <= cap) /\
  (forall w', w' <> w -> matrices s' !! w' = matrices s !! w') /\
  forall m, matrices s !! w = Some m -> exists m', matrices s' !! w = Some m' /\ m' ⊆ m /\
    forall k e, m !! k = Some e -> m' !! k = None ->
      exists id, touches id k = true /\ cap < length (pairs_of iter id m).
Proof.
  cbv zeta. unfold enforce_cap, count_pairs_for. destruct (matrices s !! w) as [m|] eqn:Hm; cbn [matrices].
  2: { split; [intros id; rewrite Hm; lia|]. by split. }
  set (m' := foldl _ m (to_remove iter cap m)).
  assert (Hlook : forall k, m' !! k = if bool_decide (k ∈ to_remove iter cap m) then None else m !! k) by (intros; apply foldl_delete).
  split; [|split].
  - intros id. rewrite lookup_insert_eq, <- (length_map fst).
    apply (cap_bound iter Hperm cap m id).
    + eapply sublist_NoDup; [exact (NoDup_fst_map_to_list m')|]. apply filter_sublist.
    + intros k ([k' e] & -> & [Hk Ht]%elem_of_Lfilter)%list_elem_of_fmap. cbn [fst] in *.
      apply elem_of_map_to_list in Hk. rewrite Hlook in Hk. case_bool_decide as Hr; [done|]. split; [|by exists e].
      intros Hs. apply Hr. apply list_elem_of_In, in_flat_map. exists id. split; [|by apply list_elem_of_In].
      apply list_elem_of_In. by eapply elem_of_seeds_of.
  - intros w' Hne. by rewrite lookup_insert_ne.
  - intros m0 [= <-]. exists m'. split; [apply lookup_insert_eq|]. split.
    + apply map_subseteq_spec. intros k e. rewrite Hlook. by case_bool_decide.
    + intros k e Hk. rewrite Hlook. case_bool_decide as Hr; [|congruence]. intros _.
      apply list_elem_of_In, in_flat_map in Hr as (id & _ & Hs%list_elem_of_In). exists id. by eapply surplus_inv.
Qed.

(** ** Lemmas: consolidation *)

Section Attempts.
Context (parse : string -> result string (list ConsolidatedFact)) (show : ProviderError -> string) (debug : string -> string).
Context (infer : nat -> list Message -> list Item) (snaps : list TurnSnapshot).
Abbreviation run := (attempts parse show infer snaps).

Definition error_of (a : string * option ProviderError) : string :=
  match a with
  | (_, Some e) => "stream error: " +:+ show e
  | (resp, None) => match decode_answer parse resp with Unparsed e => e | _ => "" end
  end.

(** The error the n-th request reports, and the answer to it. *)
Fixpoint error_before (n : nat) : string :=
  match n with
  | O => ""
  | S k => error_of (read_answer "" (infer k (consolidation_request snaps k (error_before k))))
  end.
Definition answer (n : nat) : string * option ProviderError :=
  read_answer "" (infer n (consolidation_request snaps n (error_before n))).

Lemma error_before_S n : error_before (S n) = error_of (answer n).
Proof. reflexivity. Qed.

(** An answer that is asked again. *)
Definition retried (n : nat) : Prop :=
  (exists e, snd (answer n) = Some e) \/ (snd (answer n) = None /\ exists e, decode_answer parse (fst (answer n)) = Unparsed e).

Definition ends (last : bool) (k : nat) (e : Ended) : Prop :=
  match e with
  | Answered r le facts =>
      answer k = (r, None) /\
      (decode_answer parse r = Facts facts /\ le = error_before k \/ last = true /\ decode_answer parse r = Unparsed le /\ facts = [])
  | Failed e => last = true /\ exists x, snd (answer k) = Some x /\ e = "stream error: " +:+ show x
  | Crashed => snd (answer k) = None /\ decode_answer parse (fst (answer k)) = SlicePanic
  end.

Lemma attempts_eq more attempt resp last_error :
  run (S more) attempt resp last_error =
  match read_answer "" (infer attempt (consolidation_request snaps attempt last_error)) with
  | (resp, Some e) =>
      match more with O => (S attempt, Failed ("stream error: " +:+ show e)) | _ => run more (S attempt) resp ("stream error: " +:+ show e) end
  | (resp, None) =>
      match decode_answer parse resp with
      | Facts f => (S attempt, Answered resp last_error f)
      | SlicePanic => (S attempt, Crashed)
      | Unparsed err => run more (S attempt) resp err
      end
  end.
Proof. reflexivity. Qed.

Lemma attempts_spec more attempt resp :
  exists k, attempt <= k < attempt + S more /\ fst (run (S more) attempt resp (error_before attempt)) = S k /\
    (forall i, attempt <= i < k -> retried i) /\
    ends (S k =? attempt + S more)%nat k (snd (run (S more) attempt resp (error_before attempt))).
Proof.
  revert attempt resp. induction more as [|more IH]; intros attempt resp.
  - exists attempt. rewrite attempts_eq. fold (answer attempt). destruct (answer attempt) as [r [e|]] eqn:Ha; cbn [fst snd].
    + split; [lia|]. split; [done|]. split; [lia|]. split; [by apply Nat.eqb_eq; lia|]. exists e. by rewrite Ha.
    + split; [lia|]. destruct (decode_answer parse r) eqn:Hd; cbn [fst snd]; (split; [done|]); (split; [lia|]); cbn [ends].
      * split; [done|]. by left.
      * split; [done|]. right. split; [apply Nat.eqb_eq; lia|]. by split.
      * by rewrite Ha.
  - assert (Hagain : forall r err, error_of (answer attempt) = err -> retried attempt ->
      exists k, attempt <= k < attempt + S (S more) /\ fst (run (S more) (S attempt) r err) = S k /\
        (forall i, attempt <= i < k -> retried i) /\
        ends (S k =? attempt + S (S more))%nat k (snd (run (S more) (S attempt) r err))).
    { intros r err Herr Hret. rewrite <- error_before_S in Herr. destruct (IH (S attempt) r) as (k & Hk & Hn & Hb & He).
      rewrite Herr in Hn, He. exists k. split; [lia|]. split; [done|]. split.
      - intros i Hi. destruct (decide (i = attempt)) as [->|]; [done|]. apply Hb. lia.
      - by replace (attempt + S (S more)) with (S attempt + S more) by lia. }
    rewrite attempts_eq. fold (answer attempt). destruct (answer attempt) as [r [e|]] eqn:Ha.
    + apply Hagain; [done|]. left. rewrite Ha. eauto.
    + destruct (decode_answer parse r) as [f|err|] eqn:Hd.
      * exists attempt. cbn [fst snd ends]. repeat split; try lia; try done. by left.
      * apply Hagain; [cbn; by rewrite Hd|]. right. rewrite Ha. eauto.
      * exists attempt. cbn [fst snd ends]. rewrite Ha. repeat split; try lia; done.
Qed.
End Attempts.

Lemma store_all from_str to_string printed uuid (now : Z) (session workspace geju : string) debug (facts : list ConsolidatedFact) t :
  let '(n, t') := foldl (fun st f => store_seed from_str to_string printed uuid st
                           (fun id => fact_seed debug id now session workspace geju f)) (O, t) facts in
  n = length facts /\
  ((forall i, uuid i ∉ map r_id (rows t)) -> Inj (=) (=) uuid ->
   rows t' = (rows t ++ imap (fun i f => row_of_json from_str to_string
                (seed_json printed (fact_seed debug (uuid i) now session workspace geju f))) facts)%list).
Proof.
  induction facts as [|f facts IH] using rev_ind; [by rewrite app_nil_r|].
  rewrite foldl_app. cbn [foldl]. destruct (foldl _ _ facts) as [n t1]. destruct IH as [-> Hrows].
  cbn [store_seed]. rewrite length_app. cbn [length]. split; [lia|]. intros Hf Hi. specialize (Hrows Hf Hi).
  rewrite imap_app. cbn [imap]. unfold compose. rewrite Nat.add_0_r. unfold insert_seed. cbv zeta. cbn [rows].
  rewrite bool_decide_eq_false_2; [by rewrite Hrows, <- app_assoc|].
  change (r_id (row_of_json _ _ _)) with (uuid (length facts)). rewrite Hrows, map_app.
  intros [?|(r & Hr & (i & f' & -> & Hl)%elem_of_lookup_imap)%list_elem_of_fmap]%elem_of_app; [by eapply Hf|].
  change (r_id (row_of_json _ _ _)) with (uuid i) in Hr. apply Hi in Hr. apply lookup_lt_Some in Hl. lia.
Qed.

Lemma decode_unparsed_ne parse resp : decode_answer parse resp <> Unparsed "".
Proof.
  unfold decode_answer. repeat case_match; done.
Qed.

(** [C30] Consolidation.  Without snapshots nothing is asked.  Otherwise the model
    is asked at most three times, again only after a stream that failed or an
    answer no facts can be read from.  On success the facts are those of the
    last answer, complete, or of the array between its brackets, and each is
    stored as one seed; on any other end the table is as before, and an error
    is reported only after the third request or after an empty list. *)
Theorem consolidate_spec parse show debug infer from_str to_string printed uuid now warn session workspace snaps t
    (Hinj : Inj (=) (=) uuid) (Hfresh : forall i, uuid i ∉ map r_id (rows t)) :
  let '(n, out, t') := consolidate parse show debug infer from_str to_string printed uuid now warn session workspace snaps t in
  match snaps with
  | [] => n = 0 /\ out = Some (Ok 0) /\ t' = t
  | _ =>
      exists k, n = S k /\ k < 3 /\ (forall i, i < k -> retried parse show infer snaps i) /\
      match out with
      | Some (Ok c) =>
          exists resp facts, answer parse show infer snaps k = (resp, None) /\ decode_answer parse resp = Facts facts /\
            c = length facts /\
            rows t' = (rows t ++ imap (fun i f => row_of_json from_str to_string (seed_json printed
                         (fact_seed debug (uuid i) now session (default "" workspace) (geju_key_of snaps) f))) facts)%list
      | Some (Err e) => t' = t /\ (k = 2 \/ decode_answer parse (fst (answer parse show infer snaps k)) = Facts [])
      | None => t' = t
      end
  end.
Proof.
  unfold consolidate. destruct snaps as [|s0 rest]; [done|]. set (snaps := s0 :: rest) in *.
  destruct (attempts_spec parse show infer snaps 2 0 "") as (k & Hk & Hn & Hb & He). unfold MAX_RETRIES.
  change (error_before parse show infer snaps 0) with "" in Hn, He.
  destruct (attempts parse show infer snaps 3 0 "" "") as [n ended]. cbn [fst snd] in *. subst n.
  assert (Hb' : forall i, i < k -> retried parse show infer snaps i) by (intros; apply Hb; lia).
  destruct ended as [resp le facts|e|]; cbn [ends] in He.
  - destruct He as [Ha He].
    pose proof (store_all from_str to_string printed uuid now session (default "" workspace) (geju_key_of snaps) debug facts t) as Hstore.
    destruct facts as [|f facts], le as [|c le].
    + cbn [foldl]. exists k. split; [done|]. split; [lia|]. split; [done|]. destruct He as [[He _]|(_ & He & _)]; [|by apply decode_unparsed_ne in He].
      exists resp, []. repeat split; try done. cbn. by rewrite app_nil_r.
    + assert (Herr : k = 2 \/ decode_answer parse resp = Facts []).
      { destruct He as [[He _]|(Hl & _)]; [by right|left]. apply Nat.eqb_eq in Hl. lia. }
      destruct (warn && _); exists k; (split; [done|]); (split; [lia|]); (split; [done|]); [done|]. split; [done|]. rewrite Ha.
      destruct Herr as [->|?]; [by left|by right].
    + destruct He as [[He _]|(_ & _ & ?)]; [|done]. destruct (foldl _ (O, t) (f :: facts)) as [c0 t1]. destruct Hstore as [-> Hrows]. exists k. split; [done|]. split; [lia|]. split; [done|]. exists resp, (f :: facts). by rewrite Hrows.
    + destruct He as [[He _]|(_ & _ & ?)]; [|done]. destruct (foldl _ (O, t) (f :: facts)) as [c0 t1]. destruct Hstore as [-> Hrows]. exists k. split; [done|]. split; [lia|]. split; [done|]. exists resp, (f :: facts). by rewrite Hrows.
  - destruct He as [Hl _]. apply Nat.eqb_eq in Hl. exists k. split; [done|]. split; [lia|]. split; [done|]. split; [done|]. left. lia.
  - exists k. split; [done|]. split; [lia|]. by split.
Qed.

(** ** Witnesses and instances *)

Definition demo_pairs : SeedCoActivationMatrix :=
  record_coactivation "w" ["a"; "b"; "c"] 1 (record_coactivation "w" ["a"; "b"] 0 default_matrix).

Lemma enforce_cap_spec_witness :
  count_pairs_for "w" "a" demo_pairs = 2 /\ count_pairs_for "w" "a" (enforce_cap (fun l => l) "w" 1 demo_pairs) <= 1 /\
  total_pairs "w" (enforce_cap (fun l => l) "w" 1 demo_pairs) = 1.
Proof.
  split; [vm_compute; reflexivity|]. split; [|vm_compute; reflexivity].
  exact (proj1 (enforce_cap_spec (fun l => l) "w" 1 demo_pairs (fun _ => reflexivity _)) "a").
Defined.

(** A pair the other seed would keep goes with it: "b" and "c" have one pair
    each, the cap is one, and one of the two loses its only pair. *)
Example cap_takes_only_pair :
  let s := record_coactivation "w" ["a"; "c"] 1 (record_coactivation "w" ["a"; "b"] 0 default_matrix) in
  let s' := enforce_cap (fun l => l) "w" 1 s in
  map (fun id => count_pairs_for "w" id s) ["a"; "b"; "c"] = [2; 1; 1] /\
  total_pairs "w" s' = 1 /\ existsb (fun id => (count_pairs_for "w" id s' =? 0)%nat) ["b"; "c"] = true.
Proof. vm_compute. done. Qed.

(** A pair that is not seen again keeps its strength. *)
Example absent_pairs_do_not_decay :
  let s := record_coactivation "w" ["a"; "b"] 0 default_matrix in
  let later := record_coactivation "w" ["c"; "d"] 50 s in
  (m ← matrices s !! "w"; m !! ("a", "b")) = (m ← matrices later !! "w"; m !! ("a", "b")).
Proof. vm_compute. reflexivity. Qed.

(** An identifier touched twice makes a pair with itself. *)
Example self_pair : total_pairs "" (record_coactivation "" ["a"; "a"] 0 default_matrix) = 1.
Proof. vm_compute. reflexivity. Qed.

Definition demo_fact : ConsolidatedFact :=
  {| fact_type := Some "preference"; cf_key := Some "editor"; cf_value := Some "vim"; cf_subject := None; cf_predicate := None;
     cf_object := None; cf_text := None |}.
Definition demo_parse (s : string) : result string (list ConsolidatedFact) :=
  if String.eqb s "[x]" then Ok [demo_fact] else if String.eqb s "[]" then Ok [] else Err "expected value".
Definition demo_snapshot : TurnSnapshot :=
  {| turn_number := 1; intent_stem := Gui; target_palace := Gen; geju_name := ""; snap_execution_mode := "direct"; tool_name := "shell";
     tool_input := Null; tool_output := "ok"; tool_error := None; timestamp := 0; certainty := None; active_seed_ids := []; tool_count := 1 |}.
Definition demo_uuid (n : nat) : string := "s" +:+ pretty (N.of_nat n).
Lemma demo_uuid_inj : Inj (=) (=) demo_uuid.
Proof. intros a b H. unfold demo_uuid in H. apply Nat2N.inj. apply (inj pretty). by injection H. Qed.

(** The model answers each request with one text. *)
Definition demo_consolidate (answers : nat -> string) : nat * option (result string nat) * SeedTable :=
  consolidate demo_parse (fun _ => "e") (fun s => s) (fun n _ => [Ok (Delta (answers n))]) text_parse text_print to_f64 demo_uuid 100 true
    "s1" None [demo_snapshot] empty_table.

Lemma consolidate_spec_witness :
  fst (demo_consolidate (fun n => match n with O => "I cannot" | _ => "Sure: [x]." end)) = (2, Some (Ok 1)) /\
  exists k, 2 = S k /\ k < 3.
Proof.
  split; [vm_compute; reflexivity|].
  pose proof (consolidate_spec demo_parse (fun _ => "e") (fun s => s)
    (fun n _ => [Ok (Delta (match n with O => "I cannot" | _ => "Sure: [x]." end))]) text_parse text_print to_f64 demo_uuid 100 true
    "s1" None [demo_snapshot] empty_table demo_uuid_inj (fun i => not_elem_of_nil _)) as H.
  destruct (consolidate _ _ _ _ _ _ _ _ _ _ _ _ _ _) as [[n out] t'] eqn:E in H.
  destruct H as (k & Hn & Hk & _). exists k. split; [|exact Hk]. rewrite <- Hn.
  transitivity (fst (fst (n, out, t'))); [rewrite <- E; vm_compute; reflexivity|reflexivity].
Defined.

(** A closing bracket before the opening one ends the task in a panic. *)
Example reversed_brackets_panic : demo_consolidate (fun _ => "] [") = (1, None, empty_table).
Proof. vm_compute. reflexivity. Qed.

(** So does logging an unusable answer whose 200th byte is inside a character. *)
Example long_answer_panics : demo_consolidate (fun _ => concat_str (repeat "你" 67)) = (3, None, empty_table).
Proof. vm_compute. reflexivity. Qed.

(** An empty list after a failed attempt is reported as the failure before it. *)
Example empty_list_after_retry_is_error :
  demo_consolidate (fun n => match n with O => "I cannot" | _ => "[]" end) = (2, Some (Err "JSON parse error: expected value"), empty_table).
Proof. vm_compute. reflexivity. Qed.

(** A fact without words becomes a seed that says None. *)
Example wordless_fact :
  content_of_fact (fun s => s) {| fact_type := Some "entity"; cf_key := None; cf_value := None; cf_subject := None; cf_predicate := None;
    cf_object := None; cf_text := None |} = FreeText "None".
Proof. reflexivity. Qed.

Definition long_answer : string := concat_str (repeat "useful " 10).
Definition demo_distill (ask : nat -> Message -> option (list Item)) (old : gset Z) : Distilled :=
  distill ask (fun s => s) (fun _ _ => None) text_parse text_print to_f64 demo_uuid 100 "s1" None [HUser "q" []; HAssistant long_answer] old
    empty_table.

(** An exchange whose request timed out is never distilled again. *)
Lemma distill_spec_witness :
  let d := demo_distill (fun _ _ => None) ∅ in
  dl_created d = 0 /\ dl_requests d = 1 /\
  dl_requests (distill (fun _ _ => Some [Ok (Delta "insight")]) (fun s => s) (fun _ _ => None) text_parse text_print to_f64 demo_uuid 200
     "s1" None [HUser "q" []; HAssistant long_answer] (∅ ∪ dl_hashes d) (dl_table d)) = 0.
Proof.
  cbv zeta. split; [vm_compute; reflexivity|]. split; [vm_compute; reflexivity|].
  pose proof (distill_spec (fun _ _ => None) (fun s => s) (fun _ _ => None) text_parse text_print to_f64 demo_uuid 100 "s1" None
    [HUser "q" []; HAssistant long_answer] ∅ empty_table) as H.
  cbv zeta in H. destruct H as (_ & _ & _ & H). unfold demo_distill. rewrite H. reflexivity.
Defined.

(** An answer cut off by an error is kept as an insight. *)
Example cut_answer_is_kept :
  map r_content_json (rows (dl_table (demo_distill (fun _ _ => Some [Ok (Delta "never run rm"); Err (Network "reset")]) ∅))) = ["never run rm"].
Proof. vm_compute. reflexivity. Qed.
