(* ===== verification/Spirits.v ===== *)
(** * The observing spirits

    src/kernel/src/plates/shen_spirit/{baihu,xuanwu,taiyin,jiutian}.rs: the hooks
    that watch a session and report on the event bus.  Each is a state and what
    an event does to it; the other four (zhifu, tengshe, liuhe, jiudi) only write
    to the log.  The printer of JSON is an argument. *)

From S2P Require Import Prelude Update RString Json Float Hooks Vasana.
Local Open Scope string_scope.

(** The reports of the spirits, of [RuntimeEvent]. *)
Inductive Report :=
| SeedDynamicsSnapshot (turn activated_count : Z) (top_seeds : list string)
| CertaintyTrace (turn : Z) (c_task c_open composite : spec_float)
| BehavioralAlert (severity : spec_float) (anomaly_type : string) (turn : Z)
| MemoryLossRecord (compaction_tokens_lost seeds_deleted seeds_downgraded distillation_dedup_pairs : Z)
| StrategyInsight (turn : Z) (trajectory_summary : string).

(** The last [n] entries of a history after a push. *)
Definition push_capped {A} (n : nat) (x : A) (h : list A) : list A :=
  let h := (h ++ [x])%list in if (n <? length h)%nat then tail h else h.

(** ** BaiHu: anomalies *)

Record BaiHuConfig := {
  blocking_enabled : bool;
  severity_threshold : spec_float;
  consecutive_failure_window : nat;
  consecutive_failure_rate : spec_float;
  retrieval_loop_window : nat;
  retrieval_loop_repeat : Z;
  certainty_crash_delta : spec_float
}.

Definition BaiHuConfig_default : BaiHuConfig :=
  {| blocking_enabled := false; severity_threshold := F32.lit 9 10; consecutive_failure_window := 10;
     consecutive_failure_rate := F32.lit 6 10; retrieval_loop_window := 5; retrieval_loop_repeat := 3; certainty_crash_delta := F32.lit 3 10 |}.

(** Whether each call succeeded, the calls with their hashes, the certainties. *)
Record BaiHuHook := {
  failure_history : list bool;
  call_history : list (string * Z);
  certainty_history : list spec_float
}.
Definition BaiHuHook_new : BaiHuHook := {| failure_history := []; call_history := []; certainty_history := [] |}.

Definition one : spec_float := F32.of_Z 1.
Definition zero : spec_float := F32.of_Z 0.

Section BaiHu.
Context (config : BaiHuConfig) (to_string : Value -> string).

Definition failure_rate (failures : list bool) : spec_float :=
  let window := consecutive_failure_window config in
  if (window <=? length failures)%nat then
    let recent := take window (reverse failures) in
    F32.div (F32.of_Z (Z.of_nat (length (List.filter negb recent)))) (F32.of_Z (Z.of_nat (length recent)))
  else zero.

Definition loop_detected (calls : list (string * Z)) : bool :=
  (trunc_to u64_max (F32.of_Z (retrieval_loop_repeat config)) <=? Z.of_nat (length calls))%Z.

Definition crash (certainty : list spec_float) : spec_float :=
  match reverse certainty with
  | last :: prev :: _ => if fgtb (F32.sub prev last) (certainty_crash_delta config) then one else zero
  | _ => zero
  end.

Definition compute_severity (h : BaiHuHook) : spec_float :=
  fmax (fmax (failure_rate (failure_history h)) (if loop_detected (call_history h) then one else zero)) (crash (certainty_history h)).

Definition baihu_event (e : HookEvent) (h : BaiHuHook) : HookResult * BaiHuHook * list Report :=
  match e with
  | ToolPostExecute _ _ error _ =>
      (HookOk, {| failure_history := push_capped 20 (match error with None => true | Some _ => false end) (failure_history h);
                  call_history := call_history h; certainty_history := certainty_history h |}, [])
  | ToolPreExecute tool_name input =>
      (HookOk, {| failure_history := failure_history h;
                  call_history := push_capped 20 (tool_name, fnv1a_hash (tool_name +:+ "|" +:+ to_string input)) (call_history h);
                  certainty_history := certainty_history h |}, [])
  | LlmResponse _ _ (Some c) =>
      (HookOk, {| failure_history := failure_history h; call_history := call_history h;
                  certainty_history := push_capped (consecutive_failure_window config) c (certainty_history h) |}, [])
  | BatchEnded _ turn _ =>
      let severity := compute_severity h in
      let alerts := if fgtb severity zero
                    then [BehavioralAlert severity (if fgtb severity (severity_threshold config) then "critical" else "warning") turn] else [] in
      (if fgtb severity (severity_threshold config) && blocking_enabled config then Cancel "BaiHu: critical anomaly detected" else HookOk, h, alerts)
  | _ => (HookOk, h, [])
  end.
End BaiHu.

(** ** XuanWu: lost memory *)

(** The tokens lost and not yet reported, 64 bits wide. *)
Definition xuanwu_event (e : HookEvent) (lost : Z) : Z * list Report :=
  match e with
  | CompactionTriggered _ _ tokens_before tokens_after _ => (((lost + Z.max 0 (tokens_before - tokens_after)) mod 2 ^ 64)%Z, [])
  | BatchEnded _ _ _ => (0%Z, if (0 <? lost)%Z then [MemoryLossRecord lost 0 0 0] else [])
  | _ => (lost, [])
  end.

(** ** TaiYin: certainty, and JiuTian: strategy *)

Definition taiyin_event (e : HookEvent) : list Report :=
  match e with
  | BatchEnded tool_count turn _ => [SeedDynamicsSnapshot turn tool_count []]
  | LlmResponse _ _ (Some c) => [CertaintyTrace 0 zero zero c]
  | _ => []
  end.

Definition jiutian_event (enabled : bool) (trajectory : list (Z * string)) (e : HookEvent) : list Report :=
  match e with
  | BatchEnded _ turn _ =>
      if enabled && (5 <=? length trajectory)%nat
      then [StrategyInsight turn (str_join " → " (map (fun p => "t" +:+ pretty (fst p) +:+ ":" +:+ snd p) trajectory))] else []
  | _ => []
  end.

(** ** Properties *)

Definition xuanwu_run (es : list HookEvent) (lost : Z) : Z * list Report :=
  foldl (fun '(l, rs) e => let '(l, r) := xuanwu_event e l in (l, (rs ++ r)%list)) (lost, []) es.
Definition loss_of (e : HookEvent) : Z :=
  match e with CompactionTriggered _ _ before after_ _ => Z.max 0 (before - after_) | _ => 0 end.
Definition told (r : Report) : Z := match r with MemoryLossRecord l _ _ _ => l | _ => 0 end.
Definition total (l : list Z) : Z := foldr Z.add 0%Z l.

Lemma total_app a b : total (a ++ b) = (total a + total b)%Z.
Proof. unfold total. induction a as [|x a IH]; cbn; lia. Qed.

Lemma loss_pos e : (0 <= loss_of e)%Z.
Proof. destruct e; cbn; lia. Qed.

Lemma total_pos es : (0 <= total (map loss_of es))%Z.
Proof. induction es as [|e es IH]; cbn [map total foldr]; [lia|]. pose proof (loss_pos e). unfold total in IH. lia. Qed.

(** No loss is told twice and none is forgotten: what was told and what waits for
    the end of the next batch is what the compactions took away, as long as the
    sum fits its 64 bits. *)
Theorem losses_are_conserved es (Hfit : (total (map loss_of es) < 2 ^ 64)%Z) :
  let '(lost, reports) := xuanwu_run es 0 in (lost + total (map told reports) = total (map loss_of es))%Z.
Proof.
  assert (H : let '(lost, reports) := xuanwu_run es 0 in
    (lost + total (map told reports) = total (map loss_of es) /\ 0 <= lost /\ 0 <= total (map told reports))%Z).
  2:{ destruct (xuanwu_run es 0) as [lost reports]. lia. }
  induction es as [|e es IH] using rev_ind; [done|].
  rewrite map_app, total_app in Hfit |- *. cbn [map total foldr] in *. pose proof (total_pos es) as Hes. pose proof (loss_pos e) as He.
  unfold xuanwu_run in *. rewrite foldl_snoc. specialize (IH ltac:(lia)).
  destruct (foldl _ (0%Z, []) es) as [lost reports]. destruct IH as (IH & Hl & Hr).
  destruct e; cbn [xuanwu_event loss_of] in *; rewrite map_app, total_app; cbn [map total foldr told]; try lia.
  - destruct (Z.ltb_spec 0 lost); cbn; lia.
  - rewrite Z.mod_small by lia. lia.
Qed.

Lemma losses_are_conserved_witness :
  let es := [CompactionTriggered 9 3 500 200 "llm"; BatchEnded 1 1 None; CompactionTriggered 9 3 400 390 "fit"] in
  (total (map loss_of es) < 2 ^ 64)%Z /\ let '(lost, reports) := xuanwu_run es 0 in (lost + total (map told reports) = 310)%Z.
Proof.
  split; [vm_compute; done|].
  exact (losses_are_conserved [CompactionTriggered 9 3 500 200 "llm"; BatchEnded 1 1 None; CompactionTriggered 9 3 400 390 "fit"] eq_refl).
Defined.

(** ** What the model shows *)

(** Any three calls count as a retrieval loop, repeated or not: from then on the
    end of every batch is a critical anomaly, which cancels when blocking is on. *)
Example three_calls_are_a_loop :
  let call n h := snd (fst (baihu_event BaiHuConfig_default (fun _ => "{}") (ToolPreExecute n Null) h)) in
  let h := call "c" (call "b" (call "a" BaiHuHook_new)) in
  snd (baihu_event BaiHuConfig_default (fun _ => "{}") (BatchEnded 3 1 None) h) = [BehavioralAlert one "critical" 1].
Proof. vm_compute. reflexivity. Qed.

(** Nothing ever enters the trajectory, so JiuTian never reports. *)
Lemma jiutian_is_silent enabled e : jiutian_event enabled [] e = [].
Proof. destruct e; cbn; by rewrite ?andb_false_r. Qed.
