(* ===== verification/Wire.v ===== *)
(** * The protocol of the terminal interface

    The events of the agent loop (src/kernel/src/stems/events.rs), the messages
    the gateway turns them into (src/kernel/src/types.rs and
    src/kernel/src/palaces/dui_gateway/rin.rs), and what the terminal interface
    reads and sends (src/tui/src/connection.rs).  Messages are JSON values; the
    text of a line is serde_json's. *)

From S2P Require Import Prelude RString Float Json Context.
Local Open Scope string_scope.

(** ** Events of the agent *)

Inductive InteractionMode := Auto | Plan.
#[export] Instance InteractionMode_eq_dec : EqDecision InteractionMode.
Proof. solve_decision. Defined.

Inductive AgentEvent :=
| AgDelta (content : string)
| AgStreamEnd
| AgToolBatchStart
| AgDone
| AgError (message : string)
| AgToolCall (tool : string) (input : Value)
| AgToolResult (tool output : string) (error geju execution_mode : option string)
| AgConfirmRequest (id tool reason : string) (timeout_secs : Z) (token : string)
| AgSession (session_id title : string)
| AgUserQuestion (id question : string) (timeout_secs : Z) (token : string) (options : option (list string))
| AgInteractionModeChanged (mode : InteractionMode)
| AgContextPressure (tokens threshold : Z)
| AgCompacting
| AgRetrying (attempt : Z)
| AgTaskStarted (task_id description task_type : string) (tool_use_id : option string)
| AgTaskCompleted (task_id status summary output_file : string) (tool_use_id : option string)
| AgTaskStalled (task_id description tail_output : string)
| AgSteerFolded (content : string)
| AgSubagentLifecycle (id kind status summary : string).

(** ** Events on the wire *)

Inductive StreamEvent :=
| EvDelta (content : string)
| EvStreamEnd
| EvToolBatchStart
| EvToolCall (tool : string) (input : Value)
| EvToolResult (tool output : string) (error geju execution_mode : option string)
| EvSession (session_id : string) (title : option string)
| EvConfirmationRequest (id tool reason : string) (timeout_secs : Z) (token : string)
| EvUserQuestion (id question : string) (timeout_secs : Z) (token : string) (options : option (list string))
| EvDone
| EvError (message : string)
| EvInteractionModeChanged (mode : InteractionMode)
| EvContextPressure (tokens threshold : Z)
| EvCompacting
| EvRetrying (attempt : Z)
| EvTaskStarted (task_id description task_type : string) (tool_use_id : option string)
| EvTaskCompleted (task_id status summary output_file : string) (tool_use_id : option string)
| EvTaskStalled (task_id description tail_output : string)
| EvSteerFolded (content : string)
| EvSubagentLifecycle (id kind status summary : string).

(** The forwarder of a run: events it does not name are dropped. *)
Definition forward (e : AgentEvent) : option StreamEvent :=
  match e with
  | AgDelta c => Some (EvDelta c)
  | AgToolCall t i => Some (EvToolCall t i)
  | AgToolResult t o e g m => Some (EvToolResult t o e g m)
  | AgConfirmRequest i t r s k => Some (EvConfirmationRequest i t r s k)
  | AgUserQuestion i q s k o => Some (EvUserQuestion i q s k o)
  | AgSession i t => Some (EvSession i (Some t))
  | AgToolBatchStart => Some EvToolBatchStart
  | AgStreamEnd => Some EvStreamEnd
  | AgContextPressure t h => Some (EvContextPressure t h)
  | AgCompacting => Some EvCompacting
  | AgRetrying a => Some (EvRetrying a)
  | AgDone => Some EvDone
  | AgError m => Some (EvError m)
  | AgInteractionModeChanged m => Some (EvInteractionModeChanged m)
  | AgSteerFolded c => Some (EvSteerFolded c)
  | AgSubagentLifecycle i k s u => Some (EvSubagentLifecycle i k s u)
  | AgTaskStarted _ _ _ _ | AgTaskCompleted _ _ _ _ _ | AgTaskStalled _ _ _ => None
  end.

(** The forwarder of a greeting passes confirmation requests only. *)
Definition forward_hello (e : AgentEvent) : option StreamEvent :=
  match e with
  | AgConfirmRequest i t r s k => Some (EvConfirmationRequest i t r s k)
  | _ => None
  end.

Definition mode_name (m : InteractionMode) : string := match m with Auto => "auto" | Plan => "plan" end.

Definition opt_str (o : option string) : Value := match o with Some s => Str s | None => Null end.
(** A field left out when it is [None]. *)
Definition field (k : string) (o : option Value) : list (string * Value) := match o with Some v => [(k, v)] | None => [] end.
Definition nat_json (n : Z) : Value := Num (PosInt n).

(** The derived serializer, fields in key order. *)
Definition event_json (e : StreamEvent) : Value :=
  match e with
  | EvDelta c => Obj [("content", Str c); ("type", Str "delta")]
  | EvStreamEnd => Obj [("type", Str "stream_end")]
  | EvToolBatchStart => Obj [("type", Str "tool_batch_start")]
  | EvToolCall t i => Obj [("input", i); ("tool", Str t); ("type", Str "tool_call")]
  | EvToolResult t o e g m =>
      Obj ([("error", opt_str e)] ++ field "execution_mode" (Str <$> m) ++
           [("geju", opt_str g); ("output", Str o); ("tool", Str t); ("type", Str "tool_result")])
  | EvSession i t => Obj ([("session_id", Str i)] ++ field "title" (Str <$> t) ++ [("type", Str "session")])
  | EvConfirmationRequest i t r s k =>
      Obj [("id", Str i); ("reason", Str r); ("timeout_secs", nat_json s); ("token", Str k); ("tool", Str t);
           ("type", Str "confirm_request")]
  | EvUserQuestion i q s k o =>
      Obj ([("id", Str i)] ++ field "options" ((fun l => Arr (map Str l)) <$> o) ++
           [("question", Str q); ("timeout_secs", nat_json s); ("token", Str k); ("type", Str "user_question")])
  | EvDone => Obj [("type", Str "done")]
  | EvError m => Obj [("message", Str m); ("type", Str "error")]
  | EvInteractionModeChanged m => Obj [("mode", Str (mode_name m)); ("type", Str "interaction_mode_changed")]
  | EvContextPressure t h => Obj [("threshold", nat_json h); ("tokens", nat_json t); ("type", Str "context_pressure")]
  | EvCompacting => Obj [("type", Str "compacting")]
  | EvRetrying a => Obj [("attempt", nat_json a); ("type", Str "retrying")]
  | EvTaskStarted i d t u =>
      Obj [("description", Str d); ("task_id", Str i); ("task_type", Str t); ("tool_use_id", opt_str u); ("type", Str "task_started")]
  | EvTaskCompleted i s m f u =>
      Obj [("output_file", Str f); ("status", Str s); ("summary", Str m); ("task_id", Str i); ("tool_use_id", opt_str u);
           ("type", Str "task_completed")]
  | EvTaskStalled i d t => Obj [("description", Str d); ("tail_output", Str t); ("task_id", Str i); ("type", Str "task_stalled")]
  | EvSteerFolded c => Obj [("content", Str c); ("type", Str "steer_folded")]
  | EvSubagentLifecycle i k s m =>
      Obj [("id", Str i); ("kind", Str k); ("status", Str s); ("summary", Str m); ("type", Str "subagent_lifecycle")]
  end.

(** ** What the terminal interface reads *)

Inductive TuiEvent :=
| TvDelta (content : string)
| TvSession (session_id : string) (title : option string)
| TvToolCall (tool : string) (input : Value)
| TvToolResult (tool output : string) (error geju execution_mode : option string)
| TvConfirmationRequest (id tool reason : string) (timeout_secs : Z) (token : string)
| TvUserQuestion (id question : string) (timeout_secs : Z) (token : string) (options : option (list string))
| TvDone
| TvStreamEnd
| TvToolBatchStart
| TvError (message : string)
| TvInteractionModeChanged (mode : string)
| TvContextPressure
| TvCompacting
| TvRetrying (attempt : Z)
| TvTaskStarted (task_id description task_type : string) (tool_use_id : option string)
| TvTaskCompleted (task_id status summary output_file : string) (tool_use_id : option string)
| TvTaskStalled (task_id description tail_output : string)
| TvSteerFolded (content : string)
| TvSubagentLifecycle (id kind status summary : string).

Definition str_at (v : Value) (k : string) : option string := as_str (index v k).
Definition str_or (v : Value) (k d : string) : string := default d (str_at v k).

Definition strings_of (l : list Value) : list string := omap as_str l.

(** [StreamEvent::from_value] *)
Definition from_value (v : Value) : option TuiEvent :=
  msg_type ← str_at v "type";
  if String.eqb msg_type "delta" then c ← str_at v "content"; Some (TvDelta c)
  else if String.eqb msg_type "session" then i ← str_at v "session_id"; Some (TvSession i (str_at v "title"))
  else if String.eqb msg_type "tool_call" then t ← str_at v "tool"; Some (TvToolCall t (index v "input"))
  else if String.eqb msg_type "tool_result" then
    t ← str_at v "tool"; Some (TvToolResult t (str_or v "output" "") (str_at v "error") (str_at v "geju") (str_at v "execution_mode"))
  else if String.eqb msg_type "confirm_request" then
    i ← str_at v "id"; t ← str_at v "tool"; r ← str_at v "reason"; s ← as_u64 (index v "timeout_secs"); k ← str_at v "token";
    Some (TvConfirmationRequest i t r s k)
  else if String.eqb msg_type "user_question" then
    i ← str_at v "id"; q ← str_at v "question"; s ← as_u64 (index v "timeout_secs"); k ← str_at v "token";
    Some (TvUserQuestion i q s k (strings_of <$> as_array (index v "options")))
  else if String.eqb msg_type "done" then Some TvDone
  else if String.eqb msg_type "stream_end" then Some TvStreamEnd
  else if String.eqb msg_type "tool_batch_start" then Some TvToolBatchStart
  else if String.eqb msg_type "error" then Some (TvError (str_or v "message" "unknown error"))
  else if String.eqb msg_type "interaction_mode_changed" then Some (TvInteractionModeChanged (str_or v "mode" "auto"))
  else if String.eqb msg_type "context_pressure" then Some TvContextPressure
  else if String.eqb msg_type "compacting" then Some TvCompacting
  else if String.eqb msg_type "retrying" then Some (TvRetrying (default 0%Z (as_u64 (index v "attempt")) mod 2 ^ 32))
  else if String.eqb msg_type "task_started" then
    Some (TvTaskStarted (str_or v "task_id" "?") (str_or v "description" "?") (str_or v "task_type" "shell") (str_at v "tool_use_id"))
  else if String.eqb msg_type "task_completed" then
    Some (TvTaskCompleted (str_or v "task_id" "?") (str_or v "status" "completed") (str_or v "summary" "") (str_or v "output_file" "") (str_at v "tool_use_id"))
  else if String.eqb msg_type "task_stalled" then Some (TvTaskStalled (str_or v "task_id" "?") (str_or v "description" "?") (str_or v "tail_output" ""))
  else if String.eqb msg_type "steer_folded" then Some (TvSteerFolded (str_or v "content" ""))
  else if String.eqb msg_type "subagent_lifecycle" then
    Some (TvSubagentLifecycle (str_or v "id" "?") (str_or v "kind" "?") (str_or v "status" "?") (str_or v "summary" ""))
  else None.

Inductive SocketEvent :=
| SkStream (e : TuiEvent)
| SkCronNotification (job_name prompt response : string) (timestamp : Z)
| SkSessionsList (sessions : list Value)
| SkSessionHistory (session_id : string) (entries : list Value)
| SkConfirmResolved (id : string) (resolved : bool)
| SkAnswerResolved (id : string) (resolved : bool)
| SkModelInfo (provider model : string)
| SkWorkspaceResolved (workspace_id : string) (approved : bool).

Definition as_i64 (v : Value) : option Z :=
  match v with
  | Num (PosInt n) => if (n <? 2 ^ 63)%Z then Some n else None
  | Num (NegInt n) => Some n
  | _ => None
  end.

(** One parsed line of the reader task. *)
Definition read_event (v : Value) : option SocketEvent :=
  let dflt k := default "" (as_str (index v k)) in
  let flag k := default false (as_bool (index v k)) in
  let msg_type := dflt "type" in
  if String.eqb msg_type "cron_notification" then
    Some (SkCronNotification (dflt "job_name") (dflt "prompt") (dflt "response") (default 0%Z (as_i64 (index v "timestamp"))))
  else if String.eqb msg_type "sessions" then Some (SkSessionsList (default [] (as_array (index v "sessions"))))
  else if String.eqb msg_type "session_history" then
    Some (SkSessionHistory (dflt "session_id") (default [] (as_array (index v "entries"))))
  else if String.eqb msg_type "confirm_resolved" then Some (SkConfirmResolved (dflt "id") (flag "resolved"))
  else if String.eqb msg_type "answer_resolved" then Some (SkAnswerResolved (dflt "id") (flag "resolved"))
  else if String.eqb msg_type "model_info" then Some (SkModelInfo (dflt "provider") (dflt "model"))
  else if String.eqb msg_type "workspace_resolved" then Some (SkWorkspaceResolved (dflt "workspace_id") (flag "approved"))
  else SkStream <$> from_value v.

(** The events of the lines the socket carries. *)
Definition read_lines (from_str : string -> option Value) (lines : list string) : list SocketEvent :=
  omap (fun line => let trimmed := trim line in
                    if is_empty_str trimmed then None else v ← from_str trimmed; read_event v) lines.

(** ** What the terminal interface sends *)

Inductive ClientMsg :=
| CmHello (cwd : string)
| CmAgent (messages : list Message) (session_id cwd workspace_id : option string)
| CmCancel (session_id : string)
| CmSteer (session_id content priority : string)
| CmConfirm (id token : string) (approved : bool)
| CmAnswer (id token answer : string)
| CmSessions
| CmLoadSession (session_id : string)
| CmSetInteractionMode (session_id : option string) (mode : string).

Definition role_name (r : Role) : string := match r with System => "system" | User => "user" | Assistant => "assistant" end.

(** A message; images are shown by their data alone here and left out when there
    are none. *)
Definition message_json (m : Message) : Value :=
  Obj ([("content", Str (Context.content m))] ++
       field "images" (match Context.images m with [] => None | l => Some (Arr (map Str l)) end) ++
       [("role", Str (role_name (Context.role m)))]).

Definition client_json (m : ClientMsg) : Value :=
  match m with
  | CmHello c => Obj [("cwd", Str c); ("type", Str "hello")]
  | CmAgent l s c w =>
      Obj (field "cwd" (Str <$> c) ++ [("messages", Arr (map message_json l))] ++ field "session_id" (Str <$> s) ++
           [("type", Str "agent")] ++ field "workspace_id" (Str <$> w))
  | CmCancel s => Obj [("session_id", Str s); ("type", Str "cancel")]
  | CmSteer s c p => Obj [("content", Str c); ("priority", Str p); ("session_id", Str s); ("type", Str "steer")]
  | CmConfirm i k a => Obj [("approved", Bool a); ("id", Str i); ("token", Str k); ("type", Str "confirm")]
  | CmAnswer i k a => Obj [("answer", Str a); ("id", Str i); ("token", Str k); ("type", Str "answer")]
  | CmSessions => Obj [("type", Str "sessions")]
  | CmLoadSession s => Obj [("session_id", Str s); ("type", Str "load_session")]
  | CmSetInteractionMode s m => Obj [("mode", Str m); ("session_id", opt_str s); ("type", Str "set_mode")]
  end.

(** ** Properties *)

(** What an event on the wire means to the interface. *)
Definition view (e : StreamEvent) : TuiEvent :=
  match e with
  | EvDelta c => TvDelta c
  | EvStreamEnd => TvStreamEnd
  | EvToolBatchStart => TvToolBatchStart
  | EvToolCall t i => TvToolCall t i
  | EvToolResult t o e g m => TvToolResult t o e g m
  | EvSession i t => TvSession i t
  | EvConfirmationRequest i t r s k => TvConfirmationRequest i t r s k
  | EvUserQuestion i q s k o => TvUserQuestion i q s k o
  | EvDone => TvDone
  | EvError m => TvError m
  | EvInteractionModeChanged m => TvInteractionModeChanged (mode_name m)
  | EvContextPressure _ _ => TvContextPressure
  | EvCompacting => TvCompacting
  | EvRetrying a => TvRetrying a
  | EvTaskStarted i d t u => TvTaskStarted i d t u
  | EvTaskCompleted i s m f u => TvTaskCompleted i s m f u
  | EvTaskStalled i d t => TvTaskStalled i d t
  | EvSteerFolded c => TvSteerFolded c
  | EvSubagentLifecycle i k s m => TvSubagentLifecycle i k s m
  end.

Lemma omap_as_str (l : list string) : strings_of (map Str l) = l.
Proof. unfold strings_of. induction l as [|s l IH]; [done|]. cbn. by f_equal. Qed.

(** [C18] What the gateway writes, the interface reads: every event, written with
    the serializer's key order and its left-out fields, is read back with all
    the data the interface uses, as a stream event and as nothing else. *)
Theorem wire_roundtrip (e : StreamEvent) (Ha : forall a, e = EvRetrying a -> (0 <= a < 2 ^ 32)%Z) :
  read_event (event_json e) = Some (SkStream (view e)).
Proof.
  destruct e; cbn [event_json view]; try reflexivity.
  - destruct error, geju, execution_mode; reflexivity.
  - destruct title; reflexivity.
  - destruct options as [l|]; [|reflexivity]. unfold read_event, from_value, str_or, str_at, index, get.
    cbn [field fmap option_fmap option_map app Json.assoc String.eqb Ascii.eqb Bool.eqb default as_str mbind option_bind Datatypes.id as_u64
         nat_json as_array]. by rewrite omap_as_str.
  - unfold read_event, from_value, str_or, str_at, index, get. cbn [Json.assoc String.eqb Ascii.eqb Bool.eqb default as_str mbind option_bind Datatypes.id as_u64
      nat_json fmap option_fmap option_map]. rewrite Z.mod_small by (by apply Ha). reflexivity.
  - destruct tool_use_id; reflexivity.
  - destruct tool_use_id; reflexivity.
Qed.

Lemma wire_roundtrip_witness : read_event (event_json (EvRetrying 3)) = Some (SkStream (TvRetrying 3)).
Proof. apply (wire_roundtrip (EvRetrying 3)). intros a [= <-]. lia. Defined.
