(* ===== verification/Composer.v ===== *)
(** * The input line of the terminal interface

    src/tui/src/composer.rs: a text with a cursor kept as a byte offset, and
    the history of inputs.  Refined to a list of characters before and after
    the cursor.  The width of a character on the screen is an argument. *)

From S2P Require Import Prelude RString Utf8 Loop.
Local Open Scope string_scope.
#[local] Arguments String.append !_ _ : simpl nomatch.

(** ** Keys (crossterm) *)

Inductive KeyCode :=
| KChar (c : string) | KEnter | KEsc | KUp | KDown | KLeft | KRight | KHome | KEnd | KBackspace | KDelete | KBackTab | KOther.
Record KeyEvent := { key_code : KeyCode; key_control : bool }.
#[export] Instance KeyCode_eq_dec : EqDecision KeyCode.
Proof. solve_decision. Defined.

Definition is_char (c : string) (k : KeyEvent) : bool := bool_decide (key_code k = KChar c).

(** ** The composer *)

Record Composer := {
  c_text : string;
  c_cursor : nat;
  c_placeholder : string;
  c_history : list string;
  c_history_pos : Z;
  c_draft : string
}.

Definition Composer_new : Composer :=
  {| c_text := ""; c_cursor := 0; c_placeholder := ""; c_history := []; c_history_pos := -1; c_draft := "" |}.

Definition clear (c : Composer) : Composer :=
  {| c_text := ""; c_cursor := 0; c_placeholder := c_placeholder c; c_history := c_history c; c_history_pos := c_history_pos c;
     c_draft := c_draft c |}.

Definition reset_history (c : Composer) : Composer :=
  {| c_text := c_text c; c_cursor := c_cursor c; c_placeholder := c_placeholder c; c_history := c_history c; c_history_pos := -1;
     c_draft := "" |}.

Definition add_to_history (s : string) (c : Composer) : Composer :=
  {| c_text := c_text c; c_cursor := c_cursor c; c_placeholder := c_placeholder c;
     c_history := (if is_empty_str s then c_history c else c_history c ++ [s])%list; c_history_pos := -1; c_draft := "" |}.

Definition set_placeholder (s : string) (c : Composer) : Composer :=
  {| c_text := c_text c; c_cursor := c_cursor c; c_placeholder := s; c_history := c_history c; c_history_pos := c_history_pos c;
     c_draft := c_draft c |}.

Definition with_text (s : string) (cursor : nat) (c : Composer) : Composer :=
  {| c_text := s; c_cursor := cursor; c_placeholder := c_placeholder c; c_history := c_history c; c_history_pos := c_history_pos c;
     c_draft := c_draft c |}.
Definition with_recall (pos : Z) (draft : string) (c : Composer) : Composer :=
  {| c_text := c_text c; c_cursor := c_cursor c; c_placeholder := c_placeholder c; c_history := c_history c; c_history_pos := pos;
     c_draft := draft |}.

(** *** Positions *)

Definition clamp_byte (c : Composer) : nat := boundary_below (Nat.min (c_cursor c) (len (c_text c))) (c_text c).

(** The next boundary from [i] on, at most [fuel] bytes further. *)
Fixpoint boundary_above (fuel i : nat) (s : string) : nat :=
  match fuel with
  | O => i
  | S f => if (i <? len s)%nat && negb (char_boundary i s) then boundary_above f (S i) s else i
  end.
Definition next_boundary (pos : nat) (s : string) : nat := boundary_above (len s) (S pos) s.

Definition cursor_left (c : Composer) : Composer :=
  let pos := clamp_byte c in
  if (0 <? pos)%nat then with_text (c_text c) (boundary_below (pos - 1) (c_text c)) c else c.
Definition cursor_right (c : Composer) : Composer :=
  let pos := clamp_byte c in
  if (pos <? len (c_text c))%nat then with_text (c_text c) (next_boundary pos (c_text c)) c else c.
Definition cursor_end (c : Composer) : Composer := with_text (c_text c) (len (c_text c)) c.
Definition cursor_home (c : Composer) : Composer := with_text (c_text c) 0 c.

(** [String::remove]: the character at a boundary. *)
Definition remove_at (i : nat) (s : string) : string := take_str i s +:+ drop_str (next_boundary i s) s.

Definition backspace (c : Composer) : Composer :=
  let pos := clamp_byte c in
  reset_history
    (if (0 <? pos)%nat then let prev := boundary_below (pos - 1) (c_text c) in with_text (remove_at prev (c_text c)) prev c else c).
Definition delete_key (c : Composer) : Composer :=
  let pos := clamp_byte c in
  reset_history (if (pos <? len (c_text c))%nat then with_text (remove_at pos (c_text c)) (c_cursor c) c else c).
Definition insert_char (g : string) (c : Composer) : Composer :=
  let pos := clamp_byte c in
  reset_history (with_text (take_str pos (c_text c) +:+ g +:+ drop_str pos (c_text c)) (pos + len g) c).

(** *** The history *)

(** The text of a position; [None] is an index out of range. *)
Definition recall (c : Composer) : option Composer :=
  s ← c_history c !! Z.to_nat (c_history_pos c); Some (cursor_end (with_text s (c_cursor c) c)).

Definition history_prev (c : Composer) : option Composer :=
  let c :=
    match c_history c with
    | _ :: _ =>
        if (c_history_pos c =? -1)%Z then with_recall (Z.of_nat (length (c_history c)) - 1) (c_text c) c
        else if (0 <? c_history_pos c)%Z then with_recall (c_history_pos c - 1) (c_draft c) c else c
    | [] => if (0 <? c_history_pos c)%Z then with_recall (c_history_pos c - 1) (c_draft c) c else c
    end in
  if (0 <=? c_history_pos c)%Z then recall c else Some c.

Definition history_next (c : Composer) : option Composer :=
  if (0 <=? c_history_pos c)%Z then
    let c := with_recall (c_history_pos c + 1) (c_draft c) c in
    if (Z.of_nat (length (c_history c)) <=? c_history_pos c)%Z then Some (cursor_end (with_recall (-1) "" (with_text (c_draft c) (c_cursor c) c)))
    else recall c
  else Some c.

(** [handle_key]: whether the input is to be sent; [None] is a panic. *)
Definition handle_key (k : KeyEvent) (c : Composer) : option (bool * Composer) :=
  let stay o := c ← o; Some (false, c) in
  if key_control k && is_char "p" k then stay (history_prev c)
  else if key_control k && is_char "n" k then stay (history_next c)
  else match key_code k with
       | KEnter => Some (negb (is_empty_str (trim (c_text c))), c)
       | KUp => stay (history_prev c)
       | KDown => stay (history_next c)
       | KLeft => Some (false, cursor_left c)
       | KRight => Some (false, cursor_right c)
       | KHome => Some (false, cursor_home c)
       | KEnd => Some (false, cursor_end c)
       | KBackspace => Some (false, backspace c)
       | KDelete => Some (false, delete_key c)
       | KChar g => Some (false, insert_char g c)
       | KEsc | KBackTab | KOther => Some (false, c)
       end.

(** *** Wrapping *)

Section Width.
Context (width : string -> nat).

(** The row and the column after some characters, in rows of [w]. *)
Definition advance (w : nat) (st : nat * nat) (ch : string) : nat * nat :=
  let '(row, col) := st in
  if String.eqb ch nl then (S row, O)
  else if (0 <? w)%nat && (w <? col + width ch)%nat then (S row, width ch) else (row, (col + width ch)%nat).

Definition line_count (area_width : nat) (c : Composer) : nat :=
  let content := if is_empty_str (c_text c) then c_placeholder c else c_text c in
  if is_empty_str content then 1
  else match area_width - 2 with O => 1 | w => S (fst (foldl (advance w) (O, O) (chars content))) end.

Definition cursor_cell (area_width : nat) (c : Composer) : nat * nat :=
  foldl (advance area_width) (O, O) (chars (take_str (clamp_byte c) (c_text c))).
End Width.

(** ** The editor it refines *)

Definition Editor : Type := list string * list string.

Definition edit (k : KeyCode) (e : Editor) : Editor :=
  let '(before, after) := e in
  match k with
  | KChar g => (before ++ [g], after)%list
  | KBackspace => (removelast before, after)
  | KDelete => (before, tail after)
  | KLeft => match last before with Some g => (removelast before, g :: after) | None => e end
  | KRight => match after with g :: after' => (before ++ [g], after')%list | [] => e end
  | KHome => ([], before ++ after)%list
  | KEnd => (before ++ after, [])%list
  | _ => e
  end.

Definition view (c : Composer) : Editor :=
  (chars (take_str (clamp_byte c) (c_text c)), chars (drop_str (clamp_byte c) (c_text c))).

(** Texts of characters, the cursor between two of them, and a history position
    within the history. *)
Definition text_ok (s : string) : bool := negb (starts_with_cont s).
Definition wf (c : Composer) : Prop :=
  text_ok (c_text c) = true /\ c_cursor c <= len (c_text c) /\ char_boundary (c_cursor c) (c_text c) = true /\
  text_ok (c_draft c) = true /\ Forall (fun s => text_ok s = true) (c_history c) /\
  (-1 <= c_history_pos c < Z.of_nat (length (c_history c)))%Z.

(** One character in UTF-8. *)
Definition char_ok (g : string) : Prop := exists b w, g = String b w /\ is_cont_byte b = false /\ char_all is_cont_byte w = true.

(** ** Lemmas: characters and boundaries *)

Lemma chars_app a b : starts_with_cont b = false -> chars (a +:+ b) = (chars a ++ chars b)%list.
Proof.
  intros Hb. induction a as [|x a IH]; [done|]. change (String x a +:+ b) with (String x (a +:+ b)).
  cbn [chars]. rewrite IH. destruct a as [|y a].
  - cbn. destruct b as [|d b]; [done|]. destruct (chars_head d b) as (r & cs & ->). cbn [starts_with_cont] in *. by rewrite Hb.
  - destruct (chars_head y a) as (r & cs & ->). cbn [app starts_with_cont]. destruct (is_cont_byte y); reflexivity.
Qed.

Lemma len_cons b s : len (String b s) = S (len s).
Proof. reflexivity. Qed.

(** A string is continuation bytes, or ends in a character after a prefix. *)
Lemma last_group s : char_all is_cont_byte s = true \/
  exists a b w, s = a +:+ String b w /\ is_cont_byte b = false /\ char_all is_cont_byte w = true.
Proof.
  induction s as [|b s IH]; [by left|]. destruct IH as [Hc|(a & b' & w & -> & Hb & Hw)].
  - destruct (is_cont_byte b) eqn:Hb; [left|right; by exists "", b, s]. unfold char_all in *. cbn. by rewrite Hb.
  - right. by exists (String b a), b', w.
Qed.

(** The first character of a text and the rest. *)
Lemma first_group b s : exists w r, s = w +:+ r /\ char_all is_cont_byte w = true /\ starts_with_cont r = false /\
  chars (String b s) = String b w :: chars r.
Proof.
  assert (H : exists w r, s = w +:+ r /\ char_all is_cont_byte w = true /\ starts_with_cont r = false).
  { induction s as [|c s (w & r & -> & Hw & Hr)]; [by exists "", ""|]. destruct (is_cont_byte c) eqn:Hc.
    - exists (String c w), r. repeat split; [|done]. unfold char_all in *. cbn. by rewrite Hc.
    - by exists "", (String c (w +:+ r)). }
  destruct H as (w & r & -> & Hw & Hr). exists w, r. repeat split; try done. by apply chars_group.
Qed.

Lemma cont_drop k w : char_all is_cont_byte w = true -> k < len w -> starts_with_cont (drop_str k w) = true.
Proof.
  revert k. induction w as [|c w IH]; intros k Hw Hk; [cbn in Hk; lia|]. apply andb_true_iff in Hw as [Hc Hw].
  destruct k as [|k]; [done|]. apply IH; [done|]. cbn in Hk. lia.
Qed.

Lemma starts_app a b : a <> "" -> starts_with_cont (a +:+ b) = starts_with_cont a.
Proof. by destruct a. Qed.

(** Inside a character there is no boundary. *)
Lemma inside a b w r k : char_all is_cont_byte w = true -> 0 < k <= len w ->
  char_boundary (len a + k) (a +:+ String b w +:+ r) = false.
Proof.
  intros Hw Hk. unfold char_boundary. rewrite !app_len. cbn [len String.length].
  destruct k as [|k]; [lia|]. rewrite drop_str_app_plus. change (String b w +:+ r) with (String b (w +:+ r)). cbn [drop_str].
  rewrite drop_str_app by lia.
  assert (Hd : starts_with_cont (drop_str k w +:+ r) = true).
  { rewrite starts_app; [apply cont_drop; [done|lia]|]. intros He.
    pose proof (len_drop_str k w) as Hl. rewrite He in Hl. cbn in Hl. lia. }
  rewrite Hd. cbn [negb]. rewrite andb_false_r, orb_false_r. apply orb_false_iff. rewrite !Nat.eqb_neq. unfold len in *. lia.
Qed.

Lemma boundary_at a r : a = "" \/ starts_with_cont r = false -> char_boundary (len a) (a +:+ r) = true.
Proof.
  intros [->|Hr]; [done|]. unfold char_boundary. rewrite app_len, drop_app_str, Hr.
  destruct (Nat.eqb_spec (len a) 0), (Nat.eqb_spec (len a) (len a + len r)), (Nat.ltb_spec (len a) (len a + len r)); try done; lia.
Qed.

Lemma boundary_split p s : p <= len s -> char_boundary p s = true -> text_ok s = true -> starts_with_cont (drop_str p s) = false.
Proof.
  intros Hp Hb Hs. unfold char_boundary in Hb. apply orb_true_iff in Hb as [[E%Nat.eqb_eq|E%Nat.eqb_eq]%orb_true_iff|[_ Hb]%andb_true_iff];
    try (rewrite E).
  - by apply negb_true_iff in Hs.
  - by rewrite drop_all_str.
  - by apply negb_true_iff in Hb.
Qed.

Lemma boundary_below_hit i s : char_boundary i s = true -> boundary_below i s = i.
Proof. intros H. destruct i; cbn [boundary_below]; by rewrite H. Qed.

Lemma boundary_below_group a b w r k : char_all is_cont_byte w = true -> a = "" \/ is_cont_byte b = false -> k <= len w ->
  boundary_below (len a + k) (a +:+ String b w +:+ r) = len a.
Proof.
  intros Hw Hb. induction k as [|k IH]; intros Hk.
  - rewrite Nat.add_0_r. apply boundary_below_hit, boundary_at. destruct Hb as [?|Hb]; [by left|by right].
  - replace (len a + S k) with (S (len a + k)) by lia. cbn [boundary_below].
    rewrite <- Nat.add_succ_r, inside by (done || lia). apply IH. lia.
Qed.

Lemma boundary_below_spec i s : i <= len s -> boundary_below i s <= i /\ char_boundary (boundary_below i s) s = true.
Proof.
  induction i as [|i IH]; intros Hi; cbn [boundary_below].
  - by destruct (char_boundary 0 s).
  - destruct (char_boundary (S i) s) eqn:E; [done|]. destruct IH; [lia|]. split; [lia|done].
Qed.

Lemma boundary_above_group a b w r fuel k : char_all is_cont_byte w = true -> starts_with_cont r = false ->
  1 <= k <= S (len w) -> S (len w) - k <= fuel ->
  boundary_above fuel (len a + k) (a +:+ String b w +:+ r) = len a + S (len w).
Proof.
  intros Hw Hr. revert k. induction fuel as [|fuel IH]; intros k Hk Hf; cbn [boundary_above]; [lia|].
  destruct (decide (k = S (len w))) as [->|].
  - assert (Hb : char_boundary (len a + S (len w)) (a +:+ String b w +:+ r) = true).
    { rewrite <- app_assoc_str. replace (len a + S (len w)) with (len (a +:+ String b w)) by (rewrite app_len; done).
      apply boundary_at. by right. }
    rewrite Hb, andb_false_r. done.
  - rewrite inside by (done || lia).
    assert (Hlt : (len a + k <? len (a +:+ String b w +:+ r))%nat = true).
    { apply Nat.ltb_lt. rewrite !app_len, len_cons. lia. }
    rewrite Hlt. cbn [andb negb].
    replace (S (len a + k)) with (len a + S k) by lia. apply IH; lia.
Qed.

Lemma next_boundary_group a b w r : char_all is_cont_byte w = true -> starts_with_cont r = false ->
  next_boundary (len a) (a +:+ String b w +:+ r) = len (a +:+ String b w).
Proof.
  intros Hw Hr. unfold next_boundary. replace (S (len a)) with (len a + 1) by lia.
  rewrite boundary_above_group; try done; rewrite ?app_len, ?len_cons; lia.
Qed.

(** ** Lemmas: the view *)

Lemma text_ok_false s : text_ok s = true <-> starts_with_cont s = false.
Proof. unfold text_ok. by rewrite negb_true_iff. Qed.

Lemma clamp_wf c : wf c -> clamp_byte c = c_cursor c.
Proof. intros (_ & Hle & Hb & _). unfold clamp_byte. rewrite Nat.min_l by done. by apply boundary_below_hit. Qed.

Lemma view_split c : wf c -> exists a b, c_text c = a +:+ b /\ c_cursor c = len a /\ clamp_byte c = len a /\
  starts_with_cont a = false /\ starts_with_cont b = false /\ view c = (chars a, chars b).
Proof.
  intros Hwf. pose proof (clamp_wf c Hwf) as Hcl. destruct Hwf as (Hok & Hle & Hb & _).
  exists (take_str (c_cursor c) (c_text c)), (drop_str (c_cursor c) (c_text c)).
  assert (Hlen : len (take_str (c_cursor c) (c_text c)) = c_cursor c) by (rewrite len_take_str; lia).
  repeat split.
  - by rewrite take_drop_str.
  - done.
  - by rewrite Hlen.
  - apply text_ok_false in Hok. destruct (c_text c), (c_cursor c); done.
  - by apply boundary_split.
  - unfold view. by rewrite Hcl.
Qed.

Lemma view_at c a b : c_text c = a +:+ b -> c_cursor c = len a -> starts_with_cont b = false -> view c = (chars a, chars b).
Proof.
  intros Ht Hc Hb. unfold view, clamp_byte. rewrite Ht, Hc, app_len, Nat.min_l by lia.
  rewrite boundary_below_hit by (apply boundary_at; by right). by rewrite take_app_str, drop_app_str.
Qed.

Lemma wf_at c a b : c_text c = a +:+ b -> c_cursor c = len a -> starts_with_cont a = false -> starts_with_cont b = false ->
  text_ok (c_draft c) = true -> Forall (fun s => text_ok s = true) (c_history c) ->
  (-1 <= c_history_pos c < Z.of_nat (length (c_history c)))%Z -> wf c.
Proof.
  intros Ht Hc Ha Hb Hd Hh Hp. unfold wf. rewrite Ht, Hc. repeat split; try done; try lia.
  - apply text_ok_false. by destruct a.
  - rewrite app_len. lia.
  - apply boundary_at. by right.
Qed.

(** The last character of a text. *)
Lemma snoc_chars a : starts_with_cont a = false -> a <> "" ->
  exists a' b w, a = a' +:+ String b w /\ is_cont_byte b = false /\ char_all is_cont_byte w = true /\
    starts_with_cont a' = false /\ chars a = (chars a' ++ [String b w])%list.
Proof.
  intros Ha Hne. destruct (last_group a) as [Hc|(a' & b & w & -> & Hb & Hw)].
  { destruct a as [|b a]; [done|]. apply andb_true_iff in Hc as [Hb _]. cbn in Ha. congruence. }
  exists a', b, w. repeat split; try done; [by destruct a'|].
  rewrite chars_app by done. pose proof (chars_group b w "" Hw eq_refl) as Hg. rewrite app_nil_r_str in Hg. by rewrite Hg.
Qed.

Lemma chars_single b w : char_all is_cont_byte w = true -> chars (String b w) = [String b w].
Proof. intros Hw. pose proof (chars_group b w "" Hw eq_refl) as Hg. by rewrite app_nil_r_str in Hg. Qed.

Lemma remove_group a b w r : char_all is_cont_byte w = true -> starts_with_cont r = false ->
  remove_at (len a) (a +:+ String b w +:+ r) = a +:+ r.
Proof.
  intros Hw Hr. unfold remove_at. rewrite next_boundary_group by done. rewrite take_app_str.
  by rewrite <- app_assoc_str, drop_app_str.
Qed.

Lemma prev_group a b w r : char_all is_cont_byte w = true -> is_cont_byte b = false ->
  boundary_below (len (a +:+ String b w) - 1) ((a +:+ String b w) +:+ r) = len a.
Proof.
  intros Hw Hb. rewrite app_len, len_cons, app_assoc_str. replace (len a + S (len w) - 1) with (len a + len w) by lia.
  apply boundary_below_group; [done|by right|done].
Qed.

(** *** One key *)

Ltac view_tac c Hwf :=
  let a := fresh "a" in let b := fresh "b" in
  destruct (view_split c Hwf) as (a & b & Ht & Hc & Hcl & Ha & Hb & Hv); rewrite Hv; clear Hv;
  destruct Hwf as (_ & _ & _ & Hd & Hh & Hp).

Lemma left_refines c : wf c -> wf (cursor_left c) /\ view (cursor_left c) = edit KLeft (view c).
Proof.
  intros Hwf. pose proof Hwf as Hwf'. view_tac c Hwf. unfold cursor_left. rewrite Hcl.
  destruct (Nat.ltb_spec 0 (len a)) as [Hl|Hl].
  - assert (Hne : a <> "") by (intros ->; cbn in Hl; lia).
    destruct (snoc_chars a Ha Hne) as (a' & x & w & -> & Hx & Hw & Ha' & Hch). rewrite Hch. cbn [edit]. rewrite last_snoc, removelast_last.
    rewrite Ht, prev_group by done. rewrite app_assoc_str.
    split.
    + by apply (wf_at _ a' (String x w +:+ b)).
    + rewrite (view_at _ a' (String x w +:+ b)) by done. by rewrite <- chars_group.
  - assert (a = "") as -> by (destruct a; [done|cbn in Hl; lia]). cbn. split; [done|].
    rewrite (view_at c "" b) by done. done.
Qed.

Lemma right_refines c : wf c -> wf (cursor_right c) /\ view (cursor_right c) = edit KRight (view c).
Proof.
  intros Hwf. pose proof Hwf as Hwf'. view_tac c Hwf. unfold cursor_right. rewrite Hcl, Ht, app_len.
  destruct b as [|x s].
  - destruct (Nat.ltb_spec (len a) (len a + len "")) as [Hl|_]; [cbn in Hl; lia|]. cbn [edit chars]. split; [done|].
    by rewrite (view_at c a "") by done.
  - destruct (Nat.ltb_spec (len a) (len a + len (String x s))) as [_|Hl]; [|rewrite len_cons in Hl; lia].
    destruct (first_group x s) as (w & r & -> & Hw & Hr & Hch). rewrite Hch. cbn [edit].
    change (String x (w +:+ r)) with (String x w +:+ r). rewrite next_boundary_group by done. rewrite <- app_assoc_str.
    split.
    + apply (wf_at _ (a +:+ String x w) r); try done. destruct a; [by cbn in *|done].
    + rewrite (view_at _ (a +:+ String x w) r) by done. by rewrite chars_app, chars_single.
Qed.

Lemma home_refines c : wf c -> wf (cursor_home c) /\ view (cursor_home c) = edit KHome (view c).
Proof.
  intros Hwf. view_tac c Hwf. unfold cursor_home.
  assert (Hs : starts_with_cont (c_text c) = false) by (rewrite Ht; by destruct a).
  split; [by apply (wf_at _ "" (c_text c))|]. rewrite (view_at _ "" (c_text c)) by done. cbn [edit chars]. by rewrite Ht, chars_app.
Qed.

Lemma end_refines c : wf c -> wf (cursor_end c) /\ view (cursor_end c) = edit KEnd (view c).
Proof.
  intros Hwf. view_tac c Hwf. unfold cursor_end.
  assert (Hs : starts_with_cont (c_text c) = false) by (rewrite Ht; by destruct a).
  assert (He : c_text (with_text (c_text c) (len (c_text c)) c) = c_text c +:+ "") by (by rewrite app_nil_r_str).
  split; [by apply (wf_at _ (c_text c) "")|]. rewrite (view_at _ (c_text c) "") by done. cbn [edit]. by rewrite Ht, chars_app.
Qed.

Lemma backspace_refines c : wf c -> wf (backspace c) /\ view (backspace c) = edit KBackspace (view c).
Proof.
  intros Hwf. view_tac c Hwf. unfold backspace. rewrite Hcl. destruct (Nat.ltb_spec 0 (len a)) as [Hl|Hl].
  - assert (Hne : a <> "") by (intros ->; cbn in Hl; lia).
    destruct (snoc_chars a Ha Hne) as (a' & x & w & -> & Hx & Hw & Ha' & Hch). rewrite Hch. cbn [edit]. rewrite removelast_last.
    rewrite Ht, prev_group by done. rewrite app_assoc_str, remove_group by done.
    split; [apply (wf_at _ a' b); try done; cbn; lia|by apply view_at].
  - assert (a = "") as -> by (destruct a; [done|cbn in Hl; lia]).
    split; [apply (wf_at _ "" b); try done; cbn; lia|by apply (view_at _ "" b)].
Qed.

Lemma delete_refines c : wf c -> wf (delete_key c) /\ view (delete_key c) = edit KDelete (view c).
Proof.
  intros Hwf. view_tac c Hwf. unfold delete_key. rewrite Hcl, Ht, app_len. destruct b as [|x s].
  - destruct (Nat.ltb_spec (len a) (len a + len "")) as [Hl|_]; [cbn in Hl; lia|].
    split; [apply (wf_at _ a ""); try done; cbn; lia|by apply (view_at _ a "")].
  - destruct (Nat.ltb_spec (len a) (len a + len (String x s))) as [_|Hl]; [|rewrite len_cons in Hl; lia].
    destruct (first_group x s) as (w & r & -> & Hw & Hr & Hch). rewrite Hch. cbn [edit tail].
    change (String x (w +:+ r)) with (String x w +:+ r). rewrite remove_group by done.
    split; [apply (wf_at _ a r); try done; cbn; lia|by apply view_at].
Qed.

Lemma insert_refines c g : wf c -> char_ok g -> wf (insert_char g c) /\ view (insert_char g c) = edit (KChar g) (view c).
Proof.
  intros Hwf (x & w & -> & Hx & Hw). view_tac c Hwf. unfold insert_char. rewrite Hcl, Ht, take_app_str, drop_app_str. cbn [edit].
  rewrite <- app_assoc_str, <- app_len. rewrite <- (chars_single x w) by done. rewrite <- chars_app by done.
  split; [|by apply view_at]. apply (wf_at _ (a +:+ String x w) b); try done; [by destruct a|cbn; lia].
Qed.

(** *** The history *)

Lemma recall_wf c s pos draft : text_ok s = true -> text_ok draft = true -> Forall (fun s => text_ok s = true) (c_history c) ->
  (-1 <= pos < Z.of_nat (length (c_history c)))%Z ->
  wf (cursor_end (with_text s (c_cursor c) (with_recall pos draft c))) /\
  view (cursor_end (with_text s (c_cursor c) (with_recall pos draft c))) = (chars s, []).
Proof.
  intros Hs%text_ok_false Hd Hh Hp.
  split; [apply (wf_at _ s ""); rewrite ?app_nil_r_str; try done|apply (view_at _ s ""); by rewrite ?app_nil_r_str].
Qed.

(** What a history key leaves: the composer itself, or a text recalled. *)
Definition recalled (c c' : Composer) : Prop :=
  c' = c \/ exists s, (s = c_draft c \/ s ∈ c_history c) /\ view c' = (chars s, []).

Lemma recall_spec c pos draft : text_ok draft = true -> Forall (fun s => text_ok s = true) (c_history c) ->
  (0 <= pos < Z.of_nat (length (c_history c)))%Z ->
  exists c', recall (with_recall pos draft c) = Some c' /\ wf c' /\ exists s, s ∈ c_history c /\ view c' = (chars s, []).
Proof.
  intros Hd Hh Hp. unfold recall. cbn [c_history with_recall c_history_pos].
  destruct (c_history c !! Z.to_nat pos) as [s|] eqn:Hs; [|apply lookup_ge_None in Hs; lia].
  pose proof (list_elem_of_lookup_2 _ _ _ Hs) as Hin. rewrite Forall_forall in Hh.
  destruct (recall_wf c s pos draft) as [Hw Hv]; try done; [by apply Hh|by apply Forall_forall|lia|].
  eexists. split; [reflexivity|]. split; [exact Hw|]. by exists s.
Qed.

Lemma recall_self c : with_recall (c_history_pos c) (c_draft c) c = c.
Proof. by destruct c. Qed.

Lemma history_prev_spec c : wf c -> exists c', history_prev c = Some c' /\ wf c' /\ recalled c c'.
Proof.
  intros Hwf. pose proof Hwf as (Hok & _ & _ & Hd & Hh & Hp).
  assert (Hgo : forall pos draft, text_ok draft = true -> (0 <= pos < Z.of_nat (length (c_history c)))%Z ->
    exists c', recall (with_recall pos draft c) = Some c' /\ wf c' /\ recalled c c').
  { intros pos draft Hdr Hpos. destruct (recall_spec c pos draft Hdr Hh Hpos) as (c' & E & Hw & s & Hs & Hv).
    exists c'. split; [done|split; [done|]]. right. exists s. split; [by right|done]. }
  unfold history_prev. destruct (c_history c) as [|h0 hs] eqn:Eh.
  - destruct (Z.ltb_spec 0 (c_history_pos c)) as [?|_]; [cbn in Hp; lia|].
    destruct (Z.leb_spec 0 (c_history_pos c)) as [?|_]; [cbn in Hp; lia|]. exists c. split; [done|split; [done|by left]].
  - destruct (Z.eqb_spec (c_history_pos c) (-1)) as [E|E].
    + rewrite <- Eh in *. cbn [c_history_pos with_recall].
      destruct (Z.leb_spec 0 (Z.of_nat (length (c_history c)) - 1)) as [_|Hx]; [|rewrite Eh in Hx; cbn in Hx; lia].
      apply Hgo; [done|]. rewrite Eh. cbn. lia.
    + destruct (Z.ltb_spec 0 (c_history_pos c)) as [Hl|Hl].
      * cbn [c_history_pos with_recall]. destruct (Z.leb_spec 0 (c_history_pos c - 1)) as [_|?]; [|lia].
        apply Hgo; [done|]. lia.
      * destruct (Z.leb_spec 0 (c_history_pos c)) as [Hx|?]; [|lia].
        pose proof (Hgo (c_history_pos c) (c_draft c) Hd ltac:(lia)) as Hg. by rewrite recall_self in Hg.
Qed.

Lemma history_next_spec c : wf c -> exists c', history_next c = Some c' /\ wf c' /\ recalled c c'.
Proof.
  intros Hwf. pose proof Hwf as (Hok & _ & _ & Hd & Hh & Hp). unfold history_next.
  destruct (Z.leb_spec 0 (c_history_pos c)) as [H0|H0]; [|exists c; split; [done|split; [done|by left]]].
  cbn [c_history c_history_pos with_recall]. destruct (Z.leb_spec (Z.of_nat (length (c_history c))) (c_history_pos c + 1)) as [Hl|Hl].
  - eexists. split; [reflexivity|]. cbn [c_draft c_cursor with_recall].
    destruct (recall_wf c (c_draft c) (-1) "") as [Hw Hv]; try done; [lia|].
    split; [exact Hw|]. right. exists (c_draft c). split; [by left|exact Hv].
  - destruct (recall_spec c (c_history_pos c + 1) (c_draft c) Hd Hh) as (c' & E & Hw & s & Hs & Hv); [lia|].
    exists c'. split; [done|split; [done|]]. right. exists s. split; [by right|done].
Qed.

(** Keys of the history. *)
Definition recalls (k : KeyEvent) : bool :=
  (key_control k && (is_char "p" k || is_char "n" k)) ||
  match key_code k with KUp | KDown => true | _ => false end.

Definition key_ok (k : KeyEvent) : Prop := forall g, key_code k = KChar g -> char_ok g.

(** One key: no panic, and the composer stays well formed. *)
Lemma handle_key_spec (c : Composer) (k : KeyEvent)
  (Hwf : wf c) (Hk : key_ok k) :
  exists sent c', handle_key k c = Some (sent, c') /\ wf c' /\
    (if recalls k then recalled c c' else view c' = edit (key_code k) (view c)) /\
    sent = (bool_decide (key_code k = KEnter) && negb (is_empty_str (trim (c_text c))))%bool /\
    (sent = true -> c' = c).
Proof.
  destruct k as [code ctrl]. unfold key_ok in Hk. unfold handle_key, recalls, is_char. cbn [key_code key_control] in *.
  destruct (history_prev_spec c Hwf) as (cp & Ep & Hwp & Hrp), (history_next_spec c Hwf) as (cn & En & Hwn & Hrn).
  rewrite Ep, En. cbn [mbind option_bind].
  destruct (ctrl && bool_decide (code = KChar "p"))%bool eqn:E1.
  { apply andb_true_iff in E1 as [-> ->%bool_decide_eq_true_1]. exists false, cp. split_and!; done. }
  destruct (ctrl && bool_decide (code = KChar "n"))%bool eqn:E2.
  { apply andb_true_iff in E2 as [-> ->%bool_decide_eq_true_1]. exists false, cn. split_and!; done. }
  rewrite andb_orb_distrib_r, E1, E2.
  destruct code; cbn [orb]; try (by exists false, c; split_and!; try done; by destruct (view c));
    try (by eexists false, _; split_and!; try done).
  - destruct (insert_refines c c0 Hwf (Hk _ eq_refl)) as [Hw Hv]. exists false, (insert_char c0 c). by split_and!.
  - eexists _, c. by split_and!.
  - destruct (left_refines c Hwf) as [Hw Hv]. exists false, (cursor_left c). by split_and!.
  - destruct (right_refines c Hwf) as [Hw Hv]. exists false, (cursor_right c). by split_and!.
  - destruct (home_refines c Hwf) as [Hw Hv]. exists false, (cursor_home c). by split_and!.
  - destruct (end_refines c Hwf) as [Hw Hv]. exists false, (cursor_end c). by split_and!.
  - destruct (backspace_refines c Hwf) as [Hw Hv]. exists false, (backspace c). by split_and!.
  - destruct (delete_refines c Hwf) as [Hw Hv]. exists false, (delete_key c). by split_and!.
Qed.

(** The keys of a run. *)
Definition run (ks : list KeyEvent) (c : Composer) : option Composer :=
  foldl (fun o k => c ← o; r ← handle_key k c; Some r.2) (Some c) ks.

(** ** Properties *)

(** [C15] The input line is an editor of characters.  From a well-formed
    composer (the cursor between two characters of a text of whole characters,
    the history position within the history) no run of keys panics on a byte
    offset or an index, and the composer stays well formed.  As long as the
    history is not recalled the run acts on the characters before and after the
    cursor as the editor [edit] does: a character is inserted whole, backspace
    and delete remove one whole character, the arrows move over one, the others
    leave the text as it is. *)
Theorem composer_refines (ks : list KeyEvent) (c : Composer) (Hwf : wf c) (Hk : Forall key_ok ks) :
  exists c', run ks c = Some c' /\ wf c' /\
    (forallb (fun k => negb (recalls k)) ks = true -> view c' = foldl (fun e k => edit (key_code k) e) (view c) ks).
Proof.
  revert c Hwf. induction Hk as [|k ks Hk _ IH]; intros c Hwf; [by exists c|].
  destruct (handle_key_spec c k Hwf Hk) as (sent & c1 & E & Hw1 & Hv & _). destruct (IH c1 Hw1) as (c' & E' & Hw' & Hv').
  exists c'. unfold run in *. cbn [foldl mbind option_bind]. rewrite E. cbn [mbind option_bind snd]. split_and!; [done|done|].
  cbn [forallb foldl]. intros [Hr Hrs]%andb_true_iff. rewrite Hv' by done. apply negb_true_iff in Hr. rewrite Hr in Hv. by rewrite Hv.
Qed.

Example composer_demo : Composer := with_text "aé→b" 3 (add_to_history "first" Composer_new).
Example plain_key (c : KeyCode) : KeyEvent := {| key_code := c; key_control := false |}.
Lemma composer_refines_witness :
  wf composer_demo /\ view composer_demo = (["a"; "é"], ["→"; "b"]) /\
  (exists c', run [plain_key KBackspace; plain_key KRight] composer_demo = Some c' /\ view c' = (["a"; "→"], ["b"])).
Proof.
  assert (Hwf : wf composer_demo).
  { repeat split; try (vm_compute; reflexivity); [vm_compute; lia|by repeat constructor|vm_compute; discriminate]. }
  split; [exact Hwf|]. split; [vm_compute; reflexivity|].
  destruct (composer_refines [plain_key KBackspace; plain_key KRight] composer_demo Hwf) as (c' & E & _ & Hv).
  { by repeat constructor. }
  exists c'. split; [exact E|]. exact (Hv eq_refl).
Defined.
