(* ===== verification/Cards.v ===== *)
(** * The lines of the terminal interface

    src/tui/src/render.rs: styled lines, the cards of tool calls and results,
    the options of a question, and the status icon.  The JSON of a tool's input
    is serde_json's and comes as arguments. *)

From S2P Require Import Prelude RString Utf8 Json Loop Wire.
Local Open Scope string_scope.
#[local] Arguments String.append !_ _ : simpl nomatch.

(** ** Styles (ratatui) *)

Inductive Color := Cyan | White | DarkGray | Red | Green | Yellow | Indexed (n : Z).
Record Style := { fg : option Color; bold : bool; reversed : bool }.
#[export] Instance Color_eq_dec : EqDecision Color.
Proof. solve_decision. Defined.
#[export] Instance Style_eq_dec : EqDecision Style.
Proof. solve_decision. Defined.

Definition plain : Style := {| fg := None; bold := false; reversed := false |}.
Definition colored (c : Color) : Style := {| fg := Some c; bold := false; reversed := false |}.
Definition emphasized (c : Color) : Style := {| fg := Some c; bold := true; reversed := false |}.

Record ChatLine := { text : string; style : Style }.
Definition chat (t : string) (s : Style) : ChatLine := {| text := t; style := s |}.
Definition blank : ChatLine := chat "" plain.

Inductive StatusIcon := Working | IconDone | IconError | Disconnected.
#[export] Instance StatusIcon_eq_dec : EqDecision StatusIcon.
Proof. solve_decision. Defined.
Definition status_str (s : StatusIcon) : string :=
  match s with Working => "⚡" | IconDone => "✓" | IconError => "✗" | Disconnected => "⏳" end.
Definition status_style (s : StatusIcon) : Style :=
  match s with Working => colored Yellow | IconDone => colored Green | IconError | Disconnected => colored Red end.

(** ** Tool cards *)

(** At most [n] characters, cut when the text has more than [n] bytes. *)
Definition preview (n : nat) (s : string) : string :=
  if (n <? len s)%nat then of_chars (firstn n (chars s)) +:+ "…" else s.

Definition result_mode (execution_mode : option string) : Style * string :=
  match execution_mode with
  | Some m =>
      if String.eqb m "direct" then (colored Green, "✓")
      else if String.eqb m "guarded" then (colored Yellow, "⚠")
      else if String.eqb m "sandbox" then (colored (Indexed 208), "🔶")
      else if String.eqb m "denied" then (emphasized Red, "✗")
      else (colored (Indexed 245), "·")
  | None => (colored (Indexed 245), "·")
  end.

Definition format_tool_result (tool output : string) (geju execution_mode error : option string) : list ChatLine :=
  let '(mode_style, mode_icon) := result_mode execution_mode in
  let head := "  └ (" +:+ default "" geju +:+ " · " +:+ default "" execution_mode +:+ ") — " +:+ mode_icon in
  let card :=
    match error with
    | Some err => if is_empty_str err then chat head mode_style else chat (head +:+ " ERROR: " +:+ err) (colored Red)
    | None => chat head mode_style
    end in
  card :: (if negb (String.eqb tool "ask_user") && negb (is_empty_str output) then [chat (preview 500 output) plain] else []).

Definition summary_keys : list string :=
  ["command"; "url"; "path"; "query"; "pattern"; "action"; "subagent_type"; "task"].

Section Json.
Context (to_string : Value -> string) (from_str : string -> option Value).

Definition tool_summary (input : string) : string :=
  match from_str input with
  | None => ""
  | Some v => match omap (fun k => v ← get v k; as_str v) summary_keys with val :: _ => preview 80 val | [] => "" end
  end.

Definition format_tool_call (tool input : string) : ChatLine :=
  let display :=
    if String.eqb tool "ask_user" then
      match from_str input with
      | None => ""
      | Some v =>
          let q := default "" (q ← get v "question"; as_str q) in
          let n := length (default [] (o ← get v "options"; as_array o)) in
          if (0 <? n)%nat then q +:+ " (" +:+ pretty n +:+ " options)" else q
      end
    else tool_summary input in
  chat (if is_empty_str display then "🔧 " +:+ tool else "🔧 " +:+ tool +:+ " — " +:+ display) (colored Yellow).

Definition format_confirm_request (tool reason : string) (timeout_secs : Z) : ChatLine :=
  chat ("⚠ " +:+ tool +:+ " — " +:+ reason +:+ " (timeout: " +:+ pretty timeout_secs +:+ "s)") (colored Yellow).
Definition format_user_question (question : string) : ChatLine := chat ("❓ " +:+ question) (colored Cyan).

Definition stream_event_to_lines (e : TuiEvent) : list ChatLine :=
  match e with
  | TvDelta c => [chat c (colored White)]
  | TvToolCall t i => [format_tool_call t (to_string i)]
  | TvToolResult t o e g m => format_tool_result t o g m e
  | TvConfirmationRequest _ t r s _ => [format_confirm_request t r s]
  | TvUserQuestion _ q _ _ _ => [format_user_question q]
  | TvError m => [chat ("✗ Error: " +:+ m) (colored Red)]
  | _ => []
  end.
End Json.

(** ** The options of a question *)

Definition option_selected_style : Style := emphasized Cyan.
Definition option_normal_style : Style := plain.

(** The option at index [i]. *)
Definition option_line (selected i : nat) (opt : string) : ChatLine :=
  let num := S i in
  let prefix := if (i =? selected)%nat then "❯ " else "  " in
  let digits : string := pretty num in
  let padded := if (num <=? 9)%nat then digits else if (len digits <? 2)%nat then " " +:+ digits else digits in
  chat (prefix +:+ padded +:+ ". " +:+ opt) (if (i =? selected)%nat then option_selected_style else option_normal_style).

Definition format_question_options (options : list string) (selected : nat) : list ChatLine :=
  blank :: imap (option_line selected) options.

Definition update_option_style (line : ChatLine) (is_selected : bool) : ChatLine :=
  let t := text line in
  chat (if is_selected && starts_with t "  " then "❯ " +:+ drop_str 2 t
        else if negb is_selected && starts_with t "❯ " then "  " +:+ drop_str 4 t
        else t)
       (if is_selected then option_selected_style else option_normal_style).

(** ** Lemmas *)

(** Moving the highlight rewrites the line as if it had been formatted there. *)
Lemma update_option_on i opt selected :
  update_option_style (option_line selected i opt) true = option_line i i opt.
Proof.
  unfold update_option_style, option_line. cbn [text]. rewrite Nat.eqb_refl.
  destruct (i =? selected)%nat; [reflexivity|]. cbn [andb negb]. reflexivity.
Qed.

Lemma update_option_off i opt selected other : i <> other ->
  update_option_style (option_line selected i opt) false = option_line other i opt.
Proof.
  intros Hne. unfold update_option_style, option_line. cbn [text]. apply Nat.eqb_neq in Hne. rewrite Hne.
  destruct (i =? selected)%nat; reflexivity.
Qed.

Lemma length_options options selected : length (format_question_options options selected) = S (length options).
Proof. unfold format_question_options. cbn [length]. by rewrite length_imap. Qed.

(** A card is one line, and the output after it unless the tool asked the user. *)
Lemma format_tool_result_ne tool output geju mode error : format_tool_result tool output geju mode error <> [].
Proof. unfold format_tool_result. by destruct (result_mode mode). Qed.
