(* ===== verification/Markup.v ===== *)
(** * Markdown and wrapping in the terminal

    src/tui/src/markdown.rs turns the events of the markdown parser
    (pulldown_cmark, an argument) into lines of styled spans;
    src/tui/src/wrapping.rs breaks spans into rows of a width;
    src/tui/src/render.rs makes the display rows of the chat.  Display widths of
    characters and words are arguments. *)

From S2P Require Import Prelude RString Utf8 Composer Cards.
Local Open Scope string_scope.
#[local] Arguments String.append !_ _ : simpl nomatch.

(** ** Styled spans *)

Inductive Tint := TCyan | TYellow | TGreen | TBlue | TIndexed (n : Z) | TOther (c : Color).
Record Face := { tint : option Tint; f_bold : bool; f_italic : bool; f_dim : bool; f_crossed : bool; f_underlined : bool; f_reversed : bool }.
Definition face0 : Face :=
  {| tint := None; f_bold := false; f_italic := false; f_dim := false; f_crossed := false; f_underlined := false; f_reversed := false |}.
Definition tinted (t : Tint) : Face :=
  {| tint := Some t; f_bold := false; f_italic := false; f_dim := false; f_crossed := false; f_underlined := false; f_reversed := false |}.

(** Adding modifiers to a style. *)
Definition add_modifiers (m f : Face) : Face :=
  {| tint := tint f; f_bold := f_bold f || f_bold m; f_italic := f_italic f || f_italic m; f_dim := f_dim f || f_dim m;
     f_crossed := f_crossed f || f_crossed m; f_underlined := f_underlined f || f_underlined m; f_reversed := f_reversed f || f_reversed m |}.
Definition BOLD : Face :=
  {| tint := None; f_bold := true; f_italic := false; f_dim := false; f_crossed := false; f_underlined := false; f_reversed := false |}.
Definition ITALIC : Face :=
  {| tint := None; f_bold := false; f_italic := true; f_dim := false; f_crossed := false; f_underlined := false; f_reversed := false |}.
Definition STRUCK : Face :=
  {| tint := None; f_bold := false; f_italic := false; f_dim := true; f_crossed := true; f_underlined := false; f_reversed := false |}.
Definition UNDERLINED : Face :=
  {| tint := None; f_bold := false; f_italic := false; f_dim := false; f_crossed := false; f_underlined := true; f_reversed := false |}.

(** The face of a chat line's style. *)
Definition face_of (s : Style) : Face :=
  {| tint := TOther <$> fg s; f_bold := bold s; f_italic := false; f_dim := false; f_crossed := false; f_underlined := false;
     f_reversed := reversed s |}.

Record Span := { span_text : string; span_face : Face }.
Definition span (t : string) (f : Face) : Span := {| span_text := t; span_face := f |}.
Definition Row : Type := list Span.

(** ** Markdown *)

Definition heading_style (level : nat) : Face :=
  add_modifiers BOLD (tinted (match level with 1 => TCyan | 2 => TYellow | 3 => TGreen | _ => TBlue end)).
Definition code_style : Face := tinted (TIndexed 245).
Definition inline_code_style : Face := tinted TCyan.
Definition blockquote_style : Face := add_modifiers ITALIC (tinted (TIndexed 242)).
Definition link_style : Face := add_modifiers UNDERLINED (tinted TCyan).
Definition bullet_style : Face := tinted TGreen.

(** The overlay's colour wins where it has one. *)
Definition merge_style (base overlay : Face) : Face :=
  add_modifiers overlay
    {| tint := match tint overlay with Some t => Some t | None => tint base end; f_bold := f_bold base; f_italic := f_italic base;
       f_dim := f_dim base; f_crossed := f_crossed base; f_underlined := f_underlined base; f_reversed := f_reversed base |}.

(** The events of the parser. *)
Inductive Tag :=
| Heading (level : nat) | Strong | Emphasis | Strikethrough | CodeBlock (lang : option string) | Link | BlockQuote
| ListOf (start : option Z) | Item | Paragraph | OtherTag.
Inductive Event := Start (t : Tag) | End (t : Tag) | Text (t : string) | Code (c : string) | SoftBreak | HardBreak | Rule | OtherEvent.

Record Md := {
  md_lines : list Row; md_spans : Row; style_stack : list Face; in_code_block : bool; code_lang : string; code_buf : string;
  list_index : option Z; list_item_count : Z
}.
Definition Md_new : Md :=
  {| md_lines := []; md_spans := []; style_stack := []; in_code_block := false; code_lang := ""; code_buf := ""; list_index := None;
     list_item_count := 0 |}.

(** The top of the stack is its last element. *)
Definition current_style (stack : list Face) : Face := default face0 (last stack).

Definition with_stack (f : list Face -> list Face) (m : Md) : Md :=
  {| md_lines := md_lines m; md_spans := md_spans m; style_stack := f (style_stack m); in_code_block := in_code_block m;
     code_lang := code_lang m; code_buf := code_buf m; list_index := list_index m; list_item_count := list_item_count m |}.
Definition push_style (f : Face) : Md -> Md := with_stack (fun st => st ++ [f])%list.
Definition pop_style : Md -> Md := with_stack (@removelast Face).
Definition with_code (inside : bool) (lang buf : string) (m : Md) : Md :=
  {| md_lines := md_lines m; md_spans := md_spans m; style_stack := style_stack m; in_code_block := inside; code_lang := lang;
     code_buf := buf; list_index := list_index m; list_item_count := list_item_count m |}.
Definition with_list (index : option Z) (count : Z) (m : Md) : Md :=
  {| md_lines := md_lines m; md_spans := md_spans m; style_stack := style_stack m; in_code_block := in_code_block m;
     code_lang := code_lang m; code_buf := code_buf m; list_index := index; list_item_count := count |}.
Definition with_rows (l : list Row) (s : Row) (m : Md) : Md :=
  {| md_lines := l; md_spans := s; style_stack := style_stack m; in_code_block := in_code_block m; code_lang := code_lang m;
     code_buf := code_buf m; list_index := list_index m; list_item_count := list_item_count m |}.
Definition add_span (s : Span) (m : Md) : Md := with_rows (md_lines m) (md_spans m ++ [s])%list m.
Definition add_row (r : Row) (m : Md) : Md := with_rows (md_lines m ++ [r])%list (md_spans m) m.
(** The pending spans become a line, if there are any. *)
Definition flush (m : Md) : Md :=
  match md_spans m with [] => m | s => with_rows (md_lines m ++ [s])%list [] m end.

Definition code_rows (lang buf : string) : list Row :=
  ([span (if is_empty_str lang then "  ╭─ code" else "  ╭─ " +:+ lang +:+ " ") code_style]
     :: map (fun l => [span ("  │ " +:+ l) code_style]) (lines buf) ++ [[span "  ╰─" code_style]])%list.

Definition on_start (t : Tag) (m : Md) : Md :=
  let base := current_style (style_stack m) in
  match t with
  | Heading level => push_style (heading_style level) m
  | Strong => push_style (add_modifiers BOLD base) m
  | Emphasis => push_style (add_modifiers ITALIC base) m
  | Strikethrough => push_style (add_modifiers STRUCK base) m
  | CodeBlock lang => with_code true (default "" lang) "" m
  | Link => push_style (merge_style base link_style) m
  | BlockQuote => push_style blockquote_style m
  | ListOf start => with_list start 0 m
  | Item =>
      let count := (list_item_count m + 1)%Z in
      let bullet := match list_index m with
                    | Some idx => span ("  " +:+ pretty (idx + count - 1)%Z +:+ ". ") (tinted TGreen)
                    | None => span "  • " bullet_style
                    end in
      add_span bullet (with_list (list_index m) count m)
  | Paragraph | OtherTag => m
  end.

Definition on_end (t : Tag) (m : Md) : Md :=
  match t with
  | Heading _ | BlockQuote => flush (pop_style m)
  | Strong | Emphasis | Strikethrough | Link => pop_style m
  | CodeBlock _ =>
      let rows := code_rows (code_lang m) (code_buf m) in
      with_code false "" "" (with_rows (md_lines m ++ rows)%list (md_spans m) m)
  | Paragraph | Item => flush m
  | ListOf _ => flush (with_list None 0 m)
  | OtherTag => m
  end.

Definition on_event (m : Md) (e : Event) : Md :=
  match e with
  | Start t => on_start t m
  | End t => on_end t m
  | Text t =>
      if in_code_block m then with_code true (code_lang m) (code_buf m +:+ t) m
      else add_span (span t (current_style (style_stack m))) m
  | Code c => add_span (span ("`" +:+ c +:+ "`") inline_code_style) m
  | SoftBreak | HardBreak => if in_code_block m then with_code true (code_lang m) (code_buf m +:+ nl) m else flush m
  | Rule => add_row [span (str_join "" (repeat "─" 40)) (tinted (TIndexed 242))] m
  | OtherEvent => m
  end.

Section Rows.
Context (parse : string -> list Event) (width_str width_char : string -> nat).

Definition parse_markdown_to_spans (text : string) : list Row := md_lines (flush (foldl on_event Md_new (parse text))).

(** ** Wrapping *)

(** The rows done, the current one and its width. *)
Record Wrap := { w_rows : list Row; w_cur : Row; w_width : nat }.
Definition flush_row (w : Wrap) : Wrap := {| w_rows := (w_rows w ++ [w_cur w])%list; w_cur := []; w_width := 0 |}.
Definition put (t : string) (f : Face) (n : nat) (w : Wrap) : Wrap :=
  {| w_rows := w_rows w; w_cur := (w_cur w ++ [span t f])%list; w_width := w_width w + n |}.
Definition nonempty {A} (l : list A) : bool := match l with [] => false | _ => true end.

Definition wrap_char (max : nat) (f : Face) (w : Wrap) (ch : string) : Wrap :=
  let chw := width_char ch in
  let w := if (max <? w_width w + chw)%nat && nonempty (w_cur w) then flush_row w else w in
  put ch f chw w.

Definition wrap_word (max : nat) (f : Face) (w : Wrap) (word : string) : Wrap :=
  let ww := width_str word in
  if (w_width w + ww <=? max)%nat then put word f ww w
  else if (max <? ww)%nat then foldl (wrap_char max f) w (chars word)
  else
    let w := if nonempty (w_cur w) then flush_row w else w in
    {| w_rows := w_rows w; w_cur := (w_cur w ++ [span word f])%list; w_width := ww |}.

(** Words with the white space that ends them ([split_inclusive]). *)
Fixpoint words_of (cs : list string) : list string :=
  match cs with
  | [] => []
  | c :: cs' =>
      if is_whitespace c then c :: words_of cs'
      else match words_of cs' with [] => [c] | w :: ws => (c +:+ w) :: ws end
  end.

(** A segment of a line; a segment after the first starts a new row. *)
Definition wrap_segment (max : nat) (f : Face) (w : Wrap) (seg : string) : Wrap := foldl (wrap_word max f) w (words_of (chars seg)).

Definition wrap_span (max : nat) (w : Wrap) (s : Span) : Wrap :=
  match split_char newline (span_text s) with
  | seg :: segs => foldl (fun w seg => wrap_segment max (span_face s) (flush_row w) seg) (wrap_segment max (span_face s) w seg) segs
  | [] => w
  end.

Definition wrap_styled_lines (spans : Row) (max : nat) : list Row :=
  match max with
  | O => [[span "" face0]]
  | _ =>
      let w := foldl (wrap_span max) {| w_rows := []; w_cur := []; w_width := 0 |} spans in
      if nonempty (w_cur w) || negb (nonempty (w_rows w)) then (w_rows w ++ [w_cur w])%list else w_rows w
  end.

(** ** Display rows *)

Definition rows_of_line (col_max : nat) (cl : ChatLine) : list Row :=
  if is_empty_str (text cl) then [[span "" (face_of (style cl))]]
  else if bool_decide (style cl = plain) then concat (map (fun l => wrap_styled_lines l col_max) (parse_markdown_to_spans (text cl)))
  else wrap_styled_lines [span (text cl) (face_of (style cl))] col_max.

Definition build_display_rows (welcome_lines lines : list ChatLine) (width : nat) : list Row :=
  let col_max := Nat.max width 1 in
  (omap (fun cl => first ← head (RString.lines (text cl)); Some [span first (face_of (style cl))]) welcome_lines ++
   concat (map (rows_of_line col_max) lines))%list.

Definition count_display_rows (lines : list ChatLine) (width : nat) : nat := length (build_display_rows [] lines width).

(** The rows in the viewport: the last ones. *)
Definition visible_rows (lines : list ChatLine) (width height : nat) : list Row :=
  let rows := build_display_rows [] lines width in firstn height (skipn (length rows - height) rows).
End Rows.

(** ** Lemmas *)

(** The bytes of some spans with their faces. *)
Definition tagged (s : Span) : list (Ascii.ascii * Face) := map (fun b => (b, span_face s)) (String.list_ascii_of_string (span_text s)).
Definition content (spans : Row) : list (Ascii.ascii * Face) := concat (map tagged spans).

Lemma content_app (a b : Row) : content (a ++ b)%list = (content a ++ content b)%list.
Proof. unfold content. by rewrite map_app, concat_app. Qed.

Lemma content_put s (l : Row) : content (l ++ [s])%list = (content l ++ tagged s)%list.
Proof. rewrite content_app. unfold content at 2. cbn. by rewrite app_nil_r. Qed.

Lemma list_ascii_app a b : String.list_ascii_of_string (a +:+ b) = (String.list_ascii_of_string a ++ String.list_ascii_of_string b)%list.
Proof. induction a as [|c a IH]; [done|]. cbn. by rewrite IH. Qed.

Lemma tagged_app a b f : tagged (span (a +:+ b) f) = (tagged (span a f) ++ tagged (span b f))%list.
Proof. unfold tagged. cbn [span_text span_face span]. by rewrite list_ascii_app, map_app. Qed.

Section Wrapping.
Context (width_str width_char : string -> nat) (max : nat) (Hmax : 0 < max).

Definition all_content (w : Wrap) : list (Ascii.ascii * Face) := (content (concat (w_rows w)) ++ content (w_cur w))%list.

Lemma flush_content w : all_content (flush_row w) = all_content w.
Proof.
  unfold all_content. cbn [w_rows w_cur flush_row]. rewrite concat_app. cbn [concat]. rewrite app_nil_r, content_app.
  change (content []) with ([] : list (Ascii.ascii * Face)). by rewrite app_nil_r.
Qed.

Lemma put_content t f n w : all_content (put t f n w) = (all_content w ++ tagged (span t f))%list.
Proof. unfold all_content. cbn [w_rows w_cur put]. by rewrite content_put, app_assoc. Qed.

Lemma wrap_chars_content f cs w :
  all_content (foldl (wrap_char width_char max f) w cs) = (all_content w ++ tagged (span (of_chars cs) f))%list.
Proof.
  revert w. induction cs as [|c cs IH]; intros w; cbn [foldl]; [by rewrite app_nil_r|]. rewrite IH. unfold wrap_char. rewrite put_content.
  change (of_chars (c :: cs)) with (c +:+ of_chars cs). rewrite tagged_app, app_assoc.
  destruct (_ && _); by rewrite ?flush_content.
Qed.

Lemma wrap_word_content f w word : all_content (wrap_word width_str width_char max f w word) = (all_content w ++ tagged (span word f))%list.
Proof.
  unfold wrap_word. destruct (w_width w + width_str word <=? max)%nat; [apply put_content|].
  destruct (max <? width_str word)%nat; [by rewrite wrap_chars_content, concat_chars|].
  assert (H : forall w : Wrap, all_content {| w_rows := w_rows w; w_cur := (w_cur w ++ [span word f])%list; w_width := width_str word |} =
    (all_content w ++ tagged (span word f))%list).
  { intros w'. unfold all_content. cbn [w_rows w_cur]. by rewrite content_put, app_assoc. }
  rewrite H. destruct (nonempty (w_cur w)); by rewrite ?flush_content.
Qed.

Lemma words_concat cs : of_chars (words_of cs) = of_chars cs.
Proof.
  induction cs as [|c cs IH]; [done|]. cbn [words_of]. change (of_chars (c :: cs)) with (c +:+ of_chars cs). rewrite <- IH.
  destruct (is_whitespace c); [done|]. destruct (words_of cs) as [|w ws]; [done|].
  change (of_chars ((c +:+ w) :: ws)) with ((c +:+ w) +:+ of_chars ws). by rewrite app_assoc_str.
Qed.

Lemma wrap_segment_content f w seg :
  all_content (wrap_segment width_str width_char max f w seg) = (all_content w ++ tagged (span seg f))%list.
Proof.
  unfold wrap_segment. rewrite <- (concat_chars seg) at 2. rewrite <- words_concat. generalize (words_of (chars seg)) as ws.
  intros ws. revert w. induction ws as [|x ws IH]; intros w; cbn [foldl]; [by rewrite app_nil_r|].
  rewrite IH, wrap_word_content. change (of_chars (x :: ws)) with (x +:+ of_chars ws). by rewrite tagged_app, app_assoc.
Qed.

(** A span without its newlines. *)
Definition on_one_line (s : Span) : list (Ascii.ascii * Face) := concat (map (fun seg => tagged (span seg (span_face s))) (split_char newline (span_text s))).

Lemma wrap_span_content w s : all_content (wrap_span width_str width_char max w s) = (all_content w ++ on_one_line s)%list.
Proof.
  unfold wrap_span, on_one_line. destruct (split_char newline (span_text s)) as [|seg segs]; [by rewrite app_nil_r|].
  cbn [map concat]. set (w0 := wrap_segment _ _ _ _ w seg).
  assert (H : all_content w0 = (all_content w ++ tagged (span seg (span_face s)))%list) by apply wrap_segment_content.
  rewrite app_assoc, <- H. clearbody w0. clear H. revert w0. induction segs as [|x segs IH]; intros w0; cbn [foldl map concat]; [by rewrite app_nil_r|].
  rewrite IH, wrap_segment_content, flush_content. by rewrite app_assoc.
Qed.

Lemma wrap_content spans : content (concat (wrap_styled_lines width_str width_char spans max)) = concat (map on_one_line spans).
Proof.
  unfold wrap_styled_lines. destruct max as [|m] eqn:Em; [lia|]. rewrite <- Em in *.
  set (w0 := {| w_rows := []; w_cur := []; w_width := 0 |}).
  assert (H : forall l w, all_content (foldl (wrap_span width_str width_char max) w l) = (all_content w ++ concat (map on_one_line l))%list).
  { intros l. induction l as [|s l IH]; intros w; cbn [foldl map concat]; [by rewrite app_nil_r|]. by rewrite IH, wrap_span_content, app_assoc. }
  specialize (H spans w0). set (w := foldl _ _ _) in *. change (all_content w0) with ([] : list (Ascii.ascii * Face)) in H. cbn [app] in H. rewrite <- H.
  unfold all_content. destruct (w_cur w) as [|s l] eqn:Ec; cbn [nonempty].
  - destruct (w_rows w) as [|r rs] eqn:Er; cbn [nonempty negb orb]; [done|]. by rewrite app_nil_r.
  - cbn [orb]. by rewrite concat_app, content_app; cbn; rewrite app_nil_r.
Qed.
End Wrapping.

(** A span's bytes but for its newlines. *)
Definition without_newlines (s : Span) : list (Ascii.ascii * Face) := List.filter (fun x => negb (Ascii.eqb newline x.1)) (tagged s).

Lemma one_line_spec s : on_one_line s = without_newlines s.
Proof.
  unfold on_one_line, without_newlines, tagged. destruct s as [t f]. cbn [span_text span_face span].
  induction t as [|c t IH]; [done|]. cbn [split_char String.list_ascii_of_string map List.filter fst].
  destruct (Ascii.eqb newline c); cbn [negb]; [exact IH|]. rewrite <- IH.
  destruct (split_char newline t) as [|p ps] eqn:E; [by apply split_char_ne in E|]. done.
Qed.

(** *** Widths *)

(** Every element of [chars] is one character again. *)
Lemma chars_elem c s : c ∈ chars s -> chars c = [c].
Proof.
  remember (len s) as n eqn:Hn. revert s Hn. induction n as [n IH] using lt_wf_ind. intros s -> Hin.
  destruct s as [|b s]; [by apply elem_of_nil in Hin|]. destruct (first_group b s) as (w & r & -> & Hw & Hr & Hc).
  rewrite Hc in Hin. apply elem_of_cons in Hin as [->|Hin]; [by apply chars_single|].
  apply (IH (len r)) with (s := r); try done. rewrite len_cons, app_len. lia.
Qed.

Lemma wrap_eq ws wc spans max : 0 < max -> wrap_styled_lines ws wc spans max =
  let w := foldl (wrap_span ws wc max) {| w_rows := []; w_cur := []; w_width := 0 |} spans in
  if nonempty (w_cur w) || negb (nonempty (w_rows w)) then (w_rows w ++ [w_cur w])%list else w_rows w.
Proof. by destruct max; [lia|]. Qed.

Section Widths.
Context (width_str width_char : string -> nat) (max : nat) (Hmax : 0 < max).

(** A piece of a row is measured as a word or, when it is one character, as a
    character; the two tables need not agree. *)
Definition measures (s : Span) (n : nat) : Prop :=
  n = width_str (span_text s) \/ chars (span_text s) = [span_text s] /\ n = width_char (span_text s).
Definition row_measure (r : Row) (n : nat) : Prop := exists ns, Forall2 measures r ns /\ list_sum ns = n.
Definition too_wide (r : Row) : Prop := exists s, r = [s] /\ chars (span_text s) = [span_text s] /\ max < width_char (span_text s).
Definition row_fits (r : Row) : Prop := (exists n, row_measure r n /\ n <= max) \/ too_wide r.

Definition fits (w : Wrap) : Prop :=
  Forall row_fits (w_rows w) /\
  (row_measure (w_cur w) (w_width w) /\ w_width w <= max \/ too_wide (w_cur w) /\ max < w_width w).

Lemma measure_put r n t f k : row_measure r n -> measures (span t f) k -> row_measure (r ++ [span t f])%list (n + k).
Proof.
  intros (ns & Hr & <-) Hk. exists (ns ++ [k])%list. split; [apply Forall2_app; [done|constructor; [done|constructor]]|]. rewrite list_sum_app. cbn. lia.
Qed.

Lemma measure_nil : row_measure [] 0.
Proof. exists []. by split; [constructor|]. Qed.

Lemma cur_fits w : fits w -> row_fits (w_cur w).
Proof. intros [_ [[H ?]|[? _]]]; [left; eauto|by right]. Qed.

Lemma flush_fits w : fits w -> fits (flush_row w).
Proof.
  intros Hw. pose proof (cur_fits w Hw) as Hc. destruct Hw as [Hr _]. split; [cbn; apply Forall_app; by split; [|constructor]|].
  left. split; [apply measure_nil|cbn; lia].
Qed.

Lemma put_fits t f k w : fits w -> w_width w + k <= max -> measures (span t f) k -> fits (put t f k w).
Proof.
  intros [Hr Hc] Hle Hk. split; [done|]. left. destruct Hc as [[Hm _]|[_ ?]]; [|lia]. split; [by apply measure_put|done].
Qed.

Lemma empty_fits w : fits w -> nonempty (w_cur w) = false -> w_width w = 0.
Proof.
  intros [_ [[(ns & Hm & <-) _]|[(s & E & _) _]]] He; [|by rewrite E in He]. destruct (w_cur w); [|done]. by inversion Hm.
Qed.

(** A character on an empty row: alone when it is wider than the row. *)
Lemma first_char_fits f w c : chars c = [c] -> fits w -> w_cur w = [] -> w_width w = 0 -> fits (put c f (width_char c) w).
Proof.
  intros Hc Hw He H0. destruct (le_lt_dec (width_char c) max) as [Hl|Hl]; [apply put_fits; [done|lia|by right]|].
  destruct Hw as [Hr _]. split; [done|]. right. cbn. rewrite He, H0. split; [|lia]. exists (span c f). done.
Qed.

Lemma nonempty_false {A} (l : list A) : nonempty l = false -> l = [].
Proof. by destruct l. Qed.

Lemma wrap_char_fits f w c : chars c = [c] -> fits w -> fits (wrap_char width_char max f w c).
Proof.
  intros Hc Hw. unfold wrap_char. destruct (Nat.ltb_spec max (w_width w + width_char c)) as [Hl|Hl]; cbn [andb].
  - destruct (nonempty (w_cur w)) eqn:En; [by apply first_char_fits; [|apply flush_fits|..]|].
    pose proof (empty_fits w Hw En). apply first_char_fits; [done|done|by apply nonempty_false|done].
  - apply put_fits; [done|lia|by right].
Qed.

Lemma wrap_word_fits f w word : fits w -> fits (wrap_word width_str width_char max f w word).
Proof.
  intros Hw. unfold wrap_word. destruct (Nat.leb_spec (w_width w + width_str word) max) as [Hl|Hl]; [apply put_fits; [done|done|by left]|].
  destruct (Nat.ltb_spec max (width_str word)) as [Hb|Hb].
  - assert (Hall : Forall (fun c => chars c = [c]) (chars word)) by (apply Forall_forall; intros c; apply chars_elem).
    clear Hl Hb. revert w Hw. induction Hall as [|c cs Hc _ IH]; intros w Hw; [done|]. cbn [foldl]. by apply IH, wrap_char_fits.
  - destruct (nonempty (w_cur w)) eqn:En.
    + apply (put_fits word f _ (flush_row w)); [by apply flush_fits|cbn; lia|by left].
    + pose proof (put_fits word f (width_str word) w Hw) as Hp. unfold put in Hp. rewrite (empty_fits w Hw En) in Hp. apply Hp; [lia|by left].
Qed.
Lemma fold_fits {A} (step : Wrap -> A -> Wrap) l w : (forall w x, fits w -> fits (step w x)) -> fits w -> fits (foldl step w l).
Proof. intros Hs. revert w. induction l as [|x l IH]; intros w Hw; [done|]. cbn [foldl]. by apply IH, Hs. Qed.

Lemma wrap_span_fits w s : fits w -> fits (wrap_span width_str width_char max w s).
Proof.
  intros Hw. assert (Hseg : forall f w seg, fits w -> fits (wrap_segment width_str width_char max f w seg)).
  { intros f w' seg Hw'. apply fold_fits; [|done]. intros w'' x. apply wrap_word_fits. }
  unfold wrap_span. destruct (split_char newline (span_text s)) as [|seg segs]; [done|].
  apply fold_fits; [|by apply Hseg]. intros w' x Hw'. apply Hseg. by apply flush_fits.
Qed.

Lemma wrap_fits spans : Forall row_fits (wrap_styled_lines width_str width_char spans max).
Proof.
  rewrite wrap_eq by done. set (w0 := {| w_rows := []; w_cur := []; w_width := 0 |}). cbv zeta.
  assert (H : fits (foldl (wrap_span width_str width_char max) w0 spans)).
  { apply fold_fits; [intros w s; apply wrap_span_fits|]. split; [constructor|]. left. split; [apply measure_nil|cbn; lia]. }
  pose proof (cur_fits _ H) as Hc. destruct H as [Hr _]. destruct (_ || _); [|done]. apply Forall_app. by split; [|constructor].
Qed.
End Widths.

(** ** Properties *)

(** Wrapping keeps the text and the width.  Breaking styled spans into rows
    of [max] columns, at least one, neither loses, adds, moves nor restyles a
    byte: the rows read one after the other are the spans without their newlines.
    Whatever the two width tables say, and though they may disagree, every row is
    made of words and single characters whose measured widths, each in its own
    table, add up to at most [max], or is one character that is wider than [max]
    by itself. *)
Theorem wrap_spec (width_str width_char : string -> nat) (spans : Row) (max : nat) (Hmax : 0 < max) :
  content (concat (wrap_styled_lines width_str width_char spans max)) = concat (map without_newlines spans) /\
  Forall (fun r =>
      (exists ns, Forall2 (fun s n => n = width_str (span_text s) \/ chars (span_text s) = [span_text s] /\ n = width_char (span_text s)) r ns /\
         list_sum ns <= max) \/
      exists s, r = [s] /\ chars (span_text s) = [span_text s] /\ max < width_char (span_text s))
    (wrap_styled_lines width_str width_char spans max).
Proof.
  split.
  - rewrite wrap_content by done. f_equal. apply map_ext, one_line_spec.
  - eapply Forall_impl; [by apply wrap_fits|]. intros r [(n & (ns & Hr & <-) & Hn)|Hr]; [left; by exists ns|by right].
Qed.

(** A table in which "…" is two columns wide: it does not fit one column. *)
Definition demo_width (c : string) : nat := if String.eqb c "…" then 2 else 1.

Lemma wrap_spec_witness :
  wrap_styled_lines len demo_width [span "the quick fox" face0; span "!" bullet_style] 9 =
    [[span "the " face0]; [span "quick " face0; span "fox" face0]; [span "!" bullet_style]] /\
  wrap_styled_lines len demo_width [span "a…b" face0] 1 = [[span "a" face0]; [span "…" face0]; [span "b" face0]] /\
  content (concat (wrap_styled_lines len demo_width [span "a…b" face0] 1)) = concat (map without_newlines [span "a…b" face0]).
Proof.
  split; [vm_compute; reflexivity|]. split; [vm_compute; reflexivity|].
  apply (wrap_spec len demo_width [span "a…b" face0] 1). lia.
Defined.

(** ** Behaviours worth knowing *)

(** A list inside an item of a numbered list ends the numbering: the next item
    of the outer list has a bullet. *)
Example nested_list_loses_numbers :
  parse_markdown_to_spans (fun _ => [Start (ListOf (Some 1%Z)); Start Item; Text "a"; Start (ListOf None); Start Item; Text "b"; End Item;
    End (ListOf None); End Item; Start Item; Text "c"; End Item; End (ListOf (Some 1%Z))]) "" =
    [[span "  1. " (tinted TGreen); span "a" face0; span "  • " bullet_style; span "b" face0];
     [span "  • " bullet_style; span "c" face0]].
Proof. vm_compute. reflexivity. Qed.
