(* ===== verification/Tui.v ===== *)
(** * The terminal interface

    src/tui/src/state.rs: the state of the interface, what a key does to it in
    each input mode, and what an event of the daemon does; with the parts of the
    event loop of src/tui/src/app.rs that change the state (disconnection,
    reconnection, the turn's end).  Indexing, [drain] and slicing inside a
    character are panics, [None] here.  Messages are recorded in the order their
    tasks are spawned.  The clock, the configuration file as read, a fresh
    identifier, serde_json and the time library are arguments. *)

From S2P Require Import Prelude Update RString Utf8 Path Json Context Loop Wire Composer Cards.
Local Open Scope string_scope.
Local Open Scope update_scope.
#[local] Arguments String.append !_ _ : simpl nomatch.

(** ** State *)

Inductive AgentPhase :=
| Reasoning | ToolCalling | AwaitingResult | ContextManage | Compact | ErrorRecovery | StopCheck | TraceRecord | ParallelOrchest.

Inductive InputMode :=
| ModeNormal
| ModeWelcome (cwd : string) (selected : nat)
| ModeConfirm (id token : string)
| ModeQuestion (id token : string) (options : option (list string)) (selected first_option_line : nat).

Record LlmInfo := { model_id : string; provider : string }.

(** Where the current stream of the model started to write. *)
Inductive StreamAnchor :=
| NewLines (n : nat)
| AppendInto (line length : nat).

(** [connection] is whether one is open, instants are nanoseconds; [sent],
    [titles] and [written] are the messages, window titles and files the
    interface has put out. *)
Record App := {
  input_mode : InputMode;
  a_lines : list ChatLine;
  a_history : list ChatLine;
  needs_finalize : bool;
  inserted_rows : nat;
  resize_pending : option (Z * Z);
  resize_deadline : option Z;
  composer : Composer;
  session_id : option string;
  status : StatusIcon;
  planning : bool;
  start_time : Z;
  last_elapsed : Z;
  connection : bool;
  reconnect_attempts : Z;
  sending_allowed : bool;
  llm : LlmInfo;
  spinner_idx : nat;
  agent_phase : AgentPhase;
  quit : bool;
  confirm_selected : nat;
  workspace_name : string;
  workspace_id : string;
  stream_anchor : option StreamAnchor;
  running_background_tasks : Z;
  last_task_notification : option (string * Z);
  sent : list ClientMsg;
  titles : list string;
  written : list (string * string)
}.

Definition App_eta (a : App) : App :=
  {| input_mode := input_mode a; a_lines := a_lines a; a_history := a_history a; needs_finalize := needs_finalize a;
     inserted_rows := inserted_rows a; resize_pending := resize_pending a; resize_deadline := resize_deadline a; composer :=
     composer a; session_id := session_id a; status := status a; planning := planning a; start_time := start_time a;
     last_elapsed := last_elapsed a; connection := connection a; reconnect_attempts := reconnect_attempts a; sending_allowed
     := sending_allowed a; llm := llm a; spinner_idx := spinner_idx a; agent_phase := agent_phase a; quit := quit a;
     confirm_selected := confirm_selected a; workspace_name := workspace_name a; workspace_id := workspace_id a;
     stream_anchor := stream_anchor a; running_background_tasks := running_background_tasks a; last_task_notification :=
     last_task_notification a; sent := sent a; titles := titles a; written := written a |}.
#[export] Instance set_input_mode : Setter input_mode. Proof. derive_setter App_eta. Defined.
#[export] Instance set_a_lines : Setter a_lines. Proof. derive_setter App_eta. Defined.
#[export] Instance set_a_history : Setter a_history. Proof. derive_setter App_eta. Defined.
#[export] Instance set_needs_finalize : Setter needs_finalize. Proof. derive_setter App_eta. Defined.
#[export] Instance set_inserted_rows : Setter inserted_rows. Proof. derive_setter App_eta. Defined.
#[export] Instance set_resize_pending : Setter resize_pending. Proof. derive_setter App_eta. Defined.
#[export] Instance set_resize_deadline : Setter resize_deadline. Proof. derive_setter App_eta. Defined.
#[export] Instance set_composer : Setter composer. Proof. derive_setter App_eta. Defined.
#[export] Instance set_session_id : Setter session_id. Proof. derive_setter App_eta. Defined.
#[export] Instance set_status : Setter status. Proof. derive_setter App_eta. Defined.
#[export] Instance set_planning : Setter planning. Proof. derive_setter App_eta. Defined.
#[export] Instance set_start_time : Setter start_time. Proof. derive_setter App_eta. Defined.
#[export] Instance set_last_elapsed : Setter last_elapsed. Proof. derive_setter App_eta. Defined.
#[export] Instance set_connection : Setter connection. Proof. derive_setter App_eta. Defined.
#[export] Instance set_reconnect_attempts : Setter reconnect_attempts. Proof. derive_setter App_eta. Defined.
#[export] Instance set_sending_allowed : Setter sending_allowed. Proof. derive_setter App_eta. Defined.
#[export] Instance set_spinner_idx : Setter spinner_idx. Proof. derive_setter App_eta. Defined.
#[export] Instance set_agent_phase : Setter agent_phase. Proof. derive_setter App_eta. Defined.
#[export] Instance set_quit : Setter quit. Proof. derive_setter App_eta. Defined.
#[export] Instance set_confirm_selected : Setter confirm_selected. Proof. derive_setter App_eta. Defined.
#[export] Instance set_workspace_name : Setter workspace_name. Proof. derive_setter App_eta. Defined.
#[export] Instance set_workspace_id : Setter workspace_id. Proof. derive_setter App_eta. Defined.
#[export] Instance set_stream_anchor : Setter stream_anchor. Proof. derive_setter App_eta. Defined.
#[export] Instance set_running_background_tasks : Setter running_background_tasks. Proof. derive_setter App_eta. Defined.
#[export] Instance set_last_task_notification : Setter last_task_notification. Proof. derive_setter App_eta. Defined.
#[export] Instance set_sent : Setter sent. Proof. derive_setter App_eta. Defined.
#[export] Instance set_titles : Setter titles. Proof. derive_setter App_eta. Defined.
#[export] Instance set_written : Setter written. Proof. derive_setter App_eta. Defined.

(** What the environment gives at one event: the current directory, the text of
    the configuration file there if it can be read, a fresh identifier, the time. *)
Record Env := { env_cwd : option string; env_config : option string; env_uuid : string; env_now : Z }.

(** *** Output *)

Definition push (l : ChatLine) (a : App) : App := a <| a_lines ::= fun ls => (ls ++ [l])%list |>.
Definition extend (l : list ChatLine) (a : App) : App := a <| a_lines ::= fun ls => (ls ++ l)%list |>.
Definition send (m : ClientMsg) (a : App) : App :=
  if connection a then a <| sent ::= fun l => (l ++ [m])%list |> else a.
Definition placeholder (s : string) (a : App) : App := a <| composer ::= Composer.set_placeholder s |>.
Definition clear_input (a : App) : App := a <| composer ::= Composer.clear |>.
Definition remember (s : string) (a : App) : App := a <| composer ::= Composer.add_to_history s |>.

(** The window title: a title of more than 60 bytes is cut at byte 60. *)
Definition set_terminal_title (title : string) (a : App) : option App :=
  display ← (if (60 <? len title)%nat then if char_boundary 60 title then Some (take_str 60 title) else None else Some title);
  Some (a <| titles ::= fun l => (l ++ [display])%list |>).

Definition config_field (key line : string) : option string :=
  s ← strip_prefix_str line (key +:+ " = " +:+ dq); strip_suffix_str s dq.

Definition refresh_line (line : string) (a : App) : App :=
  let a := match config_field "id" line with Some v => a <| workspace_id := v |> | None => a end in
  match config_field "name" line with Some v => a <| workspace_name := v |> | None => a end.

Definition refresh_project_info (env : Env) (a : App) : App :=
  match env_cwd env, env_config env with
  | Some _, Some content => foldl (fun a line => refresh_line line a) a (lines content)
  | _, _ => a
  end.

(** *** Sending *)

Definition user_text (t : string) : Message := {| Context.role := User; Context.content := t; Context.images := [] |}.

Definition send_agent_message (env : Env) (t : string) (a : App) : option (bool * App) :=
  if negb (connection a) then
    Some (false, push (chat "✗ Not connected to daemon — message not sent (reconnecting…)" (status_style Disconnected)) a)
  else
    a ← (match session_id a with None => set_terminal_title t a | Some _ => Some a end);
    let msg := CmAgent [user_text t] (session_id a) (env_cwd env)
                 (if is_empty_str (workspace_id a) then None else Some (workspace_id a)) in
    let a := push (chat t {| fg := None; bold := false; reversed := true |}) (push blank (send msg a)) in
    Some (true, a <| status := Working |> <| sending_allowed := false |> <| start_time := env_now env |>).

Definition send_set_mode (plan : bool) (a : App) : App :=
  send (CmSetInteractionMode (session_id a) (if plan then "plan" else "auto")) a.

Definition send_cancel (a : App) : App :=
  let sid := default "" (session_id a) in if is_empty_str sid then a else send (CmCancel sid) a.

Definition parse_steer_input (t : string) : string * string :=
  match strip_prefix_str t "/now " with
  | Some rest => ("now", trim rest)
  | None => match strip_prefix_str t "/later " with Some rest => ("later", trim rest) | None => ("next", t) end
  end.

(** The interface is reset as on a cancelled run. *)
Definition stop_working (a : App) : App := a <| status := IconDone |> <| sending_allowed := true |> <| stream_anchor := None |>.

Definition send_steer (t : string) (a : App) : bool * App :=
  let '(priority, content) := parse_steer_input t in
  if is_empty_str content then (false, a)
  else if negb (connection a) then
    (false, push (chat "✗ Not connected to daemon — steer not sent (reconnecting…)" (status_style Disconnected)) a)
  else match session_id a with
       | None | Some "" => (false, a)
       | Some sid =>
           let a := push (chat ("↪ steer (" +:+ priority +:+ "): " +:+ content) (colored DarkGray)) (send (CmSteer sid content priority) a) in
           (true, if String.eqb priority "now" then stop_working a else a)
       end.

Definition send_confirm (id token : string) (approved : bool) (a : App) : App := send (CmConfirm id token approved) a.
Definition send_answer (id token answer : string) (a : App) : App := send (CmAnswer id token answer) a.
Definition request_sessions (a : App) : App := send CmSessions a.
Definition load_session (sid : string) (a : App) : App := send (CmLoadSession sid) a.

(** ** Keys *)

Definition ctrl (c : string) (k : KeyEvent) : bool := is_char c k && key_control k.
Definition is_key (c : KeyCode) (k : KeyEvent) : bool := bool_decide (key_code k = c).
Definition digit_of (k : KeyEvent) : option nat :=
  match key_code k with
  | KChar (String c "") => if is_ascii_digit c then Some (byte_val c - 48)%nat else None
  | _ => None
  end.

(** The line at an index, to be changed. *)
Definition update_line (i : nat) (f : ChatLine -> ChatLine) (a : App) : option App :=
  l ← a_lines a !! i; Some (a <| a_lines ::= <[i := f l]> |>).
(** [lines.drain(start..start + n)] *)
Definition drain (start n : nat) (a : App) : option App :=
  if (start + n <=? length (a_lines a))%nat
  then Some (a <| a_lines ::= fun l => (firstn start l ++ skipn (start + n) l)%list |>) else None.
(** [Vec::remove] of the last element a predicate accepts, if there is one. *)
Fixpoint remove_last_where {A} (p : A -> bool) (l : list A) : list A :=
  match l with
  | [] => []
  | x :: l' => if existsb p l' then x :: remove_last_where p l' else if p x then l' else l
  end.

(** *** The trust check *)

Definition approve_workspace (env : Env) (cwd : string) (a : App) : App :=
  let a := a <| input_mode := ModeNormal |> <| sending_allowed := true |> in
  let config := "[workspace]" +:+ nl +:+ "id = " +:+ dq +:+ env_uuid env +:+ dq +:+ nl +:+
                "name = " +:+ dq +:+ default "" (file_name cwd) +:+ dq +:+ nl in
  let a := a <| written ::= fun l => (l ++ [(path_join (path_join cwd ".jia") "config.toml", config)])%list |> in
  send (CmHello cwd) (refresh_project_info env a).

Definition key_welcome (env : Env) (k : KeyEvent) (cwd : string) (selected : nat) (a : App) : App :=
  if is_key KUp k || is_char "k" k then a <| input_mode := ModeWelcome cwd (selected - 1) |>
  else if is_key KDown k || is_char "j" k then a <| input_mode := ModeWelcome cwd (Nat.min (selected + 1) 1) |>
  else if is_key KEnter k then (if (selected =? 0)%nat then approve_workspace env cwd a else a <| quit := true |>)
  else if is_key KEsc k then a <| quit := true |>
  else a.

(** *** The input line *)

(** [handle_key] of the input line, and what Enter does with its text. *)
Definition key_input (env : Env) (k : KeyEvent) (a : App) : option App :=
  '(handled, c) ← Composer.handle_key k (composer a);
  let a := a <| composer := c |> in
  let t := c_text c in
  if handled && sending_allowed a then
    if String.eqb (trim t) "/plan" || String.eqb (trim t) "/plan-end" then
      let plan := String.eqb (trim t) "/plan" in
      let note := if plan then "🗺 /plan — requesting planning mode (谋划态)" else "/plan-end — requesting normal mode" in
      Some (push (chat note (colored Cyan)) (clear_input (remember t (send_set_mode plan a))))
    else
      '(ok, a) ← send_agent_message env t a;
      Some (if (ok : bool) then clear_input (remember t a) else a)
  else if handled && bool_decide (status a = Working) then
    if is_empty_str (trim t) then Some a
    else let '(ok, a) := send_steer (trim t) a in Some (if (ok : bool) then clear_input (remember t a) else a)
  else Some a.

Definition key_normal (env : Env) (k : KeyEvent) (a : App) : option App :=
  if is_key KBackTab k then let a := a <| planning ::= negb |> in Some (send_set_mode (planning a) a)
  else if ctrl "l" k then Some (a <| a_lines := [] |> <| inserted_rows := 0%nat |>)
  else if ctrl "r" k then Some (request_sessions a)
  else if is_key KEsc k && bool_decide (status a = Working) then
    Some (push (chat "⊘ Cancelled by user (Esc)" (status_style IconError)) (stop_working (send_cancel a)))
  else key_input env k a.

(** *** A confirmation *)

Definition key_confirm (env : Env) (k : KeyEvent) (id token : string) (a : App) : App :=
  let leave a := placeholder "" (a <| input_mode := ModeNormal |> <| confirm_selected := 0%nat |>) in
  if is_char "1" k || is_char "y" k || is_char "Y" k then refresh_project_info env (leave (send_confirm id token true a))
  else if is_char "2" k || is_char "n" k || is_char "N" k || is_key KEsc k then leave (send_confirm id token false a)
  else a.

(** *** A question *)

Definition FREE_TEXT : string := "Type your answer... (Enter to send, Esc to cancel)".

(** The highlight moves from one option to another. *)
Definition move_selection (id token : string) (opts : list string) (first_line selected new_selected : nat) (a : App) : option App :=
  a ← update_line (first_line + selected) (fun l => update_option_style l false) a;
  a ← update_line (first_line + new_selected) (fun l => update_option_style l true) a;
  Some (a <| input_mode := ModeQuestion id token (Some opts) new_selected first_line |>).

Definition finish_question (l : ChatLine) (a : App) : App :=
  push l (clear_input (placeholder "" a)) <| input_mode := ModeNormal |>.

(** Enter on an option; the last one, like an empty list, asks for a text. *)
Definition choose_option (id token : string) (opts : list string) (selected first_line : nat) (a : App) : option App :=
  if match opts with [] => true | _ => (selected =? length opts - 1)%nat end then
    if (first_line =? 0)%nat then None
    else a ← drain (first_line - 1) (S (length opts)) a;
         Some (placeholder FREE_TEXT (a <| input_mode := ModeQuestion id token None 0 0 |>))
  else
    answer ← opts !! selected;
    a ← drain (first_line - 1) (S (length opts)) (send_answer id token answer a);
    Some (finish_question (chat ("  └ Selected: " +:+ answer) (colored Green)) a).

Definition key_options (k : KeyEvent) (id token : string) (opts : list string) (selected first_line : nat) (a : App) : option App :=
  if is_key KUp k || is_char "k" k then
    if (0 <? selected)%nat then move_selection id token opts first_line selected (selected - 1) a else Some a
  else if is_key KDown k || is_char "j" k then
    if (selected + 1 <? length opts)%nat then move_selection id token opts first_line selected (selected + 1) a else Some a
  else match digit_of k with
       | Some n =>
           if (1 <=? n)%nat && (n <=? length opts)%nat && negb (n - 1 =? selected)%nat
           then move_selection id token opts first_line selected (n - 1) a else Some a
       | None =>
           if is_key KEnter k then choose_option id token opts selected first_line a
           else if is_key KEsc k then
             a ← drain (first_line - 1) (S (length opts)) (send_answer id token "" a);
             Some (finish_question (chat "  └ Cancelled" (colored DarkGray)) a)
           else Some a
       end.

Definition key_free_text (k : KeyEvent) (id token : string) (a : App) : option App :=
  if is_key KEsc k then Some (finish_question (chat "  └ Cancelled" (colored DarkGray)) (send_answer id token "" a))
  else if is_key KEnter k then
    let answer := c_text (composer a) in
    let a := send_answer id token answer a <| a_lines ::= remove_last_where (fun l => starts_with (text l) "❓") |> in
    Some (finish_question (chat ("  └ Answered: " +:+ answer) (colored Green)) a)
  else '(_, c) ← Composer.handle_key k (composer a); Some (a <| composer := c |>).

Definition handle_key (env : Env) (k : KeyEvent) (a : App) : option App :=
  if ctrl "c" k then Some (a <| quit := true |>)
  else match input_mode a with
       | ModeWelcome cwd selected => Some (key_welcome env k cwd selected a)
       | ModeNormal => key_normal env k a
       | ModeConfirm id token => Some (key_confirm env k id token a)
       | ModeQuestion id token (Some opts) selected first_line => key_options k id token opts selected first_line a
       | ModeQuestion id token None _ _ => key_free_text k id token a
       end.

(** *** Terminal events *)

Inductive Event := EvKey (k : KeyEvent) | EvQuit | EvResize (w h : Z) | EvTick.

Definition dispatch_event (env : Env) (e : Event) (a : App) : option App :=
  match e with
  | EvKey k => handle_key env k a
  | EvQuit => Some (a <| quit := true |>)
  | EvResize w h => Some (a <| resize_pending := Some (w, h) |> <| resize_deadline := Some (env_now env + 75 * 10 ^ 6)%Z |>)
  | EvTick => Some a
  end.

(** ** Events of the daemon *)

Section Daemon.
Context (to_string : Value -> string) (from_str : string -> option Value) (hhmm : Z -> string).

(** *** A piece of the answer *)

Definition is_assistant (l : ChatLine) : bool := bool_decide (style l = plain).

Definition append_text (content : string) (l : ChatLine) : ChatLine := chat (text l +:+ content) (style l).
Definition alter_last {A} (f : A -> A) (l : list A) : list A := alter f (length l - 1) l.

(** Raw tool calls streamed as text are not shown, nor white space after a blank
    line or a card. *)
Definition is_tool_json (content : string) : bool :=
  contains_str content (dq +:+ "name" +:+ dq +:+ ":") || contains_str content (dq +:+ "function" +:+ dq +:+ ":").
Definition whitespace_only (content : string) : bool := forallb is_whitespace (chars content).
Definition skips (content : string) (l : list ChatLine) : bool :=
  whitespace_only content &&
  (match last l with Some x => is_empty_str (text x) | None => true end || match last l with Some x => negb (is_assistant x) | None => false end).
Definition appends (l : list ChatLine) : bool := match last l with Some x => is_assistant x | None => false end.

(** The anchor the first piece leaves. *)
Definition anchor_for (l : list ChatLine) : StreamAnchor :=
  if appends l then AppendInto (length l - 1) (match last l with Some x => len (text x) | None => 0 end) else NewLines (length l).

Definition delta_lines (content : string) (l : list ChatLine) : list ChatLine :=
  if appends l then alter_last (append_text content) l
  else (l ++ blank :: (if whitespace_only content then [] else [chat content plain]))%list.

Definition on_delta (content : string) (a : App) : App :=
  let a :=
    if is_tool_json content || skips content (a_lines a) then a
    else a <| stream_anchor ::= fun o => match o with Some _ => o | None => Some (anchor_for (a_lines a)) end |>
           <| a_lines ::= delta_lines content |> in
  a <| status := Working |> <| agent_phase := Reasoning |> <| spinner_idx ::= fun i => ((i + 1) mod 10)%nat |>.

(** Back to the anchor; [None] is a cut inside a character. *)
Definition truncate_text (n : nat) (l : ChatLine) : option ChatLine :=
  if (n <=? len (text l))%nat then (if char_boundary n (text l) then Some (chat (take_str n (text l)) (style l)) else None) else Some l.

Definition rollback (o : option StreamAnchor) (l : list ChatLine) : option (list ChatLine) :=
  match o with
  | Some (NewLines n) => Some (firstn n l)
  | Some (AppendInto line n) =>
      let l := firstn (S line) l in
      match l !! line with Some x => x' ← truncate_text n x; Some (<[line := x']> l) | None => Some l end
  | None => Some l
  end.

Definition on_retrying (a : App) : option App :=
  l ← rollback (stream_anchor a) (a_lines a); Some (a <| stream_anchor := None |> <| a_lines := l |>).

(** *** Questions *)

Definition question_placeholder (opts : list string) : string :=
  if (length opts <=? 9)%nat then "↑↓/1-" +:+ pretty (length opts) +:+ " navigate · Enter select · Esc cancel · type for custom"
  else "↑↓ navigate · Enter select · Esc cancel · type for custom".

Definition on_question (id token : string) (options : option (list string)) (a : App) : App :=
  let a := a <| agent_phase := AwaitingResult |> in
  match options with
  | Some opts =>
      let first_idx := length (a_lines a) in
      let a := placeholder (question_placeholder opts) (extend (format_question_options opts 0) a) in
      a <| input_mode := ModeQuestion id token (Some opts) 0 (first_idx + 1) |>
  | None => placeholder FREE_TEXT a <| input_mode := ModeQuestion id token None 0 0 |>
  end.

(** *** Sub-agents *)

Definition subagent_marker (id kind : string) : string :=
  "  └ sub-agent " +:+ kind +:+ " (" +:+ of_chars (firstn 8 (chars id)) +:+ "):".

Definition on_subagent (id kind status summary : string) (a : App) : App :=
  let line t := chat (subagent_marker id kind +:+ " " +:+ t) (colored DarkGray) in
  if String.eqb status "started" then push (line ("started — " +:+ summary)) a
  else if String.eqb status "progress" then
    if match last (a_lines a) with Some l => starts_with (text l) (subagent_marker id kind) | None => false end
    then a <| a_lines ::= alter_last (fun _ => line summary) |> else push (line summary) a
  else if String.eqb status "completed" then push (line ("✓ completed — " +:+ summary)) a
  else if String.eqb status "failed" then push (line ("✗ failed — " +:+ summary)) a
  else push (line summary) a.

Definition elapsed_secs (env : Env) (a : App) : Z := Z.max 0 (env_now env - start_time a) / 10 ^ 9.
Definition USIZE_MAX : Z := 2 ^ 64 - 1.

Definition handle_stream_event (env : Env) (e : TuiEvent) (a : App) : option App :=
  match e with
  | TvDelta c => Some (on_delta c a)
  | TvSession i t =>
      let a := a <| session_id := Some i |> in match t with Some t => set_terminal_title t a | None => Some a end
  | TvContextPressure => Some (a <| agent_phase := ContextManage |>)
  | TvCompacting => Some (a <| agent_phase := Compact |>)
  | TvDone =>
      Some (a <| status := IconDone |> <| agent_phase := Reasoning |> <| sending_allowed := true |>
              <| last_elapsed := elapsed_secs env a |> <| needs_finalize := true |> <| stream_anchor := None |>)
  | TvError m =>
      Some (push (chat ("✗ Error: " +:+ m) (colored Red)) a <| status := IconError |> <| agent_phase := ErrorRecovery |>
              <| sending_allowed := true |> <| last_elapsed := elapsed_secs env a |> <| stream_anchor := None |>)
  | TvInteractionModeChanged m => Some (a <| planning := String.eqb m "plan" |>)
  | TvConfirmationRequest i _ r _ k =>
      Some (placeholder (r +:+ "  [1] Yes  [2] No  · Esc to cancel")
              (a <| agent_phase := AwaitingResult |> <| input_mode := ModeConfirm i k |>))
  | TvUserQuestion i _ _ k o => Some (on_question i k o a)
  | TvToolResult _ _ _ _ _ => Some (extend (stream_event_to_lines to_string from_str e) (a <| agent_phase := Reasoning |>))
  | TvToolBatchStart => Some (a <| agent_phase := ParallelOrchest |>)
  | TvStreamEnd => Some (a <| agent_phase := StopCheck |> <| stream_anchor := None |>)
  | TvRetrying _ => on_retrying a
  | TvTaskStarted _ _ _ _ => Some (a <| running_background_tasks ::= fun n => Z.min USIZE_MAX (n + 1) |>)
  | TvTaskCompleted _ _ s _ _ =>
      Some (a <| running_background_tasks ::= fun n => Z.max 0 (n - 1) |> <| last_task_notification := Some (s, env_now env) |>)
  | TvTaskStalled _ d _ =>
      Some (a <| last_task_notification := Some ("⚠ " +:+ d +:+ " — may be waiting for input", env_now env) |>)
  | TvSteerFolded _ => Some (push (chat "  └ steer folded into conversation" (colored DarkGray)) a)
  | TvSubagentLifecycle i k s m => Some (on_subagent i k s m a)
  | TvToolCall _ _ =>
      let a := a <| agent_phase := ToolCalling |> in
      let a := match last (a_lines a) with Some l => if is_empty_str (text l) then a else push blank a | None => a end in
      Some (extend (stream_event_to_lines to_string from_str e) a)
  end.

(** *** Other messages *)

Definition session_line (s : Value) : option ChatLine :=
  let id := default "" (as_str (index s "id")) in
  let title := default "" (as_str (index s "title")) in
  let count := default 0%Z (as_u64 (index s "messageCount")) in
  short_id ← (if (8 <? len id)%nat then if char_boundary 8 id then Some (take_str 8 id) else None else Some id);
  Some (chat ("  " +:+ short_id +:+ " │ " +:+ title +:+ " (" +:+ pretty count +:+ " msgs)") (colored White)).

Definition entry_line (e : Value) : ChatLine :=
  let dflt k := default "" (as_str (index e k)) in
  let role := dflt "role" in
  if String.eqb role "tool_call" then chat ("🔧 " +:+ dflt "tool" +:+ " — " +:+ dflt "output") (colored DarkGray)
  else chat (dflt "content") (colored (if String.eqb role "user" then Cyan else if String.eqb role "system" then Yellow else White)).

Definition first_user (entries : list Value) : option string :=
  e ← head (filter (fun e => (r ← get e "role"; as_str r) = Some "user") entries);
  c ← get e "content"; as_str c.

Definition handle_socket_event (env : Env) (e : SocketEvent) (a : App) : option App :=
  match e with
  | SkStream se => handle_stream_event env se a
  | SkCronNotification job prompt response ts =>
      let a := push (chat ("📅 [" +:+ hhmm ts +:+ "] " +:+ job +:+ ": " +:+ prompt) (colored DarkGray)) a in
      Some (if is_empty_str response then a else push (chat response (colored DarkGray)) a)
  | SkSessionsList l =>
      ls ← mapM session_line l; Some (extend ls (push (chat "── Sessions ──" (colored Cyan)) a))
  | SkSessionHistory sid entries =>
      let a := a <| session_id := Some sid |> in
      a ← (match first_user entries with Some c => set_terminal_title c a | None => Some a end);
      Some (push (chat "── Session loaded ──" (colored Green)) (a <| a_lines := map entry_line entries |>))
  | SkConfirmResolved i resolved =>
      let a := match input_mode a with ModeConfirm _ _ => a <| input_mode := ModeNormal |> | _ => a end in
      let a := placeholder "" a in
      Some (if resolved then a else push (chat ("✗ Confirm denied or timeout (" +:+ i +:+ ")") (colored Red)) a)
  | SkModelInfo _ _ => Some a
  | SkAnswerResolved i resolved => Some (if resolved then a else push (chat ("✗ Answer timed out (" +:+ i +:+ ")") (colored Red)) a)
  | SkWorkspaceResolved w approved => Some (if approved then a <| workspace_id := w |> else a <| quit := true |>)
  end.

End Daemon.

(** ** The event loop's own changes *)

Definition on_disconnect (a : App) : App :=
  push (chat "✗ Disconnected from daemon, reconnecting…" (status_style Disconnected))
    (push blank (a <| connection := false |> <| status := Disconnected |> <| reconnect_attempts := 0%Z |>
                   <| sending_allowed := true |> <| stream_anchor := None |>)).

Definition on_reconnected (a : App) : App :=
  push (chat "✓ Reconnected" (colored Green))
    (a <| connection := true |> <| reconnect_attempts := 0%Z |> <| status := IconDone |> <| sending_allowed := true |>).

(** A failed attempt, and the seconds to the next one. *)
Definition reconnect_delay (attempts : Z) : Z := Z.min (Z.shiftl 1 (Z.min attempts 5)) 30.
Definition on_reconnect_failed (a : App) : Z * App :=
  let a := a <| reconnect_attempts ::= fun n => ((n + 1) mod 2 ^ 32)%Z |> in
  let delay := reconnect_delay (reconnect_attempts a) in
  (delay, push (chat ("⏳ Reconnect attempt " +:+ pretty (reconnect_attempts a) +:+ " failed, retrying in " +:+ pretty delay +:+ "s")
                  (colored Red)) a).

Definition on_tick (a : App) : App :=
  if bool_decide (status a = Working) then a <| spinner_idx ::= fun i => ((i + 1) mod 10)%nat |> else a.

(** *** The scrollback

    [rows] are the display rows of some lines; those below
    [inserted_rows] are in the terminal's scrollback already. *)
Section Scrollback.
Context {Row : Type} (rows : list ChatLine -> list Row).

Definition flush_streaming_overflow (msg_height : nat) (a : App) (scrollback : list Row) : App * list Row :=
  let r := rows (a_lines a) in
  let new_inserted := (length r - msg_height)%nat in
  if (inserted_rows a <? new_inserted)%nat
  then (a <| inserted_rows := new_inserted |>, (scrollback ++ firstn (new_inserted - inserted_rows a) (skipn (inserted_rows a) r))%list)
  else (a, scrollback).

Definition finalize_active_turn (a : App) (scrollback : list Row) : App * list Row :=
  match a_lines a with
  | [] => (a, scrollback)
  | _ =>
      let r := rows (a_lines a) in
      (a <| a_history ::= fun h => (h ++ a_lines a)%list |> <| a_lines := [] |> <| inserted_rows := 0%nat |>,
       if (inserted_rows a <? length r)%nat then (scrollback ++ skipn (inserted_rows a) r)%list else scrollback)
  end.

(** What the loop does before it draws a frame. *)
Definition before_frame (msg_height : nat) (a : App) (scrollback : list Row) : App * list Row :=
  let '(a, scrollback) := flush_streaming_overflow msg_height a scrollback in
  if needs_finalize a then let '(a, scrollback) := finalize_active_turn a scrollback in (a <| needs_finalize := false |>, scrollback)
  else (a, scrollback).
End Scrollback.

(** ** Lemmas: the panel of a question *)

(** The lines hold the panel after [pre]: a blank line and the options, one of
    them highlighted. *)
Definition shows (pre post : list ChatLine) (opts : list string) (selected : nat) (a : App) : Prop :=
  a_lines a = (pre ++ format_question_options opts selected ++ post)%list.

Lemma option_lookup opts selected i o : opts !! i = Some o ->
  format_question_options opts selected !! S i = Some (option_line selected i o).
Proof.
  intros H. change (format_question_options opts selected !! S i) with (imap (option_line selected) opts !! i).
  by rewrite list_lookup_imap, H.
Qed.

(** Moving the highlight line by line gives the panel formatted anew. *)
Lemma panel_moves opts i j : i < length opts -> j < length opts -> i <> j ->
  exists li lj, format_question_options opts i !! S i = Some li /\ format_question_options opts i !! S j = Some lj /\
    <[S j := update_option_style lj true]> (<[S i := update_option_style li false]> (format_question_options opts i)) =
      format_question_options opts j.
Proof.
  intros Hi Hj Hne. apply lookup_lt_is_Some in Hi as [oi Hi]. apply lookup_lt_is_Some in Hj as [oj Hj].
  exists (option_line i i oi), (option_line i j oj). rewrite (option_lookup _ _ _ _ Hi), (option_lookup _ _ _ _ Hj). split_and!; try done.
  rewrite (update_option_off i oi i j) by done. rewrite update_option_on. apply list_eq. intros n.
  destruct n as [|n]; [done|].
  change (<[j:=option_line j j oj]> (<[i:=option_line j i oi]> (imap (option_line i) opts)) !! n = imap (option_line j) opts !! n).
  destruct (decide (n = j)) as [->|Hnj].
  - rewrite list_lookup_insert_eq; [by rewrite list_lookup_imap, Hj|].
    rewrite length_insert, length_imap. by apply lookup_lt_Some in Hj.
  - rewrite list_lookup_insert_ne by done. destruct (decide (n = i)) as [->|Hni].
    + rewrite list_lookup_insert_eq; [by rewrite list_lookup_imap, Hi|]. rewrite length_imap. by apply lookup_lt_Some in Hi.
    + rewrite list_lookup_insert_ne by done. rewrite !list_lookup_imap. destruct (opts !! n) as [o|]; [|done]. cbn.
      unfold option_line. apply Nat.eqb_neq in Hnj, Hni. by rewrite Hnj, Hni.
Qed.

Lemma update_line_at pre panel post i f l (a : App) : a_lines a = (pre ++ panel ++ post)%list -> panel !! i = Some l ->
  update_line (length pre + i) f a = Some (a <| a_lines := (pre ++ <[i := f l]> panel ++ post)%list |>).
Proof.
  intros Ha Hl. pose proof (lookup_lt_Some _ _ _ Hl) as Hlt. unfold update_line. rewrite Ha, lookup_app_r by lia.
  replace (length pre + i - length pre) with i by lia. rewrite lookup_app_l, Hl by done. cbn [mbind option_bind].
  unfold update, set_a_lines. rewrite Ha, insert_app_r, insert_app_l by done. done.
Qed.

Lemma drain_panel pre panel post (a : App) : a_lines a = (pre ++ panel ++ post)%list ->
  drain (length pre) (length panel) a = Some (a <| a_lines := (pre ++ post)%list |>).
Proof.
  intros Ha. unfold drain. rewrite Ha, !length_app. destruct (Nat.leb_spec (length pre + length panel) (length pre + (length panel + length post)));
    [|lia].
  unfold update, set_a_lines. rewrite Ha, take_app_length. rewrite (app_assoc pre panel post), <- length_app, drop_app_length. done.
Qed.

Lemma move_shows id token pre post opts i j (a : App) : shows pre post opts i a -> i < length opts -> j < length opts -> i <> j ->
  move_selection id token opts (S (length pre)) i j a =
    Some (a <| a_lines := (pre ++ format_question_options opts j ++ post)%list |>
            <| input_mode := ModeQuestion id token (Some opts) j (S (length pre)) |>).
Proof.
  intros Hs Hi Hj Hne. destruct (panel_moves opts i j Hi Hj Hne) as (li & lj & Eli & Elj & E). unfold move_selection.
  replace (S (length pre) + i)%nat with (length pre + S i)%nat by lia. rewrite (update_line_at pre _ post (S i) _ li) by done.
  cbn [mbind option_bind]. replace (S (length pre) + j)%nat with (length pre + S j)%nat by lia.
  rewrite (update_line_at pre (<[S i:=update_option_style li false]> (format_question_options opts i)) post (S j) _ lj); [|done|].
  - cbn [mbind option_bind]. by rewrite E.
  - rewrite list_lookup_insert_ne by lia. done.
Qed.

Lemma drain_shows pre post opts selected (a : App) : shows pre post opts selected a ->
  drain (S (length pre) - 1) (S (length opts)) a = Some (a <| a_lines := (pre ++ post)%list |>).
Proof.
  intros Hs. replace (S (length pre) - 1) with (length pre) by lia. rewrite <- (length_options opts selected). by apply drain_panel.
Qed.

(** ** Lemmas: a well-formed interface *)

Definition selection_ok (opts : list string) (selected : nat) : Prop := opts = [] /\ selected = 0 \/ selected < length opts.

Definition mode_ok (a : App) : Prop :=
  match input_mode a with
  | ModeNormal | ModeConfirm _ _ | ModeQuestion _ _ None _ _ => True
  | ModeWelcome _ selected => selected <= 1
  | ModeQuestion _ _ (Some opts) selected first_line =>
      exists pre post, first_line = S (length pre) /\ shows pre post opts selected a /\ selection_ok opts selected
  end.
Definition app_ok (a : App) : Prop := Composer.wf (composer a) /\ mode_ok a.

(** The window title of a new session can be cut. *)
Definition title_ok (t : string) : bool := (len t <=? 60)%nat || char_boundary 60 t.

(** The key that submits the first message of a new session. *)
Definition submits_first (k : KeyEvent) (a : App) : Prop :=
  input_mode a = ModeNormal /\ key_code k = KEnter /\ sending_allowed a = true /\ connection a = true /\ session_id a = None /\
  trim (c_text (composer a)) ∉ [""; "/plan"; "/plan-end"].

#[export] Instance input_mode_eq_dec : EqDecision InputMode.
Proof. solve_decision. Defined.
#[export] Instance submits_first_dec k a : Decision (submits_first k a).
Proof. unfold submits_first. apply _. Defined.

Lemma set_title_bad t a : title_ok t = false -> set_terminal_title t a = None.
Proof.
  unfold title_ok, set_terminal_title. intros [Hl Hb]%orb_false_iff. apply Nat.leb_gt in Hl.
  by rewrite (proj2 (Nat.ltb_lt _ _)), Hb.
Qed.

Lemma set_title_ok t a : title_ok t = true -> exists d, set_terminal_title t a = Some (a <| titles ::= fun l => (l ++ [d])%list |>).
Proof.
  unfold title_ok, set_terminal_title. intros H. destruct (Nat.ltb_spec 60 (len t)) as [Hl|Hl]; [|by eexists].
  destruct (Nat.leb_spec (len t) 60) as [?|_]; [lia|]. rewrite orb_false_l in H. rewrite H. by eexists.
Qed.

Lemma refresh_keeps {T} (f : App -> T) env a :
  (forall x a, f (a <| workspace_id := x |>) = f a) -> (forall x a, f (a <| workspace_name := x |>) = f a) ->
  f (refresh_project_info env a) = f a.
Proof.
  intros H1 H2. unfold refresh_project_info. destruct (env_cwd env), (env_config env) as [content|]; try done.
  generalize (lines content) as l. intros l. revert a. induction l as [|x l IH]; intros a; [done|]. cbn [foldl]. rewrite IH.
  unfold refresh_line. destruct (config_field "id" x), (config_field "name" x); by rewrite ?H2, ?H1.
Qed.

Lemma send_keeps {T} (f : App -> T) m a : (forall x a, f (a <| sent ::= x |>) = f a) -> f (send m a) = f a.
Proof. intros H. unfold send. by destruct (connection a). Qed.

Lemma send_sent m a : sent (send m a) = (sent a ++ if connection a then [m] else [])%list.
Proof. unfold send. destruct (connection a); [done|]. by rewrite app_nil_r. Qed.

Lemma placeholder_wf s c : Composer.wf c -> Composer.wf (Composer.set_placeholder s c).
Proof. done. Qed.

Lemma clear_wf c : Composer.wf c -> Composer.wf (Composer.clear c).
Proof. intros (_ & _ & _ & Hd & Hh & Hp). by apply (wf_at _ "" ""). Qed.

Lemma remember_wf c : Composer.wf c -> Composer.wf (Composer.add_to_history (c_text c) c).
Proof.
  intros (Ht & Hc & Hb & Hd & Hh & Hp). unfold Composer.wf, Composer.add_to_history.
  cbn [c_text c_cursor c_draft c_history c_history_pos]. split_and!; try done; try lia.
  destruct (is_empty_str (c_text c)); [done|]. apply Forall_app. by split; [|constructor].
Qed.

(** *** Keys keep it *)

Lemma app_ok_mode a : Composer.wf (composer a) -> mode_ok a -> app_ok a.
Proof. by split. Qed.

Lemma mode_normal_ok a : input_mode a = ModeNormal -> mode_ok a.
Proof. unfold mode_ok. by intros ->. Qed.

Lemma welcome_ok env k cwd selected a : app_ok a -> input_mode a = ModeWelcome cwd selected ->
  app_ok (key_welcome env k cwd selected a).
Proof.
  intros [Hc Hm] E. unfold mode_ok in Hm. rewrite E in Hm. unfold key_welcome.
  destruct (is_key KUp k || is_char "k" k); [split; [done|cbn; lia]|].
  destruct (is_key KDown k || is_char "j" k); [split; [done|unfold mode_ok; cbn [input_mode update set_input_mode]; lia]|].
  destruct (is_key KEnter k).
  - destruct (selected =? 0)%nat.
    + unfold approve_workspace. set (a1 := a <| input_mode := ModeNormal |> <| sending_allowed := true |> <| written ::= _ |>).
      split.
      * rewrite (send_keeps composer) by done. by rewrite (refresh_keeps composer).
      * apply mode_normal_ok. rewrite (send_keeps input_mode) by done. by rewrite (refresh_keeps input_mode).
    + split; [done|]. unfold mode_ok. cbn [input_mode update set_quit]. by rewrite E.
  - destruct (is_key KEsc k); [|split; [done|unfold mode_ok; by rewrite E]].
    split; [done|]. unfold mode_ok. cbn [input_mode update set_quit]. by rewrite E.
Qed.

Lemma confirm_mode_ok env k id token a : app_ok a -> input_mode a = ModeConfirm id token -> app_ok (key_confirm env k id token a).
Proof.
  intros [Hc Hm] E. unfold key_confirm. destruct (is_char "1" k || is_char "y" k || is_char "Y" k).
  - split; [rewrite (refresh_keeps composer) by done|apply mode_normal_ok; by rewrite (refresh_keeps input_mode)].
    apply placeholder_wf. cbn. unfold send_confirm. by rewrite (send_keeps composer).
  - destruct (is_char "2" k || is_char "n" k || is_char "N" k || is_key KEsc k); [|by split].
    split; [|by apply mode_normal_ok]. apply placeholder_wf. cbn. unfold send_confirm. by rewrite (send_keeps composer).
Qed.

(** Sending a message or a steering remark keeps the mode and the input. *)
Lemma send_agent_message_spec env t a :
  (connection a = true -> session_id a = None -> title_ok t = true) ->
  exists ok a', send_agent_message env t a = Some (ok, a') /\ composer a' = composer a /\ input_mode a' = input_mode a /\
    ok = connection a /\
    sent a' = (sent a ++ if connection a then [CmAgent [user_text t] (session_id a) (env_cwd env)
                 (if is_empty_str (workspace_id a) then None else Some (workspace_id a))] else [])%list.
Proof.
  intros Ht. unfold send_agent_message. destruct (connection a) eqn:Ec; cbn [negb].
  - destruct (session_id a) as [sid|] eqn:Es.
    + cbn [mbind option_bind]. do 2 eexists. split; [reflexivity|]. cbn. unfold send. rewrite Ec, Es. by split_and!.
    + destruct (set_title_ok t a) as (d & ->); [by apply Ht|]. cbn [mbind option_bind]. do 2 eexists. split; [reflexivity|]. cbn.
      unfold send. cbn. rewrite Ec, Es. by split_and!.
  - do 2 eexists. split; [reflexivity|]. cbn. rewrite app_nil_r. by split_and!.
Qed.

Lemma send_steer_spec t a : let '(ok, a') := send_steer t a in composer a' = composer a /\ input_mode a' = input_mode a /\
  sent a' = (sent a ++ if ok then [CmSteer (default "" (session_id a)) (parse_steer_input t).2 (parse_steer_input t).1] else [])%list.
Proof.
  unfold send_steer. destruct (parse_steer_input t) as [prio content].
  destruct (is_empty_str content); [by rewrite app_nil_r|]. destruct (connection a) eqn:Ec; cbn [negb]; [|by cbn; rewrite app_nil_r].
  destruct (session_id a) as [sid|]; [|by rewrite app_nil_r]. destruct sid as [|c sid]; [by rewrite app_nil_r|].
  destruct (String.eqb prio "now"); cbn; unfold send; rewrite Ec; by cbn.
Qed.

Lemma submitted_ok t a : t = c_text (composer a) -> Composer.wf (composer a) -> Composer.wf (composer (clear_input (remember t a))).
Proof. intros -> Hw. apply clear_wf. by apply remember_wf. Qed.

Lemma input_ok env k a : app_ok a -> key_ok k -> input_mode a = ModeNormal -> (submits_first k a -> title_ok (c_text (composer a)) = true) ->
  exists a', key_input env k a = Some a' /\ app_ok a'.
Proof.
  intros [Hc Hm] Hk E Ht. destruct (handle_key_spec (composer a) k Hc Hk) as (handled & c & Eh & Hw & _ & Hsent & Hcc).
  assert (Ha1 : app_ok (a <| composer := c |>)) by (split; [done|by apply mode_normal_ok]).
  unfold key_input. rewrite Eh. cbn [mbind option_bind].
  destruct handled; cbn [andb]; [|by eexists]. specialize (Hcc eq_refl). subst c. set (a1 := a <| composer := composer a |>) in *.
  symmetry in Hsent. apply andb_true_iff in Hsent as [Hke%bool_decide_eq_true_1 Hne%negb_true_iff].
  destruct (sending_allowed a1) eqn:Eal.
  - destruct (String.eqb (trim (c_text (composer a))) "/plan" || String.eqb (trim (c_text (composer a))) "/plan-end") eqn:Ep.
    + eexists. split; [reflexivity|]. split; [|apply mode_normal_ok; cbn; unfold send_set_mode; by rewrite (send_keeps input_mode)].
      apply submitted_ok; unfold send_set_mode; rewrite (send_keeps composer) by done; done.
    + destruct (send_agent_message_spec env (c_text (composer a)) a1) as (ok & a2 & -> & Ec2 & Em2 & _).
      { intros Hcn Hsid. apply Ht. split_and!; try done. apply orb_false_iff in Ep as [H1%String.eqb_neq H2%String.eqb_neq].
        rewrite !not_elem_of_cons. split_and!; try done; [|apply not_elem_of_nil]. intros E0. by rewrite E0 in Hne. }
      cbn [mbind option_bind]. eexists. split; [reflexivity|]. destruct ok.
      * split; [apply submitted_ok; by rewrite Ec2|apply mode_normal_ok; by cbn; rewrite Em2].
      * split; [by rewrite Ec2|apply mode_normal_ok; by rewrite Em2].
  - destruct (bool_decide (status a1 = Working)); [|by exists a1]. destruct (is_empty_str (trim (c_text (composer a)))); [by exists a1|].
    pose proof (send_steer_spec (trim (c_text (composer a))) a1) as Hs. destruct (send_steer _ a1) as [ok a2].
    destruct Hs as (Ec2 & Em2 & _). eexists. split; [reflexivity|]. destruct ok.
    + split; [apply submitted_ok; by rewrite Ec2|apply mode_normal_ok; by cbn; rewrite Em2].
    + split; [by rewrite Ec2|apply mode_normal_ok; by rewrite Em2].
Qed.

Lemma normal_ok env k a : app_ok a -> key_ok k -> input_mode a = ModeNormal -> (submits_first k a -> title_ok (c_text (composer a)) = true) ->
  exists a', key_normal env k a = Some a' /\ app_ok a'.
Proof.
  intros [Hc Hm] Hk E Ht. unfold key_normal.
  destruct (is_key KBackTab k).
  { eexists. split; [reflexivity|]. unfold send_set_mode. split; [by rewrite (send_keeps composer)|].
    apply mode_normal_ok. by rewrite (send_keeps input_mode). }
  destruct (ctrl "l" k); [eexists; split; [reflexivity|]; split; [done|by apply mode_normal_ok]|].
  destruct (ctrl "r" k).
  { eexists. split; [reflexivity|]. unfold request_sessions. split; [by rewrite (send_keeps composer)|].
    apply mode_normal_ok. by rewrite (send_keeps input_mode). }
  destruct (is_key KEsc k && bool_decide (status a = Working)); [|by apply input_ok].
  eexists. split; [reflexivity|]. unfold send_cancel. destruct (is_empty_str (default "" (session_id a))).
  - split; [done|by apply mode_normal_ok].
  - split; cbn; [by rewrite (send_keeps composer)|apply mode_normal_ok; cbn; by rewrite (send_keeps input_mode)].
Qed.

(** *** A key on the options of a question *)

(** What a key does to an open question with options: the highlight moves (or
    stays), the panel gives way to a free text, or an answer is sent, the panel
    goes and a note follows. *)
Definition question_step (pre post : list ChatLine) (id token : string) (opts : list string) (selected : nat) (k : KeyEvent)
    (a a' : App) : Prop :=
  (exists j, input_mode a' = ModeQuestion id token (Some opts) j (S (length pre)) /\ shows pre post opts j a' /\
     selection_ok opts j /\ sent a' = sent a /\ composer a' = composer a) \/
  (input_mode a' = ModeQuestion id token None 0 0 /\ a_lines a' = (pre ++ post)%list /\ sent a' = sent a /\
     composer a' = Composer.set_placeholder FREE_TEXT (composer a) /\ key_code k = KEnter /\ S selected >= length opts) \/
  (exists answer note, (key_code k = KEsc /\ answer = "" \/ key_code k = KEnter /\ opts !! selected = Some answer) /\
     input_mode a' = ModeNormal /\ a_lines a' = (pre ++ post ++ [note])%list /\
     sent a' = (sent a ++ if connection a then [CmAnswer id token answer] else [])%list /\
     composer a' = Composer.clear (Composer.set_placeholder "" (composer a))).

Section Question.
Context (pre post : list ChatLine) (id token : string) (opts : list string) (selected : nat) (a : App).
Context (Hm : input_mode a = ModeQuestion id token (Some opts) selected (S (length pre))).
Context (Hs : shows pre post opts selected a) (Hsel : selection_ok opts selected).

Lemma stays k : question_step pre post id token opts selected k a a.
Proof. left. exists selected. by split_and!. Qed.

Lemma moves k j : j < length opts -> j <> selected -> selected < length opts ->
  exists a', move_selection id token opts (S (length pre)) selected j a = Some a' /\
    question_step pre post id token opts selected k a a'.
Proof.
  intros Hj Hne Hlt. rewrite (move_shows id token pre post) by (done || lia). eexists. split; [reflexivity|].
  left. exists j. split_and!; try done. by right.
Qed.

Lemma answers k answer note : key_code k = KEsc /\ answer = "" \/ key_code k = KEnter /\ opts !! selected = Some answer ->
  exists a1, drain (S (length pre) - 1) (S (length opts)) (send_answer id token answer a) = Some a1 /\
    question_step pre post id token opts selected k a (finish_question note a1).
Proof.
  intros Ha. rewrite (drain_shows pre post opts selected).
  - eexists. split; [reflexivity|]. right. right. exists answer, note. split; [done|]. unfold send_answer. cbn.
    rewrite (send_keeps composer) by done. rewrite send_sent. split_and!; try done. by rewrite <- app_assoc.
  - unfold shows, send_answer. by rewrite (send_keeps a_lines).
Qed.

Lemma options_step k : exists a', key_options k id token opts selected (S (length pre)) a = Some a' /\
  question_step pre post id token opts selected k a a'.
Proof.
  pose proof (stays k) as Hstay. unfold key_options.
  destruct (is_key KUp k || is_char "k" k).
  { destruct (Nat.ltb_spec 0 selected) as [Hl|Hl]; [|by eexists].
    destruct Hsel as [[-> ->]|Hlt]; [lia|]. apply moves; lia. }
  destruct (is_key KDown k || is_char "j" k).
  { destruct (Nat.ltb_spec (selected + 1) (length opts)) as [Hl|Hl]; [|by eexists]. apply moves; lia. }
  destruct (digit_of k) as [n|].
  { destruct ((1 <=? n)%nat && (n <=? length opts)%nat && negb (n - 1 =? selected)%nat) eqn:En; [|by eexists].
    apply andb_true_iff in En as [[H1%Nat.leb_le H2%Nat.leb_le]%andb_true_iff H3%negb_true_iff%Nat.eqb_neq].
    destruct Hsel as [[-> ->]|Hlt]; [cbn in H2; lia|]. apply moves; lia. }
  unfold is_key. destruct (bool_decide (key_code k = KEnter)) eqn:Ek.
  { apply bool_decide_eq_true_1 in Ek. unfold choose_option.
    destruct (match opts with [] => true | _ => (selected =? length opts - 1)%nat end) eqn:El.
    - cbn [Nat.eqb]. rewrite (drain_shows pre post opts selected) by done. cbn [mbind option_bind].
      eexists. split; [reflexivity|]. right. left. split_and!; try done.
      destruct opts; [cbn; lia|]. apply Nat.eqb_eq in El. rewrite El. lia.
    - assert (Hlt : selected < length opts) by (destruct Hsel as [[-> ->]|]; done).
      destruct (lookup_lt_is_Some_2 _ _ Hlt) as [answer Ho]. rewrite Ho. cbn [mbind option_bind].
      destruct (answers k answer (chat ("  └ Selected: " +:+ answer) (colored Green))) as (a1 & -> & Hstep); [by right|].
      cbn [mbind option_bind]. by eexists. }
  destruct (bool_decide (key_code k = KEsc)) eqn:Ee; [|by eexists].
  apply bool_decide_eq_true_1 in Ee.
  destruct (answers k "" (chat "  └ Cancelled" (colored DarkGray))) as (a1 & -> & Hstep); [by left|].
  cbn [mbind option_bind]. by eexists.
Qed.
End Question.

Lemma free_text_step k id token a : Composer.wf (composer a) -> key_ok k ->
  exists a', key_free_text k id token a = Some a' /\ Composer.wf (composer a') /\
    ((input_mode a' = input_mode a /\ sent a' = sent a /\ a_lines a' = a_lines a) \/
     (exists answer, (key_code k = KEsc /\ answer = "" \/ key_code k = KEnter /\ answer = c_text (composer a)) /\
        input_mode a' = ModeNormal /\ sent a' = (sent a ++ if connection a then [CmAnswer id token answer] else [])%list)).
Proof.
  intros Hc Hk. unfold key_free_text, is_key.
  destruct (bool_decide (key_code k = KEsc)) eqn:Ee.
  { apply bool_decide_eq_true_1 in Ee. eexists. split; [reflexivity|]. unfold send_answer. cbn. split.
    - apply clear_wf, placeholder_wf. by rewrite (send_keeps composer).
    - right. exists "". rewrite send_sent. split_and!; try done. by left. }
  destruct (bool_decide (key_code k = KEnter)) eqn:Ek.
  { apply bool_decide_eq_true_1 in Ek. eexists. split; [reflexivity|]. unfold send_answer. cbn. split.
    - apply clear_wf, placeholder_wf. by rewrite (send_keeps composer).
    - right. exists (c_text (composer a)). rewrite send_sent. split_and!; try done. by right. }
  destruct (handle_key_spec (composer a) k Hc Hk) as (handled & c & -> & Hw & _). cbn [mbind option_bind].
  eexists. split; [reflexivity|]. split; [done|]. left. done.
Qed.

Lemma handle_key_ok env k a : app_ok a -> key_ok k -> (submits_first k a -> title_ok (c_text (composer a)) = true) ->
  exists a', handle_key env k a = Some a' /\ app_ok a'.
Proof.
  intros Hok Hk Ht.
  unfold handle_key. destruct (ctrl "c" k).
  { eexists. split; [reflexivity|]. destruct Hok as [Hc Hm]. split; [done|]. unfold mode_ok in *.
    cbn [input_mode update set_quit]. destruct (input_mode a) as [| | |id token [opts|] selected first_line]; done. }
  destruct (input_mode a) as [|cwd selected|id token|id token [opts|] selected first_line] eqn:Em.
  - by apply normal_ok.
  - eexists. split; [reflexivity|]. by apply welcome_ok.
  - eexists. split; [reflexivity|]. by apply confirm_mode_ok.
  - destruct Hok as [Hc Hm]. unfold mode_ok in Hm. rewrite Em in Hm. destruct Hm as (pre & post & -> & Hs & Hsel).
    destruct (options_step pre post id token opts selected a Em Hs Hsel k) as (a' & -> & Hstep). exists a'. split; [done|].
    destruct Hstep as [(j & Em' & Hs' & Hsel' & _ & Ec')|[(Em' & _ & _ & Ec' & _)|(answer & note & _ & Em' & _ & _ & Ec')]];
      (split; [rewrite Ec'; try done; by apply clear_wf|unfold mode_ok; rewrite Em'; try done]). by exists pre, post.
  - destruct Hok as [Hc Hm]. destruct (free_text_step k id token a Hc Hk) as (a' & -> & Hw & H). exists a'. split; [done|].
    split; [done|]. unfold mode_ok. destruct H as [(Em' & _)|(answer & _ & Em' & _)]; by rewrite Em', ?Em.
Qed.

Lemma submit_panics env k a : submits_first k a -> title_ok (c_text (composer a)) = false -> handle_key env k a = None.
Proof.
  intros (Em & Ek & Eal & Ec & Es & Ht) Hb. unfold handle_key, ctrl, is_char. rewrite Em, Ek. cbn [andb bool_decide].
  rewrite !not_elem_of_cons in Ht. destruct Ht as (H0 & H1 & H2 & _).
  unfold key_normal, is_key, ctrl, is_char. rewrite Ek.
  rewrite !bool_decide_eq_false_2 by done. cbn [andb].
  unfold key_input, Composer.handle_key, Composer.is_char. rewrite Ek, !bool_decide_eq_false_2, !andb_false_r by done.
  cbn [mbind option_bind]. assert (is_empty_str (trim (c_text (composer a))) = false) as -> by by destruct (trim _).
  cbn [negb andb sending_allowed update set_composer]. rewrite Eal. rewrite (proj2 (String.eqb_neq _ _) H1), (proj2 (String.eqb_neq _ _) H2). cbn [orb].
  unfold send_agent_message. cbn [connection session_id update set_composer]. rewrite Ec, Es. cbn [negb]. by rewrite set_title_bad.
Qed.

Lemma stale_panics env k a id token opts selected first_line :
  input_mode a = ModeQuestion id token (Some opts) selected first_line ->
  key_code k = KDown -> S selected < length opts -> length (a_lines a) <= first_line + selected -> handle_key env k a = None.
Proof.
  intros Em Ek Hs Hl. unfold handle_key, key_options, ctrl, is_key, is_char. rewrite Em, Ek.
  rewrite !bool_decide_eq_false_2 by done. rewrite bool_decide_eq_true_2 by done. cbn [andb orb].
  rewrite Nat.add_1_r, (proj2 (Nat.ltb_lt _ _)) by done. unfold move_selection, update_line.
  by rewrite (lookup_ge_None_2 (a_lines a)) by lia.
Qed.

(** ** Properties: keys *)

(** [C13] When a key ends the interface with a panic.  In a well-formed interface
    (an input line as the editor keeps it; an open question whose panel is on the
    screen, with the highlight on one of its options) a key panics in exactly one
    case: it submits the first message of a new session, to which the window
    title is set, and that message is longer than 60 bytes with a character
    across byte 60.  Every other key, in every input mode, leaves a well-formed
    interface again.  The program does not always keep the panel: once the line
    of the highlighted option is gone, moving the highlight down panics. *)
Theorem keys_safe (env : Env) (k : KeyEvent) (a : App) (Hc : Composer.wf (composer a)) (Hk : key_ok k) :
  (mode_ok a ->
     (handle_key env k a = None <->
        submits_first k a /\ 60 < len (c_text (composer a)) /\ char_boundary 60 (c_text (composer a)) = false) /\
     forall a', handle_key env k a = Some a' -> Composer.wf (composer a') /\ mode_ok a') /\
  (forall id token opts selected first_line,
     input_mode a = ModeQuestion id token (Some opts) selected first_line ->
     key_code k = KDown -> S selected < length opts -> length (a_lines a) <= first_line + selected -> handle_key env k a = None).
Proof.
  split; [|by apply stale_panics]. intros Hm. destruct (title_ok (c_text (composer a))) eqn:Et.
  - destruct (handle_key_ok env k a (conj Hc Hm) Hk (fun _ => Et)) as (a' & -> & Ha). split; [|by intros ? [= <-]].
    split; [done|]. intros (_ & Hl & Hb). apply orb_true_iff in Et as [Hle%Nat.leb_le|Hb']; [lia|congruence].
  - assert (Hlb := Et). apply orb_false_iff in Hlb as [Hl%Nat.leb_gt Hb].
    destruct (decide (submits_first k a)) as [Hsub|Hsub].
    + rewrite submit_panics by done. done.
    + destruct (handle_key_ok env k a (conj Hc Hm) Hk) as (a' & -> & Ha); [done|]. split; [|by intros ? [= <-]].
      split; [done|]. by intros (? & _).
Qed.

(** [C14] A question is answered once.  On an open question with options a key
    either quits, or keeps the question with the panel showing the option that
    is now highlighted, or (Enter on the last option) turns it into a free text
    and takes exactly the panel's lines away, sending nothing in these cases; or
    it sends one answer with the question's own identifier and token, the
    highlighted option on Enter and the empty answer on Esc, replaces the panel
    by a note and leaves the question, so that no second answer follows. *)
Theorem question_answered_once (env : Env) (k : KeyEvent) (a : App)
    (pre post : list ChatLine) (id token : string) (opts : list string) (selected : nat)
  (Hm : input_mode a = ModeQuestion id token (Some opts) selected (S (length pre)))
  (Hs : shows pre post opts selected a) (Hsel : selection_ok opts selected) :
  exists a', handle_key env k a = Some a' /\
    (if ctrl "c" k then a' = a <| quit := true |> else question_step pre post id token opts selected k a a').
Proof.
  unfold handle_key. destruct (ctrl "c" k); [by eexists|]. rewrite Hm. by apply options_step.
Qed.

(** ** Lemmas: pieces of an answer *)

Lemma skips_appends content l : whitespace_only content = true -> skips content l = false -> appends l = true.
Proof.
  unfold skips, appends. intros -> H. destruct (last l) as [x|]; [|done]. cbn in H.
  apply orb_false_iff in H as [_ H]. by apply negb_false_iff in H.
Qed.

(** The lines since the anchor was set: nothing written, lines of the assistant
    pushed after [start], or the last line of [start] made longer. *)
Definition since (start : list ChatLine) (o : option StreamAnchor) (l : list ChatLine) : Prop :=
  match o with
  | None => l = start
  | Some (NewLines n) => n = length start /\ exists new x, l = (start ++ new ++ [chat x plain])%list
  | Some (AppendInto i n) =>
      exists l0 t s, start = (l0 ++ [chat t plain])%list /\ i = length l0 /\ n = len t /\
        l = (l0 ++ [chat (t +:+ s) plain])%list /\ starts_with_cont s = false
  end.

Lemma appends_snoc l t : appends (l ++ [chat t plain])%list = true.
Proof. unfold appends. rewrite last_snoc. reflexivity. Qed.

Lemma append_snoc c l t : alter_last (append_text c) (l ++ [chat t plain])%list = (l ++ [chat (t +:+ c) plain])%list.
Proof.
  unfold alter_last. rewrite length_app. replace (length l + length [chat t plain] - 1) with (length l + 0) by (cbn; lia).
  by rewrite alter_app_r.
Qed.

Lemma appends_inv l : appends l = true -> exists l0 t, l = (l0 ++ [chat t plain])%list.
Proof.
  unfold appends. destruct (last l) as [[t s]|] eqn:E; [|done]. intros H%bool_decide_eq_true_1. cbn in H. subst s.
  apply last_Some in E as [l0 ->]. by exists l0, t.
Qed.

Lemma cont_app s c : starts_with_cont s = false -> starts_with_cont c = false -> starts_with_cont (s +:+ c) = false.
Proof. by destruct s. Qed.

Lemma delta_since start a c : text_ok c = true -> since start (stream_anchor a) (a_lines a) ->
  since start (stream_anchor (on_delta c a)) (a_lines (on_delta c a)).
Proof.
  intros Hc%text_ok_false Hs. unfold on_delta.
  destruct (is_tool_json c || skips c (a_lines a)) eqn:Esk; [done|]. apply orb_false_iff in Esk as [_ Esk].
  cbn [stream_anchor a_lines update set_stream_anchor set_a_lines set_status set_agent_phase set_spinner_idx].
  destruct (stream_anchor a) as [[n|i n]|]; cbn [since] in Hs.
  - destruct Hs as (-> & new & x & Hl). split; [done|]. unfold delta_lines. rewrite Hl, app_assoc, appends_snoc, append_snoc.
    exists new, (x +:+ c). by rewrite <- app_assoc.
  - destruct Hs as (l0 & t & s & -> & -> & -> & Hl & Hcs). unfold delta_lines. rewrite Hl, appends_snoc, append_snoc.
    exists l0, t, (s +:+ c). split_and!; try done; [by rewrite app_assoc_str|by apply cont_app].
  - subst start. unfold anchor_for, delta_lines. destruct (appends (a_lines a)) eqn:Ea.
    + apply appends_inv in Ea as (l0 & t & ->). rewrite last_snoc, append_snoc, length_app. exists l0, t, c. split_and!; try done. cbn. lia.
    + destruct (whitespace_only c) eqn:Ew; [by rewrite (skips_appends _ _ Ew Esk) in Ea|]. split; [done|]. by exists [blank], c.
Qed.

Lemma rollback_since start o l : since start o l -> rollback o l = Some start.
Proof.
  destruct o as [[n|i n]|]; cbn [since rollback].
  - intros (-> & new & x & ->). by rewrite firstn_app, firstn_all, Nat.sub_diag, firstn_O, app_nil_r.
  - intros (l0 & t & s & -> & -> & -> & -> & Hcs). rewrite firstn_all2 by (rewrite length_app; cbn; lia).
    rewrite list_lookup_middle by done. unfold truncate_text. cbn [text style chat mbind option_bind]. rewrite app_len.
    destruct (Nat.leb_spec (len t) (len t + len s)) as [_|?]; [|lia]. rewrite boundary_at by (by right). cbn [mbind option_bind].
    rewrite take_app_str. f_equal. by rewrite <- (Nat.add_0_r (length l0)), insert_app_r.
  - by intros ->.
Qed.

(** ** Properties: a retried answer *)

(** The events of a run, as long as none panics. *)
Definition stream (to_string : Value -> string) (from_str : string -> option Value) (env : Env) (es : list TuiEvent) (a : App) : option App :=
  foldl (fun o e => a ← o; handle_stream_event to_string from_str env e a) (Some a) es.

(** A retried answer leaves no trace.  When the model's stream starts (no
    anchor is set), any pieces of an answer followed by a retry leave the lines
    exactly as they were, whether the answer was appended to the assistant's last
    line or opened new ones, whether some pieces were skipped as white space or
    as raw tool calls, and the anchor is clear for the next attempt; the cut is
    always between characters. *)
Theorem retry_restores (to_string : Value -> string) (from_str : string -> option Value) (env : Env)
    (pieces : list string) (attempt : Z) (a : App)
  (Ha : stream_anchor a = None) (Hp : Forall (fun c => text_ok c = true) pieces) :
  exists a', stream to_string from_str env (map TvDelta pieces ++ [TvRetrying attempt]) a = Some a' /\
    a_lines a' = a_lines a /\ stream_anchor a' = None /\ input_mode a' = input_mode a /\ composer a' = composer a.
Proof.
  assert (Hs : since (a_lines a) (stream_anchor a) (a_lines a)) by (by rewrite Ha). clear Ha.
  revert Hs. generalize (a_lines a) at 1 3. intros start. unfold stream. rewrite foldl_app. revert a.
  induction Hp as [|c pieces Hc _ IH]; intros a Hs.
  - cbn [map foldl mbind option_bind handle_stream_event]. unfold on_retrying. rewrite (rollback_since start) by done.
    cbn [mbind option_bind]. by eexists.
  - destruct (IH (on_delta c a) (delta_since start a c Hc Hs)) as (a' & E & Hl & Hn & Hm & Hcm). exists a'.
    cbn [map foldl mbind option_bind handle_stream_event]. split; [exact E|].
    assert (Hk : input_mode (on_delta c a) = input_mode a /\ composer (on_delta c a) = composer a).
    { unfold on_delta. by destruct (is_tool_json c || skips c (a_lines a)). }
    destruct Hk as [Hk1 Hk2]. rewrite <- Hk1, <- Hk2. by split_and!.
Qed.

(** ** Properties: the input *)

(** The message that carries an input to the daemon. *)
Definition carries (t : string) (m : ClientMsg) : Prop :=
  match m with
  | CmAgent [u] _ _ _ => u = user_text t
  | CmSteer _ content priority => parse_steer_input (trim t) = (priority, content)
  | CmSetInteractionMode _ mode => trim t = "/plan" /\ mode = "plan" \/ trim t = "/plan-end" /\ mode = "auto"
  | _ => False
  end.

Definition kept (a a' : App) : Prop := composer a' = composer a /\ sent a' = sent a.
(** The line is empty again, its text in the history and in one message; without
    a connection there is no message, which only the mode commands accept. *)
Definition accepted (a a' : App) : Prop :=
  composer a' = Composer.clear (Composer.add_to_history (c_text (composer a)) (composer a)) /\
  exists m, carries (c_text (composer a)) m /\ sent a' = (sent a ++ if connection a then [m] else [])%list /\
    (connection a = false -> trim (c_text (composer a)) = "/plan" \/ trim (c_text (composer a)) = "/plan-end").

(** Enter never loses what was typed.  In normal mode Enter either leaves
    the input line and the messages as they were, or empties the line, keeps the
    text in the history and sends exactly one message that carries it: to the
    agent when the run is over, as a remark with its priority while the agent
    works, or the change of mode it names.  Without a connection a text stays on
    the line; only /plan and /plan-end are taken without being sent. *)
Theorem enter_keeps_text (env : Env) (control : bool) (a : App)
  (Hm : input_mode a = ModeNormal)
  (Ht : connection a = true -> session_id a = None -> title_ok (c_text (composer a)) = true) :
  exists a', handle_key env {| key_code := KEnter; key_control := control |} a = Some a' /\ (kept a a' \/ accepted a a').
Proof.
  set (k := {| key_code := KEnter; key_control := control |}). unfold handle_key.
  assert (Hn : forall s, is_char s k = false) by (intros s; unfold is_char; by apply bool_decide_eq_false_2).
  unfold ctrl. rewrite Hn. cbn [andb]. rewrite Hm. unfold key_normal, ctrl, is_key. rewrite !Hn. cbn [andb].
  rewrite !bool_decide_eq_false_2 by done. cbn [andb].
  unfold key_input, Composer.handle_key. rewrite !Hn, andb_false_r. cbn [key_code k mbind option_bind].
  set (t := c_text (composer a)) in *. set (a1 := a <| composer := composer a |>).
  assert (Hk : kept a a1) by done.
  destruct (is_empty_str (trim t)) eqn:Et; cbn [negb andb]; [exists a1; split; [done|by left]|].
  destruct (sending_allowed a1) eqn:Es.
  - destruct (String.eqb (trim t) "/plan" || String.eqb (trim t) "/plan-end") eqn:Ep.
    + eexists. split; [reflexivity|]. right. unfold accepted, send_set_mode. cbn [composer sent push clear_input remember update set_a_lines set_composer].
      rewrite (send_keeps composer) by done. rewrite send_sent. split; [done|].
      eexists. split; [|split; [done|]].
      * cbn [carries]. fold t. destruct (String.eqb_spec (trim t) "/plan") as [E|E]; [by left|].
        right. split; [|done]. by apply String.eqb_eq in Ep.
      * intros _. fold t. apply orb_true_iff in Ep as [E%String.eqb_eq|E%String.eqb_eq]; [by left|by right].
    + destruct (send_agent_message_spec env t a1) as (ok & a2 & -> & Ec2 & Em2 & -> & Hs2); [done|]. cbn [mbind option_bind].
      change (connection a1) with (connection a) in *. destruct (connection a) eqn:Hcn.
      * eexists. split; [reflexivity|]. right. unfold accepted. rewrite Hcn. split; [cbn; by rewrite Ec2|]. eexists. split; [|split; [cbn; by rewrite Hs2|done]].
        done.
      * eexists. split; [reflexivity|]. left. split; [done|]. by rewrite Hs2, app_nil_r.
  - destruct (bool_decide (status a1 = Working)); [|exists a1; split; [done|by left]].
    pose proof (send_steer_spec (trim t) a1) as Hss. destruct (send_steer (trim t) a1) as [ok a2] eqn:Eo. destruct Hss as (Ec2 & Em2 & Hs2).
    destruct ok; (eexists; split; [reflexivity|]).
    + right. assert (Hcn : connection a = true).
      { unfold send_steer in Eo. destruct (parse_steer_input (trim t)) as [prio content]. destruct (is_empty_str content); [done|].
        change (connection a1) with (connection a) in Eo. by destruct (connection a). }
      unfold accepted. rewrite Hcn. split; [cbn; by rewrite Ec2|]. eexists. split; [|split; [cbn; by rewrite Hs2|done]]. cbn [carries]. fold t. by destruct (parse_steer_input (trim t)).
    + left. split; [done|]. by rewrite Hs2, app_nil_r.
Qed.

(** ** Witnesses *)

Example app0 : App :=
  {| input_mode := ModeNormal; a_lines := []; a_history := []; needs_finalize := false; inserted_rows := 0; resize_pending := None;
     resize_deadline := None; composer := Composer_new; session_id := Some "s1"; status := IconDone; planning := false; start_time := 0;
     last_elapsed := 0; connection := true; reconnect_attempts := 0; sending_allowed := true;
     llm := {| model_id := "m"; provider := "p" |}; spinner_idx := 0; agent_phase := Reasoning; quit := false; confirm_selected := 0;
     workspace_name := ""; workspace_id := ""; stream_anchor := None; running_background_tasks := 0; last_task_notification := None;
     sent := []; titles := []; written := [] |}.
Example env0 : Env := {| env_cwd := Some "/w"; env_config := None; env_uuid := "u"; env_now := 0 |}.
Example asked : App := on_question "q1" "tok" (Some ["left"; "right"; "Other"]) (push (chat "🔧 ask_user" (colored Yellow)) app0).

Lemma asked_shows : shows [chat "🔧 ask_user" (colored Yellow)] [] ["left"; "right"; "Other"] 0 asked.
Proof. vm_compute. reflexivity. Qed.

Lemma Composer_new_wf : Composer.wf Composer_new.
Proof. by apply (wf_at _ "" ""). Qed.

Lemma asked_ok : app_ok asked.
Proof.
  split; [apply placeholder_wf, Composer_new_wf|]. exists [chat "🔧 ask_user" (colored Yellow)], [].
  split_and!; [done|apply asked_shows|right; vm_compute; lia].
Qed.

Lemma keys_safe_witness :
  handle_key env0 (plain_key KDown) asked <> None /\ handle_key env0 (plain_key KDown) (asked <| a_lines := [] |>) = None.
Proof.
  split.
  - destruct (keys_safe env0 (plain_key KDown) asked (proj1 asked_ok)) as [H _]; [by intros g|].
    intros E. apply (proj1 (H (proj2 asked_ok))) in E as ([Em _] & _). discriminate Em.
  - assert (Hw : Composer.wf (composer (asked <| a_lines := [] |>))) by exact (proj1 asked_ok).
    destruct (keys_safe env0 (plain_key KDown) (asked <| a_lines := [] |>) Hw) as [_ H]; [by intros g|].
    eapply H; [reflexivity|reflexivity|vm_compute; lia|apply Nat.le_0_l].
Defined.

Lemma question_answered_once_witness :
  exists a', handle_key env0 (plain_key KEnter) asked = Some a' /\ sent a' = [CmAnswer "q1" "tok" "left"] /\ input_mode a' = ModeNormal.
Proof.
  destruct (question_answered_once env0 (plain_key KEnter) asked [chat "🔧 ask_user" (colored Yellow)] [] "q1" "tok"
    ["left"; "right"; "Other"] 0) as (a' & E & H); [done|apply asked_shows|right; vm_compute; lia|].
  exists a'. split; [exact E|]. assert (E' := E). vm_compute in E'. injection E' as <-. split; reflexivity.
Defined.

Lemma retry_restores_witness :
  exists a', stream (fun _ => "") (fun _ => None) env0 (map TvDelta ["Hel"; "lo"; " "] ++ [TvRetrying 1]) asked = Some a' /\
    a_lines a' = a_lines asked.
Proof.
  destruct (retry_restores (fun _ => "") (fun _ => None) env0 ["Hel"; "lo"; " "] 1 asked) as (a' & E & Hl & _); [done|by repeat constructor|].
  by exists a'.
Defined.

Example typed : App := app0 <| composer := with_text "fix it" 6 Composer_new |>.
Lemma enter_keeps_text_witness :
  exists a', handle_key env0 (plain_key KEnter) typed = Some a' /\
    sent a' = [CmAgent [user_text "fix it"] (Some "s1") (Some "/w") None] /\ c_text (composer a') = "".
Proof.
  destruct (enter_keeps_text env0 false typed) as (a' & E & H); [done|done|].
  exists a'. split; [exact E|]. unfold plain_key in E. assert (E' := E). vm_compute in E'. injection E' as <-. split; reflexivity.
Defined.

(** ** Behaviours worth knowing *)

(** A question that is still open when the turn's lines are archived: the next
    arrow key indexes a line that is gone. *)
Example stale_question_panics :
  let a := (finalize_active_turn (fun l => l) asked []).1 in handle_key env0 (plain_key KDown) a = None.
Proof. vm_compute. reflexivity. Qed.

(** A piece of an answer that arrives while a question is open is written into
    the question's last option. *)
Example delta_into_option :
  text <$> last (a_lines (on_delta "thinking" asked)) = Some "  3. Otherthinking".
Proof. vm_compute. reflexivity. Qed.

(** A first message with a character across byte 60. *)
Example title_cut_panics :
  set_terminal_title ("0123456789012345678901234567890123456789012345678901234567" +:+ "语言") app0 = None.
Proof. vm_compute. reflexivity. Qed.
