(* ===== verification/Config.v ===== *)
(** * The configuration

    src/kernel/src/palaces/kun_config/mod.rs: the sections of the configuration
    file with their defaults, the resolved configuration, and the choice of a
    provider.  The TOML text is read by the toml library, which comes as an
    argument, as do the environment's variables and Unicode upper case.  Maps are
    kept as lists in the order they are iterated. *)

From stdpp Require Import sorting.
From S2P Require Import Prelude RString Float Path Json.
Local Open Scope string_scope.
#[local] Arguments String.append !_ _ : simpl nomatch.

(** ** Sections *)

Record ServerSection := { server_host : string; server_port : Z; server_web_dir : option string }.
Definition default_host : string := "127.0.0.1".
Definition default_port : Z := 3000.
Definition ServerSection_default : ServerSection :=
  {| server_host := default_host; server_port := default_port; server_web_dir := None |}.

Record LlmSection := {
  llm_default_main_model_provider : option string; llm_default_aux_model_provider : option string; llm_system_prompt : option string
}.

Definition DEFAULT_SYSTEM_PROMPT : string :=
  "You are Jia (甲), Just Intelligence Agent (正是智能体). Respond concisely and directly.".

Record ProviderProfile := {
  kind : string;
  models : list string;
  default_main_model_opt : option string;
  default_aux_model : option string;
  api_key : string;
  base_url : string;
  max_tokens : option Z;
  context_window : option Z;
  priority : option Z;
  cost_multiplier : option spec_float
}.

Definition default_main_model (p : ProviderProfile) : string :=
  default (default "" (head (models p))) (default_main_model_opt p).

Record HookConfig := { hook_event : string; hook_tool_pattern : option string; hook_command : string; hook_block_on_exit : bool }.

Inductive SandboxMode := Required | BestEffort | Disabled.

Record SandboxSection := {
  backend : string; timeout_seconds : Z; memory_limit_mb : Z; max_processes : Z; file_size_limit_mb : Z; network_enabled : bool;
  docker_image : string; cpu_limit : spec_float
}.
Definition SandboxSection_default : SandboxSection :=
  {| backend := "process"; timeout_seconds := 30; memory_limit_mb := 512; max_processes := 50; file_size_limit_mb := 100;
     network_enabled := false; docker_image := "alpine:3.20"; cpu_limit := F64.of_Z 1 |}.

Record SecuritySection := {
  workspace_root : option string;
  allowed_paths : list string;
  blocked_path_prefixes : list string;
  command_allowlist : list string;
  command_blocklist : list string;
  deny_rules : list string;
  confirmation_timeout_secs : Z;
  sandbox_mode : SandboxMode;
  max_context_tokens : Z;
  compaction_threshold : spec_float;
  security_api_key : option string;
  rate_limit_per_minute : Z;
  sandbox : SandboxSection
}.
Definition default_blocked_prefixes : list string := [".git"; ".env"].
Definition default_blocked_commands : list string := ["rm -rf /"; "mkfs."; "dd if="; "sudo rm"].
Definition SecuritySection_default : SecuritySection :=
  {| workspace_root := None; allowed_paths := []; blocked_path_prefixes := default_blocked_prefixes; command_allowlist := [];
     command_blocklist := default_blocked_commands; deny_rules := []; confirmation_timeout_secs := 30; sandbox_mode := Required;
     max_context_tokens := 8192; compaction_threshold := F64.lit 3 4; security_api_key := None; rate_limit_per_minute := 30;
     sandbox := SandboxSection_default |}.

Definition with_api_key (k : string) (s : SecuritySection) : SecuritySection :=
  {| workspace_root := workspace_root s; allowed_paths := allowed_paths s; blocked_path_prefixes := blocked_path_prefixes s;
     command_allowlist := command_allowlist s; command_blocklist := command_blocklist s; deny_rules := deny_rules s;
     confirmation_timeout_secs := confirmation_timeout_secs s; sandbox_mode := sandbox_mode s; max_context_tokens := max_context_tokens s;
     compaction_threshold := compaction_threshold s; security_api_key := Some k; rate_limit_per_minute := rate_limit_per_minute s;
     sandbox := sandbox s |}.

Record TelegramBotConfig := { telegram_token : string; allowed_chat_ids : list string }.
Record WeChatBotConfig := {
  account_id : string; wechat_token : string; wechat_base_url : string; dm_policy : string; group_policy : string; allowed_users : string
}.
Record BotsSection := { telegram : option TelegramBotConfig; wechat : option WeChatBotConfig }.

Record McpServerConfig := {
  mcp_name : string; mcp_command : string; mcp_args : list string; mcp_env : list (string * string); sandbox_params : list string;
  read_only_tools : list string; isolated : bool; mcp_timeout_secs : Z
}.

Record CognitionSection := {
  certainty_enabled : bool; coactivation_enabled : bool; observation_enabled : bool; checklist_enabled : bool; reset_enabled : bool
}.
Definition CognitionSection_default : CognitionSection :=
  {| certainty_enabled := true; coactivation_enabled := true; observation_enabled := true; checklist_enabled := true; reset_enabled := true |}.

Record AgentSection := { max_turns : Z; verify_on_stop : bool }.
Definition AgentSection_default : AgentSection := {| max_turns := 50; verify_on_stop := false |}.

Record JiaToml := {
  toml_server : ServerSection; toml_llm : LlmSection; toml_providers : list (string * ProviderProfile); toml_security : SecuritySection;
  toml_mcp_servers : list McpServerConfig; toml_bots : BotsSection; toml_hooks : list HookConfig; toml_cognition : CognitionSection;
  toml_agent : AgentSection
}.

Record AppConfig := {
  host : string; port : Z; web_dir : option string; providers : list (string * ProviderProfile);
  default_main_model_provider : option string; default_aux_model_provider : option string; system_prompt : string;
  security : SecuritySection; mcp_servers : list McpServerConfig; bots : BotsSection; hooks : list HookConfig;
  cognition : CognitionSection; agent : AgentSection
}.

(** ** Directories *)

Section Env.
Context (env : string -> option string).

Definition home_dir : string :=
  default "." (match env "HOME" with Some h => Some h | None => env "USERPROFILE" end).
Definition default_data_dir : string := default (path_join home_dir ".jia") (env "JIA_HOME").
Definition pid_file_path : string := path_join default_data_dir "gateway.pid".
Definition default_workspace_dir : string := default (path_join home_dir "Documents/jia-workspace") (env "JIA_WORKSPACE").

(** ** Loading *)

Definition with_provider_key (k : string) (p : ProviderProfile) : ProviderProfile :=
  {| kind := kind p; models := models p; default_main_model_opt := default_main_model_opt p; default_aux_model := default_aux_model p;
     api_key := k; base_url := base_url p; max_tokens := max_tokens p; context_window := context_window p; priority := priority p;
     cost_multiplier := cost_multiplier p |}.

(** A variable that is set to something. *)
Definition env_key (name : string) : option string := k ← env name; if is_empty_str k then None else Some k.

Context (to_uppercase : string -> string).
Definition provider_key (np : string * ProviderProfile) : string * ProviderProfile :=
  let '(name, p) := np in
  (name, match env_key (to_uppercase name +:+ "_API_KEY") with Some k => with_provider_key k p | None => p end).

(** The checks on a parsed file, in the order they are made. *)
Definition validate (file : string) (t : JiaToml) : result string unit :=
  match toml_providers t with
  | [] => Err ("Config file " +:+ file +:+ " has no [providers] section")
  | _ =>
      match List.find (fun np => match models np.2 with [] => true | _ => false end) (toml_providers t) with
      | Some (name, _) => Err ("Provider '" +:+ name +:+ "' in " +:+ file +:+ " has empty models list")
      | None =>
          match llm_default_main_model_provider (toml_llm t) with
          | Some dp =>
              if bool_decide (is_Some (assoc dp (toml_providers t))) then Ok tt
              else Err ("Config file " +:+ file +:+ ": default_provider '" +:+ dp +:+ "' not found in [providers] section")
          | None => Ok tt
          end
      end
  end.

Definition resolve (host_override : option string) (port_override : option Z) (t : JiaToml) : AppConfig :=
  let s := toml_security t in
  {| host := default (server_host (toml_server t)) host_override;
     port := default (server_port (toml_server t)) port_override;
     web_dir := server_web_dir (toml_server t);
     providers := map provider_key (toml_providers t);
     default_main_model_provider := llm_default_main_model_provider (toml_llm t);
     default_aux_model_provider := llm_default_aux_model_provider (toml_llm t);
     system_prompt := default DEFAULT_SYSTEM_PROMPT (llm_system_prompt (toml_llm t));
     security := match env_key "JIA_API_KEY" with Some k => with_api_key k s | None => s end;
     mcp_servers := toml_mcp_servers t; bots := toml_bots t; hooks := toml_hooks t; cognition := toml_cognition t; agent := toml_agent t |}.

(** [read] gives the text of a file or the error, [parse] its sections. *)
Definition config_file (exists_file : string -> bool) (cwd : string) (config_path : option string) : string :=
  match config_path with
  | Some p => p
  | None =>
      let cwd_cfg := path_join cwd "config.toml" in
      if exists_file cwd_cfg then cwd_cfg else path_join default_data_dir "config.toml"
  end.

Definition load (exists_file : string -> bool) (read : string -> result string string) (parse : string -> result string JiaToml)
    (cwd : string) (config_path host_override : option string) (port_override : option Z) : result string AppConfig :=
  let file := config_file exists_file cwd config_path in
  match read file with
  | Err e => Err ("Cannot read config file " +:+ file +:+ ": " +:+ e)
  | Ok text =>
      match parse text with
      | Err e => Err ("Invalid config file " +:+ file +:+ ": " +:+ e)
      | Ok t => match validate file t with Err e => Err e | Ok _ => Ok (resolve host_override port_override t) end
      end
  end.
End Env.

(** ** Providers *)

Definition provider_names (c : AppConfig) : list string := stable_sort String.le (map fst (providers c)).

(** The configured name or the first one; [None] is the panic of an empty list. *)
Definition default_main_provider_name (c : AppConfig) : option string :=
  match default_main_model_provider c with Some n => Some n | None => head (provider_names c) end.

Definition provider (name : string) (c : AppConfig) : option (result string ProviderProfile) :=
  default_name ← default_main_provider_name c;
  Some (match assoc name (providers c) with
        | Some p => Ok p
        | None => match assoc default_name (providers c) with
                  | Some p => Ok p
                  | None => Err ("no provider '" +:+ name +:+ "' or default provider '" +:+ default_name +:+ "'")
                  end
        end).

Definition default_main_provider (c : AppConfig) : option (result string ProviderProfile) :=
  name ← default_main_provider_name c; provider name c.

(** ** Lemmas *)

Lemma assoc_map_key {A B} (f : string -> A -> B) k (l : list (string * A)) :
  assoc k (map (fun np => (np.1, f np.1 np.2)) l) = f k <$> assoc k l.
Proof.
  induction l as [|[n x] l IH]; [done|]. cbn [map assoc fst snd]. destruct (String.eqb_spec k n) as [->|]; [done|exact IH].
Qed.

Lemma assoc_in k (l : list string) {A} (m : list (string * A)) : l = map fst m -> k ∈ l -> is_Some (assoc k m).
Proof.
  intros ->. induction m as [|[n x] m IH]; cbn [map fst assoc]; [by intros ?%elem_of_nil|]. intros [->|H]%elem_of_cons.
  - rewrite String.eqb_refl. by eexists.
  - destruct (String.eqb k n); [by eexists|by apply IH].
Qed.

Lemma assoc_elem {A} k (x : A) (m : list (string * A)) : assoc k m = Some x -> (k, x) ∈ m.
Proof.
  induction m as [|[n y] m IH]; [done|]. cbn [assoc]. destruct (String.eqb_spec k n) as [->|]; [intros [= ->]; left|intros H; right; by apply IH].
Qed.

Section Loaded.
Context (env : string -> option string) (to_uppercase : string -> string).

Lemma provider_key_names l : map fst (map (provider_key env to_uppercase) l) = map fst l.
Proof. rewrite map_map. apply map_ext. intros [n p]. done. Qed.

Lemma provider_key_models np : models (provider_key env to_uppercase np).2 = models np.2.
Proof. destruct np as [n p]. cbn. by destruct (env_key env _). Qed.

(** What validation gives. *)
Lemma validate_ok file t : validate file t = Ok tt ->
  toml_providers t <> [] /\ (forall np, np ∈ toml_providers t -> models np.2 <> []) /\
  (forall dp, llm_default_main_model_provider (toml_llm t) = Some dp -> is_Some (assoc dp (toml_providers t))).
Proof.
  unfold validate. destruct (toml_providers t) as [|np0 l] eqn:El; [done|]. rewrite <- El.
  destruct (List.find _ _) as [[n p]|] eqn:Ef; [done|]. intros H. split_and!; [by rewrite El| |].
  - intros np Hin Hm. apply list_elem_of_In in Hin. pose proof (List.find_none _ _ Ef np Hin) as Hn. cbn in Hn. by rewrite Hm in Hn.
  - intros dp Hdp. rewrite Hdp in H. destruct (bool_decide (is_Some (assoc dp (toml_providers t)))) eqn:E; [|done].
    by apply bool_decide_eq_true_1 in E.
Qed.
End Loaded.

(** ** Properties *)

(** A configuration that loads can run.  Whatever the file, the environment
    and the overrides, a loaded configuration has a default provider: its name
    exists (no panic on an empty list), it resolves to a profile of the
    configuration, the profile lists at least one model, and every other name
    resolves too, to its own profile or to the default. *)
Theorem load_has_provider (env : string -> option string) (to_uppercase : string -> string) (exists_file : string -> bool)
    (read : string -> result string string) (parse : string -> result string JiaToml)
    (cwd : string) (config_path host_override : option string) (port_override : option Z) (c : AppConfig)
  (Hload : load env to_uppercase exists_file read parse cwd config_path host_override port_override = Ok c) :
  exists name p, default_main_provider_name c = Some name /\ default_main_provider c = Some (Ok p) /\ (name, p) ∈ providers c /\
    models p <> [] /\
    forall other, exists q, provider other c = Some (Ok q) /\ (assoc other (providers c) = Some q \/ assoc other (providers c) = None /\ q = p).
Proof.
  unfold load in Hload. set (file := config_file _ _ _ _) in *. clearbody file.
  destruct (read file) as [text|]; [|done]. destruct (parse text) as [t|]; [|done].
  destruct (validate file t) as [[]|] eqn:Ev; [|done]. injection Hload as <-. apply validate_ok in Ev as (Hne & Hm & Hd).
  set (c := resolve _ _ _ _ t).
  assert (Hnames : map fst (providers c) = map fst (toml_providers t)) by apply provider_key_names.
  assert (Hall : forall k x, assoc k (providers c) = Some x -> models x <> []).
  { intros k x Hx%assoc_elem%list_elem_of_In. apply in_map_iff in Hx as (np & E & Hin). apply list_elem_of_In in Hin.
    change x with ((k, x).2). rewrite <- E, provider_key_models. by apply Hm. }
  assert (Hname : exists name, default_main_provider_name c = Some name /\ is_Some (assoc name (providers c))).
  { unfold default_main_provider_name. change (default_main_model_provider c) with (llm_default_main_model_provider (toml_llm t)).
    destruct (llm_default_main_model_provider (toml_llm t)) as [dp|] eqn:Edp.
    - exists dp. split; [done|]. apply (assoc_in dp (map fst (providers c))); [done|]. rewrite Hnames.
      destruct (Hd dp eq_refl) as [x Hx]. apply assoc_elem in Hx. apply list_elem_of_In, in_map_iff. exists (dp, x). by rewrite <- list_elem_of_In.
    - destruct (provider_names c) as [|n l] eqn:En.
      + exfalso. apply Hne. unfold provider_names in En. assert (Hp : map fst (providers c) ≡ₚ []).
        { rewrite <- En. symmetry. apply stable_sort_Permutation. }
        symmetry in Hp. apply Permutation_nil in Hp. rewrite Hnames in Hp. by apply map_eq_nil in Hp.
      + exists n. split; [done|]. apply (assoc_in n (map fst (providers c))); [done|].
        assert (Hin : n ∈ provider_names c) by (rewrite En; left). unfold provider_names in Hin. by rewrite stable_sort_Permutation in Hin. }
  destruct Hname as (name & Hn & p & Hp). exists name, p. unfold default_main_provider, provider. rewrite Hn. cbn [mbind option_bind].
  rewrite Hp. split_and!; [done|done|by apply assoc_elem|by apply (Hall name)|].
  intros other. destruct (assoc other (providers c)) as [q|] eqn:Eq; [exists q; split; [done|by left]|]. exists p. by split; [|right].
Qed.

Example profile0 : ProviderProfile :=
  {| kind := "openai"; models := ["gpt"]; default_main_model_opt := None; default_aux_model := None; api_key := "k"; base_url := "u";
     max_tokens := None; context_window := None; priority := None; cost_multiplier := None |}.
Example toml0 : JiaToml :=
  {| toml_server := ServerSection_default;
     toml_llm := {| llm_default_main_model_provider := None; llm_default_aux_model_provider := None; llm_system_prompt := None |};
     toml_providers := [("zeta", profile0); ("alpha", profile0)]; toml_security := SecuritySection_default; toml_mcp_servers := [];
     toml_bots := {| telegram := None; wechat := None |}; toml_hooks := []; toml_cognition := CognitionSection_default;
     toml_agent := AgentSection_default |}.
Example config0 : AppConfig := resolve (fun _ => None) (fun s => s) None None toml0.

Lemma load_has_provider_witness :
  load (fun _ => None) (fun s => s) (fun _ => true) (fun _ => Ok "") (fun _ => Ok toml0) "/w" None None None = Ok config0 /\
  exists p, default_main_provider config0 = Some (Ok p) /\ default_main_provider_name config0 = Some "alpha".
Proof.
  split; [reflexivity|].
  destruct (load_has_provider (fun _ => None) (fun s => s) (fun _ => true) (fun _ => Ok "") (fun _ => Ok toml0) "/w" None None None config0
    eq_refl) as (name & p & Hn & Hp & _).
  exists p. split; [exact Hp|]. vm_compute. reflexivity.
Defined.
