(* ===== verification/Gateway.v ===== *)
(** * The gateway: access, cancellation and replies

    src/kernel/src/palaces/dui_gateway/: the rate limiter and the key check
    (auth.rs), the table of running sessions (mod.rs), and the HTTP handlers that
    resolve confirmations and questions, cancel, steer, list and delete sessions
    (confirm.rs, events.rs, sessions.rs).  One daemon state is shared with the
    terminal's socket (Rin).  Addresses as text, the choice among equally old
    rate buckets and the session store are arguments. *)

From S2P Require Import Prelude Update RString Float Json Loop Wire Completion.
From S2P Require SessionBus.
From Stdlib Require Import Ascii.
Local Open Scope string_scope.
Local Open Scope update_scope.
#[local] Arguments String.append !_ _ : simpl nomatch.

(** ** The rate limiter *)

Record TokenBucket := { tokens : spec_float; last_refill : Z }.
Record RateLimiter := { buckets : gmap string TokenBucket; rate : Z; capacity : Z; check_count : Z; max_buckets : nat }.

Definition RateLimiter_new (requests_per_minute : Z) : RateLimiter :=
  {| buckets := ∅; rate := requests_per_minute; capacity := requests_per_minute; check_count := 0; max_buckets := 10000 |}.

(** Instants are nanoseconds; [duration_since] is never negative. *)
Definition duration_since (now before : Z) : Z := Z.max 0 (now - before).
Definition as_secs_f64 (d : Z) : spec_float :=
  F64.add (F64.of_Z (d / 10 ^ 9)) (F64.div (F64.of_Z (d mod 10 ^ 9)) (F64.of_Z (10 ^ 9))).

Section Limiter.
(** The key of a bucket with the least [last_refill]. *)
Context (oldest : gmap string TokenBucket -> option string).

Definition cleanup (now count : Z) (b : gmap string TokenBucket) : gmap string TokenBucket :=
  if (count mod 100 =? 0)%Z then filter (fun kv => (duration_since now (last_refill kv.2) < 300 * 10 ^ 9)%Z) b else b.

Definition make_room (max : nat) (ip : string) (b : gmap string TokenBucket) : gmap string TokenBucket :=
  if (max <=? size b)%nat && negb (bool_decide (is_Some (b !! ip)))
  then match oldest b with Some k => delete k b | None => b end else b.

Definition refilled (r : RateLimiter) (now : Z) (t : TokenBucket) : spec_float :=
  let elapsed := as_secs_f64 (duration_since now (last_refill t)) in
  let refill := F64.mul elapsed (F64.div (F64.of_Z (rate r)) (F64.of_Z 60)) in
  fmin (F64.add (tokens t) refill) (F64.of_Z (capacity r)).

Definition check (now : Z) (ip : string) (r : RateLimiter) : bool * RateLimiter :=
  if (rate r =? 0)%Z then (true, r)
  else
    let count := (check_count r + 1)%Z in
    let b := make_room (max_buckets r) ip (cleanup now count (buckets r)) in
    let t := default {| tokens := F64.of_Z (capacity r); last_refill := now |} (b !! ip) in
    let level := refilled r now t in
    let allowed := fgeb level (F64.of_Z 1) in
    let left := if allowed then F64.sub level (F64.of_Z 1) else level in
    (allowed, {| buckets := <[ip := {| tokens := left; last_refill := now |}]> b; rate := rate r; capacity := capacity r;
                 check_count := count; max_buckets := max_buckets r |}).
End Limiter.

(** ** The key check *)

Definition bytes_of (s : string) : list nat := map byte_val (String.list_ascii_of_string s).

(** The differences are gathered over the whole length before the comparison. *)
Definition constant_time_eq (a b : list nat) : bool :=
  if negb (length a =? length b)%nat then false
  else (foldl (fun acc '(x, y) => Nat.lor acc (Nat.lxor x y)) 0 (zip a b) =? 0)%nat.

Inductive Ip := V4 (a b c d : Z) | V6 (segments : list Z).
Definition is_loopback (ip : Ip) : bool :=
  match ip with V4 a _ _ _ => (a =? 127)%Z | V6 l => bool_decide (l = [0; 0; 0; 0; 0; 0; 0; 1]%Z) end.

(** What the middleware reads of a request: its path, the peer's address, and
    the header values that are text. *)
Record Request := {
  path : string; peer : option Ip; authorization : option string;
  x_forwarded_for : option string; x_real_ip : option string
}.

Inductive Verdict := Passed | Rejected (status : Z) (message : string).

Definition public_path (p : string) : bool :=
  String.eqb p "/" || starts_with p "/static/" || starts_with p "/assets/" || String.eqb p "/auth/session" ||
  String.eqb p "/health" || String.eqb p "/favicon.svg" || String.eqb p "/icons.svg".

Definition auth_middleware (api_key : option string) (q : Request) : Verdict :=
  if public_path (path q) then Passed
  else if String.eqb (path q) "/events" && bool_decide (is_Some api_key) then Passed
  else match api_key with
       | None =>
           if is_loopback (default (V4 0 0 0 0) (peer q)) then Passed else Rejected 401 "API key required for remote access"
       | Some expected_key =>
           let authorized :=
             default false ((fun token => constant_time_eq (bytes_of token) (bytes_of expected_key)) <$>
                            (v ← authorization q; strip_prefix_str v "Bearer ")) in
           if authorized then Passed else Rejected 401 ""
       end.

(** The client a request is counted for. *)
Definition client_key (show : Ip -> string) (q : Request) : string :=
  let addr := peer_text ← show <$> peer q;
              if String.eqb peer_text "127.0.0.1" || String.eqb peer_text "::1" then None else Some peer_text in
  let forwarded := v ← x_forwarded_for q; s ← head (split_char "," v); Some (trim s) in
  default "127.0.0.1" (match addr with Some a => Some a | None => match forwarded with Some f => Some f | None => x_real_ip q end end).

Definition rate_limit_middleware (oldest : gmap string TokenBucket -> option string) (show : Ip -> string) (now : Z) (q : Request)
    (r : RateLimiter) : Verdict * RateLimiter :=
  let '(ok, r) := check oldest now (client_key show q) r in
  (if (ok : bool) then Passed else Rejected 429 "rate limit exceeded", r).

(** The key is given to local clients only. *)
Definition handle_auth_session (ip : Ip) (api_key : option string) : Verdict * option Value :=
  if negb (is_loopback ip) then (Rejected 403 "", None)
  else match api_key with Some token => (Passed, Some (Obj [("token", Str token)])) | None => (Rejected 404 "", None) end.

(** ** The daemon *)

Record SessionInfo := { si_id : string; si_provider : string; si_model : string; si_created_at : Z }.

(** A question or a confirmation that waits; its sender is known by the entry's
    identifier. *)
Record Pending := { p_token : string; p_created_at : Z; p_session : string }.

(** [d_confirmed], [d_answered] and [d_dropped] are what the waiting side has
    received: replies by identifier, and senders dropped without one. *)
Record Daemon := {
  d_tokens : gmap string (nat * SessionInfo);
  d_cancelled : gset nat;
  d_questions : gmap string Pending;
  d_confirmations : gmap string Pending;
  d_modes : gmap string InteractionMode;
  d_bus : SessionBus.SessionBus;
  d_checklist : SessionVectors;
  d_confirmed : list (string * bool);
  d_answered : list (string * string);
  d_dropped : list string
}.

Definition Daemon_eta (d : Daemon) : Daemon :=
  {| d_tokens := d_tokens d; d_cancelled := d_cancelled d; d_questions := d_questions d; d_confirmations := d_confirmations d;
     d_modes := d_modes d; d_bus := d_bus d; d_checklist := d_checklist d; d_confirmed := d_confirmed d; d_answered := d_answered d;
     d_dropped := d_dropped d |}.
#[export] Instance set_d_tokens : Setter d_tokens. Proof. derive_setter Daemon_eta. Defined.
#[export] Instance set_d_cancelled : Setter d_cancelled. Proof. derive_setter Daemon_eta. Defined.
#[export] Instance set_d_questions : Setter d_questions. Proof. derive_setter Daemon_eta. Defined.
#[export] Instance set_d_confirmations : Setter d_confirmations. Proof. derive_setter Daemon_eta. Defined.
#[export] Instance set_d_modes : Setter d_modes. Proof. derive_setter Daemon_eta. Defined.
#[export] Instance set_d_bus : Setter d_bus. Proof. derive_setter Daemon_eta. Defined.
#[export] Instance set_d_checklist : Setter d_checklist. Proof. derive_setter Daemon_eta. Defined.
#[export] Instance set_d_confirmed : Setter d_confirmed. Proof. derive_setter Daemon_eta. Defined.
#[export] Instance set_d_answered : Setter d_answered. Proof. derive_setter Daemon_eta. Defined.
#[export] Instance set_d_dropped : Setter d_dropped. Proof. derive_setter Daemon_eta. Defined.

(** *** Running sessions *)

Definition register (sid : string) (token : nat) (provider model : string) (now : Z) (d : Daemon) : Daemon :=
  d <| d_tokens ::= <[sid := (token, {| si_id := sid; si_provider := provider; si_model := model; si_created_at := now |})]> |>.
Definition cancel (sid : string) (d : Daemon) : Daemon :=
  match d_tokens d !! sid with
  | Some (token, _) => d <| d_tokens ::= delete sid |> <| d_cancelled ::= fun s => {[token]} ∪ s |>
  | None => d
  end.
Definition remove (sid : string) (d : Daemon) : Daemon := d <| d_tokens ::= delete sid |>.
Definition active_count (d : Daemon) : nat := size (d_tokens d).
Definition list_active (d : Daemon) : list SessionInfo := (fun kv => kv.2.2) <$> map_to_list (d_tokens d).

(** *** Replies

    The entry is taken out of its table before the token is compared. *)

Inductive Resolution := Delivered | TokenMismatch | NotFound.

Definition resolve_confirm (id token : string) (approved : bool) (d : Daemon) : Resolution * Daemon :=
  match d_confirmations d !! id with
  | Some p =>
      let d := d <| d_confirmations ::= delete id |> in
      if String.eqb (p_token p) token then (Delivered, d <| d_confirmed ::= fun l => (l ++ [(id, approved)])%list |>)
      else (TokenMismatch, d <| d_dropped ::= fun l => (l ++ [id])%list |>)
  | None => (NotFound, d)
  end.

Definition resolve_answer (id token answer : string) (d : Daemon) : Resolution * Daemon :=
  match d_questions d !! id with
  | Some p =>
      let d := d <| d_questions ::= delete id |> in
      if String.eqb (p_token p) token then (Delivered, d <| d_answered ::= fun l => (l ++ [(id, answer)])%list |>)
      else (TokenMismatch, d <| d_dropped ::= fun l => (l ++ [id])%list |>)
  | None => (NotFound, d)
  end.

Definition resolution_json (r : Resolution) : Value :=
  match r with
  | Delivered => Obj [("resolved", Bool true); ("status", Str "ok")]
  | TokenMismatch => Obj [("resolved", Bool false); ("status", Str "token_mismatch")]
  | NotFound => Obj [("resolved", Bool false); ("status", Str "not_found")]
  end.

Definition not_initialized : Value := Obj [("error", Str "Agent not initialized")].

(** The handlers; [None] is a daemon without an agent. *)
Definition handle_confirm (id token : string) (approved : bool) (earth : option Daemon) : Value * option Daemon :=
  match earth with
  | None => (not_initialized, None)
  | Some d => let '(r, d) := resolve_confirm id token approved d in (resolution_json r, Some d)
  end.
Definition handle_answer (id token answer : string) (earth : option Daemon) : Value * option Daemon :=
  match earth with
  | None => (not_initialized, None)
  | Some d => let '(r, d) := resolve_answer id token answer d in (resolution_json r, Some d)
  end.

(** *** Cancel and steer *)

Definition handle_cancel (sid : string) (d : Daemon) : Z * Daemon := (200%Z, cancel sid d).

Definition steer_priority (p : option string) : SessionBus.SteerPriority :=
  match p with
  | Some p => if String.eqb p "now" then SessionBus.Now else if String.eqb p "later" then SessionBus.Later else SessionBus.Next
  | None => SessionBus.Next
  end.

(** The remark goes into the session's queue; [Now] also cancels the run. *)
Definition steer (sid content : string) (p : SessionBus.SteerPriority) (d : Daemon) : Daemon :=
  let d := d <| d_bus ::= SessionBus.push_steer sid {| SessionBus.content := content; SessionBus.priority := p |} |> in
  match p with SessionBus.Now => cancel sid d | _ => d end.

Definition handle_steer (sid content : string) (priority : option string) (earth : option Daemon) : Z * option Daemon :=
  if is_empty_str sid || is_empty_str (trim content) then (400%Z, earth)
  else match earth with
       | None => (503%Z, None)
       | Some d => (200%Z, Some (steer sid content (steer_priority priority) d))
       end.

(** *** Sessions *)

Definition sweep_destroyed_sessions (ids : list string) (d : Daemon) : Daemon :=
  d <| d_bus ::= fun b => foldl (fun b id => SessionBus.clear_criteria id (SessionBus.clear_session_approvals id b)) b ids |>.

(** The responses: a value, or a status with a message. *)
Definition Response : Type := result (Z * string) Value.
Definition internal_error (e : string) : Z * string := (500%Z, e).

Definition handle_delete_session (deleted : result string unit) (id : string) (d : Daemon) : Response * Daemon :=
  match deleted with
  | Err e => (Err (internal_error e), d)
  | Ok _ => (Ok (Obj [("deleted", Str id)]), sweep_destroyed_sessions [id] d)
  end.
Definition handle_bulk_delete_sessions (deleted : result string unit) (ids : list string) (d : Daemon) : Response * Daemon :=
  match deleted with
  | Err e => (Err (internal_error e), d)
  | Ok _ => (Ok (Obj [("deleted", nat_json (Z.of_nat (length ids)))]), sweep_destroyed_sessions ids d)
  end.

(** The status of a listed session. *)
Definition listed_session (active : list string) (s : Value) : Value :=
  match s with
  | Obj fields =>
      let has_error := default false (v ← get s "hasError"; as_bool v) in
      let id := default "" (v ← get s "id"; as_str v) in
      let status := if bool_decide (id ∈ active) then "active" else if has_error then "error" else "idle" in
      Obj (obj_insert "status" (Str status) (obj_remove "hasError" fields))
  | _ => s
  end.
Definition handle_list_sessions (listed : string -> result string (list Value)) (params : gmap string string) (d : Daemon) : Response :=
  match listed (default "active" (params !! "filter")) with
  | Err e => Err (internal_error e)
  | Ok l => Ok (Obj [("sessions", Arr (map (listed_session (map si_id (list_active d))) l))])
  end.

Definition handle_get_session (loaded : result string (option string)) (from_str : string -> result string (list Value)) (id : string) : Response :=
  match loaded with
  | Err e => Err (internal_error e)
  | Ok None => Err (404%Z, "Session " +:+ id +:+ " not found")
  | Ok (Some json) =>
      match from_str json with
      | Err e => Err (internal_error e)
      | Ok entries => Ok (Obj [("entries", Arr entries); ("session_id", Str id)])
      end
  end.

(** ** Lemmas *)

Lemma lor_zero a b : Nat.lor a b = 0 <-> a = 0 /\ b = 0.
Proof. apply Nat.lor_eq_0_iff. Qed.

Lemma xor_zero a b : Nat.lxor a b = 0 <-> a = b.
Proof. split; [apply Nat.lxor_eq|]. intros ->. apply Nat.lxor_nilpotent. Qed.

Lemma differences_zero l acc : foldl (fun acc '(x, y) => Nat.lor acc (Nat.lxor x y)) acc l = 0 <->
  acc = 0 /\ Forall (fun '(x, y) => x = y) l.
Proof.
  revert acc. induction l as [|[x y] l IH]; intros acc; cbn [foldl]; [by split; [intros ->|intros [-> _]]|].
  rewrite IH, lor_zero, xor_zero, Forall_cons. tauto.
Qed.

(** The gathered differences vanish exactly on equal keys. *)
Lemma constant_time_eq_spec a b : constant_time_eq a b = true <-> a = b.
Proof.
  unfold constant_time_eq. destruct (Nat.eqb_spec (length a) (length b)) as [Hl|Hl]; cbn [negb].
  - rewrite Nat.eqb_eq, differences_zero. split.
    + intros [_ H]. revert b Hl H. induction a as [|x a IH]; intros [|y b] Hl H; try done.
      inversion H as [|? ? Hxy Hr]; subst. f_equal. apply IH; [by injection Hl|done].
    + intros ->. split; [done|]. clear Hl. induction b as [|y b IH]; by constructor.
  - split; [done|]. by intros ->.
Qed.

Lemma bytes_of_inj s t : bytes_of s = bytes_of t -> s = t.
Proof.
  unfold bytes_of. intros H. rewrite <- (String.string_of_list_ascii_of_string s), <- (String.string_of_list_ascii_of_string t). f_equal.
  revert H. generalize (String.list_ascii_of_string s), (String.list_ascii_of_string t).
  intros l. induction l as [|x l IH]; intros [|y m] H; try done. injection H as Hx Hr. f_equal; [|by apply IH].
  unfold byte_val in Hx. by rewrite <- (ascii_nat_embedding x), <- (ascii_nat_embedding y), Hx.
Qed.

(** ** Properties: access *)

(** Who passes the key check.  A request reaches a handler exactly when its
    path is one of the public ones, or no key is configured and the peer is a
    loopback address, or a key is configured and the path is the event stream
    (which checks its own token) or the Authorization header is the word Bearer, a
    space and that key, byte for byte: gathering the differences instead of
    stopping at the first one decides equality. *)
Theorem auth_spec (api_key : option string) (q : Request) :
  auth_middleware api_key q = Passed <->
    public_path (path q) = true \/
    match api_key with
    | None => exists ip, peer q = Some ip /\ is_loopback ip = true
    | Some key => path q = "/events" \/ authorization q = Some ("Bearer " +:+ key)
    end.
Proof.
  unfold auth_middleware. destruct (public_path (path q)); [tauto|].
  destruct api_key as [key|]; cbn [bool_decide andb].
  - destruct (String.eqb_spec (path q) "/events") as [E|E].
    { rewrite bool_decide_eq_true_2 by done. cbn [andb]. tauto. }
    cbn [andb]. destruct (authorization q) as [v|]; cbn [mbind option_bind fmap option_fmap option_map default]; [|by split; [|intros [?|[?|?]]]].
    destruct (strip_prefix_str v "Bearer ") as [token|] eqn:Ep; cbn [fmap option_fmap option_map default from_option id].
    + apply strip_prefix_some in Ep as ->. destruct (constant_time_eq (bytes_of token) (bytes_of key)) eqn:Ec.
      * apply constant_time_eq_spec, bytes_of_inj in Ec as ->. split; [by right; right|done].
      * split; [done|]. intros [?|[?|Hv]]; try done. injection Hv as Hv. subst.
        by rewrite (proj2 (constant_time_eq_spec _ _) eq_refl) in Ec.
    + split; [done|]. intros [?|[?|Hv]]; try done. assert (Hv2 : v = "Bearer " +:+ key) by congruence.
      apply strip_prefix_some in Hv2. congruence.
  - rewrite bool_decide_eq_false_2 by (intros [? ?]; done). rewrite andb_false_r. destruct (peer q) as [ip|]; cbn [default from_option id].
    + destruct (is_loopback ip) eqn:El; split; try done; [by right; exists ip|]. intros [?|(ip' & [= <-] & ?)]; congruence.
    + split; [done|]. by intros [?|(ip' & ? & _)].
Qed.

(** ** Lemmas: the rate limiter *)

Lemma size_cleanup now count b : (size (cleanup now count b) <= size b)%nat.
Proof.
  unfold cleanup. destruct (count mod 100 =? 0)%Z; [|done].
  apply map_size_mono_filter || (rewrite <- !size_dom; apply subseteq_size; intros k; rewrite !elem_of_dom; intros [x Hx]; by apply map_lookup_filter_Some in Hx as [Hx _]; exists x).
Qed.

Section Limited.
Context (oldest : gmap string TokenBucket -> option string).
Context (Holdest : forall b, b <> ∅ -> exists k, oldest b = Some k /\ is_Some (b !! k)).

Lemma make_room_size max ip b : 0 < max -> size b <= max ->
  size (make_room oldest max ip b) < max \/ (is_Some (make_room oldest max ip b !! ip) /\ size (make_room oldest max ip b) <= max).
Proof.
  intros Hm Hs. unfold make_room. destruct (Nat.leb_spec max (size b)) as [Hl|Hl]; cbn [andb]; [|by left].
  destruct (bool_decide (is_Some (b !! ip))) eqn:E; cbn [negb].
  - right. apply bool_decide_eq_true_1 in E. split; [done|lia].
  - left. destruct (Holdest b) as (k & Hk & [x Hx]); [intros ->; rewrite map_size_empty in Hl; lia|]. rewrite Hk.
    rewrite map_size_delete, Hx. lia.
Qed.

Lemma check_size now ip r : 0 < max_buckets r -> size (buckets r) <= max_buckets r ->
  size (buckets (check oldest now ip r).2) <= max_buckets r.
Proof.
  intros Hm Hs. unfold check. destruct (rate r =? 0)%Z; [done|]. cbn [snd buckets].
  rewrite map_size_insert. pose proof (size_cleanup now (check_count r + 1) (buckets r)) as Hc.
  destruct (make_room_size (max_buckets r) ip (cleanup now (check_count r + 1) (buckets r)) Hm) as [H|[[x Hx] H]]; [lia| |].
  - destruct (make_room _ _ _ _ !! ip); unfold Datatypes.id; lia.
  - by rewrite Hx.
Qed.

Lemma check_keeps now ip r : max_buckets (check oldest now ip r).2 = max_buckets r /\ rate (check oldest now ip r).2 = rate r.
Proof. unfold check. by destruct (rate r =? 0)%Z. Qed.
End Limited.

Definition checks (oldest : gmap string TokenBucket -> option string) (qs : list (Z * string)) (r : RateLimiter) : RateLimiter :=
  foldl (fun r '(now, ip) => (check oldest now ip r).2) r qs.

(** The rate limiter's memory is bounded.  Whatever requests arrive, from
    however many addresses and at whatever times, a limiter started with a rate
    never keeps more than ten thousand buckets: a new address evicts the oldest
    bucket when there is no room. *)
Theorem limiter_bounded (oldest : gmap string TokenBucket -> option string) (requests_per_minute : Z) (qs : list (Z * string))
  (Holdest : forall b, b <> ∅ -> exists k, oldest b = Some k /\ is_Some (b !! k)) :
  (size (buckets (checks oldest qs (RateLimiter_new requests_per_minute))) <= 10000)%nat.
Proof.
  cut (forall r, max_buckets r = 10000%nat -> size (buckets r) <= 10000 -> size (buckets (checks oldest qs r)) <= 10000).
  { intros H. apply H; [done|]. cbn. rewrite map_size_empty. lia. }
  induction qs as [|[now ip] qs IH]; intros r Hm Hs; [done|]. cbn [checks foldl]. apply IH.
  - by rewrite (proj1 (check_keeps oldest now ip r)).
  - rewrite <- Hm. apply check_size; [done|rewrite Hm; apply Nat.ltb_lt; reflexivity|by rewrite Hm].
Qed.

Definition first_key (b : gmap string TokenBucket) : option string := fst <$> head (map_to_list b).
Lemma limiter_bounded_witness : (size (buckets (checks first_key [(0, "a"); (1, "b")]%Z (RateLimiter_new 2))) <= 10000)%nat.
Proof.
  apply limiter_bounded. intros b Hb. unfold first_key. destruct (map_to_list b) as [|[k x] l] eqn:E.
  - by apply map_to_list_empty_iff in E.
  - exists k. split; [done|]. exists x. apply elem_of_map_to_list. rewrite E. left.
Defined.
