(* ===== verification/Rin.v ===== *)
(** * The terminal's socket

    src/kernel/src/palaces/dui_gateway/rin.rs: one connection reads messages line
    by line, up to a megabyte each, and acts on the daemon shared with the HTTP
    gateway (Gateway.v); when it ends, what waits for its sessions is swept.  A
    message's effects are listed in order: lines written back, tasks spawned,
    calls of the session store.  serde_json, toml, fresh identifiers, the clock
    and the store are arguments. *)

From S2P Require Import Prelude Update RString Utf8 Path Json Context Completion Loop Wire Composer Cards Tui Config Gateway.
From S2P Require SessionBus.
From Stdlib Require Import Ascii.
Local Open Scope string_scope.
Local Open Scope update_scope.
#[local] Arguments String.append !_ _ : simpl nomatch.

(** ** Lines *)

Definition MAX_RIN_LINE_BYTES : nat := 1048576.

(** Bytes up to and with the first newline, at most [n], and the rest. *)
Fixpoint take_line (n : nat) (s : string) : string * string :=
  match n, s with
  | S n, String c s' =>
      if Ascii.eqb c newline then (String c "", s')
      else let '(l, r) := take_line n s' in (String c l, r)
  | _, _ => ("", s)
  end.

(** [None] is an error, which ends the connection: bytes that are not UTF-8, or
    a line over the limit. *)
Definition read_line_bounded (max : nat) (input : string) : option (string * string) :=
  let '(line, rest) := take_line (S max) input in
  if negb (is_utf8 line) then None
  else if (max <? len line)%nat && negb (ends_with line nl) then None
  else Some (line, rest).

(** ** Effects and arguments *)

Record RunRequest := {
  run_sid : string; run_messages : list Message; run_is_new : bool; run_cwd : string; run_pid : string; run_token : nat
}.

Inductive Effect :=
| Write (v : Value)
| SpawnHello (cwd : string)
| SpawnRun (r : RunRequest)
| CreateSession (sid title cwd pid : string)
| EnsureWorkspace (id cwd name : string)
| WriteFile (path content : string)
| Emit (e : AgentEvent).

(** What a message may ask of its surroundings: a fresh session identifier, a
    fresh cancellation token, the time. *)
Record Fresh := { fresh_uuid : string; fresh_token : nat; fresh_now : Z }.

(** The connection: the sessions it has started, the workspace of its greeting. *)
Record Conn := { conn_sessions : list string; resolved_pid : option string }.
Definition Conn_new : Conn := {| conn_sessions := []; resolved_pid := None |}.

(** ** Messages *)

Definition role_of (s : string) : option Role :=
  if String.eqb s "system" then Some System else if String.eqb s "user" then Some User
  else if String.eqb s "assistant" then Some Assistant else None.

(** One message of an agent request; images are not read. *)
Definition read_message (m : Value) : option Message :=
  role ← role_of (default "user" (as_str (index m "role")));
  Some {| Context.role := role; Context.content := default "" (as_str (index m "content")); Context.images := [] |}.

Definition truncate_title (s : string) : string :=
  let s := trim s in
  if (length (chars s) <=? 60)%nat then s else of_chars (firstn 59 (chars s)) +:+ "…".

Definition title_of (messages : list Message) : string :=
  match List.find (fun m => bool_decide (Context.role m = User)) messages with
  | Some m => truncate_title (Context.content m)
  | None => ""
  end.

(** The provider and the model a run is listed under. *)
Definition run_provider (cfg : AppConfig) : string := default "" (default_main_model_provider cfg).
Definition run_model (cfg : AppConfig) : string :=
  match Json.assoc (run_provider cfg) (providers cfg) with Some p => default_main_model p | None => "" end.

Definition session_json (sid title : string) : Value := event_json (EvSession sid (Some title)).

(** A message that starts or continues a session. *)
Definition on_agent (cfg : AppConfig) (fresh : Fresh) (msg : Value) (c : Conn) (d : Daemon) : list Effect * Conn * Daemon :=
  let messages := omap read_message (default [] (as_array (index msg "messages"))) in
  let given := s ← as_str (index msg "session_id"); if is_empty_str s then None else Some s in
  let sid := default (fresh_uuid fresh) given in
  let c := {| conn_sessions := (if bool_decide (sid ∈ conn_sessions c) then conn_sessions c else conn_sessions c ++ [sid])%list;
              resolved_pid := resolved_pid c |} in
  let is_new := bool_decide (given = None) in
  let msg_cwd := default "." (as_str (index msg "cwd")) in
  let msg_pid := default "" (as_str (index msg "workspace_id")) in
  let title := title_of messages in
  let created :=
    if is_new then
      [CreateSession sid title (if is_empty_str msg_cwd || String.eqb msg_cwd "." then "" else msg_cwd)
         (if is_empty_str msg_pid then default "" (resolved_pid c) else msg_pid)]
    else [] in
  let d := register sid (fresh_token fresh) (run_provider cfg) (run_model cfg) (fresh_now fresh) d in
  let run := {| run_sid := sid; run_messages := messages; run_is_new := is_new; run_cwd := msg_cwd; run_pid := msg_pid;
                run_token := fresh_token fresh |} in
  ((created ++ [Write (session_json sid title); SpawnRun run])%list, c, d).

Definition on_steer (msg : Value) (d : Daemon) : Daemon :=
  let sid := default "" (as_str (index msg "session_id")) in
  let content := default "" (as_str (index msg "content")) in
  if negb (is_empty_str sid) && negb (is_empty_str (trim content))
  then steer sid content (steer_priority (as_str (index msg "priority"))) d else d.

Definition on_set_mode (msg : Value) (d : Daemon) : list Effect * Daemon :=
  let sid := default "" (as_str (index msg "session_id")) in
  let mode := if bool_decide (as_str (index msg "mode") = Some "plan") then Plan else Auto in
  if is_empty_str sid then ([], d)
  else ([Write (event_json (EvInteractionModeChanged mode))], d <| d_modes ::= <[sid := mode]> |>).

Definition delivered (r : Resolution) : bool := match r with Delivered => true | _ => false end.
Definition resolved_json (type id : string) (r : Resolution) : Value :=
  Obj [("id", Str id); ("resolved", Bool (delivered r)); ("type", Str type)].

Definition on_confirm (msg : Value) (d : Daemon) : list Effect * Daemon :=
  let id := default "" (as_str (index msg "id")) in
  let token := default "" (as_str (index msg "token")) in
  if is_empty_str id then ([], d)
  else let approved := default false (as_bool (index msg "approved")) in
       let '(r, d) := resolve_confirm id token approved d in ([Write (resolved_json "confirm_resolved" id r)], d).

Definition on_answer (msg : Value) (d : Daemon) : list Effect * Daemon :=
  let id := default "" (as_str (index msg "id")) in
  let token := default "" (as_str (index msg "token")) in
  let answer := default "" (as_str (index msg "answer")) in
  if is_empty_str id then ([], d)
  else let '(r, d) := resolve_answer id token answer d in ([Write (resolved_json "answer_resolved" id r)], d).

(** [None] is the panic of a configuration without providers. *)
Definition model_info (cfg : AppConfig) : option Value :=
  name ← default_main_provider_name cfg;
  r ← default_main_provider cfg;
  let model := match r with
               | Ok p => default "" (match default_main_model_opt p with Some m => Some m | None => head (models p) end)
               | Err _ => ""
               end in
  Some (Obj [("model", Str model); ("provider", Str name); ("type", Str "model_info")]).

Section Store.
Context (list_sessions : list Value) (load_session_history : string -> list Value).

Definition session_history_json (sid : string) : Value :=
  let entries := if is_empty_str sid then [] else load_session_history sid in
  Obj [("entries", Arr entries); ("session_id", Str sid); ("type", Str "session_history")].

(** One message; [None] is a panic of the connection's task. *)
Definition handle_message (cfg : AppConfig) (fresh : Fresh) (msg : Value) (c : Conn) (d : Daemon) : option (list Effect * Conn * Daemon) :=
  let msg_type := default "" (as_str (index msg "type")) in
  if String.eqb msg_type "hello" then Some ([SpawnHello (default "." (as_str (index msg "cwd")))], c, d)
  else if String.eqb msg_type "agent" then Some (on_agent cfg fresh msg c d)
  else if String.eqb msg_type "cancel" then
    Some ([], c, match as_str (index msg "session_id") with Some sid => cancel sid d | None => d end)
  else if String.eqb msg_type "steer" then Some ([], c, on_steer msg d)
  else if String.eqb msg_type "set_mode" then let '(w, d) := on_set_mode msg d in Some (w, c, d)
  else if String.eqb msg_type "confirm" then let '(w, d) := on_confirm msg d in Some (w, c, d)
  else if String.eqb msg_type "answer" then let '(w, d) := on_answer msg d in Some (w, c, d)
  else if String.eqb msg_type "model_info" then v ← model_info cfg; Some ([Write v], c, d)
  else if String.eqb msg_type "sessions" then Some ([Write (Obj [("sessions", Arr list_sessions); ("type", Str "sessions")])], c, d)
  else if String.eqb msg_type "load_session" then
    Some ([Write (session_history_json (default "" (as_str (index msg "session_id"))))], c, d)
  else Some ([], c, d).

(** *** The end of a connection *)

Definition belongs (sids : list string) (s : string) : bool := bool_decide (s ∈ sids).

(** The identifiers of the entries that go, whose senders are dropped. *)
Definition swept (sids : list string) (m : gmap string Pending) : list string :=
  fst <$> map_to_list (filter (fun kv : string * Pending => belongs sids (p_session kv.2) = true) m).
Definition retained (sids : list string) (m : gmap string Pending) : gmap string Pending :=
  filter (fun kv : string * Pending => belongs sids (p_session kv.2) = false) m.

Definition sweep_pending_for_sessions (sids : list string) (d : Daemon) : Daemon :=
  match sids with
  | [] => d
  | _ =>
      d <| d_dropped ::= fun l => (l ++ swept sids (d_questions d) ++ swept sids (d_confirmations d))%list |>
        <| d_questions ::= retained sids |> <| d_confirmations ::= retained sids |>
        <| d_modes ::= filter (fun kv => belongs sids kv.1 = false) |>
        <| d_bus ::= fun b => foldl (fun b sid => SessionBus.clear_criteria sid (SessionBus.clear_session_approvals sid b)) b sids |>
        <| d_checklist ::= fun cl => foldl (fun cl sid => end_session sid cl) cl sids |>
  end.

(** *** A connection from its first byte to its end

    [fuel] bounds the lines: one more than the bytes is enough. *)
Section Connection.
Context (from_str : string -> option Value) (cfg : AppConfig) (fresh : nat -> Fresh).

Fixpoint serve (fuel turn : nat) (input : string) (c : Conn) (d : Daemon) : option (list Effect * Daemon) :=
  match fuel with
  | O => None
  | S fuel =>
      match read_line_bounded MAX_RIN_LINE_BYTES input with
      | None => Some ([], sweep_pending_for_sessions (conn_sessions c) d)
      | Some (line, rest) =>
          if is_empty_str line then Some ([], sweep_pending_for_sessions (conn_sessions c) d)
          else
            match (if is_empty_str (trim line) then None else from_str (trim line)) with
            | None => serve fuel turn rest c d
            | Some msg =>
                '(w, c, d) ← handle_message cfg (fresh turn) msg c d;
                '(ws, d) ← serve fuel (S turn) rest c d;
                Some ((w ++ ws)%list, d)
            end
      end
  end.
End Connection.
End Store.

(** ** Workspaces *)

(** The workspace a configuration file names, in its present or its old section. *)
Definition known_workspace (config : option Value) : option (string * string) :=
  v ← config;
  project ← (match get v "workspace" with Some p => Some p | None => get v "project" end);
  let id := default "" (x ← get project "id"; as_str x) in
  let name := default "" (x ← get project "name"; as_str x) in
  if is_empty_str id then None else Some (id, name).

Definition skip_prompt (home cwd : string) : bool :=
  String.eqb cwd home || String.eqb cwd "/" || String.eqb cwd "/tmp" || starts_with cwd "/usr".

Inductive Greeting :=
| Resolved (cwd pid : string)
| Asking (confirm_id : string).

(** The first part: up to the question to the user. *)
Definition resolve_workspace_start (config : option Value) (home cwd confirm_id confirm_token : string) (now : Z) (d : Daemon)
    : list Effect * Greeting * Daemon :=
  match known_workspace config with
  | Some (id, name) => ([EnsureWorkspace id cwd name], Resolved cwd id, d)
  | None =>
      if skip_prompt home cwd then ([], Resolved cwd "", d)
      else
        ([Emit (AgConfirmRequest confirm_id "jia_init" ("Create Jia workspace in '" +:+ cwd +:+ "'?") 0 confirm_token)],
         Asking confirm_id,
         d <| d_confirmations ::= <[confirm_id := {| p_token := confirm_token; p_created_at := now; p_session := "" |}]> |>)
  end.

(** The second part: the reply, or [None] when the sender was dropped or two
    minutes have passed. *)
Definition resolve_workspace_finish (cwd confirm_id workspace_id : string) (reply : option bool) (d : Daemon)
    : list Effect * (string * string) * Daemon :=
  let d := d <| d_confirmations ::= delete confirm_id |> in
  if bool_decide (reply = Some true) then
    let dir_name := default cwd (file_name cwd) in
    let config := "[workspace]" +:+ nl +:+ "id = " +:+ dq +:+ workspace_id +:+ dq +:+ nl +:+ "name = " +:+ dq +:+ dir_name +:+ dq +:+ nl in
    ([WriteFile (path_join (path_join cwd ".jia") "config.toml") config; EnsureWorkspace workspace_id cwd dir_name], (cwd, workspace_id), d)
  else ([], (cwd, ""), d).

(** The greeting's reply, and the workspace later sessions fall back to. *)
Definition hello_done (cwd pid : string) (c : Conn) : list Effect * Conn :=
  let approved := negb (is_empty_str pid) in
  ([Write (Obj [("approved", Bool approved); ("cwd", Str cwd); ("type", Str "workspace_resolved"); ("workspace_id", Str pid)])],
   {| conn_sessions := conn_sessions c; resolved_pid := if approved then Some pid else None |}).

(** ** The run's own task *)

Inductive RunStart :=
| RunCancelled (delete_session : bool)
| RunRejected (events : list AgentEvent)
| RunStarted (cwd : string) (mode : option InteractionMode).

(** The task waits for the session's lock or its own cancellation; [first] tells
    which came.  [workspace_cwd] looks a workspace's directory up. *)
Definition run_start (workspace_cwd : string -> option string) (cancelled_first : bool) (r : RunRequest) (d : Daemon) : RunStart :=
  if cancelled_first then RunCancelled (run_is_new r)
  else if bool_decide (run_token r ∈ d_cancelled d) then RunCancelled false
  else
    let effective_cwd :=
      if negb (is_empty_str (run_cwd r)) && negb (String.eqb (run_cwd r) ".") then run_cwd r
      else if negb (is_empty_str (run_pid r)) then default "" (workspace_cwd (run_pid r))
      else "" in
    if is_empty_str effective_cwd then
      RunRejected [AgError "No valid project directory. Create a Jia project first with `jia init`."; AgDone]
    else RunStarted effective_cwd (d_modes d !! run_sid r).

(** The guard's removal on every way out. *)
Definition run_end (r : RunRequest) (d : Daemon) : Daemon := remove (run_sid r) d.

(** The forwarder records the mode the agent is in. *)
Definition forward_mode (sid : string) (e : AgentEvent) (d : Daemon) : Daemon :=
  match e with AgInteractionModeChanged m => d <| d_modes ::= <[sid := m]> |> | _ => d end.
Definition forward_run (sid : string) (e : AgentEvent) (d : Daemon) : list Effect * Daemon :=
  (match forward e with Some s => [Write (event_json s)] | None => [] end, forward_mode sid e d).

(** *** Cron notices *)

Definition cron_json (job_name prompt response : string) (timestamp : Z) : Value :=
  Obj [("job_name", Str job_name); ("prompt", Str prompt); ("response", Str response); ("timestamp", nat_json timestamp);
       ("type", Str "cron_notification")].

(** ** Who may connect *)

Definition accepts (my_uid : Z) (peer_uid : option Z) : bool :=
  match peer_uid with Some u => (u =? 0)%Z || (u =? my_uid)%Z | None => true end.

(** ** Lemmas: replies *)

Lemma resolve_confirm_spec id token b d : let '(r, d') := resolve_confirm id token b d in
  d_questions d' = d_questions d /\ d_answered d' = d_answered d /\ d_confirmations d' = delete id (d_confirmations d) /\
  d_confirmed d' = (d_confirmed d ++ if delivered r then [(id, b)] else [])%list /\
  (delivered r = true <-> exists p, d_confirmations d !! id = Some p /\ p_token p = token).
Proof.
  unfold resolve_confirm. destruct (d_confirmations d !! id) as [p|] eqn:Ep.
  - destruct (String.eqb_spec (p_token p) token) as [E|E]; cbn; rewrite ?app_nil_r; split_and!; try done.
    + split; [by exists p|done].
    + split; [done|]. by intros (p' & [= <-] & ?).
  - cbn. rewrite app_nil_r, delete_id by done. split_and!; try done. split; [done|]. by intros (p' & ? & _).
Qed.

Lemma resolve_answer_spec id token ans d : let '(r, d') := resolve_answer id token ans d in
  d_confirmations d' = d_confirmations d /\ d_confirmed d' = d_confirmed d /\ d_questions d' = delete id (d_questions d) /\
  d_answered d' = (d_answered d ++ if delivered r then [(id, ans)] else [])%list /\
  (delivered r = true <-> exists p, d_questions d !! id = Some p /\ p_token p = token).
Proof.
  unfold resolve_answer. destruct (d_questions d !! id) as [p|] eqn:Ep.
  - destruct (String.eqb_spec (p_token p) token) as [E|E]; cbn; rewrite ?app_nil_r; split_and!; try done.
    + split; [by exists p|done].
    + split; [done|]. by intros (p' & [= <-] & ?).
  - cbn. rewrite app_nil_r, delete_id by done. split_and!; try done. split; [done|]. by intros (p' & ? & _).
Qed.

(** What a message may do to the waiting confirmations and questions. *)
Definition replies_ok (msg : Value) (d d' : Daemon) : Prop :=
  (d_confirmations d' = d_confirmations d /\ d_confirmed d' = d_confirmed d \/
   exists id, as_str (index msg "type") = Some "confirm" /\ as_str (index msg "id") = Some id /\
     d_confirmations d' = delete id (d_confirmations d) /\
     (d_confirmed d' = d_confirmed d \/
      exists p token, d_confirmations d !! id = Some p /\ token = default "" (as_str (index msg "token")) /\ p_token p = token /\
        d_confirmed d' = (d_confirmed d ++ [(id, default false (as_bool (index msg "approved")))])%list)) /\
  (d_questions d' = d_questions d /\ d_answered d' = d_answered d \/
   exists id, as_str (index msg "type") = Some "answer" /\ as_str (index msg "id") = Some id /\
     d_questions d' = delete id (d_questions d) /\
     (d_answered d' = d_answered d \/
      exists p token, d_questions d !! id = Some p /\ token = default "" (as_str (index msg "token")) /\ p_token p = token /\
        d_answered d' = (d_answered d ++ [(id, default "" (as_str (index msg "answer")))])%list)).

Lemma same_replies msg d d' : d_confirmations d' = d_confirmations d -> d_confirmed d' = d_confirmed d ->
  d_questions d' = d_questions d -> d_answered d' = d_answered d -> replies_ok msg d d'.
Proof. intros. split; by left. Qed.

Lemma cancel_keeps sid d : d_confirmations (cancel sid d) = d_confirmations d /\ d_confirmed (cancel sid d) = d_confirmed d /\
  d_questions (cancel sid d) = d_questions d /\ d_answered (cancel sid d) = d_answered d.
Proof. unfold cancel. by destruct (d_tokens d !! sid) as [[]|]. Qed.

Lemma default_some (o : option string) s : default "" o = s -> s <> "" -> o = Some s.
Proof. destruct o; cbn; [by intros ->|by intros <-]. Qed.

Lemma is_empty_false s : is_empty_str s = false <-> s <> "".
Proof. unfold is_empty_str. by rewrite String.eqb_neq. Qed.

Lemma on_confirm_ok msg d : as_str (index msg "type") = Some "confirm" -> replies_ok msg d (on_confirm msg d).2.
Proof.
  intros Ht. unfold on_confirm. set (id := default "" (as_str (index msg "id"))).
  destruct (is_empty_str id) eqn:Ei; [by apply same_replies|]. apply is_empty_false in Ei.
  pose proof (resolve_confirm_spec id (default "" (as_str (index msg "token"))) (default false (as_bool (index msg "approved"))) d) as H.
  destruct (resolve_confirm _ _ _ d) as [r d']. destruct H as (Hq & Ha & Hc & Hd & Hr). cbn [snd]. split; [right|by left].
  exists id. split_and!; [done|by apply default_some|done|]. destruct (delivered r); [right|left; by rewrite Hd, app_nil_r].
  destruct (proj1 Hr eq_refl) as (p & Hp & Hpt). by exists p, (default "" (as_str (index msg "token"))).
Qed.

Lemma on_answer_ok msg d : as_str (index msg "type") = Some "answer" -> replies_ok msg d (on_answer msg d).2.
Proof.
  intros Ht. unfold on_answer. set (id := default "" (as_str (index msg "id"))).
  destruct (is_empty_str id) eqn:Ei; [by apply same_replies|]. apply is_empty_false in Ei.
  pose proof (resolve_answer_spec id (default "" (as_str (index msg "token"))) (default "" (as_str (index msg "answer"))) d) as H.
  destruct (resolve_answer _ _ _ d) as [r d']. destruct H as (Hq & Ha & Hc & Hd & Hr). cbn [snd]. split; [by left|right].
  exists id. split_and!; [done|by apply default_some|done|]. destruct (delivered r); [right|left; by rewrite Hd, app_nil_r].
  destruct (proj1 Hr eq_refl) as (p & Hp & Hpt). by exists p, (default "" (as_str (index msg "token"))).
Qed.

Section Replies.
Context (list_sessions : list Value) (load_history : string -> list Value) (cfg : AppConfig).

Lemma handle_message_replies fresh msg c d w c' d' :
  handle_message list_sessions load_history cfg fresh msg c d = Some (w, c', d') -> replies_ok msg d d'.
Proof.
  unfold handle_message. set (ty := default "" (as_str (index msg "type"))). intros H.
  repeat match type of H with
  | (if String.eqb ty ?s then _ else _) = _ => destruct (String.eqb_spec ty s) as [E|_]
  end.
  - injection H as <- <- <-. by apply same_replies.
  - unfold on_agent in H. injection H as <- <- <-. by apply same_replies.
  - injection H as <- <- <-. destruct (as_str (index msg "session_id")) as [sid|]; [|by apply same_replies].
    destruct (cancel_keeps sid d) as (? & ? & ? & ?). by apply same_replies.
  - injection H as <- <- <-. unfold on_steer. destruct (_ && _); [|by apply same_replies]. unfold steer.
    set (d1 := d <| d_bus ::= _ |>). destruct (steer_priority _); try by apply same_replies.
    destruct (cancel_keeps (default "" (as_str (index msg "session_id"))) d1) as (? & ? & ? & ?). by apply same_replies.
  - unfold on_set_mode in H. destruct (is_empty_str _); injection H as <- <- <-; by apply same_replies.
  - assert (Ht : as_str (index msg "type") = Some "confirm") by (by apply default_some). pose proof (on_confirm_ok msg d Ht) as Ho.
    destruct (on_confirm msg d) as [w1 d1]. by injection H as <- <- <-.
  - assert (Ht : as_str (index msg "type") = Some "answer") by (by apply default_some). pose proof (on_answer_ok msg d Ht) as Ho.
    destruct (on_answer msg d) as [w1 d1]. by injection H as <- <- <-.
  - destruct (model_info cfg) as [v|]; [|done]. cbn in H. injection H as <- <- <-. by apply same_replies.
  - injection H as <- <- <-. by apply same_replies.
  - injection H as <- <- <-. by apply same_replies.
  - injection H as <- <- <-. by apply same_replies.
Qed.

(** Each waiting entry is replied to at most once. *)
Definition once {A} (m : gmap string Pending) (l : list (string * A)) : Prop :=
  NoDup (fst <$> l) /\ forall id, id ∈ (fst <$> l) -> m !! id = None.

Lemma once_fewer {A} m m' (l : list (string * A)) : once m l -> (forall id, m !! id = None -> m' !! id = None) -> once m' l.
Proof. intros [Hn Hd] H. split; [done|]. intros id Hid. by apply H, Hd. Qed.

Lemma once_delete {A} m id (l : list (string * A)) : once m l -> once (delete id m) l.
Proof. intros H. apply (once_fewer m); [done|]. intros i Hi. destruct (decide (i = id)) as [->|]; [apply lookup_delete_eq|by rewrite lookup_delete_ne]. Qed.

Lemma once_reply {A} m id p (x : A) l : once m l -> m !! id = Some p -> once (delete id m) (l ++ [(id, x)])%list.
Proof.
  intros [Hn Hd] Hp. split.
  - rewrite fmap_app. apply NoDup_app. split_and!; [done| |by apply NoDup_singleton].
    intros i Hi [->|?%elem_of_nil]%elem_of_cons; [|done]. cbn in Hi. rewrite (Hd id Hi) in Hp. done.
  - intros i. rewrite fmap_app, elem_of_app. cbn. rewrite list_elem_of_singleton. intros [Hi|Hi]; [|subst i; apply lookup_delete_eq].
    destruct (decide (i = id)) as [->|]; [apply lookup_delete_eq|]. rewrite lookup_delete_ne by done. by apply Hd.
Qed.

Definition replies_once (d : Daemon) : Prop := once (d_confirmations d) (d_confirmed d) /\ once (d_questions d) (d_answered d).

Lemma replies_ok_once msg d d' : replies_once d -> replies_ok msg d d' -> replies_once d'.
Proof.
  intros [Hc Hq] [H1 H2]. split.
  - destruct H1 as [[-> ->]|(id & _ & _ & -> & [->|(p & token & Hp & _ & _ & ->)])]; [done|by apply once_delete|by apply (once_reply _ _ p)].
  - destruct H2 as [[-> ->]|(id & _ & _ & -> & [->|(p & token & Hp & _ & _ & ->)])]; [done|by apply once_delete|by apply (once_reply _ _ p)].
Qed.

Lemma retained_none sids m id : m !! id = None -> retained sids m !! id = None.
Proof. intros H. unfold retained. apply map_lookup_filter_None. by left. Qed.

Lemma sweep_once sids d : replies_once d -> replies_once (sweep_pending_for_sessions sids d).
Proof.
  intros [Hc Hq]. unfold sweep_pending_for_sessions. destruct sids; [by split|]. split; cbn.
  - apply (once_fewer (d_confirmations d)); [done|]. intros id. apply retained_none.
  - apply (once_fewer (d_questions d)); [done|]. intros id. apply retained_none.
Qed.

Lemma serve_once from_str fresh fuel turn input c d ws d' :
  serve list_sessions load_history from_str cfg fresh fuel turn input c d = Some (ws, d') -> replies_once d -> replies_once d'.
Proof.
  revert turn input c d ws d'. induction fuel as [|fuel IH]; intros turn input c d ws d' H Ho; [done|]. cbn [serve] in H.
  destruct (read_line_bounded _ _) as [[line rest]|]; [|injection H as <- <-; by apply sweep_once].
  destruct (is_empty_str line); [injection H as <- <-; by apply sweep_once|].
  destruct (if is_empty_str (trim line) then None else from_str (trim line)) as [msg|]; [|by apply (IH _ _ _ _ _ _ H)].
  destruct (handle_message _ _ _ _ _ _ _) as [[[w c1] d1]|] eqn:Em; [|done]. cbn [mbind option_bind] in H.
  destruct (serve _ _ _ _ _ _ _ _ _ _) as [[ws1 d2]|] eqn:Es; [|done]. cbn [mbind option_bind] in H. injection H as <- <-.
  apply (IH _ _ _ _ _ _ Es). by apply (replies_ok_once msg d), (handle_message_replies (fresh turn) msg c d w c1).
Qed.
End Replies.

(** ** Lemmas: the end of a connection *)

Lemma belongs_spec sids s : belongs sids s = true <-> s ∈ sids.
Proof. apply bool_decide_eq_true. Qed.

Lemma retained_spec sids m id p : retained sids m !! id = Some p <-> m !! id = Some p /\ p_session p ∉ sids.
Proof.
  unfold retained. rewrite map_lookup_filter_Some. cbn [snd]. unfold belongs. by rewrite bool_decide_eq_false.
Qed.

Lemma swept_spec sids m id : id ∈ swept sids m <-> exists p, m !! id = Some p /\ p_session p ∈ sids.
Proof.
  unfold swept. rewrite list_elem_of_fmap. split.
  - intros ([i p] & -> & H%elem_of_map_to_list%map_lookup_filter_Some). cbn in H. destruct H as [Hm Hb].
    apply belongs_spec in Hb. by exists p.
  - intros (p & Hm & Hs). exists (id, p). split; [done|]. apply elem_of_map_to_list, map_lookup_filter_Some. cbn.
    split; [done|]. by apply belongs_spec.
Qed.

Lemma clear_sids_queues sids b :
  SessionBus.steer_queues (foldl (fun b sid => SessionBus.clear_criteria sid (SessionBus.clear_session_approvals sid b)) b sids) =
  SessionBus.steer_queues b.
Proof. revert b. induction sids as [|s sids IH]; intros b; [done|]. cbn [foldl]. by rewrite IH. Qed.

(** Nothing of the sessions is left, and their waiting tasks have been woken. *)
Definition gone (sids : list string) (d : Daemon) : Prop :=
  forall sid, sid ∈ sids -> (forall id p, d_confirmations d !! id = Some p -> p_session p <> sid) /\
    (forall id p, d_questions d !! id = Some p -> p_session p <> sid) /\ d_modes d !! sid = None.

Lemma sweep_gone sids d : gone sids (sweep_pending_for_sessions sids d).
Proof.
  destruct sids as [|s sids]; [by intros sid ?%elem_of_nil|]. intros sid Hin. cbn. split_and!.
  - intros id p [_ Hn]%retained_spec E. by rewrite E in Hn.
  - intros id p [_ Hn]%retained_spec E. by rewrite E in Hn.
  - apply map_lookup_filter_None. right. intros m _. cbn. intros Hb. by apply belongs_spec in Hin as Hin'; rewrite Hin' in Hb.
Qed.

Lemma sweep_queues sids d : SessionBus.steer_queues (d_bus (sweep_pending_for_sessions sids d)) = SessionBus.steer_queues (d_bus d).
Proof. destruct sids as [|s sids]; [done|]. cbn [sweep_pending_for_sessions]. apply clear_sids_queues. Qed.

(** Entries of other sessions stay, and an entry that goes is woken. *)
Lemma sweep_others sids d id p : p_session p ∉ sids -> d_confirmations d !! id = Some p ->
  d_confirmations (sweep_pending_for_sessions sids d) !! id = Some p.
Proof. destruct sids as [|s sids]; [done|]. intros Hn Hp. cbn. by apply retained_spec. Qed.

Lemma sweep_woken sids d id p : p_session p ∈ sids -> d_confirmations d !! id = Some p \/ d_questions d !! id = Some p ->
  id ∈ d_dropped (sweep_pending_for_sessions sids d).
Proof.
  destruct sids as [|s sids]; [by intros ?%elem_of_nil|]. intros Hin Hp. cbn [sweep_pending_for_sessions update set_d_dropped set_d_questions
    set_d_confirmations set_d_modes set_d_bus set_d_checklist d_dropped]. rewrite !elem_of_app, !swept_spec.
  right. destruct Hp; [right|left]; by exists p.
Qed.

(** The sessions of the runs a connection has started. *)
Definition runs_of (ws : list Effect) : list string := omap (fun e => match e with SpawnRun r => Some (run_sid r) | _ => None end) ws.

(** Remarks are appended, never taken. *)
Definition queues_grow (d d' : Daemon) : Prop :=
  forall sid, SessionBus.queue_of sid (d_bus d) `prefix_of` SessionBus.queue_of sid (d_bus d').

Lemma queues_same d d' : d_bus d' = d_bus d -> queues_grow d d'.
Proof. intros H sid. by rewrite H. Qed.

Lemma queues_swept d d' : SessionBus.steer_queues (d_bus d') = SessionBus.steer_queues (d_bus d) -> queues_grow d d'.
Proof. intros H sid. unfold SessionBus.queue_of. by rewrite H. Qed.

Lemma queues_trans d1 d2 d3 : queues_grow d1 d2 -> queues_grow d2 d3 -> queues_grow d1 d3.
Proof. intros H1 H2 sid. transitivity (SessionBus.queue_of sid (d_bus d2)); [apply H1|apply H2]. Qed.

Lemma cancel_bus sid d : d_bus (cancel sid d) = d_bus d.
Proof. unfold cancel. by destruct (d_tokens d !! sid) as [[]|]. Qed.

Lemma steer_grows sid content p d : queues_grow d (steer sid content p d).
Proof.
  assert (H : queues_grow d (d <| d_bus ::= SessionBus.push_steer sid {| SessionBus.content := content; SessionBus.priority := p |} |>)).
  { intros s. unfold SessionBus.queue_of. cbn. destruct (decide (s = sid)) as [->|].
    - rewrite lookup_insert_eq. cbn. unfold SessionBus.queue_of. by apply prefix_app_r.
    - by rewrite lookup_insert_ne. }
  unfold steer. destruct p; try done. eapply queues_trans; [exact H|]. apply queues_same, cancel_bus.
Qed.

Section Conn.
Context (list_sessions : list Value) (load_history : string -> list Value) (cfg : AppConfig).

Lemma handle_message_conn fresh msg c d w c' d' :
  handle_message list_sessions load_history cfg fresh msg c d = Some (w, c', d') ->
  (forall s, s ∈ conn_sessions c -> s ∈ conn_sessions c') /\ (forall s, s ∈ runs_of w -> s ∈ conn_sessions c') /\ queues_grow d d'.
Proof.
  unfold handle_message. set (ty := default "" (as_str (index msg "type"))). intros H.
  assert (Hnil : forall s : string, s ∈ [] -> s ∈ conn_sessions c) by (by intros s ?%elem_of_nil).
  repeat match type of H with
  | (if String.eqb ty ?s then _ else _) = _ => destruct (String.eqb_spec ty s) as [E|_]
  end.
  - injection H as <- <- <-. split_and!; try done. by apply queues_same.
  - unfold on_agent in H. set (sid := default (fresh_uuid fresh) _) in H. injection H as <- <- <-.
    cbn [conn_sessions]. assert (Hin : forall s, s ∈ conn_sessions c \/ s = sid ->
      s ∈ (if bool_decide (sid ∈ conn_sessions c) then conn_sessions c else (conn_sessions c ++ [sid])%list)).
    { intros s Hs. case_bool_decide as Hd; [by destruct Hs as [|Hs]; [|rewrite Hs]|]. rewrite elem_of_app, list_elem_of_singleton. tauto. }
    split_and!; [intros s Hs; apply Hin; by left| |by apply queues_same].
    intros s Hs. apply Hin. right. destruct (bool_decide _) in Hs; cbn in Hs; by apply list_elem_of_singleton in Hs.
  - injection H as <- <- <-. split_and!; try done. destruct (as_str (index msg "session_id")); apply queues_same; [apply cancel_bus|done].
  - injection H as <- <- <-. split_and!; try done. unfold on_steer. destruct (_ && _); [apply steer_grows|by apply queues_same].
  - unfold on_set_mode in H. destruct (is_empty_str _); injection H as <- <- <-; (split_and!; [done|done|by apply queues_same]).
  - assert (Hb : d_bus (on_confirm msg d).2 = d_bus d).
    { unfold on_confirm, resolve_confirm. destruct (is_empty_str _); [done|]. destruct (d_confirmations d !! _) as [p|]; [|done].
      by destruct (String.eqb _ _). }
    unfold on_confirm in *. destruct (is_empty_str _); [injection H as <- <- <-; split_and!; [done|done|by apply queues_same]|].
    destruct (resolve_confirm _ _ _ d) as [r d1]. injection H as <- <- <-. split_and!; [done|done|by apply queues_same].
  - assert (Hb : d_bus (on_answer msg d).2 = d_bus d).
    { unfold on_answer, resolve_answer. destruct (is_empty_str _); [done|]. destruct (d_questions d !! _) as [p|]; [|done].
      by destruct (String.eqb _ _). }
    unfold on_answer in *. destruct (is_empty_str _); [injection H as <- <- <-; split_and!; [done|done|by apply queues_same]|].
    destruct (resolve_answer _ _ _ d) as [r d1]. injection H as <- <- <-. split_and!; [done|done|by apply queues_same].
  - destruct (model_info cfg) as [v|]; [|done]. cbn in H. injection H as <- <- <-. split_and!; [done|done|by apply queues_same].
  - injection H as <- <- <-. split_and!; [done|done|by apply queues_same].
  - injection H as <- <- <-. split_and!; [done|done|by apply queues_same].
  - injection H as <- <- <-. split_and!; [done|done|by apply queues_same].
Qed.

Lemma serve_gone from_str fresh fuel turn input c d ws d' :
  serve list_sessions load_history from_str cfg fresh fuel turn input c d = Some (ws, d') ->
  gone (conn_sessions c ++ runs_of ws) d' /\ queues_grow d d'.
Proof.
  revert turn input c d ws d'. induction fuel as [|fuel IH]; intros turn input c d ws d' H; [done|]. cbn [serve] in H.
  assert (Hend : gone (conn_sessions c ++ runs_of []) (sweep_pending_for_sessions (conn_sessions c) d) /\
    queues_grow d (sweep_pending_for_sessions (conn_sessions c) d)).
  { cbn. rewrite app_nil_r. split; [apply sweep_gone|apply queues_swept, sweep_queues]. }
  destruct (read_line_bounded _ _) as [[line rest]|]; [|by injection H as <- <-].
  destruct (is_empty_str line); [by injection H as <- <-|].
  destruct (if is_empty_str (trim line) then None else from_str (trim line)) as [msg|]; [|by apply (IH _ _ _ _ _ _ H)].
  destruct (handle_message _ _ _ _ _ _ _) as [[[w c1] d1]|] eqn:Em; [|done]. cbn [mbind option_bind] in H.
  destruct (serve _ _ _ _ _ _ _ _ _ _) as [[ws1 d2]|] eqn:Es; [|done]. cbn [mbind option_bind] in H. injection H as <- <-.
  destruct (IH _ _ _ _ _ _ Es) as [Hg Hq], (handle_message_conn _ _ _ _ _ _ _ Em) as (Hc & Hr & Hq1).
  split; [|by eapply queues_trans]. intros sid Hin. apply Hg. rewrite elem_of_app in Hin |- *.
  unfold runs_of in Hin. rewrite omap_app, elem_of_app in Hin.
  destruct Hin as [Hin|[Hin|Hin]]; [left; by apply Hc|left; by apply Hr|by right].
Qed.
End Conn.

(** ** Lemmas: reading *)

Lemma take_line_split n s : let '(l, r) := take_line n s in s = l +:+ r /\ (l = "" -> n = 0 \/ s = "").
Proof.
  revert s. induction n as [|n IH]; intros s; [by split; [|left]|]. destruct s as [|c s]; [by split; [|right]|]. cbn [take_line].
  destruct (Ascii.eqb c newline); [done|]. specialize (IH s). destruct (take_line n s) as [l r]. destruct IH as [-> _]. done.
Qed.

Definition no_newline (t : string) : bool := char_all (fun c => negb (Ascii.eqb c newline)) t.

Lemma take_line_text t rest n : no_newline t = true -> len t < n ->
  take_line n (t +:+ nl +:+ rest) = (t +:+ nl, rest).
Proof.
  revert n. induction t as [|c t IH]; intros n Hc Hn; (destruct n as [|n]; [cbn in Hn; lia|]).
  - reflexivity.
  - apply andb_true_iff in Hc as [Hc%negb_true_iff Ht]. change (String c t +:+ nl +:+ rest) with (String c (t +:+ nl +:+ rest)).
    cbn [take_line]. rewrite Hc, IH by (done || (cbn in Hn; lia)). done.
Qed.

(** Reading consumes input until there is none. *)
Lemma read_shorter max input line rest : read_line_bounded max input = Some (line, rest) -> line <> "" -> len rest < len input.
Proof.
  unfold read_line_bounded. pose proof (take_line_split (S max) input) as H. destruct (take_line (S max) input) as [l r].
  destruct H as [-> Hne]. destruct (negb (is_utf8 l)); [done|]. destruct (_ && _); [done|]. intros [= <- <-] Hl.
  rewrite app_len. destruct l; [done|]. cbn. lia.
Qed.

(** A text sent with a newline is read back whole. *)
Definition sendable (max : nat) (t : string) : Prop :=
  no_newline t = true /\ len t <= max /\ is_utf8 (t +:+ nl) = true.

Lemma read_text max t rest : sendable max t -> read_line_bounded max (t +:+ nl +:+ rest) = Some (t +:+ nl, rest).
Proof.
  intros (Hc & Hl & Hu). unfold read_line_bounded. rewrite take_line_text by (done || lia). rewrite Hu. cbn [negb].
  unfold ends_with. rewrite app_len. change (len nl) with 1. replace (len t + 1 - 1) with (len t) by lia.
  rewrite drop_app_str, String.eqb_refl, andb_true_r. replace (1 <=? len t + 1)%nat with true by (symmetry; apply Nat.leb_le; lia).
  by rewrite andb_false_r.
Qed.

(** ** Properties *)

Section Served.
Context (list_sessions : list Value) (load_history : string -> list Value).
Context (from_str : string -> option Value) (cfg : AppConfig) (fresh : nat -> Fresh).

Lemma handle_message_total f msg c d : is_Some (model_info cfg) ->
  is_Some (handle_message list_sessions load_history cfg f msg c d).
Proof.
  intros [v Hv]. unfold handle_message.
  repeat match goal with |- is_Some (if ?b then _ else _) => destruct b end; try by eexists.
  - destruct (on_set_mode msg d). by eexists.
  - destruct (on_confirm msg d). by eexists.
  - destruct (on_answer msg d). by eexists.
  - rewrite Hv. by eexists.
Qed.

Lemma serve_total fuel turn input c d : is_Some (model_info cfg) -> len input < fuel ->
  is_Some (serve list_sessions load_history from_str cfg fresh fuel turn input c d).
Proof.
  intros Hm. revert turn input c d. induction fuel as [|fuel IH]; intros turn input c d Hf; [lia|]. cbn [serve].
  destruct (read_line_bounded _ input) as [[line rest]|] eqn:Er; [|by eexists].
  destruct (is_empty_str line) eqn:El; [by eexists|]. apply is_empty_false in El. pose proof (read_shorter _ _ _ _ Er El) as Hs.
  destruct (if is_empty_str (trim line) then None else from_str (trim line)) as [msg|]; [|apply IH; lia].
  destruct (handle_message_total (fresh turn) msg c d Hm) as [[[w c1] d1] ->]. cbn [mbind option_bind].
  destruct (IH (S turn) rest c1 d1) as [[ws d2] ->]; [lia|]. by eexists.
Qed.

(** The messages one by one, and then the end of the connection. *)
Fixpoint handle_all (turn : nat) (msgs : list Value) (c : Conn) (d : Daemon) : option (list Effect * Daemon) :=
  match msgs with
  | [] => Some ([], sweep_pending_for_sessions (conn_sessions c) d)
  | msg :: msgs =>
      '(w, c, d) ← handle_message list_sessions load_history cfg (fresh turn) msg c d;
      '(ws, d) ← handle_all (S turn) msgs c d;
      Some ((w ++ ws)%list, d)
  end.

Definition sent_bytes (to_string : Value -> string) (msgs : list Value) : string :=
  foldr (fun v s => to_string v +:+ nl +:+ s) "" msgs.

(** A connection handles exactly the messages that were sent.  When every
    message's text is one line of at most a megabyte of UTF-8 that parses back to
    the message, reading the concatenated lines and acting on each is the same as
    handling the messages one by one in order and then sweeping what waits for
    the connection's sessions; a step of fuel per message and one more are
    enough. *)
Theorem serve_messages (to_string : Value -> string) (msgs : list Value) (fuel turn : nat) (c : Conn) (d : Daemon)
  (Hs : Forall (fun v => sendable MAX_RIN_LINE_BYTES (to_string v) /\ trim (to_string v +:+ nl) <> "" /\
                         from_str (trim (to_string v +:+ nl)) = Some v) msgs)
  (Hf : length msgs < fuel) :
  serve list_sessions load_history from_str cfg fresh fuel turn (sent_bytes to_string msgs) c d = handle_all turn msgs c d.
Proof.
  revert fuel turn c d Hf. induction Hs as [|v msgs (Hv & Hne & Hp) _ IH]; intros fuel turn c d Hf;
    (destruct fuel as [|fuel]; [cbn in Hf; lia|]); cbn [serve sent_bytes foldr handle_all]; [reflexivity|].
  rewrite read_text by done. replace (is_empty_str (to_string v +:+ nl)) with false by (by destruct (to_string v)).
  apply is_empty_false in Hne. rewrite Hne, Hp.
  destruct (handle_message _ _ _ _ _ _ _) as [[[w c1] d1]|]; [|done]. cbn [mbind option_bind].
  unfold sent_bytes in IH. rewrite IH by (cbn in Hf; lia). done.
Qed.

(** [C12] What a connection may do to those who wait.  Whatever bytes arrive, with
    a configuration that has a provider and fuel for each byte the connection
    comes to its end; a waiting confirmation or question is replied to at most
    once; and afterwards nothing waits for a session the connection has started
    (its confirmations and questions are gone and its mode is forgotten), while
    no queued remark of any session is lost. *)
Theorem connection_ends (fuel : nat) (input : string) (d : Daemon)
  (Hcfg : is_Some (model_info cfg)) (Hf : len input < fuel) (Ho : replies_once d) :
  exists ws d', serve list_sessions load_history from_str cfg fresh fuel 0 input Conn_new d = Some (ws, d') /\
    replies_once d' /\ gone (runs_of ws) d' /\ queues_grow d d'.
Proof.
  destruct (serve_total fuel 0 input Conn_new d Hcfg Hf) as [[ws d'] E]. exists ws, d'.
  destruct (serve_gone list_sessions load_history cfg from_str fresh fuel 0 input Conn_new d ws d' E) as [Hg Hq].
  split_and!; [done|by apply (serve_once list_sessions load_history cfg from_str fresh fuel 0 input Conn_new d ws d')|done|done].
Qed.
End Served.

(** ** From the agent to the user and back *)

(** The keys that decide a confirmation. *)
Definition decides (k : KeyEvent) (approved : bool) : Prop :=
  key_control k = false /\
  if approved then key_code k = KChar "1" \/ key_code k = KChar "y" \/ key_code k = KChar "Y"
  else key_code k = KChar "2" \/ key_code k = KChar "n" \/ key_code k = KChar "N" \/ key_code k = KEsc.

Lemma decides_keys k approved : decides k approved ->
  (is_char "1" k || is_char "y" k || is_char "Y" k) = approved /\
  (approved = false -> (is_char "2" k || is_char "n" k || is_char "N" k || is_key KEsc k) = true).
Proof.
  intros [_ Hk]. destruct k as [code control]. unfold is_char, is_key. cbn [key_code] in *.
  destruct approved; [destruct Hk as [E|[E|E]]|destruct Hk as [E|[E|[E|E]]]]; rewrite E; by split.
Qed.

Lemma decide_key env k approved id token a : decides k approved -> input_mode a = ModeConfirm id token -> connection a = true ->
  exists a', handle_key env k a = Some a' /\ sent a' = (sent a ++ [CmConfirm id token approved])%list /\ input_mode a' = ModeNormal /\
    a_lines a' = a_lines a.
Proof.
  intros Hk Hm Hc. destruct (decides_keys k approved Hk) as [Ht Hf]. destruct Hk as [Hctl _].
  unfold handle_key, ctrl. rewrite Hctl, andb_false_r, Hm. eexists. split; [reflexivity|].
  unfold key_confirm. rewrite Ht. destruct approved.
  - rewrite (refresh_keeps sent), (refresh_keeps input_mode), (refresh_keeps a_lines) by done. unfold send_confirm.
    cbn -[send]. rewrite send_sent, Hc, (send_keeps a_lines) by done. done.
  - rewrite (Hf eq_refl). unfold send_confirm. cbn -[send]. rewrite send_sent, Hc, (send_keeps a_lines) by done. done.
Qed.

(** [C11] A confirmation travels whole.  A confirmation request of the agent,
    forwarded and written by the daemon, puts the terminal in confirmation mode;
    a key that decides makes it send one message; and that message, handled by
    the daemon, gives exactly that decision to exactly the entry that waits under
    the request's identifier and token, takes the entry away and touches no other,
    and the reply written back leaves the terminal in normal mode with its lines
    as they were. *)
Theorem confirmation_round_trip (to_string : Value -> string) (from_str : string -> option Value) (hhmm : Z -> string)
    (list_sessions : list Value) (load_history : string -> list Value) (cfg : AppConfig) (fresh : Fresh) (env : Env)
    (id tool reason : string) (secs : Z) (p : Pending) (approved : bool) (k : KeyEvent) (a : App) (c : Conn) (d : Daemon)
  (Hid : id <> "") (Hp : d_confirmations d !! id = Some p) (Hk : decides k approved) (Hc : connection a = true) :
  exists s ev a1 a2 d' resp rev a3,
    forward (AgConfirmRequest id tool reason secs (p_token p)) = Some s /\
    read_event (event_json s) = Some ev /\
    handle_socket_event to_string from_str hhmm env ev a = Some a1 /\
    handle_key env k a1 = Some a2 /\
    sent a2 = (sent a ++ [CmConfirm id (p_token p) approved])%list /\
    handle_message list_sessions load_history cfg fresh (client_json (CmConfirm id (p_token p) approved)) c d = Some ([Write resp], c, d') /\
    d_confirmed d' = (d_confirmed d ++ [(id, approved)])%list /\ d_confirmations d' = delete id (d_confirmations d) /\
    d_questions d' = d_questions d /\
    read_event resp = Some rev /\
    handle_socket_event to_string from_str hhmm env rev a2 = Some a3 /\
    input_mode a3 = ModeNormal /\ a_lines a3 = a_lines a.
Proof.
  set (ev := SkStream (TvConfirmationRequest id tool reason secs (p_token p))).
  set (a1 := placeholder (reason +:+ "  [1] Yes  [2] No  · Esc to cancel")
               (a <| agent_phase := AwaitingResult |> <| input_mode := ModeConfirm id (p_token p) |>)).
  destruct (decide_key env k approved id (p_token p) a1 Hk eq_refl Hc) as (a2 & E2 & Hs & Hm & Hl).
  pose proof (resolve_confirm_spec id (p_token p) approved d) as Hr. destruct (resolve_confirm id (p_token p) approved d) as [r d'] eqn:Er.
  destruct Hr as (Hq & _ & Hd & Hcf & Hdel). assert (Hr : delivered r = true) by (apply Hdel; by exists p).
  exists (EvConfirmationRequest id tool reason secs (p_token p)), ev, a1, a2, d', (resolved_json "confirm_resolved" id r),
    (SkConfirmResolved id true), (placeholder "" a2).
  split_and!; try done.
  - assert (Ho : on_confirm (client_json (CmConfirm id (p_token p) approved)) d = ([Write (resolved_json "confirm_resolved" id r)], d')).
    { unfold on_confirm. cbn [client_json index get Json.assoc String.eqb Ascii.eqb Bool.eqb default as_str as_bool from_option Datatypes.id].
      apply is_empty_false in Hid. rewrite Hid. by rewrite Er. }
    unfold handle_message. change (default "" (as_str (index (client_json (CmConfirm id (p_token p) approved)) "type"))) with "confirm".
    cbn [String.eqb Ascii.eqb Bool.eqb]. by rewrite Ho.
  - by rewrite Hcf, Hr.
  - unfold resolved_json. rewrite Hr. reflexivity.
  - cbn [handle_socket_event]. by rewrite Hm.
Qed.

(** ** Witnesses *)

Example waiting : Pending := {| p_token := "tok"; p_created_at := 0; p_session := "s1" |}.
Example daemon0 : Daemon :=
  {| d_tokens := ∅; d_cancelled := ∅; d_questions := ∅; d_confirmations := {["c1" := waiting]}; d_modes := ∅;
     d_bus := SessionBus.SessionBus_new; d_checklist := SessionVectors_new; d_confirmed := []; d_answered := []; d_dropped := [] |}.
Example fresh0 : Fresh := {| fresh_uuid := "new"; fresh_token := 7; fresh_now := 0 |}.

Lemma daemon0_once : replies_once daemon0.
Proof. split; (split; [apply NoDup_nil_2|]); by intros id ?%elem_of_nil. Qed.

Example sessions_text (v : Value) : string := "{}".
Example sessions_msg : Value := client_json CmSessions.

Lemma serve_messages_witness :
  serve [] (fun _ => []) (fun _ => Some sessions_msg) config0 (fun _ => fresh0) 2 0 (sent_bytes sessions_text [sessions_msg]) Conn_new daemon0 =
    Some ([Write (Obj [("sessions", Arr []); ("type", Str "sessions")])], daemon0).
Proof.
  rewrite serve_messages; [reflexivity| |apply Nat.lt_1_2]. apply Forall_singleton.
  split; [split; [|split]|split]; [reflexivity|apply Nat.leb_le; vm_compute; reflexivity|reflexivity|discriminate|reflexivity].
Defined.

Lemma connection_ends_witness : exists ws d',
  serve [] (fun _ => []) (fun _ => None) config0 (fun _ => fresh0) 3 0 "hi" Conn_new daemon0 = Some (ws, d') /\ replies_once d'.
Proof.
  destruct (connection_ends [] (fun _ => []) (fun _ => None) config0 (fun _ => fresh0) 3 "hi" daemon0) as (ws & d' & E & Ho & _).
  - vm_compute. by eexists.
  - cbn. lia.
  - apply daemon0_once.
  - by exists ws, d'.
Defined.

Lemma confirmation_round_trip_witness : exists resp d',
  handle_message [] (fun _ => []) config0 fresh0 (client_json (CmConfirm "c1" "tok" true)) Conn_new daemon0 =
    Some ([Write resp], Conn_new, d') /\ d_confirmed d' = [("c1", true)].
Proof.
  destruct (confirmation_round_trip (fun _ => "") (fun _ => None) (fun _ => "") [] (fun _ => []) config0 fresh0 env0 "c1" "shell" "run it?" 30
    waiting true (plain_key (KChar "y")) app0 Conn_new daemon0) as (s & ev & a1 & a2 & d' & resp & rev & a3 & _ & _ & _ & _ & _ & E & Hd & _);
    [done|done|by split; [|right; left]|done|].
  exists resp, d'. split; [exact E|exact Hd].
Defined.

(** ** Behaviours worth knowing *)

(** A reply with a wrong token is not delivered, but it takes the entry away: the
    right reply that follows finds nothing. *)
Example wrong_token_destroys :
  let d := (resolve_confirm "c1" "guess" true daemon0).2 in
  fst (resolve_confirm "c1" "tok" true d) = NotFound /\ d_dropped d = ["c1"].
Proof. split; reflexivity. Qed.

(** Two runs of one session: the second takes the first one's place in the
    table, the end of the first one removes it, and a cancellation then reaches
    neither. *)
Example second_run_not_cancelled :
  let run n := {| run_sid := "s1"; run_messages := []; run_is_new := false; run_cwd := "/w"; run_pid := ""; run_token := n |} in
  let d := register "s1" 2 "p" "m" 0 (register "s1" 1 "p" "m" 0 daemon0) in
  let d := cancel "s1" (run_end (run 1) d) in
  run_start (fun _ => None) false (run 2) d = RunStarted "/w" None.
Proof. reflexivity. Qed.
