(* ===== verification/Diff.v ===== *)
(** * The diff of a skill's revision

    src/kernel/src/palaces/li_skill/evolution/diff.rs: a table of longest common
    subsequences over the lines, the path back through it, and the text of the
    changes. *)

From S2P Require Import Prelude RString.
Local Open Scope string_scope.
#[local] Arguments String.append !_ _ : simpl nomatch.

(** ** The table *)

(** One row from the row above: [diag] and the head of [above] are the cells of
    the row above at the previous and at this column, [left] the previous cell. *)
Fixpoint next_row (x : string) (new : list string) (diag : nat) (above : list nat) (left : nat) : list nat :=
  match new, above with
  | y :: new, up :: above =>
      let cell := if String.eqb x y then S diag else Nat.max up left in
      cell :: next_row x new up above cell
  | _, _ => []
  end.

Definition row_after (x : string) (new : list string) (above : list nat) : list nat :=
  O :: match above with diag :: above => next_row x new diag above 0 | [] => [] end.

Fixpoint rows_from (above : list nat) (old new : list string) : list (list nat) :=
  match old with
  | [] => []
  | x :: old => let row := row_after x new above in row :: rows_from row old new
  end.

Definition lcs_table (old new : list string) : list (list nat) :=
  let row0 := repeat O (S (length new)) in row0 :: rows_from row0 old new.

Definition cell (dp : list (list nat)) (i j : nat) : nat := default O (row ← dp !! i; row !! j).

(** ** The way back *)

Definition same_line (old new : list string) (i j : nat) : bool :=
  match old !! i, new !! j with Some x, Some y => String.eqb x y | _, _ => false end.

(** [fuel] is the sum of the two positions. *)
Fixpoint backtrack (fuel : nat) (dp : list (list nat)) (old new : list string) (i j : nat) : list (nat * nat) :=
  match fuel with
  | O => []
  | S fuel =>
      match i, j with
      | O, O => []
      | S i', S j' =>
          if same_line old new i' j' then (backtrack fuel dp old new i' j' ++ [(i', j')])%list
          else if (cell dp i' j <=? cell dp i j')%nat then backtrack fuel dp old new i j' else backtrack fuel dp old new i' j
      | O, S j' => backtrack fuel dp old new i j'
      | S i', O => backtrack fuel dp old new i' j
      end
  end.

(** ** The text *)

Inductive Op := Del (line : string) | Add (line : string) | Keep (line : string).

(** [get(from..to)] *)
Definition range (from to : nat) (l : list string) : list string := take (to - from) (drop from l).

(** One edit: the lines taken away and added before it, and the line that stays. *)
Definition emit (old new : list string) (st : nat * nat * list Op) (e : nat * nat) : nat * nat * list Op :=
  let '(oi, ni, ops) := st in
  let '(del, add) := e in
  (S del, S add,
   ops ++ map Del (range oi del old) ++ map Add (range ni add new) ++ match old !! del with Some l => [Keep l] | None => [] end)%list.

Definition edits (old new : list string) : list (nat * nat) :=
  backtrack (length old + length new) (lcs_table old new) old new (length old) (length new).

Definition diff_ops (old new : list string) : list Op :=
  let '(oi, ni, ops) := foldl (emit old new) (O, O, []) (edits old new) in
  (ops ++ map Del (drop oi old) ++ map Add (drop ni new))%list.

Definition render_op (o : Op) : string :=
  match o with Del l => "-" +:+ l +:+ nl | Add l => "+" +:+ l +:+ nl | Keep l => " " +:+ l +:+ nl end.

Definition compute_diff (old new : string) : string :=
  if String.eqb old new then "(no changes)" else concat_str (map render_op (diff_ops (lines old) (lines new))).

(** ** The reference: longest common subsequences *)

(** On two lists read from their ends. *)
Fixpoint lcs (a : list string) : list string -> nat :=
  match a with
  | [] => fun _ => O
  | x :: a' =>
      fix go (b : list string) : nat :=
        match b with
        | [] => O
        | y :: b' => if String.eqb x y then S (lcs a' b') else Nat.max (lcs a' b) (go b')
        end
  end.

Lemma lcs_nil_r a : lcs a [] = 0.
Proof. by destruct a. Qed.

Lemma lcs_cons x a y b : lcs (x :: a) (y :: b) = if String.eqb x y then S (lcs a b) else Nat.max (lcs a (y :: b)) (lcs (x :: a) b).
Proof. reflexivity. Qed.

(** No common subsequence is longer. *)
Lemma lcs_optimal cs a b : sublist cs a -> sublist cs b -> length cs <= lcs a b.
Proof.
  revert cs b. induction a as [|x a IHa]; intros cs b Ha.
  { apply sublist_nil_r in Ha as ->. cbn. lia. }
  revert cs Ha. induction b as [|y b IHb]; intros cs Ha Hb.
  { apply sublist_nil_r in Hb as ->. cbn. lia. }
  rewrite lcs_cons. destruct (String.eqb_spec x y) as [->|Hne].
  - destruct cs as [|z cs]; [cbn; lia|]. cbn [length]. apply le_n_S, IHa.
    + inversion Ha as [|? ? ? H|? ? ? H]; subst; [done|]. etrans; [|exact H]. by apply sublist_cons.
    + inversion Hb as [|? ? ? H|? ? ? H]; subst; [done|]. etrans; [|exact H]. by apply sublist_cons.
  - inversion Ha as [|? cs' ? H|? ? ? H]; subst.
    + inversion Hb as [|? ? ? H'|? ? ? H']; subst; [done|]. etrans; [apply (IHb _ Ha H')|]. lia.
    + etrans; [apply (IHa cs (y :: b) H Hb)|]. lia.
Qed.

(** ** Lemmas: the table holds the reference *)

Definition pre (n : nat) (l : list string) : list string := reverse (take n l).

Lemma pre_S n (l : list string) x : l !! n = Some x -> pre (S n) l = x :: pre n l.
Proof. intros H. unfold pre. rewrite (take_S_r _ _ _ H), reverse_app. done. Qed.

Section Table.
Context (new : list string).

(** Row [a]: the lengths against every prefix of [new]. *)
Definition ref_row (a : list string) : list nat := map (fun j => lcs a (pre j new)) (seq 0 (S (length new))).

Lemma next_row_spec x a k rest : new = (take k new ++ rest)%list -> length (take k new) = k ->
  next_row x rest (lcs a (pre k new)) (map (fun j => lcs a (pre j new)) (seq (S k) (length rest))) (lcs (x :: a) (pre k new)) =
    map (fun j => lcs (x :: a) (pre j new)) (seq (S k) (length rest)).
Proof.
  revert k. induction rest as [|y rest IH]; intros k Hn Hk; [done|]. cbn [length seq map next_row].
  assert (Hy : new !! k = Some y).
  { rewrite Hn, lookup_app_r by lia. by rewrite Hk, Nat.sub_diag. }
  assert (Hc : (if String.eqb x y then S (lcs a (pre k new)) else Nat.max (lcs a (pre (S k) new)) (lcs (x :: a) (pre k new))) =
    lcs (x :: a) (pre (S k) new)) by (by rewrite (pre_S k new y Hy), lcs_cons).
  rewrite Hc. f_equal. apply IH.
  - rewrite (take_S_r _ _ _ Hy), <- app_assoc. exact Hn.
  - rewrite (take_S_r _ _ _ Hy), length_app, Hk. cbn. lia.
Qed.

Lemma row_after_spec x a : row_after x new (ref_row a) = ref_row (x :: a).
Proof.
  unfold row_after, ref_row. cbn [seq map]. f_equal. change (0 : nat) with (lcs (x :: a) (pre 0 new)) at 3.
  apply (next_row_spec x a 0 new); done.
Qed.

Lemma rows_from_lookup old a i row : rows_from (ref_row a) old new !! i = Some row -> row = ref_row (reverse (take (S i) old) ++ a).
Proof.
  revert a i. induction old as [|x old IH]; intros a i H; [done|]. cbn [rows_from] in H. rewrite row_after_spec in H. destruct i as [|i].
  - injection H as <-. done.
  - change (rows_from (ref_row (x :: a)) old new !! i = Some row) in H. apply IH in H as ->. cbn [take]. by rewrite reverse_cons, <- app_assoc.
Qed.

Lemma rows_from_length old above : length (rows_from above old new) = length old.
Proof. revert above. induction old as [|x old IH]; intros above; [done|]. cbn. by rewrite IH. Qed.

Lemma row0_spec : repeat 0 (S (length new)) = ref_row [].
Proof.
  unfold ref_row. generalize (S (length new)) as n, 0 at 2 as s. intros n. induction n as [|n IH]; intros s; [done|]. cbn. by rewrite <- IH.
Qed.

Lemma cell_spec old i j : i <= length old -> j <= length new -> cell (lcs_table old new) i j = lcs (pre i old) (pre j new).
Proof.
  intros Hi Hj. unfold cell, lcs_table. rewrite row0_spec.
  assert (Hr : exists row, (ref_row [] :: rows_from (ref_row []) old new) !! i = Some row /\ row = ref_row (pre i old)).
  { destruct i as [|i]; [by exists (ref_row [])|]. cbn.
    destruct (rows_from (ref_row []) old new !! i) as [row|] eqn:E; [|apply lookup_ge_None in E; rewrite rows_from_length in E; lia].
    exists row. split; [done|]. apply rows_from_lookup in E. by rewrite app_nil_r in E. }
  destruct Hr as (row & -> & ->). cbn [mbind option_bind]. unfold ref_row. rewrite list_lookup_fmap_alt || rewrite list_lookup_fmap.
  rewrite lookup_seq_lt by lia. done.
Qed.
End Table.

(** ** Lemmas: the operations *)

Definition old_of (ops : list Op) : list string := omap (fun o => match o with Del l | Keep l => Some l | Add _ => None end) ops.
Definition new_of (ops : list Op) : list string := omap (fun o => match o with Add l | Keep l => Some l | Del _ => None end) ops.
Definition kept_of (ops : list Op) : list string := omap (fun o => match o with Keep l => Some l | _ => None end) ops.

Lemma of_dels l : old_of (map Del l) = l /\ new_of (map Del l) = [] /\ kept_of (map Del l) = [].
Proof. unfold old_of, new_of, kept_of. induction l as [|x l (H1 & H2 & H3)]; [done|]. cbn. by rewrite H1. Qed.
Lemma of_adds l : old_of (map Add l) = [] /\ new_of (map Add l) = l /\ kept_of (map Add l) = [].
Proof. unfold old_of, new_of, kept_of. induction l as [|x l (H1 & H2 & H3)]; [done|]. cbn. by rewrite H2. Qed.

Lemma take_range i j (l : list string) : i <= j -> (take i l ++ range i j l)%list = take j l.
Proof. intros H. unfold range. rewrite take_take_drop. f_equal. lia. Qed.

Lemma old_of_app a b : old_of (a ++ b) = (old_of a ++ old_of b)%list. Proof. apply omap_app. Qed.
Lemma new_of_app a b : new_of (a ++ b) = (new_of a ++ new_of b)%list. Proof. apply omap_app. Qed.
Lemma kept_of_app a b : kept_of (a ++ b) = (kept_of a ++ kept_of b)%list. Proof. apply omap_app. Qed.

(** What has been emitted accounts for a prefix of both texts. *)
Definition emitted (old new : list string) (i j n : nat) (st : nat * nat * list Op) : Prop :=
  let '(oi, ni, ops) := st in
  oi <= i /\ ni <= j /\ old_of ops = take oi old /\ new_of ops = take ni new /\ length (kept_of ops) = n.

Lemma emit_spec old new i j n st x : old !! i = Some x -> new !! j = Some x -> emitted old new i j n st ->
  emitted old new (S i) (S j) (S n) (emit old new st (i, j)).
Proof.
  intros Hi Hj. destruct st as [[oi ni] ops]. intros (Ho & Hn & Eo & En & Ek). unfold emit, emitted. rewrite Hi.
  destruct (of_dels (range oi i old)) as (D1 & D2 & D3), (of_adds (range ni j new)) as (A1 & A2 & A3).
  rewrite !old_of_app, !new_of_app, !kept_of_app, D1, D2, D3, A1, A2, A3, Eo, En. cbn [app].
  split_and!; try lia.
  - change (old_of [Keep x]) with [x]. rewrite app_assoc, take_range by done. by rewrite (take_S_r _ _ _ Hi).
  - change (new_of [Keep x]) with [x]. rewrite app_assoc, take_range by done. by rewrite (take_S_r _ _ _ Hj).
  - rewrite length_app. cbn. lia.
Qed.

Lemma emitted_le old new i j i' j' n st : i <= i' -> j <= j' -> emitted old new i j n st -> emitted old new i' j' n st.
Proof. destruct st as [[oi ni] ops]. intros ? ? (? & ? & ? & ? & ?). split_and!; try done; lia. Qed.

Lemma same_line_spec old new i j : same_line old new i j = true <-> exists x, old !! i = Some x /\ new !! j = Some x.
Proof.
  unfold same_line. destruct (old !! i) as [x|], (new !! j) as [y|]; try (split; [done|by intros (? & ? & ?)]).
  rewrite String.eqb_eq. split; [intros ->; by exists y|]. by intros (z & [= ->] & [= ->]).
Qed.

Lemma backtrack_spec old new fuel i j : i + j <= fuel -> i <= length old -> j <= length new ->
  emitted old new i j (lcs (pre i old) (pre j new)) (foldl (emit old new) (0, 0, []) (backtrack fuel (lcs_table old new) old new i j)).
Proof.
  revert i j. induction fuel as [|fuel IH]; intros i j Hf Hi Hj.
  { assert (i = 0) as -> by lia. assert (j = 0) as -> by lia. by split_and!. }
  cbn [backtrack]. destruct i as [|i], j as [|j].
  - by split_and!.
  - eapply emitted_le; [| |apply (IH 0 j)]; lia.
  - rewrite lcs_nil_r. eapply emitted_le; [| |pose proof (IH i 0) as H; rewrite lcs_nil_r in H; apply H]; lia.
  - destruct (lookup_lt_is_Some_2 old i) as [x Hx]; [lia|]. destruct (lookup_lt_is_Some_2 new j) as [y Hy]; [lia|].
    rewrite (pre_S i old x Hx), (pre_S j new y Hy), lcs_cons.
    destruct (same_line old new i j) eqn:Es.
    + apply same_line_spec in Es as (z & Hz & Hz'). rewrite Hx in Hz. rewrite Hy in Hz'. injection Hz as <-. injection Hz' as <-.
      rewrite String.eqb_refl, foldl_app. cbn [foldl]. eapply emit_spec; [exact Hx|exact Hy|]. apply IH; lia.
    + assert (Hne : String.eqb x y = false).
      { apply String.eqb_neq. intros ->. assert (same_line old new i j = true) by (apply same_line_spec; by exists y). congruence. }
      rewrite Hne. rewrite !cell_spec by lia. rewrite <- (pre_S i old x Hx), <- (pre_S j new y Hy).
      destruct (Nat.leb_spec (lcs (pre i old) (pre (S j) new)) (lcs (pre (S i) old) (pre j new))) as [Hl|Hl].
      * rewrite Nat.max_r by done. eapply emitted_le; [| |apply (IH (S i) j)]; lia.
      * rewrite Nat.max_l by lia. eapply emitted_le; [| |apply (IH i (S j))]; lia.
Qed.

Lemma sublist_rev (a b : list string) : sublist a b -> sublist (reverse a) (reverse b).
Proof.
  induction 1 as [|x a b H IH|x a b H IH]; [done| |]; rewrite ?reverse_cons; [by apply sublist_app|by apply sublist_inserts_r].
Qed.

(** ** Properties *)

(** [C35] The recorded diff is a shortest one.  Unless the two texts are equal, the
    diff is the text of a list of operations whose kept and removed lines are the
    old text's lines in order and whose kept and added lines are the new text's,
    so the new file can be made from the old one; and no common subsequence of
    the two lists of lines is longer than the lines it keeps. *)
Theorem diff_spec (old new : string) :
  exists ops, compute_diff old new = (if String.eqb old new then "(no changes)" else concat_str (map render_op ops)) /\
    old_of ops = lines old /\ new_of ops = lines new /\
    forall cs, sublist cs (lines old) -> sublist cs (lines new) -> length cs <= length (kept_of ops).
Proof.
  exists (diff_ops (lines old) (lines new)). split; [done|]. generalize (lines old) as a, (lines new) as b. intros a b.
  pose proof (backtrack_spec a b (length a + length b) (length a) (length b) ltac:(lia) ltac:(lia) ltac:(lia)) as H.
  unfold diff_ops, edits. destruct (foldl _ _ _) as [[oi ni] ops]. destruct H as (Ho & Hn & Eo & En & Ek).
  destruct (of_dels (drop oi a)) as (D1 & D2 & D3), (of_adds (drop ni b)) as (A1 & A2 & A3).
  rewrite !old_of_app, !new_of_app, !kept_of_app, D1, D2, D3, A1, A2, A3, Eo, En, !app_nil_r. cbn [app].
  rewrite !take_drop. split_and!; [done|done|]. intros cs Ha Hb. rewrite Ek. unfold pre. rewrite !take_ge by lia.
  rewrite <- (length_reverse cs). apply lcs_optimal; by apply sublist_rev.
Qed.
