(* ===== verification/Skills.v ===== *)
(** * Skills: files, registry and tool

    src/kernel/src/palaces/li_skill/{loader,mod}.rs, the skill tool
    (zhen_tool/builtin/skill.rs) and the HTTP handlers of dui_gateway/skills.rs.
    YAML, glob patterns, the directory and the iteration order of hash tables are
    arguments. *)

From S2P Require Import Prelude RString Utf8 Float Path Json Files.
From S2P Require Loop.
From Stdlib Require Import Ascii.
Local Open Scope string_scope.
#[local] Arguments String.append !_ _ : simpl nomatch.

(** ** The directory *)

(** The calls made on files: entries of a directory by name, the kind of a path,
    and writes, renames and removals, which return the disk after them. *)
Class SkillFs (D : Type) := {
  d_read_dir : D -> string -> result string (list (result string string));
  d_is_dir : D -> string -> bool;
  d_is_file : D -> string -> bool;
  d_read : D -> string -> result string string;
  d_age : D -> string -> option Z;
  d_write : string -> string -> D -> result string unit * D;
  d_rename : string -> string -> D -> result string unit * D;
  d_remove : string -> D -> D
}.

Class SkillFsLaws (D : Type) `{SkillFs D} := {
  d_write_read p s d d' : d_write p s d = (Ok (), d') -> d_read d' p = Ok s;
  d_write_frame p s d q : q <> p -> d_read (snd (d_write p s d)) q = d_read d q;
  d_rename_read p q d d' : p <> q -> d_rename p q d = (Ok (), d') -> d_read d' q = d_read d p;
  d_rename_frame p q d r : r <> p -> r <> q -> d_read (snd (d_rename p q d)) r = d_read d r;
  d_rename_failed p q d d' e r : d_rename p q d = (Err e, d') -> d_read d' r = d_read d r;
  d_remove_frame p d q : q <> p -> d_read (d_remove p d) q = d_read d q
}.

(** ** Frontmatter *)

Record SkillFrontmatter := {
  fm_name : option string;
  fm_always : bool;
  fm_paths : option (list string);
  fm_description : option string;
  fm_auto_evolve : bool;
  fm_evolve_min_confidence : spec_float;
  fm_evolve_max_revisions_per_session : Z;
  fm_evolve_reflection_threshold : Z
}.

Definition default_min_confidence : spec_float := F64.lit 7 10.
Definition default_max_revisions : Z := 3.
Definition default_reflection_threshold : Z := 3.

Definition crlf : string := String cr nl.

(** The closing delimiters, in the order they are tried: the text and how much
    of it is skipped is its length. *)
Definition closings : list string :=
  [nl +:+ "---" +:+ nl; nl +:+ "---" +:+ crlf; crlf +:+ "---" +:+ crlf; crlf +:+ "---" +:+ nl; nl +:+ "---"; crlf +:+ "---"].

Fixpoint split_at_first (pats : list string) (rest : string) : option (string * string) :=
  match pats with
  | [] => None
  | p :: pats =>
      match find_str p rest with
      | Some e => Some (take_str e rest, drop_str (e + len p) rest)
      | None => split_at_first pats rest
      end
  end.

Section Parse.
(** [serde_yaml::from_str::<SkillFrontmatter>]. *)
Context (from_yaml : string -> option SkillFrontmatter).

Definition parse_frontmatter (content : string) : option SkillFrontmatter * string :=
  match strip_prefix_str content ("---" +:+ nl) ∪ strip_prefix_str content ("---" +:+ crlf) with
  | Some rest =>
      match split_at_first closings rest with
      | Some (fm_str, body) =>
          match from_yaml fm_str with
          | Some fm => (Some fm, body)
          | None => (None, content)
          end
      | None => (None, content)
      end
  | None => (None, content)
  end.
End Parse.

(** ** Emphasis *)

Definition HEADING : string := "## Emphasis".

(** The character before a position is a line feed, or there is none. *)
Definition line_start (content : string) (pos : nat) : bool :=
  match pos with
  | O => true
  | S k => match String.get k content with Some c => Ascii.eqb c newline | None => false end
  end.

(** [fuel]: one more than the bytes of the text. *)
Fixpoint last_heading (fuel : nat) (content : string) (search_start : nat) (last_pos : option nat) : option nat :=
  match fuel with
  | O => last_pos
  | S fuel =>
      match find_str HEADING (drop_str search_start content) with
      | None => last_pos
      | Some pos =>
          let abs_pos := (search_start + pos)%nat in
          let last_pos :=
            if line_start content abs_pos then
              match strip_prefix_str (drop_str abs_pos content) HEADING with
              | Some rest => if starts_with rest "#" then last_pos else Some abs_pos
              | None => last_pos
              end
            else last_pos in
          last_heading fuel content (abs_pos + 2) last_pos
      end
  end.

Definition emphasis_text (from_heading : string) : string :=
  let raw_emphasis := trim from_heading in
  match strip_prefix_str raw_emphasis HEADING with Some s => trim_start s | None => raw_emphasis end.

Definition split_emphasis (content : string) : string * option string :=
  match last_heading (S (len content)) content 0 None with
  | Some pos =>
      let body := trim_end (take_str pos content) in
      let emphasis := emphasis_text (drop_str pos content) in
      (body, if is_empty_str emphasis then None else Some emphasis)
  | None => (content, None)
  end.

(** ** Skills *)

Record Skill (P : Type) := {
  name : string;
  description : string;
  prompt : string;
  source_path : string;
  always : bool;
  paths : option (list P);
  emphasis : option string;
  auto_evolve : bool;
  evolve_min_confidence : spec_float;
  evolve_max_revisions_per_session : Z;
  evolve_reflection_threshold : Z;
  scripts : gmap string string;
  references : gmap string string
}.
Arguments name {P}. Arguments description {P}. Arguments prompt {P}. Arguments source_path {P}. Arguments always {P}.
Arguments paths {P}. Arguments emphasis {P}. Arguments auto_evolve {P}. Arguments evolve_min_confidence {P}.
Arguments evolve_max_revisions_per_session {P}. Arguments evolve_reflection_threshold {P}. Arguments scripts {P}. Arguments references {P}.

(** [trim_start_matches('#')]. *)
Fixpoint trim_hashes (s : string) : string :=
  match s with
  | String c s' => if Ascii.eqb c "#" then trim_hashes s' else s
  | "" => ""
  end.

(** [Path::file_stem]. *)
Definition file_stem (p : string) : option string :=
  n ← file_name p; Some (match rfind_str "." n with Some (S k) => take_str (S k) n | _ => n end).

(** ** The registry *)

Record SkillRegistry (P : Type) := { skills : gmap string (Skill P); disabled : gset string }.
Arguments skills {P}. Arguments disabled {P}. Arguments Build_SkillRegistry {P}.

Definition SkillRegistry_new {P} : SkillRegistry P := {| skills := ∅; disabled := ∅ |}.

Definition register {P} (skill : Skill P) (r : SkillRegistry P) : SkillRegistry P :=
  {| skills := <[name skill := skill]> (skills r); disabled := disabled r |}.

Definition registry_get {P} (r : SkillRegistry P) (n : string) : option (Skill P) :=
  if bool_decide (n ∈ disabled r) then None else skills r !! n.

(** [usize] subtraction: [None] is the overflow. *)
Definition registry_len {P} (r : SkillRegistry P) : option nat :=
  if (base.size (disabled r) <=? base.size (skills r))%nat then Some (base.size (skills r) - base.size (disabled r))%nat else None.

Definition registry_is_empty {P} (r : SkillRegistry P) : option bool := (fun n => n =? 0)%nat <$> registry_len r.

Definition disable {P} (n : string) (r : SkillRegistry P) : bool * SkillRegistry P :=
  match skills r !! n with
  | Some _ => (true, {| skills := skills r; disabled := {[n]} ∪ disabled r |})
  | None => (false, r)
  end.

Definition enable {P} (n : string) (r : SkillRegistry P) : bool * SkillRegistry P :=
  (bool_decide (n ∈ disabled r), {| skills := skills r; disabled := disabled r ∖ {[n]} |}).

Definition is_disabled {P} (r : SkillRegistry P) (n : string) : bool := bool_decide (n ∈ disabled r).

Definition set_disabled {P} (names : gset string) (r : SkillRegistry P) : SkillRegistry P :=
  {| skills := skills r; disabled := names |}.

Section Skills.
Context {P : Type} (pattern_new : string -> option P) (pattern_matches : P -> string -> bool).
Context (from_yaml : string -> option SkillFrontmatter).
(** The order in which a hash table is iterated. *)
Context (iter : forall A, gmap string A -> list (string * A)).
Context {D : Type} `{SkillFs D}.

Definition list_names (r : SkillRegistry P) : list string :=
  List.filter (fun n => negb (is_disabled r n)) (map fst (iter _ (skills r))).

Definition list_all (r : SkillRegistry P) : list (Skill P) :=
  map snd (List.filter (fun ns => negb (is_disabled r (fst ns))) (iter _ (skills r))).

Definition list_all_with_status (r : SkillRegistry P) : list (Skill P * bool) :=
  map (fun ns => (snd ns, is_disabled r (name (snd ns)))) (iter _ (skills r)).

Definition build_skill_prompt (r : SkillRegistry P) : string :=
  match list_all r with
  | [] => ""
  | l =>
      nl +:+ nl +:+ "## Available Skills" +:+ nl +:+ nl
        +:+ "You have specialized skills available. Follow the instructions below when relevant:" +:+ nl +:+ nl
        +:+ concat_str (map (fun s => "### " +:+ name s +:+ nl +:+ prompt s +:+ nl +:+ nl) l)
  end.

Definition path_matched (touched : list string) (s : Skill P) : bool :=
  match paths s with
  | Some patterns => existsb (fun path => existsb (fun p => pattern_matches p path) patterns) touched
  | None => false
  end.

Definition activate_for_paths (r : SkillRegistry P) (touched : list string) : list string :=
  map name (List.filter (fun s => negb (is_disabled r (name s)) && negb (always s) && path_matched touched s) (map snd (iter _ (skills r)))).

(** ** Loading *)

Definition read_dir_files (d : D) (dir : string) : gmap string string :=
  match d_read_dir d dir with
  | Err _ => ∅
  | Ok entries =>
      foldl (fun files entry =>
        match entry with
        | Err _ => files
        | Ok n =>
            let path := path_join dir n in
            if negb (d_is_file d path) then files
            else
              let key := if is_utf8 n then n else "" in
              if is_empty_str key || starts_with key "." then files
              else match d_read d path with Ok content => <[key := content]> files | Err _ => files end
        end) ∅ entries
  end.

Definition collect_bundled_files (d : D) (skill_dir : string) : gmap string string * gmap string string :=
  (read_dir_files d (path_join skill_dir "scripts"), read_dir_files d (path_join skill_dir "references")).

Definition first_heading (body : string) : option string :=
  (fun l => trim (trim_hashes l)) <$> List.find (fun l => starts_with l "#") (lines body).

Definition parse_skill (d : D) (path content : string) : Skill P :=
  let '(frontmatter, body) := parse_frontmatter from_yaml content in
  let skill_name :=
    default (default path (parent path ≫= file_stem)) (frontmatter ≫= fm_name) in
  let descr :=
    default (default "" (head (lines body))) ((frontmatter ≫= fm_description) ∪ first_heading body) in
  let '(scripts, references) := collect_bundled_files d (default "." (parent path)) in
  let '(body, emph) := split_emphasis body in
  {| name := skill_name; description := descr; prompt := body; source_path := path;
     always := match frontmatter with Some fm => fm_always fm | None => false end;
     paths := (fun raw : list string => (omap pattern_new raw : list P)) <$> (frontmatter ≫= fm_paths);
     emphasis := emph;
     auto_evolve := match frontmatter with Some fm => fm_auto_evolve fm | None => false end;
     evolve_min_confidence := match frontmatter with Some fm => fm_evolve_min_confidence fm | None => default_min_confidence end;
     evolve_max_revisions_per_session :=
       match frontmatter with Some fm => fm_evolve_max_revisions_per_session fm | None => default_max_revisions end;
     evolve_reflection_threshold :=
       match frontmatter with Some fm => fm_evolve_reflection_threshold fm | None => default_reflection_threshold end;
     scripts := scripts; references := references |}.

Definition load_file (d : D) (path : string) : result string (Skill P) :=
  match d_read d path with
  | Err e => Err ("cannot read " +:+ path +:+ ": " +:+ e)
  | Ok content => Ok (parse_skill d path content)
  end.

(** The entries are taken one by one; the first that cannot be read ends the
    loading with what is registered so far. *)
Fixpoint load_entries (d : D) (dir : string) (present : string -> bool) (entries : list (result string string))
    (count : nat) (r : SkillRegistry P) : result string nat * SkillRegistry P :=
  match entries with
  | [] => (Ok count, r)
  | Err e :: _ => (Err e, r)
  | Ok n :: entries =>
      let subdir := path_join dir n in
      let skill_file := path_join subdir "SKILL.md" in
      if d_is_dir d subdir && present skill_file then
        match load_file d skill_file with
        | Ok skill => load_entries d dir present entries (S count) (register skill r)
        | Err _ => load_entries d dir present entries count r
        end
      else load_entries d dir present entries count r
  end.

Definition load_directory_sync (d : D) (dir : string) (r : SkillRegistry P) : result string nat * SkillRegistry P :=
  match d_read_dir d dir with
  | Err e => (Err e, r)
  | Ok entries => load_entries d dir (d_is_file d) entries 0 r
  end.

(** The asynchronous loader asks [try_exists]. *)
Definition load_directory (exists_ : string -> bool) (d : D) (dir : string) (r : SkillRegistry P) : result string nat * SkillRegistry P :=
  match d_read_dir d dir with
  | Err e => (Err e, r)
  | Ok entries => load_entries d dir exists_ entries 0 r
  end.

(** ** The watcher *)

(** A notification, an error of the watcher, or half a second without either
    (which a closed channel is too). *)
Inductive Watched := Changed | WatchError | Quiet (d : D).

Definition reload (d : D) (dir : string) (r : SkillRegistry P) : SkillRegistry P :=
  match load_directory_sync d dir SkillRegistry_new with
  | (Ok _, fresh) => set_disabled (disabled r) fresh
  | (Err _, _) => r
  end.

Definition watch_step (dir : string) (st : bool * SkillRegistry P) (w : Watched) : bool * SkillRegistry P :=
  let '(dirty, r) := st in
  match w with
  | Changed => (true, r)
  | WatchError => (dirty, r)
  | Quiet d => if dirty then (false, reload d dir r) else (false, r)
  end.

(** ** The skill tool *)

Definition names_or (none : string) (names : list string) : string :=
  match names with [] => none | _ => str_join ", " names end.

Definition build_description (r : SkillRegistry P) : string :=
  match list_names r with
  | [] => "Invoke a specialized skill by name. No skills currently loaded."
  | names => "Invoke a specialized skill by name. Available skills: " +:+ str_join ", " names
      +:+ ". Call with a skill name to get detailed instructions for that domain."
  end.

(** A bundled file, or what there is instead. *)
Definition bundled (kind plural skill_name file : string) (files : gmap string string) : result ToolError string :=
  match files !! file with
  | Some content => Ok content
  | None =>
      Err (error_of (match map fst (iter _ files) with
        | [] => "Skill '" +:+ skill_name +:+ "' has no bundled " +:+ plural +:+ "."
        | available => kind +:+ " '" +:+ file +:+ "' not found in skill '" +:+ skill_name +:+ "'. Available: " +:+ str_join ", " available
        end))
  end.

Definition bundle_line (title key skill_name : string) (files : gmap string string) : string :=
  if bool_decide (files = ∅) then ""
  else nl +:+ "**" +:+ title +:+ "** (use `skill(" +:+ skill_name +:+ ", " +:+ key +:+ "=" +:+ dq +:+ "..." +:+ dq +:+ ")` to read): "
    +:+ str_join ", " (map fst (iter _ files)).

Definition skill_text (skill_name : string) (s : Skill P) : string :=
  prompt s
    +:+ (match emphasis s with
         | Some e => nl +:+ nl +:+ "> **Critical Reminder:**" +:+ nl +:+ "> " +:+ replace_str e nl (nl +:+ "> ")
         | None => ""
         end)
    +:+ (if bool_decide (scripts s = ∅) && bool_decide (references s = ∅) then ""
         else nl +:+ nl +:+ "---" +:+ nl +:+ "## Bundled Resources" +:+ nl
           +:+ bundle_line "Scripts" "script" skill_name (scripts s)
           +:+ bundle_line "References" "reference" skill_name (references s) +:+ nl).

Definition skill_execute (r : SkillRegistry P) (input : Value) : result ToolError string :=
  match as_str (index input "skill") with
  | None => Err (error_of "Missing 'skill' parameter")
  | Some skill_name =>
      match registry_get r skill_name with
      | None => Err (error_of ("Unknown skill '" +:+ skill_name +:+ "'. Available: " +:+ names_or "no skills loaded" (list_names r)))
      | Some s =>
          match as_str (index input "script") with
          | Some f => bundled "Script" "scripts" skill_name f (scripts s)
          | None =>
              match as_str (index input "reference") with
              | Some f => bundled "Reference" "references" skill_name f (references s)
              | None => Ok (skill_text skill_name s)
              end
          end
      end
  end.

(** ** Activation by path, per session *)

Definition activate_skills (r : SkillRegistry P) (touched : list string) (activated : list string) : list string :=
  match touched with
  | [] => activated
  | _ => foldl (fun l n => if existsb (String.eqb n) l then l else (l ++ [n])%list) activated (activate_for_paths r touched)
  end.

(** ** The HTTP handlers *)

(** [earth]: the registry of the daemon, once there is an agent.  Joining the
    blocking task is taken to succeed. *)

Definition prompt_preview (text : string) (max_chars : nat) : string :=
  if (len text <=? max_chars)%nat then text else take_str (Loop.boundary_below max_chars text) text.

Definition json_f64 (x : spec_float) : Value :=
  match x with S754_nan | S754_infinity _ => Null | _ => Num (FloatNum x) end.
Definition json_error (e : string) : Value := Obj [("error", Str e)].
Definition no_agent : Value := json_error "Agent not initialized".

Definition skill_json (s : Skill P) (dis : bool) : Value :=
  Obj [("always", Bool (always s)); ("auto_evolve", Bool (auto_evolve s)); ("description", Str (description s));
       ("disabled", Bool dis); ("evolve_max_revisions_per_session", Num (PosInt (evolve_max_revisions_per_session s)));
       ("evolve_min_confidence", json_f64 (evolve_min_confidence s));
       ("evolve_reflection_threshold", Num (PosInt (evolve_reflection_threshold s)));
       ("has_paths", Bool (bool_decide (is_Some (paths s)))); ("name", Str (name s));
       ("prompt", Str (prompt_preview (prompt s) 200)); ("source_path", Str (source_path s))].

Definition handle_skills (earth : option (SkillRegistry P)) : Value :=
  match earth with
  | None => Obj [("skills", Arr [])]
  | Some r => Obj [("skills", Arr (map (fun sd => skill_json (fst sd) (snd sd)) (list_all_with_status r)))]
  end.

Definition handle_skills_reload (d : D) (dir : string) (earth : option (SkillRegistry P)) : Value * option (SkillRegistry P) :=
  match earth with
  | None => (no_agent, None)
  | Some r =>
      match load_directory_sync d dir SkillRegistry_new with
      | (Ok n, fresh) => (Obj [("loaded", Num (PosInt (Z.of_nat n)))], Some (set_disabled (disabled r) fresh))
      | (Err e, _) => (Obj [("error", Str ("reload failed: " +:+ e)); ("loaded", Num (PosInt 0))], Some r)
      end
  end.

Definition handle_skills_toggle (body : Value) (earth : option (SkillRegistry P)) : Value * option (SkillRegistry P) :=
  match earth with
  | None => (no_agent, None)
  | Some r =>
      match get body "name" ≫= as_str with
      | None => (json_error "Missing 'name' field", Some r)
      | Some n =>
          if default true (get body "disabled" ≫= as_bool) then
            let '(found, r) := disable n r in
            (if found then Obj [("disabled", Bool true); ("name", Str n); ("ok", Bool true)]
             else json_error ("Skill '" +:+ n +:+ "' not found"), Some r)
          else
            let '(was, r) := enable n r in
            (if was then Obj [("disabled", Bool false); ("name", Str n); ("ok", Bool true)]
             else json_error ("Skill '" +:+ n +:+ "' was not disabled"), Some r)
      end
  end.

(** *** The [auto_evolve] line of a file *)

Definition KEY : string := "auto_evolve:".

Fixpoint spaces (n : nat) : string := match n with O => "" | S n => String " " (spaces n) end.

(** The text of line [j], with whether the key has been replaced before it. *)
Definition toggled_line (fm_end : nat) (existing : option nat) (new_val : string) (st : string * bool) (jl : nat * string) : string * bool :=
  let '(result, replaced) := st in
  let '(j, line) := jl in
  if (0 <? j)%nat && (j <? fm_end)%nat && bool_decide (existing = Some (j - 1)%nat) then
    (result +:+ spaces (len line - len (trim_start line)) +:+ KEY +:+ " " +:+ new_val +:+ nl, true)
  else if (j =? fm_end)%nat && negb replaced then (result +:+ KEY +:+ " " +:+ new_val +:+ nl +:+ line +:+ nl, replaced)
  else (result +:+ line +:+ nl, replaced).

Definition toggled (content : string) (enable : bool) : result string string :=
  match lines content with
  | first :: rest =>
      if String.eqb first "---" then
        match position (String.eqb "---") rest with
        | Some p =>
            let fm_end := S p in
            let existing := position (fun l => starts_with (trim_start l) KEY) (take p rest) in
            let new_val := if enable then "true" else "false" in
            Ok (trim_end (fst (foldl (toggled_line fm_end existing new_val) ("", false) (imap pair (first :: rest)))))
        | None => Err "Unclosed frontmatter"
        end
      else Err "No frontmatter found"
  | [] => Err "No frontmatter found"
  end.

Definition toggle_frontmatter_auto_evolve (path : string) (enable : bool) (d : D) : result string unit * D :=
  match d_read d path with
  | Err e => (Err ("Cannot read " +:+ path +:+ ": " +:+ e), d)
  | Ok content =>
      match toggled content enable with
      | Err e => (Err e, d)
      | Ok text =>
          match d_write path text d with
          | (Ok _, d) => (Ok (), d)
          | (Err e, d) => (Err ("Cannot write " +:+ path +:+ ": " +:+ e), d)
          end
      end
  end.

Definition handle_skills_evolve_toggle (body : Value) (dir : string) (earth : option (SkillRegistry P)) (d : D) :
    Value * option (SkillRegistry P) * D :=
  match earth with
  | None => (no_agent, None, d)
  | Some r =>
      match get body "name" ≫= as_str with
      | None => (json_error "Missing 'name' field", Some r, d)
      | Some n =>
          let on := default false (get body "auto_evolve" ≫= as_bool) in
          match List.find (fun sd => String.eqb (name (fst sd)) n) (list_all_with_status r) with
          | None => (json_error ("Skill '" +:+ n +:+ "' not found"), Some r, d)
          | Some (s, _) =>
              match toggle_frontmatter_auto_evolve (source_path s) on d with
              | (Err e, d) => (json_error e, Some r, d)
              | (Ok _, d) =>
                  let '(_, fresh) := load_directory_sync d dir SkillRegistry_new in
                  (Obj [("auto_evolve", Bool on); ("name", Str n); ("ok", Bool true)], Some (set_disabled (disabled r) fresh), d)
              end
          end
      end
  end.
End Skills.

(** ** Lemmas: the registry *)

Create HintDb skills.

(** Every skill is filed under its own name. *)
Definition registry_wf {P} (r : SkillRegistry P) : Prop := forall n s, skills r !! n = Some s -> name s = n.

Lemma empty_registry_wf {P} : registry_wf (P := P) SkillRegistry_new.
Proof. intros n s H. done. Qed.

Lemma register_skill_wf {P} (s : Skill P) r : registry_wf r -> registry_wf (register s r).
Proof.
  intros H n s' Hl. cbn in Hl. destruct (decide (n = name s)) as [->|Hne].
  - rewrite lookup_insert_eq in Hl. by injection Hl as <-.
  - rewrite lookup_insert_ne in Hl by done. by apply H.
Qed.

Lemma same_skills_wf {P} (r r' : SkillRegistry P) : skills r' = skills r -> registry_wf r -> registry_wf r'.
Proof. intros He H n s. rewrite He. apply H. Qed.

Lemma disable_skills {P} n (r : SkillRegistry P) : skills (snd (disable n r)) = skills r.
Proof. unfold disable. by destruct (skills r !! n). Qed.

#[export] Hint Resolve empty_registry_wf register_skill_wf : skills.

Lemma set_disabled_wf {P} names (r : SkillRegistry P) : registry_wf r -> registry_wf (set_disabled names r).
Proof. by apply same_skills_wf. Qed.

#[export] Hint Resolve set_disabled_wf : skills.

Lemma registry_get_Some {P} (r : SkillRegistry P) n s : registry_get r n = Some s <-> n ∉ disabled r /\ skills r !! n = Some s.
Proof. unfold registry_get. case_bool_decide as Hd; [|tauto]. split; [done|]. by intros [? _]. Qed.

Section Views.
Context {P : Type} (pattern_new : string -> option P) (pattern_matches : P -> string -> bool).
Context (from_yaml : string -> option SkillFrontmatter).
Context (iter : forall A, gmap string A -> list (string * A)).
Hypothesis Hiter : forall A (m : gmap string A), iter A m ≡ₚ map_to_list m.
Context {D : Type} `{SkillFs D}.

Lemma elem_iter A (m : gmap string A) k v : (k, v) ∈ iter A m <-> m !! k = Some v.
Proof. rewrite (Hiter A m). apply elem_of_map_to_list. Qed.

Lemma list_names_spec r n : n ∈ list_names iter r <-> is_Some (registry_get (P := P) r n).
Proof.
  unfold list_names. rewrite list_elem_of_In, List.filter_In, <- list_elem_of_In. unfold is_disabled.
  rewrite negb_true_iff, bool_decide_eq_false. split.
  - intros [Hin Hd]. apply list_elem_of_fmap in Hin as ([k s] & -> & Hin). apply elem_iter in Hin.
    exists s. by apply registry_get_Some.
  - intros [s Hs]. apply registry_get_Some in Hs as [Hd Hs]. split; [|done].
    apply list_elem_of_fmap. exists (n, s). split; [done|]. by apply elem_iter.
Qed.

Lemma list_all_spec r s : registry_wf r -> s ∈ list_all iter r <-> registry_get (P := P) r (name s) = Some s.
Proof.
  intros Hwf. unfold list_all. rewrite list_elem_of_fmap. rewrite registry_get_Some. split.
  - intros ([k s'] & -> & Hin). apply list_elem_of_In, List.filter_In in Hin as [Hin Hd]. cbn in *.
    apply list_elem_of_In, elem_iter in Hin. rewrite (Hwf _ _ Hin). unfold is_disabled in Hd.
    apply negb_true_iff, bool_decide_eq_false in Hd. done.
  - intros [Hd Hs]. exists (name s, s). split; [done|]. apply list_elem_of_In, List.filter_In. split.
    + apply list_elem_of_In. by apply elem_iter.
    + cbn. unfold is_disabled. by rewrite bool_decide_eq_false_2.
Qed.

Lemma list_all_nodup r : registry_wf r -> NoDup (map (@name P) (list_all iter r)).
Proof.
  intros Hwf. unfold list_all. rewrite map_map.
  assert (Hn : NoDup (map fst (List.filter (fun ns => negb (is_disabled r (fst ns))) (iter _ (skills r))))).
  { assert (Hk : NoDup (map fst (iter _ (skills r)))).
    { change (map fst) with (fmap (M := list) (@fst string (Skill P))). rewrite (Hiter _ (skills r)). apply NoDup_fst_map_to_list. }
    induction (iter _ (skills r)) as [|[k s] l IH]; [constructor|]. cbn in *. apply NoDup_cons in Hk as [Hk Hl].
    destruct (is_disabled r k); cbn; [by apply IH|]. apply NoDup_cons. split; [|by apply IH].
    intros Hin. apply Hk. apply list_elem_of_fmap in Hin as (x & -> & Hin). apply list_elem_of_In, List.filter_In in Hin as [Hin _].
    apply list_elem_of_fmap. exists x. split; [done|]. by apply list_elem_of_In. }
  erewrite map_ext_in; [exact Hn|]. intros [k s] Hin. cbn. apply List.filter_In in Hin as [Hin _].
  apply list_elem_of_In, elem_iter in Hin. by apply Hwf.
Qed.

Lemma activate_spec r touched n : registry_wf r ->
  n ∈ activate_for_paths pattern_matches iter r touched <->
    exists s, registry_get (P := P) r n = Some s /\ always s = false /\ path_matched pattern_matches touched s = true.
Proof.
  intros Hwf. unfold activate_for_paths. rewrite list_elem_of_fmap. split.
  - intros (s & -> & Hin). apply list_elem_of_In, List.filter_In in Hin as [Hin Hb]. bool_to_prop.
    apply list_elem_of_In, list_elem_of_fmap in Hin as ([k s'] & -> & Hin). apply elem_iter in Hin. cbn in *.
    exists s'. rewrite registry_get_Some. rewrite (Hwf _ _ Hin) in *. unfold is_disabled in *. by bool_to_prop.
  - intros (s & Hs & Ha & Hp). apply registry_get_Some in Hs as [Hd Hs]. exists s. split; [by rewrite (Hwf _ _ Hs)|].
    apply list_elem_of_In, List.filter_In. split.
    + apply list_elem_of_In, list_elem_of_fmap. exists (n, s). split; [done|]. by apply elem_iter.
    + rewrite Ha, Hp, (Hwf _ _ Hs). unfold is_disabled. by rewrite bool_decide_eq_false_2.
Qed.

Lemma load_entries_wf d dir present entries count r :
  registry_wf r -> registry_wf (snd (load_entries pattern_new from_yaml d dir present entries count r)).
Proof.
  revert count r. induction entries as [|[n|e] entries IH]; intros count r Hr; [done| |done]. cbn.
  destruct (_ && _); [|by apply IH]. destruct (load_file _ _ d _); apply IH; auto with skills.
Qed.

Lemma load_directory_wf d dir r : registry_wf r -> registry_wf (snd (load_directory_sync pattern_new from_yaml d dir r)).
Proof. intros Hr. unfold load_directory_sync. destruct (d_read_dir d dir); [by apply load_entries_wf|done]. Qed.

Lemma reload_disabled d dir r : disabled (reload pattern_new from_yaml d dir r) = disabled r.
Proof. unfold reload. by destruct (load_directory_sync _ _ d dir _) as [[n|e] fresh]. Qed.

Lemma reload_wf d dir r : registry_wf r -> registry_wf (reload pattern_new from_yaml d dir r).
Proof.
  intros Hr. unfold reload. pose proof (load_directory_wf d dir SkillRegistry_new empty_registry_wf) as Hf.
  destruct (load_directory_sync _ _ d dir _) as [[n|e] fresh]; [|done]. by apply set_disabled_wf.
Qed.
End Views.

(** ** Lemmas: the heading *)

Definition heading_at (content : string) (pos : nat) : bool :=
  line_start content pos && prefixb HEADING (drop_str pos content) && negb (starts_with (drop_str (pos + len HEADING) content) "#").

Lemma drop_plus a b s : drop_str (a + b) s = drop_str b (drop_str a s).
Proof. rewrite Nat.add_comm. apply drop_drop_str. Qed.

Lemma heading_next content pos : prefixb HEADING (drop_str pos content) = true -> heading_at content (S pos) = false.
Proof.
  intros Hp. apply prefixb_spec in Hp as [r Hr]. unfold heading_at. replace (S pos) with (pos + 1) by lia.
  rewrite drop_plus, Hr. cbn. by rewrite andb_false_r.
Qed.

Lemma heading_beyond content pos : len content < pos -> heading_at content pos = false.
Proof. intros H. unfold heading_at. rewrite (drop_beyond_str pos) by lia. cbn. by rewrite andb_false_r. Qed.

Lemma last_heading_spec fuel content start last_pos : len content < start + fuel ->
  (exists p, last_heading fuel content start last_pos = Some p /\ start <= p /\ heading_at content p = true /\
     forall i, p < i -> heading_at content i = false) \/
  (last_heading fuel content start last_pos = last_pos /\ forall i, start <= i -> heading_at content i = false).
Proof.
  revert start last_pos. induction fuel as [|fuel IH]; intros start last_pos Hf.
  { right. split; [done|]. intros i Hi. apply heading_beyond. lia. }
  cbn [last_heading]. destruct (find_str HEADING (drop_str start content)) as [pos|] eqn:E.
  2:{ right. split; [done|]. intros i Hi. unfold heading_at. destruct (prefixb HEADING (drop_str i content)) eqn:Hp; [|by rewrite andb_false_r].
      apply prefixb_spec in Hp as [r Hr]. exfalso. apply (proj1 (find_str_None _ _) E (take_str (i - start) (drop_str start content)) r).
      rewrite <- Hr. replace i with (start + (i - start)) at 2 by lia. rewrite drop_plus. by rewrite take_drop_str. }
  apply find_str_Some in E as (a & b & Hd & Ha & Hmin).
  assert (Hat : drop_str (start + pos) content = HEADING +:+ b).
  { rewrite drop_plus, Hd, <- Ha. apply drop_app_str. }
  assert (Hbefore : forall i, start <= i -> i < start + pos -> heading_at content i = false).
  { intros i Hi Hlt. unfold heading_at. replace i with (start + (i - start)) by lia. rewrite (drop_plus start).
    rewrite Hmin by lia. by rewrite andb_false_r. }
  assert (Hafter : heading_at content (S (start + pos)) = false).
  { apply heading_next. rewrite Hat. apply prefixb_app. }
  assert (Hlast : (if line_start content (start + pos) then
        match strip_prefix_str (drop_str (start + pos) content) HEADING with
        | Some rest => if starts_with rest "#" then last_pos else Some (start + pos) | None => last_pos end else last_pos) =
      if heading_at content (start + pos) then Some (start + pos) else last_pos).
  { unfold heading_at, strip_prefix_str. rewrite (drop_plus (start + pos) (len HEADING)), Hat, prefixb_app.
    destruct (line_start _ _); [|done]. cbn [andb]. by destruct (starts_with _ _). }
  rewrite Hlast. destruct (IH (start + pos + 2) (if heading_at content (start + pos) then Some (start + pos) else last_pos) ltac:(lia))
    as [(p & Hp & Hle & Hh & Hg)|[Hp Hg]]; [left; exists p; split_and!; try done; lia|].
  assert (Hg' : forall i, start + pos < i -> heading_at content i = false).
  { intros i Hi. destruct (decide (i = S (start + pos))) as [->|]; [done|]. apply Hg. lia. }
  rewrite Hp. destruct (heading_at content (start + pos)) eqn:Hh.
  - left. exists (start + pos). split_and!; [done|lia|done|done].
  - right. split; [done|]. intros i Hi. destruct (decide (i < start + pos)) as [|]; [by apply Hbefore|].
    destruct (decide (i = start + pos)) as [->|]; [done|]. apply Hg'. lia.
Qed.

(** ** Lemmas: the toggled line *)

Definition unlines (l : list string) : string := concat_str (map (fun x => x +:+ nl) l).

Lemma unlines_app a b : unlines (a ++ b) = unlines a +:+ unlines b.
Proof. unfold unlines. by rewrite map_app, concat_str_app. Qed.

(** Lines that are neither the key's nor the closing delimiter are copied. *)
Lemma toggled_plain e ex v k seg res rep :
  (forall j, k <= j < k + length seg ->
     ((0 <? j)%nat && (j <? e)%nat && bool_decide (ex = Some (j - 1)%nat) = false) /\ ((j =? e)%nat && negb rep = false)) ->
  foldl (toggled_line e ex v) (res, rep) (imap (fun i x => (k + i, x)) seg) = (res +:+ unlines seg, rep).
Proof.
  revert k res. induction seg as [|l seg IH]; intros k res H; [by rewrite app_nil_r_str|].
  rewrite imap_cons. cbn [foldl]. unfold toggled_line at 2. destruct (H (k + 0)) as [-> ->]; [cbn; lia|].
  erewrite imap_ext; [rewrite (IH (S k))|].
  - unfold unlines. cbn. by rewrite !app_assoc_str.
  - intros j Hj. apply H. cbn. lia.
  - intros i x Hx. cbn. f_equal. lia.
Qed.

Lemma toggled_key e i v k l res rep : k = S i -> k < e ->
  foldl (toggled_line e (Some i) v) (res, rep) (imap (fun i x => (k + i, x)) [l]) =
    (res +:+ spaces (len l - len (trim_start l)) +:+ KEY +:+ " " +:+ v +:+ nl, true).
Proof.
  intros -> He. cbn [imap foldl]. unfold toggled_line. rewrite Nat.add_0_r, bool_decide_eq_true_2 by (f_equal; lia).
  by rewrite (proj2 (Nat.ltb_lt _ _) He).
Qed.

Lemma toggled_end e v k l res : k = e ->
  foldl (toggled_line e None v) (res, false) (imap (fun i x => (k + i, x)) [l]) = (res +:+ KEY +:+ " " +:+ v +:+ nl +:+ l +:+ nl, false).
Proof.
  intros ->. cbn [imap foldl]. unfold toggled_line. rewrite bool_decide_eq_false_2 by done.
  by rewrite andb_false_r, Nat.add_0_r, Nat.eqb_refl.
Qed.

Lemma imap_shift k (a b : list string) :
  imap (fun i x => (k + i, x)) (a ++ b)%list = (imap (fun i x => (k + i, x)) a ++ imap (fun i x => (k + length a + i, x)) b)%list.
Proof. rewrite imap_app. f_equal. apply imap_ext. intros i x _. cbn. f_equal. lia. Qed.

Definition key_line (l : string) : bool := starts_with (trim_start l) KEY.

(** The frontmatter with the key's first line rewritten, or the key added. *)
Definition toggled_fm (v : string) (fm : list string) : list string :=
  match position key_line fm with
  | Some i => (take i fm ++ (spaces (len (default "" (fm !! i)) - len (trim_start (default "" (fm !! i)))) +:+ KEY +:+ " " +:+ v) :: drop (S i) fm)%list
  | None => (fm ++ [KEY +:+ " " +:+ v])%list
  end.

Lemma toggled_fold v (fm rest : list string) :
  fst (foldl (toggled_line (S (length fm)) (position key_line fm) v) ("", false) (imap pair ("---" :: fm ++ "---" :: rest)%list)) =
    unlines ("---" :: toggled_fm v fm ++ "---" :: rest)%list.
Proof.
  unfold toggled_fm. destruct (position key_line fm) as [i|] eqn:Ep.
  - apply position_Some in Ep as (a & l & b & -> & <- & Hl & Ha).
    rewrite list_lookup_middle by done. cbn [default from_option].
    rewrite take_app_length.
    assert (drop (S (length a)) (a ++ l :: b)%list = b) as -> by (rewrite cons_middle, app_assoc; apply drop_app_length'; rewrite length_app; cbn; lia).
    change ("---" :: (a ++ l :: b) ++ "---" :: rest)%list with ((("---" :: a) ++ l :: b) ++ "---" :: rest)%list.
    rewrite <- app_assoc. change ((l :: b) ++ "---" :: rest)%list with ([l] ++ (b ++ "---" :: rest))%list.
    change (imap pair) with (imap (fun i (x : string) => (0 + i, x))). rewrite !imap_shift, !foldl_app.
    rewrite toggled_plain.
    2:{ cbn [length]. intros j Hj. split; [|apply andb_false_iff; left; apply Nat.eqb_neq; rewrite length_app; cbn; lia].
        destruct j as [|j]; [done|]. apply andb_false_iff. right. apply bool_decide_eq_false. intros [= ?]. lia. }
    rewrite toggled_key; [|cbn; lia|cbn [length]; rewrite length_app; cbn; lia].
    rewrite toggled_plain.
    2:{ intros j Hj. cbn [length] in Hj. split; [|by rewrite andb_false_r]. apply andb_false_iff. right. apply bool_decide_eq_false. intros [= ?]. lia. }
    rewrite toggled_plain.
    2:{ intros j Hj. cbn [length] in Hj. split; [|by rewrite andb_false_r]. apply andb_false_iff. right. apply bool_decide_eq_false. intros [= ?]. lia. }
    cbn [fst Datatypes.id]. change ("---" :: (a ++ ?x :: b) ++ ?r)%list with ((("---" :: a) ++ (x :: b)) ++ r)%list.
    rewrite !unlines_app. unfold unlines. cbn [map concat_str foldr app]. rewrite ?app_assoc_str. done.
  - change (imap pair) with (imap (fun i (x : string) => (0 + i, x))).
    change ("---" :: fm ++ "---" :: rest)%list with (("---" :: fm) ++ ["---"] ++ rest)%list. rewrite !imap_shift, !foldl_app.
    rewrite toggled_plain.
    2:{ cbn [length]. intros j Hj. rewrite bool_decide_eq_false_2 by done. rewrite andb_false_r. split; [done|].
        apply andb_false_iff. left. apply Nat.eqb_neq. lia. }
    rewrite toggled_end by done.
    rewrite toggled_plain.
    2:{ intros j Hj. rewrite bool_decide_eq_false_2 by done. rewrite andb_false_r. split; [done|].
        apply andb_false_iff. left. apply Nat.eqb_neq. cbn [length] in Hj. lia. }
    cbn [fst]. rewrite <- app_assoc. change ("---" :: fm ++ ?x ++ ?r)%list with (("---" :: fm) ++ x ++ r)%list.
    rewrite !unlines_app. unfold unlines. cbn [map concat_str foldr app]. rewrite ?app_assoc_str. done.
Qed.

(** ** Lemmas: the delimiters *)

Lemma prefixb_cons a p b s : prefixb (String a p) (String b s) = Ascii.eqb a b && prefixb p s.
Proof. reflexivity. Qed.

(** A delimiter that begins with a line feed is found at the end of a text that
    does not contain its first line. *)
Lemma closing_found more fm tail : find_str (nl +:+ "---") fm = None ->
  find_str (nl +:+ "---" +:+ more) (fm +:+ nl +:+ "---" +:+ more +:+ tail) = Some (len fm).
Proof.
  induction fm as [|c fm IH]; intros Hn.
  { pose proof (prefixb_app (String newline ("---" +:+ more)) tail) as Hp.
    change (find_str (String newline ("---" +:+ more)) (String newline (("---" +:+ more) +:+ tail)) = Some 0%nat). cbn [find_str].
    change (String newline (("---" +:+ more) +:+ tail)) with (String newline ("---" +:+ more) +:+ tail). by rewrite Hp. }
  assert (Hp : prefixb (nl +:+ "---") (String c fm) = false /\ find_str (nl +:+ "---") fm = None).
  { cbn [find_str] in Hn. destruct (prefixb _ _); [done|]. split; [done|]. by destruct (find_str (nl +:+ "---") fm). }
  destruct Hp as [Hp Hn']. change (String c fm +:+ ?t) with (String c (fm +:+ t)). cbn [find_str].
  assert (Hf : prefixb (nl +:+ "---" +:+ more) (String c (fm +:+ nl +:+ "---" +:+ more +:+ tail)) = false).
  { clear IH Hn Hn'. change (nl +:+ "---" +:+ more) with (String newline (String "-" (String "-" (String "-" more)))).
    change (nl +:+ "---") with (String newline (String "-" (String "-" (String "-" "")))) in Hp.
    rewrite !prefixb_cons in Hp |- *. destruct (Ascii.eqb newline c); [|done].
    do 3 (destruct fm as [|?c fm]; [reflexivity|]; change (String ?c fm +:+ ?t) with (String c (fm +:+ t));
          rewrite !prefixb_cons in Hp |- *; destruct (Ascii.eqb "-" _); [|done]).
    done. }
  rewrite Hf, (IH Hn'). done.
Qed.

(** A file whose frontmatter was written between lines of three dashes is read
    back, unless its lines end with a carriage return and a plain line of three
    dashes comes later. *)
Lemma parse_frontmatter_written from_yaml fm le body : find_str (nl +:+ "---") fm = None -> le = nl \/ le = crlf ->
  let content := "---" +:+ le +:+ fm +:+ nl +:+ "---" +:+ le +:+ body in
  starts_with content ("---" +:+ nl) = true \/ find_str (nl +:+ "---" +:+ nl) content = None ->
  parse_frontmatter from_yaml content = match from_yaml fm with Some m => (Some m, body) | None => (None, content) end.
Proof.
  intros Hn Hle content Hends. unfold parse_frontmatter. set (rest := fm +:+ nl +:+ "---" +:+ le +:+ body).
  assert (strip_prefix_str content ("---" +:+ nl) ∪ strip_prefix_str content ("---" +:+ crlf) = Some rest) as ->.
  { destruct Hle as [-> | ->]; [|done]. assert (strip_prefix_str content ("---" +:+ nl) = Some rest) as -> by done. by destruct (strip_prefix_str _ _). }
  assert (split_at_first closings rest = Some (fm, body)) as ->; [|done].
  assert (Hcut : forall pats, split_at_first ((nl +:+ "---" +:+ le) :: pats) rest = Some (fm, body)).
  { intros pats. cbn [split_at_first]. unfold rest. rewrite (closing_found le) by done. rewrite take_app_str, (drop_plus (len fm)), drop_app_str.
    assert (nl +:+ "---" +:+ le +:+ body = (nl +:+ "---" +:+ le) +:+ body) as -> by (by rewrite !app_assoc_str). by rewrite drop_app_str. }
  destruct Hle as [-> | ->]; [apply Hcut|]. destruct Hends as [|Hends]; [done|].
  change (split_at_first closings rest) with
    (match find_str (nl +:+ "---" +:+ nl) rest with
     | Some e => Some (take_str e rest, drop_str (e + 5) rest)
     | None => split_at_first (tail closings) rest
     end).
  assert (find_str (nl +:+ "---" +:+ nl) rest = None) as ->; [|apply Hcut].
  apply find_str_None. intros a b E. apply (proj1 (find_str_None _ _) Hends ("---" +:+ crlf +:+ a) b). unfold content.
  fold rest. rewrite E. by rewrite !app_assoc_str.
Qed.

(** ** A disk in memory *)

Record MemDisk := { md_files : gmap string string; md_dirs : gmap string (list string); md_broken : bool }.

#[export] Instance MemDisk_fs : SkillFs MemDisk := {
  d_read_dir d p := if md_broken d then Err "Input/output error" else match md_dirs d !! p with Some l => Ok (map Ok l) | None => Err "No such file or directory" end;
  d_is_dir d p := bool_decide (is_Some (md_dirs d !! p));
  d_is_file d p := bool_decide (is_Some (md_files d !! p));
  d_read d p := ok_or (md_files d !! p) "No such file or directory";
  d_age d p := None;
  d_write p s d := (Ok (), {| md_files := <[p := s]> (md_files d); md_dirs := md_dirs d; md_broken := md_broken d |});
  d_rename p q d :=
    match md_files d !! p with
    | Some s => (Ok (), {| md_files := <[q := s]> (delete p (md_files d)); md_dirs := md_dirs d; md_broken := md_broken d |})
    | None => (Err "No such file or directory", d)
    end;
  d_remove p d := {| md_files := delete p (md_files d); md_dirs := md_dirs d; md_broken := md_broken d |}
}.

#[export] Instance MemDisk_laws : SkillFsLaws MemDisk.
Proof.
  split; cbn.
  - intros p s d d' [= <-]. cbn. by rewrite lookup_insert_eq.
  - intros p s d q Hne. by rewrite lookup_insert_ne.
  - intros p q d d' Hne. destruct (md_files d !! p) as [s|]; [|done]. intros [= <-]. cbn. by rewrite lookup_insert_eq.
  - intros p q d r Hp Hq. destruct (md_files d !! p) as [s|]; [|done]. cbn. by rewrite lookup_insert_ne, lookup_delete_ne.
  - intros p q d d' e r. by destruct (md_files d !! p) as [s|]; intros [= <- <-].
  - intros p d q Hne. by rewrite lookup_delete_ne.
Qed.

(** ** Properties *)

(** What can happen to the registry of an agent: the loader's registrations, the
    toggles of the HTTP interface, and a reload from a disk. *)
Inductive RegOp (P D : Type) := Register (s : Skill P) | Disable (n : string) | Enable (n : string) | Reload (d : D) (dir : string).
Arguments Register {P D}. Arguments Disable {P D}. Arguments Enable {P D}. Arguments Reload {P D}.

Section Ops.
Context {P : Type} (pattern_new : string -> option P) (pattern_matches : P -> string -> bool).
Context (from_yaml : string -> option SkillFrontmatter).
Context {D : Type} `{SkillFs D}.

Definition reg_op (o : RegOp P D) (r : SkillRegistry P) : SkillRegistry P :=
  match o with
  | Register s => register s r
  | Disable n => snd (disable n r)
  | Enable n => snd (enable n r)
  | Reload d dir => reload pattern_new from_yaml d dir r
  end.

Lemma reg_op_wf o r : registry_wf r -> registry_wf (reg_op o r).
Proof.
  intros Hr. destruct o; cbn; auto with skills.
  - eapply same_skills_wf; [apply disable_skills|done].
  - by apply reload_wf.
Qed.

Lemma reg_ops_wf ops r : registry_wf r -> registry_wf (foldl (flip reg_op) r ops).
Proof. revert r. induction ops as [|o ops IH]; intros r Hr; [done|]. cbn. apply IH. by apply reg_op_wf. Qed.
End Ops.

(** [C9] One view of the skills.  Whatever has been registered, disabled, enabled
    and reloaded, the name list, the list of active skills, the tool and the
    activation by path agree: a name is listed exactly if looking it up finds a
    skill, a skill is in the active list exactly if its own name finds it, no name
    is there twice, the tool answers exactly the listed names, and a path
    activates exactly the skills found that are not always on and match it. *)
Theorem skill_views {P D} pattern_new matches from_yaml `{SkillFs D} (iter : forall A, gmap string A -> list (string * A)) (ops : list (RegOp P D)) :
  (forall A m, iter A m ≡ₚ map_to_list m) ->
  let r := foldl (flip (reg_op pattern_new from_yaml)) SkillRegistry_new ops in
  (forall n, n ∈ list_names iter r <-> is_Some (registry_get r n)) /\
  (forall s, s ∈ list_all iter r <-> registry_get r (name s) = Some s) /\
  NoDup (map name (list_all iter r)) /\
  (forall n, is_ok (skill_execute iter r (Obj [("skill", Str n)])) = true <-> n ∈ list_names iter r) /\
  (forall touched n, n ∈ activate_for_paths matches iter r touched <->
     exists s, registry_get r n = Some s /\ always s = false /\ path_matched matches touched s = true).
Proof.
  intros Hiter r. assert (Hwf : registry_wf r) by (by apply reg_ops_wf, empty_registry_wf).
  split; [intros n; by apply list_names_spec|]. split; [intros s; by apply list_all_spec|].
  split; [by apply list_all_nodup|]. split; [|intros; by apply activate_spec].
  intros n. rewrite list_names_spec by done. unfold skill_execute. change (as_str (index (Obj [("skill", Str n)]) "skill")) with (Some n).
  cbv beta iota.
  destruct (registry_get r n); cbn; split; intros Hs; [by eexists|done|done|by destruct Hs].
Qed.

(** The emphasis of a skill.  The prompt is cut at the last second-level
    heading of that name that begins a line: what is before it, without the blank
    end, stays the prompt, and what follows it is the emphasis, which is absent
    when blank.  Without such a heading nothing is cut. *)
Theorem split_emphasis_spec (content : string) :
  (exists pos, heading_at content pos = true /\ (forall i, pos < i -> heading_at content i = false) /\
     split_emphasis content = (trim_end (take_str pos content),
       let e := emphasis_text (drop_str pos content) in if is_empty_str e then None else Some e)) \/
  ((forall i, heading_at content i = false) /\ split_emphasis content = (content, None)).
Proof.
  unfold split_emphasis. destruct (last_heading_spec (S (len content)) content 0 None ltac:(lia)) as [(p & -> & _ & Hh & Hg)|[-> Hg]].
  - left. exists p. by split_and!.
  - right. split; [intros i; apply Hg; lia|done].
Qed.

(** Switching a skill's evolution on or off rewrites one line.  If the
    handler's new text is written at all, the old one is a frontmatter between two
    lines of dashes and a body; the new text has the same lines up to the blank
    end, the first line of the frontmatter for the key rewritten at the same
    indentation, or the key added below when there was none. *)
Theorem toggled_spec (content text : string) (enable : bool) :
  toggled content enable = Ok text <->
  exists fm rest, lines content = ("---" :: fm ++ "---" :: rest)%list /\ "---" ∉ fm /\
    text = trim_end (unlines ("---" :: toggled_fm (if enable then "true" else "false") fm ++ "---" :: rest)).
Proof.
  unfold toggled. split.
  - destruct (lines content) as [|first ls]; [done|]. destruct (String.eqb_spec first "---") as [->|]; [|done].
    destruct (position _ ls) as [p|] eqn:Ep; [|done]. apply position_Some in Ep as (fm & x & rest & -> & <- & Hx & Hfm).
    apply String.eqb_eq in Hx as <-. rewrite take_app_length. intros [= <-]. exists fm, rest. split; [done|].
    split; [|by rewrite <- toggled_fold]. intros Hin. rewrite Forall_forall in Hfm. by specialize (Hfm _ Hin).
  - intros (fm & rest & -> & Hfm & ->). rewrite String.eqb_refl.
    assert (position (String.eqb "---") (fm ++ "---" :: rest) = Some (length fm)) as ->.
    { apply position_Some. exists fm, "---", rest. split_and!; [done|done|done|]. apply Forall_forall. intros y Hy.
      apply String.eqb_neq. by intros <-. }
    rewrite take_app_length. by rewrite <- toggled_fold.
Qed.

(** Witnesses: a skill, a copy of it that replaces it, a toggle and a failed
    reload. *)
Definition no_yaml (_ : string) : option SkillFrontmatter := None.
Definition no_glob (_ : string) : option string := None.
Definition skill0 : Skill string := parse_skill no_glob no_yaml {| md_files := ∅; md_dirs := ∅; md_broken := false |} "s/review/SKILL.md" ("# Reviews" +:+ nl +:+ "Look twice.").
Definition broken0 : MemDisk := {| md_files := ∅; md_dirs := ∅; md_broken := true |}.
Definition ops0 : list (RegOp string MemDisk) := [Register skill0; Register skill0; Disable "review"; Enable "review"; Reload broken0 "s"; Disable "absent"].
Definition iter0 (A : Type) (m : gmap string A) : list (string * A) := map_to_list m.

Lemma skill_views_witness :
  list_names iter0 (foldl (flip (reg_op no_glob no_yaml)) SkillRegistry_new ops0) = ["review"] /\
  NoDup (map name (list_all iter0 (foldl (flip (reg_op no_glob no_yaml)) SkillRegistry_new ops0))).
Proof.
  split; [vm_compute; reflexivity|].
  apply (skill_views no_glob String.eqb no_yaml iter0 ops0). intros A m. reflexivity.
Defined.

Example toggled_example :
  toggled ("---" +:+ nl +:+ "name: a" +:+ nl +:+ "  auto_evolve: false" +:+ nl +:+ "---" +:+ nl +:+ "Body" +:+ nl) true =
    Ok ("---" +:+ nl +:+ "name: a" +:+ nl +:+ "  auto_evolve: true" +:+ nl +:+ "---" +:+ nl +:+ "Body").
Proof. vm_compute. reflexivity. Qed.

(** ** Reloading *)

Section Reloading.
Context {P : Type} (pattern_new : string -> option P) (from_yaml : string -> option SkillFrontmatter).
Context {D : Type} `{SkillFs D}.

Lemma watch_dirty dir (ws : list (Watched (D := D))) b r : Forall (fun w => match w with Quiet _ => False | _ => True end) ws ->
  foldl (watch_step pattern_new from_yaml dir) (b, r) ws = (b || existsb (fun w => match w with Changed => true | _ => false end) ws, r).
Proof.
  revert b. induction ws as [|w ws IH]; intros b Hw; [by rewrite orb_false_r|]. apply Forall_cons in Hw as [Hw Hws].
  cbn [foldl]. destruct w; [| |done]; cbn [watch_step existsb]; rewrite IH by done; [by rewrite orb_true_r|done].
Qed.

(** After a change the registry is the one on the disk at the first quiet moment;
    the disabled names are kept, and an unreadable directory changes nothing. *)
Lemma watch_reloads dir (ws : list (Watched (D := D))) d r : Forall (fun w => match w with Quiet _ => False | _ => True end) ws ->
  foldl (watch_step pattern_new from_yaml dir) (false, r) (Changed :: ws ++ [Quiet d])%list = (false, reload pattern_new from_yaml d dir r).
Proof. intros Hw. cbn [foldl watch_step]. rewrite foldl_app, watch_dirty by done. done. Qed.

Lemma reload_keeps_on_error dir d r e fresh :
  load_directory_sync pattern_new from_yaml d dir SkillRegistry_new = (Err e, fresh) ->
  reload pattern_new from_yaml d dir r = r /\ snd (handle_skills_reload pattern_new from_yaml d dir (Some r)) = Some r.
Proof. intros He. unfold reload, handle_skills_reload. by rewrite He. Qed.
End Reloading.

(** The switch of a skill's evolution does not look at the outcome of its reload:
    with an unreadable directory every skill is gone and the answer is [ok]. *)
Lemma evolve_toggle_forgets {P} (pattern_new : string -> option P) from_yaml iter `{SkillFs D} body dir (r : SkillRegistry P) d n s b d' e :
  get body "name" ≫= as_str = Some n ->
  List.find (fun sd => String.eqb (name (fst sd)) n) (list_all_with_status iter r) = Some (s, b) ->
  toggle_frontmatter_auto_evolve (source_path s) (default false (get body "auto_evolve" ≫= as_bool)) d = (Ok (), d') ->
  d_read_dir d' dir = Err e ->
  exists v r', handle_skills_evolve_toggle pattern_new from_yaml iter body dir (Some r) d = (v, Some r', d') /\
    get v "ok" = Some (Bool true) /\ skills r' = ∅.
Proof.
  intros Hn Hf Ht Hd. unfold handle_skills_evolve_toggle. rewrite Hn, Hf, Ht. unfold load_directory_sync. rewrite Hd.
  eexists _, _. split; [reflexivity|]. done.
Qed.

(** The number of active skills is a difference of sizes, which a disabled skill
    whose file is gone makes negative. *)
Lemma len_underflows {P} : registry_len (P := P) (set_disabled {["gone"]} SkillRegistry_new) = None.
Proof. vm_compute. reflexivity. Qed.
