(* ===== verification/Evolution.v ===== *)
(** * The evolution of skills

    src/kernel/src/palaces/li_skill/evolution/{mod,helpers,frontmatter,reflect,
    revise}.rs and the tables of gen_store/skills.rs.  YAML, JSON, the models'
    replies, the clock, the identifiers, the order of rows with the same time and
    the failures of the database are arguments. *)

From S2P Require Import Prelude RString Float Path Json Mind Tool Files Provider Skills Diff.
From S2P Require Loop Completion Turn.
From stdpp Require Import sorting.
From Stdlib Require Import Ascii.
Local Open Scope string_scope.
#[local] Arguments String.append !_ _ : simpl nomatch.

(** ** Data *)

Record EvolutionConfig := {
  c_auto_evolve : bool;
  c_min_confidence : spec_float;
  c_max_revisions_per_session : Z;
  c_reflection_threshold : Z
}.

Definition config_of {P} (s : Skill P) : EvolutionConfig :=
  {| c_auto_evolve := auto_evolve s; c_min_confidence := evolve_min_confidence s;
     c_max_revisions_per_session := evolve_max_revisions_per_session s; c_reflection_threshold := evolve_reflection_threshold s |}.

Record SkillRevisionDiff := {
  rd_skill_name : string;
  rd_old_snippet : string;
  rd_new_snippet : string;
  rd_diff : string;
  rd_confidence : spec_float;
  rd_applied : bool
}.

Record EvolutionReport := {
  skills_analyzed : nat;
  reflections : nat;
  revisions : nat;
  revision_diffs : list SkillRevisionDiff
}.

Record TurnErrorRef := { er_turn : Z; er_tool : string; er_error : string; er_geju : string; er_mode : string }.
Record GeJuEventRef := { ge_turn : Z; ge_geju : string; ge_mode : string }.
Record UserCorrection := { uc_turn : Z; uc_message : string }.
Record SkillTrajectory := { t_errors : list TurnErrorRef; t_geju_events : list GeJuEventRef; t_user_corrections : list UserCorrection }.

Record SkillReflection := {
  rf_id : string;
  rf_skill_name : string;
  rf_session_id : string;
  rf_type : string;
  rf_content : string;
  rf_confidence : spec_float;
  rf_turn_numbers : list Z;
  rf_created_at : Z
}.

Record SkillRevisionRecord := {
  rv_id : string;
  rv_skill_name : string;
  rv_session_id : string;
  rv_old_content : string;
  rv_new_content : string;
  rv_diff_text : string;
  rv_avg_confidence : spec_float;
  rv_reflection_ids : list string;
  rv_pre_error_rate : option spec_float;
  rv_post_error_rate : option spec_float;
  rv_applied : bool;
  rv_created_at : Z
}.

(** ** The tables *)

(** The rates stay the single-precision values that were computed. *)

Record EvoStore := { s_reflections : list SkillReflection; s_revisions : list SkillRevisionRecord }.

(** [INSERT OR IGNORE] on the primary key. *)
Definition save_skill_reflection (r : SkillReflection) (s : EvoStore) : EvoStore :=
  if existsb (fun x => String.eqb (rf_id x) (rf_id r)) (s_reflections s) then s
  else {| s_reflections := s_reflections s ++ [r]; s_revisions := s_revisions s |}.

Definition save_skill_revision (r : SkillRevisionRecord) (s : EvoStore) : EvoStore :=
  if existsb (fun x => String.eqb (rv_id x) (rv_id r)) (s_revisions s) then s
  else {| s_reflections := s_reflections s; s_revisions := s_revisions s ++ [r] |}.

Definition count_revisions_this_session (skill session : string) (s : EvoStore) : Z :=
  Z.of_nat (length (List.filter (fun r => String.eqb (rv_skill_name r) skill && String.eqb (rv_session_id r) session && rv_applied r) (s_revisions s))) mod 2 ^ 32.

Definition applied_to (skill : string) (r : SkillRevisionRecord) : bool := String.eqb (rv_skill_name r) skill && rv_applied r.

(** [MAX(created_at)], null on no row. *)
Definition last_revision_time (skill : string) (s : EvoStore) : option Z :=
  foldl (fun m r => if applied_to skill r then Some (match m with Some x => Z.max x (rv_created_at r) | None => rv_created_at r end) else m) None (s_revisions s).

(** ** Text *)

Definition strip_prefixes (l : list string) (t : string) : option string :=
  foldr (fun p o => strip_prefix_str t p ∪ o) None l.
Definition strip_suffixes (l : list string) (t : string) : option string :=
  foldr (fun p o => strip_suffix_str t p ∪ o) None l.

Definition fence : string := "```".
Definition closing_fences : list string := [nl +:+ fence; crlf +:+ fence; fence].

Definition strip_code_fences (text : string) : string :=
  let t := trim text in
  let block := fun prefix => rest ← strip_prefix_str t prefix; inner ← strip_suffixes closing_fences rest; Some (trim inner) in
  let inline := fun prefix => rest ← strip_prefix_str t prefix; inner ← strip_suffix_str rest fence; Some (trim inner) in
  default t (block (fence +:+ "json" +:+ nl) ∪ block (fence +:+ "json" +:+ crlf) ∪ block (fence +:+ nl) ∪ block (fence +:+ crlf)
    ∪ inline (fence +:+ "json") ∪ inline fence).

Definition strip_markdown_fence (content : string) : string :=
  let t := trim content in
  let t := default t (trim <$> strip_prefixes [fence +:+ "markdown" +:+ nl; fence +:+ "markdown" +:+ crlf; fence +:+ nl; fence +:+ crlf] t) in
  default t (trim <$> strip_suffixes closing_fences t).

Definition truncate_for_audit (text : string) (max_chars : nat) : string :=
  if (len text <=? max_chars)%nat then text else take_str (Loop.boundary_below max_chars text) text.

Definition safe_snippet (text : string) (max_bytes : nat) : string :=
  if (len text <=? max_bytes)%nat then text else take_str (Loop.boundary_below max_bytes text) text.

(** ** Frontmatter *)

(** [serde_yaml::Value]: parsed, printed, and as a mapping with text keys. *)
Inductive YScalar := YBool (b : bool) | YFloat (x : spec_float) | YInt (n : Z).

Class Yaml (Y : Type) := {
  y_parse : string -> result string Y;
  y_print : Y -> result string string;
  y_is_mapping : Y -> bool;
  y_empty : Y;
  y_insert : string -> YScalar -> Y -> Y;
  y_remove : string -> Y -> Y;
  y_eqb : Y -> Y -> bool
}.

Definition is_finite (x : spec_float) : bool := match x with S754_nan | S754_infinity _ => false | _ => true end.

Definition EVOLUTION_FIELDS : list string :=
  ["auto_evolve"; "evolve_min_confidence"; "evolve_max_revisions_per_session"; "evolve_reflection_threshold"].

Definition kept_confidence {P} (s : Skill P) : spec_float :=
  if is_finite (evolve_min_confidence s) then evolve_min_confidence s else F64.lit 7 10.

(** The text, the body and the line ending. *)
Definition split_frontmatter_parts (cleaned : string) : result string (string * string * string) :=
  let opened := ((fun r => (crlf, r)) <$> strip_prefix_str cleaned ("---" +:+ crlf))
    ∪ ((fun r => (nl, r)) <$> strip_prefix_str cleaned ("---" +:+ nl))
    ∪ ((fun r => (nl, r)) <$> strip_prefix_str cleaned "---") in
  match opened with
  | None => Err "revised content missing frontmatter"
  | Some (le, rest) =>
      match split_at_first closings rest with
      | Some (fm_str, body) => Ok (fm_str, body, le)
      | None => Err "revised content has unclosed frontmatter"
      end
  end.

Definition extract_frontmatter_str (content : string) : string :=
  let cleaned := strip_markdown_fence content in
  match strip_prefix_str cleaned ("---" +:+ nl) ∪ strip_prefix_str cleaned ("---" +:+ crlf) with
  | Some rest =>
      match find_str (nl +:+ "---") rest ∪ find_str (crlf +:+ "---") rest with
      | Some e => take_str e rest
      | None => ""
      end
  | None => ""
  end.

Definition split_fm_and_body (content : string) : string * string :=
  let cleaned := strip_markdown_fence content in
  match split_frontmatter_parts cleaned with Ok (fm, body, _) => (fm, body) | Err _ => ("", cleaned) end.

Section Frontmatter.
Context {P Y : Type} `{Yaml Y}.

Definition inject_evolution_fields (fm : Y) (s : Skill P) : Y :=
  let fm := if y_is_mapping fm then fm else y_empty in
  y_insert "evolve_reflection_threshold" (YInt (evolve_reflection_threshold s))
    (y_insert "evolve_max_revisions_per_session" (YInt (evolve_max_revisions_per_session s))
      (y_insert "evolve_min_confidence" (YFloat (kept_confidence s))
        (y_insert "auto_evolve" (YBool (auto_evolve s)) fm))).

Definition without_evolution (v : Y) : Y :=
  if y_is_mapping v then foldl (fun v f => y_remove f v) v EVOLUTION_FIELDS else v.

Definition revision_semantically_equal (old new : string) : bool :=
  let '(fm_old, body_old) := split_fm_and_body old in
  let '(fm_new, body_new) := split_fm_and_body new in
  if is_empty_str fm_old || is_empty_str fm_new then false
  else if negb (String.eqb (trim body_old) (trim body_new)) then false
  else match y_parse fm_old, y_parse fm_new with
       | Ok val_old, Ok val_new => y_eqb (without_evolution val_old) (without_evolution val_new)
       | _, _ => false
       end.

Definition protect_frontmatter (new_content : string) (s : Skill P) : result string string :=
  let cleaned := strip_markdown_fence new_content in
  if negb (starts_with cleaned "---") then Err "revised content missing frontmatter"
  else match split_frontmatter_parts cleaned with
       | Err e => Err e
       | Ok (fm_str, body, le) =>
           match y_parse fm_str with
           | Err e => Err ("YAML parse: " +:+ e)
           | Ok fm =>
               match y_print (inject_evolution_fields fm s) with
               | Err e => Err ("YAML serialize: " +:+ e)
               | Ok new_fm => Ok ("---" +:+ le +:+ new_fm +:+ "---" +:+ le +:+ body)
               end
           end
       end.
End Frontmatter.

(** ** The trajectory *)

Definition CORRECTION_KEYWORDS : list string :=
  ["no"; "wrong"; "incorrect"; "should"; "instead"; "don't"; "not"; "不要"; "应该"; "不对"; "错了"; "错误"; "不行"].

Section Trajectory.
(** [str::to_lowercase]. *)
Context (lower : string -> string).

(** [(n as f64 * 0.3) as usize]. *)
Definition percentile_30 (n : nat) : nat := Z.to_nat (trunc_to u64_max (F64.mul (F64.of_Z (Z.of_nat n)) (F64.lit 3 10))).

(** [None]: the index is out of bounds. *)
Definition short_threshold (user_messages : list (Z * string)) : option nat :=
  let lens := stable_sort Nat.le (map (fun m => len (snd m)) user_messages) in
  if (3 <=? length lens)%nat then (fun l => Nat.max l 50) <$> lens !! percentile_30 (length lens) else Some 50%nat.

Definition is_correction (short : nat) (content : string) : bool :=
  negb (starts_with content "/") &&
    (existsb (contains_str (lower content)) CORRECTION_KEYWORDS || (len content <? 50)%nat || (len content <=? short)%nat).

Definition detect_user_corrections (snapshots : list TurnSnapshot) (user_messages : list (Z * string)) : option (list UserCorrection) :=
  match user_messages with
  | [] => Some []
  | _ =>
      if negb (existsb (fun s => bool_decide (is_Some (tool_error s))) snapshots) then Some []
      else
        (fun short =>
          foldl (fun corrections m =>
            if is_correction short (snd m) && negb (existsb (fun c => (uc_turn c =? fst m)%Z) corrections)
            then (corrections ++ [{| uc_turn := fst m; uc_message := snd m |}])%list else corrections) [] user_messages)
        <$> short_threshold user_messages
  end.

Definition invokes (skill_name : string) (snap : TurnSnapshot) : bool :=
  String.eqb (tool_name snap) "skill" && bool_decide (get (tool_input snap) "skill" ≫= as_str = Some skill_name).

Definition counted {P} (s : Skill P) (snapshots : list TurnSnapshot) (skill_tool_calls : list string) : list TurnSnapshot :=
  match turn_number <$> List.find (invokes (name s)) snapshots with
  | Some first_turn => List.filter (fun snap => (first_turn <=? turn_number snap)%Z) snapshots
  | None => if existsb (String.eqb (name s)) skill_tool_calls then snapshots else []
  end.

Definition error_of_snapshot (snap : TurnSnapshot) : option TurnErrorRef :=
  (fun e => {| er_turn := turn_number snap; er_tool := tool_name snap; er_error := e; er_geju := geju_name snap; er_mode := snap_execution_mode snap |})
    <$> tool_error snap.

Definition event_of_snapshot (snap : TurnSnapshot) : option GeJuEventRef :=
  if one_of (snap_execution_mode snap) ["Guarded"; "Sandbox"; "Denied"]
  then Some {| ge_turn := turn_number snap; ge_geju := geju_name snap; ge_mode := snap_execution_mode snap |} else None.

Definition compile_trajectory {P} (s : Skill P) (snapshots : list TurnSnapshot) (skill_tool_calls : list string)
    (user_messages : list (Z * string)) : option SkillTrajectory :=
  let snaps := counted s snapshots skill_tool_calls in
  (fun corrections => {| t_errors := omap error_of_snapshot snaps; t_geju_events := omap event_of_snapshot snaps; t_user_corrections := corrections |})
    <$> detect_user_corrections snapshots user_messages.
End Trajectory.

(** ** The pipeline *)

(** A failed operation: a panic, or an error text. *)
Inductive Failure := Panic | Fails (e : string).

Inductive Model := Main | Aux.

(** What one skill's run meets outside: the replies of the models by prompt
    ([None]: no answer in time), the clock, fresh identifiers, and which calls to
    the database work. *)
Record Outside := {
  o_infer : Model -> string -> option (list Item);
  o_now_eligible : Z;
  o_now_reflected : Z;
  o_now_cooldown : Z;
  o_now_revised : Z;
  o_uuid_reflection : string;
  o_uuid_temp : string;
  o_uuid_revision : string;
  o_db_count : bool;
  o_db_last : bool;
  o_db_save_reflection : bool;
  o_db_load_trigger : bool;
  o_db_last_again : bool;
  o_db_load : option string;
  o_db_save_revision : option string;
  o_db_backfill : bool
}.

(** The text of a reply: the deltas before the first item of another kind. *)
Fixpoint deltas (items : list Item) : string :=
  match items with Ok (Delta d) :: items => d +:+ deltas items | _ => "" end.

Definition TYPES : list string := ["Discovery"; "Optimization"; "SkillDefect"; "ExecutionLapse"].

Section Pipeline.
Context {P Y D : Type} `{Yaml Y} `{SkillFs D}.
(** [serde_yaml::from_str::<SkillFrontmatter>], [serde_json::from_str] and the
    pretty printer of the reflections. *)
Context (from_yaml : string -> option SkillFrontmatter) (parse : string -> option Value) (pretty_rows : list SkillReflection -> string).
Context (lower : string -> string).
(** Rows in the order of their times, and the newest row. *)
Context (by_time : list SkillReflection -> list SkillReflection) (newest : list SkillRevisionRecord -> option SkillRevisionRecord).

Definition load_skill_reflections (skill session : string) (s : EvoStore) : list SkillReflection :=
  by_time (List.filter (fun r => String.eqb (rf_skill_name r) skill && String.eqb (rf_session_id r) session) (s_reflections s)).

Definition backfill_post_revision_error_rate (skill : string) (rate : spec_float) (s : EvoStore) : EvoStore :=
  match newest (List.filter (fun r => applied_to skill r && negb (bool_decide (is_Some (rv_post_error_rate r)))) (s_revisions s)) with
  | None => s
  | Some n =>
      {| s_reflections := s_reflections s;
         s_revisions := map (fun r =>
           if applied_to skill r && negb (bool_decide (is_Some (rv_post_error_rate r))) && String.eqb (rv_id r) (rv_id n)
           then {| rv_id := rv_id r; rv_skill_name := rv_skill_name r; rv_session_id := rv_session_id r; rv_old_content := rv_old_content r;
                   rv_new_content := rv_new_content r; rv_diff_text := rv_diff_text r; rv_avg_confidence := rv_avg_confidence r;
                   rv_reflection_ids := rv_reflection_ids r; rv_pre_error_rate := rv_pre_error_rate r; rv_post_error_rate := Some rate;
                   rv_applied := rv_applied r; rv_created_at := rv_created_at r |}
           else r) (s_revisions s) |}
  end.

(** ** Eligibility *)

Definition check_eligibility (s : Skill P) (config : EvolutionConfig) (st : EvoStore) (session : string) (skill_tool_calls : list string) (o : Outside) : bool :=
  if negb (c_auto_evolve config) then false
  else if always s || bool_decide (is_Some (paths s)) then false
  else if o_db_count o && (c_max_revisions_per_session config <=? count_revisions_this_session (name s) session st)%Z then false
  else if o_db_last o && match last_revision_time (name s) st with Some last_ts => (o_now_eligible o - last_ts <? 3600)%Z | None => false end then false
  else (2 <=? length (List.filter (String.eqb (name s)) skill_tool_calls))%nat.

(** ** Reflection *)

Definition reflection_prompt (s : Skill P) (t : SkillTrajectory) : string :=
  "You are analyzing a skill's execution traces to improve it." +:+ nl +:+ nl
  +:+ "## Current Skill" +:+ nl +:+ prompt s +:+ nl +:+ nl +:+ "## Current Emphasis" +:+ nl +:+ default "None" (emphasis s)
  +:+ nl +:+ nl +:+ "## Execution Traces" +:+ nl
  +:+ concat_str (map (fun e => "- Turn " +:+ pretty (er_turn e) +:+ ": tool '" +:+ er_tool e +:+ "' failed with error: " +:+ er_error e
        +:+ ". GeJu: " +:+ er_geju e +:+ " (mode: " +:+ er_mode e +:+ ")" +:+ nl) (t_errors t))
  +:+ concat_str (map (fun g => "- Turn " +:+ pretty (ge_turn g) +:+ ": GeJu guard triggered: " +:+ ge_geju g +:+ " (mode: " +:+ ge_mode g +:+ ")" +:+ nl)
        (t_geju_events t))
  +:+ (match t_user_corrections t with
       | [] => ""
       | l => nl +:+ "## User Corrections" +:+ nl
           +:+ concat_str (map (fun c => "- Turn " +:+ pretty (uc_turn c) +:+ ": " +:+ uc_message c +:+ nl) l)
       end)
  +:+ nl +:+ "## Task" +:+ nl +:+ "Identify what went wrong and how the skill should be improved." +:+ nl
  +:+ "Output ONLY a valid JSON object (no markdown fences):" +:+ nl
  +:+ replace_str "{'type':'Discovery|Optimization|SkillDefect|ExecutionLapse','summary':'...','detail':'...','confidence':0.0}" "'" dq.

Definition reflect (s : Skill P) (t : SkillTrajectory) (session : string) (m : Model) (o : Outside) : option SkillReflection :=
  match t_errors t, t_geju_events t with
  | [], [] => None
  | _, _ =>
      items ← o_infer o m (reflection_prompt s t);
      let response := deltas items in
      if is_empty_str response then None
      else
        let response := strip_code_fences response in
        parsed ← parse response;
        let rtype := default "Unknown" (as_str (index parsed "type")) in
        if one_of rtype TYPES then
          Some {| rf_id := o_uuid_reflection o; rf_skill_name := name s; rf_session_id := session; rf_type := rtype; rf_content := response;
                  rf_confidence := default (F64.lit 5 10) (as_f64 (index parsed "confidence")); rf_turn_numbers := map er_turn (t_errors t);
                  rf_created_at := o_now_reflected o |}
        else None
  end.

(** ** The trigger *)

Definition should_trigger_revision (skill session : string) (config : EvolutionConfig) (st : EvoStore) (o : Outside) : bool :=
  if negb (o_db_load_trigger o) then false
  else
    let rows := load_skill_reflections skill session st in
    let count_type := fun t => length (List.filter (fun r => String.eqb (rf_type r) t) rows) in
    let threshold := Z.to_nat (c_reflection_threshold config) in
    existsb (fun r => fgeb (rf_confidence r) (F64.lit 85 100)) rows
      || existsb (fun r => (threshold <=? count_type (rf_type r))%nat) rows
      || (Nat.max (threshold * 2) 4 <=? length rows)%nat.

(** ** Revision *)

Record World := { w_disk : D; w_store : EvoStore }.

Definition revision_prompt (old_content : string) (rows : list SkillReflection) : string :=
  "You are revising a skill based on execution feedback." +:+ nl +:+ nl
  +:+ "## Current SKILL.md" +:+ nl +:+ fence +:+ nl +:+ old_content +:+ nl +:+ fence +:+ nl +:+ nl
  +:+ "## Accumulated Reflections" +:+ nl +:+ fence +:+ "json" +:+ nl +:+ pretty_rows rows +:+ nl +:+ fence +:+ nl +:+ nl
  +:+ "## Revision Rules" +:+ nl +:+ "1. Preserve the YAML frontmatter structure (--- ... ---)" +:+ nl
  +:+ "2. Keep the skill name and general structure" +:+ nl +:+ "3. Address ONLY the issues raised in reflections" +:+ nl
  +:+ "4. Add/update ## Emphasis section for critical rules" +:+ nl +:+ "5. Do NOT add rules for scenarios not observed" +:+ nl
  +:+ "6. Do NOT modify evolution-related frontmatter fields" +:+ nl +:+ nl +:+ "Output the complete revised SKILL.md (with frontmatter).".

Definition audit_prompt (old new : string) : string :=
  "Audit this skill revision." +:+ nl +:+ nl +:+ "## Before" +:+ nl +:+ fence +:+ nl +:+ truncate_for_audit old 2000 +:+ nl +:+ fence +:+ nl +:+ nl
  +:+ "## After" +:+ nl +:+ fence +:+ nl +:+ truncate_for_audit new 2000 +:+ nl +:+ fence +:+ nl +:+ nl
  +:+ "Check only these 3 rules:" +:+ nl +:+ "1. No contradictory rules introduced" +:+ nl +:+ "2. No important rules removed" +:+ nl
  +:+ "3. Frontmatter is complete and valid YAML" +:+ nl +:+ nl +:+ "Answer ONLY 'pass' or 'fail':".

Definition independent_audit (m : Model) (old new : string) (o : Outside) : bool :=
  match o_infer o m (audit_prompt old new) with
  | None => true
  | Some items => let text := deltas items in is_empty_str text || starts_with (lower (trim text)) "pass"
  end.

(** Its outcome is logged. *)
Definition verify_revision (m : Model) (skill_prompt : string) (o : Outside) : bool :=
  match o_infer o m ("You have the following skill active:" +:+ nl +:+ nl +:+ skill_prompt +:+ nl +:+ nl
      +:+ "Respond with 'OK' to confirm you understand this skill.") with
  | None => true
  | Some items => let text := deltas items in negb (is_empty_str text) && negb (contains_str (lower text) "error")
  end.

Definition batch (current : string) (rows : list SkillReflection) : list SkillReflection :=
  List.filter (fun r => negb (String.eqb (rf_id r) current)) rows.

Definition avg_conf (rows : list SkillReflection) : spec_float :=
  match rows with
  | [] => F64.of_Z 0
  | _ => F64.div (foldl F64.add (F64.of_Z 0) (map rf_confidence rows)) (F64.of_Z (Z.of_nat (length rows)))
  end.

Definition pre_error_rate (rows : list SkillReflection) : option spec_float :=
  match rows with
  | [] => None
  | _ => Some (F32.div (F32.of_Z (Z.of_nat (sum_list_with (fun r => length (rf_turn_numbers r)) rows))) (F32.of_Z (Z.of_nat (length rows))))
  end.

Definition backfill (s : Skill P) (rate : option spec_float) (o : Outside) (st : EvoStore) : EvoStore :=
  match rate with
  | Some rate => if o_db_backfill o then backfill_post_revision_error_rate (name s) rate st else st
  | None => st
  end.

(** The row of a revision and what is reported of it. *)
Definition revision_record (s : Skill P) (session old new : string) (rows : list SkillReflection) (applied : bool) (o : Outside) : SkillRevisionRecord :=
  {| rv_id := o_uuid_revision o; rv_skill_name := name s; rv_session_id := session; rv_old_content := old; rv_new_content := new;
     rv_diff_text := compute_diff old new; rv_avg_confidence := avg_conf rows; rv_reflection_ids := map rf_id rows;
     rv_pre_error_rate := pre_error_rate rows; rv_post_error_rate := None; rv_applied := applied; rv_created_at := o_now_revised o |}.

Definition diff_outcome (s : Skill P) (old new : string) (rows : list SkillReflection) (applied : bool) : SkillRevisionDiff :=
  {| rd_skill_name := name s; rd_old_snippet := safe_snippet old 300; rd_new_snippet := safe_snippet new 300; rd_diff := compute_diff old new;
     rd_confidence := avg_conf rows; rd_applied := applied |}.

Definition save_revision (r : SkillRevisionRecord) (o : Outside) (st : EvoStore) : result Failure EvoStore :=
  match o_db_save_revision o with None => Ok (save_skill_revision r st) | Some e => Err (Fails e) end.

(** A revision that is recorded and not applied. *)
Definition logged_only (s : Skill P) (session old new : string) (rows : list SkillReflection) (o : Outside) (w : World) :
    result Failure (option SkillRevisionDiff) * World :=
  match save_revision (revision_record s session old new rows false o) o (w_store w) with
  | Err e => (Err e, w)
  | Ok st => (Ok (Some (diff_outcome s old new rows false)), {| w_disk := w_disk w; w_store := backfill s (pre_error_rate rows) o st |})
  end.

(** The name of the temporary file; [None]: the session's identifier is cut
    inside a character. *)
Definition temp_path (s : Skill P) (session : string) (o : Outside) : option string :=
  let cut := Nat.min (len session) 12 in
  if Completion.is_char_boundary cut session
  then Some (path_join (default "." (parent (source_path s))) ("SKILL.md.tmp." +:+ take_str cut session +:+ "." +:+ o_uuid_temp o))
  else None.

(** Write beside the file, then rename over it. *)
Definition write_skill (s : Skill P) (temp protected : string) (d : D) : bool * D :=
  match d_write temp protected d with
  | (Err _, d) => (false, d)
  | (Ok _, d) =>
      match d_rename temp (source_path s) d with
      | (Ok _, d) => (true, d)
      | (Err _, d) => (false, d_remove temp d)
      end
  end.

Definition audited (config : EvolutionConfig) (m : Model) (old protected : string) (o : Outside) : bool :=
  negb (fgeb (c_min_confidence config) (F64.lit 85 100)) || independent_audit m old protected o.

Definition finish_revision (s : Skill P) (session old protected : string) (rows : list SkillReflection) (actually_applied : bool) (o : Outside) (w : World) :
    result Failure (option SkillRevisionDiff) * World :=
  let st := backfill s (pre_error_rate rows) o (w_store w) in
  match save_revision (revision_record s session old protected rows actually_applied o) o st with
  | Err e => (Err e, {| w_disk := w_disk w; w_store := st |})
  | Ok st => (Ok (Some (diff_outcome s old protected rows actually_applied)), {| w_disk := w_disk w; w_store := st |})
  end.

(** The light model, when there is one. *)
Definition light (aux : bool) : Model := if aux then Aux else Main.

Definition apply_revision (s : Skill P) (session : string) (config : EvolutionConfig) (aux : bool) (old protected : string) (rows : list SkillReflection)
    (o : Outside) (w : World) : result Failure (option SkillRevisionDiff) * World :=
  let applied := fgeb (avg_conf rows) (c_min_confidence config) in
  if applied && negb (audited config (light aux) old protected o) then logged_only s session old protected rows o w
  else if String.eqb old protected || revision_semantically_equal old protected then
    (Ok None, {| w_disk := w_disk w; w_store := backfill s (pre_error_rate rows) o (w_store w) |})
  else if applied then
    match temp_path s session o with
    | None => (Err Panic, w)
    | Some temp =>
        let '(done_, d) := write_skill s temp protected (w_disk w) in
        finish_revision s session old protected rows done_ o {| w_disk := d; w_store := w_store w |}
    end
  else finish_revision s session old protected rows false o w.

Definition revise (s : Skill P) (session : string) (config : EvolutionConfig) (aux : bool) (current : string) (o : Outside) (w : World) :
    result Failure (option SkillRevisionDiff) * World :=
  if o_db_last_again o && match last_revision_time (name s) (w_store w) with Some t => (o_now_cooldown o - t <? 3600)%Z | None => false end
  then (Ok None, w)
  else match d_read (w_disk w) (source_path s) with
  | Err e => (Err (Fails ("read skill file: " +:+ e)), w)
  | Ok old =>
      match o_db_load o with
      | Some e => (Err (Fails e), w)
      | None =>
          let all := load_skill_reflections (name s) session (w_store w) in
          let rows := batch current all in
          match o_infer o Main (revision_prompt old all) with
          | None => (Ok None, w)
          | Some items =>
              let new := deltas items in
              if is_empty_str new then (Ok None, w)
              else match protect_frontmatter new s with
                   | Err _ => logged_only s session old new rows o w
                   | Ok protected =>
                       match from_yaml (extract_frontmatter_str protected) with
                       | None => logged_only s session old protected rows o w
                       | Some _ => apply_revision s session config aux old protected rows o w
                       end
                   end
          end
      end
  end.

(** ** One run *)

Definition no_report : EvolutionReport := {| skills_analyzed := 0; reflections := 0; revisions := 0; revision_diffs := [] |}.

Definition analyzed (r : EvolutionReport) : EvolutionReport :=
  {| skills_analyzed := S (skills_analyzed r); reflections := reflections r; revisions := revisions r; revision_diffs := revision_diffs r |}.
Definition reflected (r : EvolutionReport) : EvolutionReport :=
  {| skills_analyzed := skills_analyzed r; reflections := S (reflections r); revisions := revisions r; revision_diffs := revision_diffs r |}.
Definition revised (d : SkillRevisionDiff) (r : EvolutionReport) : EvolutionReport :=
  {| skills_analyzed := skills_analyzed r; reflections := reflections r; revisions := S (revisions r); revision_diffs := revision_diffs r ++ [d] |}.

(** One skill; [None] is a panic, which ends the run. *)
Definition run_skill (snapshots : list TurnSnapshot) (skill_tool_calls : list string) (user_messages : list (Z * string)) (session : string) (aux : bool)
    (s : Skill P) (o : Outside) (rw : EvolutionReport * World) : option (EvolutionReport * World) :=
  let '(report, w) := rw in
  let config := config_of s in
  let report := analyzed report in
  trajectory ← compile_trajectory lower s snapshots skill_tool_calls user_messages;
  match reflect s trajectory session (light aux) o with
  | None => Some (report, w)
  | Some r =>
      let report := reflected report in
      if negb (o_db_save_reflection o) then Some (report, w)
      else
        let w := {| w_disk := w_disk w; w_store := save_skill_reflection r (w_store w) |} in
        if negb (should_trigger_revision (rf_skill_name r) session config (w_store w) o) then Some (report, w)
        else match revise s session config aux (rf_id r) o w with
             | (Ok (Some diff), w) => Some (revised diff report, w)
             | (Ok None, w) => Some (report, w)
             | (Err (Fails _), w) => Some (report, w)
             | (Err Panic, _) => None
             end
  end.

Fixpoint run_skills (snapshots : list TurnSnapshot) (skill_tool_calls : list string) (user_messages : list (Z * string)) (session : string) (aux : bool)
    (l : list (Skill P * Outside)) (rw : EvolutionReport * World) : option (EvolutionReport * World) :=
  match l with
  | [] => Some rw
  | (s, o) :: l => rw ← run_skill snapshots skill_tool_calls user_messages session aux s o rw;
      run_skills snapshots skill_tool_calls user_messages session aux l rw
  end.

(** Temporary files of earlier runs, two minutes old or of unknown age. *)
Definition stale_temp (d : D) (now : Z) (dir n : string) : bool :=
  starts_with n "SKILL.md.tmp." && match d_age d (path_join dir n) with Some secs => negb (now - secs <? 120)%Z | None => true end.

Definition cleanup_dir (now : Z) (d : D) (dir : string) : D :=
  match d_read_dir d dir with
  | Err _ => d
  | Ok entries => foldl (fun d e => match e with Ok n => if stale_temp d now dir n then d_remove (path_join dir n) d else d | Err _ => d end) d entries
  end.

Definition cleanup_stale_temp_files (active : list (Skill P)) (now : Z) (d : D) : D :=
  foldl (cleanup_dir now) d (omap (fun s => parent (source_path s)) active).

(** [active] are the skills of the registry that are not disabled, with what each
    one's run meets. *)
Definition run (active : list (Skill P * Outside)) (now : Z) (memory : WorkingMemory) (skill_tool_calls : list string) (user_messages : list (Z * string))
    (session : string) (aux : bool) (w : World) : option (EvolutionReport * World) :=
  let w := {| w_disk := cleanup_stale_temp_files (map fst active) now (w_disk w); w_store := w_store w |} in
  let eligible := List.filter (fun so => check_eligibility (fst so) (config_of (fst so)) (w_store w) session skill_tool_calls (snd so)) active in
  run_skills (snapshots memory) skill_tool_calls user_messages session aux eligible (no_report, w).
End Pipeline.
Arguments World : clear implicits.

(** ** Lemmas: the corrections *)

(** The index of the percentile is in bounds for as many messages as a history
    holds. *)
Lemma percentile_in_bounds n : 3 <= n -> n <= Turn.HISTORY_CAP -> percentile_30 n < n.
Proof.
  intros H1 H2. assert (Hall : forallb (fun k => (percentile_30 k <? k)%nat) (seq 3 998) = true) by (vm_compute; reflexivity).
  apply Nat.ltb_lt. rewrite forallb_forall in Hall. apply (Hall n). apply in_seq. unfold Turn.HISTORY_CAP in H2. lia.
Qed.

Lemma corrections_total lower snaps msgs : length msgs <= Turn.HISTORY_CAP -> is_Some (detect_user_corrections lower snaps msgs).
Proof.
  intros Hl. unfold detect_user_corrections. destruct msgs as [|m msgs]; [by eexists|]. destruct (negb _); [by eexists|].
  apply fmap_is_Some. unfold short_threshold. set (lens := stable_sort _ _).
  assert (Hp : length lens = length (m :: msgs)).
  { unfold lens. rewrite stable_sort_Permutation. by rewrite length_map. }
  destruct (Nat.leb_spec 3 (length lens)) as [H3|]; [|by eexists]. apply fmap_is_Some, lookup_lt_is_Some_2.
  apply percentile_in_bounds; [done|]. by rewrite Hp.
Qed.

(** ** Lemmas: a run *)

Section Runs.
Context {P Y D : Type} `{Yaml Y} `{SkillFsLaws D}.
Context (from_yaml : string -> option SkillFrontmatter) (parse : string -> option Value) (pretty_rows : list SkillReflection -> string).
Context (lower : string -> string).
Context (by_time : list SkillReflection -> list SkillReflection) (newest : list SkillRevisionRecord -> option SkillRevisionRecord).

(** Nothing but the temporary file is different. *)
Definition same_but (temp : option string) (d d' : D) : Prop := forall q, temp <> Some q -> d_read d' q = d_read d q.

Lemma write_skill_spec (s : Skill P) temp protected d done_ d' : write_skill s temp protected d = (done_, d') ->
  (done_ = false /\ same_but (Some temp) d d') \/
  (done_ = true /\ (temp <> source_path s -> d_read d' (source_path s) = Ok protected) /\
     forall q, q <> temp -> q <> source_path s -> d_read d' q = d_read d q).
Proof.
  unfold write_skill. pose proof (fun q => d_write_frame temp protected d q) as Hw.
  destruct (d_write temp protected d) as [[u|e] d1] eqn:E1; cbn in Hw.
  2:{ intros [= <- <-]. left. split; [done|]. intros q Hq. apply Hw. congruence. }
  destruct u. apply d_write_read in E1. pose proof (fun q => d_rename_frame temp (source_path s) d1 q) as Hr.
  destruct (d_rename temp (source_path s) d1) as [[u|e] d2] eqn:E2; cbn in Hr; intros [= <- <-].
  - right. destruct u. split; [done|]. split.
    + intros Hne. rewrite (d_rename_read temp (source_path s) d1 d2 Hne E2). done.
    + intros q Hq Hq'. rewrite Hr by done. by apply Hw.
  - left. split; [done|]. intros q Hq. rewrite d_remove_frame by congruence. rewrite (d_rename_failed _ _ _ _ _ q E2).
    apply Hw. congruence.
Qed.

(** What stands before a skill's file. *)
Definition guards (s : Skill P) (session : string) (config : EvolutionConfig) (aux : bool) (current : string) (o : Outside) (w : World D) (old protected : string) : Prop :=
  let all := load_skill_reflections by_time (name s) session (w_store w) in
  let rows := batch current all in
  d_read (w_disk w) (source_path s) = Ok old /\
  (o_db_last_again o = true -> forall t, last_revision_time (name s) (w_store w) = Some t -> (3600 <= o_now_cooldown o - t)%Z) /\
  fgeb (avg_conf rows) (c_min_confidence config) = true /\
  (fgeb (c_min_confidence config) (F64.lit 85 100) = true -> independent_audit lower (light aux) old protected o = true) /\
  (exists items, o_infer o Main (revision_prompt pretty_rows old all) = Some items /\ protect_frontmatter (deltas items) s = Ok protected) /\
  is_Some (from_yaml (extract_frontmatter_str protected)) /\ old <> protected.

Lemma logged_only_disk (s : Skill P) session old new rows o (w : World D) r w' :
  logged_only newest s session old new rows o w = (r, w') -> w_disk w' = w_disk w.
Proof. unfold logged_only. by destruct (save_revision _ _ _); intros [= _ <-]. Qed.

Lemma finish_disk (s : Skill P) session old new rows b o (w : World D) r w' :
  finish_revision newest s session old new rows b o w = (r, w') -> w_disk w' = w_disk w.
Proof. unfold finish_revision. by destruct (save_revision _ _ _); intros [= _ <-]. Qed.

Lemma same_refl temp d : same_but temp d d.
Proof. done. Qed.

Lemma revise_disk (s : Skill P) session config aux current o (w : World D) r w' :
  revise from_yaml pretty_rows lower by_time newest s session config aux current o w = (r, w') ->
  same_but (temp_path s session o) (w_disk w) (w_disk w') \/
  exists old protected temp, temp_path s session o = Some temp /\ guards s session config aux current o w old protected /\
    (temp <> source_path s -> d_read (w_disk w') (source_path s) = Ok protected) /\
    forall q, q <> temp -> q <> source_path s -> d_read (w_disk w') q = d_read (w_disk w) q.
Proof.
  unfold revise. destruct (o_db_last_again o && _) eqn:Ec; [intros [= _ <-]; by left|].
  destruct (d_read (w_disk w) (source_path s)) as [old|e] eqn:Eo; [|intros [= _ <-]; by left].
  destruct (o_db_load o); [intros [= _ <-]; by left|].
  set (all := load_skill_reflections by_time (name s) session (w_store w)). set (rows := batch current all).
  destruct (o_infer o Main _) as [items|] eqn:Ei; [|intros [= _ <-]; by left].
  destruct (is_empty_str (deltas items)); [intros [= _ <-]; by left|].
  destruct (protect_frontmatter _ s) as [protected|e] eqn:Ep.
  2:{ intros Hl. left. by rewrite (logged_only_disk _ _ _ _ _ _ _ _ _ Hl). }
  destruct (from_yaml _) as [fm|] eqn:Ey.
  2:{ intros Hl. left. by rewrite (logged_only_disk _ _ _ _ _ _ _ _ _ Hl). }
  unfold apply_revision. set (applied := fgeb (avg_conf rows) (c_min_confidence config)).
  destruct (applied && negb _) eqn:Ea.
  { intros Hl. left. by rewrite (logged_only_disk _ _ _ _ _ _ _ _ _ Hl). }
  destruct (String.eqb_spec old protected) as [|Hne]; [intros [= _ <-]; by left|]. cbn [orb].
  destruct (revision_semantically_equal old protected); [intros [= _ <-]; by left|].
  destruct applied eqn:Eap; [|intros Hl; left; by rewrite (finish_disk _ _ _ _ _ _ _ _ _ _ Hl)].
  destruct (temp_path s session o) as [temp|] eqn:Et; [|intros [= _ <-]; by left].
  destruct (write_skill s temp protected (w_disk w)) as [done_ d] eqn:Ew. intros Hl. rewrite (finish_disk _ _ _ _ _ _ _ _ _ _ Hl).
  cbn [w_disk]. apply write_skill_spec in Ew as [[-> Hs]|(-> & Hr & Hf)]; [by left|]. right. exists old, protected, temp.
  split; [done|]. split; [|done]. split_and!; try done.
  - intros Hdb t Ht. rewrite Hdb, Ht in Ec. cbn in Ec. lia.
  - intros Hm. unfold audited in Ea. rewrite Hm in Ea. cbn in Ea. by apply negb_false_iff in Ea.
  - by exists items.
Qed.

(** *** Counts *)

Lemma run_skill_counts snaps calls msgs session aux (s : Skill P) o rep (w : World D) rep' w' :
  run_skill from_yaml parse pretty_rows lower by_time newest snaps calls msgs session aux s o (rep, w) = Some (rep', w') ->
  revisions rep <= reflections rep <= skills_analyzed rep ->
  length (revision_diffs rep) = revisions rep ->
  revisions rep' <= reflections rep' <= skills_analyzed rep' /\ length (revision_diffs rep') = revisions rep' /\
  skills_analyzed rep' = S (skills_analyzed rep).
Proof.
  unfold run_skill. destruct (compile_trajectory _ _ _ _ _) as [t|]; [|done]. cbn [mbind option_bind].
  destruct (reflect _ _ _ _ _ _) as [r|]; [|intros [= <- _] ? ?; cbn; lia].
  destruct (negb (o_db_save_reflection o)); [intros [= <- _] ? ?; cbn; lia|].
  destruct (negb _); [intros [= <- _] ? ?; cbn; lia|].
  destruct (revise _ _ _ _ _ _ _ _ _ _ _ _) as [[[d|]|[|e]] w2]; [| |done|]; intros [= <- _] ? ?; cbn; rewrite ?length_app; cbn; lia.
Qed.

Lemma run_skills_counts snaps calls msgs session aux (l : list (Skill P * Outside)) rep (w : World D) rep' w' :
  run_skills from_yaml parse pretty_rows lower by_time newest snaps calls msgs session aux l (rep, w) = Some (rep', w') ->
  revisions rep <= reflections rep <= skills_analyzed rep ->
  length (revision_diffs rep) = revisions rep ->
  revisions rep' <= reflections rep' <= skills_analyzed rep' /\ length (revision_diffs rep') = revisions rep' /\
  skills_analyzed rep' = skills_analyzed rep + length l.
Proof.
  revert rep w. induction l as [|[s o] l IH]; intros rep w Hr Hc Hd; cbn [run_skills mbind option_bind] in Hr.
  { injection Hr as <- <-. cbn. split_and!; lia. }
  destruct (run_skill from_yaml parse pretty_rows lower by_time newest snaps calls msgs session aux s o (rep, w)) as [[rep1 w1]|] eqn:E; [|done].
  apply run_skill_counts in E as (H3 & H4 & H5); [|done..]. apply IH in Hr as (H6 & H7 & H8); [|done..]. cbn. split_and!; lia.
Qed.
End Runs.

(** *** Skills noted by the loop *)

Lemma count_nodup n (l : list string) : NoDup l -> length (List.filter (String.eqb n) l) <= 1.
Proof.
  induction 1 as [|x l Hx Hl IH]; [cbn; lia|]. cbn. destruct (String.eqb_spec n x) as [->|]; [|done]. cbn.
  assert (List.filter (String.eqb x) l = []) as ->; [|cbn; lia].
  destruct (List.filter (String.eqb x) l) as [|y k] eqn:E; [done|]. exfalso. apply Hx.
  assert (Hy : In y (List.filter (String.eqb x) l)) by (rewrite E; by left).
  apply List.filter_In in Hy as [Hy ->%String.eqb_eq]. by apply list_elem_of_In.
Qed.

(** The names the loop has noted after some turns' calls. *)
Definition noted (turns : list (list ToolCall)) : list string := foldl (fun noted calls => Turn.note_skills calls noted) [] turns.

Lemma noted_nodup turns : NoDup (noted turns).
Proof.
  unfold noted. assert (H : NoDup (@nil string)) by constructor. revert H. generalize (@nil string) as l.
  induction turns as [|calls turns IH]; intros l H; [done|]. cbn. by apply IH, Turn.note_skills_nodup.
Qed.

Lemma not_eligible {P} (s : Skill P) config st session turns o : check_eligibility s config st session (noted turns) o = false.
Proof.
  unfold check_eligibility. repeat (case_match; [done|]). apply Nat.leb_gt. pose proof (count_nodup (name s) _ (noted_nodup turns)). lia.
Qed.

(** ** The laws of YAML *)

(** Reading one field of a mapping; a printed mapping ends its last line and has
    no line of dashes inside; reading the text as the loader's struct agrees with
    the mapping's fields. *)
Class YamlLaws (Y : Type) `{Yaml Y} (from_yaml : string -> option SkillFrontmatter) := {
  y_get : string -> Y -> option YScalar;
  y_get_insert k v y : y_get k (y_insert k v y) = Some v;
  y_get_insert_ne k k' v y : k <> k' -> y_get k (y_insert k' v y) = y_get k y;
  y_printed y s : y_print y = Ok s -> exists t, s = t +:+ nl /\ find_str (nl +:+ "---") t = None;
  y_loaded y t fm : y_print y = Ok (t +:+ nl) -> from_yaml t = Some fm ->
    (forall b, y_get "auto_evolve" y = Some (YBool b) -> fm_auto_evolve fm = b) /\
    (forall x, y_get "evolve_min_confidence" y = Some (YFloat x) -> fm_evolve_min_confidence fm = x) /\
    (forall n, y_get "evolve_max_revisions_per_session" y = Some (YInt n) -> fm_evolve_max_revisions_per_session fm = n) /\
    (forall n, y_get "evolve_reflection_threshold" y = Some (YInt n) -> fm_evolve_reflection_threshold fm = n)
}.

Lemma injected {P Y} `{YamlLaws Y from_yaml} (fm : Y) (s : Skill P) :
  let y := inject_evolution_fields fm s in
  y_get "auto_evolve" y = Some (YBool (auto_evolve s)) /\
  y_get "evolve_min_confidence" y = Some (YFloat (kept_confidence s)) /\
  y_get "evolve_max_revisions_per_session" y = Some (YInt (evolve_max_revisions_per_session s)) /\
  y_get "evolve_reflection_threshold" y = Some (YInt (evolve_reflection_threshold s)).
Proof. cbn zeta. unfold inject_evolution_fields. split_and!; rewrite ?y_get_insert_ne, ?y_get_insert by done; done. Qed.

(** The text a revision writes. *)
Lemma protected_text {P Y} `{YamlLaws Y from_yaml} (s : Skill P) new p : protect_frontmatter new s = Ok p ->
  exists y t le body, y_print (inject_evolution_fields y s) = Ok (t +:+ nl) /\ find_str (nl +:+ "---") t = None /\
    (le = nl \/ le = crlf) /\ p = "---" +:+ le +:+ t +:+ nl +:+ "---" +:+ le +:+ body.
Proof.
  unfold protect_frontmatter, split_frontmatter_parts. intros Hp. destruct (negb _); [done|].
  set (opened := _ ∪ _) in Hp. assert (Hle : forall le r, opened = Some (le, r) -> le = nl \/ le = crlf).
  { unfold opened. intros le r. destruct (strip_prefix_str _ ("---" +:+ crlf)), (strip_prefix_str _ ("---" +:+ nl)), (strip_prefix_str _ "---");
      cbn; intros [= <- _]; auto. }
  destruct opened as [[le rest]|]; [|done]. specialize (Hle le rest eq_refl).
  destruct (split_at_first closings rest) as [[fm_str body]|]; [|done].
  destruct (y_parse fm_str) as [y|]; [|done]. destruct (y_print _) as [new_fm|] eqn:Ey; [|done]. injection Hp as <-.
  destruct (y_printed _ _ Ey) as (t & -> & Ht). exists y, t, le, body. split_and!; [done|done|done|]. by rewrite !app_assoc_str.
Qed.

(** *** Reading the file back *)

Lemma whitespace_no_dash c : is_whitespace c = true -> has_char "-" c = false.
Proof.
  assert (Hd : forall d, Ascii.eqb "-" d = true -> byte_val d = 45%nat) by (by intros d <-%Ascii.eqb_eq).
  unfold is_whitespace. destruct c as [|a [|b [|d [|]]]]; cbn [String.list_ascii_of_string map]; intros Hw; try done;
    rewrite !has_char_cons; change (has_char "-" "") with false; rewrite ?orb_false_r, ?orb_false_iff; split_and?;
    match goal with |- Ascii.eqb "-" ?x = false => destruct (Ascii.eqb "-" x) eqn:E; [apply Hd in E; rewrite E in Hw|done] end; cbn in Hw; rewrite ?andb_false_r, ?andb_true_r, ?orb_false_r in Hw; done.
Qed.

Lemma of_chars_no_dash l : Forall (fun c => is_whitespace c = true) l -> has_char "-" (of_chars l) = false.
Proof.
  induction 1 as [|c l Hc _ IH]; [done|]. change (of_chars (c :: l)) with (c +:+ of_chars l). by rewrite has_char_app, (whitespace_no_dash c Hc), IH.
Qed.

Lemma trim_end_split s : exists ws, s = trim_end s +:+ ws /\ has_char "-" ws = false.
Proof.
  destruct (drop_while_split is_whitespace (reverse (chars s))) as (g & Hg & Hall). exists (of_chars (reverse g)). split.
  - unfold trim_end, of_chars. rewrite <- concat_str_app, <- reverse_app, <- Hg, reverse_involutive. symmetry. apply concat_chars.
  - apply of_chars_no_dash. by apply Forall_reverse.
Qed.

(** A text that ends with a dash survives a cut of what has none. *)
Definition dashed (a : string) : Prop := a = "" \/ exists a', a = a' +:+ "-".

Lemma cut_keeps a b t ws : dashed a -> a +:+ b = t +:+ ws -> has_char "-" ws = false -> exists b', t = a +:+ b'.
Proof.
  revert a. induction t as [|c t IH]; intros a Ha E Hw.
  - destruct Ha as [->|[a' ->]]; [by exists ""|]. change ("" +:+ ws) with ws in E. subst ws. rewrite !has_char_app in Hw.
    change (has_char "-" "-") with true in Hw. by rewrite orb_true_r in Hw.
  - destruct a as [|d a]; [by exists (String c t)|]. injection E as -> E. destruct (IH a) as [b' ->]; [|done|done|by exists b'].
    destruct Ha as [|[a' Ha]]; [done|]. destruct a' as [|d' a']; injection Ha as _ ->; [by left|right; by exists a'].
Qed.

Lemma trim_keeps a b : dashed a -> starts_with a "-" = true -> exists b', trim (a +:+ b) = a +:+ b'.
Proof.
  intros Ha Hs. assert (trim_start (a +:+ b) = a +:+ b) as Ht.
  { destruct a as [|d a]; [done|]. unfold starts_with in Hs. cbn [prefixb] in Hs. destruct (Ascii.eqb_spec "-" d) as [<-|]; [|done].
    unfold trim_start. change (String "-" a +:+ b) with (String "-" (a +:+ b)). destruct (chars_head "-" (a +:+ b)) as (r & cs & Hc).
    rewrite drop_while_none; [apply concat_chars|]. rewrite Hc. intros x [= <-]. by destruct r as [|? [|? [|]]]. }
  unfold trim. rewrite Ht. destruct (trim_end_split (a +:+ b)) as (ws & Hw & Hn). by apply (cut_keeps a b _ ws).
Qed.

Lemma suffix_keeps a b p t : dashed a -> has_char "-" p = false -> strip_suffix_str (a +:+ b) p = Some t -> exists b', t = a +:+ b'.
Proof.
  unfold strip_suffix_str. intros Ha Hp. destruct (ends_with _ _) eqn:E; [|done]. intros [= <-]. apply ends_with_spec in E as [x Hx].
  rewrite Hx, app_len. replace (len x + len p - len p)%nat with (len x) by lia. rewrite take_app_str. by apply (cut_keeps a b x p).
Qed.

Lemma strip_fence_keeps a b : dashed a -> starts_with a "-" = true -> exists b', strip_markdown_fence (a +:+ b) = a +:+ b'.
Proof.
  intros Ha Hs. unfold strip_markdown_fence. destruct (trim_keeps a b Ha Hs) as [b1 ->].
  assert (strip_prefixes [fence +:+ "markdown" +:+ nl; fence +:+ "markdown" +:+ crlf; fence +:+ nl; fence +:+ crlf] (a +:+ b1) = None) as ->.
  { destruct a as [|d a]; [done|]. unfold starts_with in Hs. cbn [prefixb] in Hs. by destruct (Ascii.eqb_spec "-" d) as [<-|]. }
  cbn [fmap option_fmap option_map default from_option]. destruct (strip_suffixes closing_fences (a +:+ b1)) as [t|] eqn:E; [|by exists b1].
  assert (exists b2, t = a +:+ b2) as [b2 ->].
  { unfold strip_suffixes, closing_fences in E. cbn [foldr] in E.
    repeat (apply union_Some in E as [E|[_ E]]; [by apply (suffix_keeps a b1 _ t Ha) in E|]). done. }
  by apply trim_keeps.
Qed.

(** What the revision checks is what it wrote. *)
Lemma extract_written t le body : find_str (nl +:+ "---") t = None -> le = nl \/ le = crlf ->
  extract_frontmatter_str ("---" +:+ le +:+ t +:+ nl +:+ "---" +:+ le +:+ body) = t.
Proof.
  intros Ht Hle. set (a := "---" +:+ le +:+ t +:+ nl +:+ "---").
  assert (Ha : dashed a) by (right; exists ("---" +:+ le +:+ t +:+ nl +:+ "--"); unfold a; by rewrite !app_assoc_str).
  assert ("---" +:+ le +:+ t +:+ nl +:+ "---" +:+ le +:+ body = a +:+ (le +:+ body)) as -> by (unfold a; by rewrite !app_assoc_str).
  destruct (strip_fence_keeps a (le +:+ body) Ha eq_refl) as [b' Hb]. unfold extract_frontmatter_str. rewrite Hb. unfold a.
  assert (strip_prefix_str (("---" +:+ le +:+ t +:+ nl +:+ "---") +:+ b') ("---" +:+ nl) ∪
          strip_prefix_str (("---" +:+ le +:+ t +:+ nl +:+ "---") +:+ b') ("---" +:+ crlf) = Some ((t +:+ nl +:+ "---") +:+ b')) as ->.
  { destruct Hle as [-> | ->]; [|done].
    set (r := (t +:+ nl +:+ "---") +:+ b'). change (Some r ∪ strip_prefix_str (("---" +:+ nl +:+ t +:+ nl +:+ "---") +:+ b') ("---" +:+ crlf) = Some r).
    by destruct (strip_prefix_str _ _). }
  rewrite !app_assoc_str. rewrite (closing_found "" t b' Ht : find_str (nl +:+ "---") (t +:+ nl +:+ "---" +:+ b') = _).
  assert (forall y : option nat, Some (len t) ∪ y = Some (len t)) as -> by (by intros []). by rewrite take_app_str.
Qed.

(** ** Properties *)

(** [C8] What it takes to revise a skill's file.  Whatever the models answer and
    whichever calls fail, a revision changes no file but a temporary one, unless:
    an hour has passed since the last applied revision (when the database says
    so), the average confidence of the earlier reflections reaches the skill's
    minimum, the auditor does not object when that minimum is high, the reply is a
    file with a frontmatter that loads, and it differs.  Then the skill's file
    holds the reply with the protected frontmatter. *)
Theorem revision_guarded {P Y D} `{Yaml Y} `{SkillFsLaws D} from_yaml pretty_rows lower by_time newest
    (s : Skill P) session config aux current o (w : World D) :
  let w' := snd (revise from_yaml pretty_rows lower by_time newest s session config aux current o w) in
  same_but (temp_path s session o) (w_disk w) (w_disk w') \/
  exists old protected temp, temp_path s session o = Some temp /\
    guards from_yaml pretty_rows lower by_time s session config aux current o w old protected /\
    (temp <> source_path s -> d_read (w_disk w') (source_path s) = Ok protected) /\
    forall q, q <> temp -> q <> source_path s -> d_read (w_disk w') q = d_read (w_disk w) q.
Proof. cbn zeta. destruct (revise _ _ _ _ _ _ _ _ _ _ _ _) as [r w'] eqn:E. by apply revise_disk in E. Qed.

(** [C17] A revision cannot change how the skill evolves.  Whatever the models
    answer and whichever calls fail, after an attempt to revise a skill its file
    is as it was, or holds a text that, loaded again, gives a skill with exactly
    the evolution settings of the old one.  The minimum confidence is finite, the
    temporary file is not the skill's own, and the text ends its first line with a
    plain line feed or has no line of three dashes that ends with one. *)
Theorem evolution_settings_kept {P P' Y D} `{YamlLaws Y from_yaml} `{SkillFsLaws D} pretty_rows lower by_time newest
    (pattern_new : string -> option P') (s : Skill P) session config aux current o (w : World D)
    (Hfinite : is_finite (evolve_min_confidence s) = true) (Htemp : temp_path s session o <> Some (source_path s)) :
  let w' := snd (revise from_yaml pretty_rows lower by_time newest s session config aux current o w) in
  d_read (w_disk w') (source_path s) = d_read (w_disk w) (source_path s) \/
  exists text, d_read (w_disk w') (source_path s) = Ok text /\
    (starts_with text ("---" +:+ nl) = true \/ find_str (nl +:+ "---" +:+ nl) text = None ->
     forall (d : D) path, config_of (parse_skill pattern_new from_yaml d path text) = config_of s).
Proof.
  cbn zeta. destruct (revise _ _ _ _ _ _ _ _ _ _ _ _) as [r w'] eqn:E. apply revise_disk in E. cbn [snd].
  destruct E as [Hs|(old & protected & temp & Ht & (_ & _ & _ & _ & (items & _ & Hp) & [fm Hfm] & _) & Hr & _)]; [left; by apply Hs|].
  right. exists protected. split; [apply Hr; congruence|]. intros Hends d path.
  destruct (protected_text s _ protected Hp) as (y & t & le & body & Hy & Hd & Hle & ->). rewrite extract_written in Hfm by done.
  destruct (y_loaded _ _ _ Hy Hfm) as (Ha & Hm & Hv & Hth). destruct (injected (from_yaml := from_yaml) y s) as (Ia & Im & Ir & Ith).
  unfold parse_skill. rewrite parse_frontmatter_written, Hfm by done.
  destruct (collect_bundled_files d _) as [sc re]. destruct (split_emphasis body) as [b em]. unfold config_of. cbn.
  rewrite (Ha _ Ia), (Hm _ Im), (Hv _ Ir), (Hth _ Ith). unfold kept_confidence. by rewrite Hfinite.
Qed.

(** The evolution of skills never starts.  The loop notes each skill at most
    once, the eligibility of a skill asks for two notes: after any calls, the run
    at the end of a session analyses no skill and leaves the store as it is. *)
Theorem evolution_never_runs {P Y D} `{Yaml Y} `{SkillFs D} from_yaml parse pretty_rows lower by_time newest
    (active : list (Skill P * Outside)) now memory (turns : list (list ToolCall)) messages session aux (w : World D) :
  exists d, run from_yaml parse pretty_rows lower by_time newest active now memory (noted turns) messages session aux w =
    Some (no_report, {| w_disk := d; w_store := w_store w |}).
Proof.
  unfold run. eexists. assert (List.filter _ active = []) as ->; [|reflexivity].
  induction active as [|[s o] active IH]; [done|]. cbn. by rewrite not_eligible.
Qed.

(** The report of a run: no more revisions than reflections, no more reflections
    than skills, one diff for each revision. *)
Lemma run_counts {P Y D} `{Yaml Y} `{SkillFs D} from_yaml parse pretty_rows lower by_time newest
    (active : list (Skill P * Outside)) now memory calls messages session aux (w w' : World D) rep :
  run from_yaml parse pretty_rows lower by_time newest active now memory calls messages session aux w = Some (rep, w') ->
  revisions rep <= reflections rep <= skills_analyzed rep /\ skills_analyzed rep <= length active /\ length (revision_diffs rep) = revisions rep.
Proof.
  unfold run. intros Hr. apply run_skills_counts in Hr as (H1 & H2 & H3); [|cbn; lia|done]. split_and!; try lia.
  rewrite H3. apply List.filter_length_le.
Qed.

(** One confident reflection triggers a revision at once, and the average that
    decides whether it is applied leaves that reflection out: without earlier ones
    it is zero. *)
Lemma first_reflection_not_applied {P Y D} `{Yaml Y} `{SkillFsLaws D} from_yaml pretty_rows lower by_time newest
    (s : Skill P) session config aux current o (w : World D) :
  batch current (load_skill_reflections by_time (name s) session (w_store w)) = [] ->
  fltb (F64.of_Z 0) (c_min_confidence config) = true ->
  same_but (temp_path s session o) (w_disk w) (w_disk (snd (revise from_yaml pretty_rows lower by_time newest s session config aux current o w))).
Proof.
  intros Hb Hm. destruct (revise _ _ _ _ _ _ _ _ _ _ _ _) as [r w'] eqn:E. apply revise_disk in E as [E|(old & p & temp & _ & Hg & _)]; [done|].
  destruct Hg as (_ & _ & Hc & _). rewrite Hb in Hc. cbn [avg_conf] in Hc. unfold fgeb, fltb, SFleb, SFltb in *.
  rewrite SFcompare_antisym in Hc. destruct (SFcompare _ _) as [[]|]; done.
Qed.

(** A reply cut short by an error is taken for a whole one. *)
Lemma error_ends_text items e rest : Forall (fun i => exists d, i = Ok (Delta d)) items -> deltas (items ++ Err e :: rest) = deltas items.
Proof. induction 1 as [|i items (d & ->) Hi IH]; [done|]. cbn. by rewrite IH. Qed.

(** A file that ends with a block of code loses its closing fence. *)
Lemma closing_fence_lost :
  strip_markdown_fence ("Body" +:+ nl +:+ fence +:+ nl +:+ "x" +:+ nl +:+ fence) = "Body" +:+ nl +:+ fence +:+ nl +:+ "x".
Proof. vm_compute. reflexivity. Qed.

(** A message that agrees is a correction when it holds the letters of a keyword. *)
Lemma keyword_inside_word : is_correction Datatypes.id 0 ("Thank you, the annotations you wrote are very good, go on please!") = true.
Proof. vm_compute. reflexivity. Qed.

(** ** Witnesses *)

#[export] Instance spec_float_eq_dec : EqDecision spec_float.
Proof. solve_decision. Defined.
#[export] Instance YScalar_eq_dec : EqDecision YScalar.
Proof. solve_decision. Defined.

(** A skill that evolves, the one mapping the printer knows, and its text. *)
Definition evolving : Skill string :=
  {| name := "review"; description := "Reviews"; prompt := "Look twice."; source_path := "s/review/SKILL.md"; always := false; paths := None;
     emphasis := None; auto_evolve := true; evolve_min_confidence := F64.lit 7 10; evolve_max_revisions_per_session := 3;
     evolve_reflection_threshold := 3; scripts := ∅; references := ∅ |}.

Definition fields0 : gmap string YScalar :=
  <["evolve_reflection_threshold" := YInt 3]> (<["evolve_max_revisions_per_session" := YInt 3]>
    (<["evolve_min_confidence" := YFloat (F64.lit 7 10)]> (<["auto_evolve" := YBool true]> ∅))).
Definition text0 : string :=
  "auto_evolve: true" +:+ nl +:+ "evolve_min_confidence: 0.7" +:+ nl +:+ "evolve_max_revisions_per_session: 3" +:+ nl +:+ "evolve_reflection_threshold: 3".
Definition fm0 : SkillFrontmatter :=
  {| fm_name := None; fm_always := false; fm_paths := None; fm_description := None; fm_auto_evolve := true; fm_evolve_min_confidence := F64.lit 7 10;
     fm_evolve_max_revisions_per_session := 3; fm_evolve_reflection_threshold := 3 |}.
Definition from_yaml0 (t : string) : option SkillFrontmatter := if String.eqb t text0 then Some fm0 else None.

#[export] Instance yaml0 : Yaml (gmap string YScalar) := {
  y_parse _ := Ok ∅;
  y_print y := if decide (y = fields0) then Ok (text0 +:+ nl) else Err "unsupported";
  y_is_mapping _ := true;
  y_empty := ∅;
  y_insert k v y := <[k := v]> y;
  y_remove k y := delete k y;
  y_eqb y y' := bool_decide (y = y')
}.

#[export] Instance yaml0_laws : YamlLaws (gmap string YScalar) from_yaml0.
Proof.
  refine {| y_get := fun k (y : gmap string YScalar) => y !! k |}.
  - intros k v y. apply lookup_insert_eq.
  - intros k k' v y Hne. by apply lookup_insert_ne.
  - cbn. intros y s. destruct (decide (y = fields0)); [|done]. intros [= <-]. exists text0. split; [done|]. vm_compute. reflexivity.
  - cbn. intros y t fm. destruct (decide (y = fields0)) as [->|]; [|done]. intros Ht. injection Ht as Ht.
    assert (t = text0) as ->.
    { assert (Hl : len (text0 +:+ nl) = len (t +:+ nl)) by (f_equal; exact Ht). rewrite !app_len in Hl.
      symmetry. apply (app_inj_str text0 nl t nl); [lia|exact Ht]. }
    unfold from_yaml0. rewrite String.eqb_refl. intros [= <-]. split_and!; intros x Hx; vm_compute in Hx |- *; by injection Hx as <-.
Qed.

Definition earlier : SkillReflection :=
  {| rf_id := "r1"; rf_skill_name := "review"; rf_session_id := "session"; rf_type := "SkillDefect"; rf_content := ""; rf_confidence := F64.lit 9 10;
     rf_turn_numbers := [1%Z]; rf_created_at := 10 |}.
Definition world0 : World MemDisk :=
  {| w_disk := {| md_files := {["s/review/SKILL.md" := "# Reviews"]}; md_dirs := ∅; md_broken := false |};
     w_store := {| s_reflections := [earlier]; s_revisions := [] |} |}.
Definition reply0 : string := "---" +:+ nl +:+ "name: review" +:+ nl +:+ "---" +:+ nl +:+ "# Reviews" +:+ nl +:+ "Look thrice.".
Definition outside0 : Outside :=
  {| o_infer _ _ := Some [Ok (Delta reply0)]; o_now_eligible := 0; o_now_reflected := 0; o_now_cooldown := 0; o_now_revised := 20;
     o_uuid_reflection := "r2"; o_uuid_temp := "t"; o_uuid_revision := "v1"; o_db_count := true; o_db_last := true; o_db_save_reflection := true;
     o_db_load_trigger := true; o_db_last_again := true; o_db_load := None; o_db_save_revision := None; o_db_backfill := true |}.
Definition written0 : string :=
  "---" +:+ nl +:+ text0 +:+ nl +:+ "---" +:+ nl +:+ "# Reviews" +:+ nl +:+ "Look thrice.".
Definition no_rows (_ : list SkillReflection) : string := "[]".
Definition pick_head (l : list SkillRevisionRecord) : option SkillRevisionRecord := head l.

Lemma revision_guarded_witness :
  let w' := snd (revise from_yaml0 no_rows Datatypes.id Datatypes.id pick_head evolving "session" (config_of evolving) false "r2" outside0 world0) in
  d_read (w_disk w') "s/review/SKILL.md" = Ok written0 /\
  (same_but (temp_path evolving "session" outside0) (w_disk world0) (w_disk w') \/
   exists old protected temp, temp_path evolving "session" outside0 = Some temp /\
    guards from_yaml0 no_rows Datatypes.id Datatypes.id evolving "session" (config_of evolving) false "r2" outside0 world0 old protected /\
    (temp <> source_path evolving -> d_read (w_disk w') (source_path evolving) = Ok protected) /\
    forall q, q <> temp -> q <> source_path evolving -> d_read (w_disk w') q = d_read (w_disk world0) q).
Proof.
  split; [vm_compute; reflexivity|].
  exact (revision_guarded from_yaml0 no_rows Datatypes.id Datatypes.id pick_head evolving "session" (config_of evolving) false "r2" outside0 world0).
Defined.

Lemma evolution_settings_kept_witness :
  let w' := snd (revise from_yaml0 no_rows Datatypes.id Datatypes.id pick_head evolving "session" (config_of evolving) false "r2" outside0 world0) in
  d_read (w_disk w') "s/review/SKILL.md" = Ok written0 /\
  config_of (parse_skill no_glob from_yaml0 (w_disk world0) "s/review/SKILL.md" written0) = config_of evolving.
Proof.
  assert (Hw : d_read (w_disk (snd (revise from_yaml0 no_rows Datatypes.id Datatypes.id pick_head evolving "session" (config_of evolving) false "r2" outside0 world0)))
    "s/review/SKILL.md" = Ok written0) by (vm_compute; reflexivity).
  split; [exact Hw|].
  destruct (evolution_settings_kept no_rows Datatypes.id Datatypes.id pick_head no_glob evolving "session" (config_of evolving) false "r2" outside0 world0)
    as [Hs|(text & Ht & Hc)]; [vm_compute; reflexivity|vm_compute; discriminate| |].
  - change (source_path evolving) with "s/review/SKILL.md" in Hs. rewrite Hw in Hs. vm_compute in Hs. discriminate Hs.
  - change (source_path evolving) with "s/review/SKILL.md" in Ht. rewrite Hw in Ht. injection Ht as <-. apply Hc. left. vm_compute. reflexivity.
Defined.

(** A reply whose first line ends with a carriage return and whose closing line
    is six dashes: the revision checks one frontmatter and the loader reads
    another, which ends at the dashes left over; the settings are lost. *)
Example long_closing_loses_settings :
  let reply := "---" +:+ crlf +:+ "name: review" +:+ crlf +:+ "------" +:+ nl +:+ "# Reviews" in
  let text := default "" (ok (protect_frontmatter reply evolving)) in
  protect_frontmatter reply evolving = Ok text /\ from_yaml0 (extract_frontmatter_str text) = Some fm0 /\
    fst (parse_frontmatter from_yaml0 text) = None /\
    auto_evolve (parse_skill no_glob from_yaml0 (w_disk world0) "s/review/SKILL.md" text) = false.
Proof. cbn zeta. split; [vm_compute; reflexivity|]. split; [vm_compute; reflexivity|]. split; vm_compute; reflexivity. Qed.
