(* ===== verification/Lsp.v ===== *)
(** * The language server client

    src/kernel/src/palaces/zhen_tool/builtin/exec/lsp.rs: messages framed by
    headers, requests and their answers, one server per language kept for the
    session, the navigation tool and the diagnostics after an edit.  The JSON
    printer and parser, the process of a server (what it writes, when, and
    whether it reads) and the files are arguments. *)

From S2P Require Import Prelude Update RString Utf8 Json Path Permission Tool Files.
From S2P Require Seeds.
From Stdlib Require Import Ascii.
Local Open Scope string_scope.
Local Open Scope update_scope.
#[local] Arguments String.append !_ _ : simpl nomatch.

(** ** Languages *)

Inductive LanguageKind := Rust | Cpp.
#[export] Instance LanguageKind_eq_dec : EqDecision LanguageKind.
Proof. solve_decision. Defined.
#[export] Program Instance LanguageKind_countable : Countable LanguageKind :=
  inj_countable' (fun l => match l with Rust => true | Cpp => false end) (fun b => if b then Rust else Cpp) _.
Next Obligation. by intros []. Qed.

(** [Path::extension]. *)
Definition extension (p : string) : option string :=
  n ← file_name p; match rfind_str "." n with Some (S k) => Some (drop_str (S (S k)) n) | _ => None end.

Definition from_path (p : string) : option LanguageKind :=
  e ← extension p;
  if String.eqb e "rs" then Some Rust else if one_of e ["c"; "h"; "cpp"; "cc"; "cxx"; "hpp"; "hh"] then Some Cpp else None.

Definition language_id (l : LanguageKind) : string := match l with Rust => "rust" | Cpp => "cpp" end.

(** ** A server *)

(** The pipe to a server: it reads what comes, it no longer does and the pipe has
    room for so many bytes, or it is gone. *)
Inductive Stdin := Reads | Stalled (room : nat) | Closed.

(** [h_in] is what the server is still to write and [h_open] whether it stays
    alive after that; [h_out] is what it has been sent. *)
Record Handle := {
  h_in : string;
  h_open : bool;
  h_out : string;
  h_stdin : Stdin;
  next_id : Z;
  initialized : bool;
  pull_diagnostics : bool
}.

Definition eta_handle (h : Handle) : Handle :=
  {| h_in := h_in h; h_open := h_open h; h_out := h_out h; h_stdin := h_stdin h; next_id := next_id h; initialized := initialized h;
     pull_diagnostics := pull_diagnostics h |}.
#[export] Instance set_h_in : Setter h_in. Proof. derive_setter eta_handle. Defined.
#[export] Instance set_h_out : Setter h_out. Proof. derive_setter eta_handle. Defined.
#[export] Instance set_h_stdin : Setter h_stdin. Proof. derive_setter eta_handle. Defined.
#[export] Instance set_next_id : Setter next_id. Proof. derive_setter eta_handle. Defined.
#[export] Instance set_initialized : Setter initialized. Proof. derive_setter eta_handle. Defined.
#[export] Instance set_pull : Setter pull_diagnostics. Proof. derive_setter eta_handle. Defined.

(** Blocking operations on a server: [None] waits for ever. *)
Definition Io (A : Type) : Type := Handle -> option (result string A * Handle).

#[export] Instance io_ret : MRet Io := fun A a h => Some (Ok a, h).
#[export] Instance io_bind : MBind Io := fun A B k m h =>
  match m h with
  | Some (Ok a, h') => k a h'
  | Some (Err e, h') => Some (Err e, h')
  | None => None
  end.

Definition fails {A} (e : string) : Io A := fun h => Some (Err e, h).
Definition modify (f : Handle -> Handle) : Io unit := fun h => Some (Ok (), f h).
Definition gets {A} (f : Handle -> A) : Io A := fun h => Some (Ok (f h), h).

(** A deadline: whether a wait with so many bytes still to come finds something
    to read in time. *)
Definition Deadline := option (nat -> bool).

Definition TIMED_OUT : string := "timed out waiting for language server output".

Definition wait_readable (deadline : Deadline) : Io unit := fun h =>
  match deadline with
  | Some ready => if ready (len (h_in h)) then Some (Ok (), h) else Some (Err TIMED_OUT, h)
  | None => Some (Ok (), h)
  end.

(** The bytes up to and with the first line feed, and those after it. *)
Fixpoint cut_line (s : string) : option (string * string) :=
  match s with
  | "" => None
  | String c s' =>
      if Ascii.eqb c newline then Some (String c "", s')
      else match cut_line s' with Some (l, r) => Some (String c l, r) | None => None end
  end.

(** [read_line]: with the line feed, or what is left when the server is gone. *)
Definition read_line : Io string := fun h =>
  let give l rest := Some ((if is_utf8 l then Ok l else Err "read header: stream did not contain valid UTF-8"), h <| h_in := rest |>) in
  match cut_line (h_in h) with
  | Some (l, rest) => give l rest
  | None => if h_open h then None else give (h_in h) ""
  end.

Definition read_exact (n : nat) : Io string := fun h =>
  if (n <=? len (h_in h))%nat then Some (Ok (take_str n (h_in h)), h <| h_in := drop_str n (h_in h) |>)
  else if h_open h then None else Some (Err "read body: failed to fill whole buffer", h <| h_in := "" |>).

(** [trim_end_matches(['\r', '\n'])]. *)
Fixpoint trim_eol (s : string) : string :=
  match s with
  | "" => ""
  | String c s' =>
      match trim_eol s' with
      | "" => if Ascii.eqb c cr || Ascii.eqb c newline then "" else String c ""
      | t => String c t
      end
  end.

Abbreviation Servers := (gmap LanguageKind Handle).

Section Client.
Context (parse : string -> result string Value) (print : Value -> string).

(** ** Messages *)

Definition frame (msg : Value) : string :=
  "Content-Length: " +:+ pretty (N.of_nat (len (print msg))) +:+ String cr nl +:+ String cr nl +:+ print msg.

(** [write_all] and [flush] have no deadline: on a pipe that is full and that
    nobody reads they wait for ever. *)
Definition write_message (msg : Value) : Io unit := fun h =>
  let sent h := h <| h_out ::= fun o => o +:+ frame msg |> in
  match h_stdin h with
  | Reads => Some (Ok (), sent h)
  | Stalled room =>
      if (len (frame msg) <=? room)%nat then Some (Ok (), sent h <| h_stdin := Stalled (room - len (frame msg)) |>) else None
  | Closed => Some (Err "write to server: Broken pipe (os error 32)", h)
  end.

(** The headers up to the empty line; [fuel]: one more than the bytes to come. *)
Fixpoint read_headers (fuel : nat) (deadline : Deadline) (content_length : option Z) : Io (option Z) :=
  match fuel with
  | O => fails "server closed connection"
  | S fuel =>
      _ ← wait_readable deadline;
      line ← read_line;
      if is_empty_str line then fails "server closed connection"
      else
        let trimmed := trim_eol line in
        if is_empty_str trimmed then mret content_length
        else
          read_headers fuel deadline
            (match strip_prefix_str trimmed "Content-Length:" with Some rest => parse_unsigned u64_max (trim rest) | None => content_length end)
  end.

Definition read_message (deadline : Deadline) : Io Value :=
  n ← gets (fun h => S (len (h_in h)));
  content_length ← read_headers n deadline None;
  match content_length with
  | None => fails "missing Content-Length"
  | Some l =>
      _ ← wait_readable deadline;
      buf ← read_exact (Z.to_nat l);
      match parse buf with Ok v => mret v | Err e => fails ("parse body: " +:+ e) end
  end.

(** ** Requests *)

Definition answers (id : Z) (resp : Value) : bool :=
  match get resp "id" with Some (Num (PosInt n)) => (n =? id)%Z | _ => false end.

(** Messages up to the answer; [fuel]: one more than the bytes to come. *)
Fixpoint await (fuel : nat) (deadline : Deadline) (method : string) (id : Z) : Io Value :=
  match fuel with
  | O => fails "server closed connection"
  | S fuel =>
      resp ← read_message deadline;
      if answers id resp then
        match get resp "error" with
        | Some err => fails ("LSP error on " +:+ method +:+ ": " +:+ print err)
        | None => mret (default Null (get resp "result"))
        end
      else await fuel deadline method id
  end.

Definition request_with_deadline (method : string) (params : Value) (deadline : Deadline) : Io Value :=
  id ← gets next_id;
  _ ← modify (fun h => h <| next_id := (id + 1)%Z |>);
  _ ← write_message (Obj [("id", Num (PosInt id)); ("jsonrpc", Str "2.0"); ("method", Str method); ("params", params)]);
  n ← gets (fun h => S (len (h_in h)));
  await n deadline method id.

Definition request (method : string) (params : Value) : Io Value := request_with_deadline method params None.

Definition notify (method : string) (params : Value) : Io unit :=
  write_message (Obj [("jsonrpc", Str "2.0"); ("method", Str method); ("params", params)]).

Section Files.
Context {FS : Type} `{FileSystem FS} (fs : FS) (pid : Z).

Definition path_to_uri (p : string) : string := "file://" +:+ match fs_canonicalize fs p with Ok a => a | Err _ => p end.

Definition initialize_with_deadline (root : string) (deadline : Deadline) : Io unit :=
  init ← request_with_deadline "initialize"
    (Obj [("capabilities", Obj [("textDocument", Obj [
            ("callHierarchy", Obj [("dynamicRegistration", Bool false)]); ("definition", Obj [("linkSupport", Bool false)]);
            ("diagnostic", Obj [("dynamicRegistration", Bool false)]);
            ("documentSymbol", Obj [("hierarchicalDocumentSymbolSupport", Bool false)]);
            ("hover", Obj [("contentFormat", Arr [Str "markdown"; Str "plaintext"])]); ("publishDiagnostics", Obj []); ("references", Obj [])])]);
          ("processId", Num (PosInt pid)); ("rootUri", Str (path_to_uri (default root (parent root))))]) deadline;
  _ ← modify (fun h => h <| pull_diagnostics :=
        match get init "capabilities" ≫= fun c => get c "diagnosticProvider" with Some v => negb (is_null v) | None => false end |>);
  notify "initialized" (Obj []).

Definition did_open (uri lang_id text : string) : Io unit :=
  notify "textDocument/didOpen"
    (Obj [("textDocument", Obj [("languageId", Str lang_id); ("text", Str text); ("uri", Str uri); ("version", Num (PosInt 1))])]).

(** Initialised on first use. *)
Definition ensure_initialized (path : string) (deadline : Deadline) : Io unit :=
  done_ ← gets initialized;
  if done_ : bool then mret ()
  else
    _ ← initialize_with_deadline path deadline;
    modify (fun h => h <| initialized := true |>).

(** ** What is shown *)

Definition symbol_kind_name (k : Z) : string :=
  match k with
  | 1 => "module" | 2 => "class" | 3 => "method" | 4 => "property" | 5 => "field" | 6 => "constructor" | 9 => "enum" | 10 => "interface"
  | 11 => "function" | 12 => "variable" | 13 => "constant" | 24 => "struct" | 25 => "event" | 26 => "operator" | _ => "symbol"
  end%Z.

Definition uri_to_path (uri : string) : string := default uri (strip_prefix_str uri "file://").

(** One more, as a release build computes it. *)
Definition succ_i64 (n : Z) : Z := ((n + 1 + 2 ^ 63) mod 2 ^ 64 - 2 ^ 63)%Z.

Definition format_range (v : Value) : string :=
  let holder := default v (get v "location") in
  let uri := default "" (uri_to_path <$> (get holder "uri" ≫= as_str)) in
  let start := s ← (r ← get holder "range"; get r "start"); l ← get s "line" ≫= Seeds.as_i64; c ← get s "character" ≫= Seeds.as_i64;
    Some (succ_i64 l, succ_i64 c) in
  let '(l, c) := default (0, 0)%Z start in
  if is_empty_str uri then "" else uri +:+ ":" +:+ pretty l +:+ ":" +:+ pretty c.

Definition format_location_or_symbol (v : Value) : string :=
  match get v "name" ≫= as_str with
  | Some n =>
      let kind := default "symbol" (symbol_kind_name <$> (get v "kind" ≫= Seeds.as_i64)) in
      kind +:+ " " +:+ n +:+ "  " +:+ format_range v
  | None =>
      match get v "from" ∪ get v "to" with
      | Some item => "call " +:+ default "?" (get item "name" ≫= as_str) +:+ "  " +:+ format_range item
      | None => format_range v
      end
  end.

Definition format_result (result : Value) : string :=
  match result with
  | Null | Arr [] => "No results."
  | Arr l => str_join nl (map format_location_or_symbol l)
  | v => str_join nl (map format_location_or_symbol [v])
  end.

(** ** The operations *)

Definition navigation (operation : string) (text_document pos : Value) : Io Value :=
  if String.eqb operation "definition" then request "textDocument/definition" (Obj [("position", pos); ("textDocument", text_document)])
  else if String.eqb operation "references" then
    request "textDocument/references" (Obj [("context", Obj [("includeDeclaration", Bool true)]); ("position", pos); ("textDocument", text_document)])
  else if String.eqb operation "hover" then request "textDocument/hover" (Obj [("position", pos); ("textDocument", text_document)])
  else if String.eqb operation "document_symbol" then request "textDocument/documentSymbol" (Obj [("textDocument", text_document)])
  else if String.eqb operation "incoming_calls" || String.eqb operation "outgoing_calls" then
    items ← request "textDocument/prepareCallHierarchy" (Obj [("position", pos); ("textDocument", text_document)]);
    match as_array items ≫= head with
    | None => fails "no call hierarchy item at position"
    | Some item =>
        request (if String.eqb operation "incoming_calls" then "callHierarchy/incomingCalls" else "callHierarchy/outgoingCalls") (Obj [("item", item)])
    end
  else fails ("unknown operation: " +:+ operation).

(** ** The manager *)

(** [spawn_server]: an error, or a fresh server with its streams. *)
Context (spawn_server : LanguageKind -> result string Handle).

(** The server of a language, started if there is none; what is done with it is
    kept whatever comes of it.  [None]: the lock is held for ever. *)
Definition with_server {A} (lang : LanguageKind) (m : Io A) (servers : Servers) : option (result string A * Servers) :=
  let use h s := match m h with Some (r, h') => Some (r, <[lang := h']> s) | None => None end in
  match servers !! lang with
  | Some h => use h servers
  | None => match spawn_server lang with Ok h => use h servers | Err e => Some (Err e, servers) end
  end.

Definition run_operation (path : string) (lang : LanguageKind) (operation : string) (line character : Z) (servers : Servers) :
    option (result string string * Servers) :=
  let uri := path_to_uri path in
  match fs_read fs path with
  | Err e => Some (Err ("failed to read " +:+ path +:+ ": " +:+ e), servers)
  | Ok text =>
      let pos := Obj [("character", Num (PosInt character)); ("line", Num (PosInt line))] in
      let text_document := Obj [("uri", Str uri)] in
      with_server lang
        (_ ← ensure_initialized path None;
         _ ← did_open uri (language_id lang) text;
         result ← navigation operation text_document pos;
         mret (format_result result)) servers
  end.

Definition lsp_execute (perm : PermissionMatrix) (input : Value) (servers : Servers) : option (result ToolError string * Servers) :=
  let fail e := Some (Err (error_of e), servers) in
  match as_str (index input "operation"), as_str (index input "file"), as_u64 (index input "line"), as_u64 (index input "character") with
  | None, _, _, _ => fail "Missing 'operation' parameter"
  | _, None, _, _ => fail "Missing 'file' parameter"
  | _, _, None, _ => fail "Missing 'line' parameter"
  | _, _, _, None => fail "Missing 'character' parameter"
  | Some operation, Some file, Some line, Some character =>
      match verify_path (fs_exists fs) (fs_canonicalize fs) perm file Read with
      | Err e => fail e
      | Ok path =>
          match from_path path with
          | None => fail ("no language server for file: " +:+ path)
          | Some lang =>
              '(r, servers) ← run_operation path lang operation (line mod 2 ^ 32) (character mod 2 ^ 32) servers;
              Some (map_err error_of r, servers)
          end
      end
  end.

(** ** Diagnostics after an edit *)

(** At most [budget] messages. *)
Fixpoint published (budget : nat) (deadline : Deadline) (uri : string) : Io (list Value) :=
  match budget with
  | O => fails "no publishDiagnostics received"
  | S budget =>
      msg ← read_message deadline;
      let params := default Null (get msg "params") in
      if bool_decide (get msg "method" ≫= as_str = Some "textDocument/publishDiagnostics") && bool_decide (get params "uri" ≫= as_str = Some uri)
      then mret (default [] (get params "diagnostics" ≫= as_array))
      else published budget deadline uri
  end.

Definition fetch_diagnostics (path : string) (lang : LanguageKind) (deadline : nat -> bool) (servers : Servers) : option (result string (list Value) * Servers) :=
  let uri := path_to_uri path in
  match fs_read fs path with
  | Err e => Some (Err ("failed to read " +:+ path +:+ ": " +:+ e), servers)
  | Ok text =>
      with_server lang
        (_ ← ensure_initialized path (Some deadline);
         _ ← did_open uri (language_id lang) text;
         pull ← gets pull_diagnostics;
         if pull : bool then
           result ← request_with_deadline "textDocument/diagnostic" (Obj [("textDocument", Obj [("uri", Str uri)])]) (Some deadline);
           mret (default [] (get result "items" ≫= as_array))
         else published 200 (Some deadline) uri) servers
  end.

(** The severity a diagnostic counts with: errors and warnings. *)
Definition severity (d : Value) : Z := default 1%Z (get d "severity" ≫= Seeds.as_i64).
Definition is_severity (n : Z) (d : Value) : bool := (severity d =? n)%Z.

Definition sample (d : Value) : string :=
  let line := succ_i64 (default 0%Z (r ← get d "range"; s ← get r "start"; get s "line" ≫= Seeds.as_i64)) in
  pretty line +:+ ": " +:+ default "?" (head (lines (default "?" (get d "message" ≫= as_str)))).

Definition count_step (st : nat * nat * list string) (d : Value) : nat * nat * list string :=
  let '(errors, warnings, samples) := st in
  if negb (is_severity 1 d) && negb (is_severity 2 d) then st
  else
    let '(errors, warnings) := if is_severity 1 d then (S errors, warnings) else (errors, S warnings) in
    (errors, warnings, if (length samples <? 3)%nat then (samples ++ [sample d])%list else samples).

Definition plural (n : nat) (what : string) : string := pretty (N.of_nat n) +:+ " " +:+ what +:+ if (1 <? n)%nat then "s" else "".

Definition format_diagnostics_summary (path : string) (items : list Value) : option string :=
  let '(errors, warnings, samples) := foldl count_step (O, O, []) items in
  if (errors =? 0)%nat && (warnings =? 0)%nat then None
  else
    let parts := ((if (0 <? errors)%nat then [plural errors "error"] else []) ++ (if (0 <? warnings)%nat then [plural warnings "warning"] else []))%list in
    Some (nl +:+ "[LSP 诊断: " +:+ str_join ", " parts +:+ " — " +:+ path +:+ ": " +:+ str_join "; " samples +:+ "]").

Definition post_edit_summary (path : string) (deadline : nat -> bool) (servers : Servers) : option (option string * Servers) :=
  match from_path path with
  | None => Some (None, servers)
  | Some lang =>
      match fetch_diagnostics path lang deadline servers with
      | None => None
      | Some (Ok items, servers) => Some (format_diagnostics_summary path items, servers)
      | Some (Err _, servers) => Some (None, servers)
      end
  end.
End Files.
End Client.

(** ** Lemmas: one line *)

Lemma cut_line_app a rest : has_char newline a = false -> cut_line (a +:+ nl +:+ rest) = Some (a +:+ nl, rest).
Proof.
  induction a as [|c a IH]; intros H; [reflexivity|]. rewrite has_char_cons in H. apply orb_false_iff in H as [Hc Ha].
  change (String c a +:+ ?t) with (String c (a +:+ t)). cbn [cut_line]. rewrite IH by done.
  assert (Ascii.eqb c newline = false) as -> by (apply Ascii.eqb_neq; intros ->; by rewrite Ascii.eqb_refl in Hc). done.
Qed.

Lemma trim_eol_app a : char_all is_graph a = true \/ a = "" -> trim_eol (a +:+ String cr nl) = a.
Proof.
  intros [H| ->]; [|reflexivity]. induction a as [|c a IH]; [reflexivity|]. change (String c a +:+ ?t) with (String c (a +:+ t)).
  unfold char_all in H. cbn in H. apply andb_true_iff in H as [Hc Ha]. cbn [trim_eol]. rewrite IH by done. destruct a; [|done].
  destruct (Ascii.eqb_spec c cr) as [->|]; [done|]. destruct (Ascii.eqb_spec c newline) as [->|]; [done|]. done.
Qed.

(** Whether every wait finds something. *)
Definition prompt_deadline (d : Deadline) : Prop := match d with Some ready => forall n, ready n = true | None => True end.

Lemma wait_prompt d h : prompt_deadline d -> wait_readable d h = Some (Ok (), h).
Proof. unfold wait_readable. destruct d as [ready|]; [|done]. intros Hr. by rewrite Hr. Qed.

Lemma update_in_in (h : Handle) a b : h <| h_in := a |> <| h_in := b |> = h <| h_in := b |>.
Proof. reflexivity. Qed.

Lemma update_in_same (h : Handle) : h <| h_in := h_in h |> = h.
Proof. by destruct h. Qed.

Section Framing.
Context (parse : string -> result string Value) (print : Value -> string).

(** A message whose length is a machine word and which the parser reads as it was
    printed. *)
Definition sized (msg : Value) : Prop := (Z.of_nat (len (print msg)) <= u64_max)%Z /\ parse (print msg) = Ok msg.

Definition header (msg : Value) : string := "Content-Length: " +:+ pretty (N.of_nat (len (print msg))).

Lemma header_ascii msg : is_ascii_str (header msg +:+ String cr nl) = true.
Proof.
  unfold header. rewrite !ascii_app. cbn [andb]. change (is_ascii_str "Content-Length: ") with true. change (is_ascii_str (String cr nl)) with true.
  rewrite andb_true_r. cbn [andb]. unfold is_ascii_str. pose proof (pretty_N_chars (N.of_nat (len (print msg)))) as H.
  unfold char_all in *. apply forallb_forall. intros c Hc. rewrite forallb_forall in H. specialize (H c Hc).
  unfold number_char, is_ascii_digit, ascii_in, Utf8.between in *. apply orb_true_iff in H as [H|H%Ascii.eqb_eq]; [|by subst].
  apply andb_true_iff in H as [H1 H2]. apply Nat.leb_le in H1, H2. apply andb_true_iff. split; apply Nat.leb_le; lia.
Qed.

Lemma header_no_nl msg : has_char newline (header msg +:+ String cr "") = false.
Proof.
  unfold header. rewrite !has_char_app. rewrite (number_not_has newline (pretty _)); [reflexivity|apply pretty_N_chars|reflexivity].
Qed.

Lemma trim_eol_skip a b : trim_eol b <> "" -> trim_eol (a +:+ b) = a +:+ trim_eol b.
Proof.
  intros H. induction a as [|c a IH]; [done|]. change (String c a +:+ ?t) with (String c (a +:+ t)). cbn [trim_eol]. rewrite IH.
  destruct (a +:+ trim_eol b) eqn:E; [|done]. destruct a; [by cbn in E; rewrite E in H|done].
Qed.

Lemma trim_header msg : trim_eol (header msg +:+ String cr nl) = header msg.
Proof.
  unfold header. rewrite app_assoc_str. set (n := pretty _). assert (Hn : trim_eol (n +:+ String cr nl) = n).
  { apply trim_eol_app. left. apply number_all_graph. apply pretty_N_chars. }
  rewrite trim_eol_skip; rewrite Hn; [done|]. apply pretty_N_ne.
Qed.

Lemma header_length msg : (Z.of_nat (len (print msg)) <= u64_max)%Z ->
  (match strip_prefix_str (header msg) "Content-Length:" with Some rest => parse_unsigned u64_max (trim rest) | None => None end) =
    Some (Z.of_nat (len (print msg))).
Proof.
  intros Hl. unfold header. set (n := N.of_nat (len (print msg))).
  change (strip_prefix_str ("Content-Length: " +:+ pretty n) "Content-Length:") with (Some (String " " (pretty n))). cbv beta iota.
  rewrite trim_space_graph by (apply number_all_graph, pretty_N_chars). rewrite parse_unsigned_pretty by lia. f_equal. lia.
Qed.

Lemma read_line_cut h l rest : has_char newline l = false -> is_ascii_str (l +:+ nl) = true -> h_in h = l +:+ nl +:+ rest ->
  read_line h = Some (Ok (l +:+ nl), h <| h_in := rest |>).
Proof. intros Hn Ha He. unfold read_line. rewrite He, cut_line_app by done. by rewrite ascii_utf8. Qed.

Lemma headers_read fuel d h msg rest : prompt_deadline d -> (Z.of_nat (len (print msg)) <= u64_max)%Z -> 2 <= fuel ->
  h_in h = frame print msg +:+ rest ->
  read_headers fuel d None h = Some (Ok (Some (Z.of_nat (len (print msg)))), h <| h_in := print msg +:+ rest |>).
Proof.
  intros Hd Hl Hf He. destruct fuel as [|[|fuel]]; [lia|lia|]. cbn [read_headers]. unfold mbind, io_bind. rewrite wait_prompt by done.
  assert (Hin : h_in h = (header msg +:+ String cr "") +:+ nl +:+ (String cr "" +:+ nl +:+ print msg +:+ rest)).
  { rewrite He. unfold frame, header. by rewrite !app_assoc_str. }
  assert (Hasc : is_ascii_str ((header msg +:+ String cr "") +:+ nl) = true) by (rewrite app_assoc_str; apply header_ascii).
  rewrite (read_line_cut h _ _ (header_no_nl msg) Hasc Hin).
  rewrite app_assoc_str. change (String cr "" +:+ nl) with (String cr nl). rewrite trim_header.
  assert (is_empty_str (header msg +:+ String cr nl) = false) as -> by reflexivity.
  assert (is_empty_str (header msg) = false) as -> by reflexivity.
  rewrite header_length by done. rewrite wait_prompt by done.
  rewrite (read_line_cut _ (String cr "") (print msg +:+ rest)); [reflexivity..|]. cbn. by rewrite ?app_assoc_str.
Qed.

Lemma read_frame d h msg rest : prompt_deadline d -> sized msg -> h_in h = frame print msg +:+ rest ->
  read_message parse d h = Some (Ok msg, h <| h_in := rest |>).
Proof.
  intros Hd [Hl Hprint] He. unfold read_message, mbind, io_bind, gets. rewrite (headers_read _ d h msg rest) by (done || rewrite He; unfold frame; cbn; lia).
  rewrite wait_prompt by done. unfold read_exact. cbn [h_in update set_h_in]. rewrite Nat2Z.id.
  rewrite (proj2 (Nat.leb_le _ _)) by (rewrite app_len; lia). rewrite take_app_str, drop_app_str, Hprint. done.
Qed.
End Framing.

(** ** Lemmas: many messages *)

Section Requests.
Context (parse : string -> result string Value) (print : Value -> string).

Abbreviation sized := (sized parse print).
Definition frames (msgs : list Value) : string := concat_str (map (frame print) msgs).

Lemma frames_cons m msgs rest : frames (m :: msgs) +:+ rest = frame print m +:+ (frames msgs +:+ rest).
Proof. unfold frames. cbn. by rewrite app_assoc_str. Qed.

(** Reading several messages one after the other. *)
Fixpoint read_many (n : nat) (d : Deadline) : Io (list Value) :=
  match n with O => mret [] | S n => m ← read_message parse d; l ← read_many n d; mret (m :: l) end.

Lemma frame_len_pos msg : 1 <= len (frame print msg).
Proof. unfold frame. cbn. lia. Qed.

Lemma frames_len msgs rest : length msgs <= len (frames msgs +:+ rest).
Proof.
  induction msgs as [|m msgs IH]; [cbn; lia|]. rewrite frames_cons, app_len. pose proof (frame_len_pos m). cbn [length]. lia.
Qed.

Lemma await_answer fuel d method id before resp rest h : prompt_deadline d -> Forall sized (before ++ [resp]) ->
  Forall (fun m => answers id m = false) before -> answers id resp = true -> length before < fuel ->
  h_in h = frames before +:+ frame print resp +:+ rest ->
  await parse print fuel d method id h =
    Some (match get resp "error" with
          | Some err => Err ("LSP error on " +:+ method +:+ ": " +:+ print err)
          | None => Ok (default Null (get resp "result"))
          end, h <| h_in := rest |>).
Proof.
  intros Hd Hs Hb Ha. revert h fuel. induction before as [|m before IH]; intros h fuel Hf He.
  - destruct fuel as [|fuel]; [cbn in Hf; lia|]. apply Forall_cons in Hs as [Hs _]. cbn [await].
    unfold mbind, io_bind. rewrite (read_frame parse print d h resp rest Hd Hs He). rewrite Ha. by destruct (get resp "error").
  - apply Forall_cons in Hb as [Hm Hb]. apply Forall_cons in Hs as [Hsm Hs]. destruct fuel as [|fuel]; [lia|]. cbn [await].
    rewrite frames_cons in He. unfold mbind, io_bind. rewrite (read_frame parse print d h m _ Hd Hsm He). rewrite Hm.
    cbn in Hf. rewrite IH; [|done|done|lia|done]. by rewrite update_in_in.
Qed.

(** *** Operations that never wait for ever *)

(** What the server will write is a sequence of whole messages, and it reads what
    it is sent, or is gone. *)
Definition whole (h : Handle) : Prop := (exists msgs, Forall sized msgs /\ h_in h = frames msgs) /\ forall room, h_stdin h <> Stalled room.

Definition nonblocking {A} (m : Io A) : Prop :=
  forall h, whole h -> exists r h', m h = Some (r, h') /\ (is_ok r = true -> whole h').

Lemma nb_ret {A} (a : A) : nonblocking (mret a).
Proof. intros h Hh. by exists (Ok a), h. Qed.
Lemma nb_fails {A} e : nonblocking (fails (A := A) e).
Proof. intros h Hh. by exists (Err e), h. Qed.
Lemma nb_gets {A} (f : Handle -> A) : nonblocking (gets f).
Proof. intros h Hh. by exists (Ok (f h)), h. Qed.
Lemma nb_bind {A B} (m : Io A) (k : A -> Io B) : nonblocking m -> (forall a, nonblocking (k a)) -> nonblocking (m ≫= k).
Proof.
  intros Hm Hk h Hh. destruct (Hm h Hh) as ([a|e] & h' & He & Hw); unfold mbind, io_bind; rewrite He.
  - apply Hk. by apply Hw.
  - by exists (Err e), h'.
Qed.
Lemma nb_modify f : (forall h, h_in (f h) = h_in h /\ h_stdin (f h) = h_stdin h) -> nonblocking (modify f).
Proof.
  intros Hf h [(ms & Hs & He) Hr]. exists (Ok ()), (f h). split; [done|]. intros _. destruct (Hf h) as [H1 H2]. split; [exists ms|]; by rewrite ?H1, ?H2.
Qed.
Lemma nb_write msg : nonblocking (write_message print msg).
Proof.
  intros h [Hm Hr]. unfold write_message. destruct (h_stdin h) as [|room|] eqn:E; [|by destruct (Hr room)|by eexists _, h].
  eexists (Ok ()), _. split; [done|]. intros _. split; [exact Hm|]. cbn. by rewrite E.
Qed.

Section Silent.
(** A deadline that no silence outlasts. *)
Context (ready : nat -> bool) (Hsilent : ready 0 = false).

Lemma nb_read : nonblocking (read_message parse (Some ready)).
Proof.
  intros h [(msgs & Hs & He) Hstd]. destruct msgs as [|m msgs].
  { exists (Err TIMED_OUT), h. split; [|done]. unfold read_message, mbind, io_bind, gets. cbn [read_headers]. unfold mbind, io_bind, wait_readable. rewrite He. cbn. by rewrite Hsilent. }
  apply Forall_cons in Hs as [Hm Hs]. assert (He' : h_in h = frame print m +:+ frames msgs) by (rewrite He; unfold frames; done).
  pose proof (read_frame parse print None h m (frames msgs) I Hm He') as Hr. unfold read_message, mbind, io_bind, gets in Hr |- *.
  set (fuel := S (len (h_in h))) in *. clearbody fuel.
  assert (Hd : forall fuel cl h0, read_headers fuel None cl h0 <> None -> exists r h', read_headers fuel (Some ready) cl h0 = Some (r, h') /\
    (read_headers fuel None cl h0 = Some (r, h') \/ r = Err TIMED_OUT)).
  { clear. induction fuel as [|fuel IH]; intros cl h0 Hn; [eexists _, _; split; [reflexivity|by left]|]. cbn [read_headers] in *. unfold mbind, io_bind, wait_readable in *.
    destruct (ready (len (h_in h0))); [|eexists _, _; split; [done|by right]].
    destruct (read_line h0) as [[[l|e] h1]|]; [| |done]; [|eexists _, _; split; [done|by left]].
    destruct (is_empty_str l); [eexists _, _; split; [done|by left]|].
    destruct (is_empty_str (trim_eol l)); [eexists _, _; split; [done|by left]|]. by apply IH. }
  destruct (read_headers fuel None None h) as [[r0 h0]|] eqn:E0; [|done].
  destruct (Hd fuel None h) as (r & h' & Er & [Er'| ->]); [by rewrite E0| |].
  - rewrite E0 in Er'. injection Er' as -> ->. rewrite Er. destruct r as [[l|]|e]; [|eexists _, _; split; [reflexivity|done]|eexists _, _; split; [reflexivity|done]].
    unfold wait_readable in *. destruct (ready (len (h_in h'))); [|eexists _, _; split; [reflexivity|done]].
    rewrite Hr. eexists _, _. split; [done|]. intros _. split; [by exists msgs|exact Hstd].
  - rewrite Er. eexists _, _; split; [reflexivity|done].
Qed.

Lemma nb_await fuel method id : nonblocking (await parse print fuel (Some ready) method id).
Proof.
  induction fuel as [|fuel IH]; [apply nb_fails|]. cbn [await]. apply nb_bind; [apply nb_read|]. intros resp.
  destruct (answers id resp); [|done]. destruct (get resp "error"); [apply nb_fails|apply nb_ret].
Qed.

Lemma nb_request method params : nonblocking (request_with_deadline parse print method params (Some ready)).
Proof.
  unfold request_with_deadline. apply nb_bind; [apply nb_gets|]. intros id. apply nb_bind; [by apply nb_modify|]. intros _.
  apply nb_bind; [apply nb_write|]. intros _. apply nb_bind; [apply nb_gets|]. intros n. apply nb_await.
Qed.

Lemma nb_published budget uri : nonblocking (published parse budget (Some ready) uri).
Proof.
  induction budget as [|budget IH]; [apply nb_fails|]. cbn [published]. apply nb_bind; [apply nb_read|]. intros msg.
  destruct (_ && _); [apply nb_ret|done].
Qed.

Lemma nb_initialize {F : Type} `{FileSystem F} (fs : F) pid root : nonblocking (initialize_with_deadline parse print fs pid root (Some ready)).
Proof.
  unfold initialize_with_deadline. apply nb_bind; [apply nb_request|]. intros init. apply nb_bind; [by apply nb_modify|]. intros _.
  apply nb_write.
Qed.
End Silent.
End Requests.

Lemma nb_fetch parse print {F : Type} `{FileSystem F} (fs : F) pid ready path lang uri text : ready 0 = false ->
  nonblocking parse print
    (_ ← ensure_initialized parse print fs pid path (Some ready);
     _ ← did_open print uri (language_id lang) text;
     pull ← gets pull_diagnostics;
     if pull : bool then
       result ← request_with_deadline parse print "textDocument/diagnostic" (Obj [("textDocument", Obj [("uri", Str uri)])]) (Some ready);
       mret (default [] (get result "items" ≫= as_array))
     else published parse 200 (Some ready) uri).
Proof.
  intros Hready. apply nb_bind.
  - unfold ensure_initialized. apply nb_bind; [apply nb_gets|]. intros [|]; [apply nb_ret|].
    apply nb_bind; [by apply nb_initialize|]. intros _. by apply nb_modify.
  - intros _. apply nb_bind; [apply nb_write|]. intros _. apply nb_bind; [apply nb_gets|]. intros [|]; [|by apply nb_published].
    apply nb_bind; [by apply nb_request|]. intros r. apply nb_ret.
Qed.

Lemma cut_line_none s : has_char newline s = false -> cut_line s = None.
Proof.
  induction s as [|c s IH]; [done|]. rewrite has_char_cons. intros [Hc Hs]%orb_false_iff. cbn [cut_line]. rewrite IH by done.
  destruct (Ascii.eqb_spec c newline) as [->|]; [|done]. by rewrite Ascii.eqb_refl in Hc.
Qed.

(** A server that stops within a line and stays alive. *)
Lemma partial_blocks parse ready (h : Handle) : has_char newline (h_in h) = false -> h_open h = true -> ready (len (h_in h)) = true ->
  read_message parse (Some ready) h = None.
Proof.
  intros Hn Ho Hr. unfold read_message, mbind, io_bind, gets. cbn [read_headers]. unfold mbind, io_bind, wait_readable. rewrite Hr.
  unfold read_line. by rewrite cut_line_none, Ho.
Qed.

(** What comes after a step that is done, and after one that waits for ever. *)
Lemma io_bind_ok {A B} (m : Io A) (k : A -> Io B) h a h' : m h = Some (Ok a, h') -> (m ≫= k) h = k a h'.
Proof. intros E. unfold mbind, io_bind. by rewrite E. Qed.

Lemma io_bind_waits {A B} (m : Io A) (k : A -> Io B) h : m h = None -> (m ≫= k) h = None.
Proof. intros E. unfold mbind, io_bind. by rewrite E. Qed.

Lemma initialized_goes_on parse print {F : Type} `{FileSystem F} (fs : F) pid path d (h : Handle) :
  initialized h = true -> ensure_initialized parse print fs pid path d h = Some (Ok (), h).
Proof. intros Hi. unfold ensure_initialized, mbind, io_bind, gets. by rewrite Hi. Qed.

Lemma write_stalls print msg room (h : Handle) : h_stdin h = Stalled room -> room < len (frame print msg) -> write_message print msg h = None.
Proof. intros Hr Hlt. unfold write_message. rewrite Hr. by rewrite (proj2 (Nat.leb_gt _ _)). Qed.

Lemma write_reads print msg (h : Handle) : h_stdin h = Reads ->
  write_message print msg h = Some (Ok (), h <| h_out ::= fun o => o +:+ frame print msg |>).
Proof. intros Hr. unfold write_message. by rewrite Hr. Qed.

(** ** Lemmas: the summary *)

Definition counts (items : list Value) : nat * nat * list string :=
  (length (List.filter (is_severity 1) items), length (List.filter (is_severity 2) items),
   take 3 (map sample (List.filter (fun d => is_severity 1 d || is_severity 2 d) items))).

Lemma severity_not_both d : is_severity 1 d = true -> is_severity 2 d = false.
Proof. unfold is_severity. intros H%Z.eqb_eq. rewrite H. done. Qed.

Lemma count_items items : foldl count_step (O, O, []) items = counts items.
Proof.
  induction items as [|d items IH] using rev_ind; [done|]. rewrite foldl_snoc, IH. unfold counts, count_step.
  rewrite !List.filter_app, !length_app, map_app. cbn [List.filter].
  destruct (is_severity 1 d) eqn:E1; [rewrite (severity_not_both d E1)|]; cbn [negb andb orb];
    [|destruct (is_severity 2 d) eqn:E2; cbn [negb andb orb]];
    cbn [length map]; rewrite ?Nat.add_0_r, ?app_nil_r, ?Nat.add_1_r; [| |done];
    (set (l := map sample _); destruct (Nat.ltb_spec (length (take 3 l)) 3) as [Hl|Hl]; rewrite length_take in Hl;
     [rewrite (take_ge l) by lia; rewrite take_ge; [done|rewrite length_app; cbn; lia]|by rewrite take_app_le by lia]).
Qed.

(** ** Properties *)

(** Messages survive the wire.  Whatever messages are framed one after the
    other, reading as many gives back those messages in order and leaves what
    follows them, when the parser reads what the printer writes and the waits find
    something in time. *)
Theorem frames_roundtrip (parse : string -> result string Value) (print : Value -> string) (d : Deadline) (msgs : list Value) rest h :
  prompt_deadline d -> Forall (sized parse print) msgs ->
  h_in h = frames print msgs +:+ rest ->
  read_many parse (length msgs) d h = Some (Ok msgs, h <| h_in := rest |>).
Proof.
  intros Hd Hs. revert h. induction msgs as [|m msgs IH]; intros h He.
  { cbn in *. rewrite <- He. by rewrite update_in_same. }
  apply Forall_cons in Hs as [Hm Hs]. cbn [length read_many]. rewrite frames_cons in He. unfold mbind, io_bind.
  rewrite (read_frame parse print d h m _ Hd Hm He). rewrite IH by done. reflexivity.
Qed.

Lemma answers_spec id m : answers id m = true <-> get m "id" = Some (Num (PosInt id)).
Proof.
  unfold answers. destruct (get m "id") as [[| |n| | |]|]; try (split; [done|congruence]).
  destruct n; split; try (done || congruence); [intros ->%Z.eqb_eq; done|intros [= ->]; apply Z.eqb_refl].
Qed.

(** What a request returns.  The request is sent with a fresh number.  Of
    the messages that come, those without that number are passed over, whatever
    they are, and the first that carries it is taken for the answer: its error is
    an error, otherwise its result is returned, null when it has none, and what
    follows it stays to be read.  The number alone decides: a request of the
    server's own that carries it returns null in place of the answer.  On a
    server that reads what it is sent, when every wait finds something in time. *)
Theorem request_answered (parse : string -> result string Value) (print : Value -> string) (d : Deadline) method params before resp rest h
    (Hd : prompt_deadline d) (Hr : h_stdin h = Reads) (Hs : Forall (sized parse print) (before ++ [resp]))
    (Hb : Forall (fun m => get m "id" <> Some (Num (PosInt (next_id h)))) before) (Ha : get resp "id" = Some (Num (PosInt (next_id h))))
    (He : h_in h = frames print before +:+ frame print resp +:+ rest) :
  exists h', request_with_deadline parse print method params d h =
    Some (match get resp "error" with
          | Some err => Err ("LSP error on " +:+ method +:+ ": " +:+ print err)
          | None => Ok (default Null (get resp "result"))
          end, h') /\
    h_in h' = rest /\ next_id h' = (next_id h + 1)%Z /\
    h_out h' = h_out h +:+ frame print (Obj [("id", Num (PosInt (next_id h))); ("jsonrpc", Str "2.0"); ("method", Str method); ("params", params)]) /\
    (forall m args, resp = Obj [("id", Num (PosInt (next_id h))); ("jsonrpc", Str "2.0"); ("method", Str m); ("params", args)] ->
       request_with_deadline parse print method params d h = Some (Ok Null, h')).
Proof.
  apply answers_spec in Ha.
  assert (Hb' : Forall (fun m => answers (next_id h) m = false) before).
  { eapply Forall_impl; [exact Hb|]. intros m Hm. destruct (answers (next_id h) m) eqn:E; [|done]. by apply answers_spec in E. }
  unfold request_with_deadline, mbind, io_bind, gets, modify, write_message. cbn [h_stdin update set_next_id].
  rewrite Hr. erewrite (await_answer parse print); [|exact Hd|exact Hs|exact Hb'|exact Ha| |exact He].
  - eexists. split; [reflexivity|]. do 3 (split; [done|]). by intros m args ->.
  - cbn [h_in update set_next_id set_h_out]. rewrite He. pose proof (frames_len print before (frame print resp +:+ rest)). lia.
Qed.

(** [C10] Fetching the diagnostics of a file, which holds the lock of all servers.
    It ends, with the diagnostics or an error, when the servers read what they are
    sent or are gone, write whole messages, and the deadline is over once nothing
    more comes.  It never ends when a server already in use no longer reads and the
    message with the text of the file does not fit the pipe, whatever the deadline;
    nor when, the deadline not yet over, such a server stops within a line and
    stays alive. *)
Theorem diagnostics_end (parse : string -> result string Value) (print : Value -> string) {F : Type} `{FileSystem F} (fs : F) pid
    (spawn : LanguageKind -> result string Handle) path lang (ready : nat -> bool) (servers : Servers) :
  let fetch := fetch_diagnostics parse print fs pid spawn path lang ready servers in
  (ready 0 = false ->
   (forall h, servers !! lang = Some h -> whole parse print h) -> (forall h, spawn lang = Ok h -> whole parse print h) -> is_Some fetch) /\
  (forall h text, servers !! lang = Some h -> initialized h = true -> fs_read fs path = Ok text ->
     let opened := frame print (Obj [("jsonrpc", Str "2.0"); ("method", Str "textDocument/didOpen");
       ("params", Obj [("textDocument", Obj [("languageId", Str (language_id lang)); ("text", Str text); ("uri", Str (path_to_uri fs path)); ("version", Num (PosInt 1))])])]) in
     (forall room, h_stdin h = Stalled room -> room < len opened -> fetch = None) /\
     (h_stdin h = Reads -> has_char newline (h_in h) = false -> h_open h = true -> ready (len (h_in h)) = true -> fetch = None)).
Proof.
  cbn zeta. split.
  - intros Hready Hs Hsp. unfold fetch_diagnostics. destruct (fs_read fs path) as [text|e]; [|by eexists].
    set (m := _ ≫= _). assert (Hm : nonblocking parse print m) by by apply nb_fetch.
    clearbody m. unfold with_server. destruct (servers !! lang) as [h|] eqn:El.
    + destruct (Hm h (Hs h eq_refl)) as (r & h' & -> & _). by eexists.
    + destruct (spawn lang) as [h|e]; [|by eexists]. destruct (Hm h (Hsp h eq_refl)) as (r & h' & -> & _). by eexists.
  - intros h text Hl Hi Ht. unfold fetch_diagnostics. rewrite Ht. unfold with_server. rewrite Hl.
    split.
    + intros room Hr Hlt. rewrite (io_bind_ok _ _ _ _ _ (initialized_goes_on parse print fs pid path _ h Hi)).
      rewrite io_bind_waits; [done|]. by apply (write_stalls print _ room).
    + intros Hr Hn Ho Hready. rewrite (io_bind_ok _ _ _ _ _ (initialized_goes_on parse print fs pid path _ h Hi)).
      erewrite io_bind_ok by (unfold did_open, notify; apply write_reads; exact Hr). erewrite io_bind_ok by reflexivity.
      destruct (pull_diagnostics _).
      * rewrite io_bind_waits; [done|]. unfold request_with_deadline. do 2 (erewrite io_bind_ok by reflexivity).
        erewrite io_bind_ok by (apply write_reads; exact Hr). erewrite io_bind_ok by reflexivity. cbn [await].
        apply io_bind_waits, partial_blocks; done.
      * cbn [published]. rewrite io_bind_waits; [done|]. by apply partial_blocks.
Qed.

(** What the summary of an edit says: nothing without errors and warnings;
    otherwise how many there are of each, with the plural where it belongs, and
    the first three in order.  Hints and remarks do not count, and a diagnostic
    without a severity is an error. *)
Theorem summary_spec path items :
  let errors := List.filter (is_severity 1) items in
  let warnings := List.filter (is_severity 2) items in
  let shown := take 3 (map sample (List.filter (fun d => is_severity 1 d || is_severity 2 d) items)) in
  format_diagnostics_summary path items =
    if (length errors =? 0)%nat && (length warnings =? 0)%nat then None
    else Some (nl +:+ "[LSP 诊断: " +:+ str_join ", "
      ((if (0 <? length errors)%nat then [plural (length errors) "error"] else []) ++
       (if (0 <? length warnings)%nat then [plural (length warnings) "warning"] else []))%list
      +:+ " — " +:+ path +:+ ": " +:+ str_join "; " shown +:+ "]").
Proof. cbn zeta. unfold format_diagnostics_summary. rewrite count_items. reflexivity. Qed.

(** ** What the model shows *)

(** The kinds of symbols are one less than the protocol's from the fifth on: its
    functions (12) are shown as variables. *)
Lemma kinds_off_by_one : symbol_kind_name 12 = "variable" /\ symbol_kind_name 23 = "symbol" /\ symbol_kind_name 5 = "field".
Proof. done. Qed.

(** A request of the server's own, numbered as it likes, is taken for the answer
    when the numbers agree. *)
Lemma server_request_taken id : answers id (Obj [("id", Num (PosInt id)); ("method", Str "window/workDoneProgress/create")]) = true.
Proof. apply Z.eqb_refl. Qed.

(** A server that has gone is kept: every later operation on its language fails
    on it, and none is started in its place. *)
Lemma dead_server_stays parse print {F : Type} `{FileSystem F} (fs : F) pid spawn path lang op line char (servers : Servers) h :
  servers !! lang = Some h -> h_stdin h = Closed -> initialized h = true ->
  run_operation parse print fs pid spawn path lang op line char servers = Some (Err "write to server: Broken pipe (os error 32)", servers) \/
  exists e, run_operation parse print fs pid spawn path lang op line char servers = Some (Err e, servers).
Proof.
  intros Hs Hr Hi. unfold run_operation. destruct (fs_read fs path) as [text|e]; [|right; by eexists]. left.
  unfold with_server. rewrite Hs. set (m := _ ≫= _).
  assert (m h = Some (Err "write to server: Broken pipe (os error 32)", h)) as Em.
  2:{ cbv zeta beta. rewrite Em. cbv iota. pose proof (insert_id servers lang h Hs) as ->. done. }
  unfold m, ensure_initialized, mbind, io_bind, gets, did_open, notify, write_message. rewrite Hi. cbn. by rewrite Hr.
Qed.

(** Without a deadline a silent server blocks the operation, with the lock of all
    of them. *)
Lemma navigation_waits parse print {F : Type} `{FileSystem F} (fs : F) pid spawn path lang line char (servers : Servers) h text :
  fs_read fs path = Ok text -> servers !! lang = Some h -> h_stdin h = Reads -> initialized h = true -> h_in h = "" -> h_open h = true ->
  run_operation parse print fs pid spawn path lang "hover" line char servers = None.
Proof.
  intros Ht Hs Hr Hi He Ho. unfold run_operation. rewrite Ht. unfold with_server. rewrite Hs.
  unfold ensure_initialized, mbind, io_bind, gets, did_open, notify, navigation, request, request_with_deadline, write_message, modify, read_message, mbind, io_bind, gets.
  rewrite Hi. cbn. rewrite Hr. cbn. rewrite Hr. cbn. rewrite He. cbn.
  unfold read_message, mbind, io_bind, gets. cbn. rewrite He. cbn. unfold mbind, io_bind, wait_readable, read_line. cbn. rewrite He. cbn. by rewrite Ho.
Qed.

(** ** Witnesses *)

(** Two messages and their texts. *)
Definition note0 : Value := Obj [("method", Str "note")].
Definition answer0 : Value := Obj [("id", Num (PosInt 1)); ("result", Str "yes")].
Definition print0 (v : Value) : string := match get v "id" with Some _ => "answer" | None => "note" end.
Definition parse0 (s : string) : result string Value :=
  if String.eqb s "answer" then Ok answer0 else if String.eqb s "note" then Ok note0 else Err "expected value".
Definition server0 (bytes : string) : Handle :=
  {| h_in := bytes; h_open := true; h_out := ""; h_stdin := Reads; next_id := 1; initialized := true; pull_diagnostics := false |}.

Lemma sized0 : Forall (sized parse0 print0) [note0; answer0].
Proof. repeat constructor; vm_compute; congruence. Qed.

Lemma frames_roundtrip_witness :
  prompt_deadline None /\ Forall (sized parse0 print0) [note0; answer0] /\
  read_many parse0 2 None (server0 (frames print0 [note0; answer0] +:+ "rest")) =
    Some (Ok [note0; answer0], (server0 (frames print0 [note0; answer0] +:+ "rest")) <| h_in := "rest" |>).
Proof.
  split; [exact I|]. split; [exact sized0|].
  apply (frames_roundtrip parse0 print0 None [note0; answer0] "rest"); [exact I|exact sized0|reflexivity].
Defined.

Lemma request_answered_witness :
  exists h', request_with_deadline parse0 print0 "ask" Null None (server0 (frames print0 [note0] +:+ frame print0 answer0 +:+ "rest")) =
    Some (Ok (Str "yes"), h') /\ h_in h' = "rest".
Proof.
  destruct (request_answered parse0 print0 None "ask" Null [note0] answer0 "rest" (server0 (frames print0 [note0] +:+ frame print0 answer0 +:+ "rest")))
    as (h' & He & Hi & _); [exact I|reflexivity|exact sized0|repeat constructor; discriminate|reflexivity|reflexivity|].
  exists h'. split; [exact He|exact Hi].
Defined.

Lemma diagnostics_end_witness :
  is_Some (fetch_diagnostics parse0 print0 (fs two_files) 1 (fun _ => Err "none") "/w/a/x.rs" Rust (fun n => (0 <? n)%nat)
    {[Rust := server0 (frames print0 [note0])]}) /\
  fetch_diagnostics parse0 print0 (fs two_files) 1 (fun _ => Err "none") "/w/a/x.rs" Rust (fun n => (0 <? n)%nat)
    {[Rust := server0 "" <| h_stdin := Stalled 4 |>]} = None.
Proof.
  split.
  - apply (diagnostics_end parse0 print0 (fs two_files) 1 (fun _ => Err "none") "/w/a/x.rs" Rust (fun n => (0 <? n)%nat)).
    + reflexivity.
    + intros h Hh. rewrite lookup_singleton_eq in Hh. injection Hh as <-. split; [|done]. exists [note0]. split; [|reflexivity].
      repeat constructor; vm_compute; congruence.
    + intros h Hh. discriminate Hh.
  - destruct (diagnostics_end parse0 print0 (fs two_files) 1 (fun _ => Err "none") "/w/a/x.rs" Rust (fun n => (0 <? n)%nat)
      {[Rust := server0 "" <| h_stdin := Stalled 4 |>]}) as [_ Hb].
    eapply (proj1 (Hb _ _ (lookup_singleton_eq _ _) eq_refl eq_refl) 4); [reflexivity|]. apply Nat.ltb_lt. vm_compute. reflexivity.
Defined.
