(* ===== verification/Search.v ===== *)
(** * Searching files, and the scratchpad

    src/kernel/src/palaces/zhen_tool/builtin/fs/{rg,grep,glob,scratchpad}.rs.  The
    ripgrep process, the walk of a directory, the glob crate and Unicode case are
    arguments; what the tools do with them is here. *)

From S2P Require Import Prelude RString Utf8 Json Path Permission Tool Files.
From stdpp Require Import sorting.
From Stdlib Require Import Ascii.
Local Open Scope string_scope.
#[local] Arguments String.append !_ _ : simpl nomatch.

(** ** The ripgrep process *)

Definition RG_TIMEOUT_SECS : N := 30.
Definition MAX_OUTPUT_BYTES : N := 1048576.
Definition MAX_STDERR_BYTES : N := 65536.

Record RgOutput := {
  rg_stdout : string;
  rg_stderr : string;
  rg_exit_code : option Z;
  rg_timed_out : bool;
  rg_stdout_truncated : bool
}.

Inductive RgError := NotFound | Failed (msg : string).

(** The reads of a pipe: the bytes of each, or an error, which ends it; no bytes
    is the end. *)
Fixpoint read_capped (cap : N) (reads : list (result string string)) (buf : string) (truncated : bool) : string * bool :=
  match reads with
  | Ok chunk :: reads =>
      if is_empty_str chunk then (buf, truncated)
      else if (N.of_nat (len buf) <? cap)%N then
        let keep := N.min (cap - N.of_nat (len buf)) (N.of_nat (len chunk)) in
        read_capped cap reads (buf +:+ take_str (N.to_nat keep) chunk) (truncated || (keep <? N.of_nat (len chunk))%N)
      else read_capped cap reads buf true
  | _ => (buf, truncated)
  end.

(** What the process does: it cannot be started, it cannot be waited for, it
    exits, or it is killed after the timeout; with the reads of its pipes. *)
Inductive Process :=
| NoProgram
| NoSpawn (e : string)
| NoWait (e : string)
| Exits (code : option Z) (out err : list (result string string))
| Killed (out err : list (result string string)).

Definition rg_result (p : Process) : result RgError RgOutput :=
  let output code timed_out out err :=
    let '(stdout, truncated) := read_capped MAX_OUTPUT_BYTES out "" false in
    let '(stderr, _) := read_capped MAX_STDERR_BYTES err "" false in
    Ok {| rg_stdout := stdout; rg_stderr := from_utf8_lossy stderr; rg_exit_code := code; rg_timed_out := timed_out;
          rg_stdout_truncated := truncated |} in
  match p with
  | NoProgram => Err NotFound
  | NoSpawn e => Err (Failed ("failed to spawn rg: " +:+ e))
  | NoWait e => Err (Failed ("failed to wait on rg: " +:+ e))
  | Exits code out err => output code false out err
  | Killed out err => output None true out err
  end.

Definition KEYS : list string := ["id_rsa"; "id_ed25519"; "id_ecdsa"; "id_dsa"].

Definition prefilter_globs : list string :=
  (map (fun dir => "!" +:+ dir) [".git"; ".svn"; ".hg"; ".bzr"; ".jj"; ".sl"]
   ++ ["!**/.env"]
   ++ flat_map (fun key => ["!**/" +:+ key; "!**/" +:+ key +:+ "[-_]*"]) KEYS
   ++ flat_map (fun cloud => ["!**/" +:+ cloud +:+ "/credentials"; "!**/" +:+ cloud +:+ "/credentials/**"]) [".aws"; ".gcp"])%list.

(** The fatal lines, and those of files that vanished. *)
Definition partition_stderr (stderr : string) : list string * list string :=
  List.partition (fun l => negb (contains_str l "IO error for operation on")) (List.filter (fun l => negb (is_empty_str (trim l))) (lines stderr)).

Definition is_sensitive_path (path : string) : bool :=
  match file_name path with
  | None => false
  | Some n =>
      (starts_with n ".env" && negb (one_of n [".env.example"; ".env.sample"; ".env.template"]))
      || (negb (ends_with n ".pub") && existsb (starts_with n) KEYS)
      || (String.eqb n "credentials" && match parent path ≫= file_name with Some p => one_of p [".aws"; ".gcp"] | None => false end)
  end.

(** The fatal error of an exit code above one. *)
Definition rg_failure (out : RgOutput) : option string :=
  code ← rg_exit_code out;
  if (1 <? code)%Z then
    match fst (partition_stderr (rg_stderr out)) with
    | [] => None
    | fatal => Some ("ripgrep failed (exit " +:+ pretty code +:+ "): " +:+ str_join nl fatal)
    end
  else None.

(** ** grep *)

Definition DEFAULT_HEAD_LIMIT : Z := 250.
Definition nul : ascii := "000"%char.

Section Grep.
(** [rg::run] by its arguments and directory; [str::to_lowercase]. *)
Context (rg : list string -> string -> Process) (lower : string -> string).

Definition grep_args (search_root pattern : string) (glob : option string) (ignore_case : bool) (context_lines : option Z) : list string :=
  (["--hidden"; "--max-columns"; "500"; "--fixed-strings"; "--with-filename"; "--line-number"; "--null"]
   ++ (if ignore_case then ["--ignore-case"] else [])
   ++ (match context_lines with Some c => ["--context"; pretty c] | None => [] end)
   ++ (match glob with Some g => ["--glob"; g] | None => [] end)
   ++ flat_map (fun g => ["--glob"; g]) prefilter_globs
   ++ ["--"; pattern; search_root])%list.

(** One line of the output: kept, or of a sensitive file. *)
Inductive Filtered := Kept (l : string) | Sensitive | Blank.

Definition filter_line (raw : string) : Filtered :=
  if String.eqb raw "--" then Kept raw
  else match find_str (String nul "") raw with
       | Some n => if is_sensitive_path (take_str n raw) then Sensitive else Kept (take_str n raw +:+ ":" +:+ drop_str (S n) raw)
       | None => if is_empty_str raw then Blank else Kept raw
       end.

Definition kept_lines (stdout : string) : list string :=
  omap (fun raw => match filter_line raw with Kept l => Some l | _ => None end) (lines stdout).
Definition sensitive_count (stdout : string) : nat :=
  length (List.filter (fun raw => match filter_line raw with Sensitive => true | _ => false end) (lines stdout)).

Definition page {A} (offset head_limit : Z) (l : list A) : list A := take (Z.to_nat head_limit) (drop (Z.to_nat offset) l).

Definition rg_report (out : RgOutput) (pattern : string) (offset head_limit : Z) : string :=
  let stdout := from_utf8_lossy (rg_stdout out) in
  let ls := kept_lines stdout in
  let shown := page offset head_limit ls in
  let hidden := sensitive_count stdout in
  if match shown with [] => negb (rg_timed_out out) | _ => false end then
    (if (0 <? hidden)%nat then "No non-sensitive matches found" else "No matches found for '" +:+ pattern +:+ "'")
  else
    str_join nl shown
    +:+ (if (Z.to_nat head_limit <? length (drop (Z.to_nat offset) ls))%nat then
           nl +:+ "Results truncated to " +:+ pretty head_limit +:+ " lines (total: " +:+ pretty (N.of_nat (length ls)) +:+ "). Use offset="
             +:+ pretty (wrap_u64 (offset + head_limit)) +:+ " to see more." else "")
    +:+ (if (0 <? hidden)%nat then nl +:+ "Filtered " +:+ pretty (N.of_nat hidden) +:+ " line(s) from sensitive files." else "")
    +:+ (if rg_stdout_truncated out then
           nl +:+ "[stdout truncated at " +:+ pretty MAX_OUTPUT_BYTES +:+ " bytes; increase head_limit/offset paging or narrow the search]" else "")
    +:+ (if rg_timed_out out then nl +:+ "[grep timed out after " +:+ pretty RG_TIMEOUT_SECS +:+ "s; partial results returned]" else "").

Definition search_via_rg (search_root pattern : string) (glob : option string) (ignore_case : bool) (context_lines : option Z)
    (offset head_limit : Z) (workspace_root : string) : result RgError string :=
  match rg_result (rg (grep_args search_root pattern glob ignore_case context_lines) workspace_root) with
  | Err e => Err e
  | Ok out => match rg_failure out with Some e => Err (Failed e) | None => Ok (rg_report out pattern offset head_limit) end
  end.

(** *** The fallback *)

Definition is_binary (data : string) : bool := has_char nul (take_str (N.to_nat 8192) data).

(** Lines numbered from [n]; the search stops after the match that fills it. *)
Fixpoint search_lines (path pattern_lower : string) (max : Z) (n : nat) (results : list string) (ls : list string) : list string :=
  match ls with
  | [] => results
  | l :: ls =>
      if contains_str (lower l) pattern_lower then
        let results := (results ++ [path +:+ ":" +:+ pretty (N.of_nat (S n)) +:+ ": " +:+ l])%list in
        if (max <=? Z.of_nat (length results))%Z then results else search_lines path pattern_lower max (S n) results ls
      else search_lines path pattern_lower max (S n) results ls
  end.

Definition search_single_file (read : string -> option string) (path pattern : string) (max : Z) : result string (list string) :=
  match read path with
  | None => Err ("Failed to read " +:+ path)
  | Some data => if is_binary data then Ok [] else Ok (search_lines path (lower pattern) max 0 [] (lines (from_utf8_lossy data)))
  end.

(** [*] stands for any text; [None] is a slice outside the name. *)
Fixpoint glob_middle (name : string) (cursor : nat) (parts : list string) : option nat :=
  match parts with
  | [] => Some cursor
  | part :: parts =>
      match find_str part (drop_str cursor name) with
      | Some pos => glob_middle name (cursor + (pos + len part)) parts
      | None => None
      end
  end.

Definition glob_match (pattern name : string) : bool :=
  match split_char "*" pattern with
  | [] => false
  | [_] => String.eqb name pattern
  | first :: rest =>
      starts_with name first &&
        match glob_middle name (len first) (removelast rest) with
        | Some cursor => let last_ := default "" (last rest) in is_empty_str last_ || ends_with (drop_str cursor name) last_
        | None => false
        end
  end.

(** An entry of the walk: its path, whether it is a file, and its name when that
    is UTF-8. *)
Record Entry := { e_path : string; e_is_file : bool; e_name : option string }.

Definition searched (blocked_prefixes : list string) (glob : option string) (e : Entry) : bool :=
  e_is_file e && negb (existsb (contains_str (e_path e)) blocked_prefixes || is_sensitive_path (e_path e)) &&
    match glob, e_name e with Some g, Some n => glob_match g n | _, _ => true end.

Fixpoint search_dir (read : string -> option string) (pattern : string) (glob : option string) (max : Z) (blocked_prefixes : list string)
    (results : list string) (entries : list Entry) : result string (list string) :=
  match entries with
  | [] => Ok results
  | e :: entries =>
      if searched blocked_prefixes glob e then
        match search_single_file read (e_path e) pattern (saturating_sub max (Z.of_nat (length results))) with
        | Err err => Err err
        | Ok found =>
            let results := (results ++ found)%list in
            if (max <=? Z.of_nat (length results))%Z
            then Ok (results ++ ["... (truncated at " +:+ pretty max +:+ " results)"])%list
            else search_dir read pattern glob max blocked_prefixes results entries
        end
      else search_dir read pattern glob max blocked_prefixes results entries
  end.

(** *** The tool *)

Context {FS : Type} `{FileSystem FS} (fs : FS) (perm : PermissionMatrix).
(** Bytes of a file, and the walk of a directory. *)
Context (read : string -> option string) (walk : string -> list Entry).

Definition path_is_file (p : string) : bool := match fs_metadata fs p with Ok m => is_file m | Err _ => false end.

Definition fallback_report (pattern : string) (offset : Z) (results : list string) : string :=
  let results := if (0 <? offset)%Z then drop (Z.to_nat offset) results else results in
  "[note: rg not found, used built-in fallback search]" +:+
    match results with [] => nl +:+ "No matches found for '" +:+ pattern +:+ "'" | _ => nl +:+ str_join nl results end.

Definition grep_execute (input : Value) : result ToolError string :=
  match as_str (index input "pattern") with
  | None => Err (error_of "Missing 'pattern' parameter")
  | Some pattern =>
      let raw_path := default "." (as_str (index input "path")) in
      let glob := as_str (index input "glob") in
      let ignore_case := default true (as_bool (index input "ignore_case")) in
      let context_lines := as_u64 (index input "context_lines") in
      let offset := default 0%Z (as_u64 (index input "offset")) in
      let head_limit := default DEFAULT_HEAD_LIMIT (as_u64 (index input "head_limit") ∪ as_u64 (index input "max_results")) in
      match verify_path (fs_exists fs) (fs_canonicalize fs) perm raw_path Read with
      | Err e => Err (error_of e)
      | Ok search_root =>
          match search_via_rg search_root pattern glob ignore_case context_lines offset head_limit (workspace_root (sandbox perm)) with
          | Ok output => Ok output
          | Err (Failed msg) => Err (error_of msg)
          | Err NotFound =>
              let max := wrap_u64 (offset + head_limit) in
              match (if path_is_file search_root then search_single_file read search_root pattern max
                     else search_dir read pattern glob max (blocked_prefixes (sandbox perm)) [] (walk search_root)) with
              | Err e => Err (error_of e)
              | Ok results => Ok (fallback_report pattern offset results)
              end
          end
      end
  end.

Definition grep_accesses (input : Value) : ToolAccesses := read_only [default "." (as_str (index input "path"))] true.

(** ** glob *)

Definition glob_args (sorted : bool) (pattern : string) : list string :=
  (["--files"; "--hidden"] ++ (if sorted then ["--sortr=modified"] else []) ++ ["--glob"; pattern] ++ flat_map (fun g => ["--glob"; g]) prefilter_globs)%list.

(** A line of the listing, when it is inside the root and not sensitive. *)
Definition glob_line (search_root line : string) : option string :=
  if is_empty_str line then None
  else
    let path := path_join search_root line in
    match fs_canonicalize fs path with
    | Err _ => None
    | Ok canonical => if negb (path_starts_with canonical search_root) || is_sensitive_path canonical then None else Some path
    end.

Definition glob_via_rg (pattern search_root : string) : result RgError (list string) :=
  out ← (out ← rg_result (rg (glob_args true pattern) search_root);
         if bool_decide (rg_exit_code out = Some 2%Z) && contains_str (rg_stderr out) "--sortr"
         then rg_result (rg (List.filter (fun a => negb (String.eqb a "--sortr=modified")) (glob_args true pattern)) search_root)
         else Ok out);
  match rg_failure out with
  | Some e => Err (Failed e)
  | None => Ok (omap (glob_line search_root) (lines (from_utf8_lossy (rg_stdout out))))
  end.

(** The glob crate: the paths of a pattern, or an error. *)
Context (glob_crate : string -> result string (list string)).

Definition confined_file (search_root p : string) : bool :=
  match fs_canonicalize fs p with Ok c => path_starts_with c search_root | Err _ => false end
  && path_is_file p && negb (is_sensitive_path p).

Definition file_mtime (p : string) : option Z := ok (fs_metadata fs p) ≫= modified.

(** [b.1.cmp(&a.1)]: later times first, none last. *)
Definition later_first (a b : string * option Z) : Prop :=
  match snd b, snd a with None, _ => True | Some _, None => False | Some y, Some x => (y <= x)%Z end.
#[local] Instance later_first_dec a b : Decision (later_first a b).
Proof. unfold later_first. destruct (snd b), (snd a); apply _. Defined.

Definition glob_fallback (pattern search_root : string) (sort_by_mtime : bool) : result ToolError (list string) :=
  match glob_crate (search_root +:+ "/" +:+ pattern) with
  | Err e => Err (error_of ("invalid glob pattern '" +:+ pattern +:+ "': " +:+ e))
  | Ok paths =>
      let matches := map (fun p => (p, file_mtime p)) (List.filter (confined_file search_root) paths) in
      Ok (map fst (if sort_by_mtime then stable_sort later_first matches else matches))
  end.

Definition path_is_dir (p : string) : bool := match fs_metadata fs p with Ok m => negb (is_file m) | Err _ => false end.

Definition glob_execute (input : Value) : result ToolError string :=
  match as_str (index input "pattern") with
  | None => Err (error_of "Missing 'pattern' parameter")
  | Some pattern =>
      let raw_path := default "." (as_str (index input "path")) in
      let sort_by_mtime := default false (as_bool (index input "sort_by_mtime")) in
      let max_results := default 100%Z (as_u64 (index input "max_results")) in
      match verify_path (fs_exists fs) (fs_canonicalize fs) perm raw_path Read with
      | Err e => Err (error_of e)
      | Ok search_root =>
          if negb (path_is_dir search_root) then Err (error_of ("path is not a directory: " +:+ search_root))
          else
            '(matches, fallback_used) ← match glob_via_rg pattern search_root with
                | Ok paths => Ok (paths, false)
                | Err NotFound => match glob_fallback pattern search_root sort_by_mtime with Ok l => Ok (l, true) | Err e => Err e end
                | Err (Failed msg) => Err (error_of msg)
                end;
            match take (Z.to_nat max_results) matches with
            | [] => Ok ("No files matched pattern '" +:+ pattern +:+ "'")
            | shown =>
                Ok (str_join nl (shown
                  ++ (if (max_results <? Z.of_nat (length matches))%Z
                      then ["... (truncated at " +:+ pretty max_results +:+ " of " +:+ pretty (N.of_nat (length matches)) +:+ " matches)"] else [])
                  ++ (if fallback_used : bool then ["[note: rg not found, used built-in glob fallback]"] else [])))
            end
      end
  end.
End Grep.

(** ** The scratchpad *)

Definition valid_key (key : string) : bool :=
  negb (is_empty_str key) && char_all (fun c => is_ascii_alphanumeric c || Ascii.eqb c "_" || Ascii.eqb c "-") key.

Section Scratchpad.
Context {FS C : Type} `{FileSystem FS} (perm : PermissionMatrix).

Definition scratchpad_dir : string := path_join (path_join (workspace_root (sandbox perm)) ".jia") "scratchpad".
Definition scratchpad_path (key : string) : string := path_join scratchpad_dir key.

Definition invalid_key (key : string) : ToolError := error_of ("invalid key '" +:+ key +:+ "': must be non-empty [A-Za-z0-9_-]+").

Definition scratchpad_write_execute (input : Value) : Tool_m FS C string :=
  match as_str (index input "key") with
  | None => throw (error_of "Missing 'key' parameter")
  | Some key =>
      if negb (valid_key key) then throw (invalid_key key)
      else match as_str (index input "content") with
      | None => throw (error_of "Missing 'content' parameter")
      | Some content =>
          let path := scratchpad_path key in
          made ← match parent path with
                 | Some dir => r ← run_fs (fs_create_dir_all dir); lift (map_err (fun e => "cannot create scratchpad dir: " +:+ e) r)
                 | None => mret ()
                 end;
          canonical ← verify perm path Write;
          r ← run_fs (fs_write canonical content);
          _ ← lift (map_err (fun e => "failed to write scratchpad: " +:+ e) r);
          mret ("Wrote " +:+ pretty (N.of_nat (len content)) +:+ " bytes to scratchpad key '" +:+ key +:+ "'.")
      end
  end.

Definition scratchpad_read_execute (input : Value) : Tool_m FS C string :=
  match as_str (index input "key") with
  | None => throw (error_of "Missing 'key' parameter")
  | Some key =>
      if negb (valid_key key) then throw (invalid_key key)
      else
        canonical ← verify perm (scratchpad_path key) Read;
        r ← ask (fun fs => fs_read fs canonical);
        match r with
        | Ok text => mret text
        | Err e => throw (Execution "scratchpad_read" ("scratchpad key '" +:+ key +:+ "' not readable: " +:+ e))
        end
  end.
End Scratchpad.

(** ** The reference for patterns *)

(** A star stands for any text, any other character for itself. *)
Inductive wild : string -> string -> Prop :=
| wild_nil : wild "" ""
| wild_char c p n : c <> "*"%char -> wild p n -> wild (String c p) (String c n)
| wild_star p a n : wild p n -> wild (String "*" p) (a +:+ n).

(** The texts between the stars, in order, the last at the end. *)
Fixpoint parts_match (parts : list string) (n : string) : Prop :=
  match parts with
  | [] => False
  | [q] => exists a, n = a +:+ q
  | q :: parts => exists a r, n = a +:+ q +:+ r /\ parts_match parts r
  end.

Lemma parts_mono parts n x : parts_match parts n -> parts_match parts (x +:+ n).
Proof.
  destruct parts as [|q [|q' parts]]; [done| |].
  - intros (a & ->). exists (x +:+ a). by rewrite app_assoc_str.
  - intros (a & r & -> & H). exists (x +:+ a), r. split; [by rewrite app_assoc_str|done].
Qed.

Lemma split_star_cons c p : c <> "*"%char ->
  exists q ps, split_char "*" p = q :: ps /\ split_char "*" (String c p) = String c q :: ps.
Proof.
  intros Hc. cbn [split_char]. destruct (Ascii.eqb_spec "*"%char c) as [<-|_]; [done|].
  pose proof (split_char_ne "*" p) as Hn. destruct (split_char "*" p) as [|q ps]; [done|]. by exists q, ps.
Qed.

(** What a pattern matches, by its parts. *)
Definition by_parts (parts : list string) (n : string) : Prop :=
  match parts with
  | [] => False
  | [q] => n = q
  | q :: rest => exists r, n = q +:+ r /\ parts_match rest r
  end.

Lemma parts_cons q rest n : rest <> [] -> parts_match (q :: rest) n <-> exists a r, n = a +:+ q +:+ r /\ parts_match rest r.
Proof. destruct rest; [done|]. done. Qed.

Lemma wild_by_parts p n : wild p n <-> by_parts (split_char "*" p) n.
Proof.
  revert n. induction p as [|c p IH]; intros n.
  { cbn. split; [by inversion 1|]. intros ->. constructor. }
  destruct (decide (c = "*"%char)) as [->|Hc].
  - assert (split_char "*" (String "*" p) = "" :: split_char "*" p) as -> by reflexivity.
    pose proof (split_char_ne "*" p) as Hne. assert (Hw : wild (String "*" p) n <-> exists a r, n = a +:+ r /\ wild p r).
    { split.
      - intros H. inversion H; subst; [done|]. by exists a, n0.
      - intros (a & r & -> & H). by constructor. }
    rewrite Hw. destruct (split_char "*" p) as [|q ps] eqn:Es; [done|]. cbn [by_parts]. split.
    + intros (a & r & -> & H%IH). exists (a +:+ r). split; [done|]. destruct ps as [|q' ps].
      * cbn in H. subst r. by exists a.
      * destruct H as (r' & -> & H). by exists a, r'.
    + intros (r & -> & H). destruct ps as [|q' ps].
      * destruct H as (a & ->). exists a, q. split; [done|]. by apply IH.
      * destruct H as (a & r' & -> & H). exists a, (q +:+ r'). split; [done|]. apply IH. by exists r'.
  - destruct (split_star_cons c p Hc) as (q & ps & Es & ->). rewrite Es in IH.
    assert (Hw : wild (String c p) n <-> exists m, n = String c m /\ wild p m).
    { split.
      - intros H. inversion H; subst; [by eexists|done].
      - intros (m & -> & H). by constructor. }
    rewrite Hw. destruct ps as [|q' ps]; cbn [by_parts].
    + split; [intros (m & -> & H%IH); cbn in H; by subst|]. intros ->. exists q. split; [done|]. by apply IH.
    + split.
      * intros (m & -> & H%IH). destruct H as (r & -> & H). by exists r.
      * intros (r & -> & H). exists (q +:+ r). split; [done|]. apply IH. by exists r.
Qed.

(** The leftmost occurrence leaves the longest rest. *)
Lemma leftmost q n a r : n = a +:+ q +:+ r ->
  exists pos x, find_str q n = Some pos /\ drop_str (pos + len q) n = x +:+ r.
Proof.
  intros ->. destruct (find_str q (a +:+ q +:+ r)) as [pos|] eqn:E.
  2:{ exfalso. by apply (proj1 (find_str_None q _) E a r). }
  apply find_str_Some in E as (b & s & He & Hb & Hmin). exists pos.
  assert (Hle : pos <= len a).
  { destruct (decide (pos <= len a)) as [|Hgt]; [done|]. specialize (Hmin (len a)). rewrite drop_app_str, prefixb_app in Hmin.
    by discriminate Hmin; lia. }
  assert (Hs : drop_str (pos + len q) (a +:+ q +:+ r) = s).
  { rewrite He, <- Hb. rewrite Nat.add_comm. rewrite drop_drop_str. rewrite drop_app_str. apply drop_app_str. }
  rewrite Hs. assert (Hl : len s = (len a - pos) + len r).
  { assert (Ht : len (a +:+ q +:+ r) = len (b +:+ q +:+ s)) by (by rewrite He). rewrite !app_len in Ht. lia. }
  exists (take_str (len a - pos) s). split; [done|].
  rewrite <- (take_drop_str (len a - pos) s) at 1. f_equal. rewrite <- Hs. rewrite <- drop_drop_str.
  replace (len a - pos + (pos + len q)) with (len q + len a) by lia. rewrite drop_drop_str, drop_app_str. apply drop_app_str.
Qed.

Lemma middle_parts mid l n cursor : cursor <= len n ->
  parts_match (mid ++ [l]) (drop_str cursor n) <->
  exists c, glob_middle n cursor mid = Some c /\ c <= len n /\ exists a, drop_str c n = a +:+ l.
Proof.
  revert cursor. induction mid as [|q mid IH]; intros cursor Hc.
  { cbn [app parts_match glob_middle]. split; [intros (a & H); by exists cursor; split_and!; [..|exists a]|]. intros (c & [= <-] & _ & a & H). by exists a. }
  cbn [app]. rewrite parts_cons by (by destruct mid). cbn [glob_middle]. split.
  - intros (a & r & He & Hr). destruct (leftmost _ _ _ _ He) as (pos & x & Hf & Hd). rewrite Hf.
    assert (Hpos : cursor + (pos + len q) <= len n).
    { apply find_str_Some in Hf as (b & s & Hb & <- & _). apply (f_equal len) in Hb. rewrite !app_len, len_drop_str in Hb. lia. }
    apply (IH (cursor + (pos + len q))); [done|]. rewrite Nat.add_comm, drop_drop_str, Hd. by apply parts_mono.
  - intros (c & Hm & Hcl & Ha). destruct (find_str q (drop_str cursor n)) as [pos|] eqn:Ef; [|done].
    pose proof Ef as Ef'. apply find_str_Some in Ef' as (b & s & Hb & Hl & _). exists b, s. split; [done|].
    assert (Hs : drop_str (cursor + (pos + len q)) n = s).
    { rewrite Nat.add_comm, drop_drop_str, Hb, <- Hl, Nat.add_comm, drop_drop_str, drop_app_str. apply drop_app_str. }
    rewrite <- Hs. apply IH; [|by exists c]. apply (f_equal len) in Hb. rewrite !app_len, len_drop_str in Hb. lia.
Qed.

Lemma glob_middle_le mid n cursor c : cursor <= len n -> glob_middle n cursor mid = Some c -> c <= len n.
Proof.
  revert cursor. induction mid as [|q mid IH]; intros cursor Hc; cbn [glob_middle]; [by intros [= <-]|].
  destruct (find_str q (drop_str cursor n)) as [pos|] eqn:E; [|done]. apply IH.
  apply find_str_Some in E as (b & s & Hb & <- & _). apply (f_equal len) in Hb. rewrite !app_len, len_drop_str in Hb. lia.
Qed.

(** ** Lemmas: the output of the process *)

(** The bytes read before the end or an error. *)
Fixpoint read_bytes (reads : list (result string string)) : string :=
  match reads with Ok chunk :: reads => if is_empty_str chunk then "" else chunk +:+ read_bytes reads | _ => "" end.

Lemma take_whole n s : len s <= n -> take_str n s = s.
Proof. revert n. induction s as [|c s IH]; intros [|n] H; cbn in *; try done; [lia|]. f_equal. apply IH. lia. Qed.

Lemma take_beyond n a b : len a <= n -> take_str n (a +:+ b) = a +:+ take_str (n - len a) b.
Proof. revert n. induction a as [|c a IH]; intros n H; cbn in *; [by rewrite Nat.sub_0_r|]. destruct n as [|n]; [lia|]. cbn. f_equal. apply IH. lia. Qed.

Lemma read_capped_eq cap reads buf tr : (N.of_nat (len buf) <= cap)%N ->
  read_capped cap reads buf tr =
    (take_str (N.to_nat cap) (buf +:+ read_bytes reads), tr || (cap <? N.of_nat (len (buf +:+ read_bytes reads)))%N).
Proof.
  revert buf tr. induction reads as [|[chunk|e] reads IH]; intros buf tr Hb; cbn [read_capped read_bytes].
  - rewrite app_nil_r_str, take_whole by lia. rewrite (proj2 (N.ltb_ge _ _)) by lia. by rewrite orb_false_r.
  - destruct (is_empty_str chunk) eqn:Ec.
    { rewrite app_nil_r_str, take_whole by lia. rewrite (proj2 (N.ltb_ge _ _)) by lia. by rewrite orb_false_r. }
    assert (Hc : 1 <= len chunk) by (destruct chunk; [done|]; cbn; lia).
    destruct (N.ltb_spec (N.of_nat (len buf)) cap) as [Hlt|Hge].
    + set (keep := N.min _ _). rewrite IH by (rewrite app_len, len_take_str; lia). destruct (decide (N.of_nat (len chunk) <= cap - N.of_nat (len buf))%N) as [Hk|Hk].
      * rewrite (take_whole (N.to_nat keep)) by lia. rewrite (proj2 (N.ltb_ge keep _)) by lia. by rewrite orb_false_r, app_assoc_str.
      * rewrite (proj2 (N.ltb_lt keep _)) by lia. rewrite orb_true_r. cbn [orb]. rewrite (proj2 (N.ltb_lt cap _)) by (rewrite !app_len; lia).
        rewrite orb_true_r. f_equal. rewrite (take_beyond _ (buf +:+ take_str _ _)) by (rewrite app_len, len_take_str; lia).
        rewrite (take_beyond _ buf) by lia. rewrite app_len, len_take_str. rewrite (take_str_app _ chunk) by lia.
        replace (N.to_nat cap - (len buf + Nat.min (N.to_nat keep) (len chunk))) with 0 by lia.
        rewrite app_assoc_str. f_equal. replace (N.to_nat cap - len buf) with (N.to_nat keep) by lia. destruct (read_bytes reads); by rewrite ?app_nil_r_str; cbn; rewrite ?app_nil_r_str.
    + rewrite IH by done. assert (N.of_nat (len buf) = cap) by lia. f_equal.
      * rewrite !(take_beyond _ buf) by lia. replace (N.to_nat cap - len buf) with 0 by lia. by destruct (read_bytes reads), (chunk +:+ _).
      * rewrite (proj2 (N.ltb_lt _ (N.of_nat (len (buf +:+ chunk +:+ read_bytes reads))))) by (rewrite !app_len; lia). by rewrite orb_true_r.
  - rewrite app_nil_r_str, take_whole by lia. rewrite (proj2 (N.ltb_ge _ _)) by lia. by rewrite orb_false_r.
Qed.

Lemma filter_line_safe raw l : filter_line raw = Kept l ->
  raw = "--" \/ find_str (String nul "") raw = None \/
  exists n, find_str (String nul "") raw = Some n /\ is_sensitive_path (take_str n raw) = false /\ l = take_str n raw +:+ ":" +:+ drop_str (S n) raw.
Proof.
  unfold filter_line. destruct (String.eqb_spec raw "--") as [->|]; [by left|]. destruct (find_str _ raw) as [k|] eqn:E; [|by right; left].
  destruct (is_sensitive_path _) eqn:Es; [done|]. intros [= <-]. right. right. by exists k.
Qed.

(** ** Properties *)

(** [C33] The file patterns of the search.  The built-in matcher, which takes the
    leftmost occurrence of each part, agrees with the meaning of a pattern: a star
    stands for any text and every other character for itself. *)
Theorem glob_match_spec pattern name : glob_match pattern name = true <-> wild pattern name.
Proof.
  rewrite wild_by_parts. unfold glob_match. destruct (split_char "*" pattern) as [|first rest] eqn:Es; [done|].
  destruct rest as [|q rest].
  { cbn [by_parts]. pose proof (join_split_char "*" pattern) as Hj. rewrite Es in Hj. cbn in Hj. subst first. apply String.eqb_eq. }
  assert (Hr : q :: rest = (removelast (q :: rest) ++ [List.last (q :: rest) ""])%list) by (by apply app_removelast_last).
  set (mid := removelast (q :: rest)) in *. set (l := List.last (q :: rest) "") in *.
  assert (Hl : default "" (last (q :: rest)) = l) by (rewrite Hr, last_snoc; done). rewrite Hl.
  assert (Hbp : by_parts (first :: q :: rest) name <-> exists r, name = first +:+ r /\ parts_match (mid ++ [l]) r) by (cbn [by_parts]; by rewrite <- Hr).
  rewrite Hbp, andb_true_iff. unfold starts_with. rewrite prefixb_spec. split.
  - intros [(r & ->) Hm]. exists r. split; [done|]. rewrite <- (drop_app_str first r). apply middle_parts; [rewrite app_len; lia|].
    destruct (glob_middle _ _ mid) as [c|] eqn:Em; [|done]. exists c. split; [done|].
    apply orb_true_iff in Hm as [Hm|Hm].
    + unfold is_empty_str in Hm. apply String.eqb_eq in Hm. rewrite Hm. split; [|exists (drop_str c (first +:+ r)); by rewrite app_nil_r_str].
      by eapply glob_middle_le; [|exact Em]; rewrite app_len; lia.
    + split; [|by apply ends_with_spec in Hm]. by eapply glob_middle_le; [|exact Em]; rewrite app_len; lia.
  - intros (r & -> & Hp). split; [by exists r|]. rewrite <- (drop_app_str first r) in Hp. apply middle_parts in Hp as (c & -> & _ & Ha); [|rewrite app_len; lia].
    apply orb_true_iff. right. by apply ends_with_spec.
Qed.

(** What a search may show.  Every line of the answer's body comes from the
    program's output: the separator, a line without a path, or a line whose path
    is not that of a sensitive file, with the path set off by a colon; the body is
    the asked page of these lines. *)
Theorem grep_shows_no_secrets stdout offset head_limit l :
  l ∈ page offset head_limit (kept_lines stdout) ->
  exists raw, raw ∈ lines stdout /\
    (raw = "--" \/ find_str (String nul "") raw = None \/
     exists n, find_str (String nul "") raw = Some n /\ is_sensitive_path (take_str n raw) = false /\ l = take_str n raw +:+ ":" +:+ drop_str (S n) raw).
Proof.
  unfold page. intros Hl. assert (Hk : l ∈ kept_lines stdout) by (eapply subseteq_drop, subseteq_take; exact Hl). unfold kept_lines in Hk. clear Hl. rename Hk into Hl. apply list_elem_of_omap in Hl as (raw & Hraw & Hf). exists raw. split; [done|].
  apply filter_line_safe. destruct (filter_line raw); by simplify_eq.
Qed.

(** ** Lemmas: the built-in search *)

(** The matching lines, numbered from [n]. *)
Fixpoint matching (lower : string -> string) (path pattern_lower : string) (n : nat) (ls : list string) : list string :=
  match ls with
  | [] => []
  | l :: ls =>
      if contains_str (lower l) pattern_lower then (path +:+ ":" +:+ pretty (N.of_nat (S n)) +:+ ": " +:+ l) :: matching lower path pattern_lower (S n) ls
      else matching lower path pattern_lower (S n) ls
  end.

Lemma search_lines_eq lower path p max n results ls : (Z.of_nat (length results) < Z.max 1 max)%Z ->
  search_lines lower path p max n results ls = take (Z.to_nat (Z.max 1 max)) (results ++ matching lower path p n ls).
Proof.
  revert n results. induction ls as [|l ls IH]; intros n results Hl; cbn [search_lines matching].
  - rewrite app_nil_r, take_ge by lia. done.
  - destruct (contains_str _ _); [|by apply IH]. set (r := path +:+ _). rewrite length_app. cbn [length].
    destruct (Z.leb_spec max (Z.of_nat (length results + 1))) as [Hm|Hm].
    + assert (results ++ r :: matching lower path p (S n) ls = (results ++ [r]) ++ matching lower path p (S n) ls)%list as -> by (by rewrite <- app_assoc).
      rewrite take_app_le by (rewrite length_app; cbn; lia). rewrite take_ge; [done|]. rewrite length_app. cbn. lia.
    + rewrite IH by (rewrite length_app; cbn; lia). by rewrite <- app_assoc.
Qed.

(** A page and the one its hint names, one after the other, leave nothing out. *)
Lemma pages_join {A} (l : list A) offset limit limit' : (0 <= offset)%Z -> (0 <= limit)%Z -> (0 <= limit')%Z ->
  (page offset limit l ++ page (offset + limit) limit' l)%list = page offset (limit + limit') l.
Proof.
  intros Ho Hl Hl'. unfold page. rewrite !Z2Nat.inj_add by done. rewrite <- drop_drop. generalize (drop (Z.to_nat offset) l) as k. intros k.
  rewrite <- (take_drop (Z.to_nat limit) (take (Z.to_nat limit + Z.to_nat limit') k)). f_equal.
  - rewrite take_take. f_equal. lia.
  - by rewrite take_drop_commute || (rewrite skipn_firstn_comm; f_equal; lia).
Qed.

(** A file named directly is searched by the built-in search whatever its name,
    unlike the lines of ripgrep and the files of a walk. *)
Lemma named_file_searched rg lower {FS : Type} `{FileSystem FS} (fs : FS) perm read walk input pattern root :
  as_str (index input "pattern") = Some pattern ->
  verify_path (fs_exists fs) (fs_canonicalize fs) perm (default "." (as_str (index input "path"))) Read = Ok root ->
  (forall args dir, rg args dir = NoProgram) -> path_is_file fs root = true -> is_sensitive_path root = true ->
  grep_execute rg lower fs perm read walk input =
    match search_single_file lower read root pattern
            (wrap_u64 (default 0%Z (as_u64 (index input "offset")) + default DEFAULT_HEAD_LIMIT (as_u64 (index input "head_limit") ∪ as_u64 (index input "max_results")))) with
    | Err e => Err (error_of e)
    | Ok results => Ok (fallback_report pattern (default 0%Z (as_u64 (index input "offset"))) results)
    end.
Proof.
  intros Hp Hv Hr Hf Hs. unfold grep_execute. rewrite Hp, Hv. unfold search_via_rg. rewrite Hr. cbn [rg_result]. by rewrite Hf.
Qed.

(** The listing without ripgrep looks at the name of a link, not at its target. *)
Lemma fallback_checks_name {FS : Type} `{FileSystem FS} (fs : FS) root p c :
  fs_canonicalize fs p = Ok c -> path_starts_with c root = true -> path_is_file fs p = true -> is_sensitive_path p = false ->
  confined_file fs root p = true.
Proof. intros Hc Hr Hf Hs. unfold confined_file. by rewrite Hc, Hr, Hf, Hs. Qed.

Lemma omap_lookup_elem {A B} (f : A -> option B) (l : list A) (y : B) : y ∈ omap f l -> exists x, x ∈ l /\ f x = Some y.
Proof. intros H. apply list_elem_of_omap in H as (x & Hx & Hf). by exists x. Qed.

Lemma glob_line_spec {FS : Type} `{FileSystem FS} (fs : FS) root line p : glob_line fs root line = Some p <->
  line <> "" /\ p = path_join root line /\
  exists c, fs_canonicalize fs p = Ok c /\ components root `prefix_of` components c /\ is_sensitive_path c = false.
Proof.
  unfold glob_line, is_empty_str, path_starts_with. split.
  - destruct (String.eqb_spec line "") as [|Hl]; [done|]. destruct (fs_canonicalize fs (path_join root line)) as [c|] eqn:Ec; [|done].
    destruct (is_prefix _ _) eqn:Ep; [|done]. destruct (is_sensitive_path c) eqn:Es; [done|]. intros [= <-]. apply is_prefix_spec in Ep. eauto 10.
  - intros (Hl%String.eqb_neq & -> & c & Hc & Hp%is_prefix_spec & Hs). by rewrite Hl, Hc, Hp, Hs.
Qed.

(** [C34] What a listing names.  From ripgrep, run with the request's arguments
    (without the sorting an old ripgrep refuses): exactly the lines of its output,
    below the searched directory, whose target, links resolved, lies component by
    component below that directory and is not sensitive.  From the built-in
    search: exactly the files the pattern finds whose target lies below the
    directory and whose own name, not the target's, is not sensitive. *)
Theorem glob_confined rg {FS : Type} `{FileSystem FS} (fs : FS) glob_crate pattern root sorted :
  (forall l, glob_via_rg rg fs pattern root = Ok l ->
     exists args out, args ∈ [glob_args true pattern; List.filter (fun a => negb (String.eqb a "--sortr=modified")) (glob_args true pattern)] /\
       rg_result (rg args root) = Ok out /\
       forall p, p ∈ l <-> exists line, line ∈ lines (from_utf8_lossy (rg_stdout out)) /\ line <> "" /\ p = path_join root line /\
         exists c, fs_canonicalize fs p = Ok c /\ components root `prefix_of` components c /\ is_sensitive_path c = false) /\
  (forall l, glob_fallback fs glob_crate pattern root sorted = Ok l ->
     exists paths, glob_crate (root +:+ "/" +:+ pattern) = Ok paths /\
       forall p, p ∈ l <-> p ∈ paths /\ path_is_file fs p = true /\ is_sensitive_path p = false /\
         exists c, fs_canonicalize fs p = Ok c /\ components root `prefix_of` components c).
Proof.
  split; intros l Hl.
  - unfold glob_via_rg in Hl. apply bind_Ok in Hl as (out & Hout & Hl). destruct (rg_failure out); [done|]. injection Hl as <-.
    assert (Hargs : exists args, args ∈ [glob_args true pattern; List.filter (fun a => negb (String.eqb a "--sortr=modified")) (glob_args true pattern)] /\
      rg_result (rg args root) = Ok out).
    { apply bind_Ok in Hout as (out1 & H1 & Hout). destruct (_ && _); [eexists; split; [right; left|exact Hout]|].
      injection Hout as ->. eexists. split; [left|exact H1]. }
    destruct Hargs as (args & Ha & Hrg). exists args, out. split; [done|]. split; [done|]. intros p.
    rewrite list_elem_of_omap. by setoid_rewrite glob_line_spec.
  - unfold glob_fallback in Hl. destruct (glob_crate _) as [paths|]; [|done]. injection Hl as <-. exists paths. split; [done|]. intros p.
    set (ms := map (fun p => (p, file_mtime fs p)) _). transitivity (p ∈ map fst ms).
    { destruct sorted; [|done]. match goal with |- context [@stable_sort _ ?R ?d ms] => pose proof (@stable_sort_Permutation _ R d ms) as Hs end.
      apply (fmap_Permutation fst) in Hs. by rewrite <- Hs. }
    unfold ms. rewrite map_map, map_id, list_elem_of_In, List.filter_In, <- list_elem_of_In. unfold confined_file, path_starts_with.
    destruct (fs_canonicalize fs p) as [c|]; cbn; [|naive_solver]. rewrite !andb_true_iff, negb_true_iff, is_prefix_spec. naive_solver.
Qed.

(** ** Lemmas: keys *)

Lemma valid_key_clean key : valid_key key = true -> clean_segment key.
Proof.
  unfold valid_key. intros [He Hc]%andb_true_iff. apply negb_true_iff, String.eqb_neq in He. split_and!; [|done|].
  - unfold no_slash. clear He. induction key as [|c key IH]; [done|]. unfold char_all in Hc. cbn in Hc. apply andb_true_iff in Hc as [Hc Hk].
    cbn [split_char]. destruct (Ascii.eqb_spec slash c) as [<-|]; [done|]. by rewrite IH.
  - intros ->. done.
Qed.

Lemma app_cancel_l (a b c : string) : a +:+ b = a +:+ c -> b = c.
Proof. induction a as [|x a IH]; [done|]. intros [= H]. by apply IH. Qed.

Lemma path_injective perm k k' : valid_key k = true -> valid_key k' = true -> scratchpad_path perm k = scratchpad_path perm k' -> k = k'.
Proof.
  intros H%valid_key_clean H'%valid_key_clean. unfold scratchpad_path. rewrite !path_join_clean by done. apply app_cancel_l.
Qed.

(** Notes in the scratchpad.  A write that succeeds changes one file and no
    other; if reading the key resolves to that file, it gives the content back;
    and no other key has the same path. *)
Theorem scratchpad_roundtrip {FS C : Type} `{FileSystemLaws FS} (perm : PermissionMatrix) key content (w w' : World FS C) msg :
  scratchpad_write_execute perm (Obj [("content", Str content); ("key", Str key)]) w = (Ok msg, w') ->
  (forall k, valid_key k = true -> scratchpad_path perm k = scratchpad_path perm key -> k = key) /\
  exists canonical, (forall q, q <> canonical -> fs_read (fs w') q = fs_read (fs w) q) /\
    (verify_path (fs_exists (fs w')) (fs_canonicalize (fs w')) perm (scratchpad_path perm key) Read = Ok canonical ->
     scratchpad_read_execute perm (Obj [("key", Str key)]) w' = (Ok content, w')).
Proof.
  unfold scratchpad_write_execute, scratchpad_read_execute.
  change (as_str (index (Obj [("content", Str content); ("key", Str key)]) "key")) with (Some key).
  change (as_str (index (Obj [("content", Str content); ("key", Str key)]) "content")) with (Some content).
  change (as_str (index (Obj [("key", Str key)]) "key")) with (Some key). cbv beta iota zeta.
  destruct (valid_key key) eqn:Ek; cbn [negb]; [|done]. intros Hw.
  split; [intros k Hk Hp; by apply (path_injective perm)|].
  set (make := match parent _ with Some _ => _ | None => _ end) in Hw.
  assert (Hmake : exists r f, make w = (r, {| Files.fs := f; read_state := read_state w |}) /\ forall q, fs_read f q = fs_read (fs w) q).
  { unfold make. destruct (parent _) as [dir|]; [|exists (Ok ()), (fs w); split; [by destruct w|done]].
    unfold mbind, Tool_bind, run_fs. pose proof (fun q => mkdir_frame dir (fs w) q) as Hf. destruct (fs_create_dir_all dir (fs w)) as [r f].
    unfold lift. eexists _, f. split; [reflexivity|done]. }
  destruct Hmake as (r & f & Hm & Hf). unfold mbind, Tool_bind in Hw. rewrite Hm in Hw. destruct r as [u|e]; [|done].
  unfold verify, ask, mbind, Tool_bind, lift, run_fs in Hw. cbn [Files.fs] in Hw.
  destruct (verify_path _ _ perm _ Write) as [canonical|e]; [|done]. cbn [map_err] in Hw.
  pose proof (fun q => write_frame canonical content f q) as Hfr.
  destruct (fs_write canonical content f) as [[u'|e] f'] eqn:Ew; [|done]. destruct u'. apply write_read in Ew. injection Hw as _ <-.
  exists canonical. cbn [Files.fs]. split; [intros q Hq; rewrite Hfr by done; apply Hf|].
  intros Hv. unfold verify, ask, mbind, Tool_bind, lift. cbn [Files.fs]. rewrite Hv. cbn [map_err]. by rewrite Ew.
Qed.

(** Witnesses. *)
Lemma glob_confined_witness : exists l,
  glob_via_rg (fun _ _ => Exits (Some 0%Z) [Ok ("a/x.rs" +:+ nl +:+ ".env" +:+ nl)] []) (fs two_files) "**/*" "/w" = Ok l /\ l = ["/w/a/x.rs"] /\
  exists c, fs_canonicalize (fs two_files) "/w/a/x.rs" = Ok c /\ components "/w" `prefix_of` components c /\ is_sensitive_path c = false.
Proof.
  eexists. split; [vm_compute; reflexivity|]. split; [reflexivity|].
  destruct (glob_confined (fun _ _ => Exits (Some 0%Z) [Ok ("a/x.rs" +:+ nl +:+ ".env" +:+ nl)] []) (fs two_files) (fun _ => Err "none") "**/*" "/w" false)
    as [Hrg _].
  destruct (Hrg ["/w/a/x.rs"]) as (args & out & _ & _ & Hp); [vm_compute; reflexivity|].
  destruct (proj1 (Hp "/w/a/x.rs")) as (line & _ & _ & _ & Hc); [left|exact Hc].
Defined.

Lemma grep_shows_no_secrets_witness :
  page 0 250 (kept_lines (".env" +:+ String nul "1:KEY=a" +:+ nl +:+ "a.rs" +:+ String nul "2:let key" +:+ nl)) = ["a.rs:2:let key"] /\
  exists raw, raw ∈ lines (".env" +:+ String nul "1:KEY=a" +:+ nl +:+ "a.rs" +:+ String nul "2:let key" +:+ nl) /\
    (raw = "--" \/ find_str (String nul "") raw = None \/
     exists n, find_str (String nul "") raw = Some n /\ is_sensitive_path (take_str n raw) = false /\ "a.rs:2:let key" = take_str n raw +:+ ":" +:+ drop_str (S n) raw).
Proof.
  split; [vm_compute; reflexivity|].
  apply (grep_shows_no_secrets (".env" +:+ String nul "1:KEY=a" +:+ nl +:+ "a.rs" +:+ String nul "2:let key" +:+ nl) 0 250 "a.rs:2:let key").
  vm_compute. left.
Defined.

Definition noted : result ToolError string * World MemFs ListLru :=
  scratchpad_write_execute file_matrix (Obj [("content", Str "found it"); ("key", Str "plan-1")]) two_files.

Lemma scratchpad_roundtrip_witness :
  exists canonical, (forall q, q <> canonical -> fs_read (fs (snd noted)) q = fs_read (fs two_files) q) /\
    scratchpad_read_execute file_matrix (Obj [("key", Str "plan-1")]) (snd noted) = (Ok "found it", snd noted).
Proof.
  destruct (scratchpad_roundtrip file_matrix "plan-1" "found it" two_files (snd noted) "Wrote 8 bytes to scratchpad key 'plan-1'.") as (_ & c & Hq & Hr).
  - vm_compute. reflexivity.
  - exists c. split; [exact Hq|]. vm_compute. reflexivity.
Defined.
