(* ===== verification/Graph.v ===== *)
(** * The memory graph

    src/kernel/src/palaces/gen_store/graph.rs (expansion along triples,
    contradictions, text search), the tool over it
    (src/kernel/src/palaces/zhen_tool/builtin/namarupa.rs) and what else reads the
    table of seeds (gen_store/seeds.rs, vijnana/alaya/mod.rs,
    vijnana/user_profile.rs).  A row's JSON text is written and parsed back, so it
    is represented by the value it parses to.  What SQLite leaves open is an
    argument: the order of a scan, the text index with its ranks, the order among
    equal keys. *)

From Stdlib Require Import Sorted Ascii.
From S2P Require Import Prelude RString Float Json GeJu Seeds.
Local Open Scope string_scope.
#[local] Arguments String.append !_ _ : simpl nomatch.

(** ** Fields of a seed's JSON *)

Definition extract_seed_id (v : Value) : option string := as_str (index v "id").
Definition extract_strength (v : Value) : spec_float := to_f32 (default (F64.of_Z 0) (as_f64 (index v "strength"))).

Definition nonblank (v : Value) : list string :=
  match as_str v with Some s => if is_empty_str s then [] else [s] | None => [] end.
Definition extract_neighbor_values (v : Value) : list string :=
  let content := index v "content" in
  if bool_decide (as_str (index content "type") = Some "Triple") then nonblank (index content "subject") ++ nonblank (index content "object") else [].

Definition extract_assertion_key (v : Value) : string :=
  let content := index v "content" in
  default "" (as_str (index content "subject")) +:+ "|" +:+ default "" (as_str (index content "predicate")).
Definition extract_triple_object (v : Value) : option string := as_str (index (index v "content") "object").

Definition escape_fts5_query (query : string) : string :=
  let trimmed := trim (replace_str query dq "") in
  if is_empty_str trimmed then "" else dq +:+ trimmed +:+ dq.

(** A [usize] as SQLite's [LIMIT]: the cast to [i64] makes large ones negative,
    which means no limit. *)
Definition sql_limit {A} (n : Z) (l : list A) : list A :=
  if (n <? 2 ^ 63)%Z then take (Z.to_nat n) l else l.

(** ** Queries *)

Section Graph.
Context (from_str : string -> option Value) (to_string : Value -> string).
Context (printed reread : spec_float -> spec_float).
(** The order in which a scan without [ORDER BY] meets the rows. *)
Context (scan : list SeedRow -> list SeedRow).

(** [seed_row_to_json] of a row selected without its workspace. *)
Definition no_workspace (r : SeedRow) : SeedRow :=
  {| r_id := r_id r; r_session := r_session r; r_workspace := ""; r_nature := r_nature r; r_source := r_source r;
     r_content_type := r_content_type r; r_content_json := r_content_json r; r_content_text := r_content_text r;
     r_palace := r_palace r; r_stem := r_stem r; r_geju_key := r_geju_key r; r_created_at := r_created_at r;
     r_access_count := r_access_count r; r_last_accessed_at := r_last_accessed_at r; r_strength := r_strength r; r_tier := r_tier r |}.
Definition graph_json (r : SeedRow) : Value := row_json from_str reread (no_workspace r).

(** [json_extract] of a field, as the text it is compared as; numbers and
    booleans are no texts. *)
Definition json_text (r : SeedRow) (k : string) : option string :=
  match index (default Null (from_str (r_content_json r))) k with
  | Str s => Some s
  | Arr l => Some (to_string (Arr l))
  | Obj m => Some (to_string (Obj m))
  | _ => None
  end.

Definition is_triple (r : SeedRow) : bool := String.eqb (r_content_type r) "Triple".
Definition names_one_of (entities : list string) (o : option string) : bool :=
  match o with Some s => one_of s entities | None => false end.

Definition entity_row (entities : list string) (predicate : option string) (r : SeedRow) : bool :=
  is_triple r && (names_one_of entities (json_text r "subject") || names_one_of entities (json_text r "object")) &&
  match predicate with Some p => names_one_of [p] (json_text r "predicate") | None => true end.

Definition search_entities_batch (entities : list string) (limit : Z) (predicate : option string) (t : SeedTable) : list Value :=
  match entities with
  | [] => []
  | _ => map graph_json (sql_limit limit (List.filter (entity_row entities predicate) (scan (rows t))))
  end.

(** The state of the expansion. *)
Record Expansion := {
  results : list (Value * Z);
  visited : gset string;
  seen : gset string
}.

(** [seen_anchors.insert] of the neighbours, and the new ones in order. *)
Fixpoint new_anchors (seen : gset string) (values : list string) : gset string * list string :=
  match values with
  | [] => (seen, [])
  | n :: values =>
      if bool_decide (n ∈ seen) then new_anchors seen values
      else let '(seen', next) := new_anchors ({[n]} ∪ seen) values in (seen', n :: next)
  end.

(** The loop over the rows of a hop: the state and the anchors of the next. *)
Fixpoint expand_rows (hop : Z) (jsons : list Value) (x : Expansion) : Expansion * list string :=
  match jsons with
  | [] => (x, [])
  | json :: jsons =>
      match extract_seed_id json with
      | None => expand_rows hop jsons x
      | Some id =>
          if bool_decide (id ∈ visited x) then expand_rows hop jsons x
          else
            let '(seen', next) := new_anchors (seen x) (extract_neighbor_values json) in
            let '(x', next') := expand_rows hop jsons
              {| results := results x ++ [(json, hop)]; visited := {[id]} ∪ visited x; seen := seen' |} in
            (x', (next ++ next')%list)
      end
  end.

(** The loop over the hops.  [None] when the fuel is spent. *)
Fixpoint expand_hops (fuel : nat) (limit : Z) (predicate : option string) (t : SeedTable) (hop max_hops : Z)
    (anchors : list string) (x : Expansion) : option Expansion :=
  match fuel with
  | O => None
  | S fuel =>
      if (max_hops <? hop)%Z then Some x
      else match anchors with
           | [] => Some x
           | _ =>
               let '(x', next) := expand_rows hop (search_entities_batch anchors limit predicate t) x in
               expand_hops fuel limit predicate t (hop + 1) max_hops next x'
           end
  end.

(** The order of the results: by hop, then by strength, strongest first. *)
Definition nearer (a b : Value * Z) : Prop :=
  (snd a < snd b)%Z \/ snd a = snd b /\ fltb (extract_strength (fst a)) (extract_strength (fst b)) = false.
#[local] Instance nearer_dec : RelDecision nearer.
Proof. intros a b. unfold nearer. apply _. Defined.

Definition graph_expand_multi (anchors : list string) (max_hops limit : Z) (predicate : option string) (t : SeedTable)
    : option (list (Value * Z)) :=
  match anchors with
  | [] => Some []
  | _ =>
      if (limit =? 0)%Z then Some []
      else
        x ← expand_hops (S (S (length (rows t)))) limit predicate t 0 max_hops anchors
              {| results := []; visited := ∅; seen := list_to_set anchors |};
        Some (stable_sort nearer (results x))
  end.

Definition graph_expand (anchors : list string) (limit : Z) (t : SeedTable) : option (list Value) :=
  map fst <$> graph_expand_multi anchors 0 limit None t.

(** [find_contradicting_triples], on the rows in the order of the query. *)
Context (by_assertion : list SeedRow -> list SeedRow).

Definition add_to_group (groups : list (string * list Value)) (json : Value) : list (string * list Value) :=
  let key := extract_assertion_key json in
  obj_insert key (default [] (Json.assoc key groups) ++ [json])%list groups.

Definition assertion_groups (t : SeedTable) : list (string * list Value) :=
  foldl add_to_group [] (map graph_json (by_assertion (List.filter is_triple (rows t)))).

Definition distinct_objects (group : list Value) : gset string := list_to_set (omap extract_triple_object group).
Definition divergent (group : list Value) : bool := (2 <=? base.size (distinct_objects group))%nat.

Definition find_contradicting_triples (limit : Z) (t : SeedTable) : list (list Value) :=
  let conflicts := List.filter divergent (map snd (assertion_groups t)) in
  if (limit <? Z.of_nat (length conflicts))%Z then take (Z.to_nat limit) conflicts else conflicts.

(** [search_seeds]: the text index gives identifiers in the order of their
    ranks. *)
Context (fts_match : string -> list (string * string) -> list string).

Definition search_seeds (query : string) (limit : Z) (t : SeedTable) : list Value :=
  let safe_query := escape_fts5_query query in
  if is_empty_str safe_query then []
  else map graph_json (sql_limit limit (flat_map (fun id => List.filter (fun r => String.eqb (r_id r) id) (rows t)) (fts_match safe_query (fts t)))).

(** ** Further reads of the table *)

Context (newest_first : list SeedRow -> list SeedRow).
(** [ORDER BY strength + bonus DESC, strength DESC]. *)
Context (strongest_by : (SeedRow -> spec_float) -> list SeedRow -> list SeedRow).
(** [ORDER BY last_accessed_at DESC]. *)
Context (recent_first : list SeedRow -> list SeedRow).

Definition load_seeds_by_session (session : string) (t : SeedTable) : list SeedRow :=
  newest_first (List.filter (fun r => String.eqb (r_session r) session) (rows t)).
Definition load_seeds_by_workspace (workspace : string) (t : SeedTable) : list SeedRow :=
  newest_first (List.filter (fun r => String.eqb (r_workspace r) workspace) (rows t)).
Definition seed_count_by_session (session : string) (t : SeedTable) : nat :=
  length (List.filter (fun r => String.eqb (r_session r) session) (rows t)).

Definition biased_strength (workspace : string) (r : SeedRow) : spec_float :=
  F64.add (r_strength r) (if String.eqb (r_workspace r) workspace then F64.lit 1 10 else F64.of_Z 0).

Definition load_top_seeds (limit : Z) (bias : option string) (t : SeedTable) : list SeedRow :=
  match bias with
  | Some pid => if is_empty_str pid then sql_limit limit (strongest_by r_strength (rows t))
                else sql_limit limit (strongest_by (biased_strength pid) (rows t))
  | None => sql_limit limit (strongest_by r_strength (rows t))
  end.

Definition load_profile_seeds (t : SeedTable) : list SeedRow :=
  recent_first (List.filter (fun r => String.eqb (r_nature r) "Preference" && String.eqb (r_content_type r) "KeyValue") (rows t)).

Definition load_seed_sources (ids : list string) (t : SeedTable) : list (string * string) :=
  map (fun r => (r_id r, r_source r)) (List.filter (fun r => bool_decide (r_id r ∈ ids)) (rows t)).

(** The typed reads of [SeedStore]: one row that is no seed fails the whole. *)
Definition load_typed (l : list SeedRow) : option (list Seed) := mapM (load_row from_str reread) l.

Definition top_influence_prompt_with_bias (limit : Z) (bias : option string) (t : SeedTable) : string * list string :=
  match load_typed (load_top_seeds limit bias t) with
  | Some seeds => influence_prompt "## Relevant past experience (from seed memory):" seeds
  | None => ("", [])
  end.

Definition semantic_influence_prompt (query : string) (limit : Z) (t : SeedTable) : string * list string :=
  influence_prompt "## Related past experience (semantic search):" (omap decode_seed (search_seeds query limit t)).

Definition search_similar_texts (query : string) (limit : Z) (t : SeedTable) : list string :=
  map (fun s => text_of (sd_content s)) (omap decode_seed (search_seeds query limit t)).

(** ** The tool *)

Definition strings_of (v : Value) : option (list string) := option_map (omap as_str) (as_array v).
Definition usize_or (d : Z) (v : Value) : Z := default d (as_u64 v).
Definition num (n : Z) : Value := Num (PosInt n).

Definition seed_text (content : Value) : string :=
  if bool_decide (as_str (index content "type") = Some "Triple") then
    let f k := default "?" (as_str (index content k)) in f "subject" +:+ " " +:+ f "predicate" +:+ " " +:+ f "object"
  else of_chars (take 200 (chars (to_string content))).

Definition query_answer (seeds : list (Value * Z)) : Value :=
  let text v := seed_text (index v "content") in
  Obj [("count", num (Z.of_nat (length seeds)));
       ("graph_text", Str (str_join nl (map (fun s => "- " +:+ text (fst s)) seeds)));
       ("results", Arr (map (fun s => Obj [("hop", num (snd s)); ("id", index (fst s) "id"); ("strength", index (fst s) "strength");
                                           ("text", Str (text (fst s)))]) seeds));
       ("touched_ids", Arr (map Str (omap (fun s => extract_seed_id (fst s)) seeds)))].

(** The seeds of an answer: those of the graph, and those of the text search
    when the graph gave fewer than three. *)
Definition query_seeds (input : Value) (t : SeedTable) (graph_error fts_error : option string) : result string (list (Value * Z)) :=
  let anchors := default [] (strings_of (index input "anchors")) in
  let limit := usize_or 20 (index input "limit") in
  graph ← (match anchors with
           | [] => Ok []
           | _ => match graph_error with
                  | Some e => Err ("Graph query failed: " +:+ e)
                  | None => Ok (default [] (graph_expand_multi anchors (usize_or 2 (index input "max_hops")) limit (as_str (index input "predicate")) t))
                  end
           end);
  match as_str (index input "keywords") with
  | Some kw =>
      if (length graph <? 3)%nat && negb (is_empty_str kw) then
        match fts_error with
        | Some _ => Ok graph
        | None =>
            let existing := omap (fun s => extract_seed_id (fst s)) graph in
            Ok (graph ++ map (fun v => (v, 99%Z))
                  (List.filter (fun v => negb (one_of (default "" (extract_seed_id v)) existing)) (search_seeds kw limit t)))%list
        end
      else Ok graph
  | None => Ok graph
  end.

Definition handle_query (input : Value) (t : SeedTable) (graph_error fts_error : option string) : result string string :=
  match default [] (strings_of (index input "anchors")), as_str (index input "keywords") with
  | [], None =>
      Ok (to_string (Obj [("count", num 0); ("hint", Str "Provide 'anchors' (entity names) or 'keywords' to query the graph."); ("results", Arr [])]))
  | _, _ => seeds ← query_seeds input t graph_error fts_error; Ok (to_string (query_answer seeds))
  end.

(** The triple of a fact, when no part is blank. *)
Definition fact_triple (fact : Value) : option SeedContent :=
  let f k := trim (default "" (as_str (index fact k))) in
  if is_empty_str (f "subject") || is_empty_str (f "predicate") || is_empty_str (f "object") then None
  else Some (Triple (f "subject") (f "predicate") (f "object")).

Definition fact_seed (uuid : string) (now : Z) (content : SeedContent) : Seed :=
  {| sd_id := uuid; sd_session := ""; sd_workspace := ""; sd_nature := Fact; sd_source := Consolidation; sd_content := content;
     sd_palace := Gen; sd_stem := Gui; sd_geju_key := "namarupa"; sd_created_at := now; sd_access_count := 0;
     sd_last_accessed_at := now; sd_strength := F32.lit 8 10; sd_tier := OnDemand |}.

(** The loop over the facts: the identifiers saved and the table.  The new
    identifiers and whether the database takes each seed come from outside. *)
Fixpoint save_facts (now : Z) (contents : list SeedContent) (outside : list (string * bool)) (t : SeedTable) : list string * SeedTable :=
  match contents, outside with
  | c :: contents, (uuid, true) :: outside =>
      let '(ids, t') := save_facts now contents outside (insert_seed from_str to_string (seed_json printed (fact_seed uuid now c)) t) in
      (uuid :: ids, t')
  | _ :: contents, (_, false) :: outside => save_facts now contents outside t
  | _, _ => ([], t)
  end.

Definition handle_save (now : Z) (outside : list (string * bool)) (input : Value) (t : SeedTable) : result string string * SeedTable :=
  match as_array (index input "facts") with
  | None => (Err "Missing 'facts' array parameter", t)
  | Some facts =>
      let '(ids, t') := save_facts now (omap fact_triple facts) outside t in
      (Ok (to_string (Obj [("saved", num (Z.of_nat (length ids))); ("touched_ids", Arr (map Str ids))])), t')
  end.

(** [sources] and [deleted]: whether the database answers. *)
Definition handle_delete (sources deleted : bool) (input : Value) (t : SeedTable) : result string string * SeedTable :=
  match strings_of (index input "ids") with
  | None => (Err "Missing 'ids' array parameter", t)
  | Some [] => (Ok (to_string (Obj [("deleted", num 0)])), t)
  | Some ids =>
      let statements := map fst (List.filter (fun s => String.eqb (snd s) "UserStatement") (if sources then load_seed_sources ids t else [])) in
      let eligible := List.filter (fun id => negb (one_of id statements)) ids in
      let skipped := (length ids - length eligible)%nat in
      (Ok (to_string (Obj [("deleted", num (Z.of_nat (length eligible)));
                           ("note", Str (match skipped with O => "" | _ => "Some seeds could not be deleted (UserStatement or not found)" end));
                           ("skipped", num (Z.of_nat skipped))])),
       if deleted then delete_seeds eligible t else t)
  end.

Definition conflict_json (group : list Value) : Value :=
  let assertion v := Obj [("id", index v "id"); ("object", index (index v "content") "object"); ("predicate", index (index v "content") "predicate");
                          ("source", index v "source"); ("subject", index (index v "content") "subject")] in
  let assertions := map assertion group in
  let of_first k := match assertions with a :: _ => default "?" (as_str (index a k)) | [] => "?" end in
  Obj [("assertions", Arr assertions);
       ("divergent_objects", Arr (map Str (map fst (foldl (fun m o => obj_insert o () m) [] (omap extract_triple_object group)))));
       ("predicate", Str (of_first "predicate")); ("subject", Str (of_first "subject"))].

Definition handle_contradictions (input : Value) (t : SeedTable) (error : option string) : result string string :=
  match error with
  | Some e => Err ("Contradiction query failed: " +:+ e)
  | None =>
      let groups := find_contradicting_triples (usize_or 20 (index input "limit")) t in
      Ok (to_string (Obj [("conflicts", Arr (map conflict_json groups)); ("count", num (Z.of_nat (length groups)))]))
  end.

(** What the outside does during a call. *)
Record Outside := {
  o_now : Z;
  o_uuids : list (string * bool);
  o_query_error : option string;
  o_fts_error : option string;
  o_sources : bool;
  o_deleted : bool
}.

Definition namarupa_execute (o : Outside) (input : Value) (t : SeedTable) : result string string * SeedTable :=
  match as_str (index input "action") with
  | None => (Err "Missing 'action' parameter", t)
  | Some action =>
      if String.eqb action "query" then (handle_query input t (o_query_error o) (o_fts_error o), t)
      else if String.eqb action "save" then handle_save (o_now o) (o_uuids o) input t
      else if String.eqb action "delete" then handle_delete (o_sources o) (o_deleted o) input t
      else if String.eqb action "contradictions" then (handle_contradictions input t (o_query_error o), t)
      else (Err ("Unknown action '" +:+ action +:+ "'. Use 'query', 'save', 'delete', or 'contradictions'."), t)
  end.

(** ** The user profile *)

Definition profile_key_label (key : string) : option string :=
  Json.assoc key [("tool", "Uses"); ("role", "Role"); ("likes", "Likes"); ("dislikes", "Dislikes"); ("project", "Working on"); ("tech_stack", "Tech stack")].

Definition profile_line (s : Seed) : option string :=
  match sd_content s with
  | KeyValue key value => Some ("- User's " +:+ default key (profile_key_label key) +:+ ": " +:+ value)
  | _ => None
  end.

Definition profile_seeds (t : SeedTable) : list Seed := omap (load_row from_str reread) (load_profile_seeds t).

Definition profile_prompt (t : SeedTable) : string :=
  match profile_seeds t with
  | [] => ""
  | seeds => str_join nl ("" :: "## User context — do NOT adopt these as your own preferences:" :: omap profile_line (take 10 seeds))
  end.

Definition has_key (key : string) (s : Seed) : bool :=
  match sd_content s with KeyValue k _ => String.eqb k key | _ => false end.
Definition has_value (value : string) (s : Seed) : bool :=
  match sd_content s with KeyValue _ v => String.eqb v value | _ => false end.

Definition profile_seed (uuid session : string) (now : Z) (key value : string) : Seed :=
  {| sd_id := uuid; sd_session := session; sd_workspace := ""; sd_nature := Preference; sd_source := SignalDetection;
     sd_content := KeyValue key value; sd_palace := Kun; sd_stem := Ji; sd_geju_key := ""; sd_created_at := now;
     sd_access_count := 0; sd_last_accessed_at := now; sd_strength := F32.of_Z 1; sd_tier := OnDemand |}.

(** [UserProfileManager::upsert]; [loads], [deletes] and [inserts]: whether the
    database answers. *)
Definition upsert (loads deletes inserts : bool) (uuid : string) (now : Z) (session key value : string) (t : SeedTable) : nat * SeedTable :=
  let all := if loads then profile_seeds t else [] in
  let add t := if inserts then (1, insert_seed from_str to_string (seed_json printed (profile_seed uuid session now key value)) t) else (0, t) in
  match List.find (has_key key) all with
  | Some s =>
      if has_value value s then (0, t)
      else if deletes then add (delete_seeds [sd_id s] t) else (0, t)
  | None => add t
  end.
End Graph.

(** ** Lemmas: the expansion *)

Lemma new_anchors_spec seen vs :
  let '(seen', next) := new_anchors seen vs in
  (forall e, e ∈ next <-> e ∈ vs /\ e ∉ seen) /\ (forall e, e ∈ seen' <-> e ∈ seen \/ e ∈ vs).
Proof.
  revert seen. induction vs as [|v vs IH]; intros seen; cbn; [split; intros; set_solver|].
  case_bool_decide as Hv.
  - specialize (IH seen). destruct (new_anchors seen vs) as [seen' next]. destruct IH as [H1 H2].
    split; intros e; [rewrite H1|rewrite H2]; set_solver.
  - specialize (IH ({[v]} ∪ seen)). destruct (new_anchors _ vs) as [seen' next]. destruct IH as [H1 H2].
    split; intros e; [rewrite elem_of_cons, H1|rewrite H2]; destruct (decide (e = v)); set_solver.
Qed.

Section Expand.
Context (from_str : string -> option Value) (to_string : Value -> string) (reread : spec_float -> spec_float).
Context (scan : list SeedRow -> list SeedRow).
Abbreviation graph_json := (graph_json from_str reread).
Abbreviation neighbours r := (extract_neighbor_values (graph_json r)).

Lemma graph_json_id r : extract_seed_id (graph_json r) = Some (r_id r).
Proof. reflexivity. Qed.

(** The rows of a hop that were not met before. *)
Definition fresh (x : Expansion) (rs : list SeedRow) : list SeedRow := List.filter (fun r => negb (bool_decide (r_id r ∈ visited x))) rs.

Lemma expand_rows_spec hop rs x : NoDup (map r_id rs) ->
  let '(x', next) := expand_rows hop (map graph_json rs) x in
  results x' = (results x ++ map (fun r => (graph_json r, hop)) (fresh x rs))%list /\
  (forall id, id ∈ visited x' <-> id ∈ visited x \/ id ∈ map r_id rs) /\
  (forall e, e ∈ next <-> e ∉ seen x /\ exists r, r ∈ fresh x rs /\ e ∈ neighbours r) /\
  (forall e, e ∈ seen x' <-> e ∈ seen x \/ exists r, r ∈ fresh x rs /\ e ∈ neighbours r).
Proof.
  revert x. induction rs as [|r rs IH]; intros x Hnd; cbn [map expand_rows fresh List.filter].
  { rewrite app_nil_r. split_and!; [done|intros; set_solver|intros; split; [by intros ?%elem_of_nil|intros (_ & r & ?%elem_of_nil & _); done]|].
    intros e. split; [by left|]. intros [?|(r & ?%elem_of_nil & _)]; done. }
  rewrite graph_json_id. cbn [map] in Hnd. apply NoDup_cons in Hnd as [Hr Hnd]. case_bool_decide as Hv; cbn [negb].
  - specialize (IH x Hnd). destruct (expand_rows _ _ x) as [x' next]. destruct IH as (-> & H2 & H3 & H4). fold (fresh x rs).
    split_and!; [done| |done|done]. intros id. rewrite H2. cbn. set_solver.
  - pose proof (new_anchors_spec (seen x) (neighbours r)) as Hn. destruct (new_anchors _ _) as [seen' next]. destruct Hn as [N1 N2].
    set (y := {| results := _; visited := _; seen := seen' |}). specialize (IH y Hnd).
    destruct (expand_rows _ _ y) as [x' next']. destruct IH as (H1 & H2 & H3 & H4).
    assert (Hf : fresh y rs = fresh x rs).
    { apply filter_ext_in. intros s Hs. f_equal. apply bool_decide_ext. cbn. assert (r_id s <> r_id r); [|set_solver].
      intros E. apply Hr. rewrite <- E. apply list_elem_of_fmap. exists s. split; [done|by apply list_elem_of_In]. }
    fold (fresh x rs). rewrite Hf in *. cbn [results y] in H1. rewrite H1. cbn [map]. split_and!.
    + by rewrite <- app_assoc.
    + intros id. rewrite H2. cbn. set_solver.
    + intros e. rewrite elem_of_app, N1, H3. cbn [seen y]. rewrite N2. split.
      * intros [[? ?]|[Hns (s & ? & ?)]]; [split; [done|exists r; set_solver]|split; [tauto|exists s; set_solver]].
      * intros [Hns (s & [->|Hs]%elem_of_cons & He)]; [by left|]. destruct (decide (e ∈ neighbours r)); [by left|right].
        split; [tauto|by exists s].
    + intros e. rewrite H4. cbn [seen y]. rewrite N2. split.
      * intros [[?|?]|(s & ? & ?)]; [by left|right; exists r; set_solver|right; exists s; set_solver].
      * intros [?|(s & [->|Hs]%elem_of_cons & He)]; [tauto|tauto|right; by exists s].
Qed.

(** *** Reaching a row *)

Section Reach.
Context (predicate : option string) (t : SeedTable).

(** A triple with the asked predicate; the entities it joins. *)
Definition usable (r : SeedRow) : Prop :=
  r ∈ rows t /\ is_triple r = true /\
  match predicate with Some p => names_one_of [p] (json_text from_str to_string r "predicate") = true | None => True end.
Definition touches (r : SeedRow) (e : string) : Prop :=
  json_text from_str to_string r "subject" = Some e \/ json_text from_str to_string r "object" = Some e.

(** Entities [n] triples away from the anchors, and rows at them. *)
Inductive near (anchors : list string) : nat -> string -> Prop :=
| near_anchor a : a ∈ anchors -> near anchors 0 a
| near_step n e r x : near anchors n e -> usable r -> touches r e -> x ∈ neighbours r -> near anchors (S n) x.

Definition within (anchors : list string) (n : nat) (r : SeedRow) : Prop := usable r /\ exists e, near anchors n e /\ touches r e.
Definition first_at (anchors : list string) (n : nat) (r : SeedRow) : Prop :=
  within anchors n r /\ forall m, m < n -> ~ within anchors m r.

Lemma names_one_of_spec l o : names_one_of l o = true <-> exists s, o = Some s /\ s ∈ l.
Proof.
  destruct o as [s|]; cbn; [|split; [done|by intros (s & [=] & _)]]. rewrite one_of_spec. split; [by exists s|]. by intros (s' & [= <-] & ?).
Qed.

Lemma entity_row_spec entities r : r ∈ rows t ->
  (entity_row from_str to_string entities predicate r = true <-> usable r /\ exists e, e ∈ entities /\ touches r e).
Proof.
  intros Hr. unfold entity_row, usable, touches. rewrite !andb_true_iff, orb_true_iff, !names_one_of_spec.
  split.
  - intros [[Ht Hs] Hp]. split; [split_and!; [done|done|by destruct predicate]|].
    destruct Hs as [(s & ? & ?)|(s & ? & ?)]; exists s; auto.
  - intros [(_ & Ht & Hp) (e & He & Hs)]. split_and!; [done| |by destruct predicate].
    destruct Hs; [left|right]; by exists e.
Qed.

(** *** The loop *)

Section Loop.
Context (Hscan : forall l, scan l ≡ₚ l) (Hids : NoDup (map r_id (rows t))).
Context (limit : Z).

Definition batch_rows (entities : list string) : list SeedRow :=
  sql_limit limit (List.filter (entity_row from_str to_string entities predicate) (scan (rows t))).

Lemma sql_limit_sublist {A} n (l : list A) : sql_limit n l `sublist_of` l.
Proof. unfold sql_limit. destruct (n <? 2 ^ 63)%Z; [apply sublist_take|done]. Qed.

Lemma batch_eq entities : search_entities_batch from_str to_string reread scan entities limit predicate t =
  match entities with [] => [] | _ => map graph_json (batch_rows entities) end.
Proof. reflexivity. Qed.

Lemma batch_nodup entities : NoDup (map r_id (batch_rows entities)).
Proof.
  eapply sublist_NoDup; [|apply fmap_sublist, sql_limit_sublist]. apply NoDup_ids_filter. by rewrite (Hscan (rows t)).
Qed.

Lemma batch_in entities r : r ∈ batch_rows entities -> r ∈ rows t.
Proof.
  intros Hr. eapply elem_of_sublist in Hr; [|apply sql_limit_sublist]. apply elem_of_Lfilter in Hr as [Hr _]. by rewrite (Hscan (rows t)) in Hr.
Qed.

(** The rows not yet met. *)
Definition unmet (x : Expansion) : nat := length (fresh x (rows t)).

Lemma unmet_less x rs x' r : r ∈ fresh x rs -> (forall s, s ∈ rs -> s ∈ rows t) ->
  (forall id, id ∈ visited x' <-> id ∈ visited x \/ id ∈ map r_id rs) -> unmet x' < unmet x.
Proof.
  intros Hr Hin Hv. unfold unmet, fresh in *. apply elem_of_Lfilter in Hr as [Hr Hn]. pose proof (Hin r Hr) as Hrt.
  apply list_elem_of_split in Hrt as (l1 & l2 & ->). rewrite !List.filter_app, !length_app. cbn [List.filter]. rewrite Hn.
  rewrite (bool_decide_eq_true_2 (r_id r ∈ visited x')); cbn [negb length].
  - assert (H : forall l, length (List.filter (fun r => negb (bool_decide (r_id r ∈ visited x'))) l) <=
                          length (List.filter (fun r => negb (bool_decide (r_id r ∈ visited x))) l)); [|pose proof (H l1); pose proof (H l2); lia].
    intros l. apply filter_length_mono. intros s. rewrite !negb_true_iff, !bool_decide_eq_false. intros Hs Hx. apply Hs, Hv. by left.
  - apply Hv. right. apply list_elem_of_fmap. by exists r.
Qed.

(** Two units more than the rows not yet met are enough fuel: a hop that leads
    to another one has met a row. *)
Lemma expand_ends fuel hop max_hops anchors x : unmet x + 2 <= fuel ->
  is_Some (expand_hops from_str to_string reread scan fuel limit predicate t hop max_hops anchors x).
Proof.
  revert hop anchors x. induction fuel as [|fuel IH]; intros hop anchors x Hf; [lia|]. cbn [expand_hops].
  destruct (max_hops <? hop)%Z; [by eexists|]. destruct anchors as [|a anchors]; [by eexists|]. rewrite batch_eq.
  pose proof (expand_rows_spec hop (batch_rows (a :: anchors)) x (batch_nodup _)) as H.
  destruct (expand_rows _ _ x) as [x' next]. destruct H as (_ & Hv & Hn & _).
  destruct next as [|b next]; [destruct fuel; [lia|]; cbn [expand_hops]; destruct (max_hops <? hop + 1)%Z; by eexists|].
  apply IH. assert (Hb : b ∈ b :: next) by left. apply Hn in Hb as (_ & r & Hr & _).
  pose proof (unmet_less x _ x' r Hr (batch_in _) Hv). lia.
Qed.

(** What holds before hop [n], when no batch is cut. *)
Context (start : list string) (Hlimit : (Z.of_nat (length (rows t)) <= limit)%Z).

Record reached (n : nat) (anchors : list string) (x : Expansion) : Prop := {
  re_seen : forall e, e ∈ seen x <-> exists m, m <= n /\ near start m e;
  re_last : forall e, e ∈ seen x -> e ∈ anchors \/ exists m, m < n /\ near start m e;
  re_anchors : forall e, e ∈ anchors <-> near start n e /\ forall m, m < n -> ~ near start m e;
  re_visited : forall id, id ∈ visited x <-> exists r m, r_id r = id /\ m < n /\ within start m r;
  re_results : forall v h, (v, h) ∈ results x <-> exists r m, h = Z.of_nat m /\ m < n /\ v = graph_json r /\ first_at start m r;
  re_ids : forall id, id ∈ visited x <-> Some id ∈ map (fun s => extract_seed_id (fst s)) (results x);
  re_nodup : NoDup (map (fun s => extract_seed_id (fst s)) (results x))
}.

Lemma batch_whole entities r : r ∈ batch_rows entities <-> r ∈ rows t /\ entity_row from_str to_string entities predicate r = true.
Proof.
  unfold batch_rows. assert (sql_limit limit (List.filter (entity_row from_str to_string entities predicate) (scan (rows t))) =
    List.filter (entity_row from_str to_string entities predicate) (scan (rows t))) as ->.
  { unfold sql_limit. destruct (limit <? 2 ^ 63)%Z; [|done]. apply take_ge.
    etransitivity; [apply List.filter_length_le|]. rewrite (Permutation_length (Hscan (rows t))). lia. }
  rewrite elem_of_Lfilter. by rewrite (Hscan (rows t)).
Qed.

Lemma same_row r s : r ∈ rows t -> s ∈ rows t -> r_id r = r_id s -> r = s.
Proof. by apply unique_row. Qed.

Lemma fresh_first n anchors x r : reached n anchors x -> r ∈ fresh x (batch_rows anchors) <-> first_at start n r.
Proof.
  intros H. unfold fresh. rewrite elem_of_Lfilter, batch_whole, negb_true_iff, bool_decide_eq_false, (re_visited _ _ _ H).
  split.
  - intros [[Hr He] Hv]. apply entity_row_spec in He as (Hu & e & He & Ht); [|done]. apply (re_anchors _ _ _ H) in He as [Hn _].
    split; [split; [done|by exists e]|]. intros m Hm Hw. apply Hv. by exists r, m.
  - intros [[Hu (e & Hn & Ht)] Hfirst]. assert (Hr : r ∈ rows t) by apply Hu. split; [split; [done|]|].
    + apply entity_row_spec; [done|]. split; [done|]. exists e. split; [|done]. apply (re_anchors _ _ _ H). split; [done|].
      intros m Hm Hnm. apply (Hfirst m Hm). split; [done|by exists e].
    + intros (s & m & Es & Hm & Hw). assert (s = r) as -> by (apply same_row; [apply Hw|done|done]). by apply (Hfirst m Hm).
Qed.

Lemma reached_start : reached 0 start {| results := []; visited := ∅; seen := list_to_set start |}.
Proof.
  assert (H0 : forall e, near start 0 e <-> e ∈ start) by (intros e; split; [by inversion 1|by constructor]).
  split; cbn [seen visited results map].
  - intros e. rewrite elem_of_list_to_set, <- H0. split; [by exists 0|]. intros (m & Hm & H). by replace m with 0 in H by lia.
  - intros e He. left. by apply elem_of_list_to_set in He.
  - intros e. rewrite H0. split; [|tauto]. intros He. split; [done|lia].
  - intros id. split; [set_solver|intros (r & m & _ & Hm & _); lia].
  - intros v h. split; [set_solver|intros (r & m & _ & Hm & _); lia].
  - intros id. split; set_solver.
  - constructor.
Qed.

(** An entity of the next hop is next to a row met in this one, or was seen. *)
Lemma near_next n anchors x e : reached n anchors x ->
  (exists r, r ∈ fresh x (batch_rows anchors) /\ e ∈ neighbours r) \/ e ∈ seen x <-> exists m, m <= S n /\ near start m e.
Proof.
  intros H. split.
  - intros [(r & Hr & He)|Hs].
    + apply (fresh_first _ _ _ _ H) in Hr as [[Hu (e' & Hn & Ht)] _]. exists (S n). split; [done|]. by eapply near_step.
    + apply (re_seen _ _ _ H) in Hs as (m & Hm & Hn). exists m. split; [lia|done].
  - intros (m & Hm & Hn). destruct (decide (m = S n)) as [->|Hne]; [|right; apply (re_seen _ _ _ H); exists m; split; [lia|done]].
    inversion Hn as [|n' e' r x' Hn' Hu Ht He]; subst. destruct (decide (r_id r ∈ visited x)) as [Hv|Hv].
    + right. apply (re_visited _ _ _ H) in Hv as (s & k & Es & Hk & Hw).
      assert (s = r) as -> by (apply same_row; [apply Hw|apply Hu|done]). destruct Hw as [_ (e2 & Hn2 & Ht2)].
      apply (re_seen _ _ _ H). exists (S k). split; [lia|]. by eapply near_step.
    + left. exists r. split; [|done]. unfold fresh. rewrite elem_of_Lfilter, batch_whole, negb_true_iff, bool_decide_eq_false.
      split; [|done]. split; [apply Hu|]. apply entity_row_spec; [apply Hu|]. split; [done|]. exists e'. split; [|done].
      apply (re_anchors _ _ _ H). split; [done|]. intros k Hk Hnk. apply Hv, (re_visited _ _ _ H). exists r, k.
      split_and!; [done|done|split; [done|by exists e']].
Qed.

Lemma reached_step n anchors x : reached n anchors x ->
  let '(x', next) := expand_rows (Z.of_nat n) (map graph_json (batch_rows anchors)) x in reached (S n) next x'.
Proof.
  intros H. pose proof (expand_rows_spec (Z.of_nat n) (batch_rows anchors) x (batch_nodup _)) as Hs.
  destruct (expand_rows _ _ x) as [x' next]. destruct Hs as (Hr & Hv & Hn & Hseen).
  assert (Hids' : forall id, Some id ∈ map (fun s => extract_seed_id (fst s)) (results x') <-> id ∈ visited x \/ id ∈ map r_id (fresh x (batch_rows anchors))).
  { intros id. rewrite Hr, map_app, elem_of_app, <- (re_ids _ _ _ H), map_map. cbn [fst].
    rewrite !list_elem_of_fmap. split; (intros [?|(r & E & Hf)]; [by left|right; exists r]); rewrite ?graph_json_id in *; by simplify_eq. }
  assert (Hvis : forall id, id ∈ visited x' <-> id ∈ visited x \/ id ∈ map r_id (fresh x (batch_rows anchors))).
  { intros id. rewrite Hv, !list_elem_of_fmap. unfold fresh. split.
    - intros [?|(r & -> & Hin)]; [by left|]. destruct (decide (r_id r ∈ visited x)); [by left|right]. exists r. split; [done|].
      apply elem_of_Lfilter. split; [done|]. by rewrite bool_decide_eq_false_2.
    - intros [?|(r & -> & [Hin _]%elem_of_Lfilter)]; [by left|right; by exists r]. }
  split.
  - intros e. rewrite Hseen, <- (near_next n anchors x e H). tauto.
  - intros e. rewrite Hseen, Hn. intros [He|He]; [|destruct (decide (e ∈ seen x)) as [Hd|Hd]; [|by left]].
    all: right; assert (Hd' : e ∈ seen x) by done; apply (re_seen _ _ _ H) in Hd' as (m & Hm & ?); exists m; split; [lia|done].
  - intros e. rewrite Hn. split.
    + intros [Hns Hf]. assert (Hm : exists m, m <= S n /\ near start m e) by (eapply near_next; [done|by left]).
      destruct Hm as (m & Hm & Hnear). assert (Hno : forall k, k <= n -> ~ near start k e).
      { intros k Hk Hnk. apply Hns, (re_seen _ _ _ H). by exists k. }
      replace (S n) with m; [split; [done|intros k Hk; apply Hno; lia]|]. destruct (decide (m <= n)); [by destruct (Hno m)|lia].
    + intros [Hnear Hno]. assert (Hns : e ∉ seen x).
      { intros (m & Hm & Hnm)%(re_seen _ _ _ H). apply (Hno m); [lia|done]. }
      split; [done|]. assert (Hex : exists m, m <= S n /\ near start m e) by (by exists (S n)).
      by apply (near_next n anchors x e H) in Hex as [?|?].
  - intros id. rewrite Hvis, (re_visited _ _ _ H). split.
    + intros [(r & m & ? & ? & ?)|(r & -> & Hf)%list_elem_of_fmap]; [exists r, m; split_and!; [done|lia|done]|].
      apply (fresh_first _ _ _ _ H) in Hf as [Hw _]. exists r, n. split_and!; [done|lia|done].
    + intros (r & m & <- & Hm & Hw). destruct (decide (r_id r ∈ visited x)) as [Hd|Hd]; [left; by apply (re_visited _ _ _ H)|].
      right. apply list_elem_of_fmap. exists r. split; [done|]. apply (fresh_first _ _ _ _ H).
      assert (Hno : forall k, k < n -> ~ within start k r) by (intros k Hk Hwk; apply Hd, (re_visited _ _ _ H); by exists r, k).
      replace n with m; [split; [done|intros k Hk; apply Hno; destruct (decide (m < n)); [lia|lia]]|].
      destruct (decide (m < n)) as [Hlt|]; [by destruct (Hno m Hlt)|lia].
  - intros v h. rewrite Hr, elem_of_app, (re_results _ _ _ H), list_elem_of_fmap. split.
    + intros [(r & m & ? & ? & ? & ?)|(r & [= -> ->] & Hf)]; [exists r, m; split_and!; [done|lia|done|done]|].
      apply (fresh_first _ _ _ _ H) in Hf. exists r, n. split_and!; [done|lia|done|done].
    + intros (r & m & -> & Hm & -> & Hf). destruct (decide (m < n)); [left; exists r, m; split_and!; done|].
      replace m with n in * by lia. right. exists r. split; [done|]. by apply (fresh_first _ _ _ _ H).
  - intros id. by rewrite Hvis, Hids'.
  - rewrite Hr, map_app, map_map. cbn [fst]. apply NoDup_app. split_and!; [apply H| |].
    + intros o Ho Hf. apply list_elem_of_fmap in Hf as (r & -> & Hf). rewrite graph_json_id, <- (re_ids _ _ _ H) in Ho.
      apply elem_of_Lfilter in Hf as [_ Hf]. apply negb_true_iff, bool_decide_eq_false in Hf. done.
    + rewrite (map_ext _ (fun r => Some (r_id r))) by (intros; apply graph_json_id). rewrite <- (map_map r_id Some).
      apply (NoDup_fmap_2 Some). apply NoDup_ids_filter, batch_nodup.
Qed.

(** Without anchors there is nothing further. *)
Lemma reached_end n x m r : reached n [] x -> first_at start m r -> m < n.
Proof.
  intros H. assert (Hnear : forall m e, near start m e -> n <= m -> exists k, k < n /\ near start k e).
  { intros k e Hk. induction Hk as [a Ha|k e' s e Hk IH Hu Ht He]; intros Hle.
    - assert (n = 0) as -> by lia. assert (Hs : a ∈ seen x) by (apply (re_seen _ _ _ H); exists 0; split; [done|by constructor]).
      by apply (re_last _ _ _ H) in Hs as [?%elem_of_nil|?].
    - destruct (decide (n = S k)) as [->|].
      + assert (Hs : e ∈ seen x) by (apply (re_seen _ _ _ H); exists (S k); split; [done|by eapply near_step]).
        by apply (re_last _ _ _ H) in Hs as [?%elem_of_nil|?].
      + destruct IH as (j & Hj & Hnj); [lia|]. assert (He' : near start (S j) e) by (by eapply near_step).
        destruct (decide (S j < n)); [by exists (S j)|]. assert (n = S j) as -> by lia.
        assert (Hs : e ∈ seen x) by (apply (re_seen _ _ _ H); exists (S j); split; [done|done]).
        by apply (re_last _ _ _ H) in Hs as [?%elem_of_nil|?]. }
  intros [[Hu (e & Hn & Ht)] Hfirst]. destruct (decide (m < n)) as [|Hge]; [done|].
  destruct (Hnear m e Hn) as (k & Hk & Hnk); [lia|]. destruct (Hfirst k); [lia|]. split; [done|by exists e].
Qed.

Lemma expand_reached fuel n max_hops anchors x x' : reached n anchors x -> (Z.of_nat n <= max_hops + 1)%Z ->
  expand_hops from_str to_string reread scan fuel limit predicate t (Z.of_nat n) max_hops anchors x = Some x' ->
  (forall v h, (v, h) ∈ results x' <-> exists r m, h = Z.of_nat m /\ (h <= max_hops)%Z /\ v = graph_json r /\ first_at start m r) /\
  NoDup (map (fun s => extract_seed_id (fst s)) (results x')).
Proof.
  revert n anchors x. induction fuel as [|fuel IH]; intros n anchors x H Hn; [done|]. cbn [expand_hops].
  assert (Hstop : (anchors = [] \/ Z.of_nat n = max_hops + 1)%Z ->
    (forall v h, (v, h) ∈ results x <-> exists r m, h = Z.of_nat m /\ (h <= max_hops)%Z /\ v = graph_json r /\ first_at start m r) /\
    NoDup (map (fun s => extract_seed_id (fst s)) (results x))).
  { intros Hor. split; [|apply H]. intros v h. rewrite (re_results _ _ _ H). split; intros (r & m & -> & Hm & -> & Hf); exists r, m;
      split_and!; try done; [lia|]. destruct Hor as [->|Hor]; [by eapply reached_end|lia]. }
  destruct (Z.ltb_spec max_hops (Z.of_nat n)); [intros [= <-]; apply Hstop; lia|].
  destruct anchors as [|a anchors]; [intros [= <-]; apply Hstop; by left|]. rewrite batch_eq.
  pose proof (reached_step n (a :: anchors) x H) as Hs. destruct (expand_rows _ _ x) as [y next].
  intros He. eapply (IH (S n)); [exact Hs|lia|]. by rewrite Nat2Z.inj_succ.
Qed.
End Loop.
End Reach.
End Expand.

Lemma fltb_asym x y : fltb x y = true -> fltb y x = false.
Proof. unfold fltb, SFltb. rewrite (SFcompare_antisym x y). by destruct (SFcompare x y) as [[]|]. Qed.

(** The results of an expansion that is not cut: every row at its distance. *)
Lemma expand_exact from_str to_string reread scan anchors max_hops limit predicate t :
  (forall l, scan l ≡ₚ l) -> NoDup (map r_id (rows t)) -> (Z.of_nat (length (rows t)) <= limit)%Z -> (0 <= max_hops)%Z ->
  exists res, graph_expand_multi from_str to_string reread scan anchors max_hops limit predicate t = Some res /\
    (forall v h, (v, h) ∈ res <-> exists r m, h = Z.of_nat m /\ (h <= max_hops)%Z /\ v = graph_json from_str reread r /\
                                     first_at from_str to_string reread predicate t anchors m r) /\
    NoDup (map (fun s => extract_seed_id (fst s)) res) /\ Sorted nearer res.
Proof.
  intros Hscan Hids Hl Hm. unfold graph_expand_multi.
  assert (Hempty : (forall m r, ~ first_at from_str to_string reread predicate t anchors m r) -> exists res, Some [] = Some res /\
    (forall v h, (v, h) ∈ res <-> exists r m, h = Z.of_nat m /\ (h <= max_hops)%Z /\ v = graph_json from_str reread r /\
                                     first_at from_str to_string reread predicate t anchors m r) /\
    NoDup (map (fun s => extract_seed_id (fst s)) res) /\ Sorted nearer res).
  { intros Hno. exists []. split_and!; [done| |constructor|constructor]. intros v h. split; [by intros ?%elem_of_nil|].
    intros (r & m & _ & _ & _ & Hf). by apply Hno in Hf. }
  destruct anchors as [|a anchors].
  { apply Hempty. intros m r [(_ & e & Hn & _) _]. induction Hn as [e He|]; [by apply elem_of_nil in He|done]. }
  destruct (Z.eqb_spec limit 0) as [->|].
  { apply Hempty. intros m r [[[Hr _] _] _]. destruct (rows t); [by apply elem_of_nil in Hr|cbn in Hl; lia]. }
  set (x0 := {| results := []; visited := ∅; seen := list_to_set (a :: anchors) |}).
  destruct (expand_ends from_str to_string reread scan predicate t Hscan Hids limit (S (S (length (rows t)))) 0 max_hops (a :: anchors) x0) as [x He].
  { unfold unmet, fresh. etransitivity; [apply Nat.add_le_mono_r, List.filter_length_le|]. lia. }
  rewrite He. cbn [mbind option_bind]. eexists. split; [reflexivity|].
  destruct (expand_reached from_str to_string reread scan predicate t Hscan Hids limit (a :: anchors) Hl (S (S (length (rows t)))) 0 max_hops (a :: anchors) x0 x) as [Hr Hnd];
    [by unshelve eapply reached_start|lia|exact He|].
  pose proof (stable_sort_Permutation nearer (results x)) as Hp. split_and!.
  - intros v h. rewrite Hp. apply Hr.
  - by rewrite Hp.
  - apply Sorted_stable_sort. intros u v. unfold nearer. destruct (Z.lt_trichotomy (snd u) (snd v)) as [?|[E|?]]; [by left; left| |by right; left].
    destruct (fltb (extract_strength (fst u)) (extract_strength (fst v))) eqn:F; [|by left; right].
    right. right. split; [done|]. by apply fltb_asym.
Qed.

(** ** Lemmas: saving *)

Lemma save_facts_rows from_str to_string printed now contents outside t :
  Forall (fun o => snd o = true) outside -> length contents <= length outside ->
  NoDup (map r_id (rows t) ++ map fst outside) ->
  rows (snd (save_facts from_str to_string printed now contents outside t)) =
  (rows t ++ zip_with (fun c o => row_of_json from_str to_string (seed_json printed (fact_seed (fst o) now c))) contents outside)%list.
Proof.
  revert outside t. induction contents as [|c contents IH]; intros outside t Hok Hlen Hnd; [by rewrite app_nil_r|].
  destruct outside as [|[uuid b] outside]; [cbn in Hlen; lia|]. apply Forall_cons in Hok as [Hb Hok]. cbn in Hb. subst b.
  cbn [save_facts zip_with]. specialize (IH outside (insert_seed from_str to_string (seed_json printed (fact_seed uuid now c)) t) Hok).
  destruct (save_facts _ _ _ _ _ _ _) as [ids t']. cbn [snd] in *.
  assert (Hr : rows (insert_seed from_str to_string (seed_json printed (fact_seed uuid now c)) t) =
               (rows t ++ [row_of_json from_str to_string (seed_json printed (fact_seed uuid now c))])%list).
  { unfold insert_seed. cbn [rows]. rewrite bool_decide_eq_false_2; [done|].
    apply NoDup_app in Hnd as (_ & Hd & _). intros Hin. apply (Hd uuid Hin). cbn. left. }
  rewrite IH, Hr; [by rewrite <- app_assoc|cbn in Hlen; lia|]. rewrite Hr, map_app, <- app_assoc. exact Hnd.
Qed.

Lemma insert_seed_nodup from_str to_string v t : NoDup (map r_id (rows t)) -> NoDup (map r_id (rows (insert_seed from_str to_string v t))).
Proof.
  intros Hnd. unfold insert_seed. cbn [rows]. case_bool_decide as Hin; [done|]. rewrite map_app. apply NoDup_app. split_and!; [done| |apply NoDup_singleton].
  intros id Hid ->%list_elem_of_singleton. done.
Qed.

Lemma save_facts_nodup from_str to_string printed now contents outside t : NoDup (map r_id (rows t)) ->
  NoDup (map r_id (rows (snd (save_facts from_str to_string printed now contents outside t)))).
Proof.
  revert outside t. induction contents as [|c contents IH]; intros [|[uuid []] outside] t Hnd; cbn [save_facts]; try done; [|by apply IH].
  pose proof (IH outside _ (insert_seed_nodup from_str to_string (seed_json printed (fact_seed uuid now c)) t Hnd)) as H.
  by destruct (save_facts _ _ _ _ _ _ _).
Qed.

Lemma omap_length_le {A B} (f : A -> option B) l : length (omap f l) <= length l.
Proof. induction l as [|x l IH]; cbn; [done|]. destruct (f x); cbn; lia. Qed.

Lemma zip_with_lookup_l {A B C} (f : A -> B -> C) l k a : length l <= length k -> a ∈ l -> exists b, b ∈ k /\ f a b ∈ zip_with f l k.
Proof.
  revert k. induction l as [|x l IH]; intros k Hl Ha; [by apply elem_of_nil in Ha|]. destruct k as [|y k]; [cbn in Hl; lia|].
  apply elem_of_cons in Ha as [->|Ha]; [exists y; split; [left|cbn; left]|].
  destruct (IH k) as (b & Hb & Hf); [cbn in Hl; lia|done|]. exists b. split; [by right|cbn; by right].
Qed.

(** ** Lemmas: grouping *)

Lemma obj_insert_fresh {A} k (v : A) m : k ∉ map fst m -> map fst (obj_insert k v m) ≡ₚ k :: map fst m.
Proof.
  induction m as [|[k' v'] m IH]; [done|]. cbn. intros Hk. destruct (String.compare k k') eqn:E; [|done|].
  - apply String.compare_eq_iff in E as ->. set_solver.
  - cbn. rewrite IH by set_solver. by rewrite Permutation_swap.
Qed.

(** Keys in order, which is how a present key is found. *)
Definition keys_sorted {A} (m : list (string * A)) : Prop := StronglySorted (fun a b => String.compare a b = Lt) (map fst m).

Lemma str_lt_trans a b c : String.compare a b = Lt -> String.compare b c = Lt -> String.compare a c = Lt.
Proof.
  revert b c. induction a as [|x a IH]; intros [|y b] [|z c] H1 H2; cbn in *; try done.
  destruct (Ascii.compare x y) eqn:E1, (Ascii.compare y z) eqn:E2; try done; unfold Ascii.compare in *.
  - apply N.compare_eq_iff in E1, E2. rewrite E1, E2, N.compare_refl. by eapply IH.
  - apply N.compare_eq_iff in E1. by rewrite E1, E2.
  - apply N.compare_eq_iff in E2. by rewrite <- E2, E1.
  - assert (N.compare (Ascii.N_of_ascii x) (Ascii.N_of_ascii z) = Lt) as ->; [|done]. apply N.compare_lt_iff in E1, E2.
    apply N.compare_lt_iff. by etransitivity.
Qed.

Lemma obj_insert_keys {A} k (v : A) m x : x ∈ map fst (obj_insert k v m) <-> x = k \/ x ∈ map fst m.
Proof.
  induction m as [|[k' v'] m IH]; cbn; [set_solver|]. destruct (String.compare k k') eqn:E; cbn; [|set_solver|].
  - apply String.compare_eq_iff in E as ->. set_solver.
  - rewrite !elem_of_cons, IH. set_solver.
Qed.

Lemma obj_insert_sorted {A} k (v : A) m : keys_sorted m -> keys_sorted (obj_insert k v m).
Proof.
  unfold keys_sorted. induction m as [|[k' v'] m IH]; cbn; intros Hs; [by repeat constructor|]. inversion Hs as [|? ? Hs' Hf]; subst.
  destruct (String.compare k k') eqn:E; cbn.
  - apply String.compare_eq_iff in E as ->. by constructor.
  - constructor; [done|]. constructor; [done|]. eapply Forall_impl; [exact Hf|]. intros x. by apply str_lt_trans.
  - constructor; [by apply IH|]. apply Forall_forall. intros x Hx. apply obj_insert_keys in Hx as [->|Hx].
    + rewrite String.compare_antisym, E. done.
    + rewrite Forall_forall in Hf. by apply Hf.
Qed.

Lemma keys_sorted_nodup {A} (m : list (string * A)) : keys_sorted m -> NoDup (map fst m).
Proof.
  unfold keys_sorted. induction 1 as [|x l _ IH Hf]; [constructor|]. constructor; [|done]. intros Hx. rewrite Forall_forall in Hf.
  specialize (Hf x Hx). by rewrite compare_refl in Hf.
Qed.

Lemma assoc_pair {A} k (v : A) m : NoDup (map fst m) -> (Json.assoc k m = Some v <-> (k, v) ∈ m).
Proof.
  induction m as [|[k' v'] m IH]; cbn; [split; [done|by intros ?%elem_of_nil]|]. intros [Hk Hnd]%NoDup_cons.
  destruct (String.eqb_spec k k') as [->|Hne].
  - split; [intros [= ->]; left|]. intros [[= ->]|Hin]%elem_of_cons; [done|]. exfalso. apply Hk. apply list_elem_of_fmap. by exists (k', v).
  - rewrite IH by done. split; [by right|]. intros [[= -> ->]|?]%elem_of_cons; done.
Qed.

(** The group of a key: the values with this key, in order; none is empty. *)
Definition keyed (k : string) (l : list Value) : list Value := List.filter (fun v => String.eqb (extract_assertion_key v) k) l.

Lemma groups_spec l : let m := foldl add_to_group [] l in
  keys_sorted m /\ forall k, Json.assoc k m = match keyed k l with [] => None | g => Some g end.
Proof.
  cbn zeta. induction l as [|v l [Hs IH]] using rev_ind; [split; [constructor|done]|]. rewrite foldl_snoc. set (m := foldl add_to_group [] l) in *.
  unfold add_to_group. split; [by apply obj_insert_sorted|]. intros k. unfold keyed. rewrite List.filter_app. cbn [List.filter].
  fold (keyed k l). destruct (String.eqb_spec (extract_assertion_key v) k) as [->|Hne].
  - rewrite assoc_insert. rewrite IH. destruct (keyed k l); done.
  - rewrite assoc_insert_ne by done. rewrite IH, app_nil_r. done.
Qed.

Lemma group_elem l g : g ∈ map snd (foldl add_to_group [] l) <-> exists k, g = keyed k l /\ g <> [].
Proof.
  destruct (groups_spec l) as [Hs Ha]. apply keys_sorted_nodup in Hs. rewrite list_elem_of_fmap. split.
  - intros ([k g'] & -> & Hin). apply (assoc_pair k g' _ Hs) in Hin. rewrite Ha in Hin. exists k. cbn. destruct (keyed k l); by simplify_eq.
  - intros (k & -> & Hne). exists (k, keyed k l). split; [done|]. apply assoc_pair; [done|]. rewrite Ha. by destruct (keyed k l).
Qed.

Lemma divergent_spec g : divergent g = true <-> exists v w a b, v ∈ g /\ w ∈ g /\ extract_triple_object v = Some a /\ extract_triple_object w = Some b /\ a <> b.
Proof.
  unfold divergent, distinct_objects. rewrite Nat.leb_le.
  assert (He : forall o, o ∈ (list_to_set (omap extract_triple_object g) : gset string) <-> exists v, v ∈ g /\ extract_triple_object v = Some o).
  { intros o. rewrite elem_of_list_to_set, list_elem_of_omap. done. }
  set (objs := list_to_set _) in *. split.
  - intros Hsz. destruct (set_choose_L objs) as [a Ha]; [intros E; rewrite E, size_empty in Hsz; lia|].
    destruct (set_choose_L (objs ∖ {[a]})) as [b Hb].
    { intros E. assert (objs ⊆ {[a]}) as Hsub by (intros x Hx; destruct (decide (x = a)); [set_solver|]; assert (x ∈ objs ∖ {[a]}) by (apply elem_of_difference; split; [done|set_solver]); set_solver). apply subseteq_size in Hsub. rewrite size_singleton in Hsub. lia. }
    apply elem_of_difference in Hb as [Hb Hab]. apply He in Ha as (v & ? & ?), Hb as (w & ? & ?).
    exists v, w, a, b. split_and!; try done. set_solver.
  - intros (v & w & a & b & Hv & Hw & Ea & Eb & Hab). assert (Hsub : ({[a; b]} : gset string) ⊆ objs).
    { intros x. rewrite elem_of_union, !elem_of_singleton. intros [-> | ->]; apply He; [by exists v|by exists w]. }
    apply subseteq_size in Hsub. rewrite size_union, !size_singleton in Hsub by set_solver. lia.
Qed.

(** ** Lemmas: the profile *)

Section Profile.
Context (from_str : string -> option Value) (reread : spec_float -> spec_float).
Context (recent_first : list SeedRow -> list SeedRow) (Hrecent : forall l, recent_first l ≡ₚ l).

Abbreviation load_row := (load_row from_str reread).
Abbreviation profile_seeds := (profile_seeds from_str reread recent_first).

Definition profile_row (r : SeedRow) : bool := String.eqb (r_nature r) "Preference" && String.eqb (r_content_type r) "KeyValue".

Lemma profile_elem t s : s ∈ profile_seeds t <-> exists r, r ∈ rows t /\ profile_row r = true /\ load_row r = Some s.
Proof.
  unfold Graph.profile_seeds, load_profile_seeds. rewrite list_elem_of_omap. setoid_rewrite Hrecent.
  split; intros (r & H & Hl); exists r; [apply elem_of_Lfilter in H as [H Hp]; by split_and!|].
  destruct Hl as [Hp Hl]. split; [|done]. by apply elem_of_Lfilter.
Qed.

(** At most one entry for each key. *)
Definition one_per_key (t : SeedTable) : Prop :=
  forall s s' key, s ∈ profile_seeds t -> s' ∈ profile_seeds t -> has_key key s = true -> has_key key s' = true -> s = s'.

(** The entry of a key. *)
Definition entry (key value : string) (t : SeedTable) : Prop :=
  exists s, s ∈ profile_seeds t /\ sd_content s = KeyValue key value.

Lemma profile_delete id t s : s ∈ profile_seeds (delete_seeds [id] t) <-> s ∈ profile_seeds t /\ sd_id s <> id.
Proof.
  rewrite !profile_elem. destruct (delete_seeds_rows [id] t) as [-> _]. setoid_rewrite elem_of_Lfilter. split.
  - intros (r & [Hr Hn] & Hp & Hs). split; [by exists r|]. apply load_row_inv in Hs as (-> & _). apply negb_true_iff, bool_decide_eq_false in Hn. set_solver.
  - intros [(r & Hr & Hp & Hs) Hne]. exists r. split_and!; [done| |done|done]. apply load_row_inv in Hs as (E & _). rewrite E in Hne.
    rewrite bool_decide_eq_false_2; [done|set_solver].
Qed.

Lemma profile_ids t s s' : NoDup (map r_id (rows t)) -> s ∈ profile_seeds t -> s' ∈ profile_seeds t -> sd_id s = sd_id s' -> s = s'.
Proof.
  intros Hnd (r & Hr & _ & Hs)%profile_elem (r' & Hr' & _ & Hs')%profile_elem E.
  pose proof (load_row_inv _ _ _ _ Hs) as (E1 & _). pose proof (load_row_inv _ _ _ _ Hs') as (E2 & _).
  assert (r = r') as -> by (by eapply unique_row; [..|congruence]). congruence.
Qed.
Context (to_string : Value -> string) (printed : spec_float -> spec_float).
Context (Hnum : to_f32 (reread (printed (F32.of_Z 1))) = F32.of_Z 1).

Lemma profile_seed_elem uuid session now key value t :
  from_str (to_string (content_json (KeyValue key value))) = Some (content_json (KeyValue key value)) -> (- 2 ^ 63 <= now < 2 ^ 63)%Z -> uuid ∉ map r_id (rows t) ->
  let p := profile_seed uuid session now key value in
  forall s, s ∈ profile_seeds (insert_seed from_str to_string (seed_json printed p) t) <-> s ∈ profile_seeds t \/ s = p.
Proof.
  intros Hjson Hnow Hfresh p s. unfold insert_seed. cbn [rows]. set (r := row_of_json _ _ _).
  assert (Hl : load_row r = Some p) by (apply load_row_of; [split_and!; cbn; lia|exact Hjson|done]).
  assert (r_id r = uuid) as Hid by done. rewrite Hid, bool_decide_eq_false_2 by done. rewrite !profile_elem. cbn [rows].
  setoid_rewrite elem_of_app. setoid_rewrite list_elem_of_singleton. split.
  - intros (r' & [Hr| ->] & Hp & Hs); [left; by exists r'|right; congruence].
  - intros [(r' & Hr & Hp & Hs)| ->]; [exists r'; auto|exists r; split_and!; [by right|done|done]].
Qed.

End Profile.

(** ** Properties *)

(** [C32] Expanding the memory graph is a search in breadth.  For any order SQLite
    meets the rows in, with distinct identifiers and a limit no smaller than the
    table, the expansion ends, whatever the number of hops asked for, and holds
    exactly the triples with the asked predicate that can be reached from an
    anchor through at most so many triples, each once, with its least number of
    hops; nearer ones come first, and among equals the strongest. *)
Theorem graph_expand_spec from_str to_string reread scan anchors max_hops limit predicate t :
  (forall l, scan l ≡ₚ l) -> NoDup (map r_id (rows t)) -> (Z.of_nat (length (rows t)) <= limit)%Z -> (0 <= max_hops)%Z ->
  exists res, graph_expand_multi from_str to_string reread scan anchors max_hops limit predicate t = Some res /\
    (forall v h, (v, h) ∈ res <-> exists r m, h = Z.of_nat m /\ (h <= max_hops)%Z /\ v = graph_json from_str reread r /\
                                     first_at from_str to_string reread predicate t anchors m r) /\
    NoDup (map (fun s => extract_seed_id (fst s)) res) /\ Sorted nearer res.
Proof. apply expand_exact. Qed.

(** What is saved can be found.  When the database takes every seed and the new
    identifiers are new, each fact of a save whose three parts are not blank is
    found by a query for exactly its subject, or exactly its object, at no
    distance, with the trimmed parts as they were given. *)
Theorem saved_facts_found from_str to_string printed reread scan now outside input t s p o anchor :
  from_str (to_string (content_json (Triple s p o))) = Some (content_json (Triple s p o)) -> (forall l, scan l ≡ₚ l) ->
  Forall (fun x => snd x = true) outside -> NoDup (map r_id (rows t) ++ map fst outside) ->
  (forall facts, as_array (index input "facts") = Some facts -> length facts <= length outside) ->
  (exists facts f, as_array (index input "facts") = Some facts /\ f ∈ facts /\ fact_triple f = Some (Triple s p o)) ->
  anchor = s \/ anchor = o ->
  let t' := snd (handle_save from_str to_string printed now outside input t) in
  forall limit, (Z.of_nat (length (rows t')) <= limit)%Z ->
  exists res v, graph_expand_multi from_str to_string reread scan [anchor] 0 limit None t' = Some res /\
    (v, 0%Z) ∈ res /\ seed_text to_string (index v "content") = s +:+ " " +:+ p +:+ " " +:+ o.
Proof.
  intros Hjson Hscan Hok Hnd Hlen (facts & f & Hfacts & Hf & Ht) Ha t' limit Hl.
  assert (Hc : Triple s p o ∈ omap fact_triple facts) by (apply list_elem_of_omap; by exists f).
  assert (Hrows : rows t' = (rows t ++ zip_with (fun c o => row_of_json from_str to_string (seed_json printed (fact_seed (fst o) now c)))
                                              (omap fact_triple facts) outside)%list).
  { unfold t', handle_save. rewrite Hfacts. rewrite <- save_facts_rows; [|done| |done].
    - by destruct (save_facts _ _ _ _ _ _ _).
    - etransitivity; [apply omap_length_le|]. by apply Hlen. }
  destruct (zip_with_lookup_l (fun c o => row_of_json from_str to_string (seed_json printed (fact_seed (fst o) now c)))
              (omap fact_triple facts) outside (Triple s p o)) as ([uuid b] & _ & Hz); [|done|].
  { etransitivity; [apply omap_length_le|]. by apply Hlen. }
  set (r := row_of_json _ _ _) in Hz. assert (Hr : r ∈ rows t') by (rewrite Hrows; apply elem_of_app; by right).
  assert (Hcj : from_str (r_content_json r) = Some (content_json (Triple s p o))) by exact Hjson.
  assert (Hids : NoDup (map r_id (rows t'))).
  { unfold t', handle_save. rewrite Hfacts. pose proof (save_facts_nodup from_str to_string printed now (omap fact_triple facts) outside t) as H.
    destruct (save_facts _ _ _ _ _ _ _). apply H. by apply NoDup_app in Hnd as (? & _). }
  destruct (expand_exact from_str to_string reread scan [anchor] 0 limit None t' Hscan Hids Hl ltac:(lia)) as (res & He & Hin & _).
  exists res, (graph_json from_str reread r). split; [done|]. split.
  - apply Hin. exists r, 0. split_and!; [done|done|done|]. split; [|intros m Hm; lia]. split; [by split_and!|].
    exists anchor. split; [constructor; by left|]. unfold touches, json_text. rewrite Hcj. destruct Ha as [-> | ->]; [by left|by right].
  - unfold graph_json, row_json. cbn [r_content_json no_workspace]. rewrite Hcj. reflexivity.
Qed.

(** The model cannot delete what the user stated.  When the database answers
    with the sources, a delete leaves every row of that source, and deletes
    exactly the others it names; the count it reports is that of the named
    identifiers, found or not. *)
Theorem statements_kept to_string deleted input t ids : strings_of (index input "ids") = Some ids ->
  let t' := snd (handle_delete to_string true deleted input t) in
  (forall r, r ∈ rows t -> r_source r = "UserStatement" -> r ∈ rows t') /\
  (deleted = true -> NoDup (map r_id (rows t)) -> forall r, r ∈ rows t' <-> r ∈ rows t /\ (r_id r ∈ ids -> r_source r = "UserStatement")).
Proof.
  intros Hids t'. set (statements := map fst (List.filter (fun s => String.eqb (snd s) "UserStatement") (load_seed_sources ids t))).
  set (eligible := List.filter (fun id => negb (one_of id statements)) ids).
  assert (Ht : t' = (if deleted then delete_seeds eligible t else t)).
  { unfold t', handle_delete. rewrite Hids. destruct ids; [|done]. by destruct deleted. }
  assert (Hst : forall id, id ∈ statements <-> id ∈ ids /\ exists r, r ∈ rows t /\ r_id r = id /\ r_source r = "UserStatement").
  { intros id. unfold statements, load_seed_sources. rewrite list_elem_of_fmap. setoid_rewrite elem_of_Lfilter. split.
    - intros ([i so] & -> & Hin & Hso). cbn in *. apply String.eqb_eq in Hso as ->. apply list_elem_of_fmap in Hin as (r & [= -> E] & Hr).
      apply elem_of_Lfilter in Hr as [Hr Hd]. apply bool_decide_eq_true in Hd. split; [done|by exists r].
    - intros [Hi (r & Hr & <- & Hs)]. exists (r_id r, r_source r). split; [done|]. split; [|by apply String.eqb_eq].
      apply list_elem_of_fmap. exists r. split; [done|]. apply elem_of_Lfilter. split; [done|by apply bool_decide_eq_true]. }
  assert (Hel : forall id, id ∈ eligible <-> id ∈ ids /\ id ∉ statements).
  { intros id. unfold eligible. rewrite elem_of_Lfilter, negb_true_iff. by rewrite one_of_false. }
  assert (Hkeep : forall r, r ∈ rows t -> r_source r = "UserStatement" -> r_id r ∉ eligible).
  { intros r Hr Hs He. apply Hel in He as [Hi Hn]. apply Hn, Hst. split; [done|by exists r]. }
  rewrite Ht. split.
  - intros r Hr Hs. destruct deleted; [|done]. destruct (delete_seeds_rows eligible t) as [-> _]. apply elem_of_Lfilter. split; [done|].
    rewrite bool_decide_eq_false_2; [done|by apply Hkeep].
  - intros -> Hnd r. destruct (delete_seeds_rows eligible t) as [-> _]. rewrite elem_of_Lfilter, negb_true_iff, bool_decide_eq_false, Hel, Hst.
    split; (intros [Hr Hi]; split; [done|]).
    + intros Hin. destruct (decide (r_source r = "UserStatement")) as [|Hne]; [done|]. exfalso. apply Hi. split; [done|].
      intros [_ (r' & Hr' & E & Hs')]. assert (r' = r) as -> by (by eapply unique_row). done.
    + intros [Hin Hn]. apply Hn. split; [done|]. exists r. split_and!; [done|done|by apply Hi].
Qed.

(** Contradictions.  Each reported group consists of all triples of one key, in
    order, at least two of them with different objects; and unless the limit was
    reached, any two triples with the same subject, the same predicate and
    different objects are reported in one group. *)
Theorem contradictions_spec from_str reread by_assertion limit t : (forall l, by_assertion l ≡ₚ l) ->
  let found := find_contradicting_triples from_str reread by_assertion limit t in
  let triples := map (graph_json from_str reread) (by_assertion (List.filter is_triple (rows t))) in
  (forall g, g ∈ found -> exists key, g = keyed key triples /\ divergent g = true) /\
  ((Z.of_nat (length found) < limit)%Z -> forall r r' a b, r ∈ rows t -> r' ∈ rows t -> is_triple r = true -> is_triple r' = true ->
     let v := graph_json from_str reread r in let w := graph_json from_str reread r' in
     index (index v "content") "subject" = index (index w "content") "subject" ->
     index (index v "content") "predicate" = index (index w "content") "predicate" ->
     extract_triple_object v = Some a -> extract_triple_object w = Some b -> a <> b ->
     exists g, g ∈ found /\ v ∈ g /\ w ∈ g).
Proof.
  intros Hperm found triples. set (conflicts := List.filter divergent (map snd (foldl add_to_group [] triples))).
  assert (Hf : found = (if (limit <? Z.of_nat (length conflicts))%Z then take (Z.to_nat limit) conflicts else conflicts)) by done.
  assert (Hc : forall g, g ∈ conflicts <-> (exists k, g = keyed k triples) /\ divergent g = true).
  { intros g. unfold conflicts. rewrite elem_of_Lfilter, group_elem. split; intros [(k & E) Hd].
    - destruct E as [-> _]. split; [by exists k|done].
    - split; [|done]. exists k. split; [done|]. intros ->. done. }
  split.
  - intros g Hg. assert (Hin : g ∈ conflicts).
    { rewrite Hf in Hg. destruct (limit <? _)%Z; [by eapply subseteq_take|done]. }
    apply Hc in Hin as [(k & ->) Hd]. by exists k.
  - intros Hl r r' a b Hr Hr' Ht Ht' v w Hs Hp Ha Hb Hab.
    assert (Hall : found = conflicts).
    { rewrite Hf in *. destruct (Z.ltb_spec limit (Z.of_nat (length conflicts))); [|done]. rewrite length_take in Hl. lia. }
    assert (Hin : forall x, x ∈ rows t -> is_triple x = true -> graph_json from_str reread x ∈ triples).
    { intros x Hx Hxt. apply list_elem_of_fmap. exists x. split; [done|]. rewrite Hperm. by apply elem_of_Lfilter. }
    exists (keyed (extract_assertion_key v) triples). rewrite Hall, Hc.
    assert (Hv : v ∈ keyed (extract_assertion_key v) triples) by (apply elem_of_Lfilter; split; [by apply Hin|apply String.eqb_refl]).
    assert (Hw : w ∈ keyed (extract_assertion_key v) triples).
    { apply elem_of_Lfilter. split; [by apply Hin|]. apply String.eqb_eq. unfold extract_assertion_key. by rewrite Hs, Hp. }
    split_and!; [by eexists| |done|done]. apply divergent_spec. by exists v, w, a, b.
Qed.

(** The profile is a map from keys to values.  If each key has at most one
    entry and the database answers, entering a key and a value under a new
    identifier leaves at most one entry for each key, the key's entry has the
    value, the entries of the other keys are as before, and entering the same
    again changes nothing. *)
Theorem upsert_spec from_str to_string printed reread recent_first uuid uuid' now session key value t :
  (forall l, recent_first l ≡ₚ l) -> to_f32 (reread (printed (F32.of_Z 1))) = F32.of_Z 1 ->
  from_str (to_string (content_json (KeyValue key value))) = Some (content_json (KeyValue key value)) ->
  (- 2 ^ 63 <= now < 2 ^ 63)%Z -> uuid ∉ map r_id (rows t) -> NoDup (map r_id (rows t)) ->
  one_per_key from_str reread recent_first t ->
  let '(n, t') := upsert from_str to_string printed reread recent_first true true true uuid now session key value t in
  one_per_key from_str reread recent_first t' /\ entry from_str reread recent_first key value t' /\
  (forall s, has_key key s = false -> s ∈ profile_seeds from_str reread recent_first t' <-> s ∈ profile_seeds from_str reread recent_first t) /\
  upsert from_str to_string printed reread recent_first true true true uuid' now session key value t' = (0, t').
Proof.
  intros Hrec Hnum Hjson Hnow Hfresh Hnd Hone.
  set (ps := profile_seeds from_str reread recent_first). set (p := profile_seed uuid session now key value).
  assert (Hkey : forall s, has_key key s = true -> forall k, has_key k s = true -> k = key).
  { intros s. unfold has_key. destruct (sd_content s); try done. intros ->%String.eqb_eq k ->%String.eqb_eq. done. }
  assert (Hagain : forall t', one_per_key from_str reread recent_first t' -> entry from_str reread recent_first key value t' ->
    upsert from_str to_string printed reread recent_first true true true uuid' now session key value t' = (0, t')).
  { intros t' Ho (s & Hs & Hc). unfold upsert. destruct (List.find _ _) as [s'|] eqn:Ef.
    - apply List.find_some in Ef as [Hin Hk]. apply list_elem_of_In in Hin. assert (Hks : has_key key s = true) by (unfold has_key; rewrite Hc; apply String.eqb_refl).
      assert (s' = s) as -> by (by eapply Ho). unfold has_value. by rewrite Hc, String.eqb_refl.
    - rewrite find_None_forall in Ef. specialize (Ef s Hs). unfold has_key in Ef. by rewrite Hc, String.eqb_refl in Ef. }
  assert (Hadd : forall t0, uuid ∉ map r_id (rows t0) -> one_per_key from_str reread recent_first t0 ->
    (forall s, s ∈ ps t0 -> has_key key s = false) -> (forall s, has_key key s = false -> s ∈ ps t0 <-> s ∈ ps t) ->
    let t' := insert_seed from_str to_string (seed_json printed p) t0 in
    one_per_key from_str reread recent_first t' /\ entry from_str reread recent_first key value t' /\
    (forall s, has_key key s = false -> s ∈ ps t' <-> s ∈ ps t)).
  { intros t0 Hf0 Ho0 Hno Hsame t'. pose proof (profile_seed_elem from_str reread recent_first Hrec to_string printed Hnum uuid session now key value t0 Hjson Hnow Hf0) as He.
    cbn zeta in He. fold p in He. fold ps in He. fold t' in He. split_and!.
    - intros s s' k Hs Hs' Hks Hks'. fold ps in Hs, Hs'. apply He in Hs, Hs'. assert (Hkp : has_key key p = true) by apply String.eqb_refl.
      destruct Hs as [Hs| ->], Hs' as [Hs'| ->]; [by eapply Ho0| | |done].
      + assert (k = key) as -> by (by eapply Hkey). by rewrite (Hno s Hs) in Hks.
      + assert (k = key) as -> by (by eapply Hkey). by rewrite (Hno s' Hs') in Hks'.
    - exists p. split; [apply He; by right|done].
    - intros s Hk. rewrite He, <- Hsame by done. split; [intros [?| ->]; [done|]|by left]. cbn in Hk. by rewrite String.eqb_refl in Hk. }
  destruct (upsert _ _ _ _ _ _ _ _ _ _ _ _ _ t) as [n t'] eqn:Eu.
  enough (H : one_per_key from_str reread recent_first t' /\ entry from_str reread recent_first key value t' /\
              (forall s, has_key key s = false -> s ∈ ps t' <-> s ∈ ps t)).
  { destruct H as (H1 & H2 & H3). split_and!; [done|done|done|by apply Hagain]. }
  unfold upsert in Eu. fold ps in Eu. fold p in Eu. destruct (List.find (has_key key) (ps t)) as [s|] eqn:Ef.
  - apply List.find_some in Ef as [Hin Hk]. apply list_elem_of_In in Hin. destruct (has_value value s) eqn:Ev.
    + injection Eu as <- <-. split_and!; [done| |done]. exists s. split; [done|]. unfold has_key, has_value in *.
      destruct (sd_content s); try done. apply String.eqb_eq in Hk as ->. by apply String.eqb_eq in Ev as ->.
    + injection Eu as <- <-. pose proof (profile_delete from_str reread recent_first Hrec (sd_id s) t) as Hd. fold ps in Hd. apply (Hadd (delete_seeds [sd_id s] t)).
      * destruct (delete_seeds_rows [sd_id s] t) as [-> _]. intros (r & -> & [Hr _]%elem_of_Lfilter)%list_elem_of_fmap.
        apply Hfresh, list_elem_of_fmap. by exists r.
      * intros a b k Ha Hb. fold ps in Ha, Hb. apply Hd in Ha as [Ha _], Hb as [Hb _]. by apply Hone.
      * intros a [Ha Hne]%Hd. destruct (has_key key a) eqn:Hka; [|done]. exfalso. apply Hne. f_equal. by eapply Hone.
      * intros a Hka. rewrite Hd. split; [tauto|]. intros Ha. split; [done|]. intros E.
        assert (a = s) as -> by (by eapply (profile_ids from_str reread recent_first)). congruence.
  - injection Eu as <- <-. rewrite find_None_forall in Ef. by apply Hadd.
Qed.

(** ** Concrete runs *)

Definition triple_print (v : Value) : string :=
  let f k := default "" (as_str (index v k)) in str_join "," [f "subject"; f "predicate"; f "object"].
Definition triple_parse (s : string) : option Value :=
  match split_char ","%char s with [a; b; c] => Some (content_json (Triple a b c)) | _ => None end.

Definition triple_row (id source s p o : string) : SeedRow :=
  {| r_id := id; r_session := ""; r_workspace := "w"; r_nature := "Fact"; r_source := source; r_content_type := "Triple";
     r_content_json := str_join "," [s; p; o]; r_content_text := ""; r_palace := 7; r_stem := 9; r_geju_key := ""; r_created_at := 1;
     r_access_count := 0; r_last_accessed_at := 1; r_strength := F64.of_Z 1; r_tier := "OnDemand" |}.

(** A chain of three triples. *)
Definition chain : SeedTable :=
  {| rows := [triple_row "1" "UserStatement" "a" "knows" "b"; triple_row "2" "Consolidation" "b" "knows" "c"; triple_row "3" "Consolidation" "c" "knows" "d"];
     fts := [] |}.
Definition expand_chain (anchors : list string) (max_hops limit : Z) : option (list (Value * Z)) :=
  graph_expand_multi triple_parse triple_print (fun x => x) (fun l => l) anchors max_hops limit None chain.
Definition ids_of (res : option (list (Value * Z))) : list (option string * Z) := map (fun s => (extract_seed_id (fst s), snd s)) (default [] res).

Lemma graph_expand_spec_witness :
  (exists res, expand_chain ["a"] 1 20 = Some res /\ NoDup (map (fun s => extract_seed_id (fst s)) res)) /\
  ids_of (expand_chain ["a"] 1 20) = [(Some "1", 0%Z); (Some "2", 1%Z)].
Proof.
  split; [|vm_compute; reflexivity].
  destruct (graph_expand_spec triple_parse triple_print (fun x => x) (fun l => l) ["a"] 1 20 None chain) as (res & H & _ & Hn & _);
    [done|apply (bool_decide_eq_true_1 (NoDup _)); vm_compute; reflexivity|vm_compute; discriminate|lia|].
  exists res. split; [exact H|exact Hn].
Defined.

Definition fact_input : Value :=
  Obj [("action", Str "save"); ("facts", Arr [Obj [("object", Str " tea "); ("predicate", Str "likes"); ("subject", Str "ann")]; Obj [("subject", Str "x")]])].

Lemma saved_facts_found_witness :
  let t' := snd (handle_save triple_parse triple_print (fun x => x) 5 [("u1", true); ("u2", true)] fact_input chain) in
  exists res v, graph_expand_multi triple_parse triple_print (fun x => x) (fun l => l) ["tea"] 0 20 None t' = Some res /\
    (v, 0%Z) ∈ res /\ seed_text triple_print (index v "content") = "ann likes tea".
Proof.
  eapply (saved_facts_found triple_parse triple_print (fun x => x) (fun x => x) (fun l => l) 5 [("u1", true); ("u2", true)] fact_input chain "ann" "likes" "tea" "tea").
  - vm_compute. reflexivity.
  - done.
  - by repeat constructor.
  - apply (bool_decide_eq_true_1 (NoDup _)). vm_compute. reflexivity.
  - intros facts [= <-]. cbn. lia.
  - eexists _, _. split; [reflexivity|]. split; [left|]. vm_compute. reflexivity.
  - by right.
  - vm_compute. discriminate.
Defined.

Lemma statements_kept_witness :
  map r_id (rows (snd (handle_delete triple_print true true (Obj [("ids", Arr [Str "1"; Str "2"])]) chain))) = ["1"; "3"] /\
  (triple_row "1" "UserStatement" "a" "knows" "b" ∈ rows (snd (handle_delete triple_print true true (Obj [("ids", Arr [Str "1"; Str "2"])]) chain))).
Proof.
  split; [vm_compute; reflexivity|].
  apply (proj1 (statements_kept triple_print true (Obj [("ids", Arr [Str "1"; Str "2"])]) chain ["1"; "2"] eq_refl)); [apply list_elem_of_here|reflexivity].
Defined.

(** When the sources cannot be read, nothing is protected. *)
Example unread_sources_unprotected :
  map r_id (rows (snd (handle_delete triple_print false true (Obj [("ids", Arr [Str "1"; Str "2"])]) chain))) = ["3"].
Proof. vm_compute. reflexivity. Qed.

(** An identifier that is not in the table counts as deleted. *)
Example missing_counts_as_deleted :
  fst (handle_delete (fun v => default "" (as_str (index v "note")) +:+ default "" (pretty <$> as_u64 (index v "deleted"))) true true
         (Obj [("ids", Arr [Str "9"])]) chain) = Ok "1".
Proof. vm_compute. reflexivity. Qed.

(** The limit is one of each hop, not of the answer. *)
Example limit_is_per_hop : length (ids_of (expand_chain ["a"; "d"] 2 2)) = 3.
Proof. vm_compute. reflexivity. Qed.

(** Rows already met use up the limit of the next hop. *)
Example met_rows_use_the_limit : ids_of (expand_chain ["a"] 2 1) = [(Some "1", 0%Z)].
Proof. vm_compute. reflexivity. Qed.

Definition contradictory : SeedTable :=
  {| rows := [triple_row "1" "Consolidation" "ann" "lives in" "Rome"; triple_row "2" "Consolidation" "ann" "lives in" "Oslo"]; fts := [] |}.

Lemma contradictions_spec_witness :
  let found := find_contradicting_triples triple_parse (fun x => x) (fun l => l) 20 contradictory in
  exists g, g ∈ found /\ graph_json triple_parse (fun x => x) (triple_row "1" "Consolidation" "ann" "lives in" "Rome") ∈ g.
Proof.
  destruct (contradictions_spec triple_parse (fun x => x) (fun l => l) 20 contradictory (fun l => reflexivity l)) as [_ H].
  destruct (H ltac:(vm_compute; reflexivity) (triple_row "1" "Consolidation" "ann" "lives in" "Rome") (triple_row "2" "Consolidation" "ann" "lives in" "Oslo")
    "Rome" "Oslo") as (g & Hg & Hv & _); [apply list_elem_of_here|apply list_elem_of_further, list_elem_of_here|reflexivity|reflexivity|reflexivity|reflexivity|reflexivity|reflexivity|done|].
  exists g. split; [exact Hg|exact Hv].
Defined.

(** The key joins subject and predicate with a bar that either may contain:
    facts about different things can be reported as a contradiction. *)
Example keys_collide :
  length (find_contradicting_triples triple_parse (fun x => x) (fun l => l) 20
    {| rows := [triple_row "1" "Consolidation" "a|b" "c" "x"; triple_row "2" "Consolidation" "a" "b|c" "y"]; fts := [] |}) = 1.
Proof. vm_compute. reflexivity. Qed.

Definition pair_print (v : Value) : string :=
  let f k := default "" (as_str (index v k)) in str_join "," [f "key"; f "value"].
Definition pair_parse (s : string) : option Value :=
  match split_char ","%char s with [a; b] => Some (content_json (KeyValue a b)) | _ => None end.
Definition upsert_role (inserts : bool) (uuid value : string) (t : SeedTable) : nat * SeedTable :=
  upsert pair_parse pair_print to_f64 (fun x => x) (fun l => l) true true inserts uuid 5 "s" "role" value t.

Lemma upsert_spec_witness :
  entry pair_parse (fun x => x) (fun l => l) "role" "nurse" (snd (upsert_role true "u1" "nurse" empty_table)).
Proof.
  apply (upsert_spec pair_parse pair_print to_f64 (fun x => x) (fun l => l) "u1" "u2" 5 "s" "role" "nurse" empty_table);
    [reflexivity|vm_compute; reflexivity|vm_compute; reflexivity|lia|apply not_elem_of_nil|constructor|].
  intros s s' key Hs. vm_compute in Hs. by apply elem_of_nil in Hs.
Defined.

(** A changed value is deleted before the new one is written: when the write
    fails, the entry is gone. *)
Example failed_upsert_loses_entry :
  let t := snd (upsert_role true "u1" "nurse" empty_table) in
  profile_prompt pair_parse (fun x => x) (fun l => l) t = nl +:+ "## User context — do NOT adopt these as your own preferences:" +:+ nl +:+ "- User's Role: nurse" /\
  upsert_role false "u2" "doctor" t = (0, empty_table).
Proof. vm_compute. split; reflexivity. Qed.
