(* ===== verification/Tasks.v ===== *)
(** * The task list

    src/kernel/src/palaces/zhen_tool/builtin/exec/task.rs (the store of tasks
    shared by all sessions, and the tool over it) and the block of the prompt that
    shows it (plates/tian_heaven/loop_prompt.rs).  The criteria of a session are
    kept by the session bus.  The printer of JSON, Unicode lower-casing, the clock
    and fresh identifiers are arguments.  A poisoned lock, the store's only
    failure, is an argument of each operation. *)

From S2P Require Import Prelude RString Json Path Files.
From S2P Require SessionBus.
Local Open Scope string_scope.
#[local] Arguments String.append !_ _ : simpl nomatch.

Definition MAX_TASKS : nat := 200.

Inductive TaskStatus := Pending | InProgress | Completed | Deleted.
#[export] Instance TaskStatus_eq_dec : EqDecision TaskStatus.
Proof. solve_decision. Defined.

Record Task := {
  id : string;
  subject : string;
  description : string;
  status : TaskStatus;
  created_at : Z;
  updated_at : Z
}.

Abbreviation TaskStore := (list Task).

(** ** The store *)

Section Store.
(** What a poisoned lock says. *)
Context (poisoned : option string).

Definition lock {A} (k : result string A) : result string A :=
  match poisoned with Some e => Err ("Task store poisoned: " +:+ e) | None => k end.

Definition new_task (uuid : string) (now : Z) (subject description : string) : Task :=
  {| id := uuid; subject := subject; description := description; status := Pending; created_at := now; updated_at := now |}.

Definition create (uuid : string) (now : Z) (subject description : string) (s : TaskStore) : result string Task * TaskStore :=
  match lock (Ok ()) with
  | Err e => (Err e, s)
  | Ok _ =>
      if (MAX_TASKS <=? length s)%nat then (Err ("Max " +:+ pretty (N.of_nat MAX_TASKS) +:+ " tasks reached"), s)
      else let task := new_task uuid now subject description in (Ok task, s ++ [task])%list
  end.

Definition list_tasks (s : TaskStore) : result string (list Task) := lock (Ok s).

Definition has_id (i : string) (t : Task) : bool := String.eqb (id t) i.
Definition get_task (i : string) (s : TaskStore) : result string (option Task) := lock (Ok (List.find (has_id i) s)).

Definition set_status (st : TaskStatus) (now : Z) (t : Task) : Task :=
  {| id := id t; subject := subject t; description := description t; status := st; created_at := created_at t; updated_at := now |}.

Definition update_status (i : string) (st : TaskStatus) (now : Z) (s : TaskStore) : result string Task * TaskStore :=
  match lock (Ok ()) with
  | Err e => (Err e, s)
  | Ok _ =>
      match position (has_id i) s with
      | Some p => match s !! p with
                  | Some t => (Ok (set_status st now t), <[p := set_status st now t]> s)
                  | None => (Err ("Task '" +:+ i +:+ "' not found"), s)
                  end
      | None => (Err ("Task '" +:+ i +:+ "' not found"), s)
      end
  end.

(** ** The tool *)

Context (lower : string -> string) (to_string_pretty : Value -> string).

Definition status_of (s : string) : option TaskStatus :=
  let s := lower s in
  if String.eqb s "pending" then Some Pending
  else if String.eqb s "in_progress" || String.eqb s "inprogress" then Some InProgress
  else if String.eqb s "completed" then Some Completed
  else if String.eqb s "deleted" then Some Deleted
  else None.

Definition status_name (s : TaskStatus) : string :=
  match s with Pending => "pending" | InProgress => "in_progress" | Completed => "completed" | Deleted => "deleted" end.

Definition int_value (z : Z) : Value := Num (if (0 <=? z)%Z then PosInt z else NegInt z).

(** The derived serializer keeps the order of the fields. *)
Definition task_json (t : Task) : Value :=
  Obj [("id", Str (id t)); ("subject", Str (subject t)); ("description", Str (description t)); ("status", Str (status_name (status t)));
       ("created_at", int_value (created_at t)); ("updated_at", int_value (updated_at t))].
Definition task_summary (t : Task) : Value :=
  Obj [("description", Str (description t)); ("id", Str (id t)); ("status", Str (status_name (status t))); ("subject", Str (subject t))].

Definition not_deleted (t : Task) : bool := negb (bool_decide (status t = Deleted)).

Definition tool_error (e : string) : ToolError := Execution "task" e.
Definition no_bus : string := "Completion criteria are not available (session bus not bound)".

(** The state the tool works on: the store, and the session bus when bound. *)
Record TaskWorld := { store : TaskStore; bus : option SessionBus.SessionBus }.
Definition with_store (s : TaskStore) (w : TaskWorld) : TaskWorld := {| store := s; bus := bus w |}.
Definition with_bus (b : SessionBus.SessionBus) (w : TaskWorld) : TaskWorld := {| store := store w; bus := Some b |}.

Definition execute_set_criteria (session : string) (input : Value) (w : TaskWorld) : result ToolError string * TaskWorld :=
  match bus w with
  | None => (Err (error_of no_bus), w)
  | Some b =>
      match as_array (index input "criteria") with
      | None => (Err (error_of "Missing 'criteria' parameter (array of strings)"), w)
      | Some arr =>
          match omap as_str arr with
          | [] => (Err (error_of "'criteria' must be a non-empty array of strings"), w)
          | l =>
              (Ok ("Set " +:+ pretty (N.of_nat (length l)) +:+ " completion criterion/criteria for this session. Each must be checked (action=check_criterion) before a completion claim is accepted:" +:+ nl +:+
                   str_join nl (map (fun c => "- [ ] " +:+ c) l)),
               with_bus (SessionBus.set_criteria session l b) w)
          end
      end
  end.

Definition execute_check_criterion (session : string) (input : Value) (w : TaskWorld) : result ToolError string * TaskWorld :=
  match bus w with
  | None => (Err (error_of no_bus), w)
  | Some b =>
      match as_str (index input "criterion") with
      | None => (Err (error_of "Missing 'criterion' parameter"), w)
      | Some text =>
          let '(r, b') := SessionBus.check_criterion lower session text b in
          (match r with
           | Ok remaining => Ok ("Criterion checked: " +:+ text +:+ nl +:+ "Remaining unchecked: " +:+ pretty (N.of_nat remaining))
           | Err e => Err (tool_error e)
           end, with_bus b' w)
      end
  end.

Definition execute_create (uuid : string) (now : Z) (input : Value) (w : TaskWorld) : result ToolError string * TaskWorld :=
  match as_str (index input "subject") with
  | None => (Err (error_of "Missing 'subject' parameter"), w)
  | Some subject =>
      let '(r, s) := create uuid now subject (default "" (as_str (index input "description"))) (store w) in
      (match r with Ok t => Ok (to_string_pretty (task_json t)) | Err e => Err (error_of e) end, with_store s w)
  end.

Definition execute_list (w : TaskWorld) : result ToolError string :=
  match list_tasks (store w) with
  | Err e => Err (error_of e)
  | Ok tasks =>
      match List.filter not_deleted tasks with
      | [] => Ok "No active tasks."
      | active => Ok (to_string_pretty (Arr (map task_summary active)))
      end
  end.

Definition execute_get (input : Value) (w : TaskWorld) : result ToolError string :=
  match as_str (index input "id") with
  | None => Err (error_of "Missing 'id' parameter")
  | Some i =>
      match get_task i (store w) with
      | Err e => Err (error_of e)
      | Ok (Some t) => Ok (to_string_pretty (task_json t))
      | Ok None => Err (error_of ("Task '" +:+ i +:+ "' not found"))
      end
  end.

Definition execute_update (now : Z) (input : Value) (w : TaskWorld) : result ToolError string * TaskWorld :=
  match as_str (index input "id") with
  | None => (Err (error_of "Missing 'id' parameter"), w)
  | Some i =>
      match as_str (index input "status") with
      | None => (Err (error_of "Missing 'status' parameter"), w)
      | Some str =>
          match status_of str with
          | None => (Err (error_of ("Invalid status: '" +:+ str +:+ "'. Valid: pending, in_progress, completed, deleted")), w)
          | Some st =>
              let '(r, s) := update_status i st now (store w) in
              (match r with Ok t => Ok (to_string_pretty (task_json t)) | Err e => Err (error_of e) end, with_store s w)
          end
      end
  end.

Definition task_execute (session uuid : string) (now : Z) (input : Value) (w : TaskWorld) : result ToolError string * TaskWorld :=
  match as_str (index input "action") with
  | None => (Err (error_of "Missing 'action' parameter"), w)
  | Some action =>
      if String.eqb action "set_criteria" then execute_set_criteria session input w
      else if String.eqb action "check_criterion" then execute_check_criterion session input w
      else if String.eqb action "create" then execute_create uuid now input w
      else if String.eqb action "list" then (execute_list w, w)
      else if String.eqb action "get" then (execute_get input w, w)
      else if String.eqb action "update" then execute_update now input w
      else (Err (error_of ("Unknown action: '" +:+ action +:+ "'. Valid: create, list, get, update, set_criteria, check_criterion")), w)
  end.

(** ** The block of the prompt *)

Definition open_task (t : Task) : bool := match status t with Pending | InProgress => true | _ => false end.
Definition todo_line (t : Task) : string :=
  "- " +:+ (match status t with InProgress => "[>]" | _ => "[ ]" end) +:+ " " +:+ subject t.

Definition todo_hint : string :=
  "Update task status with the `task` tool as you make progress. Use `[ ]` for pending, `[>]` for in-progress, `[x]` for done.".

Definition build_todo_block (s : TaskStore) : string :=
  match list_tasks s with
  | Err _ => ""
  | Ok todos =>
      match List.filter open_task todos with
      | [] => ""
      | active => str_join nl ("## Current tasks" :: map todo_line active ++ [todo_hint])
      end
  end.
End Store.

(** ** Lemmas *)

(** What a task keeps for its lifetime. *)
Definition same_task (t t' : Task) : Prop :=
  id t' = id t /\ subject t' = subject t /\ description t' = description t /\ created_at t' = created_at t.

#[export] Instance same_task_preorder : PreOrder same_task.
Proof. split; [by intros t|]. intros a b c (?&?&?&?) (?&?&?&?). split_and!; congruence. Qed.

Lemma same_tasks_refl s : Forall2 same_task s s.
Proof. induction s; by constructor. Qed.

(** Every task stays where it is; new ones come after it. *)
Definition extends (s s' : TaskStore) : Prop := exists kept added, s' = (kept ++ added)%list /\ Forall2 same_task s kept.

#[export] Instance extends_preorder : PreOrder extends.
Proof.
  split.
  - intros s. exists s, []. split; [by rewrite app_nil_r|]. by apply same_tasks_refl.
  - intros a b c (k & n & -> & Hk) (k' & n' & -> & Hk'). apply Forall2_app_inv_l in Hk' as (k1 & k2 & H1 & H2 & ->).
    exists k1, (k2 ++ n')%list. split; [by rewrite app_assoc|]. by transitivity k.
Qed.

Record store_wf (s : TaskStore) : Prop := {
  wf_ids : NoDup (map id s);
  wf_len : length s <= MAX_TASKS
}.

Lemma same_ids s s' : Forall2 same_task s s' -> map id s' = map id s.
Proof. induction 1 as [|x y l k (E & _) _ IH]; [done|]. cbn. by rewrite E, IH. Qed.

Lemma create_ok poisoned uuid now subject description s : store_wf s -> uuid ∉ map id s ->
  let s' := snd (create poisoned uuid now subject description s) in
  store_wf s' /\ extends s s' /\ (s' = s \/ s' = (s ++ [new_task uuid now subject description])%list).
Proof.
  intros [Hn Hl] Hu. unfold create, lock. destruct poisoned; [cbn; split_and!; [done|done|by left]|].
  destruct (Nat.leb_spec MAX_TASKS (length s)); cbn [snd]; [split_and!; [done|done|by left]|].
  split_and!; [|exists s, [new_task uuid now subject description]; split; [done|by apply same_tasks_refl]|by right].
  split; [|rewrite length_app; cbn [length]; lia]. rewrite map_app. apply NoDup_app. split_and!; [done| |apply NoDup_singleton].
  intros i Hi ->%list_elem_of_singleton. done.
Qed.

Lemma update_ok poisoned i st now s : Forall2 same_task s (snd (update_status poisoned i st now s)).
Proof.
  unfold update_status, lock. destruct poisoned; [by apply same_tasks_refl|]. destruct (position _ s) as [p|]; [|by apply same_tasks_refl].
  destruct (s !! p) as [t|] eqn:E; [|by apply same_tasks_refl].
  cbn [snd]. apply Forall2_same_length_lookup. rewrite length_insert. split; [done|]. intros k x y Hx Hy.
  destruct (decide (p = k)) as [->|Hne].
  - rewrite list_lookup_insert_eq in Hy by (by eapply lookup_lt_Some). by simplify_eq.
  - rewrite list_lookup_insert_ne in Hy by done. by simplify_eq.
Qed.

Section Runs.
Context (lower : string -> string) (to_string_pretty : Value -> string).

(** A call: whether the lock is poisoned, the session, the fresh identifier,
    the time and the input. *)
Definition Call : Type := option string * string * string * Z * Value.
Definition call_uuid (c : Call) : string := match c with (_, _, uuid, _, _) => uuid end.
Definition run_call (w : TaskWorld) (c : Call) : TaskWorld :=
  match c with (poisoned, session, uuid, now, input) => snd (task_execute poisoned lower to_string_pretty session uuid now input w) end.
Definition run_calls (calls : list Call) (w : TaskWorld) : TaskWorld := foldl run_call w calls.

(** What a call may do to the store. *)
Lemma call_ok c w : store_wf (store w) -> call_uuid c ∉ map id (store w) ->
  store_wf (store (run_call w c)) /\ extends (store w) (store (run_call w c)) /\
  (forall i, i ∈ map id (store (run_call w c)) -> i ∈ map id (store w) \/ i = call_uuid c).
Proof.
  intros Hw Hu. destruct c as [[[[poisoned session] uuid] now] input]. cbn [call_uuid run_call] in *.
  assert (Hsame : store_wf (store w) /\ extends (store w) (store w) /\ (forall i, i ∈ map id (store w) -> i ∈ map id (store w) \/ i = uuid)) by (split_and!; [done|done|by left]).
  unfold task_execute. destruct (as_str _) as [action|]; [|done]. destruct (String.eqb action "set_criteria").
  { unfold execute_set_criteria. destruct (bus w); [|done]. destruct (as_array _); [|done]. by destruct (omap as_str _). }
  destruct (String.eqb action "check_criterion").
  { unfold execute_check_criterion. destruct (bus w); [|done]. destruct (as_str _); [|done]. by destruct (SessionBus.check_criterion _ _ _ _). }
  destruct (String.eqb action "create").
  { unfold execute_create. destruct (as_str _) as [subj|]; [|done].
    pose proof (create_ok poisoned uuid now subj (default "" (as_str (index input "description"))) (store w) Hw Hu) as (H1 & H2 & H3).
    destruct (create _ _ _ _ _ _) as [r s']. cbn [snd store with_store] in *. split_and!; [done|done|].
    destruct H3 as [-> | ->]; [by left|]. intros i. rewrite map_app, elem_of_app. cbn. rewrite list_elem_of_singleton. done. }
  destruct (String.eqb action "list"); [done|]. destruct (String.eqb action "get"); [done|]. destruct (String.eqb action "update"); [|done].
  unfold execute_update. destruct (as_str (index input "id")) as [i|]; [|done]. destruct (as_str _) as [str|]; [|done]. destruct (status_of _ _) as [st|]; [|done].
  pose proof (update_ok poisoned i st now (store w)) as H. destruct (update_status _ _ _ _ _) as [r s']. cbn [snd store with_store] in *.
  pose proof (same_ids _ _ H) as Hids. split_and!; [|by exists s', []; rewrite app_nil_r|rewrite Hids; by left].
  destruct Hw as [Hn Hl]. split; [by rewrite Hids|]. by rewrite <- (Forall2_length _ _ _ H).
Qed.

Lemma calls_ok calls w : store_wf (store w) -> NoDup (map call_uuid calls) -> (forall c, c ∈ calls -> call_uuid c ∉ map id (store w)) ->
  store_wf (store (run_calls calls w)) /\ extends (store w) (store (run_calls calls w)).
Proof.
  revert w. induction calls as [|c calls IH]; intros w Hw Hnd Hf; [by split|]. cbn [run_calls foldl].
  apply NoDup_cons in Hnd as [Hc Hnd]. destruct (call_ok c w Hw) as (H1 & H2 & H3); [apply Hf; left|].
  destruct (IH (run_call w c)) as [H4 H5]; [done|done| |split; [done|by etransitivity]].
  intros c' Hc' Hin. apply H3 in Hin as [Hin|E]; [by apply (Hf c'); [right|]|]. apply Hc. rewrite <- E. apply list_elem_of_fmap. by exists c'.
Qed.
End Runs.

(** ** Properties *)

(** The shared list of tasks.  Over any calls of the tool, from any sessions,
    with fresh identifiers, it never holds more than two hundred tasks, no two
    with the same identifier, and no task is ever removed, moved or given another
    subject, description or time of creation: only statuses and times of change
    do, and new tasks come last. *)
Theorem tasks_kept lower to_string_pretty calls w :
  store_wf (store w) -> NoDup (map call_uuid calls) -> (forall c, c ∈ calls -> call_uuid c ∉ map id (store w)) ->
  let w' := run_calls lower to_string_pretty calls w in
  length (store w') <= MAX_TASKS /\ NoDup (map id (store w')) /\ extends (store w) (store w').
Proof. intros Hw Hnd Hf. destruct (calls_ok lower to_string_pretty calls w Hw Hnd Hf) as [[? ?] ?]. by split_and!. Qed.

(** The block of the prompt.  It is empty without open tasks and otherwise
    lists exactly the pending and running tasks of all sessions, in the order of
    their creation, the running ones marked. *)
Theorem todo_block_spec s :
  build_todo_block None s =
  match omap (fun t => match status t with
                       | Pending => Some ("- [ ] " +:+ subject t)
                       | InProgress => Some ("- [>] " +:+ subject t)
                       | _ => None end) s with
  | [] => ""
  | ls => "## Current tasks" +:+ nl +:+ str_join nl ls +:+ nl +:+ todo_hint
  end.
Proof.
  unfold build_todo_block, list_tasks, lock.
  assert (H : omap (fun t => match status t with Pending => Some ("- [ ] " +:+ subject t) | InProgress => Some ("- [>] " +:+ subject t) | _ => None end) s =
              map todo_line (List.filter open_task s)).
  { rewrite omap_filter_map. apply omap_ext_in. intros t _. unfold open_task, todo_line. by destruct (status t). }
  rewrite H. destruct (List.filter open_task s) as [|t ts]; [done|]. rewrite join_cons by done.
  change (map todo_line (t :: ts) ++ [todo_hint])%list with ((map todo_line (t :: ts)) ++ [todo_hint])%list. rewrite (join_snoc nl (map todo_line (t :: ts))) by done. reflexivity.
Qed.

(** A deleted task keeps its place: once two hundred tasks have been created, no
    session can create another, whatever was deleted or completed. *)
Lemma deleted_tasks_fill_store lower to_string_pretty calls uuid now subject description w :
  length (store w) = MAX_TASKS -> store_wf (store w) -> NoDup (map call_uuid calls) -> (forall c, c ∈ calls -> call_uuid c ∉ map id (store w)) ->
  fst (create None uuid now subject description (store (run_calls lower to_string_pretty calls w))) = Err "Max 200 tasks reached".
Proof.
  intros Hfull Hw Hnd Hf. destruct (calls_ok lower to_string_pretty calls w Hw Hnd Hf) as [_ (k & n & E & Hk)].
  apply Forall2_length in Hk. unfold create, lock. rewrite E, length_app.
  destruct (Nat.leb_spec MAX_TASKS (length k + length n)); [done|lia].
Qed.

Definition world0 : TaskWorld := {| store := []; bus := Some SessionBus.SessionBus_new |}.
Definition calls0 : list Call :=
  [(None, "s", "u1", 1%Z, Obj [("action", Str "create"); ("subject", Str "write")]);
   (None, "t", "u2", 2%Z, Obj [("action", Str "create"); ("subject", Str "test")]);
   (None, "s", "u3", 3%Z, Obj [("action", Str "update"); ("id", Str "u1"); ("status", Str "deleted")])].

Lemma tasks_kept_witness : length (store (run_calls (fun s => s) (fun _ => "") calls0 world0)) = 2 /\
  length (store (run_calls (fun s => s) (fun _ => "") calls0 world0)) <= MAX_TASKS.
Proof.
  split; [vm_compute; reflexivity|]. apply (tasks_kept (fun s => s) (fun _ => "") calls0 world0).
  - split; [constructor|cbn; lia].
  - apply (bool_decide_eq_true_1 (NoDup _)). vm_compute. reflexivity.
  - intros c _. apply not_elem_of_nil.
Defined.

Example open_block : build_todo_block None (store (run_calls (fun s => s) (fun _ => "") calls0 world0)) = "## Current tasks" +:+ nl +:+ "- [ ] test" +:+ nl +:+ todo_hint.
Proof. reflexivity. Qed.
