(* ===== verification/Prompt.v ===== *)
(** * The system prompt

    src/kernel/src/plates/tian_heaven/mod.rs (the stable and the dynamic segment,
    the character file) and loop_prompt.rs (the identity, the whole prompt), over
    the registries of tools and skills, the table of seeds and the task list.
    Iteration order of hash maps, the orders SQLite leaves open, descriptions and
    schemas of tools, glob patterns and JSON are arguments. *)

From S2P Require Import Prelude RString Utf8 Float Json Path GeJu Files Seeds Graph.
From S2P Require Tool Skills Tasks Provider Dispatch.
Import Dispatch (InteractionMode, Auto, Plan).
Local Open Scope string_scope.
#[local] Arguments String.append !_ _ : simpl nomatch.

(** ** State *)

(** What all agents share. [None] is a poisoned lock on the skills. *)
Record Earth (P : Type) := {
  e_tools : Tool.ToolRegistry;
  e_skills : option (Skills.SkillRegistry P);
  e_seeds : SeedTable;
  e_tasks : list Tasks.Task;
  e_tasks_poisoned : option string;
  e_workspace : string -> option string;
  e_data_dir : string
}.
Arguments e_tools {P} _.
Arguments e_skills {P} _.
Arguments e_seeds {P} _.
Arguments e_tasks {P} _.
Arguments e_tasks_poisoned {P} _.
Arguments e_workspace {P} _ _.
Arguments e_data_dir {P} _.

(** The fields of an agent the prompt reads. *)
Record Agent := {
  a_id : string;
  a_ephemeral : bool;
  a_ren_soul : option string;
  a_atma_graha : spec_float;
  a_turn_count : Z;
  a_mode : InteractionMode;
  a_activated : list string;
  a_tools_override : option Tool.ToolRegistry;
  a_touched : list string
}.

Definition touch (ids : list string) (a : Agent) : Agent :=
  {| a_id := a_id a; a_ephemeral := a_ephemeral a; a_ren_soul := a_ren_soul a; a_atma_graha := a_atma_graha a;
     a_turn_count := a_turn_count a; a_mode := a_mode a; a_activated := a_activated a; a_tools_override := a_tools_override a;
     a_touched := (a_touched a ++ ids)%list |}.
Definition set_ren_soul (s : option string) (a : Agent) : Agent :=
  {| a_id := a_id a; a_ephemeral := a_ephemeral a; a_ren_soul := s; a_atma_graha := a_atma_graha a;
     a_turn_count := a_turn_count a; a_mode := a_mode a; a_activated := a_activated a; a_tools_override := a_tools_override a;
     a_touched := a_touched a |}.

(** [Agent::for_subagent]: the identity in the place of the character, its own
    tools, no memory; [manas] is that of a new mind. *)
Definition for_subagent (manas : spec_float) (id : string) (tools : Tool.ToolRegistry) (identity : string) : Agent :=
  {| a_id := id; a_ephemeral := true; a_ren_soul := Some identity; a_atma_graha := manas; a_turn_count := 0; a_mode := Auto;
     a_activated := []; a_tools_override := Some tools; a_touched := [] |}.

Record SystemPrompt := { stable : string; dynamic : string }.

(** What a provider without a breakpoint sends. *)
Definition full_prompt (p : SystemPrompt) : string :=
  if is_empty_str (dynamic p) then stable p else stable p +:+ nl +:+ nl +:+ dynamic p.

(** ** The identity *)

Definition DEFAULT_IDENTITY : string :=
  "You are Jia, Just Intelligence Agent (正是智能体) with access to tools. You can call tools using <tool_call> tags. After receiving tool results, continue reasoning to help the user.".

(** [atma_graha >= 0.60]. *)
Definition attached (a : Agent) : bool := fgeb (a_atma_graha a) (F32.lit 60 100).

Definition build_ren_prompt (a : Agent) : string :=
  match a_ren_soul a with
  | None => DEFAULT_IDENTITY
  | Some ren =>
      if a_ephemeral a then ren
      else if attached a then ren +:+ nl +:+ nl +:+ "Embody these values. Stay close to them." else ren
  end.

Section Prompt.
Context {P : Type}.
Context (tool_iter : gmap string Tool.BaseTool -> list (string * Tool.BaseTool)) (iter : forall A, gmap string A -> list (string * A)).
Context (description : Tool.BaseTool -> string) (schema_text : Tool.BaseTool -> string).

(** ** The stable segment *)

Definition tools_of (a : Agent) (e : Earth P) : Tool.ToolRegistry := default (e_tools e) (a_tools_override a).

Definition described_tools (r : Tool.ToolRegistry) : list Tool.BaseTool :=
  let has_external := match Tool.list_external tool_iter r with [] => false | _ => true end in
  List.filter (fun t => negb (String.eqb (Tool.t_name t) "toolsearch") || has_external) (Tool.list_core tool_iter r).

Definition tool_entry (t : Tool.BaseTool) : string :=
  "### " +:+ Tool.t_name t +:+ nl +:+ description t +:+ nl +:+ "Parameters: " +:+ schema_text t +:+ nl +:+ nl.

Definition tools_section (use_native : bool) (r : Tool.ToolRegistry) : string :=
  match described_tools r with
  | [] => ""
  | tools =>
      if use_native then
        nl +:+ nl +:+ "## Available Tools" +:+ nl +:+ nl +:+ str_join ", " (map Tool.t_name tools) +:+ nl +:+ nl +:+
        "Use the provided function calling / tool use API to invoke these tools." +:+ nl +:+ nl
      else
        nl +:+ nl +:+ "## Available Tools" +:+ nl +:+ nl +:+
        "You have access to the following tools. To use a tool, include a tool call block in your response using this exact format:" +:+ nl +:+ nl +:+
        "<tool_call>" +:+ nl +:+ replace_str "{'tool': 'tool_name', 'parameters': {...}}" "'" dq +:+ nl +:+ "</tool_call>" +:+ nl +:+ nl +:+
        "CRITICAL: Always wrap tool calls in <tool_call>...</tool_call> tags. Never use bare XML tags like <tool_name>...</tool_name>." +:+ nl +:+ nl +:+
        "You may call multiple tools. After receiving tool results, continue reasoning." +:+ nl +:+ nl +:+
        concat_str (map tool_entry tools)
  end.

Definition skill_entry (s : Skills.Skill P) : string :=
  "### " +:+ Skills.name s +:+ nl +:+ Skills.prompt s +:+ nl +:+
  match Skills.emphasis s with
  | Some emph => nl +:+ "**Critical Reminder (follow with special attention):**" +:+ nl +:+ emph +:+ nl
  | None => ""
  end +:+ nl.

Definition always_section (r : Skills.SkillRegistry P) : string :=
  match List.filter Skills.always (Skills.list_all iter r) with
  | [] => ""
  | skills => nl +:+ nl +:+ "## Always-Active Skills" +:+ nl +:+ nl +:+ concat_str (map skill_entry skills)
  end.

Definition build_stable_prompt (use_native : bool) (a : Agent) (e : Earth P) : string :=
  tools_section use_native (tools_of a e) +:+
  (if a_ephemeral a then "" else match e_skills e with Some r => always_section r | None => "" end).

(** ** The dynamic segment *)

Definition activated_section (a : Agent) (e : Earth P) : string :=
  match e_skills e, a_activated a with
  | Some r, _ :: _ =>
      nl +:+ nl +:+ "## Context-Activated Skills" +:+ nl +:+ nl +:+ concat_str (map skill_entry (omap (Skills.registry_get r) (a_activated a)))
  | _, _ => ""
  end.

Context (from_str : string -> option Value) (reread : spec_float -> spec_float).
Context (strongest_first recent_first : list SeedRow -> list SeedRow) (strongest_by : (SeedRow -> spec_float) -> list SeedRow -> list SeedRow).

(** [GROUP BY tier, nature], in the order of the rows. *)
Definition catalog_stats (t : SeedTable) : list (string * string * nat) :=
  let keys := remove_dups (map (fun r => (r_tier r, r_nature r)) (rows t)) in
  map (fun k => (k, length (List.filter (fun r => bool_decide ((r_tier r, r_nature r) = k)) (rows t)))) keys.

Definition catalog (t : SeedTable) : string * list string :=
  memory_catalog (catalog_stats t) (omap (load_row from_str reread) (load_always_seeds strongest_first t)).

(** Whether the top seeds are shown: memory is trusted, or the session young. *)
Definition shows_seeds (a : Agent) : bool := fltb (a_atma_graha a) (F32.lit 60 100) || (a_turn_count a <=? 3)%Z.

Definition build_dynamic_prompt (a : Agent) (e : Earth P) : string * Agent :=
  let '(cat, always_ids) := catalog (e_seeds e) in
  let prompt := activated_section a e +:+ profile_prompt from_str reread recent_first (e_seeds e) +:+ cat in
  let a := touch always_ids a in
  if shows_seeds a then
    let '(seed_prompt, seed_ids) := top_influence_prompt_with_bias from_str reread strongest_by 5 (e_workspace e (a_id a)) (e_seeds e) in
    (prompt +:+ seed_prompt, touch seed_ids a)
  else (prompt, a).

(** ** The whole prompt *)

Definition subagent_plan_notice : string :=
  "【只读子代理】你只能使用只读工具。变更类工具会被门禁拒绝；需要用户确认的工具调用同样会被拒绝（子代理无法询问）。遇到拒绝不要重试，改用只读方式继续，或在最终报告中如实说明限制。".
Definition subagent_notice : string :=
  "【子代理】你无法向用户提问或请求确认。需要确认的工具调用会被门禁拒绝；遇到拒绝不要重试，换用其他方式完成，或在最终报告中如实说明限制。".
Definition plan_notice : string :=
  "【plan mode】当前为只读计划模式：可探查代码、设计方案，但不得写文件或执行变更类工具。完成方案后调用 exit_plan_mode 提交待审。".

(** A part on lines of its own after what is there. *)
Definition append_part (text part : string) : string :=
  if is_empty_str text then part else text +:+ nl +:+ nl +:+ part.

Definition build_system_prompt (provider_kind : string) (a : Agent) (e : Earth P) : SystemPrompt * Agent :=
  let stable := build_ren_prompt a +:+ build_stable_prompt (Provider.use_native_tools provider_kind) a e in
  if a_ephemeral a then
    ({| stable := stable; dynamic := match a_mode a with Plan => subagent_plan_notice | Auto => subagent_notice end |}, a)
  else
    let '(d, a') := build_dynamic_prompt a e in
    let d := match a_mode a with Plan => append_part d plan_notice | Auto => d end in
    let todo := Tasks.build_todo_block (e_tasks_poisoned e) (e_tasks e) in
    let d := if is_empty_str todo then d else append_part d todo in
    ({| stable := stable; dynamic := d |}, a').
End Prompt.

(** ** The character file *)

Definition DEFAULT_REN_SOUL : string := str_join nl
  ["<!--"; "ren_soul.md — Jia's character file."; "Define who Jia is and how Jia should behave.";
   "Edit freely. Changes take effect on next session."; "";
   "Jia's identity is not a fixed soul — it is 仁 (rén),"; "a cultivated way of being. Plant the seed here."; "-->";
   "You are Jia (甲), Just Intelligence Agent (正是智能体)."; "Be attentive, truthful, and serve with sincerity."; "";
   "## 信 (Trustworthiness) — Four Covenants"; "";
   "1. **未读不改** — Never edit or patch a file you have not read in this session."; "If you plan to modify a file, read it first."; "";
   "2. **完成前验证** — Before claiming a task is complete, verify it works."; "Run the tests, execute the script, or check the output.";
   replace_str "Never say 'all tests passed' unless you have actually run them and seen the output." "'" dq; "";
   "3. **如实报告失败** — Report failures truthfully."; "If a command fails, show the error. If tests don't pass, say so.";
   "Never claim success when the output shows failure."; "";
   "4. **不做分外事** — Do only what is asked."; "If you notice unrelated issues, mention them but don't fix them without asking."; "Stay focused on the task at hand."].

Section RenSoul.
Context (from_str : string -> option Value) (to_string : Value -> string) (printed : spec_float -> spec_float).
Context {FS : Type} `{FileSystem FS}.

Definition ren_soul_seed (now : Z) (text : string) : Seed :=
  {| sd_id := "ren_soul_root"; sd_session := "_jia_system"; sd_workspace := ""; sd_nature := Preference; sd_source := RenSoul;
     sd_content := FreeText text; sd_palace := Zhong; sd_stem := Wu; sd_geju_key := "ren_soul"; sd_created_at := now;
     sd_access_count := 0; sd_last_accessed_at := now; sd_strength := F32.of_Z 1; sd_tier := Always |}.

(** [read_to_string], trimmed, when there is anything. *)
Definition soul_text (fs : FS) (path : string) : option string :=
  match fs_read fs path with
  | Ok bytes => if is_utf8 bytes then (let s := trim bytes in if is_empty_str s then None else Some s) else None
  | Err _ => None
  end.

(** [deleted] and [inserted]: whether the database takes the changes. *)
Definition plant_ren_soul (deleted inserted : bool) (now : Z) (text : string) (t : SeedTable) : SeedTable :=
  let t := if deleted then delete_seeds ["ren_soul_root"] t else t in
  if inserted then insert_seed from_str to_string (seed_json printed (ren_soul_seed now text)) t else t.

Definition load_ren_soul (deleted inserted : bool) (now : Z) (data_dir : string) (fs : FS) (a : Agent) (t : SeedTable) : FS * Agent * SeedTable :=
  let path := path_join data_dir "ren_soul.md" in
  let fs := if fs_exists fs path then fs else snd (fs_write path DEFAULT_REN_SOUL fs) in
  let content := soul_text fs path in
  (fs, set_ren_soul content a, match content with Some text => plant_ren_soul deleted inserted now text t | None => t end).
End RenSoul.

(** ** Lemmas *)

Section Facts.
Context {P : Type} (tool_iter : gmap string Tool.BaseTool -> list (string * Tool.BaseTool)).
Context (Htools : forall m, tool_iter m ≡ₚ map_to_list m).

Lemma core_tool r t : t ∈ Tool.list_core tool_iter r <-> exists n, Tool.tools r !! n = Some t /\ n ∉ Tool.external r.
Proof.
  unfold Tool.list_core. rewrite list_elem_of_fmap. split.
  - intros ([n t'] & -> & Hin). apply elem_of_Lfilter in Hin as [Hin Hn]. rewrite Htools in Hin. apply elem_of_map_to_list in Hin.
    exists n. split; [done|]. cbn in Hn. apply negb_true_iff, bool_decide_eq_false in Hn. done.
  - intros (n & Hl & Hn). exists (n, t). split; [done|]. apply elem_of_Lfilter. rewrite Htools. split; [by apply elem_of_map_to_list|].
    cbn. by apply negb_true_iff, bool_decide_eq_false.
Qed.

Lemma external_tool r : Tool.list_external tool_iter r <> [] <-> exists n t, Tool.tools r !! n = Some t /\ n ∈ Tool.external r.
Proof.
  unfold Tool.list_external. split.
  - intros Hne. destruct (List.filter _ _) as [|[n t] l] eqn:E; [done|].
    assert (Hin : (n, t) ∈ (n, t) :: l) by left. rewrite <- E in Hin. apply elem_of_Lfilter in Hin as [Hin Hx]. rewrite Htools in Hin.
    apply elem_of_map_to_list in Hin. exists n, t. split; [done|]. by apply bool_decide_eq_true in Hx.
  - intros (n & t & Hl & Hx) E. apply map_eq_nil in E. assert (Hin : (n, t) ∈ List.filter (fun e => Tool.is_external (fst e) r) (tool_iter (Tool.tools r))).
    { apply elem_of_Lfilter. rewrite Htools. split; [by apply elem_of_map_to_list|by apply bool_decide_eq_true]. }
    rewrite E in Hin. by apply elem_of_nil in Hin.
Qed.
End Facts.

(** What the stable segment is made from. *)
Record StableInputs (P : Type) := {
  si_ren : option string;
  si_ephemeral : bool;
  si_attached : bool;
  si_tools : Tool.ToolRegistry;
  si_always : option (list (Skills.Skill P))
}.
Definition stable_inputs {P} (iter : forall A, gmap string A -> list (string * A)) (a : Agent) (e : Earth P) : StableInputs P :=
  {| si_ren := a_ren_soul a; si_ephemeral := a_ephemeral a; si_attached := attached a; si_tools := tools_of a e;
     si_always := (fun r => List.filter Skills.always (Skills.list_all iter r)) <$> e_skills e |}.

(** ** Properties *)

(** The stable segment can be cached.  Two prompts for the same provider have
    the same stable segment whenever the character, the side of the attachment
    threshold, the tools and the skills that are always on are the same: seeds,
    profile, tasks, mode, turn, session and skills activated by path do not
    matter. *)
Theorem stable_segment_cached {P} tool_iter iter description schema from_str reread strongest recent by_ kind (a a' : Agent) (e e' : Earth P) :
  stable_inputs iter a e = stable_inputs iter a' e' ->
  stable (fst (build_system_prompt tool_iter iter description schema from_str reread strongest recent by_ kind a e)) =
  stable (fst (build_system_prompt tool_iter iter description schema from_str reread strongest recent by_ kind a' e')).
Proof.
  intros [= Hren Heph Hatt Htools Halways].
  assert (Hs : forall a (e : Earth P), stable (fst (build_system_prompt tool_iter iter description schema from_str reread strongest recent by_ kind a e)) =
    build_ren_prompt a +:+ build_stable_prompt tool_iter iter description schema (Provider.use_native_tools kind) a e).
  { intros a0 e0. unfold build_system_prompt. destruct (a_ephemeral a0); [done|]. by destruct (build_dynamic_prompt _ _ _ _ _ a0 e0). }
  rewrite !Hs. unfold build_ren_prompt, build_stable_prompt, always_section. rewrite Hren, Heph, Hatt, Htools. do 2 f_equal.
  destruct (a_ephemeral a'); [done|]. destruct (e_skills e), (e_skills e'); try done. injection Halways as ->. done.
Qed.

(** A sub-agent's prompt shows nothing of the user.  It is the identity, the
    tools it was given and one of two notices by its mode, whatever skills, seeds,
    profile and tasks there are, and it counts no seed as used. *)
Theorem subagent_prompt_isolated {P} tool_iter iter description schema from_str reread strongest recent by_ kind (e : Earth P) a identity tools :
  a_ephemeral a = true -> a_ren_soul a = Some identity -> a_tools_override a = Some tools ->
  build_system_prompt tool_iter iter description schema from_str reread strongest recent by_ kind a e =
  ({| stable := identity +:+ tools_section tool_iter description schema (Provider.use_native_tools kind) tools;
      dynamic := match a_mode a with Plan => subagent_plan_notice | Auto => subagent_notice end |}, a).
Proof.
  intros He Hi Ht. unfold build_system_prompt, build_stable_prompt, build_ren_prompt, tools_of. rewrite He, Hi, Ht. cbn [default].
  by rewrite app_nil_r_str.
Qed.

(** What the prompt describes.  In a registry that files tools under their
    names, a tool is described exactly if it is registered, does not come from
    outside, and, for the search of tools, some tool from outside is registered. *)
Theorem described_tools_spec tool_iter r t : (forall m, tool_iter m ≡ₚ map_to_list m) -> Tool.registry_wf r ->
  t ∈ described_tools tool_iter r <->
  Tool.tools r !! Tool.t_name t = Some t /\ Tool.t_name t ∉ Tool.external r /\
  (Tool.t_name t = "toolsearch" -> exists n x, Tool.tools r !! n = Some x /\ n ∈ Tool.external r).
Proof.
  intros Hit Hwf. unfold described_tools. rewrite elem_of_Lfilter, (core_tool tool_iter Hit), <- (external_tool tool_iter Hit).
  assert (Hname : (exists n, Tool.tools r !! n = Some t /\ n ∉ Tool.external r) <-> Tool.tools r !! Tool.t_name t = Some t /\ Tool.t_name t ∉ Tool.external r).
  { split; [|by exists (Tool.t_name t)]. intros (n & Hl & Hn). by rewrite (Hwf n t Hl). }
  rewrite Hname, orb_true_iff, negb_true_iff, String.eqb_neq. destruct (Tool.list_external tool_iter r); split.
  - intros [[? ?] [?|?]]; split_and!; done.
  - intros (? & ? & Hx). split; [done|]. left. intros Hs. by apply (Hx Hs).
  - intros [[? ?] _]. split_and!; done.
  - intros (? & ? & _). split; [done|by right].
Qed.

(** Which seeds a prompt uses.  Building it marks as used the identifiers of
    the first-tier seeds listed in the catalog, and those of the top five seeds
    exactly when they are shown: in the first three turns, or while attachment is
    below the threshold. *)
Theorem prompt_touches {P} tool_iter iter description schema from_str reread strongest recent by_ kind (a : Agent) (e : Earth P) :
  a_ephemeral a = false ->
  let shown := if shows_seeds a then default [] (load_typed from_str reread (load_top_seeds by_ 5 (e_workspace e (a_id a)) (e_seeds e))) else [] in
  let always := omap (load_row from_str reread) (load_always_seeds strongest (e_seeds e)) in
  snd (build_system_prompt tool_iter iter description schema from_str reread strongest recent by_ kind a e) = touch (map sd_id (always ++ shown)) a.
Proof.
  intros He shown always. unfold build_system_prompt. rewrite He.
  assert (Hd : snd (build_dynamic_prompt from_str reread strongest recent by_ a e) = touch (map sd_id (always ++ shown)) a).
  { unfold build_dynamic_prompt. cbn [catalog memory_catalog fst snd]. fold always. unfold shown, shows_seeds. cbn [touch a_atma_graha a_turn_count a_id].
    destruct (_ || _); [|by rewrite app_nil_r]. unfold top_influence_prompt_with_bias. rewrite map_app.
    destruct (load_typed _ _ _) as [[|s l]|]; cbn [influence_prompt default snd map]; unfold touch; cbn; by rewrite ?app_nil_r, ?app_assoc. }
  destruct (build_dynamic_prompt _ _ _ _ _ a e) as [d a']. exact Hd.
Qed.

(** Planting the character.  When the file has text, the agent's character is
    that text without blanks around it, and the table then has exactly one row of
    the character's identifier, a protected seed of the first tier with this
    text; every other row stays.  Without text the table is left as it is. *)
Theorem ren_soul_planted from_str to_string printed reread {FS} `{FileSystem FS} now data_dir (fs : FS) a t :
  (forall s, from_str (to_string (content_json (FreeText s))) = Some (content_json (FreeText s))) ->
  to_f32 (reread (printed (F32.of_Z 1))) = F32.of_Z 1 -> (- 2 ^ 63 <= now < 2 ^ 63)%Z ->
  let '(fs', a', t') := load_ren_soul from_str to_string printed true true now data_dir fs a t in
  a_ren_soul a' = soul_text fs' (path_join data_dir "ren_soul.md") /\
  match a_ren_soul a' with
  | None => t' = t
  | Some text => exists r, rows t' = (List.filter (fun r => negb (String.eqb (r_id r) "ren_soul_root")) (rows t) ++ [r])%list /\
                           load_row from_str reread r = Some (ren_soul_seed now text) /\ r_id r = "ren_soul_root" /\ prot_row r = true
  end.
Proof.
  intros Hjson Hnum Hnow. unfold load_ren_soul. set (fs' := if fs_exists fs _ then _ else _). split; [done|]. cbn [a_ren_soul set_ren_soul].
  destruct (soul_text fs' _) as [text|]; [|done]. unfold plant_ren_soul, insert_seed. cbn [rows].
  set (r := row_of_json _ _ _). assert (Hr : load_row from_str reread r = Some (ren_soul_seed now text)) by (apply load_row_of; [split_and!; cbn; lia|apply Hjson|done]).
  destruct (delete_seeds_rows ["ren_soul_root"] t) as [-> _]. rewrite bool_decide_eq_false_2.
  - exists r. split_and!; [|done|done|by rewrite <- (is_prot_row _ _ _ _ Hr)]. f_equal. apply filter_ext. intros x. f_equal.
    destruct (String.eqb_spec (r_id x) "ren_soul_root") as [E|E]; [apply bool_decide_eq_true; rewrite E; left|apply bool_decide_eq_false; set_solver].
  - intros Hin. apply list_elem_of_fmap in Hin as (x & E & Hx). apply elem_of_Lfilter in Hx as [_ Hx]. apply negb_true_iff, bool_decide_eq_false in Hx.
    apply Hx. rewrite <- E. left.
Qed.

(** ** Concrete runs *)

Definition skills1 : Skills.SkillRegistry string := Skills.register Skills.skill0 Skills.SkillRegistry_new.
Definition earth1 (t : SeedTable) (skills : option (Skills.SkillRegistry string)) : Earth string :=
  {| e_tools := Tool.sample_registry; e_skills := skills; e_seeds := t; e_tasks := []; e_tasks_poisoned := None; e_workspace := fun _ => None; e_data_dir := "/d" |}.
Definition agent1 (atma : spec_float) (turn : Z) : Agent :=
  {| a_id := "s"; a_ephemeral := false; a_ren_soul := Some "I am Jia."; a_atma_graha := atma; a_turn_count := turn; a_mode := Auto;
     a_activated := ["gone"]; a_tools_override := None; a_touched := [] |}.
Definition iter1 : forall A, gmap string A -> list (string * A) := fun A m => map_to_list m.
Definition prompt1 (a : Agent) (e : Earth string) : SystemPrompt * Agent :=
  build_system_prompt map_to_list iter1 (fun _ => "does things") (fun _ => "{}") text_parse (fun x => x) (fun l => l) (fun l => l) (fun _ l => l) "openai" a e.

Lemma stable_segment_cached_witness :
  stable (fst (prompt1 (agent1 (F32.of_Z 0) 1) (earth1 empty_table (Some skills1)))) =
  stable (fst (prompt1 (agent1 (F32.lit 1 2) 9) (earth1 demo_table (Some skills1)))).
Proof. apply stable_segment_cached. vm_compute. reflexivity. Defined.

Lemma subagent_prompt_isolated_witness :
  prompt1 (for_subagent (F32.of_Z 0) "c" Tool.ToolRegistry_new "You review.") (earth1 demo_table (Some skills1)) =
  ({| stable := "You review."; dynamic := subagent_notice |}, for_subagent (F32.of_Z 0) "c" Tool.ToolRegistry_new "You review.").
Proof.
  unfold prompt1. rewrite (subagent_prompt_isolated _ _ _ _ _ _ _ _ _ _ _ _ "You review." Tool.ToolRegistry_new); [reflexivity|reflexivity|reflexivity|reflexivity].
Defined.

Lemma described_tools_spec_witness : Tool.read_tool ∈ described_tools map_to_list Tool.sample_registry.
Proof.
  apply (described_tools_spec map_to_list Tool.sample_registry Tool.read_tool (fun m => reflexivity _)).
  - by apply Tool.register_wf, Tool.register_wf, Tool.register_wf.
  - split; [vm_compute; reflexivity|]. split; [apply not_elem_of_empty|]. intros H. discriminate H.
Defined.

Definition always_row : SeedRow := with_tier "Always" (demo_row "UserStatement" (F64.of_Z 1) 7).
Lemma prompt_touches_witness :
  a_touched (snd (prompt1 (agent1 (F32.of_Z 1) 9) (earth1 {| rows := [always_row]; fts := [] |} None))) = ["7"].
Proof. unfold prompt1. rewrite prompt_touches by reflexivity. vm_compute. reflexivity. Defined.

Definition soul_fs (text : string) : MemFs := mem_put "/d/ren_soul.md" text {| mem_files := ∅; mem_dirs := ∅; clock := 0 |}.
Definition load_soul (text : string) (t : SeedTable) : MemFs * Agent * SeedTable :=
  load_ren_soul text_parse text_print to_f64 true true 5 "/d" (soul_fs text) (agent1 (F32.of_Z 0) 1) t.

Lemma ren_soul_planted_witness : exists r, rows (snd (load_soul " Be kind. " empty_table)) = [r] /\ r_content_json r = "Be kind.".
Proof.
  pose proof (ren_soul_planted text_parse text_print to_f64 (fun x => x) 5 "/d" (soul_fs " Be kind. ") (agent1 (F32.of_Z 0) 1) empty_table
    (fun s => eq_refl) ltac:(vm_compute; reflexivity) ltac:(lia)) as H.
  change (load_ren_soul _ _ _ _ _ _ _ _ _ _) with (load_soul " Be kind. " empty_table) in H.
  destruct (load_soul " Be kind. " empty_table) as [[f a] t] eqn:E. vm_compute in E. injection E as <- <- <-. destruct H as [_ (r & Hr & _)].
  exists r. split; [exact Hr|]. vm_compute in Hr. injection Hr as <-. reflexivity.
Defined.

(** The heading of the activated skills is written when none of them is there
    any more. *)
Example heading_without_skills :
  activated_section (agent1 (F32.of_Z 0) 1) (earth1 empty_table (Some skills1)) = nl +:+ nl +:+ "## Context-Activated Skills" +:+ nl +:+ nl.
Proof. vm_compute. reflexivity. Qed.

(** The identity is part of the stable segment and changes when attachment
    crosses its threshold. *)
Example attachment_changes_stable_segment :
  stable (fst (prompt1 (agent1 (F32.lit 60 100) 9) (earth1 empty_table None))) <> stable (fst (prompt1 (agent1 (F32.lit 59 100) 9) (earth1 empty_table None))).
Proof. vm_compute. discriminate. Qed.

(** A file that has been emptied takes the character from the agent and leaves
    the planted seed. *)
Example emptied_character_stays_planted :
  let t := snd (load_soul "Be kind." empty_table) in
  let '(_, a, t') := load_soul " " t in a_ren_soul a = None /\ map r_content_json (rows t') = ["Be kind."].
Proof. vm_compute. split; reflexivity. Qed.
