(* ===== verification/Sessions.v ===== *)
(** * Sessions and workspaces

    src/kernel/src/palaces/gen_store/: the tables of sessions (sessions.rs,
    helpers.rs), of workspaces (workspaces.rs), of kept sub-agent sessions and the
    versions of the schema (mod.rs), the self-model and its history (manas.rs);
    and the HTTP handlers of workspaces (dui_gateway/workspaces.rs).  A table is
    the list of its rows; a statement that would break a key of a table fails, a
    transaction that fails leaves the database alone, and references between
    tables are checked where SQLite checks them.  Of serde_json the decoder and the
    printer, and of SQLite the order among equal keys, are arguments. *)

From Stdlib Require Import Sorted Ascii.
From stdpp Require Import sorting.
From S2P Require Import Prelude Update RString Float Json Path Files Mind Principles Seeds Zuowang.
From S2P Require Gateway Rin Graph Compaction.
Local Open Scope string_scope.
Local Open Scope update_scope.
#[local] Arguments String.append !_ _ : simpl nomatch.

(** ** The tables *)

Record Session := {
  s_id : string;
  s_messages : string;
  s_updated_at : Z;
  s_title : option string;
  s_hashes : string;
  s_archived : Z;
  s_cwd : string;
  s_workspace : option string
}.

Record Workspace := {
  w_id : string;
  w_cwd : string;
  w_name : string;
  w_description : string;
  w_tags : string;
  w_archived : Z;
  w_created_at : Z;
  w_updated_at : Z
}.

Record SubagentSession := {
  ss_id : string;
  ss_messages : string;
  ss_type : string;
  ss_created_at : Z;
  ss_last_used : Z
}.

Record Database := {
  sessions : list Session;
  workspaces : list Workspace;
  seeds : SeedTable;
  principles : list PrincipleRow;
  subagents : list SubagentSession
}.

Definition Session_eta (s : Session) : Session :=
  {| s_id := s_id s; s_messages := s_messages s; s_updated_at := s_updated_at s; s_title := s_title s; s_hashes := s_hashes s;
     s_archived := s_archived s; s_cwd := s_cwd s; s_workspace := s_workspace s |}.
#[export] Instance set_s_messages : Setter s_messages. Proof. derive_setter Session_eta. Defined.
#[export] Instance set_s_updated_at : Setter s_updated_at. Proof. derive_setter Session_eta. Defined.
#[export] Instance set_s_title : Setter s_title. Proof. derive_setter Session_eta. Defined.
#[export] Instance set_s_hashes : Setter s_hashes. Proof. derive_setter Session_eta. Defined.
#[export] Instance set_s_archived : Setter s_archived. Proof. derive_setter Session_eta. Defined.
#[export] Instance set_s_workspace : Setter s_workspace. Proof. derive_setter Session_eta. Defined.

Definition Workspace_eta (w : Workspace) : Workspace :=
  {| w_id := w_id w; w_cwd := w_cwd w; w_name := w_name w; w_description := w_description w; w_tags := w_tags w;
     w_archived := w_archived w; w_created_at := w_created_at w; w_updated_at := w_updated_at w |}.
#[export] Instance set_w_id : Setter w_id. Proof. derive_setter Workspace_eta. Defined.
#[export] Instance set_w_cwd : Setter w_cwd. Proof. derive_setter Workspace_eta. Defined.
#[export] Instance set_w_name : Setter w_name. Proof. derive_setter Workspace_eta. Defined.
#[export] Instance set_w_description : Setter w_description. Proof. derive_setter Workspace_eta. Defined.
#[export] Instance set_w_tags : Setter w_tags. Proof. derive_setter Workspace_eta. Defined.
#[export] Instance set_w_archived : Setter w_archived. Proof. derive_setter Workspace_eta. Defined.
#[export] Instance set_w_updated_at : Setter w_updated_at. Proof. derive_setter Workspace_eta. Defined.

Definition Database_eta (d : Database) : Database :=
  {| sessions := sessions d; workspaces := workspaces d; seeds := seeds d; principles := principles d; subagents := subagents d |}.
#[export] Instance set_sessions : Setter sessions. Proof. derive_setter Database_eta. Defined.
#[export] Instance set_workspaces : Setter workspaces. Proof. derive_setter Database_eta. Defined.
#[export] Instance set_seeds : Setter seeds. Proof. derive_setter Database_eta. Defined.
#[export] Instance set_principles : Setter principles. Proof. derive_setter Database_eta. Defined.
#[export] Instance set_subagents : Setter subagents. Proof. derive_setter Database_eta. Defined.

Definition empty_database : Database :=
  {| sessions := []; workspaces := []; seeds := {| rows := []; fts := [] |}; principles := []; subagents := [] |}.

(** [UPDATE ... SET f WHERE p], and the rows it counts. *)
Definition update_where {A} (p : A -> bool) (f : A -> A) (l : list A) : list A := map (fun x => if p x then f x else x) l.
Definition delete_where {A} (p : A -> bool) (l : list A) : list A := List.filter (fun x => negb (p x)) l.
Definition changed {A} (p : A -> bool) (l : list A) : nat := length (List.filter p l).

Definition id_is (id : string) (s : Session) : bool := String.eqb (s_id s) id.
Definition ws_is (id : string) (w : Workspace) : bool := String.eqb (w_id w) id.
Definition cwd_is (cwd : string) (w : Workspace) : bool := String.eqb (w_cwd w) cwd.
(** [workspace_id = id] holds of no [NULL]. *)
Definition belongs_to (id : string) (s : Session) : bool := match s_workspace s with Some w => String.eqb w id | None => false end.

Definition Outcome (A : Type) : Type := result StoreError A * Database.

(** ** Sessions *)

Definition new_session (id messages : string) (now : Z) : Session :=
  {| s_id := id; s_messages := messages; s_updated_at := now; s_title := None; s_hashes := "[]"; s_archived := 0; s_cwd := "";
     s_workspace := None |}.

Definition set_session (f : Session -> Session) (id : string) (d : Database) : Database :=
  d <| sessions ::= update_where (id_is id) f |>.

Definition save_session (now : Z) (id messages_json : string) (d : Database) : Outcome unit :=
  (Ok tt,
   if existsb (id_is id) (sessions d) then set_session (fun s => s <| s_messages := messages_json |> <| s_updated_at := now |>) id d
   else d <| sessions ::= fun l => (l ++ [new_session id messages_json now])%list |>).

(** A row whose identifier is taken is ignored; a workspace that does not exist
    is an error. *)
Definition create_session (now : Z) (id title cwd workspace_id : string) (d : Database) : Outcome unit :=
  let pid := if is_empty_str workspace_id then None else Some workspace_id in
  if existsb (id_is id) (sessions d) then (Ok tt, d)
  else if match pid with Some w => existsb (ws_is w) (workspaces d) | None => true end then
    (Ok tt, d <| sessions ::= fun l => (l ++ [{| s_id := id; s_messages := "[]"; s_updated_at := now; s_title := Some title; s_hashes := "[]";
                                                s_archived := 0; s_cwd := cwd; s_workspace := pid |}])%list |>)
  else (Err ConstraintViolation, d).

Definition find_session (id : string) (d : Database) : option Session := List.find (id_is id) (sessions d).
Definition load_session (id : string) (d : Database) : option string := option_map s_messages (find_session id d).
Definition session_workspace_id (id : string) (d : Database) : option string := find_session id d ≫= s_workspace.
Definition session_cwd (id : string) (d : Database) : option string :=
  match find_session id d with Some s => if is_empty_str (s_cwd s) then None else Some (s_cwd s) | None => None end.

Definition archive_session (id : string) : Database -> Database := set_session (fun s => s <| s_archived := 1%Z |>) id.
Definition unarchive_session (id : string) : Database -> Database := set_session (fun s => s <| s_archived := 0%Z |>) id.
Definition rename_session (now : Z) (id title : string) : Database -> Database :=
  set_session (fun s => s <| s_title := Some title |> <| s_updated_at := now |>) id.

Definition session_scoped (id : string) (r : PrincipleRow) : bool := String.eqb (row_session r) id && String.eqb (row_scope r) "session".
Definition delete_session (id : string) (d : Database) : Database :=
  d <| principles ::= delete_where (session_scoped id) |> <| sessions ::= delete_where (id_is id) |>.
Definition delete_sessions (ids : list string) (d : Database) : Database := foldl (fun d id => delete_session id d) d ids.

Section Decoding.
Context (from_str : string -> option Value) (to_string : Value -> string).

(** [from_str::<Vec<Value>>]. *)
Definition values_of (json : string) : list Value := match from_str json with Some (Arr l) => l | _ => [] end.

Definition decode_u64s (v : Value) : option (gset Z) :=
  match v with
  | Arr l => list_to_set <$> mapM (fun x => n ← as_u64 x; if (n <? 2 ^ 64)%Z then Some n else None) l
  | _ => None
  end.

Definition load_session_history (decode : Value -> option (list Compaction.HistoryEntry)) (id : string) (d : Database) : list Compaction.HistoryEntry :=
  default [] (json ← load_session id d; v ← from_str json; decode v).

Definition load_distilled_hashes (id : string) (d : Database) : gset Z :=
  match find_session id d with Some s => default ∅ (v ← from_str (s_hashes s); decode_u64s v) | None => ∅ end.

(** The order in which a set is iterated. *)
Context (set_iter : gset Z -> list Z).
Definition save_distilled_hashes (id : string) (hashes : gset Z) (d : Database) : Database :=
  set_session (fun s => s <| s_hashes := to_string (Arr (map (fun n => Num (PosInt n)) (set_iter hashes))) |>) id d.

(** *** The list of sessions *)

Definition field_is (k s : string) (m : Value) : bool := bool_decide ((get m k ≫= as_str) = Some s).
Definition parse_session_meta (messages_json : string) : option string * nat * bool :=
  let arr := values_of messages_json in
  let title := option_map Rin.truncate_title (m ← List.find (field_is "role" "user") arr; get m "content" ≫= as_str) in
  let message_count := length (List.filter (fun m => negb (field_is "role" "tool_call" m)) arr) in
  let has_error := match last arr with
                   | Some m => field_is "status" "error" m || field_is "status" "running" m || bool_decide (is_Some (get m "error"))
                   | None => false
                   end in
  (title, message_count, has_error).

Definition workspace_name (d : Database) (s : Session) : string :=
  default "" (option_map w_name (w ← s_workspace s; List.find (ws_is w) (workspaces d))).

Definition session_json (d : Database) (s : Session) : Value :=
  let '(derived_title, message_count, has_error) := parse_session_meta (s_messages s) in
  let stored := t ← s_title s; if is_empty_str t then None else Some t in
  let title := default (s_id s) (match stored with Some t => Some t | None => derived_title end) in
  Obj [("archived", Bool (negb (s_archived s =? 0)%Z)); ("cwd", Str (s_cwd s)); ("hasError", Bool has_error); ("id", Str (s_id s));
       ("messageCount", int_json (Z.of_nat message_count)); ("title", Str title); ("updatedAt", int_json (s_updated_at s));
       ("workspaceId", match s_workspace s with Some w => Str w | None => Null end); ("workspaceName", Str (workspace_name d s))].

(** [ORDER BY updated_at DESC]. *)
Context (latest : list Session -> list Session).
Definition listed (filter : string) (s : Session) : bool :=
  if String.eqb filter "archived" then (s_archived s =? 1)%Z else if String.eqb filter "active" then (s_archived s =? 0)%Z else true.
Definition list_sessions_filtered (filter : string) (d : Database) : list Value :=
  map (session_json d) (latest (List.filter (listed filter) (sessions d))).

(** ** Workspaces *)

(** An insertion or update of [workspaces]: its two keys are checked. *)
Definition keys_ok (l : list Workspace) : bool := bool_decide (NoDup (map w_id l)) && bool_decide (NoDup (map w_cwd l)).
Definition put_workspaces (l : list Workspace) (d : Database) : option Database :=
  if keys_ok l then Some (d <| workspaces := l |>) else None.

(** The references from sessions to workspaces. *)
Definition references_ok (d : Database) : bool :=
  forallb (fun s => match s_workspace s with Some w => existsb (ws_is w) (workspaces d) | None => true end) (sessions d).

Definition move_session (new old : string) (l : list Session) : list Session :=
  update_where (belongs_to old) (fun s => s <| s_workspace := Some new |>) l.
Definition with_workspace (w : string) (r : SeedRow) : SeedRow :=
  {| r_id := r_id r; r_session := r_session r; r_workspace := w; r_nature := r_nature r; r_source := r_source r;
     r_content_type := r_content_type r; r_content_json := r_content_json r; r_content_text := r_content_text r;
     r_palace := r_palace r; r_stem := r_stem r; r_geju_key := r_geju_key r; r_created_at := r_created_at r;
     r_access_count := r_access_count r; r_last_accessed_at := r_last_accessed_at r; r_strength := r_strength r; r_tier := r_tier r |}.
Definition move_seed (new old : string) (r : SeedRow) : SeedRow := if String.eqb (r_workspace r) old then with_workspace new r else r.

(** The two cascades. *)
Definition cascade (new old : string) (d : Database) : Database :=
  d <| sessions ::= move_session new old |> <| seeds ::= update_rows (move_seed new old) |>.

Definition new_workspace (now : Z) (id cwd name : string) : Workspace :=
  {| w_id := id; w_cwd := cwd; w_name := name; w_description := ""; w_tags := "[]"; w_archived := 0; w_created_at := now; w_updated_at := now |}.

(** The statements of the transaction. *)
Definition ensure_body (now : Z) (id cwd name : string) (d : Database) : option Database :=
  let rows := List.filter (fun w => ws_is id w || cwd_is cwd w) (workspaces d) in
  match List.find (ws_is id) rows, List.find (cwd_is cwd) rows with
  | None, None => put_workspaces (workspaces d ++ [new_workspace now id cwd name])%list d
  | Some _, by_cwd =>
      let d := match by_cwd with
               | Some stale => if String.eqb (w_id stale) id then d
                               else cascade id (w_id stale) d <| workspaces ::= delete_where (ws_is (w_id stale)) |>
               | None => d
               end in
      put_workspaces (update_where (ws_is id) (fun w => w <| w_cwd := cwd |> <| w_name := name |> <| w_updated_at := now |>) (workspaces d)) d
  | None, Some old =>
      let d := cascade id (w_id old) d in
      put_workspaces (update_where (cwd_is cwd) (fun w => w <| w_id := id |> <| w_name := name |> <| w_updated_at := now |>) (workspaces d)) d
  end.

(** References are checked when the transaction is committed; what fails is
    rolled back. *)
Definition ensure_workspace (now : Z) (id cwd name : string) (d : Database) : Outcome unit :=
  match ensure_body now id cwd name d with
  | Some d' => if references_ok d' then (Ok tt, d') else (Err ConstraintViolation, d)
  | None => (Err ConstraintViolation, d)
  end.

Definition update_workspace_metadata (now : Z) (id name description tags_json : string) (d : Database) : nat * Database :=
  (changed (ws_is id) (workspaces d),
   d <| workspaces ::= update_where (ws_is id) (fun w => w <| w_name := name |> <| w_description := description |> <| w_tags := tags_json |>
                                                           <| w_updated_at := now |>) |>).

Definition archive_workspace (now : Z) (id : string) (d : Database) : nat * Database :=
  (changed (ws_is id) (workspaces d),
   d <| workspaces ::= update_where (ws_is id) (fun w => w <| w_archived := 1%Z |> <| w_updated_at := now |>) |>
     <| sessions ::= update_where (belongs_to id) (fun s => s <| s_archived := 1%Z |>) |>).
Definition unarchive_workspace (now : Z) (id : string) (d : Database) : nat * Database :=
  (changed (ws_is id) (workspaces d),
   d <| workspaces ::= update_where (ws_is id) (fun w => w <| w_archived := 0%Z |> <| w_updated_at := now |>) |>).

(** [from_str::<Vec<String>>], empty when it fails. *)
Definition tags_of (json : string) : list string :=
  match from_str json with Some (Arr l) => default [] (mapM as_str l) | _ => [] end.
Definition tags_json (tags : list string) : Value := Arr (map Str tags).

Definition workspace_json (w : Workspace) : Value :=
  Obj [("archived", Bool (negb (w_archived w =? 0)%Z)); ("createdAt", int_json (w_created_at w)); ("cwd", Str (w_cwd w));
       ("description", Str (w_description w)); ("id", Str (w_id w)); ("name", Str (w_name w)); ("tags", tags_json (tags_of (w_tags w)));
       ("updatedAt", int_json (w_updated_at w))].
Definition get_workspace (id : string) (d : Database) : option Value := option_map workspace_json (List.find (ws_is id) (workspaces d)).

Definition session_count (d : Database) (w : Workspace) : nat :=
  length (List.filter (fun s => belongs_to (w_id w) s && (s_archived s =? 0)%Z) (sessions d)).
Definition listed_json (d : Database) (w : Workspace) : Value :=
  match workspace_json w with
  | Obj fields => Obj (obj_insert "sessionCount" (int_json (Z.of_nat (session_count d w))) fields)
  | v => v
  end.
(** [ORDER BY updated_at DESC]. *)
Context (latest_ws : list Workspace -> list Workspace).
Definition list_workspaces (include_archived : bool) (d : Database) : list Value :=
  map (listed_json d) (latest_ws (if include_archived then workspaces d else List.filter (fun w => (w_archived w =? 0)%Z) (workspaces d))).

(** *** The handlers *)

Definition not_ready : Z * string := (503%Z, "Not ready").
Definition workspace_not_found : Z * string := (404%Z, "Workspace not found").

Definition handle_list_workspaces (params : gmap string string) (earth : option Database) : Gateway.Response :=
  match earth with
  | None => Err not_ready
  | Some d => Ok (Obj [("workspaces", Arr (list_workspaces (default false (f ← params !! "filter"; Some (String.eqb f "all"))) d))])
  end.

Definition workspace_config (id name : string) : string :=
  "[workspace]" +:+ nl +:+ "id = " +:+ dq +:+ id +:+ dq +:+ nl +:+ "name = " +:+ dq +:+ name +:+ dq +:+ nl.

(** How a store error is printed. *)
Context (error_text : StoreError -> string).
Context {FS} `{FileSystem FS}.

Definition handle_create_workspace (now : Z) (uuid cwd name : string) (fs : FS) (earth : option Database)
    : Gateway.Response * FS * option Database :=
  let fail status text fs := (Err (status, text), fs, earth) in
  if negb (is_absolute cwd) then fail 400%Z ("'cwd' must be an absolute path, got: " +:+ cwd) fs
  else
    let config_path := cwd +:+ "/.jia/config.toml" in
    if fs_exists fs config_path then fail 409%Z ("workspace already exists at " +:+ cwd +:+ " (.jia/config.toml present)") fs
    else match fs_create_dir_all cwd fs with
         | (Err e, fs) => fail 500%Z ("Failed to create directory: " +:+ e) fs
         | (Ok _, fs) =>
             match fs_create_dir_all (cwd +:+ "/.jia") fs with
             | (Err e, fs) => fail 500%Z ("Failed to create .jia: " +:+ e) fs
             | (Ok _, fs) =>
                 match fs_write config_path (workspace_config uuid name) fs with
                 | (Err e, fs) => fail 500%Z ("Failed to write config: " +:+ e) fs
                 | (Ok _, fs) =>
                     match earth with
                     | None => (Err not_ready, fs, earth)
                     | Some d =>
                         match ensure_workspace now uuid cwd name d with
                         | (Err e, d) => (Err (Gateway.internal_error (error_text e)), fs, Some d)
                         | (Ok _, d) => (Ok (Obj [("cwd", Str cwd); ("id", Str uuid); ("name", Str name)]), fs, Some d)
                         end
                     end
                 end
             end
         end.

Definition handle_get_workspace (id : string) (earth : option Database) : Gateway.Response :=
  match earth with
  | None => Err not_ready
  | Some d => match get_workspace id d with Some w => Ok w | None => Err workspace_not_found end
  end.

(** The answer to a change that counts its rows. *)
Definition counted (r : nat * Database) : Gateway.Response * option Database :=
  ((if (fst r =? 0)%nat then Err workspace_not_found else Ok (Obj [("ok", Bool true)])), Some (snd r)).

Definition handle_archive_workspace (now : Z) (id : string) (earth : option Database) : Gateway.Response * option Database :=
  match earth with None => (Err not_ready, None) | Some d => counted (archive_workspace now id d) end.
Definition handle_unarchive_workspace (now : Z) (id : string) (earth : option Database) : Gateway.Response * option Database :=
  match earth with None => (Err not_ready, None) | Some d => counted (unarchive_workspace now id d) end.

Record PatchWorkspaceBody := { b_name : option string; b_description : option string; b_tags : option (list string) }.

Definition handle_patch_workspace (now : Z) (id : string) (body : PatchWorkspaceBody) (earth : option Database)
    : Gateway.Response * option Database :=
  match earth with
  | None => (Err not_ready, None)
  | Some d =>
      match get_workspace id d with
      | None => (Err workspace_not_found, earth)
      | Some proj =>
          let field k (given : option string) := match given with Some s => s | None => default "" (as_str (index proj k)) end in
          let tags := match b_tags body with Some l => to_string (tags_json l) | None => to_string (index proj "tags") end in
          counted (update_workspace_metadata now id (field "name" (b_name body)) (field "description" (b_description body)) tags d)
      end
  end.
End Decoding.

(** ** Kept sub-agent sessions *)

Definition save_subagent_session (s : SubagentSession) (d : Database) : Database :=
  d <| subagents ::= fun l => (delete_where (fun x => String.eqb (ss_id x) (ss_id s)) l ++ [s])%list |>.
(** [ORDER BY last_used DESC]. *)
Definition load_all_subagent_sessions (recent : list SubagentSession -> list SubagentSession) (d : Database) : list SubagentSession :=
  recent (subagents d).
Definition load_subagent_session (id : string) (d : Database) : option (string * string * Z * Z) :=
  option_map (fun s => (ss_messages s, ss_type s, ss_created_at s, ss_last_used s)) (List.find (fun s => String.eqb (ss_id s) id) (subagents d)).

(** ** The self-model and its history *)

(** The row of the agent. *)
Record ManasRow := {
  m_atma_graha : spec_float;
  m_total_turns : Z;
  m_consolidation_count : Z;
  m_stable_pattern_count : Z;
  m_last_consolidation_at : Z;
  m_stable_epochs : Z
}.

Section Manas.
Context (from_str : string -> option Value) (to_string : Value -> string).
(** A binary32 value printed and parsed, a binary64 one printed and parsed. *)
Context (printed reread : spec_float -> spec_float).

(** [u64 as i64] and back. *)
Definition u64_as_i64 (n : Z) : Z := if (n <? 2 ^ 63)%Z then n else (n - 2 ^ 64)%Z.
Definition i64_as_u64 (n : Z) : Z := (n mod 2 ^ 64)%Z.

Definition save_manas (json : string) (row : option ManasRow) : result StoreError unit * option ManasRow :=
  match from_str json with
  | None => (Err JsonError, row)
  | Some v =>
      let count k := u64_as_i64 (default 0%Z (as_u64 (index v k))) in
      (Ok tt, Some {| m_atma_graha := default (F64.lit 8 10) (as_f64 (index v "atma_graha")); m_total_turns := count "total_turns";
                      m_consolidation_count := count "consolidation_count"; m_stable_pattern_count := count "stable_pattern_count";
                      m_last_consolidation_at := default 0%Z (as_i64 (index v "last_consolidation_at"));
                      m_stable_epochs := count "stable_epochs" |})
  end.

Definition load_manas (row : option ManasRow) : option string :=
  option_map (fun r => to_string
    (Obj [("atma_graha", Num (FloatNum (reread (m_atma_graha r)))); ("consolidation_count", int_json (i64_as_u64 (m_consolidation_count r)));
          ("last_consolidation_at", int_json (m_last_consolidation_at r)); ("stable_epochs", int_json (i64_as_u64 (m_stable_epochs r)));
          ("stable_pattern_count", int_json (i64_as_u64 (m_stable_pattern_count r))); ("total_turns", int_json (i64_as_u64 (m_total_turns r)))])) row.

(** The derived serializer and deserializer. *)
Definition manas_json (m : Manas) : Value :=
  Obj [("atma_graha", Num (FloatNum (printed (atma_graha m)))); ("consolidation_count", int_json (consolidation_count m));
       ("last_consolidation_at", int_json (last_consolidation_at m)); ("stable_epochs", int_json (stable_epochs m));
       ("stable_pattern_count", int_json (stable_pattern_count m)); ("total_turns", int_json (total_turns m))].
Definition decode_manas (v : Value) : option Manas :=
  atma ← as_f64 (index v "atma_graha");
  turns ← as_u64 (index v "total_turns");
  consolidations ← as_u64 (index v "consolidation_count");
  patterns ← as_u64 (index v "stable_pattern_count");
  at_ ← as_i64 (index v "last_consolidation_at");
  epochs ← as_u64 (index v "stable_epochs");
  Some {| atma_graha := to_f32 atma; total_turns := turns; consolidation_count := consolidations; stable_pattern_count := patterns;
          last_consolidation_at := at_; stable_epochs := epochs |}.

(** The self-model a session starts from. *)
Definition session_manas (row : option ManasRow) : Manas := default Manas_new (json ← load_manas row; v ← from_str json; decode_manas v).

Record ManasSnapshot := { ms_session : string; ms_atma_graha : spec_float; ms_entropy_total : spec_float; ms_seed_count : Z; ms_created_at : Z }.
(** A [NaN] is stored as [NULL], which the columns refuse. *)
Definition insert_manas_snapshot (s : ManasSnapshot) (l : list ManasSnapshot) : list ManasSnapshot :=
  if is_nan (ms_atma_graha s) || is_nan (ms_entropy_total s) then l else (l ++ [s])%list.
(** [ORDER BY created_at DESC]. *)
Definition load_manas_history (newest : list ManasSnapshot -> list ManasSnapshot) (limit : Z) (l : list ManasSnapshot) : list Value :=
  map (fun s => Obj [("atma_graha", Num (FloatNum (reread (ms_atma_graha s)))); ("created_at", int_json (ms_created_at s));
                     ("entropy_total", Num (FloatNum (reread (ms_entropy_total s)))); ("seed_count", int_json (ms_seed_count s))])
      (Graph.sql_limit limit (newest l)).
End Manas.

(** *** Reports of forgetting *)

Record DissolutionRow := {
  dr_timestamp : Z;
  dr_examined : Z; dr_dissolved : Z; dr_weakened : Z; dr_downgraded : Z;
  dr_before : spec_float; dr_after : spec_float;
  dr_entropy : string;
  dr_kept : Z; dr_protected : Z;
  dr_sample : string
}.

Section Dissolutions.
Context (from_str : string -> option Value) (to_string : Value -> string) (printed : spec_float -> spec_float).

Definition float_json (x : spec_float) : Value :=
  match x with S754_nan | S754_infinity _ => Null | _ => Num (FloatNum (printed x)) end.
Definition entropy_json (e : AlayaEntropy) : Value :=
  Obj [("access_decay", float_json (access_decay e)); ("contradiction", float_json (contradiction e)); ("redundancy", float_json (redundancy e));
       ("staleness", float_json (staleness e)); ("total", float_json (total e))].
Definition decode_entropy (v : Value) : option AlayaEntropy :=
  let f k := to_f32 <$> as_f64 (index v k) in
  s ← f "staleness"; c ← f "contradiction"; r ← f "redundancy"; a ← f "access_decay"; t ← f "total";
  Some {| staleness := s; contradiction := c; redundancy := r; access_decay := a; total := t |}.
Definition no_entropy : AlayaEntropy :=
  {| staleness := F32.of_Z 0; contradiction := F32.of_Z 0; redundancy := F32.of_Z 0; access_decay := F32.of_Z 0; total := F32.of_Z 0 |}.

Definition digest_json (g : SeedDigest) : Value :=
  Obj [("nature", Str (dg_nature g)); ("primary_dim", Str (dg_primary g)); ("source", Str (dg_source g))].
Definition decode_digest (v : Value) : option SeedDigest :=
  n ← as_str (index v "nature"); s ← as_str (index v "source"); p ← as_str (index v "primary_dim");
  Some {| dg_nature := n; dg_source := s; dg_primary := p |}.
Definition decode_digests (v : Value) : option (list SeedDigest) := match v with Arr l => mapM decode_digest l | _ => None end.

Definition usize_as_i64 (n : nat) : Z := u64_as_i64 (Z.of_nat n).
Definition i64_as_usize (z : Z) : nat := Z.to_nat (i64_as_u64 z).

(** The row of a report; its number of kept seeds is there. *)
Definition dissolution_row (kept : nat) (r : ZuowangReport) : DissolutionRow :=
  {| dr_timestamp := z_timestamp r; dr_examined := usize_as_i64 (seeds_examined r); dr_dissolved := usize_as_i64 (seeds_dissolved r);
     dr_weakened := usize_as_i64 (seeds_weakened r); dr_downgraded := usize_as_i64 (seeds_downgraded r);
     dr_before := entropy_before r; dr_after := entropy_after r; dr_entropy := to_string (entropy_json (entropy_dimensions r));
     dr_kept := usize_as_i64 kept; dr_protected := usize_as_i64 (score_protected r);
     dr_sample := to_string (Arr (map digest_json (dissolved_sample r))) |}.

(** A [NaN] is stored as [NULL], which the columns refuse. *)
Definition save_dissolution_report (r : ZuowangReport) (l : list DissolutionRow) : result StoreError unit * list DissolutionRow :=
  match score_kept r with
  | Some kept => if is_nan (entropy_before r) || is_nan (entropy_after r) then (Err ConstraintViolation, l)
                 else (Ok tt, (l ++ [dissolution_row kept r])%list)
  | None => (Ok tt, l)
  end.

Definition dissolution_report (r : DissolutionRow) : ZuowangReport :=
  {| seeds_examined := i64_as_usize (dr_examined r); seeds_dissolved := i64_as_usize (dr_dissolved r);
     seeds_weakened := i64_as_usize (dr_weakened r); seeds_downgraded := i64_as_usize (dr_downgraded r);
     entropy_before := to_f32 (dr_before r); entropy_after := to_f32 (dr_after r);
     entropy_dimensions := default no_entropy (v ← from_str (dr_entropy r); decode_entropy v);
     z_timestamp := dr_timestamp r; score_kept := Some (i64_as_usize (dr_kept r)); score_protected := i64_as_usize (dr_protected r);
     dissolved_sample := default [] (v ← from_str (dr_sample r); decode_digests v) |}.

(** [ORDER BY timestamp DESC], turned round at the end. *)
Definition load_dissolution_history (newest : list DissolutionRow -> list DissolutionRow) (limit : Z) (l : list DissolutionRow) : list ZuowangReport :=
  rev (map dissolution_report (Graph.sql_limit limit (newest l))).
End Dissolutions.

(** ** Versions of the schema *)

Section Migration.
(** One statement on the schema: it may fail. *)
Context {Schema : Type} (execute : string -> Schema -> option Schema).

Definition statements (sql : string) : list string :=
  let no_comments := str_join nl (List.filter (fun l => negb (starts_with (trim_start l) "--")) (lines sql)) in
  List.filter (fun s => negb (is_empty_str s)) (map trim (split_char ";"%char no_comments)).

Definition exec_tolerated (sql : string) (s : Schema) : nat * Schema :=
  foldl (fun '(failures, s) stmt => match execute stmt s with Some s' => (failures, s') | None => (S failures, s) end) (0, s) (statements sql).

(** The tables whose rows older than ninety days are dropped. *)
Record Store := { version : Z; schema : Schema; manas_history : list ManasSnapshot; dissolutions : list Z }.

(** [init] is the first schema as one batch; it panics when it fails. *)
Definition migrate (init : Schema -> option Schema) (alters rename : string) (now : Z) (st : Store) : option Store :=
  let current := version st in
  st1 ← (if (current <? 1)%Z then
           s ← init (schema st);
           let '(failures, s) := exec_tolerated alters s in
           Some {| version := (if (failures =? 0)%nat then 1%Z else current); schema := s; manas_history := manas_history st; dissolutions := dissolutions st |}
         else Some st);
  let st2 := if (current <? 2)%Z then
               let from_v1 := (current =? 1)%Z in
               let '(failures, s) := exec_tolerated rename (schema st1) in
               {| version := (if from_v1 && (0 <? failures)%nat then version st1 else 2%Z); schema := s; manas_history := manas_history st1;
                  dissolutions := dissolutions st1 |}
             else st1 in
  Some (if (current <? 2)%Z then
          let cutoff := (now - 90 * 86400)%Z in
          {| version := version st2; schema := schema st2;
             manas_history := List.filter (fun s => negb (ms_created_at s <? cutoff)%Z) (manas_history st2);
             dissolutions := List.filter (fun t => negb (t <? cutoff)%Z) (dissolutions st2) |}
        else st2).
End Migration.
Arguments Store : clear implicits.

(** ** Lemmas *)

Lemma map_update_where {A B} (g : A -> B) p f l : (forall x, g (f x) = g x) -> map g (update_where p f l) = map g l.
Proof. intros H. unfold update_where. rewrite map_map. apply map_ext. intros x. destruct (p x); [apply H|done]. Qed.

Lemma elem_update_where {A} p (f : A -> A) l y : y ∈ update_where p f l <-> exists x, x ∈ l /\ y = if p x then f x else x.
Proof. unfold update_where. rewrite list_elem_of_fmap. naive_solver. Qed.

Lemma elem_delete_where {A} (p : A -> bool) l x : x ∈ delete_where p l <-> x ∈ l /\ p x = false.
Proof. unfold delete_where. by rewrite elem_of_Lfilter, negb_true_iff. Qed.

(** A key that one row takes and no other has stays unique. *)
Lemma NoDup_update_key {A} (g h : A -> string) c k (f : A -> A) l :
  NoDup (map g l) -> NoDup (map h l) -> (forall x, x ∈ l -> h x = c -> g (f x) = k) -> (forall x, x ∈ l -> h x <> c -> g x <> k) ->
  NoDup (map g (update_where (fun x => String.eqb (h x) c) f l)).
Proof.
  induction l as [|x l IH]; intros Hg Hh Hf Hn; [constructor|]. cbn in Hg, Hh |- *. apply NoDup_cons in Hg as [Hx Hg], Hh as [Hy Hh].
  apply NoDup_cons. split; [|apply IH; [done|done|intros; apply Hf; [by right|done]|intros; apply Hn; [by right|done]]].
  intros Hin. apply list_elem_of_fmap in Hin as (y & E & Hin). apply elem_update_where in Hin as (z & Hz & ->). cbn in E.
  destruct (String.eqb_spec (h x) c) as [Ex|Ex], (String.eqb_spec (h z) c) as [Ez|Ez].
  - apply Hy. rewrite Ex, <- Ez. apply list_elem_of_fmap. eauto.
  - rewrite (Hf x) in E; [|left|done]. symmetry in E. revert E. apply Hn; [by right|done].
  - rewrite (Hf z) in E; [|by right|done]. revert E. apply Hn; [left|done].
  - apply Hx. rewrite E. apply list_elem_of_fmap. eauto.
Qed.

Lemma NoDup_delete_where {A B} (g : A -> B) p l : NoDup (map g l) -> NoDup (map g (delete_where p l)).
Proof. apply NoDup_fmap_filter. Qed.

Lemma find_where {A} (p q : A -> bool) l : (forall x, p x = true -> q x = true) -> List.find p (List.filter q l) = List.find p l.
Proof.
  intros H. induction l as [|x l IH]; [done|]. cbn. destruct (q x) eqn:Eq; cbn; [by rewrite IH|].
  destruct (p x) eqn:Ep; [by rewrite H in Eq|done].
Qed.

Lemma find_iff {A} (g : A -> string) c l x : NoDup (map g l) -> List.find (fun x => String.eqb (g x) c) l = Some x <-> x ∈ l /\ g x = c.
Proof.
  intros Hn. split.
  - intros [Hin E]%find_some. apply list_elem_of_In in Hin. by apply String.eqb_eq in E.
  - intros [Hin E]. induction l as [|y l IH]; [by apply elem_of_nil in Hin|]. cbn in Hn |- *. apply NoDup_cons in Hn as [Hy Hn].
    apply elem_of_cons in Hin as [<- |Hin]; [by rewrite E, String.eqb_refl|]. destruct (String.eqb_spec (g y) c) as [Ey|Ey]; [|by apply IH].
    exfalso. apply Hy. rewrite Ey, <- E. apply list_elem_of_fmap. eauto.
Qed.

Lemma find_no {A} (g : A -> string) c l : List.find (fun x => String.eqb (g x) c) l = None <-> c ∉ map g l.
Proof.
  rewrite list_elem_of_fmap. split.
  - intros H (x & -> & Hin). apply list_elem_of_In in Hin. apply (find_none _ _ H) in Hin. by rewrite String.eqb_refl in Hin.
  - intros H. destruct (List.find _ l) as [x|] eqn:E; [|done]. apply find_some in E as [Hin E]. exfalso. apply H. exists x.
    apply String.eqb_eq in E. split; [done|by apply list_elem_of_In].
Qed.

(** *** The invariant *)

Definition references (d : Database) : Prop := forall s w, s ∈ sessions d -> s_workspace s = Some w -> w ∈ map w_id (workspaces d).

Record db_wf (d : Database) : Prop := {
  wf_sessions : NoDup (map s_id (sessions d));
  wf_ids : NoDup (map w_id (workspaces d));
  wf_cwds : NoDup (map w_cwd (workspaces d));
  wf_references : references d
}.

Lemma has_workspace w l : existsb (ws_is w) l = true <-> w ∈ map w_id l.
Proof.
  rewrite existsb_exists, list_elem_of_fmap. unfold ws_is. split.
  - intros (x & Hin & E%String.eqb_eq). exists x. by rewrite list_elem_of_In.
  - intros (x & -> & Hin). exists x. rewrite <- list_elem_of_In, String.eqb_refl. done.
Qed.

Lemma references_ok_iff d : references_ok d = true <-> references d.
Proof.
  unfold references_ok, references. rewrite forallb_forall. split.
  - intros H s w Hin E. apply list_elem_of_In in Hin. specialize (H _ Hin). rewrite E in H. by apply has_workspace.
  - intros H s Hin. apply list_elem_of_In in Hin. destruct (s_workspace s) as [w|] eqn:E; [|done]. apply has_workspace. eauto.
Qed.

Lemma keys_ok_iff l : keys_ok l = true <-> NoDup (map w_id l) /\ NoDup (map w_cwd l).
Proof. unfold keys_ok. by rewrite andb_true_iff, !bool_decide_eq_true. Qed.

Lemma has_session id l : existsb (id_is id) l = true <-> id ∈ map s_id l.
Proof.
  rewrite existsb_exists, list_elem_of_fmap. unfold id_is. split.
  - intros (x & Hin & E%String.eqb_eq). exists x. by rewrite list_elem_of_In.
  - intros (x & -> & Hin). exists x. rewrite <- list_elem_of_In, String.eqb_refl. done.
Qed.

(** *** Moving sessions and seeds *)

Lemma move_session_ids new old l : map s_id (move_session new old l) = map s_id l.
Proof. apply map_update_where. done. Qed.

Lemma move_session_in new old l s w : s ∈ move_session new old l -> s_workspace s = Some w ->
  w = new \/ exists s', s' ∈ l /\ s_workspace s' = Some w /\ w <> old.
Proof.
  intros (s' & Hin & ->)%elem_update_where. unfold belongs_to. destruct (s_workspace s') as [w'|] eqn:E; [|by rewrite E].
  destruct (String.eqb_spec w' old) as [->|Hne]; cbn; [intros [= <-]; by left|]. rewrite E. intros [= <-]. right. eauto.
Qed.

Lemma move_session_self id l : move_session id id l = l.
Proof.
  unfold move_session, update_where. rewrite <- (map_id l) at 2. apply map_ext. intros s. unfold belongs_to.
  destruct s as [? ? ? ? ? ? ? [w|]]; cbn; [|done]. by destruct (String.eqb_spec w id) as [->|].
Qed.

Lemma move_seed_self id r : move_seed id id r = r.
Proof. unfold move_seed. destruct (String.eqb_spec (r_workspace r) id) as [E|]; [|done]. destruct r. cbn in E. by subst. Qed.
Lemma move_seeds_self id t : update_rows (move_seed id id) t = t.
Proof. destruct t as [l f]. unfold update_rows. cbn. f_equal. rewrite <- (map_id l) at 2. apply map_ext, move_seed_self. Qed.

Lemma unique_by {A} (g : A -> string) l x y : NoDup (map g l) -> x ∈ l -> y ∈ l -> g x = g y -> x = y.
Proof. intros Hn Hx Hy E. pose proof (proj2 (find_iff g (g x) l x Hn) (conj Hx eq_refl)). pose proof (proj2 (find_iff g (g x) l y Hn) (conj Hy (eq_sym E))). congruence. Qed.

(** *** Finding the row of an identifier and of a directory *)

Definition owner (cwd : string) (d : Database) : option Workspace := List.find (cwd_is cwd) (workspaces d).
Definition moved_sessions (id : string) (o : option Workspace) (l : list Session) : list Session :=
  match o with Some w => move_session id (w_id w) l | None => l end.
Definition moved_seeds (id : string) (o : option Workspace) (t : SeedTable) : SeedTable :=
  match o with Some w => update_rows (move_seed id (w_id w)) t | None => t end.

(** What of a row is not its identity. *)
Definition metadata (w : Workspace) : string * string * Z * Z := (w_description w, w_tags w, w_archived w, w_created_at w).

(** The row whose metadata the workspace has from now on. *)
Definition metadata_source (now : Z) (id cwd name : string) (d : Database) : Workspace :=
  match List.find (ws_is id) (workspaces d), owner cwd d with
  | Some w, _ => w
  | None, Some w => w
  | None, None => new_workspace now id cwd name
  end.

Definition ensured (now : Z) (id cwd name : string) (d d' : Database) : Prop :=
  sessions d' = moved_sessions id (owner cwd d) (sessions d) /\ seeds d' = moved_seeds id (owner cwd d) (seeds d) /\
  principles d' = principles d /\ subagents d' = subagents d /\
  (exists w, w ∈ workspaces d' /\ w_id w = id /\ w_cwd w = cwd /\ w_name w = name /\ metadata w = metadata (metadata_source now id cwd name d)) /\
  (forall w, w_id w <> id -> w ∈ workspaces d' <-> w ∈ workspaces d /\ w_cwd w <> cwd).

Lemma find_by_id id l x : NoDup (map w_id l) -> List.find (ws_is id) l = Some x <-> x ∈ l /\ w_id x = id.
Proof. apply (find_iff w_id). Qed.
Lemma find_by_cwd cwd l x : NoDup (map w_cwd l) -> List.find (cwd_is cwd) l = Some x <-> x ∈ l /\ w_cwd x = cwd.
Proof. apply (find_iff w_cwd). Qed.

Definition candidates (id cwd : string) (d : Database) : list Workspace := List.filter (fun w => ws_is id w || cwd_is cwd w) (workspaces d).
Lemma candidates_by_id id cwd d : List.find (ws_is id) (candidates id cwd d) = List.find (ws_is id) (workspaces d).
Proof. apply find_where. by intros x ->. Qed.
Lemma candidates_by_cwd id cwd d : List.find (cwd_is cwd) (candidates id cwd d) = owner cwd d.
Proof. apply find_where. intros x ->. by rewrite orb_true_r. Qed.

Lemma put_ok l d : NoDup (map w_id l) -> NoDup (map w_cwd l) -> put_workspaces l d = Some (d <| workspaces := l |>).
Proof. intros Hi Hc. unfold put_workspaces. by rewrite (proj2 (keys_ok_iff l)). Qed.

Lemma renamed_rows id cwd name now l w0 : NoDup (map w_id l) -> w0 ∈ l -> w_id w0 = id ->
  let l' := update_where (ws_is id) (fun w => w <| w_cwd := cwd |> <| w_name := name |> <| w_updated_at := now |>) l in
  (exists w, w ∈ l' /\ w_id w = id /\ w_cwd w = cwd /\ w_name w = name /\ metadata w = metadata w0) /\
  (forall w, w_id w <> id -> w ∈ l' <-> w ∈ l).
Proof.
  intros Hn Hin E. cbv zeta. split.
  - eexists. split; [apply elem_update_where; exists w0; split; [done|reflexivity]|]. unfold ws_is. rewrite E, String.eqb_refl. done.
  - intros w Hw. rewrite elem_update_where. split.
    + intros (x & Hx & ->). unfold ws_is in *. destruct (String.eqb_spec (w_id x) id) as [Ex|Ex]; [done|done].
    + intros Hx. exists w. split; [done|]. unfold ws_is. by rewrite (proj2 (String.eqb_neq _ _) Hw).
Qed.

Lemma ensure_create now id cwd name d : db_wf d -> List.find (ws_is id) (workspaces d) = None -> owner cwd d = None ->
  let d' := d <| workspaces := (workspaces d ++ [new_workspace now id cwd name])%list |> in
  ensure_body now id cwd name d = Some d' /\ ensured now id cwd name d d' /\ NoDup (map w_id (workspaces d')) /\ NoDup (map w_cwd (workspaces d')).
Proof.
  intros [_ Hi Hc _] Hid Hcwd. cbv zeta. unfold ensure_body. fold (candidates id cwd d). rewrite candidates_by_id, candidates_by_cwd. rewrite Hid, Hcwd.
  pose proof (proj1 (find_no w_id id _) Hid) as Hid'. pose proof (proj1 (find_no w_cwd cwd _) Hcwd) as Hcwd'.
  assert (Hi' : NoDup (map w_id (workspaces d ++ [new_workspace now id cwd name]))).
  { rewrite map_app. apply NoDup_app. split; [done|]. split; [|apply NoDup_singleton]. intros x Hx ->%list_elem_of_singleton. done. }
  assert (Hc' : NoDup (map w_cwd (workspaces d ++ [new_workspace now id cwd name]))).
  { rewrite map_app. apply NoDup_app. split; [done|]. split; [|apply NoDup_singleton]. intros x Hx ->%list_elem_of_singleton. done. }
  split; [by apply put_ok|]. split; [|by split]. unfold ensured, metadata_source. rewrite Hid, Hcwd. split_and!; [done..| |].
  - exists (new_workspace now id cwd name). split; [cbn; apply elem_of_app; right; by left|done].
  - intros w Hw. cbn. rewrite elem_of_app, list_elem_of_singleton. split; [|tauto]. intros [Hin | ->]; [|done].
    split; [done|]. intros E. apply Hcwd'. rewrite <- E. apply list_elem_of_fmap. eauto.
Qed.

Lemma ensure_same_id now id cwd name d w0 : db_wf d -> List.find (ws_is id) (workspaces d) = Some w0 ->
  exists d', ensure_body now id cwd name d = Some d' /\ ensured now id cwd name d d' /\
             NoDup (map w_id (workspaces d')) /\ NoDup (map w_cwd (workspaces d')).
Proof.
  intros [_ Hi Hc _] Hid. unfold ensure_body. fold (candidates id cwd d). rewrite candidates_by_id, candidates_by_cwd. rewrite Hid. apply find_by_id in Hid as [Hin Ew0]; [|done].
  set (d1 := match owner cwd d with Some stale => _ | None => d end).
  assert (H1 : sessions d1 = moved_sessions id (owner cwd d) (sessions d) /\ seeds d1 = moved_seeds id (owner cwd d) (seeds d) /\
               principles d1 = principles d /\ subagents d1 = subagents d /\
               NoDup (map w_id (workspaces d1)) /\ NoDup (map w_cwd (workspaces d1)) /\ w0 ∈ workspaces d1 /\
               (forall w, w_id w <> id -> w ∈ workspaces d1 <-> w ∈ workspaces d /\ w_cwd w <> cwd)).
  { unfold d1. destruct (owner cwd d) as [st|] eqn:Ho; cbn [moved_sessions moved_seeds].
    - apply find_by_cwd in Ho as [Hst Ec]; [|done]. destruct (String.eqb_spec (w_id st) id) as [E|E].
      + rewrite E, move_session_self, move_seeds_self. split_and!; [done..|]. intros w Hw. split; [|tauto]. intros Hx. split; [done|].
        intros Ew. apply Hw. rewrite <- E. f_equal. apply (unique_by w_cwd (workspaces d)); [done..|congruence].
      + split_and!; [done..| | | |]; cbn -[delete_where].
        * by apply NoDup_delete_where.
        * by apply NoDup_delete_where.
        * apply elem_delete_where. split; [done|]. unfold ws_is. apply String.eqb_neq. congruence.
        * intros w Hw. rewrite elem_delete_where. unfold ws_is. rewrite String.eqb_neq. split; intros [Hx Hne]; (split; [done|]).
          -- intros Ew. apply Hne. f_equal. apply (unique_by w_cwd (workspaces d)); [done..|congruence].
          -- intros Ew. apply Hne. rewrite <- Ec. f_equal. apply (unique_by w_id (workspaces d)); [done..|congruence].
    - apply (find_no w_cwd) in Ho. split_and!; [done..|]. intros w Hw. split; [|tauto]. intros Hx. split; [done|]. intros Ew.
      apply Ho. rewrite <- Ew. apply list_elem_of_fmap. eauto. }
  clearbody d1. destruct H1 as (Hs & Hse & Hp & Hsu & Hi1 & Hc1 & Hin1 & Hoth).
  destruct (renamed_rows id cwd name now (workspaces d1) w0 Hi1 Hin1 Ew0) as [Hrow Hrest].
  set (l' := update_where _ _ _) in *. exists (d1 <| workspaces := l' |>).
  assert (Hi' : NoDup (map w_id l')) by (unfold l'; rewrite map_update_where; done).
  assert (Hc' : NoDup (map w_cwd l')).
  { apply (NoDup_update_key w_cwd w_id id cwd); [done|done|done|]. intros x Hx Hne E. by apply Hoth in Hx as [_ Hx]. }
  split; [by apply put_ok|]. split; [|by split]. unfold ensured, metadata_source.
  rewrite (proj2 (find_by_id id (workspaces d) w0 Hi) (conj Hin Ew0)). split_and!; [done..|]. intros w Hw. cbn [workspaces update set_workspaces].
  rewrite (Hrest w Hw). by apply Hoth.
Qed.

Lemma ensure_drifted now id cwd name d old : db_wf d -> List.find (ws_is id) (workspaces d) = None -> owner cwd d = Some old ->
  exists d', ensure_body now id cwd name d = Some d' /\ ensured now id cwd name d d' /\
             NoDup (map w_id (workspaces d')) /\ NoDup (map w_cwd (workspaces d')).
Proof.
  intros [_ Hi Hc _] Hid Ho. unfold ensure_body. fold (candidates id cwd d). rewrite candidates_by_id, candidates_by_cwd, Hid, Ho.
  pose proof (proj1 (find_no w_id id _) Hid) as Hid'. pose proof (proj1 (find_by_cwd _ _ _ Hc) Ho) as [Hold Ec].
  set (l' := update_where (cwd_is cwd) _ _). set (d1 := cascade id (w_id old) d). exists (d1 <| workspaces := l' |>).
  assert (Hc' : NoDup (map w_cwd l')) by (unfold l'; rewrite map_update_where; done).
  assert (Hi' : NoDup (map w_id l')).
  { apply (NoDup_update_key w_id w_cwd cwd id); [done|done|done|]. intros x Hx _ E. apply Hid'. rewrite <- E. apply list_elem_of_fmap. eauto. }
  split; [by apply put_ok|]. split; [|by split]. unfold ensured, metadata_source. rewrite Hid, Ho. split_and!; [done..| |].
  - eexists. split; [apply elem_update_where; exists old; split; [exact Hold|reflexivity]|]. unfold cwd_is. rewrite Ec, String.eqb_refl. done.
  - intros w Hw. cbn [workspaces update set_workspaces]. unfold l'. rewrite elem_update_where. unfold cwd_is. split.
    + intros (x & Hx & ->). destruct (String.eqb_spec (w_cwd x) cwd) as [E|E]; [done|done].
    + intros [Hx E]. exists w. split; [done|]. by rewrite (proj2 (String.eqb_neq _ _) E).
Qed.

Lemma ensured_references now id cwd name d d' : db_wf d -> ensured now id cwd name d d' -> references d'.
Proof.
  intros [_ Hi Hc Hr] (Hs & _ & _ & _ & (w0 & Hw0 & Ew0 & _) & Hoth) s w Hin Ew. rewrite Hs in Hin.
  destruct (decide (w = id)) as [-> |Hne]; [apply list_elem_of_fmap; exists w0; by split|].
  assert (Hold : exists s', s' ∈ sessions d /\ s_workspace s' = Some w /\ forall o, owner cwd d = Some o -> w <> w_id o).
  { destruct (owner cwd d) as [o|]; cbn in Hin; [|exists s; naive_solver].
    destruct (move_session_in _ _ _ _ _ Hin Ew) as [->|(s' & ? & ? & ?)]; [done|]. exists s'. naive_solver. }
  destruct Hold as (s' & Hs' & Es' & Hno). destruct (proj1 (list_elem_of_fmap _ _ _) (Hr s' w Hs' Es')) as (x & -> & Hx).
  apply list_elem_of_fmap. exists x. split; [done|]. apply Hoth; [done|]. split; [done|]. intros Ec.
  apply (Hno x); [|done]. by apply (find_by_cwd cwd).
Qed.

Lemma ensured_sessions now id cwd name d d' : ensured now id cwd name d d' -> map s_id (sessions d') = map s_id (sessions d).
Proof. intros (-> & _). destruct (owner cwd d) as [o|]; [apply move_session_ids|done]. Qed.

Lemma ensure_ok now id cwd name d : db_wf d ->
  exists d', ensure_workspace now id cwd name d = (Ok tt, d') /\ db_wf d' /\ ensured now id cwd name d d'.
Proof.
  intros Hwf. assert (H : exists d', ensure_body now id cwd name d = Some d' /\ ensured now id cwd name d d' /\
             NoDup (map w_id (workspaces d')) /\ NoDup (map w_cwd (workspaces d'))).
  { destruct (List.find (ws_is id) (workspaces d)) as [w0|] eqn:Hid; [by apply (ensure_same_id now id cwd name d w0)|].
    destruct (owner cwd d) as [old|] eqn:Ho; [by apply (ensure_drifted now id cwd name d old)|].
    eexists. by apply ensure_create. }
  destruct H as (d' & Hb & He & Hi & Hc). pose proof (ensured_references _ _ _ _ _ _ Hwf He) as Hr.
  exists d'. unfold ensure_workspace. rewrite Hb, (proj2 (references_ok_iff d') Hr). split; [done|]. split; [|done].
  constructor; [|done..]. rewrite (ensured_sessions _ _ _ _ _ _ He). by destruct Hwf.
Qed.

(** Aligning a workspace never fails.  Afterwards exactly one workspace has
    the identifier, and it has the directory and the name asked for, with the
    description, the tags, the archive mark and the age of the row that had the
    identifier, or else of the row that had the directory.  All other rows stay,
    but the one whose directory was taken.  No session and no seed is lost or
    changed: those of the workspace that had the directory now belong to the
    identifier.  Identifiers and directories stay unique and no session refers to
    a workspace that is not there. *)
Theorem ensure_workspace_spec now id cwd name d : db_wf d ->
  exists d', ensure_workspace now id cwd name d = (Ok tt, d') /\ db_wf d' /\
  sessions d' = moved_sessions id (owner cwd d) (sessions d) /\ seeds d' = moved_seeds id (owner cwd d) (seeds d) /\
  principles d' = principles d /\ subagents d' = subagents d /\
  (exists w, w ∈ workspaces d' /\ w_id w = id /\ w_cwd w = cwd /\ w_name w = name /\ metadata w = metadata (metadata_source now id cwd name d)) /\
  (forall w, w_id w <> id -> w ∈ workspaces d' <-> w ∈ workspaces d /\ w_cwd w <> cwd).
Proof. intros Hwf. destruct (ensure_ok now id cwd name d Hwf) as (d' & H1 & H2 & H3). by exists d'. Qed.

(** *** Every operation keeps the invariant *)

(** The operations that change the database. *)
Inductive Op :=
| SaveSession (now : Z) (id messages : string)
| CreateSession (now : Z) (id title cwd workspace : string)
| ArchiveSession (id : string) | UnarchiveSession (id : string) | RenameSession (now : Z) (id title : string)
| DeleteSessions (ids : list string)
| SaveHashes (id : string) (hashes : gset Z)
| EnsureWorkspace (now : Z) (id cwd name : string)
| UpdateMetadata (now : Z) (id name description tags : string)
| ArchiveWorkspace (now : Z) (id : string) | UnarchiveWorkspace (now : Z) (id : string)
| SaveSubagent (s : SubagentSession).

Definition perform (to_string : Value -> string) (set_iter : gset Z -> list Z) (o : Op) (d : Database) : Database :=
  match o with
  | SaveSession now id messages => snd (save_session now id messages d)
  | CreateSession now id title cwd workspace => snd (create_session now id title cwd workspace d)
  | ArchiveSession id => archive_session id d
  | UnarchiveSession id => unarchive_session id d
  | RenameSession now id title => rename_session now id title d
  | DeleteSessions ids => delete_sessions ids d
  | SaveHashes id hashes => save_distilled_hashes to_string set_iter id hashes d
  | EnsureWorkspace now id cwd name => snd (ensure_workspace now id cwd name d)
  | UpdateMetadata now id name description tags => snd (update_workspace_metadata now id name description tags d)
  | ArchiveWorkspace now id => snd (archive_workspace now id d)
  | UnarchiveWorkspace now id => snd (unarchive_workspace now id d)
  | SaveSubagent s => save_subagent_session s d
  end.

(** Rows changed in place, with their keys and references. *)
Lemma in_place_wf d l lw (H1 : map s_id l = map s_id (sessions d)) (H2 : map s_workspace l = map s_workspace (sessions d))
  (H3 : map w_id lw = map w_id (workspaces d)) (H4 : map w_cwd lw = map w_cwd (workspaces d)) seeds' principles' subagents' :
  db_wf d -> db_wf {| sessions := l; workspaces := lw; seeds := seeds'; principles := principles'; subagents := subagents' |}.
Proof.
  intros [Hs Hi Hc Hr]. constructor; cbn; [by rewrite H1|by rewrite H3|by rewrite H4|]. intros s w Hin E. cbn in Hin |- *. rewrite H3.
  assert (Hw : Some w ∈ map s_workspace l) by (rewrite <- E; apply list_elem_of_fmap; eauto).
  rewrite H2 in Hw. apply list_elem_of_fmap in Hw as (s' & E' & Hin'). by apply (Hr s').
Qed.

Lemma set_session_wf f id d : (forall s, s_id (f s) = s_id s) -> (forall s, s_workspace (f s) = s_workspace s) -> db_wf d -> db_wf (set_session f id d).
Proof. intros Hi Hw. apply in_place_wf; [by apply map_update_where..|done|done]. Qed.

Lemma add_session_wf s d : s_id s ∉ map s_id (sessions d) -> (forall w, s_workspace s = Some w -> w ∈ map w_id (workspaces d)) ->
  db_wf d -> db_wf (d <| sessions ::= fun l => (l ++ [s])%list |>).
Proof.
  intros Hn Hw [Hs Hi Hc Hr]. constructor; cbn; [|done|done|].
  - rewrite map_app. apply NoDup_app. split; [done|]. split; [|apply NoDup_singleton]. intros x Hx ->%list_elem_of_singleton. done.
  - intros s' w [Hin|Hin%list_elem_of_singleton]%elem_of_app E; [by apply (Hr s')|]. subst s'. by apply Hw.
Qed.

Lemma create_session_wf now id title cwd workspace d : db_wf d -> db_wf (snd (create_session now id title cwd workspace d)).
Proof.
  intros Hwf. unfold create_session. destruct (existsb (id_is id) (sessions d)) eqn:Hid; [done|].
  assert (Hn : id ∉ map s_id (sessions d)) by (intros H%has_session; congruence).
  destruct (is_empty_str workspace); [by apply add_session_wf|]. destruct (existsb (ws_is workspace) (workspaces d)) eqn:Hw; [|done].
  apply add_session_wf; [done| |done]. cbn. intros w [= <-]. by apply has_workspace.
Qed.

Lemma delete_session_wf id d : db_wf d -> db_wf (delete_session id d).
Proof.
  intros [Hs Hi Hc Hr]. constructor; cbn -[delete_where]; [by apply NoDup_delete_where|done|done|].
  intros s w Hin. apply elem_delete_where in Hin as [Hin _]. by apply (Hr s).
Qed.

Lemma perform_wf to_string set_iter o d : db_wf d -> db_wf (perform to_string set_iter o d).
Proof.
  intros Hwf. destruct o; cbn [perform].
  - unfold save_session. cbn [snd]. destruct (existsb (id_is id) (sessions d)) eqn:Hid; [by apply set_session_wf|].
    apply add_session_wf; [|done|done]. intros H%(has_session id). congruence.
  - by apply create_session_wf.
  - by apply set_session_wf.
  - by apply set_session_wf.
  - by apply set_session_wf.
  - unfold delete_sessions. revert d Hwf. induction ids as [|id ids IH]; intros d Hwf; [done|]. cbn. by apply IH, delete_session_wf.
  - by apply set_session_wf.
  - by destruct (ensure_ok now id cwd name d Hwf) as (d' & -> & H & _).
  - apply (in_place_wf d); [done|done|by apply map_update_where..|done].
  - apply (in_place_wf d); [by apply map_update_where..|done].
  - apply (in_place_wf d); [done|done|by apply map_update_where..|done].
  - by apply (in_place_wf d).
Qed.

(** Over every run of the operations of the store, session identifiers,
    workspace identifiers and directories are unique, and every session refers to
    a workspace of the table or to none. *)
Theorem database_kept to_string set_iter ops : db_wf (foldl (fun d o => perform to_string set_iter o d) empty_database ops).
Proof.
  assert (H : forall ops d, db_wf d -> db_wf (foldl (fun d o => perform to_string set_iter o d) d ops)).
  { clear ops. induction ops as [|o ops IH]; intros d Hd; [done|]. cbn. by apply IH, perform_wf. }
  apply H. constructor; cbn; [constructor..|]. intros s w Hin. by apply elem_of_nil in Hin.
Qed.

(** ** The handlers of workspaces *)

Lemma changed_one id d w : NoDup (map w_id (workspaces d)) -> w ∈ workspaces d -> w_id w = id -> changed (ws_is id) (workspaces d) <> 0.
Proof.
  intros _ Hin E H. unfold changed in H. apply length_zero_iff_nil in H.
  assert (Hx : w ∈ List.filter (ws_is id) (workspaces d)) by (apply elem_of_Lfilter; split; [done|]; unfold ws_is; by rewrite E, String.eqb_refl).
  rewrite H in Hx. by apply elem_of_nil in Hx.
Qed.

Lemma mapM_strings l : mapM as_str (map Str l) = Some l.
Proof. induction l as [|s l IH]; [done|]. cbn. by rewrite IH. Qed.

Lemma tags_read_back (from_str : string -> option Value) (to_string : Value -> string) l :
  from_str (to_string (tags_json l)) = Some (tags_json l) -> tags_of from_str (to_string (tags_json l)) = l.
Proof. intros H. unfold tags_of. rewrite H. cbn [tags_json]. by rewrite mapM_strings. Qed.

(** A patch of a workspace that is there changes what it names and keeps the
    rest: its row gets the given name, description and tags, or has those it had;
    no other row, session or seed changes.  A patch of one that is not there is
    refused and changes nothing. *)
Theorem patch_spec (from_str : string -> option Value) (to_string : Value -> string) now id body d :
  (forall w tags, List.find (ws_is id) (workspaces d) = Some w -> tags = default (tags_of from_str (w_tags w)) (b_tags body) ->
   from_str (to_string (tags_json tags)) = Some (tags_json tags)) -> db_wf d ->
  match List.find (ws_is id) (workspaces d) with
  | None => handle_patch_workspace from_str to_string now id body (Some d) = (Err workspace_not_found, Some d)
  | Some w => exists d', handle_patch_workspace from_str to_string now id body (Some d) = (Ok (Obj [("ok", Bool true)]), Some d') /\
      sessions d' = sessions d /\ seeds d' = seeds d /\ map w_id (workspaces d') = map w_id (workspaces d) /\
      (forall w', w_id w' <> id -> w' ∈ workspaces d' <-> w' ∈ workspaces d) /\
      exists w', List.find (ws_is id) (workspaces d') = Some w' /\ w_cwd w' = w_cwd w /\ w_archived w' = w_archived w /\
        w_name w' = default (w_name w) (b_name body) /\ w_description w' = default (w_description w) (b_description body) /\
        tags_of from_str (w_tags w') = default (tags_of from_str (w_tags w)) (b_tags body)
  end.
Proof.
  intros Hjson [_ Hi _ _]. unfold handle_patch_workspace, get_workspace. destruct (List.find (ws_is id) (workspaces d)) as [w|] eqn:Hw; [|done].
  specialize (Hjson w _ eq_refl eq_refl). apply find_by_id in Hw as [Hin Ew]; [|done]. cbn [option_map]. unfold update_workspace_metadata, counted. cbn [fst snd].
  rewrite (proj2 (Nat.eqb_neq _ _) (changed_one _ _ _ Hi Hin Ew)). eexists. split; [reflexivity|]. cbn [sessions seeds workspaces update set_workspaces].
  set (f := fun w0 : Workspace => _). assert (Hids : map w_id (update_where (ws_is id) f (workspaces d)) = map w_id (workspaces d)) by (by apply map_update_where).
  split_and!; [done..|exact Hids| |].
  - intros w' Hne. rewrite elem_update_where. split.
    + intros (x & Hx & ->). unfold ws_is in *. destruct (String.eqb_spec (w_id x) id); [done|done].
    + intros Hx. exists w'. split; [done|]. unfold ws_is. by rewrite (proj2 (String.eqb_neq _ _) Hne).
  - exists (f w). split_and!; [|done|done|unfold f; cbn; by destruct (b_name body)|unfold f; cbn; by destruct (b_description body)|].
    + apply find_by_id; [by rewrite Hids|]. split; [|done]. apply elem_update_where. exists w. split; [done|]. unfold ws_is. by rewrite Ew, String.eqb_refl.
    + unfold f. cbn [w_tags update set_w_tags set_w_updated_at]. destruct (b_tags body) as [l|]; [by apply tags_read_back|].
      by apply (tags_read_back from_str to_string (tags_of from_str (w_tags w))).
Qed.

(** Archiving a workspace archives its sessions; taking it back does not bring
    them back, and changes no session at all. *)
Theorem archive_asymmetric now now' id d s : db_wf d ->
  s ∈ sessions (snd (unarchive_workspace now' id (snd (archive_workspace now id d)))) ->
  exists s', s' ∈ sessions d /\ s_id s' = s_id s /\ s_workspace s' = s_workspace s /\
             s_archived s = if bool_decide (s_workspace s' = Some id) then 1%Z else s_archived s'.
Proof.
  intros _. cbn [unarchive_workspace archive_workspace snd sessions update set_workspaces set_sessions]. rewrite elem_update_where.
  intros (s' & Hin & ->). exists s'. split; [done|]. unfold belongs_to. destruct (s_workspace s') as [w|] eqn:E; cbn; [|by rewrite E].
  destruct (String.eqb_spec w id) as [-> |Hne]; cbn; rewrite E; split_and!; try done; [by rewrite bool_decide_eq_true_2|].
  rewrite bool_decide_eq_false_2; [done|]. congruence.
Qed.

Lemma listing_partition latest d : (forall l, latest l ≡ₚ l) -> (forall s, s ∈ sessions d -> s_archived s = 0%Z \/ s_archived s = 1%Z) ->
  latest (List.filter (listed "all") (sessions d)) ≡ₚ
  (latest (List.filter (listed "active") (sessions d)) ++ latest (List.filter (listed "archived") (sessions d)))%list.
Proof.
  intros Hp H. rewrite !Hp. clear Hp. generalize dependent (sessions d). induction l as [|s l IH]; intros H; [done|].
  assert (IH' := IH (fun x Hx => H x (list_elem_of_further _ _ _ Hx))). cbn [List.filter].
  change (listed "all" s) with true. change (listed "active" s) with (s_archived s =? 0)%Z. change (listed "archived" s) with (s_archived s =? 1)%Z.
  cbv iota. rewrite IH'. destruct (H s) as [-> | ->]; [left|done|cbn]. by rewrite Permutation_middle.
Qed.

Section Creation.
Context {FS : Type} `{FileSystemLaws FS}.
Context (error_text : StoreError -> string).

(** Creating a workspace is refused, with nothing changed, when the directory is
    relative or has its configuration already; otherwise, and if the file system
    does its part, the configuration is written and the workspace is in the
    table, with the sessions that were there before. *)
Theorem create_workspace_spec now uuid cwd name fs d : db_wf d ->
  let '(response, fs', earth) := handle_create_workspace error_text now uuid cwd name fs (Some d) in
  let path := cwd +:+ "/.jia/config.toml" in
  (is_absolute cwd = false \/ fs_exists fs path = true -> is_ok response = false /\ fs' = fs /\ earth = Some d) /\
  (forall q, q <> path -> fs_read fs' q = fs_read fs q) /\
  (is_ok response = false -> earth = Some d) /\
  (is_ok response = true -> fs_exists fs path = false /\ fs_read fs' path = Ok (workspace_config uuid name) /\
     exists d', earth = Some d' /\ db_wf d' /\ ensured now uuid cwd name d d').
Proof.
  intros Hwf. unfold handle_create_workspace. cbv zeta. set (path := cwd +:+ "/.jia/config.toml").
  destruct (is_absolute cwd) eqn:Habs; cbn [negb]; [|split_and!; done]. destruct (fs_exists fs path) eqn:Hex; [split_and!; done|].
  pose proof (mkdir_frame cwd fs) as Hf1. destruct (fs_create_dir_all cwd fs) as [[[]|e] fs1]; cbn [snd] in Hf1; [|split_and!; naive_solver].
  pose proof (mkdir_frame (cwd +:+ "/.jia") fs1) as Hf2.
  destruct (fs_create_dir_all (cwd +:+ "/.jia") fs1) as [[[]|e] fs2]; cbn [snd] in Hf2; [|split_and!; [naive_solver|intros; by rewrite Hf2|done|done]].
  pose proof (write_frame path (workspace_config uuid name) fs2) as Hf3. pose proof (write_read path (workspace_config uuid name) fs2) as Hw.
  destruct (fs_write path (workspace_config uuid name) fs2) as [[[]|e] fs3]; cbn [snd] in Hf3;
    [|split_and!; [naive_solver|intros; by rewrite Hf3, Hf2|done|done]].
  destruct (ensure_ok now uuid cwd name d Hwf) as (d' & -> & Hwf' & He).
  split_and!; [naive_solver|intros; by rewrite Hf3, Hf2|done|]. intros _. split_and!; [done|by apply Hw|]. by exists d'.
Qed.
End Creation.

(** ** Round trips *)

(** The exchanges marked as distilled are found marked by the next session, also
    when many marks are kept. *)
Theorem hashes_roundtrip (from_str : string -> option Value) (to_string : Value -> string) set_iter id hashes d :
  (let v := Arr (map (fun n => Num (PosInt n)) (set_iter hashes)) in from_str (to_string v) = Some v) ->
  (forall h, set_iter h ≡ₚ elements h) -> (forall n, n ∈ hashes -> (0 <= n < 2 ^ 64)%Z) -> id ∈ map s_id (sessions d) ->
  load_distilled_hashes from_str id (save_distilled_hashes to_string set_iter id hashes d) = hashes.
Proof.
  cbv zeta. intros Hjson Hiter Hb Hid. unfold load_distilled_hashes, save_distilled_hashes, find_session, set_session.
  cbn [sessions update set_sessions]. set (f := fun s : Session => _).
  assert (Hfind : exists s, List.find (id_is id) (update_where (id_is id) f (sessions d)) = Some s /\ s_hashes s = to_string (Arr (map (fun n => Num (PosInt n)) (set_iter hashes)))).
  { induction (sessions d) as [|s l IH]; [by apply elem_of_nil in Hid|]. cbn in Hid |- *. destruct (id_is id s) eqn:E.
    - exists (f s). unfold id_is in *. cbn. by rewrite E.
    - assert (E' : s_id s <> id) by (by apply String.eqb_neq). destruct IH as (s' & Hs' & E2); [by apply elem_of_cons in Hid as [-> |?]|].
      exists s'. rewrite E. done. }
  destruct Hfind as (s & -> & ->). rewrite Hjson. cbn.
  assert (Hm : mapM (fun x => n ← as_u64 x; if (n <? 2 ^ 64)%Z then Some n else None) (map (fun n => Num (PosInt n)) (set_iter hashes)) = Some (set_iter hashes)).
  { assert (Hall : forall n, n ∈ set_iter hashes -> (n < 2 ^ 64)%Z) by (intros n Hn; rewrite (Hiter hashes), elem_of_elements in Hn; by apply Hb).
    clear -Hall. induction (set_iter hashes) as [|n l IH]; [done|]. cbn -[Z.ltb].
    rewrite (proj2 (Z.ltb_lt n _)); [|apply Hall; left]. cbn -[Z.ltb]. by rewrite IH; [|intros; apply Hall; right]. }
  rewrite Hm. cbn. apply leibniz_equiv. intros x. rewrite elem_of_list_to_set, (Hiter hashes). apply elem_of_elements.
Qed.

Lemma u64_roundtrip n : (0 <= n < 2 ^ 64)%Z -> i64_as_u64 (u64_as_i64 n) = n.
Proof.
  intros H. unfold i64_as_u64, u64_as_i64. destruct (Z.ltb_spec n (2 ^ 63)); [by apply Z.mod_small|].
  replace (n - 2 ^ 64)%Z with (n + (-1) * 2 ^ 64)%Z by lia. rewrite Z.mod_add by lia. by apply Z.mod_small.
Qed.

Lemma count_back n k (fields : list (string * Value)) : (0 <= n < 2 ^ 64)%Z -> Json.assoc k fields = Some (int_json n) ->
  as_u64 (index (Obj fields) k) = Some n.
Proof. intros Hn E. unfold index, get. rewrite E. cbn. by rewrite (proj2 (Z.leb_le 0 n)) by lia. Qed.

(** The counters of a self-model are 64-bit numbers. *)
Definition manas_ok (m : Manas) : Prop :=
  (0 <= total_turns m < 2 ^ 64)%Z /\ (0 <= consolidation_count m < 2 ^ 64)%Z /\ (0 <= stable_pattern_count m < 2 ^ 64)%Z /\
  (0 <= stable_epochs m < 2 ^ 64)%Z /\ (- 2 ^ 63 <= last_consolidation_at m < 2 ^ 63)%Z.

Lemma i64_back n : (- 2 ^ 63 <= n < 2 ^ 63)%Z -> as_i64 (int_json n) = Some n.
Proof. intros H. unfold int_json. destruct (Z.leb_spec 0 n); cbn; [|done]. by rewrite (proj2 (Z.ltb_lt _ _)) by lia. Qed.
Lemma u64_back n : (0 <= n < 2 ^ 64)%Z -> as_u64 (int_json n) = Some n.
Proof. intros H. unfold int_json. by rewrite (proj2 (Z.leb_le 0 n)) by lia. Qed.

(** The self-model saved after a session is the one the next session starts
    from: counters through signed columns, the attachment value through binary64,
    whatever the row held before. *)
Theorem manas_roundtrip from_str to_string printed reread m row :
  (forall f, f = printed \/ f = (fun x => reread (printed x)) -> from_str (to_string (manas_json f m)) = Some (manas_json f m)) ->
  to_f32 (reread (printed (atma_graha m))) = atma_graha m -> manas_ok m ->
  session_manas from_str to_string reread (snd (save_manas from_str (to_string (manas_json printed m)) row)) = m.
Proof.
  intros Hjson Hf (H1 & H2 & H3 & H4 & H5). pose proof (Hjson _ (or_introl eq_refl)) as Hj1. pose proof (Hjson _ (or_intror eq_refl)) as Hj2.
  unfold save_manas. rewrite Hj1. unfold manas_json, index, get. cbn -[u64_as_i64 as_u64 as_i64 int_json].
  rewrite !u64_back, i64_back by done. cbn -[u64_as_i64 i64_as_u64 as_u64 as_i64 int_json]. unfold session_manas, load_manas.
  cbn -[u64_as_i64 i64_as_u64 as_u64 as_i64 int_json]. rewrite !u64_roundtrip by done. unfold manas_json in Hj2. rewrite Hj2.
  cbn -[as_u64 as_i64 int_json]. unfold decode_manas, index, get. cbn -[as_u64 as_i64 int_json]. rewrite !u64_back by done.
  cbn -[as_u64 as_i64 int_json]. rewrite i64_back by done. cbn. rewrite Hf. by destruct m.
Qed.

(** ** Versions *)

Section Versions.
Context {Schema : Type} (execute : string -> Schema -> option Schema) (init : Schema -> option Schema).

(** Opening a store: a current one is left alone.  A new one is sealed at the
    current version, whatever statements have failed; one of the version before
    is sealed exactly when none fails. *)
Theorem migrate_spec alters rename now (st : Store Schema) :
  match version st with
  | 0%Z => match init (schema st), migrate execute init alters rename now st with
           | None, r => r = None
           | Some _, r => exists st', r = Some st' /\ version st' = 2%Z
           end
  | 1%Z => exists st', migrate execute init alters rename now st = Some st' /\
           schema st' = snd (exec_tolerated execute rename (schema st)) /\
           (version st' = 2%Z <-> fst (exec_tolerated execute rename (schema st)) = 0) /\ (version st' = 1%Z \/ version st' = 2%Z)
  | v => (2 <= v)%Z -> migrate execute init alters rename now st = Some st
  end.
Proof.
  assert (Hcur : (2 <= version st)%Z -> migrate execute init alters rename now st = Some st).
  { intros Hv. unfold migrate. rewrite (proj2 (Z.ltb_ge _ _)) by lia. cbn. by rewrite (proj2 (Z.ltb_ge _ _)) by lia. }
  destruct (version st) as [|[p|p|]|p] eqn:Ev; try exact Hcur.
  - unfold migrate. rewrite Ev. cbn. destruct (init (schema st)) as [s|]; [|done]. cbn.
    destruct (exec_tolerated execute alters s) as [f s'] eqn:E1. cbn. destruct (exec_tolerated execute rename s') as [f2 s2]. cbn.
    eexists. by split.
  - unfold migrate. rewrite Ev. cbn. destruct (exec_tolerated execute rename (schema st)) as [f s]. cbn. eexists. split; [reflexivity|]. cbn.
    rewrite Ev. destruct f; cbn; split_and!; try done; [by right|by left].
Qed.
End Versions.

Section DissolutionFacts.
Context (from_str : string -> option Value) (to_string : Value -> string) (printed : spec_float -> spec_float).

Lemma usize_back n : (Z.of_nat n < 2 ^ 64)%Z -> i64_as_usize (usize_as_i64 n) = n.
Proof. intros H. unfold i64_as_usize, usize_as_i64. rewrite u64_roundtrip by lia. apply Nat2Z.id. Qed.

Lemma digest_back l : mapM decode_digest (map digest_json l) = Some l.
Proof. induction l as [|[n s p] l IH]; [done|]. cbn. by rewrite IH. Qed.

Definition finite (x : spec_float) : Prop := match x with S754_nan | S754_infinity _ => False | _ => True end.
Definition float_ok (x : spec_float) : Prop := finite x /\ to_f32 (printed x) = x.
Definition entropy_ok (e : AlayaEntropy) : Prop :=
  float_ok (staleness e) /\ float_ok (contradiction e) /\ float_ok (redundancy e) /\ float_ok (access_decay e) /\ float_ok (total e).

Lemma float_back x k fields : Json.assoc k fields = Some (float_json printed x) -> float_ok x -> to_f32 <$> as_f64 (index (Obj fields) k) = Some x.
Proof. intros E [Hf Hx]. unfold index, get. rewrite E. destruct x; [cbn; f_equal; exact Hx|done|done|cbn; f_equal; exact Hx]. Qed.

Lemma entropy_back e : entropy_ok e -> decode_entropy (entropy_json printed e) = Some e.
Proof.
  intros (H1 & H2 & H3 & H4 & H5). unfold decode_entropy, entropy_json. cbv zeta.
  match goal with |- context [Obj ?f] => set (fields := f) end.
  rewrite (float_back (staleness e) "staleness" fields eq_refl H1). cbn [mbind option_bind].
  rewrite (float_back (contradiction e) "contradiction" fields eq_refl H2). cbn [mbind option_bind].
  rewrite (float_back (redundancy e) "redundancy" fields eq_refl H3). cbn [mbind option_bind].
  rewrite (float_back (access_decay e) "access_decay" fields eq_refl H4). cbn [mbind option_bind].
  rewrite (float_back (total e) "total" fields eq_refl H5). cbn. by destruct e.
Qed.

(** A report whose numbers fit their columns. *)
Definition report_ok (r : ZuowangReport) : Prop :=
  (Z.of_nat (seeds_examined r) < 2 ^ 64)%Z /\ (Z.of_nat (seeds_dissolved r) < 2 ^ 64)%Z /\ (Z.of_nat (seeds_weakened r) < 2 ^ 64)%Z /\
  (Z.of_nat (seeds_downgraded r) < 2 ^ 64)%Z /\ (Z.of_nat (score_protected r) < 2 ^ 64)%Z /\
  (exists kept, score_kept r = Some kept /\ (Z.of_nat kept < 2 ^ 64)%Z) /\ entropy_ok (entropy_dimensions r) /\
  to_f32 (entropy_before r) = entropy_before r /\ to_f32 (entropy_after r) = entropy_after r /\
  is_nan (entropy_before r) = false /\ is_nan (entropy_after r) = false.

(** What a report is stored as is read back by the decoder. *)
Definition text_ok (r : ZuowangReport) : Prop :=
  forall v, v = entropy_json printed (entropy_dimensions r) \/ v = Arr (map digest_json (dissolved_sample r)) -> from_str (to_string v) = Some v.

Lemma report_back r l : text_ok r -> report_ok r ->
  exists row, save_dissolution_report to_string printed r l = (Ok tt, (l ++ [row])%list) /\ dissolution_report from_str row = r /\ dr_timestamp row = z_timestamp r.
Proof.
  intros Hjson (H1 & H2 & H3 & H4 & H5 & (kept & Hk & H6) & He & Hb & Ha & Hn1 & Hn2). unfold save_dissolution_report. rewrite Hk, Hn1, Hn2.
  exists (dissolution_row to_string printed kept r). split; [done|]. split; [|done]. unfold dissolution_report, dissolution_row. cbn -[decode_entropy entropy_json].
  rewrite !usize_back by done.
  rewrite (Hjson _ (or_introl eq_refl)), (Hjson _ (or_intror eq_refl)). cbn -[decode_entropy entropy_json]. rewrite (entropy_back _ He), digest_back, Hb, Ha. cbn. rewrite <- Hk. by destruct r.
Qed.
Definition later (a b : DissolutionRow) : Prop := (dr_timestamp b <= dr_timestamp a)%Z.
Definition saved (rs : list ZuowangReport) : list DissolutionRow := foldl (fun l r => snd (save_dissolution_report to_string printed r l)) [] rs.

Lemma saved_reports rs : (forall r, r ∈ rs -> text_ok r /\ report_ok r) ->
  map (dissolution_report from_str) (saved rs) = rs.
Proof.
  induction rs as [|r rs IH] using rev_ind; intros Hok; [done|].
  specialize (IH (fun x Hx => Hok x (proj2 (elem_of_app _ _ _) (or_introl Hx)))). unfold saved in *. rewrite foldl_snoc.
  destruct (report_back r (foldl (fun l r => snd (save_dissolution_report to_string printed r l)) [] rs)) as (row & -> & Hrow & _);
    [apply Hok, elem_of_app; right; by left..|].
  cbn [snd]. rewrite map_app, IH. cbn. by rewrite Hrow.
Qed.

Lemma StronglySorted_rev l : StronglySorted (fun a b => (dr_timestamp a < dr_timestamp b)%Z) l -> StronglySorted later (rev l).
Proof.
  induction 1 as [|x l Hl IH Hx]; [constructor|]. cbn. apply StronglySorted_app_2; [|done|repeat constructor].
  intros y z Hy Hz%list_elem_of_singleton. subst z. rewrite Forall_forall in Hx. unfold later. specialize (Hx y). apply list_elem_of_In, in_rev, list_elem_of_In, Hx in Hy. lia.
Qed.

Lemma same_time l x y : StronglySorted (fun a b => (dr_timestamp a < dr_timestamp b)%Z) l -> x ∈ l -> y ∈ l -> dr_timestamp x = dr_timestamp y -> x = y.
Proof.
  induction 1 as [|z l Hl IH Hz]; [by intros ?%elem_of_nil|]. rewrite Forall_forall in Hz.
  intros [-> |Hx]%elem_of_cons [-> |Hy]%elem_of_cons E; [done|specialize (Hz _ Hy); lia|specialize (Hz _ Hx); lia|by apply IH].
Qed.

(** After a restart the history shows the newest reports that were saved, each
    as it was, in the order of their times. *)
Theorem history_roundtrip newest rs :
  (forall l, newest l ≡ₚ l) -> (forall l, StronglySorted later (newest l)) ->
  (forall r, r ∈ rs -> text_ok r /\ report_ok r) -> StronglySorted (fun a b => (z_timestamp a < z_timestamp b)%Z) rs ->
  load_dissolution_history from_str newest 20 (saved rs) = drop (length rs - 20) rs.
Proof.
  intros Hperm Hsort Hok Hasc. pose proof (saved_reports rs Hok) as Hr. set (l := saved rs) in *. clearbody l.
  assert (Hl : StronglySorted (fun a b => (dr_timestamp a < dr_timestamp b)%Z) l).
  { rewrite <- Hr in Hasc. clear -Hasc. induction l as [|x l IH]; [constructor|]. cbn in Hasc.
    apply StronglySorted_inv in Hasc as [Hasc Hall]. constructor; [by apply IH|]. rewrite Forall_map in Hall. eapply Forall_impl; [exact Hall|]. done. }
  assert (E : newest l = rev l).
  { apply (StronglySorted_unique_strong later); [|apply Hsort|by apply StronglySorted_rev|rewrite Hperm; apply Permutation_rev].
    intros x y Hx Hy Hxy Hyx. rewrite (Hperm l) in Hx. apply list_elem_of_In, in_rev, list_elem_of_In in Hy.
    apply (same_time l); [done..|]. unfold later in *. lia. }
  unfold load_dissolution_history. rewrite E. unfold Graph.sql_limit. rewrite (proj2 (Z.ltb_lt 20 _)) by lia.
  rewrite <- firstn_map, map_rev, Hr. change (Z.to_nat 20) with 20. rewrite firstn_rev, rev_involutive. done.
Qed.
End DissolutionFacts.

(** ** Concrete runs *)

Definition no_iter (h : gset Z) : list Z := elements h.

(** Two workspaces with a session each. *)
Definition two : Database :=
  foldl (fun d o => perform (fun _ => "") no_iter o d) empty_database
    [EnsureWorkspace 1 "w1" "/a" "first"; EnsureWorkspace 2 "w2" "/b" "second"; UpdateMetadata 3 "w1" "first" "about" "[]";
     CreateSession 4 "s1" "one" "/a" "w1"; CreateSession 5 "s2" "two" "/b" "w2"; SaveSession 6 "s3" "[]"].
Lemma two_wf : db_wf two.
Proof.
  constructor; [by apply (bool_decide_unpack _); vm_compute..|].
  apply references_ok_iff. reflexivity.
Qed.

Definition shown (d : Database) : list (string * string * string) * list (string * option string) :=
  (map (fun w => (w_id w, w_cwd w, w_description w)) (workspaces d), map (fun s => (s_id s, s_workspace s)) (sessions d)).

(** The first workspace moves to the directory of the second. *)
Example moved_over : shown (snd (ensure_workspace 9 "w1" "/b" "first" two)) =
  ([("w1", "/b", "about")], [("s1", Some "w1"); ("s2", Some "w1"); ("s3", None)]).
Proof. vm_compute. reflexivity. Qed.
(** A new identifier for the directory of the first. *)
Example drifted : shown (snd (ensure_workspace 9 "w3" "/a" "first" two)) =
  ([("w3", "/a", "about"); ("w2", "/b", "")], [("s1", Some "w3"); ("s2", Some "w2"); ("s3", None)]).
Proof. vm_compute. reflexivity. Qed.
(** A workspace that is not there is refused; no workspace is not. *)
Example no_such_workspace : fst (create_session 9 "s4" "" "/c" "w9" two) = Err ConstraintViolation /\ fst (create_session 9 "s4" "" "/c" "" two) = Ok tt.
Proof. vm_compute. by split. Qed.

Lemma ensure_workspace_spec_witness : exists d', ensure_workspace 9 "w1" "/b" "first" two = (Ok tt, d') /\ db_wf d' /\
  (forall w, w_id w <> "w1" -> w ∈ workspaces d' <-> w ∈ workspaces two /\ w_cwd w <> "/b").
Proof.
  destruct (ensure_workspace_spec 9 "w1" "/b" "first" two two_wf) as (d' & H1 & H2 & _ & _ & _ & _ & _ & H3).
  exists d'. split; [exact H1|]. split; [exact H2|exact H3].
Defined.

(** The text of tags, of marks, of a self-model. *)
Definition parse_as (v : Value) (_ : string) : option Value := Some v.

Lemma patch_spec_witness : fst (handle_patch_workspace (parse_as (tags_json [])) (fun _ => "[]") 9 "w1"
  {| b_name := None; b_description := Some "new"; b_tags := None |} (Some two)) = Ok (Obj [("ok", Bool true)]).
Proof.
  pose proof (patch_spec (parse_as (tags_json [])) (fun _ => "[]") 9 "w1" {| b_name := None; b_description := Some "new"; b_tags := None |} two
    ltac:(intros w tags H E; vm_compute in H; injection H as <-; subst tags; reflexivity) two_wf) as H.
  destruct (List.find (ws_is "w1") (workspaces two)) as [w|] eqn:E; [|vm_compute in E; discriminate].
  destruct H as (d' & H & _). by rewrite H.
Defined.

Definition restored : list Session := sessions (snd (unarchive_workspace 9 "w2" (snd (archive_workspace 8 "w2" two)))).
Definition second_session : Session := List.nth 1 restored (new_session "" "" 0).
Lemma archive_asymmetric_witness : s_archived second_session = 1%Z /\ exists s', s' ∈ sessions two /\ s_id s' = s_id second_session.
Proof.
  split; [reflexivity|]. destruct (archive_asymmetric 8 9 "w2" two second_session two_wf) as (s' & H1 & H2 & _).
  - change (second_session ∈ restored). vm_compute. right. left.
  - exists s'. by split.
Defined.

Definition no_files : MemFs := {| mem_files := ∅; mem_dirs := ∅; clock := 0 |}.
Lemma create_workspace_spec_witness : exists d', snd (handle_create_workspace (fun _ => "error") 9 "w3" "/c" "third" no_files (Some two)) = Some d' /\ db_wf d'.
Proof.
  pose proof (create_workspace_spec (fun _ => "error") 9 "w3" "/c" "third" no_files two two_wf) as H.
  destruct (handle_create_workspace _ _ _ _ _ _ _) as [[r fs'] e] eqn:E. cbv zeta in H. destruct H as (_ & _ & _ & H).
  destruct H as (_ & _ & d' & H & Hwf & _); [|exists d'; by split]. vm_compute in E. injection E as <- _ _. reflexivity.
Defined.

Lemma hashes_roundtrip_witness : load_distilled_hashes (parse_as (Arr [Num (PosInt 5)])) "s1"
  (save_distilled_hashes (fun _ => "[5]") no_iter "s1" {[5%Z]} two) = {[5%Z]}.
Proof.
  apply (hashes_roundtrip (parse_as (Arr [Num (PosInt 5)])) (fun _ => "[5]") no_iter "s1" {[5%Z]} two).
  - vm_compute. reflexivity.
  - intros h. reflexivity.
  - intros n Hn. apply elem_of_singleton in Hn as ->. lia.
  - vm_compute. left.
Defined.

Lemma manas_roundtrip_witness : session_manas (parse_as (manas_json (fun x => x) Manas_new)) (fun _ => "") (fun x => x)
  (snd (save_manas (parse_as (manas_json (fun x => x) Manas_new)) "" None)) = Manas_new.
Proof.
  apply (manas_roundtrip (parse_as (manas_json (fun x => x) Manas_new)) (fun _ => "") (fun x => x) (fun x => x) Manas_new None).
  - intros f [-> | ->]; reflexivity.
  - vm_compute. reflexivity.
  - unfold manas_ok. cbn. lia.
Defined.

(** A store without a version, on which a statement fails. *)
Example sealed_with_failures :
  option_map version (migrate (fun stmt s => if bool_decide (stmt = "BAD") then None else Some (S s)) Some "OK; -- no; BAD" "" 0
    {| version := 0; schema := 0; manas_history := []; dissolutions := [] |}) = Some 2%Z.
Proof. vm_compute. reflexivity. Qed.
Example statements_cut : statements ("  -- a; b" +:+ nl +:+ "CREATE x;" +:+ nl +:+ " ALTER y ; ") = ["CREATE x"; "ALTER y"].
Proof. vm_compute. reflexivity. Qed.

#[export] Instance later_dec : RelDecision later.
Proof. intros a b. unfold later. apply _. Defined.
#[export] Instance later_total : Total later.
Proof. intros a b. unfold later. lia. Qed.
#[export] Instance later_trans : Transitive later.
Proof. intros a b c. unfold later. lia. Qed.

Definition one_report (now : Z) : ZuowangReport := idle_report 7 no_entropy now.
Definition report_parse (s : string) : option Value := Some (if bool_decide (s = "[]") then Arr [] else entropy_json (fun x => x) no_entropy).
Definition report_print (v : Value) : string := match v with Arr _ => "[]" | _ => "{}" end.

Lemma history_roundtrip_witness :
  load_dissolution_history report_parse (stable_sort later) 20 (saved report_print (fun x => x) [one_report 1; one_report 2]) = [one_report 1; one_report 2].
Proof.
  apply (history_roundtrip report_parse report_print (fun x => x) (stable_sort later) [one_report 1; one_report 2]).
  - apply stable_sort_Permutation.
  - intros l. exact (StronglySorted_stable_sort later l).
  - intros r Hr. assert (Hz : exists now, r = one_report now).
    { apply elem_of_cons in Hr as [-> |Hr]; [by eexists|]. apply list_elem_of_singleton in Hr as ->. by eexists. }
    destruct Hz as [now ->]. split; [by intros v [-> | ->]|].
    unfold report_ok, entropy_ok, float_ok. cbn -[Z.pow]. split_and!; try done; try lia. exists 7. split; [done|lia].
  - repeat constructor; cbn; lia.
Defined.
