(* ===== verification/PostLoop.v ===== *)
(** * After the last turn

    src/kernel/src/plates/tian_heaven/loop_post.rs: what an agent does when its
    loop has ended.  The stages run in the order of the code over one state, the
    agent with the database, the files kept for reverting and the skills; each
    stage is the operation modelled in its own file.  A stage that panics ends the
    work there: what has been stored stays.  What the models and the outside
    answer is collected in one record. *)

From Stdlib Require Import Sorted.
From stdpp Require Import sorting strings gmap.
From S2P Require Import Prelude Update RString Float Json Mind Seeds Vasana Zuowang Sessions.
From S2P Require Principles Compaction Provider Context Evolution Skills Graph.
Local Open Scope string_scope.
Local Open Scope update_scope.
#[local] Arguments String.append !_ _ : simpl nomatch.

(** ** The state *)

(** The fields of the agent the work reads and changes. *)
Record Agent := {
  id : string;
  touched_seed_ids : list string;
  history : list Compaction.HistoryEntry;
  working_memory : WorkingMemory;
  manas : Manas;
  distilled_hashes : gset Z;
  skill_tool_calls : list string
}.

Section PostLoop.
Context {P Y D : Type} `{Evolution.Yaml Y} `{Skills.SkillFs D}.

(** The database, the row of the self-model, its history, the reports of
    forgetting, the names of the backup directories, and the skills. *)
Record World := {
  db : Database;
  manas_row : option ManasRow;
  manas_history : list ManasSnapshot;
  reports : list DissolutionRow;
  backups : list string;
  skills : Evolution.World D
}.

Definition Agent_eta (a : Agent) : Agent :=
  {| id := id a; touched_seed_ids := touched_seed_ids a; history := history a; working_memory := working_memory a; manas := manas a;
     distilled_hashes := distilled_hashes a; skill_tool_calls := skill_tool_calls a |}.
#[export] Instance set_touched : Setter touched_seed_ids. Proof. derive_setter Agent_eta. Defined.
#[export] Instance set_manas : Setter manas. Proof. derive_setter Agent_eta. Defined.
#[export] Instance set_distilled : Setter distilled_hashes. Proof. derive_setter Agent_eta. Defined.

Definition World_eta (w : World) : World :=
  {| db := db w; manas_row := manas_row w; manas_history := manas_history w; reports := reports w; backups := backups w; skills := skills w |}.
#[export] Instance set_db : Setter db. Proof. derive_setter World_eta. Defined.
#[export] Instance set_manas_row : Setter manas_row. Proof. derive_setter World_eta. Defined.
#[export] Instance set_manas_history : Setter manas_history. Proof. derive_setter World_eta. Defined.
#[export] Instance set_reports : Setter reports. Proof. derive_setter World_eta. Defined.
#[export] Instance set_backups : Setter backups. Proof. derive_setter World_eta. Defined.
#[export] Instance set_skills : Setter skills. Proof. derive_setter World_eta. Defined.

(** What comes from outside: libraries, the models, clocks (by stage), fresh
    identifiers, the orders left open, and the answers to what may fail. *)
Record Outside := {
  from_str : string -> option Value;
  to_string : Value -> string;
  printed : spec_float -> spec_float;
  reread : spec_float -> spec_float;
  lower : string -> string;
  upper : string -> string;
  ln : spec_float -> spec_float;
  newest_first : list SeedRow -> list SeedRow;
  weakest_first : list SeedRow -> list SeedRow;
  set_iter : gset Z -> list Z;
  (** The stages' clocks. *)
  at_touch : Z; at_save : Z; at_principles : Z; at_consolidation : Z; at_distillation : Z;
  at_forgetting : Z; after_forgetting : Z; at_evolution : Z;
  (** The texts that are stored, and the groups of the snapshots as the hash map
      gives them. *)
  history_text : option string;
  groups : list (string * list TurnSnapshot);
  principles_text : list Principles.SystemPrinciple -> option string;
  principle_ids : nat -> string;
  (** Consolidation and distillation. *)
  parse_facts : string -> result string (list ConsolidatedFact);
  show : Provider.ProviderError -> string;
  debug : string -> string;
  infer : nat -> list Context.Message -> list Provider.Item;
  warn : bool;
  fact_ids : nat -> string;
  ask : nat -> Context.Message -> option (list Provider.Item);
  similar : SeedTable -> string -> option (list string);
  insight_ids : nat -> string;
  (** Forgetting: another run holds the lock, the gate of deletion is open, the
      seeds the co-activation matrix calls dormant; the task may fail. *)
  busy : bool;
  si_men_open : bool;
  dormant : option nat;
  scheduler_fails : bool;
  (** The backup directory can be listed; a directory can be removed. *)
  listable : bool;
  removable : string -> bool;
  (** The skills that are not disabled, with what each one's evolution meets. *)
  active_skills : list (Skills.Skill P * Evolution.Outside);
  from_yaml : string -> option Skills.SkillFrontmatter;
  pretty_rows : list Evolution.SkillReflection -> string;
  by_time : list Evolution.SkillReflection -> list Evolution.SkillReflection;
  newest_revision : list Evolution.SkillRevisionRecord -> option Evolution.SkillRevisionRecord;
  aux : bool
}.
Context (o : Outside).

(** ** The stages *)

Definition on_seeds (f : SeedTable -> SeedTable) (w : World) : World := w <| db ::= fun d => d <| seeds ::= f |> |>.

Definition flush_touched (a : Agent) (w : World) : Agent * World :=
  (a <| touched_seed_ids := [] |>,
   match touched_seed_ids a with [] => w | ids => on_seeds (touch_batch (at_touch o) ids) w end).

Definition save_history (a : Agent) (w : World) : World :=
  match history_text o with
  | Some json => w <| db ::= fun d => snd (save_session (at_save o) (id a) json d) |>
  | None => w
  end.

Definition derive_principles (a : Agent) (w : World) : World :=
  match snapshots (working_memory a) with
  | [] => w
  | _ => match Principles.derive (principle_ids o) (id a) (groups o) (manas a) with
         | [] => w
         | ps => match principles_text o ps with
                 | Some json => w <| db ::= fun d => d <| principles ::= fun t =>
                                  snd (Principles.save_principles (from_str o) (to_string o) (at_principles o) (id a) json t) |> |>
                 | None => w
                 end
         end
  end.

(** [None] is a panic. *)
Definition consolidation (a : Agent) (w : World) : option (Agent * World) :=
  let snaps := snapshots (working_memory a) in
  if (length snaps <? 3)%nat then Some (a, w)
  else match consolidate (parse_facts o) (show o) (debug o) (infer o) (from_str o) (to_string o) (printed o) (fact_ids o) (at_consolidation o)
               (warn o) (id a) (session_workspace_id (id a) (db w)) snaps (seeds (db w)) with
       | (_, None, _) => None
       | (_, Some r, t) =>
           let w := on_seeds (fun _ => t) w in
           match r with
           | Ok n => Some (if (0 <? n)%nat then a <| manas ::= on_consolidation (at_consolidation o) (Z.of_nat n) |> else a, w)
           | Err _ => Some (a, w)
           end
       end.

Definition distillation (a : Agent) (w : World) : Agent * World :=
  let r := distill (ask o) (upper o) (similar o) (from_str o) (to_string o) (printed o) (insight_ids o) (at_distillation o)
             (id a) (session_workspace_id (id a) (db w)) (history a) (distilled_hashes a) (seeds (db w)) in
  let a := a <| distilled_hashes ::= fun h => h ∪ dl_hashes r |> in
  let w := on_seeds (fun _ => dl_table r) w in
  (a, w <| db ::= save_distilled_hashes (to_string o) (set_iter o) (id a) (distilled_hashes a) |>).

(** Whether the dissolution gets as far as its report. *)
Definition dissolves (t : SeedTable) : bool :=
  negb (busy o) &&
  match load_all_seeds (newest_first o) t with
  | [] => false
  | l => exceeds_threshold (entropy_compute (lower o) (load_seeds (from_str o) (reread o) (newest_first o) t) (at_forgetting o))
           (adapted (ln o) (F32.lit 75 100) (length l))
  end.

Definition forgetting (a : Agent) (w : World) : Agent * World :=
  if scheduler_fails o then (a, w)
  else
    let '(r, t) := schedule (lower o) (from_str o) (reread o) (ln o) (newest_first o) (weakest_first o) (busy o) (at_forgetting o)
                     (after_forgetting o) (si_men_open o) (dormant o) (seeds (db w)) in
    let zw := v_zuowang r in
    let w := if dissolves (seeds (db w)) then w <| reports ::= fun l => snd (save_dissolution_report (to_string o) (printed o) zw l) |> else w in
    let w := on_seeds (fun _ => t) w in
    if (0 <? seeds_examined zw)%nat then
      let a := a <| manas ::= recalibrate (entropy_dimensions zw) (Z.of_nat (v_total r)) |> in
      (a, w <| manas_history ::= insert_manas_snapshot
              {| ms_session := id a; ms_atma_graha := atma_graha (manas a); ms_entropy_total := total (entropy_dimensions zw);
                 ms_seed_count := Z.of_nat (v_total r); ms_created_at := after_forgetting o |} |>)
    else (a, w).

Definition KEPT_BACKUPS : nat := 30.
Definition name_le (a b : string) : Prop := String.compare a b <> Gt.
#[export] Instance name_le_dec : RelDecision name_le.
Proof. intros a b. unfold name_le. destruct (String.compare a b); apply _. Defined.

Definition prune_backups (l : list string) : list string :=
  if listable o && (KEPT_BACKUPS <? length l)%nat then
    let oldest := take (length l - KEPT_BACKUPS) (stable_sort name_le l) in
    List.filter (fun n => negb (bool_decide (n ∈ oldest) && removable o n)) l
  else l.

Definition save_self (a : Agent) (w : World) : World :=
  w <| manas_row ::= fun r => snd (save_manas (from_str o) (to_string o (manas_json (printed o) (manas a))) r) |>.

(** The user's messages, numbered from one. *)
Definition user_messages (l : list Compaction.HistoryEntry) : list (Z * string) :=
  imap (fun i c => (Z.of_nat i + 1, c)%Z) (omap (fun e => match e with Compaction.HUser c _ => Some c | _ => None end) l).

Definition evolution (a : Agent) (w : World) : option World :=
  '(_, ew) ← Evolution.run (from_yaml o) (from_str o) (pretty_rows o) (lower o) (by_time o) (newest_revision o) (active_skills o) (at_evolution o)
               (working_memory a) (skill_tool_calls a) (user_messages (history a)) (id a) (aux o) (skills w);
  Some (w <| skills := ew |>).

(** [post_loop]: whether it comes to its end, the agent and the world. *)
Definition post_loop (a : Agent) (w : World) : bool * Agent * World :=
  let '(a, w) := flush_touched a w in
  let w := save_history a w in
  let w := derive_principles a w in
  match consolidation a w with
  | None => (false, a, w)
  | Some (a, w) =>
      let '(a, w) := distillation a w in
      let '(a, w) := forgetting a w in
      let w := w <| backups ::= prune_backups |> in
      let w := save_self a w in
      match evolution a w with
      | None => (false, a, w)
      | Some w => (true, a, w)
      end
  end.
End PostLoop.
Arguments World : clear implicits.
Arguments Outside : clear implicits.

(** ** Lemmas: what the stages do to the seeds *)

(** Protected rows stay and identifiers stay distinct. *)
Definition keeps (t t' : SeedTable) : Prop :=
  NoDup (map r_id (rows t)) -> NoDup (map r_id (rows t')) /\ forall r, r ∈ rows t -> prot_row r = true -> r ∈ rows t'.

#[export] Instance keeps_preorder : PreOrder keeps.
Proof.
  split; [intros t Hn; by split|]. intros t1 t2 t3 H12 H23 Hn. destruct (H12 Hn) as [Hn2 H2]. destruct (H23 Hn2) as [Hn3 H3].
  split; [done|]. auto.
Qed.

Lemma insert_keeps from_str to_string v t : keeps t (insert_seed from_str to_string v t).
Proof.
  intros Hn. split; [by apply Graph.insert_seed_nodup|]. intros r Hr _. unfold insert_seed. cbn. case_bool_decide; [done|].
  apply elem_of_app. by left.
Qed.

Lemma store_keeps from_str to_string printed uuid st mk : keeps (snd st) (snd (store_seed from_str to_string printed uuid st mk)).
Proof. destruct st as [n t]. apply insert_keeps. Qed.

Lemma consolidate_keeps parse show debug infer from_str to_string printed uuid now warn session workspace snaps t :
  keeps t (snd (consolidate parse show debug infer from_str to_string printed uuid now warn session workspace snaps t)).
Proof.
  unfold consolidate. destruct snaps as [|s snaps]; [done|]. destruct (attempts _ _ _ _ _ _ _ _) as [n [resp last_error facts|e|]]; [|done..].
  assert (Hall : forall st, keeps (snd st) (snd (foldl (fun st f => store_seed from_str to_string printed uuid st
      (fun id => fact_seed debug id now session (default "" workspace) (geju_key_of (s :: snaps)) f)) st facts))).
  { induction facts as [|f facts IH]; intros st; [done|]. cbn [foldl]. etransitivity; [|apply IH]. apply store_keeps. }
  specialize (Hall (O, t)). cbn [snd] in Hall.
  destruct facts as [|f facts], last_error as [|c e]; try (destruct (warn && _); done); destruct (foldl _ _ _) as [k t']; exact Hall.
Qed.

Lemma distill_pair_keeps ask upper similar from_str to_string printed uuid now session workspace old q r d :
  keeps (dl_table d) (dl_table (distill_pair ask upper similar from_str to_string printed uuid now session workspace old q r d)).
Proof.
  unfold distill_pair. destruct (_ || _); [done|]. destruct (distill_thought _ _ _ _) as [n [thought|]]; [|done].
  destruct (is_redundant _ _ _ _ _ _) as [m [|]]; [done|]. apply insert_keeps.
Qed.

Lemma distill_keeps ask upper similar from_str to_string printed uuid now session workspace history old t :
  keeps t (dl_table (distill ask upper similar from_str to_string printed uuid now session workspace history old t)).
Proof.
  unfold distill. set (d0 := {| dl_requests := 0 |}). change t with (dl_table d0). generalize (None : option string) d0.
  induction history as [|e l IH]; intros u d; [done|]. cbn [distill_entries].
  destruct e; [apply IH|destruct u; [|apply IH]|apply IH|apply IH]. etransitivity; [|apply IH]. apply distill_pair_keeps.
Qed.

Section Forgetting.
Context (lower : string -> string) (from_str : string -> option Value) (reread ln : spec_float -> spec_float).
Context (newest_first weakest_first : list SeedRow -> list SeedRow).
Context (Hnewest : forall l, newest_first l ≡ₚ l) (Hweak : forall l, weakest_first l ≡ₚ l).
Context (Hsort : forall l, StronglySorted weaker_eq (weakest_first l)).

Lemma fate_keeps now r : prot_row r = true -> fate from_str reread now r = Some r.
Proof.
  intros Hp. unfold fate. destruct (load_row from_str reread r) as [s|] eqn:Hl; [|done]. by rewrite (is_prot_row _ _ _ _ Hl), Hp.
Qed.

Lemma dissolve_keeps busy threshold now later t : keeps t (snd (dissolve lower from_str reread ln newest_first busy threshold now later t)).
Proof.
  intros Hn. pose proof (dissolve_cases lower from_str reread ln newest_first Hnewest busy threshold now later t Hn) as H.
  destruct (dissolve _ _ _ _ _ _ _ _ _ t) as [rep t']. cbn [snd]. destruct H as [(-> & _)|(_ & _ & Hrows & _)]; [by split|]. rewrite Hrows. split.
  - by apply omap_fate_ids.
  - intros r Hr Hp. apply list_elem_of_omap. exists r. split; [done|]. by apply fate_keeps.
Qed.

Lemma set_tier_ids ids tier t : map r_id (rows (set_tier_batch ids tier t)) = map r_id (rows t).
Proof.
  unfold set_tier_batch, on_ids. revert t. induction ids as [|i ids IH]; intros t; [done|]. cbn [foldl]. rewrite IH. cbn. rewrite map_map.
  apply map_ext. intros r. by destruct (String.eqb _ _).
Qed.
Lemma budgets_nodup t : NoDup (map r_id (rows t)) -> NoDup (map r_id (rows (snd (enforce_tier_budgets weakest_first t)))).
Proof.
  intros Hn. cbn [enforce_tier_budgets snd]. rewrite (proj1 (delete_seeds_rows _ _)). apply Principles.NoDup_fmap_filter.
  change (NoDup (map r_id (rows (set_tier_batch (over_budget weakest_first "OnDemand" ONDEMAND_BUDGET t) "Archive" t)))). by rewrite set_tier_ids.
Qed.
Lemma budgets_keep t : keeps t (snd (enforce_tier_budgets weakest_first t)).
Proof.
  intros Hn. pose proof (enforce_budgets_spec weakest_first t Hweak Hsort Hn) as H. pose proof (budgets_nodup t Hn) as Hn'.
  destruct (enforce_tier_budgets _ t) as [rep t']. by destruct H as (H & _).
Qed.

Lemma schedule_keeps busy now later si_men dormant t :
  keeps t (snd (schedule lower from_str reread ln newest_first weakest_first busy now later si_men dormant t)).
Proof.
  unfold schedule. pose proof (dissolve_keeps busy (F32.lit 75 100) now later t) as H. destruct (dissolve _ _ _ _ _ _ _ _ _ t) as [zw t1].
  cbn [snd] in H. destruct si_men; [|done]. pose proof (budgets_keep t1) as Hb. destruct (enforce_tier_budgets _ t1) as [b t2].
  cbn [snd] in *. by etransitivity.
Qed.
End Forgetting.

(** ** Lemmas: stages and the rest of the world *)

Section Stages.
Context {P Y D : Type} `{Evolution.Yaml Y} `{Skills.SkillFs D}.
Context (o : Outside P).
Implicit Types (a : Agent) (w : World D).

(** What of a session no stage after the saving of the history changes. *)
Definition saved (i : string) (w : World D) : option string := load_session i (db w).

Lemma find_set_session i f d : (forall s, s_id (f s) = s_id s) ->
  find_session i (set_session f i d) = option_map f (find_session i d).
Proof.
  intros Hf. unfold find_session, set_session. cbn [sessions update set_sessions]. induction (sessions d) as [|s l IH]; [done|]. cbn.
  unfold id_is in *. destruct (String.eqb_spec (s_id s) i) as [E|E]; cbn; [by rewrite Hf, E, String.eqb_refl|].
  by rewrite (proj2 (String.eqb_neq _ _) E).
Qed.

Lemma find_session_none i d : existsb (id_is i) (sessions d) = false <-> find_session i d = None.
Proof.
  unfold find_session. induction (sessions d) as [|s l IH]; [done|]. cbn. destruct (id_is i s); [done|]. apply IH.
Qed.

Lemma saved_now now i json d : load_session i (snd (save_session now i json d)) = Some json.
Proof.
  unfold save_session, load_session. cbn [snd]. destruct (existsb (id_is i) (sessions d)) eqn:E.
  - rewrite find_set_session by done. destruct (find_session i d) eqn:Ef; [done|]. apply find_session_none in Ef. congruence.
  - apply find_session_none in E. unfold find_session in *. cbn [sessions update set_sessions].
    assert (Hl : forall l s, List.find (id_is i) l = None -> id_is i s = true -> List.find (id_is i) (l ++ [s])%list = Some s).
    { induction l as [|x l IH]; cbn; [by intros s _ ->|]. destruct (id_is i x); [done|]. apply IH. }
    rewrite (Hl _ (new_session i json now) E); [done|]. apply String.eqb_refl.
Qed.

Lemma hashes_keep_text to_string it i j h d : load_session i (save_distilled_hashes to_string it j h d) = load_session i d.
Proof.
  unfold load_session, save_distilled_hashes, set_session, find_session. cbn [sessions update set_sessions].
  induction (sessions d) as [|s l IH]; [done|]. cbn. unfold id_is in *. destruct (String.eqb_spec (s_id s) j) as [E|E]; cbn [s_id update set_s_hashes].
  - destruct (String.eqb (s_id s) i); [done|exact IH].
  - destruct (String.eqb (s_id s) i); [done|exact IH].
Qed.

(** The seeds, the session's text and the principles after each stage. *)
Lemma after_consolidation a w a' w' : consolidation o a w = Some (a', w') ->
  id a' = id a /\ saved (id a) w' = saved (id a) w /\ principles (db w') = principles (db w) /\ keeps (seeds (db w)) (seeds (db w')) /\
  sessions (db w') = sessions (db w).
Proof.
  unfold consolidation. destruct (_ <? _)%nat; [by intros [= <- <-]|].
  pose proof (consolidate_keeps (parse_facts o) (show o) (debug o) (infer o) (from_str o) (to_string o) (printed o) (fact_ids o) (at_consolidation o)
    (warn o) (id a) (session_workspace_id (id a) (db w)) (snapshots (working_memory a)) (seeds (db w))) as Hk.
  destruct (consolidate _ _ _ _ _ _ _ _ _ _ _ _ _ _) as [[n [[k|e]|]] t]; [|by intros [= <- <-]|done].
  intros [= <- <-]. by destruct (0 <? k)%nat.
Qed.

Lemma after_distillation a w : let '(a', w') := distillation o a w in
  id a' = id a /\ saved (id a) w' = saved (id a) w /\ principles (db w') = principles (db w) /\ keeps (seeds (db w)) (seeds (db w')) /\
  manas_row w' = manas_row w /\
  db w' = save_distilled_hashes (to_string o) (set_iter o) (id a) (distilled_hashes a') (db w' <| sessions := sessions (db w) |>).
Proof.
  unfold distillation. cbv zeta.
  pose proof (distill_keeps (ask o) (upper o) (similar o) (from_str o) (to_string o) (printed o) (insight_ids o) (at_distillation o) (id a)
    (session_workspace_id (id a) (db w)) (history a) (distilled_hashes a) (seeds (db w))) as Hk.
  split; [done|]. split; [apply hashes_keep_text|]. split; [done|]. split; [exact Hk|]. by split.
Qed.

Lemma forgetting_sessions a w : sessions (db (snd (forgetting o a w))) = sessions (db w).
Proof.
  unfold forgetting. destruct (scheduler_fails o); [done|]. destruct (schedule _ _ _ _ _ _ _ _ _ _ _ _) as [r t].
  by destruct (dissolves o _), (0 <? _)%nat.
Qed.

Context (Hnewest : forall l, newest_first o l ≡ₚ l) (Hweak : forall l, weakest_first o l ≡ₚ l).
Context (Hsort : forall l, StronglySorted weaker_eq (weakest_first o l)).

Lemma after_forgetting_ a w : let '(a', w') := forgetting o a w in
  id a' = id a /\ distilled_hashes a' = distilled_hashes a /\ sessions (db w') = sessions (db w) /\ principles (db w') = principles (db w) /\
  keeps (seeds (db w)) (seeds (db w')).
Proof.
  unfold forgetting. destruct (scheduler_fails o); [done|].
  pose proof (schedule_keeps (lower o) (from_str o) (reread o) (ln o) (newest_first o) (weakest_first o) Hnewest Hweak Hsort (busy o) (at_forgetting o)
    (after_forgetting o) (si_men_open o) (dormant o) (seeds (db w))) as Hk.
  destruct (schedule _ _ _ _ _ _ _ _ _ _ _ _) as [r t]. cbn [snd] in Hk. destruct (dissolves o _), (0 <? _)%nat; done.
Qed.
End Stages.

(** ** What is left when the work ends *)

Section Ends.
Context {P Y D : Type} `{Evolution.Yaml Y} `{Skills.SkillFs D}.
Context (o : Outside P).
Implicit Types (a : Agent) (w : World D).

Lemma touched_ids now ids t : map r_id (rows (touch_batch now ids t)) = map r_id (rows t).
Proof.
  unfold touch_batch. destruct ids as [|i ids]; [done|]. cbn [update_rows rows]. rewrite !map_map. apply map_ext. intros r.
  unfold promote, touch_row. repeat case_match; done.
Qed.

Lemma flushed a w : let '(a', w') := flush_touched o a w in
  a' = a <| touched_seed_ids := [] |> /\ db w' = db w <| seeds := touch_batch (at_touch o) (touched_seed_ids a) (seeds (db w)) |> /\
  seeds (db w') = touch_batch (at_touch o) (touched_seed_ids a) (seeds (db w)) /\ manas_row w' = manas_row w.
Proof. unfold flush_touched. destruct (touched_seed_ids a) as [|i ids]; split_and!; try done. cbn. by destruct (db w). Qed.

Lemma derived_only_principles a w :
  sessions (db (derive_principles o a w)) = sessions (db w) /\ seeds (db (derive_principles o a w)) = seeds (db w).
Proof. unfold derive_principles. repeat case_match; done. Qed.

Lemma history_saved a w : seeds (db (save_history o a w)) = seeds (db w) /\ principles (db (save_history o a w)) = principles (db w) /\
  forall json, history_text o = Some json -> load_session (id a) (db (save_history o a w)) = Some json.
Proof.
  unfold save_history. destruct (history_text o) as [json|]; [|done]. split_and!.
  - unfold save_session. cbn. by destruct (existsb _ _).
  - unfold save_session. cbn. by destruct (existsb _ _).
  - intros _ [= <-]. apply saved_now.
Qed.

Context (Hnewest : forall l, newest_first o l ≡ₚ l) (Hweak : forall l, weakest_first o l ≡ₚ l).
Context (Hsort : forall l, StronglySorted weaker_eq (weakest_first o l)).

(** The stages after the principles are stored. *)
Definition late_stages a w : bool * Agent * World D :=
  match consolidation o a w with
  | None => (false, a, w)
  | Some (a, w) =>
      let '(a, w) := distillation o a w in
      let '(a, w) := forgetting o a w in
      let w := w <| backups ::= prune_backups o |> in
      let w := save_self o a w in
      match evolution o a w with None => (false, a, w) | Some w => (true, a, w) end
  end.

Lemma evolution_db a w w' : evolution o a w = Some w' -> db w' = db w /\ manas_row w' = manas_row w.
Proof. unfold evolution. destruct (Evolution.run _ _ _ _ _ _ _ _ _ _ _ _ _ _) as [[rep ew]|]; [|done]. by intros [= <-]. Qed.

Lemma late_keeps a w : let '(_, a', w') := late_stages a w in
  load_session (id a) (db w') = load_session (id a) (db w) /\ principles (db w') = principles (db w) /\
  keeps (seeds (db w)) (seeds (db w')).
Proof.
  unfold late_stages. destruct (consolidation o a w) as [[a1 w1]|] eqn:E1; [|done].
  apply after_consolidation in E1 as (I1 & T1 & P1 & K1 & _). pose proof (after_distillation o a1 w1) as E2.
  destruct (distillation o a1 w1) as [a2 w2]. destruct E2 as (I2 & T2 & P2 & K2 & _).
  pose proof (after_forgetting_ o Hnewest Hweak Hsort a2 w2) as E3. destruct (forgetting o a2 w2) as [a3 w3].
  destruct E3 as (I3 & _ & S3 & P3 & K3). set (w4 := save_self o a3 _).
  assert (Hfin : load_session (id a) (db w4) = load_session (id a) (db w) /\ principles (db w4) = principles (db w) /\
                 keeps (seeds (db w)) (seeds (db w4))).
  { change (db w4) with (db w3). split_and!; [|congruence|by etransitivity; [exact K1|]; etransitivity].
    transitivity (load_session (id a) (db w2)); [unfold load_session, find_session; by rewrite S3|].
    rewrite <- I1. unfold saved in *. by rewrite T2, I1. }
  destruct (evolution o a3 w4) as [w5|] eqn:E5; [|done]. by apply evolution_db in E5 as [-> _].
Qed.

(** However the work after the last turn ends, and also when a stage panics
    half way: every protected memory is there as the last touch of the session
    left it; the history is stored under the session; and the principles are
    those derived with the self-model of the session, before any stage changed
    it. *)
Theorem post_loop_keeps a w : NoDup (map r_id (rows (seeds (db w)))) ->
  let '(_, _, w') := post_loop o a w in
  (forall r, r ∈ rows (touch_batch (at_touch o) (touched_seed_ids a) (seeds (db w))) -> prot_row r = true -> r ∈ rows (seeds (db w'))) /\
  NoDup (map r_id (rows (seeds (db w')))) /\
  (forall json, history_text o = Some json -> load_session (id a) (db w') = Some json) /\
  principles (db w') = principles (db (derive_principles o a w)).
Proof.
  intros Hn. pose proof (flushed a w) as E. destruct (flush_touched o a w) as [a1 w1] eqn:Ef. destruct E as (-> & Hd & Hs & _).
  set (a1 := a <| touched_seed_ids := [] |>) in *. set (w2 := save_history o a1 w1). set (w3 := derive_principles o a1 w2).
  assert (E : post_loop o a w = late_stages a1 w3) by (unfold post_loop; by rewrite Ef). rewrite E. clear E.
  destruct (history_saved a1 w1) as (S2 & P2 & T2). destruct (derived_only_principles a1 w2) as [Ss3 S3].
  pose proof (late_keeps a1 w3) as Hl. destruct (late_stages a1 w3) as [[b a'] w']. destruct Hl as (Ht & Hpr & Hk).
  change (id a1) with (id a) in *. fold w2 in S2, P2, T2. fold w3 in Ss3, S3.
  assert (Hrows : rows (seeds (db w3)) = rows (touch_batch (at_touch o) (touched_seed_ids a) (seeds (db w)))) by (by rewrite S3, S2, Hs).
  destruct Hk as [Hn' Hin]; [by rewrite Hrows, touched_ids|]. rewrite <- Hrows. split_and!; [done|done| |].
  - intros json Hj. rewrite Ht. transitivity (load_session (id a) (db w2)); [unfold load_session, find_session; by rewrite Ss3|by apply T2].
  - rewrite Hpr. unfold w3, derive_principles. change (working_memory a1) with (working_memory a). change (manas a1) with (manas a).
    change (id a1) with (id a). assert (Hp2 : principles (db w2) = principles (db w)) by (rewrite P2, Hd; done).
    destruct (snapshots _); [done|]. destruct (Principles.derive _ _ _ _); [done|]. destruct (principles_text _ _); [|done].
    cbn [db update set_db principles set_principles]. by rewrite Hp2.
Qed.
End Ends.

(** ** The next session *)

Section Resume.
Context {P Y D : Type} `{Evolution.Yaml Y} `{Skills.SkillFs D}.
Context (o : Outside P).
Implicit Types (a : Agent) (w : World D).

Lemma fnv1a_bound s : (0 <= fnv1a_hash s < 2 ^ 64)%Z.
Proof.
  unfold fnv1a_hash. induction (String.list_ascii_of_string s) as [|c l IH] using rev_ind; [cbn; lia|]. rewrite foldl_snoc. by apply Z.mod_pos_bound.
Qed.

Definition hashes_ok (h : gset Z) : Prop := forall n, n ∈ h -> (0 <= n < 2 ^ 64)%Z.

Lemma distilled_known a w : hashes_ok (distilled_hashes a) -> let '(a', _) := distillation o a w in
  hashes_ok (distilled_hashes a') /\ forall q r, (q, r) ∈ exchanges None (history a) -> pair_hash q r ∈ distilled_hashes a'.
Proof.
  intros Hok. unfold distillation. cbv zeta. cbn [distilled_hashes update set_distilled].
  pose proof (distill_spec (ask o) (upper o) (similar o) (from_str o) (to_string o) (printed o) (insight_ids o) (at_distillation o) (id a)
    (session_workspace_id (id a) (db w)) (history a) (distilled_hashes a) (seeds (db w))) as [Hh _]. split.
  - intros n [Hn|Hn]%elem_of_union; [by apply Hok|]. apply Hh in Hn as (_ & q & r & _ & ->). apply fnv1a_bound.
  - intros q r Hin. apply elem_of_union. destruct (decide (pair_hash q r ∈ distilled_hashes a)); [by left|right]. apply Hh. eauto.
Qed.

Lemma wrap_bound z : (0 <= wrap_u64 z < 2 ^ 64)%Z.
Proof. by apply Z.mod_pos_bound. Qed.

Lemma consolidation_manas a w a' w' : consolidation o a w = Some (a', w') -> (- 2 ^ 63 <= at_consolidation o < 2 ^ 63)%Z ->
  manas_ok (manas a) -> manas_ok (manas a') /\ distilled_hashes a' = distilled_hashes a /\ history a' = history a.
Proof.
  unfold consolidation. intros E Hat Hm. destruct (_ <? _)%nat; [by injection E as <- <-|].
  destruct (consolidate _ _ _ _ _ _ _ _ _ _ _ _ _ _) as [[n [[k|e]|]] t]; [|by injection E as <- <-|done].
  injection E as <- <-. destruct (0 <? k)%nat; [|done]. split; [|done]. destruct Hm as (H1 & H2 & H3 & H4 & H5).
  cbn. unfold manas_ok. cbn -[Z.pow]. split_and!; try lia; apply wrap_bound.
Qed.

Lemma forgetting_manas a w : manas_ok (manas a) -> let '(a', _) := forgetting o a w in
  manas_ok (manas a') /\ distilled_hashes a' = distilled_hashes a.
Proof.
  intros Hm. unfold forgetting. destruct (scheduler_fails o); [done|]. destruct (schedule _ _ _ _ _ _ _ _ _ _ _ _) as [r t].
  destruct (dissolves o _), (0 <? _)%nat; try done; (split; [|done]); destruct Hm as (H1 & H2 & H3 & H4 & H5);
    unfold manas_ok; cbn -[Z.pow recalibrate]; unfold recalibrate; cbn -[Z.pow]; (split_and!; try lia; destruct (fltb _ _); (apply wrap_bound || lia)).
Qed.

(** What the next session reads of this one. *)
Definition resumed (i : string) (w : World D) : gset Z * Manas :=
  (load_distilled_hashes (from_str o) i (db w), session_manas (from_str o) (to_string o) (reread o) (manas_row w)).

(** The texts of the marks and of the self-model are read back. *)
Definition texts_ok a : Prop :=
  (let v := Arr (map (fun n => Num (PosInt n)) (set_iter o (distilled_hashes a))) in from_str o (to_string o v) = Some v) /\
  (forall f, f = printed o \/ f = (fun x => reread o (printed o x)) -> from_str o (to_string o (manas_json f (manas a))) = Some (manas_json f (manas a))) /\
  to_f32 (reread o (printed o (atma_graha (manas a)))) = atma_graha (manas a).

Lemma kept_ids (d d' : Database) i : sessions d' = sessions d -> i ∈ map s_id (sessions d) -> i ∈ map s_id (sessions d').
Proof. by intros ->. Qed.

Lemma stored_session i d json : load_session i d = Some json -> i ∈ map s_id (sessions d).
Proof.
  unfold load_session, find_session. intros Hl. destruct (List.find _ _) as [s|] eqn:E; [|done]. apply find_some in E as [Hin E].
  apply String.eqb_eq in E. apply list_elem_of_fmap. exists s. split; [done|by apply list_elem_of_In].
Qed.

Lemma load_hashes_same i (d d' : Database) : sessions d' = sessions d -> load_distilled_hashes (from_str o) i d' = load_distilled_hashes (from_str o) i d.
Proof. intros E. unfold load_distilled_hashes, find_session. by rewrite E. Qed.

(** When the work comes to its end, the next session starts from exactly the
    marks and the self-model this one ended with, and every exchange of the
    history is marked: it will not be distilled again. *)
Theorem next_session_resumes a w json : history_text o = Some json -> (forall h, set_iter o h ≡ₚ elements h) ->
  hashes_ok (distilled_hashes a) -> manas_ok (manas a) -> (- 2 ^ 63 <= at_consolidation o < 2 ^ 63)%Z ->
  let '(ended, a', w') := post_loop o a w in
  ended = true -> texts_ok a' ->
  resumed (id a) w' = (distilled_hashes a', manas a') /\
  forall q r, (q, r) ∈ exchanges None (history a) -> pair_hash q r ∈ fst (resumed (id a) w').
Proof.
  intros Hjson Hiter Hh Hm Hat. unfold post_loop. unfold flush_touched. set (a1 := a <| touched_seed_ids := [] |>).
  set (w1 := match touched_seed_ids a with [] => w | _ => _ end).
  set (w3 := derive_principles o a1 (save_history o a1 w1)).
  assert (Hin : id a ∈ map s_id (sessions (db w3))).
  { unfold w3. rewrite (proj1 (derived_only_principles _ _ _)). destruct (history_saved o a1 w1) as (_ & _ & T).
    by apply (stored_session _ _ json), (T json). }
  clearbody w3 w1. destruct (consolidation o a1 w3) as [[a4 w4]|] eqn:E1; [|done].
  destruct (consolidation_manas _ _ _ _ E1 Hat Hm) as (Hm4 & D4 & Hi4). apply after_consolidation in E1 as (I4 & _ & _ & _ & S4).
  pose proof (after_distillation o a4 w4) as E2. pose proof (distilled_known a4 w4) as K2.
  assert (Em : manas (fst (distillation o a4 w4)) = manas a4) by done.
  destruct (distillation o a4 w4) as [a5 w5]. destruct E2 as (I5 & _ & _ & _ & _ & Hdb). rewrite D4 in K2. destruct (K2 Hh) as [Hh5 Hex].
  cbn [fst] in Em. rewrite <- Em in Hm4. pose proof (forgetting_manas a5 w5 Hm4) as K3. pose proof (forgetting_sessions o a5 w5) as S6.
  destruct (forgetting o a5 w5) as [a6 w6]. destruct K3 as [Hm6 D6]. set (w7 := save_self o a6 _).
  destruct (evolution o a6 w7) as [w8|] eqn:E8; [|done]. apply evolution_db in E8 as [Hd8 Hr8]. intros _ (T1 & T2 & T3).
  assert (Hload : load_distilled_hashes (from_str o) (id a) (db w8) = distilled_hashes a6).
  { rewrite Hd8. change (db w7) with (db w6). rewrite (load_hashes_same _ (db w5) (db w6) S6), Hdb, I4, D6. change (id a1) with (id a).
    rewrite D6 in T1. apply hashes_roundtrip; [done|done|done|]. cbn [sessions update set_sessions]. by rewrite S4. }
  assert (Hself : session_manas (from_str o) (to_string o) (reread o) (manas_row w8) = manas a6).
  { rewrite Hr8. unfold w7, save_self. cbn [manas_row update set_manas_row]. by apply manas_roundtrip. }
  unfold resumed. rewrite Hload, Hself. split; [done|]. cbn [fst]. rewrite D6. intros q r Hq. apply Hex. by rewrite Hi4.
Qed.
End Resume.

(** ** Backups *)

#[export] Instance name_le_total : Total name_le.
Proof. intros a b. unfold name_le. rewrite (String.compare_antisym b a). destruct (String.compare a b); cbn; [by left|by left|by right]. Qed.
#[export] Instance name_le_trans : Transitive name_le.
Proof.
  intros a b c. unfold name_le. destruct (String.compare a b) eqn:E1; [| |done].
  - apply String.compare_eq_iff in E1 as ->. done.
  - destruct (String.compare b c) eqn:E2; [| |done]; intros _ _.
    + apply String.compare_eq_iff in E2 as <-. by rewrite E1.
    + by rewrite (Graph.str_lt_trans a b c).
Qed.

Lemma Lfilter_sublist {A} (p : A -> bool) l : List.filter p l `sublist_of` l.
Proof. induction l as [|x l IH]; cbn; [done|]. destruct (p x); by constructor. Qed.

(** Of the backup directories the thirty with the greatest names are kept,
    which for names that begin with a time are the newest; fewer are left alone. *)
Theorem prune_spec {P} (o : Outside P) l : listable o = true -> (forall n, removable o n = true) -> NoDup l ->
  length (prune_backups o l) = Nat.min KEPT_BACKUPS (length l) /\ prune_backups o l `sublist_of` l /\
  forall x y, x ∈ l -> x ∉ prune_backups o l -> y ∈ prune_backups o l -> name_le x y.
Proof.
  intros Hl Hr Hn. unfold prune_backups. rewrite Hl. cbn [andb]. destruct (Nat.ltb_spec KEPT_BACKUPS (length l)) as [Hlt|Hge].
  2: { split; [by rewrite Nat.min_r|]. by split. }
  set (k := length l - KEPT_BACKUPS). set (s := stable_sort name_le l).
  assert (Hp : s ≡ₚ l) by apply stable_sort_Permutation. assert (Hs : StronglySorted name_le s) by exact (StronglySorted_stable_sort name_le l).
  rewrite <- (take_drop k s) in Hp, Hs. rewrite <- Hp in Hn. apply NoDup_app in Hn as (Hn1 & Hdis & Hn2).
  assert (Hkept : List.filter (fun n => negb (bool_decide (n ∈ take k s) && removable o n)) l ≡ₚ drop k s).
  { transitivity (List.filter (fun n => negb (bool_decide (n ∈ take k s))) l).
    { apply reflexive_eq, filter_ext. intros n. by rewrite Hr, andb_true_r. }
    rewrite <- Hp, List.filter_app, (Provider.filter_nothing _ (take k s)), (filter_all _ (drop k s)); [done| |].
    - intros x Hx. apply negb_true_iff, bool_decide_eq_false. intros Hx'. by apply (Hdis x).
    - apply Forall_forall. intros x Hx. by rewrite bool_decide_eq_true_2. }
  split; [|split].
  - rewrite Hkept, length_drop. assert (length s = length l) by (unfold s; by rewrite stable_sort_Permutation). unfold k, KEPT_BACKUPS in *. lia.
  - apply Lfilter_sublist.
  - intros x y Hx Hnx Hy. rewrite Hkept in Hy. eapply (StronglySorted_app_1_elem_of name_le); [exact Hs| |exact Hy].
    destruct (decide (x ∈ take k s)) as [?|Hno]; [done|]. exfalso. apply Hnx. apply elem_of_Lfilter. split; [done|]. by rewrite bool_decide_eq_false_2.
Qed.

(** ** A concrete run *)

#[local] Existing Instance Evolution.yaml0.
#[local] Existing Instance Skills.MemDisk_fs.

Definition long_ago : SeedRow := demo_row "RenSoul" (F64.lit 1 10) 0.
Definition marks0 : gset Z := {[5%Z; pair_hash "q" "short"]}.
Definition parse0 (s : string) : option Value :=
  if String.eqb s "marks" then Some (Arr (map (fun n => Num (PosInt n)) (elements marks0)))
  else if String.eqb s "self" then Some (manas_json (fun x => x) Manas_new) else None.
Definition print0 (v : Value) : string := match v with Arr _ => "marks" | Obj _ => "self" | _ => "" end.

Definition run0 : Outside string :=
  {| from_str := parse0; to_string := print0; printed := fun x => x; reread := fun x => x; lower := fun s => s; upper := fun s => s; ln := fun x => x;
     newest_first := fun l => l; weakest_first := merge_sort weaker_eq; set_iter := elements; at_touch := 1; at_save := 2; at_principles := 3;
     at_consolidation := 4; at_distillation := 5; at_forgetting := 6; after_forgetting := 7; at_evolution := 8; history_text := Some "history";
     groups := []; principles_text := fun _ => None; principle_ids := fun n => pretty (N.of_nat n); parse_facts := fun _ => Err "none"; show := fun _ => "";
     debug := fun s => s; infer := fun _ _ => []; warn := false; fact_ids := demo_uuid; ask := fun _ _ => None; similar := fun _ _ => None;
     insight_ids := demo_uuid; busy := false; si_men_open := true; dormant := None; scheduler_fails := false; listable := true;
     removable := fun _ => true; active_skills := []; from_yaml := Evolution.from_yaml0; pretty_rows := Evolution.no_rows; by_time := fun l => l;
     newest_revision := Evolution.pick_head; aux := false |}.
Definition agent0 : Agent :=
  {| id := "s1"; touched_seed_ids := ["0"]; history := [Compaction.HUser "q" []; Compaction.HAssistant "short"];
     working_memory := WorkingMemory_new 10; manas := Manas_new; distilled_hashes := {[5%Z]}; skill_tool_calls := [] |}.
Definition world1 : World Skills.MemDisk :=
  {| db := empty_database <| seeds := {| rows := [long_ago]; fts := [] |} |>; manas_row := None; manas_history := []; reports := [];
     backups := ["3"; "1"; "2"]; skills := Evolution.world0 |}.

Lemma weakest_perm l : weakest_first run0 l ≡ₚ l.
Proof. apply merge_sort_Permutation. Qed.
Lemma weakest_sorted l : StronglySorted weaker_eq (weakest_first run0 l).
Proof. apply (StronglySorted_merge_sort weaker_eq). Qed.

Definition after0 : bool * Agent * World Skills.MemDisk := post_loop (Y := gmap string Evolution.YScalar) run0 agent0 world1.

Lemma post_loop_keeps_witness : fst (fst after0) = true /\ load_session "s1" (db (snd after0)) = Some "history" /\
  touch_row 1 long_ago ∈ rows (seeds (db (snd after0))).
Proof.
  split; [vm_compute; reflexivity|].
  pose proof (post_loop_keeps (Y := gmap string Evolution.YScalar) run0 (fun l => reflexivity l) weakest_perm weakest_sorted agent0 world1
    ltac:(apply NoDup_singleton)) as H. fold after0 in H. destruct after0 as [[b a'] w']. destruct H as (H1 & _ & H2 & _).
  split; [apply H2; reflexivity|]. apply H1; [|reflexivity]. change (touch_row 1 long_ago ∈ [touch_row 1 long_ago]). left.
Defined.

Lemma next_session_resumes_witness : resumed run0 "s1" (snd after0) = (marks0, Manas_new).
Proof.
  pose proof (next_session_resumes (Y := gmap string Evolution.YScalar) run0 agent0 world1 "history" eq_refl (fun h => reflexivity _)
    ltac:(intros n Hn; change (n ∈ ({[5%Z]} : gset Z)) in Hn; apply elem_of_singleton in Hn as ->; lia) ltac:(unfold manas_ok; cbn; lia) ltac:(cbn; lia)) as H. fold after0 in H.
  assert (Ha : snd (fst after0) = {| id := "s1"; touched_seed_ids := []; history := history agent0; working_memory := WorkingMemory_new 10;
    manas := Manas_new; distilled_hashes := marks0; skill_tool_calls := [] |}) by (vm_compute; reflexivity).
  assert (He : fst (fst after0) = true) by (vm_compute; reflexivity).
  destruct after0 as [[b a'] w']. cbn [fst snd] in *. subst b a'. destruct H as [H _]; [reflexivity| |exact H].
  split; [reflexivity|]. split; [intros f [-> | ->]; reflexivity|vm_compute; reflexivity].
Defined.

Lemma prune_spec_witness : NoDup (map pretty (seq 0 35)) /\ length (prune_backups run0 (map pretty (seq 0 35))) = 30.
Proof.
  assert (Hn : NoDup (map pretty (seq 0 35))) by (apply (bool_decide_unpack _); vm_compute; exact I).
  split; [exact Hn|]. destruct (prune_spec run0 (map pretty (seq 0 35)) eq_refl (fun _ => eq_refl) Hn) as [H _]. exact H.
Defined.

(** Names are compared as texts: of times of different length the longer one
    can count as the older. *)
Example text_order : name_le "10" "9".
Proof. unfold name_le. vm_compute. discriminate. Qed.
