(* ===== verification/Run.v ===== *)
(** * The run of an agent

    src/kernel/src/plates/tian_heaven/loop.rs, [Agent::run]: the loop over turns
    from the user's messages to the end of the run, composed of the parts the
    other files model: the steering checkpoint (Loop), the prompt (Prompt), the
    compaction (Compaction), the reports of background tasks (Background), the
    request with its retries and early calls (Stream, Early), the end of a turn
    without calls (Loop), and the tool phase (Turn).  What arrives from outside in
    a turn is one record per turn.  A panic ends the run. *)

From S2P Require Import Prelude Update RString Float Json GeJu Tool Scheduler HumanPlate Context Mind Completion Compaction Loop Dispatch Batch Early.
From S2P Require Turn Provider Stream Prompt Rin Hooks Background Vasana Skills Seeds SessionBus Breaker.
Local Open Scope string_scope.
Local Open Scope update_scope.
#[local] Arguments String.append !_ _ : simpl nomatch.

(** ** The state of a run *)

(** What the run sends to the frontend and to the bus, but for hooks. *)
Inductive Event :=
| ESession (title : string)
| EError (message : string)
| ETurnStart (turn : Z)
| ETurnEnd (turn : Z)
| ESteerFolded (content : string)
| EContextPressure (tokens threshold : Z)
| ECompacting
| ETaskCompleted (e : Background.TaskCompletedEvent)
| ELlm (e : Stream.LlmEvent)
| EToolBatchStart
| EGate (e : GateEvent)
| EModeChanged (m : InteractionMode)
| ESessionEnd (turns : Z)
| EDone.

Record State := {
  st_agent : Batch.Agent;
  st_bus : SessionBus.SessionBus;
  st_plate : HumanPlate;
  st_world : HumanPlate.World;
  st_background : Background.Tasks;
  st_seeds : Seeds.SeedTable;
  st_manas : Manas;
  st_coactivation : Vasana.SeedCoActivationMatrix;
  st_touched : list string;
  st_turn_count : Z;
  st_mode : InteractionMode;
  st_activated : list string;
  st_skill_calls : list string;
  st_certainty : list spec_float;
  (** The last compaction: its turn, the tokens before and after. *)
  st_compaction : Z * Z * Z;
  st_summary : option string;
  st_router : option Breaker.ProviderRouter;
  (** The locals of the run. *)
  st_guard : RepeatGuard;
  st_reminder : option string;
  st_stop_reminders : list string;
  (** The history the session was last saved with in this run, the messages users
      pushed, the requests made and the events sent. *)
  st_saved : option (list HistoryEntry);
  st_pushed : list SessionBus.SteerMessage;
  st_asked : list (list Message);
  st_sent : list Event
}.

Definition Agent_eta (a : Batch.Agent) : Batch.Agent :=
  {| a_id := a_id a; history := history a; tool_failure_count := tool_failure_count a; working_memory := working_memory a; verify := verify a;
     checklist := checklist a; worktree_root := worktree_root a; exec_root := exec_root a; main_root := main_root a |}.
#[export] Instance set_history : Setter history. Proof. derive_setter Agent_eta. Defined.
#[export] Instance set_working_memory : Setter working_memory. Proof. derive_setter Agent_eta. Defined.
#[export] Instance set_verify : Setter verify. Proof. derive_setter Agent_eta. Defined.
#[export] Instance set_checklist : Setter checklist. Proof. derive_setter Agent_eta. Defined.

Definition State_eta (s : State) : State :=
  {| st_agent := st_agent s; st_bus := st_bus s; st_plate := st_plate s; st_world := st_world s; st_background := st_background s;
     st_seeds := st_seeds s; st_manas := st_manas s; st_coactivation := st_coactivation s; st_touched := st_touched s;
     st_turn_count := st_turn_count s; st_mode := st_mode s; st_activated := st_activated s; st_skill_calls := st_skill_calls s;
     st_certainty := st_certainty s; st_compaction := st_compaction s; st_summary := st_summary s; st_router := st_router s;
     st_guard := st_guard s; st_reminder := st_reminder s; st_stop_reminders := st_stop_reminders s; st_saved := st_saved s; st_pushed := st_pushed s;
     st_asked := st_asked s; st_sent := st_sent s |}.
#[export] Instance set_st_agent : Setter st_agent. Proof. derive_setter State_eta. Defined.
#[export] Instance set_st_bus : Setter st_bus. Proof. derive_setter State_eta. Defined.
#[export] Instance set_st_plate : Setter st_plate. Proof. derive_setter State_eta. Defined.
#[export] Instance set_st_world : Setter st_world. Proof. derive_setter State_eta. Defined.
#[export] Instance set_st_background : Setter st_background. Proof. derive_setter State_eta. Defined.
#[export] Instance set_st_seeds : Setter st_seeds. Proof. derive_setter State_eta. Defined.
#[export] Instance set_st_manas : Setter st_manas. Proof. derive_setter State_eta. Defined.
#[export] Instance set_st_coactivation : Setter st_coactivation. Proof. derive_setter State_eta. Defined.
#[export] Instance set_st_touched : Setter st_touched. Proof. derive_setter State_eta. Defined.
#[export] Instance set_st_turn_count : Setter st_turn_count. Proof. derive_setter State_eta. Defined.
#[export] Instance set_st_mode : Setter st_mode. Proof. derive_setter State_eta. Defined.
#[export] Instance set_st_activated : Setter st_activated. Proof. derive_setter State_eta. Defined.
#[export] Instance set_st_skill_calls : Setter st_skill_calls. Proof. derive_setter State_eta. Defined.
#[export] Instance set_st_certainty : Setter st_certainty. Proof. derive_setter State_eta. Defined.
#[export] Instance set_st_compaction : Setter st_compaction. Proof. derive_setter State_eta. Defined.
#[export] Instance set_st_summary : Setter st_summary. Proof. derive_setter State_eta. Defined.
#[export] Instance set_st_router : Setter st_router. Proof. derive_setter State_eta. Defined.
#[export] Instance set_st_guard : Setter st_guard. Proof. derive_setter State_eta. Defined.
#[export] Instance set_st_reminder : Setter st_reminder. Proof. derive_setter State_eta. Defined.
#[export] Instance set_st_stop_reminders : Setter st_stop_reminders. Proof. derive_setter State_eta. Defined.
#[export] Instance set_st_saved : Setter st_saved. Proof. derive_setter State_eta. Defined.
#[export] Instance set_st_pushed : Setter st_pushed. Proof. derive_setter State_eta. Defined.
#[export] Instance set_st_asked : Setter st_asked. Proof. derive_setter State_eta. Defined.
#[export] Instance set_st_sent : Setter st_sent. Proof. derive_setter State_eta. Defined.

Definition emit (es : list Event) (s : State) : State := s <| st_sent ::= fun l => (l ++ es)%list |>.
Definition on_agent (f : Batch.Agent -> Batch.Agent) (s : State) : State := s <| st_agent ::= f |>.

(** How a run ends. *)
Inductive RunEnd :=
| PausedCancelled
| MaxTurns
| SteeredNow
| CompactionAborted
| StreamTruncated
| RetryCancelled
| LlmFailed
| CancelledAfterAnswer
| RepeatStopped
| Finished
| Panicked.

(** A turn goes on with the next one or ends the run. *)
Inductive Phase := Next (s : State) | Stop (e : RunEnd) (s : State).

(** ** What arrives from outside *)

(** What stays the same for a run. *)
Record Settings (P : Type) := {
  ephemeral : bool;
  max_turns : Z;
  window : ContextWindow;
  certainty_enabled : bool;
  coactivation_enabled : bool;
  verify_on_stop : bool;
  base_ctx : RunCtx;
  tool_names : list string;
  ren_soul : option string;
  tools_override : option ToolRegistry;
  earth : Prompt.Earth P
}.
Arguments ephemeral {P} _. Arguments max_turns {P} _. Arguments window {P} _. Arguments certainty_enabled {P} _.
Arguments coactivation_enabled {P} _. Arguments verify_on_stop {P} _. Arguments base_ctx {P} _. Arguments tool_names {P} _.
Arguments ren_soul {P} _. Arguments tools_override {P} _. Arguments earth {P} _.

(** A turn: the ticks of a pause, each telling whether the run is cancelled; what
    users push before the checkpoint, while the model answers and while tools
    run; the summarizer's replies and whether it is cancelled after them;
    the model's answer with the ends of early calls; whether the run is cancelled
    when the answer is complete; what the tools meet, and what they do to the
    criteria of sessions; clocks. *)
Record TurnEnv := {
  te_pause : list bool;
  te_arrivals : list SessionBus.SteerMessage;
  te_answer_arrivals : list SessionBus.SteerMessage;
  te_tool_arrivals : list SessionBus.SteerMessage;
  te_touch_at : Z;
  te_replies : list Compaction.Reply;
  te_compaction_cancelled : bool;
  te_attempts : Stream.Attempts;
  te_fresh : nat -> string;
  te_cancelled : bool;
  te_now : Z;
  te_joins : list Joined;
  te_oracle : Turn.Oracle;
  te_criteria : gmap string (list SessionBus.Criterion) -> gmap string (list SessionBus.Criterion)
}.

Section Run.
Context {P : Type} `{Tokenizer} (values : Background.Tasks -> list Background.BackgroundTask).
Context (get_tool : string -> option BaseTool) (run_command : string -> string -> Value -> Hooks.Status) (env : Env).
Context (from_str : string -> option Value) (persist : ToolCall -> string -> result string (string * Z)).
(** [Prompt.build_system_prompt], [Skills.activate_skills] on the registry of the
    plate and [Signal.process] for the session, with what they take from
    elsewhere. *)
Context (build_prompt : Prompt.Agent -> Prompt.Earth P -> Prompt.SystemPrompt * Prompt.Agent).
Context (activate_skills : list string -> list string -> list string).
Context (perfume : string -> Seeds.SeedTable -> Seeds.SeedTable).
Context (cfg : Settings P).

Definition id_of (s : State) : string := a_id (st_agent s).

(** [save_history_now]. *)
Definition save_history_now (s : State) : State :=
  if ephemeral cfg then s else s <| st_saved := Some (history (st_agent s)) |>.

Definition arrive (ms : list SessionBus.SteerMessage) (s : State) : State :=
  s <| st_bus ::= fun b => foldl (fun b m => SessionBus.push_steer (id_of s) m b) b ms |> <| st_pushed ::= fun l => (l ++ ms)%list |>.

Definition perfume_all (contents : list string) (s : State) : State := s <| st_seeds ::= fun t => foldl (fun t c => perfume c t) t contents |>.

(** [fold_all_steer]. *)
Definition fold_all (s : State) : bool * State :=
  let '(h, b, notices, folded) := fold_all_steer (id_of s) (history (st_agent s)) (st_bus s) in
  (folded, emit (map ESteerFolded notices) (perfume_all notices (on_agent (fun a => a <| history := h |>) s <| st_bus := b |>))).

Definition checkpoint (s : State) : bool * State :=
  let '(h, b, notices, now) := fold_steer_at_checkpoint (id_of s) (history (st_agent s)) (st_bus s) in
  (now, emit (map ESteerFolded notices) (perfume_all notices (on_agent (fun a => a <| history := h |>) s <| st_bus := b |>))).

(** Folding what is left and saving, as most exits do. *)
Definition wind_down (e : RunEnd) (s : State) : Phase := Stop e (save_history_now (snd (fold_all s))).
(** Saving only when something was folded. *)
Definition wind_down_folded (e : RunEnd) (s : State) : Phase :=
  let '(folded, s) := fold_all s in Stop e (if folded then save_history_now s else s).

(** ** The start of a turn *)

(** The pause: [None] when it is cancelled. *)
Fixpoint pause (ticks : list bool) : option unit :=
  match ticks with
  | [] => Some tt
  | true :: _ => None
  | false :: rest => pause rest
  end.

Definition begin_turn (e : TurnEnv) (s : State) : State :=
  let s := emit [ETurnStart (st_turn_count s)] s in
  let s := s <| st_manas ::= record_turn |> in
  let s := match st_touched s with [] => s | ids => s <| st_seeds ::= Seeds.touch_batch (te_touch_at e) ids |> end in
  arrive (te_arrivals e) (s <| st_touched := [] |>).

Definition prompt_agent (s : State) : Prompt.Agent :=
  {| Prompt.a_id := id_of s; Prompt.a_ephemeral := ephemeral cfg; Prompt.a_ren_soul := ren_soul cfg; Prompt.a_atma_graha := atma_graha (st_manas s);
     Prompt.a_turn_count := st_turn_count s; Prompt.a_mode := st_mode s; Prompt.a_activated := st_activated s;
     Prompt.a_tools_override := tools_override cfg; Prompt.a_touched := st_touched s |}.
Definition prompt_earth (s : State) : Prompt.Earth P :=
  {| Prompt.e_tools := Prompt.e_tools (earth cfg); Prompt.e_skills := Prompt.e_skills (earth cfg); Prompt.e_seeds := st_seeds s;
     Prompt.e_tasks := Prompt.e_tasks (earth cfg); Prompt.e_tasks_poisoned := Prompt.e_tasks_poisoned (earth cfg);
     Prompt.e_workspace := Prompt.e_workspace (earth cfg); Prompt.e_data_dir := Prompt.e_data_dir (earth cfg) |}.

(** The system prompt as one text, and the seeds it shows noted as touched. *)
Definition system_full (p : Prompt.SystemPrompt) : string :=
  if is_empty_str (Prompt.dynamic p) then Prompt.stable p else Prompt.stable p +:+ nl +:+ nl +:+ Prompt.dynamic p.
Definition prompt (s : State) : string * State :=
  let '(p, a) := build_prompt (prompt_agent s) (prompt_earth s) in (system_full p, s <| st_touched := Prompt.a_touched a |>).

Definition user_text (s : string) : Message := Vasana.text_message User s.

Definition compaction_step (e : TurnEnv) (system : string) (s : State) : Phase :=
  let messages h := Vasana.text_message System system :: to_llm_messages h in
  let h := history (st_agent s) in
  let pre := count_tokens (messages h) in
  let '(last, before, after) := st_compaction s in
  if negb (limit (window cfg) <? pre)%Z then Next s
  else
    let s := emit [EContextPressure pre (limit (window cfg))] s in
    if anti_thrash_skip last (st_turn_count s) before after then Next s
    else
      let s := emit [ECompacting] s in
      match fst (compact (window cfg) h (te_replies e) (te_compaction_cancelled e)) with
      | NothingToCompact => Next s
      | Aborted => Stop CompactionAborted s
      | Compaction.Panicked => Stop Panicked s
      | Compacted _ h' summary =>
          Next (on_agent (fun a => a <| history := h' |>) s
                <| st_compaction := (st_turn_count s, pre, count_tokens (messages h')) |>
                <| st_summary ::= fun old => match summary with Some x => Some x | None => old end |>)
      end.

(** The messages of the request: the history, the reports of background tasks
    and the reminders that are due. *)
Definition gather (s : State) : State :=
  let '(finished, background) := Background.notify_finished values (st_background s) in
  let '(tests, checks) := take_test_failure_reminders (id_of s) (checklist (st_agent s)) in
  let '(nudge, tracker) := take_nudge (verify (st_agent s)) in
  let notes := (map fst finished ++ option_list (st_reminder s) ++ tests ++ option_list nudge ++ st_stop_reminders s)%list in
  let messages := (to_llm_messages (history (st_agent s)) ++ map user_text notes)%list in
  emit (map (fun f => ETaskCompleted (snd f)) finished)
    (on_agent (fun a => a <| checklist := checks |> <| verify := tracker |>) s
     <| st_background := background |> <| st_reminder := None |> <| st_stop_reminders := [] |> <| st_asked ::= fun l => (l ++ [messages])%list |>).

(** ** The answer *)

Definition run_ctx (s : State) : RunCtx :=
  let c := base_ctx cfg in
  {| rc_hooks := rc_hooks c; rc_failures := tool_failure_count (st_agent s); rc_max_failures := rc_max_failures c; rc_mode := st_mode s;
     rc_user_hooks := rc_user_hooks c; rc_principles := rc_principles c; rc_atma := atma_graha (st_manas s); rc_plate := st_plate s;
     rc_session := id_of s; rc_budget := rc_budget c; rc_root := exec_root (st_agent s); rc_max_conc := rc_max_conc c |}.

Definition ask (e : TurnEnv) (s : State) : Stream.LlmRun :=
  Stream.llm_turn get_tool run_command env from_str persist (run_ctx s) (ephemeral cfg) (te_attempts e) (st_guard s) (st_reminder s) []
    (st_world s) (st_router s).

(** The state after the request, before its end is looked at. *)
Definition answered (e : TurnEnv) (r : Stream.LlmRun) (s : State) : State :=
  let rd := Stream.lr_reading r in
  arrive (te_answer_arrivals e)
    (emit (map ELlm (Stream.rd_events rd))
      (s <| st_router := Stream.lr_router r |> <| st_guard := Stream.rd_guard rd |> <| st_reminder := Stream.rd_reminder rd |>
         <| st_world := world (Stream.rd_early rd) |>)).

(** Aborting the early calls. *)
Definition wind_down_calls (calls : list ToolCall) (rd : Stream.Reading) (e : RunEnd) (s : State) : Phase :=
  match wind_down_early env from_str persist (run_ctx s) calls (Stream.rd_early rd) with
  | Some (_, evs) => wind_down e (emit (map EGate evs) s)
  | None => Stop Panicked s
  end.

(** The snapshot of a turn without calls. *)
Definition quiet_snapshot (e : TurnEnv) (s : State) : TurnSnapshot :=
  {| turn_number := st_turn_count s; intent_stem := Jia; target_palace := Zhong; geju_name := ""; snap_execution_mode := ""; tool_name := "";
     tool_input := Null; tool_output := ""; tool_error := None; timestamp := te_now e; certainty := last (st_certainty s);
     active_seed_ids := st_touched s; tool_count := 0 |}.

(** The certainty of the turn, lowered after failed verification, and what the
    self-model makes of its trend. *)
Definition assess (s : State) : State :=
  let c := TurnCertainty_evaluate (snapshots (working_memory (st_agent s))) (atma_graha (st_manas s)) (st_turn_count s) (max_turns cfg)
             CertaintyParams_default in
  let '(anomaly, checks) := take_verification_anomaly (id_of s) (checklist (st_agent s)) in
  let recorded := if anomaly then fmin (F32.mul (composite c) (F32.lit 5 10)) (F32.lit 25 100) else composite c in
  let s := on_agent (fun a => a <| checklist := checks |>) s <| st_certainty ::= fun l => (l ++ [recorded])%list |> in
  if certainty_enabled cfg then s <| st_manas ::= adjust_from_certainty_trend (st_certainty s) |> else s.

(** ** The end of a turn *)

(** A turn without calls. *)
Definition end_quiet (s : State) : Phase :=
  let '(r, h, b, v) := turn_end (id_of s) (ephemeral cfg) (verify_on_stop cfg) (history (st_agent s)) (st_bus s) (verify (st_agent s)) in
  let notices := match r with ContinueSteered => map SessionBus.content (fst (SessionBus.drain_steer (id_of s) (st_bus s))) | _ => [] end in
  let s := emit [ETurnEnd (st_turn_count s)] s in
  let s := emit (map ESteerFolded notices)
             (perfume_all notices (on_agent (fun a => a <| history := h |> <| verify := v |>) s <| st_bus := b |>)) in
  match r with
  | ContinueWith reminder => Next (s <| st_stop_reminders ::= fun l => (l ++ [reminder])%list |>)
  | ContinueSteered => Next s
  | Break => Stop Finished s
  end.

Definition touched_paths (calls : list ToolCall) : list string :=
  omap (fun tc => match get (tc_parameters tc) "path" ≫= as_str with
                  | Some p => if is_empty_str p then None else Some p
                  | None => None
                  end) calls.

(** What follows the batches. *)
Definition end_tools (calls : list ToolCall) (touched : list string) (s : State) : State :=
  let s := s <| st_touched ::= fun l => (l ++ touched)%list |> in
  let s := if coactivation_enabled cfg
           then s <| st_coactivation ::= Vasana.record_coactivation "" (st_touched s) (st_turn_count s) |> else s in
  let s := s <| st_plate ::= close_failing_gates (tool_failure_count (st_agent s)) |>
             <| st_skill_calls ::= Turn.note_skills calls |> in
  let '(mode, plate, sent) := Turn.mode_transitions calls (st_mode s) (st_plate s) in
  let s := emit (map EModeChanged sent) (s <| st_mode := mode |> <| st_plate := plate |>) in
  let s := s <| st_activated ::= activate_skills (touched_paths calls) |> in
  let s := on_agent (fun a => a <| history ::= Turn.cap_history |>) s in
  save_history_now (emit [ETurnEnd (st_turn_count s)] s).

(** What the calls of the turn are recorded with. *)
Definition oracle_of (e : TurnEnv) (calls : list ToolCall) (s : State) : Turn.Oracle :=
  let o := te_oracle e in
  {| Turn.or_elapsed := Turn.or_elapsed o; Turn.or_inline := Turn.or_inline o; Turn.or_joins := Turn.or_joins o; Turn.or_order := Turn.or_order o;
     Turn.or_info n :=
       let ti := Turn.or_info o n in
       {| ti_turn := st_turn_count s; ti_now := ti_now ti; ti_certainty := last (st_certainty s); ti_seeds := st_touched s;
          ti_tools := Z.of_nat (length calls); ti_uuid := ti_uuid ti |} |}.

(** A turn with calls. *)
Definition tool_turn (e : TurnEnv) (rd : Stream.Reading) (calls : list ToolCall) (s : State) : Phase :=
  let s := emit [EToolBatchStart] s in
  match drain_early_finalize env from_str persist (run_ctx s) (te_joins e) calls (Stream.rd_early rd) with
  | None => Stop Panicked s
  | Some (early, evs) =>
      let s := emit (map EGate evs) s in
      let serial := {| Turn.sr_slots := slots early; Turn.sr_guard := st_guard s; Turn.sr_reminder := st_reminder s;
                       Turn.sr_touched := touched early; Turn.sr_world := world early |} in
      match Turn.tool_phase get_tool run_command env from_str persist (run_ctx s) (oracle_of e calls s) (Stream.rd_stop rd) calls (st_agent s) serial with
      | None => Stop Panicked s
      | Some (a, serial, _, evs, stop) =>
          let s := emit (map EGate evs)
                     (s <| st_agent := a |> <| st_guard := Turn.sr_guard serial |> <| st_reminder := Turn.sr_reminder serial |>
                        <| st_world := Turn.sr_world serial |>) in
          let s := arrive (te_tool_arrivals e) (s <| st_bus ::= fun b => SessionBus.set_criteria_map (te_criteria e (SessionBus.completion_criteria b)) b |>) in
          if stop then wind_down RepeatStopped s else Next (end_tools calls (Turn.sr_touched serial) s)
      end
  end.

(** What follows a complete answer. *)
Definition complete (e : TurnEnv) (r : Stream.LlmRun) (s : State) : Phase :=
  let rd := Stream.lr_reading r in
  let '(text, calls) := Stream.finish_answer from_str (te_fresh e) (tool_names cfg) (Stream.rd_text rd) (Stream.rd_calls rd) in
  let s := on_agent (fun a => a <| history ::= Stream.record_answer (te_cancelled e) text calls |>) s in
  if te_cancelled e then wind_down_calls calls rd CancelledAfterAnswer s
  else
    match (match calls with [] => record (working_memory (st_agent s)) (quiet_snapshot e s) | _ => Some (working_memory (st_agent s)) end) with
    | None => Stop Panicked s
    | Some wm =>
        let s := assess (on_agent (fun a => a <| working_memory := wm |>) s) in
        match calls with [] => end_quiet s | _ => tool_turn e rd calls s end
    end.

Definition request (e : TurnEnv) (s : State) : Phase :=
  let r := ask e s in
  let s := answered e r s in
  match Stream.lr_end r with
  | Stream.Completed => complete e r s
  | Stream.Truncated => wind_down_calls (Stream.rd_calls (Stream.lr_reading r)) (Stream.lr_reading r) StreamTruncated s
  | Stream.CancelledRetry => wind_down RetryCancelled s
  | Stream.GaveUp _ => wind_down LlmFailed s
  end.

(** ** The loop *)

Definition limit_text : string := "Reached maximum turns (" +:+ pretty (max_turns cfg) +:+ ")".

(** One pass of the loop. *)
Definition turn (e : TurnEnv) (s : State) : Phase :=
  match pause (te_pause e) with
  | None => wind_down_folded PausedCancelled s
  | Some _ =>
      let s := s <| st_turn_count ::= Z.add 1 |> in
      if (max_turns cfg <? st_turn_count s)%Z then wind_down_folded MaxTurns (emit [EError limit_text] s)
      else
        let '(now, s) := checkpoint (begin_turn e s) in
        if now then Stop SteeredNow (save_history_now s)
        else
          let '(system, s) := prompt s in
          match compaction_step e system s with
          | Stop r s => Stop r s
          | Next s => request e (gather s)
          end
  end.

(** The ends that leave the loop by [break]. *)
Definition breaks (e : RunEnd) : bool := match e with MaxTurns | RepeatStopped | Finished => true | _ => false end.
Definition teardown (e : RunEnd) (s : State) : RunEnd * State :=
  (e, if breaks e then emit [ESessionEnd (st_turn_count s); EDone] s else s).

(** The loop; [envs] tells each pass what it meets.  [None]: out of fuel. *)
Fixpoint turns (fuel : nat) (envs : nat -> TurnEnv) (n : nat) (s : State) : option (RunEnd * State) :=
  match fuel with
  | O => None
  | S fuel =>
      match turn (envs n) s with
      | Stop e s => Some (teardown e s)
      | Next s => turns fuel envs (S n) s
      end
  end.

Definition entry_of (m : Message) : HistoryEntry :=
  match Context.role m with
  | User => HUser (sanitize_message (Context.content m)) (Context.images m)
  | System => HSystem (Context.content m)
  | Assistant => HAssistant (Context.content m)
  end.

(** The messages of the user enter the history, which is saved at once. *)
Definition begin_run (title : string) (messages : list Message) (s : State) : State :=
  let s := emit [ESession title] s in
  let s := if ephemeral cfg then s else perfume_all (omap (fun m => match Context.role m with User => Some (Context.content m) | _ => None end) messages) s in
  let s := on_agent (fun a => a <| history ::= fun h => (h ++ map entry_of messages)%list |>) s in
  save_history_now (s <| st_guard := RepeatGuard_default |> <| st_reminder := None |> <| st_stop_reminders := [] |>
                      <| st_agent ::= fun a => a <| verify := VerifyTracker_default |> |>).

Definition title_of (messages : list Message) : string :=
  default "" (option_map (fun m => Rin.truncate_title (Context.content m))
    (List.find (fun m => match Context.role m with User => true | _ => false end) messages)).

Definition run (fuel : nat) (envs : nat -> TurnEnv) (messages : list Message) (s : State) : option (RunEnd * State) :=
  turns fuel envs 0 (begin_run (title_of messages) messages s).

(** * Proofs *)

(** ** What the theorems look at *)

Definition steered (e : Event) : option string := match e with ESteerFolded c => Some c | _ => None end.
Definition is_done (e : Event) : bool := match e with EDone => true | _ => false end.

(** The part of the state that accounts for steering, requests and the end. *)
Record View := {
  v_id : string;
  v_turn : Z;
  v_queue : list SessionBus.SteerMessage;
  v_pushed : list SessionBus.SteerMessage;
  v_folded : list string;
  v_asked : nat;
  v_done : nat
}.

Definition view (s : State) : View :=
  {| v_id := id_of s; v_turn := st_turn_count s; v_queue := SessionBus.queue_of (id_of s) (st_bus s); v_pushed := st_pushed s;
     v_folded := omap steered (st_sent s); v_asked := length (st_asked s); v_done := length (List.filter is_done (st_sent s)) |}.

(** Every message that waited or was pushed has been folded or waits; at most
    [k] requests were made. *)
Record flow (k : nat) (v v' : View) : Prop := {
  flow_id : v_id v' = v_id v;
  flow_turn : v_turn v' = v_turn v;
  flow_done : v_done v' = v_done v;
  flow_asked : v_asked v' <= v_asked v + k;
  flow_steer : exists ms, v_pushed v' = (v_pushed v ++ ms)%list /\
    (v_folded v' ++ map SessionBus.content (v_queue v'))%list ≡ₚ (v_folded v ++ map SessionBus.content (v_queue v) ++ map SessionBus.content ms)%list
}.

Lemma flow_refl k v : flow k v v.
Proof. split; try done; [lia|]. exists []. by rewrite !app_nil_r. Qed.

Lemma flow_trans j k u v w : flow j u v -> flow k v w -> flow (j + k) u w.
Proof.
  intros [I1 T1 D1 A1 (m1 & P1 & F1)] [I2 T2 D2 A2 (m2 & P2 & F2)]. split; try congruence; [lia|].
  exists (m1 ++ m2)%list. rewrite P2, P1, app_assoc. split; [done|]. rewrite F2, map_app, !app_assoc. f_equiv. by rewrite F1, !app_assoc.
Qed.

(** ** Steps that only account *)

Definition neutral (e : Event) : bool := match e with ESteerFolded _ | EDone => false | _ => true end.

Lemma omap_neutral es : forallb neutral es = true -> omap steered es = [] /\ List.filter is_done es = [].
Proof.
  induction es as [|e es IH]; [done|]. cbn. intros [He Hes]%andb_true_iff. destruct (IH Hes) as [-> ->]. by destruct e.
Qed.

Lemma view_emit es s : forallb neutral es = true -> view (emit es s) = view s.
Proof.
  intros [Ho Hf]%omap_neutral. unfold view, emit. cbn. by rewrite omap_app, List.filter_app, Ho, Hf, !app_nil_r.
Qed.

Lemma neutral_map {A} (f : A -> Event) l : (forall x, neutral (f x) = true) -> forallb neutral (map f l) = true.
Proof. intros Hf. induction l as [|x l IH]; cbn; [done|]. by rewrite Hf. Qed.

Lemma view_perfume cs s : view (perfume_all cs s) = view s.
Proof. done. Qed.

Lemma view_save s : view (save_history_now s) = view s.
Proof. unfold save_history_now. by destruct (ephemeral cfg). Qed.

Lemma push_queue id m b : SessionBus.queue_of id (SessionBus.push_steer id m b) = (SessionBus.queue_of id b ++ [m])%list.
Proof. unfold SessionBus.queue_of, SessionBus.push_steer. cbn. by rewrite lookup_insert_eq. Qed.

Lemma push_all_queue id ms b :
  SessionBus.queue_of id (foldl (fun b m => SessionBus.push_steer id m b) b ms) = (SessionBus.queue_of id b ++ ms)%list.
Proof.
  revert b. induction ms as [|m ms IH]; intros b; cbn; [by rewrite app_nil_r|]. by rewrite IH, push_queue, <- app_assoc.
Qed.

(** A step that makes no request. *)
Lemma flow_here ms s s' : id_of s' = id_of s -> st_turn_count s' = st_turn_count s -> st_asked s' = st_asked s ->
  List.filter is_done (st_sent s') = List.filter is_done (st_sent s) -> st_pushed s' = (st_pushed s ++ ms)%list ->
  (omap steered (st_sent s') ++ map SessionBus.content (SessionBus.queue_of (id_of s) (st_bus s')))%list ≡ₚ
  (omap steered (st_sent s) ++ map SessionBus.content (SessionBus.queue_of (id_of s) (st_bus s)) ++ map SessionBus.content ms)%list ->
  flow 0 (view s) (view s').
Proof. intros Hi Ht Ha Hd Hp Hs. split; cbn; [done|done|by rewrite Hd|rewrite Ha; lia|]. exists ms. rewrite Hi. by split. Qed.

Lemma arrive_flow ms s : flow 0 (view s) (view (arrive ms s)).
Proof. apply (flow_here ms); try done. unfold arrive. cbn [st_bus st_sent]. cbn. by rewrite push_all_queue, map_app. Qed.

(** What folding sends and keeps. *)
Lemma notices_sent l : omap steered (map ESteerFolded l) = l /\ List.filter is_done (map ESteerFolded l) = [].
Proof. induction l as [|c l [IHo IHf]]; [done|]. cbn. split; [by f_equal|done]. Qed.

Lemma fold_flow f b folded s : a_id (f (st_agent s)) = a_id (st_agent s) ->
  (map SessionBus.content folded ++ map SessionBus.content (SessionBus.queue_of (id_of s) b))%list ≡ₚ
    map SessionBus.content (SessionBus.queue_of (id_of s) (st_bus s)) ->
  let notices := map SessionBus.content folded in
  flow 0 (view s) (view (emit (map ESteerFolded notices) (perfume_all notices (on_agent f s <| st_bus := b |>)))).
Proof.
  intros Hi Hp. apply (flow_here []); try done; cbn.
  - by rewrite List.filter_app, (proj2 (notices_sent _)), app_nil_r.
  - by rewrite app_nil_r.
  - by rewrite app_nil_r, omap_app, (proj1 (notices_sent _)), <- app_assoc, Hp.
Qed.

(** Folding everything leaves an empty queue. *)
Lemma fold_all_eq s : let q := SessionBus.queue_of (id_of s) (st_bus s) in let '(folded, s') := fold_all s in
  folded = negb (bool_decide (q = [])) /\ v_queue (view s') = [] /\
  history (st_agent s') = (history (st_agent s) ++ map steer_entry q)%list /\ flow 0 (view s) (view s') /\ st_saved s' = st_saved s.
Proof.
  intros q. unfold fold_all, fold_all_steer. destruct (drain_queue (id_of s) (st_bus s)) as [Hd Hq]. fold q in Hd.
  destruct (SessionBus.drain_steer (id_of s) (st_bus s)) as [drained b]. cbn [fst snd] in *. subst drained.
  specialize (Hq (id_of s)). rewrite decide_True in Hq by done. destruct q as [|m q'] eqn:Eq.
  - split_and!; [done|done|cbn; by rewrite app_nil_r|apply (fold_flow _ b []); [done|]; fold q; by rewrite Hq, Eq|done].
  - unfold fold_steer_into_history. split_and!; [done|done|done|apply (fold_flow _ b (m :: q')); [done|]; fold q; by rewrite Hq, Eq, app_nil_r|done].
Qed.

Lemma checkpoint_eq s : let '(now, s') := checkpoint s in
  flow 0 (view s) (view s') /\ (now = true -> v_queue (view s') = []).
Proof.
  unfold checkpoint. pose proof (steer_checkpoint_spec (id_of s) (history (st_agent s)) (st_bus s)) as Hc. cbv zeta in Hc.
  destruct (fold_steer_at_checkpoint _ _ _) as [[[h b] notices] now]. destruct Hc as (-> & -> & -> & Hq & _).
  set (q := SessionBus.queue_of (id_of s) (st_bus s)) in *. split.
  - apply (fold_flow _ b); [done|]. fold q. rewrite Hq. destruct (existsb is_now q); [by rewrite app_nil_r|].
    rewrite <- map_app. f_equiv. clear. induction q as [|m q IH]; [done|]. cbn.
    destruct (is_later m); cbn; [by rewrite <- Permutation_middle, IH|by rewrite IH].
  - intros Hn. change (SessionBus.queue_of (id_of s) b = []). by rewrite Hq, Hn.
Qed.

(** ** The phases of a turn *)

(** The ends that leave no message waiting, and those that have saved. *)
Definition empties (e : RunEnd) : bool := match e with CompactionAborted | Panicked => false | _ => true end.
Definition saves (e : RunEnd) : bool :=
  match e with SteeredNow | StreamTruncated | RetryCancelled | LlmFailed | CancelledAfterAnswer | RepeatStopped => true | _ => false end.

Definition stopped_ok (e : RunEnd) (s : State) : Prop :=
  (empties e = true -> v_queue (view s) = []) /\
  (saves e = true -> ephemeral cfg = false -> st_saved s = Some (history (st_agent s))).

Definition phase_ok (k : nat) (v : View) (p : Phase) : Prop :=
  match p with Next s => flow k v (view s) | Stop e s => flow k v (view s) /\ stopped_ok e s end.

Lemma phase_after j k u v p : flow j u v -> phase_ok k v p -> phase_ok (j + k) u p.
Proof. intros Hf. destruct p as [s|e s]; cbn; [|intros [Hg ?]; split; [|done]]; intros; by eapply flow_trans. Qed.

Lemma save_saved s : ephemeral cfg = false -> st_saved (save_history_now s) = Some (history (st_agent s)).
Proof. unfold save_history_now. by intros ->. Qed.
Lemma history_save s : history (st_agent (save_history_now s)) = history (st_agent s).
Proof. unfold save_history_now. by destruct (ephemeral cfg). Qed.

Lemma wind_down_ok e s v : flow 0 v (view s) -> phase_ok 0 v (wind_down e s).
Proof.
  intros Hv. apply (phase_after 0 0 _ _ _ Hv). unfold wind_down. pose proof (fold_all_eq s) as Hf. destruct (fold_all s) as [folded s'].
  destruct Hf as (_ & Hq & _ & Hf & _). cbn. unfold stopped_ok. rewrite view_save, history_save. split; [done|]. split; [done|]. intros _. apply save_saved.
Qed.

Lemma wind_down_folded_ok e s v : saves e = false -> flow 0 v (view s) -> phase_ok 0 v (wind_down_folded e s).
Proof.
  intros He Hv. apply (phase_after 0 0 _ _ _ Hv). unfold wind_down_folded. pose proof (fold_all_eq s) as Hf. destruct (fold_all s) as [folded s'].
  destruct Hf as (_ & Hq & _ & Hf & _). cbn. unfold stopped_ok. rewrite He. destruct folded; rewrite ?view_save; done.
Qed.

Lemma stop_quiet e s v : empties e = false -> saves e = false -> flow 0 v (view s) -> phase_ok 0 v (Stop e s).
Proof. intros He Hs Hv. split; [done|]. unfold stopped_ok. by rewrite He, Hs. Qed.

Lemma wind_down_calls_ok calls rd e s v : flow 0 v (view s) -> phase_ok 0 v (wind_down_calls calls rd e s).
Proof.
  intros Hv. unfold wind_down_calls. destruct (wind_down_early _ _ _ _ _ _) as [[? evs]|]; [|by apply stop_quiet].
  apply wind_down_ok. by rewrite view_emit by by apply neutral_map.
Qed.

Lemma view_assess s : view (assess s) = view s.
Proof. unfold assess. destruct (take_verification_anomaly _ _) as [anomaly checks]. by destruct (certainty_enabled cfg). Qed.

Lemma gather_flow s : flow 1 (view s) (view (gather s)).
Proof.
  unfold gather. destruct (Background.notify_finished values (st_background s)) as [finished b].
  destruct (take_test_failure_reminders _ _) as [tests checks]. destruct (take_nudge _) as [nudge tracker].
  rewrite view_emit by by apply neutral_map. split; try done; [cbn; rewrite length_app; cbn; lia|].
  exists []. cbn. by rewrite !app_nil_r.
Qed.

Lemma compaction_ok e system s : phase_ok 0 (view s) (compaction_step e system s).
Proof.
  unfold compaction_step. destruct (st_compaction s) as [[l b] a]. destruct (negb _); [apply flow_refl|].
  destruct (anti_thrash_skip _ _ _ _); [cbn [phase_ok]; rewrite view_emit by done; apply flow_refl|].
  set (s1 := emit [EContextPressure _ _] s). set (s2 := emit [ECompacting] s1).
  assert (view s2 = view s) as <- by (unfold s2, s1; by rewrite !view_emit). clearbody s2.
  destruct (fst (compact _ _ _ _)); [apply flow_refl| |by apply stop_quiet, flow_refl..].
  destruct summary; apply (flow_here []); by rewrite ?app_nil_r.
Qed.

Lemma view_agent f s : a_id (f (st_agent s)) = a_id (st_agent s) -> view (on_agent f s) = view s.
Proof. intros Hf. unfold view, id_of, on_agent. cbn. by rewrite Hf. Qed.

Lemma view_end_tools calls touched s : view (end_tools calls touched s) = view s.
Proof.
  unfold end_tools. set (s1 := s <| st_touched ::= _ |>). set (s2 := if coactivation_enabled cfg then _ else s1).
  assert (view s2 = view s) as <- by (unfold s2; by destruct (coactivation_enabled cfg)). clearbody s2.
  set (s3 := s2 <| st_plate ::= _ |> <| st_skill_calls ::= _ |>). change (view s2) with (view s3). clearbody s3.
  destruct (Turn.mode_transitions calls _ _) as [[mode plate] sent]. rewrite view_save, view_emit, view_agent by done.
  set (s4 := s3 <| st_mode := mode |> <| st_plate := plate |>). change (view s3) with (view s4). clearbody s4.
  transitivity (view (emit (map EModeChanged sent) s4)); [|by rewrite view_emit by by apply neutral_map].
  generalize (emit (map EModeChanged sent) s4). done.
Qed.

Lemma turn_end_fold h b v s : let '(r, h', b', v') := turn_end (id_of s) (ephemeral cfg) (verify_on_stop cfg) h b v in
  let q := SessionBus.queue_of (id_of s) b in let q' := SessionBus.queue_of (id_of s) b' in
  match r with ContinueSteered => q' = [] | Break => q = [] /\ q' = [] | ContinueWith _ => q' = q end.
Proof.
  unfold turn_end, fold_all_steer. destruct (SessionBus.unchecked_criteria _ _); [|done]. destruct (negb _ && _ && _); [done|].
  destruct (drain_queue (id_of s) b) as [Hd Hq]. destruct (SessionBus.drain_steer _ b) as [drained b']. cbn [fst snd] in *. subst drained.
  specialize (Hq (id_of s)). rewrite decide_True in Hq by done. by destruct (SessionBus.queue_of (id_of s) b).
Qed.

Lemma end_quiet_ok s : phase_ok 0 (view s) (end_quiet s).
Proof.
  unfold end_quiet. pose proof (turn_end_fold (history (st_agent s)) (st_bus s) (verify (st_agent s)) s) as Ht. cbv zeta in Ht.
  destruct (turn_end _ _ _ _ _ _) as [[[r h] b] v]. set (s1 := emit [ETurnEnd _] s).
  assert (view s1 = view s) as <- by (unfold s1; by rewrite view_emit).
  change (id_of s) with (id_of s1) in *. change (st_bus s) with (st_bus s1) in *. clearbody s1.
  destruct (drain_queue (id_of s1) (st_bus s1)) as [-> _].
  set (f := fun a : Batch.Agent => a <| history := h |> <| verify := v |>).
  destruct r; cbn [phase_ok fst].
  - refine (fold_flow f b [] s1 eq_refl _). by rewrite Ht.
  - refine (fold_flow f b _ s1 eq_refl _). by rewrite Ht, app_nil_r.
  - destruct Ht as [Hq Hb]. split; [refine (fold_flow f b [] s1 eq_refl _); by rewrite Hq, Hb|]. by split.
Qed.

Lemma absorb_id ti tc o a a' r : absorb_outcome ti tc o a = Some (a', r) -> a_id a' = a_id a.
Proof.
  unfold absorb_outcome. destruct (if synthetic_cancel o then Some (verify a, checklist a) else _) as [sig|]; cbn; [|done].
  destruct (worktree_transition tc o a) as [[wt root] rm]. destruct (record _ _) as [wm|]; cbn; [|done]. by intros [= <- _].
Qed.

Lemma absorb_all_id orc n calls os a a' m : Turn.absorb_all orc n calls os a = Some (a', m) -> a_id a' = a_id a.
Proof.
  revert n os a. induction calls as [|tc calls IH]; intros n [|[o|] os] a; cbn; try by intros [= <- _].
  - destruct (absorb_outcome _ tc o a) as [[a1 r]|] eqn:Ha; [|done]. cbn. intros Hr%IH. by rewrite Hr, (absorb_id _ _ _ _ _ _ Ha).
  - apply IH.
Qed.

Lemma run_batches_id c orc ids b n batches a st a' st' n' evs stop :
  Turn.run_batches get_tool run_command env from_str persist c orc ids b n batches a st = Some (a', st', n', evs, stop) -> a_id a' = a_id a.
Proof.
  revert b n a st evs st' n' stop. induction batches as [|batch batches IH]; intros b n a st evs st' n' stop; cbn [Turn.run_batches]; [by intros [= <- _ _ _ _]|].
  destruct (Turn.serve_batch _ _ _ _ _ _ _ _ _ _ _ _) as [[xs st1] evs1]. destruct (Turn.stopped xs); [by intros [= <- _ _ _ _]|].
  destruct (Turn.execute _ _ _ _ _ _ _ _ _) as [[results t] evs2].
  destruct (Turn.absorb_all _ _ _ _ _) as [[a1 n1]|] eqn:Ha; [|done]. cbn [mbind option_bind].
  destruct (Turn.run_batches _ _ _ _ _ _ _ _ _ _ _ _ _) as [[[[[a2 st2] n2] evs3] stop2]|] eqn:Hr; [|done]. cbn. intros [= -> _ _ _ _].
  apply IH in Hr. by rewrite Hr, (absorb_all_id _ _ _ _ _ _ _ Ha).
Qed.

Lemma tool_phase_id c orc stop calls a st a' st' n evs stop' :
  Turn.tool_phase get_tool run_command env from_str persist c orc stop calls a st = Some (a', st', n, evs, stop') -> a_id a' = a_id a.
Proof.
  unfold Turn.tool_phase. destruct stop; [|apply run_batches_id].
  destruct (Turn.absorb_all _ _ _ _ _) as [[a1 n1]|] eqn:Ha; [|done]. cbn. intros [= <- _ _ _ _]. by eapply absorb_all_id.
Qed.

Lemma tool_turn_ok e rd calls s : phase_ok 0 (view s) (tool_turn e rd calls s).
Proof.
  unfold tool_turn. rewrite <- (view_emit [EToolBatchStart] s) by done. set (s1 := emit [EToolBatchStart] s). clearbody s1. clear s.
  destruct (drain_early_finalize _ _ _ _ _ _ _) as [[early evs]|]; [|apply stop_quiet; [done..|apply flow_refl]].
  rewrite <- (view_emit (map EGate evs) s1) by by apply neutral_map. set (s2 := emit (map EGate evs) s1). clearbody s2. clear s1 evs.
  destruct (Turn.tool_phase _ _ _ _ _ _ _ _ _ _ _) as [[[[[a serial] n] evs] stop]|] eqn:Hp; [|apply stop_quiet; [done..|apply flow_refl]].
  apply tool_phase_id in Hp. set (s3 := s2 <| st_agent := a |> <| st_guard := _ |> <| st_reminder := _ |> <| st_world := _ |>).
  assert (H3 : view (emit (map EGate evs) s3) = view s2).
  { rewrite view_emit by by apply neutral_map. unfold view, id_of. cbn. by rewrite Hp. }
  set (s4 := arrive _ _).
  assert (Hs : flow 0 (view s2) (view s4)) by (rewrite <- H3; eapply (flow_trans 0 0); [|apply arrive_flow]; apply flow_refl).
  destruct stop; [by apply wind_down_ok|]. cbn [phase_ok]. by rewrite view_end_tools.
Qed.

Lemma complete_ok e r s : phase_ok 0 (view s) (complete e r s).
Proof.
  unfold complete. destruct (Stream.finish_answer _ _ _ _ _) as [text calls].
  set (s1 := on_agent (fun a => a <| history ::= _ |>) s). change (view s) with (view s1). clearbody s1.
  destruct (te_cancelled e); [apply wind_down_calls_ok, flow_refl|].
  destruct (match calls with [] => _ | _ => _ end) as [wm|]; [|apply stop_quiet; [done..|apply flow_refl]].
  set (s2 := on_agent (fun a => a <| working_memory := wm |>) s1). change (view s1) with (view s2). clearbody s2.
  rewrite <- (view_assess s2). destruct calls; [apply end_quiet_ok|apply tool_turn_ok].
Qed.

Lemma request_ok e s : phase_ok 0 (view s) (request e s).
Proof.
  unfold request. set (s1 := answered e (ask e s) s).
  assert (Hs : flow 0 (view s) (view s1)).
  { unfold s1, answered. eapply (flow_trans 0 0); [|apply arrive_flow]. rewrite view_emit by by apply neutral_map. apply flow_refl. }
  clearbody s1. apply (phase_after 0 0 _ _ _ Hs).
  destruct (Stream.lr_end _); [apply complete_ok|apply wind_down_calls_ok, flow_refl|apply wind_down_ok, flow_refl..].
Qed.

(** ** A turn *)

Definition turn_start (s : State) : View := view (s <| st_turn_count ::= Z.add 1 |>).

(** One pass: a pass that goes on was a turn within the limit; every pass
    accounts for all steering and makes at most one request. *)
Lemma turn_ok e s : match turn e s with
  | Next s' => (v_turn (turn_start s) <= max_turns cfg)%Z /\ flow 1 (turn_start s) (view s')
  | Stop r s' => stopped_ok r s' /\
      (flow 0 (view s) (view s') \/
       (max_turns cfg < v_turn (turn_start s))%Z /\ flow 0 (turn_start s) (view s') \/
       (v_turn (turn_start s) <= max_turns cfg)%Z /\ flow 1 (turn_start s) (view s'))
  end.
Proof.
  unfold turn, turn_start. set (s0 := s <| st_turn_count ::= Z.add 1 |>). cbv zeta. change (st_turn_count s0) with (v_turn (view s0)).
  destruct (pause (te_pause e)); cycle 1.
  { pose proof (wind_down_folded_ok PausedCancelled s (view s) eq_refl (flow_refl 0 _)) as Hw. unfold wind_down_folded in *.
    destruct (fold_all s) as [folded s']. cbn [phase_ok] in Hw. tauto. }
  destruct (Z.ltb_spec (max_turns cfg) (v_turn (view s0))).
  { pose proof (wind_down_folded_ok MaxTurns (emit [EError limit_text] s0) (view s0) eq_refl) as Hw. rewrite view_emit in Hw by done.
    specialize (Hw (flow_refl 0 _)). unfold wind_down_folded in *. destruct (fold_all _) as [folded s']. cbn [phase_ok] in Hw. tauto. }
  set (s1 := begin_turn e s0). assert (Hs1 : flow 0 (view s0) (view s1)).
  { unfold s1, begin_turn. eapply (flow_trans 0 0); [|apply arrive_flow]. destruct (st_touched _); apply (flow_here []); try done; cbn;
      rewrite ?omap_app, ?List.filter_app, ?app_nil_r; done. }
  pose proof (checkpoint_eq s1) as Hc. destruct (checkpoint s1) as [now s2]. destruct Hc as [Hs2 Hnow].
  pose proof (flow_trans 0 0 _ _ _ Hs1 Hs2) as H02. clearbody s0 s1. destruct now.
  { rewrite view_save. split; [|right; right; split; [done|]; apply (flow_trans 0 1 _ _ _ H02), flow_refl].
    split; [intros _; rewrite view_save; by apply Hnow|]. intros _ He. rewrite history_save. by apply save_saved. }
  unfold prompt. destruct (build_prompt _ _) as [p a]. set (s3 := s2 <| st_touched := _ |>). change (view s2) with (view s3) in H02. clearbody s3.
  pose proof (compaction_ok e (system_full p) s3) as H3. destruct (compaction_step _ _ _) as [s4|r s4]; cbn [phase_ok] in H3.
  - pose proof (phase_after 1 0 _ _ _ (gather_flow s4) (request_ok e (gather s4))) as H4.
    apply (phase_after 0 _ _ _ _ H3), (phase_after 0 _ _ _ _ H02) in H4. cbn [Nat.add] in H4.
    destruct (request e (gather s4)); cbn [phase_ok] in H4; tauto.
  - destruct H3 as [H3 Hr]. split; [done|]. right. right. split; [done|]. apply (flow_trans 0 1 _ _ _ H02).
    apply (flow_trans 0 1 _ _ _ H3), flow_refl.
Qed.

(** ** Runs *)

(** How a run from [s] ended in [s']. *)
Record ends_in (s : State) (e : RunEnd) (s' : State) : Prop := {
  end_id : id_of s' = id_of s;
  end_turn : (st_turn_count s <= st_turn_count s' <= Z.max (st_turn_count s) (max_turns cfg) + 1)%Z;
  end_asked : length (st_asked s') <= length (st_asked s) + Z.to_nat (max_turns cfg - st_turn_count s);
  end_done : v_done (view s') = v_done (view s) + (if breaks e then 1 else 0) /\ (breaks e = true -> last (st_sent s') = Some EDone);
  end_steer : exists ms, st_pushed s' = (st_pushed s ++ ms)%list /\
    (v_folded (view s') ++ map SessionBus.content (v_queue (view s')))%list ≡ₚ
    (v_folded (view s) ++ map SessionBus.content (v_queue (view s)) ++ map SessionBus.content ms)%list;
  end_stop : stopped_ok e s'
}.

Lemma view_teardown e s : let v := view (snd (teardown e s)) in
  v_id v = v_id (view s) /\ v_turn v = v_turn (view s) /\ v_queue v = v_queue (view s) /\ v_pushed v = v_pushed (view s) /\
  v_folded v = v_folded (view s) /\ v_asked v = v_asked (view s) /\ v_done v = v_done (view s) + (if breaks e then 1 else 0).
Proof.
  unfold teardown. destruct (breaks e); cbn [snd]; [|by rewrite Nat.add_0_r]. split_and!; try done; cbn.
  - by rewrite omap_app, app_nil_r.
  - by rewrite List.filter_app, length_app.
Qed.

Lemma stop_ended e s s' k : (st_turn_count s <= v_turn (view s') <= Z.max (st_turn_count s) (max_turns cfg) + 1)%Z ->
  k <= Z.to_nat (max_turns cfg - st_turn_count s) -> (exists t, flow k (view (s <| st_turn_count := t |>)) (view s')) -> stopped_ok e s' ->
  ends_in s e (snd (teardown e s')).
Proof.
  intros Ht Hk [t [I _ D A S]] [Hq Hs]. pose proof (view_teardown e s') as Hv. cbv zeta in Hv.
  destruct Hv as (V1 & V2 & V3 & V4 & V5 & V6 & V7). cbn in I, A, D. split.
  - change (v_id (view (snd (teardown e s'))) = id_of s). rewrite V1. exact I.
  - change (st_turn_count (snd (teardown e s'))) with (v_turn (view (snd (teardown e s')))). by rewrite V2.
  - change (v_asked (view (snd (teardown e s'))) <= length (st_asked s) + Z.to_nat (max_turns cfg - st_turn_count s)). rewrite V6. cbn in *. lia.
  - split; [rewrite V7; f_equal; exact D|]. unfold teardown. intros ->. cbn. by rewrite last_app.
  - rewrite V3, V5. destruct S as (ms & Hp & Hf). exists ms. split; [|exact Hf]. change (st_pushed s ++ ms)%list with (v_pushed (view (s <| st_turn_count := t |>)) ++ ms)%list. rewrite <- Hp. exact V4.
  - split; [by rewrite V3|]. intros Hsv He. unfold teardown. destruct (breaks e); cbn; by apply Hs.
Qed.

Lemma next_ended s s1 e s' : (st_turn_count s + 1 <= max_turns cfg)%Z -> flow 1 (view (s <| st_turn_count ::= Z.add 1 |>)) (view s1) ->
  ends_in s1 e s' -> ends_in s e s'.
Proof.
  intros Hm [I T D A (m1 & P1 & F1)] [EI ET EA [ED EL] (m2 & P2 & F2) ES]. split; [by rewrite EI; exact I|cbn in T; lia|cbn in A, T; lia| | |done].
  - split; [|done]. rewrite ED. f_equal. exact D.
  - exists (m1 ++ m2)%list. change (st_pushed s1) with (v_pushed (view s1)) in P2. rewrite P2, P1, app_assoc. split; [done|]. rewrite F2, map_app, !app_assoc. f_equiv. by rewrite F1, !app_assoc.
Qed.

Lemma turns_end fuel envs n s : Z.to_nat (max_turns cfg - st_turn_count s) < fuel ->
  exists e s', (forall extra, turns (fuel + extra) envs n s = Some (e, s')) /\ ends_in s e s'.
Proof.
  revert n s. induction fuel as [|fuel IH]; intros n s Hf; [lia|]. pose proof (turn_ok (envs n) s) as Ht. cbn [turns Nat.add].
  destruct (turn (envs n) s) as [s1|e s1].
  - destruct Ht as [Hm Hfl]. pose proof (flow_turn _ _ _ Hfl) as Hc. cbn in Hm, Hc. destruct (IH (S n) s1) as (e & s' & Hr & He); [lia|].
    exists e, s'. split; [done|]. by apply (next_ended _ s1); [lia|..].
  - destruct Ht as [Hst Hd]. exists e, (snd (teardown e s1)). split; [by unfold teardown|].
    destruct Hd as [Hfl|[[Hm Hfl]|[Hm Hfl]]]; pose proof (flow_turn _ _ _ Hfl) as Hc; cbn in Hc; try (cbn in Hm).
    + apply (stop_ended _ _ _ 0); [cbn; lia|lia| |done]. exists (st_turn_count s). exact Hfl.
    + apply (stop_ended _ _ _ 0); [cbn; lia|lia| |done]. exists (1 + st_turn_count s)%Z. exact Hfl.
    + apply (stop_ended _ _ _ 1); [cbn; lia|lia| |done]. exists (1 + st_turn_count s)%Z. exact Hfl.
Qed.

Lemma view_begin title ms s : view (begin_run title ms s) = view s.
Proof.
  unfold begin_run. set (s1 := emit [ESession title] s). rewrite <- (view_emit [ESession title] s) by done. fold s1. clearbody s1.
  transitivity (view (save_history_now (on_agent (fun a => a <| history ::= fun h => (h ++ map entry_of ms)%list |>)
    (if ephemeral cfg then s1 else perfume_all (omap (fun m => match Context.role m with User => Some (Context.content m) | _ => None end) ms) s1)))).
  - by unfold save_history_now; destruct (ephemeral cfg).
  - rewrite view_save. by destruct (ephemeral cfg).
Qed.

Lemma turns_more fuel extra envs n s r : turns fuel envs n s = Some r -> turns (fuel + extra) envs n s = Some r.
Proof.
  revert n s. induction fuel as [|fuel IH]; intros n s; [done|]. cbn. destruct (turn (envs n) s); [apply IH|done].
Qed.

Lemma run_ended envs messages s : exists e s',
  (forall extra, run (S (Z.to_nat (max_turns cfg - st_turn_count s)) + extra) envs messages s = Some (e, s')) /\ ends_in s e s'.
Proof.
  unfold run. set (s0 := begin_run _ _ s). pose proof (view_begin (title_of messages) messages s) as Hv. fold s0 in Hv.
  assert (Ht : st_turn_count s0 = st_turn_count s) by exact (f_equal v_turn Hv).
  destruct (turns_end (S (Z.to_nat (max_turns cfg - st_turn_count s))) envs 0 s0) as (e & s' & Hr & [I T A D M S]); [rewrite Ht; lia|].
  exists e, s'. split; [done|]. rewrite Ht in T, A. rewrite Hv in D, M.
  assert (Ha : length (st_asked s0) = length (st_asked s)) by exact (f_equal v_asked Hv). rewrite Ha in A.
  split; try done; [rewrite I; exact (f_equal v_id Hv)|]. destruct M as (ms & Hp & Hf). exists ms. split; [|done].
  rewrite Hp. f_equal. exact (f_equal v_pushed Hv).
Qed.



(** ** Reminders *)

Lemma failures_taken id sv : fst (take_test_failure_reminders id (snd (take_test_failure_reminders id sv))) = [].
Proof.
  unfold take_test_failure_reminders, with_bucket_if_present. destruct (Completion.vmap sv !! id) as [v|] eqn:E; cbn; [|by rewrite E].
  by rewrite lookup_alter_eq, E.
Qed.

Lemma tasks_taken m (Hvalues : forall m, values m ≡ₚ (map_to_list m).*2) (Hkey : forall k t, m !! k = Some t -> Background.id t = k) :
  fst (Background.notify_finished values (snd (Background.notify_finished values m))) = [].
Proof.
  destruct (Background.notify_finished_spec values Hvalues m Hkey) as (msgs & m' & E & _ & Hn & Hm). rewrite E. cbn [snd].
  assert (Hu : Background.unnotified_terminal_tasks values m' = []); [|unfold Background.notify_finished; by rewrite Hu].
  destruct (decide (Background.unnotified_terminal_tasks values m = [])) as [H0|H0]; [by rewrite (Hn H0)|].
  unfold Background.unnotified_terminal_tasks. destruct (List.filter _ _) as [|t l] eqn:Ef; [done|]. exfalso.
  assert (Ht : In t (t :: l)) by by left. rewrite <- Ef in Ht. apply List.filter_In in Ht as [Ht [Ht1 _]%andb_true_iff].
  apply list_elem_of_In in Ht. rewrite Hvalues in Ht. apply list_elem_of_fmap in Ht as ([k t'] & -> & Ht). apply elem_of_map_to_list in Ht.
  rewrite (Hm H0) in Ht. destruct (m !! k) as [t0|]; [|done]. destruct (Background.is_terminal (Background.status t0)) eqn:E0; [done|]. by simplify_eq/=; rewrite E0 in Ht1.
Qed.

(** What the next request adds to the history. *)
Definition due (s : State) : list string :=
  (map fst (fst (Background.notify_finished values (st_background s))) ++ option_list (st_reminder s) ++
   fst (take_test_failure_reminders (id_of s) (checklist (st_agent s))) ++ option_list (pending_nudge (verify (st_agent s))) ++
   st_stop_reminders s)%list.

Lemma gather_due s : st_asked (gather s) = (st_asked s ++ [to_llm_messages (history (st_agent s)) ++ map user_text (due s)])%list /\
  history (st_agent (gather s)) = history (st_agent s).
Proof.
  unfold gather, due. destruct (Background.notify_finished _ _) as [finished b]. destruct (take_test_failure_reminders _ _) as [tests checks]. done.
Qed.

Lemma gather_clears s (Hvalues : forall m, values m ≡ₚ (map_to_list m).*2)
    (Hkey : forall k t, st_background s !! k = Some t -> Background.id t = k) : due (gather s) = [].
Proof.
  assert (Hg : let s' := gather s in
    st_background s' = snd (Background.notify_finished values (st_background s)) /\ st_reminder s' = None /\ id_of s' = id_of s /\
    checklist (st_agent s') = snd (take_test_failure_reminders (id_of s) (checklist (st_agent s))) /\
    pending_nudge (verify (st_agent s')) = None /\ st_stop_reminders s' = []).
  { unfold gather. destruct (Background.notify_finished _ _) as [finished b]. destruct (take_test_failure_reminders _ _) as [tests checks]. done. }
  cbv zeta in Hg. destruct Hg as (E1 & E2 & E3 & E4 & E5 & E6). unfold due. rewrite E1, E2, E3, E4, E5, E6, failures_taken.
  by rewrite tasks_taken.
Qed.

(** A reminder reaches exactly one request.  What the loop has to tell the
    model besides the conversation (finished background tasks, the repeat guard,
    failed tests, unverified tasks and the gates before the end) follows the
    history in the next request, in this order, leaves the history as it is, and
    is gone: a request made right after it holds the history alone. *)
Theorem reminders_sent_once s (Hvalues : forall m, values m ≡ₚ (map_to_list m).*2)
    (Hkey : forall k t, st_background s !! k = Some t -> Background.id t = k) :
  let s' := gather s in
  let told := to_llm_messages (history (st_agent s)) in
  exists tasks, Some <$> tasks = Background.report <$> Background.unnotified_terminal_tasks values (st_background s) /\
    st_asked s' = (st_asked s ++ [told ++ map user_text (map fst tasks ++ option_list (st_reminder s) ++
      fst (take_test_failure_reminders (id_of s) (checklist (st_agent s))) ++ option_list (pending_nudge (verify (st_agent s))) ++
      st_stop_reminders s)])%list /\
    history (st_agent s') = history (st_agent s) /\ st_asked (gather s') = (st_asked s' ++ [told])%list.
Proof.
  cbv zeta. destruct (gather_due s) as [H1 H2]. destruct (gather_due (gather s)) as [H3 _].
  destruct (Background.notify_finished_spec values Hvalues (st_background s) Hkey) as (msgs & m' & E & Hr & _).
  exists msgs. rewrite H3, H1, H2, gather_clears by done. unfold due. rewrite E, app_nil_r. done.
Qed.
End Run.

(** ** Concrete runs *)

Definition demo_settings : Settings unit :=
  {| ephemeral := false; max_turns := 4; window := {| max_tokens := 100000; compaction_threshold := F64.lit 1 2 |}; certainty_enabled := true;
     coactivation_enabled := true; verify_on_stop := false; base_ctx := demo_ctx; tool_names := ["read_file"]; ren_soul := None;
     tools_override := None;
     earth := {| Prompt.e_tools := ToolRegistry_new; Prompt.e_skills := None; Prompt.e_seeds := {| Seeds.rows := []; Seeds.fts := [] |};
                 Prompt.e_tasks := []; Prompt.e_tasks_poisoned := None; Prompt.e_workspace := fun _ => None; Prompt.e_data_dir := "/d" |} |}.

Definition demo_start (queued : list SessionBus.SteerMessage) : State :=
  {| st_agent := sample_agent; st_bus := foldl (fun b m => SessionBus.push_steer "s" m b) SessionBus.SessionBus_new queued;
     st_plate := sample_plate; st_world := empty_world; st_background := ∅; st_seeds := {| Seeds.rows := []; Seeds.fts := [] |};
     st_manas := Manas_new; st_coactivation := Vasana.default_matrix; st_touched := []; st_turn_count := 0; st_mode := Auto;
     st_activated := []; st_skill_calls := []; st_certainty := []; st_compaction := (0, 0, 0)%Z; st_summary := None; st_router := None;
     st_guard := RepeatGuard_default; st_reminder := None; st_stop_reminders := []; st_saved := None; st_pushed := []; st_asked := [];
     st_sent := [] |}.

Definition said_by (items : list Provider.Item) (during : list SessionBus.SteerMessage) : TurnEnv :=
  {| te_pause := [false]; te_arrivals := []; te_answer_arrivals := during; te_tool_arrivals := []; te_touch_at := 0; te_replies := [];
     te_compaction_cancelled := false;
     te_attempts := {| Stream.at_items := fun _ => map (fun i => (i, [])) items; Stream.at_cancelled := fun _ => false;
       Stream.at_probe := fun _ => 0%Z; Stream.at_failed := fun _ => 0%Z; Stream.at_entropy := fun _ _ => 0%Z |};
     te_fresh := fun _ => "u"; te_cancelled := false; te_now := 0; te_joins := [ended 0 "fn main"]; te_oracle := Turn.demo_oracle; te_criteria := fun c => c |}.

Definition steer (p : SessionBus.SteerPriority) (text : string) : SessionBus.SteerMessage := {| SessionBus.content := text; SessionBus.priority := p |}.

(** The model reads a file while the user pushes two messages, answers, and
    answers again. *)
Definition demo_turns (n : nat) : TurnEnv :=
  match n with
  | O => said_by [Ok (Provider.Delta "Let me look."); Stream.native "1" "a"] [steer SessionBus.Next "and the tests"; steer SessionBus.Later "then rest"]
  | 1 => said_by [Ok (Provider.Delta "All fine.")] []
  | _ => said_by [Ok (Provider.Delta "Resting.")] []
  end.

Definition demo_messages : list Message := [{| Context.role := User; Context.content := "look"; Context.images := [] |}].
Definition demo_prompt (a : Prompt.Agent) (_ : Prompt.Earth unit) : Prompt.SystemPrompt * Prompt.Agent :=
  ({| Prompt.stable := "be kind"; Prompt.dynamic := "" |}, a).

Abbreviation demo_run fuel envs queued :=
  (run (P := unit) (H := byte_tokenizer) Background.plain_values demo_tools (fun _ _ _ => Hooks.SpawnError) sample_env (fun s => Some (file_input s))
    (fun _ _ => Err "full") demo_prompt (fun _ l => l) (fun _ t => t) demo_settings fuel envs demo_messages (demo_start queued)).

Definition shown (h : HistoryEntry) : string :=
  match h with
  | HUser c _ => "user: " +:+ c
  | HAssistant c => "assistant: " +:+ c
  | HSystem c => "system: " +:+ c
  | HToolCall _ t _ _ o _ _ _ => t +:+ ": " +:+ o
  end.

(** A message for the next turn is in the second request; the one for later
    waits until the model has finished, and keeps the run going. *)
Example steering_in_a_run :
  option_map (fun '(e, s) => (e, map shown (history (st_agent s)), map (map Context.content) (st_asked s), st_turn_count s)) (demo_run 5 demo_turns []) =
  Some (Finished, ["user: look"; "assistant: Let me look."; "read_file: fn main"; "user: [steer] and the tests"; "assistant: All fine.";
                   "user: [steer] then rest"; "assistant: Resting."],
        [["look"]; ["look"; "Let me look."; "Tool read_file result: fn main"; "[steer] and the tests"];
         ["look"; "Let me look."; "Tool read_file result: fn main"; "[steer] and the tests"; "All fine."; "[steer] then rest"]], 3%Z).
Proof. vm_compute. reflexivity. Qed.

(** A message to act on now ends the run before any request. *)
Example steered_now :
  option_map (fun '(e, s) => (e, map shown (history (st_agent s)), length (st_asked s), st_sent s)) (demo_run 5 demo_turns [steer SessionBus.Now "stop"]) =
  Some (SteeredNow, ["user: look"; "user: [steer] stop"], 0, [ESession "look"; ETurnStart 1; ESteerFolded "stop"]).
Proof. vm_compute. reflexivity. Qed.


Lemma reminders_sent_once_witness :
  let gather := gather Background.plain_values in
  let s := demo_start [] <| st_background := <["b1" := Background.built]> ∅ |> <| st_reminder := Some "Try something else." |> in
  map (map Context.content) (st_asked (gather s)) =
    [["[Background task b1] Background command " +:+ dq +:+ "make" +:+ dq +:+ " completed successfully (exit code 0)." +:+ nl +:+ "Output file: /d/tasks/b1.output";
      "Try something else."]] /\
  st_asked (gather (gather s)) = (st_asked (gather s) ++ [[]])%list.
Proof.
  intros gather s. split; [vm_compute; reflexivity|].
  destruct (reminders_sent_once Background.plain_values s) as (tasks & _ & _ & _ & Hn); [done| |exact Hn].
  intros k t Hk. change (st_background s) with (<["b1" := Background.built]> (∅ : Background.Tasks)) in Hk.
  apply lookup_insert_Some in Hk as [[<- <-]|[_ Hk]]; [reflexivity|]. by rewrite lookup_empty in Hk.
Defined.
